(* ===== verification/_CoqProject ===== *)
-Q . S2P
Prelude.v
Crc.v
Lmb.v
Ctype.v
StringLib.v
Memory.v
Qsort.v
Div64.v
Hashtable.v
HashIO.v
Vsprintf.v
BlockHash.v
Sha256.v
Sha1.v
Bootbk.v
Env.v
NandEcc.v
NandUtil.v
EnvCmd.v
EnvNand.v
EnvRedund.v
Circbuf.v
Command.v
Readline.v
Cli.v
Rbtree.v
Wl.v
WlWork.v
Srecord.v
Kermit.v
Hush.v
HushParse.v
HushRun.v
HushFacts.v
HushScripts.v
Mtdparts.v
MtdpartsFacts.v
MtdpartsInv.v
MtdpartsCur.v
PartDos.v
PartFacts.v
Fat.v
FatFacts.v
FatNames.v
FatDir.v
FatRun.v
NandBbt.v
BbtFacts.v
BbtSurvive.v
BbtMark.v
BbtBoot.v
BbtFlash.v
