(* ===== verification/Prelude.v ===== *)
(** * U-Boot for the Meraki MX64: a verification library

    The repository is the boot loader U-Boot, configured for the Meraki MX64
    (board "kingpin", a Broadcom BCM5302x): 32-bit ARM, little-endian, unsigned
    [char].  The paths below are relative to src/U-boot.MX64/.  The library
    models the part of the boot loader that decides what is booted and with
    which settings: the boot command of the board, the environment with its
    storage in NAND flash, the command line with its editor, the built-in interpreter and the
    shell, the downloads over the serial line, files on FAT file systems, the
    partitions of the flash and of disks, the wear-leveling of UBI, and the library
    code these rest on.

    ** Files and what they model

    - Prelude.v: machine integers with their wrap-around, bytes, tactics.
    - Crc.v: lib/crc32.c, lib/crc16.c, lib/crc7.c, fs/ext4/crc16.c.
    - Lmb.v: lib/lmb.c, the allocator of physical memory.
    - Ctype.v, StringLib.v: lib/ctype.c, lib/string.c over a byte-addressed
      memory in which an access outside the allocated bytes is a fault.
    - Memory.v: words and strings in such a memory.
    - Qsort.v: lib/qsort.c.  Div64.v: lib/div64.c.
    - Hashtable.v, HashIO.v: lib/hashtable.c, the table that holds the
      environment, and its import and export as text.
    - Vsprintf.v: lib/vsprintf.c, numbers and formatted text.
    - BlockHash.v, Sha256.v, Sha1.v: lib/sha256.c, lib/sha1.c.
    - Bootbk.v: board/broadcom/bcm95302x/kingpin.c, the command "bootbk".
    - Env.v: common/cmd_nvedit.c, common/env_common.c: [setenv], [getenv] before
      and after the import, "printenv", "env default", the import of a stored
      environment.
    - NandUtil.v: drivers/mtd/mtdcore.c, include/nand.h,
      drivers/mtd/nand/nand_util.c: flash access around bad blocks.
    - NandEcc.v: drivers/mtd/nand/nand_ecc.c, the error correcting code.
    - EnvNand.v, EnvRedund.v: common/env_nand.c, saving and loading the
      environment, with one copy and with two copies.
    - Circbuf.v: lib/circbuf.c.
    - EnvCmd.v: the commands "env export", "env import", "env delete" of
      common/cmd_nvedit.c over a memory.
    - Command.v: common/command.c, the table of the commands, their lookup,
      execution, help and completion.
    - Readline.v: the line editor and its history in common/main.c.
    - Cli.v: the built-in parser, "run", lists of commands, the main loop and the
      boot delay in common/main.c.
    - Rbtree.v: lib/rbtree.c, include/linux/rbtree.h: red-black trees as linked
      nodes in a heap.
    - Wl.v, WlWork.v: drivers/mtd/ubi/wl.c, the wear-leveling of UBI: the trees of
      the blocks and the choice among them (Wl), the queue of works, the workers
      and the operations (WlWork).
    - Srecord.v: common/s_record.c and, in common/cmd_load.c, the commands that
      read and write S-records.  Kermit.v: the receiver of "loadb" there.
    - Hush.v, HushRun.v: common/hush.c, the shell of the board: the parser, and the
      variables, the substitution and the execution.  HushParse.v: the syntax of
      scripts and what the parser makes of them.  HushFacts.v, HushScripts.v: the
      meaning of scripts, and that the shell executes them so.
    - Mtdparts.v: common/cmd_mtdparts.c, the partitions of the flash: the texts, the
      lists, the current partition and the commands "mtdparts" and "chpart".
      MtdpartsFacts.v: the text is read back; MtdpartsInv.v: what every command
      keeps; MtdpartsCur.v: the current partition, and the errors.
    - PartDos.v: disk/part_dos.c and the parts of disk/part.c that are compiled for
      it: partition tables and the choice of a device and a partition.
      PartFacts.v: what a partition number stands for.
    - Fat.v: fs/fat/fat.c and common/cmd_fat.c: reading and listing FAT file systems.
      FatFacts.v: entries of the table and the contents of files; FatNames.v: what
      the bytes of a directory mean, long names included; FatDir.v: searching
      directories and paths; FatRun.v: the theorems, and a small disk.
    - NandBbt.v: drivers/mtd/nand/nand_bbt.c and, of nand_base.c, marking and erasing
      a block: the bad block table in memory and on the flash.  BbtFacts.v: its
      bytes and codes; BbtSurvive.v: writing, reading and updating it; BbtMark.v:
      marking blocks and starting again; BbtBoot.v: the first start; BbtFlash.v: a
      small chip, and what the code does not handle.

    ** How the parts interact

    [do_bootbk] (Bootbk) checks an image with [crc32] (Crc), prints into the
    command line with [snprintf] (Vsprintf) and lays out the tag list in memory
    (Memory).  [setenv] and [getenv] (Env) work on the table of Hashtable.v; the
    callback [env_check_apply] of the table is passed to its operations and the
    calls it receives are recorded.  [saveenv] (EnvNand) exports the table
    (HashIO, which sorts with Qsort), adds the checksum and writes it with the
    functions of NandUtil.v; [env_relocate_spec] reads it back and imports it.
    Flash chips are the interface [NandUtil.Chip] with the laws
    [NandUtil.ChipLaws], which a simulated chip satisfies ([NandUtil.ChipSim]).
    [cread_line] (Readline) completes commands with [cmd_auto_complete] (Command);
    the interpreter (Cli) looks them up and runs them with [cmd_process]
    (Command).  It reads variables through the interface [Cli.Shell] with the laws
    [Cli.ShellLaws], which the environment of Env.v satisfies
    ([Cli.machine_laws]); what a command does is a parameter.  The shell (HushRun)
    works on the same interface and calls the same [cmd_process]; its own variables
    and flags are a state around the machine.  The partitions (Mtdparts) read and set
    variables through [Mtdparts.Variables], with the laws
    [MtdpartsFacts.VariablesLaws].  The commands for FAT find their partition with
    [get_device_and_partition] (PartDos); a disk is a record with a function that
    reads blocks, about which the theorems assume that it reads the blocks of the
    partition ([FatFacts.disk_ok]).

    ** State, faults and fuel

    Stateful code passes its state explicitly: memory as a map from addresses to
    bytes, the table with its surroundings ([Hashtable.world]: the outcome of the
    coming allocations, [errno], the recorded callbacks), the environment as the
    record [Env.env], a flash device as a value of the type of the interface.
    [None] is a fault (an access outside of an object, a null pointer) or, for
    loops with fuel, a loop that does not end; the theorems show that neither
    happens under their hypotheses.  Fuel is computed from the arguments, never
    passed in: the length of the data, the size of the table, the number of the
    blocks of the device; each definition says why it is enough.  Only the depth
    of nested command lines (Cli, HushRun) is passed in: it stands for the size of
    the stack, and in HushRun for the rounds of a loop as well; the theorems say
    that there is a depth from which on the result is the same.  An error return of the code is a value of the result.

    ** What the theorems show

    - Booting: an intact image is entered with the registers and tags that Linux
      expects, a damaged one is not ([do_bootbk_boots], [do_bootbk_rejects],
      [do_bootbk_detects_corruption]).
    - The environment refines a finite map from the commands down to the hash
      table ([env_refines_map], [hashtable_refines_map]); import inverts export
      ([himport_hexport_roundtrip]); a saved environment survives a reboot on
      flash with bad blocks, if erasing is reliable and no value has a backslash
      ([saveenv_restores], which composes Hashtable, HashIO, Crc, NandUtil, EnvNand
      and Env), and with two copies also a power failure at any point of a save
      ([redundant_power_loss_safe]).
    - Flash: data written around bad blocks are read back
      ([nand_skip_bad_roundtrip]), the functions terminate for every driver
      ([nand_util_terminates]), the code corrects one wrong bit and detects two
      ([nand_ecc_corrects_one], [nand_ecc_detects_two]).
    - Libraries: optimised routines equal their reference definitions (CRC, SHA,
      [memcpy], [do_div]), the allocator and the sort meet their specifications,
      [vsnprintf] stays inside its buffer.
    - The command line: the editor behaves like a text with a cursor, as the
      terminal shows it ([cread_line_correct]); commands are found and completed
      by their names ([find_cmd_tbl_correct], [cmd_auto_complete_correct]); a line
      is split, expanded and executed as specified ([parse_line_correct],
      [process_macros_correct], [builtin_run_command_correct]); without a key the
      boot command is executed ([autoboot_runs_bootcmd]).
    - Red-black trees: insertion and removal keep a well-formed tree with its order
      and balance, on the linked nodes themselves ([rb_insert_correct],
      [rb_erase_correct], [rb_height_bound], [rb_iteration_correct]).
    - Wear-leveling: an operation and the works it causes terminate without a fault
      and lose no block silently, with enough memory and unless an erasure has to be
      tried again ([wl_operation_correct]); the errors of the code
      under failures of the flash or of an allocation ([wl_erase_retry_fault],
      [wl_error_frees_used]) and in the choice of a block
      ([wl_unknown_beyond_bound]).
    - Downloads: what "saves" writes "loads" reads back ([srec_roundtrip]), a
      damaged record is noticed ([srec_detects_damage]); over a line that damages
      and repeats packets "loadb" still receives the file ([kermit_receives]),
      unless the damage is in the number of a packet ([kermit_loses_packet]).
    - The shell: the text of a script is read back ([script_roundtrip]) and
      executed by its meaning, a semantics in big steps ([run_command_script],
      [run_command_list_script]); what it does with errors of the syntax and where
      it differs from other shells ([syntax_error_succeeds],
      [list_syntax_error_faults], [chain_skips_rest], [if_without_else_fails]).
    - Partitions: the text that the code writes is read back as the same
      partitions ([mtdparts_roundtrip]); in every state the commands reach, the
      partitions are inside of the flash, aligned and sorted
      ([partitions_in_flash]); changes keep the current partition
      ([part_sort_add_keeps_current], [part_del_keeps_current]), except among
      equal offsets ([part_del_same_offset_faults]); two buffers that are overrun
      ([generate_mtdparts_bounds], [mtdparts_add_overruns]).
    - File systems: a partition number stands for its place in the chain of tables
      ([get_partition_info_dos_correct]), "auto" for the first bootable partition
      ([get_device_and_partition_auto]); an entry of the table is the one of its
      bytes ([get_fatent_correct]), any part of a file is read as its chain of
      clusters says ([get_contents_correct]), and a path is followed to its file
      by short and long names ([file_fat_read_at_correct]).  What damaged tables and a failing device do
      ([get_partition_info_dos_cycle], [bad_cluster_overruns_buffer],
      [fat12_directory_goes_on], [failed_table_read_persists]).
    - Bad blocks: the first start makes the table from the marks of the factory
      ([first_start]); a block that is marked bad is bad at once and after the next
      start, an interrupted update leaves the old or the new table if a table has
      one page ([nand_block_markbad_survives]; with more pages blocks are forgotten,
      [large_table_cut]), and after marks that succeed and restarts no bad block is
      forgotten ([bad_blocks_stay_bad]).  The flash is any one that obeys [flash_laws] and
      [marks_ok]; the geometry is [geometry_ok].  What is not handled: a table that
      cannot be read counts as an empty one ([table_read_error_ignored]), and after
      the versions wrap a table is rewritten at every start
      ([wrapped_mirror_rewritten]).
    - Errors of the code, each with a concrete input: the overflow of [bootcmd], the
      length that wraps in [do_bootbk], entries lost by a full table, the buffer
      overrun of the export, the environment lost after an erasure that failed,
      the inverted result of a list of commands, the repetition of failed
      commands, unbounded recursion of "run", completion behind a suffix.

    ** Not modelled

    Architecture start-up code and drivers (arch/, most of drivers/): register
    access; the chip driver is an interface here.  The network (net/), the file
    systems other than FAT (fs/), partition tables other than those of DOS (disk/),
    USB, image formats (common/image.c, libfdt), compression (lzma, bzip2, zlib,
    lzo), the other layers of UBI, tools/ and examples/: vendored code, code that is
    mostly input and output, or code that a later version may add.
    In the modelled files: console output (except where a command's result is
    text), watchdog and delay calls, and the parts named in the notes of the
    manifest.

    ** Plan

    What could be added next: image headers and bootm, the transfer of a file by
    TFTP, the X/Y-modem receiver, UBI volumes. *)

From stdpp Require Export base numbers list list_numbers option strings gmap.
From Stdlib Require Export Lia.

#[export] Set Default Goal Selector "!".
Open Scope Z_scope.

(** ** Machine integers

    A [w]-bit unsigned C integer is a [Z] in [0 .. 2^w); every operation of
    the sources that can leave that range is followed by the wrap-around
    below.  Signed types use the two's-complement reading. *)

Definition wrap (w x : Z) : Z := x mod 2 ^ w.
Definition swrap (w x : Z) : Z := (x + 2 ^ (w - 1)) mod 2 ^ w - 2 ^ (w - 1).

Declare Scope uboot_scope.
Delimit Scope uboot_scope with ub.
Abbreviation u8 := (wrap 8).
Abbreviation u16 := (wrap 16).
Abbreviation u32 := (wrap 32).
Abbreviation u64 := (wrap 64).
Abbreviation s8 := (swrap 8).
Abbreviation s32 := (swrap 32).
Notation "x '⊕' y" := (Z.lxor x y) (at level 45, left associativity) : uboot_scope.
Notation "x '&' y" := (Z.land x y) (at level 40, left associativity) : uboot_scope.
Open Scope uboot_scope.

(** Bytes, and strings of bytes. *)
Definition is_byte (b : Z) : Prop := 0 <= b < 256.
Definition is_u32 (x : Z) : Prop := 0 <= x < 2 ^ 32.
Abbreviation is_bytes := (Forall is_byte).

(** Lengths as integers. *)
Abbreviation zlen l := (Z.of_nat (length l)).

(** The bytes of a string literal. *)
Definition str (s : string) : list Z :=
  (fun c => Z.of_N (Ascii.N_of_ascii c)) <$> String.list_ascii_of_string s.

(** Little-endian loads of any width. *)
Fixpoint le_load (l : list Z) : Z :=
  match l with
  | [] => 0
  | b :: l => b + 256 * le_load l
  end.

(** ** Automation *)

Create HintDb uboot discriminated.
Create HintDb zbits discriminated.

Lemma wrap_range w x : 0 <= w -> 0 <= wrap w x < 2 ^ w.
Proof. intros. apply Z.mod_pos_bound. lia. Qed.

Lemma wrap_small w x : 0 <= x < 2 ^ w -> wrap w x = x.
Proof. apply Z.mod_small. Qed.

Lemma wrap_wrap w x : 0 <= w -> wrap w (wrap w x) = wrap w x.
Proof. intros. apply wrap_small, wrap_range; lia. Qed.

Lemma swrap_range w x : 0 < w -> - 2 ^ (w - 1) <= swrap w x < 2 ^ (w - 1).
Proof.
  intros Hw. unfold swrap.
  pose proof (Z.mod_pos_bound (x + 2 ^ (w - 1)) (2 ^ w)) as H.
  assert (2 ^ w = 2 * 2 ^ (w - 1)).
  { rewrite <- Z.pow_succ_r by lia. f_equal. lia. }
  lia.
Qed.

Lemma swrap_small w x : 0 < w -> - 2 ^ (w - 1) <= x < 2 ^ (w - 1) -> swrap w x = x.
Proof.
  intros Hw H. unfold swrap.
  assert (2 ^ w = 2 * 2 ^ (w - 1)).
  { rewrite <- Z.pow_succ_r by lia. f_equal. lia. }
  rewrite Z.mod_small; lia.
Qed.

#[export] Hint Resolve wrap_range : uboot.

Lemma wrap_testbit w x i : 0 <= w -> 0 <= i ->
  Z.testbit (wrap w x) i = (i <? w) && Z.testbit x i.
Proof.
  intros. unfold wrap. destruct (Z.ltb_spec i w).
  - rewrite Z.mod_pow2_bits_low; [done | lia].
  - rewrite Z.mod_pow2_bits_high; [done | lia].
Qed.

Lemma testbit_high w x i : 0 <= x < 2 ^ w -> 0 <= w <= i -> Z.testbit x i = false.
Proof.
  intros Hx Hi. rewrite <- (Z.mod_small x (2 ^ w)) by lia.
  rewrite Z.mod_pow2_bits_high; [done | lia].
Qed.

(** A value whose bits from [w] on are all clear is a [w]-bit value. *)
Lemma bits_range w x : 0 <= w -> 0 <= x ->
  (forall i, w <= i -> Z.testbit x i = false) -> 0 <= x < 2 ^ w.
Proof.
  intros Hw Hx H. split; [done |].
  destruct (Z.eq_dec x 0) as [-> | Hne]; [apply Z.pow_pos_nonneg; lia |].
  apply Z.log2_lt_pow2; [lia |].
  destruct (Z.lt_ge_cases (Z.log2 x) w) as [| Hge]; [done |].
  pose proof (Z.bit_log2 x ltac:(lia)) as Hb. rewrite H in Hb; done.
Qed.

Lemma lxor_range w x y : 0 <= w -> 0 <= x < 2 ^ w -> 0 <= y < 2 ^ w -> 0 <= Z.lxor x y < 2 ^ w.
Proof.
  intros. apply bits_range; [done | apply Z.lxor_nonneg; lia |].
  intros i Hi. rewrite Z.lxor_spec, !(testbit_high w) by lia. done.
Qed.

Lemma land_range w x y : 0 <= w -> 0 <= x < 2 ^ w -> 0 <= Z.land x y < 2 ^ w.
Proof.
  intros. apply bits_range; [done | apply Z.land_nonneg; lia |].
  intros i Hi. rewrite Z.land_spec, (testbit_high w x) by lia. done.
Qed.

Lemma lor_range w x y : 0 <= w -> 0 <= x < 2 ^ w -> 0 <= y < 2 ^ w -> 0 <= Z.lor x y < 2 ^ w.
Proof.
  intros. apply bits_range; [done | apply Z.lor_nonneg; lia |].
  intros i Hi. rewrite Z.lor_spec, !(testbit_high w) by lia. done.
Qed.

Lemma shiftr_range w x n : 0 <= w -> 0 <= n -> 0 <= x < 2 ^ w -> 0 <= Z.shiftr x n < 2 ^ w.
Proof.
  intros. rewrite Z.shiftr_div_pow2 by lia.
  pose proof (Z.pow_pos_nonneg 2 n). split; [apply Z.div_pos; lia |].
  apply Z.le_lt_trans with x; [| lia]. apply Z.div_le_upper_bound; nia.
Qed.

#[export] Hint Resolve lxor_range land_range lor_range shiftr_range : uboot.

(** [zbits] proves an equation between bit-level expressions bit by bit. *)
Ltac zbits_rw :=
  repeat match goal with
  | |- context [Z.testbit (Z.lxor ?x ?y) ?j] => rewrite (Z.lxor_spec x y j)
  | |- context [Z.testbit (Z.land ?x ?y) ?j] => rewrite (Z.land_spec x y j)
  | |- context [Z.testbit (Z.lor ?x ?y) ?j] => rewrite (Z.lor_spec x y j)
  | |- context [Z.testbit (Z.shiftr ?x ?n) ?j] => rewrite (Z.shiftr_spec x n j) by lia
  | |- context [Z.testbit (Z.shiftl ?x ?n) ?j] => rewrite (Z.shiftl_spec x n j) by lia
  | |- context [Z.testbit (wrap ?w ?x) ?j] => rewrite (wrap_testbit w x j) by lia
  | |- context [Z.testbit 0 ?j] => rewrite (Z.bits_0 j)
  end.
Ltac zbits :=
  apply Z.bits_inj'; intros ?i ?Hi; zbits_rw.

(** [cases_ltb] splits on every comparison of integers in the goal. *)
Ltac cases_ltb :=
  repeat match goal with
  | |- context [?a <? ?b] => destruct (Z.ltb_spec a b)
  | |- context [?a <=? ?b] => destruct (Z.leb_spec a b)
  | |- context [?a =? ?b] => destruct (Z.eqb_spec a b)
  end.

(** Same for hypotheses. *)
Ltac cases_ltb_in H :=
  repeat match type of H with
  | context [?a <? ?b] => destruct (Z.ltb_spec a b)
  | context [?a <=? ?b] => destruct (Z.leb_spec a b)
  | context [?a =? ?b] => destruct (Z.eqb_spec a b)
  end.

(** [solve_bytes] proves that the elements of a concrete list are bytes. *)
Ltac solve_bytes :=
  repeat (apply Forall_cons; split; [done |]); by apply Forall_nil.

(** ** Little-endian values *)

Lemma le_load_range l : is_bytes l -> 0 <= le_load l < 2 ^ (8 * zlen l).
Proof.
  induction 1 as [| b l Hb _ IH]; cbn [le_load length]; [done |].
  rewrite Nat2Z.inj_succ, Z.mul_succ_r, Z.pow_add_r by lia.
  unfold is_byte in Hb. change (2 ^ 8) with 256. lia.
Qed.

Lemma le_load_inj l1 l2 : is_bytes l1 -> is_bytes l2 -> length l1 = length l2 ->
  le_load l1 = le_load l2 -> l1 = l2.
Proof.
  intros H1. revert l2.
  induction H1 as [| b1 l1 Hb1 _ IH]; intros [| b2 l2] H2 Hlen Heq; try done.
  apply Forall_cons in H2 as [Hb2 H2]. cbn in Heq, Hlen. unfold is_byte in *.
  assert (b1 = b2) as -> by lia. f_equal. apply IH; [done | lia | lia].
Qed.

Lemma le_load_app l1 l2 :
  le_load (l1 ++ l2) = le_load l1 + 2 ^ (8 * zlen l1) * le_load l2.
Proof.
  induction l1 as [| b l1 IH]; cbn [le_load app length].
  { rewrite Z.mul_0_r, Z.pow_0_r. lia. }
  rewrite IH, Nat2Z.inj_succ, Z.mul_succ_r, Z.pow_add_r by lia.
  change (2 ^ 8) with 256. lia.
Qed.

(** An addition of disjoint bit fields is an exclusive or. *)
Lemma add_lxor_disjoint w x y : 0 <= w -> 0 <= x < 2 ^ w ->
  x + 2 ^ w * y = Z.lxor x (Z.shiftl y w).
Proof.
  intros Hw Hx. rewrite Z.mul_comm, <- Z.shiftl_mul_pow2 by lia.
  rewrite <- Z.add_nocarry_lxor; [done |].
  zbits. destruct (Z.ltb_spec i w).
  - rewrite (Z.testbit_neg_r y) by lia. by rewrite andb_false_r.
  - by rewrite (testbit_high w) by lia.
Qed.

(** ** Tables indexed by an integer *)

Lemma table_lookup {A} (f : Z -> A) d n i : 0 <= i < n ->
  default d ((f <$> seqZ 0 n) !! Z.to_nat i) = f i.
Proof.
  intros Hi. rewrite list_lookup_fmap, lookup_seqZ_lt by lia. cbn. f_equal. lia.
Qed.

(** Two functions with the same table agree on its range. *)
Lemma table_ext {A} (d : A) (f g : Z -> A) n : f <$> seqZ 0 n = g <$> seqZ 0 n ->
  forall i, 0 <= i < n -> f i = g i.
Proof. intros H i Hi. by rewrite <- (table_lookup f d n i), H, table_lookup by lia. Qed.

(** A boolean property checked for [n] consecutive integers. *)
Fixpoint all_from (f : Z -> bool) (n : nat) (i : Z) : bool :=
  match n with O => true | S n => if f i then all_from f n (i + 1) else false end.

Lemma all_from_spec f n : forall i, all_from f n i = true -> forall j, i <= j < i + Z.of_nat n -> f j = true.
Proof.
  induction n as [| n IH]; intros i H j Hj; [lia |]. cbn [all_from] in H. destruct (f i) eqn:Hi; [| done].
  destruct (Z.eq_dec j i) as [-> | Hne]; [done |]. apply (IH (i + 1)); [done | lia].
Qed.
