(* ===== verification/Crc.v ===== *)
(** * Cyclic redundancy checks

    lib/crc32.c, lib/crc16.c, fs/ext4/crc16.c and lib/crc7.c: the table-driven
    routines, the tables they use, and the bit-serial definitions of the
    polynomials they implement.  The target is little-endian, so [cpu_to_le32]
    and [le32_to_cpu] are the identity and [DO_CRC] is the first of the two
    macros of lib/crc32.c. *)

From S2P Require Import Prelude.

(** ** Shift registers that take the least significant bit first

    A register of [w] bits with feedback [poly]; the 32-bit CRC and the
    16-bit CRC of ext4 are instances. *)

Section Reflected.
Context (w poly : Z).

(** One step of the inner loop of [make_crc_table]:
    [c = c & 1 ? poly ^ (c >> 1) : c >> 1]. *)
Definition crc_shift (c : Z) : Z :=
  if Z.land c 1 =? 0 then Z.shiftr c 1 else Z.lxor poly (Z.shiftr c 1).

Definition crc_shift8 (c : Z) : Z := Nat.iter 8 crc_shift c.

(** The bit-serial reference: add the byte, clock the register 8 times. *)
Definition crc_ref (crc : Z) (buf : list Z) : Z :=
  fold_left (fun c b => crc_shift8 (Z.lxor c b)) buf crc.

End Reflected.

(** ** lib/crc32.c *)

Module Crc32.

(** [p[]]: the terms of the polynomial, except x^32. *)
Definition poly_terms : list Z := [0; 1; 2; 4; 5; 7; 8; 10; 11; 12; 16; 22; 23; 26].

Definition poly : Z := fold_left (fun acc p => Z.lor acc (Z.shiftl 1 (31 - p))) poly_terms 0.

Definition make_crc_table : list Z := (fun n => crc_shift8 poly n) <$> seqZ 0 256.

Definition crc_table : list Z :=
  [0x00000000; 0x77073096; 0xee0e612c; 0x990951ba; 0x076dc419; 0x706af48f; 0xe963a535; 0x9e6495a3;
   0x0edb8832; 0x79dcb8a4; 0xe0d5e91e; 0x97d2d988; 0x09b64c2b; 0x7eb17cbd; 0xe7b82d07; 0x90bf1d91;
   0x1db71064; 0x6ab020f2; 0xf3b97148; 0x84be41de; 0x1adad47d; 0x6ddde4eb; 0xf4d4b551; 0x83d385c7;
   0x136c9856; 0x646ba8c0; 0xfd62f97a; 0x8a65c9ec; 0x14015c4f; 0x63066cd9; 0xfa0f3d63; 0x8d080df5;
   0x3b6e20c8; 0x4c69105e; 0xd56041e4; 0xa2677172; 0x3c03e4d1; 0x4b04d447; 0xd20d85fd; 0xa50ab56b;
   0x35b5a8fa; 0x42b2986c; 0xdbbbc9d6; 0xacbcf940; 0x32d86ce3; 0x45df5c75; 0xdcd60dcf; 0xabd13d59;
   0x26d930ac; 0x51de003a; 0xc8d75180; 0xbfd06116; 0x21b4f4b5; 0x56b3c423; 0xcfba9599; 0xb8bda50f;
   0x2802b89e; 0x5f058808; 0xc60cd9b2; 0xb10be924; 0x2f6f7c87; 0x58684c11; 0xc1611dab; 0xb6662d3d;
   0x76dc4190; 0x01db7106; 0x98d220bc; 0xefd5102a; 0x71b18589; 0x06b6b51f; 0x9fbfe4a5; 0xe8b8d433;
   0x7807c9a2; 0x0f00f934; 0x9609a88e; 0xe10e9818; 0x7f6a0dbb; 0x086d3d2d; 0x91646c97; 0xe6635c01;
   0x6b6b51f4; 0x1c6c6162; 0x856530d8; 0xf262004e; 0x6c0695ed; 0x1b01a57b; 0x8208f4c1; 0xf50fc457;
   0x65b0d9c6; 0x12b7e950; 0x8bbeb8ea; 0xfcb9887c; 0x62dd1ddf; 0x15da2d49; 0x8cd37cf3; 0xfbd44c65;
   0x4db26158; 0x3ab551ce; 0xa3bc0074; 0xd4bb30e2; 0x4adfa541; 0x3dd895d7; 0xa4d1c46d; 0xd3d6f4fb;
   0x4369e96a; 0x346ed9fc; 0xad678846; 0xda60b8d0; 0x44042d73; 0x33031de5; 0xaa0a4c5f; 0xdd0d7cc9;
   0x5005713c; 0x270241aa; 0xbe0b1010; 0xc90c2086; 0x5768b525; 0x206f85b3; 0xb966d409; 0xce61e49f;
   0x5edef90e; 0x29d9c998; 0xb0d09822; 0xc7d7a8b4; 0x59b33d17; 0x2eb40d81; 0xb7bd5c3b; 0xc0ba6cad;
   0xedb88320; 0x9abfb3b6; 0x03b6e20c; 0x74b1d29a; 0xead54739; 0x9dd277af; 0x04db2615; 0x73dc1683;
   0xe3630b12; 0x94643b84; 0x0d6d6a3e; 0x7a6a5aa8; 0xe40ecf0b; 0x9309ff9d; 0x0a00ae27; 0x7d079eb1;
   0xf00f9344; 0x8708a3d2; 0x1e01f268; 0x6906c2fe; 0xf762575d; 0x806567cb; 0x196c3671; 0x6e6b06e7;
   0xfed41b76; 0x89d32be0; 0x10da7a5a; 0x67dd4acc; 0xf9b9df6f; 0x8ebeeff9; 0x17b7be43; 0x60b08ed5;
   0xd6d6a3e8; 0xa1d1937e; 0x38d8c2c4; 0x4fdff252; 0xd1bb67f1; 0xa6bc5767; 0x3fb506dd; 0x48b2364b;
   0xd80d2bda; 0xaf0a1b4c; 0x36034af6; 0x41047a60; 0xdf60efc3; 0xa867df55; 0x316e8eef; 0x4669be79;
   0xcb61b38c; 0xbc66831a; 0x256fd2a0; 0x5268e236; 0xcc0c7795; 0xbb0b4703; 0x220216b9; 0x5505262f;
   0xc5ba3bbe; 0xb2bd0b28; 0x2bb45a92; 0x5cb36a04; 0xc2d7ffa7; 0xb5d0cf31; 0x2cd99e8b; 0x5bdeae1d;
   0x9b64c2b0; 0xec63f226; 0x756aa39c; 0x026d930a; 0x9c0906a9; 0xeb0e363f; 0x72076785; 0x05005713;
   0x95bf4a82; 0xe2b87a14; 0x7bb12bae; 0x0cb61b38; 0x92d28e9b; 0xe5d5be0d; 0x7cdcefb7; 0x0bdbdf21;
   0x86d3d2d4; 0xf1d4e242; 0x68ddb3f8; 0x1fda836e; 0x81be16cd; 0xf6b9265b; 0x6fb077e1; 0x18b74777;
   0x88085ae6; 0xff0f6a70; 0x66063bca; 0x11010b5c; 0x8f659eff; 0xf862ae69; 0x616bffd3; 0x166ccf45;
   0xa00ae278; 0xd70dd2ee; 0x4e048354; 0x3903b3c2; 0xa7672661; 0xd06016f7; 0x4969474d; 0x3e6e77db;
   0xaed16a4a; 0xd9d65adc; 0x40df0b66; 0x37d83bf0; 0xa9bcae53; 0xdebb9ec5; 0x47b2cf7f; 0x30b5ffe9;
   0xbdbdf21c; 0xcabac28a; 0x53b39330; 0x24b4a3a6; 0xbad03605; 0xcdd70693; 0x54de5729; 0x23d967bf;
   0xb3667a2e; 0xc4614ab8; 0x5d681b02; 0x2a6f2b94; 0xb40bbe37; 0xc30c8ea1; 0x5a05df1b; 0x2d02ef8d].

Definition tab_get (i : Z) : Z := default 0 (crc_table !! Z.to_nat i).

(** [DO_CRC(x)]: [crc = tab[(crc ^ (x)) & 255] ^ (crc >> 8)]. *)
Definition DO_CRC (crc x : Z) : Z :=
  Z.lxor (tab_get (Z.land (Z.lxor crc x) 255)) (Z.shiftr crc 8).

(** The alignment loop [do DO_CRC( *p++ ); while ((--len) && ((long)p) & 3)],
    entered with [len > 0]; returns the register and the bytes left. *)
Fixpoint crc_align (crc p : Z) (buf : list Z) : Z * list Z :=
  match buf with
  | [] => (crc, [])
  | b :: buf' =>
      let crc := DO_CRC crc b in
      let p := p + 1 in
      match buf' with
      | [] => (crc, [])
      | _ => if Z.land p 3 =? 0 then (crc, buf') else crc_align crc p buf'
      end
  end.

(** The word loop: xor 32 bits in, then four [DO_CRC(0)]. *)
Fixpoint crc_words (n : nat) (crc : Z) (buf : list Z) : Z * list Z :=
  match n with
  | O => (crc, buf)
  | S n =>
      let crc := Z.lxor crc (le_load (take 4 buf)) in
      let crc := DO_CRC (DO_CRC (DO_CRC (DO_CRC crc 0) 0) 0) 0 in
      crc_words n crc (drop 4 buf)
  end.

(** [crc32_no_comp(crc, buf, len)], [buf] being the [len] bytes at address
    [addr]. *)
Definition crc32_no_comp (crc addr : Z) (buf : list Z) : Z :=
  let '(crc, buf) :=
    if (negb (Z.land addr 3 =? 0) && negb (zlen buf =? 0))%bool
    then crc_align crc addr buf else (crc, buf) in
  let len := zlen buf in
  let rem_len := Z.land len 3 in
  let '(crc, buf) := crc_words (Z.to_nat (Z.shiftr len 2)) crc buf in
  fold_left DO_CRC (take (Z.to_nat rem_len) buf) crc.

Definition crc32 (crc addr : Z) (buf : list Z) : Z :=
  Z.lxor (crc32_no_comp (Z.lxor crc 0xffffffff) addr buf) 0xffffffff.

(** [crc32_wd] as built with a watchdog: the loop over chunks of at most
    [chunk_sz] bytes.  [None]: the loop is still running after [fuel] rounds. *)
Fixpoint crc32_wd_loop (fuel : nat) (crc curr : Z) (buf : list Z) (chunk_sz : Z) : option Z :=
  match fuel with
  | O => None
  | S fuel =>
      if zlen buf <=? 0 then Some crc
      else
        let chunk := zlen buf in
        let chunk := if chunk >? chunk_sz then chunk_sz else chunk in
        let crc := crc32 crc curr (take (Z.to_nat chunk) buf) in
        crc32_wd_loop fuel crc (curr + chunk) (drop (Z.to_nat chunk) buf) chunk_sz
  end.

(** [crc32_wd]; [watchdog] tells whether CONFIG_(HW_)WATCHDOG is set.  The
    loop makes at most one round per byte, plus the final test. *)
Definition crc32_wd (watchdog : bool) (crc addr : Z) (buf : list Z) (chunk_sz : Z) : option Z :=
  if watchdog then crc32_wd_loop (S (length buf)) crc addr buf chunk_sz
  else Some (crc32 crc addr buf).

End Crc32.

(** ** lib/crc16.c: the CRC of the X- and Y-modem protocols *)

Module Crc16.

Definition crc16_tab : list Z :=
  [0x0000; 0x1021; 0x2042; 0x3063; 0x4084; 0x50a5; 0x60c6; 0x70e7;
   0x8108; 0x9129; 0xa14a; 0xb16b; 0xc18c; 0xd1ad; 0xe1ce; 0xf1ef;
   0x1231; 0x0210; 0x3273; 0x2252; 0x52b5; 0x4294; 0x72f7; 0x62d6;
   0x9339; 0x8318; 0xb37b; 0xa35a; 0xd3bd; 0xc39c; 0xf3ff; 0xe3de;
   0x2462; 0x3443; 0x0420; 0x1401; 0x64e6; 0x74c7; 0x44a4; 0x5485;
   0xa56a; 0xb54b; 0x8528; 0x9509; 0xe5ee; 0xf5cf; 0xc5ac; 0xd58d;
   0x3653; 0x2672; 0x1611; 0x0630; 0x76d7; 0x66f6; 0x5695; 0x46b4;
   0xb75b; 0xa77a; 0x9719; 0x8738; 0xf7df; 0xe7fe; 0xd79d; 0xc7bc;
   0x48c4; 0x58e5; 0x6886; 0x78a7; 0x0840; 0x1861; 0x2802; 0x3823;
   0xc9cc; 0xd9ed; 0xe98e; 0xf9af; 0x8948; 0x9969; 0xa90a; 0xb92b;
   0x5af5; 0x4ad4; 0x7ab7; 0x6a96; 0x1a71; 0x0a50; 0x3a33; 0x2a12;
   0xdbfd; 0xcbdc; 0xfbbf; 0xeb9e; 0x9b79; 0x8b58; 0xbb3b; 0xab1a;
   0x6ca6; 0x7c87; 0x4ce4; 0x5cc5; 0x2c22; 0x3c03; 0x0c60; 0x1c41;
   0xedae; 0xfd8f; 0xcdec; 0xddcd; 0xad2a; 0xbd0b; 0x8d68; 0x9d49;
   0x7e97; 0x6eb6; 0x5ed5; 0x4ef4; 0x3e13; 0x2e32; 0x1e51; 0x0e70;
   0xff9f; 0xefbe; 0xdfdd; 0xcffc; 0xbf1b; 0xaf3a; 0x9f59; 0x8f78;
   0x9188; 0x81a9; 0xb1ca; 0xa1eb; 0xd10c; 0xc12d; 0xf14e; 0xe16f;
   0x1080; 0x00a1; 0x30c2; 0x20e3; 0x5004; 0x4025; 0x7046; 0x6067;
   0x83b9; 0x9398; 0xa3fb; 0xb3da; 0xc33d; 0xd31c; 0xe37f; 0xf35e;
   0x02b1; 0x1290; 0x22f3; 0x32d2; 0x4235; 0x5214; 0x6277; 0x7256;
   0xb5ea; 0xa5cb; 0x95a8; 0x8589; 0xf56e; 0xe54f; 0xd52c; 0xc50d;
   0x34e2; 0x24c3; 0x14a0; 0x0481; 0x7466; 0x6447; 0x5424; 0x4405;
   0xa7db; 0xb7fa; 0x8799; 0x97b8; 0xe75f; 0xf77e; 0xc71d; 0xd73c;
   0x26d3; 0x36f2; 0x0691; 0x16b0; 0x6657; 0x7676; 0x4615; 0x5634;
   0xd94c; 0xc96d; 0xf90e; 0xe92f; 0x99c8; 0x89e9; 0xb98a; 0xa9ab;
   0x5844; 0x4865; 0x7806; 0x6827; 0x18c0; 0x08e1; 0x3882; 0x28a3;
   0xcb7d; 0xdb5c; 0xeb3f; 0xfb1e; 0x8bf9; 0x9bd8; 0xabbb; 0xbb9a;
   0x4a75; 0x5a54; 0x6a37; 0x7a16; 0x0af1; 0x1ad0; 0x2ab3; 0x3a92;
   0xfd2e; 0xed0f; 0xdd6c; 0xcd4d; 0xbdaa; 0xad8b; 0x9de8; 0x8dc9;
   0x7c26; 0x6c07; 0x5c64; 0x4c45; 0x3ca2; 0x2c83; 0x1ce0; 0x0cc1;
   0xef1f; 0xff3e; 0xcf5d; 0xdf7c; 0xaf9b; 0xbfba; 0x8fd9; 0x9ff8;
   0x6e17; 0x7e36; 0x4e55; 0x5e74; 0x2e93; 0x3eb2; 0x0ed1; 0x1ef0].

(** [cksum = crc16_tab[((cksum>>8) ^ *buf++) & 0xFF] ^ (cksum << 8)], in a
    [uint16_t]. *)
Definition crc16_step (cksum b : Z) : Z :=
  u16 (Z.lxor (default 0 (crc16_tab !! Z.to_nat (Z.land (Z.lxor (Z.shiftr cksum 8) b) 0xFF)))
         (Z.shiftl cksum 8)).

Definition cyg_crc16 (buf : list Z) : Z := fold_left crc16_step buf 0.

(** The bit-serial reference for x^16+x^12+x^5+1, most significant bit
    first. *)
Definition crc16_shift (c : Z) : Z :=
  if Z.testbit c 15 then Z.lxor (u16 (Z.shiftl c 1)) 0x1021 else u16 (Z.shiftl c 1).

Definition crc16_shift8 (c : Z) : Z := Nat.iter 8 crc16_shift c.

Definition crc16_ref (crc : Z) (buf : list Z) : Z :=
  fold_left (fun c b => crc16_shift8 (Z.lxor c (Z.shiftl b 8))) buf crc.

End Crc16.

(** ** fs/ext4/crc16.c *)

Module Ext4Crc16.

Definition crc16_table : list Z :=
  [0x0000; 0xC0C1; 0xC181; 0x0140; 0xC301; 0x03C0; 0x0280; 0xC241;
   0xC601; 0x06C0; 0x0780; 0xC741; 0x0500; 0xC5C1; 0xC481; 0x0440;
   0xCC01; 0x0CC0; 0x0D80; 0xCD41; 0x0F00; 0xCFC1; 0xCE81; 0x0E40;
   0x0A00; 0xCAC1; 0xCB81; 0x0B40; 0xC901; 0x09C0; 0x0880; 0xC841;
   0xD801; 0x18C0; 0x1980; 0xD941; 0x1B00; 0xDBC1; 0xDA81; 0x1A40;
   0x1E00; 0xDEC1; 0xDF81; 0x1F40; 0xDD01; 0x1DC0; 0x1C80; 0xDC41;
   0x1400; 0xD4C1; 0xD581; 0x1540; 0xD701; 0x17C0; 0x1680; 0xD641;
   0xD201; 0x12C0; 0x1380; 0xD341; 0x1100; 0xD1C1; 0xD081; 0x1040;
   0xF001; 0x30C0; 0x3180; 0xF141; 0x3300; 0xF3C1; 0xF281; 0x3240;
   0x3600; 0xF6C1; 0xF781; 0x3740; 0xF501; 0x35C0; 0x3480; 0xF441;
   0x3C00; 0xFCC1; 0xFD81; 0x3D40; 0xFF01; 0x3FC0; 0x3E80; 0xFE41;
   0xFA01; 0x3AC0; 0x3B80; 0xFB41; 0x3900; 0xF9C1; 0xF881; 0x3840;
   0x2800; 0xE8C1; 0xE981; 0x2940; 0xEB01; 0x2BC0; 0x2A80; 0xEA41;
   0xEE01; 0x2EC0; 0x2F80; 0xEF41; 0x2D00; 0xEDC1; 0xEC81; 0x2C40;
   0xE401; 0x24C0; 0x2580; 0xE541; 0x2700; 0xE7C1; 0xE681; 0x2640;
   0x2200; 0xE2C1; 0xE381; 0x2340; 0xE101; 0x21C0; 0x2080; 0xE041;
   0xA001; 0x60C0; 0x6180; 0xA141; 0x6300; 0xA3C1; 0xA281; 0x6240;
   0x6600; 0xA6C1; 0xA781; 0x6740; 0xA501; 0x65C0; 0x6480; 0xA441;
   0x6C00; 0xACC1; 0xAD81; 0x6D40; 0xAF01; 0x6FC0; 0x6E80; 0xAE41;
   0xAA01; 0x6AC0; 0x6B80; 0xAB41; 0x6900; 0xA9C1; 0xA881; 0x6840;
   0x7800; 0xB8C1; 0xB981; 0x7940; 0xBB01; 0x7BC0; 0x7A80; 0xBA41;
   0xBE01; 0x7EC0; 0x7F80; 0xBF41; 0x7D00; 0xBDC1; 0xBC81; 0x7C40;
   0xB401; 0x74C0; 0x7580; 0xB541; 0x7700; 0xB7C1; 0xB681; 0x7640;
   0x7200; 0xB2C1; 0xB381; 0x7340; 0xB101; 0x71C0; 0x7080; 0xB041;
   0x5000; 0x90C1; 0x9181; 0x5140; 0x9301; 0x53C0; 0x5280; 0x9241;
   0x9601; 0x56C0; 0x5780; 0x9741; 0x5500; 0x95C1; 0x9481; 0x5440;
   0x9C01; 0x5CC0; 0x5D80; 0x9D41; 0x5F00; 0x9FC1; 0x9E81; 0x5E40;
   0x5A00; 0x9AC1; 0x9B81; 0x5B40; 0x9901; 0x59C0; 0x5880; 0x9841;
   0x8801; 0x48C0; 0x4980; 0x8941; 0x4B00; 0x8BC1; 0x8A81; 0x4A40;
   0x4E00; 0x8EC1; 0x8F81; 0x4F40; 0x8D01; 0x4DC0; 0x4C80; 0x8C41;
   0x4400; 0x84C1; 0x8581; 0x4540; 0x8701; 0x47C0; 0x4680; 0x8641;
   0x8201; 0x42C0; 0x4380; 0x8341; 0x4100; 0x81C1; 0x8081; 0x4040].

(** [crc = (((crc >> 8) & 0xff) ^ crc16_table[(crc ^ *cp++) & 0xff]) & 0xffff] *)
Definition ext2fs_crc16_step (crc b : Z) : Z :=
  Z.land (Z.lxor (Z.land (Z.shiftr crc 8) 0xff)
            (default 0 (crc16_table !! Z.to_nat (Z.land (Z.lxor crc b) 0xff)))) 0xffff.

Definition ext2fs_crc16 (crc : Z) (buf : list Z) : Z := fold_left ext2fs_crc16_step buf crc.

(** x^16+x^15+x^2+1, least significant bit first. *)
Definition poly : Z := 0xa001.

End Ext4Crc16.

(** ** lib/crc7.c *)

Module Crc7.

Definition crc7_syndrome_table : list Z :=
  [0x00; 0x09; 0x12; 0x1b; 0x24; 0x2d; 0x36; 0x3f; 0x48; 0x41; 0x5a; 0x53; 0x6c; 0x65; 0x7e; 0x77;
   0x19; 0x10; 0x0b; 0x02; 0x3d; 0x34; 0x2f; 0x26; 0x51; 0x58; 0x43; 0x4a; 0x75; 0x7c; 0x67; 0x6e;
   0x32; 0x3b; 0x20; 0x29; 0x16; 0x1f; 0x04; 0x0d; 0x7a; 0x73; 0x68; 0x61; 0x5e; 0x57; 0x4c; 0x45;
   0x2b; 0x22; 0x39; 0x30; 0x0f; 0x06; 0x1d; 0x14; 0x63; 0x6a; 0x71; 0x78; 0x47; 0x4e; 0x55; 0x5c;
   0x64; 0x6d; 0x76; 0x7f; 0x40; 0x49; 0x52; 0x5b; 0x2c; 0x25; 0x3e; 0x37; 0x08; 0x01; 0x1a; 0x13;
   0x7d; 0x74; 0x6f; 0x66; 0x59; 0x50; 0x4b; 0x42; 0x35; 0x3c; 0x27; 0x2e; 0x11; 0x18; 0x03; 0x0a;
   0x56; 0x5f; 0x44; 0x4d; 0x72; 0x7b; 0x60; 0x69; 0x1e; 0x17; 0x0c; 0x05; 0x3a; 0x33; 0x28; 0x21;
   0x4f; 0x46; 0x5d; 0x54; 0x6b; 0x62; 0x79; 0x70; 0x07; 0x0e; 0x15; 0x1c; 0x23; 0x2a; 0x31; 0x38;
   0x41; 0x48; 0x53; 0x5a; 0x65; 0x6c; 0x77; 0x7e; 0x09; 0x00; 0x1b; 0x12; 0x2d; 0x24; 0x3f; 0x36;
   0x58; 0x51; 0x4a; 0x43; 0x7c; 0x75; 0x6e; 0x67; 0x10; 0x19; 0x02; 0x0b; 0x34; 0x3d; 0x26; 0x2f;
   0x73; 0x7a; 0x61; 0x68; 0x57; 0x5e; 0x45; 0x4c; 0x3b; 0x32; 0x29; 0x20; 0x1f; 0x16; 0x0d; 0x04;
   0x6a; 0x63; 0x78; 0x71; 0x4e; 0x47; 0x5c; 0x55; 0x22; 0x2b; 0x30; 0x39; 0x06; 0x0f; 0x14; 0x1d;
   0x25; 0x2c; 0x37; 0x3e; 0x01; 0x08; 0x13; 0x1a; 0x6d; 0x64; 0x7f; 0x76; 0x49; 0x40; 0x5b; 0x52;
   0x3c; 0x35; 0x2e; 0x27; 0x18; 0x11; 0x0a; 0x03; 0x74; 0x7d; 0x66; 0x6f; 0x50; 0x59; 0x42; 0x4b;
   0x17; 0x1e; 0x05; 0x0c; 0x33; 0x3a; 0x21; 0x28; 0x5f; 0x56; 0x4d; 0x44; 0x7b; 0x72; 0x69; 0x60;
   0x0e; 0x07; 0x1c; 0x15; 0x2a; 0x23; 0x38; 0x31; 0x46; 0x4f; 0x54; 0x5d; 0x62; 0x6b; 0x70; 0x79].

(** [crc7_byte] of include/linux/crc7.h: [crc7_syndrome_table[(crc << 1) ^ data]];
    both operands are of type [u8], the index is an [int]. *)
Definition crc7_byte (crc data : Z) : Z :=
  default 0 (crc7_syndrome_table !! Z.to_nat (Z.lxor (Z.shiftl crc 1) data)).

Definition crc7 (crc : Z) (buf : list Z) : Z := fold_left crc7_byte buf crc.

(** x^7+x^3+1, most significant bit first, in a 7-bit register. *)
Definition crc7_bit (c : Z) (bit : bool) : Z :=
  let fb := xorb (Z.testbit c 6) bit in
  let c := Z.land (Z.shiftl c 1) 0x7f in
  if fb then Z.lxor c 0x09 else c.

Definition crc7_ref (crc : Z) (buf : list Z) : Z :=
  fold_left (fun c b =>
    fold_left (fun c i => crc7_bit c (Z.testbit b i)) [7; 6; 5; 4; 3; 2; 1; 0] c) buf crc.

End Crc7.

(** ** Shift-register lemmas *)

Section Linear.
Context (poly : Z).

Lemma land1_testbit c : (Z.land c 1 =? 0) = negb (Z.testbit c 0).
Proof.
  change 1 with (Z.ones 1). rewrite Z.land_ones, Z.bit0_odd by lia.
  change (2 ^ 1) with 2. rewrite Zmod_odd. by destruct (Z.odd c).
Qed.

Lemma crc_shift_alt c :
  crc_shift poly c = Z.lxor (if Z.testbit c 0 then poly else 0) (Z.shiftr c 1).
Proof.
  unfold crc_shift. rewrite land1_testbit. by destruct (Z.testbit c 0).
Qed.

Lemma crc_shift_lxor a b :
  crc_shift poly (Z.lxor a b) = Z.lxor (crc_shift poly a) (crc_shift poly b).
Proof.
  rewrite !crc_shift_alt, Z.lxor_spec, Z.shiftr_lxor.
  destruct (Z.testbit a 0), (Z.testbit b 0); cbn [xorb];
    apply Z.bits_inj'; intros i Hi; zbits_rw;
    by destruct (Z.testbit poly i), (Z.testbit a (i + 1)), (Z.testbit b (i + 1)).
Qed.

Lemma iter_lxor n a b :
  Nat.iter n (crc_shift poly) (Z.lxor a b) =
  Z.lxor (Nat.iter n (crc_shift poly) a) (Nat.iter n (crc_shift poly) b).
Proof. induction n as [| n IH]; [done |]. by rewrite !Nat.iter_succ, IH, crc_shift_lxor. Qed.

(** Low zero bits only move the register. *)
Lemma iter_shiftl n y : Nat.iter n (crc_shift poly) (Z.shiftl y (Z.of_nat n)) = y.
Proof.
  induction n as [| n IH]; [apply Z.shiftl_0_r |].
  rewrite Nat.iter_succ_r. rewrite crc_shift_alt, Z.shiftl_spec by lia.
  rewrite (Z.testbit_neg_r y), Z.lxor_0_l, Z.shiftr_shiftl_l by lia.
  rewrite <- IH at 2. do 2 f_equal. lia.
Qed.

Lemma iter8_shiftl y : Nat.iter 8 (crc_shift poly) (Z.shiftl y 8) = y.
Proof. apply (iter_shiftl 8). Qed.

(** Eight steps of the register depend on the low byte through a table. *)
Lemma crc_shift8_split c : 0 <= c ->
  crc_shift8 poly c = Z.lxor (crc_shift8 poly (Z.land c 255)) (Z.shiftr c 8).
Proof.
  intros Hc. unfold crc_shift8. rewrite <- (iter8_shiftl (Z.shiftr c 8)), <- iter_lxor.
  f_equal. change 255 with (Z.ones 8).
  zbits. rewrite Z.testbit_ones_nonneg by lia.
  destruct (Z.ltb_spec i 8).
  - rewrite (Z.testbit_neg_r _ (i - 8)) by lia. by destruct (Z.testbit c i).
  - rewrite Z.shiftr_spec by lia. rewrite andb_false_r.
    by replace (i - 8 + 8) with i by lia.
Qed.

Lemma crc_ref_app crc a b : crc_ref poly crc (a ++ b) = crc_ref poly (crc_ref poly crc a) b.
Proof. apply fold_left_app. Qed.

Lemma crc_ref_cons crc b buf :
  crc_ref poly crc (b :: buf) = crc_ref poly (Nat.iter 8 (crc_shift poly) (Z.lxor crc b)) buf.
Proof. done. Qed.

End Linear.

Section ReflectedLemmas.
Context (w poly : Z).
Context (Hw : 8 <= w) (Hpoly : 0 <= poly < 2 ^ w) (Htop : Z.testbit poly (w - 1) = true).

Lemma crc_shift_range c : 0 <= c < 2 ^ w -> 0 <= crc_shift poly c < 2 ^ w.
Proof.
  intros Hc. rewrite crc_shift_alt.
  apply lxor_range; [lia | destruct (Z.testbit c 0); lia | by apply shiftr_range; lia].
Qed.

Lemma crc_shift_top c : 0 <= c < 2 ^ w -> Z.testbit (crc_shift poly c) (w - 1) = Z.testbit c 0.
Proof.
  intros Hc. rewrite crc_shift_alt, Z.lxor_spec, Z.shiftr_spec by lia.
  rewrite (testbit_high w c (w - 1 + 1)) by lia.
  destruct (Z.testbit c 0); [by rewrite Htop | by rewrite Z.bits_0].
Qed.

(** No information is lost by a step: the bit shifted out is the top bit of
    the result. *)
Lemma crc_shift_inj a b : 0 <= a < 2 ^ w -> 0 <= b < 2 ^ w ->
  crc_shift poly a = crc_shift poly b -> a = b.
Proof.
  intros Ha Hb Heq.
  assert (Z.testbit a 0 = Z.testbit b 0) as H0.
  { by rewrite <- !crc_shift_top, Heq. }
  rewrite !crc_shift_alt, H0 in Heq.
  assert (Z.shiftr a 1 = Z.shiftr b 1) as H1.
  { apply (f_equal (Z.lxor (if Z.testbit b 0 then poly else 0))) in Heq.
    by rewrite <- !Z.lxor_assoc, !Z.lxor_nilpotent, !Z.lxor_0_l in Heq. }
  zbits. destruct (Z.eq_dec i 0) as [-> |]; [done |].
  pose proof (f_equal (fun x => Z.testbit x (i - 1)) H1) as H2. cbn in H2.
  rewrite !Z.shiftr_spec in H2 by lia. by replace (i - 1 + 1) with i in H2 by lia.
Qed.

Lemma iter_range n c : 0 <= c < 2 ^ w -> 0 <= Nat.iter n (crc_shift poly) c < 2 ^ w.
Proof. intros Hc. induction n; [done |]. rewrite Nat.iter_succ. by apply crc_shift_range. Qed.

Lemma iter_inj n a b : 0 <= a < 2 ^ w -> 0 <= b < 2 ^ w ->
  Nat.iter n (crc_shift poly) a = Nat.iter n (crc_shift poly) b -> a = b.
Proof.
  intros Ha Hb. induction n as [| n IH]; [done |]. rewrite !Nat.iter_succ.
  intros Heq%crc_shift_inj; [by apply IH | by apply iter_range..].
Qed.

Lemma byte_range_w b : is_byte b -> 0 <= b < 2 ^ w.
Proof.
  intros [? ?]. split; [done |]. apply Z.lt_le_trans with (2 ^ 8); [done |].
  apply Z.pow_le_mono_r; lia.
Qed.

Lemma crc_ref_range crc buf : 0 <= crc < 2 ^ w -> is_bytes buf ->
  0 <= crc_ref poly crc buf < 2 ^ w.
Proof.
  intros Hc Hb. revert crc Hc. induction Hb as [| b buf Hb _ IH]; intros crc Hc; [done |].
  rewrite crc_ref_cons. apply IH, iter_range, lxor_range; [lia | done | by apply byte_range_w].
Qed.

(** Reading [n] bytes is xoring them in at once and clocking [8 n] times. *)
Lemma crc_ref_load buf crc : 0 <= crc < 2 ^ w -> is_bytes buf ->
  crc_ref poly crc buf = Nat.iter (8 * length buf) (crc_shift poly) (Z.lxor crc (le_load buf)).
Proof.
  intros Hc Hb. revert crc Hc. induction Hb as [| b buf Hb Hbs IH]; intros crc Hc.
  { cbn. by rewrite Z.lxor_0_r. }
  rewrite crc_ref_cons. cbn [le_load].
  assert (0 <= Z.lxor crc b < 2 ^ w) by (apply lxor_range; [lia | done | by apply byte_range_w]).
  rewrite IH by (by apply iter_range).
  replace (8 * length (b :: buf))%nat with (8 * length buf + 8)%nat by (cbn; lia).
  rewrite Nat.iter_add. f_equal.
  change 256 with (2 ^ 8). rewrite (add_lxor_disjoint 8) by (unfold is_byte in Hb; lia).
  rewrite <- Z.lxor_assoc, (iter_lxor poly 8 (Z.lxor crc b)). by rewrite iter8_shiftl.
Qed.

(** Two blocks of the same length, at most [w] bits long, lead to different
    registers unless they are equal. *)
Lemma crc_ref_burst crc a b : 0 <= crc < 2 ^ w -> is_bytes a -> is_bytes b ->
  length a = length b -> 8 * zlen a <= w ->
  crc_ref poly crc a = crc_ref poly crc b -> a = b.
Proof.
  intros Hc Ha Hb Hlen Hn Heq.
  assert (forall l, is_bytes l -> 8 * zlen l <= w -> 0 <= le_load l < 2 ^ w) as Hr.
  { intros l Hl Hll. pose proof (le_load_range l Hl).
    assert (2 ^ (8 * zlen l) <= 2 ^ w) by (apply Z.pow_le_mono_r; lia). lia. }
  rewrite !crc_ref_load, Hlen in Heq by done.
  apply iter_inj in Heq; [| apply lxor_range; [lia | done | apply Hr; [done | lia]]..].
  apply le_load_inj; [done.. |].
  apply (f_equal (Z.lxor crc)) in Heq.
  by rewrite <- !Z.lxor_assoc, !Z.lxor_nilpotent, !Z.lxor_0_l in Heq.
Qed.

Lemma crc_ref_inj crc1 crc2 buf : 0 <= crc1 < 2 ^ w -> 0 <= crc2 < 2 ^ w -> is_bytes buf ->
  crc_ref poly crc1 buf = crc_ref poly crc2 buf -> crc1 = crc2.
Proof.
  intros H1 H2 Hb Heq. rewrite !crc_ref_load, !iter_lxor in Heq by done.
  apply (f_equal (fun x => Z.lxor x (Nat.iter (8 * length buf) (crc_shift poly) (le_load buf)))) in Heq.
  rewrite !Z.lxor_assoc, !Z.lxor_nilpotent, !Z.lxor_0_r in Heq. by apply iter_inj in Heq.
Qed.

End ReflectedLemmas.

(** ** The 32-bit CRC *)

Module Crc32Facts.
Import Crc32.

Lemma poly_value : poly = 0xedb88320.
Proof. done. Qed.

Lemma poly_range : 0 <= poly < 2 ^ 32.
Proof. by rewrite poly_value. Qed.

Lemma poly_top : Z.testbit poly (32 - 1) = true.
Proof. done. Qed.

(** The static table of lib/crc32.c is the one that [make_crc_table]
    computes from the terms of the polynomial. *)
Theorem crc_table_generated : crc_table = make_crc_table.
Proof. vm_compute. reflexivity. Qed.

Lemma tab_get_spec i : 0 <= i < 256 -> tab_get i = crc_shift8 poly i.
Proof.
  intros Hi. unfold tab_get.
  replace crc_table with ((fun n => crc_shift8 poly n) <$> seqZ 0 256)
    by (symmetry; vm_compute; reflexivity).
  by rewrite table_lookup.
Qed.

Lemma DO_CRC_spec crc x : is_u32 crc -> is_byte x ->
  DO_CRC crc x = crc_shift8 poly (Z.lxor crc x).
Proof.
  intros Hc Hx. unfold DO_CRC.
  assert (0 <= Z.lxor crc x < 2 ^ 32).
  { apply lxor_range; [lia | done | by apply (byte_range_w 32)]. }
  rewrite (crc_shift8_split poly (Z.lxor crc x)) by lia.
  rewrite tab_get_spec.
  - f_equal. rewrite Z.shiftr_lxor, (Z.shiftr_div_pow2 x) by lia.
    unfold is_byte in Hx. rewrite (Z.div_small x) by lia. by rewrite Z.lxor_0_r.
  - change 255 with (Z.ones 8). rewrite Z.land_ones by lia.
    apply (Z.mod_pos_bound _ (2 ^ 8)). lia.
Qed.

Lemma crc_shift8_range c : is_u32 c -> is_u32 (crc_shift8 poly c).
Proof. intros. by apply (iter_range 32). Qed.

Lemma DO_CRC_range crc x : is_u32 crc -> is_byte x -> is_u32 (DO_CRC crc x).
Proof.
  intros. rewrite DO_CRC_spec by done. apply crc_shift8_range, lxor_range; [lia | done |].
  by apply (byte_range_w 32).
Qed.

Lemma DO_CRC_fold crc buf : is_u32 crc -> is_bytes buf ->
  fold_left DO_CRC buf crc = crc_ref poly crc buf.
Proof.
  intros Hc Hb. revert crc Hc. induction Hb as [| b buf Hb _ IH]; intros crc Hc; [done |].
  cbn [fold_left]. rewrite IH by (by apply DO_CRC_range).
  rewrite crc_ref_cons, DO_CRC_spec by done. done.
Qed.

Lemma crc_ref_range32 crc buf : is_u32 crc -> is_bytes buf -> is_u32 (crc_ref poly crc buf).
Proof. apply crc_ref_range; [lia | done]. Qed.

Lemma crc_align_spec buf : is_bytes buf -> forall crc p, is_u32 crc ->
  exists a b, buf = a ++ b /\ crc_align crc p buf = (crc_ref poly crc a, b).
Proof.
  induction 1 as [| x buf Hx Hb IH]; intros crc p Hc; [by exists [], [] |].
  cbn [crc_align]. destruct buf as [| y buf].
  { exists [x], []. rewrite DO_CRC_spec by done. done. }
  destruct (Z.land (p + 1) 3 =? 0).
  - exists [x], (y :: buf). rewrite DO_CRC_spec by done. done.
  - destruct (IH (DO_CRC crc x) (p + 1) (DO_CRC_range _ _ Hc Hx)) as (a & b & Heq & ->).
    exists (x :: a), b. rewrite Heq, crc_ref_cons, DO_CRC_spec by done. done.
Qed.

(** Four table steps on zero, after 32 bits of data are added, read four
    bytes. *)
Lemma crc_word_spec crc l : is_u32 crc -> is_bytes l -> length l = 4%nat ->
  DO_CRC (DO_CRC (DO_CRC (DO_CRC (Z.lxor crc (le_load l)) 0) 0) 0) 0 = crc_ref poly crc l.
Proof.
  intros Hc Hl Hlen. rewrite (crc_ref_load 32 poly) by (done || lia). rewrite Hlen.
  pose proof (le_load_range l Hl) as Hr. rewrite Hlen in Hr.
  assert (is_u32 (Z.lxor crc (le_load l))) as Hx by (by apply lxor_range).
  generalize dependent (Z.lxor crc (le_load l)). intros x Hx.
  assert (is_byte 0) by done.
  rewrite !DO_CRC_spec, !Z.lxor_0_r by repeat first [done | apply DO_CRC_range].
  unfold crc_shift8. rewrite <- !Nat.iter_add. reflexivity.
Qed.

Lemma crc_words_spec n : forall crc buf, is_u32 crc -> is_bytes buf -> (4 * n <= length buf)%nat ->
  crc_words n crc buf = (crc_ref poly crc (take (4 * n) buf), drop (4 * n) buf).
Proof.
  induction n as [| n IH]; intros crc buf Hc Hb Hlen; [done |].
  cbn [crc_words]. assert (is_bytes (take 4 buf)) by (by apply Forall_take).
  rewrite crc_word_spec by (done || rewrite length_take; lia).
  rewrite IH; [| by apply crc_ref_range32 | by apply Forall_drop | rewrite length_drop; lia].
  rewrite drop_drop. replace (4 * S n)%nat with (4 + 4 * n)%nat by lia. f_equal.
  rewrite <- crc_ref_app, take_take_drop. done.
Qed.

Lemma crc_tail_spec crc buf : is_u32 crc -> is_bytes buf ->
  (let '(crc', buf') := crc_words (Z.to_nat (Z.shiftr (zlen buf) 2)) crc buf in
   fold_left DO_CRC (take (Z.to_nat (Z.land (zlen buf) 3)) buf') crc') = crc_ref poly crc buf.
Proof.
  intros Hc Hb.
  assert (Z.land (zlen buf) 3 = zlen buf mod 4) as ->.
  { change 3 with (Z.ones 2). by rewrite Z.land_ones. }
  assert (Z.shiftr (zlen buf) 2 = zlen buf / 4) as -> by (by rewrite Z.shiftr_div_pow2).
  pose proof (Z.div_mod (zlen buf) 4 ltac:(lia)).
  pose proof (Z.mod_pos_bound (zlen buf) 4 ltac:(lia)).
  rewrite crc_words_spec by (done || lia).
  rewrite take_ge by (rewrite length_drop; lia).
  rewrite DO_CRC_fold; [| apply crc_ref_range32; [done | by apply Forall_take] | by apply Forall_drop].
  by rewrite <- crc_ref_app, take_drop.
Qed.

Lemma crc32_no_comp_eq crc addr buf : is_u32 crc -> is_bytes buf ->
  crc32_no_comp crc addr buf = crc_ref poly crc buf.
Proof.
  intros Hc Hb. unfold crc32_no_comp. destruct (_ && _)%bool.
  - destruct (crc_align_spec buf Hb crc addr Hc) as (a & b & -> & ->).
    apply Forall_app in Hb as [Ha Hb].
    rewrite crc_tail_spec, crc_ref_app by (done || by apply crc_ref_range32). done.
  - by apply crc_tail_spec.
Qed.

Lemma ones32_range : is_u32 0xffffffff.
Proof. done. Qed.

Lemma crc32_eq crc addr buf : is_u32 crc -> is_bytes buf ->
  crc32 crc addr buf = Z.lxor (crc_ref poly (Z.lxor crc 0xffffffff) buf) 0xffffffff.
Proof.
  intros Hc Hb. unfold crc32. rewrite crc32_no_comp_eq; [done | by apply lxor_range | done].
Qed.

Lemma crc32_range crc addr buf : is_u32 crc -> is_bytes buf -> is_u32 (crc32 crc addr buf).
Proof.
  intros Hc Hb. rewrite crc32_eq by done.
  apply lxor_range; [lia | apply crc_ref_range32; [by apply lxor_range | done] | done].
Qed.

Lemma crc32_app_eq crc addr addr1 addr2 a b : is_u32 crc -> is_bytes a -> is_bytes b ->
  crc32 crc addr (a ++ b) = crc32 (crc32 crc addr1 a) addr2 b.
Proof.
  intros Hc Ha Hb. assert (is_bytes (a ++ b)) by (by apply Forall_app).
  rewrite (crc32_eq (crc32 _ _ _)), !crc32_eq, crc_ref_app by (done || by apply crc32_range).
  by rewrite Z.lxor_assoc, Z.lxor_nilpotent, Z.lxor_0_r.
Qed.

(** C32: The word-at-a-time, alignment-sensitive [crc32_no_comp] computes the
    bit-serial CRC of the polynomial of lib/crc32.c, whatever the address and
    the length of the buffer. *)
Theorem crc32_no_comp_correct crc addr buf : is_u32 crc -> is_bytes buf ->
  crc32_no_comp crc addr buf = crc_ref poly crc buf.
Proof. apply crc32_no_comp_eq. Qed.

Lemma crc32_no_comp_correct_witness :
  crc32_no_comp 7 0x1003 (str "123456789") = crc_ref poly 7 (str "123456789") /\
  crc32 0 0x1003 (str "123456789") = 0xcbf43926.
Proof.
  split; [| vm_compute; reflexivity].
  apply (crc32_no_comp_correct 7 0x1003 (str "123456789"));
    [done | solve_bytes].
Defined.

(** A CRC may be computed in pieces, at any alignment of the pieces: the
    value for the first part is the start value for the second. *)
Theorem crc32_app crc addr addr1 addr2 a b : is_u32 crc -> is_bytes a -> is_bytes b ->
  crc32 crc addr (a ++ b) = crc32 (crc32 crc addr1 a) addr2 b.
Proof. apply crc32_app_eq. Qed.

Lemma crc32_app_witness :
  crc32 0 16 (str "ab" ++ str "cde") = crc32 (crc32 0 16 (str "ab")) 18 (str "cde").
Proof.
  apply (crc32_app 0 16 16 18 (str "ab") (str "cde"));
    first [done | solve_bytes].
Defined.

Lemma crc32_wd_loop_spec chunk_sz : 0 < chunk_sz -> forall fuel crc curr buf,
  is_u32 crc -> is_bytes buf -> (length buf < fuel)%nat ->
  crc32_wd_loop fuel crc curr buf chunk_sz = Some (crc32 crc curr buf).
Proof.
  intros Hsz. induction fuel as [| fuel IH]; intros crc curr buf Hc Hb Hf; [lia |].
  cbn [crc32_wd_loop]. destruct (Z.leb_spec (zlen buf) 0) as [H0 | H0].
  { assert (buf = []) as -> by (destruct buf; [done | cbn in *; lia]).
    rewrite crc32_eq by done. cbn.
    by rewrite Z.lxor_assoc, Z.lxor_nilpotent, Z.lxor_0_r. }
  set (chunk := if _ >? _ then _ else _).
  assert (0 < chunk <= zlen buf) as Hch.
  { unfold chunk. rewrite Z.gtb_ltb. destruct (Z.ltb_spec chunk_sz (zlen buf)); lia. }
  assert (is_bytes (take (Z.to_nat chunk) buf)) by (by apply Forall_take).
  assert (is_bytes (drop (Z.to_nat chunk) buf)) by (by apply Forall_drop).
  rewrite IH; [| by apply crc32_range | done | rewrite length_drop; lia].
  by rewrite <- (crc32_app_eq crc curr curr), take_drop.
Qed.

(** With a watchdog configured, the chunked loop of [crc32_wd] terminates
    for every positive chunk size and returns the CRC of the whole buffer, the
    value that the build without a watchdog computes. *)
Theorem crc32_wd_correct watchdog crc addr buf chunk_sz :
  is_u32 crc -> is_bytes buf -> 0 < chunk_sz ->
  crc32_wd watchdog crc addr buf chunk_sz = Some (crc32 crc addr buf).
Proof.
  intros Hc Hb Hsz. unfold crc32_wd. destruct watchdog; [| done].
  apply crc32_wd_loop_spec; [done.. | lia].
Qed.

Lemma crc32_wd_correct_witness :
  crc32_wd true 0 0x1003 (str "123456789") 4 = Some 0xcbf43926.
Proof.
  rewrite (crc32_wd_correct true 0 0x1003 (str "123456789") 4);
    [vm_compute; reflexivity | done |
     solve_bytes | done].
Defined.

Lemma crc32_burst_eq addr pre post mid mid' :
  is_bytes pre -> is_bytes post -> is_bytes mid -> is_bytes mid' ->
  length mid = length mid' -> (length mid <= 4)%nat ->
  crc32 0 addr (pre ++ mid ++ post) = crc32 0 addr (pre ++ mid' ++ post) -> mid = mid'.
Proof.
  intros Hpre Hpost Hm Hm' Hlen H4 Heq.
  rewrite !crc32_eq in Heq by (done || by rewrite !Forall_app).
  apply (f_equal (fun x => Z.lxor x 0xffffffff)) in Heq.
  rewrite !Z.lxor_assoc, !Z.lxor_nilpotent, !Z.lxor_0_r, !crc_ref_app in Heq.
  set (c := crc_ref poly _ pre) in Heq.
  assert (is_u32 c) by (by apply crc_ref_range32).
  apply (crc_ref_inj 32 poly ltac:(lia) poly_range poly_top) in Heq;
    [| by apply crc_ref_range32.. | done].
  by apply (crc_ref_burst 32 poly ltac:(lia) poly_range poly_top c); try lia.
Qed.

(** Error detection of [crc32]: changing bytes inside one window of at
    most four bytes of a message changes its CRC, so a corrupted image, header
    or environment with such an error never verifies. *)
Theorem crc32_detects_burst addr pre post mid mid' :
  is_bytes pre -> is_bytes post -> is_bytes mid -> is_bytes mid' ->
  length mid = length mid' -> (length mid <= 4)%nat -> mid <> mid' ->
  crc32 0 addr (pre ++ mid ++ post) <> crc32 0 addr (pre ++ mid' ++ post).
Proof. intros ??????? Heq. by apply crc32_burst_eq in Heq. Qed.

Lemma crc32_detects_burst_witness :
  crc32 0 0 (str "boot" ++ str "delay" ++ str "=3") <> crc32 0 0 (str "boot" ++ str "delay" ++ str "=4").
Proof.
  change (str "boot" ++ str "delay" ++ str "=3") with (str "bootdelay" ++ str "=3" ++ []).
  change (str "boot" ++ str "delay" ++ str "=4") with (str "bootdelay" ++ str "=4" ++ []).
  apply (crc32_detects_burst 0 (str "bootdelay") [] (str "=3") (str "=4"));
    first [done | lia | cbn; lia
          | solve_bytes].
Defined.

End Crc32Facts.

(** ** The 16-bit CRC of lib/crc16.c *)

Module Crc16Facts.
Import Crc16.

Lemma crc16_shift_lxor a b :
  crc16_shift (Z.lxor a b) = Z.lxor (crc16_shift a) (crc16_shift b).
Proof.
  unfold crc16_shift. rewrite Z.lxor_spec, Z.shiftl_lxor.
  destruct (Z.testbit a 15), (Z.testbit b 15); cbn [xorb]; zbits;
    destruct (i <? 16), (Z.testbit a (i - 1)), (Z.testbit b (i - 1)), (Z.testbit 0x1021 i); done.
Qed.

Lemma crc16_iter_lxor n a b :
  Nat.iter n crc16_shift (Z.lxor a b) =
  Z.lxor (Nat.iter n crc16_shift a) (Nat.iter n crc16_shift b).
Proof. induction n as [| n IH]; [done |]. by rewrite !Nat.iter_succ, IH, crc16_shift_lxor. Qed.

(** A register whose top bits are clear is only shifted. *)
Lemma crc16_iter_small n x : (n <= 16)%nat -> 0 <= x < 2 ^ (16 - Z.of_nat n) ->
  Nat.iter n crc16_shift x = Z.shiftl x (Z.of_nat n).
Proof.
  induction n as [| n IH]; intros Hn Hx; [by rewrite Z.shiftl_0_r |].
  assert (2 ^ (16 - Z.of_nat n) = 2 * 2 ^ (16 - Z.of_nat (S n))) as Hp.
  { rewrite <- Z.pow_succ_r by lia. f_equal. lia. }
  rewrite Nat.iter_succ, IH by lia.
  assert (0 <= Z.shiftl x (Z.of_nat n) < 2 ^ 15) as Hr.
  { rewrite Z.shiftl_mul_pow2 by lia. split; [lia |].
    replace (2 ^ 15) with (2 ^ (16 - Z.of_nat (S n)) * 2 ^ Z.of_nat n)
      by (rewrite <- Z.pow_add_r by lia; f_equal; lia).
    apply Z.mul_lt_mono_pos_r; lia. }
  unfold crc16_shift. rewrite (testbit_high 15) by lia.
  rewrite wrap_small.
  - rewrite Z.shiftl_shiftl by lia. f_equal. lia.
  - rewrite (Z.shiftl_mul_pow2 _ 1) by lia. change (2 ^ 16) with (2 * 2 ^ 15). lia.
Qed.

Lemma crc16_tab_spec i : 0 <= i < 256 ->
  default 0 (crc16_tab !! Z.to_nat i) = crc16_shift8 (Z.shiftl i 8).
Proof.
  intros Hi.
  replace crc16_tab with ((fun n => crc16_shift8 (Z.shiftl n 8)) <$> seqZ 0 256)
    by (symmetry; vm_compute; reflexivity).
  by rewrite table_lookup.
Qed.

Lemma crc16_shift_range c : 0 <= crc16_shift c < 2 ^ 16.
Proof.
  unfold crc16_shift.
  destruct (Z.testbit _ 15); [apply lxor_range; [lia | | lia] |]; apply wrap_range; lia.
Qed.

(** Eight steps depend on the high byte through a table. *)
Lemma crc16_shift8_split c : 0 <= c < 2 ^ 16 ->
  crc16_shift8 c = u16 (Z.lxor (crc16_shift8 (Z.shiftl (Z.shiftr c 8) 8)) (Z.shiftl c 8)).
Proof.
  intros Hc.
  assert (c = Z.lxor (Z.shiftl (Z.shiftr c 8) 8) (c mod 2 ^ 8)) as Hsplit.
  { rewrite <- Z.land_ones by lia. zbits. rewrite Z.testbit_ones_nonneg by lia.
    destruct (Z.ltb_spec i 8).
    - rewrite (Z.testbit_neg_r _ (i - 8)) by lia. by destruct (Z.testbit c i).
    - rewrite Z.shiftr_spec by lia. replace (i - 8 + 8) with i by lia.
      by destruct (Z.testbit c i). }
  unfold crc16_shift8. rewrite Hsplit at 1. rewrite crc16_iter_lxor.
  rewrite (crc16_iter_small 8 (c mod 2 ^ 8)) by
    (lia || apply (Z.mod_pos_bound c (2 ^ 8)); lia).
  set (h := Nat.iter 8 _ _).
  assert (0 <= h < 2 ^ 16) by apply crc16_shift_range.
  rewrite <- (wrap_small 16 h) by done. change (c mod 2 ^ 8) with (u8 c).
  change (Z.of_nat 8) with 8. zbits.
  destruct (Z.ltb_spec i 16); cbn [andb].
  - destruct (Z.lt_ge_cases i 8); [by rewrite !(Z.testbit_neg_r _ (i - 8)) by lia |].
    rewrite wrap_testbit by lia. by replace (i - 8 <? 8) with true by lia.
  - rewrite wrap_testbit by lia. by replace (i - 8 <? 8) with false by lia.
Qed.

Lemma crc16_step_spec c b : 0 <= c < 2 ^ 16 -> is_byte b ->
  crc16_step c b = crc16_shift8 (Z.lxor c (Z.shiftl b 8)) /\ 0 <= crc16_step c b < 2 ^ 16.
Proof.
  intros Hc Hb. split; [| apply wrap_range; lia]. unfold is_byte in Hb.
  assert (0 <= Z.shiftl b 8 < 2 ^ 16) by (rewrite Z.shiftl_mul_pow2 by lia; lia).
  rewrite crc16_shift8_split by (by apply lxor_range).
  assert (0 <= Z.shiftr c 8 < 2 ^ 8) as Hh.
  { rewrite Z.shiftr_div_pow2 by lia. split; [apply Z.div_pos; lia |].
    apply Z.div_lt_upper_bound; lia. }
  assert (0 <= Z.lxor (Z.shiftr c 8) b < 2 ^ 8) as Hx by (by apply lxor_range).
  unfold crc16_step. change 0xFF with (Z.ones 8). rewrite Z.land_ones, Z.mod_small by lia.
  rewrite crc16_tab_spec by (change 256 with (2 ^ 8); lia).
  rewrite Z.shiftr_lxor, Z.shiftr_shiftl_r, Z.sub_diag, Z.shiftr_0_r by lia.
  zbits. destruct (Z.ltb_spec i 16); [cbn [andb] | done]. f_equal.
  destruct (Z.lt_ge_cases i 8); [by rewrite !(Z.testbit_neg_r _ (i - 8)) by lia |].
  zbits_rw. by rewrite (Z.testbit_neg_r b), xorb_false_r by lia.
Qed.

Lemma crc16_fold_spec buf : is_bytes buf -> forall c, 0 <= c < 2 ^ 16 ->
  fold_left crc16_step buf c = crc16_ref c buf.
Proof.
  induction 1 as [| b buf Hb _ IH]; intros c Hc; [done |]. cbn [fold_left].
  destruct (crc16_step_spec c b Hc Hb) as [He Hr]. rewrite IH by done. by rewrite He.
Qed.

(** The table-driven [cyg_crc16] is the bit-serial CCITT CRC
    (x^16+x^12+x^5+1, most significant bit first, start value 0) of the
    buffer. *)
Theorem cyg_crc16_correct buf : is_bytes buf -> cyg_crc16 buf = crc16_ref 0 buf.
Proof. intros. by apply crc16_fold_spec. Qed.

Lemma cyg_crc16_correct_witness :
  cyg_crc16 (str "123456789") = crc16_ref 0 (str "123456789") /\
  cyg_crc16 (str "123456789") = 0x31c3.
Proof.
  split; [apply (cyg_crc16_correct (str "123456789")); solve_bytes | vm_compute; reflexivity].
Defined.

End Crc16Facts.

(** ** The CRCs of fs/ext4/crc16.c and lib/crc7.c *)

Module OtherCrcFacts.

Lemma ext4_table_spec i : 0 <= i < 256 ->
  default 0 (Ext4Crc16.crc16_table !! Z.to_nat i) = crc_shift8 Ext4Crc16.poly i.
Proof.
  intros Hi.
  replace Ext4Crc16.crc16_table with ((fun n => crc_shift8 Ext4Crc16.poly n) <$> seqZ 0 256)
    by (symmetry; vm_compute; reflexivity).
  by rewrite table_lookup.
Qed.

Lemma ext4_step_spec c b : 0 <= c < 2 ^ 16 -> is_byte b ->
  Ext4Crc16.ext2fs_crc16_step c b = crc_shift8 Ext4Crc16.poly (Z.lxor c b).
Proof.
  intros Hc Hb. unfold Ext4Crc16.ext2fs_crc16_step.
  assert (0 <= Z.lxor c b < 2 ^ 16) by (apply lxor_range; [lia | done | by apply (byte_range_w 16)]).
  assert (0 <= crc_shift8 Ext4Crc16.poly (Z.lxor c b) < 2 ^ 16) as Hr by (by apply (iter_range 16)).
  assert (0 <= Z.shiftr c 8 < 2 ^ 8) as Hh.
  { rewrite Z.shiftr_div_pow2 by lia. split; [apply Z.div_pos; lia |].
    apply Z.div_lt_upper_bound; lia. }
  change 0xff with (Z.ones 8). change 0xffff with (Z.ones 16).
  rewrite ext4_table_spec by (rewrite Z.land_ones by lia; apply (Z.mod_pos_bound _ (2 ^ 8)); lia).
  rewrite (Z.land_ones (Z.shiftr c 8)), (Z.mod_small (Z.shiftr c 8)) by lia.
  replace (Z.shiftr c 8) with (Z.shiftr (Z.lxor c b) 8).
  - rewrite Z.lxor_comm, <- crc_shift8_split by lia.
    rewrite Z.land_ones, Z.mod_small by lia. done.
  - rewrite Z.shiftr_lxor, (Z.shiftr_div_pow2 b) by lia. unfold is_byte in Hb.
    rewrite (Z.div_small b) by lia. by rewrite Z.lxor_0_r.
Qed.

(** [ext2fs_crc16] is the bit-serial CRC of x^16+x^15+x^2+1, least
    significant bit first, from any 16-bit start value. *)
Theorem ext2fs_crc16_correct crc buf : 0 <= crc < 2 ^ 16 -> is_bytes buf ->
  Ext4Crc16.ext2fs_crc16 crc buf = crc_ref Ext4Crc16.poly crc buf.
Proof.
  intros Hc Hb. revert crc Hc. unfold Ext4Crc16.ext2fs_crc16.
  induction Hb as [| b buf Hb _ IH]; intros crc Hc; [done |].
  cbn [fold_left]. rewrite ext4_step_spec by done. rewrite crc_ref_cons, <- IH; [done |].
  apply (iter_range 16); [lia | done |]. apply lxor_range; [lia | done | by apply (byte_range_w 16)].
Qed.

Lemma ext2fs_crc16_correct_witness :
  Ext4Crc16.ext2fs_crc16 0 (str "123456789") = crc_ref Ext4Crc16.poly 0 (str "123456789") /\
  Ext4Crc16.ext2fs_crc16 0 (str "123456789") = 0xbb3d.
Proof.
  split; [apply (ext2fs_crc16_correct 0 (str "123456789")); [done | solve_bytes] |].
  vm_compute. reflexivity.
Defined.

Import Crc7.

Definition crc7_fold (b : Z) (bits : list Z) (c : Z) : Z :=
  fold_left (fun c i => crc7_bit c (Z.testbit b i)) bits c.

Lemma crc7_bit_lxor c1 c2 b1 b2 :
  crc7_bit (Z.lxor c1 c2) (xorb b1 b2) = Z.lxor (crc7_bit c1 b1) (crc7_bit c2 b2).
Proof.
  unfold crc7_bit. rewrite Z.lxor_spec, Z.shiftl_lxor.
  destruct (Z.testbit c1 6), (Z.testbit c2 6), b1, b2; cbn [xorb]; zbits;
    by destruct (Z.testbit c1 (i - 1)), (Z.testbit c2 (i - 1)), (Z.testbit 0x7f i), (Z.testbit 9 i).
Qed.

Lemma crc7_fold_lxor b1 b2 bits : forall c1 c2,
  crc7_fold (Z.lxor b1 b2) bits (Z.lxor c1 c2) = Z.lxor (crc7_fold b1 bits c1) (crc7_fold b2 bits c2).
Proof.
  induction bits as [| i bits IH]; intros c1 c2; [done |].
  unfold crc7_fold in *. cbn [fold_left]. by rewrite Z.lxor_spec, crc7_bit_lxor, IH.
Qed.

Lemma crc7_table_spec i : 0 <= i < 256 ->
  default 0 (crc7_syndrome_table !! Z.to_nat i) = crc7_fold i [7; 6; 5; 4; 3; 2; 1; 0] 0.
Proof.
  intros Hi.
  replace crc7_syndrome_table with ((fun n => crc7_fold n [7; 6; 5; 4; 3; 2; 1; 0] 0) <$> seqZ 0 256)
    by (symmetry; vm_compute; reflexivity).
  by rewrite table_lookup.
Qed.

(** The register enters the next byte shifted by one. *)
Lemma crc7_fold_register c : 0 <= c < 128 ->
  crc7_fold 0 [7; 6; 5; 4; 3; 2; 1; 0] c = crc7_fold (Z.shiftl c 1) [7; 6; 5; 4; 3; 2; 1; 0] 0.
Proof.
  revert c. apply (table_ext 0 (crc7_fold 0 _) (fun c => crc7_fold (Z.shiftl c 1) _ 0)).
  vm_compute. reflexivity.
Qed.

Lemma crc7_bit_range c b : 0 <= crc7_bit c b < 128.
Proof.
  unfold crc7_bit. change 128 with (2 ^ 7). change 0x7f with (Z.ones 7).
  rewrite Z.land_ones by lia. pose proof (Z.mod_pos_bound (Z.shiftl c 1) (2 ^ 7) ltac:(lia)).
  destruct (xorb _ _); [by apply lxor_range | done].
Qed.

(** [crc7] is the bit-serial CRC of x^7+x^3+1 (the CRC of MMC command
    frames), most significant bit first, from any 7-bit start value. *)
Theorem crc7_correct crc buf : 0 <= crc < 128 -> is_bytes buf -> crc7 crc buf = crc7_ref crc buf.
Proof.
  intros Hc Hb. revert crc Hc. unfold crc7, crc7_ref.
  induction Hb as [| b buf Hb _ IH]; intros crc Hc; [done |].
  assert (0 <= Z.shiftl crc 1 < 2 ^ 8) by (rewrite Z.shiftl_mul_pow2 by lia; lia).
  assert (crc7_byte crc b = crc7_fold b [7; 6; 5; 4; 3; 2; 1; 0] crc) as He.
  { unfold crc7_byte. rewrite crc7_table_spec by (by apply (lxor_range 8)).
    rewrite (crc7_fold_lxor _ _ _ 0 0 : crc7_fold _ _ 0 = _), <- crc7_fold_register by done.
    rewrite <- crc7_fold_lxor. by rewrite Z.lxor_0_l, Z.lxor_0_r. }
  cbn [fold_left]. rewrite He. apply IH. apply crc7_bit_range.
Qed.

Lemma crc7_correct_witness : crc7 0 [0x40; 0; 0; 0; 0] = crc7_ref 0 [0x40; 0; 0; 0; 0] /\
  crc7 0 [0x40; 0; 0; 0; 0] = 0x4a.
Proof.
  split; [apply (crc7_correct 0 [0x40; 0; 0; 0; 0]); [done | solve_bytes] |].
  vm_compute. reflexivity.
Defined.

End OtherCrcFacts.
