(* ===== verification/Lmb.v ===== *)
(** * Logical memory blocks (lib/lmb.c, include/lmb.h)

    The table of memory banks and of reserved ranges from which [bootm]
    places the kernel, the ramdisk and the device tree.  [phys_addr_t],
    [phys_size_t] and [unsigned long] are 32 bits wide.  An access outside
    [region[MAX_LMB_REGIONS + 1]] is the result [None]. *)

From S2P Require Import Prelude.

Definition MAX_LMB_REGIONS : Z := 8.
Definition LMB_ALLOC_ANYWHERE : Z := 0.

Record lmb_property := Prop_ { base : Z; size : Z }.

Record lmb_region := Region {
  cnt : Z;
  rsize : Z;
  region : list lmb_property
}.

Record lmb := Lmb { memory : lmb_region; reserved : lmb_region }.

#[export] Instance lmb_property_eq_dec : EqDecision lmb_property.
Proof. solve_decision. Defined.

(** ** Array accesses *)

Definition rget (rgn : lmb_region) (i : Z) : option lmb_property :=
  if 0 <=? i then region rgn !! Z.to_nat i else None.

Definition rset (rgn : lmb_region) (i : Z) (p : lmb_property) : option lmb_region :=
  if (0 <=? i) && (i <? zlen (region rgn)) then
    Some (Region (cnt rgn) (rsize rgn) (<[Z.to_nat i := p]> (region rgn)))
  else None.

Definition set_cnt (rgn : lmb_region) (n : Z) : lmb_region :=
  Region n (rsize rgn) (region rgn).

(** ** The operations *)

Definition lmb_addrs_overlap (base1 size1 base2 size2 : Z) : bool :=
  (base1 <? u32 (base2 + size2)) && (base2 <? u32 (base1 + size1)).

Definition lmb_addrs_adjacent (base1 size1 base2 size2 : Z) : Z :=
  if base2 =? u32 (base1 + size1) then 1
  else if base1 =? u32 (base2 + size2) then -1
  else 0.

Definition lmb_regions_adjacent (rgn : lmb_region) (r1 r2 : Z) : option Z :=
  p1 ← rget rgn r1; p2 ← rget rgn r2;
  Some (lmb_addrs_adjacent (base p1) (size p1) (base p2) (size p2)).

(** The loop [for (i = r; i < rgn->cnt - 1; i++)]; every round reads
    [region[i + 1]], so one round more than the array has elements never
    happens. *)
Fixpoint lmb_remove_loop (fuel : nat) (rgn : lmb_region) (i : Z) : option lmb_region :=
  match fuel with
  | O => None
  | S fuel =>
      if i <? u32 (cnt rgn - 1) then
        p ← rget rgn (i + 1); rgn ← rset rgn i p;
        lmb_remove_loop fuel rgn (i + 1)
      else Some rgn
  end.

Definition lmb_remove_region (rgn : lmb_region) (r : Z) : option lmb_region :=
  rgn ← lmb_remove_loop (S (length (region rgn))) rgn r;
  Some (set_cnt rgn (u32 (cnt rgn - 1))).

Definition lmb_coalesce_regions (rgn : lmb_region) (r1 r2 : Z) : option lmb_region :=
  p1 ← rget rgn r1; p2 ← rget rgn r2;
  rgn ← rset rgn r1 (Prop_ (base p1) (u32 (size p1 + size p2)));
  lmb_remove_region rgn r2.

Definition lmb_init (l : lmb) : option lmb :=
  m ← rset (memory l) 0 (Prop_ 0 0);
  r ← rset (reserved l) 0 (Prop_ 0 0);
  Some (Lmb (Region 1 0 (region m)) (Region 1 0 (region r))).

(** The result of the first loop of [lmb_add_region]. *)
Inductive add_scan :=
| ScanFound                                    (* the region is already there *)
| ScanDone (i coalesced : Z) (rgn : lmb_region). (* left the loop at index i *)

Fixpoint lmb_add_scan (fuel : nat) (rgn : lmb_region) (b s i : Z) : option add_scan :=
  match fuel with
  | O => None
  | S fuel =>
      if i <? cnt rgn then
        p ← rget rgn i;
        if (base p =? b) && (size p =? s) then Some ScanFound
        else
          let adjacent := lmb_addrs_adjacent b s (base p) (size p) in
          if adjacent >? 0 then
            rgn ← rset rgn i (Prop_ (u32 (base p - s)) (u32 (size p + s)));
            Some (ScanDone i 1 rgn)
          else if adjacent <? 0 then
            rgn ← rset rgn i (Prop_ (base p) (u32 (size p + s)));
            Some (ScanDone i 1 rgn)
          else lmb_add_scan fuel rgn b s (i + 1)
      else Some (ScanDone i 0 rgn)
  end.

(** The loop [for (i = rgn->cnt-1; i >= 0; i--)] of the sorted insertion;
    [n] is [i + 1]. *)
Fixpoint lmb_insert_loop (n : nat) (rgn : lmb_region) (b s : Z) : option lmb_region :=
  match n with
  | O => Some rgn
  | S i =>
      p ← rget rgn (Z.of_nat i);
      if b <? base p then
        rgn ← rset rgn (Z.of_nat i + 1) p;
        lmb_insert_loop i rgn b s
      else rset rgn (Z.of_nat i + 1) (Prop_ b s)
  end.

(** [if ((i < rgn->cnt-1) && lmb_regions_adjacent(rgn, i, i+1))], the second
    step of the coalescing. *)
Definition lmb_add_coalesce (rgn : lmb_region) (i coalesced : Z) : option (Z * lmb_region) :=
  adj ← (if i <? u32 (cnt rgn - 1) then lmb_regions_adjacent rgn i (i + 1) else Some 0);
  if negb (adj =? 0) then
    rgn ← lmb_coalesce_regions rgn i (i + 1); Some (coalesced + 1, rgn)
  else Some (coalesced, rgn).

Definition lmb_add_region (rgn : lmb_region) (b s : Z) : option (Z * lmb_region) :=
  p0 ← rget rgn 0;
  if (cnt rgn =? 1) && (size p0 =? 0) then
    rgn ← rset rgn 0 (Prop_ b s); Some (0, rgn)
  else
    sc ← lmb_add_scan (S (length (region rgn))) rgn b s 0;
    match sc with
    | ScanFound => Some (0, rgn)
    | ScanDone i coalesced rgn =>
        '(coalesced, rgn) ← lmb_add_coalesce rgn i coalesced;
        if negb (coalesced =? 0) then Some (coalesced, rgn)
        else if MAX_LMB_REGIONS <=? cnt rgn then Some (-1, rgn)
        else
          rgn ← lmb_insert_loop (Z.to_nat (cnt rgn)) rgn b s;
          p0 ← rget rgn 0;
          rgn ← (if b <? base p0 then rset rgn 0 (Prop_ b s) else Some rgn);
          Some (0, set_cnt rgn (u32 (cnt rgn + 1)))
    end.

Definition lmb_add (l : lmb) (b s : Z) : option (Z * lmb) :=
  '(ret, r) ← lmb_add_region (memory l) b s; Some (ret, Lmb r (reserved l)).

Definition lmb_reserve (l : lmb) (b s : Z) : option (Z * lmb) :=
  '(ret, r) ← lmb_add_region (reserved l) b s; Some (ret, Lmb (memory l) r).

(** The search loop of [lmb_free]: the index, start and end of the entry that
    contains the range, or [i == rgn->cnt]. *)
Fixpoint lmb_free_find (fuel : nat) (rgn : lmb_region) (b e i : Z) : option (option (Z * Z * Z)) :=
  match fuel with
  | O => None
  | S fuel =>
      if i <? cnt rgn then
        p ← rget rgn i;
        let rgnbegin := base p in
        let rgnend := u32 (rgnbegin + size p) in
        if (rgnbegin <=? b) && (e <=? rgnend) then Some (Some (i, rgnbegin, rgnend))
        else lmb_free_find fuel rgn b e (i + 1)
      else Some None
  end.

Definition lmb_free_region (rgn : lmb_region) (b s : Z) : option (Z * lmb_region) :=
  let e := u32 (b + s) in
  found ← lmb_free_find (S (length (region rgn))) rgn b e 0;
  match found with
  | None => Some (-1, rgn)
  | Some (i, rgnbegin, rgnend) =>
      p ← rget rgn i;
      if (rgnbegin =? b) && (rgnend =? e) then
        rgn ← lmb_remove_region rgn i; Some (0, rgn)
      else if rgnbegin =? b then
        rgn ← rset rgn i (Prop_ e (u32 (size p - s))); Some (0, rgn)
      else if rgnend =? e then
        rgn ← rset rgn i (Prop_ (base p) (u32 (size p - s))); Some (0, rgn)
      else
        rgn ← rset rgn i (Prop_ (base p) (u32 (b - base p)));
        lmb_add_region rgn e (u32 (rgnend - e))
  end.

Definition lmb_free (l : lmb) (b s : Z) : option (Z * lmb) :=
  '(ret, r) ← lmb_free_region (reserved l) b s; Some (ret, Lmb (memory l) r).

Fixpoint lmb_overlaps_loop (fuel : nat) (rgn : lmb_region) (b s i : Z) : option Z :=
  match fuel with
  | O => None
  | S fuel =>
      if i <? cnt rgn then
        p ← rget rgn i;
        if lmb_addrs_overlap b s (base p) (size p) then Some i
        else lmb_overlaps_loop fuel rgn b s (i + 1)
      else Some (-1)
  end.

Definition lmb_overlaps_region (rgn : lmb_region) (b s : Z) : option Z :=
  lmb_overlaps_loop (S (length (region rgn))) rgn b s 0.

Definition lmb_align_down (addr sz : Z) : Z := Z.land addr (Z.lxor 0xffffffff (u32 (sz - 1))).

Definition lmb_align_up (addr sz : Z) : Z :=
  Z.land (u32 (addr + u32 (sz - 1))) (Z.lxor 0xffffffff (u32 (sz - 1))).

(** The inner loop [while (base && lmbbase <= base)] of [__lmb_alloc_base];
    [inl]: the function returns here, [inr tt]: next memory bank. *)
Fixpoint lmb_alloc_try (fuel : nat) (l : lmb) (lmbbase b s align : Z) : option (Z * lmb + unit) :=
  match fuel with
  | O => None
  | S fuel =>
      if negb (b =? 0) && (lmbbase <=? b) then
        j ← lmb_overlaps_region (reserved l) b s;
        if j <? 0 then
          '(ret, r) ← lmb_add_region (reserved l) b (lmb_align_up s align);
          let l := Lmb (memory l) r in
          Some (inl (if ret <? 0 then (0, l) else (b, l)))
        else
          p ← rget (reserved l) j;
          let res_base := base p in
          if res_base <? s then Some (inr tt)
          else lmb_alloc_try fuel l lmbbase (lmb_align_down (u32 (res_base - s)) align) s align
      else Some (inr tt)
  end.

(** The loop over the memory banks, last one first; [n] is [i + 1].  The
    reserved table has at most one overlap per entry, which bounds the inner
    loop. *)
Fixpoint lmb_alloc_banks (n : nat) (l : lmb) (s align max_addr : Z) : option (Z * lmb) :=
  match n with
  | O => Some (0, l)
  | S i =>
      p ← rget (memory l) (Z.of_nat i);
      let lmbbase := base p in
      let lmbsize := size p in
      if lmbsize <? s then lmb_alloc_banks i l s align max_addr
      else
        let try_at b :=
          r ← lmb_alloc_try (S (S (length (region (reserved l))))) l lmbbase b s align;
          match r with
          | inl res => Some res
          | inr _ => lmb_alloc_banks i l s align max_addr
          end in
        if max_addr =? LMB_ALLOC_ANYWHERE then
          try_at (lmb_align_down (u32 (u32 (lmbbase + lmbsize) - s)) align)
        else if lmbbase <? max_addr then
          let b := Z.min (u32 (lmbbase + lmbsize)) max_addr in
          try_at (lmb_align_down (u32 (b - s)) align)
        else lmb_alloc_banks i l s align max_addr
  end.

Definition __lmb_alloc_base (l : lmb) (s align max_addr : Z) : option (Z * lmb) :=
  lmb_alloc_banks (Z.to_nat (cnt (memory l))) l s align max_addr.

(** [lmb_alloc_base] only adds a message when nothing was found. *)
Definition lmb_alloc_base (l : lmb) (s align max_addr : Z) : option (Z * lmb) :=
  '(alloc, l) ← __lmb_alloc_base l s align max_addr; Some (alloc, l).

Definition lmb_alloc (l : lmb) (s align : Z) : option (Z * lmb) :=
  lmb_alloc_base l s align LMB_ALLOC_ANYWHERE.

Fixpoint lmb_is_reserved_loop (fuel : nat) (rgn : lmb_region) (addr i : Z) : option Z :=
  match fuel with
  | O => None
  | S fuel =>
      if i <? cnt rgn then
        p ← rget rgn i;
        let upper := u32 (u32 (base p + size p) - 1) in
        if (base p <=? addr) && (addr <=? upper) then Some 1
        else lmb_is_reserved_loop fuel rgn addr (i + 1)
      else Some 0
  end.

Definition lmb_is_reserved (l : lmb) (addr : Z) : option Z :=
  lmb_is_reserved_loop (S (length (region (reserved l)))) (reserved l) addr 0.

(** [lmb_size_bytes] of include/lmb.h. *)
Definition lmb_size_bytes (type : lmb_region) (region_nr : Z) : option Z :=
  p ← rget type region_nr; Some (size p).

(** ** The table as a set of addresses

    The entries in use, in increasing order, disjoint and never adjacent: the
    table is kept maximally coalesced. *)

Definition live (r : lmb_region) : list lmb_property := take (Z.to_nat (cnt r)) (region r).

Definition pend (p : lmb_property) : Z := base p + size p.

Fixpoint chain (lo : Z) (l : list lmb_property) : Prop :=
  match l with
  | [] => True
  | p :: l => lo < base p /\ 0 < size p /\ pend p < 2 ^ 32 /\ chain (pend p) l
  end.

Definition array_ok (r : lmb_region) : Prop :=
  length (region r) = 9%nat /\ 0 <= cnt r <= MAX_LMB_REGIONS.

(** A populated table. *)
Definition wf_region (r : lmb_region) : Prop := array_ok r /\ 0 < cnt r /\ chain (-1) (live r).

(** The state after [lmb_init]: one entry of size zero. *)
Definition dummy_region (r : lmb_region) : Prop :=
  array_ok r /\ live r = [Prop_ 0 0] /\ cnt r = 1.

Definition region_inv (r : lmb_region) : Prop := wf_region r \/ dummy_region r.

(** The addresses covered by a table. *)
Definition cov (l : list lmb_property) (a : Z) : Prop := Exists (fun p => base p <= a < pend p) l.
Definition covered (r : lmb_region) (a : Z) : Prop := cov (live r) a.

(** The range [b .. b + s) meets no entry. *)
Definition apart (b s : Z) (p : lmb_property) : Prop := b + s <= base p \/ pend p <= b.

(** ** Chains *)

Fixpoint cend (lo : Z) (l : list lmb_property) : Z :=
  match l with
  | [] => lo
  | p :: l => cend (pend p) l
  end.

Lemma chain_app lo l1 l2 : chain lo (l1 ++ l2) <-> chain lo l1 /\ chain (cend lo l1) l2.
Proof.
  revert lo. induction l1 as [| p l1 IH]; intros lo; cbn; [tauto |].
  rewrite IH. tauto.
Qed.

Lemma chain_bounds lo l p : chain lo l -> p ∈ l ->
  lo < base p /\ 0 < size p /\ pend p < 2 ^ 32 /\ pend p <= cend lo l.
Proof.
  revert lo. induction l as [| q l IH]; intros lo Hc Hp; [by apply elem_of_nil in Hp |].
  cbn in Hc. destruct Hc as (H1 & H2 & H3 & Hc). apply elem_of_cons in Hp as [-> | Hp].
  - split_and!; [done.. |]. cbn. clear -Hc H2.
    revert Hc. generalize (pend q) as lo. induction l as [| r l IH]; intros lo Hc; cbn; [lia |].
    destruct Hc as (? & ? & ? & Hc). specialize (IH _ Hc). unfold pend in *. lia.
  - destruct (IH _ Hc Hp) as (? & ? & ? & ?). unfold pend in *. cbn. split_and!; [lia.. | done].
Qed.

Lemma chain_weaken lo lo' l : chain lo l -> lo' <= lo -> chain lo' l.
Proof. destruct l; cbn; [done |]. intros (? & ? & ? & ?) ?. split_and!; [lia | done..]. Qed.

Lemma cend_lt lo l b : lo < b -> (forall p, p ∈ l -> pend p < b) -> cend lo l < b.
Proof.
  revert lo. induction l as [| p l IH]; intros lo Hlo H; cbn; [done |].
  apply IH; [apply H; left | intros q Hq; apply H; by right].
Qed.

Lemma cov_app l1 l2 a : cov (l1 ++ l2) a <-> cov l1 a \/ cov l2 a.
Proof. apply Exists_app. Qed.

Lemma cov_cons p l a : cov (p :: l) a <-> base p <= a < pend p \/ cov l a.
Proof. apply Exists_cons. Qed.

Lemma cov_nil a : cov [] a <-> False.
Proof. apply Exists_nil. Qed.

(** Decides a coverage equation between lists by arithmetic on the entries. *)
Ltac cov_arith :=
  repeat first [rewrite cov_app | rewrite cov_cons | rewrite cov_nil];
  unfold pend in *; cbn [base size] in *;
  repeat match goal with
  | |- context [cov ?l ?a] => generalize (cov l a); intros ?
  end; split; intros; destruct_or?; first [tauto | lia].

(** ** Array accesses on the entries in use *)

Lemma live_length r : array_ok r -> zlen (live r) = cnt r.
Proof. intros [H1 H2]. unfold live. rewrite length_take. unfold MAX_LMB_REGIONS in *. lia. Qed.

Lemma rget_live r i : array_ok r -> 0 <= i < cnt r -> rget r i = live r !! Z.to_nat i.
Proof.
  intros [H1 H2] Hi. unfold rget, live. rewrite (proj2 (Z.leb_le 0 i)) by lia.
  rewrite lookup_take_lt; [done | lia].
Qed.

Lemma rset_spec r i p : array_ok r -> 0 <= i < 9 ->
  rset r i p = Some (Region (cnt r) (rsize r) (<[Z.to_nat i := p]> (region r))).
Proof.
  intros [H1 _] Hi. unfold rset. rewrite H1.
  change (Z.of_nat 9) with 9. by replace ((0 <=? i) && (i <? 9)) with true by lia.
Qed.

(** Writing an entry in use. *)
Lemma rset_live r l1 q l2 p : array_ok r -> live r = l1 ++ q :: l2 ->
  exists r', rset r (zlen l1) p = Some r' /\ array_ok r' /\ cnt r' = cnt r /\
             live r' = l1 ++ p :: l2.
Proof.
  intros Hr Hl. pose proof (live_length r Hr) as Hlen. rewrite Hl, length_app in Hlen. cbn in Hlen.
  assert (cnt r <= 8) by apply Hr.
  rewrite rset_spec by (done || lia). eexists. split; [done |].
  split; [by split; [cbn; rewrite length_insert; apply Hr | apply Hr] |]. split; [done |].
  unfold live in *. cbn [cnt region]. rewrite take_insert_lt by lia.
  rewrite Hl, Nat2Z.id, insert_app_r_alt, Nat.sub_diag by lia. done.
Qed.

(** ** Removing an entry *)

Lemma lmb_remove_loop_spec fuel r i :
  array_ok r -> 0 < cnt r -> 0 <= i -> cnt r - i <= Z.of_nat fuel -> (0 < fuel)%nat ->
  exists r', lmb_remove_loop fuel r i = Some r' /\ array_ok r' /\ cnt r' = cnt r /\
    forall j, (Z.of_nat j < cnt r - 1)%Z ->
      region r' !! j = if decide (Z.of_nat j < i) then region r !! j else region r !! S j.
Proof.
  revert r i. induction fuel as [| fuel IH]; intros r i Hr Hc Hi Hf Hf0; [lia |].
  assert (cnt r <= 8) by apply Hr. assert (length (region r) = 9%nat) as Hlen by apply Hr.
  cbn [lmb_remove_loop]. rewrite wrap_small by lia.
  destruct (Z.ltb_spec i (cnt r - 1)) as [Hlt | Hge].
  - destruct (lookup_lt_is_Some_2 (region r) (Z.to_nat (i + 1))) as [p Hp]; [lia |].
    unfold rget. rewrite (proj2 (Z.leb_le 0 (i + 1))) by lia. rewrite Hp. cbn [mbind option_bind].
    rewrite rset_spec by (done || lia). cbn [mbind option_bind].
    edestruct (IH (Region (cnt r) (rsize r) (<[Z.to_nat i:=p]> (region r))) (i + 1))
      as (r' & -> & Hr' & Hc' & Hj); cbn [cnt] in *; [| lia.. |].
    { split; [cbn; by rewrite length_insert | apply Hr]. }
    exists r'. split_and!; [done.. |]. intros j Hjlt. rewrite Hj by done. cbn [region].
    repeat case_decide; try lia.
    + rewrite list_lookup_insert_ne; [done | lia].
    + assert (j = Z.to_nat i) as -> by lia.
      rewrite list_lookup_insert_eq by lia. rewrite <- Hp. f_equal. lia.
    + rewrite list_lookup_insert_ne; [done | lia].
  - exists r. split_and!; [done.. |]. intros j Hj. case_decide; [done | lia].
Qed.

Lemma lmb_remove_region_live r l1 q l2 : array_ok r -> live r = l1 ++ q :: l2 ->
  exists r', lmb_remove_region r (zlen l1) = Some r' /\ array_ok r' /\ cnt r' = cnt r - 1 /\
             live r' = l1 ++ l2.
Proof.
  intros Hr Hl. pose proof (live_length r Hr) as Hlen. rewrite Hl, length_app in Hlen. cbn in Hlen.
  assert (cnt r <= 8) by apply Hr. assert (length (region r) = 9%nat) as H9 by apply Hr.
  unfold lmb_remove_region.
  destruct (lmb_remove_loop_spec (S (length (region r))) r (zlen l1)) as (r' & -> & Hr' & Hc & Hj);
    [done | lia.. |].
  cbn [mbind option_bind]. rewrite Hc, wrap_small by lia. eexists. split; [done |].
  split; [split; [apply Hr' | cbn; unfold MAX_LMB_REGIONS; lia] |]. split; [done |].
  unfold live in *. cbn [cnt region set_cnt]. apply list_eq. intros j.
  destruct (decide (Z.of_nat j < cnt r - 1)) as [Hlt | Hge].
  - rewrite lookup_take_lt, Hj by lia.
    assert (forall k, Z.of_nat k < cnt r -> region r !! k = (l1 ++ q :: l2) !! k) as Hk.
    { intros k Hk. rewrite <- Hl, lookup_take_lt; [done | lia]. }
    case_decide.
    + rewrite Hk, !lookup_app_l by lia. done.
    + rewrite Hk, !lookup_app_r by lia. by replace (S j - length l1)%nat with (S (j - length l1)) by lia.
  - rewrite lookup_take_ge by lia. symmetry. apply lookup_ge_None. rewrite length_app. lia.
Qed.

(** ** Inserting an entry *)

Lemma region_get r A p B : region r = A ++ p :: B -> rget r (zlen A) = Some p.
Proof.
  intros H. unfold rget. rewrite (proj2 (Z.leb_le 0 (zlen A))) by lia.
  rewrite Nat2Z.id, H. by apply list_lookup_middle.
Qed.

Lemma region_set r A q B p : region r = A ++ q :: B ->
  rset r (zlen A) p = Some (Region (cnt r) (rsize r) (A ++ p :: B)).
Proof.
  intros H. unfold rset. rewrite H, length_app. cbn [length].
  rewrite (proj2 (Z.leb_le 0 (zlen A))), (proj2 (Z.ltb_lt (zlen A) _)) by lia. cbn [andb].
  by rewrite Nat2Z.id, insert_app_r_alt, Nat.sub_diag by lia.
Qed.

Lemma lmb_insert_loop_spec b s A : forall r x B, region r = A ++ x :: B ->
  exists r', lmb_insert_loop (length A) r b s = Some r' /\ cnt r' = cnt r /\
    ((exists A1 p A2, A = A1 ++ p :: A2 /\ base p <= b /\ Forall (fun q => b < base q) A2 /\
        region r' = A1 ++ p :: Prop_ b s :: A2 ++ B) \/
     (Forall (fun q => b < base q) A /\ region r' = hd x A :: A ++ B)).
Proof.
  induction A as [| p A IH] using rev_ind; intros r x B Hr.
  { exists r. split_and!; [done.. |]. right. done. }
  rewrite length_app, Nat.add_1_r. cbn [lmb_insert_loop].
  rewrite <- app_assoc in Hr. cbn [app] in Hr.
  rewrite (region_get r A p (x :: B)) by done. cbn [mbind option_bind].
  assert (Z.of_nat (length A) + 1 = zlen (A ++ [p])) as Hidx by (rewrite length_app; cbn; lia).
  assert (region r = (A ++ [p]) ++ x :: B) as Hr' by (by rewrite <- app_assoc).
  rewrite Hidx. destruct (Z.ltb_spec b (base p)) as [Hlt | Hge].
  - rewrite (region_set r (A ++ [p]) x B) by done. cbn [mbind option_bind].
    destruct (IH (Region (cnt r) (rsize r) ((A ++ [p]) ++ p :: B)) p (p :: B))
      as (r' & -> & Hc & Hcase); [cbn; by rewrite <- app_assoc |].
    exists r'. split; [done |]. split; [done |].
    destruct Hcase as [(A1 & q & A2 & -> & Hq & HA2 & Hreg) | [HA Hreg]].
    + left. exists A1, q, (A2 ++ [p]). split_and!.
      * by rewrite <- !app_assoc.
      * done.
      * apply Forall_app. split; [done |]. by apply Forall_singleton.
      * rewrite Hreg. by rewrite <- app_assoc.
    + right. split; [apply Forall_app; split; [done | by apply Forall_singleton] |].
      rewrite Hreg. destruct A; cbn; [done |]. by rewrite <- app_assoc.
  - rewrite (region_set r (A ++ [p]) x B) by done. eexists. split; [done |]. split; [done |].
    left. exists A, p, []. split_and!; [done | lia | by apply Forall_nil |].
    cbn. by rewrite <- app_assoc.
Qed.

(** ** Adding a range *)

Lemma rget_mid r l1 p l2 : array_ok r -> live r = l1 ++ p :: l2 -> rget r (zlen l1) = Some p.
Proof.
  intros Hr Hl. pose proof (live_length r Hr) as Hlen. rewrite Hl, length_app in Hlen. cbn in Hlen.
  rewrite rget_live by (done || lia). rewrite Hl, Nat2Z.id. by apply list_lookup_middle.
Qed.

(** The range touches neither end of the entry. *)
Definition no_touch (b s : Z) (p : lmb_property) : Prop := base p <> b + s /\ b <> pend p.

Lemma lmb_addrs_adjacent_spec b s p : 0 <= b -> 0 < s -> b + s < 2 ^ 32 ->
  0 <= base p -> 0 < size p -> pend p < 2 ^ 32 ->
  lmb_addrs_adjacent b s (base p) (size p) =
    if base p =? b + s then 1 else if b =? pend p then -1 else 0.
Proof. intros. unfold lmb_addrs_adjacent, pend in *. by rewrite !wrap_small by lia. Qed.

Lemma lmb_add_scan_spec r b s : array_ok r -> 0 <= b -> 0 < s -> b + s < 2 ^ 32 ->
  Forall (apart b s) (live r) -> chain (-1) (live r) ->
  forall todo fuel done_, live r = done_ ++ todo -> (length todo < fuel)%nat ->
  (Forall (no_touch b s) todo /\
     lmb_add_scan fuel r b s (zlen done_) = Some (ScanDone (cnt r) 0 r)) \/
  (exists t1 p t2 p' r', todo = t1 ++ p :: t2 /\ Forall (no_touch b s) t1 /\
     lmb_add_scan fuel r b s (zlen done_) = Some (ScanDone (zlen (done_ ++ t1)) 1 r') /\
     array_ok r' /\ cnt r' = cnt r /\ live r' = (done_ ++ t1) ++ p' :: t2 /\
     ((base p = b + s /\ p' = Prop_ b (size p + s)) \/
      (b = pend p /\ base p <> b + s /\ p' = Prop_ (base p) (size p + s)))).
Proof.
  intros Hr Hb Hs Hbs Hap Hch todo.
  induction todo as [| p todo IH]; intros fuel done_ Hl Hf; destruct fuel as [| fuel]; try (cbn in Hf; lia).
  - left. split; [by apply Forall_nil |]. cbn [lmb_add_scan].
    pose proof (live_length r Hr) as Hlen. rewrite Hl, app_nil_r in Hlen.
    rewrite Hlen. by rewrite Z.ltb_irrefl.
  - pose proof (live_length r Hr) as Hlen. rewrite Hl, length_app in Hlen. cbn in Hlen.
    assert (p ∈ live r) as Hp by (rewrite Hl; set_solver).
    pose proof (chain_bounds _ _ _ Hch Hp) as (Hp1 & Hp2 & Hp3 & _).
    rewrite Forall_forall in Hap. pose proof (Hap p Hp) as Hpa.
    cbn [lmb_add_scan]. rewrite (proj2 (Z.ltb_lt _ _)) by lia.
    rewrite (rget_mid r done_ p todo) by done. cbn [mbind option_bind].
    assert ((base p =? b) && (size p =? s) = false) as ->.
    { unfold apart, pend in *. destruct (Z.eqb_spec (base p) b), (Z.eqb_spec (size p) s); cbn; lia. }
    rewrite lmb_addrs_adjacent_spec by lia.
    destruct (Z.eqb_spec (base p) (b + s)) as [E1 | E1]; [| destruct (Z.eqb_spec b (pend p)) as [E2 | E2]].
    + right. cbn [Z.gtb Z.compare]. unfold pend in *. rewrite !wrap_small by lia.
      destruct (rset_live r done_ p todo (Prop_ (base p - s) (size p + s)) Hr Hl)
        as (r' & -> & Hr' & Hc' & Hl'). cbn [mbind option_bind].
      exists [], p, todo, (Prop_ b (size p + s)), r'. rewrite app_nil_r.
      split_and!; [done | by apply Forall_nil | done.. | |].
      * rewrite Hl'. by replace (base p - s) with b by lia.
      * by left.
    + right. cbn [Z.gtb Z.ltb Z.compare]. unfold pend in *. rewrite !wrap_small by lia.
      destruct (rset_live r done_ p todo (Prop_ (base p) (size p + s)) Hr Hl)
        as (r' & -> & Hr' & Hc' & Hl'). cbn [mbind option_bind].
      exists [], p, todo, (Prop_ (base p) (size p + s)), r'. rewrite app_nil_r.
      split_and!; [done | by apply Forall_nil | done.. |]. right. done.
    + cbn [Z.gtb Z.ltb Z.compare].
      assert (zlen done_ + 1 = zlen (done_ ++ [p])) as -> by (rewrite length_app; cbn; lia).
      assert (live r = (done_ ++ [p]) ++ todo) as Hl2 by (by rewrite <- app_assoc).
      destruct (IH fuel (done_ ++ [p]) Hl2 ltac:(cbn in Hf; lia))
        as [[Hnt ->] | (t1 & q & t2 & p' & r' & -> & Hnt & -> & Hr' & Hc' & Hl' & Hcase)].
      * left. split; [| done]. apply Forall_cons. split; [by split | done].
      * right. exists (p :: t1), q, t2, p', r'.
        split_and!; [done | apply Forall_cons; split; [by split | done] | | done | done | | done].
        -- by rewrite <- app_assoc.
        -- rewrite Hl'. by rewrite <- !app_assoc.
Qed.

Lemma chain_strengthen lo lo' l : chain lo l -> (forall p, p ∈ l -> lo' < base p) -> chain lo' l.
Proof.
  destruct l as [| p l]; cbn; [done |]. intros (? & ? & ? & ?) Hb.
  split_and!; [apply Hb; left | done..].
Qed.

Lemma chain_insert lo A1 A2 b s : chain lo (A1 ++ A2) -> lo < b -> 0 < s -> b + s < 2 ^ 32 ->
  (forall q, q ∈ A1 -> pend q < b) -> (forall q, q ∈ A2 -> b + s < base q) ->
  chain lo (A1 ++ Prop_ b s :: A2).
Proof.
  rewrite !chain_app. intros [H1 H2] Hlo Hs Hbs HA1 HA2. split; [done |].
  cbn. split_and!; [by apply cend_lt | done.. |]. by apply (chain_strengthen _ _ _ H2).
Qed.

(** The entry at the seam is merged with its successor exactly when the two
    are adjacent. *)
Lemma lmb_add_coalesce_spec r l1 p l2 c : array_ok r -> live r = l1 ++ p :: l2 ->
  chain (-1) l1 -> cend (-1) l1 < base p -> 0 <= base p -> 0 < size p -> pend p < 2 ^ 32 ->
  chain (pend p - 1) l2 -> 0 < c ->
  exists c' r', lmb_add_coalesce r (zlen l1) c = Some (c', r') /\ 0 < c' /\ wf_region r' /\
    forall a, covered r' a <-> covered r a.
Proof.
  intros Hr Hl H1 Hlt Hp0 Hps Hpe H2 Hc.
  pose proof (live_length r Hr) as Hlen. rewrite Hl, length_app in Hlen. cbn in Hlen.
  assert (cnt r <= 8) by apply Hr. unfold lmb_add_coalesce. rewrite wrap_small by lia.
  assert (wf_region r -> exists c' r', Some (c, r) = Some (c', r') /\ 0 < c' /\ wf_region r' /\
    forall a, covered r' a <-> covered r a) as Hsame by (intros; by exists c, r).
  destruct l2 as [| q l2].
  { replace (_ <? _) with false by (cbn in *; lia). cbn [mbind option_bind Z.eqb negb].
    apply Hsame. split; [done |]. split; [lia |]. rewrite Hl, chain_app. by split. }
  cbn in H2. destruct H2 as (Hq1 & Hq2 & Hq3 & H2). cbn [length] in Hlen.
  rewrite (proj2 (Z.ltb_lt _ _)) by lia.
  unfold lmb_regions_adjacent. rewrite (rget_mid r l1 p (q :: l2)) by done. cbn [mbind option_bind].
  assert (live r = (l1 ++ [p]) ++ q :: l2) as Hl' by (by rewrite <- app_assoc).
  assert (zlen l1 + 1 = zlen (l1 ++ [p])) as Hi by (rewrite length_app; cbn; lia).
  rewrite Hi, (rget_mid r (l1 ++ [p]) q l2) by done. cbn [mbind option_bind].
  rewrite lmb_addrs_adjacent_spec by (unfold pend in *; lia). fold (pend p).
  destruct (Z.eqb_spec (base q) (pend p)) as [E | E]; cbn [Z.eqb negb].
  - unfold lmb_coalesce_regions. rewrite (rget_mid r l1 p (q :: l2)) by done. cbn [mbind option_bind].
    rewrite (rget_mid r (l1 ++ [p]) q l2) by done. cbn [mbind option_bind].
    unfold pend in *. rewrite wrap_small by lia.
    destruct (rset_live r l1 p (q :: l2) (Prop_ (base p) (size p + size q)) Hr Hl)
      as (r' & -> & Hr' & Hc' & Hlr'). cbn [mbind option_bind].
    set (pq := Prop_ (base p) (size p + size q)) in *.
    assert (live r' = (l1 ++ [pq]) ++ q :: l2) as Hlr2 by (by rewrite <- app_assoc).
    replace (zlen (l1 ++ [p])) with (zlen (l1 ++ [pq])) by (rewrite !length_app; done).
    destruct (lmb_remove_region_live r' _ q l2 Hr' Hlr2) as (r2 & -> & Hr2 & Hc2 & Hl2).
    cbn [mbind option_bind]. exists (c + 1), r2. split; [done |]. split; [lia |]. split.
    + split; [done |]. split; [lia |]. rewrite Hl2, <- app_assoc, chain_app. split; [done |].
      unfold pq. cbn. unfold pend; cbn. split_and!; [lia.. |].
      replace (base p + (size p + size q)) with (base q + size q) by lia. done.
    + intros a. unfold covered. rewrite Hl2, Hl. unfold pq. cov_arith.
  - rewrite (proj2 (Z.eqb_neq (base p) (pend q))) by (unfold pend in *; lia).
    cbn [Z.eqb negb]. apply Hsame. split; [done |]. split; [lia |].
    rewrite Hl, chain_app. split; [done |]. cbn. split_and!; [done.. | lia | done | done | done].
Qed.

(** What an entry added to a populated table has to achieve. *)
Definition added (r r' : lmb_region) (b s : Z) : Prop :=
  wf_region r' /\ forall a, covered r' a <-> covered r a \/ b <= a < b + s.

Section Add.
Context (r : lmb_region) (b s : Z).
Context (Hr : array_ok r) (Hc0 : 0 < cnt r) (Hch : chain (-1) (live r)).
Context (Hb : 0 <= b) (Hs : 0 < s) (Hbs : b + s < 2 ^ 32) (Hap : Forall (apart b s) (live r)).

Lemma not_touching_sep q : Forall (no_touch b s) (live r) -> q ∈ live r ->
  pend q < b \/ b + s < base q.
Proof.
  intros Hnt Hq. rewrite Forall_forall in Hap, Hnt. specialize (Hap q Hq). specialize (Hnt q Hq).
  unfold apart, no_touch in *. lia.
Qed.

(** The table after the shift of the larger entries. *)
Lemma inserted_added r2 A1 A2 B : Forall (no_touch b s) (live r) -> cnt r < MAX_LMB_REGIONS ->
  cnt r2 = cnt r -> live r = A1 ++ A2 -> region r2 = A1 ++ Prop_ b s :: A2 ++ B ->
  length B = (8 - length (live r))%nat ->
  (forall q, q ∈ A1 -> base q <= b) -> (forall q, q ∈ A2 -> b < base q) ->
  added r (set_cnt r2 (u32 (cnt r2 + 1))) b s.
Proof.
  intros Hnt Hroom Hc2 HA Hreg2 HB H1 H2. unfold MAX_LMB_REGIONS in Hroom.
  pose proof (live_length r Hr) as Hlen. rewrite Hc2, wrap_small by lia.
  assert (live (set_cnt r2 (cnt r + 1)) = A1 ++ Prop_ b s :: A2) as Hl2.
  { unfold live. cbn [cnt region set_cnt]. rewrite Hreg2.
    rewrite (app_assoc A1 (_ :: A2) B : A1 ++ Prop_ b s :: A2 ++ B = _).
    rewrite take_app_length'; [done |]. rewrite <- Hlen, HA, !length_app. cbn. lia. }
  split; [split; [| split] |].
  - split; [| cbn; unfold MAX_LMB_REGIONS; lia]. cbn. rewrite Hreg2. rewrite HA in *.
    rewrite !length_app in *. cbn. rewrite length_app. lia.
  - cbn. lia.
  - rewrite Hl2. pose proof Hch as Hch'. rewrite HA in Hch'.
    apply chain_insert; [done | lia | done | done | |]; intros q Hq;
      (destruct (not_touching_sep q Hnt) as [Hq' | Hq']; [rewrite HA; set_solver | |]); [done | | | done].
    + specialize (H1 q Hq). lia.
    + pose proof (chain_bounds _ _ q Hch' ltac:(set_solver)). specialize (H2 q Hq). unfold pend in *. lia.
  - intros a. unfold covered. rewrite Hl2, HA. cov_arith.
Qed.

(** The entries before one of a chain start before it. *)
Lemma chain_before A1 p A2 y : chain (-1) (A1 ++ p :: A2) -> y ∈ A1 -> base y < base p.
Proof.
  rewrite chain_app. intros [Ha [Hp _]] Hy.
  destruct (chain_bounds _ _ y Ha Hy) as (? & ? & _ & ?). unfold pend in *. lia.
Qed.

(** No entry touches the range: it goes to its place in the order. *)
Lemma lmb_add_insert_ok : Forall (no_touch b s) (live r) -> cnt r < MAX_LMB_REGIONS ->
  exists r1 q r2, lmb_insert_loop (Z.to_nat (cnt r)) r b s = Some r1 /\ rget r1 0 = Some q /\
    (if b <? base q then rset r1 0 (Prop_ b s) else Some r1) = Some r2 /\
    added r (set_cnt r2 (u32 (cnt r2 + 1))) b s.
Proof.
  intros Hnt Hroom. pose proof Hroom as Hroom'. unfold MAX_LMB_REGIONS in Hroom'.
  pose proof (live_length r Hr) as Hlen. assert (length (region r) = 9%nat) as H9 by apply Hr.
  destruct (lookup_lt_is_Some_2 (region r) (length (live r))) as [x Hx]; [lia |].
  assert (region r = live r ++ x :: drop (S (length (live r))) (region r)) as Hreg.
  { rewrite <- (take_drop_middle _ _ _ Hx) at 1. f_equal. unfold live at 2. f_equal. lia. }
  set (B := drop _ _) in Hreg.
  assert (length B = (8 - length (live r))%nat) as HB by (unfold B; rewrite length_drop; lia).
  destruct (lmb_insert_loop_spec b s (live r) r x B Hreg) as (r1 & Hins & Hc1 & Hcase).
  replace (Z.to_nat (cnt r)) with (length (live r)) by lia.
  destruct Hcase as [(A1 & p & A2 & HA & Hp & HA2 & Hreg1) | [HA Hreg1]].
  - pose proof Hch as Hch'. rewrite HA in Hch'.
    assert (forall y, y ∈ A1 ++ [p] -> base y <= b) as Hle.
    { intros y Hy. apply elem_of_app in Hy as [Hy | ->%list_elem_of_singleton]; [| done].
      pose proof (chain_before _ _ _ _ Hch' Hy). lia. }
    assert (exists q, rget r1 0 = Some q /\ base q <= b) as (q & Hq & Hqb).
    { unfold rget. cbn. rewrite Hreg1. destruct A1 as [| q A1]; cbn; [by exists p |].
      exists q. split; [done | apply Hle; left]. }
    exists r1, q, r1. split_and!; [done.. | by rewrite (proj2 (Z.ltb_ge _ _)) |].
    apply (inserted_added r1 (A1 ++ [p]) A2 B);
      [done | done | done | by rewrite <- app_assoc | by rewrite <- app_assoc | done | done |].
    by rewrite Forall_forall in HA2.
  - assert (exists q l, live r = q :: l) as (q & l & Hl).
    { destruct (live r) as [| q l]; [cbn in Hlen; lia | by exists q, l]. }
    rewrite Hl in HA, Hreg1. cbn in Hreg1.
    exists r1, q, (Region (cnt r1) (rsize r1) (Prop_ b s :: (q :: l) ++ B)).
    split_and!; [done | by unfold rget; cbn; rewrite Hreg1 | |].
    + apply Forall_cons in HA as [Hq _]. rewrite (proj2 (Z.ltb_lt _ _)) by done.
      by apply (region_set r1 [] q ((q :: l) ++ B)).
    + apply (inserted_added _ [] (q :: l) B);
        [done | done | done | done | done | done | by intros ? ?%elem_of_nil | by rewrite Forall_forall in HA].
Qed.

(** The range extends an entry: the table stays coalesced. *)
Lemma lmb_add_extend_ok t1 p t2 p' r' :
  live r = t1 ++ p :: t2 -> Forall (no_touch b s) t1 -> array_ok r' -> live r' = t1 ++ p' :: t2 ->
  (base p = b + s /\ p' = Prop_ b (size p + s)) \/ (b = pend p /\ p' = Prop_ (base p) (size p + s)) ->
  exists c' r2, lmb_add_coalesce r' (zlen t1) 1 = Some (c', r2) /\ 0 < c' /\ added r r2 b s.
Proof.
  intros Hl Hnt Hr' Hl' Hcase. pose proof Hch as Hch'. rewrite Hl in Hch'.
  pose proof (chain_bounds _ _ p Hch' ltac:(set_solver)) as (Hp1 & Hp2 & Hp3 & _).
  rewrite chain_app in Hch'. destruct Hch' as [H1 [Hlt [_ [_ H2]]]].
  rewrite Forall_forall in Hap, Hnt. rewrite Hl in Hap.
  destruct (lmb_add_coalesce_spec r' t1 p' t2 1) as (c' & r2 & Hco & Hc' & Hwf & Hcov);
    [done | done | done | | | | | | lia |].
  - destruct Hcase as [[E ->] | [E ->]]; [| done]. cbn. apply cend_lt; [lia |]. intros q Hq.
    destruct (chain_bounds _ _ q H1 Hq) as (_ & Hqs & _ & Hle).
    pose proof (Hap q ltac:(set_solver)) as Haq. destruct (Hnt q Hq). unfold apart, pend in *. lia.
  - destruct Hcase as [[E ->] | [E ->]]; cbn; lia.
  - destruct Hcase as [[E ->] | [E ->]]; cbn; lia.
  - destruct Hcase as [[E ->] | [E ->]]; unfold pend in *; cbn; lia.
  - destruct Hcase as [[E ->] | [E ->]].
    + unfold pend in *. cbn. apply (chain_weaken _ _ _ H2). lia.
    + apply (chain_strengthen _ _ _ H2). intros q Hq.
      destruct (chain_bounds _ _ q H2 Hq) as (? & ? & _ & _).
      pose proof (Hap q ltac:(set_solver)). unfold apart, pend in *. cbn. lia.
  - exists c', r2. split; [done |]. split; [done |]. split; [done |]. intros a. rewrite Hcov.
    unfold covered. rewrite Hl, Hl'.
    destruct Hcase as [[E ->] | [E ->]]; cov_arith.
Qed.

(** [lmb_add_region] on a populated table. *)
Lemma lmb_add_region_wf :
  exists ret r', lmb_add_region r b s = Some (ret, r') /\
    ((0 <= ret /\ added r r' b s) \/ (ret = -1 /\ r' = r /\ cnt r = MAX_LMB_REGIONS)).
Proof.
  unfold lmb_add_region. pose proof (live_length r Hr) as Hlen. assert (cnt r <= 8) by apply Hr.
  assert (length (region r) = 9%nat) as H9 by apply Hr.
  assert (exists p0, rget r 0 = Some p0 /\ 0 < size p0) as (p0 & -> & Hp0).
  { destruct (live r) as [| p0 l0] eqn:Hl; [cbn in Hlen; lia |].
    exists p0. split; [by apply (rget_mid r [] p0 l0) |].
    apply (chain_bounds (-1) (p0 :: l0)); [done | left]. }
  cbn [mbind option_bind]. rewrite (proj2 (Z.eqb_neq (size p0) 0)), andb_false_r by lia.
  destruct (lmb_add_scan_spec r b s Hr Hb Hs Hbs Hap Hch (live r) (S (length (region r))) [])
    as [[Hnt Hscan] | (t1 & p & t2 & p' & r' & Hl1 & Hnt & Hscan & Hr' & Hc' & Hl' & Hcase)];
    [done | lia | |]; cbn [app length] in Hscan; change (Z.of_nat 0) with 0 in Hscan; rewrite Hscan;
    cbn [mbind option_bind].
  - unfold lmb_add_coalesce. rewrite wrap_small, (proj2 (Z.ltb_ge _ _)) by lia.
    cbn [mbind option_bind Z.eqb negb].
    destruct (Z.leb_spec MAX_LMB_REGIONS (cnt r)) as [Hfull | Hroom].
    { exists (-1), r. split; [done |]. right. unfold MAX_LMB_REGIONS in *. split_and!; [done.. | lia]. }
    destruct (lmb_add_insert_ok Hnt Hroom) as (r1 & q & r2 & -> & Hq & Hset & Hadd).
    cbn [mbind option_bind]. rewrite Hq. cbn [mbind option_bind]. rewrite Hset. cbn [mbind option_bind].
    eexists 0, _. split; [done |]. left. done.
  - destruct (lmb_add_extend_ok t1 p t2 p' r') as (c' & r2 & -> & Hc2 & Hadd);
      [done.. | destruct Hcase as [? | (? & _ & ?)]; [by left | by right] |].
    cbn [mbind option_bind]. rewrite (proj2 (Z.eqb_neq c' 0)) by lia. cbn [negb].
    exists c', r2. split; [done |]. left. split; [lia | done].
Qed.

End Add.

(** ** Reserving and adding: the public entry points *)

(** The range [b .. b + s) is a proper range below 4 GiB. *)
Definition range_ok (b s : Z) : Prop := 0 <= b /\ 0 < s /\ b + s < 2 ^ 32.

Lemma uncovered_apart l b s : chain (-1) l -> 0 < s ->
  (forall a, b <= a < b + s -> ~ cov l a) -> Forall (apart b s) l.
Proof.
  intros Hch Hs Hun. rewrite Forall_forall. intros p Hp.
  destruct (chain_bounds _ _ p Hch Hp) as (_ & Hps & _ & _).
  destruct (decide (apart b s p)) as [| Hnot]; [done | exfalso].
  apply (Hun (Z.max b (base p))).
  - unfold apart, pend in *. lia.
  - apply Exists_exists. exists p. split; [done |]. unfold apart, pend in *. lia.
Qed.

Lemma lmb_add_region_inv r b s : region_inv r -> range_ok b s ->
  (forall a, b <= a < b + s -> ~ covered r a) ->
  exists ret r', lmb_add_region r b s = Some (ret, r') /\
    ((0 <= ret /\ added r r' b s) \/ (ret = -1 /\ r' = r /\ cnt r = MAX_LMB_REGIONS)).
Proof.
  intros Hinv (Hb & Hs & Hbs) Hun. destruct Hinv as [(Hr & Hc & Hch) | (Hr & Hl & Hc)].
  { apply lmb_add_region_wf; [done.. | by apply uncovered_apart]. }
  unfold lmb_add_region. assert (rget r 0 = Some (Prop_ 0 0)) as -> by (by apply (rget_mid r [] _ [])).
  cbn [mbind option_bind]. rewrite Hc. cbn [Z.eqb andb size].
  destruct (rset_live r [] _ [] (Prop_ b s) Hr Hl) as (r' & Hset & Hr' & Hc' & Hl').
  cbn [length] in Hset. change (Z.of_nat 0) with 0 in Hset. rewrite Hset. cbn [mbind option_bind].
  exists 0, r'. split; [done |]. left. split; [lia |]. split.
  - split; [done |]. split; [lia |]. rewrite Hl'. cbn. unfold pend. cbn. lia.
  - intros a. unfold covered. rewrite Hl, Hl'. cov_arith.
Qed.

Lemma added_inv r r' b s : added r r' b s -> region_inv r'.
Proof. intros [H _]. by left. Qed.

(** [lmb_reserve] of a range that is still free keeps the table sorted,
    disjoint and maximally coalesced and adds exactly that range to the
    reserved addresses; the only failure is a full table, which is reported
    and changes nothing. *)
Theorem lmb_reserve_correct l b s : region_inv (reserved l) -> range_ok b s ->
  (forall a, b <= a < b + s -> ~ covered (reserved l) a) ->
  exists ret l', lmb_reserve l b s = Some (ret, l') /\ memory l' = memory l /\
    ((0 <= ret /\ wf_region (reserved l') /\
      forall a, covered (reserved l') a <-> covered (reserved l) a \/ b <= a < b + s) \/
     (ret = -1 /\ l' = l /\ cnt (reserved l) = MAX_LMB_REGIONS)).
Proof.
  intros Hinv Hrg Hun. unfold lmb_reserve.
  destruct (lmb_add_region_inv (reserved l) b s Hinv Hrg Hun) as (ret & r' & -> & Hcase).
  cbn [mbind option_bind]. exists ret, (Lmb (memory l) r'). split; [done |]. split; [done |].
  destruct Hcase as [[Hret Hadd] | (-> & -> & Hfull)]; [left; by split | right].
  split_and!; [done | by destruct l | done].
Qed.

(** ** Membership *)

Lemma lmb_is_reserved_loop_spec r addr : array_ok r -> chain (-1) (live r) ->
  forall todo fuel dn, live r = dn ++ todo -> (length todo < fuel)%nat ->
  exists v, lmb_is_reserved_loop fuel r addr (zlen dn) = Some v /\
    ((v = 1 /\ cov todo addr) \/ (v = 0 /\ ~ cov todo addr)).
Proof.
  intros Hr Hch todo. induction todo as [| p todo IH]; intros [| fuel] dn Hl Hf; try (cbn in Hf; lia);
    pose proof (live_length r Hr) as Hlen; rewrite Hl, length_app in Hlen; cbn in Hlen;
    cbn [lmb_is_reserved_loop].
  - rewrite (proj2 (Z.ltb_ge _ _)) by lia. exists 0. split; [done |]. right. rewrite cov_nil. tauto.
  - rewrite (proj2 (Z.ltb_lt _ _)) by lia. rewrite (rget_mid r dn p todo) by done.
    cbn [mbind option_bind].
    destruct (chain_bounds _ _ p Hch ltac:(rewrite Hl; set_solver)) as (Hp1 & Hp2 & Hp3 & _).
    unfold pend in *. rewrite (wrap_small 32 (base p + size p)), wrap_small by lia.
    destruct (decide (base p <= addr < base p + size p)) as [Hin | Hout].
    + replace ((base p <=? addr) && (addr <=? base p + size p - 1)) with true by lia.
      exists 1. split; [done |]. left. split; [done |]. rewrite cov_cons. by left.
    + replace ((base p <=? addr) && (addr <=? base p + size p - 1)) with false by lia.
      assert (zlen dn + 1 = zlen (dn ++ [p])) as -> by (rewrite length_app; cbn; lia).
      destruct (IH fuel (dn ++ [p])) as (v & -> & Hv); [by rewrite <- app_assoc | cbn in Hf; lia |].
      exists v. split; [done |]. rewrite cov_cons. unfold pend. clear -Hv Hout. tauto.
Qed.

(** [lmb_is_reserved] decides membership in the reserved set: it returns
    1 exactly for the covered addresses and 0 for all others. *)
Theorem lmb_is_reserved_correct l addr : wf_region (reserved l) ->
  exists v, lmb_is_reserved l addr = Some v /\
    ((v = 1 /\ covered (reserved l) addr) \/ (v = 0 /\ ~ covered (reserved l) addr)).
Proof.
  intros (Hr & _ & Hch). assert (length (region (reserved l)) = 9%nat) by apply Hr.
  apply (lmb_is_reserved_loop_spec _ addr Hr Hch (live (reserved l)) _ []); [done |].
  unfold live. rewrite length_take. lia.
Qed.

(** ** Freeing *)

Lemma lmb_free_find_spec r b e : array_ok r -> chain (-1) (live r) -> 0 <= b -> b < e ->
  forall todo fuel dn, live r = dn ++ todo -> (length todo < fuel)%nat ->
  (exists t1 p t2, todo = t1 ++ p :: t2 /\ base p <= b /\ e <= pend p /\
     lmb_free_find fuel r b e (zlen dn) = Some (Some (zlen (dn ++ t1), base p, pend p))) \/
  (lmb_free_find fuel r b e (zlen dn) = Some None /\
     Forall (fun p => ~ (base p <= b /\ e <= pend p)) todo).
Proof.
  intros Hr Hch Hb He todo. induction todo as [| p todo IH]; intros [| fuel] dn Hl Hf; try (cbn in Hf; lia);
    pose proof (live_length r Hr) as Hlen; rewrite Hl, length_app in Hlen; cbn in Hlen;
    cbn [lmb_free_find].
  - rewrite (proj2 (Z.ltb_ge _ _)) by lia. right. split; [done | by apply Forall_nil].
  - rewrite (proj2 (Z.ltb_lt _ _)) by lia. rewrite (rget_mid r dn p todo) by done.
    cbn [mbind option_bind].
    destruct (chain_bounds _ _ p Hch ltac:(rewrite Hl; set_solver)) as (Hp1 & Hp2 & Hp3 & _).
    rewrite wrap_small by (unfold pend in *; lia). fold (pend p).
    destruct (decide (base p <= b /\ e <= pend p)) as [Hin | Hout].
    + replace ((base p <=? b) && (e <=? pend p)) with true by lia.
      left. exists [], p, todo. rewrite app_nil_r. split_and!; [done | lia | lia | done].
    + replace ((base p <=? b) && (e <=? pend p)) with false by lia.
      assert (zlen dn + 1 = zlen (dn ++ [p])) as -> by (rewrite length_app; cbn; lia).
      destruct (IH fuel (dn ++ [p])) as [(t1 & q & t2 & -> & ? & ? & ->) | [-> Hall]];
        [by rewrite <- app_assoc | cbn in Hf; lia | |].
      * left. exists (p :: t1), q, t2. rewrite <- app_assoc. done.
      * right. split; [done |]. by apply Forall_cons.
Qed.

(** In a coalesced table, a range that is covered lies inside one entry. *)
Lemma covered_one_entry l lo b s : chain lo l -> 0 < s ->
  (forall a, b <= a < b + s -> cov l a) -> exists p, p ∈ l /\ base p <= b /\ b + s <= pend p.
Proof.
  revert lo. induction l as [| p l IH]; intros lo Hch Hs Hcov.
  { exfalso. apply (cov_nil b), Hcov. lia. }
  cbn in Hch. destruct Hch as (Hp1 & Hp2 & Hp3 & Hch).
  assert (forall a, a <= pend p -> ~ cov l a) as Hgap.
  { intros a Ha (q & Hq & Hqa)%Exists_exists.
    destruct (chain_bounds _ _ q Hch Hq) as (? & _). unfold pend in *. lia. }
  destruct (Z.lt_ge_cases b (pend p)) as [Hlt | Hge].
  - exists p. split; [left |].
    assert (base p <= b) as Hbp.
    { destruct (proj1 (cov_cons p l b) (Hcov b ltac:(lia))) as [? | Hc]; [lia |].
      exfalso. apply (Hgap b); [lia | done]. }
    split; [done |]. destruct (Z.le_gt_cases (b + s) (pend p)) as [| Hgt]; [done | exfalso].
    destruct (proj1 (cov_cons p l (pend p)) (Hcov (pend p) ltac:(lia))) as [? | Hc]; [lia |].
    by apply (Hgap (pend p)).
  - destruct (IH (pend p) Hch Hs) as (q & Hq & ?).
    { intros a Ha. destruct (proj1 (cov_cons p l a) (Hcov a Ha)) as [? | ?]; [lia | done]. }
    exists q. split; [by right | done].
Qed.

Section Free.
Context (r : lmb_region) (b s : Z).
Context (Hwf : wf_region r) (Hrg : range_ok b s).

(** The table without the range. *)
Definition freed (r' : lmb_region) : Prop :=
  array_ok r' /\ chain (-1) (live r') /\
  forall a, covered r' a <-> covered r a /\ ~ (b <= a < b + s).

(** One entry is replaced by what is left of it; [rest] is empty when the
    whole entry goes. *)
Lemma freed_intro r' l1 p l2 rest : array_ok r' -> live r = l1 ++ p :: l2 ->
  live r' = l1 ++ rest ++ l2 -> base p <= b -> b + s <= pend p ->
  (rest = [] /\ base p = b /\ pend p = b + s \/
   rest = [Prop_ (b + s) (pend p - (b + s))] /\ base p = b /\ b + s < pend p \/
   rest = [Prop_ (base p) (b - base p)] /\ base p < b /\ pend p = b + s) ->
  freed r'.
Proof.
  destruct Hwf as (Hr & Hc & Hch). destruct Hrg as (Hb & Hs & Hbs).
  intros Hr' Hl Hl' Hp1 Hp2 Hcase. rewrite Hl, chain_app in Hch.
  destruct Hch as [H1 (Hlt & Hps & Hpe & H2)].
  split; [done |]. split.
  - rewrite Hl', chain_app. split; [done |].
    destruct Hcase as [(-> & ? & ?) | [(-> & ? & ?) | (-> & ? & ?)]]; cbn.
    + apply (chain_weaken _ _ _ H2). unfold pend in *. lia.
    + unfold pend in *. cbn in *. split_and!; [lia.. |]. apply (chain_weaken _ _ _ H2). lia.
    + unfold pend in *. cbn in *. split_and!; [lia.. |]. apply (chain_weaken _ _ _ H2). lia.
  - intros a. unfold covered. rewrite Hl, Hl'.
    assert (cov l1 a -> a < base p) as Hl1.
    { intros (q & Hq & Hqa)%Exists_exists.
      destruct (chain_bounds _ _ q H1 Hq) as (_ & _ & _ & ?). unfold pend in *. lia. }
    assert (cov l2 a -> pend p < a) as Hl2.
    { intros (q & Hq & Hqa)%Exists_exists.
      destruct (chain_bounds _ _ q H2 Hq) as (? & _). unfold pend in *. lia. }
    rewrite !cov_app, cov_cons. unfold pend in *.
    destruct Hcase as [(-> & ? & ?) | [(-> & ? & ?) | (-> & ? & ?)]];
      rewrite ?cov_cons, cov_nil; unfold pend; cbn [base size];
      revert Hl1 Hl2; generalize (cov l1 a) (cov l2 a); intros P Q HP HQ;
      intuition lia.
Qed.

End Free.

(** The range lies strictly inside an entry: the entry is cut before the
    hole, and the part behind the hole is entered anew. *)
Lemma lmb_free_split r b s l1 p l2 r1 : wf_region r -> range_ok b s ->
  live r = l1 ++ p :: l2 -> base p < b -> b + s < pend p ->
  array_ok r1 -> cnt r1 = cnt r -> live r1 = l1 ++ [Prop_ (base p) (b - base p)] ++ l2 ->
  exists ret r', lmb_add_region r1 (b + s) (pend p - (b + s)) = Some (ret, r') /\
    ((0 <= ret /\ freed r b s r') \/
     (ret = -1 /\ cnt r = MAX_LMB_REGIONS /\ freed r b (pend p - b) r')).
Proof.
  intros Hwf (Hb & Hs & Hbs) Hl Hp1 Hp2 Hr1 Hc1 Hl1.
  assert (pend p < 2 ^ 32) as Hp3.
  { destruct Hwf as (_ & _ & Hch). apply (chain_bounds (-1) (live r)); [done | rewrite Hl; set_solver]. }
  destruct (freed_intro r b (pend p - b) Hwf ltac:(split_and!; lia) r1 l1 p l2 _ Hr1 Hl Hl1)
    as (_ & Hch1 & Hcov1); [lia | lia | right; right; split_and!; [done | lia | lia] |].
  assert (0 < cnt r) as Hc0 by apply Hwf.
  destruct (lmb_add_region_wf r1 (b + s) (pend p - (b + s)))
    as (ret & r' & -> & Hcase); [done | lia | done | lia | lia | lia | |].
  { apply uncovered_apart; [done | lia |]. intros a Ha Hc. apply (Hcov1 a) in Hc. lia. }
  exists ret, r'. split; [done |]. destruct Hcase as [[Hret [[Hr' [_ Hch']] Hcov']] | (-> & -> & Hfull)].
  - left. split; [done |]. split; [done |]. split; [done |]. intros a.
    rewrite Hcov', Hcov1.
    assert (b <= a < pend p -> covered r a).
    { intros Ha. unfold covered. rewrite Hl. apply cov_app. right. apply cov_cons. left. lia. }
    destruct (decide (b <= a < pend p)); intuition lia.
  - right. split; [done |]. split; [congruence |]. by split.
Qed.

Lemma lmb_free_region_spec r b s : wf_region r -> range_ok b s ->
  (forall a, b <= a < b + s -> covered r a) ->
  exists ret r', lmb_free_region r b s = Some (ret, r') /\
    ((0 <= ret /\ freed r b s r') \/
     (ret = -1 /\ cnt r = MAX_LMB_REGIONS /\
      exists e, b + s < e /\ freed r b (e - b) r')).
Proof.
  intros Hwf Hrg Hcov. pose proof Hwf as (Hr & Hc & Hch). pose proof Hrg as (Hb & Hs & Hbs).
  assert (length (region r) = 9%nat) as H9 by apply Hr.
  unfold lmb_free_region. rewrite (wrap_small 32 (b + s)) by lia.
  destruct (lmb_free_find_spec r b (b + s) Hr Hch Hb ltac:(lia) (live r) (S (length (region r))) [])
    as [(l1 & p & l2 & Hl & Hp1 & Hp2 & Hfind) | [Hfind Hnone]];
    [done | unfold live; rewrite length_take; lia | |];
    cbn [length app] in Hfind; change (Z.of_nat 0) with 0 in Hfind; rewrite Hfind; cbn [mbind option_bind].
  2: { destruct (covered_one_entry _ _ b s Hch Hs Hcov) as (p & Hp & Hpp).
       rewrite Forall_forall in Hnone. by apply Hnone in Hp. }
  rewrite (rget_mid r l1 p l2) by done. cbn [mbind option_bind].
  destruct (chain_bounds _ _ p Hch ltac:(rewrite Hl; set_solver)) as (Hpb & Hps & Hpe & _).
  destruct (Z.eqb_spec (base p) b) as [E1 | N1], (Z.eqb_spec (pend p) (b + s)) as [E2 | N2]; cbn [andb].
  - destruct (lmb_remove_region_live r l1 p l2 Hr Hl) as (r' & -> & Hr' & _ & Hl').
    exists 0, r'. split; [done |]. left. split; [lia |].
    apply (freed_intro r b s Hwf Hrg r' l1 p l2 []); [done.. |]. left. done.
  - rewrite wrap_small by (unfold pend in *; lia).
    destruct (rset_live r l1 p l2 (Prop_ (b + s) (size p - s)) Hr Hl) as (r' & -> & Hr' & _ & Hl').
    exists 0, r'. split; [done |]. left. split; [lia |].
    apply (freed_intro r b s Hwf Hrg r' l1 p l2 [Prop_ (b + s) (size p - s)]); [done.. |].
    right; left. split; [do 2 f_equal; unfold pend in *; lia | lia].
  - rewrite wrap_small by (unfold pend in *; lia).
    destruct (rset_live r l1 p l2 (Prop_ (base p) (size p - s)) Hr Hl) as (r' & -> & Hr' & _ & Hl').
    exists 0, r'. split; [done |]. left. split; [lia |].
    apply (freed_intro r b s Hwf Hrg r' l1 p l2 [Prop_ (base p) (size p - s)]); [done.. |].
    right; right. split; [do 2 f_equal; unfold pend in *; lia | lia].
  - rewrite !wrap_small by (unfold pend in *; lia).
    destruct (rset_live r l1 p l2 (Prop_ (base p) (b - base p)) Hr Hl) as (r1 & -> & Hr1 & Hc1 & Hl1).
    cbn [mbind option_bind].
    destruct (lmb_free_split r b s l1 p l2 r1) as (ret & r' & -> & Hcase); [done | done | done | lia.. | done | done | done |].
    exists ret, r'. split; [done |]. destruct Hcase as [Hok | (Hret & Hfull & Hf)]; [by left | right].
    split_and!; [done | done |]. exists (pend p). split; [lia | done].
Qed.

(** [lmb_free] of a range that is reserved removes exactly that range
    from the reserved set and keeps the table sorted and coalesced, splitting
    an entry when needed.  The error -1 is returned only when such a split
    finds the table full, and then more than the range has been given up: the
    rest of the entry behind it. *)
Theorem lmb_free_correct l b s : wf_region (reserved l) -> range_ok b s ->
  (forall a, b <= a < b + s -> covered (reserved l) a) ->
  exists ret l', lmb_free l b s = Some (ret, l') /\ memory l' = memory l /\
    ((0 <= ret /\ freed (reserved l) b s (reserved l')) \/
     (ret = -1 /\ cnt (reserved l) = MAX_LMB_REGIONS /\
      exists e, b + s < e /\ freed (reserved l) b (e - b) (reserved l'))).
Proof.
  intros Hwf Hrg Hcov. unfold lmb_free.
  destruct (lmb_free_region_spec _ b s Hwf Hrg Hcov) as (ret & r' & -> & Hcase).
  by exists ret, (Lmb (memory l) r').
Qed.

(** ** Allocation *)

(** Clearing the bits of [m], as both alignment functions do. *)
Lemma clear_bits addr m : 0 <= addr < 2 ^ 32 -> 0 <= m < 2 ^ 32 ->
  let r := Z.land addr (Z.lxor 0xffffffff m) in 0 <= r <= addr /\ addr <= r + m /\ Z.land r m = 0.
Proof.
  intros Ha Hm r. assert (r = Z.ldiff addr m) as ->.
  { unfold r. change 0xffffffff with (Z.ones 32). apply Z.bits_inj'. intros i Hi.
    rewrite Z.ldiff_spec. zbits_rw. rewrite Z.testbit_ones_nonneg by lia.
    destruct (Z.ltb_spec i 32); [by destruct (Z.testbit m i), (Z.testbit addr i) | by rewrite (testbit_high 32) by lia]. }
  assert (Z.ldiff (Z.land addr m) addr = 0) as Hsub.
  { apply Z.bits_inj'. intros i Hi. rewrite Z.ldiff_spec, Z.land_spec, Z.bits_0. by destruct (Z.testbit addr i), (Z.testbit m i). }
  apply Z.sub_nocarry_ldiff in Hsub.
  assert (Z.ldiff addr (Z.land addr m) = Z.ldiff addr m) as He.
  { apply Z.bits_inj'. intros i Hi. rewrite !Z.ldiff_spec, Z.land_spec. by destruct (Z.testbit addr i), (Z.testbit m i). }
  rewrite He in Hsub. assert (0 <= Z.land addr m) by (apply Z.land_nonneg; lia).
  assert (Z.land addr m <= m).
  { rewrite Z.land_comm. assert (0 <= Z.ldiff m (Z.land m addr)) by (apply Z.ldiff_nonneg; lia).
    assert (Z.ldiff (Z.land m addr) m = 0) as Hs2.
    { apply Z.bits_inj'. intros i Hi. rewrite Z.ldiff_spec, Z.land_spec, Z.bits_0. by destruct (Z.testbit addr i), (Z.testbit m i). }
    apply Z.sub_nocarry_ldiff in Hs2. lia. }
  assert (0 <= Z.ldiff addr m) by (apply Z.ldiff_nonneg; lia). split_and!; [lia | lia | lia |].
  apply Z.bits_inj'. intros i Hi. rewrite Z.land_spec, Z.ldiff_spec, Z.bits_0. by destruct (Z.testbit addr i), (Z.testbit m i).
Qed.

(** Aligned in the sense of the code, which takes [align - 1] for a mask: for a
    power of two a multiple of it. *)
Definition aligned (align a : Z) : Prop := Z.land a (align - 1) = 0.

Lemma aligned_pow2 k a : 0 <= k -> aligned (2 ^ k) a <-> a mod 2 ^ k = 0.
Proof. intros Hk. unfold aligned. replace (2 ^ k - 1) with (Z.ones k) by (rewrite Z.ones_equiv; lia). by rewrite Z.land_ones. Qed.

Lemma lmb_align_down_spec addr align : 1 <= align < 2 ^ 32 -> 0 <= addr < 2 ^ 32 ->
  0 <= lmb_align_down addr align <= addr /\ aligned align (lmb_align_down addr align).
Proof.
  intros Hal Ha. unfold lmb_align_down, aligned. rewrite wrap_small by lia.
  destruct (clear_bits addr (align - 1) Ha ltac:(lia)) as (H1 & _ & H3). done.
Qed.

Lemma lmb_align_up_spec s align : 1 <= align < 2 ^ 32 -> 0 < s -> s + align <= 2 ^ 32 ->
  aligned align (lmb_align_up s align) /\ s <= lmb_align_up s align < s + align.
Proof.
  intros Hal Hs Hsum. unfold lmb_align_up, aligned. rewrite (wrap_small 32 (align - 1)), (wrap_small 32 (s + _)) by lia.
  destruct (clear_bits (s + (align - 1)) (align - 1)) as (H1 & H2 & H3); [lia | lia |]. split; [done | lia].
Qed.

(** *** Adding any range ends, what it overlaps notwithstanding *)

Lemma rget_total r i : array_ok r -> 0 <= i <= 8 -> exists p, rget r i = Some p.
Proof.
  intros [Hl _] Hi. destruct (lookup_lt_is_Some_2 (region r) (Z.to_nat i)) as [p Hp]; [lia |]. exists p. unfold rget.
  by rewrite (proj2 (Z.leb_le 0 i)) by lia.
Qed.

Lemma rset_total r i p : array_ok r -> 0 <= i <= 8 -> exists r', rset r i p = Some r' /\ array_ok r' /\ cnt r' = cnt r.
Proof.
  intros [Hl Hc] Hi. unfold rset. rewrite Hl, (proj2 (Z.leb_le 0 i)), (proj2 (Z.ltb_lt i _)) by lia. eexists. split; [done |].
  split; [| done]. split; [by cbn; rewrite length_insert | done].
Qed.

Lemma lmb_add_scan_total r b s : array_ok r -> forall fuel i, 0 <= i -> cnt r - i < Z.of_nat fuel -> (0 < fuel)%nat ->
  lmb_add_scan fuel r b s i = Some ScanFound \/
  exists j c r', lmb_add_scan fuel r b s i = Some (ScanDone j c r') /\ 0 <= j /\ 0 <= c /\ array_ok r' /\ cnt r' = cnt r /\ (c = 0 -> r' = r).
Proof.
  intros Hr. induction fuel as [| fuel IH]; intros i Hi Hf Hpos; [lia |]. cbn [lmb_add_scan]. pose proof Hr as [_ Hc]. unfold MAX_LMB_REGIONS in Hc.
  destruct (Z.ltb_spec i (cnt r)); [| right; by exists i, 0, r].
  destruct (rget_total r i Hr ltac:(lia)) as [p ->]. cbn [mbind option_bind]. destruct (_ && _); [by left |].
  destruct (_ >? 0) eqn:Hgt.
  { destruct (rset_total r i (Prop_ (u32 (base p - s)) (u32 (size p + s))) Hr ltac:(lia)) as (r' & -> & Hr' & Hc'). right. by exists i, 1, r'. }
  destruct (_ <? 0).
  { destruct (rset_total r i (Prop_ (base p) (u32 (size p + s))) Hr ltac:(lia)) as (r' & -> & Hr' & Hc'). right. by exists i, 1, r'. }
  apply IH; lia.
Qed.

Lemma lmb_add_coalesce_total r i c : array_ok r -> 0 < cnt r -> 0 <= i -> 0 <= c ->
  exists c' r', lmb_add_coalesce r i c = Some (c', r') /\ 0 <= c' /\ (c' = 0 -> c = 0 /\ r' = r).
Proof.
  intros Hr Hpos Hi Hc0. pose proof Hr as [Hl Hc]. unfold MAX_LMB_REGIONS in Hc. unfold lmb_add_coalesce. rewrite (wrap_small 32 (cnt r - 1)) by lia.
  destruct (Z.ltb_spec i (cnt r - 1)); cbn [mbind option_bind]; [| by exists c, r].
  unfold lmb_regions_adjacent. destruct (rget_total r i Hr ltac:(lia)) as [p1 H1], (rget_total r (i + 1) Hr ltac:(lia)) as [p2 H2].
  rewrite H1, H2. cbn [mbind option_bind]. destruct (negb _); [| by exists c, r].
  unfold lmb_coalesce_regions, lmb_remove_region. rewrite H1, H2. cbn [mbind option_bind].
  destruct (rset_total r i (Prop_ (base p1) (u32 (size p1 + size p2))) Hr ltac:(lia)) as (r1 & -> & Hr1 & Hc1). cbn [mbind option_bind].
  pose proof Hr1 as [Hl1 _]. destruct (lmb_remove_loop_spec (S (length (region r1))) r1 (i + 1) Hr1) as (r2 & -> & _); [lia.. |].
  cbn [mbind option_bind]. eexists _, _. split; [done |]. lia.
Qed.

Lemma lmb_insert_loop_total b s : forall n r, array_ok r -> (n <= 8)%nat -> exists r', lmb_insert_loop n r b s = Some r' /\ array_ok r' /\ cnt r' = cnt r.
Proof.
  induction n as [| i IH]; intros r Hr Hn; [by exists r |]. cbn [lmb_insert_loop]. destruct (rget_total r (Z.of_nat i) Hr ltac:(lia)) as [p ->].
  cbn [mbind option_bind]. destruct (b <? base p); [| apply rset_total; [done | lia]].
  destruct (rset_total r (Z.of_nat i + 1) p Hr ltac:(lia)) as (r1 & -> & Hr1 & Hc1). cbn [mbind option_bind].
  destruct (IH r1 Hr1 ltac:(lia)) as (r2 & -> & Hr2 & Hc2). exists r2. split_and!; [done | done | congruence].
Qed.

Lemma lmb_add_region_total r b s : array_ok r -> 0 < cnt r -> exists ret r', lmb_add_region r b s = Some (ret, r') /\ (ret < 0 -> r' = r).
Proof.
  intros Hr Hc. unfold lmb_add_region. destruct (rget_total r 0 Hr ltac:(lia)) as [p0 ->]. cbn [mbind option_bind].
  destruct (_ && _).
  { destruct (rset_total r 0 (Prop_ b s) Hr ltac:(lia)) as (r' & -> & _). exists 0, r'. split; [done | lia]. }
  destruct (lmb_add_scan_total r b s Hr (S (length (region r))) 0) as [-> | (j & c & r1 & -> & Hj & Hc0 & Hr1 & Hc1 & Heq)];
    [lia | destruct Hr as [-> Hr]; unfold MAX_LMB_REGIONS in Hr; lia | lia | |]; cbn [mbind option_bind]; [by exists 0, r |].
  destruct (lmb_add_coalesce_total r1 j c Hr1) as (c' & r2 & -> & Hc' & Heq2); [lia.. |]. cbn [mbind option_bind].
  destruct (Z.eqb_spec c' 0) as [-> | Hne]; cbn [negb]; [| exists c', r2; split; [done | lia]].
  destruct (Heq2 eq_refl) as [Hcz ->]. destruct (Z.leb_spec MAX_LMB_REGIONS (cnt r1)) as [| Hlt].
  { eexists _, r1. split; [done |]. intros _. by apply Heq. }
  unfold MAX_LMB_REGIONS in Hlt. destruct (lmb_insert_loop_total b s (Z.to_nat (cnt r1)) r1 Hr1) as (r3 & -> & Hr3 & Hc3); [lia |]. cbn [mbind option_bind].
  destruct (rget_total r3 0 Hr3 ltac:(lia)) as [q ->]. cbn [mbind option_bind]. destruct (b <? base q).
  - destruct (rset_total r3 0 (Prop_ b s) Hr3 ltac:(lia)) as (r4 & -> & _). eexists _, _. split; [done | lia].
  - eexists _, _. split; [done | lia].
Qed.

Lemma inv_array_ok r : region_inv r -> array_ok r.
Proof. by intros [[? _] | [? _]]. Qed.

Lemma inv_entry r p : region_inv r -> p ∈ live r -> 0 <= base p /\ 0 <= size p /\ pend p < 2 ^ 32.
Proof.
  intros [(_ & _ & Hch) | (_ & Hl & _)] Hp.
  - destruct (chain_bounds _ _ p Hch Hp) as (? & ? & ? & _). lia.
  - rewrite Hl in Hp. apply list_elem_of_singleton in Hp as ->. done.
Qed.

Lemma inv_sorted r l1 p l2 q : region_inv r -> live r = l1 ++ p :: l2 -> q ∈ l2 -> base p <= base q.
Proof.
  intros [(_ & _ & Hch) | (_ & Hl & _)] Hl' Hq.
  - rewrite Hl', chain_app in Hch. destruct Hch as [_ (_ & Hp & _ & Hch)].
    destruct (chain_bounds _ _ q Hch Hq) as (? & _). unfold pend in *. lia.
  - rewrite Hl in Hl'. destruct l1 as [| ? [|]]; cbn in Hl'; simplify_eq. by apply elem_of_nil in Hq.
Qed.

Lemma apart_uncovered r b s a : Forall (apart b s) (live r) -> b <= a < b + s -> ~ covered r a.
Proof.
  intros Hap Ha (p & Hp & Hpa)%Exists_exists. rewrite Forall_forall in Hap. specialize (Hap p Hp).
  unfold apart, pend in *. lia.
Qed.

(** [lmb_overlaps_region] returns the first entry that meets the range. *)
Lemma lmb_overlaps_loop_spec r b s : region_inv r -> range_ok b s ->
  forall todo fuel dn, live r = dn ++ todo -> (length todo < fuel)%nat ->
  (lmb_overlaps_loop fuel r b s (zlen dn) = Some (-1) /\ Forall (apart b s) todo) \/
  (exists t1 p t2, todo = t1 ++ p :: t2 /\
     lmb_overlaps_loop fuel r b s (zlen dn) = Some (zlen (dn ++ t1)) /\
     b < pend p /\ base p < b + s).
Proof.
  intros Hinv (Hb & Hs & Hbs) todo. pose proof (inv_array_ok r Hinv) as Hr.
  induction todo as [| p todo IH]; intros [| fuel] dn Hl Hf; try (cbn in Hf; lia);
    pose proof (live_length r Hr) as Hlen; rewrite Hl, length_app in Hlen; cbn in Hlen;
    cbn [lmb_overlaps_loop].
  - rewrite (proj2 (Z.ltb_ge _ _)) by lia. left. split; [done | by apply Forall_nil].
  - rewrite (proj2 (Z.ltb_lt _ _)) by lia. rewrite (rget_mid r dn p todo) by done.
    cbn [mbind option_bind].
    destruct (inv_entry r p Hinv ltac:(rewrite Hl; set_solver)) as (Hp1 & Hp2 & Hp3).
    unfold lmb_addrs_overlap. rewrite !wrap_small by (unfold pend in *; lia). fold (pend p).
    destruct (decide (b < pend p /\ base p < b + s)) as [Hin | Hout].
    + replace ((b <? pend p) && (base p <? b + s)) with true by lia.
      right. exists [], p, todo. rewrite app_nil_r. split_and!; [done | done | lia | lia].
    + replace ((b <? pend p) && (base p <? b + s)) with false by lia.
      assert (zlen dn + 1 = zlen (dn ++ [p])) as -> by (rewrite length_app; cbn; lia).
      destruct (IH fuel (dn ++ [p])) as [[-> Hall] | (t1 & q & t2 & -> & -> & ?)];
        [by rewrite <- app_assoc | cbn in Hf; lia | |].
      * left. split; [done |]. apply Forall_cons. split; [unfold apart; lia | done].
      * right. exists (p :: t1), q, t2. rewrite <- app_assoc. done.
Qed.

Section Alloc.
Context (l : lmb) (s align : Z).
Context (Hres : region_inv (reserved l)) (Hs : 0 < s) (Hal : 1 <= align < 2 ^ 32) (Hsum : s + align <= 2 ^ 32).

(** The block at [b] is what the caller may use from now on, and its size rounded
    up is added to the reserved ranges when that is free as well. *)
Definition allocated (l' : lmb) (b : Z) : Prop :=
  aligned align b /\ (forall a, b <= a < b + s -> ~ covered (reserved l) a) /\
  exists R, aligned align R /\ s <= R < s + align /\
    (b + R < 2 ^ 32 -> (forall a, b + s <= a < b + R -> ~ covered (reserved l) a) -> added (reserved l) (reserved l') b R).

(** What is added. *)
Lemma add_allocated b : 0 <= b -> b + s < 2 ^ 32 -> aligned align b -> (forall a, b <= a < b + s -> ~ covered (reserved l) a) ->
  exists ret r', lmb_add_region (reserved l) b (lmb_align_up s align) = Some (ret, r') /\
    (ret < 0 -> r' = reserved l) /\ (0 <= ret -> allocated (Lmb (memory l) r') b).
Proof.
  intros Hb Hbs Hba Hun. destruct (lmb_align_up_spec s align Hal Hs Hsum) as [Hra HR]. set (R := lmb_align_up s align) in *.
  assert (array_ok (reserved l) /\ 0 < cnt (reserved l)) as [Hok Hcnt] by (destruct Hres as [(? & ? & _) | (? & _ & ->)]; by split).
  destruct (lmb_add_region_total (reserved l) b R Hok Hcnt) as (ret & r' & Hadd & Hneg). exists ret, r'. split_and!; [done | done |].
  intros Hret. split_and!; [done | done |]. exists R. split_and!; [done | lia | lia |]. intros Hend Hfree.
  destruct (lmb_add_region_inv (reserved l) b R Hres) as (ret' & r2 & Hadd' & Hcase); [by split_and!; lia | |].
  { intros a Ha. destruct (decide (a < b + s)); [apply Hun; lia | apply Hfree; lia]. }
  rewrite Hadd in Hadd'. injection Hadd' as <- <-. by destruct Hcase as [[_ ?] | [? _]]; [| lia].
Qed.

(** The search inside one bank.  [n] bounds the entries that can still meet
    the block: all the others start behind it. *)
Lemma lmb_alloc_try_spec lo : 0 <= lo -> forall fuel b top, 0 <= b -> b + s <= top -> top < 2 ^ 32 ->
  aligned align b ->
  forall l1 l2, live (reserved l) = l1 ++ l2 -> (forall q, q ∈ l2 -> b + s <= base q) ->
  (length l1 < fuel)%nat ->
  lmb_alloc_try fuel l lo b s align = Some (inr tt) \/
  lmb_alloc_try fuel l lo b s align = Some (inl (0, l)) \/
  exists b' l', lmb_alloc_try fuel l lo b s align = Some (inl (b', l')) /\
    0 < b' /\ lo <= b' /\ b' + s <= top /\ memory l' = memory l /\ allocated l' b'.
Proof.
  intros Hlo. pose proof (inv_array_ok _ Hres) as Hr.
  assert (length (region (reserved l)) = 9%nat) as H9 by apply Hr.
  induction fuel as [| fuel IH]; intros b top Hb Htop Ht Hbk l1 l2 Hl Hfar Hf; [lia |].
  cbn [lmb_alloc_try].
  destruct (decide (b <> 0 /\ lo <= b)) as [[Hb0 Hlob] | Hno].
  2: { replace (negb (b =? 0) && (lo <=? b)) with false by lia. by left. }
  replace (negb (b =? 0) && (lo <=? b)) with true by lia.
  assert (range_ok b s) as Hrg by (split_and!; lia).
  destruct (lmb_overlaps_loop_spec (reserved l) b s Hres Hrg (live (reserved l))
    (S (length (region (reserved l)))) []) as [[Hov Hap] | (t1 & p & t2 & Hl' & Hov & Hp1 & Hp2)];
    [done | unfold live; rewrite length_take; lia | |];
    unfold lmb_overlaps_region; cbn [length app] in Hov; change (Z.of_nat 0) with 0 in Hov;
    rewrite Hov; cbn [mbind option_bind].
  - cbn [Z.ltb Z.compare]. right.
    destruct (add_allocated b Hb ltac:(lia) Hbk) as (ret & r' & -> & Hneg & Hpos).
    { intros a. by apply apart_uncovered. }
    cbn [mbind option_bind]. destruct (Z.ltb_spec ret 0) as [Hr0 | Hr0].
    + left. rewrite (Hneg Hr0). by destruct l.
    + right. exists b, (Lmb (memory l) r'). split_and!; [done | lia | lia | lia | done | by apply Hpos].
  - rewrite (proj2 (Z.ltb_ge (zlen t1) 0)) by lia. rewrite (rget_mid (reserved l) t1 p t2) by done.
    cbn [mbind option_bind]. destruct (Z.ltb_spec (base p) s) as [| Hps]; [by left |].
    destruct (inv_entry (reserved l) p Hres ltac:(rewrite Hl'; set_solver)) as (Hpb & Hpz & Hpe).
    rewrite wrap_small by (unfold pend in *; lia).
    destruct (lmb_align_down_spec (base p - s) align Hal ltac:(unfold pend in *; lia)) as [Hd Hdk].
    apply (IH _ top) with (l1 := t1) (l2 := p :: t2); [lia | lia | done | done | done | |].
    + intros q [-> | Hq]%elem_of_cons; [lia |].
      pose proof (inv_sorted (reserved l) t1 p t2 q Hres Hl' Hq). lia.
    + destruct (Nat.lt_ge_cases (length t1) (length l1)); [lia | exfalso].
      assert (p ∈ l2).
      { apply list_elem_of_lookup. exists (length t1 - length l1)%nat.
        rewrite <- lookup_app_r, <- Hl, Hl' by lia. by apply list_lookup_middle. }
      specialize (Hfar p ltac:(done)). lia.
Qed.

(** What a search over the banks may return. *)
Definition alloc_result (max_addr : Z) (o : option (Z * lmb)) : Prop :=
  o = Some (0, l) \/
  exists b l', o = Some (b, l') /\ 0 < b /\ memory l' = memory l /\ allocated l' b /\
    (exists p, p ∈ live (memory l) /\ base p <= b /\ b + s <= pend p) /\
    (max_addr = LMB_ALLOC_ANYWHERE \/ b + s <= max_addr).

(** One bank, below [top]; [rest] is the search over the other banks. *)
Lemma lmb_alloc_bank_spec max_addr p top rest : p ∈ live (memory l) -> 0 <= base p ->
  s <= top -> top <= pend p -> top < 2 ^ 32 -> (max_addr = LMB_ALLOC_ANYWHERE \/ top <= max_addr) ->
  alloc_result max_addr rest ->
  alloc_result max_addr
    (r ← lmb_alloc_try (S (S (length (region (reserved l))))) l (base p)
           (lmb_align_down (u32 (top - s)) align) s align;
     match r with inl res => Some res | inr _ => rest end).
Proof.
  intros Hpin Hp Ht1 Ht2 Ht3 Htm Hrest.
  assert (length (region (reserved l)) = 9%nat) as H9 by (by apply inv_array_ok).
  rewrite wrap_small by lia.
  destruct (lmb_align_down_spec (top - s) align Hal ltac:(lia)) as [Hd Hdk].
  destruct (lmb_alloc_try_spec (base p) Hp (S (S (length (region (reserved l)))))
    (lmb_align_down (top - s) align) top ltac:(lia) ltac:(lia) Ht3 Hdk (live (reserved l)) [])
    as [-> | [-> | (b & l' & -> & Hb & Hlo & Htop & Hmem & Hall)]];
    [by rewrite app_nil_r | by intros ? ?%elem_of_nil | unfold live; rewrite length_take; lia | | |];
    cbn [mbind option_bind]; [exact Hrest | by left |].
  right. exists b, l'. split_and!; [done.. | |].
  - exists p. split_and!; [done | lia | lia].
  - destruct Htm; [by left | right; lia].
Qed.

(** The search over the banks. *)
Lemma lmb_alloc_banks_spec max_addr : wf_region (memory l) ->
  (max_addr = LMB_ALLOC_ANYWHERE \/ s <= max_addr < 2 ^ 32) ->
  forall n, Z.of_nat n <= cnt (memory l) ->
  alloc_result max_addr (lmb_alloc_banks n l s align max_addr).
Proof.
  intros (Hm & Hmc & Hch) Hmax. induction n as [| i IH]; intros Hn; [by left |].
  cbn [lmb_alloc_banks]. specialize (IH ltac:(lia)).
  destruct (lookup_lt_is_Some_2 (live (memory l)) i) as [p Hp].
  { pose proof (live_length _ Hm). lia. }
  rewrite rget_live, Nat2Z.id, Hp by (done || lia). cbn [mbind option_bind].
  apply list_elem_of_lookup_2 in Hp.
  destruct (chain_bounds _ _ p Hch Hp) as (Hp1 & Hp2 & Hp3 & _).
  destruct (Z.ltb_spec (size p) s) as [| Hsz]; [done |].
  rewrite (wrap_small 32 (base p + size p)) by (unfold pend in *; lia). fold (pend p).
  destruct (Z.eqb_spec max_addr LMB_ALLOC_ANYWHERE) as [E | N];
    [| destruct (Z.ltb_spec (base p) max_addr); [| done]].
  - apply lmb_alloc_bank_spec; [done | lia | unfold pend in *; lia | lia | done | by left | done].
  - destruct Hmax as [| Hmax]; [done |].
    apply lmb_alloc_bank_spec; [done | lia | unfold pend in *; lia | lia | lia | right; lia | done].
Qed.

End Alloc.

(** C27: [__lmb_alloc_base] returns, for every alignment and every size that is
    not above the limit and whose sum with the alignment does not exceed the
    address space.  The result 0 changes nothing.  A result [b] that is not 0 is
    aligned, and the [s] bytes from it on lie inside one memory bank, below
    [max_addr], and were not reserved.  What is recorded is the range of the size
    [R], which is [s] rounded up to the alignment: when that whole range was free
    and ends below the address space, the reserved table stays sorted, disjoint and
    coalesced and covers exactly this range more.  For a size that is a multiple of
    a power of two [R] is [s], and the range is always free. *)
Theorem lmb_alloc_base_correct l s align max_addr :
  wf_region (memory l) -> region_inv (reserved l) -> 0 < s -> 1 <= align < 2 ^ 32 -> s + align <= 2 ^ 32 ->
  (max_addr = LMB_ALLOC_ANYWHERE \/ s <= max_addr < 2 ^ 32) ->
  exists b l', __lmb_alloc_base l s align max_addr = Some (b, l') /\ memory l' = memory l /\
    ((b = 0 /\ l' = l) \/
     (0 < b /\ aligned align b /\
      (exists p, p ∈ live (memory l) /\ base p <= b /\ b + s <= pend p) /\
      (max_addr = LMB_ALLOC_ANYWHERE \/ b + s <= max_addr) /\
      (forall a, b <= a < b + s -> ~ covered (reserved l) a) /\
      exists R, aligned align R /\ s <= R < s + align /\
        (b + R < 2 ^ 32 -> (forall a, b + s <= a < b + R -> ~ covered (reserved l) a) ->
          wf_region (reserved l') /\ forall a, covered (reserved l') a <-> covered (reserved l) a \/ b <= a < b + R) /\
        (forall k, 0 <= k -> align = 2 ^ k -> s mod 2 ^ k = 0 -> R = s))).
Proof.
  intros Hm Hres Hs Hal Hsum Hmax. unfold __lmb_alloc_base.
  assert (array_ok (memory l)) as [_ Hc] by apply Hm.
  destruct (lmb_alloc_banks_spec l s align Hres Hs Hal Hsum max_addr Hm Hmax (Z.to_nat (cnt (memory l))))
    as [-> | (b & l' & -> & Hb & Hmem & (Hbk & Hfree & R & HRa & HR & Hadd) & Hbank & Hlim)]; [lia | |].
  - exists 0, l. split_and!; [done.. |]. by left.
  - exists b, l'. split; [done |]. split; [done |]. right. split_and!; [done.. |]. exists R. split_and!; [done | lia | lia | |].
    + intros Hend Hfr. by destruct (Hadd Hend Hfr).
    + intros k Hk -> Hsk. apply aligned_pow2 in HRa; [| done]. apply Z.mod_divide in HRa as [q ->], Hsk as [p ->]; [| lia..]. assert (q = p) as -> by nia. done.
Qed.

(** ** Examples on a concrete machine *)

Module LmbExamples.

Definition blank : lmb_region := Region 0 0 (replicate 9 (Prop_ 0 0)).

(** [lmb_init] followed by [lmb_add] of one bank. *)
Definition boot (b s : Z) : option lmb :=
  l ← lmb_init (Lmb blank blank); '(_, l) ← lmb_add l b s; Some l.

Definition mx64 : lmb :=
  Lmb (Region 1 0 (Prop_ 0x60000000 0x20000000 :: replicate 8 (Prop_ 0 0)))
      (Region 1 0 (replicate 9 (Prop_ 0 0))).

Example mx64_boot : boot 0x60000000 0x20000000 = Some mx64.
Proof. reflexivity. Qed.

Lemma mx64_memory_wf : wf_region (memory mx64).
Proof. split; [split; [done | cbn; unfold MAX_LMB_REGIONS; lia] |]. by vm_compute. Qed.

Lemma mx64_reserved_inv : region_inv (reserved mx64).
Proof. right. split; [split; [done | cbn; unfold MAX_LMB_REGIONS; lia] | done]. Qed.

(** One range reserved. *)
Definition mx64_res : lmb :=
  Lmb (memory mx64) (Region 1 0 (Prop_ 0x61000000 0x10000 :: replicate 8 (Prop_ 0 0))).

Lemma mx64_res_wf : wf_region (reserved mx64_res).
Proof. split; [split; [done | cbn; unfold MAX_LMB_REGIONS; lia] |]. by vm_compute. Qed.

Lemma lmb_reserve_correct_witness :
  exists ret l', lmb_reserve mx64_res 0x61010000 0x1000 = Some (ret, l') /\ memory l' = memory mx64_res /\
    ((0 <= ret /\ wf_region (reserved l') /\
      forall a, covered (reserved l') a <-> covered (reserved mx64_res) a \/ 0x61010000 <= a < 0x61011000) \/
     (ret = -1 /\ l' = mx64_res /\ cnt (reserved mx64_res) = MAX_LMB_REGIONS)).
Proof.
  apply (lmb_reserve_correct mx64_res 0x61010000 0x1000).
  - left. apply mx64_res_wf.
  - unfold range_ok. lia.
  - intros a Ha Hc. unfold covered in Hc.
    change (live (reserved mx64_res)) with [Prop_ 0x61000000 0x10000] in Hc. rewrite cov_cons, cov_nil in Hc.
    unfold pend in Hc. cbn in Hc. lia.
Defined.

Lemma lmb_is_reserved_correct_witness :
  exists v, lmb_is_reserved mx64_res 0x61000001 = Some v /\
    ((v = 1 /\ covered (reserved mx64_res) 0x61000001) \/
     (v = 0 /\ ~ covered (reserved mx64_res) 0x61000001)).
Proof. apply (lmb_is_reserved_correct mx64_res 0x61000001). apply mx64_res_wf. Defined.

Lemma lmb_free_correct_witness :
  exists ret l', lmb_free mx64_res 0x61001000 0x1000 = Some (ret, l') /\ memory l' = memory mx64_res /\
    ((0 <= ret /\ freed (reserved mx64_res) 0x61001000 0x1000 (reserved l')) \/
     (ret = -1 /\ cnt (reserved mx64_res) = MAX_LMB_REGIONS /\
      exists e, 0x61002000 < e /\ freed (reserved mx64_res) 0x61001000 (e - 0x61001000) (reserved l'))).
Proof.
  apply (lmb_free_correct mx64_res 0x61001000 0x1000).
  - apply mx64_res_wf.
  - unfold range_ok. lia.
  - intros a Ha. unfold covered.
    change (live (reserved mx64_res)) with [Prop_ 0x61000000 0x10000]. rewrite cov_cons. unfold pend. cbn. left. lia.
Defined.

(** Twelve bytes with the alignment 0xf that common/image.c asks for, and a ramdisk
    of 0x2345 bytes whose range is rounded up to 0x3000. *)
Lemma lmb_alloc_base_correct_witness :
  (exists l', __lmb_alloc_base mx64 12 0xf 0x62000000 = Some (0x61fffff0, l') /\ memory l' = memory mx64) /\
  exists l', __lmb_alloc_base mx64 0x2345 (2 ^ 12) 0x62000000 = Some (0x61ffd000, l') /\
    memory l' = memory mx64 /\ wf_region (reserved l') /\ forall a, covered (reserved l') a <-> 0x61ffd000 <= a < 0x62000000.
Proof.
  split.
  - destruct (lmb_alloc_base_correct mx64 12 0xf 0x62000000) as (b & l' & Heq & Hm & _);
      [apply mx64_memory_wf | apply mx64_reserved_inv | lia.. |].
    assert (b = 0x61fffff0) as -> by (vm_compute in Heq; congruence). by exists l'.
  - destruct (lmb_alloc_base_correct mx64 0x2345 (2 ^ 12) 0x62000000) as (b & l' & Heq & Hm & Hcase);
      [apply mx64_memory_wf | apply mx64_reserved_inv | lia.. |].
    assert (b = 0x61ffd000) as -> by (vm_compute in Heq; congruence).
    exists l'. split; [done |]. split; [done |]. destruct Hcase as [[? _] | (_ & _ & _ & _ & _ & R & HRa & HR & Hadd & _)]; [done |].
    apply (aligned_pow2 12) in HRa; [| lia]. assert (R = 0x3000) as ->.
    { pose proof (Z.div_mod R (2 ^ 12) ltac:(lia)). lia. }
    assert (forall a, ~ covered (reserved mx64) a) as Hno.
    { intros a Ha. unfold covered in Ha. change (live (reserved mx64)) with [Prop_ 0 0] in Ha. rewrite cov_cons, cov_nil in Ha. unfold pend in Ha. cbn in Ha. lia. }
    destruct Hadd as [Hwf Hcov]; [lia | by intros |]. split; [done |]. intros a. rewrite Hcov. split; [intros [[]%Hno | ?]; lia | intros; right; lia].
Defined.

(** Freeing the only reserved range and reserving another one. *)
Definition free_last_then_reserve : option (Z * Z * Z) :=
  l ← lmb_init (Lmb blank blank);
  '(_, l) ← lmb_reserve l 0x1000 0x100;
  '(_, l) ← lmb_free l 0x1000 0x100;
  '(ret, l) ← lmb_reserve l 0x2000 0x100;
  at_new ← lmb_is_reserved l 0x2000;
  at_old ← lmb_is_reserved l 0x1000;
  Some (ret, at_new, at_old).

(** After the last reserved range is freed the table is empty, and the
    next [lmb_reserve] above the freed range reports success without recording
    the new range: the freed range is reserved again instead. *)
Theorem lmb_reserve_after_last_free_lost : free_last_then_reserve = Some (0, 0, 1).
Proof. reflexivity. Qed.

Definition low_bank : lmb :=
  Lmb (Region 1 0 (Prop_ 0 0x40000000 :: replicate 8 (Prop_ 0 0)))
      (Region 1 0 (replicate 9 (Prop_ 0 0))).

(** With memory at address zero, an allocation larger than its address
    limit wraps around: [__lmb_alloc_base] returns a block outside the memory
    instead of 0. *)
Theorem lmb_alloc_base_limit_wraps :
  exists l', __lmb_alloc_base low_bank 0x2000000 0x1000 0x1000000 = Some (0xff000000, l') /\
    forall p, p ∈ live (memory low_bank) -> pend p <= 0xff000000.
Proof.
  eexists. split; [reflexivity |]. intros p ->%list_elem_of_singleton. unfold pend. cbn. lia.
Qed.

(** When the size is not a multiple of the alignment, the table records
    the size rounded up, and the recorded entry can overlap a range that was
    already reserved: the entries are no longer disjoint. *)
Theorem lmb_alloc_unaligned_overlaps :
  exists l', __lmb_alloc_base
      (Lmb (memory mx64) (Region 1 0 (Prop_ 0x7ffff080 0xf80 :: replicate 8 (Prop_ 0 0))))
      0x80 0x100 0 = Some (0x7ffff000, l') /\
    live (reserved l') = [Prop_ 0x7ffff000 0x100; Prop_ 0x7ffff080 0xf80].
Proof. eexists. split; reflexivity. Qed.

End LmbExamples.
