(* ===== verification/Ctype.v ===== *)
(** * Character classes (lib/ctype.c, include/linux/ctype.h)

    The table [_ctype] and the predicates on it, with the sets of characters
    they accept. *)

From S2P Require Import Prelude.

Definition _U : Z := 0x01.
Definition _L : Z := 0x02.
Definition _D : Z := 0x04.
Definition _C : Z := 0x08.
Definition _P : Z := 0x10.
Definition _S : Z := 0x20.
Definition _X : Z := 0x40.
Definition _SP : Z := 0x80.

Definition _ctype : list Z :=
  [_C; _C; _C; _C; _C; _C; _C; _C;
   _C; Z.lor _C _S; Z.lor _C _S; Z.lor _C _S; Z.lor _C _S; Z.lor _C _S; _C; _C;
   _C; _C; _C; _C; _C; _C; _C; _C;
   _C; _C; _C; _C; _C; _C; _C; _C;
   Z.lor _S _SP; _P; _P; _P; _P; _P; _P; _P;
   _P; _P; _P; _P; _P; _P; _P; _P;
   _D; _D; _D; _D; _D; _D; _D; _D;
   _D; _D; _P; _P; _P; _P; _P; _P;
   _P; Z.lor _U _X; Z.lor _U _X; Z.lor _U _X; Z.lor _U _X; Z.lor _U _X; Z.lor _U _X; _U;
   _U; _U; _U; _U; _U; _U; _U; _U;
   _U; _U; _U; _U; _U; _U; _U; _U;
   _U; _U; _U; _P; _P; _P; _P; _P;
   _P; Z.lor _L _X; Z.lor _L _X; Z.lor _L _X; Z.lor _L _X; Z.lor _L _X; Z.lor _L _X; _L;
   _L; _L; _L; _L; _L; _L; _L; _L;
   _L; _L; _L; _L; _L; _L; _L; _L;
   _L; _L; _L; _P; _P; _P; _P; _C;
   0; 0; 0; 0; 0; 0; 0; 0;
   0; 0; 0; 0; 0; 0; 0; 0;
   0; 0; 0; 0; 0; 0; 0; 0;
   0; 0; 0; 0; 0; 0; 0; 0;
   Z.lor _S _SP; _P; _P; _P; _P; _P; _P; _P;
   _P; _P; _P; _P; _P; _P; _P; _P;
   _P; _P; _P; _P; _P; _P; _P; _P;
   _P; _P; _P; _P; _P; _P; _P; _P;
   _U; _U; _U; _U; _U; _U; _U; _U;
   _U; _U; _U; _U; _U; _U; _U; _U;
   _U; _U; _U; _U; _U; _U; _U; _P;
   _U; _U; _U; _U; _U; _U; _U; _L;
   _L; _L; _L; _L; _L; _L; _L; _L;
   _L; _L; _L; _L; _L; _L; _L; _L;
   _L; _L; _L; _L; _L; _L; _L; _P;
   _L; _L; _L; _L; _L; _L; _L; _L].

(** [__ismask(x)]: [_ctype[(int)(unsigned char)(x)]]. *)
Definition __ismask (x : Z) : Z := default 0 (_ctype !! Z.to_nat (u8 x)).

Definition has_class (c m : Z) : bool := negb (Z.land (__ismask c) m =? 0).

Definition isalnum (c : Z) : bool := has_class c (Z.lor (Z.lor _U _L) _D).
Definition isalpha (c : Z) : bool := has_class c (Z.lor _U _L).
Definition isdigit (c : Z) : bool := has_class c _D.
Definition islower (c : Z) : bool := has_class c _L.
Definition isprint (c : Z) : bool := has_class c (Z.lor (Z.lor (Z.lor (Z.lor _P _U) _L) _D) _SP).
Definition isspace (c : Z) : bool := has_class c _S.
Definition isupper (c : Z) : bool := has_class c _U.
Definition isxdigit (c : Z) : bool := has_class c (Z.lor _D _X).
Definition isblank (c : Z) : bool := (c =? 32) || (c =? 9).

Definition tolower (c : Z) : Z := let c := u8 c in if isupper c then u8 (c - (65 - 97)) else c.
Definition toupper (c : Z) : Z := let c := u8 c in if islower c then u8 (c - (97 - 65)) else c.

(** ** The sets of characters *)

Definition all_bytes (f g : Z -> bool) : Prop := f <$> seqZ 0 256 = g <$> seqZ 0 256.

Lemma all_bytes_spec f g : all_bytes f g -> forall c, is_byte c -> f c = g c.
Proof. intros H c Hc. by apply (table_ext false f g 256). Qed.

Lemma isdigit_spec c : is_byte c -> isdigit c = (48 <=? c) && (c <=? 57).
Proof. revert c. apply all_bytes_spec. vm_compute. reflexivity. Qed.

Lemma isxdigit_spec c : is_byte c ->
  isxdigit c = ((48 <=? c) && (c <=? 57)) || ((65 <=? c) && (c <=? 70)) || ((97 <=? c) && (c <=? 102)).
Proof. revert c. apply all_bytes_spec. vm_compute. reflexivity. Qed.

Lemma isspace_spec c : is_byte c -> isspace c = ((9 <=? c) && (c <=? 13)) || (c =? 32) || (c =? 160).
Proof. revert c. apply all_bytes_spec. vm_compute. reflexivity. Qed.

Lemma isspace_0 : isspace 0 = false.
Proof. reflexivity. Qed.

