(* ===== verification/StringLib.v ===== *)
(** * The C string library (lib/string.c)

    The routines work on a byte-addressed memory: a finite map from addresses
    to bytes, a read or write of an address outside it being the fault [None].
    [char] is unsigned, [unsigned long] and pointers are 32 bits wide, and no
    object wraps around the end of the address space.  The null pointer is the
    address 0.

    A loop reads one more address in every round, and the addresses of its
    rounds are different, so [S (size m)] rounds are enough for every loop. *)

From S2P Require Import Prelude Ctype.

Abbreviation mem := (gmap Z Z).

Definition NULL : Z := 0.

Definition load (m : mem) (p : Z) : option Z := m !! p.

(** A store of the low byte of [v]. *)
Definition store (m : mem) (p v : Z) : option mem :=
  match m !! p with
  | Some _ => Some (<[p := u8 v]> m)
  | None => None
  end.

(** Words of 4 or 8 bytes, little-endian. *)
Definition load_word (m : mem) (p : Z) (n : nat) : option Z :=
  l ← mapM (fun i => load m (p + i)) (seqZ 0 (Z.of_nat n)); Some (le_load l).

Fixpoint store_word (m : mem) (p v : Z) (n : nat) : option mem :=
  match n with
  | O => Some m
  | S n => m ← store m p v; store_word m (p + 1) (Z.shiftr v 8) n
  end.

Definition loop_fuel (m : mem) : nat := S (size m).

(** ** Copying strings *)

(** [while (( *dest++ = *src++ ) != '\0')]; the memory after the loop. *)
Fixpoint strcpy_loop (fuel : nat) (m : mem) (dest src : Z) : option mem :=
  match fuel with
  | O => None
  | S fuel =>
      c ← load m src; m ← store m dest c;
      if c =? 0 then Some m else strcpy_loop fuel m (dest + 1) (src + 1)
  end.

Definition strcpy (m : mem) (dest src : Z) : option (mem * Z) :=
  m' ← strcpy_loop (loop_fuel m) m dest src; Some (m', dest).

(** [while (count-- && ( *dest++ = *src++ ) != '\0')]. *)
Fixpoint strncpy_loop (count : nat) (m : mem) (dest src : Z) : option mem :=
  match count with
  | O => Some m
  | S count =>
      c ← load m src; m ← store m dest c;
      if c =? 0 then Some m else strncpy_loop count m (dest + 1) (src + 1)
  end.

Definition strncpy (m : mem) (dest src count : Z) : option (mem * Z) :=
  m' ← strncpy_loop (Z.to_nat count) m dest src; Some (m', dest).

(** [for (sc = s; *sc != '\0'; ++sc)]: the address of the terminator. *)
Fixpoint str_end (fuel : nat) (m : mem) (p : Z) : option Z :=
  match fuel with
  | O => None
  | S fuel => c ← load m p; if c =? 0 then Some p else str_end fuel m (p + 1)
  end.

Definition strlen (m : mem) (s : Z) : option Z :=
  sc ← str_end (loop_fuel m) m s; Some (sc - s).

Fixpoint strnlen_loop (count : nat) (m : mem) (sc : Z) : option Z :=
  match count with
  | O => Some sc
  | S count => c ← load m sc; if c =? 0 then Some sc else strnlen_loop count m (sc + 1)
  end.

Definition strnlen (m : mem) (s count : Z) : option Z :=
  sc ← strnlen_loop (Z.to_nat count) m s; Some (sc - s).

Definition strcat (m : mem) (dest src : Z) : option (mem * Z) :=
  d ← str_end (loop_fuel m) m dest;
  m' ← strcpy_loop (loop_fuel m) m d src; Some (m', dest).

(** [while (( *dest++ = *src++ )) if (--count == 0) *dest = '\0', break;] *)
Fixpoint strncat_loop (fuel : nat) (m : mem) (dest src count : Z) : option mem :=
  match fuel with
  | O => None
  | S fuel =>
      c ← load m src; m ← store m dest c;
      if c =? 0 then Some m
      else if count - 1 =? 0 then store m (dest + 1) 0
      else strncat_loop fuel m (dest + 1) (src + 1) (count - 1)
  end.

Definition strncat (m : mem) (dest src count : Z) : option (mem * Z) :=
  if count =? 0 then Some (m, dest)
  else
    d ← str_end (loop_fuel m) m dest;
    m' ← strncat_loop (loop_fuel m) m d src count; Some (m', dest).

(** ** Comparing *)

(** [signed char __res; if ((__res = *cs - *ct++) != 0 || ! *cs++) break;] *)
Fixpoint strcmp_loop (fuel : nat) (m : mem) (cs ct : Z) : option Z :=
  match fuel with
  | O => None
  | S fuel =>
      a ← load m cs; b ← load m ct;
      let res := s8 (a - b) in
      if negb (res =? 0) || (a =? 0) then Some res
      else strcmp_loop fuel m (cs + 1) (ct + 1)
  end.

Definition strcmp (m : mem) (cs ct : Z) : option Z := strcmp_loop (loop_fuel m) m cs ct.

Fixpoint strncmp_loop (count : nat) (m : mem) (cs ct res : Z) : option Z :=
  match count with
  | O => Some res
  | S count =>
      a ← load m cs; b ← load m ct;
      let res := s8 (a - b) in
      if negb (res =? 0) || (a =? 0) then Some res
      else strncmp_loop count m (cs + 1) (ct + 1) res
  end.

Definition strncmp (m : mem) (cs ct count : Z) : option Z :=
  strncmp_loop (Z.to_nat count) m cs ct 0.

Fixpoint memcmp_loop (count : nat) (m : mem) (cs ct : Z) : option Z :=
  match count with
  | O => Some 0
  | S count =>
      a ← load m cs; b ← load m ct;
      let res := a - b in
      if negb (res =? 0) then Some res else memcmp_loop count m (cs + 1) (ct + 1)
  end.

Definition memcmp (m : mem) (cs ct count : Z) : option Z := memcmp_loop (Z.to_nat count) m cs ct.

(** ** Searching *)

Fixpoint strchr_loop (fuel : nat) (m : mem) (s c : Z) : option Z :=
  match fuel with
  | O => None
  | S fuel =>
      x ← load m s;
      if x =? c then Some s else if x =? 0 then Some NULL else strchr_loop fuel m (s + 1) c
  end.

Definition strchr (m : mem) (s c : Z) : option Z := strchr_loop (loop_fuel m) m s (u8 c).

(** [do { if ( *p == (char)c ) return p; } while (--p >= s);]; [n] is [p - s]. *)
Fixpoint strrchr_loop (n : nat) (m : mem) (s c : Z) : option Z :=
  x ← load m (s + Z.of_nat n);
  if x =? c then Some (s + Z.of_nat n)
  else match n with O => Some NULL | S n => strrchr_loop n m s c end.

Definition strrchr (m : mem) (s c : Z) : option Z :=
  n ← strlen m s; strrchr_loop (Z.to_nat n) m s (u8 c).

Fixpoint skip_spaces_loop (fuel : nat) (m : mem) (s : Z) : option Z :=
  match fuel with
  | O => None
  | S fuel => c ← load m s; if isspace c then skip_spaces_loop fuel m (s + 1) else Some s
  end.

Definition skip_spaces (m : mem) (s : Z) : option Z := skip_spaces_loop (loop_fuel m) m s.

(** [while (end >= s && isspace( *end )) end--;]; [n] is [end - s + 1]. *)
Fixpoint strim_loop (n : nat) (m : mem) (s : Z) : option Z :=
  match n with
  | O => Some (s - 1)
  | S n =>
      c ← load m (s + Z.of_nat n);
      if isspace c then strim_loop n m s else Some (s + Z.of_nat n)
  end.

Definition strim (m : mem) (s : Z) : option (mem * Z) :=
  s ← skip_spaces m s;
  size ← strlen m s;
  if size =? 0 then Some (m, s)
  else
    e ← strim_loop (Z.to_nat size) m s;
    m ← store m (e + 1) 0; Some (m, s).

(** The inner loops of [strspn] and [strpbrk] over the set of characters:
    whether the character is in it. *)
Fixpoint in_set (fuel : nat) (m : mem) (a c : Z) : option bool :=
  match fuel with
  | O => None
  | S fuel =>
      x ← load m a;
      if x =? 0 then Some false else if c =? x then Some true else in_set fuel m (a + 1) c
  end.

Fixpoint strspn_loop (fuel : nat) (m : mem) (p accept count : Z) : option Z :=
  match fuel with
  | O => None
  | S fuel =>
      c ← load m p;
      if c =? 0 then Some count
      else
        b ← in_set (loop_fuel m) m accept c;
        if b : bool then strspn_loop fuel m (p + 1) accept (count + 1) else Some count
  end.

Definition strspn (m : mem) (s accept : Z) : option Z := strspn_loop (loop_fuel m) m s accept 0.

Fixpoint strpbrk_loop (fuel : nat) (m : mem) (sc1 ct : Z) : option Z :=
  match fuel with
  | O => None
  | S fuel =>
      c ← load m sc1;
      if c =? 0 then Some NULL
      else
        b ← in_set (loop_fuel m) m ct c;
        if b : bool then Some sc1 else strpbrk_loop fuel m (sc1 + 1) ct
  end.

Definition strpbrk (m : mem) (cs ct : Z) : option Z := strpbrk_loop (loop_fuel m) m cs ct.

(** [strtok] keeps its position in the static [___strtok]; the result is the
    memory, the new value of that variable and the token. *)
Definition strtok (m : mem) (___strtok s ct : Z) : option (mem * Z * Z) :=
  let sbegin := if negb (s =? NULL) then s else ___strtok in
  if sbegin =? NULL then Some (m, ___strtok, NULL)
  else
    n ← strspn m sbegin ct;
    let sbegin := sbegin + n in
    c ← load m sbegin;
    if c =? 0 then Some (m, NULL, NULL)
    else
      send ← strpbrk m sbegin ct;
      if send =? NULL then Some (m, send, sbegin)
      else
        c ← load m send;
        if c =? 0 then Some (m, send, sbegin)
        else m ← store m send 0; Some (m, send + 1, sbegin).

(** [strsep]; [s] is the value of [*s], the result is the memory, the new
    value of [*s] and the token. *)
Definition strsep (m : mem) (s ct : Z) : option (mem * Z * Z) :=
  if s =? NULL then Some (m, s, NULL)
  else
    e ← strpbrk m s ct;
    if e =? NULL then Some (m, e, s)
    else m ← store m e 0; Some (m, e + 1, s).

(** [for (p = s, q = p+1; *p != '\0' && *q != '\0'; p += 2, q += 2)]. *)
Fixpoint strswab_loop (fuel : nat) (m : mem) (p : Z) : option mem :=
  match fuel with
  | O => None
  | S fuel =>
      a ← load m p;
      if a =? 0 then Some m
      else
        b ← load m (p + 1);
        if b =? 0 then Some m
        else m ← store m p b; m ← store m (p + 1) a; strswab_loop fuel m (p + 2)
  end.

Definition strswab (m : mem) (s : Z) : option (mem * Z) :=
  if s =? NULL then Some (m, NULL)
  else
    c ← load m s;
    if c =? 0 then Some (m, NULL)
    else m ← strswab_loop (loop_fuel m) m s; Some (m, s).

(** [while (l1 >= l2) { l1--; if (!memcmp(s1,s2,l2)) return s1; s1++; }];
    [n] rounds remain when [n] is [l1 - l2 + 1]. *)
Fixpoint strstr_loop (n : nat) (m : mem) (s1 s2 l2 : Z) : option Z :=
  match n with
  | O => Some NULL
  | S n =>
      r ← memcmp m s1 s2 l2;
      if r =? 0 then Some s1 else strstr_loop n m (s1 + 1) s2 l2
  end.

Definition strstr (m : mem) (s1 s2 : Z) : option Z :=
  l2 ← strlen m s2;
  if l2 =? 0 then Some s1
  else l1 ← strlen m s1; strstr_loop (Z.to_nat (l1 - l2 + 1)) m s1 s2 l2.

(** ** Areas of memory *)

(** [while (count--) *s8++ = c;] *)
Fixpoint memset_bytes (count : nat) (m : mem) (s8 c : Z) : option mem :=
  match count with
  | O => Some m
  | S count => m ← store m s8 c; memset_bytes count m (s8 + 1) c
  end.

Fixpoint memset_words (words : nat) (m : mem) (sl cl : Z) : option mem :=
  match words with
  | O => Some m
  | S words => m ← store_word m sl cl 4; memset_words words m (sl + 4) cl
  end.

(** [cl <<= 8; cl |= c & 0xff;], four times. *)
Definition memset_pattern (c : Z) : Z :=
  Nat.iter 4 (fun cl => Z.lor (u32 (Z.shiftl cl 8)) (Z.land c 0xff)) 0.

Definition memset (m : mem) (s c count : Z) : option (mem * Z) :=
  if Z.land s 3 =? 0 then
    let words := count / 4 in
    m ← memset_words (Z.to_nat words) m s (memset_pattern c);
    m ← memset_bytes (Z.to_nat (count - 4 * words)) m (s + 4 * words) c; Some (m, s)
  else m ← memset_bytes (Z.to_nat count) m s c; Some (m, s).

(** [while (count--) *tmp++ = *s++;] *)
Fixpoint copy_up (count : nat) (m : mem) (d s : Z) : option mem :=
  match count with
  | O => Some m
  | S count => c ← load m s; m ← store m d c; copy_up count m (d + 1) (s + 1)
  end.

(** [while (count--) *--tmp = *--s;], the pointers starting behind the areas. *)
Fixpoint copy_down (count : nat) (m : mem) (d s : Z) : option mem :=
  match count with
  | O => Some m
  | S count =>
      c ← load m (s + Z.of_nat count); m ← store m (d + Z.of_nat count) c; copy_down count m d s
  end.

Fixpoint copy_words (words : nat) (m : mem) (dl sl : Z) : option mem :=
  match words with
  | O => Some m
  | S words =>
      w ← load_word m sl 4; m ← store_word m dl w 4; copy_words words m (dl + 4) (sl + 4)
  end.

Definition bcopy (m : mem) (src dest count : Z) : option (mem * Z) :=
  m ← copy_up (Z.to_nat count) m dest src; Some (m, dest).

Definition memcpy (m : mem) (dest src count : Z) : option (mem * Z) :=
  if src =? dest then Some (m, dest)
  else if Z.land (Z.lor dest src) 3 =? 0 then
    let words := count / 4 in
    m ← copy_words (Z.to_nat words) m dest src;
    m ← copy_up (Z.to_nat (count - 4 * words)) m (dest + 4 * words) (src + 4 * words); Some (m, dest)
  else m ← copy_up (Z.to_nat count) m dest src; Some (m, dest).

Definition memmove (m : mem) (dest src count : Z) : option (mem * Z) :=
  if src =? dest then Some (m, dest)
  else if dest <=? src then m ← copy_up (Z.to_nat count) m dest src; Some (m, dest)
  else m ← copy_down (Z.to_nat count) m dest src; Some (m, dest).

(** [while (size) { if ( *p == c ) return p; p++; size--; } return p;]; the
    comparison is with the [int] argument. *)
Fixpoint memscan_loop (n : nat) (m : mem) (p c : Z) : option Z :=
  match n with
  | O => Some p
  | S n => x ← load m p; if x =? c then Some p else memscan_loop n m (p + 1) c
  end.

Definition memscan (m : mem) (addr c size : Z) : option Z := memscan_loop (Z.to_nat size) m addr c.

Fixpoint memchr_loop (n : nat) (m : mem) (p c : Z) : option Z :=
  match n with
  | O => Some NULL
  | S n => x ← load m p; if c =? x then Some p else memchr_loop n m (p + 1) c
  end.

Definition memchr (m : mem) (s c n : Z) : option Z := memchr_loop (Z.to_nat n) m s (u8 c).

Fixpoint check_bytes8 (bytes : nat) (m : mem) (start value : Z) : option Z :=
  match bytes with
  | O => Some NULL
  | S bytes =>
      x ← load m start;
      if negb (x =? value) then Some start else check_bytes8 bytes m (start + 1) value
  end.

(** The loop over 64-bit words; [inl]: the function returns there. *)
Fixpoint memchr_inv_words (words : nat) (m : mem) (start value value64 : Z) : option (Z + Z) :=
  match words with
  | O => Some (inr start)
  | S words =>
      w ← load_word m start 8;
      if negb (w =? value64) then r ← check_bytes8 8 m start value; Some (inl r)
      else memchr_inv_words words m (start + 8) value value64
  end.

Definition memchr_inv (m : mem) (start c bytes : Z) : option Z :=
  let value := u8 c in
  if bytes <=? 16 then check_bytes8 (Z.to_nat bytes) m start value
  else
    let value64 := value in
    let value64 := Z.lor value64 (u64 (Z.shiftl value64 8)) in
    let value64 := Z.lor value64 (u64 (Z.shiftl value64 16)) in
    let value64 := Z.lor value64 (u64 (Z.shiftl value64 32)) in
    let tail start bytes :=
      let words := bytes / 8 in
      r ← memchr_inv_words (Z.to_nat words) m start value value64;
      match r with
      | inl p => Some p
      | inr start => check_bytes8 (Z.to_nat (bytes mod 8)) m start value
      end in
    let prefix := start mod 8 in
    if negb (prefix =? 0) then
      let prefix := 8 - prefix in
      r ← check_bytes8 (Z.to_nat prefix) m start value;
      if negb (r =? NULL) then Some r else tail (start + prefix) (bytes - prefix)
    else tail start bytes.

(** ** Strings in memory *)

(** The bytes [s], none of them NUL, followed by a NUL. *)
Fixpoint cstr (m : mem) (p : Z) (s : list Z) : Prop :=
  match s with
  | [] => m !! p = Some 0
  | c :: s => m !! p = Some c /\ 0 < c < 256 /\ cstr m (p + 1) s
  end.

(** The bytes [l] at [p]. *)
Fixpoint bytes_at (m : mem) (p : Z) (l : list Z) : Prop :=
  match l with
  | [] => True
  | c :: l => m !! p = Some c /\ is_byte c /\ bytes_at m (p + 1) l
  end.

Lemma cstr_bytes_at m p s : cstr m p s -> bytes_at m p (s ++ [0]).
Proof.
  revert p. induction s as [| c s IH]; intros p; cbn; [by intros -> |].
  intros (? & ? & ?). split_and!; [done | unfold is_byte; lia | by apply IH].
Qed.

(** A string with its terminator fits in the memory: the loops have enough
    fuel. *)
Lemma bytes_at_size m p l : bytes_at m p l -> (length l <= size m)%nat.
Proof.
  intros H.
  assert (list_to_set (seqZ p (zlen l)) ⊆ dom m) as Hsub.
  { intros a Ha. apply elem_of_list_to_set, elem_of_seqZ in Ha.
    revert p H Ha. induction l as [| c l IH]; intros p H Ha; cbn in *; [lia |].
    destruct H as (H1 & _ & H2). destruct (decide (a = p)) as [-> |]; [by apply elem_of_dom |].
    apply (IH (p + 1)); [done | lia]. }
  apply subseteq_size in Hsub. rewrite size_dom in Hsub.
  rewrite size_list_to_set, length_seqZ in Hsub by apply NoDup_seqZ. lia.
Qed.

Lemma cstr_fuel m p s : cstr m p s -> (length s < loop_fuel m)%nat.
Proof.
  intros H%cstr_bytes_at%bytes_at_size. rewrite length_app in H. cbn in H. unfold loop_fuel. lia.
Qed.

Lemma cstr_no_nul m p s : cstr m p s -> Forall (fun c => 0 < c < 256) s.
Proof.
  revert p. induction s as [| c s IH]; intros p; cbn; [by intros; apply Forall_nil |].
  intros (_ & ? & H%IH). by apply Forall_cons.
Qed.

(** ** Length and comparison *)

Lemma str_end_spec m s : forall fuel p, cstr m p s -> (length s < fuel)%nat ->
  str_end fuel m p = Some (p + zlen s).
Proof.
  induction s as [| c s IH]; intros [| fuel] p Hs Hf; cbn in Hf; try lia; cbn [str_end]; unfold load.
  - cbn in Hs. rewrite Hs. cbn. f_equal. lia.
  - cbn in Hs. destruct Hs as (-> & Hc & Hs). cbn [mbind option_bind].
    rewrite (proj2 (Z.eqb_neq c 0)) by lia. rewrite IH by (done || lia). f_equal. cbn. lia.
Qed.

Lemma strlen_eq m p s : cstr m p s -> strlen m p = Some (zlen s).
Proof.
  intros H. unfold strlen. rewrite (str_end_spec m s) by (done || by apply (cstr_fuel m p)).
  cbn. f_equal. lia.
Qed.

(** The value of [strcmp] on two strings: the first difference, as a signed
    8-bit value. *)
Fixpoint cstrcmp (s t : list Z) : Z :=
  match s, t with
  | [], [] => 0
  | [], d :: _ => s8 (0 - d)
  | c :: _, [] => s8 (c - 0)
  | c :: s, d :: t => if c =? d then cstrcmp s t else s8 (c - d)
  end.

Lemma s8_zero_iff a b : is_byte a -> is_byte b -> s8 (a - b) = 0 <-> a = b.
Proof.
  unfold is_byte, swrap. intros Ha Hb. change (2 ^ (8 - 1)) with 128. change (2 ^ 8) with 256.
  split; [| intros ->; by rewrite Z.sub_diag].
  intros H. pose proof (Z.div_mod (a - b + 128) 256). lia.
Qed.

Lemma strcmp_loop_spec m : forall s t fuel p q, cstr m p s -> cstr m q t -> (length s < fuel)%nat ->
  strcmp_loop fuel m p q = Some (cstrcmp s t).
Proof.
  induction s as [| c s IH]; intros t [| fuel] p q Hs Ht Hf; cbn in Hf; try lia;
    cbn [strcmp_loop]; unfold load; destruct t as [| d t]; cbn in Hs, Ht.
  - rewrite Hs, Ht. done.
  - destruct Ht as (-> & Hd & _). rewrite Hs. cbn [mbind option_bind]. by rewrite orb_true_r.
  - destruct Hs as (-> & Hc & _). rewrite Ht. cbn [mbind option_bind].
    rewrite (proj2 (Z.eqb_neq (s8 (c - 0)) 0)); [done |]. rewrite s8_zero_iff; unfold is_byte; lia.
  - destruct Hs as (-> & Hc & Hs). destruct Ht as (-> & Hd & Ht). cbn [mbind option_bind cstrcmp].
    assert (s8 (c - d) = 0 <-> c = d) as Hz by (apply s8_zero_iff; unfold is_byte; lia).
    destruct (Z.eqb_spec c d) as [E | N].
    + rewrite (proj2 Hz E). cbn [Z.eqb negb orb]. rewrite (proj2 (Z.eqb_neq c 0)) by lia.
      apply IH; [done.. | lia].
    + rewrite (proj2 (Z.eqb_neq (s8 (c - d)) 0)) by tauto. done.
Qed.

Lemma strcmp_eq m p q s t : cstr m p s -> cstr m q t -> strcmp m p q = Some (cstrcmp s t).
Proof. intros Hs Ht. apply strcmp_loop_spec; [done.. | by apply (cstr_fuel m p)]. Qed.

Lemma cstrcmp_zero s t : Forall (fun c => 0 < c < 256) s -> Forall (fun c => 0 < c < 256) t ->
  cstrcmp s t = 0 <-> s = t.
Proof.
  intros Hs. revert t. induction Hs as [| c s Hc _ IH]; intros [| d t] Ht; cbn; try done.
  - apply Forall_cons in Ht as [Hd _]. rewrite s8_zero_iff by (unfold is_byte; lia).
    split; [lia | done].
  - rewrite s8_zero_iff by (unfold is_byte; lia). split; [lia | done].
  - apply Forall_cons in Ht as [Hd Ht]. destruct (Z.eqb_spec c d) as [-> | N].
    + rewrite IH by done. split; [by intros -> | by intros [= ->]].
    + rewrite s8_zero_iff by (unfold is_byte; lia). split; [done | by intros [= ->]].
Qed.

(** ** Writing bytes *)

Fixpoint write_bytes (m : mem) (p : Z) (l : list Z) : mem :=
  match l with
  | [] => m
  | c :: l => write_bytes (<[p := c]> m) (p + 1) l
  end.

(** The [n] addresses from [p] on can be written. *)
Definition mapped (m : mem) (p n : Z) : Prop := forall a, p <= a < p + n -> is_Some (m !! a).

Lemma write_bytes_lookup l : forall m p a,
  write_bytes m p l !! a = if decide (p <= a < p + zlen l) then l !! Z.to_nat (a - p) else m !! a.
Proof.
  induction l as [| c l IH]; intros m p a; cbn [write_bytes length].
  - case_decide; [cbn in *; lia | done].
  - rewrite IH. repeat case_decide; try (cbn in *; lia).
    + replace (Z.to_nat (a - p)) with (S (Z.to_nat (a - (p + 1)))) by lia. done.
    + assert (a = p) as -> by lia. rewrite lookup_insert_eq, Z.sub_diag. done.
    + rewrite lookup_insert_ne by lia. done.
Qed.

Lemma write_bytes_app l1 l2 m p :
  write_bytes m p (l1 ++ l2) = write_bytes (write_bytes m p l1) (p + zlen l1) l2.
Proof.
  revert m p. induction l1 as [| c l1 IH]; intros m p; cbn [app write_bytes length].
  - f_equal. cbn. lia.
  - rewrite IH. f_equal. lia.
Qed.

Lemma write_bytes_snoc l c m p : write_bytes m p (l ++ [c]) = write_bytes (<[p + zlen l := c]> m) p l.
Proof.
  apply map_eq. intros a. rewrite !write_bytes_lookup, length_app. cbn [length].
  repeat case_decide; try lia.
  - rewrite lookup_app_l by lia. done.
  - rewrite lookup_app_r by lia. assert (a = p + zlen l) as -> by lia.
    rewrite lookup_insert_eq. replace (Z.to_nat _ - _)%nat with 0%nat by lia. done.
  - by rewrite lookup_insert_ne by lia.
Qed.

Lemma store_spec m p n c : mapped m p n -> 0 < n -> is_byte c -> store m p c = Some (<[p := c]> m).
Proof.
  intros H Hn Hc. unfold store. destruct (H p ltac:(lia)) as [v ->]. by rewrite wrap_small.
Qed.

Lemma mapped_insert m p n a c : mapped m p n -> mapped (<[a := c]> m) p n.
Proof.
  intros H x Hx. destruct (decide (a = x)) as [-> |]; [by rewrite lookup_insert_eq |].
  rewrite lookup_insert_ne by done. by apply H.
Qed.

Lemma mapped_write m p n q l : mapped m p n -> mapped (write_bytes m q l) p n.
Proof.
  revert m q. induction l as [| c l IH]; intros m q H; cbn; [done |]. by apply IH, mapped_insert.
Qed.

Lemma mapped_sub m p n q k : mapped m p n -> p <= q -> q + k <= p + n -> mapped m q k.
Proof. intros H ?? a Ha. apply H. lia. Qed.

Lemma bytes_at_mapped m p l : bytes_at m p l -> mapped m p (zlen l).
Proof.
  revert p. induction l as [| c l IH]; intros p; cbn [bytes_at length]; intros H a Ha; [cbn in Ha; lia |].
  destruct H as (Hp & _ & Hl). destruct (decide (a = p)) as [-> |]; [done |]. apply (IH (p + 1)); [done | lia].
Qed.

Lemma bytes_at_bytes m p l : bytes_at m p l -> is_bytes l.
Proof.
  revert p. induction l as [| c l IH]; intros p; cbn [bytes_at]; intros; [by apply Forall_nil |].
  apply Forall_cons. destruct H as (_ & ? & ?). split; [done | by apply (IH (p + 1))].
Qed.

Lemma bytes_at_insert m p l a c : bytes_at m p l -> ~ (p <= a < p + zlen l) -> bytes_at (<[a := c]> m) p l.
Proof.
  revert p. induction l as [| d l IH]; intros p; cbn [bytes_at length]; [done |].
  intros (Hp & Hd & Hl) Ha. rewrite lookup_insert_ne by lia. split_and!; [done.. |]. apply IH; [done | lia].
Qed.

Lemma bytes_at_app m p l1 l2 : bytes_at m p (l1 ++ l2) <-> bytes_at m p l1 /\ bytes_at m (p + zlen l1) l2.
Proof.
  revert p. induction l1 as [| c l1 IH]; intros p; cbn [app bytes_at length].
  - rewrite Z.add_0_r. tauto.
  - rewrite IH. replace (p + 1 + zlen l1) with (p + Z.of_nat (S (length l1))) by lia. tauto.
Qed.

Lemma bytes_at_write m q l p : is_bytes l -> q = p -> bytes_at (write_bytes m p l) q l.
Proof.
  intros Hl ->. revert m p. induction Hl as [| c l Hc _ IH]; intros m p; cbn [bytes_at]; [done |].
  split_and!; [| done |].
  - rewrite write_bytes_lookup, decide_True by (cbn; lia). by rewrite Z.sub_diag.
  - cbn [write_bytes]. apply IH.
Qed.

Lemma bytes_at_lookup m p l a : bytes_at m p l -> p <= a < p + zlen l -> m !! a = l !! Z.to_nat (a - p).
Proof.
  revert p. induction l as [| c l IH]; intros p Hs Ha; cbn in *; [lia |].
  destruct Hs as (Hc & _ & Hs). destruct (decide (a = p)) as [-> |]; [by rewrite Z.sub_diag |].
  replace (Z.to_nat (a - p)) with (S (Z.to_nat (a - (p + 1)))) by lia. cbn. apply IH; [done | lia].
Qed.

(** Writing what is there changes nothing. *)
Lemma write_bytes_id m p l : bytes_at m p l -> write_bytes m p l = m.
Proof.
  intros H. apply map_eq. intros a. rewrite write_bytes_lookup. case_decide; [| done].
  by rewrite (bytes_at_lookup m p l).
Qed.

Lemma bytes_at_far m p l q l' : bytes_at m p l -> p + zlen l <= q \/ q + zlen l' <= p ->
  bytes_at (write_bytes m q l') p l.
Proof.
  revert m q. induction l' as [| c l' IH]; intros m q H Hd; cbn [write_bytes]; [done |].
  cbn [length] in Hd. apply IH; [apply bytes_at_insert; [done | lia] | lia].
Qed.

Lemma copy_up_spec l : forall m d s, bytes_at m s l -> mapped m d (zlen l) ->
  d <= s \/ s + zlen l <= d -> copy_up (length l) m d s = Some (write_bytes m d l).
Proof.
  induction l as [| c l IH]; intros m d s Hs Hd Hov; [done |].
  cbn [copy_up length write_bytes]. cbn [bytes_at] in Hs. destruct Hs as (Hc & Hb & Hs).
  cbn [length] in *. unfold load. rewrite Hc. cbn [mbind option_bind].
  rewrite (store_spec m d (Z.of_nat (S (length l)))) by (done || lia). cbn [mbind option_bind].
  apply IH; [apply bytes_at_insert; [done | lia] | | lia].
  apply mapped_insert, (mapped_sub m d (Z.of_nat (S (length l)))); [done | lia | lia].
Qed.

Lemma copy_down_spec l : forall m d s, bytes_at m s l -> mapped m d (zlen l) -> s <= d ->
  copy_down (length l) m d s = Some (write_bytes m d l).
Proof.
  induction l as [| c l IH] using rev_ind; intros m d s Hs Hd Hov; [done |].
  rewrite length_app in *. cbn [length] in *. rewrite Nat.add_1_r in *. cbn [copy_down].
  apply bytes_at_app in Hs as [Hs (Hc & Hb & _)]. unfold load. rewrite Hc. cbn [mbind option_bind].
  rewrite (store_spec m (d + zlen l) 1); [| apply (mapped_sub m d (Z.of_nat (S (length l)))); [done | lia | lia] | lia | done].
  cbn [mbind option_bind]. rewrite write_bytes_snoc. apply IH.
  - apply bytes_at_insert; [done | lia].
  - apply mapped_insert, (mapped_sub m d (Z.of_nat (S (length l)))); [done | lia | lia].
  - done.
Qed.

(** [memmove] copes with overlapping areas: the destination receives the
    bytes that the source held before the call, and no other byte of the
    memory changes. *)
Theorem memmove_correct m dest src l : bytes_at m src l -> mapped m dest (zlen l) ->
  memmove m dest src (zlen l) = Some (write_bytes m dest l, dest).
Proof.
  intros Hs Hd. unfold memmove. rewrite Nat2Z.id. destruct (Z.eqb_spec src dest) as [-> | Hne].
  - by rewrite write_bytes_id.
  - destruct (Z.leb_spec dest src).
    + rewrite copy_up_spec by (done || lia). done.
    + rewrite copy_down_spec by (done || lia). done.
Qed.

Lemma memmove_correct_witness :
  let m := write_bytes ∅ 16 (str "abcdef") in
  memmove m 18 16 4 = Some (write_bytes m 18 (str "abcd"), 18) /\
  write_bytes m 18 (str "abcd") = write_bytes ∅ 16 (str "ababcd").
Proof.
  split; [| vm_compute; reflexivity].
  apply (memmove_correct _ 18 16 (str "abcd")); [by vm_compute |].
  apply (bytes_at_mapped _ 18 (str "cdef")). by vm_compute.
Defined.

(** ** Words *)

Lemma store_word_spec l : forall m p, is_bytes l -> mapped m p (zlen l) ->
  store_word m p (le_load l) (length l) = Some (write_bytes m p l).
Proof.
  induction l as [| c l IH]; intros m p Hl Hm; [done |].
  apply Forall_cons in Hl as [Hc Hl]. cbn [store_word length le_load write_bytes].
  unfold is_byte in Hc. unfold store. destruct (Hm p ltac:(cbn; lia)) as [v ->].
  assert (u8 (c + 256 * le_load l) = c) as ->.
  { unfold wrap. change (2 ^ 8) with 256. rewrite Z.mul_comm, Z.mod_add by lia. by apply Z.mod_small. }
  cbn [mbind option_bind].
  assert (Z.shiftr (c + 256 * le_load l) 8 = le_load l) as ->.
  { rewrite Z.shiftr_div_pow2 by lia. change (2 ^ 8) with 256.
    rewrite Z.mul_comm, Z.div_add, Z.div_small by lia. lia. }
  apply IH; [done |]. apply mapped_insert, (mapped_sub m p (zlen (c :: l))); [done | lia | cbn; lia].
Qed.

Lemma load_word_spec l m p : bytes_at m p l -> load_word m p (length l) = Some (le_load l).
Proof.
  intros H. unfold load_word.
  assert (mapM (fun i => load m (p + i)) (seqZ 0 (zlen l)) = Some l) as ->; [| done].
  apply mapM_Some. apply Forall2_same_length_lookup. rewrite length_seqZ. split; [lia |].
  intros i x y [-> Hi]%lookup_seqZ Hy. unfold load. rewrite (bytes_at_lookup m p l) by (done || lia).
  rewrite <- Hy. f_equal. lia.
Qed.

(** Lists of whole words. *)
Lemma word_split (l : list Z) n k : length l = (k * S n)%nat ->
  exists a b, l = a ++ b /\ length a = k /\ length b = (k * n)%nat.
Proof.
  intros H. exists (take k l), (drop k l). rewrite take_drop, length_take, length_drop.
  split_and!; [done | nia | nia].
Qed.

Lemma copy_words_spec n : forall l m d s, length l = (4 * n)%nat ->
  bytes_at m s l -> mapped m d (zlen l) -> d + zlen l <= s \/ s + zlen l <= d ->
  copy_words n m d s = Some (write_bytes m d l).
Proof.
  induction n as [| n IH]; intros l m d s Hl Hs Hd Hov.
  { destruct l; [done | cbn in Hl; lia]. }
  destruct (word_split l n 4 Hl) as (a & b & -> & Ha & Hb).
  pose proof (bytes_at_bytes _ _ _ Hs) as [Hba _]%Forall_app.
  apply bytes_at_app in Hs as [Hs1 Hs2]. rewrite length_app in *. cbn [copy_words].
  rewrite Ha in Hs2. pose proof (load_word_spec a m s Hs1) as Hw. rewrite Ha in Hw.
  rewrite Hw. cbn [mbind option_bind].
  pose proof (store_word_spec a m d Hba) as Hst. rewrite Ha in Hst. rewrite Hst; cbn [mbind option_bind].
  - rewrite write_bytes_app, Ha. apply IH; [done | | | lia].
    + apply bytes_at_far; [done | rewrite Ha; lia].
    + apply mapped_write, (mapped_sub m d (Z.of_nat (length a + length b))); [done | lia | lia].
  - apply (mapped_sub m d (Z.of_nat (length a + length b))); [done | lia | lia].
Qed.

(** [memcpy] between areas that do not overlap copies the source, whether
    it proceeds by words or by bytes, and changes nothing else. *)
Theorem memcpy_correct m dest src l : bytes_at m src l -> mapped m dest (zlen l) ->
  dest + zlen l <= src \/ src + zlen l <= dest ->
  memcpy m dest src (zlen l) = Some (write_bytes m dest l, dest).
Proof.
  intros Hs Hd Hov. unfold memcpy. destruct (Z.eqb_spec src dest) as [-> | Hne].
  { by rewrite write_bytes_id. }
  destruct (_ =? 0).
  2: { by rewrite Nat2Z.id, copy_up_spec by (done || lia). }
  set (n := zlen l / 4). pose proof (Z.div_mod (zlen l) 4 ltac:(lia)) as Hdm.
  pose proof (Z.mod_pos_bound (zlen l) 4 ltac:(lia)). fold n in Hdm.
  assert (0 <= n) by (apply Z.div_pos; lia).
  set (a := take (4 * Z.to_nat n) l). set (b := drop (4 * Z.to_nat n) l).
  assert (length a = (4 * Z.to_nat n)%nat) as Ha by (unfold a; rewrite length_take; lia).
  assert (zlen b = zlen l - 4 * n) as Hb by (unfold b; rewrite length_drop; lia).
  assert (l = a ++ b) as Hab by (unfold a, b; by rewrite take_drop).
  rewrite Hab in Hs. apply bytes_at_app in Hs as [Hs1 Hs2].
  rewrite (copy_words_spec (Z.to_nat n) a) by
    (done || lia || (apply (mapped_sub m dest (zlen l)); [done | lia | lia])). cbn [mbind option_bind].
  replace (Z.to_nat (zlen l - 4 * n)) with (length b) by lia.
  replace (4 * n) with (zlen a) by lia.
  rewrite copy_up_spec; [by rewrite Hab, write_bytes_app | | | lia].
  - apply bytes_at_far; [done | lia].
  - apply mapped_write, (mapped_sub m dest (zlen l)); [done | lia | lia].
Qed.

Lemma memcpy_correct_witness :
  let m := write_bytes ∅ 16 (str "abcdef......") in
  memcpy m 24 16 4 = Some (write_bytes m 24 (str "abcd"), 24).
Proof.
  apply (memcpy_correct _ 24 16 (str "abcd")); [by vm_compute | | cbn; lia].
  apply (bytes_at_mapped _ 24 (str "....")). by vm_compute.
Defined.

Lemma land_ff_u8 c : Z.land c 0xff = u8 c.
Proof. change 0xff with (Z.ones 8). by rewrite Z.land_ones. Qed.

Lemma memset_pattern_spec c : memset_pattern c = le_load (replicate 4 (u8 c)).
Proof.
  unfold memset_pattern. rewrite land_ff_u8.
  apply (table_ext 0 (fun v => Nat.iter 4 (fun cl => Z.lor (u32 (Z.shiftl cl 8)) v) 0)
           (fun v => le_load (replicate 4 v)) 256); [vm_compute; reflexivity |].
  by apply (wrap_range 8).
Qed.

Lemma is_bytes_replicate n c : is_byte c -> is_bytes (replicate n c).
Proof. intros. by apply Forall_replicate. Qed.

Lemma memset_bytes_spec n c : forall m p, mapped m p (Z.of_nat n) ->
  memset_bytes n m p c = Some (write_bytes m p (replicate n (u8 c))).
Proof.
  induction n as [| n IH]; intros m p Hm; [done |]. cbn [memset_bytes replicate write_bytes].
  unfold store. destruct (Hm p ltac:(lia)) as [v ->]. cbn [mbind option_bind].
  apply IH, mapped_insert, (mapped_sub m p (Z.of_nat (S n))); [done | lia | lia].
Qed.

Lemma memset_words_spec n c : forall m p, mapped m p (4 * Z.of_nat n) ->
  memset_words n m p (memset_pattern c) = Some (write_bytes m p (replicate (4 * n) (u8 c))).
Proof.
  induction n as [| n IH]; intros m p Hm; [done |]. cbn [memset_words].
  rewrite memset_pattern_spec at 1.
  assert (store_word m p (le_load (replicate 4 (u8 c))) 4 = Some (write_bytes m p (replicate 4 (u8 c)))) as ->.
  { apply (store_word_spec (replicate 4 (u8 c)));
      [apply is_bytes_replicate, (wrap_range 8); lia |].
    apply (mapped_sub m p (4 * Z.of_nat (S n))); [done | lia | rewrite length_replicate; lia]. }
  cbn [mbind option_bind]. rewrite IH.
  - replace (4 * S n)%nat with (4 + 4 * n)%nat by lia. rewrite replicate_add, write_bytes_app.
    by rewrite length_replicate.
  - apply mapped_write, (mapped_sub m p (4 * Z.of_nat (S n))); [done | lia | lia].
Qed.

(** [memset] fills exactly the [count] bytes of the area with the low
    byte of its argument, by words when the area is aligned and by bytes
    otherwise. *)
Theorem memset_correct m s c count : 0 <= count -> mapped m s count ->
  memset m s c count = Some (write_bytes m s (replicate (Z.to_nat count) (u8 c)), s).
Proof.
  intros Hc Hm. unfold memset. destruct (_ =? 0).
  2: { rewrite memset_bytes_spec; [done |]. by rewrite Z2Nat.id. }
  set (n := count / 4). pose proof (Z.div_mod count 4 ltac:(lia)) as Hdm.
  pose proof (Z.mod_pos_bound count 4 ltac:(lia)). fold n in Hdm.
  assert (0 <= n) by (apply Z.div_pos; lia).
  rewrite memset_words_spec by (apply (mapped_sub m s count); [done | lia | lia]). cbn [mbind option_bind].
  rewrite memset_bytes_spec by (apply mapped_write, (mapped_sub m s count); [done | lia | lia]).
  cbn [mbind option_bind].
  replace (Z.to_nat count) with (4 * Z.to_nat n + Z.to_nat (count - 4 * n))%nat by lia.
  rewrite replicate_add, write_bytes_app, length_replicate. do 3 f_equal. lia.
Qed.

Lemma memset_correct_witness :
  memset (write_bytes ∅ 16 (str "abcdefgh")) 16 0x1ff 7 =
    Some (write_bytes ∅ 16 [255; 255; 255; 255; 255; 255; 255; 104], 16).
Proof.
  rewrite (memset_correct _ 16 0x1ff 7); [vm_compute; reflexivity | lia |].
  apply (bytes_at_mapped _ 16 (str "abcdefg")). by vm_compute.
Defined.

(** ** [memchr_inv] *)

Lemma check_bytes8_app m v l1 l2 : forall p, 0 < p -> bytes_at m p (l1 ++ l2) ->
  check_bytes8 (length l1 + length l2) m p v =
    (r ← check_bytes8 (length l1) m p v;
     if negb (r =? NULL) then Some r else check_bytes8 (length l2) m (p + zlen l1) v).
Proof.
  induction l1 as [| c l1 IH]; intros p Hp Hl; cbn [length check_bytes8 app Nat.add].
  { cbn. by rewrite Z.add_0_r. }
  cbn [app bytes_at] in Hl. destruct Hl as (Hc & _ & Hl). unfold load. rewrite Hc. cbn [mbind option_bind].
  destruct (negb (c =? v)) eqn:E.
  - cbn. unfold NULL. by rewrite (proj2 (Z.eqb_neq p 0)) by lia.
  - rewrite IH by (done || lia). destruct (check_bytes8 (length l1) _ _ _) as [r |]; [| done].
    cbn [mbind option_bind]. destruct (negb (r =? NULL)); [done |]. f_equal. lia.
Qed.

Lemma check_bytes8_same m v n : forall p, bytes_at m p (replicate n v) -> check_bytes8 n m p v = Some NULL.
Proof.
  induction n as [| n IH]; intros p H; cbn [check_bytes8 replicate]; [done |].
  cbn in H. destruct H as (Hc & _ & H). unfold load. rewrite Hc. cbn [mbind option_bind].
  rewrite Z.eqb_refl. by apply IH.
Qed.

Lemma check_bytes8_found m v l : forall p, 0 < p -> bytes_at m p l -> l <> replicate (length l) v ->
  exists r, check_bytes8 (length l) m p v = Some r /\ r <> NULL.
Proof.
  induction l as [| c l IH]; intros p Hp Hl Hne; [done |].
  cbn [bytes_at] in Hl. destruct Hl as (Hc & _ & Hl). cbn [length check_bytes8]. unfold load.
  rewrite Hc. cbn [mbind option_bind]. destruct (Z.eqb_spec c v) as [-> | N]; cbn [negb].
  - apply IH; [lia | done |]. intros Heq. apply Hne. cbn. by rewrite <- Heq.
  - exists p. split; [done |]. unfold NULL. lia.
Qed.

(** The 64-bit pattern of [memchr_inv]. *)
Definition value64 (v : Z) : Z :=
  let w := Z.lor v (u64 (Z.shiftl v 8)) in
  let w := Z.lor w (u64 (Z.shiftl w 16)) in
  Z.lor w (u64 (Z.shiftl w 32)).

Lemma value64_spec v : is_byte v -> value64 v = le_load (replicate 8 v).
Proof.
  revert v. apply (table_ext 0 value64 (fun v => le_load (replicate 8 v)) 256).
  vm_compute. reflexivity.
Qed.

(** The word loop followed by the check of the rest. *)
Lemma memchr_inv_words_spec m v rest n : is_byte v -> forall l p, 0 < p -> length l = (8 * n)%nat ->
  bytes_at m p (l ++ rest) ->
  (r ← memchr_inv_words n m p v (value64 v);
   match r with inl q => Some q | inr q => check_bytes8 (length rest) m q v end) =
  check_bytes8 (length l + length rest) m p v.
Proof.
  intros Hv. induction n as [| n IH]; intros l p Hp Hlen Hl.
  { destruct l; [done | cbn in Hlen; lia]. }
  destruct (word_split l n 8 Hlen) as (a & b & -> & Ha & Hb). rewrite <- app_assoc in Hl.
  pose proof (bytes_at_bytes _ _ _ Hl) as [Hba _]%Forall_app.
  rewrite length_app, <- Nat.add_assoc, <- length_app.
  rewrite (check_bytes8_app m v a (b ++ rest)) by done.
  apply bytes_at_app in Hl as [Hl1 Hl2]. cbn [memchr_inv_words].
  pose proof (load_word_spec a m p Hl1) as Hw. rewrite Ha in Hw. rewrite Hw. cbn [mbind option_bind].
  rewrite Ha in *.
  destruct (Z.eqb_spec (le_load a) (value64 v)) as [E | N]; cbn [negb].
  - assert (a = replicate 8 v) as ->.
    { rewrite value64_spec in E by done. apply le_load_inj; [done | by apply is_bytes_replicate | | done].
      by rewrite length_replicate. }
    rewrite (check_bytes8_same m v 8 p) by done. cbn [mbind option_bind Z.eqb negb]. rewrite length_app.
    apply IH; [lia | done | exact Hl2].
  - destruct (check_bytes8_found m v a p Hp Hl1) as (r & Hr & Hr0).
    { intros Heq. apply N. rewrite value64_spec, Heq, Ha by done. done. }
    rewrite Ha in Hr. rewrite Hr. cbn [mbind option_bind].
    by rewrite (proj2 (Z.eqb_neq r NULL)) by done.
Qed.

(** The word-wise [memchr_inv] returns what the byte-wise scan of the
    whole area returns: the first byte that differs from [c], or the null
    pointer. *)
Theorem memchr_inv_equiv m start c l : 0 < start -> bytes_at m start l ->
  memchr_inv m start c (zlen l) = check_bytes8 (length l) m start (u8 c).
Proof.
  intros Hp Hl. unfold memchr_inv. rewrite Nat2Z.id. destruct (Z.leb_spec (zlen l) 16); [done |].
  assert (is_byte (u8 c)) as Hv by (by apply (wrap_range 8)). fold (value64 (u8 c)).
  assert (forall k start' l', 0 < start' -> bytes_at m start' l' -> k = zlen l' ->
    (r ← memchr_inv_words (Z.to_nat (k / 8)) m start' (u8 c) (value64 (u8 c));
     match r with
     | inl q => Some q
     | inr q => check_bytes8 (Z.to_nat (k mod 8)) m q (u8 c)
     end) = check_bytes8 (length l') m start' (u8 c)) as Htail.
  { intros k start' l' Hp' Hl' ->.
    pose proof (Z.div_mod (zlen l') 8 ltac:(lia)). pose proof (Z.mod_pos_bound (zlen l') 8 ltac:(lia)).
    set (n := Z.to_nat (zlen l' / 8)).
    assert (Z.to_nat (zlen l' mod 8) = length (drop (8 * n) l')) as -> by (rewrite length_drop; lia).
    assert (length l' = length (take (8 * n) l') + length (drop (8 * n) l'))%nat as ->
      by (rewrite <- length_app, take_drop; done).
    apply memchr_inv_words_spec; [done | done | rewrite length_take; lia | by rewrite take_drop]. }
  destruct (Z.eqb_spec (start mod 8) 0) as [E | N]; cbn [negb]; [by apply Htail |].
  pose proof (Z.mod_pos_bound start 8 ltac:(lia)). set (k := Z.to_nat (8 - start mod 8)).
  assert (length (take k l) = k) as Hk by (rewrite length_take; lia).
  assert (length l = length (take k l) + length (drop k l))%nat as -> by (rewrite <- length_app, take_drop; done).
  rewrite <- (take_drop k l) in Hl.
  rewrite (check_bytes8_app m (u8 c)) by done. rewrite Hk.
  apply bytes_at_app in Hl as [_ Hl2]. rewrite Hk in *.
  destruct (check_bytes8 k m start (u8 c)) as [r |]; [| done]. cbn [mbind option_bind].
  destruct (negb (r =? NULL)); [done |].
  replace (8 - start mod 8) with (Z.of_nat k) by lia.
  apply Htail; [lia | done | lia].
Qed.

Lemma memchr_inv_equiv_witness :
  let l := replicate 21 255 ++ [254] in
  memchr_inv (write_bytes ∅ 13 l) 13 0xff (zlen l) = Some 34.
Proof.
  intros l. rewrite (memchr_inv_equiv _ 13 0xff l); [by vm_compute | done | by vm_compute].
Defined.

(** ** [strcmp] *)

(** [strcmp] terminates on C strings and returns 0 exactly when the two
    strings are equal, so keys and commands are told apart correctly. *)
Theorem strcmp_correct m p q s t : cstr m p s -> cstr m q t ->
  exists r, strcmp m p q = Some r /\ (r = 0 <-> s = t).
Proof.
  intros Hs Ht. exists (cstrcmp s t). split; [by apply strcmp_eq |].
  apply cstrcmp_zero; [by apply (cstr_no_nul m p) | by apply (cstr_no_nul m q)].
Qed.

Lemma strcmp_correct_witness :
  let m := write_bytes (write_bytes ∅ 16 (str "bootm" ++ [0])) 32 (str "bootz" ++ [0]) in
  exists r, strcmp m 16 32 = Some r /\ (r = 0 <-> str "bootm" = str "bootz").
Proof. apply (strcmp_correct _ 16 32 (str "bootm") (str "bootz")); by vm_compute. Defined.

(** The difference is kept in a [signed char], so beyond ASCII the sign of
    [strcmp] is not an order: there are two strings each of which compares
    below the other. *)
Theorem strcmp_sign_not_an_order :
  let m := write_bytes (write_bytes ∅ 16 [200; 0]) 32 [72; 0] in
  strcmp m 16 32 = Some (-128) /\ strcmp m 32 16 = Some (-128).
Proof. split; vm_compute; reflexivity. Qed.

(** On ASCII strings the sign is that of the first difference. *)
Lemma cstrcmp_ascii s t : Forall (fun c => 0 < c < 128) s -> Forall (fun c => 0 < c < 128) t ->
  cstrcmp s t = - cstrcmp t s.
Proof.
  intros Hs. revert t. induction Hs as [| c s Hc _ IH]; intros [| d t] Ht; cbn [cstrcmp]; [done | | |].
  - apply Forall_cons in Ht as [Hd _]. rewrite !swrap_small by lia. lia.
  - rewrite !swrap_small by lia. lia.
  - apply Forall_cons in Ht as [Hd Ht]. rewrite (Z.eqb_sym d c). destruct (Z.eqb_spec c d); [by apply IH |].
    rewrite !swrap_small by lia. lia.
Qed.

(** ** Copying and splitting strings *)

Lemma cstr_insert s c : forall m q d, cstr m q s -> ~ (q <= d <= q + zlen s) -> cstr (<[d:=c]> m) q s.
Proof.
  induction s as [| x s IH]; intros m q d Hs Hq; cbn [cstr length] in *.
  - rewrite lookup_insert_ne; [done | cbn in Hq; lia].
  - destruct Hs as (? & ? & ?). rewrite lookup_insert_ne by lia. split; [done |]. split; [done |].
    apply IH; [done | lia].
Qed.

Lemma strcpy_loop_copy s : forall fuel m d p, cstr m p s -> mapped m d (zlen s + 1) ->
  d <= p \/ p + zlen s < d -> (length s < fuel)%nat ->
  strcpy_loop fuel m d p = Some (write_bytes m d (s ++ [0])).
Proof.
  induction s as [| c s IH]; intros [| fuel] m d p Hs Hd Hov Hf; cbn [length] in *; try lia;
    cbn [strcpy_loop]; unfold load; cbn [cstr] in Hs.
  - rewrite Hs. cbn [mbind option_bind]. rewrite (store_spec m d 1 0 Hd) by (unfold is_byte; lia). done.
  - destruct Hs as (Hc & Hcb & Hs). rewrite Hc. cbn [mbind option_bind].
    rewrite (store_spec m d _ c Hd) by (unfold is_byte; lia).
    cbn [mbind option_bind]. rewrite (proj2 (Z.eqb_neq c 0)) by lia. cbn [app write_bytes].
    apply IH; [apply cstr_insert; [done | lia] | | lia | lia].
    apply mapped_insert, (mapped_sub m d (Z.of_nat (S (length s)) + 1)); [done | lia | lia].
Qed.

(** [strcpy] copies the string with its terminator to a destination that
    is large enough, writes nothing else, and returns the destination; the
    areas may overlap when the destination is below the source. *)
Theorem strcpy_correct m dest src s : cstr m src s -> mapped m dest (zlen s + 1) ->
  dest <= src \/ src + zlen s < dest ->
  strcpy m dest src = Some (write_bytes m dest (s ++ [0]), dest).
Proof.
  intros Hs Hd Hov. unfold strcpy.
  by rewrite (strcpy_loop_copy s) by (done || by apply (cstr_fuel m src)).
Qed.

Lemma strcpy_correct_witness :
  let m := write_bytes ∅ 16 (str "ab" ++ [0] ++ str "....") in
  strcpy m 19 16 = Some (write_bytes m 19 (str "ab" ++ [0]), 19).
Proof.
  apply (strcpy_correct _ 19 16 (str "ab")); [by vm_compute | | cbn; lia].
  apply (bytes_at_mapped _ 19 (str "...")). by vm_compute.
Defined.

Lemma in_set_spec m c set : forall fuel a, cstr m a set -> (length set < fuel)%nat ->
  in_set fuel m a c = Some (bool_decide (c ∈ set)).
Proof.
  induction set as [| x set IH]; intros [| fuel] a Hs Hf; cbn [length] in Hf; try lia;
    cbn [in_set]; unfold load; cbn [cstr] in Hs.
  - by rewrite Hs.
  - destruct Hs as (Hx & Hxb & Hs). rewrite Hx. cbn [mbind option_bind].
    rewrite (proj2 (Z.eqb_neq x 0)) by lia.
    destruct (Z.eqb_spec c x) as [-> | N]; [by rewrite bool_decide_true by left |].
    rewrite IH by (done || lia). f_equal. apply bool_decide_ext. rewrite elem_of_cons. tauto.
Qed.

(** [strpbrk] stops at the first character of the set. *)
Lemma strpbrk_found m ct set tok d rest : forall fuel p, cstr m ct set -> cstr m p (tok ++ d :: rest) ->
  Forall (fun c => c ∉ set) tok -> d ∈ set -> (length tok < fuel)%nat ->
  strpbrk_loop fuel m p ct = Some (p + zlen tok).
Proof.
  induction tok as [| c tok IH]; intros [| fuel] p Hset Hs Htok Hd Hf; cbn [length] in Hf; try lia;
    cbn [strpbrk_loop]; unfold load; cbn [cstr app] in Hs; destruct Hs as (Hc & Hcb & Hs); rewrite Hc;
    cbn [mbind option_bind]; rewrite (proj2 (Z.eqb_neq _ 0)) by lia;
    rewrite (in_set_spec m _ set) by (done || by apply (cstr_fuel m ct)); cbn [mbind option_bind].
  - rewrite bool_decide_true by done. f_equal. cbn. lia.
  - apply Forall_cons in Htok as [Hc' Htok]. rewrite bool_decide_false by done.
    rewrite IH by (done || lia). f_equal. cbn. lia.
Qed.

Lemma strpbrk_none m ct set s : forall fuel p, cstr m ct set -> cstr m p s ->
  Forall (fun c => c ∉ set) s -> (length s < fuel)%nat -> strpbrk_loop fuel m p ct = Some NULL.
Proof.
  induction s as [| c s IH]; intros [| fuel] p Hset Hs Htok Hf; cbn [length] in Hf; try lia;
    cbn [strpbrk_loop]; unfold load; cbn [cstr] in Hs.
  - by rewrite Hs.
  - destruct Hs as (Hc & Hcb & Hs). rewrite Hc. cbn [mbind option_bind].
    rewrite (proj2 (Z.eqb_neq _ 0)) by lia.
    rewrite (in_set_spec m _ set) by (done || by apply (cstr_fuel m ct)). cbn [mbind option_bind].
    apply Forall_cons in Htok as [Hc' Htok]. rewrite bool_decide_false by done.
    apply IH; [done.. | lia].
Qed.

Lemma cstr_app m p s t : cstr m p (s ++ t) -> cstr m (p + zlen s) t.
Proof.
  revert p. induction s as [| c s IH]; intros p H; cbn [app length cstr] in *; [by rewrite Z.add_0_r |].
  destruct H as (_ & _ & H%IH). by replace (p + Z.of_nat (S (length s))) with (p + 1 + zlen s) by lia.
Qed.

(** Overwriting a character with NUL cuts the string there. *)
Lemma cstr_cut m p s c t : cstr m p (s ++ c :: t) -> cstr (<[p + zlen s := 0]> m) p s.
Proof.
  revert p. induction s as [| x s IH]; intros p H; cbn [app length cstr] in *.
  - by rewrite Z.add_0_r, lookup_insert_eq.
  - destruct H as (Hx & Hxb & H). rewrite lookup_insert_ne by lia. split; [done |]. split; [done |].
    replace (p + Z.of_nat (S (length s))) with (p + 1 + zlen s) by lia. by apply IH.
Qed.

(** [strsep] splits a string at the first separator: the token in front of
    it is returned, terminated in place, and the continuation points to the
    string behind the separator; without a separator the whole string is the
    last token and the continuation is the null pointer. *)
Theorem strsep_correct m s ct set str_ : 0 < s -> cstr m ct set -> cstr m s str_ ->
  (Forall (fun c => c ∉ set) str_ /\ strsep m s ct = Some (m, NULL, s)) \/
  (exists tok d rest, str_ = tok ++ d :: rest /\ Forall (fun c => c ∉ set) tok /\ d ∈ set /\
     exists m', strsep m s ct = Some (m', s + zlen tok + 1, s) /\
       cstr m' s tok /\ cstr m' (s + zlen tok + 1) rest /\
       forall a, a <> s + zlen tok -> m' !! a = m !! a).
Proof.
  intros Hs0 Hset Hs. unfold strsep. unfold NULL at 1 2 3 4 5. rewrite (proj2 (Z.eqb_neq s 0)) by lia.
  destruct (decide (Forall (fun c => c ∉ set) str_)) as [Hall | Hex].
  - left. split; [done |]. unfold strpbrk.
    rewrite (strpbrk_none m ct set str_) by (done || by apply (cstr_fuel m s)). done.
  - right. apply not_Forall_Exists in Hex; [| solve_decision].
    destruct (list_find (fun c => c ∈ set) str_) as [[i d] |] eqn:Hf.
    2: { apply list_find_None in Hf. exfalso. apply Exists_exists in Hex as (x & Hx & Hn).
         rewrite Forall_forall in Hf. by apply Hn, Hf. }
    apply list_find_Some in Hf as (Hi & Hd & Hbefore).
    exists (take i str_), d, (drop (S i) str_). rewrite (take_drop_middle _ _ _ Hi).
    assert (Forall (fun c => c ∉ set) (take i str_)) as Htok.
    { apply Forall_forall. intros x Hx. apply list_elem_of_lookup in Hx as [j Hj].
      apply lookup_take_Some in Hj as [Hj Hlt]. by apply (Hbefore j). }
    split_and!; [done.. |]. rewrite <- (take_drop_middle _ _ _ Hi) in Hs. unfold strpbrk.
    assert (length (take i str_) < loop_fuel m)%nat.
    { pose proof (cstr_fuel _ _ _ Hs) as Hfu. rewrite length_app in Hfu. lia. }
    rewrite (strpbrk_found m ct set (take i str_) d (drop (S i) str_)) by done. cbn [mbind option_bind].
    set (tok := take i str_) in *. rewrite (proj2 (Z.eqb_neq _ 0)) by lia.
    pose proof (cstr_app _ _ _ _ Hs) as (Hdm & _ & Hrest). unfold store. rewrite Hdm.
    change (u8 0) with 0. cbn [mbind option_bind]. eexists. split; [done |]. split_and!.
    + by apply (cstr_cut m s tok d (drop (S i) str_)).
    + apply cstr_insert; [done | lia].
    + intros a Ha. by apply lookup_insert_ne.
Qed.

Lemma strsep_correct_witness :
  let m := write_bytes (write_bytes ∅ 16 (str "a,b" ++ [0])) 32 (str ";," ++ [0]) in
  (Forall (fun c => c ∉ str ";,") (str "a,b") /\ strsep m 16 32 = Some (m, NULL, 16)) \/
  (exists tok d rest, str "a,b" = tok ++ d :: rest /\ Forall (fun c => c ∉ str ";,") tok /\
     d ∈ str ";," /\
     exists m', strsep m 16 32 = Some (m', 16 + zlen tok + 1, 16) /\
       cstr m' 16 tok /\ cstr m' (16 + zlen tok + 1) rest /\
       forall a, a <> 16 + zlen tok -> m' !! a = m !! a).
Proof. apply (strsep_correct _ 16 32 (str ";,") (str "a,b")); by vm_compute. Defined.

(** ** [strstr] *)

Lemma memcmp_loop_spec m a : forall b p q, bytes_at m p a -> bytes_at m q b -> length a = length b ->
  exists r, memcmp_loop (length a) m p q = Some r /\ (r = 0 <-> a = b).
Proof.
  induction a as [| x a IH]; intros [| y b] p q Ha Hb Hlen; cbn [length] in Hlen; try lia.
  { exists 0. done. }
  cbn [bytes_at] in Ha, Hb. destruct Ha as (Hx & _ & Ha). destruct Hb as (Hy & _ & Hb).
  cbn [memcmp_loop length]. unfold load. rewrite Hx, Hy. cbn [mbind option_bind].
  destruct (Z.eqb_spec (x - y) 0) as [E | N]; cbn [negb].
  - assert (x = y) as -> by lia. destruct (IH b (p + 1) (q + 1) Ha Hb ltac:(lia)) as (r & -> & Hr).
    exists r. split; [done |]. rewrite Hr. split; [by intros -> | by intros [= ->]].
  - exists (x - y). split; [done |]. split; [done |]. intros [= -> _]. lia.
Qed.

Lemma strstr_loop_spec m t q : cstr m q t -> t <> [] -> forall n s p, 0 < p -> cstr m p s ->
  (length s + 1 = length t + n)%nat \/ (n = 0%nat /\ (length s < length t)%nat) ->
  exists r, strstr_loop n m p q (zlen t) = Some r /\
    ((exists pre post, s = pre ++ t ++ post /\ r = p + zlen pre /\
        forall pre' post', s = pre' ++ t ++ post' -> (length pre <= length pre')%nat) \/
     (r = NULL /\ forall pre post, s <> pre ++ t ++ post)).
Proof.
  intros Ht Hne n. assert (0 < length t)%nat as Htl by (destruct t; [done | cbn; lia]).
  induction n as [| n IH]; intros s p Hp Hs Hn; cbn [strstr_loop].
  { exists NULL. split; [done |]. right. split; [done |]. intros pre post ->.
    rewrite !length_app in Hn. lia. }
  assert (bytes_at m p (take (length t) s)) as Hb.
  { apply cstr_bytes_at in Hs. rewrite <- (take_drop (length t) s), <- app_assoc in Hs.
    by apply bytes_at_app in Hs as [? _]. }
  assert (bytes_at m q t) as Hbt by (by apply cstr_bytes_at, bytes_at_app in Ht as [? _]).
  destruct (memcmp_loop_spec m (take (length t) s) t p q Hb Hbt) as (r & Hr & Hr0);
    [rewrite length_take; lia |].
  unfold memcmp. rewrite Nat2Z.id. rewrite length_take_le in Hr by lia. rewrite Hr. cbn [mbind option_bind].
  destruct (Z.eqb_spec r 0) as [E | N].
  - exists p. split; [done |]. left. exists [], (drop (length t) s). split_and!.
    + rewrite <- (proj1 Hr0 E) at 1. cbn. by rewrite take_drop.
    + cbn. lia.
    + cbn. lia.
  - assert (s <> [] /\ forall post, s <> t ++ post) as [Hs0 Hpre].
    { split; [intros ->; cbn in Hn; lia |]. intros post ->. apply N, Hr0. by rewrite take_app_length. }
    destruct s as [| c s]; [done |]. cbn [cstr] in Hs. destruct Hs as (_ & _ & Hs).
    destruct (IH s (p + 1) ltac:(lia) Hs ltac:(cbn in Hn; lia)) as (r' & -> & Hcase).
    exists r'. split; [done |]. destruct Hcase as [(pre & post & -> & -> & Hmin) | [-> Hno]].
    + left. exists (c :: pre), post. split_and!; [done | cbn; lia |].
      intros [| x pre'] post' Heq; [by apply Hpre in Heq |]. cbn in Heq. simplify_eq.
      cbn. apply le_n_S. by apply (Hmin pre' post').
    + right. split; [done |]. intros [| x pre] post Heq; [by apply Hpre in Heq |].
      cbn in Heq. simplify_eq. by apply (Hno pre post).
Qed.

(** [strstr] returns the first position at which the second string occurs
    in the first one, and the null pointer when it occurs nowhere; the empty
    string occurs at the start. *)
Theorem strstr_correct m p q s t : 0 < p -> cstr m p s -> cstr m q t ->
  exists r, strstr m p q = Some r /\
    ((exists pre post, s = pre ++ t ++ post /\ r = p + zlen pre /\
        forall pre' post', s = pre' ++ t ++ post' -> (length pre <= length pre')%nat) \/
     (r = NULL /\ forall pre post, s <> pre ++ t ++ post)).
Proof.
  intros Hp Hs Ht. unfold strstr. rewrite (strlen_eq m q t) by done. cbn [mbind option_bind].
  destruct (Z.eqb_spec (zlen t) 0) as [E | N].
  - assert (t = []) as -> by (destruct t; [done | cbn in E; lia]).
    exists p. split; [done |]. left. exists [], s. split_and!; [done | cbn; lia | cbn; lia].
  - rewrite (strlen_eq m p s) by done. cbn [mbind option_bind].
    apply (strstr_loop_spec m t q Ht); [by intros -> | done | done | lia].
Qed.

Lemma strstr_correct_witness :
  let m := write_bytes (write_bytes ∅ 16 (str "bootargs" ++ [0])) 32 (str "ot" ++ [0]) in
  exists r, strstr m 16 32 = Some r /\
    ((exists pre post, str "bootargs" = pre ++ str "ot" ++ post /\ r = 16 + zlen pre /\
        forall pre' post', str "bootargs" = pre' ++ str "ot" ++ post' -> (length pre <= length pre')%nat) \/
     (r = NULL /\ forall pre post, str "bootargs" <> pre ++ str "ot" ++ post)).
Proof. apply (strstr_correct _ 16 32 (str "bootargs") (str "ot")); by vm_compute. Defined.
