(* ===== verification/Memory.v ===== *)
(** * Objects in memory

    Strings, byte arrays and 32-bit words in the memory of StringLib, shared by
    the components that work on raw memory, and the lemmas that separate the
    objects: what a write leaves alone and how neighbouring writes combine. *)

From S2P Require Import Prelude StringLib.

(** ** Objects *)

(** The bytes of the C string at [p]. *)
Fixpoint string_at (fuel : nat) (m : mem) (p : Z) : option (list Z) :=
  match fuel with
  | O => None
  | S fuel => c ← load m p; if c =? 0 then Some [] else t ← string_at fuel m (p + 1); Some (c :: t)
  end.

Definition get_string (m : mem) (p : Z) : option (list Z) := string_at (loop_fuel m) m p.

Definition load_bytes (m : mem) (p : Z) (n : nat) : option (list Z) :=
  mapM (fun i => load m (p + i)) (seqZ 0 (Z.of_nat n)).

Fixpoint store_bytes (m : mem) (p : Z) (l : list Z) : option mem :=
  match l with
  | [] => Some m
  | c :: l => m ← store m p c; store_bytes m (p + 1) l
  end.

Abbreviation load32 m p := (load_word m p 4).
Abbreviation store32 m p v := (store_word m p v 4).

(** ** Lemmas *)

Lemma string_at_spec m s : forall fuel p, cstr m p s -> (length s < fuel)%nat -> string_at fuel m p = Some s.
Proof.
  induction s as [| c s IH]; intros [| fuel] p Hs Hf; cbn [length] in Hf; try lia; cbn [cstr string_at] in *; unfold load.
  - by rewrite Hs.
  - destruct Hs as (-> & Hc & Hs). cbn [mbind option_bind]. rewrite (proj2 (Z.eqb_neq c 0)) by lia.
    by rewrite IH by (done || lia).
Qed.

Lemma get_string_spec m p s : cstr m p s -> get_string m p = Some s.
Proof. intros H. apply string_at_spec; [done | by apply (cstr_fuel m p)]. Qed.

Lemma cstr_of_bytes m s : forall p, Forall (fun c => 0 < c < 256) s -> bytes_at m p (s ++ [0]) -> cstr m p s.
Proof.
  induction s as [| c s IH]; intros p Hs H; cbn [cstr app bytes_at] in *; [by destruct H |].
  apply Forall_cons in Hs as [Hc Hs]. destruct H as (? & _ & ?). by eauto.
Qed.

Lemma load_bytes_spec l m p : bytes_at m p l -> load_bytes m p (length l) = Some l.
Proof.
  intros H. unfold load_bytes.
  apply mapM_Some, Forall2_same_length_lookup. rewrite length_seqZ. split; [lia |].
  intros i x y [-> Hi]%lookup_seqZ Hy. unfold load. rewrite (bytes_at_lookup m p l) by (done || lia).
  rewrite <- Hy. f_equal. lia.
Qed.

Lemma store_bytes_spec l : forall m p, is_bytes l -> mapped m p (zlen l) ->
  store_bytes m p l = Some (write_bytes m p l).
Proof.
  induction l as [| c l IH]; intros m p Hl Hm; [done |]. apply Forall_cons in Hl as [Hc Hl].
  cbn [store_bytes write_bytes]. rewrite (store_spec m p (zlen (c :: l))) by (done || cbn; lia).
  apply IH; [done |]. apply mapped_insert, (mapped_sub m p (zlen (c :: l))); [done | lia | cbn; lia].
Qed.

(** The bytes of a word. *)
Definition le4 (v : Z) : list Z := [u8 v; u8 (v / 2 ^ 8); u8 (v / 2 ^ 16); u8 (v / 2 ^ 24)].

Lemma le4_bytes v : is_bytes (le4 v).
Proof. unfold le4. repeat (apply Forall_cons; split; [by apply wrap_range |]). by apply Forall_nil. Qed.

Lemma le4_load v : is_u32 v -> le_load (le4 v) = v.
Proof.
  unfold is_u32, le4, wrap. cbn [le_load]. change (2 ^ 8) with 256. change (2 ^ 16) with (256 * 256).
  change (2 ^ 24) with (256 * 256 * 256). rewrite <- !Z.div_div by lia. intros.
  pose proof (Z.div_mod v 256). pose proof (Z.div_mod (v / 256) 256). pose proof (Z.div_mod (v / 256 / 256) 256).
  rewrite (Z.mod_small (v / 256 / 256 / 256)); [lia |].
  rewrite !Z.div_div by lia. split; [apply Z.div_pos; lia | apply Z.div_lt_upper_bound; lia].
Qed.

Lemma store32_spec m p v : is_u32 v -> mapped m p 4 -> store32 m p v = Some (write_bytes m p (le4 v)).
Proof.
  intros Hv Hm. rewrite <- (le4_load v) at 1 by done.
  apply (store_word_spec (le4 v)); [apply le4_bytes | done].
Qed.

Lemma load32_spec m p v : is_u32 v -> bytes_at m p (le4 v) -> load32 m p = Some v.
Proof. intros Hv H. rewrite (load_word_spec (le4 v)) by done. by rewrite le4_load. Qed.

(** Two writes side by side are one write, in either order. *)
Lemma write_write_back m p q l1 l2 : q = p + zlen l1 ->
  write_bytes (write_bytes m q l2) p l1 = write_bytes m p (l1 ++ l2).
Proof.
  intros ->. rewrite write_bytes_app. apply map_eq. intros a. rewrite !write_bytes_lookup.
  repeat case_decide; done || lia.
Qed.

Lemma write_write m p q l1 l2 : q = p + zlen l1 ->
  write_bytes (write_bytes m p l1) q l2 = write_bytes m p (l1 ++ l2).
Proof. intros ->. by rewrite write_bytes_app. Qed.

Lemma is_bytes_text (s : list Z) : Forall (fun c => 0 < c < 256) s -> is_bytes s.
Proof. intros H. apply (Forall_impl _ _ _ H). unfold is_byte. lia. Qed.

Lemma cstr_far m p s q l : cstr m p s -> p + zlen s < q \/ q + zlen l <= p -> cstr (write_bytes m q l) p s.
Proof.
  intros H Hd. apply cstr_of_bytes; [by apply (cstr_no_nul m p) |].
  apply bytes_at_far; [by apply cstr_bytes_at |]. rewrite length_app. cbn [length]. lia.
Qed.

Lemma bytes_at_sub m p l k n : bytes_at m p l -> (k <= length l)%nat -> bytes_at m (p + Z.of_nat k) (take n (drop k l)).
Proof.
  intros H Hk. rewrite <- (take_drop k l) in H. apply bytes_at_app in H as [_ H].
  rewrite length_take, Nat.min_l in H by lia. rewrite <- (take_drop n (drop k l)) in H. by apply bytes_at_app in H as [H _].
Qed.
