(* ===== verification/Qsort.v ===== *)
(** * The shell sort of lib/qsort.c

    [qsort] sorts an array of [nel] elements through a comparison callback.
    The elements are opaque here: the byte-wise exchange of two elements of
    [width] bytes exchanges them.  [wgap] is counted in elements; the source
    counts it in bytes, a multiple of [width] throughout, since every gap is of
    the form 3 h + 1.  [None] is an access outside the array or a loop that is
    still running when its bound on rounds is used up. *)

From S2P Require Import Prelude.
From S2P Require Import StringLib.
From Stdlib Require Import Permutation Sorted.
Local Open Scope nat_scope.

Section Qsort.
Context {A : Type} (comp : A -> A -> Z).

(** The innermost loop: [do { j -= wgap; if (comp(a, b) <= 0) break; swap; }
    while (j >= wgap);]. *)
Fixpoint sift (fuel : nat) (l : list A) (j gap : nat) : option (list A) :=
  match fuel with
  | O => None
  | S fuel =>
      let j := j - gap in
      a ← l !! j; b ← l !! (j + gap);
      if (comp a b <=? 0)%Z then Some l
      else
        let l := <[j + gap := a]> (<[j := b]> l) in
        if gap <=? j then sift fuel l j gap else Some l
  end.

(** [do { ...; i += width; } while (i < nel);] *)
Fixpoint gap_pass (fuel : nat) (l : list A) (i gap : nat) : option (list A) :=
  match fuel with
  | O => None
  | S fuel =>
      l ← sift (S i) l i gap;
      if S i <? length l then gap_pass fuel l (S i) gap else Some l
  end.

(** [do { ...; wgap = (wgap - width)/3; } while (wgap);] *)
Fixpoint shell_passes (fuel : nat) (l : list A) (gap : nat) : option (list A) :=
  match fuel with
  | O => None
  | S fuel =>
      l ← gap_pass (length l) l gap gap;
      let gap := (gap - 1) / 3 in
      if gap =? 0 then Some l else shell_passes fuel l gap
  end.

(** [do { wgap = 3 * wgap + 1; } while (wgap < (nel-1)/3);] *)
Fixpoint first_gap (fuel : nat) (gap nel : nat) : option nat :=
  match fuel with
  | O => None
  | S fuel =>
      let gap := 3 * gap + 1 in
      if gap <? (nel - 1) / 3 then first_gap fuel gap nel else Some gap
  end.

Definition qsort (l : list A) : option (list A) :=
  let nel := length l in
  if 1 <? nel then
    gap ← first_gap nel 0 nel;
    shell_passes nel l gap
  else Some l.

(** ** The result is a permutation *)

Lemma swap_perm (l : list A) i j a b : l !! i = Some a -> l !! j = Some b -> i <> j ->
  Permutation (<[j := a]> (<[i := b]> l)) l.
Proof.
  intros Hi Hj Hne.
  assert (forall i j a b, i < j -> l !! i = Some a -> l !! j = Some b ->
    Permutation (<[j := a]> (<[i := b]> l)) l) as Hlt.
  { clear. intros i j a b Hij Hi Hj.
    destruct (list_elem_of_split_length l i a Hi) as (l1 & t & -> & ->).
    rewrite lookup_app_r in Hj by lia.
    destruct (j - length l1) as [| k] eqn:Hk; [lia |]. cbn in Hj.
    destruct (list_elem_of_split_length t k b Hj) as (l2 & l3 & -> & ->).
    rewrite !insert_app_r_alt by lia. rewrite Nat.sub_diag, Hk. cbn.
    assert (<[length l2 := a]> (l2 ++ b :: l3) = l2 ++ a :: l3) as E.
    { rewrite insert_app_r_alt, Nat.sub_diag by lia. done. }
    apply Permutation_app_head. transitivity (b :: l2 ++ a :: l3); [by rewrite <- E |].
    rewrite <- !Permutation_middle. apply Permutation_swap. }
  destruct (decide (i < j)) as [H | H]; [by apply Hlt |].
  rewrite list_insert_insert_ne by done. apply Hlt; [lia | done | done].
Qed.

Lemma sift_total fuel : forall l j gap, 0 < gap -> gap <= j -> j < length l -> j < fuel ->
  exists l', sift fuel l j gap = Some l' /\ Permutation l' l.
Proof.
  induction fuel as [| fuel IH]; intros l j gap Hg Hj Hl Hf; [lia |]. cbn [sift].
  destruct (lookup_lt_is_Some_2 l (j - gap)) as [a Ha]; [lia |].
  destruct (lookup_lt_is_Some_2 l (j - gap + gap)) as [b Hb]; [lia |].
  rewrite Ha, Hb. cbn [mbind option_bind]. destruct (comp a b <=? 0)%Z; [by exists l |].
  assert (Permutation (<[j - gap + gap := a]> (<[j - gap := b]> l)) l) as Hp
    by (apply swap_perm; [done | done | lia]).
  destruct (Nat.leb_spec gap (j - gap)).
  - destruct (IH (<[j - gap + gap := a]> (<[j - gap := b]> l)) (j - gap) gap) as (l' & -> & Hp');
      [done | done | rewrite !length_insert; lia | lia |].
    exists l'. split; [done |]. by rewrite Hp'.
  - by eexists.
Qed.

Lemma gap_pass_total fuel : forall l i gap, 0 < gap -> gap <= i -> i < length l ->
  length l - i <= fuel -> exists l', gap_pass fuel l i gap = Some l' /\ Permutation l' l.
Proof.
  induction fuel as [| fuel IH]; intros l i gap Hg Hi Hl Hf; [lia |]. cbn [gap_pass].
  destruct (sift_total (S i) l i gap) as (l1 & Hs & Hp); [lia.. |]. rewrite Hs. cbn [mbind option_bind].
  pose proof (Permutation_length Hp) as Hlen.
  destruct (Nat.ltb_spec (S i) (length l1)).
  - destruct (IH l1 (S i) gap) as (l2 & -> & Hp2); [lia.. |]. exists l2. split; [done |]. by rewrite Hp2.
  - by exists l1.
Qed.

(** ** Gaps *)

(** The gaps are of the form (3^k - 1) / 2. *)
Fixpoint gap_of (k : nat) : nat := match k with O => 0 | S k => 3 * gap_of k + 1 end.

Lemma gap_of_step k : (gap_of (S k) - 1) / 3 = gap_of k.
Proof. cbn [gap_of]. rewrite Nat.add_sub, Nat.mul_comm. apply Nat.div_mul. lia. Qed.

Lemma gap_of_le k : k <= gap_of k.
Proof. induction k; cbn; lia. Qed.

Lemma first_gap_spec nel fuel : forall k, 2 <= nel -> nel <= fuel + gap_of k -> gap_of (S k) < nel ->
  0 < fuel -> exists k', first_gap fuel (gap_of k) nel = Some (gap_of (S k')) /\ gap_of (S k') < nel.
Proof.
  induction fuel as [| fuel IH]; intros k Hn Hf Hk H0; [lia |]. cbn [first_gap].
  change (3 * gap_of k + 1) with (gap_of (S k)).
  destruct (Nat.ltb_spec (gap_of (S k)) ((nel - 1) / 3)) as [Hlt | Hge]; [| by exists k].
  pose proof (Nat.div_mod_eq (nel - 1) 3) as Hd.
  assert (gap_of (S (S k)) < nel) as Hk2.
  { change (gap_of (S (S k))) with (3 * gap_of (S k) + 1). lia. }
  apply IH; [done | | done |]; cbn [gap_of] in *; lia.
Qed.

Lemma shell_passes_total fuel : forall k l, gap_of (S k) < length l -> k < fuel ->
  exists l', shell_passes fuel l (gap_of (S k)) = Some l' /\ Permutation l' l.
Proof.
  induction fuel as [| fuel IH]; intros k l Hk Hf; [lia |]. cbn [shell_passes].
  assert (0 < gap_of (S k)) by (cbn; lia).
  destruct (gap_pass_total (length l) l (gap_of (S k)) (gap_of (S k))) as (l1 & -> & Hp); [lia.. |].
  cbn [mbind option_bind]. rewrite gap_of_step. destruct (Nat.eqb_spec (gap_of k) 0) as [| Hne].
  - by exists l1.
  - destruct k as [| k]; [done |]. pose proof (Permutation_length Hp).
    destruct (IH k l1) as (l2 & -> & Hp2); [cbn [gap_of] in *; lia | lia |].
    exists l2. split; [done |]. by rewrite Hp2.
Qed.


(** ** The last pass sorts

    With gap 1 a pass is an insertion sort. *)

Hypothesis comp_total : forall a b, (comp a b <= 0 \/ comp b a <= 0)%Z.
Hypothesis comp_trans : forall a b c, (comp a b <= 0 -> comp b c <= 0 -> comp a c <= 0)%Z.

(** The elements below index [n] are in order. *)
Definition sorted_upto (n : nat) (l : list A) : Prop :=
  forall p q a b, p < q < n -> l !! p = Some a -> l !! q = Some b -> (comp a b <= 0)%Z.

(** In order up to [n], except that the element at [j] still has to go down. *)
Definition sinking (n j : nat) (l : list A) : Prop :=
  forall p q a b, p < q < n -> q <> j -> l !! p = Some a -> l !! q = Some b -> (comp a b <= 0)%Z.

Lemma sinking_start n l : sorted_upto n l -> sinking (S n) n l.
Proof. intros H p q a b Hpq Hne. apply (H p q); lia. Qed.

Lemma sinking_stop n j l a b : sinking n (S j) l -> l !! j = Some a -> l !! S j = Some b ->
  (comp a b <= 0)%Z -> sorted_upto n l.
Proof.
  intros H Ha Hb Hab p q x y Hpq Hx Hy.
  destruct (decide (q = S j)) as [-> | Hne]; [| by apply (H p q)].
  simplify_eq. destruct (decide (p = j)) as [-> | Hp]; [by simplify_eq |].
  apply comp_trans with a; [| done]. apply (H p j); [lia | lia | done | done].
Qed.

Lemma sinking_swap n j l a b : S j < n -> sinking n (S j) l -> l !! j = Some a -> l !! S j = Some b ->
  (0 < comp a b)%Z -> sinking n j (<[S j := a]> (<[j := b]> l)).
Proof.
  intros Hn H Ha Hb Hab p q x y Hpq Hne Hx Hy.
  assert (comp b a <= 0)%Z as Hba by (destruct (comp_total a b); [lia | done]).
  pose proof (lookup_lt_Some _ _ _ Ha). pose proof (lookup_lt_Some _ _ _ Hb).
  apply list_lookup_insert_Some in Hx as [(<- & <- & _) | [Hpj Hx]];
  [| apply list_lookup_insert_Some in Hx as [(<- & <- & _) | [Hpj' Hx]]];
  (apply list_lookup_insert_Some in Hy as [(<- & <- & _) | [Hqj Hy]];
  [| apply list_lookup_insert_Some in Hy as [(<- & <- & _) | [Hqj' Hy]]]); try lia; try done.
  - by apply (H j q); try lia.
  - destruct (decide (q = S j)); [lia |]. by apply (H (S j) q); try lia.
  - by apply (H p j); try lia.
  - by apply (H p q); try lia.
Qed.

Lemma sinking_bottom n l : sinking n 0 l -> sorted_upto n l.
Proof. intros H p q a b Hpq. apply (H p q); lia. Qed.

Lemma sift_sorts fuel : forall l j n l', 0 < j < n -> n <= length l -> sinking n j l ->
  sift fuel l j 1 = Some l' -> sorted_upto n l'.
Proof.
  induction fuel as [| fuel IH]; intros l j n l' Hj Hn Hs He; [done |]. cbn [sift] in He.
  destruct j as [| j]; [lia |]. replace (S j - 1) with j in He by lia.
  rewrite Nat.add_1_r in He.
  destruct (l !! j) as [a |] eqn:Ha; [| done]. destruct (l !! S j) as [b |] eqn:Hb; [| done].
  cbn [mbind option_bind] in He. destruct (Z.leb_spec (comp a b) 0) as [Hle | Hgt].
  { simplify_eq. by eapply sinking_stop. }
  apply (sinking_swap n j l a b) in Hs; [| lia | done | done | done].
  destruct (Nat.leb_spec 1 j).
  - apply (IH _ _ n) in He; [done | lia | by rewrite !length_insert | done].
  - assert (j = 0) as -> by lia. simplify_eq. by apply sinking_bottom.
Qed.

Lemma gap_pass_sorts fuel : forall l i l', 0 < i < length l -> sorted_upto i l ->
  gap_pass fuel l i 1 = Some l' -> sorted_upto (length l') l'.
Proof.
  induction fuel as [| fuel IH]; intros l i l' Hi Hs He; [done |]. cbn [gap_pass] in He.
  destruct (sift_total (S i) l i 1) as (l1 & Hl1 & Hp); [lia.. |]. rewrite Hl1 in He.
  cbn [mbind option_bind] in He. pose proof (Permutation_length Hp) as Hlen.
  apply (sift_sorts _ _ _ (S i)) in Hl1; [| lia | lia | by apply sinking_start].
  destruct (Nat.ltb_spec (S i) (length l1)).
  - by apply IH in He; try lia.
  - simplify_eq. by replace (length l') with (S i) by lia.
Qed.

Lemma shell_passes_sorts fuel : forall k l l', gap_of (S k) < length l ->
  shell_passes fuel l (gap_of (S k)) = Some l' -> sorted_upto (length l') l'.
Proof.
  induction fuel as [| fuel IH]; intros k l l' Hk He; [done |]. cbn [shell_passes] in He.
  assert (0 < gap_of (S k)) by (cbn; lia).
  destruct (gap_pass_total (length l) l (gap_of (S k)) (gap_of (S k))) as (l1 & Hl1 & Hp); [lia.. |].
  pose proof (Permutation_length Hp) as Hlen. rewrite Hl1, gap_of_step in He.
  cbn [mbind option_bind] in He. destruct (Nat.eqb_spec (gap_of k) 0) as [H0 | Hne].
  - assert (gap_of (S k) = 1) as H1 by (cbn [gap_of]; lia). rewrite H1 in Hl1. simplify_eq.
    apply gap_pass_sorts in Hl1; [done | lia |]. intros p q a b Hpq. lia.
  - destruct k as [| k]; [done |]. apply IH in He; [done |]. cbn [gap_of] in *. lia.
Qed.

Lemma qsort_total (l : list A) : exists l', qsort l = Some l' /\ Permutation l' l.
Proof.
  unfold qsort. destruct (Nat.ltb_spec 1 (length l)); [| by exists l].
  destruct (first_gap_spec (length l) (length l) 0) as (k & Hk & Hlt); [cbn; lia.. |]. change (gap_of 0) with 0 in Hk.
  rewrite Hk. cbn [mbind option_bind]. apply shell_passes_total; [done |].
  pose proof (gap_of_le (S k)). lia.
Qed.

(** for every comparison function that is total and transitive (a weak
    order), the shell sort stops, its result is a permutation of the array,
    and the result is in the order of the comparison. *)
Theorem qsort_correct (l : list A) : exists l',
  qsort l = Some l' /\ Permutation l' l /\
  StronglySorted (fun a b => (comp a b <= 0)%Z) l'.
Proof.
  destruct (qsort_total l) as (l' & Hq & Hp). exists l'. split; [done |]. split; [done |].
  assert (sorted_upto (length l') l') as Hs.
  { unfold qsort in Hq. destruct (Nat.ltb_spec 1 (length l)).
    - destruct (first_gap_spec (length l) (length l) 0) as (k & Hk & Hlt); [cbn; lia.. |]. change (gap_of 0) with 0 in Hk.
      rewrite Hk in Hq. cbn [mbind option_bind] in Hq. by eapply shell_passes_sorts.
    - simplify_eq. intros p q a b Hpq. lia. }
  clear Hq Hp. induction l' as [| x l' IH]; constructor.
  - apply IH. intros p q a b Hpq Ha Hb. apply (Hs (S p) (S q)); cbn; [lia | done | done].
  - apply Forall_forall. intros y Hy. apply list_elem_of_lookup in Hy as [q Hq].
    pose proof (lookup_lt_Some _ _ _ Hq). apply (Hs 0 (S q)); cbn; [lia | done | done].
Qed.

End Qsort.

(** The comparison [strcmp_compar] of lib/qsort.c on environment names: array
    elements are pointers, and it compares the strings they point to. *)
Definition strcmp_compar (m : mem) (p1 p2 : Z) : option Z :=
  s1 ← load_word m p1 4; s2 ← load_word m p2 4; strcmp m s1 s2.

Definition example_array : list Z := [170; 45; 75; 90; 802; 24; 2; 66; 45; 3; 17; 9]%Z.

Lemma qsort_correct_witness :
  (exists l', qsort Z.sub example_array = Some l' /\ Permutation l' example_array /\
     StronglySorted (fun a b => (a - b <= 0)%Z) l') /\
  qsort Z.sub example_array = Some [2; 3; 9; 17; 24; 45; 45; 66; 75; 90; 170; 802]%Z.
Proof.
  split; [| vm_compute; reflexivity].
  apply (qsort_correct Z.sub); intros; lia.
Defined.
