(* ===== verification/Div64.v ===== *)
(** * 64-bit division (lib/div64.c, include/div64.h)

    The processor divides 32-bit numbers only; [do_div] divides a 64-bit
    number by a 32-bit one, by shift and subtract when the number does not fit
    32 bits.  The loops double a divisor of at least one and halve it again, so
    64 rounds are enough. *)

From S2P Require Import Prelude.

(** [while ((int64_t)b > 0 && b < rem) { b = b+b; d = d+d; }] *)
Fixpoint scale_up (fuel : nat) (b d rem : Z) : option (Z * Z) :=
  match fuel with
  | O => None
  | S fuel =>
      if (0 <? swrap 64 b) && (b <? rem) then scale_up fuel (u64 (b + b)) (u64 (d + d)) rem
      else Some (b, d)
  end.

(** [do { if (rem >= b) { rem -= b; res += d; } b >>= 1; d >>= 1; } while (d);] *)
Fixpoint scale_down (fuel : nat) (b d rem res : Z) : option (Z * Z) :=
  match fuel with
  | O => None
  | S fuel =>
      let '(rem, res) := if b <=? rem then (u64 (rem - b), u64 (res + d)) else (rem, res) in
      let b := Z.shiftr b 1 in
      let d := Z.shiftr d 1 in
      if d =? 0 then Some (rem, res) else scale_down fuel b d rem res
  end.

(** The remainder and the new value of [*n]. *)
Definition __div64_32 (n base : Z) : option (Z * Z) :=
  let high := u32 (Z.shiftr n 32) in
  let '(rem, res) :=
    if base <=? high then
      let high := high / base in
      (u64 (n - u64 (Z.shiftl (u32 (high * base)) 32)), u64 (Z.shiftl high 32))
    else (n, 0) in
  '(b, d) ← scale_up 64 base 1 rem;
  '(rem, res) ← scale_down 64 b d rem res;
  Some (u32 rem, res).

(** The macro [do_div]. *)
Definition do_div (n base : Z) : option (Z * Z) :=
  if Z.shiftr n 32 =? 0 then Some (u32 n mod base, u32 n / base) else __div64_32 n base.

Lemma shiftr1 x : Z.shiftr x 1 = x / 2.
Proof. by rewrite Z.shiftr_div_pow2 by lia. Qed.

Lemma swrap_pos b : 0 < b < 2 ^ 64 -> (0 <? swrap 64 b) = (b <? 2 ^ 63).
Proof.
  intros Hb. unfold swrap. change (2 ^ (64 - 1)) with (2 ^ 63). destruct (Z.ltb_spec b (2 ^ 63)).
  - rewrite Z.mod_small by lia. apply Z.ltb_lt. lia.
  - replace (b + 2 ^ 63) with (b - 2 ^ 63 + 1 * 2 ^ 64) by lia.
    rewrite Z.mod_add, Z.mod_small by lia. apply Z.ltb_ge. lia.
Qed.

Section Division.
Context (base : Z) (Hbase : 0 < base < 2 ^ 32).

Lemma scale_up_spec fuel rem : 0 <= rem < base * 2 ^ 32 -> forall k, 0 <= k <= 32 ->
  32 - k < Z.of_nat fuel -> exists k', scale_up fuel (base * 2 ^ k) (2 ^ k) rem = Some (base * 2 ^ k', 2 ^ k') /\
  0 <= k' <= 32 /\ rem < 2 * (base * 2 ^ k').
Proof using Hbase.
  intros Hrem. induction fuel as [| fuel IH]; intros k Hk Hf; [lia |]. cbn [scale_up].
  assert (2 ^ k <= 2 ^ 32) as Hk32 by (apply Z.pow_le_mono_r; lia).
  assert (0 < 2 ^ k) as Hk0 by (apply Z.pow_pos_nonneg; lia).
  assert (base * 2 ^ k < 2 ^ 64) by (change (2 ^ 64) with (2 ^ 32 * 2 ^ 32); nia).
  rewrite swrap_pos by nia.
  destruct (Z.ltb_spec (base * 2 ^ k) (2 ^ 63)) as [H63 | H63], (Z.ltb_spec (base * 2 ^ k) rem) as [Hlt | Hge]; cbn [andb].
  - assert (k < 32).
    { destruct (Z.eq_dec k 32) as [-> |]; [lia | lia]. }
    rewrite !wrap_small; [| nia | change (2 ^ 64) with (2 * 2 ^ 63); lia].
    replace (base * 2 ^ k + base * 2 ^ k) with (base * 2 ^ (k + 1)) by (rewrite Z.pow_add_r by lia; lia).
    replace (2 ^ k + 2 ^ k) with (2 ^ (k + 1)) by (rewrite Z.pow_add_r by lia; lia).
    apply IH; lia.
  - exists k. split; [done |]. split; [done | nia].
  - exists k. split; [done |]. split; [done |].
    assert (base * 2 ^ 32 < 2 ^ 64) by (change (2 ^ 64) with (2 ^ 32 * 2 ^ 32); nia).
    change (2 ^ 64) with (2 * 2 ^ 63) in *. lia.
  - exists k. split; [done |]. split; [done | nia].
Qed.

Lemma scale_down_spec fuel : forall k rem res, 0 <= k -> k < Z.of_nat fuel ->
  0 <= rem < 2 * (base * 2 ^ k) -> base * 2 ^ k < 2 ^ 64 -> 0 <= res -> res * base + rem < 2 ^ 64 -> exists rem' res',
  scale_down fuel (base * 2 ^ k) (2 ^ k) rem res = Some (rem', res') /\
  0 <= rem' < base /\ res' * base + rem' = res * base + rem.
Proof using Hbase.
  induction fuel as [| fuel IH]; intros k rem res Hk Hf Hrem Hb64 Hres Hr64; [lia |].
  assert (0 < 2 ^ k) as Hk0 by (apply Z.pow_pos_nonneg; lia).
  assert (exists rem1 res1, (if base * 2 ^ k <=? rem then (u64 (rem - base * 2 ^ k), u64 (res + 2 ^ k)) else (rem, res)) = (rem1, res1) /\
    0 <= rem1 < base * 2 ^ k /\ res1 * base + rem1 = res * base + rem /\ res <= res1 <= res + 2 ^ k) as (rem1 & res1 & E & H1 & H2 & H3).
  { destruct (Z.leb_spec (base * 2 ^ k) rem).
    - assert (res + 2 ^ k < 2 ^ 64) by nia. rewrite !wrap_small by nia. eexists _, _. split; [done |]. split_and!; [lia | lia | lia | lia | lia].
    - eexists _, _. split; [done |]. split_and!; lia. }
  cbn [scale_down]. rewrite E, !shiftr1. destruct (Z.eq_dec k 0) as [-> | Hk'].
  - change (2 ^ 0 / 2) with 0. cbn [Z.eqb]. exists rem1, res1. split; [done |]. lia.
  - assert (base * 2 ^ k / 2 = base * 2 ^ (k - 1)) as ->.
    { replace (base * 2 ^ k) with (base * 2 ^ (k - 1) * 2); [by rewrite Z.div_mul |].
      rewrite <- Z.mul_assoc. f_equal. rewrite Z.mul_comm, <- Z.pow_succ_r by lia. f_equal. lia. }
    assert (2 * 2 ^ (k - 1) = 2 ^ k) as Hpow by (rewrite <- Z.pow_succ_r by lia; f_equal; lia).
    assert (2 ^ k / 2 = 2 ^ (k - 1)) as -> by (rewrite <- Hpow, Z.mul_comm; by apply Z.div_mul).
    assert (0 < 2 ^ (k - 1)) by (apply Z.pow_pos_nonneg; lia).
    rewrite (proj2 (Z.eqb_neq _ 0)) by lia.
    destruct (IH (k - 1) rem1 res1) as (rem' & res' & -> & Hr' & He'); [lia | lia | nia | nia | lia | lia |].
    exists rem', res'. split; [done |]. split; [done | lia].
Qed.

(** The reduction by the high word. *)
Lemma div64_reduce n : 0 <= n < 2 ^ 64 ->
  let high := u32 (Z.shiftr n 32) in exists rem res,
  (if base <=? high then (u64 (n - u64 (Z.shiftl (u32 (high / base * base)) 32)), u64 (Z.shiftl (high / base) 32))
   else (n, 0)) = (rem, res) /\
  0 <= rem < base * 2 ^ 32 /\ rem <= n /\ 0 <= res /\ res * base + rem = n.
Proof using Hbase.
  intros Hn high. assert (high = n / 2 ^ 32) as Hh.
  { unfold high. rewrite Z.shiftr_div_pow2 by lia. apply wrap_small. split; [apply Z.div_pos; lia |].
    apply Z.div_lt_upper_bound; lia. }
  pose proof (Z.div_mod n (2 ^ 32) ltac:(lia)) as Hdm. rewrite <- Hh in Hdm.
  pose proof (Z.mod_pos_bound n (2 ^ 32) ltac:(lia)) as Hlow.
  assert (0 <= high < 2 ^ 32) as Hhr by (unfold high; by apply wrap_range).
  pose proof (Z.div_mod high base ltac:(lia)) as Hq. pose proof (Z.mod_pos_bound high base ltac:(lia)) as Hm.
  assert (0 <= high / base <= high) as Hqr by (split; [apply Z.div_pos; lia | apply Z.div_le_upper_bound; nia]).
  destruct (Z.leb_spec base high); [| exists n, 0; split; [done |]; split_and!; nia].
  assert (0 <= high / base * base <= high) as Hqb by nia.
  set (q := high / base) in *. clearbody q high.
  rewrite (wrap_small 32 (q * base)), !Z.shiftl_mul_pow2 by lia.
  assert (0 <= q * 2 ^ 32 < 2 ^ 64) by (change (2 ^ 64) with (2 ^ 32 * 2 ^ 32); nia).
  rewrite (wrap_small 64 (q * base * 2 ^ 32)) by lia.
  rewrite (wrap_small 64 (n - q * base * 2 ^ 32)) by lia.
  rewrite (wrap_small 64 (q * 2 ^ 32)) by lia.
  eexists _, _. split; [done |]. split_and!; [lia | | lia | lia | lia].
  assert (high - q * base < base) by lia. nia.
Qed.

Lemma div64_32_spec n : 0 <= n < 2 ^ 64 -> __div64_32 n base = Some (n mod base, n / base).
Proof using Hbase.
  intros Hn. unfold __div64_32. cbv zeta.
  destruct (div64_reduce n Hn) as (rem & res & -> & Hrem & Hle & Hres & Heq).
  destruct (scale_up_spec 64 rem Hrem 0) as (k & Hk & Hk32 & Hrem2); [lia | lia |].
  rewrite Z.pow_0_r, Z.mul_1_r in Hk. rewrite Hk. cbn [mbind option_bind].
  assert (2 ^ k <= 2 ^ 32) by (apply Z.pow_le_mono_r; lia).
  assert (0 < 2 ^ k) by (apply Z.pow_pos_nonneg; lia).
  destruct (scale_down_spec 64 k rem res) as (rem' & res' & -> & Hr & He); [lia | lia | lia | | lia | lia |].
  - change (2 ^ 64) with (2 ^ 32 * 2 ^ 32). nia.
  - cbn [mbind option_bind]. rewrite Heq in He. rewrite wrap_small by lia.
    rewrite (Z.div_unique n base res' rem'), (Z.mod_unique n base res' rem') by lia. done.
Qed.

End Division.

Lemma do_div_spec n b : 0 <= n < 2 ^ 64 -> 0 < b < 2 ^ 32 -> do_div n b = Some (n mod b, n / b).
Proof.
  intros Hn Hb. unfold do_div. destruct (Z.eqb_spec (Z.shiftr n 32) 0) as [H | _]; [| by apply div64_32_spec].
  rewrite Z.shiftr_div_pow2 in H by lia. apply Z.div_small_iff in H; [| lia].
  by rewrite wrap_small by lia.
Qed.

(** [do_div] terminates and gives the quotient and the remainder of every
    64-bit number by every non-zero 32-bit number: the shift-and-subtract loop
    of [__div64_32] agrees with integer division and nothing in it wraps
    around. *)
Theorem do_div_correct n b : 0 <= n < 2 ^ 64 -> 0 < b < 2 ^ 32 ->
  do_div n b = Some (n mod b, n / b) /\ __div64_32 n b = Some (n mod b, n / b).
Proof. intros Hn Hb. split; [by apply do_div_spec | by apply div64_32_spec]. Qed.

Lemma do_div_correct_witness :
  do_div (2 ^ 64 - 1) 1000000007 = Some (582344007, 18446743944) /\
  __div64_32 (2 ^ 64 - 1) 1000000007 = Some (582344007, 18446743944).
Proof. apply (do_div_correct (2 ^ 64 - 1) 1000000007); lia. Defined.
