(* ===== verification/Hashtable.v ===== *)
(** * The hash table of the environment (lib/hashtable.c)

    Open addressing with double hashing over [size + 1] slots, [size] a prime;
    slot 0 is never used.  A slot's [used] field is 0 when it was never used,
    -1 when its entry was deleted, and otherwise the first hash value of its
    key.  Strings are lists of non-zero bytes; a pointer to a string is an
    option, [None] being the null pointer.

    The surroundings of the table are a [world]: [errno], the outcomes of the
    allocations to come (an allocation past the recorded outcomes succeeds) and
    the calls made to the [apply] callback, most recent first.  [None] as the
    result of an operation is a fault: an access outside the table, a null
    string passed to [strcmp], or a loop that is still running when its bound
    on rounds is used up. *)

From S2P Require Import Prelude StringLib.
From Stdlib Require Import Znumtheory.

Abbreviation cstring := (list Z).

Record slot := Slot { used : Z; key : option cstring; data : option cstring }.
Record hsearch_data := HTab { table : option (list slot); size : Z; filled : Z }.

Inductive ACTION := FIND | ENTER.

#[export] Instance slot_eq_dec : EqDecision slot.
Proof. solve_decision. Defined.

(** The arguments of a call of [apply]. *)
Record apply_call := Call {
  c_name : option cstring; c_old : option cstring; c_new : option cstring; c_flag : Z }.

Record world := World { errno : Z; allocs : list bool; applied : list apply_call }.

Definition ESRCH : Z := 3.
Definition ENOMEM : Z := 12.
Definition EINVAL : Z := 22.
Definition H_NOCLEAR : Z := 1.
Definition H_FORCE : Z := 2.
Definition CONFIG_ENV_MIN_ENTRIES : Z := 64.
Definition CONFIG_ENV_MAX_ENTRIES : Z := 512.

Definition set_errno (e : Z) (w : world) : world := World e (allocs w) (applied w).

(** The outcome of the next allocation. *)
Definition allocate (w : world) : bool * world :=
  match allocs w with
  | [] => (true, w)
  | b :: l => (b, World (errno w) l (applied w))
  end.

(** [strdup] of lib/string.c: a null argument gives a null pointer. *)
Definition strdup (s : option cstring) (w : world) : option cstring * world :=
  match s with
  | None => (None, w)
  | Some s => let '(ok, w) := allocate w in ((if ok : bool then Some s else None), w)
  end.

Definition slot_at (t : list slot) (i : Z) : option slot :=
  if 0 <=? i then t !! Z.to_nat i else None.
Definition slot_set (t : list slot) (i : Z) (s : slot) : list slot := <[Z.to_nat i := s]> t.

(** ** [hcreate_r], [hdestroy_r] *)

Fixpoint isprime_loop (fuel : nat) (number div : Z) : option Z :=
  match fuel with
  | O => None
  | S fuel =>
      if (u32 (div * div) <? number) && negb (number mod div =? 0)
      then isprime_loop fuel number (u32 (div + 2))
      else Some div
  end.

(** At most 2^15 odd divisors have a square that does not wrap around. *)
Definition isprime (number : Z) : option bool :=
  div ← isprime_loop (Z.to_nat 0x8000) number 3; Some (negb (number mod div =? 0)).

(** [while (!isprime(nel)) nel += 2;] *)
Fixpoint next_prime (fuel : nat) (nel : Z) : option Z :=
  match fuel with
  | O => None
  | S fuel => b ← isprime nel; if (b : bool) then Some nel else next_prime fuel (u32 (nel + 2))
  end.

(** Two primes below 2^32 are at most 336 apart. *)
Definition prime_gap : nat := 169.

Definition hcreate_r (nel : Z) (w : world) (h : hsearch_data) : option (Z * world * hsearch_data) :=
  match table h with
  | Some _ => Some (0, w, h)
  | None =>
      sz ← next_prime prime_gap (Z.lor nel 1);
      let '(ok, w) := allocate w in
      if (ok : bool)
      then Some (1, w, HTab (Some (replicate (Z.to_nat (sz + 1)) (Slot 0 None None))) sz 0)
      else Some (0, w, HTab None sz 0)
  end.

Section Callback.
(** The [apply] field: the decision of the callback, when there is one. *)
Context (apply : option (apply_call -> Z)).

Definition call_apply (c : apply_call) (w : world) : Z * world :=
  match apply with
  | Some f => (f c, World (errno w) (allocs w) (c :: applied w))
  | None => (0, w)
  end.

(** [htab->apply(ep->key, ep->data, NULL, flag)]. *)
Definition from_slot (s : slot) (f : Z) : apply_call := Call (key s) (data s) None f.

Fixpoint hdestroy_loop (n : nat) (t : list slot) (i : Z) (do_apply : bool) (w : world) : option world :=
  match n with
  | O => Some w
  | S n =>
      s ← slot_at t i;
      if (0 <? used s) && do_apply
      then hdestroy_loop n t (i + 1) do_apply (call_apply (from_slot s H_FORCE) w).2
      else hdestroy_loop n t (i + 1) do_apply w
  end.

(** Called on an existing table only. *)
Definition hdestroy_r (do_apply : bool) (w : world) (h : hsearch_data) : option (world * hsearch_data) :=
  t ← table h;
  w ← hdestroy_loop (Z.to_nat (size h)) t 1 do_apply w;
  Some (w, HTab None (size h) (filled h)).

(** ** Searching by substring and by prefix *)

Fixpoint is_prefix (p s : cstring) : bool :=
  match p, s with
  | [], _ => true
  | c :: p, d :: s => (c =? d) && is_prefix p s
  | _ :: _, [] => false
  end.

(** [strstr(s, match) != NULL]. *)
Fixpoint is_infix (p s : cstring) : bool :=
  is_prefix p s || match s with [] => false | _ :: s => is_infix p s end.

Fixpoint scan_table (n : nat) (test : slot -> option bool) (t : list slot) (idx : Z) : option Z :=
  match n with
  | O => Some 0
  | S n =>
      s ← slot_at t idx;
      if used s <=? 0 then scan_table n test t (idx + 1)
      else b ← test s; if (b : bool) then Some idx else scan_table n test t (idx + 1)
  end.

Definition found (w : world) (idx : Z) : Z * option Z * world :=
  if idx =? 0 then (0, None, set_errno ESRCH w) else (idx, Some idx, w).

(** [for (idx = last_idx + 1; idx < htab->size; ++idx)]. *)
Definition hstrstr_r (mtch : cstring) (last_idx : Z) (w : world) (h : hsearch_data) :
    option (Z * option Z * world) :=
  t ← table h;
  idx ← scan_table (Z.to_nat (size h - (last_idx + 1)))
    (fun s => k ← key s;
       if is_infix mtch k then Some true else d ← data s; Some (is_infix mtch d)) t (last_idx + 1);
  Some (found w idx).

Definition hmatch_r (mtch : cstring) (last_idx : Z) (w : world) (h : hsearch_data) :
    option (Z * option Z * world) :=
  t ← table h;
  idx ← scan_table (Z.to_nat (size h - (last_idx + 1)))
    (fun s => k ← key s; Some (is_prefix mtch k)) t (last_idx + 1);
  Some (found w idx).

(** ** [hsearch_r] *)

(** [hval = len; while (count-- > 0) { hval <<= 4; hval += item.key[count]; }] *)
Definition hash_string (k : cstring) : Z :=
  foldr (fun c hval => u32 (u32 (Z.shiftl hval 4) + c)) (u32 (zlen k)) k.

Definition first_hash (k : cstring) (sz : Z) : Z :=
  let hval := hash_string k mod sz in if hval =? 0 then hval + 1 else hval.

Definition second_hash (hval sz : Z) : Z := 1 + hval mod (u32 (sz - 2)).

(** [if (idx <= hval2) idx = htab->size + idx - hval2; else idx -= hval2;] *)
Definition next_idx (sz hval2 idx : Z) : Z :=
  if idx <=? hval2 then u32 (sz + idx - hval2) else idx - hval2.

Definition slot_matches (s : slot) (k : cstring) (hval : Z) : option bool :=
  if u32 (used s) =? hval then sk ← key s; Some (cstrcmp k sk =? 0) else Some false.

(** How a search ends: at the entry, or at the slot for a new one. *)
Inductive probe := Hit (idx : Z) | Miss (idx : Z).

(** [do { ... } while (htab->table[idx].used);] *)
Fixpoint probe_loop (fuel : nat) (t : list slot) (sz : Z) (k : cstring) (hval hval2 idx : Z) :
    option probe :=
  match fuel with
  | O => None
  | S fuel =>
      let idx := next_idx sz hval2 idx in
      if idx =? hval then Some (Miss idx)
      else
        s ← slot_at t idx;
        m ← slot_matches s k hval;
        if (m : bool) then Some (Hit idx)
        else if used s =? 0 then Some (Miss idx)
        else probe_loop fuel t sz k hval hval2 idx
  end.

(** The search proper, with [first_deleted]. *)
Definition hsearch_probe (t : list slot) (sz : Z) (k : cstring) : option (probe * Z) :=
  let hval := first_hash k sz in
  s ← slot_at t hval;
  if used s =? 0 then Some (Miss hval, 0)
  else
    m ← slot_matches s k hval;
    if (m : bool) then Some (Hit hval, 0)
    else
      p ← probe_loop (Z.to_nat sz) t sz k hval (second_hash hval sz) hval;
      Some (p, if used s =? -1 then hval else 0).

Definition hsearch_r (k : cstring) (item_data : option cstring) (action : ACTION)
    (w : world) (h : hsearch_data) : option (Z * option Z * world * hsearch_data) :=
  t ← table h;
  '(p, first_deleted) ← hsearch_probe t (size h) k;
  match p, action, item_data with
  | Hit idx, ENTER, Some d =>
      s ← slot_at t idx;
      let '(d, w) := strdup (Some d) w in
      let h := HTab (Some (slot_set t idx (Slot (used s) (key s) d))) (size h) (filled h) in
      match d with
      | None => Some (0, None, set_errno ENOMEM w, h)
      | Some _ => Some (idx, Some idx, w, h)
      end
  | Hit idx, _, _ => Some (idx, Some idx, w, h)
  | Miss idx, ENTER, _ =>
      if filled h =? size h then Some (0, None, set_errno ENOMEM w, h)
      else
        let idx := if first_deleted =? 0 then idx else first_deleted in
        let '(k', w) := strdup (Some k) w in
        let '(d', w) := strdup item_data w in
        let t := slot_set t idx (Slot (first_hash k (size h)) k' d') in
        match k', d' with
        | Some _, Some _ =>
            Some (1, Some idx, w, HTab (Some t) (size h) (u32 (filled h + 1)))
        | _, _ => Some (0, None, set_errno ENOMEM w, HTab (Some t) (size h) (filled h))
        end
  | Miss _, FIND, _ => Some (0, None, set_errno ESRCH w, h)
  end.

(** ** [hdelete_r] *)

Definition hdelete_r (k : cstring) (do_apply : bool) (w : world) (h : hsearch_data) :
    option (Z * world * hsearch_data) :=
  '(idx, ep, w, h) ← hsearch_r k None FIND w h;
  if idx =? 0 then Some (0, set_errno ESRCH w, h)
  else
    t ← table h;
    s ← slot_at t idx;
    let w := if do_apply then (call_apply (from_slot s H_FORCE) w).2 else w in
    Some (1, w, HTab (Some (slot_set t idx (Slot (-1) (key s) (data s)))) (size h) (u32 (filled h - 1))).

End Callback.

(** ** The probe sequence *)

Definition str_ok (k : cstring) : Prop := Forall (fun c => 0 < c < 256) k.

Definition probe_at (sz : Z) (k : cstring) (n : nat) : Z :=
  Nat.iter n (next_idx sz (second_hash (first_hash k sz) sz)) (first_hash k sz).

Section ProbeSequence.
Context (sz : Z) (k : cstring) (Hprime : prime sz) (Hsz : 5 <= sz < 2 ^ 31).

Lemma first_hash_range : 1 <= first_hash k sz < sz.
Proof using Hsz.
  unfold first_hash. pose proof (Z.mod_pos_bound (hash_string k) sz ltac:(lia)).
  cases_ltb; lia.
Qed.

Lemma second_hash_range : 1 <= second_hash (first_hash k sz) sz < sz.
Proof using Hsz.
  unfold second_hash. rewrite wrap_small by lia.
  pose proof (Z.mod_pos_bound (first_hash k sz) (sz - 2) ltac:(lia)). lia.
Qed.

Lemma next_idx_spec h2 idx : 1 <= h2 < sz -> 1 <= idx <= sz ->
  1 <= next_idx sz h2 idx <= sz /\ next_idx sz h2 idx mod sz = (idx - h2) mod sz.
Proof using Hsz.
  intros Hh Hi. unfold next_idx. cases_ltb; [| lia]. rewrite wrap_small by lia.
  split; [lia |]. replace (sz + idx - h2) with (idx - h2 + 1 * sz) by lia. by rewrite Z.mod_add by lia.
Qed.

Lemma probe_at_spec n : 1 <= probe_at sz k n <= sz /\
  probe_at sz k n mod sz = (first_hash k sz - Z.of_nat n * second_hash (first_hash k sz) sz) mod sz.
Proof using Hsz.
  pose proof first_hash_range. pose proof second_hash_range.
  induction n as [| n [IHr IH]].
  - change (probe_at sz k 0) with (first_hash k sz). rewrite Z.mul_0_l, Z.sub_0_r. split; [lia | done].
  - change (probe_at sz k (S n)) with (next_idx sz (second_hash (first_hash k sz) sz) (probe_at sz k n)).
    destruct (next_idx_spec (second_hash (first_hash k sz) sz) (probe_at sz k n)) as [Hr ->]; [lia.. |].
    split; [done |]. rewrite Zminus_mod, IH, <- Zminus_mod. f_equal. lia.
Qed.

(** Indices between 1 and [size] are told apart by their residues. *)
Lemma residue_inj i j : 1 <= i <= sz -> 1 <= j <= sz -> i mod sz = j mod sz -> i = j.
Proof using Hsz.
  intros Hi Hj He. destruct (Z.eq_dec i sz) as [-> |], (Z.eq_dec j sz) as [-> |]; [done | | |].
  - rewrite Z_mod_same_full, Z.mod_small in He by lia. lia.
  - rewrite Z_mod_same_full, Z.mod_small in He by lia. lia.
  - by rewrite !Z.mod_small in He by lia.
Qed.

Lemma second_hash_rel_prime : rel_prime (second_hash (first_hash k sz) sz) sz.
Proof using Hsz Hprime. apply rel_prime_le_prime; [done |]. pose proof second_hash_range. lia. Qed.

(** Every index is visited within [size] steps. *)
Lemma probe_at_surj i : 1 <= i <= sz -> exists n, (n < Z.to_nat sz)%nat /\ probe_at sz k n = i.
Proof using Hsz Hprime.
  intros Hi. destruct (rel_prime_bezout _ _ second_hash_rel_prime) as [u v Huv].
  set (h1 := first_hash k sz) in *. set (h2 := second_hash h1 sz) in *.
  set (z := ((h1 - i) * u) mod sz). pose proof (Z.mod_pos_bound ((h1 - i) * u) sz ltac:(lia)) as Hz.
  exists (Z.to_nat z). split; [unfold z; lia |].
  destruct (probe_at_spec (Z.to_nat z)) as [Hr Hm]. apply residue_inj; [done | done |].
  rewrite Hm. fold h1 h2. rewrite Z2Nat.id by (unfold z; lia).
  rewrite Zminus_mod, <- Z.mul_mod_idemp_l with (a := z) by lia. unfold z. rewrite Z.mod_mod by lia.
  rewrite Z.mul_mod_idemp_l, <- Zminus_mod by lia.
  replace (h1 - (h1 - i) * u * h2) with (i + (h1 - i) * v * sz); [apply Z.mod_add; lia |].
  replace ((h1 - i) * u * h2) with ((h1 - i) * (u * h2)) by ring.
  replace (u * h2) with (1 - v * sz) by lia. ring.
Qed.

(** The first index is met again after [size] steps and not before. *)
Lemma probe_at_cycle : probe_at sz k (Z.to_nat sz) = first_hash k sz.
Proof using Hsz.
  destruct (probe_at_spec (Z.to_nat sz)) as [Hr Hm]. pose proof first_hash_range.
  apply residue_inj; [done | lia |]. rewrite Hm, Z2Nat.id by lia.
  replace (first_hash k sz - sz * second_hash (first_hash k sz) sz)
    with (first_hash k sz + - second_hash (first_hash k sz) sz * sz) by ring.
  apply Z.mod_add. lia.
Qed.

Lemma probe_at_no_early_cycle n : (0 < n < Z.to_nat sz)%nat -> probe_at sz k n <> first_hash k sz.
Proof using Hsz Hprime.
  intros Hn He. destruct (probe_at_spec n) as [_ Hm]. rewrite He in Hm.
  assert ((sz | Z.of_nat n * second_hash (first_hash k sz) sz)) as Hd.
  { apply Z.mod_divide; [lia |].
    replace (Z.of_nat n * second_hash (first_hash k sz) sz) with
      (first_hash k sz - (first_hash k sz - Z.of_nat n * second_hash (first_hash k sz) sz)) by ring.
    rewrite Zminus_mod, <- Hm, Z.sub_diag. apply Z.mod_0_l. lia. }
  rewrite Z.mul_comm in Hd. apply Gauss in Hd; [| apply rel_prime_sym, second_hash_rel_prime].
  apply Z.divide_pos_le in Hd; lia.
Qed.

End ProbeSequence.

(** ** The table as a map *)

Definition live (s : slot) : Prop := 0 < used s.

Definition entry_of (s : slot) : option (cstring * cstring) :=
  if 0 <? used s then k ← key s; d ← data s; Some (k, d) else None.

Definition entries (t : list slot) : list (cstring * cstring) := omap entry_of t.

(** The environment that a table stands for. *)
Definition abs (t : list slot) : gmap cstring cstring := list_to_map (entries t).

(** The slots that are not free for good: live or deleted. *)
Definition occupied (t : list slot) : Z := zlen (filter (fun s => used s <> 0) t).

Definition nonzero (t : list slot) (i : Z) : Prop := exists s, slot_at t i = Some s /\ used s <> 0.

(** The live slot [s] at index [i] holds a string pair, and its key finds it. *)
Definition live_ok (t : list slot) (sz i : Z) (s : slot) : Prop :=
  exists k d n, key s = Some k /\ data s = Some d /\ str_ok k /\ used s = first_hash k sz /\
    (n < Z.to_nat sz)%nat /\ probe_at sz k n = i /\
    forall m, (m < n)%nat -> nonzero t (probe_at sz k m).

Record table_ok (t : list slot) (sz : Z) : Prop := {
  ok_prime : prime sz;
  ok_size : 5 <= sz < 2 ^ 31;
  ok_length : length t = S (Z.to_nat sz);
  ok_slot : forall i s, slot_at t i = Some s ->
    used s = 0 \/ used s = -1 \/ (live s /\ live_ok t sz i s);
  ok_keys : NoDup (entries t).*1;
  ok_zero : exists s, slot_at t 0 = Some s /\ used s = 0 }.

(** A usable hash table. *)
Definition hwf (h : hsearch_data) (t : list slot) : Prop :=
  table h = Some t /\ table_ok t (size h) /\ filled h = Z.of_nat (base.size (abs t)).

Lemma slot_at_split t i s : slot_at t i = Some s ->
  exists l1 l2, t = l1 ++ s :: l2 /\ Z.to_nat i = length l1 /\ 0 <= i.
Proof.
  unfold slot_at. destruct (Z.leb_spec 0 i); [| done]. intros H'.
  apply list_elem_of_split_length in H' as (l1 & l2 & -> & ->). by exists l1, l2.
Qed.

Lemma slot_set_split l1 l2 s s' i : Z.to_nat i = length l1 ->
  slot_set (l1 ++ s :: l2) i s' = l1 ++ s' :: l2.
Proof. intros H. unfold slot_set. rewrite H. by rewrite insert_app_r_alt, Nat.sub_diag by lia. Qed.

Lemma slot_at_set t i j s s' : slot_at t i = Some s ->
  slot_at (slot_set t i s') j = if j =? i then Some s' else slot_at t j.
Proof.
  unfold slot_at, slot_set. destruct (Z.leb_spec 0 i) as [Hi |]; [| done]. intros Hs.
  apply lookup_lt_Some in Hs.
  destruct (Z.eqb_spec j i) as [-> | Hne].
  - rewrite (proj2 (Z.leb_le 0 i)) by lia. by rewrite list_lookup_insert_eq by done.
  - destruct (Z.leb_spec 0 j); [| done]. by rewrite list_lookup_insert_ne by lia.
Qed.

Lemma slot_at_lt t i : 0 <= i < zlen t -> exists s, slot_at t i = Some s.
Proof.
  intros Hi. unfold slot_at. rewrite (proj2 (Z.leb_le 0 i)) by lia.
  apply lookup_lt_is_Some_2. lia.
Qed.

Lemma nonzero_set t i j s s' : slot_at t i = Some s -> used s' <> 0 -> nonzero t j ->
  nonzero (slot_set t i s') j.
Proof.
  intros Hs Hs' (x & Hx & Hx'). unfold nonzero. rewrite (slot_at_set t i j s s' Hs).
  destruct (j =? i); by eexists.
Qed.

(** What a change of one slot does to the entries. *)
Lemma entries_set t i s s' : slot_at t i = Some s -> exists o,
  entries t ≡ₚ option_list (entry_of s) ++ o /\
  entries (slot_set t i s') ≡ₚ option_list (entry_of s') ++ o.
Proof.
  intros (l1 & l2 & -> & Hi & _)%slot_at_split. rewrite (slot_set_split _ _ _ _ _ Hi).
  exists (entries l1 ++ entries l2). unfold entries. rewrite !omap_app. cbn [omap list_omap].
  split.
  - destruct (entry_of s); cbn; [by rewrite Permutation_middle | done].
  - destruct (entry_of s'); cbn; [by rewrite Permutation_middle | done].
Qed.

Lemma occupied_set t i s s' : slot_at t i = Some s ->
  occupied (slot_set t i s') =
    occupied t - (if used s =? 0 then 0 else 1) + (if used s' =? 0 then 0 else 1).
Proof.
  intros (l1 & l2 & -> & Hi & _)%slot_at_split. rewrite (slot_set_split _ _ _ _ _ Hi).
  unfold occupied. rewrite !filter_app, !filter_cons, !length_app.
  destruct (Z.eqb_spec (used s) 0), (Z.eqb_spec (used s') 0);
    repeat case_decide; cbn [length]; try done; lia.
Qed.

Lemma entries_perm_abs t l : NoDup (entries t).*1 -> entries t ≡ₚ l -> abs t = list_to_map l.
Proof. intros. by apply list_to_map_proper. Qed.

Lemma live_entry t sz i s k : table_ok t sz -> slot_at t i = Some s -> live s -> key s = Some k ->
  exists d, data s = Some d /\ entry_of s = Some (k, d) /\ abs t !! k = Some d.
Proof.
  intros Hok Hs Hl Hk. destruct (ok_slot _ _ Hok i s Hs) as [H | [H | [_ Hlo]]]; [unfold live in *; lia.. |].
  destruct Hlo as (k' & d & _ & Hk' & Hd & _). exists d.
  assert (entry_of s = Some (k, d)) as He.
  { unfold entry_of. rewrite (proj2 (Z.ltb_lt 0 (used s))) by done. by rewrite Hk, Hd. }
  split_and!; [done | done |]. destruct (entries_set t i s s Hs) as (o & Ho & _).
  rewrite (entries_perm_abs t _ (ok_keys _ _ Hok) Ho), He. cbn. apply lookup_insert_eq.
Qed.

Lemma abs_live t k d : abs t !! k = Some d ->
  exists i s, slot_at t i = Some s /\ live s /\ key s = Some k /\ data s = Some d.
Proof.
  intros H. apply elem_of_list_to_map_2 in H. unfold entries in H.
  apply list_elem_of_omap in H as (s & Hs & He). apply list_elem_of_lookup in Hs as [i Hi].
  exists (Z.of_nat i), s. unfold entry_of in He. destruct (Z.ltb_spec 0 (used s)) as [Hl |]; [| done].
  destruct (key s) as [k' |]; [| done]. destruct (data s) as [d' |]; [| done].
  cbn in He. simplify_eq. split; [| done].
  unfold slot_at. rewrite (proj2 (Z.leb_le 0 (Z.of_nat i))) by lia. by rewrite Nat2Z.id.
Qed.

(** ** Searching *)

Section Search.
Context (t : list slot) (sz : Z) (k : cstring) (Hok : table_ok t sz) (Hk : str_ok k).

Definition is_entry (s : slot) : Prop := live s /\ key s = Some k.

(** Along the first [j] steps no slot is free and none holds the key. *)
Definition passed (j : nat) : Prop :=
  forall m, (m < j)%nat -> exists s, slot_at t (probe_at sz k m) = Some s /\ used s <> 0 /\ ~ is_entry s.

Lemma index_slot i : 1 <= i <= sz -> exists s, slot_at t i = Some s.
Proof using Hok. intros Hi. apply slot_at_lt. rewrite (ok_length _ _ Hok). lia. Qed.

Lemma slot_matches_spec i s : slot_at t i = Some s ->
  exists b : bool, slot_matches s k (first_hash k sz) = Some b /\ (b = true <-> is_entry s).
Proof using Hok Hk.
  intros Hs. pose proof (ok_size _ _ Hok) as Hsz. pose proof (first_hash_range sz k Hsz) as Hh.
  unfold slot_matches, is_entry, live.
  destruct (ok_slot _ _ Hok i s Hs) as [-> | [-> | [Hl (k' & d & n & Hk' & Hd & Hsk & Hu & Hn)]]].
  - exists false. rewrite wrap_small, (proj2 (Z.eqb_neq 0 _)) by lia. split; [done |]. split; [done | lia].
  - exists false. change (u32 (-1)) with (2 ^ 32 - 1).
    rewrite (proj2 (Z.eqb_neq (2 ^ 32 - 1) _)) by lia. split; [done |]. split; [done | lia].
  - rewrite Hk', Hu. pose proof (first_hash_range sz k' Hsz). rewrite wrap_small by lia.
    destruct (Z.eqb_spec (first_hash k' sz) (first_hash k sz)) as [He | He]; cbn [mbind option_bind].
    + eexists. split; [done |]. rewrite Z.eqb_eq, cstrcmp_zero by done.
      split; [intros ->; split; [lia | done] | intros [_ [=]]; done].
    + exists false. split; [done |]. split; [done | intros [_ [= ->]]; done].
Qed.

Lemma probe_loop_spec fuel : forall n, (n < Z.to_nat sz)%nat -> (Z.to_nat sz - n = fuel)%nat ->
  passed (S n) -> exists r,
  probe_loop fuel t sz k (first_hash k sz) (second_hash (first_hash k sz) sz) (probe_at sz k n) = Some r /\
  match r with
  | Hit idx => exists j s, (j < Z.to_nat sz)%nat /\ idx = probe_at sz k j /\ slot_at t idx = Some s /\ is_entry s
  | Miss idx =>
      (exists j s, (j < Z.to_nat sz)%nat /\ idx = probe_at sz k j /\ slot_at t idx = Some s /\
         used s = 0 /\ passed j) \/
      (idx = first_hash k sz /\ passed (Z.to_nat sz))
  end.
Proof using Hok Hk.
  pose proof (ok_size _ _ Hok) as Hsz. pose proof (ok_prime _ _ Hok) as Hp.
  induction fuel as [| fuel IH]; intros n Hn Hf Hpass; [lia |]. cbn [probe_loop].
  change (next_idx sz (second_hash (first_hash k sz) sz) (probe_at sz k n)) with (probe_at sz k (S n)).
  destruct (decide (S n = Z.to_nat sz)) as [He | Hne].
  { rewrite He, probe_at_cycle, Z.eqb_refl by done. eexists. split; [done |]. right. by rewrite <- He. }
  rewrite (proj2 (Z.eqb_neq _ _)) by (apply probe_at_no_early_cycle; [done | done | lia]).
  destruct (index_slot (probe_at sz k (S n))) as [s Hs]; [apply (probe_at_spec sz k Hsz) |].
  rewrite Hs. cbn [mbind option_bind].
  destruct (slot_matches_spec _ _ Hs) as (b & -> & Hb). cbn [mbind option_bind].
  destruct b.
  { eexists. split; [done |]. exists (S n), s. split_and!; [lia | done | done | by apply Hb]. }
  destruct (Z.eqb_spec (used s) 0) as [H0 | H0].
  { eexists. split; [done |]. left. exists (S n), s. split_and!; [lia | done | done | done | done]. }
  apply IH; [lia | lia |]. intros m Hm. destruct (decide (m = S n)) as [-> | Hne']; [| apply Hpass; lia].
  exists s. split_and!; [done | done |]. intros He. by apply Hb in He.
Qed.

(** No live slot holds the key once the search has passed up to a free slot. *)
Lemma passed_absent j : passed j ->
  (j = Z.to_nat sz \/ exists s, slot_at t (probe_at sz k j) = Some s /\ used s = 0) ->
  abs t !! k = None.
Proof using Hok.
  intros Hp Hj. apply eq_None_not_Some. intros [d Hd].
  apply abs_live in Hd as (i & s & Hs & Hl & Hks & _).
  destruct (ok_slot _ _ Hok i s Hs) as [H | [H | [_ Hlo]]]; [unfold live in *; lia.. |].
  destruct Hlo as (k' & d' & n & Hk' & _ & _ & _ & Hn & <- & Hbefore). simplify_eq.
  destruct (decide (n < j)%nat) as [Hlt | Hge].
  { destruct (Hp n Hlt) as (s' & Hs' & _ & Hne). simplify_eq. by apply Hne. }
  destruct Hj as [-> | (s' & Hs' & H0)]; [lia |].
  destruct (decide (n = j)) as [-> | Hne]; [unfold live in *; simplify_eq; lia |].
  destruct (Hbefore j) as (s'' & Hs'' & Hn0); [lia |]. simplify_eq.
Qed.

Definition search_result (p : probe) (fd : Z) : Prop :=
  match p with
  | Hit idx => exists s d, 1 <= idx <= sz /\ slot_at t idx = Some s /\ live s /\ key s = Some k /\
      data s = Some d /\ abs t !! k = Some d
  | Miss idx => abs t !! k = None /\
      (fd = 0 \/ (fd = first_hash k sz /\ exists s, slot_at t fd = Some s /\ used s = -1)) /\
      ((exists j s, (j < Z.to_nat sz)%nat /\ idx = probe_at sz k j /\ slot_at t idx = Some s /\
          used s = 0 /\ passed j) \/
       (forall i, 1 <= i <= sz -> nonzero t i))
  end.

Lemma hsearch_probe_spec : exists p fd, hsearch_probe t sz k = Some (p, fd) /\ search_result p fd.
Proof using Hok Hk.
  pose proof (ok_size _ _ Hok) as Hsz. pose proof (first_hash_range sz k Hsz) as Hh.
  unfold hsearch_probe. destruct (index_slot (first_hash k sz)) as [s Hs]; [lia |].
  rewrite Hs. cbn [mbind option_bind]. destruct (Z.eqb_spec (used s) 0) as [H0 | H0].
  { exists (Miss (first_hash k sz)), 0. split; [done |]. split_and!; [| by left |].
    - apply (passed_absent 0); [intros m Hm; lia |]. right. by exists s.
    - left. exists 0%nat, s. split_and!; [lia | done | done | done | intros m Hm; lia]. }
  destruct (slot_matches_spec _ _ Hs) as (b & -> & Hb). cbn [mbind option_bind]. destruct b.
  { destruct Hb as [Hb _]. destruct (Hb eq_refl) as [Hl Hks].
    destruct (live_entry _ _ _ _ _ Hok Hs Hl Hks) as (d & Hd & _ & Ha).
    exists (Hit (first_hash k sz)), 0. split; [done |]. exists s, d. split_and!; done || lia. }
  destruct (probe_loop_spec (Z.to_nat sz) 0) as (r & Hr & Hcase); [lia | lia | |].
  { intros m Hm. assert (m = 0%nat) as -> by lia. exists s. split_and!; [done | done |].
    intros He. by apply Hb in He. }
  change (probe_at sz k 0) with (first_hash k sz) in Hr. rewrite Hr. cbn [mbind option_bind].
  eexists r, _. split; [done |]. destruct r as [idx | idx].
  - destruct Hcase as (j & x & Hj & -> & Hx & Hl & Hks).
    destruct (live_entry _ _ _ _ _ Hok Hx Hl Hks) as (d & Hd & _ & Ha).
    exists x, d. split_and!; try done; apply (probe_at_spec sz k Hsz).
  - split_and!.
    + destruct Hcase as [(j & x & Hj & -> & Hx & Hx0 & Hp) | [-> Hp]].
      * apply (passed_absent j Hp). right. by exists x.
      * apply (passed_absent _ Hp). by left.
    + destruct (Z.eqb_spec (used s) (-1)); [right | by left]. split; [done |]. by exists s.
    + destruct Hcase as [Hc | [-> Hp]]; [by left | right].
      intros i Hi. destruct (probe_at_surj sz k (ok_prime _ _ Hok) Hsz i Hi) as (n & Hn & <-).
      destruct (Hp n Hn) as (x & Hx & Hx0 & _). by exists x.
Qed.

End Search.

(** ** Changing a slot keeps the table usable *)

Lemma table_ok_set t sz i s s' : table_ok t sz -> 1 <= i <= sz -> slot_at t i = Some s ->
  used s' <> 0 -> used s' = -1 \/ (live s' /\ live_ok t sz i s') ->
  NoDup (entries (slot_set t i s')).*1 -> table_ok (slot_set t i s') sz.
Proof.
  intros Hok Hi Hs Hu Hs' Hnd.
  assert (forall j x, live_ok t sz j x -> live_ok (slot_set t i s') sz j x) as Hmono.
  { intros j x (k & d & n & H1 & H2 & H3 & H4 & H5 & H6 & H7). exists k, d, n. split_and!; try done.
    intros m Hm. by eapply nonzero_set, H7. }
  split; try apply Hok.
  - unfold slot_set. rewrite length_insert. apply Hok.
  - intros j x. rewrite (slot_at_set t i j s s' Hs). destruct (Z.eqb_spec j i) as [-> | Hne].
    + intros [= <-]. right. destruct Hs' as [| [Hl Hlo]]; [by left | right; auto].
    + intros Hx. destruct (ok_slot _ _ Hok j x Hx) as [| [| [Hl Hlo]]]; auto.
  - done.
  - rewrite (slot_at_set t i 0 s s' Hs), (proj2 (Z.eqb_neq 0 i)) by lia. apply Hok.
Qed.

Lemma live_reach t sz i s : table_ok t sz -> slot_at t i = Some s -> live s -> live_ok t sz i s.
Proof.
  intros Hok Hs Hl. unfold live in Hl.
  by destruct (ok_slot _ _ Hok i s Hs) as [H | [H | [_ H]]]; [lia | lia |].
Qed.

(** Entries after a new value, a new entry and a deletion. *)
Lemma set_data t sz i s k d d' : table_ok t sz -> 1 <= i <= sz -> slot_at t i = Some s -> live s ->
  key s = Some k -> data s = Some d ->
  let t' := slot_set t i (Slot (used s) (Some k) (Some d')) in
  table_ok t' sz /\ abs t' = <[k := d']> (abs t) /\ occupied t' = occupied t.
Proof.
  intros Hok Hi Hs Hl Hk Hd t'. pose proof (live_reach _ _ _ _ Hok Hs Hl) as Hlo.
  pose proof Hl as Hu. unfold live in Hu.
  destruct (entries_set t i s (Slot (used s) (Some k) (Some d')) Hs) as (o & Ho & Ho').
  unfold entry_of in Ho, Ho'. cbn [used key data] in Ho'. rewrite Hk, Hd in Ho.
  rewrite (proj2 (Z.ltb_lt 0 (used s))) in Ho, Ho' by done. cbn in Ho, Ho'.
  pose proof (ok_keys _ _ Hok) as Hnd. pose proof Hnd as Hnd1. rewrite Ho in Hnd1.
  assert (NoDup (entries t').*1) as Hnd' by (unfold t'; rewrite Ho'; done).
  split_and!.
  - apply (table_ok_set t sz i s); [done | done | done | cbn; lia | right; split; [done |] | done].
    destruct Hlo as (k' & d0 & n & H1 & H2 & H3). simplify_eq. by exists k, d', n.
  - rewrite (entries_perm_abs t _ Hnd Ho), (entries_perm_abs t' _ Hnd' Ho'). cbn.
    by rewrite insert_insert_eq.
  - unfold t'. rewrite (occupied_set t i s) by done. cbn [used].
    rewrite (proj2 (Z.eqb_neq (used s) 0)) by lia. lia.
Qed.

Lemma set_new t sz i s k d : table_ok t sz -> 1 <= i <= sz -> slot_at t i = Some s -> ~ live s ->
  abs t !! k = None -> str_ok k ->
  (exists n, (n < Z.to_nat sz)%nat /\ probe_at sz k n = i /\
     forall m, (m < n)%nat -> nonzero t (probe_at sz k m)) ->
  let t' := slot_set t i (Slot (first_hash k sz) (Some k) (Some d)) in
  table_ok t' sz /\ abs t' = <[k := d]> (abs t) /\
  occupied t' = occupied t + (if used s =? 0 then 1 else 0).
Proof.
  intros Hok Hi Hs Hl Ha Hk Hreach t'. unfold live in Hl.
  pose proof (first_hash_range sz k (ok_size _ _ Hok)) as Hh.
  destruct (entries_set t i s (Slot (first_hash k sz) (Some k) (Some d)) Hs) as (o & Ho & Ho').
  unfold entry_of in Ho, Ho'. cbn [used key data] in Ho'.
  rewrite (proj2 (Z.ltb_ge 0 (used s))) in Ho by lia.
  rewrite (proj2 (Z.ltb_lt 0 _)) in Ho' by lia. cbn in Ho, Ho'.
  pose proof (ok_keys _ _ Hok) as Hnd. pose proof Hnd as Hnd1. rewrite Ho in Hnd1.
  rewrite (entries_perm_abs t _ Hnd Ho) in *. apply not_elem_of_list_to_map in Ha.
  assert (NoDup (entries t').*1) as Hnd' by (unfold t'; rewrite Ho'; cbn; by constructor).
  split_and!.
  - apply (table_ok_set t sz i s); [done | done | done | cbn; lia | right; split; [unfold live; cbn; lia |] | done].
    destruct Hreach as (n & H1 & H2 & H3). by exists k, d, n.
  - by rewrite (entries_perm_abs t' _ Hnd' Ho').
  - unfold t'. rewrite (occupied_set t i s) by done. cbn [used].
    rewrite (proj2 (Z.eqb_neq (first_hash k sz) 0)) by lia. destruct (used s =? 0); lia.
Qed.

Lemma set_deleted t sz i s k d : table_ok t sz -> 1 <= i <= sz -> slot_at t i = Some s -> live s ->
  key s = Some k -> data s = Some d ->
  let t' := slot_set t i (Slot (-1) (key s) (data s)) in
  table_ok t' sz /\ abs t' = delete k (abs t) /\ occupied t' = occupied t.
Proof.
  intros Hok Hi Hs Hl Hk Hd t'. unfold live in Hl.
  destruct (entries_set t i s (Slot (-1) (key s) (data s)) Hs) as (o & Ho & Ho').
  unfold entry_of in Ho, Ho'. cbn [used key data] in Ho'. rewrite Hk, Hd in Ho.
  rewrite (proj2 (Z.ltb_lt 0 (used s))) in Ho by done. cbn in Ho, Ho'.
  pose proof (ok_keys _ _ Hok) as Hnd. pose proof Hnd as Hnd1. rewrite Ho in Hnd1. cbn in Hnd1.
  apply NoDup_cons in Hnd1 as [Hnotin Hnd1].
  assert (NoDup (entries t').*1) as Hnd' by (unfold t'; rewrite Ho'; done).
  split_and!.
  - apply (table_ok_set t sz i s); [done | done | done | done | by left | done].
  - rewrite (entries_perm_abs t _ Hnd Ho), (entries_perm_abs t' _ Hnd' Ho'). cbn.
    rewrite delete_insert_id; [done |]. by apply not_elem_of_list_to_map.
  - unfold t'. rewrite (occupied_set t i s) by done. cbn [used].
    rewrite (proj2 (Z.eqb_neq (used s) 0)) by lia. cbn. lia.
Qed.

(** ** Counting *)

Lemma filter_all {A} (P : A -> Prop) `{!forall x, Decision (P x)} l : Forall P l -> filter P l = l.
Proof. induction 1; [done |]. rewrite filter_cons. case_decide; [by f_equal | done]. Qed.

Lemma entries_le_occupied t : zlen (entries t) <= occupied t.
Proof.
  unfold occupied, entries. induction t as [| s t IH]; [done |]. rewrite filter_cons. cbn [omap list_omap].
  unfold entry_of at 1. destruct (Z.ltb_spec 0 (used s)).
  - case_decide; [| lia]. destruct (key s), (data s); cbn; cbn [omap list_omap] in IH; lia.
  - case_decide; cbn; lia.
Qed.

Lemma abs_size t : NoDup (entries t).*1 -> Z.of_nat (base.size (abs t)) = zlen (entries t).
Proof.
  intros Hnd. unfold abs. by rewrite map_size_list_to_map.
Qed.

Lemma occupied_zero t i s : slot_at t i = Some s -> used s = 0 -> occupied t < zlen t.
Proof.
  intros Hs H0. pose proof (occupied_set t i s (Slot 1 None None) Hs) as H. rewrite H0 in H. cbn in H.
  pose proof (length_filter (fun s => used s <> 0) (slot_set t i (Slot 1 None None))) as Hl.
  unfold occupied in *. unfold slot_set in *. rewrite length_insert in Hl. lia.
Qed.

(** A table with fewer occupied slots than its size has a free one. *)
Lemma occupied_room t sz : table_ok t sz -> occupied t < sz -> ~ (forall i, 1 <= i <= sz -> nonzero t i).
Proof.
  intros Hok Ho Hall. destruct t as [| s0 t]; [by pose proof (ok_length _ _ Hok) |].
  assert (filter (fun s => used s <> 0) t = t) as Hf.
  { apply filter_all, Forall_lookup. intros i s Hi. apply lookup_lt_Some in Hi as Hlt.
    pose proof (ok_length _ _ Hok) as Hl. cbn in Hl. pose proof (ok_size _ _ Hok).
    destruct (Hall (Z.of_nat (S i))) as (x & Hx & Hn); [lia |]. unfold slot_at in Hx.
    rewrite (proj2 (Z.leb_le 0 _)), Nat2Z.id in Hx by lia.
    change ((s0 :: t) !! S i) with (t !! i) in Hx. simplify_eq. exact Hn. }
  unfold occupied in Ho. rewrite filter_cons, Hf in Ho. pose proof (ok_length _ _ Hok) as Hl.
  pose proof (ok_size _ _ Hok). cbn in Hl. case_decide; cbn [length] in Ho; lia.
Qed.

Lemma abs_size_bound t sz : table_ok t sz -> occupied t < sz -> Z.of_nat (base.size (abs t)) < sz.
Proof.
  intros Hok Ho. rewrite abs_size by apply Hok. pose proof (entries_le_occupied t). lia.
Qed.

(** ** The operations on a usable table *)

Lemma hsearch_find h t k w od : hwf h t -> str_ok k ->
  match abs t !! k with
  | Some d => exists idx s, hsearch_r k od FIND w h = Some (idx, Some idx, w, h) /\ 1 <= idx <= size h /\
      slot_at t idx = Some s /\ live s /\ key s = Some k /\ data s = Some d
  | None => hsearch_r k od FIND w h = Some (0, None, set_errno ESRCH w, h)
  end.
Proof.
  intros (Ht & Hok & Hf) Hk. unfold hsearch_r. rewrite Ht. cbn [mbind option_bind].
  destruct (hsearch_probe_spec t (size h) k Hok Hk) as (p & fd & -> & Hp). cbn [mbind option_bind].
  destruct p as [idx | idx]; cbn [search_result] in Hp.
  - destruct Hp as (s & d & Hi & Hs & Hl & Hks & Hd & ->). exists idx, s. split_and!; done || lia.
  - by destruct Hp as (-> & _).
Qed.

Lemma strdup_ok s w : allocs w = [] -> strdup (Some s) w = (Some s, w).
Proof. intros Hw. unfold strdup, allocate. by rewrite Hw. Qed.

Lemma hsearch_enter h t k d w : hwf h t -> str_ok k -> occupied t < size h -> allocs w = [] ->
  exists r idx s h' t', hsearch_r k (Some d) ENTER w h = Some (r, Some idx, w, h') /\ 1 <= r /\
    hwf h' t' /\ size h' = size h /\ abs t' = <[k := d]> (abs t) /\ occupied t' <= occupied t + 1 /\
    slot_at t' idx = Some s /\ data s = Some d.
Proof.
  intros (Ht & Hok & Hf) Hk Ho Hw. unfold hsearch_r. rewrite Ht. cbn [mbind option_bind].
  pose proof (ok_size _ _ Hok) as Hsz. pose proof (first_hash_range (size h) k Hsz) as Hh.
  destruct (hsearch_probe_spec t (size h) k Hok Hk) as (p & fd & -> & Hp). cbn [mbind option_bind].
  destruct p as [idx | idx]; cbn [search_result] in Hp.
  - destruct Hp as (s & d0 & Hi & Hs & Hl & Hks & Hd & Ha). rewrite Hs. cbn [mbind option_bind]. rewrite Hks, (strdup_ok _ w Hw).
    destruct (set_data t (size h) idx s k d0 d Hok Hi Hs Hl Hks Hd) as (Hok' & Ha' & Ho').
    eexists idx, idx, _, _, _. split; [done |]. split; [lia |]. unfold hwf. cbn [table size filled]. split_and!; try done.
    + rewrite Ha', Hf, map_size_insert_Some by done. done.
    + lia.
    + by rewrite (slot_at_set t idx idx s), Z.eqb_refl by done.
    + done.
  - destruct Hp as (Ha & Hfd & Hcase). pose proof (abs_size_bound _ _ Hok Ho) as Hsize.
    rewrite Hf, (proj2 (Z.eqb_neq _ _)), (strdup_ok k w Hw), (strdup_ok d w Hw) by lia.
    set (i := if fd =? 0 then idx else fd).
    assert (exists s, 1 <= i <= size h /\ slot_at t i = Some s /\ ~ live s /\ used s <= 0 /\
      exists n, (n < Z.to_nat (size h))%nat /\ probe_at (size h) k n = i /\
        forall m, (m < n)%nat -> nonzero t (probe_at (size h) k m)) as (s & Hi & Hs & Hnl & Hu & Hr).
    { destruct Hcase as [(j & s & Hj & Hidx & Hs & H0 & Hpass) | Hall]; [| by apply occupied_room in Hall].
      unfold live, i. destruct Hfd as [-> | (-> & s' & Hs' & Hu')].
      - cbn. exists s. rewrite Hidx in *. split; [apply (probe_at_spec (size h) k Hsz) |].
        split_and!; [done | lia | lia |]. exists j. split_and!; [done | done |].
        intros m Hm. destruct (Hpass m Hm) as (x & Hx & Hx0 & _). by exists x.
      - rewrite (proj2 (Z.eqb_neq (first_hash k (size h)) 0)) by lia. exists s'.
        split_and!; [lia | lia | done | lia | lia |]. exists 0%nat. split_and!; [lia | done | lia]. }
    destruct (set_new t (size h) i s k d Hok Hi Hs Hnl Ha Hk Hr) as (Hok' & Ha' & Ho').
    eexists 1, i, _, _, _. split; [done |]. split; [lia |]. unfold hwf. cbn [table size filled]. split_and!; try done.
    + rewrite Ha', map_size_insert_None, wrap_small by (done || lia). lia.
    + destruct (used s =? 0); lia.
    + by rewrite (slot_at_set t i i s), Z.eqb_refl by done.
    + done.
Qed.

Lemma hdelete_spec apply h t k da w : hwf h t -> str_ok k -> exists w' h' t',
  hdelete_r apply k da w h =
    Some ((if bool_decide (is_Some (abs t !! k)) then 1 else 0), w', h') /\
  hwf h' t' /\ size h' = size h /\ abs t' = delete k (abs t) /\ occupied t' = occupied t /\
  allocs w' = allocs w /\ (da = false -> applied w' = applied w).
Proof.
  intros Hwf Hk. pose proof (hsearch_find h t k w None Hwf Hk) as Hfind. unfold hdelete_r.
  pose proof Hwf as (Ht & Hok & Hf).
  destruct (abs t !! k) as [d |] eqn:Ha.
  - destruct Hfind as (idx & s & -> & Hi & Hs & Hl & Hks & Hd). cbn [mbind option_bind].
    rewrite (proj2 (Z.eqb_neq idx 0)), Ht by lia. cbn [mbind option_bind]. rewrite Hs. cbn [mbind option_bind].
    rewrite bool_decide_true by done.
    destruct (set_deleted t (size h) idx s k d Hok Hi Hs Hl Hks Hd) as (Hok' & Ha' & Ho').
    eexists _, _, _. split; [done |]. unfold hwf. cbn [table size filled]. split_and!; try done.
    + rewrite Ha', Hf, map_size_delete, Ha. cbn [is_Some].
      assert (base.size (abs t) <> 0%nat).
      { intros H0. apply map_size_empty_inv in H0. by rewrite H0, lookup_empty in Ha. }
      pose proof (ok_size _ _ Hok). pose proof (abs_size t (ok_keys _ _ Hok)).
      pose proof (entries_le_occupied t). pose proof (length_filter (fun s => used s <> 0) t).
      unfold occupied in *. pose proof (ok_length _ _ Hok). rewrite wrap_small by lia. lia.
    + destruct da; [| done]. unfold call_apply. by destruct apply.
    + by intros ->.
  - rewrite Hfind. cbn [mbind option_bind]. cbn [Z.eqb]. rewrite bool_decide_false by (intros [? [=]]).
    eexists _, h, t. split; [done |]. split_and!; try done. by rewrite delete_id.
Qed.

(** ** [isprime] and [hcreate_r] *)

(** No odd divisor of [n] below [d], except 1. *)
Definition no_small_divisor (n d : Z) : Prop := forall q, 3 <= q < d -> Z.odd q = true -> ~ (q | n).

Lemma odd_divisor q n : Z.odd n = true -> (q | n) -> Z.odd q = true.
Proof. intros Hn [m ->]. rewrite Z.odd_mul in Hn. by apply andb_true_iff in Hn as [_ Hn]. Qed.

Lemma prime_by_trial n d : 3 < n -> Z.odd n = true -> 3 <= d -> n <= d * d ->
  no_small_divisor n d -> ~ (d | n) -> prime n.
Proof.
  intros Hn Hodd Hd Hdd Hsmall Hnd. apply prime_alt. split; [lia |].
  intros q Hq Hdiv. pose proof (odd_divisor q n Hodd Hdiv) as Hqo.
  assert (forall f, 1 < f -> f <= d -> (f | n) -> False) as Hno.
  { intros f Hf1 Hfd Hf. destruct (Z.eq_dec f d) as [-> | Hne]; [done |].
    pose proof (odd_divisor f n Hodd Hf) as Hfo. apply (Hsmall f); [| done | done].
    destruct (Z.eq_dec f 2) as [-> |]; [done | lia]. }
  destruct Hdiv as [m Hm]. destruct (Z.le_gt_cases q d) as [Hle | Hgt].
  - apply (Hno q); [lia | done | by exists m].
  - apply (Hno m); [nia | nia | exists q; lia].
Qed.

Lemma isprime_loop_spec n fuel : 3 < n <= 65535 * 65535 -> Z.odd n = true ->
  forall d, 3 <= d -> Z.odd d = true -> d = 3 \/ (d - 2) * (d - 2) < n ->
  65537 < d + 2 * Z.of_nat fuel -> no_small_divisor n d ->
  exists d', isprime_loop fuel n d = Some d' /\ 3 <= d' /\ (n mod d' <> 0 <-> prime n).
Proof.
  intros Hn Hodd. induction fuel as [| fuel IH]; intros d Hd Hdo Hdd Hf Hs; [nia |].
  cbn [isprime_loop]. assert (d <= 65535) as Hdm.
  { destruct Hdd as [-> | Hdd]; [lia |]. assert (d < 65537) by nia.
    destruct (Z.eq_dec d 65536) as [-> |]; [done | lia]. }
  rewrite (wrap_small 32 (d * d)) by nia.
  destruct (Z.eqb_spec (n mod d) 0) as [H0 | H0].
  - rewrite andb_false_r. exists d. split; [done |]. split; [done |]. split; [done |].
    intros Hp. exfalso. apply Z.mod_divide in H0; [| lia].
    destruct (prime_divisors n Hp d H0) as [H | [H | [H | H]]]; [lia | lia | | lia].
    subst n. destruct Hdd as [-> |]; [lia | nia].
  - rewrite andb_true_r. destruct (Z.ltb_spec (d * d) n) as [Hlt | Hge].
    + rewrite wrap_small by lia. apply IH; [lia | | right; by replace (d + 2 - 2) with d by lia | lia |].
      * by rewrite Z.odd_add, Hdo.
      * intros q Hq Hqo Hdiv. destruct (Z.eq_dec q d) as [-> |]; [by apply Z.mod_divide in Hdiv; [| lia] |].
        destruct (Z.eq_dec q (d + 1)) as [-> |]; [by rewrite Z.odd_add, Hdo in Hqo |].
        apply (Hs q); [lia | done | done].
    + exists d. split; [done |]. split; [done |]. split; [intros _ | done].
      apply (prime_by_trial n d); [lia | done | done | lia | done |].
      intros Hdiv. apply H0. by apply Z.mod_divide; [lia |].
Qed.

Lemma isprime_spec n : 3 < n <= 65535 * 65535 -> Z.odd n = true ->
  exists b : bool, isprime n = Some b /\ (b = true <-> prime n).
Proof.
  intros Hn Hodd. unfold isprime.
  destruct (isprime_loop_spec n (Z.to_nat 0x8000) Hn Hodd 3) as (d & -> & Hd & Hp);
    [lia | done | by left | lia | intros q Hq; lia |].
  cbn [mbind option_bind]. eexists. split; [done |]. rewrite <- Hp.
  rewrite negb_true_iff, Z.eqb_neq. done.
Qed.

(** The trial division of [isprime], with its 32-bit square, stops within
    2^15 divisors and decides primality for every odd number above 3 whose
    divisors' squares do not wrap around. *)
Theorem isprime_correct n : 3 < n <= 65535 * 65535 -> Z.odd n = true ->
  (isprime n = Some true /\ prime n) \/ (isprime n = Some false /\ ~ prime n).
Proof.
  intros Hn Hodd. destruct (isprime_spec n Hn Hodd) as (b & -> & Hb).
  destruct b; [left | right]; split; try done; [by apply Hb |]. intros Hp. by apply Hb in Hp.
Qed.

Lemma isprime_3 : isprime 3 = Some false.
Proof. vm_compute. reflexivity. Qed.

#[local] Opaque isprime.

Lemma next_prime_spec fuel : forall n sz, 3 <= n -> Z.odd n = true ->
  n + 2 * Z.of_nat fuel <= 65535 * 65535 -> next_prime fuel n = Some sz ->
  prime sz /\ 5 <= sz <= n + 2 * Z.of_nat fuel /\ n <= sz /\ forall p, prime p -> 5 <= p -> n <= p -> sz <= p.
Proof.
  induction fuel as [| fuel IH]; intros n sz Hn Hodd Hf He; [done |]. cbn [next_prime] in He.
  destruct (Z.eq_dec n 3) as [-> | Hn3].
  { rewrite isprime_3 in He. cbn [mbind option_bind] in He.
    change (u32 (3 + 2)) with 5 in He. apply IH in He; [| lia | reflexivity | lia].
    destruct He as (H1 & H2 & H3 & H4). split_and!; [done | lia | lia | lia |].
    intros p Hp Hp5 _. apply H4; [done | done | lia]. }
  destruct (isprime_spec n) as (b & Hb & Hp); [lia | done |]. rewrite Hb in He. cbn [mbind option_bind] in He.
  destruct b.
  { injection He as <-. split_and!; [by apply Hp | | lia | lia | done].
    clear Hb. destruct (Z.eq_dec n 4) as [-> |]; [discriminate Hodd | lia]. }
  rewrite wrap_small in He by lia. apply IH in He; [| lia | by rewrite Z.odd_add, Hodd | lia].
  destruct He as (H1 & H2 & H3 & H4). split_and!; [done | lia | lia | lia |].
  intros p Hp' Hp5 Hnp. apply H4; [done | done |].
  destruct (Z.eq_dec p n) as [-> |]; [by apply Hp in Hp' |].
  destruct (Z.eq_dec p (n + 1)) as [-> |]; [| lia].
  exfalso. assert ((2 | n + 1)) as Hdiv.
  { apply Z.mod_divide; [lia |]. rewrite Zmod_odd, Z.odd_add, Hodd. done. }
  apply (prime_divisors _ Hp') in Hdiv. lia.
Qed.

Definition has_next_prime (n : Z) : bool :=
  match next_prime prime_gap (Z.lor n 1) with Some _ => true | None => false end.

Lemma has_next_prime_upto : forallb has_next_prime (seqZ 2 511) = true.
Proof. vm_compute. reflexivity. Qed.

Lemma next_prime_total nel : 2 <= nel <= 512 -> exists sz, next_prime prime_gap (Z.lor nel 1) = Some sz.
Proof.
  intros Hn. pose proof has_next_prime_upto as H. rewrite forallb_forall in H. specialize (H nel).
  rewrite <- list_elem_of_In, elem_of_seqZ in H. specialize (H ltac:(lia)). unfold has_next_prime in H.
  destruct (next_prime prime_gap (Z.lor nel 1)) as [sz |]; [by exists sz | discriminate].
Qed.

Lemma lor_1_odd n : 0 <= n -> Z.odd (Z.lor n 1) = true /\ n <= Z.lor n 1 <= n + 1.
Proof.
  intros Hn. split.
  - rewrite <- Z.bit0_odd, Z.lor_spec. change (Z.testbit 1 0) with true. apply orb_true_r.
  - destruct (Z.odd n) eqn:Ho.
    + assert (Z.lor n 1 = n) as ->; [| lia]. apply Z.bits_inj'. intros i Hi. rewrite Z.lor_spec.
      destruct (Z.eq_dec i 0) as [-> |]; [by rewrite Z.bit0_odd, Ho |].
      change 1 with (2 ^ 0). rewrite Z.pow2_bits_false by lia. apply orb_false_r.
    + assert (Z.land n 1 = 0) as Hl.
      { change 1 with (Z.ones 1). rewrite Z.land_ones by lia. change (2 ^ 1) with 2. by rewrite Zmod_odd, Ho. }
      rewrite <- Z.lxor_lor, <- Z.add_nocarry_lxor by done. lia.
Qed.

Definition fresh_table (sz : Z) : list slot := replicate (Z.to_nat (sz + 1)) (Slot 0 None None).

Lemma fresh_slot sz i s : slot_at (fresh_table sz) i = Some s -> used s = 0.
Proof.
  unfold slot_at, fresh_table. destruct (0 <=? i); [| done].
  intros H%lookup_replicate_1. by destruct H as [-> _].
Qed.

Lemma fresh_table_spec sz : prime sz -> 5 <= sz < 2 ^ 31 ->
  table_ok (fresh_table sz) sz /\ abs (fresh_table sz) = ∅ /\ occupied (fresh_table sz) = 0.
Proof.
  intros Hp Hsz. assert (entries (fresh_table sz) = []) as He.
  { unfold fresh_table. by induction (Z.to_nat (sz + 1)). }
  split_and!.
  - split; [done | done | | | |].
    + unfold fresh_table. rewrite length_replicate. lia.
    + intros i s Hs. left. by eapply fresh_slot.
    + rewrite He. constructor.
    + destruct (slot_at_lt (fresh_table sz) 0) as [s Hs].
      { unfold fresh_table. rewrite length_replicate. lia. }
      exists s. split; [done |]. by eapply fresh_slot.
  - unfold abs. by rewrite He.
  - unfold fresh_table. by induction (Z.to_nat (sz + 1)).
Qed.

Lemma hcreate_spec nel w h : 2 <= nel <= 512 -> table h = None -> allocs w = [] -> exists sz h',
  hcreate_r nel w h = Some (1, w, h') /\ size h' = sz /\ hwf h' (fresh_table sz) /\
  abs (fresh_table sz) = ∅ /\ occupied (fresh_table sz) = 0 /\
  prime sz /\ nel <= sz /\ (forall p, prime p -> 5 <= p -> nel <= p -> sz <= p).
Proof.
  intros Hn Ht Hw. unfold hcreate_r. rewrite Ht.
  destruct (next_prime_total nel Hn) as [sz Hsz]. rewrite Hsz. cbn [mbind option_bind].
  destruct (lor_1_odd nel) as [Hodd Hb]; [lia |].
  apply next_prime_spec in Hsz as (Hp & Hb2 & Hle & Hmin); [| | done | unfold prime_gap; lia].
  2: { destruct (Z.eq_dec nel 2) as [-> |]; [done | lia]. }
  unfold allocate. rewrite Hw. destruct (fresh_table_spec sz Hp ltac:(unfold prime_gap in *; lia)) as (Hok & Ha & Ho).
  eexists sz, _. split; [done |]. unfold hwf. cbn [table size filled]. split_and!; try done.
  - rewrite Ha. by rewrite map_size_empty.
  - lia.
  - intros p Hp' Hp5 Hnp. apply Hmin; [done | done |].
    destruct (Z.eq_dec p (Z.lor nel 1 - 1)) as [-> |]; [| lia].
    exfalso. assert ((2 | Z.lor nel 1 - 1)) as Hdiv.
    { apply Z.mod_divide; [lia |]. by rewrite Zmod_odd, Z.odd_sub, Hodd. }
    apply (prime_divisors _ Hp') in Hdiv. lia.
Qed.

(** ** Sequences of operations

    The abstract environment is a finite map; an operation returns whether it
    succeeded and the data found or stored. *)

Inductive op := Find (k : cstring) | Enter (k d : cstring) | Delete (k : cstring).

Definition op_key (o : op) : cstring := match o with Find k | Enter k _ | Delete k => k end.
Definition is_enter (o : op) : bool := match o with Enter _ _ => true | _ => false end.

Definition spec_op (o : op) (m : gmap cstring cstring) : bool * option cstring * gmap cstring cstring :=
  match o with
  | Find k => (bool_decide (is_Some (m !! k)), m !! k, m)
  | Enter k d => (true, Some d, <[k := d]> m)
  | Delete k => (bool_decide (is_Some (m !! k)), None, delete k m)
  end.

(** The data behind the entry pointer that an operation returned. *)
Definition entry_data (h : hsearch_data) (ep : option Z) : option (option cstring) :=
  match ep with
  | None => Some None
  | Some i => t ← table h; s ← slot_at t i; Some (data s)
  end.

Section Run.
Context (apply : option (apply_call -> Z)) (do_apply : bool).

Definition run_op (o : op) (w : world) (h : hsearch_data) :
    option (bool * option cstring * world * hsearch_data) :=
  match o with
  | Find k => '(r, ep, w, h) ← hsearch_r k None FIND w h; d ← entry_data h ep; Some (negb (r =? 0), d, w, h)
  | Enter k d => '(r, ep, w, h) ← hsearch_r k (Some d) ENTER w h; d ← entry_data h ep; Some (negb (r =? 0), d, w, h)
  | Delete k => '(r, w, h) ← hdelete_r apply k do_apply w h; Some (negb (r =? 0), None, w, h)
  end.

Fixpoint run (ops : list op) (w : world) (h : hsearch_data) :
    option (list (bool * option cstring) * world * hsearch_data) :=
  match ops with
  | [] => Some ([], w, h)
  | o :: ops =>
      '(ok, d, w, h) ← run_op o w h;
      '(rs, w, h) ← run ops w h; Some ((ok, d) :: rs, w, h)
  end.

Fixpoint spec_run (ops : list op) (m : gmap cstring cstring) :
    list (bool * option cstring) * gmap cstring cstring :=
  match ops with
  | [] => ([], m)
  | o :: ops =>
      let '(ok, d, m) := spec_op o m in
      let '(rs, m) := spec_run ops m in ((ok, d) :: rs, m)
  end.

Lemma run_op_refines o w h t : hwf h t -> str_ok (op_key o) -> allocs w = [] ->
  (is_enter o = true -> occupied t < size h) -> exists w' h' t',
  let '(ok, d, m') := spec_op o (abs t) in
  run_op o w h = Some (ok, d, w', h') /\ hwf h' t' /\ abs t' = m' /\ size h' = size h /\
  allocs w' = [] /\ occupied t' <= occupied t + (if is_enter o then 1 else 0).
Proof.
  intros Hwf Hk Hw Hroom. destruct o as [k | k d | k]; cbn [op_key is_enter spec_op run_op] in *.
  - pose proof (hsearch_find h t k w None Hwf Hk) as Hf. destruct (abs t !! k) as [d |].
    + destruct Hf as (idx & s & -> & Hi & Hs & _ & _ & Hd). cbn [mbind option_bind entry_data].
      destruct Hwf as (Ht & Hwf). rewrite Ht. cbn [mbind option_bind]. rewrite Hs. cbn [mbind option_bind].
      rewrite Hd, bool_decide_true, (proj2 (Z.eqb_neq idx 0)) by (done || lia).
      exists w, h, t. split_and!; try done. lia.
    + rewrite Hf, bool_decide_false by (intros [? [=]]). cbn [mbind option_bind entry_data Z.eqb negb].
      exists (set_errno ESRCH w), h, t. split_and!; try done. lia.
  - destruct (hsearch_enter h t k d w Hwf Hk) as (r & idx & s & h' & t' & -> & Hr & Hwf' & Hsz & Ha & Ho & Hs & Hd);
      [by apply Hroom | done |]. cbn [mbind option_bind entry_data].
    pose proof Hwf' as (Ht & _). rewrite Ht. cbn [mbind option_bind]. rewrite Hs. cbn [mbind option_bind].
    rewrite Hd, (proj2 (Z.eqb_neq r 0)) by lia. by exists w, h', t'.
  - destruct (hdelete_spec apply h t k do_apply w Hwf Hk) as (w' & h' & t' & -> & Hwf' & Hsz & Ha & Ho & Hal & _).
    cbn [mbind option_bind]. exists w', h', t'. split_and!; try done; [| congruence | lia].
    by case_bool_decide.
Qed.

(** The number of entries made by a sequence. *)
Definition enters (ops : list op) : Z := zlen (filter (fun o => is_enter o = true) ops).

Lemma enters_cons o ops : enters (o :: ops) = (if is_enter o then 1 else 0) + enters ops.
Proof. unfold enters. rewrite filter_cons. destruct (is_enter o); case_decide; cbn [length]; done || lia. Qed.

Lemma run_refines ops : forall w h t, hwf h t -> Forall (fun o => str_ok (op_key o)) ops ->
  allocs w = [] -> occupied t + enters ops <= size h -> exists w' h' t',
  run ops w h = Some ((spec_run ops (abs t)).1, w', h') /\
  hwf h' t' /\ abs t' = (spec_run ops (abs t)).2 /\ size h' = size h.
Proof.
  induction ops as [| o ops IH]; intros w h t Hwf Hk Hw Hroom; cbn [run spec_run].
  { by exists w, h, t. }
  apply Forall_cons in Hk as [Hko Hk]. rewrite enters_cons in Hroom.
  assert (0 <= enters ops) by (unfold enters; lia).
  destruct (run_op_refines o w h t Hwf Hko Hw) as (w1 & h1 & t1 & H1).
  { intros He. rewrite He in Hroom. lia. }
  destruct (spec_op o (abs t)) as [[ok d] m1]. destruct H1 as (-> & Hwf1 & <- & Hsz & Hw1 & Ho).
  cbn [mbind option_bind].
  destruct (IH w1 h1 t1 Hwf1 Hk Hw1) as (w2 & h2 & t2 & -> & Hwf2 & Ha2 & Hsz2); [lia |].
  destruct (spec_run ops (abs t1)) as [rs m2]. cbn [mbind option_bind fst snd] in *.
  exists w2, h2, t2. split_and!; try done. congruence.
Qed.

End Run.

(** C24: The hash table implements a finite map.  From any usable table, every
    sequence of searches, entries and deletions runs without a fault and gives
    the results the map gives, as long as the entries made fit the slots that
    were never used; the final table is usable (every key is found along its
    probe sequence, keys are unique, [filled] is the number of entries) and
    stands for the final map. *)
Theorem hashtable_refines_map apply do_apply ops w h t : hwf h t ->
  Forall (fun o => str_ok (op_key o)) ops -> allocs w = [] -> occupied t + enters ops <= size h ->
  exists w' h' t', run apply do_apply ops w h = Some ((spec_run ops (abs t)).1, w', h') /\
    hwf h' t' /\ abs t' = (spec_run ops (abs t)).2.
Proof.
  intros Hwf Hk Hw Hr. destruct (run_refines apply do_apply ops w h t Hwf Hk Hw Hr)
    as (w' & h' & t' & H1 & H2 & H3 & _). by exists w', h', t'.
Qed.

(** [hcreate_r] turns every requested size from 2 to the maximum of 512
    entries into an empty usable table whose size is the least prime (from 5
    on) that is not smaller. *)
Theorem hcreate_r_correct nel w h : 2 <= nel <= CONFIG_ENV_MAX_ENTRIES -> table h = None -> allocs w = [] ->
  exists h' t, hcreate_r nel w h = Some (1, w, h') /\ hwf h' t /\ abs t = ∅ /\
    prime (size h') /\ nel <= size h' /\
    (forall p, prime p -> 5 <= p -> nel <= p -> size h' <= p).
Proof.
  intros Hn Ht Hw. destruct (hcreate_spec nel w h Hn Ht Hw) as (sz & h' & H1 & <- & H2 & H3 & _ & H4).
  by exists h', (fresh_table (size h')).
Qed.

(** ** Concrete tables *)

Module HashtableExamples.

Definition calm : world := World 0 [] [].
Definition no_table : hsearch_data := HTab None 0 0.
Definition empty5 : hsearch_data := HTab (Some (fresh_table 5)) 5 0.

Lemma prime_5 : prime 5.
Proof.
  destruct (isprime_spec 5) as (b & Hb & Hp); [lia | reflexivity |]. apply Hp.
  assert (isprime 5 = Some true) as H5 by (vm_compute; reflexivity). congruence.
Qed.

Lemma empty5_wf : hwf empty5 (fresh_table 5).
Proof.
  destruct (fresh_table_spec 5 prime_5 ltac:(lia)) as (Hok & Ha & _).
  split_and!; [done | done |]. by rewrite Ha, map_size_empty.
Qed.

Lemma isprime_correct_witness :
  (isprime 509 = Some true /\ prime 509) \/ (isprime 509 = Some false /\ ~ prime 509).
Proof. apply (isprime_correct 509); [lia | reflexivity]. Defined.

Lemma hcreate_r_correct_witness : exists h' t, hcreate_r 300 calm no_table = Some (1, calm, h') /\
  hwf h' t /\ abs t = ∅ /\ prime (size h') /\ 300 <= size h' /\
  (forall p, prime p -> 5 <= p -> 300 <= p -> size h' <= p).
Proof. apply (hcreate_r_correct 300 calm no_table); [unfold CONFIG_ENV_MAX_ENTRIES; lia | done | done]. Defined.

Definition some_ops : list op :=
  [Enter (str "bootcmd") (str "bootbk"); Enter (str "ipaddr") (str "192.168.0.1"); Delete (str "bootcmd");
   Find (str "bootcmd"); Enter (str "bootcmd") (str "run x"); Find (str "bootcmd")].

Lemma hashtable_refines_map_witness : exists w' h' t',
  run None false some_ops calm empty5 =
    Some ([(true, Some (str "bootbk")); (true, Some (str "192.168.0.1")); (true, None); (false, None);
           (true, Some (str "run x")); (true, Some (str "run x"))], w', h') /\
  hwf h' t' /\ abs t' = (spec_run some_ops (abs (fresh_table 5))).2.
Proof.
  apply (hashtable_refines_map None false some_ops calm empty5 (fresh_table 5));
    [apply empty5_wf | | reflexivity | vm_compute; discriminate].
  repeat (apply Forall_cons; split; [unfold str_ok; repeat (apply Forall_cons; split; [done |]); by apply Forall_nil |]).
  by apply Forall_nil.
Defined.

(** Five names that fill a table of size 5, one of them deleted. *)
Definition five_names : list op :=
  [Enter (str "b") (str "1"); Enter (str "a") (str "2"); Enter (str "c") (str "3");
   Enter (str "e") (str "4"); Enter (str "g") (str "5")].

(** Once every slot has been used, entering a new name can destroy another
    one although the table is not full: in a table of size 5 that holds four
    names after a deletion, entering a fifth name removes the name in its
    first slot, and the deleted slot stays unused. *)
Theorem hsearch_r_enter_destroys_entry :
  let ops := five_names ++ [Delete (str "e"); Enter (str "l") (str "6"); Find (str "b")] in
  ((fun r => last r.1.1) <$> run None false ops calm empty5) = Some (Some (false, None)) /\
  last (spec_run ops ∅).1 = Some (true, Some (str "1")).
Proof. vm_compute. split; reflexivity. Qed.

(** An entry that runs out of memory is reported as an error, but its slot
    stays marked as used without a key: the next search for the same name
    passes the null pointer to [strcmp]. *)
Theorem hsearch_r_enomem_leaves_null_key : exists h',
  hsearch_r (str "a") (Some (str "1")) ENTER (World 0 [false] []) empty5 = Some (0, None, World ENOMEM [] [], h') /\
  hsearch_r (str "a") None FIND calm h' = None.
Proof. eexists. split; [vm_compute; reflexivity | vm_compute; reflexivity]. Qed.

(** The table after these five entries. *)
Definition full5 : hsearch_data :=
  match run None false five_names calm empty5 with Some (_, _, h) => h | None => no_table end.

(** [hstrstr_r] never looks at the last slot: an entry stored there, which
    [hsearch_r] finds, is not found by a search for its name. *)
Theorem hstrstr_r_misses_last_slot :
  hsearch_r (str "g") None FIND calm full5 = Some (5, Some 5, calm, full5) /\
  hstrstr_r (str "g") 0 calm full5 = Some (0, None, set_errno ESRCH calm).
Proof. split; vm_compute; reflexivity. Qed.

(** For a new entry [hsearch_r] returns 1 and not the index of the slot. *)
Theorem hsearch_r_new_entry_index : exists h',
  hsearch_r (str "a") (Some (str "1")) ENTER calm empty5 = Some (1, Some 3, calm, h').
Proof. eexists. vm_compute. reflexivity. Qed.

End HashtableExamples.
