(* ===== verification/HashIO.v ===== *)
(** * Export and import of the hash table (lib/hashtable.c)

    [hexport_r] prints the entries as "name=value" texts, each followed by the
    separator, and [himport_r] reads such texts back.  The result buffer of the
    export is its contents and its capacity, a write beyond the capacity being
    the fault [None]; the copy of the buffer that the import parses is the list
    of the bytes from the parse position on, a read beyond its end being the
    fault.  (The import writes only behind the parse position, where it never
    reads again.)  The length [totlen] is exact: the strings of the table fit
    the address space. *)

From S2P Require Import Prelude Ctype StringLib Qsort Hashtable.

Definition BACKSLASH : Z := 92.
Definition EQUALS : Z := 61.
Definition HASH : Z := 35.

(** ** Export *)

Abbreviation pair := (cstring * cstring)%type.

(** [cmpkey] on the entries' keys. *)
Definition cmpkey (e1 e2 : pair) : Z := cstrcmp e1.1 e2.1.

Definition needs_escape (sep c : Z) : bool := (c =? sep) || (c =? BACKSLASH).

(** What pass 1 adds to [totlen] for one entry. *)
Definition entry_room (sep : Z) (e : pair) : Z :=
  zlen e.1 + 2 +
  (if sep =? 0 then zlen e.2
   else foldr (fun c n => (if needs_escape sep c then 2 else 1) + n) 0 e.2) + 2.

(** [for (arg = 0; arg < argc; ++arg) if (strcmp(argv[arg], ep->key) == 0) ...] *)
Definition selected (argv : list cstring) (k : cstring) : bool :=
  match argv with
  | [] => true
  | _ => existsb (fun a => cstrcmp a k =? 0) argv
  end.

(** Pass 1: the entries to export and their total length. *)
Fixpoint export_scan (n : nat) (t : list slot) (i : Z) (sep : Z) (argv : list cstring)
    (lst : list pair) (totlen : Z) : option (list pair * Z) :=
  match n with
  | O => Some (lst, totlen)
  | S n =>
      s ← slot_at t i;
      if 0 <? used s then
        k ← key s;
        if selected argv k then
          d ← data s;
          export_scan n t (i + 1) sep argv (lst ++ [(k, d)]) (totlen + entry_room sep (k, d))
        else export_scan n t (i + 1) sep argv lst totlen
      else export_scan n t (i + 1) sep argv lst totlen
  end.

(** Pass 2 for one entry. *)
Definition escape (sep : Z) (d : cstring) : list Z :=
  flat_map (fun c => if needs_escape sep c then [BACKSLASH; c] else [c]) d.

Definition entry_text (sep : Z) (e : pair) : list Z := e.1 ++ [EQUALS] ++ escape sep e.2 ++ [sep].

Definition export_text (sep : Z) (l : list pair) : list Z := flat_map (entry_text sep) l.

(** [resp] is the capacity of the caller's buffer, if there is one.  The
    result: the return value and the contents of the buffer. *)
Definition hexport_r (h : hsearch_data) (sep : Z) (resp : option Z) (sz : Z) (argv : list cstring)
    (w : world) : option (Z * option (list Z) * world) :=
  t ← table h;
  '(lst, totlen) ← export_scan (Z.to_nat (size h)) t 1 sep argv [] 0;
  lst ← qsort cmpkey lst;
  if negb (sz =? 0) && (sz <? totlen + 1) then Some (-1, None, set_errno ENOMEM w)
  else
    let sz := if sz =? 0 then totlen + 1 else sz in
    let '(cap, w) :=
      match resp with
      | Some cap => (Some cap, w)
      | None => let '(ok, w) := allocate w in ((if ok : bool then Some sz else None), w)
      end in
    match cap with
    | None => Some (-1, None, set_errno ENOMEM w)
    | Some cap =>
        let out := export_text sep lst ++ [0] in
        if (cap <? sz) || (cap <? zlen out) then None
        else Some (sz, Some (out ++ replicate (Z.to_nat sz - length out) 0), w)
    end.

(** ** Import *)

Fixpoint drop_loop (name : cstring) (vars : list (option cstring)) : bool * list (option cstring) :=
  match vars with
  | [] => (false, [])
  | None :: vars => let '(res, vars) := drop_loop name vars in (res, None :: vars)
  | Some v :: vars =>
      let '(res, vars) := drop_loop name vars in
      if cstrcmp name v =? 0 then (true, None :: vars) else (res, Some v :: vars)
  end.

Definition drop_var_from_set (name : cstring) (vars : list (option cstring)) :
    bool * list (option cstring) :=
  match vars with
  | [] => (true, [])
  | _ => drop_loop name vars
  end.

(** [while (isblank( *dp )) ++dp;] *)
Fixpoint skip_blank (dp : list Z) : option (list Z) :=
  match dp with
  | [] => None
  | c :: r => if isblank c then skip_blank r else Some dp
  end.

(** [while ( *dp && ( *dp != sep)) ++dp; ++dp;] *)
Fixpoint skip_comment (sep : Z) (dp : list Z) : option (list Z) :=
  match dp with
  | [] => None
  | c :: r => if (c =? 0) || (c =? sep) then Some r else skip_comment sep r
  end.

(** [for (name = dp; *dp != '=' && *dp && *dp != sep; ++dp)]: the name and
    the position behind it. *)
Fixpoint parse_name (sep : Z) (dp : list Z) : option (cstring * list Z) :=
  match dp with
  | [] => None
  | c :: r =>
      if (c =? EQUALS) || (c =? 0) || (c =? sep) then Some ([], dp)
      else '(name, rest) ← parse_name sep r; Some (c :: name, rest)
  end.

(** The test for "name" and "name=" and, when it holds, the position behind
    the text: [None] inside is an entry with a value. *)
Definition delete_candidate (sep : Z) (dp : list Z) : option (option (list Z)) :=
  match dp with
  | [] => None
  | c :: r =>
      if c =? 0 then Some (Some r)
      else
        match r with
        | [] => None
        | c1 :: r1 =>
            if (c1 =? 0) || (c =? sep) || (c1 =? sep)
            then Some (Some (if c =? EQUALS then r1 else r))
            else Some None
        end
  end.

(** [for (value = sp = dp; *dp && ( *dp != sep); ++dp) { ... } ++dp;]: the
    value and the position behind the terminator. *)
Fixpoint parse_value (sep : Z) (dp : list Z) : option (cstring * list Z) :=
  match dp with
  | [] => None
  | c :: r =>
      if (c =? 0) || (c =? sep) then Some ([], r)
      else if c =? BACKSLASH then
        match r with
        | [] => None
        | c1 :: r1 =>
            if c1 =? 0 then '(v, rest) ← parse_value sep r; Some (c :: v, rest)
            else '(v, rest) ← parse_value sep r1; Some (c1 :: v, rest)
        end
      else '(v, rest) ← parse_value sep r; Some (c :: v, rest)
  end.

Section Importing.
Context (apply : option (apply_call -> Z)).

(** State of the import loop. *)
Record import_state := Import {
  i_dp : list Z; i_vars : list (option cstring); i_world : world; i_tab : hsearch_data }.

(** One round of the do-while loop; [inr] is the early return 0. *)
Definition import_step (sep flag : Z) (do_apply : bool) (st : import_state) :
    option (import_state + world * hsearch_data) :=
  let 'Import dp vars w h := st in
  dp ← skip_blank dp;
  c ← head dp;
  if c =? HASH then dp ← skip_comment sep dp; Some (inl (Import dp vars w h))
  else
    '(name, dp) ← parse_name sep dp;
    del ← delete_candidate sep dp;
    match del with
    | Some dp =>
        let '(mine, vars) := drop_var_from_set name vars in
        if (mine : bool)
        then '(_, w, h) ← hdelete_r apply name do_apply w h; Some (inl (Import dp vars w h))
        else Some (inl (Import dp vars w h))
    | None =>
        '(value, dp) ← parse_value sep (tail dp);
        let '(mine, vars) := drop_var_from_set name vars in
        if negb mine then Some (inl (Import dp vars w h))
        else
          '(refused, w) ←
            (if do_apply && bool_decide (is_Some apply) then
               '(_, rv, w, h) ← hsearch_r name (Some value) FIND w h;
               old ← entry_data h rv;
               let '(r, w) := call_apply apply (Call (Some name) old (Some value) flag) w in
               Some (negb (r =? 0), w)
             else Some (false, w));
          if (refused : bool) then Some (inl (Import dp vars w h))
          else
            '(_, rv, w, h) ← hsearch_r name (Some value) ENTER w h;
            match rv with
            | None => Some (inr (w, h))
            | Some _ => Some (inl (Import dp vars w h))
            end
    end.

(** [do { ... } while ((dp < data + size) && *dp);] *)
Fixpoint import_loop (fuel : nat) (sep flag : Z) (do_apply : bool) (st : import_state) :
    option (import_state + world * hsearch_data) :=
  match fuel with
  | O => None
  | S fuel =>
      r ← import_step sep flag do_apply st;
      match r with
      | inr wh => Some (inr wh)
      | inl st =>
          match i_dp st with
          | [] => Some (inl st)
          | c :: _ => if c =? 0 then Some (inl st) else import_loop fuel sep flag do_apply st
          end
      end
  end.

(** The variables that were asked for and not seen. *)
Fixpoint import_unseen (vars : list (option cstring)) (do_apply : bool) (w : world) (h : hsearch_data) :
    option (world * hsearch_data) :=
  match vars with
  | [] => Some (w, h)
  | None :: vars => import_unseen vars do_apply w h
  | Some v :: vars => '(_, w, h) ← hdelete_r apply v do_apply w h; import_unseen vars do_apply w h
  end.

(** The table to import into: with [H_NOCLEAR] the existing one. *)
Definition import_table (len flag : Z) (do_apply : bool) (w : world) (h : hsearch_data) :
    option (Z * world * hsearch_data) :=
  '(w, h) ←
    (if (Z.land flag H_NOCLEAR =? 0) && bool_decide (is_Some (table h))
     then hdestroy_r apply do_apply w h else Some (w, h));
  match table h with
  | Some _ => Some (1, w, h)
  | None =>
      let nent := CONFIG_ENV_MIN_ENTRIES + len / 8 in
      hcreate_r (if CONFIG_ENV_MAX_ENTRIES <? nent then CONFIG_ENV_MAX_ENTRIES else nent) w h
  end.

Definition himport_r (env : list Z) (sep flag : Z) (vars : list cstring) (do_apply : bool)
    (w : world) (h : hsearch_data) : option (Z * world * hsearch_data) :=
  let '(ok, w) := allocate w in
  if negb ok then Some (0, set_errno ENOMEM w, h)
  else
    '(ret, w, h) ← import_table (zlen env) flag do_apply w h;
    if ret =? 0 then Some (0, w, h)
    else
      r ← import_loop (S (length env)) sep flag do_apply (Import env (Some <$> vars) w h);
      match r with
      | inr (w, h) => Some (0, w, h)
      | inl st =>
          '(w, h) ← import_unseen (i_vars st) do_apply (i_world st) (i_tab st);
          Some (1, w, h)
      end.

End Importing.

(** ** What is exported *)

Definition chosen (argv : list cstring) (l : list pair) : list pair :=
  filter (fun e => selected argv e.1 = true) l.

Fixpoint total_room (sep : Z) (l : list pair) : Z :=
  match l with [] => 0 | e :: l => entry_room sep e + total_room sep l end.

Lemma total_room_app sep l1 l2 : total_room sep (l1 ++ l2) = total_room sep l1 + total_room sep l2.
Proof. induction l1; cbn; lia. Qed.

Lemma total_room_perm sep l1 l2 : l1 ≡ₚ l2 -> total_room sep l1 = total_room sep l2.
Proof. induction 1; cbn; lia. Qed.

Lemma export_scan_spec t sz sep argv n : table_ok t sz -> forall i lst totlen,
  1 <= i -> i + Z.of_nat n = zlen t ->
  let new := chosen argv (entries (drop (Z.to_nat i) t)) in
  export_scan n t i sep argv lst totlen = Some (lst ++ new, totlen + total_room sep new).
Proof.
  intros Hok. induction n as [| n IH]; intros i lst totlen Hi Hn new; subst new; cbn [export_scan].
  { rewrite drop_ge by lia. cbn. by rewrite app_nil_r, Z.add_0_r. }
  destruct (slot_at_lt t i) as [s Hs]; [lia |]. rewrite Hs. cbn [mbind option_bind].
  unfold slot_at in Hs. rewrite (proj2 (Z.leb_le 0 i)) in Hs by lia.
  rewrite (drop_S t s (Z.to_nat i) Hs). replace (S (Z.to_nat i)) with (Z.to_nat (i + 1)) by lia.
  change (entries (s :: drop (Z.to_nat (i + 1)) t)) with
    (match entry_of s with Some e => e :: entries (drop (Z.to_nat (i + 1)) t)
     | None => entries (drop (Z.to_nat (i + 1)) t) end).
  unfold entry_of. destruct (Z.ltb_spec 0 (used s)) as [Hl |]; [| apply IH; lia].
  assert (slot_at t i = Some s) as Hs'.
  { unfold slot_at. by rewrite (proj2 (Z.leb_le 0 i)) by lia. }
  destruct (live_reach t sz i s Hok Hs' Hl) as (k & d & _ & Hk & Hd & _). rewrite Hk, Hd. cbn [mbind option_bind].
  unfold chosen. rewrite filter_cons. cbn [fst]. destruct (selected argv k).
  - rewrite IH by lia. unfold chosen. rewrite decide_True by done. cbn [total_room].
    rewrite <- app_assoc. cbn [app]. do 2 f_equal. lia.
  - rewrite decide_False by done. apply IH; lia.
Qed.

Lemma entries_tail t sz : table_ok t sz -> entries (drop 1 t) = entries t.
Proof.
  intros Hok. destruct t as [| s t]; [done |]. destruct (ok_zero _ _ Hok) as (s' & Hs & H0).
  change (slot_at (s :: t) 0) with (Some s) in Hs. injection Hs as <-. cbn [drop]. unfold entries. cbn [omap list_omap].
  unfold entry_of at 2. by rewrite H0.
Qed.

Lemma export_entries h t sep argv : hwf h t ->
  export_scan (Z.to_nat (size h)) t 1 sep argv [] 0 =
    Some (chosen argv (entries t), total_room sep (chosen argv (entries t))).
Proof.
  intros (_ & Hok & _). pose proof (ok_size _ _ Hok). pose proof (ok_length _ _ Hok).
  rewrite (export_scan_spec t (size h) sep argv _ Hok) by lia.
  change (Z.to_nat 1) with 1%nat. by rewrite (entries_tail t (size h)).
Qed.

(** No value has a character that is escaped without being counted. *)
Definition counted (sep : Z) (l : list pair) : Prop := sep <> 0 \/ Forall (fun e => str_ok e.2 /\ BACKSLASH ∉ e.2) l.

Lemma escape_plain sep d : Forall (fun c => needs_escape sep c = false) d -> escape sep d = d.
Proof. induction 1 as [| c d Hc _ IH]; [done |]. unfold escape in *. cbn [flat_map]. by rewrite Hc, IH. Qed.

Lemma entry_text_room sep e : counted sep [e] -> zlen (entry_text sep e) <= entry_room sep e.
Proof.
  intros Hc. unfold entry_text, entry_room. rewrite !length_app. cbn [length].
  destruct (Z.eqb_spec sep 0) as [-> | Hne].
  - destruct Hc as [| [[Hd Hb] _]%Forall_cons]; [done |]. rewrite escape_plain; [lia |].
    apply Forall_forall. intros c Hin. unfold str_ok in Hd. rewrite Forall_forall in Hd. specialize (Hd c Hin).
    unfold needs_escape. rewrite (proj2 (Z.eqb_neq c 0)) by lia. apply Z.eqb_neq. by intros ->.
  - assert (forall d, zlen (escape sep d) = foldr (fun c n => (if needs_escape sep c then 2 else 1) + n) 0 d) as H.
    { induction d as [| c d IH]; [done |]. unfold escape in *. cbn [flat_map foldr]. rewrite length_app.
      destruct (needs_escape sep c); cbn [length]; lia. }
    specialize (H e.2). lia.
Qed.

Lemma export_text_room sep l : counted sep l -> zlen (export_text sep l) <= total_room sep l.
Proof.
  induction l as [| e l IH]; intros Hc; [done |]. unfold export_text in *. cbn [flat_map total_room].
  rewrite length_app. assert (counted sep [e] /\ counted sep l) as [H1 H2].
  { destruct Hc as [| [? ?]%Forall_cons]; [split; by left |]. split; right; [by constructor | done]. }
  pose proof (entry_text_room sep e H1). specialize (IH H2). lia.
Qed.

Lemma counted_perm sep l1 l2 : l1 ≡ₚ l2 -> counted sep l1 -> counted sep l2.
Proof. intros Hp [|]; [by left |]. right. by rewrite <- Hp. Qed.

(** The export of a usable table, with a buffer of [sz] bytes. *)
Lemma hexport_spec h t sep argv sz w : hwf h t -> counted sep (chosen argv (entries t)) ->
  let room := total_room sep (chosen argv (entries t)) in
  exists lst, lst ≡ₚ chosen argv (entries t) /\ zlen (export_text sep lst) <= room /\
  hexport_r h sep (Some sz) sz argv w =
    if (sz =? 0) || (sz <? room + 1) then
      if sz =? 0 then None else Some (-1, None, set_errno ENOMEM w)
    else Some (sz, Some (export_text sep lst ++ replicate (Z.to_nat sz - length (export_text sep lst)) 0), w).
Proof.
  intros Hwf Hc room. unfold hexport_r. pose proof Hwf as (Ht & Hok & _). rewrite Ht. cbn [mbind option_bind].
  rewrite (export_entries h t sep argv Hwf). cbn [mbind option_bind].
  destruct (qsort_total cmpkey (chosen argv (entries t))) as (lst & -> & Hp). cbn [mbind option_bind].
  fold room. exists lst. split; [done |].
  pose proof (export_text_room sep lst (counted_perm _ _ _ (Permutation_sym Hp) Hc)) as Hroom.
  rewrite (total_room_perm _ _ _ Hp) in Hroom. fold room in Hroom. split; [done |].
  destruct (Z.eqb_spec sz 0) as [-> | Hne]; cbn [negb andb orb].
  { rewrite (proj2 (Z.ltb_lt 0 (room + 1))) by lia. done. }
  destruct (Z.ltb_spec sz (room + 1)); [done |].
  rewrite length_app, Nat2Z.inj_add. cbn [length]. rewrite (proj2 (Z.ltb_ge sz sz)) by lia.
  rewrite (proj2 (Z.ltb_ge sz _)) by lia. cbn [orb]. rewrite <- app_assoc. do 4 f_equal.
  replace (Z.to_nat sz - length (export_text sep lst))%nat
    with (S (Z.to_nat sz - (length (export_text sep lst) + 1)))%nat by lia. done.
Qed.

(** ** Parsing what was printed *)

(** A name that survives: no '=' and no separator, and not taken for blanks or
    a comment at its start. *)
Definition name_ok (sep : Z) (k : cstring) : Prop :=
  str_ok k /\ Forall (fun c => c <> EQUALS /\ c <> sep) k /\
  match k with [] => True | c :: _ => isblank c = false /\ c <> HASH end.

(** A value that survives: any string but the empty one. *)
Definition value_ok (d : cstring) : Prop := str_ok d /\ d <> [].

Definition sep_ok (sep : Z) : Prop := sep <> EQUALS /\ sep <> BACKSLASH.

Lemma parse_name_text sep k r : Forall (fun c => c <> EQUALS /\ c <> sep) k -> str_ok k ->
  parse_name sep (k ++ EQUALS :: r) = Some (k, EQUALS :: r).
Proof.
  intros Hk. induction Hk as [| c k [Hc1 Hc2] _ IH]; intros Hs; [done |].
  apply Forall_cons in Hs as [Hc Hs]. cbn [app parse_name].
  rewrite (proj2 (Z.eqb_neq c EQUALS)), (proj2 (Z.eqb_neq c 0)), (proj2 (Z.eqb_neq c sep)) by (done || lia).
  cbn [orb]. by rewrite IH.
Qed.

Lemma escape_cons sep c d :
  escape sep (c :: d) = (if (c =? sep) || (c =? BACKSLASH) then [BACKSLASH; c] else [c]) ++ escape sep d.
Proof. done. Qed.

Lemma parse_value_text sep d r : sep_ok sep -> str_ok d ->
  parse_value sep (escape sep d ++ sep :: r) = Some (d, r).
Proof.
  intros [_ Hsep] Hd. induction Hd as [| c d Hc _ IH].
  { cbn. by rewrite Z.eqb_refl, orb_true_r. }
  rewrite escape_cons.
  destruct (Z.eqb_spec c sep) as [-> | Hne]; cbn [orb app parse_value].
  - rewrite (proj2 (Z.eqb_neq BACKSLASH sep)), (proj2 (Z.eqb_neq sep 0)) by (done || lia).
    cbn [Z.eqb orb]. change (BACKSLASH =? 0) with false. change (BACKSLASH =? BACKSLASH) with true.
    cbn [orb]. by rewrite IH.
  - destruct (Z.eqb_spec c BACKSLASH) as [-> | Hb]; cbn [app parse_value].
    + rewrite (proj2 (Z.eqb_neq BACKSLASH sep)) by done.
      change (BACKSLASH =? 0) with false. change (BACKSLASH =? BACKSLASH) with true. cbn [orb]. by rewrite IH.
    + rewrite (proj2 (Z.eqb_neq c 0)), (proj2 (Z.eqb_neq c sep)), (proj2 (Z.eqb_neq c BACKSLASH)) by (done || lia).
      cbn [orb]. by rewrite IH.
Qed.

(** A value does not look like the end of the text. *)
Lemma value_no_delete sep d r : sep_ok sep -> value_ok d ->
  delete_candidate sep (EQUALS :: escape sep d ++ r) = Some None.
Proof.
  intros [Hs1 Hs2] [Hd Hne]. destruct d as [| c d]; [done |]. apply Forall_cons in Hd as [Hc _].
  rewrite escape_cons. unfold delete_candidate. change (EQUALS =? 0) with false.
  rewrite (proj2 (Z.eqb_neq EQUALS sep)) by done.
  destruct (Z.eqb_spec c sep) as [-> | Hcs]; cbn [orb app].
  - change (BACKSLASH =? 0) with false. by rewrite (proj2 (Z.eqb_neq BACKSLASH sep)).
  - destruct (Z.eqb_spec c BACKSLASH) as [-> | Hb]; cbn [app].
    + change (BACKSLASH =? 0) with false. by rewrite (proj2 (Z.eqb_neq BACKSLASH sep)).
    + by rewrite (proj2 (Z.eqb_neq c 0)), (proj2 (Z.eqb_neq c sep)) by (done || lia).
Qed.

(** The text of an entry starts with neither blanks nor a comment sign. *)
Lemma skip_blank_text sep k r : name_ok sep k ->
  skip_blank (k ++ EQUALS :: r) = Some (k ++ EQUALS :: r) /\
  exists c, head (k ++ EQUALS :: r) = Some c /\ (c =? HASH) = false.
Proof.
  intros (_ & _ & Hh). destruct k as [| c k].
  - split; [done |]. by exists EQUALS.
  - destruct Hh as [Hb Hc]. cbn. rewrite Hb. split; [done |]. exists c. split; [done |]. by apply Z.eqb_neq.
Qed.

Section ImportProofs.
Context (apply : option (apply_call -> Z)) (sep flag : Z) (Hsep : sep_ok sep).

Lemma import_step_entry k d r w h t : name_ok sep k -> value_ok d -> hwf h t -> allocs w = [] ->
  occupied t < size h -> exists h' t',
  import_step apply sep flag false (Import (entry_text sep (k, d) ++ r) [] w h) = Some (inl (Import r [] w h')) /\
  hwf h' t' /\ abs t' = <[k := d]> (abs t) /\ size h' = size h /\ occupied t' <= occupied t + 1.
Proof using Hsep.
  intros Hk Hd Hwf Hw Hroom. unfold import_step, entry_text. cbn [fst snd].
  rewrite <- !app_assoc. cbn [app]. rewrite <- ?app_assoc. cbn [app].
  destruct (skip_blank_text sep k (escape sep d ++ sep :: r) Hk) as (-> & c & Hh & Hc).
  cbn [mbind option_bind]. rewrite Hh. cbn [mbind option_bind]. rewrite Hc.
  destruct Hk as (Hks & Hk & _). rewrite (parse_name_text sep k _ Hk Hks). cbn [mbind option_bind].
  rewrite (value_no_delete sep d (sep :: r) Hsep Hd). cbn [mbind option_bind tail].
  rewrite (parse_value_text sep d r Hsep) by apply Hd. cbn [mbind option_bind drop_var_from_set negb andb].
  destruct (hsearch_enter h t k d w Hwf Hks Hroom Hw)
    as (r' & idx & s & h' & t' & -> & _ & Hwf' & Hsz & Ha & Ho & _). by exists h', t'.
Qed.

Lemma import_loop_entries l : forall fuel pad w h t, (length l < fuel)%nat -> l <> [] ->
  Forall (fun e => name_ok sep e.1 /\ value_ok e.2) l -> NoDup l.*1 -> hwf h t -> allocs w = [] ->
  occupied t + zlen l <= size h -> exists h' t',
  import_loop apply fuel sep flag false (Import (export_text sep l ++ 0 :: pad) [] w h) =
    Some (inl (Import (0 :: pad) [] w h')) /\
  hwf h' t' /\ abs t' = list_to_map l ∪ abs t.
Proof using Hsep.
  induction l as [| [k d] l IH]; intros fuel pad w h t Hf Hne Hl Hnd Hwf Hw Hroom; [done |].
  destruct fuel as [| fuel]; [cbn in Hf; lia |]. apply Forall_cons in Hl as [[Hk Hd] Hl]. cbn [fst snd] in Hk, Hd.
  cbn [fmap list_fmap fst] in Hnd. apply NoDup_cons in Hnd as [Hkl Hnd]. cbn [length] in Hroom, Hf.
  unfold export_text. cbn [flat_map import_loop]. fold (export_text sep l). rewrite <- app_assoc.
  destruct (import_step_entry k d (export_text sep l ++ 0 :: pad) w h t Hk Hd Hwf Hw)
    as (h1 & t1 & -> & Hwf1 & Ha1 & Hsz & Ho1); [lia |]. cbn [mbind option_bind i_dp].
  assert (list_to_map (M := gmap cstring cstring) l !! k = None) as Hnone by by apply not_elem_of_list_to_map.
  destruct l as [| e l].
  { cbn. exists h1, t1. split_and!; try done. rewrite Ha1. cbn. by rewrite <- insert_union_l, (left_id_L ∅ (∪)). }
  destruct (IH fuel pad w h1 t1) as (h2 & t2 & He & Hwf2 & Ha2); [lia | done.. | lia |].
  exists h2, t2. split_and!; [| done |].
  - destruct (export_text sep (e :: l) ++ 0 :: pad) as [| c r] eqn:Hr.
    { by destruct (export_text sep (e :: l)). }
    destruct (Z.eqb_spec c 0) as [-> | Hc]; [| done]. exfalso.
    apply Forall_cons in Hl as [[(Hs & _ & _) _] _]. unfold export_text in Hr. cbn [flat_map] in Hr.
    unfold entry_text in Hr. destruct e as [[| c k'] d']; cbn in Hr; [done |]. simplify_eq.
    apply Forall_cons in Hs as [? _]. lia.
  - rewrite Ha2, Ha1. cbn [list_to_map foldr uncurry]. by rewrite <- insert_union_r, insert_union_l by done.
Qed.

(** An empty export is one text without a name. *)
Lemma import_loop_empty fuel n w h t : hwf h t -> exists h' t' w',
  import_loop apply (S fuel) sep flag false (Import (replicate (S n) 0) [] w h) =
    Some (inl (Import (replicate n 0) [] w' h')) /\ hwf h' t' /\ abs t' = delete [] (abs t) /\
  allocs w' = allocs w /\ applied w' = applied w.
Proof using Hsep.
  intros Hwf. cbn [import_loop replicate]. unfold import_step. cbn [skip_blank isblank orb].
  change (isblank 0) with false. cbn [mbind option_bind head parse_name].
  change (0 =? HASH) with false. change ((0 =? EQUALS) || (0 =? 0) || (0 =? sep)) with true.
  cbn [mbind option_bind delete_candidate Z.eqb drop_var_from_set].
  destruct (hdelete_spec apply h t [] false w Hwf) as (w' & h' & t' & -> & Hwf' & _ & Ha & _ & Hal & Hap); [by constructor |].
  cbn [mbind option_bind i_dp]. exists h', t', w'. split; [by destruct n |]. by split_and!; [| | | apply Hap].
Qed.

Lemma hdestroy_quiet n t i w : 0 <= i -> i + Z.of_nat n <= zlen t ->
  hdestroy_loop apply n t i false w = Some w.
Proof.
  revert i. induction n as [| n IH]; intros i Hi Hn; [done |]. cbn [hdestroy_loop].
  destruct (slot_at_lt t i) as [s ->]; [lia |]. cbn [mbind option_bind]. rewrite andb_false_r. apply IH; lia.
Qed.

Lemma import_table_fresh len w h : (table h = None \/ exists t, hwf h t) -> allocs w = [] -> 0 <= len ->
  exists h', import_table apply len 0 false w h = Some (1, w, h') /\
    Z.min CONFIG_ENV_MAX_ENTRIES (CONFIG_ENV_MIN_ENTRIES + len / 8) <= size h' /\
    hwf h' (fresh_table (size h')) /\ abs (fresh_table (size h')) = ∅ /\ occupied (fresh_table (size h')) = 0.
Proof.
  intros Hh Hw Hlen. unfold import_table. pose proof (Z.div_pos len 8 Hlen ltac:(lia)) as Hq.
  set (nel := if CONFIG_ENV_MAX_ENTRIES <? CONFIG_ENV_MIN_ENTRIES + len / 8 then CONFIG_ENV_MAX_ENTRIES
    else CONFIG_ENV_MIN_ENTRIES + len / 8).
  assert (2 <= nel <= 512 /\ nel = Z.min CONFIG_ENV_MAX_ENTRIES (CONFIG_ENV_MIN_ENTRIES + len / 8)) as [Hn Hmin].
  { unfold nel, CONFIG_ENV_MAX_ENTRIES, CONFIG_ENV_MIN_ENTRIES in *. cases_ltb; lia. }
  assert (exists h1, (if (Z.land 0 H_NOCLEAR =? 0) && bool_decide (is_Some (table h))
    then hdestroy_r apply false w h else Some (w, h)) = Some (w, h1) /\ table h1 = None) as (h1 & -> & Ht).
  { destruct Hh as [Hh | (t & Ht & Hok & _)].
    - exists h. rewrite Hh. by rewrite bool_decide_false by (intros [? [=]]).
    - rewrite Ht, bool_decide_true by done. unfold hdestroy_r. rewrite Ht. cbn [mbind option_bind andb Z.land Z.eqb].
      pose proof (ok_size _ _ Hok). rewrite hdestroy_quiet by (rewrite ?(ok_length _ _ Hok); lia).
      by eexists. }
  cbn [mbind option_bind]. rewrite Ht.
  destruct (hcreate_spec nel w h1 Hn Ht Hw) as (sz & h' & H1 & <- & H2 & H3 & H4 & _ & H5 & _).
  exists h'. split; [done |]. split; [lia |]. done.
Qed.

End ImportProofs.

Lemma himport_text apply sep l n w h : sep_ok sep -> (table h = None \/ exists t, hwf h t) -> allocs w = [] ->
  Forall (fun e => name_ok sep e.1 /\ value_ok e.2) l -> NoDup l.*1 ->
  let buf := export_text sep l ++ replicate (S n) 0 in
  zlen l <= Z.min CONFIG_ENV_MAX_ENTRIES (CONFIG_ENV_MIN_ENTRIES + zlen buf / 8) ->
  exists w' h' t', himport_r apply buf sep 0 [] false w h = Some (1, w', h') /\ hwf h' t' /\
    abs t' = list_to_map l /\ allocs w' = [] /\ applied w' = applied w.
Proof.
  intros Hsep Hh Hw Hl Hnd buf Hroom. unfold himport_r, allocate. rewrite Hw. cbn [negb].
  destruct (import_table_fresh apply (zlen buf) w h Hh Hw) as (h1 & -> & Hsz & Hwf1 & Ha1 & Ho1); [lia |].
  cbn [mbind option_bind Z.eqb fmap list_fmap]. destruct l as [| e l].
  - destruct (import_loop_empty apply sep 0 Hsep (length buf) n w h1 _ Hwf1) as (h' & t' & w' & He & Hwf' & Ha' & Hal & Hap).
    unfold buf at 2. cbn [export_text flat_map app]. rewrite He. cbn [mbind option_bind i_vars import_unseen i_world i_tab].
    exists w', h', t'. split_and!; [done | done | by rewrite Ha', Ha1, delete_empty | congruence | done].
  - destruct (import_loop_entries apply sep 0 Hsep (e :: l) (S (length buf)) (replicate n 0) w h1 (fresh_table (size h1)))
      as (h' & t' & He & Hwf' & Ha'); [| done | done | done | done | done | lia |].
    { enough (length (e :: l) <= length (export_text sep (e :: l)))%nat.
      { unfold buf. rewrite length_app. lia. }
      clear. induction (e :: l) as [| x l' IH]; [done |]. unfold export_text in *. cbn [flat_map]. rewrite length_app.
      assert (1 <= length (entry_text sep x))%nat; [| cbn [length]; lia].
      unfold entry_text. rewrite !length_app. cbn [length]. lia. }
    unfold buf at 2. cbn [replicate]. rewrite He. cbn [mbind option_bind i_vars import_unseen i_world i_tab].
    exists w, h', t'. split_and!; [done | done | by rewrite Ha', Ha1, (right_id_L ∅ (∪)) | done | done].
Qed.

Lemma chosen_all l : chosen [] l = l.
Proof. unfold chosen. apply filter_all, Forall_forall. done. Qed.

Lemma export_text_bytes sep l : is_byte sep -> Forall (fun e : pair => str_ok e.1 /\ str_ok e.2) l -> is_bytes (export_text sep l).
Proof.
  intros Hsep. induction 1 as [| [k d] l [Hk Hd] _ IH]; [by apply Forall_nil |]. cbn [fst snd] in *.
  unfold export_text. cbn [flat_map]. apply Forall_app. split; [| exact IH]. unfold entry_text. cbn [fst snd].
  assert (forall s, str_ok s -> is_bytes s) as Hs by (intros s H; apply (Forall_impl _ _ _ H); unfold is_byte; lia).
  rewrite !Forall_app. split_and!; [by apply Hs | solve_bytes | | solve_bytes].
  unfold escape. apply Hs in Hd. clear -Hd. induction Hd as [| c d Hc _ IH]; [by apply Forall_nil |]. cbn [flat_map].
  apply Forall_app. split; [| exact IH]. destruct (needs_escape sep c); solve_bytes.
Qed.

Lemma export_import_at apply sep h t sz w w0 h0 : sep_ok sep -> hwf h t -> allocs w0 = [] ->
  (table h0 = None \/ exists t0, hwf h0 t0) ->
  (forall k d, abs t !! k = Some d -> name_ok sep k /\ value_ok d /\ (sep <> 0 \/ BACKSLASH ∉ d)) ->
  total_room sep (entries t) < sz ->
  Z.of_nat (base.size (abs t)) <= Z.min CONFIG_ENV_MAX_ENTRIES (CONFIG_ENV_MIN_ENTRIES + sz / 8) ->
  exists buf w' h' t', hexport_r h sep (Some sz) sz [] w = Some (sz, Some buf, w) /\
    zlen buf = sz /\ himport_r apply buf sep 0 [] false w0 h0 = Some (1, w', h') /\
    hwf h' t' /\ abs t' = abs t /\ (is_byte sep -> is_bytes buf) /\ allocs w' = [] /\ applied w' = applied w0.
Proof.
  intros Hsep Hwf Hw Hh0 Hvars Hsz Hcount. pose proof Hwf as (_ & Hok & _). pose proof (ok_keys _ _ Hok) as Hnd.
  assert (forall e, e ∈ entries t -> name_ok sep e.1 /\ value_ok e.2 /\ (sep <> 0 \/ BACKSLASH ∉ e.2)) as Hall.
  { intros [k d] Hin. apply (Hvars k d). by apply elem_of_list_to_map. }
  assert (counted sep (entries t)) as Hc.
  { destruct (decide (sep = 0)) as [-> | Hne]; [right | by left]. apply Forall_forall. intros e He.
    destruct (Hall e He) as (_ & [Hs _] & [|]); done. }
  assert (0 <= total_room sep (entries t)) as H0.
  { pose proof (export_text_room sep (entries t) Hc). lia. }
  destruct (hexport_spec h t sep [] sz w Hwf) as (lst & Hp & Hroom & He); [by rewrite chosen_all |].
  rewrite chosen_all in *. rewrite (proj2 (Z.eqb_neq sz 0)), (proj2 (Z.ltb_ge sz _)) in He by lia. cbn [orb] in He.
  destruct (Z.to_nat sz - length (export_text sep lst))%nat as [| n] eqn:Hn; [lia |].
  assert (zlen (export_text sep lst ++ replicate (S n) 0) = sz) as Hlen.
  { rewrite length_app, length_replicate. lia. }
  rewrite abs_size in Hcount by done.
  destruct (himport_text apply sep lst n w0 h0) as (w' & h' & t' & Hi & Hwf' & Ha' & Hal & Hap); [done | done | done | | | |].
  - rewrite Hp. apply Forall_forall. intros e Hin. destruct (Hall e Hin) as (? & ? & _). done.
  - by rewrite Hp.
  - rewrite (Permutation_length Hp), Hlen. done.
  - eexists _, w', h', t'. split_and!; [exact He | done | done | done | | | done | done].
    + rewrite Ha'. symmetry. apply entries_perm_abs; [done | by rewrite Hp].
    + intros Hsb. apply Forall_app. split; [| by apply Forall_replicate].
      apply export_text_bytes; [done |]. rewrite Hp. apply Forall_forall. intros e Hin.
      destruct (Hall e Hin) as ((Hk & _) & [Hd _] & _). done.
Qed.

(** Saving and restoring the environment: what [hexport_r] writes into a
    buffer that is large enough, [himport_r] reads back, for every separator
    except '=' and backslash, into a new table that stands for the same map.
    Names contain neither '=' nor the separator and start with neither a blank
    nor '#'; values are not empty and arbitrary otherwise (with NUL as the
    separator, without backslashes); the number of variables is within the
    size chosen for the new table. *)
Theorem himport_hexport_roundtrip sep h t sz w h0 : sep_ok sep -> hwf h t -> allocs w = [] ->
  (table h0 = None \/ exists t0, hwf h0 t0) ->
  (forall k d, abs t !! k = Some d -> name_ok sep k /\ value_ok d /\ (sep <> 0 \/ BACKSLASH ∉ d)) ->
  total_room sep (entries t) < sz ->
  Z.of_nat (base.size (abs t)) <= Z.min CONFIG_ENV_MAX_ENTRIES (CONFIG_ENV_MIN_ENTRIES + sz / 8) ->
  exists buf w' h' t', hexport_r h sep (Some sz) sz [] w = Some (sz, Some buf, w) /\
    zlen buf = sz /\ himport_r None buf sep 0 [] false w h0 = Some (1, w', h') /\
    hwf h' t' /\ abs t' = abs t.
Proof.
  intros Hsep Hwf Hw Hh0 Hvars Hsz Hcount.
  destruct (export_import_at None sep h t sz w w h0) as (buf & w' & h' & t' & H1 & H2 & H3 & H4 & H5 & _); [done.. |].
  by exists buf, w', h', t'.
Qed.

(** [hexport_r] into a buffer of [sz] bytes: the result is the error -1,
    with the buffer untouched, exactly when [sz] is at most the estimate of
    pass 1; otherwise all writes stay inside the buffer, which then holds the
    texts of all selected entries, in some order, padded with zeros to [sz]
    bytes.  Required is that the separator is not NUL, or that no value has a
    backslash. *)
Theorem hexport_r_correct h t sep argv sz w : hwf h t -> 0 < sz -> counted sep (chosen argv (entries t)) ->
  (sz <= total_room sep (chosen argv (entries t)) /\
     hexport_r h sep (Some sz) sz argv w = Some (-1, None, set_errno ENOMEM w)) \/
  (exists lst n, lst ≡ₚ chosen argv (entries t) /\
     hexport_r h sep (Some sz) sz argv w = Some (sz, Some (export_text sep lst ++ replicate (S n) 0), w) /\
     zlen (export_text sep lst ++ replicate (S n) 0) = sz).
Proof.
  intros Hwf Hsz Hc. destruct (hexport_spec h t sep argv sz w Hwf Hc) as (lst & Hp & Hroom & He).
  rewrite (proj2 (Z.eqb_neq sz 0)) in He by lia. cbn [orb] in He.
  destruct (Z.ltb_spec sz (total_room sep (chosen argv (entries t)) + 1)) as [Hlt | Hge]; [left; split; [lia | done] |].
  right. destruct (Z.to_nat sz - length (export_text sep lst))%nat as [| n] eqn:Hn; [lia |].
  exists lst, n. split_and!; [done | done |]. rewrite length_app, length_replicate. lia.
Qed.

Module HashIOExamples.
Import HashtableExamples.

Definition vars : list op :=
  [Enter (str "bootcmd") (str "bootbk 0x1a000000 bootkernel1"); Enter (str "ipaddr") (str "192.168.0.1");
   Enter (str "serial") [65; 10; 92; 66]].

Definition env : hsearch_data :=
  match run None false vars calm empty5 with Some (_, _, h) => h | None => no_table end.
Definition env_table : list slot := default [] (table env).

Lemma env_run : exists w' h' t', run None false vars calm empty5 = Some ((spec_run vars (abs (fresh_table 5))).1, w', h') /\
  hwf h' t' /\ abs t' = (spec_run vars (abs (fresh_table 5))).2 /\ size h' = size empty5.
Proof.
  apply (run_refines None false vars calm empty5 (fresh_table 5)); [apply empty5_wf | | reflexivity | vm_compute; discriminate].
  repeat (apply Forall_cons; split; [unfold str_ok; repeat (apply Forall_cons; split; [done |]); by apply Forall_nil |]).
  by apply Forall_nil.
Qed.

Lemma env_wf : hwf env env_table.
Proof.
  destruct env_run as (w' & h' & t' & He & Hwf & _ & _).
  assert (h' = env) as -> by (unfold env; by rewrite He).
  assert (env_table = t') as ->; [| done]. destruct Hwf as (Ht & _). unfold env_table. by rewrite Ht.
Qed.

Lemma env_entries : entries env_table =
  [(str "bootcmd", str "bootbk 0x1a000000 bootkernel1"); (str "serial", [65; 10; 92; 66]);
   (str "ipaddr", str "192.168.0.1")].
Proof. vm_compute. reflexivity. Qed.

Ltac solve_string :=
  repeat first [split | apply Forall_cons | apply Forall_nil | done | discriminate].

Lemma env_vars_ok k d : abs env_table !! k = Some d -> name_ok 10 k /\ value_ok d /\ (10 <> 0 \/ BACKSLASH ∉ d).
Proof.
  intros H%elem_of_list_to_map_2. rewrite env_entries in H.
  repeat (apply elem_of_cons in H as [H | H]; [injection H as -> ->; split; [solve_string |]; split; [solve_string | by left] |]).
  by apply not_elem_of_nil in H.
Qed.

Lemma himport_hexport_roundtrip_witness : exists buf w' h' t',
  hexport_r env 10 (Some 200) 200 [] calm = Some (200, Some buf, calm) /\
  zlen buf = 200 /\ himport_r None buf 10 0 [] false calm env = Some (1, w', h') /\
  hwf h' t' /\ abs t' = abs env_table.
Proof.
  apply (himport_hexport_roundtrip 10 env env_table 200 calm env).
  - by split.
  - apply env_wf.
  - reflexivity.
  - right. exists env_table. apply env_wf.
  - apply env_vars_ok.
  - rewrite env_entries. vm_compute. reflexivity.
  - rewrite abs_size by apply env_wf. rewrite env_entries. vm_compute. discriminate.
Defined.

Lemma hexport_r_correct_witness :
  let all := chosen [] (entries env_table) in
  (100 <= total_room 10 all /\ hexport_r env 10 (Some 100) 100 [] calm = Some (-1, None, set_errno ENOMEM calm)) \/
  (exists lst n, lst ≡ₚ all /\
     hexport_r env 10 (Some 100) 100 [] calm = Some (100, Some (export_text 10 lst ++ replicate (S n) 0), calm) /\
     zlen (export_text 10 lst ++ replicate (S n) 0) = 100).
Proof. apply (hexport_r_correct env env_table 10 [] 100 calm); [apply env_wf | lia | by left]. Defined.

(** One variable whose value is five backslashes. *)
Definition slashes : hsearch_data :=
  match run None false [Enter (str "a") (replicate 5 BACKSLASH)] calm empty5 with
  | Some (_, _, h) => h
  | None => no_table
  end.

(** With NUL as the separator, which is how the environment is saved,
    backslashes are escaped in the output but not counted in the estimate: a
    buffer size of 11 bytes is accepted for a text of 14 bytes, so the write
    runs over the end of a buffer of that size. *)
Theorem hexport_r_overflows : exists buf,
  hexport_r slashes 0 (Some 14) 11 [] calm = Some (11, Some buf, calm) /\ zlen buf = 14 /\
  hexport_r slashes 0 (Some 11) 11 [] calm = None.
Proof. eexists. split_and!; [vm_compute; reflexivity | reflexivity | vm_compute; reflexivity]. Qed.

End HashIOExamples.
