(* ===== verification/Vsprintf.v ===== *)
(** * Numbers and formatted text (lib/vsprintf.c)

    A string argument or format is the list of its characters; reading at its
    end gives the terminator 0.  Text is produced through [ADDCH] only, so a
    formatting routine is the list of the characters it adds; [vsprintf] puts
    them into memory without a limit and [vsnprintf] stores them one by one in a
    memory, below the end of a buffer.  The variable arguments are a list of
    tagged values, [int], [long], [size_t] and [ptrdiff_t] being 32 bits wide;
    taking an argument of another kind than was passed, or one that was not
    passed, is the fault [None]. *)

From S2P Require Import Prelude Ctype StringLib Div64.

Abbreviation text := (list Z).

(** The character at a position, 0 at the end of the string. *)
Definition at0 (s : text) : Z := default 0 (head s).

Definition hex_asc : text := str "0123456789abcdef".
Definition hex_asc_lo (x : Z) : Z := default 0 (hex_asc !! Z.to_nat (Z.land x 0x0f)).
Definition hex_asc_hi (x : Z) : Z := default 0 (hex_asc !! Z.to_nat (Z.shiftr (Z.land x 0xf0) 4)).

Definition pack_hex_byte (byte : Z) : text := [hex_asc_hi byte; hex_asc_lo byte].

(** ** Reading numbers *)

(** The prefix: the base to use and the position of the digits. *)
Definition strto_prefix (cp : text) (base : Z) : text * Z :=
  let '(cp, base) :=
    if at0 cp =? 48 then
      let cp := tail cp in
      let '(cp, base) := if (at0 cp =? 120) && isxdigit (at0 (tail cp)) then (tail cp, 16) else (cp, base) in
      (cp, if base =? 0 then 8 else base)
    else (cp, base) in
  (cp, if base =? 0 then 10 else base).

(** [isdigit( *cp) ? *cp-'0' : (islower( *cp) ? toupper( *cp) : *cp)-'A'+10] *)
Definition digit_value (c : Z) : Z :=
  if isdigit c then c - 48 else (if islower c then toupper c else c) - 65 + 10.

(** The digit loop at width [w]: the result and the end position. *)
Fixpoint strto_loop (w : Z) (cp : text) (base result : Z) : Z * text :=
  match cp with
  | c :: r =>
      if isxdigit c && (digit_value c <? base)
      then strto_loop w r base (wrap w (wrap w (result * base) + digit_value c))
      else (result, cp)
  | [] => (result, [])
  end.

Definition simple_strtoul (cp : text) (base : Z) : Z * text :=
  let '(cp, base) := strto_prefix cp base in strto_loop 32 cp base 0.

Definition simple_strtoull (cp : text) (base : Z) : Z * text :=
  let '(cp, base) := strto_prefix cp base in strto_loop 64 cp base 0.

Definition EINVAL : Z := 22.

(** The return value and [*res]. *)
Definition strict_strtoul (cp : text) (base : Z) : Z * Z :=
  if zlen cp =? 0 then (- EINVAL, 0)
  else
    let '(val, tl) := simple_strtoul cp base in
    if zlen tl =? zlen cp then (- EINVAL, 0)
    else if (at0 tl =? 0) || ((zlen cp =? zlen cp - zlen tl + 1) && (at0 tl =? 10)) then (0, val)
    else (- EINVAL, 0).

Definition simple_strtol (cp : text) (base : Z) : Z * text :=
  if at0 cp =? 45
  then let '(v, e) := simple_strtoul (tail cp) base in (s32 (u32 (- v)), e)
  else let '(v, e) := simple_strtoul cp base in (s32 v, e).

Definition ustrtoul (cp : text) (base : Z) : Z * text :=
  let '(result, endp) := simple_strtoul cp base in
  let c := at0 endp in
  let kilo r := u32 (r * 1024) in
  let suffix :=
    if at0 (tail endp) =? 105 then
      if at0 (tail (tail endp)) =? 66 then drop 3 endp else drop 2 endp
    else endp in
  if c =? 71 then (s32 (kilo (kilo (kilo result))), suffix)
  else if c =? 77 then (s32 (kilo (kilo result)), suffix)
  else if (c =? 75) || (c =? 107) then (s32 (kilo result), suffix)
  else (s32 result, endp).

Definition is_digit (c : Z) : bool := (48 <=? c) && (c <=? 57).

Fixpoint skip_atoi_loop (s : text) (i : Z) : Z * text :=
  match s with
  | c :: r => if is_digit c then skip_atoi_loop r (s32 (s32 (i * 10) + c - 48)) else (i, s)
  | [] => (i, [])
  end.
Definition skip_atoi (s : text) : Z * text := skip_atoi_loop s 0.

(** ** Decimal digits, least significant first *)

Definition put_dec_trunc (q : Z) : text :=
  let d1 := Z.land (Z.shiftr q 4) 0xf in
  let d2 := Z.land (Z.shiftr q 8) 0xf in
  let d3 := Z.shiftr q 12 in
  let d0 := u32 (6 * (d3 + d2 + d1) + Z.land q 0xf) in
  let q := Z.shiftr (u32 (d0 * 0xcd)) 11 in
  let d0 := u32 (d0 - 10 * q) in
  let d1 := u32 (q + 9 * d3 + 5 * d2 + d1) in
  u8 (d0 + 48) ::
  if d1 =? 0 then [] else
    let q := Z.shiftr (u32 (d1 * 0xcd)) 11 in
    let d1 := u32 (d1 - 10 * q) in
    let d2 := u32 (q + 2 * d2) in
    u8 (d1 + 48) ::
    if (d2 =? 0) && (d3 =? 0) then [] else
      let q := Z.shiftr (u32 (d2 * 0xd)) 7 in
      let d2 := u32 (d2 - 10 * q) in
      let d3 := u32 (q + 4 * d3) in
      u8 (d2 + 48) ::
      if d3 =? 0 then [] else
        let q := Z.shiftr (u32 (d3 * 0xcd)) 11 in
        let d3 := u32 (d3 - 10 * q) in
        u8 (d3 + 48) :: (if q =? 0 then [] else [u8 (q + 48)]).

Definition put_dec_full (q : Z) : text :=
  let d1 := Z.land (Z.shiftr q 4) 0xf in
  let d2 := Z.land (Z.shiftr q 8) 0xf in
  let d3 := Z.shiftr q 12 in
  let d0 := u32 (6 * (d3 + d2 + d1) + Z.land q 0xf) in
  let q := Z.shiftr (u32 (d0 * 0xcd)) 11 in
  let d0 := u32 (d0 - 10 * q) in
  let d1 := u32 (q + 9 * d3 + 5 * d2 + d1) in
  let q := Z.shiftr (u32 (d1 * 0xcd)) 11 in
  let d1 := u32 (d1 - 10 * q) in
  let d2 := u32 (q + 2 * d2) in
  let q := Z.shiftr (u32 (d2 * 0xd)) 7 in
  let d2 := u32 (d2 - 10 * q) in
  let d3 := u32 (q + 4 * d3) in
  let q := Z.shiftr (u32 (d3 * 0xcd)) 11 in
  let d3 := u32 (d3 - 10 * q) in
  [u8 (d0 + 48); u8 (d1 + 48); u8 (d2 + 48); u8 (d3 + 48); u8 (q + 48)].

(** A 64-bit number has at most four groups of five digits. *)
Fixpoint put_dec_loop (fuel : nat) (num : Z) : option text :=
  match fuel with
  | O => None
  | S fuel =>
      if num <? 100000 then Some (put_dec_trunc (u32 num))
      else
        '(rem, num) ← do_div num 100000;
        r ← put_dec_loop fuel num; Some (put_dec_full rem ++ r)
  end.
Definition put_dec (num : Z) : option text := put_dec_loop 5 num.

(** ** Fields *)

Definition ZEROPAD : Z := 1.
Definition SIGN : Z := 2.
Definition PLUS : Z := 4.
Definition SPACE : Z := 8.
Definition LEFT : Z := 16.
Definition SMALL : Z := 32.
Definition SPECIAL : Z := 64.

Definition flag (type f : Z) : bool := negb (Z.land type f =? 0).

(** [while (--size >= 0) ADDCH(buf, c);]: what is added, and [size] after it. *)
Definition pad_loop (size c : Z) : text * Z := (replicate (Z.to_nat size) c, Z.min size 0 - 1).

Definition digits : text := str "0123456789ABCDEF".

(** [do { tmp[i++] = digits[(unsigned char)num & mask] | locase; num >>= shift; } while (num);] *)
Fixpoint radix_loop (fuel : nat) (num mask shift locase : Z) : option text :=
  match fuel with
  | O => None
  | S fuel =>
      let c := Z.lor (default 0 (digits !! Z.to_nat (Z.land (u8 num) mask))) locase in
      let num := Z.shiftr num shift in
      if num =? 0 then Some [c] else r ← radix_loop fuel num mask shift locase; Some (c :: r)
  end.

(** The digits of [num], least significant first. *)
Definition number_digits (num base locase : Z) : option text :=
  if num =? 0 then Some [48]
  else if negb (base =? 10) then radix_loop 22 num (base - 1) (if base =? 16 then 4 else 3) locase
  else put_dec num.

(** [sign], the magnitude and the remaining field width. *)
Definition number_sign (num size type : Z) : Z * Z * Z :=
  if flag type SIGN then
    if swrap 64 num <? 0 then (45, u64 (- num), size - 1)
    else if flag type PLUS then (43, num, size - 1)
    else if flag type SPACE then (32, num, size - 1)
    else (0, num, size)
  else (0, num, size).

Definition number (num base size precision type : Z) : option text :=
  let need_pfx := flag type SPECIAL && negb (base =? 10) in
  let locase := Z.land type SMALL in
  let type := if flag type LEFT then Z.land type (-2) else type in
  let '(sign, num, size) := number_sign num size type in
  let size := if need_pfx then (if base =? 16 then size - 2 else size - 1) else size in
  tmp ← number_digits num base locase;
  let i := zlen tmp in
  let precision := if precision <? i then i else precision in
  let size := size - precision in
  let '(lead, size) := if flag type (ZEROPAD + LEFT) then ([], size) else pad_loop size 32 in
  let sgn := if sign =? 0 then [] else [sign] in
  let pfx := if need_pfx then 48 :: (if base =? 16 then [Z.lor 88 locase] else []) else [] in
  let '(mid, size) :=
    if flag type LEFT then ([], size) else pad_loop size (if flag type ZEROPAD then 48 else 32) in
  let zeros := replicate (Z.to_nat (precision - i)) 48 in
  let '(trail, _) := pad_loop size 32 in
  Some (lead ++ sgn ++ pfx ++ mid ++ zeros ++ reverse tmp ++ trail).

(** [while (len < field_width--) ADDCH(buf, ' ');] *)
Definition fill_loop (len field_width : Z) : text * Z :=
  (replicate (Z.to_nat (field_width - len)) 32, Z.min field_width len - 1).

(** [strnlen(s, precision)]: a negative precision is a huge limit. *)
Definition string (s : option text) (field_width precision flags : Z) : text :=
  let s := default (str "<NULL>") s in
  let len := if precision <? 0 then zlen s else Z.min (zlen s) precision in
  let '(lead, field_width) := if flag flags LEFT then ([], field_width) else fill_loop len field_width in
  let '(trail, _) := fill_loop len field_width in
  lead ++ take (Z.to_nat len) s ++ trail.

(** Joining groups with a separator between them. *)
Fixpoint join (sep : text) (l : list text) : text :=
  match l with
  | [] => []
  | [x] => x
  | x :: l => x ++ sep ++ join sep l
  end.

Definition mac_address_string (addr : list Z) (field_width precision flags : Z) : text :=
  string (Some (join (if flag flags SPECIAL then [] else [58]) (pack_hex_byte <$> take 6 addr)))
    field_width precision (Z.land flags (-65)).

Definition ip6_addr_string (addr : list Z) (field_width precision flags : Z) : text :=
  let quad i := pack_hex_byte (nth (2 * i) addr 0) ++ pack_hex_byte (nth (2 * i + 1) addr 0) in
  string (Some (join (if flag flags SPECIAL then [] else [58]) (quad <$> seq 0 8)))
    field_width precision (Z.land flags (-65)).

Definition ip4_addr_string (addr : list Z) (field_width precision flags : Z) : text :=
  string (Some (join [46] ((fun b => reverse (put_dec_trunc b)) <$> take 4 addr)))
    field_width precision (Z.land flags (-65)).

(** A pointer argument: its value and the bytes it points to.  [fmt] is the
    text behind the 'p'. *)
Definition pointer (fmt : text) (ptr : Z) (bytes : list Z) (field_width precision flags : Z) : option text :=
  if ptr =? 0 then Some (string (Some (str "(null)")) field_width precision flags)
  else
    let plain flags :=
      let flags := Z.lor flags SMALL in
      let '(field_width, flags) :=
        if field_width =? -1 then (8, Z.lor flags ZEROPAD) else (field_width, flags) in
      number ptr 16 field_width precision flags in
    let c := at0 fmt in
    let special := if (c =? 109) || (c =? 105) then Z.lor flags SPECIAL else flags in
    if (c =? 109) || (c =? 77) then
      if zlen bytes <? 6 then None else Some (mac_address_string bytes field_width precision special)
    else if (c =? 105) || (c =? 73) then
      if at0 (tail fmt) =? 54 then
        if zlen bytes <? 16 then None else Some (ip6_addr_string bytes field_width precision special)
      else if at0 (tail fmt) =? 52 then
        if zlen bytes <? 4 then None else Some (ip4_addr_string bytes field_width precision special)
      else plain (Z.land special (-65))
    else plain flags.

(** ** The format interpreter *)

Inductive arg :=
| A32 (v : Z)                        (* int, unsigned, long, size_t, ptrdiff_t: 32 bits *)
| A64 (v : Z)                        (* long long: 64 bits *)
| AStr (s : option text)             (* char * *)
| APtr (ptr : Z) (bytes : list Z)    (* void * *)
| AOut.                              (* int * or long *, for %n *)

Definition next32 (args : list arg) : option (Z * list arg) :=
  match args with A32 v :: args => Some (u32 v, args) | _ => None end.

(** [repeat: ++fmt; switch ( *fmt) ...] *)
Fixpoint parse_flags (fmt : text) (flags : Z) : Z * text :=
  match fmt with
  | c :: r =>
      if c =? 45 then parse_flags r (Z.lor flags LEFT)
      else if c =? 43 then parse_flags r (Z.lor flags PLUS)
      else if c =? 32 then parse_flags r (Z.lor flags SPACE)
      else if c =? 35 then parse_flags r (Z.lor flags SPECIAL)
      else if c =? 48 then parse_flags r (Z.lor flags ZEROPAD)
      else (flags, fmt)
  | [] => (flags, [])
  end.

(** The field width, the flags, the position and the arguments after it. *)
Definition parse_width (fmt : text) (flags : Z) (args : list arg) : option (Z * Z * text * list arg) :=
  if is_digit (at0 fmt) then let '(w, fmt) := skip_atoi fmt in Some (w, flags, fmt, args)
  else if at0 fmt =? 42 then
    '(v, args) ← next32 args;
    let w := s32 v in
    if w <? 0 then Some (s32 (- w), Z.lor flags LEFT, tail fmt, args) else Some (w, flags, tail fmt, args)
  else Some (-1, flags, fmt, args).

Definition parse_precision (fmt : text) (args : list arg) : option (Z * text * list arg) :=
  if at0 fmt =? 46 then
    let fmt := tail fmt in
    '(p, fmt, args) ←
      (if is_digit (at0 fmt) then let '(p, fmt) := skip_atoi fmt in Some (p, fmt, args)
       else if at0 fmt =? 42 then '(v, args) ← next32 args; Some (s32 v, tail fmt, args)
       else Some (-1, fmt, args));
    Some ((if p <? 0 then 0 else p), fmt, args)
  else Some (-1, fmt, args).

(** The qualifier, -1 when there is none; "ll" is 'L'. *)
Definition parse_qualifier (fmt : text) : Z * text :=
  let c := at0 fmt in
  if (c =? 104) || (c =? 108) || (c =? 76) || (c =? 90) || (c =? 122) || (c =? 116) then
    let fmt := tail fmt in
    if (c =? 108) && (at0 fmt =? 108) then (76, tail fmt) else (c, fmt)
  else (-1, fmt).

(** The number to print, as a 64-bit value. *)
Definition fetch_number (qualifier flags : Z) (args : list arg) : option (Z * list arg) :=
  if qualifier =? 76 then
    match args with A64 v :: args => Some (u64 v, args) | _ => None end
  else
    '(v, args) ← next32 args;
    let num :=
      if qualifier =? 108 then (if flag flags SIGN then u64 (s32 v) else v)
      else if (qualifier =? 90) || (qualifier =? 122) then v
      else if qualifier =? 116 then u64 (s32 v)
      else if qualifier =? 104 then (if flag flags SIGN then u64 (swrap 16 (u16 v)) else u16 v)
      else (if flag flags SIGN then u64 (s32 v) else v) in
    Some (num, args).

(** A 'c' conversion. *)
Definition char_field (c field_width flags : Z) : text :=
  let pad := replicate (Z.to_nat (field_width - 1)) 32 in
  if flag flags LEFT then u8 c :: pad else pad ++ [u8 c].

(** [while (isalnum(fmt[1])) fmt++;] on the text behind the 'p'. *)
Fixpoint skip_alnum (fmt : text) : text :=
  match fmt with
  | c :: r => if isalnum c then skip_alnum r else fmt
  | [] => []
  end.

(** One conversion; [fmt] is at the conversion character.  The text added, the
    rest of the format and of the arguments, and whether the number of
    characters so far is stored ('n'). *)
Definition conversion (fmt : text) (field_width precision qualifier flags : Z) (args : list arg) :
    option (text * text * list arg * bool) :=
  let c := at0 fmt in
  let num base flags :=
    '(n, args) ← fetch_number qualifier flags args;
    t ← number n base field_width precision flags;
    Some (t, tail fmt, args, false) in
  if c =? 99 then '(v, args) ← next32 args; Some (char_field v field_width flags, tail fmt, args, false)
  else if c =? 115 then
    match args with
    | AStr s :: args => Some (string s field_width precision flags, tail fmt, args, false)
    | _ => None
    end
  else if c =? 112 then
    match args with
    | APtr p bytes :: args =>
        t ← pointer (tail fmt) p bytes field_width precision flags;
        Some (t, skip_alnum (tail fmt), args, false)
    | _ => None
    end
  else if c =? 110 then
    match args with AOut :: args => Some ([], tail fmt, args, true) | _ => None end
  else if c =? 37 then Some ([37], tail fmt, args, false)
  else if c =? 111 then num 8 flags
  else if c =? 120 then num 16 (Z.lor flags SMALL)
  else if c =? 88 then num 16 flags
  else if (c =? 100) || (c =? 105) then num 10 (Z.lor flags SIGN)
  else if c =? 117 then num 10 flags
  else if c =? 0 then Some ([37], fmt, args, false)
  else Some ([37; c], tail fmt, args, false).

Definition parse_conversion (fmt : text) (args : list arg) : option (text * text * list arg * bool) :=
  let '(flags, fmt) := parse_flags fmt 0 in
  '(field_width, flags, fmt, args) ← parse_width fmt flags args;
  '(precision, fmt, args) ← parse_precision fmt args;
  let '(qualifier, fmt) := parse_qualifier fmt in
  conversion fmt field_width precision qualifier flags args.

(** [for (; *fmt ; ++fmt)]: the text and the values stored by 'n', in order. *)
Fixpoint format_loop (fuel : nat) (fmt : text) (args : list arg) (str : text) (outs : list Z) :
    option (text * list Z) :=
  match fuel with
  | O => None
  | S fuel =>
      match fmt with
      | [] => Some (str, outs)
      | c :: r =>
          if negb (c =? 37) then format_loop fuel r args (str ++ [c]) outs
          else
            '(t, r, args, out) ← parse_conversion r args;
            format_loop fuel r args (str ++ t)
              (if out : bool then outs ++ [zlen str] else outs)
      end
  end.

Definition vsnprintf_text (fmt : text) (args : list arg) : option (text * list Z) :=
  format_loop (S (length fmt)) fmt args [] [].

(** Without CONFIG_SYS_VSNPRINTF: the memory written and the return value. *)
Definition vsprintf (fmt : text) (args : list arg) : option (text * Z) :=
  '(t, _) ← vsnprintf_text fmt args; Some (t ++ [0], zlen t).

(** With CONFIG_SYS_VSNPRINTF: [ADDCH] at the address [str], below [end_], in the
    memory of StringLib, where a store at an address without memory is a fault. *)
Definition ADDCH (end_ : Z) (st : mem * Z) (ch : Z) : option (mem * Z) :=
  let '(m, str) := st in
  m ← (if str <? end_ then store m str ch else Some m);
  Some (m, u32 (str + 1)).

Fixpoint addch_text (end_ : Z) (st : mem * Z) (t : text) : option (mem * Z) :=
  match t with
  | [] => Some st
  | c :: t => st ← ADDCH end_ st c; addch_text end_ st t
  end.

(** The buffer is cut at the end of the address space. *)
Definition buffer_end (buf size : Z) : Z * Z :=
  let end_ := u32 (buf + size) in
  if end_ <? buf then (2 ^ 32 - 1, 2 ^ 32 - 1 - buf) else (end_, size).

Definition vsnprintf (m : mem) (buf size : Z) (fmt : text) (args : list arg) : option (mem * Z) :=
  let '(end_, size) := buffer_end buf size in
  '(t, _) ← vsnprintf_text fmt args;
  '(m, str) ← addch_text end_ (m, buf) t;
  if 0 <? size then
    '(m, str) ← ADDCH end_ (m, str) 0;
    m ← (if end_ <? str then store m (end_ - 1) 0 else Some m);
    Some (m, s32 (str - buf))
  else Some (m, s32 (str - buf)).

Definition vscnprintf (m : mem) (buf size : Z) (fmt : text) (args : list arg) : option (mem * Z) :=
  '(m, i) ← vsnprintf m buf size fmt args;
  Some (m, if u32 i <? size then i else if negb (size =? 0) then s32 (size - 1) else 0).

(** ** [simple_itoa] *)

(** [do { *p-- = '0' + i % 10; i /= 10; } while (i > 0);]: the digits in front
    of those already stored. *)
Fixpoint itoa_loop (fuel : nat) (i : Z) (acc : text) : option text :=
  match fuel with
  | O => None
  | S fuel =>
      let acc := (48 + i mod 10) :: acc in
      let i := i / 10 in
      if 0 <? i then itoa_loop fuel i acc else Some acc
  end.

(** The buffer has room for 21 digits. *)
Definition simple_itoa (i : Z) : option text := itoa_loop 21 i [].

(** ** Digits of a number *)

(** The digits to a base, least significant first; one digit for 0. *)
Fixpoint rdigits (b : Z) (fuel : nat) (n : Z) : list Z :=
  match fuel with
  | O => []
  | S fuel => n mod b :: (if n / b =? 0 then [] else rdigits b fuel (n / b))
  end.

(** Their value. *)
Fixpoint dval (b : Z) (ds : list Z) : Z :=
  match ds with [] => 0 | d :: ds => d + b * dval b ds end.

(** The digits of a 64-bit number. *)
Definition digits_of (b n : Z) : list Z := rdigits b 64 n.

(** The character of a digit, in either case. *)
Definition dchar (locase d : Z) : Z := Z.lor (default 0 (digits !! Z.to_nat d)) locase.

Lemma div_base_bound b n f : 2 <= b -> 0 <= n < b ^ Z.of_nat (S f) -> 0 <= n / b < b ^ Z.of_nat f.
Proof.
  intros Hb Hn. rewrite Nat2Z.inj_succ, Z.pow_succ_r in Hn by lia.
  split; [apply Z.div_pos; lia |]. apply Z.div_lt_upper_bound; lia.
Qed.

Lemma rdigits_fuel b f1 : 2 <= b -> forall f2 n, 0 <= n -> n < b ^ Z.of_nat f1 -> n < b ^ Z.of_nat f2 ->
  (0 < f1)%nat -> (0 < f2)%nat -> rdigits b f1 n = rdigits b f2 n.
Proof.
  intros Hb. induction f1 as [| f1 IH]; intros f2 n Hn H1 H2 Hf1 Hf2; [lia |].
  destruct f2 as [| f2]; [lia |]. cbn [rdigits]. f_equal. destruct (Z.eqb_spec (n / b) 0) as [| Hne]; [done |].
  destruct (div_base_bound b n f1), (div_base_bound b n f2); [lia.. |].
  destruct f1 as [| f1]; [lia |]. destruct f2 as [| f2]; [lia |]. apply IH; lia.
Qed.

Lemma rdigits_spec b f : 2 <= b -> forall n, 0 <= n < b ^ Z.of_nat f -> (0 < f)%nat ->
  dval b (rdigits b f n) = n /\ Forall (fun d => 0 <= d < b) (rdigits b f n) /\
  exists ds d, rdigits b f n = ds ++ [d] /\ (d = 0 -> n = 0).
Proof.
  intros Hb. induction f as [| f IH]; intros n Hn Hf; [lia |]. cbn [rdigits dval].
  pose proof (Z.div_mod n b ltac:(lia)) as Hdm. pose proof (Z.mod_pos_bound n b ltac:(lia)) as Hm.
  destruct (Z.eqb_spec (n / b) 0) as [H0 | H0].
  - cbn [dval]. split_and!; [lia | by constructor |]. exists [], (n mod b). split; [done |]. lia.
  - destruct (div_base_bound b n f) as [Hd1 Hd2]; [lia | lia |].
    destruct f as [| f]; [cbn in Hd2; lia |].
    destruct (IH (n / b)) as (Hv & Hr & ds & d & He & Hd); [lia | lia |].
    split_and!; [rewrite Hv; lia | by constructor |].
    exists (n mod b :: ds), d. split; [by rewrite He |]. intros ->. specialize (Hd eq_refl). lia.
Qed.

Lemma pow_base_64 b : 2 <= b -> 2 ^ 64 <= b ^ Z.of_nat 64.
Proof. intros. change (Z.of_nat 64) with 64. apply Z.pow_le_mono_l. lia. Qed.

Lemma digits_of_spec b n : 2 <= b -> 0 <= n < 2 ^ 64 ->
  dval b (digits_of b n) = n /\ Forall (fun d => 0 <= d < b) (digits_of b n) /\
  exists ds d, digits_of b n = ds ++ [d] /\ (d = 0 -> n = 0).
Proof.
  intros Hb Hn. pose proof (pow_base_64 b Hb). apply rdigits_spec; lia.
Qed.

Lemma digits_of_step b n : 2 <= b -> 0 <= n < 2 ^ 64 ->
  digits_of b n = n mod b :: (if n / b =? 0 then [] else digits_of b (n / b)).
Proof.
  intros Hb Hn. pose proof (pow_base_64 b Hb).
  assert (0 <= n / b < 2 ^ 64) by (split; [apply Z.div_pos; lia | apply Z.div_lt_upper_bound; nia]).
  unfold digits_of. rewrite (rdigits_fuel b 64 Hb 65) by (try lia; rewrite ?(Nat2Z.inj_succ 64), ?Z.pow_succ_r; nia).
  done.
Qed.

(** ** The decimal routines *)

(** Multiplication by an approximate inverse divides by ten. *)
Lemma div10_205 x : 0 <= x < 400 -> Z.shiftr (u32 (x * 0xcd)) 11 = x / 10.
Proof.
  intros Hx. apply Z.eqb_eq.
  apply (all_from_spec (fun x => Z.shiftr (u32 (x * 0xcd)) 11 =? x / 10) 400 0); [vm_compute; reflexivity | lia].
Qed.

Lemma div10_13 x : 0 <= x < 69 -> Z.shiftr (u32 (x * 0xd)) 7 = x / 10.
Proof.
  intros Hx. apply Z.eqb_eq.
  apply (all_from_spec (fun x => Z.shiftr (u32 (x * 0xd)) 7 =? x / 10) 69 0); [vm_compute; reflexivity | lia].
Qed.

Ltac div_lia := Z.to_euclidean_division_equations; lia.

(** Two lists whose elements agree one by one. *)
Ltac list_lia :=
  repeat match goal with
  | |- ?a :: ?l = ?b :: ?m => replace b with a by div_lia; apply (f_equal (cons a))
  end; try reflexivity.

(** The binary-coded partial sums of the two routines. *)
Section Partial.
Context (q : Z) (Hq : 0 <= q < 100000).

Definition pd1 : Z := q / 16 mod 16.
Definition pd2 : Z := q / 256 mod 16.
Definition pd3 : Z := q / 4096.
Definition ps0 : Z := 6 * (pd3 + pd2 + pd1) + q mod 16.
Definition ps1 : Z := ps0 / 10 + 9 * pd3 + 5 * pd2 + pd1.
Definition ps2 : Z := ps1 / 10 + 2 * pd2.
Definition ps3 : Z := ps2 / 10 + 4 * pd3.

Lemma partial_bounds : 0 <= pd1 < 16 /\ 0 <= pd2 < 16 /\ 0 <= pd3 < 25 /\
  0 <= ps0 < 400 /\ 0 <= ps1 < 400 /\ 0 <= ps2 < 69 /\ 0 <= ps3 < 400 /\
  (9 * pd3 + 5 * pd2 <= ps1 /\ 2 * pd2 <= ps2 /\ 4 * pd3 <= ps3).
Proof using Hq.
  assert (0 <= pd1 < 16 /\ 0 <= pd2 < 16 /\ 0 <= pd3 < 25) as (H1 & H2 & H3).
  { unfold pd1, pd2, pd3. split_and!; div_lia. }
  assert (0 <= q mod 16 < 16) by div_lia.
  assert (0 <= ps0 < 340) by (unfold ps0; lia).
  assert (0 <= ps1 < 340) by (unfold ps1; div_lia).
  assert (0 <= ps2 < 64) by (unfold ps2; div_lia).
  assert (0 <= ps3 < 110) by (unfold ps3; div_lia).
  assert (9 * pd3 + 5 * pd2 <= ps1 /\ 2 * pd2 <= ps2 /\ 4 * pd3 <= ps3) by (unfold ps1, ps2, ps3; split_and!; div_lia). lia.
Qed.

(** What they say about the digits of [q]. *)
Lemma partial_digits : ps0 mod 10 = q mod 10 /\ q / 10 = 10 * (40 * pd3 + 2 * pd2) + ps1 /\
  q / 100 = 40 * pd3 + ps2 /\ q / 1000 = ps3.
Proof using Hq.
  assert (q = 4096 * pd3 + 256 * pd2 + 16 * pd1 + q mod 16) as Hs by (unfold pd1, pd2, pd3; div_lia).
  pose proof partial_bounds as (H1 & H2 & H3 & _). assert (0 <= q mod 16 < 16) as H0 by div_lia.
  assert (q = 10 * (409 * pd3 + 25 * pd2 + pd1) + ps0) as E0 by (unfold ps0; lia).
  assert (q / 10 = 10 * (40 * pd3 + 2 * pd2) + ps1) as E1 by (unfold ps1; div_lia).
  assert (q / 100 = 40 * pd3 + ps2) as E2.
  { replace 100 with (10 * 10) by done. rewrite <- Z.div_div, E1 by lia. unfold ps2. div_lia. }
  split_and!; [div_lia | done | done |].
  replace 1000 with (100 * 10) by done. rewrite <- Z.div_div, E2 by lia. unfold ps3. div_lia.
Qed.

Lemma u32_sub10 x : 0 <= x < 400 -> u32 (x - 10 * (x / 10)) = x mod 10.
Proof. intros Hx. rewrite wrap_small by div_lia. div_lia. Qed.

Lemma u8_digit x : 0 <= x < 10 -> u8 (x + 48) = 48 + x.
Proof. intros Hx. rewrite wrap_small by lia. lia. Qed.

Ltac partial_rw :=
  pose proof partial_bounds as (? & ? & ? & ? & ? & ? & ? & ? & ? & ?);
  pose proof partial_digits as (? & ? & ? & ?);
  change 0xf with (Z.ones 4) in *; rewrite !Z.land_ones, !Z.shiftr_div_pow2 with (n := 4) by lia;
  rewrite (Z.shiftr_div_pow2 q 8), (Z.shiftr_div_pow2 q 12) by lia;
  change (2 ^ 4) with 16; change (2 ^ 8) with 256; change (2 ^ 12) with 4096;
  fold pd1 pd2 pd3; fold ps0; rewrite (wrap_small 32 ps0) by lia;
  rewrite (div10_205 ps0) by lia; fold ps1; rewrite (wrap_small 32 ps1) by lia;
  rewrite (div10_205 ps1) by lia; fold ps2; rewrite (wrap_small 32 ps2) by lia;
  rewrite (div10_13 ps2) by lia; fold ps3; rewrite (wrap_small 32 ps3) by lia;
  rewrite (div10_205 ps3), !u32_sub10, !u8_digit by div_lia.

Lemma put_dec_full_spec : put_dec_full q = (Z.add 48) <$>
  [q mod 10; q / 10 mod 10; q / 100 mod 10; q / 1000 mod 10; q / 10000 mod 10].
Proof using Hq. unfold put_dec_full. partial_rw. cbn [fmap list_fmap]. list_lia. Qed.

Lemma put_dec_trunc_spec : put_dec_trunc q = (Z.add 48) <$> rdigits 10 5 q.
Proof using Hq.
  unfold put_dec_trunc. partial_rw. cbn [rdigits]. rewrite !Z.div_div by lia.
  change (10 * 10) with 100. change (100 * 10) with 1000. change (1000 * 10) with 10000.
  cbn [fmap list_fmap].
  assert ((ps1 =? 0) = (q / 10 =? 0)) as -> by (cases_ltb; lia).
  assert ((ps2 =? 0) && (pd3 =? 0) = (q / 100 =? 0)) as -> by (cases_ltb; cbn; lia).
  assert ((ps3 =? 0) = (q / 1000 =? 0)) as -> by (cases_ltb; lia).
  assert ((ps3 / 10 =? 0) = (q / 10000 =? 0)) as ->.
  { replace (q / 10000) with (ps3 / 10); [done | div_lia]. }
  destruct (q / 10 =? 0); [list_lia |]. destruct (q / 100 =? 0); [cbn [fmap list_fmap]; list_lia |].
  destruct (q / 1000 =? 0); [cbn [fmap list_fmap]; list_lia |].
  destruct (q / 10000 =? 0); cbn [fmap list_fmap]; list_lia. by destruct (q / (10000 * 10) =? 0).
Qed.

End Partial.

Lemma digits_of_group n : 100000 <= n < 2 ^ 64 ->
  digits_of 10 n = (let q := n mod 100000 in
    [q mod 10; q / 10 mod 10; q / 100 mod 10; q / 1000 mod 10; q / 10000 mod 10]) ++ digits_of 10 (n / 100000).
Proof.
  intros Hn. assert (forall m, 10 <= m < 2 ^ 64 -> digits_of 10 m = m mod 10 :: digits_of 10 (m / 10)) as Hs.
  { intros m Hm. rewrite digits_of_step by lia. rewrite (proj2 (Z.eqb_neq (m / 10) 0)); [done |].
    Z.to_euclidean_division_equations; lia. }
  rewrite (Hs n) by lia.
  rewrite (Hs (n / 10)) by (Z.to_euclidean_division_equations; lia).
  rewrite (Hs (n / 10 / 10)) by (Z.to_euclidean_division_equations; lia).
  rewrite (Hs (n / 10 / 10 / 10)) by (Z.to_euclidean_division_equations; lia).
  rewrite (Hs (n / 10 / 10 / 10 / 10)) by (Z.to_euclidean_division_equations; lia).
  rewrite !Z.div_div by lia. cbn [app]. cbn [Z.mul Pos.mul]. list_lia.
Qed.

Lemma put_dec_loop_spec fuel : forall n, 0 <= n < 100000 ^ Z.of_nat fuel -> n < 2 ^ 64 -> (0 < fuel)%nat ->
  put_dec_loop fuel n = Some ((Z.add 48) <$> digits_of 10 n).
Proof.
  induction fuel as [| fuel IH]; intros n Hn H64 Hf; [lia |]. cbn [put_dec_loop].
  destruct (Z.ltb_spec n 100000) as [Hlt | Hge].
  - rewrite wrap_small by lia. f_equal. transitivity ((Z.add 48) <$> rdigits 10 5 n).
    { apply put_dec_trunc_spec. lia. }
    f_equal. apply rdigits_fuel; lia.
  - rewrite do_div_spec by lia. cbn [mbind option_bind].
    assert (0 <= n / 100000 < 2 ^ 64) by (Z.to_euclidean_division_equations; lia).
    rewrite Nat2Z.inj_succ, Z.pow_succ_r in Hn by lia.
    assert (n / 100000 < 100000 ^ Z.of_nat fuel) by (apply Z.div_lt_upper_bound; lia).
    rewrite IH; [| lia | lia | destruct fuel; [cbn in *; lia | lia]]. cbn [mbind option_bind].
    rewrite put_dec_full_spec by (apply Z.mod_pos_bound; lia).
    by rewrite <- fmap_app, <- digits_of_group by lia.
Qed.

Lemma put_dec_spec n : 0 <= n < 2 ^ 64 -> put_dec n = Some ((Z.add 48) <$> digits_of 10 n).
Proof. intros Hn. apply put_dec_loop_spec; [| lia | lia]. change (100000 ^ Z.of_nat 5) with (10 ^ 25). lia. Qed.

(** ** Characters of digits *)

Definition dchar_ok (d : Z) : bool :=
  forallb (fun lc => isxdigit (dchar lc d) && (digit_value (dchar lc d) =? d) && negb (dchar lc d =? 45) &&
    ((dchar lc d =? 48) || negb (d =? 0)) && ((d =? 0) || negb (dchar lc d =? 48))) [0; 32].

Lemma dchar_spec lc d : lc = 0 \/ lc = SMALL -> 0 <= d < 16 ->
  isxdigit (dchar lc d) = true /\ digit_value (dchar lc d) = d /\ dchar lc d <> 45 /\ (dchar lc d = 48 <-> d = 0).
Proof.
  intros Hlc Hd. assert (dchar_ok d = true) as H.
  { apply (all_from_spec dchar_ok 16 0); [vm_compute; reflexivity | lia]. }
  unfold dchar_ok in H. rewrite forallb_forall in H.
  assert (In lc [0; 32]) as Hin by (destruct Hlc as [-> | ->]; cbn; auto).
  specialize (H lc Hin). rewrite !andb_true_iff, !orb_true_iff, !negb_true_iff, !Z.eqb_eq, !Z.eqb_neq in H.
  intuition congruence.
Qed.

Lemma dchar_decimal lc d : lc = 0 \/ lc = SMALL -> 0 <= d < 10 -> dchar lc d = 48 + d.
Proof.
  intros Hlc Hd. apply Z.eqb_eq.
  apply (all_from_spec (fun d => dchar lc d =? 48 + d) 10 0); [| lia].
  by destruct Hlc as [-> | ->]; vm_compute.
Qed.

Lemma radix_loop_spec lc b s fuel : lc = 0 \/ lc = SMALL -> (b = 8 /\ s = 3) \/ (b = 16 /\ s = 4) ->
  forall n, 0 <= n < b ^ Z.of_nat fuel -> (0 < fuel)%nat ->
  radix_loop fuel n (b - 1) s lc = Some (dchar lc <$> rdigits b fuel n).
Proof.
  intros Hlc Hb. assert (2 <= b /\ b = 2 ^ s /\ b - 1 = Z.ones s /\ 0 <= s <= 4) as (Hb2 & Hbs & Hones & Hs).
  { destruct Hb as [[-> ->] | [-> ->]]; split_and!; done || lia. }
  induction fuel as [| fuel IH]; intros n Hn Hf; [lia |]. cbn [radix_loop rdigits].
  assert (Z.land (u8 n) (b - 1) = n mod b) as ->.
  { rewrite Hones, Z.land_ones, <- Hbs by lia. unfold wrap. symmetry. apply Znumtheory.Zmod_div_mod; [lia | lia |].
    destruct Hb as [[-> _] | [-> _]]; [by exists 32 | by exists 16]. }
  rewrite Z.shiftr_div_pow2, <- Hbs by lia. destruct (Z.eqb_spec (n / b) 0) as [| Hne]; [done |].
  destruct (div_base_bound b n fuel) as [H1 H2]; [lia | lia |].
  destruct fuel as [| fuel]; [cbn in H2; lia |]. rewrite IH by lia. done.
Qed.

Definition base_ok (b : Z) : Prop := b = 8 \/ b = 10 \/ b = 16.

Lemma number_digits_spec n b lc : 0 <= n < 2 ^ 64 -> base_ok b -> lc = 0 \/ lc = SMALL ->
  number_digits n b lc = Some (dchar lc <$> digits_of b n).
Proof.
  intros Hn Hb Hlc. unfold number_digits. destruct (Z.eqb_spec n 0) as [-> | Hne].
  { destruct Hb as [-> | [-> | ->]], Hlc as [-> | ->]; reflexivity. }
  assert (2 <= b) by (unfold base_ok in Hb; lia). pose proof (pow_base_64 b ltac:(lia)).
  assert (2 ^ 64 <= 8 ^ Z.of_nat 22) by (vm_compute; discriminate).
  assert (2 ^ 64 <= 16 ^ Z.of_nat 22) by (vm_compute; discriminate).
  destruct Hb as [-> | [-> | ->]]; cbn [Z.eqb negb Pos.eqb].
  - rewrite (radix_loop_spec lc 8 3 22 Hlc (or_introl (conj eq_refl eq_refl)) n) by lia.
    unfold digits_of. by rewrite (rdigits_fuel 8 22 ltac:(lia) 64) by lia.
  - rewrite put_dec_spec by lia. f_equal.
    destruct (digits_of_spec 10 n) as (_ & Hr & _); [lia | lia |]. apply list_fmap_ext.
    intros i d Hd. rewrite Forall_lookup in Hr. specialize (Hr i d Hd). cbn in Hr. symmetry. by apply dchar_decimal.
  - rewrite (radix_loop_spec lc 16 4 22 Hlc (or_intror (conj eq_refl eq_refl)) n) by lia.
    unfold digits_of. by rewrite (rdigits_fuel 16 22 ltac:(lia) 64) by lia.
Qed.

(** ** Reading the digits back *)

Lemma strto_loop_digits w b lc ds rest acc : 2 <= b <= 16 -> 0 < w -> lc = 0 \/ lc = SMALL ->
  Forall (fun d => 0 <= d < b) ds -> 0 <= acc < 2 ^ w ->
  strto_loop w ((dchar lc <$> ds) ++ rest) b acc =
    strto_loop w rest b (wrap w (acc * b ^ zlen ds + dval b (reverse ds))).
Proof.
  intros Hb Hw Hlc Hds. revert acc. induction Hds as [| d ds Hd _ IH]; intros acc Hacc.
  { cbn. rewrite wrap_small by lia. f_equal. lia. }
  cbn [fmap list_fmap app strto_loop].
  destruct (dchar_spec lc d Hlc) as (Hx & Hv & _); [lia |]. rewrite Hx, Hv, (proj2 (Z.ltb_lt d b)) by lia.
  cbn [andb]. change (list_fmap Z Z (dchar lc) ds) with (dchar lc <$> ds).
  rewrite IH by (apply wrap_range; lia). f_equal.
  assert (forall l x, dval b (l ++ [x]) = dval b l + b ^ zlen l * x) as Hsnoc.
  { induction l as [| y l IHl]; intros x; cbn [app dval length]; [rewrite Z.pow_0_r; lia |].
    rewrite IHl, Nat2Z.inj_succ, Z.pow_succ_r by lia. lia. }
  rewrite reverse_cons, Hsnoc, length_reverse. cbn [length]. rewrite Nat2Z.inj_succ, Z.pow_succ_r by lia.
  unfold wrap. set (M := 2 ^ w). assert (M <> 0) by (unfold M; lia).
  pose proof (Z.div_mod (acc * b) M ltac:(done)) as H1.
  pose proof (Z.div_mod (acc * b mod M + d) M ltac:(done)) as H2.
  replace ((acc * b mod M + d) mod M) with
    (acc * b + d + - (acc * b / M + (acc * b mod M + d) / M) * M) by lia.
  set (k := acc * b / M + (acc * b mod M + d) / M). set (B := b ^ zlen ds). set (V := dval b (reverse ds)).
  replace ((acc * b + d + - k * M) * B + V) with (acc * (b * B) + (V + B * d) + (- k * B) * M) by ring.
  by rewrite Z.mod_add.
Qed.

Lemma digits_head b n lc : 2 <= b <= 16 -> 0 <= n < 2 ^ 64 -> lc = 0 \/ lc = SMALL ->
  exists c r, dchar lc <$> reverse (digits_of b n) = c :: r /\ c <> 45 /\
    (c = 48 -> n = 0 /\ r = []).
Proof.
  intros Hb Hn Hlc. destruct (digits_of_spec b n) as (Hv & Hr & ds & d & He & Hd); [lia | lia |].
  rewrite He in *. apply Forall_app in Hr as [_ [Hdr _]%Forall_cons].
  rewrite reverse_app. cbn. destruct (dchar_spec lc d Hlc) as (_ & _ & H45 & H48); [lia |].
  eexists _, _. split; [done |]. split; [done |]. intros H. apply H48 in H. subst d. specialize (Hd eq_refl). split; [done |].
  subst n. assert (length (ds ++ [0]) = 1%nat) as Hl.
  { rewrite <- He. unfold digits_of. cbn [rdigits]. rewrite Z.div_0_l by lia. done. }
  rewrite length_app in Hl. cbn in Hl. destruct ds; [done | cbn in Hl; lia].
Qed.

(** The text of a number is read back as that number. *)
Lemma strtoul_digits b n lc : 2 <= b <= 16 -> 0 <= n < 2 ^ 32 -> lc = 0 \/ lc = SMALL ->
  simple_strtoul (dchar lc <$> reverse (digits_of b n)) b = (n, []).
Proof.
  intros Hb Hn Hlc. destruct (digits_head b n lc) as (c & r & He & _ & Hz); [lia | lia | done |].
  destruct (digits_of_spec b n) as (Hv & Hr & _); [lia | lia |].
  assert (strto_loop 32 (dchar lc <$> reverse (digits_of b n)) b 0 = (n, [])) as Hloop.
  { rewrite <- (app_nil_r (dchar lc <$> _)), (strto_loop_digits 32 b lc); [| lia | lia | done | by apply Forall_reverse | lia].
    rewrite reverse_involutive, Hv. cbn [strto_loop]. by rewrite wrap_small by lia. }
  unfold simple_strtoul, strto_prefix. rewrite He in *. change (at0 (c :: r)) with c.
  destruct (Z.eqb_spec c 48) as [-> | Hc].
  - destruct (Hz eq_refl) as [-> ->]. cbn. by destruct (b =? 0).
  - by rewrite (proj2 (Z.eqb_neq b 0)) by lia.
Qed.

(** The result is a 32-bit value, whatever is read. *)
Lemma strtoul_range s base : is_u32 (simple_strtoul s base).1.
Proof.
  unfold simple_strtoul. destruct (strto_prefix s base) as [cp b].
  assert (forall r, is_u32 r -> is_u32 (strto_loop 32 cp b r).1) as H; [| by apply H].
  induction cp as [| c cp IH]; intros r Hr; cbn [strto_loop]; [done |].
  destruct (_ && _); [| done]. apply IH. by apply wrap_range.
Qed.

(** ** The theorems *)

(** The digits that [number] prints for a 64-bit number to base 8, 10 or 16
    (by shifting, or by the multiply-and-shift decimal routines [put_dec],
    [put_dec_trunc] and [put_dec_full]) are the digits of the number: below
    the base, of the right value and without leading zeros. *)
Theorem number_digits_correct n b lc : 0 <= n < 2 ^ 64 -> base_ok b -> lc = 0 \/ lc = SMALL ->
  exists ds d, number_digits n b lc = Some (dchar lc <$> (ds ++ [d])) /\ dval b (ds ++ [d]) = n /\
    Forall (fun x => 0 <= x < b) (ds ++ [d]) /\ (d = 0 -> n = 0).
Proof.
  intros Hn Hb Hlc. assert (2 <= b) by (unfold base_ok in Hb; lia).
  destruct (digits_of_spec b n) as (Hv & Hr & ds & d & He & Hd); [lia | done |].
  exists ds, d. rewrite (number_digits_spec n b lc Hn Hb Hlc), He in *. done.
Qed.

Lemma number_digits_correct_witness : exists ds d,
  number_digits (2 ^ 64 - 1) 10 0 = Some (dchar 0 <$> (ds ++ [d])) /\ dval 10 (ds ++ [d]) = 2 ^ 64 - 1 /\
  Forall (fun x => 0 <= x < 10) (ds ++ [d]) /\ (d = 0 -> 2 ^ 64 - 1 = 0).
Proof. apply (number_digits_correct (2 ^ 64 - 1) 10 0); [lia | right; left; done | by left]. Defined.

Lemma number_plain n b type : 0 <= n < 2 ^ 64 -> base_ok b -> type = 0 \/ type = SMALL ->
  number n b (-1) (-1) type = Some (dchar type <$> reverse (digits_of b n)).
Proof.
  intros Hn Hb Ht. unfold number.
  assert (Z.land type SMALL = type /\ flag type SPECIAL = false /\ flag type LEFT = false /\
    flag type SIGN = false /\ flag type (ZEROPAD + LEFT) = false /\ flag type ZEROPAD = false)
    as (-> & -> & Hl & Hs & Hz & Hz') by (destruct Ht as [-> | ->]; done).
  unfold number_sign. rewrite !Hl, Hs. cbn [andb]. rewrite (number_digits_spec n b type Hn Hb Ht). cbn [mbind option_bind].
  rewrite Hz, Hz'. destruct (digits_of_spec b n) as (_ & _ & ds & d & He & _); [unfold base_ok in Hb; lia | done |].
  assert (0 < zlen (dchar type <$> digits_of b n)).
  { rewrite length_fmap, He, length_app. cbn. lia. }
  rewrite (proj2 (Z.ltb_lt (-1) _)) by lia. rewrite Z.sub_diag. unfold pad_loop.
  rewrite !Z2Nat.nonpos by lia. cbn [replicate app]. rewrite app_nil_r, fmap_reverse. done.
Qed.

(** With a sign. *)
Lemma number_signed v : 0 <= v < 2 ^ 32 ->
  number (u64 (s32 v)) 10 (-1) (-1) SIGN =
    Some ((if v <? 2 ^ 31 then [] else [45]) ++
      (dchar 0 <$> reverse (digits_of 10 (if v <? 2 ^ 31 then v else 2 ^ 32 - v)))).
Proof.
  intros Hv. unfold number. change (flag SIGN SPECIAL) with false. change (flag SIGN LEFT) with false.
  change (Z.land SIGN SMALL) with 0. cbn [andb]. unfold number_sign. change (flag SIGN SIGN) with true.
  assert (exists m, 0 <= m < 2 ^ 64 /\ (if v <? 2 ^ 31 then v else 2 ^ 32 - v) = m /\
    (if swrap 64 (u64 (s32 v)) <? 0 then (45, u64 (- u64 (s32 v)), -1 - 1)
     else if flag SIGN PLUS then (43, u64 (s32 v), -1 - 1)
     else if flag SIGN SPACE then (32, u64 (s32 v), -1 - 1) else (0, u64 (s32 v), -1)) =
    ((if v <? 2 ^ 31 then 0 else 45), m, if v <? 2 ^ 31 then -1 else -2)) as (m & Hm & -> & ->).
  { destruct (Z.ltb_spec v (2 ^ 31)).
    - exists v. split; [lia |]. split; [done |]. rewrite (swrap_small 32 v), (wrap_small 64 v), (swrap_small 64 v) by lia.
      by rewrite (proj2 (Z.ltb_ge v 0)) by lia.
    - exists (2 ^ 32 - v). split; [lia |]. split; [done |].
      assert (s32 v = v - 2 ^ 32) as ->.
      { unfold swrap. change (2 ^ (32 - 1)) with (2 ^ 31).
        replace (v + 2 ^ 31) with (v - 2 ^ 31 + 1 * 2 ^ 32) by lia. rewrite Z.mod_add, Z.mod_small by lia. lia. }
      assert (u64 (v - 2 ^ 32) = 2 ^ 64 + v - 2 ^ 32) as ->.
      { unfold wrap. replace (v - 2 ^ 32) with (2 ^ 64 + v - 2 ^ 32 + (-1) * 2 ^ 64) by lia.
        rewrite Z.mod_add, Z.mod_small by lia. lia. }
      assert (swrap 64 (2 ^ 64 + v - 2 ^ 32) = v - 2 ^ 32) as ->.
      { unfold swrap. change (2 ^ (64 - 1)) with (2 ^ 63).
        replace (2 ^ 64 + v - 2 ^ 32 + 2 ^ 63) with (v - 2 ^ 32 + 2 ^ 63 + 1 * 2 ^ 64) by lia.
        rewrite Z.mod_add, Z.mod_small by lia. lia. }
      rewrite (proj2 (Z.ltb_lt (v - 2 ^ 32) 0)) by lia. do 3 f_equal.
      unfold wrap. replace (- (2 ^ 64 + v - 2 ^ 32)) with (2 ^ 32 - v + (-1) * 2 ^ 64) by lia.
      rewrite Z.mod_add, Z.mod_small by lia. lia. }
  rewrite (number_digits_spec m 10 0) by (try done; (right; left; done) || (left; done)). cbn [mbind option_bind].
  change (flag SIGN (ZEROPAD + LEFT)) with false. change (flag SIGN ZEROPAD) with false.
  change (flag SIGN LEFT) with false.
  destruct (digits_of_spec 10 m) as (_ & _ & ds & d & He & _); [lia | done |].
  assert (0 < zlen (dchar 0 <$> digits_of 10 m)) by (rewrite length_fmap, He, length_app; cbn; lia).
  rewrite (proj2 (Z.ltb_lt (-1) _)) by lia. rewrite Z.sub_diag. unfold pad_loop.
  rewrite !Z2Nat.nonpos by (destruct (v <? 2 ^ 31); lia). cbn [replicate app]. rewrite app_nil_r, fmap_reverse.
  by destruct (v <? 2 ^ 31).
Qed.

#[local] Opaque number.

(** A format that is one conversion of one number. *)
Lemma format_one cs v o : parse_conversion cs [A32 v] = (t ← o; Some (t, [], [], false)) ->
  vsnprintf_text (37 :: cs) [A32 v] = t ← o; Some (t, []).
Proof.
  intros H. unfold vsnprintf_text. cbn [length format_loop]. change (negb (37 =? 37)) with false. cbn iota.
  rewrite H. destruct o as [t |]; [| done]. cbn [mbind option_bind app]. by destruct (length cs).
Qed.

Lemma format_lx v : vsnprintf_text (str "%lx") [A32 v] = t ← number (u32 v) 16 (-1) (-1) SMALL; Some (t, []).
Proof. apply (format_one [108; 120]). reflexivity. Qed.

Lemma format_lu v : vsnprintf_text (str "%lu") [A32 v] = t ← number (u32 v) 10 (-1) (-1) 0; Some (t, []).
Proof. apply (format_one [108; 117]). reflexivity. Qed.

Lemma format_ld v : vsnprintf_text (str "%ld") [A32 v] = t ← number (u64 (s32 (u32 v))) 10 (-1) (-1) SIGN; Some (t, []).
Proof. apply (format_one [108; 100]). reflexivity. Qed.

#[local] Transparent number.

Lemma strtol_signed v : 0 <= v < 2 ^ 32 ->
  simple_strtol ((if v <? 2 ^ 31 then [] else [45]) ++
    (dchar 0 <$> reverse (digits_of 10 (if v <? 2 ^ 31 then v else 2 ^ 32 - v)))) 10 = (s32 v, []).
Proof.
  intros Hv. unfold simple_strtol. destruct (Z.ltb_spec v (2 ^ 31)); cbn [app].
  - destruct (digits_head 10 v 0) as (c & r & He & H45 & _); [lia | lia | by left |].
    assert ((at0 (dchar 0 <$> reverse (digits_of 10 v)) =? 45) = false) as ->.
    { rewrite He. by apply Z.eqb_neq. }
    by rewrite strtoul_digits by (lia || by left).
  - change (at0 (45 :: (dchar 0 <$> reverse (digits_of 10 (2 ^ 32 - v)))) =? 45) with true. cbn iota. cbn [tail].
    rewrite strtoul_digits by (lia || by left). f_equal. unfold wrap.
    replace (- (2 ^ 32 - v)) with (v + (-1) * 2 ^ 32) by lia. rewrite Z.mod_add by lia.
    by rewrite (Z.mod_small v) by lia.
Qed.

(** Printing and reading numbers are inverse: for every 32-bit value the
    text of "%lx" read to base 16, the text of "%lu" read to base 10, and the
    text of "%ld" read by [simple_strtol] give the value back and are read to
    their end. *)
Theorem print_parse_roundtrip v : 0 <= v < 2 ^ 32 ->
  (exists t, vsprintf (str "%lx") [A32 v] = Some (t ++ [0], zlen t) /\ simple_strtoul t 16 = (v, [])) /\
  (exists t, vsprintf (str "%lu") [A32 v] = Some (t ++ [0], zlen t) /\ simple_strtoul t 10 = (v, [])) /\
  (exists t, vsprintf (str "%ld") [A32 v] = Some (t ++ [0], zlen t) /\ simple_strtol t 10 = (s32 v, [])).
Proof.
  intros Hv. unfold vsprintf. rewrite format_lx, format_lu, format_ld, !(wrap_small 32 v) by lia.
  rewrite (number_plain v 16 SMALL), (number_plain v 10 0), (number_signed v) by
    (try lia; unfold base_ok; auto). cbn [mbind option_bind].
  split_and!; eexists; (split; [done |]).
  - apply strtoul_digits; [lia | lia | by right].
  - apply strtoul_digits; [lia | lia | by left].
  - by apply strtol_signed.
Qed.

Lemma print_parse_roundtrip_witness :
  (exists t, vsprintf (str "%lx") [A32 0xfffffff6] = Some (t ++ [0], zlen t) /\ simple_strtoul t 16 = (0xfffffff6, [])) /\
  (exists t, vsprintf (str "%lu") [A32 0xfffffff6] = Some (t ++ [0], zlen t) /\ simple_strtoul t 10 = (0xfffffff6, [])) /\
  (exists t, vsprintf (str "%ld") [A32 0xfffffff6] = Some (t ++ [0], zlen t) /\ simple_strtol t 10 = (-10, [])).
Proof. apply (print_parse_roundtrip 0xfffffff6). lia. Defined.

(** ** Formats in parts *)

(** [lits] proves that a literal text has no conversion. *)
Ltac lits := repeat (apply Forall_cons; split; [done |]); by apply Forall_nil.

Lemma format_loop_lit lit r args outs : Forall (fun c => c <> 37) lit -> forall f s,
  format_loop (length lit + f) (lit ++ r) args s outs = format_loop f r args (s ++ lit) outs.
Proof.
  induction 1 as [| c lit Hc _ IH]; intros f s; [by rewrite app_nil_r |].
  cbn [length Nat.add app format_loop]. rewrite (proj2 (Z.eqb_neq c 37)) by done. cbn [negb].
  by rewrite IH, <- app_assoc.
Qed.

#[local] Opaque number.

Lemma format_loop_s t r args outs : forall f s,
  format_loop (S f) (str "%s" ++ r) (AStr (Some t) :: args) s outs = format_loop f r args (s ++ t) outs.
Proof.
  intros f s. change (str "%s" ++ r) with (37 :: 115 :: r). cbn [format_loop]. change (negb (37 =? 37)) with false. cbn iota.
  assert (parse_conversion (115 :: r) (AStr (Some t) :: args) = Some (string (Some t) (-1) (-1) 0, r, args, false)) as ->
    by reflexivity.
  assert (string (Some t) (-1) (-1) 0 = t) as ->; [| done].
  unfold string, fill_loop. change (flag 0 LEFT) with false. change (-1 <? 0) with true. cbn [default].
  unfold id. rewrite (Z2Nat.nonpos (-1 - _)) by lia. rewrite (Z2Nat.nonpos (_ - 1 - _)) by lia. cbn [replicate app].
  by rewrite app_nil_r, Nat2Z.id, firstn_all.
Qed.

#[local] Transparent number.

(** ** Numbers of fixed width *)

(** The last [k] digits of [n], most significant first. *)
Fixpoint fixed (b : Z) (k : nat) (n : Z) : list Z :=
  match k with O => [] | S k => fixed b k (n / b) ++ [n mod b] end.

Lemma fixed_zero b k : 0 < b -> fixed b k 0 = replicate k 0.
Proof.
  intros Hb. induction k as [| k IH]; [done |]. cbn [fixed]. rewrite Z.div_0_l, Z.mod_0_l, IH by lia.
  by rewrite <- replicate_cons_app.
Qed.

Lemma fixed_digits b k : 2 <= b -> forall n, 0 <= n < b ^ Z.of_nat k -> n < 2 ^ 64 -> (0 < k)%nat ->
  (length (digits_of b n) <= k)%nat /\ replicate (k - length (digits_of b n)) 0 ++ reverse (digits_of b n) = fixed b k n.
Proof.
  intros Hb. induction k as [| k IH]; intros n Hn Hn64 Hk; [lia |]. rewrite (digits_of_step b n) by lia.
  destruct (div_base_bound b n k) as [H1 H2]; [done | done |]. cbn [fixed]. destruct (Z.eqb_spec (n / b) 0) as [-> | Hne].
  - cbn [length]. split; [lia |]. rewrite fixed_zero by lia. by replace (S k - 1)%nat with k by lia.
  - destruct k as [| k]; [cbn in H2; lia |]. assert (n / b <= n) by (apply Z.div_le_upper_bound; nia).
    destruct (IH (n / b)) as [Hl He]; [lia | lia | lia |]. cbn [length]. split; [lia |]. rewrite reverse_cons, <- He, app_assoc. done.
Qed.

Lemma fixed_length b k : forall n, length (fixed b k n) = k.
Proof. induction k as [| k IH]; intros n; [done |]. cbn [fixed]. rewrite length_app, IH. cbn. lia. Qed.

Lemma fixed_range b k : 0 < b -> forall n, Forall (fun d => 0 <= d < b) (fixed b k n).
Proof.
  intros Hb. induction k as [| k IH]; intros n; [constructor |]. cbn [fixed]. apply Forall_app_2; [apply IH |].
  constructor; [by apply Z.mod_pos_bound | constructor].
Qed.

Lemma fixed_app b j k : 0 < b -> forall n, 0 <= n -> fixed b (j + k) n = fixed b j (n / b ^ Z.of_nat k) ++ fixed b k n.
Proof.
  intros Hb. induction k as [| k IH]; intros n Hn.
  - rewrite Nat.add_0_r, Z.pow_0_r, Z.div_1_r, app_nil_r. done.
  - rewrite Nat.add_succ_r. cbn [fixed]. rewrite IH by (apply Z.div_pos; lia).
    rewrite Z.div_div by lia. rewrite Nat2Z.inj_succ, Z.pow_succ_r by lia. by rewrite <- app_assoc.
Qed.

Lemma fixed_mod b k : 0 < b -> forall n, fixed b k (n mod b ^ Z.of_nat k) = fixed b k n.
Proof.
  intros Hb. induction k as [| k IH]; intros n; [done |]. cbn [fixed]. rewrite Nat2Z.inj_succ, Z.pow_succ_r by lia.
  assert (0 < b ^ Z.of_nat k) by (apply Z.pow_pos_nonneg; lia).
  rewrite Z.rem_mul_r by lia. f_equal; [| f_equal].
  - rewrite <- (IH (n / b)). f_equal. rewrite Z.add_comm, Z.mul_comm, Z.div_add_l by lia.
    rewrite (Z.div_small (n mod b)) by (by apply Z.mod_pos_bound). lia.
  - rewrite Z.mul_comm, Z.mod_add by lia. by rewrite Z.mod_mod by lia.
Qed.

(** "%0kX" *)
Lemma number_zeropad k n : (0 < k)%nat -> 0 <= n < 16 ^ Z.of_nat k -> n < 2 ^ 64 ->
  number n 16 (Z.of_nat k) (-1) ZEROPAD = Some (dchar 0 <$> fixed 16 k n).
Proof.
  intros Hk Hn Hn64. destruct (fixed_digits 16 k ltac:(lia) n Hn Hn64 Hk) as [Hl <-]. unfold number.
  change (flag ZEROPAD SPECIAL) with false. change (flag ZEROPAD LEFT) with false. change (Z.land ZEROPAD SMALL) with 0.
  cbn [andb]. unfold number_sign. change (flag ZEROPAD SIGN) with false. cbn iota.
  rewrite (number_digits_spec n 16 0) by (lia || (by right; right) || by left). cbn [mbind option_bind].
  change (flag ZEROPAD (ZEROPAD + LEFT)) with true. change (flag ZEROPAD ZEROPAD) with true. cbn iota.
  rewrite !length_fmap, (proj2 (Z.ltb_lt _ _)) by lia. change (0 =? 0) with true. unfold pad_loop. cbn iota.
  rewrite Z.sub_diag. change (Z.to_nat 0) with 0%nat. change (flag ZEROPAD LEFT) with false. cbv beta iota. rewrite (Z2Nat.nonpos (Z.min _ 0 - 1)) by lia. cbn [replicate app]. rewrite app_nil_r.
  rewrite fmap_app, fmap_replicate, fmap_reverse. do 2 f_equal; [f_equal; lia].
Qed.

(** ** The bounded buffer *)

Lemma addch_over end_ : forall t m p, end_ <= p -> 0 <= p -> p + zlen t < 2 ^ 32 ->
  addch_text end_ (m, p) t = Some (m, p + zlen t).
Proof.
  induction t as [| c t IH]; intros m p Hp H0 Ht; cbn [addch_text length] in *; [by rewrite Z.add_0_r |].
  unfold ADDCH. rewrite (proj2 (Z.ltb_ge p _)) by lia. cbn [mbind option_bind].
  rewrite (wrap_small 32) by lia. rewrite IH by lia. do 2 f_equal. lia.
Qed.

Lemma addch_in end_ m p c : p < end_ -> 0 <= p -> p + 1 < 2 ^ 32 -> mapped m p (end_ - p) ->
  ADDCH end_ (m, p) c = Some (<[p := u8 c]> m, p + 1).
Proof.
  intros Hp H0 H1 Hm. unfold ADDCH, store. rewrite (proj2 (Z.ltb_lt p _)) by lia.
  destruct (Hm p ltac:(lia)) as [v ->]. cbn [mbind option_bind]. by rewrite (wrap_small 32) by lia.
Qed.

Lemma addch_text_spec end_ : forall t m p, 0 <= p <= end_ -> p + zlen t < 2 ^ 32 -> mapped m p (end_ - p) ->
  addch_text end_ (m, p) t = Some (write_bytes m p (u8 <$> take (Z.to_nat (end_ - p)) t), p + zlen t).
Proof.
  induction t as [| c t IH]; intros m p Hp Ht Hm.
  { rewrite take_nil. cbn. by rewrite Z.add_0_r. }
  destruct (decide (p = end_)) as [-> | Hne].
  { rewrite addch_over by lia. rewrite Z.sub_diag. by rewrite take_0. }
  cbn [addch_text length] in *. rewrite addch_in by (done || lia). cbn [mbind option_bind].
  rewrite IH by (try lia; apply mapped_insert, (mapped_sub m p (end_ - p)); (done || lia)).
  replace (Z.to_nat (end_ - p)) with (S (Z.to_nat (end_ - (p + 1)))) by lia.
  cbn [take fmap list_fmap write_bytes]. do 2 f_equal. lia.
Qed.

(** The bytes of a buffer that lie in the address space. *)
Definition buffer_room (buf size : Z) : Z := if buf + size <? 2 ^ 32 then size else 2 ^ 32 - 1 - buf.

Lemma buffer_end_room buf size : is_u32 buf -> is_u32 size ->
  buffer_end buf size = (buf + buffer_room buf size, buffer_room buf size) /\ 0 <= buffer_room buf size <= size /\
  buf + buffer_room buf size < 2 ^ 32.
Proof.
  unfold is_u32, buffer_end, buffer_room. intros Hb Hs. destruct (Z.ltb_spec (buf + size) (2 ^ 32)).
  - rewrite wrap_small by lia. rewrite (proj2 (Z.ltb_ge _ buf)) by lia. split_and!; done || lia.
  - assert (u32 (buf + size) = buf + size - 2 ^ 32) as ->.
    { unfold wrap. replace (buf + size) with (buf + size - 2 ^ 32 + 1 * 2 ^ 32) by lia. rewrite Z.mod_add, Z.mod_small by lia. lia. }
    rewrite (proj2 (Z.ltb_lt _ buf)) by lia. split_and!; [f_equal; lia | lia..].
Qed.

(** The terminator, and what it replaces in a full buffer. *)
Lemma vsnprintf_end m buf room t : 0 <= buf -> 0 < room -> mapped m buf room -> buf + room < 2 ^ 32 -> buf + zlen t + 1 < 2 ^ 32 ->
  ('(m, str) ← ADDCH (buf + room) (write_bytes m buf (u8 <$> take (Z.to_nat room) t), buf + zlen t) 0;
   m ← (if buf + room <? str then store m (buf + room - 1) 0 else Some m); Some (m, s32 (str - buf))) =
  Some (write_bytes m buf ((u8 <$> take (Z.to_nat (room - 1)) t) ++ [0]), s32 (zlen t + 1)).
Proof.
  intros Hb Hr Hm Hend Ht. destruct (Z.lt_ge_cases (zlen t) room) as [Hlt | Hge].
  - rewrite addch_in by (try lia; apply mapped_write, (mapped_sub m buf room); (done || lia)). cbn [mbind option_bind].
    rewrite (proj2 (Z.ltb_ge _ (buf + zlen t + 1))) by lia. cbn [mbind option_bind]. rewrite !take_ge by lia.
    rewrite write_bytes_app. cbn [write_bytes]. rewrite length_fmap. do 2 f_equal. f_equal. lia.
  - unfold ADDCH. rewrite (proj2 (Z.ltb_ge (buf + zlen t) _)) by lia. cbn [mbind option_bind]. rewrite wrap_small by lia.
    rewrite (proj2 (Z.ltb_lt (buf + room) _)) by lia. unfold store.
    destruct (mapped_write m buf room buf (u8 <$> take (Z.to_nat room) t) Hm (buf + room - 1) ltac:(lia)) as [v ->]. cbn [mbind option_bind].
    f_equal. f_equal; [| f_equal; lia]. apply map_eq. intros a. change (u8 0) with 0.
    destruct (decide (a = buf + room - 1)) as [-> | Hne].
    + rewrite lookup_insert_eq, write_bytes_lookup, length_app, length_fmap, length_take. cbn [length]. rewrite decide_True by lia.
      rewrite lookup_app_r by (rewrite length_fmap, length_take; lia). rewrite length_fmap, length_take.
      by replace (Z.to_nat (buf + room - 1 - buf) - _)%nat with 0%nat by lia.
    + rewrite lookup_insert_ne by done. rewrite !write_bytes_lookup, length_app, !length_fmap, !length_take. cbn [length].
      destruct (decide (buf <= a < buf + room - 1)) as [Hin | Hout]; [| by rewrite !decide_False by lia].
      rewrite !decide_True by lia. rewrite lookup_app_l by (rewrite length_fmap, length_take; lia). rewrite !list_lookup_fmap.
      by rewrite !lookup_take_lt by lia.
Qed.


(** Four bytes, and nothing but them: the text "1234567" is cut. *)
Definition four_bytes : mem := write_bytes ∅ 0x1000 [7; 7; 7; 7].


(** ** [simple_itoa] *)

Lemma itoa_loop_spec fuel : forall i acc, 0 <= i < 10 ^ Z.of_nat fuel -> (0 < fuel)%nat ->
  itoa_loop fuel i acc = Some ((Z.add 48 <$> reverse (rdigits 10 fuel i)) ++ acc).
Proof.
  induction fuel as [| fuel IH]; intros i acc Hi Hf; [lia |]. cbn [itoa_loop rdigits].
  destruct (div_base_bound 10 i fuel) as [H1 H2]; [lia | lia |].
  destruct (Z.eqb_spec (i / 10) 0) as [H0 | H0].
  - rewrite H0. done.
  - rewrite (proj2 (Z.ltb_lt 0 _)) by lia. destruct fuel as [| fuel]; [cbn in H2; lia |].
    rewrite IH by lia. rewrite reverse_cons, fmap_app, <- app_assoc. done.
Qed.

(** [simple_itoa] stays inside its static buffer and returns the text that
    "%lu" prints, for every 32-bit number. *)
Theorem simple_itoa_correct i : 0 <= i < 2 ^ 32 -> exists t, simple_itoa i = Some t /\
  vsprintf (str "%lu") [A32 i] = Some (t ++ [0], zlen t).
Proof.
  intros Hi. unfold simple_itoa. assert (2 ^ 64 <= 10 ^ Z.of_nat 21) by (vm_compute; discriminate).
  rewrite itoa_loop_spec, app_nil_r by lia. eexists. split; [done |].
  unfold vsprintf. rewrite format_lu, (wrap_small 32 i), (number_plain i 10 0) by (try lia; unfold base_ok; auto).
  cbn [mbind option_bind].
  assert (dchar 0 <$> reverse (digits_of 10 i) = Z.add 48 <$> reverse (rdigits 10 21 i)) as ->; [| done].
  destruct (digits_of_spec 10 i) as (_ & Hr & _); [lia | lia |].
  unfold digits_of in *. rewrite (rdigits_fuel 10 21 ltac:(lia) 64) by (change (10 ^ Z.of_nat 64) with (10 ^ 64); lia).
  rewrite !fmap_reverse. f_equal. apply list_fmap_ext. intros j d Hd. rewrite Forall_lookup in Hr.
  specialize (Hr j d Hd). cbn in Hr. apply dchar_decimal; [by left | done].
Qed.

Lemma simple_itoa_correct_witness : exists t, simple_itoa 4294967295 = Some t /\
  vsprintf (str "%lu") [A32 4294967295] = Some (t ++ [0], zlen t).
Proof. apply (simple_itoa_correct 4294967295). lia. Defined.

(** ** The interpreter reads every format to its end *)

Lemma length_tail (s : text) : (length (tail s) <= length s)%nat.
Proof. destruct s; cbn; lia. Qed.

Lemma parse_flags_rest s : forall f f' s', parse_flags s f = (f', s') -> (length s' <= length s)%nat.
Proof.
  induction s as [| c s IH]; intros f f' s' H; cbn [parse_flags] in H; [by simplify_eq |].
  repeat match goal with H : context [if ?b then _ else _] |- _ => destruct b end;
    try (apply IH in H; cbn; lia). by simplify_eq.
Qed.

Lemma skip_atoi_rest s : forall i i' s', skip_atoi_loop s i = (i', s') -> (length s' <= length s)%nat.
Proof.
  induction s as [| c s IH]; intros i i' s' H; cbn [skip_atoi_loop] in H; [by simplify_eq |].
  destruct (is_digit c); [apply IH in H; cbn; lia | by simplify_eq].
Qed.

Lemma skip_alnum_rest s : (length (skip_alnum s) <= length s)%nat.
Proof. induction s as [| c s IH]; cbn; [done |]. destruct (isalnum c); cbn; lia. Qed.

Lemma parse_width_rest s f a w f' s' a' : parse_width s f a = Some (w, f', s', a') -> (length s' <= length s)%nat.
Proof.
  unfold parse_width, skip_atoi. pose proof (length_tail s). destruct (is_digit (at0 s)).
  - destruct (skip_atoi_loop s 0) as [i s1] eqn:E. apply skip_atoi_rest in E. intros H'. by simplify_eq.
  - destruct (at0 s =? 42); [| intros H'; by simplify_eq].
    destruct (next32 a) as [[v a1] |]; [| done]. cbn [mbind option_bind].
    destruct (s32 v <? 0); intros H'; by simplify_eq.
Qed.

Lemma parse_precision_rest s a p s' a' : parse_precision s a = Some (p, s', a') -> (length s' <= length s)%nat.
Proof.
  unfold parse_precision, skip_atoi. pose proof (length_tail s). pose proof (length_tail (tail s)).
  destruct (at0 s =? 46); [| intros H'; by simplify_eq]. destruct (is_digit (at0 (tail s))).
  - destruct (skip_atoi_loop (tail s) 0) as [i s1] eqn:E. apply skip_atoi_rest in E. cbn [mbind option_bind].
    intros H'. simplify_eq. lia.
  - destruct (at0 (tail s) =? 42).
    + destruct (next32 a) as [[v a1] |]; [| done]. cbn [mbind option_bind]. intros H'. simplify_eq. lia.
    + cbn [mbind option_bind]. intros H'. simplify_eq. lia.
Qed.

Lemma parse_qualifier_rest s q s' : parse_qualifier s = (q, s') -> (length s' <= length s)%nat.
Proof.
  unfold parse_qualifier. pose proof (length_tail s). pose proof (length_tail (tail s)).
  repeat match goal with |- context [if ?b then _ else _] => destruct b end; intros H'; simplify_eq; lia.
Qed.

Lemma conversion_rest s w p q f a t s' a' o :
  conversion s w p q f a = Some (t, s', a', o) -> (length s' <= length s)%nat.
Proof.
  unfold conversion. pose proof (length_tail s). pose proof (skip_alnum_rest (tail s)).
  assert (forall b f', ('(n, a) ← fetch_number q f' a; u ← number n b w p f'; Some (u, tail s, a, false)) =
    Some (t, s', a', o) -> (length s' <= length s)%nat) as Hnum.
  { intros b f' H'. destruct (fetch_number q f' a) as [[n a1] |]; [| done]. cbn [mbind option_bind] in H'.
    destruct (number n b w p f'); [| done]. cbn [mbind option_bind] in H'. by simplify_eq. }
  repeat match goal with |- context [if ?b then _ else _] => destruct b end; try apply Hnum;
    try (intros H'; by simplify_eq).
  - destruct (next32 a) as [[v a1] |]; [| done]. cbn [mbind option_bind]. intros H'. by simplify_eq.
  - destruct a as [| [] a1]; try done; intros H'; by simplify_eq.
  - destruct a as [| [] a1]; try done. destruct (pointer _ _ _ _ _ _); [| done]. cbn [mbind option_bind].
    intros H'. simplify_eq. lia.
  - destruct a as [| [] a1]; try done; intros H'; by simplify_eq.
Qed.

Lemma parse_conversion_rest s a t s' a' o :
  parse_conversion s a = Some (t, s', a', o) -> (length s' <= length s)%nat.
Proof.
  unfold parse_conversion. destruct (parse_flags s 0) as [f s1] eqn:E1. apply parse_flags_rest in E1.
  destruct (parse_width s1 f a) as [[[[w f2] s2] a2] |] eqn:E2; [| done]. apply parse_width_rest in E2.
  cbn [mbind option_bind]. destruct (parse_precision s2 a2) as [[[p s3] a3] |] eqn:E3; [| done].
  apply parse_precision_rest in E3. cbn [mbind option_bind].
  destruct (parse_qualifier s3) as [q s4] eqn:E4. apply parse_qualifier_rest in E4.
  intros H%conversion_rest. lia.
Qed.

(** The format interpreter terminates: every round shortens the rest of
    the format, so more rounds than the format has characters make no
    difference, for any format, well-formed or not, and any arguments. *)
Theorem vsnprintf_terminates fmt args fuel : (length fmt < fuel)%nat ->
  format_loop fuel fmt args [] [] = vsnprintf_text fmt args.
Proof.
  unfold vsnprintf_text. generalize (@nil Z) at 1 3 as s0. generalize (@nil Z) as o0.
  assert (forall f1 f2 s a st o, (length s < f1)%nat -> (length s < f2)%nat ->
    format_loop f1 s a st o = format_loop f2 s a st o) as H; [| intros; apply H; lia].
  induction f1 as [| f1 IH]; intros f2 s a st o H1 H2; [lia |]. destruct f2 as [| f2]; [lia |].
  cbn [format_loop]. destruct s as [| c s]; [done |]. cbn in H1, H2.
  destruct (negb (c =? 37)); [apply IH; lia |].
  destruct (parse_conversion s a) as [[[[t s'] a'] o'] |] eqn:E; [| done]. cbn [mbind option_bind].
  apply parse_conversion_rest in E. apply IH; lia.
Qed.

Lemma vsnprintf_terminates_witness :
  format_loop 1000 (str "%") [] [] [] = vsnprintf_text (str "%") [].
Proof. apply (vsnprintf_terminates (str "%") [] 1000). vm_compute. lia. Defined.
