(* ===== verification/BlockHash.v ===== *)
(** * Hashing a message in pieces

    lib/sha1.c and lib/sha256.c share one structure: a context counts the bytes
    seen, keeps the state of the compression function and buffers an
    incomplete block of 64 bytes; [update] absorbs another piece of the
    message and [finish] appends the padding and the length.  The class
    [BlockHash] is what the two files provide, the initial state, the
    compression function and the output of the state; the code below is
    written and proved against it. *)

From S2P Require Import Prelude.

(** The words of a byte buffer: GET_UINT32_BE and PUT_UINT32_BE. *)
Definition GET_UINT32_BE (b : list Z) (i : nat) : Z :=
  Z.lor (Z.lor (Z.lor (Z.shiftl (nth i b 0) 24) (Z.shiftl (nth (i + 1) b 0) 16))
    (Z.shiftl (nth (i + 2) b 0) 8)) (nth (i + 3) b 0).

Definition PUT_UINT32_BE (n : Z) : list Z :=
  [u8 (Z.shiftr n 24); u8 (Z.shiftr n 16); u8 (Z.shiftr n 8); u8 n].

Class BlockHash (St : Type) := {
  initial : St;
  process : St -> list Z -> St;
  output : St -> list Z }.

Record context (St : Type) := Context {
  total0 : Z; total1 : Z; state : St; buffer : list Z }.
Arguments Context {St}.
Arguments total0 {St}.
Arguments total1 {St}.
Arguments state {St}.
Arguments buffer {St}.

(** [memcpy(buf + off, l, length)] inside a buffer. *)
Definition copy_into (buf : list Z) (off : nat) (l : list Z) : list Z :=
  take off buf ++ l ++ drop (off + length l) buf.

Definition hash_padding : list Z := 0x80 :: replicate 63 0.

Section Operations.
Context {St : Type} `{BlockHash St}.

(** The buffer of a new context is not initialised. *)
Definition starts (buf : list Z) : context St := Context 0 0 initial buf.

(** [while (length >= 64) { process(ctx, input); length -= 64; input += 64; }]:
    the state and the rest of the input. *)
Fixpoint update_loop (fuel : nat) (st : St) (input : list Z) : option (St * list Z) :=
  match fuel with
  | O => None
  | S fuel =>
      if 64 <=? zlen input then update_loop fuel (process st (take 64 input)) (drop 64 input)
      else Some (st, input)
  end.

Definition update (ctx : context St) (input : list Z) : option (context St) :=
  let len := zlen input in
  if len =? 0 then Some ctx
  else
    let lft := Z.land (total0 ctx) 0x3F in
    let fill := 64 - lft in
    let t0 := Z.land (u32 (total0 ctx + len)) 0xFFFFFFFF in
    let t1 := if t0 <? len then u32 (total1 ctx + 1) else total1 ctx in
    let '(st, buf, lft, input) :=
      if negb (lft =? 0) && (fill <=? len) then
        let buf := copy_into (buffer ctx) (Z.to_nat lft) (take (Z.to_nat fill) input) in
        (process (state ctx) buf, buf, 0, drop (Z.to_nat fill) input)
      else (state ctx, buffer ctx, lft, input) in
    '(st, input) ← update_loop (S (length input)) st input;
    let buf := if zlen input =? 0 then buf else copy_into buf (Z.to_nat lft) input in
    Some (Context t0 t1 st buf).

(** The 8 bytes of the message length in bits. *)
Definition msglen (ctx : context St) : list Z :=
  let high := Z.lor (Z.shiftr (total0 ctx) 29) (u32 (Z.shiftl (total1 ctx) 3)) in
  let low := u32 (Z.shiftl (total0 ctx) 3) in
  PUT_UINT32_BE high ++ PUT_UINT32_BE low.

Definition finish (ctx : context St) : option (list Z) :=
  let last := Z.land (total0 ctx) 0x3F in
  let padn := if last <? 56 then 56 - last else 120 - last in
  ctx1 ← update ctx (take (Z.to_nat padn) hash_padding);
  ctx2 ← update ctx1 (msglen ctx);
  Some (output (state ctx2)).

(** ** The reference: Merkle-Damgard iteration over the padded message *)

Fixpoint absorb (n : nat) (st : St) (m : list Z) : St :=
  match n with
  | O => st
  | S n => absorb n (process st (take 64 m)) (drop 64 m)
  end.

Definition blocks (m : list Z) : nat := (length m / 64)%nat.

(** A number as [n] bytes, most significant first. *)
Definition be_bytes (n : nat) (x : Z) : list Z :=
  (fun i => u8 (Z.shiftr x (8 * i))) <$> reverse (seqZ 0 (Z.of_nat n)).

(** The message, a one bit, zeros up to 56 bytes modulo 64, and its length in
    bits. *)
Definition padded (m : list Z) : list Z :=
  m ++ 0x80 :: replicate (Z.to_nat ((55 - zlen m) mod 64)) 0 ++ be_bytes 8 (8 * zlen m).

Definition digest (m : list Z) : list Z := output (absorb (blocks (padded m)) initial (padded m)).

(** The context after the message [m]. *)
Definition stands (ctx : context St) (m : list Z) : Prop :=
  total0 ctx = zlen m mod 2 ^ 32 /\ total1 ctx = zlen m / 2 ^ 32 mod 2 ^ 32 /\
  state ctx = absorb (blocks m) initial m /\ length (buffer ctx) = 64%nat /\
  take (length m mod 64) (buffer ctx) = drop (64 * blocks m) m.

Lemma absorb_app n1 : forall n2 st m1 m2, length m1 = (64 * n1)%nat ->
  absorb (n1 + n2) st (m1 ++ m2) = absorb n2 (absorb n1 st m1) m2.
Proof.
  induction n1 as [| n1 IH]; intros n2 st m1 m2 Hl; cbn [absorb Nat.add].
  { destruct m1; [done | cbn in Hl; lia]. }
  rewrite take_app_le, drop_app_le by lia. apply IH. rewrite length_drop. lia.
Qed.

Lemma blocks_app m1 m2 n : length m1 = (64 * n)%nat -> blocks (m1 ++ m2) = (n + blocks m2)%nat.
Proof. intros Hl. unfold blocks. rewrite length_app, Hl, Nat.mul_comm, Nat.div_add_l by lia. done. Qed.

Lemma absorb_blocks_app n st m1 m2 : length m1 = (64 * n)%nat ->
  absorb (blocks (m1 ++ m2)) st (m1 ++ m2) = absorb (blocks m2) (absorb n st m1) m2.
Proof. intros Hl. rewrite (blocks_app m1 m2 n Hl). by apply absorb_app. Qed.

(** A message as its complete blocks and the rest. *)
Lemma split_blocks m : exists m1 m2, m = m1 ++ m2 /\ length m1 = (64 * blocks m)%nat /\
  length m2 = (length m mod 64)%nat /\ m2 = drop (64 * blocks m) m.
Proof.
  exists (take (64 * blocks m) m), (drop (64 * blocks m) m).
  pose proof (Nat.div_mod_eq (length m) 64) as Hd. unfold blocks in *.
  rewrite take_drop, length_take, length_drop. split_and!; [done | lia | lia | done].
Qed.

Lemma update_loop_spec fuel : forall st m, (length m < 64 * fuel)%nat ->
  update_loop fuel st m = Some (absorb (blocks m) st m, drop (64 * blocks m) m).
Proof.
  induction fuel as [| fuel IH]; intros st m Hf; [lia |]. cbn [update_loop].
  destruct (Z.leb_spec 64 (zlen m)) as [Hle | Hlt].
  - rewrite IH by (rewrite length_drop; lia).
    assert (blocks m = S (blocks (drop 64 m))) as ->.
    { unfold blocks. rewrite length_drop. replace (length m) with (1 * 64 + (length m - 64))%nat at 1 by lia.
      rewrite Nat.div_add_l by lia. lia. }
    cbn [absorb]. do 2 f_equal. rewrite drop_drop. f_equal. lia.
  - assert (blocks m = 0%nat) as -> by (unfold blocks; apply Nat.div_small; lia). cbn. done.
Qed.

Lemma land_63 x : 0 <= x -> Z.land x 0x3F = x mod 64.
Proof. intros Hx. change 0x3F with (Z.ones 6). by rewrite Z.land_ones by lia. Qed.

(** What [update] leaves in the buffer. *)
Lemma copy_into_take buf off l : (off + length l <= length buf)%nat ->
  take (off + length l) (copy_into buf off l) = take off buf ++ l /\ length (copy_into buf off l) = length buf.
Proof.
  intros Hl. unfold copy_into. split.
  - rewrite app_assoc, take_app_le by (rewrite length_app, length_take; lia).
    apply take_ge. rewrite length_app, length_take. lia.
  - rewrite !length_app, length_take, length_drop. lia.
Qed.

(** The new counters. *)
Lemma update_totals n len : 0 <= n -> 0 < len < 2 ^ 32 ->
  let t0 := Z.land (u32 (n mod 2 ^ 32 + len)) 0xFFFFFFFF in
  t0 = (n + len) mod 2 ^ 32 /\
  (if t0 <? len then u32 (n / 2 ^ 32 mod 2 ^ 32 + 1) else n / 2 ^ 32 mod 2 ^ 32) = (n + len) / 2 ^ 32 mod 2 ^ 32.
Proof.
  intros Hn Hlen t0. assert (t0 = (n + len) mod 2 ^ 32) as Ht.
  { unfold t0. change 0xFFFFFFFF with (Z.ones 32). rewrite Z.land_ones by lia.
    unfold wrap. rewrite Zmod_mod. by rewrite Zplus_mod_idemp_l. }
  split; [done |]. rewrite Ht. set (q := n / 2 ^ 32). set (r := n mod 2 ^ 32).
  assert (n = q * 2 ^ 32 + r) as En by (unfold q, r; pose proof (Z.div_mod n (2 ^ 32)); lia).
  assert (0 <= r < 2 ^ 32) as Hr by (apply Z.mod_pos_bound; lia).
  destruct (Z.le_gt_cases (2 ^ 32) (r + len)) as [Hc | Hc].
  - assert ((n + len) / 2 ^ 32 = q + 1) as Eq.
    { symmetry. apply (Z.div_unique _ _ _ (r + len - 2 ^ 32)); lia. }
    assert ((n + len) mod 2 ^ 32 = r + len - 2 ^ 32) as ->.
    { symmetry. apply (Z.mod_unique _ _ (q + 1)); lia. }
    rewrite (proj2 (Z.ltb_lt _ _)), Eq by lia. unfold wrap. by rewrite Zplus_mod_idemp_l.
  - assert ((n + len) / 2 ^ 32 = q) as Eq by (symmetry; apply (Z.div_unique _ _ _ (r + len)); lia).
    assert ((n + len) mod 2 ^ 32 = r + len) as -> by (symmetry; apply (Z.mod_unique _ _ q); lia).
    by rewrite (proj2 (Z.ltb_ge _ _)), Eq by lia.
Qed.

Lemma mod_64_of_32 n : 0 <= n -> (n mod 2 ^ 32) mod 64 = n mod 64.
Proof.
  intros Hn. symmetry. apply Znumtheory.Zmod_div_mod; [lia | lia |]. by exists (2 ^ 26).
Qed.

(** A message as complete blocks [mb] and an incomplete one. *)
Lemma stands_intro ctx m mb rest k : m = mb ++ rest -> length mb = (64 * k)%nat -> (length rest < 64)%nat ->
  total0 ctx = zlen m mod 2 ^ 32 -> total1 ctx = zlen m / 2 ^ 32 mod 2 ^ 32 ->
  state ctx = absorb k initial mb -> length (buffer ctx) = 64%nat ->
  take (length rest) (buffer ctx) = rest -> stands ctx m.
Proof.
  intros -> Hk Hr Ht0 Ht1 Hs Hb Hbuf. assert (blocks rest = 0%nat) as H0 by by apply Nat.div_small.
  assert (blocks (mb ++ rest) = k) as Hbl by (rewrite (blocks_app _ _ k Hk), H0; lia).
  assert (length (mb ++ rest) mod 64 = length rest)%nat as Hm.
  { rewrite length_app, Hk, Nat.add_comm, Nat.mul_comm, Nat.Div0.mod_add. by apply Nat.mod_small. }
  unfold stands. rewrite Hm, Hbl. split_and!; [done | done | | done |].
  - rewrite Hs. rewrite <- (Nat.add_0_r k) at 2. by rewrite absorb_app.
  - rewrite Hbuf, drop_app_ge, Hk, Nat.sub_diag by lia. done.
Qed.

Lemma stands_elim ctx m : stands ctx m -> exists mb rest k, m = mb ++ rest /\ length mb = (64 * k)%nat /\
  (length rest < 64)%nat /\ zlen m mod 64 = zlen rest /\ state ctx = absorb k initial mb /\
  length (buffer ctx) = 64%nat /\ take (length rest) (buffer ctx) = rest.
Proof.
  intros (_ & _ & Hs & Hb & Hbuf). destruct (split_blocks m) as (m1 & m2 & Hm & H1 & H2 & H3).
  exists m1, m2, (blocks m). pose proof (Nat.mod_upper_bound (length m) 64 ltac:(lia)).
  split_and!; [done | done | lia | | | done | by rewrite H2, Hbuf].
  - rewrite H2, Nat2Z.inj_mod. done.
  - rewrite Hs. rewrite Hm at 2. rewrite <- (Nat.add_0_r (blocks m)) at 1. by rewrite absorb_app.
Qed.

(** Absorbing the complete blocks of the rest of the input into a buffer that
    holds nothing. *)
Lemma stands_loop t0 t1 m mb input k st buf : m = mb ++ input -> length mb = (64 * k)%nat ->
  st = absorb k initial mb -> length buf = 64%nat ->
  t0 = zlen m mod 2 ^ 32 -> t1 = zlen m / 2 ^ 32 mod 2 ^ 32 ->
  exists ctx, ('(st, input) ← update_loop (S (length input)) st input;
    let buf := if zlen input =? 0 then buf else copy_into buf (Z.to_nat 0) input in
    Some (Context t0 t1 st buf)) = Some ctx /\ stands ctx m.
Proof.
  intros Hm Hk Hs Hb Ht0 Ht1. rewrite update_loop_spec by lia. cbn [mbind option_bind]. eexists. split; [done |].
  destruct (split_blocks input) as (i1 & i2 & Hi & H1 & H2 & <-).
  pose proof (Nat.mod_upper_bound (length input) 64 ltac:(lia)).
  apply (stands_intro _ m (mb ++ i1) i2 (k + blocks input)); cbn [total0 total1 state buffer]; try done.
  - by rewrite <- app_assoc, <- Hi.
  - rewrite length_app. lia.
  - lia.
  - rewrite absorb_app by done. rewrite <- Hs. rewrite Hi at 2. rewrite <- (Nat.add_0_r (blocks input)) at 1.
    by rewrite absorb_app.
  - destruct (zlen i2 =? 0); [done |]. change (Z.to_nat 0) with 0%nat.
    destruct (copy_into_take buf 0 i2) as [_ ->]; [lia | done].
  - destruct (Z.eqb_spec (zlen i2) 0) as [Hz |]; [by destruct i2 |].
    apply (copy_into_take buf 0 i2). lia.
Qed.

Lemma update_spec ctx m input : stands ctx m -> zlen input < 2 ^ 32 ->
  exists ctx', update ctx input = Some ctx' /\ stands ctx' (m ++ input).
Proof.
  intros Hst Hlen. unfold update. destruct (Z.eqb_spec (zlen input) 0) as [H0 | H0].
  { destruct input; [| done]. exists ctx. by rewrite app_nil_r. }
  pose proof Hst as (Ht0 & Ht1 & _). destruct (stands_elim ctx m Hst) as (mb & rest & k & Hm & Hk & Hr & Hmod & Hs & Hb & Hbuf).
  destruct (update_totals (zlen m) (zlen input)) as [Hn0 Hn1]; [lia | lia |].
  rewrite <- Ht0, <- Ht1 in Hn1. rewrite <- Ht0 in Hn0.
  assert (Z.land (total0 ctx) 0x3F = zlen rest) as ->.
  { rewrite Ht0, land_63 by (apply Z.mod_pos_bound; lia). by rewrite mod_64_of_32 by lia. }
  replace (zlen m + zlen input) with (zlen (m ++ input)) in * by (rewrite length_app; lia).
  rewrite Hn1, Hn0.
  destruct (Z.eqb_spec (zlen rest) 0) as [Hz | Hz]; cbn [negb andb].
  { rewrite Hz. apply (stands_loop _ _ (m ++ input) mb input k); try done.
    destruct rest; [| done]. by rewrite Hm, app_nil_r. }
  destruct (Z.leb_spec (64 - zlen rest) (zlen input)) as [Hle | Hgt].
  - rewrite Nat2Z.id. set (c := Z.to_nat (64 - zlen rest)).
    assert (length (take c input) = (64 - length rest)%nat) as Hc by (rewrite length_take; lia).
    assert (copy_into (buffer ctx) (length rest) (take c input) = rest ++ take c input) as Hblock.
    { destruct (copy_into_take (buffer ctx) (length rest) (take c input)) as [E El]; [lia |].
      rewrite take_ge in E by lia. by rewrite E, Hbuf. }
    rewrite Hblock. apply (stands_loop _ _ (m ++ input) (mb ++ rest ++ take c input) (drop c input) (k + 1)); try done.
    + rewrite Hm, <- !app_assoc, take_drop. done.
    + rewrite !length_app. lia.
    + rewrite absorb_app, <- Hs by done. cbn [absorb]. rewrite (take_ge (rest ++ take c input)) by (rewrite length_app; lia). done.
    + rewrite length_app. lia.
  - rewrite update_loop_spec by lia. cbn [mbind option_bind].
    assert (blocks input = 0%nat) as -> by (apply Nat.div_small; lia). cbn [absorb]. rewrite drop_0.
    rewrite (proj2 (Z.eqb_neq _ 0)), Nat2Z.id by done. eexists. split; [done |].
    destruct (copy_into_take (buffer ctx) (length rest) input) as [E El]; [lia |].
    apply (stands_intro _ _ mb (rest ++ input) k); cbn [total0 total1 state buffer]; try done.
    + by rewrite Hm, <- app_assoc.
    + rewrite length_app. lia.
    + lia.
    + by rewrite length_app, E, Hbuf.
Qed.

Lemma starts_stands buf : length buf = 64%nat -> stands (starts buf) [].
Proof. intros Hb. apply (stands_intro _ [] [] [] 0); try done. cbn. lia. Qed.

Lemma testbit_mod32 x i : 0 <= i -> Z.testbit (x mod 2 ^ 32) i = (i <? 32) && Z.testbit x i.
Proof. intros Hi. apply (wrap_testbit 32); lia. Qed.

Lemma length_words n : 0 <= n < 2 ^ 61 ->
  Z.lor (Z.shiftr (n mod 2 ^ 32) 29) (u32 (Z.shiftl (n / 2 ^ 32 mod 2 ^ 32) 3)) = Z.shiftr (8 * n) 32 /\
  u32 (Z.shiftl (n mod 2 ^ 32) 3) = u32 (8 * n).
Proof.
  intros Hn. replace (8 * n) with (Z.shiftl n 3) by (rewrite Z.shiftl_mul_pow2 by lia; lia).
  rewrite <- (Z.shiftr_div_pow2 n 32) by lia. split.
  - zbits. rewrite testbit_mod32 by lia. destruct (Z.ltb_spec (i + 29) 32), (Z.ltb_spec i 32); cbn [andb]; try lia.
    + rewrite (Z.testbit_neg_r _ (i - 3)) by lia. rewrite orb_false_r. f_equal. lia.
    + rewrite testbit_mod32, (proj2 (Z.ltb_lt (i - 3) 32)), Z.shiftr_spec by lia. cbn [andb orb]. f_equal. lia.
    + symmetry. apply (testbit_high 61); lia.
  - zbits. destruct (Z.ltb_spec i 32); [| done]. cbn [andb]. destruct (Z.lt_ge_cases i 3).
    + by rewrite !Z.testbit_neg_r by lia.
    + rewrite testbit_mod32, (proj2 (Z.ltb_lt (i - 3) 32)) by lia. done.
Qed.

Lemma msglen_spec ctx m : stands ctx m -> zlen m < 2 ^ 61 -> msglen ctx = be_bytes 8 (8 * zlen m).
Proof.
  intros (Ht0 & Ht1 & _) Hm. unfold msglen. destruct (length_words (zlen m)) as [Hh Hl]; [lia |].
  rewrite Ht0, Ht1, Hh, Hl. unfold PUT_UINT32_BE, be_bytes. set (x := 8 * zlen m).
  change (reverse (seqZ 0 (Z.of_nat 8))) with [7; 6; 5; 4; 3; 2; 1; 0]. cbn [fmap list_fmap app].
  repeat (apply (f_equal2 cons)); [.. | done].
  all: zbits; destruct (Z.ltb_spec i 8); cbn [andb]; [| done]; zbits_rw;
    rewrite ?(proj2 (Z.ltb_lt _ 32)) by lia; cbn [andb]; f_equal; lia.
Qed.

Lemma padding_spec n padn : 0 <= n -> padn = (if n mod 64 <? 56 then 56 - n mod 64 else 120 - n mod 64) ->
  take (Z.to_nat padn) hash_padding = 0x80 :: replicate (Z.to_nat ((55 - n) mod 64)) 0.
Proof.
  intros Hn Hp. pose proof (Z.mod_pos_bound n 64 ltac:(lia)) as Hr.
  assert (padn = (55 - n) mod 64 + 1 /\ 0 <= (55 - n) mod 64 < 64) as [-> Hb].
  { pose proof (Z.div_mod n 64 ltac:(lia)) as Hd. subst padn. split; [| apply Z.mod_pos_bound; lia].
    destruct (Z.ltb_spec (n mod 64) 56).
    - rewrite <- (Z.mod_unique (55 - n) 64 (- (n / 64)) (55 - n mod 64)) by lia. lia.
    - rewrite <- (Z.mod_unique (55 - n) 64 (- (n / 64) - 1) (119 - n mod 64)) by lia. lia. }
  replace (Z.to_nat ((55 - n) mod 64 + 1)) with (S (Z.to_nat ((55 - n) mod 64))) by lia.
  unfold hash_padding. cbn [take]. f_equal. rewrite take_replicate. f_equal. lia.
Qed.

Lemma finish_spec ctx m : stands ctx m -> zlen m < 2 ^ 61 -> finish ctx = Some (digest m).
Proof.
  intros Hst Hm. pose proof Hst as (Ht0 & _). unfold finish.
  assert (Z.land (total0 ctx) 0x3F = zlen m mod 64) as ->.
  { rewrite Ht0, land_63 by (apply Z.mod_pos_bound; lia). apply mod_64_of_32. lia. }
  rewrite (padding_spec (zlen m) _ ltac:(lia) eq_refl).
  pose proof (Z.mod_pos_bound (55 - zlen m) 64 ltac:(lia)).
  destruct (update_spec ctx m (0x80 :: replicate (Z.to_nat ((55 - zlen m) mod 64)) 0) Hst) as (c1 & -> & Hc1).
  { cbn [length]. rewrite length_replicate. lia. }
  cbn [mbind option_bind]. rewrite (msglen_spec ctx m Hst Hm).
  destruct (update_spec c1 _ (be_bytes 8 (8 * zlen m)) Hc1) as (c2 & -> & Hc2); [done |].
  cbn [mbind option_bind]. destruct Hc2 as (_ & _ & Hs & _). rewrite Hs. unfold digest, padded.
  by rewrite <- app_assoc.
Qed.

(** Any number of pieces. *)
Fixpoint updates (ctx : context St) (pieces : list (list Z)) : option (context St) :=
  match pieces with
  | [] => Some ctx
  | p :: pieces => ctx ← update ctx p; updates ctx pieces
  end.

Lemma updates_spec pieces : forall ctx m, stands ctx m -> Forall (fun p => zlen p < 2 ^ 32) pieces ->
  exists ctx', updates ctx pieces = Some ctx' /\ stands ctx' (m ++ concat pieces).
Proof.
  induction pieces as [| p pieces IH]; intros ctx m Hst Hp; cbn [updates concat].
  { exists ctx. by rewrite app_nil_r. }
  apply Forall_cons in Hp as [Hp1 Hp]. destruct (update_spec ctx m p Hst Hp1) as (c1 & -> & Hc1).
  cbn [mbind option_bind]. destruct (IH c1 (m ++ p) Hc1 Hp) as (c2 & -> & Hc2). exists c2. by rewrite app_assoc.
Qed.

(** The digest of a message given in pieces. *)
Definition hash_pieces (buf : list Z) (pieces : list (list Z)) : option (list Z) :=
  ctx ← updates (starts buf) pieces; finish ctx.

Lemma hash_pieces_spec buf pieces : length buf = 64%nat -> Forall (fun p => zlen p < 2 ^ 32) pieces ->
  zlen (concat pieces) < 2 ^ 61 -> hash_pieces buf pieces = Some (digest (concat pieces)).
Proof.
  intros Hb Hp Hl. unfold hash_pieces.
  destruct (updates_spec pieces (starts buf) [] (starts_stands buf Hb) Hp) as (c & -> & Hc).
  cbn [mbind option_bind]. by apply finish_spec.
Qed.

End Operations.
