(* ===== verification/Sha256.v ===== *)
(** * SHA-256 (lib/sha256.c)

    The compression function as the file writes it, unrolled eight rounds at a
    time with the roles of the eight variables rotating, is shown to be the one
    of FIPS 180-4; with the streaming code of [BlockHash] this gives that the
    digest of a message does not depend on how it is cut into pieces and is the
    standard's. *)

From S2P Require Import Prelude BlockHash.

Definition SHR (x n : Z) : Z := Z.shiftr (Z.land x 0xFFFFFFFF) n.
Definition ROTR (x n : Z) : Z := Z.lor (SHR x n) (u32 (Z.shiftl x (32 - n))).

Definition S0 (x : Z) : Z := ROTR x 7 ⊕ ROTR x 18 ⊕ SHR x 3.
Definition S1 (x : Z) : Z := ROTR x 17 ⊕ ROTR x 19 ⊕ SHR x 10.
Definition S2 (x : Z) : Z := ROTR x 2 ⊕ ROTR x 13 ⊕ ROTR x 22.
Definition S3 (x : Z) : Z := ROTR x 6 ⊕ ROTR x 11 ⊕ ROTR x 25.

Definition F0 (x y z : Z) : Z := Z.lor (Z.land x y) (Z.land z (Z.lor x y)).
Definition F1 (x y z : Z) : Z := z ⊕ Z.land x (y ⊕ z).

(** The constants, in the order of the rounds. *)
Definition K256 : list Z :=
  [0x428A2F98; 0x71374491; 0xB5C0FBCF; 0xE9B5DBA5; 0x3956C25B; 0x59F111F1; 0x923F82A4; 0xAB1C5ED5;
   0xD807AA98; 0x12835B01; 0x243185BE; 0x550C7DC3; 0x72BE5D74; 0x80DEB1FE; 0x9BDC06A7; 0xC19BF174;
   0xE49B69C1; 0xEFBE4786; 0x0FC19DC6; 0x240CA1CC; 0x2DE92C6F; 0x4A7484AA; 0x5CB0A9DC; 0x76F988DA;
   0x983E5152; 0xA831C66D; 0xB00327C8; 0xBF597FC7; 0xC6E00BF3; 0xD5A79147; 0x06CA6351; 0x14292967;
   0x27B70A85; 0x2E1B2138; 0x4D2C6DFC; 0x53380D13; 0x650A7354; 0x766A0ABB; 0x81C2C92E; 0x92722C85;
   0xA2BFE8A1; 0xA81A664B; 0xC24B8B70; 0xC76C51A3; 0xD192E819; 0xD6990624; 0xF40E3585; 0x106AA070;
   0x19A4C116; 0x1E376C08; 0x2748774C; 0x34B0BCB5; 0x391C0CB3; 0x4ED8AA4A; 0x5B9CCA4F; 0x682E6FF3;
   0x748F82EE; 0x78A5636F; 0x84C87814; 0x8CC70208; 0x90BEFFFA; 0xA4506CEB; 0xBEF9A3F7; 0xC67178F2].

(** [W[t] = S1(W[t - 2]) + W[t - 7] + S0(W[t - 15]) + W[t - 16]] *)
Definition R256 (W : list Z) (t : nat) : Z :=
  u32 (S1 (nth (t - 2) W 0) + nth (t - 7) W 0 + S0 (nth (t - 15) W 0) + nth (t - 16) W 0).

Fixpoint extend256 (n : nat) (W : list Z) : list Z :=
  match n with O => W | S n => extend256 n (W ++ [R256 W (length W)]) end.

Definition load256 (data : list Z) : list Z := (fun i => GET_UINT32_BE data (4 * i)) <$> seq 0 16.

Definition words256 (data : list Z) : list Z := extend256 48 (load256 data).

(** The macro [P]: the new values of [d] and [h]. *)
Definition P256 (a b c d e f g h x K : Z) : Z * Z :=
  let temp1 := u32 (h + S3 e + F1 e f g + K + x) in
  let temp2 := u32 (S2 a + F0 a b c) in
  (u32 (d + temp1), u32 (temp1 + temp2)).

Abbreviation state256 := (Z * Z * Z * Z * Z * Z * Z * Z)%type.

(** Eight consecutive lines of [sha256_process], from round [t] on. *)
Definition rounds8 (W : list Z) (st : state256) (t : nat) : state256 :=
  let '(A, B, C, D, E, F, G, H) := st in
  let w i := nth (t + i) W 0 in
  let k i := nth (t + i) K256 0 in
  let '(D, H) := P256 A B C D E F G H (w 0%nat) (k 0%nat) in
  let '(C, G) := P256 H A B C D E F G (w 1%nat) (k 1%nat) in
  let '(B, F) := P256 G H A B C D E F (w 2%nat) (k 2%nat) in
  let '(A, E) := P256 F G H A B C D E (w 3%nat) (k 3%nat) in
  let '(H, D) := P256 E F G H A B C D (w 4%nat) (k 4%nat) in
  let '(G, C) := P256 D E F G H A B C (w 5%nat) (k 5%nat) in
  let '(F, B) := P256 C D E F G H A B (w 6%nat) (k 6%nat) in
  let '(E, A) := P256 B C D E F G H A (w 7%nat) (k 7%nat) in
  (A, B, C, D, E, F, G, H).

Definition add_state256 (s t : state256) : state256 :=
  let '(a, b, c, d, e, f, g, h) := s in
  let '(A, B, C, D, E, F, G, H) := t in
  (u32 (a + A), u32 (b + B), u32 (c + C), u32 (d + D), u32 (e + E), u32 (f + F), u32 (g + G), u32 (h + H)).

Definition sha256_process (st : state256) (data : list Z) : state256 :=
  add_state256 st (foldl (rounds8 (words256 data)) st [0; 8; 16; 24; 32; 40; 48; 56]%nat).

Definition initial256 : state256 :=
  (0x6A09E667, 0xBB67AE85, 0x3C6EF372, 0xA54FF53A, 0x510E527F, 0x9B05688C, 0x1F83D9AB, 0x5BE0CD19).

Definition output256 (st : state256) : list Z :=
  let '(a, b, c, d, e, f, g, h) := st in concat (PUT_UINT32_BE <$> [a; b; c; d; e; f; g; h]).

#[export] Instance sha256_hash : BlockHash state256 := {
  initial := initial256; process := sha256_process; output := output256 }.

Definition sha256_starts (buf : list Z) : context state256 := starts buf.
Definition sha256_update (ctx : context state256) (input : list Z) : option (context state256) := update ctx input.
Definition sha256_finish (ctx : context state256) : option (list Z) := finish ctx.

(** ** FIPS 180-4 *)

Module Fips.

Definition rotr (n x : Z) : Z := x / 2 ^ n + x mod 2 ^ n * 2 ^ (32 - n).
Definition shr (n x : Z) : Z := x / 2 ^ n.
Definition Ch (x y z : Z) : Z := Z.land x y ⊕ Z.land (Z.lnot x) z.
Definition Maj (x y z : Z) : Z := Z.land x y ⊕ Z.land x z ⊕ Z.land y z.
Definition Sigma0 (x : Z) : Z := rotr 2 x ⊕ rotr 13 x ⊕ rotr 22 x.
Definition Sigma1 (x : Z) : Z := rotr 6 x ⊕ rotr 11 x ⊕ rotr 25 x.
Definition sigma0 (x : Z) : Z := rotr 7 x ⊕ rotr 18 x ⊕ shr 3 x.
Definition sigma1 (x : Z) : Z := rotr 17 x ⊕ rotr 19 x ⊕ shr 10 x.

Definition primes : list Z :=
  [2; 3; 5; 7; 11; 13; 17; 19; 23; 29; 31; 37; 41; 43; 47; 53;
   59; 61; 67; 71; 73; 79; 83; 89; 97; 101; 103; 107; 109; 113; 127; 131;
   137; 139; 149; 151; 157; 163; 167; 173; 179; 181; 191; 193; 197; 199; 211; 223;
   227; 229; 233; 239; 241; 251; 257; 263; 269; 271; 277; 281; 283; 293; 307; 311].

(** The first 32 bits of the fractional part of a root: the integer part of
    the root of [p] times a power of two, by bisection, modulo 2^32. *)
Fixpoint root (fuel : nat) (e p lo hi : Z) : Z :=
  match fuel with
  | O => lo
  | S fuel =>
      let mid := (lo + hi) / 2 in
      if mid ^ e <=? p * 2 ^ (32 * e) then root fuel e p mid hi else root fuel e p lo mid
  end.
Definition root_fraction (e p : Z) : Z := root 64 e p 0 (2 ^ 40) mod 2 ^ 32.

(** One step of the message schedule, and 64 words of it. *)
Fixpoint schedule (n : nat) (W : list Z) : list Z :=
  match n with
  | O => W
  | S n =>
      let t := length W in
      schedule n (W ++ [(sigma1 (nth (t - 2) W 0) + nth (t - 7) W 0 + sigma0 (nth (t - 15) W 0) + nth (t - 16) W 0) mod 2 ^ 32])
  end.

(** The big-endian word at byte [4 i] of a block. *)
Definition block_word (data : list Z) (i : nat) : Z :=
  let b j := nth (4 * i + j) data 0 in
  b 0%nat * 2 ^ 24 + b 1%nat * 2 ^ 16 + b 2%nat * 2 ^ 8 + b 3%nat.

Definition round (W K : list Z) (st : state256) (t : nat) : state256 :=
  let '(a, b, c, d, e, f, g, h) := st in
  let T1 := (h + Sigma1 e + Ch e f g + nth t K 0 + nth t W 0) mod 2 ^ 32 in
  let T2 := (Sigma0 a + Maj a b c) mod 2 ^ 32 in
  ((T1 + T2) mod 2 ^ 32, a, b, c, (d + T1) mod 2 ^ 32, e, f, g).

Definition compress (st : state256) (data : list Z) : state256 :=
  let W := schedule 48 (block_word data <$> seq 0 16) in
  let K := root_fraction 3 <$> primes in
  add_state256 st (foldl (round W K) st (seq 0 64)).

Definition initial_hash : state256 :=
  let r p := root_fraction 2 p in (r 2, r 3, r 5, r 7, r 11, r 13, r 17, r 19).

(** The hash function: [digest] of the padded message. *)
Definition fips256 : BlockHash state256 := {|
  initial := initial_hash; process := compress; output := output256 |}.

End Fips.

(** ** The macros are the functions of the standard *)

Lemma SHR_shr x n : is_u32 x -> 0 <= n -> SHR x n = Fips.shr n x.
Proof.
  intros Hx Hn. unfold SHR, Fips.shr. change 0xFFFFFFFF with (Z.ones 32).
  rewrite Z.land_ones, Z.mod_small, Z.shiftr_div_pow2 by (done || lia). done.
Qed.

Lemma ROTR_rotr x n : is_u32 x -> 0 < n < 32 -> ROTR x n = Fips.rotr n x.
Proof.
  intros Hx Hn. unfold ROTR. rewrite SHR_shr by (done || lia). unfold Fips.shr, Fips.rotr.
  rewrite (Z.mul_comm (x mod 2 ^ n)).
  assert (0 <= x / 2 ^ n < 2 ^ (32 - n)) as Hd.
  { unfold is_u32 in Hx. split; [apply Z.div_pos; lia |]. apply Z.div_lt_upper_bound; [lia |].
    rewrite <- Z.pow_add_r by lia. replace (n + (32 - n)) with 32 by lia. lia. }
  rewrite add_lxor_disjoint by (done || lia). rewrite <- Z.shiftr_div_pow2 by lia.
  change (x mod 2 ^ n) with (wrap n x). zbits.
  destruct (Z.lt_ge_cases i (32 - n)) as [Hlt | Hge].
  - rewrite !(Z.testbit_neg_r _ (i - (32 - n))) by lia. rewrite andb_false_r, orb_false_r, xorb_false_r. done.
  - rewrite wrap_testbit by lia. rewrite (testbit_high 32 x (i + n)) by (unfold is_u32 in Hx; lia). cbn [orb xorb].
    replace (i - (32 - n) <? n) with (i <? 32); [by destruct (i <? 32), (Z.testbit x (i - (32 - n))) |].
    destruct (Z.ltb_spec i 32), (Z.ltb_spec (i - (32 - n)) n); done || lia.
Qed.

Lemma F0_Maj x y z : F0 x y z = Fips.Maj x y z.
Proof.
  unfold F0, Fips.Maj. zbits. by destruct (Z.testbit x i), (Z.testbit y i), (Z.testbit z i).
Qed.

Lemma F1_Ch x y z : F1 x y z = Fips.Ch x y z.
Proof.
  unfold F1, Fips.Ch. zbits. rewrite Z.lnot_spec by lia.
  by destruct (Z.testbit x i), (Z.testbit y i), (Z.testbit z i).
Qed.

Lemma sigma_spec x : is_u32 x -> S0 x = Fips.sigma0 x /\ S1 x = Fips.sigma1 x /\
  S2 x = Fips.Sigma0 x /\ S3 x = Fips.Sigma1 x.
Proof.
  intros Hx. unfold S0, S1, S2, S3, Fips.sigma0, Fips.sigma1, Fips.Sigma0, Fips.Sigma1.
  by rewrite !ROTR_rotr, !SHR_shr by (done || lia).
Qed.

Lemma constants_spec : K256 = Fips.root_fraction 3 <$> Fips.primes /\ initial256 = Fips.initial_hash.
Proof. split; vm_compute; reflexivity. Qed.

Lemma is_u32_wrap x : is_u32 (u32 x).
Proof. apply (wrap_range 32). lia. Qed.

Lemma nth_u32 W i : Forall is_u32 W -> is_u32 (nth i W 0).
Proof.
  intros HW. destruct (decide (i < length W)%nat) as [Hlt | Hge].
  - rewrite Forall_forall in HW. apply HW, list_elem_of_In, nth_In. lia.
  - rewrite nth_overflow by lia. done.
Qed.

Lemma schedule_spec n : forall W, Forall is_u32 W -> extend256 n W = Fips.schedule n W /\ Forall is_u32 (extend256 n W).
Proof.
  induction n as [| n IH]; intros W HW; cbn [extend256 Fips.schedule]; [done |].
  assert (R256 W (length W) = (Fips.sigma1 (nth (length W - 2) W 0) + nth (length W - 7) W 0 +
    Fips.sigma0 (nth (length W - 15) W 0) + nth (length W - 16) W 0) mod 2 ^ 32) as E.
  { unfold R256. destruct (sigma_spec (nth (length W - 2) W 0)) as (_ & -> & _); [by apply nth_u32 |].
    by destruct (sigma_spec (nth (length W - 15) W 0)) as (-> & _); [apply nth_u32 |]. }
  cbv zeta. rewrite <- E. apply IH. apply Forall_app. split; [done |]. constructor; [apply is_u32_wrap | done].
Qed.

Lemma nth_byte l i : is_bytes l -> is_byte (nth i l 0).
Proof.
  intros Hl. destruct (decide (i < length l)%nat) as [Hlt | Hge].
  - rewrite Forall_forall in Hl. apply Hl, list_elem_of_In, nth_In. lia.
  - rewrite nth_overflow by lia. done.
Qed.

(** Four bytes joined by shifts are their big-endian value. *)
Lemma join_bytes a b c d : is_byte a -> is_byte b -> is_byte c -> is_byte d ->
  Z.lor (Z.lor (Z.lor (Z.shiftl a 24) (Z.shiftl b 16)) (Z.shiftl c 8)) d =
  a * 2 ^ 24 + b * 2 ^ 16 + c * 2 ^ 8 + d.
Proof.
  unfold is_byte. intros Ha Hb Hc Hd.
  assert (forall x y k, 0 <= k -> 0 <= y < 2 ^ k -> Z.lor (Z.shiftl x k) y = x * 2 ^ k + y) as H.
  { intros x y k Hk Hy. rewrite Z.add_comm, (Z.mul_comm x), add_lxor_disjoint, Z.lxor_comm by done.
    symmetry. apply Z.lxor_lor. zbits. destruct (Z.lt_ge_cases i k).
    - by rewrite Z.testbit_neg_r by lia.
    - by rewrite (testbit_high k y) by lia; rewrite andb_false_r. }
  assert (forall x y j k, 0 <= j -> 0 <= k -> Z.lor (Z.shiftl x (j + k)) (Z.shiftl y k) = Z.shiftl (Z.lor (Z.shiftl x j) y) k) as Hs.
  { intros x y j k Hj Hk. rewrite Z.shiftl_lor, Z.shiftl_shiftl by lia. done. }
  change 24 with (8 + 16) at 1. rewrite Hs by lia. rewrite (H a b 8) by lia.
  change 16 with (8 + 8) at 1. rewrite Hs by lia. rewrite (H _ c 8) by lia.
  rewrite (H _ d 8) by lia. lia.
Qed.

Lemma load_spec data : is_bytes data ->
  load256 data = Fips.block_word data <$> seq 0 16 /\ Forall is_u32 (load256 data).
Proof.
  intros Hd.
  assert (forall i, GET_UINT32_BE data (4 * i) = Fips.block_word data i) as E.
  { intros i. unfold GET_UINT32_BE, Fips.block_word. rewrite join_bytes by by apply nth_byte.
    by rewrite Nat.add_0_r. }
  split; [by apply list_fmap_ext |]. apply Forall_fmap, Forall_forall. intros i _. unfold compose. rewrite E.
  pose proof (nth_byte data (4 * i + 0) Hd). pose proof (nth_byte data (4 * i + 1) Hd).
  pose proof (nth_byte data (4 * i + 2) Hd). pose proof (nth_byte data (4 * i + 3) Hd).
  unfold Fips.block_word, is_u32, is_byte in *. lia.
Qed.

(** ** Rounds *)

Definition ok256 (st : state256) : Prop :=
  let '(a, b, c, d, e, f, g, h) := st in
  is_u32 a /\ is_u32 b /\ is_u32 c /\ is_u32 d /\ is_u32 e /\ is_u32 f /\ is_u32 g /\ is_u32 h.

(** One round with fixed roles, and with the macros of the file. *)
Definition round256 (W : list Z) (st : state256) (t : nat) : state256 :=
  let '(a, b, c, d, e, f, g, h) := st in
  let '(d', h') := P256 a b c d e f g h (nth t W 0) (nth t K256 0) in
  (h', a, b, c, d', e, f, g).

(** The rotation of the variables: eight unrolled lines are eight rounds. *)
Lemma rounds8_spec W st t : rounds8 W st t = foldl (round256 W) st (seq t 8).
Proof.
  destruct st as [[[[[[[A B] C] D] E] F] G] H]. unfold rounds8.
  cbn [seq foldl]. unfold round256.
  rewrite Nat.add_0_r, !(Nat.add_comm t). reflexivity.
Qed.

Lemma round256_spec W st t : ok256 st ->
  round256 W st t = Fips.round W K256 st t /\ ok256 (round256 W st t).
Proof.
  destruct st as [[[[[[[a b] c] d] e] f] g] h]. intros (Ha & Hb & Hc & Hd & He & Hf & Hg & Hh).
  unfold round256, Fips.round, P256. cbv zeta.
  destruct (sigma_spec a Ha) as (_ & _ & -> & _). destruct (sigma_spec e He) as (_ & _ & _ & ->).
  rewrite F0_Maj, F1_Ch. split; [done |]. split_and!; try done; apply is_u32_wrap.
Qed.

Lemma rounds_spec W ts : forall st, ok256 st ->
  foldl (round256 W) st ts = foldl (Fips.round W K256) st ts /\ ok256 (foldl (round256 W) st ts).
Proof.
  induction ts as [| t ts IH]; intros st Hst; cbn [foldl]; [done |].
  destruct (round256_spec W st t Hst) as [<- Hok]. by apply IH.
Qed.

Lemma add_state_ok s t : ok256 (add_state256 s t).
Proof.
  destruct s as [[[[[[[a b] c] d] e] f] g] h], t as [[[[[[[A B] C] D] E] F] G] H].
  cbn. split_and!; apply is_u32_wrap.
Qed.

Lemma process_spec st data : ok256 st -> is_bytes data ->
  sha256_process st data = Fips.compress st data /\ ok256 (sha256_process st data).
Proof.
  intros Hst Hd. unfold sha256_process, Fips.compress. split; [| apply add_state_ok].
  destruct (load_spec data Hd) as [El Hl]. unfold words256. destruct (schedule_spec 48 (load256 data) Hl) as [Es _].
  destruct constants_spec as [Hk _]. rewrite <- Hk, <- El, <- Es.
  set (W := extend256 48 (load256 data)).
  destruct (rounds_spec W (seq 0 64) st Hst) as [<- _]. f_equal.
  cbn [foldl]. rewrite !rounds8_spec, <- !foldl_app. reflexivity.
Qed.

Lemma absorb_fips n : forall st m, ok256 st -> is_bytes m ->
  absorb (H := sha256_hash) n st m = absorb (H := Fips.fips256) n st m.
Proof.
  induction n as [| n IH]; intros st m Hst Hm; cbn [absorb]; [done |].
  destruct (process_spec st (take 64 m) Hst) as [E Hok]; [by apply Forall_take |].
  change (@process _ sha256_hash) with sha256_process. change (@process _ Fips.fips256) with Fips.compress.
  rewrite <- E. apply IH; [done | by apply Forall_drop].
Qed.

Lemma padded_bytes m : is_bytes m -> is_bytes (padded m).
Proof.
  intros Hm. unfold padded. apply Forall_app. split; [done |]. constructor; [done |].
  apply Forall_app. split; [by apply Forall_replicate |].
  unfold be_bytes. apply Forall_fmap, Forall_forall. intros i _. apply (wrap_range 8). lia.
Qed.

Lemma digest_fips m : is_bytes m -> digest (H := sha256_hash) m = digest (H := Fips.fips256) m.
Proof.
  intros Hm. unfold digest. rewrite absorb_fips; [| vm_compute; done | by apply padded_bytes].
  change (@initial _ sha256_hash) with initial256. change (@initial _ Fips.fips256) with Fips.initial_hash.
  destruct constants_spec as [_ ->]. done.
Qed.

(** The unrolled compression function with its rotating variables, its
    in-place message schedule and its rewritten choice and majority functions
    is the compression function of FIPS 180-4, whose constants are computed
    from the roots of the first primes. *)
Theorem sha256_process_correct st data : ok256 st -> is_bytes data ->
  sha256_process st data = Fips.compress st data.
Proof. intros Hst Hd. by apply process_spec. Qed.

(** C28: SHA-256 computed in pieces: whatever the pieces a message is passed in
    to [sha256_update], and whatever the buffer of the context held before,
    [sha256_finish] returns the SHA-256 digest of FIPS 180-4 of the whole
    message. *)
Theorem sha256_correct buf pieces : length buf = 64%nat -> is_bytes (concat pieces) ->
  Forall (fun p => zlen p < 2 ^ 32) pieces -> zlen (concat pieces) < 2 ^ 61 ->
  hash_pieces (H := sha256_hash) buf pieces = Some (digest (H := Fips.fips256) (concat pieces)).
Proof.
  intros Hb Hm Hp Hl. rewrite <- digest_fips by done. by apply hash_pieces_spec.
Qed.

Module Sha256Examples.

Lemma sha256_process_correct_witness :
  sha256_process initial256 (replicate 64 0x61) = Fips.compress initial256 (replicate 64 0x61).
Proof. apply (sha256_process_correct initial256 (replicate 64 0x61)); [vm_compute; done | solve_bytes]. Defined.

(** The digest of "abc", in two pieces. *)
Lemma sha256_correct_witness :
  hash_pieces (H := sha256_hash) (replicate 64 7) [str "a"; str "bc"] =
    Some (digest (H := Fips.fips256) (str "abc")) /\
  firstn 4 (digest (H := Fips.fips256) (str "abc")) = [0xba; 0x78; 0x16; 0xbf].
Proof.
  split; [| vm_compute; reflexivity].
  apply (sha256_correct (replicate 64 7) [str "a"; str "bc"]); [done | solve_bytes | | done].
  repeat (constructor; [done |]). constructor.
Defined.

End Sha256Examples.
