(* ===== verification/Sha1.v ===== *)
(** * SHA-1 (lib/sha1.c)

    The compression function keeps the message schedule in a circular array of
    16 words and is unrolled five rounds at a time with the roles of the five
    variables rotating; it is shown to be the one of FIPS 180-4.  Streaming is
    the code of [BlockHash]. *)

From S2P Require Import Prelude BlockHash Sha256.

(** [((x << n) | ((x & 0xFFFFFFFF) >> (32 - n)))] *)
Definition S_rot (x n : Z) : Z := Z.lor (u32 (Z.shiftl x n)) (Z.shiftr (Z.land x 0xFFFFFFFF) (32 - n)).

(** The macro [R]: the word of round [t], stored over the word of round
    [t - 16]. *)
Definition R1 (W : list Z) (t : nat) : Z * list Z :=
  let w i := nth (i mod 16) W 0 in
  let temp := w (t - 3)%nat ⊕ w (t - 8)%nat ⊕ w (t - 14)%nat ⊕ w t in
  let v := S_rot temp 1 in
  (v, <[(t mod 16)%nat := v]> W).

(** The last argument of [P] in round [t]. *)
Definition X1 (W : list Z) (t : nat) : Z * list Z :=
  if (t <? 16)%nat then (nth t W 0, W) else R1 W t.

(** [F] and [K] of the four groups of twenty rounds. *)
Definition F_sha1 (t : nat) (x y z : Z) : Z :=
  if (t <? 20)%nat then z ⊕ Z.land x (y ⊕ z)
  else if (t <? 40)%nat then x ⊕ y ⊕ z
  else if (t <? 60)%nat then Z.lor (Z.land x y) (Z.land z (Z.lor x y))
  else x ⊕ y ⊕ z.

Definition K_sha1 (t : nat) : Z :=
  if (t <? 20)%nat then 0x5A827999
  else if (t <? 40)%nat then 0x6ED9EBA1
  else if (t <? 60)%nat then 0x8F1BBCDC
  else 0xCA62C1D6.

(** The macro [P] in round [t]: the new values of [e] and [b]. *)
Definition P1 (t : nat) (a b c d e x : Z) : Z * Z :=
  (u32 (e + (S_rot a 5 + F_sha1 t b c d + K_sha1 t + x)), S_rot b 30).

Abbreviation state160 := (Z * Z * Z * Z * Z)%type.

(** Five consecutive lines of [sha1_process], from round [t] on, with the
    array [W]. *)
Definition rounds5 (s : list Z * state160) (t : nat) : list Z * state160 :=
  let '(W, (A, B, C, D, E)) := s in
  let '(x, W) := X1 W t in
  let '(E, B) := P1 t A B C D E x in
  let '(x, W) := X1 W (t + 1) in
  let '(D, A) := P1 (t + 1) E A B C D x in
  let '(x, W) := X1 W (t + 2) in
  let '(C, E) := P1 (t + 2) D E A B C x in
  let '(x, W) := X1 W (t + 3) in
  let '(B, D) := P1 (t + 3) C D E A B x in
  let '(x, W) := X1 W (t + 4) in
  let '(A, C) := P1 (t + 4) B C D E A x in
  (W, (A, B, C, D, E)).

Definition add_state160 (s t : state160) : state160 :=
  let '(a, b, c, d, e) := s in
  let '(A, B, C, D, E) := t in
  (u32 (a + A), u32 (b + B), u32 (c + C), u32 (d + D), u32 (e + E)).

Definition sha1_process (st : state160) (data : list Z) : state160 :=
  add_state160 st (foldl rounds5 (load256 data, st)
    [0; 5; 10; 15; 20; 25; 30; 35; 40; 45; 50; 55; 60; 65; 70; 75]%nat).2.

Definition initial160 : state160 := (0x67452301, 0xEFCDAB89, 0x98BADCFE, 0x10325476, 0xC3D2E1F0).

Definition output160 (st : state160) : list Z :=
  let '(a, b, c, d, e) := st in concat (PUT_UINT32_BE <$> [a; b; c; d; e]).

#[export] Instance sha1_hash : BlockHash state160 := {
  initial := initial160; process := sha1_process; output := output160 }.

Definition sha1_starts (buf : list Z) : context state160 := starts buf.
Definition sha1_update (ctx : context state160) (input : list Z) : option (context state160) := update ctx input.
Definition sha1_finish (ctx : context state160) : option (list Z) := finish ctx.

Definition sha1_csum (buf input : list Z) : option (list Z) :=
  ctx ← sha1_update (sha1_starts buf) input; sha1_finish ctx.

(** [while (curr < end) { ... }], with a watchdog; [None] also stands for a
    loop that does not advance. *)
Fixpoint csum_wd_loop (fuel : nat) (ctx : context state160) (curr : list Z) (chunk_sz : Z) :
    option (context state160) :=
  match fuel with
  | O => None
  | S fuel =>
      if zlen curr =? 0 then Some ctx
      else
        let chunk := if chunk_sz <? zlen curr then chunk_sz else zlen curr in
        ctx ← sha1_update ctx (take (Z.to_nat chunk) curr);
        csum_wd_loop fuel ctx (drop (Z.to_nat chunk) curr) chunk_sz
  end.

Definition sha1_csum_wd (buf input : list Z) (chunk_sz : Z) : option (list Z) :=
  ctx ← csum_wd_loop (S (length input)) (sha1_starts buf) input chunk_sz; sha1_finish ctx.

(** The HMAC of a message; [b1] and [b2] are what the buffer of the context
    holds at its two initialisations. *)
Definition hmac_pad (key : list Z) (c : Z) : list Z :=
  zip_with Z.lxor (take 64 key ++ replicate (64 - length key) 0) (replicate 64 c).

Definition sha1_hmac (b1 b2 key input : list Z) : option (list Z) :=
  ctx ← sha1_update (sha1_starts b1) (hmac_pad key 0x36);
  ctx ← sha1_update ctx input;
  tmpbuf ← sha1_finish ctx;
  ctx ← sha1_update (sha1_starts b2) (hmac_pad key 0x5C);
  ctx ← sha1_update ctx tmpbuf;
  sha1_finish ctx.

(** ** FIPS 180-4 *)

Module Fips1.

Definition rotl (n x : Z) : Z := Fips.rotr (32 - n) x.

Definition f (t : nat) (x y z : Z) : Z :=
  if (t <? 20)%nat then Fips.Ch x y z
  else if (t <? 40)%nat then x ⊕ y ⊕ z
  else if (t <? 60)%nat then Fips.Maj x y z
  else x ⊕ y ⊕ z.

(** The integer part of 2^30 times the roots of 2, 3, 5 and 10. *)
Definition K (t : nat) : Z :=
  let r p := Z.sqrt (p * 2 ^ 60) in
  if (t <? 20)%nat then r 2 else if (t <? 40)%nat then r 3 else if (t <? 60)%nat then r 5 else r 10.

Fixpoint schedule (n : nat) (W : list Z) : list Z :=
  match n with
  | O => W
  | S n =>
      let t := length W in
      let w i := nth (t - i) W 0 in
      schedule n (W ++ [rotl 1 (w 3%nat ⊕ w 8%nat ⊕ w 14%nat ⊕ w 16%nat)])
  end.

Definition round (W : list Z) (st : state160) (t : nat) : state160 :=
  let '(a, b, c, d, e) := st in
  ((rotl 5 a + f t b c d + e + K t + nth t W 0) mod 2 ^ 32, a, rotl 30 b, c, d).

Definition compress (st : state160) (data : list Z) : state160 :=
  add_state160 st (foldl (round (schedule 64 (Fips.block_word data <$> seq 0 16))) st (seq 0 80)).

Definition fips160 : BlockHash state160 := {|
  initial := initial160; process := compress; output := output160 |}.

End Fips1.

(** ** The macros are the functions of the standard *)

Lemma S_rot_rotl x n : is_u32 x -> 0 < n < 32 -> S_rot x n = Fips1.rotl n x.
Proof.
  intros Hx Hn. unfold Fips1.rotl. rewrite <- ROTR_rotr by (done || lia). unfold S_rot, ROTR, SHR.
  rewrite Z.lor_comm. by replace (32 - (32 - n)) with n by lia.
Qed.

Lemma S_rot_range x n : is_u32 x -> 0 <= 32 - n -> is_u32 (S_rot x n).
Proof.
  intros Hx Hn. unfold S_rot. apply (lor_range 32); [lia | apply (wrap_range 32); lia |].
  apply (shiftr_range 32); [lia | lia |]. by apply (land_range 32).
Qed.

Lemma F_sha1_f t x y z : F_sha1 t x y z = Fips1.f t x y z.
Proof.
  unfold F_sha1, Fips1.f. change (z ⊕ Z.land x (y ⊕ z)) with (F1 x y z).
  change (Z.lor (Z.land x y) (Z.land z (Z.lor x y))) with (F0 x y z). by rewrite F0_Maj, F1_Ch.
Qed.

Lemma K_sha1_K t : K_sha1 t = Fips1.K t.
Proof.
  unfold K_sha1, Fips1.K. destruct (t <? 20)%nat, (t <? 40)%nat, (t <? 60)%nat; vm_compute; reflexivity.
Qed.

(** ** The circular message schedule *)

Lemma nth_lxor_range (W : list Z) i j : Forall is_u32 W -> is_u32 (nth i W 0 ⊕ nth j W 0).
Proof. intros HW. apply (lxor_range 32); [lia | by apply nth_u32 | by apply nth_u32]. Qed.

(** The words of rounds [length W] to [length W + n]. *)
Lemma schedule1_spec n : forall W, (16 <= length W)%nat -> Forall is_u32 W ->
  let Wf := Fips1.schedule n W in
  Forall is_u32 Wf /\ (forall i, (i < length W)%nat -> nth i Wf 0 = nth i W 0) /\
  (forall t, (length W <= t < length W + n)%nat ->
     nth t Wf 0 = S_rot (nth (t - 3) Wf 0 ⊕ nth (t - 8) Wf 0 ⊕ nth (t - 14) Wf 0 ⊕ nth (t - 16) Wf 0) 1).
Proof.
  induction n as [| n IH]; intros W Hl HW; cbn [Fips1.schedule]; cbv zeta.
  { split_and!; [done | done | intros; lia]. }
  set (x := nth (length W - 3) W 0 ⊕ nth (length W - 8) W 0 ⊕ nth (length W - 14) W 0 ⊕ nth (length W - 16) W 0).
  assert (is_u32 x) as Hx by (apply (lxor_range 32); [lia | apply (lxor_range 32); [lia | by apply nth_lxor_range | by apply nth_u32] | by apply nth_u32]).
  rewrite <- S_rot_rotl by (done || lia).
  destruct (IH (W ++ [S_rot x 1])) as (H1 & H2 & H3).
  { rewrite length_app. lia. }
  { apply Forall_app. split; [done |]. constructor; [apply S_rot_range; [done | lia] | done]. }
  rewrite length_app in H2, H3. cbn [length] in H2, H3.
  split_and!; [done | |].
  - intros i Hi. rewrite H2, app_nth1 by lia. done.
  - intros t Ht. destruct (decide (t = length W)) as [-> | Hne]; [| apply H3; lia].
    rewrite !H2, app_nth2, Nat.sub_diag by lia. cbn [nth]. by rewrite !app_nth1 by lia.
Qed.

(** The array before round [t] holds the last 16 words of the schedule. *)
Definition circular (W Wf : list Z) (t : nat) : Prop :=
  length W = 16%nat /\ forall i, (Nat.max t 16 - 16 <= i < Nat.max t 16)%nat -> nth (i mod 16) W 0 = nth i Wf 0.

Lemma nth_insert_mod (W : list Z) t i v : length W = 16%nat -> (t - 16 < i)%nat -> (i <= t)%nat ->
  nth (i mod 16) (<[(t mod 16)%nat := v]> W) 0 = if decide (i = t) then v else nth (i mod 16) W 0.
Proof.
  intros Hl Hi Ht. pose proof (Nat.mod_upper_bound t 16 ltac:(lia)). rewrite !nth_lookup.
  case_decide as He.
  - subst i. by rewrite list_lookup_insert_eq by lia.
  - rewrite list_lookup_insert_ne; [done |]. intros Heq.
    pose proof (Nat.div_mod_eq t 16). pose proof (Nat.div_mod_eq i 16). nia.
Qed.

Lemma X1_spec W Wf t : circular W Wf t -> (t < 80)%nat ->
  (forall t, (16 <= t < 80)%nat ->
     nth t Wf 0 = S_rot (nth (t - 3) Wf 0 ⊕ nth (t - 8) Wf 0 ⊕ nth (t - 14) Wf 0 ⊕ nth (t - 16) Wf 0) 1) ->
  exists W', X1 W t = (nth t Wf 0, W') /\ circular W' Wf (S t).
Proof.
  intros [Hl Hc] Ht Hrec. unfold X1. destruct (Nat.ltb_spec t 16) as [Hlt | Hge].
  - exists W. split; [| split; [done |]; intros i Hi; apply Hc; lia].
    rewrite <- (Hc t) by lia. by rewrite Nat.mod_small by lia.
  - unfold R1. rewrite (Hc (t - 3)%nat), (Hc (t - 8)%nat), (Hc (t - 14)%nat) by lia.
    assert (nth (t mod 16) W 0 = nth (t - 16) Wf 0) as ->.
    { rewrite <- (Hc (t - 16)%nat) by lia. f_equal.
      replace t with (t - 16 + 1 * 16)%nat at 1 by lia. apply Nat.Div0.mod_add. }
    rewrite <- Hrec by lia. eexists. split; [done |]. split; [by rewrite length_insert |].
    intros i Hi. rewrite nth_insert_mod by lia. case_decide as He; [by subst |]. apply Hc. lia.
Qed.

(** ** Rounds *)

Definition ok160 (st : state160) : Prop :=
  let '(a, b, c, d, e) := st in is_u32 a /\ is_u32 b /\ is_u32 c /\ is_u32 d /\ is_u32 e.

Definition round1 (s : list Z * state160) (t : nat) : list Z * state160 :=
  let '(W, (a, b, c, d, e)) := s in
  let '(x, W) := X1 W t in
  let '(e', b') := P1 t a b c d e x in
  (W, (e', a, b', c, d)).

Lemma rounds5_spec s t : rounds5 s t = foldl round1 s (seq t 5).
Proof.
  destruct s as [W [[[[A B] C] D] E]]. unfold rounds5. cbn [seq foldl]. unfold round1.
  replace (t + 1)%nat with (S t) by lia. replace (t + 2)%nat with (S (S t)) by lia.
  replace (t + 3)%nat with (S (S (S t))) by lia. replace (t + 4)%nat with (S (S (S (S t)))) by lia.
  unfold P1. repeat (match goal with |- context [X1 ?W ?t] => destruct (X1 W t) end; cbn beta iota). reflexivity.
Qed.

Lemma round1_spec W Wf st t : circular W Wf t -> (t < 80)%nat -> ok160 st ->
  (forall t, (16 <= t < 80)%nat ->
     nth t Wf 0 = S_rot (nth (t - 3) Wf 0 ⊕ nth (t - 8) Wf 0 ⊕ nth (t - 14) Wf 0 ⊕ nth (t - 16) Wf 0) 1) ->
  exists W', round1 (W, st) t = (W', Fips1.round Wf st t) /\ circular W' Wf (S t) /\ ok160 (Fips1.round Wf st t).
Proof.
  destruct st as [[[[a b] c] d] e]. intros Hc Ht (Ha & Hb & Hcc & Hd & He) Hrec.
  destruct (X1_spec W Wf t Hc Ht Hrec) as (W' & HX & Hc'). exists W'. unfold round1. rewrite HX. unfold P1, Fips1.round.
  rewrite F_sha1_f, K_sha1_K, !S_rot_rotl by (done || lia). split_and!; try done.
  - unfold wrap. do 2 f_equal. f_equal. f_equal. f_equal. f_equal. lia.
  - unfold ok160. split_and!; try done; [apply (wrap_range 32); lia |].
    rewrite <- S_rot_rotl by (done || lia). by apply S_rot_range.
Qed.

Lemma rounds80_spec Wf n : forall t W st, circular W Wf t -> (t + n <= 80)%nat -> ok160 st ->
  (forall t, (16 <= t < 80)%nat ->
     nth t Wf 0 = S_rot (nth (t - 3) Wf 0 ⊕ nth (t - 8) Wf 0 ⊕ nth (t - 14) Wf 0 ⊕ nth (t - 16) Wf 0) 1) ->
  (foldl round1 (W, st) (seq t n)).2 = foldl (Fips1.round Wf) st (seq t n) /\
  ok160 (foldl (Fips1.round Wf) st (seq t n)).
Proof.
  induction n as [| n IH]; intros t W st Hc Hn Hst Hrec; cbn [seq foldl]; [done |].
  destruct (round1_spec W Wf st t Hc) as (W' & -> & Hc' & Hok); [lia | done | done |]. apply IH; [done | lia | done | done].
Qed.

Lemma process1_spec st data : ok160 st -> is_bytes data ->
  sha1_process st data = Fips1.compress st data /\ ok160 (sha1_process st data).
Proof.
  intros Hst Hd. unfold sha1_process, Fips1.compress. split.
  2: { destruct st as [[[[a b] c] d] e]. unfold add_state160. destruct (foldl _ _ _).2 as [[[[A B] C] D] E].
       split_and!; apply is_u32_wrap. }
  destruct (load_spec data Hd) as [El Hl]. rewrite <- El. f_equal.
  destruct (schedule1_spec 64 (load256 data)) as (_ & Hpre & Hrec); [done | done |].
  set (Wf := Fips1.schedule 64 (load256 data)) in *.
  destruct (rounds80_spec Wf 80 0 (load256 data) st) as [<- _]; [| lia | done | by intros; apply Hrec |].
  { split; [done |]. intros i Hi. cbn in Hi. rewrite Nat.mod_small, Hpre by (cbn; lia). done. }
  cbn [foldl]. rewrite !rounds5_spec, <- !foldl_app. reflexivity.
Qed.

Lemma absorb_fips1 n : forall st m, ok160 st -> is_bytes m ->
  absorb (H := sha1_hash) n st m = absorb (H := Fips1.fips160) n st m.
Proof.
  induction n as [| n IH]; intros st m Hst Hm; cbn [absorb]; [done |].
  destruct (process1_spec st (take 64 m) Hst) as [E Hok]; [by apply Forall_take |].
  change (@process _ sha1_hash) with sha1_process. change (@process _ Fips1.fips160) with Fips1.compress.
  rewrite <- E. apply IH; [done | by apply Forall_drop].
Qed.

(** The SHA-1 digest of the standard. *)
Abbreviation SHA1 := (digest (H := Fips1.fips160)).

Lemma digest_fips1 m : is_bytes m -> digest (H := sha1_hash) m = SHA1 m.
Proof.
  intros Hm. unfold digest. rewrite absorb_fips1; [done | vm_compute; done | by apply padded_bytes].
Qed.

Lemma csum_wd_loop_spec chunk_sz fuel : 0 < chunk_sz < 2 ^ 32 -> forall ctx m curr, (length curr < fuel)%nat ->
  zlen curr < 2 ^ 32 -> stands ctx m ->
  exists ctx', csum_wd_loop fuel ctx curr chunk_sz = Some ctx' /\ stands ctx' (m ++ curr).
Proof.
  intros Hcs. induction fuel as [| fuel IH]; intros ctx m curr Hf Hl Hst; [lia |]. cbn [csum_wd_loop].
  destruct (Z.eqb_spec (zlen curr) 0) as [H0 | H0].
  { destruct curr; [| done]. exists ctx. by rewrite app_nil_r. }
  set (chunk := if chunk_sz <? zlen curr then chunk_sz else zlen curr).
  assert (0 < chunk <= zlen curr) as Hc by (unfold chunk; cases_ltb; lia).
  destruct (update_spec ctx m (take (Z.to_nat chunk) curr) Hst) as (c1 & E & Hc1).
  { rewrite length_take. lia. }
  unfold sha1_update. rewrite E. cbn [mbind option_bind].
  destruct (IH c1 (m ++ take (Z.to_nat chunk) curr) (drop (Z.to_nat chunk) curr)) as (c2 & -> & Hc2);
    [rewrite length_drop; lia | rewrite length_drop; lia | done |].
  exists c2. by rewrite <- app_assoc, take_drop in Hc2.
Qed.

(** [sha1_csum], and [sha1_csum_wd] for every positive chunk size, return
    the SHA-1 digest of FIPS 180-4: the circular schedule, the unrolled rounds
    and the chunking make no difference. *)
Theorem sha1_csum_correct buf m chunk_sz : length buf = 64%nat -> is_bytes m -> zlen m < 2 ^ 31 ->
  0 < chunk_sz < 2 ^ 32 ->
  sha1_csum buf m = Some (SHA1 m) /\ sha1_csum_wd buf m chunk_sz = Some (SHA1 m).
Proof.
  intros Hb Hm Hl Hcs. rewrite <- digest_fips1 by done. pose proof (starts_stands (H := sha1_hash) buf Hb) as H0. split.
  - unfold sha1_csum, sha1_update, sha1_starts. destruct (update_spec (H := sha1_hash) _ [] m H0) as (c & -> & Hc); [lia |].
    cbn [mbind option_bind]. apply finish_spec; [done | lia].
  - unfold sha1_csum_wd, sha1_starts.
    destruct (csum_wd_loop_spec chunk_sz (S (length m)) Hcs (starts buf) [] m) as (c & -> & Hc); [lia | lia | done |].
    cbn [mbind option_bind]. apply finish_spec; [done | lia].
Qed.

Lemma output160_bytes st : length (output160 st) = 20%nat /\ is_bytes (output160 st).
Proof.
  destruct st as [[[[a b] c] d] e]. split; [done |]. unfold output160, PUT_UINT32_BE. cbn [fmap list_fmap concat app].
  repeat (constructor; [apply (wrap_range 8); lia |]). constructor.
Qed.

Lemma hmac_pad_bytes key c : is_bytes key -> is_byte c -> length (hmac_pad key c) = 64%nat /\ is_bytes (hmac_pad key c).
Proof.
  intros Hk Hc. unfold hmac_pad. split.
  - rewrite length_zip_with, length_app, length_take, !length_replicate. lia.
  - apply Forall_zip_with_fst with (P := is_byte); [apply Forall_app; split; [by apply Forall_take | by apply Forall_replicate] |].
    apply Forall_replicate. intros x Hx. by apply (lxor_range 8).
Qed.

(** [sha1_hmac] is the HMAC of RFC 2104 for keys of at most 64 bytes: the
    digest of the outer pad and the digest of the inner pad and the message. *)
Theorem sha1_hmac_correct b1 b2 key m : length b1 = 64%nat -> length b2 = 64%nat -> is_bytes key ->
  (length key <= 64)%nat -> is_bytes m -> zlen m < 2 ^ 31 ->
  let padded_key := key ++ replicate (64 - length key) 0 in
  sha1_hmac b1 b2 key m =
    Some (SHA1 ((Z.lxor 0x5C <$> padded_key) ++ SHA1 ((Z.lxor 0x36 <$> padded_key) ++ m))).
Proof.
  intros Hb1 Hb2 Hk Hkl Hm Hl pk.
  assert (forall c, hmac_pad key c = Z.lxor c <$> pk) as Hpad.
  { intros c. unfold hmac_pad, pk. rewrite take_ge by lia.
    replace (replicate 64 c) with (replicate (length (key ++ replicate (64 - length key) 0)) c).
    2: { f_equal. rewrite length_app, length_replicate. lia. }
    rewrite zip_with_replicate_r_eq by done. apply list_fmap_ext. intros. apply Z.lxor_comm. }
  assert (forall c, is_byte c -> length (Z.lxor c <$> pk) = 64%nat /\ is_bytes (Z.lxor c <$> pk)) as Hbytes.
  { intros c Hc. rewrite <- Hpad. by apply hmac_pad_bytes. }
  destruct (Hbytes 0x36) as [Hi Hib]; [done |]. destruct (Hbytes 0x5C) as [Ho Hob]; [done |].
  unfold sha1_hmac, sha1_update, sha1_starts, sha1_finish. rewrite !Hpad.
  set (ip := Z.lxor 0x36 <$> pk) in *. set (op := Z.lxor 0x5C <$> pk) in *.
  destruct (update_spec (H := sha1_hash) _ [] ip (starts_stands b1 Hb1)) as (c1 & -> & Hc1); [lia |]. cbn [mbind option_bind].
  destruct (update_spec c1 _ m Hc1) as (c2 & -> & Hc2); [lia |]. cbn [mbind option_bind app] in *.
  rewrite (finish_spec c2 (ip ++ m) Hc2) by (rewrite length_app; lia). cbn [mbind option_bind].
  destruct (update_spec (H := sha1_hash) _ [] op (starts_stands b2 Hb2)) as (c3 & -> & Hc3); [lia |]. cbn [mbind option_bind app] in *.
  rewrite (digest_fips1 (ip ++ m)) by (by apply Forall_app).
  assert (length (SHA1 (ip ++ m)) = 20%nat /\ is_bytes (SHA1 (ip ++ m))) as [Hd Hdb] by apply output160_bytes.
  destruct (update_spec c3 _ (SHA1 (ip ++ m)) Hc3) as (c4 & -> & Hc4); [lia |]. cbn [mbind option_bind].
  rewrite (finish_spec c4 _ Hc4) by (rewrite length_app; lia). by rewrite digest_fips1 by (by apply Forall_app).
Qed.

Module Sha1Examples.

Lemma sha1_csum_correct_witness :
  sha1_csum (replicate 64 7) (str "abc") = Some (SHA1 (str "abc")) /\
  sha1_csum_wd (replicate 64 7) (str "abc") 2 = Some (SHA1 (str "abc")).
Proof. apply (sha1_csum_correct (replicate 64 7) (str "abc") 2); [done | solve_bytes | done | lia]. Defined.

(** Test case 2 of RFC 2202. *)
Lemma sha1_hmac_correct_witness :
  let padded_key := str "Jefe" ++ replicate 60 0 in
  sha1_hmac (replicate 64 7) (replicate 64 8) (str "Jefe") (str "what do ya want for nothing?") =
    Some (SHA1 ((Z.lxor 0x5C <$> padded_key) ++
      SHA1 ((Z.lxor 0x36 <$> padded_key) ++ str "what do ya want for nothing?"))) /\
  firstn 4 (SHA1 ((Z.lxor 0x5C <$> padded_key) ++
      SHA1 ((Z.lxor 0x36 <$> padded_key) ++ str "what do ya want for nothing?"))) = [0xef; 0xfc; 0xdf; 0x6a].
Proof.
  split; [| vm_compute; reflexivity].
  apply (sha1_hmac_correct (replicate 64 7) (replicate 64 8) (str "Jefe") (str "what do ya want for nothing?"));
    [done | done | solve_bytes | vm_compute; lia | solve_bytes | done].
Defined.

End Sha1Examples.
