(* ===== verification/Bootbk.v ===== *)
(** * The board's boot command (board/broadcom/bcm95302x/kingpin.c)

    [bootbk <address> <partition>] checks the image at the address (magic
    number, CRC-32 over header and binary), builds the list of ATAGs at
    [atags_addr] and jumps to the binary.

    The command runs on the memory of StringLib: the arguments, the image, the
    tags and the local arrays [bootcmd] and [cmdline] all live there, so that
    what one write does to another object is visible.  What is printed, the
    jump and the command that is run afterwards are the events of a trace.  The
    binary is code outside the program: [kernel] gives the memory with which it
    returns, [None] when it does not return. *)

From S2P Require Import Prelude Crc StringLib Memory Vsprintf.

(** [snprintf] of a build without CONFIG_SYS_VSNPRINTF: the macro of
    include/vsprintf.h drops the size. *)
Definition snprintf (m : mem) (buf size : Z) (fmt : text) (args : list arg) : option mem :=
  '(t, _) ← vsprintf fmt args; store_bytes m buf t.

(** ** The list of tags (arch/arm/include/asm/setup.h) *)

Definition ATAG_NONE : Z := 0x00000000.
Definition ATAG_CORE : Z := 0x54410001.
Definition ATAG_CMDLINE : Z := 0x54410009.

Definition sizeof_tag_header : Z := 8.
Definition sizeof_tag_core : Z := 12.

(** The fields of a tag at [t]. *)
Definition hdr_size (t : Z) : Z := t.
Definition hdr_tag (t : Z) : Z := t + 4.
Definition u_core_flags (t : Z) : Z := t + 8.
Definition u_core_pagesize (t : Z) : Z := t + 12.
Definition u_core_rootdev (t : Z) : Z := t + 16.
Definition u_cmdline (t : Z) : Z := t + 8.

Definition tag_next (m : mem) (t : Z) : option Z := size ← load32 m (hdr_size t); Some (u32 (t + 4 * size)).
Definition tag_size (sizeof : Z) : Z := Z.shiftr (sizeof_tag_header + sizeof) 2.

Definition atags_addr : Z := 0x100.

(** The memory and the static variable [params]. *)
Definition setup_start_tag (m : mem) : option (mem * Z) :=
  let params := atags_addr in
  m ← store32 m (hdr_tag params) ATAG_CORE;
  m ← store32 m (hdr_size params) (tag_size sizeof_tag_core);
  m ← store32 m (u_core_flags params) 0;
  m ← store32 m (u_core_pagesize params) (Z.shiftl 1 12);
  m ← store32 m (u_core_rootdev params) 0;
  params ← tag_next m params;
  Some (m, params).

Definition setup_end_tag (m : mem) (params : Z) : option mem :=
  m ← store32 m (hdr_tag params) ATAG_NONE;
  store32 m (hdr_size params) 0.

(** [for (p = commandline; *p == ' '; p++);] *)
Fixpoint skip_blanks (fuel : nat) (m : mem) (p : Z) : option Z :=
  match fuel with
  | O => None
  | S fuel => c ← load m p; if c =? 32 then skip_blanks fuel m (p + 1) else Some p
  end.

Definition setup_commandline_tag (m : mem) (params commandline : Z) : option (mem * Z) :=
  if commandline =? NULL then Some (m, params)
  else
    p ← skip_blanks (loop_fuel m) m commandline;
    c ← load m p;
    if c =? 0 then Some (m, params)
    else
      m ← store32 m (hdr_tag params) ATAG_CMDLINE;
      len ← strlen m p;
      m ← store32 m (hdr_size params) (Z.shiftr (u32 (sizeof_tag_header + len + 1 + 4)) 2);
      '(m, _) ← strcpy m (u_cmdline params) p;
      params ← tag_next m params;
      Some (m, params).

(** ** The command *)

Definition LOADER_MAGIC : Z := 0x4d495053.
Definition CHUNKSZ_CRC32 : Z := 64 * 1024.
Definition CONFIG_MACH_TYPE : Z := 4735.

Definition CMD_RET_SUCCESS : Z := 0.
Definition CMD_RET_FAILURE : Z := 1.
Definition CMD_RET_USAGE : Z := -1.

(** The fields of a [meraki_image_header] at [hdr]. *)
Definition hdr_magic (hdr : Z) : Z := hdr.
Definition hdr_load_addr (hdr : Z) : Z := hdr + 4.
Definition hdr_image_size (hdr : Z) : Z := hdr + 8.
Definition hdr_entry (hdr : Z) : Z := hdr + 12.
Definition hdr_crc_field (hdr : Z) : Z := hdr + 16.
Definition sizeof_meraki_image_header : Z := 32.

Inductive event :=
| Puts (t : text)
| Enter (pc r0 r1 r2 : Z) (m : mem)
| RunCommand (cmd : text) (flag : Z).

Section Command.
Variable watchdog : bool.
Variables bootcmd cmdline : Z.
Variable kernel : Z -> Z -> Z -> Z -> mem -> option mem.

(** From the successful check on. *)
Definition boot_image (addr : Z) (argv2 : Z) (m : mem) : option (mem * list event * option Z) :=
  let addr := u32 (addr + sizeof_meraki_image_header) in
  m ← snprintf m bootcmd 10 (str "go %x") [A32 addr];
  '(m, params) ← setup_start_tag m;
  part ← get_string m argv2;
  m ← snprintf m cmdline 128 (str "loader=u-boot part=%s") [AStr (Some part)];
  '(m, params) ← setup_commandline_tag m params cmdline;
  m ← setup_end_tag m params;
  let enter := Enter addr 0 CONFIG_MACH_TYPE atags_addr m in
  match kernel addr 0 CONFIG_MACH_TYPE atags_addr m with
  | None => Some (m, [enter], None)
  | Some m => cmd ← get_string m bootcmd; Some (m, [enter; RunCommand cmd 0], Some CMD_RET_SUCCESS)
  end.

(** The memory, the events and the return value ([None]: the binary that was
    entered does not return). *)
Definition do_bootbk (argv : list Z) (m : mem) : option (mem * list event * option Z) :=
  match argv with
  | [argv0; argv1; argv2] =>
      t ← get_string m argv1;
      let addr := (simple_strtoul t 16).1 in
      let hdr := addr in
      magic ← load32 m (hdr_magic hdr);
      if negb (magic =? LOADER_MAGIC) then
        Some (m, [Puts (str "Bad Bootkernel magic" ++ [10])], Some CMD_RET_FAILURE)
      else
        hdr_crc ← load32 m (hdr_crc_field hdr);
        m ← store32 m (hdr_crc_field hdr) 0;
        size ← load32 m (hdr_image_size hdr);
        let length := u32 (size + sizeof_meraki_image_header) in
        buf ← load_bytes m addr (Z.to_nat length);
        calc_crc ← Crc32.crc32_wd watchdog 0 addr buf CHUNKSZ_CRC32;
        if negb (calc_crc =? hdr_crc) then
          '(t, _) ← vsnprintf_text (str "Len 0x%x calc 0x%x hdr 0x%x addr 0x%x" ++ [10])
            [A32 length; A32 calc_crc; A32 hdr_crc; A32 addr];
          Some (m, [Puts (str "Bad CRC" ++ [10]); Puts t], Some CMD_RET_FAILURE)
        else boot_image addr argv2 m
  | _ => Some (m, [], Some CMD_RET_USAGE)
  end.
End Command.

(** ** The tags *)

Definition core_tag : list Z := le4 5 ++ le4 ATAG_CORE ++ le4 0 ++ le4 4096 ++ le4 0.

Lemma setup_start_tag_spec m : mapped m atags_addr 20 ->
  setup_start_tag m = Some (write_bytes m atags_addr core_tag, atags_addr + 20).
Proof.
  intros Hm.
  assert (forall q l m', mapped m' atags_addr 20 -> mapped (write_bytes m' q l) atags_addr 20) as Hw
    by (intros; by apply mapped_write).
  assert (forall m' k v, mapped m' atags_addr 20 -> 0 <= k <= 16 -> is_u32 v ->
    store32 m' (atags_addr + k) v = Some (write_bytes m' (atags_addr + k) (le4 v))) as Hs.
  { intros. apply store32_spec; [done |]. apply (mapped_sub m' atags_addr 20); [done | lia | lia]. }
  unfold setup_start_tag. change (hdr_size atags_addr) with (atags_addr + 0).
  unfold hdr_tag, u_core_flags, u_core_pagesize, u_core_rootdev.
  do 5 (rewrite Hs by (done || lia || eauto 10); cbn [mbind option_bind]).
  rewrite (write_write_back m (atags_addr + 0) (atags_addr + 4)) by done. rewrite !write_write by done.
  change (atags_addr + 0) with atags_addr. rewrite <- !app_assoc.
  change (le4 (tag_size sizeof_tag_core) ++ _) with core_tag.
  unfold tag_next, hdr_size. rewrite (load32_spec _ _ 5); [done | done |].
  assert (bytes_at (write_bytes m atags_addr core_tag) atags_addr core_tag) as H.
  { apply bytes_at_write; [| done]. repeat (apply Forall_app; split); apply le4_bytes. }
  by apply bytes_at_app in H as [H _].
Qed.

(** The tag of a command line [s]. *)
Definition cmdline_words (s : text) : Z := (zlen s + 13) / 4.
Definition cmdline_tag (s : text) : list Z := le4 (cmdline_words s) ++ le4 ATAG_CMDLINE ++ s ++ [0].

Lemma skip_blanks_none m p c fuel : m !! p = Some c -> c <> 32 -> (0 < fuel)%nat -> skip_blanks fuel m p = Some p.
Proof.
  intros H Hc Hf. destruct fuel; [lia |]. cbn. unfold load. rewrite H. cbn. by rewrite (proj2 (Z.eqb_neq c 32)).
Qed.

Lemma cmdline_words_shift s : zlen s < 2 ^ 31 -> Z.shiftr (u32 (sizeof_tag_header + zlen s + 1 + 4)) 2 = cmdline_words s.
Proof.
  intros H. unfold sizeof_tag_header. rewrite wrap_small by lia. rewrite Z.shiftr_div_pow2 by lia.
  unfold cmdline_words. change (2 ^ 2) with 4. f_equal. lia.
Qed.

Lemma cmdline_words_bounds s : zlen s + 9 <= 4 * cmdline_words s <= zlen s + 13.
Proof.
  unfold cmdline_words. pose proof (Z.div_mod (zlen s + 13) 4). pose proof (Z.mod_pos_bound (zlen s + 13) 4). lia.
Qed.

Lemma cmdline_tag_bytes s : is_bytes s -> is_bytes (cmdline_tag s).
Proof. intros. unfold cmdline_tag. rewrite !Forall_app. split_and!; [apply le4_bytes.. | done | solve_bytes]. Qed.

Lemma length_cmdline_tag s : zlen (cmdline_tag s) = zlen s + 9.
Proof. unfold cmdline_tag. rewrite !length_app. cbn [length le4]. lia. Qed.

Lemma setup_commandline_tag_spec m params commandline s : 0 < commandline -> cstr m commandline s ->
  s <> [] -> head s <> Some 32 ->
  0 <= params -> params + zlen s + 13 < 2 ^ 31 -> mapped m params (zlen s + 9) ->
  params + zlen s + 9 <= commandline \/ commandline + zlen s < params ->
  setup_commandline_tag m params commandline =
    Some (write_bytes m params (cmdline_tag s), params + 4 * cmdline_words s).
Proof.
  intros Hnull Hs Hne Hhd Hp0 Hp Hm Hd. unfold setup_commandline_tag.
  rewrite (proj2 (Z.eqb_neq commandline NULL)) by (unfold NULL; lia).
  destruct s as [| c s']; [done |]. assert (Hs' := Hs). cbn [cstr] in Hs'. destruct Hs' as (Hc & Hcb & _).
  rewrite (skip_blanks_none m commandline c) by (done || (unfold loop_fuel; lia) || by intros ->).
  set (s := c :: s') in *. cbn [mbind option_bind]. unfold load. rewrite Hc. cbn [mbind option_bind].
  rewrite (proj2 (Z.eqb_neq c 0)) by lia. unfold hdr_tag, hdr_size, u_cmdline.
  pose proof (cmdline_words_bounds s).
  rewrite store32_spec; [| done | apply (mapped_sub m params (zlen s + 9)); [done | lia | lia]]. cbn [mbind option_bind].
  rewrite (strlen_eq _ _ s) by (apply cstr_far; [done | change (zlen (le4 _)) with 4; lia]). cbn [mbind option_bind].
  rewrite cmdline_words_shift by lia.
  rewrite store32_spec; [| unfold is_u32; lia | apply mapped_write, (mapped_sub m params (zlen s + 9)); [done | lia | lia]].
  cbn [mbind option_bind]. rewrite write_write_back by done.
  unfold strcpy. rewrite (strcpy_loop_copy s);
    [| apply cstr_far; [done | rewrite length_app; change (length (le4 _)) with 4%nat; lia]
     | apply mapped_write, (mapped_sub m params (zlen s + 9)); [done | lia | lia] | lia
     | apply (cstr_fuel _ commandline), cstr_far; [done | rewrite length_app; change (length (le4 _)) with 4%nat; lia]].
  cbn [mbind option_bind]. rewrite write_write by done. rewrite <- app_assoc. change (le4 (cmdline_words s) ++ _) with (cmdline_tag s).
  assert (bytes_at (write_bytes m params (cmdline_tag s)) params (cmdline_tag s)) as H1.
  { apply bytes_at_write; [| done]. apply cmdline_tag_bytes, is_bytes_text. by apply (cstr_no_nul m commandline). }
  unfold tag_next, hdr_size. rewrite (load32_spec _ _ (cmdline_words s)).
  - cbn [mbind option_bind]. by rewrite wrap_small by lia.
  - unfold is_u32. lia.
  - by apply bytes_at_app in H1 as [H1 _].
Qed.

Lemma setup_end_tag_spec m params : mapped m params 8 ->
  setup_end_tag m params = Some (write_bytes m params (le4 0 ++ le4 0)).
Proof.
  intros Hm. unfold setup_end_tag, hdr_tag, hdr_size.
  rewrite store32_spec; [| done | apply (mapped_sub m params 8); [done | lia | lia]]. cbn [mbind option_bind].
  rewrite store32_spec; [| done | apply mapped_write, (mapped_sub m params 8); [done | lia | lia]].
  by rewrite write_write_back.
Qed.

(** ** What the kernel reads *)

Inductive atag :=
| Core (flags pagesize rootdev : Z)
| Cmdline (s : text)
| Other (tag : Z).

(** [for_each_tag] from [t] on. *)
Fixpoint read_tags (fuel : nat) (m : mem) (t : Z) : option (list atag) :=
  match fuel with
  | O => None
  | S fuel =>
      size ← load32 m (hdr_size t);
      if size =? 0 then Some []
      else
        tag ← load32 m (hdr_tag t);
        a ← (if tag =? ATAG_CORE then
               flags ← load32 m (u_core_flags t); pagesize ← load32 m (u_core_pagesize t);
               rootdev ← load32 m (u_core_rootdev t); Some (Core flags pagesize rootdev)
             else if tag =? ATAG_CMDLINE then s ← get_string m (u_cmdline t); Some (Cmdline s)
             else Some (Other tag));
        next ← tag_next m t;
        rest ← read_tags fuel m next;
        Some (a :: rest)
  end.

Lemma read_tags_spec m s : Forall (fun c => 0 < c < 256) s -> zlen s < 2 ^ 30 ->
  bytes_at m atags_addr (core_tag ++ cmdline_tag s) ->
  bytes_at m (atags_addr + 20 + 4 * cmdline_words s) (le4 0 ++ le4 0) ->
  read_tags 3 m atags_addr = Some [Core 0 4096 0; Cmdline s].
Proof.
  intros Hs Hlen H He. pose proof (cmdline_words_bounds s) as Hw.
  apply bytes_at_app in H as [Hcore Hcmd]. unfold core_tag in Hcore.
  apply bytes_at_app in Hcore as [H0 Hcore]. apply bytes_at_app in Hcore as [H1 Hcore].
  apply bytes_at_app in Hcore as [H2 Hcore]. apply bytes_at_app in Hcore as [H3 H4].
  apply load32_spec in H0, H1, H2, H3, H4; [| done..].
  unfold cmdline_tag in Hcmd. apply bytes_at_app in Hcmd as [H5 Hcmd]. apply bytes_at_app in Hcmd as [H6 H7].
  apply load32_spec in H5, H6; [| done | unfold is_u32; lia].
  apply cstr_of_bytes, get_string_spec in H7; [| done].
  apply bytes_at_app in He as [He _]. apply load32_spec in He; [| done].
  change (load32 m (hdr_size atags_addr) = Some 5) in H0. change (load32 m (hdr_tag atags_addr) = Some ATAG_CORE) in H1.
  change (load32 m (u_core_flags atags_addr) = Some 0) in H2. change (load32 m (u_core_pagesize atags_addr) = Some 4096) in H3.
  change (load32 m (u_core_rootdev atags_addr) = Some 0) in H4.
  change (load32 m (hdr_size 276) = Some (cmdline_words s)) in H5. change (load32 m (hdr_tag 276) = Some ATAG_CMDLINE) in H6.
  change (get_string m (u_cmdline 276) = Some s) in H7.
  change (load32 m (hdr_size (276 + 4 * cmdline_words s)) = Some 0) in He.
  cbn [read_tags]. unfold tag_next. rewrite H0, H1, H2, H3, H4. cbn -[u32 get_string u_cmdline hdr_tag hdr_size load_word].
  change (u32 (atags_addr + 4 * 5)) with 276. rewrite H5. cbn -[u32 cmdline_words get_string u_cmdline hdr_tag load_word]. rewrite (proj2 (Z.eqb_neq (cmdline_words s) 0)) by lia.
  rewrite H6, H7. cbn -[u32 cmdline_words Z.mul load_word hdr_size]. rewrite wrap_small by lia. by rewrite He.
Qed.

(** ** The texts *)

Definition hex (v : Z) : text := dchar SMALL <$> reverse (digits_of 16 v).
Definition go_text (addr : Z) : text := str "go " ++ hex addr.
Definition cmdline_text (part : text) : text := str "loader=u-boot part=" ++ part.

#[local] Opaque number.

Lemma format_loop_x v r args outs : is_u32 v -> forall f s,
  format_loop (S f) (str "%x" ++ r) (A32 v :: args) s outs = format_loop f r args (s ++ hex v) outs.
Proof.
  intros Hv f s. change (str "%x" ++ r) with (37 :: 120 :: r). cbn [format_loop]. change (negb (37 =? 37)) with false. cbn iota.
  assert (parse_conversion (120 :: r) (A32 v :: args) = (t ← number (u32 v) 16 (-1) (-1) SMALL; Some (t, r, args, false))) as ->
    by reflexivity.
  rewrite wrap_small, number_plain by (done || (unfold is_u32 in Hv; lia) || (by right; right) || by right). done.
Qed.

Lemma vsprintf_go addr : is_u32 addr -> vsprintf (str "go %x") [A32 addr] =
  Some (go_text addr ++ [0], zlen (go_text addr)).
Proof.
  intros Ha. unfold vsprintf, vsnprintf_text.
  change (format_loop _ _ _ _ _) with (format_loop (length (str "go ") + 3) (str "go " ++ str "%x" ++ []) [A32 addr] [] []).
  rewrite (format_loop_lit (str "go ")) by lits. by rewrite format_loop_x.
Qed.

Lemma vsprintf_cmdline part : vsprintf (str "loader=u-boot part=%s") [AStr (Some part)] =
  Some (cmdline_text part ++ [0], zlen (cmdline_text part)).
Proof.
  unfold vsprintf, vsnprintf_text.
  change (format_loop _ _ _ _ _) with (format_loop (length (str "loader=u-boot part=") + 3)
    (str "loader=u-boot part=" ++ str "%s" ++ []) [AStr (Some part)] [] []).
  rewrite (format_loop_lit (str "loader=u-boot part=")) by lits. by rewrite format_loop_s.
Qed.

Lemma format_bad_crc a b c d : is_u32 a -> is_u32 b -> is_u32 c -> is_u32 d ->
  vsnprintf_text (str "Len 0x%x calc 0x%x hdr 0x%x addr 0x%x" ++ [10]) [A32 a; A32 b; A32 c; A32 d] =
    Some (str "Len 0x" ++ hex a ++ str " calc 0x" ++ hex b ++ str " hdr 0x" ++ hex c ++ str " addr 0x" ++ hex d ++ [10], []).
Proof.
  intros Ha Hb Hc Hd. unfold vsnprintf_text.
  change (format_loop _ _ _ _ _) with (format_loop (length (str "Len 0x") + S (length (str " calc 0x") + S (length (str " hdr 0x")
    + S (length (str " addr 0x") + S (length [10] + 5))))) (str "Len 0x" ++ str "%x" ++ str " calc 0x" ++ str "%x" ++ str " hdr 0x"
    ++ str "%x" ++ str " addr 0x" ++ str "%x" ++ [10] ++ []) [A32 a; A32 b; A32 c; A32 d] [] []).
  rewrite (format_loop_lit (str "Len 0x")) by lits. rewrite format_loop_x by done.
  rewrite (format_loop_lit (str " calc 0x")) by lits. rewrite format_loop_x by done.
  rewrite (format_loop_lit (str " hdr 0x")) by lits. rewrite format_loop_x by done.
  rewrite (format_loop_lit (str " addr 0x")) by lits. rewrite format_loop_x by done.
  rewrite (format_loop_lit ([10])) by lits. cbn [format_loop Nat.add]. by rewrite <- !app_assoc.
Qed.

#[local] Transparent number.

Lemma dval_bound b ds : 2 <= b -> Forall (fun d => 0 <= d < b) ds -> dval b ds < b ^ zlen ds.
Proof.
  intros Hb. induction 1 as [| d ds Hd _ IH]; cbn [dval length]; [done |].
  rewrite Nat2Z.inj_succ, Z.pow_succ_r by lia. nia.
Qed.

Lemma rdigits_length b f : forall n, (length (rdigits b f n) <= f)%nat.
Proof. induction f as [| f IH]; intros n; cbn; [lia |]. destruct (_ =? 0); cbn; [lia |]. specialize (IH (n / b)). lia. Qed.

(** A 32-bit address has at most 8 hexadecimal digits, and more than 6 from
    0x1000000 on. *)
Lemma hex_length n : is_u32 n -> (length (digits_of 16 n) <= 8)%nat /\ (16 ^ 6 <= n -> (7 <= length (digits_of 16 n))%nat).
Proof.
  unfold is_u32. intros Hn. split.
  - unfold digits_of. rewrite (rdigits_fuel 16 64 ltac:(lia) 8) by lia. apply rdigits_length.
  - intros H6. destruct (digits_of_spec 16 n) as (Hv & Hd & _); [lia | lia |].
    apply dval_bound in Hd; [| lia]. rewrite Hv in Hd.
    destruct (le_lt_dec 7 (length (digits_of 16 n))); [done |].
    assert (16 ^ zlen (digits_of 16 n) <= 16 ^ 6) by (apply Z.pow_le_mono_r; lia). lia.
Qed.

Lemma go_text_length addr : is_u32 addr -> zlen (go_text addr ++ [0]) <= 12 /\
  (16 ^ 6 <= addr -> 11 <= zlen (go_text addr ++ [0])).
Proof.
  intros Ha. pose proof (hex_length addr Ha) as [H8 H7]. unfold go_text, hex.
  rewrite !length_app, length_fmap, length_reverse. cbn [length]. change (length (str "go ")) with 3%nat.
  split; [lia |]. intros H%H7. lia.
Qed.

Lemma go_text_chars addr : is_u32 addr -> Forall (fun c => 0 < c < 256) (go_text addr).
Proof.
  intros Ha. unfold go_text, hex. apply Forall_app. split; [lits |].
  apply Forall_fmap, Forall_reverse.
  destruct (digits_of_spec 16 addr) as (_ & Hd & _); [lia | unfold is_u32 in Ha; lia |].
  apply (Forall_impl _ _ _ Hd). intros d H.
  assert (all_from (fun d => (0 <? dchar SMALL d) && (dchar SMALL d <? 256)) 16 0 = true) as Hall by (vm_compute; reflexivity).
  pose proof (all_from_spec _ _ _ Hall d ltac:(lia)) as Hb. cbn beta in *.
  apply andb_true_iff in Hb as [H1%Z.ltb_lt H2%Z.ltb_lt]. done.
Qed.

(** ** Images *)

(** The 32-bit field at an offset of the image. *)
Definition field (off : nat) (img : list Z) : Z := le_load (take 4 (drop off img)).

(** The image with a zeroed CRC field, over which the CRC is taken. *)
Definition blank_crc (img : list Z) : list Z := take 16 img ++ le4 0 ++ drop 20 img.

(** An image of the length its header states. *)
Definition sized (img : list Z) : Prop := zlen img = field 8 img + 32 /\ zlen img < 2 ^ 32.

(** An intact image. *)
Definition intact (addr : Z) (img : list Z) : Prop :=
  field 0 img = LOADER_MAGIC /\ Crc32.crc32 0 addr (blank_crc img) = field 16 img.

Lemma load_field m p img off : bytes_at m p img -> (off + 4 <= length img)%nat -> load32 m (p + Z.of_nat off) = Some (field off img).
Proof.
  intros H Hl. apply (bytes_at_sub m p img off 4) in H; [| lia]. apply load_word_spec in H.
  by rewrite length_take, length_drop, Nat.min_l in H by lia.
Qed.

Lemma blank_crc_bytes img : is_bytes img -> is_bytes (blank_crc img).
Proof. intros. unfold blank_crc. rewrite !Forall_app. split_and!; [by apply Forall_take | apply le4_bytes | by apply Forall_drop]. Qed.

Lemma blank_crc_length img : (20 <= length img)%nat -> length (blank_crc img) = length img.
Proof. intros. unfold blank_crc. rewrite !length_app, length_take, length_drop. change (length (le4 0)) with 4%nat. lia. Qed.

Lemma field_u32 off img : is_bytes img -> is_u32 (field off img).
Proof.
  intros H. unfold is_u32, field. assert (is_bytes (take 4 (drop off img))) as Hb by (by apply Forall_take, Forall_drop).
  pose proof (le_load_range _ Hb) as Hr. rewrite length_take in Hr.
  assert (2 ^ (8 * Z.of_nat (4 `min` length (drop off img))) <= 2 ^ 32) by (apply Z.pow_le_mono_r; lia). lia.
Qed.

Lemma write_blank m addr img : bytes_at m addr img -> (20 <= length img)%nat ->
  bytes_at (write_bytes m (addr + 16) (le4 0)) addr (blank_crc img).
Proof.
  intros H Hl. unfold blank_crc. rewrite !bytes_at_app, length_take, Nat.min_l by lia. change (zlen (le4 0)) with 4.
  split_and!.
  - apply bytes_at_far; [| rewrite length_take; lia]. apply (bytes_at_sub m addr img 0 16) in H; [| lia].
    by rewrite Z.add_0_r in H.
  - by apply bytes_at_write; [apply le4_bytes |].
  - apply bytes_at_far; [| right; change (zlen (le4 0)) with 4; lia]. rewrite <- (take_drop 20 img) in H. apply bytes_at_app in H as [_ H].
    rewrite length_take, Nat.min_l in H by lia. by replace (addr + Z.of_nat 16 + 4) with (addr + Z.of_nat 20) by lia.
Qed.

Section Check.
Context (watchdog : bool) (bootcmd cmdline : Z) (kernel : Z -> Z -> Z -> Z -> mem -> option mem).
Context (argv0 argv1 argv2 : Z) (arg : text) (img : list Z) (m : mem).
Let addr : Z := (simple_strtoul arg 16).1.
Hypothesis Harg : cstr m argv1 arg.
Hypothesis Himg : bytes_at m addr img.
Hypothesis Hhdr : (32 <= length img)%nat.
Let len : Z := u32 (field 8 img + 32).
Hypothesis Hlen : len <= zlen img.

(** The command up to the jump, in terms of the image. *)
Lemma do_bootbk_header : do_bootbk watchdog bootcmd cmdline kernel [argv0; argv1; argv2] m =
  if negb (field 0 img =? LOADER_MAGIC) then
    Some (m, [Puts (str "Bad Bootkernel magic" ++ [10])], Some CMD_RET_FAILURE)
  else
    let m := write_bytes m (addr + 16) (le4 0) in
    let crc := Crc32.crc32 0 addr (take (Z.to_nat len) (blank_crc img)) in
    if negb (crc =? field 16 img) then
      Some (m, [Puts (str "Bad CRC" ++ [10]);
        Puts (str "Len 0x" ++ hex len ++ str " calc 0x" ++ hex crc ++ str " hdr 0x" ++ hex (field 16 img)
              ++ str " addr 0x" ++ hex addr ++ [10])], Some CMD_RET_FAILURE)
    else boot_image bootcmd cmdline kernel addr argv2 m.
Proof.
  assert (is_bytes img) as Hb by (by apply (bytes_at_bytes m addr)).
  assert (0 <= len < 2 ^ 32) as Hn by (by apply wrap_range).
  unfold do_bootbk. rewrite (get_string_spec m argv1 arg Harg). cbn [mbind option_bind]. fold addr.
  unfold hdr_magic, hdr_crc_field, hdr_image_size.
  pose proof (load_field m addr img 0 Himg ltac:(lia)) as H0. rewrite Z.add_0_r in H0. rewrite H0. cbn [mbind option_bind].
  destruct (negb (field 0 img =? LOADER_MAGIC)); [done |].
  pose proof (load_field m addr img 16 Himg ltac:(lia)) as H16. change (Z.of_nat 16) with 16 in H16. rewrite H16. cbn [mbind option_bind].
  rewrite store32_spec; [| done | apply (mapped_sub m addr (zlen img)); [by apply bytes_at_mapped | lia | lia]].
  cbn [mbind option_bind]. set (m1 := write_bytes m (addr + 16) (le4 0)).
  assert (load32 m1 (addr + 8) = Some (field 8 img)) as ->.
  { pose proof (bytes_at_sub m addr img 8 4 Himg ltac:(lia)) as H8.
    apply (bytes_at_far _ _ _ (addr + 16) (le4 0)) in H8; [| rewrite length_take, length_drop; lia].
    apply load_word_spec in H8. by rewrite length_take, length_drop, Nat.min_l in H8 by lia. }
  cbn [mbind option_bind]. unfold sizeof_meraki_image_header. fold len.
  assert (bytes_at m1 addr (blank_crc img)) as Hblank by (apply write_blank; [done | lia]).
  set (buf := take (Z.to_nat len) (blank_crc img)).
  assert (is_bytes buf) by (by apply Forall_take, blank_crc_bytes).
  assert (load_bytes m1 addr (Z.to_nat len) = Some buf) as ->.
  { apply (bytes_at_sub _ _ _ 0 (Z.to_nat len)) in Hblank; [| lia]. rewrite Z.add_0_r, drop_0 in Hblank.
    apply load_bytes_spec in Hblank. by rewrite length_take, blank_crc_length, Nat.min_l in Hblank by lia. }
  cbn [mbind option_bind].
  assert (Crc32.crc32_wd watchdog 0 addr buf CHUNKSZ_CRC32 = Some (Crc32.crc32 0 addr buf)) as ->.
  { unfold Crc32.crc32_wd. destruct watchdog; [| done]. apply Crc32Facts.crc32_wd_loop_spec; [done | done | done | lia]. }
  cbn [mbind option_bind]. destruct (negb (Crc32.crc32 0 addr buf =? field 16 img)); [| done].
  rewrite format_bad_crc; [done | done | by apply Crc32Facts.crc32_range | by apply field_u32 | apply strtoul_range].
Qed.
End Check.

(** For an image of the stated length the CRC covers all of it. *)
Lemma do_bootbk_checked watchdog bootcmd cmdline kernel argv0 argv1 argv2 arg img m :
  let addr := (simple_strtoul arg 16).1 in
  cstr m argv1 arg -> bytes_at m addr img -> sized img ->
  do_bootbk watchdog bootcmd cmdline kernel [argv0; argv1; argv2] m =
  if negb (field 0 img =? LOADER_MAGIC) then
    Some (m, [Puts (str "Bad Bootkernel magic" ++ [10])], Some CMD_RET_FAILURE)
  else
    let m := write_bytes m (addr + 16) (le4 0) in
    let crc := Crc32.crc32 0 addr (blank_crc img) in
    if negb (crc =? field 16 img) then
      Some (m, [Puts (str "Bad CRC" ++ [10]);
        Puts (str "Len 0x" ++ hex (zlen img) ++ str " calc 0x" ++ hex crc ++ str " hdr 0x" ++ hex (field 16 img)
              ++ str " addr 0x" ++ hex addr ++ [10])], Some CMD_RET_FAILURE)
    else boot_image bootcmd cmdline kernel addr argv2 m.
Proof.
  intros addr Harg Himg [Hsz Hmax]. pose proof (field_u32 8 img (bytes_at_bytes _ _ _ Himg)) as [Hs8 _].
  assert (u32 (field 8 img + 32) = zlen img) as Hu by (rewrite wrap_small; lia).
  rewrite (do_bootbk_header _ _ _ _ _ _ _ arg img) by (done || lia). fold addr. rewrite Hu.
  by rewrite take_ge by (rewrite blank_crc_length by lia; lia).
Qed.

(** ** The jump *)

(** Regions of memory that have no byte in common. *)
Definition apart (r s : Z * Z) : Prop := r.1 + r.2 <= s.1 \/ s.1 + s.2 <= r.1.

Fixpoint pairwise_apart (l : list (Z * Z)) : Prop :=
  match l with
  | [] => True
  | r :: l => foldr (fun s P => apart r s /\ P) True l /\ pairwise_apart l
  end.

(** The objects the command works on: the local arrays, with the two bytes
    behind [bootcmd] that the text of an 8-digit address takes and as much of
    [cmdline] as its text takes, the area of the tags, the image and the
    partition argument. *)
Record layout (bootcmd cmdline argv2 addr : Z) (part : text) (img : list Z) (m : mem) : Prop := Layout {
  ly_part : cstr m argv2 part;
  ly_short : zlen part < 2 ^ 29;
  ly_bootcmd : mapped m bootcmd 12;
  ly_cmdline : mapped m cmdline (zlen part + 20);
  ly_null : 0 < cmdline;
  ly_atags : mapped m atags_addr (zlen part + 60);
  ly_apart : pairwise_apart [(bootcmd, 12); (cmdline, zlen part + 20); (atags_addr, zlen part + 60);
                             (addr, zlen img); (argv2, zlen part + 1)];
}.

(** The memory at the jump. *)
Definition boot_mem (bootcmd cmdline addr : Z) (part : text) (m : mem) : mem :=
  let s := cmdline_text part in
  write_bytes
    (write_bytes
       (write_bytes
          (write_bytes
             (write_bytes m bootcmd (go_text (u32 (addr + 32)) ++ [0]))
             atags_addr core_tag)
          cmdline (s ++ [0]))
       (atags_addr + 20) (cmdline_tag s))
    (atags_addr + 20 + 4 * cmdline_words s) (le4 0 ++ le4 0).

Section Boot.
Context (bootcmd cmdline addr argv2 : Z) (kernel : Z -> Z -> Z -> Z -> mem -> option mem).
Context (part : text) (img : list Z) (m : mem).
Hypothesis Hl : layout bootcmd cmdline argv2 addr part img m.

Lemma cmdline_text_chars : Forall (fun c => 0 < c < 256) (cmdline_text part).
Proof.
  apply Forall_app. split; [lits |]. by apply (cstr_no_nul m argv2), Hl.
Qed.

Lemma length_cmdline_text : zlen (cmdline_text part) = zlen part + 19.
Proof. unfold cmdline_text. rewrite length_app. change (length (str "loader=u-boot part=")) with 19%nat. lia. Qed.

Lemma boot_mem_reads : let mk := boot_mem bootcmd cmdline addr part m in
  (bytes_at m addr img -> bytes_at mk addr img) /\
  read_tags 3 mk atags_addr = Some [Core 0 4096 0; Cmdline (cmdline_text part)] /\
  cstr mk bootcmd (go_text (u32 (addr + 32))).
Proof.
  destruct Hl as [Hpart Hshort Hb Hc Hnull Ha Hap]. cbn -[Z.add] in Hap. unfold apart in Hap. cbn [fst snd] in Hap.
  assert (is_u32 (u32 (addr + 32))) as Hu by (by apply wrap_range).
  pose proof cmdline_text_chars as Hch. pose proof length_cmdline_text as Hlen.
  pose proof (cmdline_words_bounds (cmdline_text part)) as Hw.
  pose proof (go_text_length (u32 (addr + 32)) Hu) as [Hgl _].
  pose proof (length_cmdline_tag (cmdline_text part)) as Hct.
  assert (is_bytes (cmdline_tag (cmdline_text part))) as Hctb by (by apply cmdline_tag_bytes, is_bytes_text).
  assert (is_bytes core_tag) as Hcore by (repeat (apply Forall_app; split); apply le4_bytes).
  cbn zeta. unfold boot_mem. cbn zeta. split_and!.
  - intros Hi. assert (zlen core_tag = 20) by done. assert (zlen (le4 0 ++ le4 0) = 8) by done.
    repeat (apply bytes_at_far; [| rewrite ?length_app in *; cbn [length] in *; lia]). done.
  - assert (zlen core_tag = 20) as Hcl by done. assert (zlen (le4 0 ++ le4 0) = 8) by done.
    apply read_tags_spec; [done | lia | |].
    + apply bytes_at_app. rewrite Hcl. split.
      * repeat (apply bytes_at_far; [| rewrite ?length_app in *; cbn [length] in *; lia]). by apply bytes_at_write.
      * apply bytes_at_far; [| lia]. by apply bytes_at_write.
    + apply bytes_at_write; [| done]. apply Forall_app; split; apply le4_bytes.
  - assert (zlen core_tag = 20) by done. assert (zlen (le4 0 ++ le4 0) = 8) by done.
    apply cstr_of_bytes; [by apply go_text_chars |].
    repeat (apply bytes_at_far; [| rewrite ?length_app in *; cbn [length] in *; lia]).
    apply bytes_at_write; [| done]. apply Forall_app. split; [by apply is_bytes_text, go_text_chars | solve_bytes].
Qed.

(** What happens from the jump on. *)
Definition enter_kernel (pc : Z) (mk : mem) : option (mem * list event * option Z) :=
  let enter := Enter pc 0 CONFIG_MACH_TYPE atags_addr mk in
  match kernel pc 0 CONFIG_MACH_TYPE atags_addr mk with
  | None => Some (mk, [enter], None)
  | Some m => cmd ← get_string m bootcmd; Some (m, [enter; RunCommand cmd 0], Some CMD_RET_SUCCESS)
  end.

Lemma boot_image_spec : boot_image bootcmd cmdline kernel addr argv2 m =
  enter_kernel (u32 (addr + 32)) (boot_mem bootcmd cmdline addr part m).
Proof.
  destruct Hl as [Hpart Hshort Hb Hc Hnull Ha Hap]. cbn -[Z.add] in Hap. unfold apart in Hap. cbn [fst snd] in Hap.
  assert (is_u32 (u32 (addr + 32))) as Hu by (by apply wrap_range).
  pose proof cmdline_text_chars as Hch. pose proof length_cmdline_text as Hlen.
  pose proof (cmdline_words_bounds (cmdline_text part)) as Hw.
  pose proof (go_text_length (u32 (addr + 32)) Hu) as [Hgl _].
  pose proof (length_cmdline_tag (cmdline_text part)) as Hct.
  assert (zlen core_tag = 20) as Hcl by done.
  assert (zlen (cmdline_text part ++ [0]) = zlen part + 20) as Hcz by (rewrite length_app; cbn [length]; lia).
  unfold boot_image, snprintf, sizeof_meraki_image_header. rewrite vsprintf_go by done. cbn [mbind option_bind].
  rewrite store_bytes_spec; [| | by apply (mapped_sub m bootcmd 12); [done | lia | lia]].
  2: { apply Forall_app. split; [by apply is_bytes_text, go_text_chars | solve_bytes]. }
  cbn [mbind option_bind].
  rewrite setup_start_tag_spec by (apply mapped_write, (mapped_sub m atags_addr (zlen part + 60)); [done | lia | lia]).
  cbn [mbind option_bind].
  rewrite (get_string_spec _ argv2 part) by (do 2 (apply cstr_far; [| lia]); done). cbn [mbind option_bind].
  rewrite vsprintf_cmdline. cbn [mbind option_bind].
  rewrite store_bytes_spec; [| | rewrite Hcz; by do 2 apply mapped_write].
  2: { apply Forall_app. split; [by apply is_bytes_text | solve_bytes]. }
  cbn [mbind option_bind].
  rewrite (setup_commandline_tag_spec _ _ _ (cmdline_text part)); [| lia | | done | done | done | | | lia].
  - cbn [mbind option_bind]. rewrite setup_end_tag_spec; [done |].
    do 4 apply mapped_write. apply (mapped_sub m atags_addr (zlen part + 60)); [done | lia | lia].
  - apply cstr_of_bytes; [done |]. apply bytes_at_write; [| done].
    apply Forall_app. split; [by apply is_bytes_text | solve_bytes].
  - unfold atags_addr in *. lia.
  - do 3 apply mapped_write. apply (mapped_sub m atags_addr (zlen part + 60)); [done | lia | lia].
Qed.
End Boot.

(** The CRC field belongs to the image. *)
Lemma layout_blank bootcmd cmdline argv2 addr part img m : layout bootcmd cmdline argv2 addr part img m ->
  (20 <= length img)%nat ->
  layout bootcmd cmdline argv2 addr part (blank_crc img) (write_bytes m (addr + 16) (le4 0)).
Proof.
  intros [Hpart Hshort Hb Hc Hnull Ha Hap] Hl. assert (zlen (le4 0) = 4) by done. split; try by apply mapped_write.
  - apply cstr_far; [done |]. cbn -[Z.add] in Hap. unfold apart in Hap. cbn [fst snd] in Hap. lia.
  - done.
  - done.
  - by rewrite blank_crc_length by lia.
Qed.

(** ** The theorems *)

(** C1: An intact image is booted: the command enters the binary right behind
    the header (whatever the header's load address and entry point say) with
    r0 = 0, the machine number and the address of the tags; at that moment the
    image is in place, with its CRC field zeroed, and the kernel reads from the
    tags the CORE entry and the command line naming the partition.  Once the
    binary returns, the text left in [bootcmd] is run and the command
    succeeds. *)
Theorem do_bootbk_boots watchdog bootcmd cmdline kernel argv0 argv1 argv2 arg part img m :
  let addr := (simple_strtoul arg 16).1 in
  cstr m argv1 arg -> bytes_at m addr img -> sized img -> intact addr img ->
  layout bootcmd cmdline argv2 addr part img m ->
  exists mk, do_bootbk watchdog bootcmd cmdline kernel [argv0; argv1; argv2] m =
      enter_kernel bootcmd kernel (u32 (addr + 32)) mk /\
    bytes_at mk addr (blank_crc img) /\
    read_tags 3 mk atags_addr = Some [Core 0 4096 0; Cmdline (str "loader=u-boot part=" ++ part)] /\
    cstr mk bootcmd (go_text (u32 (addr + 32))).
Proof.
  intros addr Harg Himg Hs [Hmagic Hcrc] Hl.
  rewrite (do_bootbk_checked _ _ _ _ _ _ _ arg img) by done. fold addr. cbn zeta. rewrite Hmagic, Hcrc, !Z.eqb_refl. cbn [negb].
  assert (20 <= length img)%nat as H20.
  { destruct Hs as [Hs _]. pose proof (field_u32 8 img (bytes_at_bytes _ _ _ Himg)) as [H _]. lia. }
  apply layout_blank in Hl; [| done]. pose proof (boot_mem_reads _ _ _ _ _ _ _ Hl) as (Hi & Ht & Hg).
  eexists. split; [by apply (boot_image_spec _ _ _ _ kernel part (blank_crc img)) |].
  split; [| done]. by apply Hi, write_blank.
Qed.

(** C29: An image of the stated length whose magic number or CRC is wrong is never
    entered: the command prints messages only, fails, and changes at most the
    CRC field of the image. *)
Theorem do_bootbk_rejects watchdog bootcmd cmdline kernel argv0 argv1 argv2 arg img m :
  let addr := (simple_strtoul arg 16).1 in
  cstr m argv1 arg -> bytes_at m addr img -> sized img -> ~ intact addr img ->
  exists m' evs, do_bootbk watchdog bootcmd cmdline kernel [argv0; argv1; argv2] m = Some (m', evs, Some CMD_RET_FAILURE) /\
    Forall (fun e => exists t, e = Puts t) evs /\
    forall a, ~ (addr + 16 <= a < addr + 20) -> m' !! a = m !! a.
Proof.
  intros addr Harg Himg Hs Hbad.
  rewrite (do_bootbk_checked _ _ _ _ _ _ _ arg img) by done. fold addr.
  destruct (Z.eqb_spec (field 0 img) LOADER_MAGIC) as [Hm |]; cbn [negb].
  - cbn zeta. destruct (Z.eqb_spec (Crc32.crc32 0 addr (blank_crc img)) (field 16 img)) as [Hc |]; [by destruct Hbad |].
    cbn [negb]. do 2 eexists. split; [done |]. split; [repeat constructor; by eexists |].
    intros a Ha. rewrite write_bytes_lookup, decide_False; [done |]. change (zlen (le4 0)) with 4. lia.
  - do 2 eexists. split; [done |]. split; [repeat constructor; by eexists | done].
Qed.

(** A change behind the header. *)
Lemma header_app pre x : (32 <= length pre)%nat ->
  blank_crc (pre ++ x) = blank_crc pre ++ x /\
  forall off, (off <= 28)%nat -> field off (pre ++ x) = field off pre.
Proof.
  intros H. split.
  - unfold blank_crc. rewrite take_app_le, drop_app_le by lia. by rewrite <- !app_assoc.
  - intros off Ho. unfold field. rewrite drop_app_le by lia. by rewrite take_app_le by (rewrite length_drop; lia).
Qed.

(** Corruption of up to four neighbouring bytes of the binary of an intact
    image is detected: the command fails and does not enter the binary. *)
Theorem do_bootbk_detects_corruption watchdog bootcmd cmdline kernel argv0 argv1 argv2 arg pre mid mid' post m :
  let addr := (simple_strtoul arg 16).1 in
  (32 <= length pre)%nat -> intact addr (pre ++ mid ++ post) -> sized (pre ++ mid ++ post) ->
  is_bytes mid -> length mid' = length mid -> (length mid <= 4)%nat -> mid' <> mid ->
  cstr m argv1 arg -> bytes_at m addr (pre ++ mid' ++ post) ->
  exists m' evs, do_bootbk watchdog bootcmd cmdline kernel [argv0; argv1; argv2] m = Some (m', evs, Some CMD_RET_FAILURE) /\
    Forall (fun e => exists t, e = Puts t) evs.
Proof.
  intros addr Hpre [Hmagic Hcrc] Hs Hb Hlen H4 Hne Harg Himg.
  pose proof (header_app pre (mid ++ post) Hpre) as [Hbl Hf]. pose proof (header_app pre (mid' ++ post) Hpre) as [Hbl' Hf'].
  assert (is_bytes (pre ++ mid' ++ post)) as Hall by (by apply (bytes_at_bytes m addr)).
  rewrite !Forall_app in Hall. destruct Hall as (Hp & Hm' & Hpost).
  rewrite (do_bootbk_checked _ _ _ _ _ _ _ arg (pre ++ mid' ++ post)); [| done | done |].
  - fold addr. rewrite Hf' by lia. rewrite <- Hf, Hmagic, Z.eqb_refl by lia. cbn [negb]. cbn zeta.
    destruct (Z.eqb_spec (Crc32.crc32 0 addr (blank_crc (pre ++ mid' ++ post))) (field 16 (pre ++ mid' ++ post))) as [Hc |].
    + destruct Hne. rewrite Hbl', Hf' in Hc by lia. rewrite Hbl, Hf in Hcrc by lia.
      apply (Crc32Facts.crc32_burst_eq addr (blank_crc pre) post); [by apply blank_crc_bytes | done | done | done | done | lia |].
      congruence.
    + do 2 eexists. split; [done |]. repeat constructor; by eexists.
  - unfold sized in *. rewrite Hf' by lia. rewrite Hf in Hs by lia. rewrite !length_app in *. lia.
Qed.

(** The text of the "go" command does not fit the ten bytes of [bootcmd] for
    any address from 0x1000000 on, and [snprintf], which drops its size in this
    configuration, writes all of it: one or two bytes behind the array are
    overwritten. *)
Theorem bootcmd_overflows m bootcmd addr : 16 ^ 6 <= addr < 2 ^ 32 -> mapped m bootcmd 12 ->
  exists t, snprintf m bootcmd 10 (str "go %x") [A32 addr] = Some (write_bytes m bootcmd t) /\
    10 < zlen t <= 12 /\ write_bytes m bootcmd t !! (bootcmd + 10) = t !! 10%nat /\ is_Some (t !! 10%nat).
Proof.
  intros Ha Hm. assert (is_u32 addr) as Hu by (unfold is_u32; lia).
  destruct (go_text_length addr Hu) as [Hle Hge]. specialize (Hge ltac:(lia)).
  exists (go_text addr ++ [0]). unfold snprintf. rewrite vsprintf_go by done. cbn [mbind option_bind].
  split; [| split; [lia |]].
  - apply store_bytes_spec; [| by apply (mapped_sub m bootcmd 12); [done | lia | lia]].
    apply Forall_app. split; [by apply is_bytes_text, go_text_chars | solve_bytes].
  - split; [| apply lookup_lt_is_Some; lia].
    rewrite write_bytes_lookup, decide_True by lia. f_equal. lia.
Qed.

(** The length that is checked is a 32-bit sum and wraps: with a size field of
    0xffffffe0 no byte is covered by the CRC, and any header with a zero CRC
    field boots whatever follows it. *)
Theorem do_bootbk_length_wraps watchdog bootcmd cmdline kernel argv0 argv1 argv2 arg part hdr m :
  let addr := (simple_strtoul arg 16).1 in
  cstr m argv1 arg -> bytes_at m addr hdr -> length hdr = 32%nat ->
  field 0 hdr = LOADER_MAGIC -> field 8 hdr = 0xffffffe0 -> field 16 hdr = 0 ->
  layout bootcmd cmdline argv2 addr part hdr m ->
  exists mk, do_bootbk watchdog bootcmd cmdline kernel [argv0; argv1; argv2] m =
    enter_kernel bootcmd kernel (u32 (addr + 32)) mk.
Proof.
  intros addr Harg Himg Hlen Hmagic Hsize Hcrc Hl. apply layout_blank in Hl; [| lia].
  rewrite (do_bootbk_header _ _ _ _ _ _ _ arg hdr); [| done | done | lia | rewrite Hsize; change (u32 (0xffffffe0 + 32)) with 0; lia].
  rewrite Hmagic, Hsize, Hcrc. change (negb (LOADER_MAGIC =? LOADER_MAGIC)) with false. cbn iota zeta.
  change (Z.to_nat (u32 (0xffffffe0 + 32))) with 0%nat. rewrite take_0, Crc32Facts.crc32_eq by done.
  change (negb (_ =? 0)) with false. cbn iota. eexists. by apply (boot_image_spec _ _ _ _ kernel part (blank_crc hdr)).
Qed.

(** ** Examples *)

Module BootbkExamples.

Definition image (size crc : Z) (binary : list Z) : list Z :=
  le4 LOADER_MAGIC ++ le4 0 ++ le4 size ++ le4 0 ++ le4 crc ++ replicate 12 0 ++ binary.

Definition binary : list Z := str "a binary".
Definition sealed : list Z := image 8 (Crc32.crc32 0 0x2000 (image 8 0 binary)) binary.

(** The tags at 0x100, the image at 0x2000, the arguments at 0x3000 and 0x3010,
    the local arrays at 0x4000 and 0x4010. *)
Definition memory (img : list Z) : mem :=
  write_bytes (write_bytes (write_bytes (write_bytes (write_bytes
    ∅ 0x100 (replicate 128 0xff)) 0x2000 img) 0x3000 (str "2000" ++ [0])) 0x3010 (str "part1" ++ [0]))
    0x4000 (replicate 144 0xff).

Definition no_return (pc r0 r1 r2 : Z) (m : mem) : option mem := None.

Lemma mapped_check m p n : all_from (fun a => bool_decide (is_Some (m !! a))) (Z.to_nat n) p = true -> mapped m p n.
Proof. intros H a Ha. by apply (bool_decide_unpack _), Is_true_true, (all_from_spec _ _ _ H); lia. Qed.

Lemma image_layout img : length img = 32%nat \/ length img = 40%nat -> cstr (memory img) 0x3010 (str "part1") ->
  all_from (fun a => bool_decide (is_Some (memory img !! a))) 12 0x4000 = true ->
  all_from (fun a => bool_decide (is_Some (memory img !! a))) 25 0x4010 = true ->
  all_from (fun a => bool_decide (is_Some (memory img !! a))) 65 0x100 = true ->
  layout 0x4000 0x4010 0x3010 0x2000 (str "part1") img (memory img).
Proof.
  intros Hl Hp H1 H2 H3.
  split; [exact Hp | reflexivity | apply mapped_check; exact H1 | apply mapped_check; exact H2 | lia | apply mapped_check; exact H3 |].
  clear H1 H2 H3 Hp. change (zlen (str "part1")) with 5. cbn -[Z.add]. unfold apart, atags_addr. cbn -[Z.add]. lia.
Qed.

Lemma do_bootbk_boots_witness : exists mk,
  do_bootbk true 0x4000 0x4010 no_return [0; 0x3000; 0x3010] (memory sealed) =
    Some (mk, [Enter 0x2020 0 4735 0x100 mk], None) /\
  read_tags 3 mk atags_addr = Some [Core 0 4096 0; Cmdline (str "loader=u-boot part=part1")].
Proof.
  destruct (do_bootbk_boots true 0x4000 0x4010 no_return 0 0x3000 0x3010 (str "2000") (str "part1") sealed (memory sealed))
    as (mk & H & _ & Ht & _).
  - vm_compute. repeat split.
  - vm_compute. repeat split; discriminate.
  - vm_compute. split; reflexivity.
  - vm_compute. split; reflexivity.
  - apply image_layout; [by right | vm_compute; repeat split | vm_compute; reflexivity..].
  - exists mk. split; [exact H | exact Ht].
Defined.

Definition damaged : list Z := take 34 sealed ++ [88; 89] ++ drop 36 sealed.

Lemma do_bootbk_rejects_witness : exists m' evs,
  do_bootbk true 0x4000 0x4010 no_return [0; 0x3000; 0x3010] (memory damaged) = Some (m', evs, Some 1).
Proof.
  destruct (do_bootbk_rejects true 0x4000 0x4010 no_return 0 0x3000 0x3010 (str "2000") damaged (memory damaged))
    as (m' & evs & H & _).
  - vm_compute. repeat split.
  - vm_compute. repeat split; discriminate.
  - vm_compute. split; reflexivity.
  - intros [_ H]. vm_compute in H. discriminate.
  - by exists m', evs.
Defined.

Lemma do_bootbk_detects_corruption_witness : exists m' evs,
  do_bootbk true 0x4000 0x4010 no_return [0; 0x3000; 0x3010] (memory damaged) = Some (m', evs, Some 1).
Proof.
  destruct (do_bootbk_detects_corruption true 0x4000 0x4010 no_return 0 0x3000 0x3010 (str "2000")
    (take 34 sealed) (take 2 (drop 34 sealed)) [88; 89] (drop 36 sealed) (memory damaged)) as (m' & evs & H & _).
  - vm_compute. lia.
  - vm_compute. split; reflexivity.
  - vm_compute. split; reflexivity.
  - vm_compute. repeat constructor; discriminate.
  - reflexivity.
  - vm_compute. lia.
  - vm_compute. discriminate.
  - vm_compute. repeat split.
  - vm_compute. repeat split; discriminate.
  - by exists m', evs.
Defined.

Lemma bootcmd_overflows_witness : exists t,
  snprintf (memory sealed) 0x4000 10 (str "go %x") [A32 0x61000020] = Some (write_bytes (memory sealed) 0x4000 t) /\ 10 < zlen t.
Proof.
  destruct (bootcmd_overflows (memory sealed) 0x4000 0x61000020) as (t & H & Hl & _); [lia | |].
  - apply mapped_check. vm_compute. reflexivity.
  - exists t. split; [exact H | lia].
Defined.

Definition unchecked : list Z := image 0xffffffe0 0 [].

Lemma do_bootbk_length_wraps_witness : exists mk,
  do_bootbk false 0x4000 0x4010 no_return [0; 0x3000; 0x3010] (memory unchecked) =
    Some (mk, [Enter 0x2020 0 4735 0x100 mk], None).
Proof.
  destruct (do_bootbk_length_wraps false 0x4000 0x4010 no_return 0 0x3000 0x3010 (str "2000") (str "part1") unchecked
    (memory unchecked)) as (mk & H).
  - vm_compute. repeat split.
  - vm_compute. repeat split; discriminate.
  - reflexivity.
  - vm_compute. reflexivity.
  - vm_compute. reflexivity.
  - vm_compute. reflexivity.
  - apply image_layout; [by left | vm_compute; repeat split | vm_compute; reflexivity..].
  - exists mk. exact H.
Defined.

End BootbkExamples.
