(* ===== verification/Env.v ===== *)
(** * The environment (common/cmd_nvedit.c, common/env_common.c)

    The variables live in the hash table [env_htab]; before it is filled,
    [getenv] scans the environment text itself ([getenv_f]).  The state is the
    part of the global data the code uses, the table with its surroundings and
    the static variables.  A string argument is a list of non-zero bytes, an
    argument that may be null an option.  What is printed is left out, except
    for the text that [printenv] shows.  [None] as the result of an operation is
    a fault, as in the files below.

    The configuration is a section parameter: the size of the environment, the
    default environment that the preprocessor puts together, whether
    CONFIG_ENV_OVERWRITE is set, and [console_assign] of common/console.c, which
    depends on the devices that are registered. *)

From S2P Require Import Prelude Ctype StringLib Crc Qsort Hashtable HashIO Vsprintf.

Definition stdin : Z := 0.
Definition stdout : Z := 1.
Definition stderr : Z := 2.

(** CONFIG_SYS_BAUDRATE_TABLE of the board. *)
Definition baudrate_table : list Z := [9600; 19200; 38400; 57600; 115200].

(** [strcmp(a, b) == 0]. *)
Definition streq (a b : cstring) : bool := cstrcmp a b =? 0.

(** The variables that [env_check_apply] updates: [gd->baudrate], [load_addr]. *)
Record gvars := GVars { g_baudrate : Z; load_addr : Z }.

(** [gd->flags] is kept as its two bits GD_FLG_RELOC and GD_FLG_ENV_READY;
    [env_image] is the memory at [gd->env_addr]. *)
Record env := EnvState {
  env_htab : hsearch_data;
  surroundings : world;
  env_id : Z;
  globals : gvars;
  flg_reloc : bool;
  flg_env_ready : bool;
  env_valid : Z;
  env_image : list Z;
  env_buf : cstring }.

Definition set_table (e : env) (w : world) (h : hsearch_data) : env :=
  EnvState h w (env_id e) (globals e) (flg_reloc e) (flg_env_ready e) (env_valid e) (env_image e) (env_buf e).
Definition set_globals (e : env) (g : gvars) : env :=
  EnvState (env_htab e) (surroundings e) (env_id e) g (flg_reloc e) (flg_env_ready e) (env_valid e) (env_image e) (env_buf e).
Definition set_env_ready (e : env) : env :=
  EnvState (env_htab e) (surroundings e) (env_id e) (globals e) (flg_reloc e) true (env_valid e) (env_image e) (env_buf e).
Definition next_env_id (e : env) : env :=
  EnvState (env_htab e) (surroundings e) (s32 (env_id e + 1)) (globals e) (flg_reloc e) (flg_env_ready e) (env_valid e)
    (env_image e) (env_buf e).
Definition set_env_buf (e : env) (b : cstring) : env :=
  EnvState (env_htab e) (surroundings e) (env_id e) (globals e) (flg_reloc e) (flg_env_ready e) (env_valid e) (env_image e) b.

Definition get_env_id (e : env) : Z := env_id e.

Section Environment.
Context (CONFIG_ENV_SIZE : Z) (default_environment : list Z) (env_overwrite : bool).
Context (console_assign : Z -> cstring -> Z).

(** ENV_SIZE: the size without the checksum. *)
Definition ENV_SIZE : Z := CONFIG_ENV_SIZE - 4.

(** ** Checking and applying a change *)

Definition console_of (name : cstring) : Z :=
  if streq name (str "stdin") then stdin
  else if streq name (str "stdout") then stdout
  else if streq name (str "stderr") then stderr
  else -1.

(** The baud rate branch: the return value, when it returns, and [gd->baudrate]. *)
Definition check_baudrate (newval : cstring) (g : gvars) : Z * gvars :=
  let baudrate := s32 (simple_strtoul newval 10).1 in
  if negb (existsb (fun b => u32 baudrate =? b) baudrate_table) then (1, g)
  else if g_baudrate g =? u32 baudrate then (0, g)
  else (0, GVars (u32 baudrate) (load_addr g)).

Definition env_check_apply (name : cstring) (oldval newval : option cstring) (flag : Z) (g : gvars) : Z * gvars :=
  let newval := default [] newval in
  let console := console_of name in
  if negb (console =? -1) && ((zlen newval =? 0) || (console_assign console newval <? 0)) then (1, g)
  else if negb env_overwrite && bool_decide (is_Some oldval) && (Z.land flag H_FORCE =? 0)
          && (streq name (str "serial#") || streq name (str "ethaddr")) then (1, g)
  else if (bool_decide (is_Some oldval) || (Z.land flag H_NOCLEAR =? 0)) && streq name (str "baudrate") then
    check_baudrate newval g
  else if streq name (str "loadaddr") then (0, GVars (g_baudrate g) (simple_strtoul newval 16).1)
  else (0, g).

(** The [apply] callback of the table.  Its verdict does not depend on the
    variables it updates, so the updates can be made in the order of the calls. *)
Definition apply_env : option (apply_call -> Z) :=
  Some (fun c => (env_check_apply (default [] (c_name c)) (c_old c) (c_new c) (c_flag c) (GVars 0 0)).1).

Definition apply_effects (calls : list apply_call) (g : gvars) : gvars :=
  foldl (fun g c => (env_check_apply (default [] (c_name c)) (c_old c) (c_new c) (c_flag c) g).2) g calls.

(** The calls made since [w], oldest first. *)
Definition new_calls (w w' : world) : list apply_call :=
  reverse (take (length (applied w') - length (applied w)) (applied w')).

(** An operation of the table with its callback. *)
Definition with_effects (e : env) (w : world) (h : hsearch_data) : env :=
  set_globals (set_table e w h) (apply_effects (new_calls (surroundings e) w) (globals e)).

(** ** [setenv] *)

(** The arguments from the third on, joined with blanks. *)
Fixpoint join_args (args : list cstring) : cstring :=
  match args with
  | [] => []
  | [v] => v
  | v :: args => v ++ 32 :: join_args args
  end.

(** [argv] with a null pointer behind it. *)
Definition arg_at (argv : list (option cstring)) (i : nat) : option cstring := mjoin (argv !! i).

Definition _do_env_set (flag argc : Z) (argv : list (option cstring)) (e : env) : option (Z * env) :=
  name ← arg_at argv 1;
  let value := arg_at argv 2 in
  if bool_decide (EQUALS ∈ name) then Some (1, e)
  else
    let e := next_env_id e in
    '(_, ep, w, h) ← hsearch_r name None FIND (surroundings e) (env_htab e);
    let e := set_table e w h in
    old ← entry_data h ep;
    let '(refused, g) := env_check_apply name old value H_NOCLEAR (globals e) in
    let e := set_globals e g in
    if negb (refused =? 0) then Some (1, e)
    else if (argc <? 3) || bool_decide (value = None) then
      '(rc, w, h) ← hdelete_r apply_env name false (surroundings e) (env_htab e);
      Some ((if rc =? 0 then 1 else 0), set_table e w h)
    else
      args ← mapM (fun i => arg_at argv i) (seq 2 (Z.to_nat argc - 2));
      let '(ok, w) := allocate (surroundings e) in
      let e := set_table e w (env_htab e) in
      if negb ok then Some (1, e)
      else
        '(_, ep, w, h) ← hsearch_r name (Some (join_args args)) ENTER (surroundings e) (env_htab e);
        Some ((if bool_decide (ep = None) then 1 else 0), set_table e w h).

Definition setenv (varname : cstring) (varvalue : option cstring) (e : env) : option (Z * env) :=
  let argv := [Some (str "setenv"); Some varname; varvalue; None] in
  if negb (flg_env_ready e) then Some (1, e)
  else if zlen (default [] varvalue) =? 0 then _do_env_set 0 2 argv e
  else _do_env_set 0 3 argv e.

Definition setenv_ulong (varname : cstring) (value : Z) (e : env) : option (Z * env) :=
  s ← simple_itoa value; setenv varname (Some s) e.

Definition setenv_addr (varname : cstring) (addr : Z) (e : env) : option (Z * env) :=
  '(t, _) ← vsnprintf_text (str "%lx") [A32 addr]; setenv varname (Some t) e.

Definition CMD_USAGE : Z := -1.

Definition do_env_set (flag : Z) (argv : list cstring) (e : env) : option (Z * env) :=
  if zlen argv <? 2 then Some (CMD_USAGE, e) else _do_env_set flag (zlen argv) (Some <$> argv) e.

(** ** Reading the environment text *)

Definition env_get_char_spec (index : Z) (e : env) : option Z := env_image e !! Z.to_nat index.

Definition env_get_char_init (index : Z) (e : env) : option Z :=
  if negb (env_valid e =? 0) then env_get_char_spec index e else default_environment !! Z.to_nat index.

(** [*env_get_addr(index)]. *)
Definition env_get_char_memory (index : Z) (e : env) : option Z :=
  if negb (env_valid e =? 0) then env_image e !! Z.to_nat index else default_environment !! Z.to_nat index.

Definition env_get_char (index : Z) (e : env) : option Z :=
  if flg_reloc e then env_get_char_memory index e else env_get_char_init index e.

(** [while ( *s1 == env_get_char(i2++)) if ( *s1++ == '=') return i2;]; [s1] ends
    with a NUL, behind which nothing may be read. *)
Fixpoint envmatch_loop (s1 : list Z) (i2 : Z) (e : env) : option Z :=
  match s1 with
  | [] => None
  | c :: s1 =>
      d ← env_get_char i2 e;
      if c =? d then if c =? EQUALS then Some (i2 + 1) else envmatch_loop s1 (i2 + 1) e
      else if (c =? 0) && (d =? EQUALS) then Some (i2 + 1)
      else Some (-1)
  end.

Definition envmatch (s1 : cstring) (i2 : Z) (e : env) : option Z := envmatch_loop (s1 ++ [0]) i2 e.

(** [for (nxt = i; env_get_char(nxt) != '\0'; ++nxt) if (nxt >= CONFIG_ENV_SIZE) return -1;];
    [inr tt] is the return. *)
Fixpoint next_loop (fuel : nat) (nxt : Z) (e : env) : option (Z + unit) :=
  match fuel with
  | O => None
  | S fuel =>
      c ← env_get_char nxt e;
      if c =? 0 then Some (inl nxt)
      else if CONFIG_ENV_SIZE <=? nxt then Some (inr tt)
      else next_loop fuel (nxt + 1) e
  end.

(** The copying loop: the characters of the value up to the terminator, at
    most [len] of them, and whether the terminator was reached. *)
Fixpoint copy_loop (len : nat) (val : Z) (e : env) : option (cstring * bool) :=
  match len with
  | O => Some ([], false)
  | S len =>
      c ← env_get_char val e;
      if c =? 0 then Some ([], true)
      else '(t, done) ← copy_loop len (val + 1) e; Some (c :: t, done)
  end.

(** The string in [buf] and the return value; without a terminator in [len]
    characters the last one is overwritten. *)
Definition copy_value (len val : Z) (e : env) : option (Z * option cstring) :=
  if len <=? 0 then Some (0, None)
  else
    '(t, done) ← copy_loop (Z.to_nat len) val e;
    Some (zlen t, Some (if done : bool then t else take (length t - 1) t)).

Fixpoint getenv_loop (fuel : nat) (name : cstring) (len i : Z) (e : env) : option (Z * option cstring) :=
  match fuel with
  | O => None
  | S fuel =>
      c ← env_get_char i e;
      if c =? 0 then Some (-1, None)
      else
        r ← next_loop (S (Z.to_nat CONFIG_ENV_SIZE)) i e;
        match r with
        | inr _ => Some (-1, None)
        | inl nxt =>
            val ← envmatch name i e;
            if val <? 0 then getenv_loop fuel name len (nxt + 1) e
            else copy_value len val e
        end
  end.

(** The return value and the string in [buf], when it was written.  Every
    round moves [i] forward. *)
Definition getenv_f (name : cstring) (len : Z) (e : env) : option (Z * option cstring) :=
  getenv_loop (S (Z.to_nat CONFIG_ENV_SIZE)) name len 0 e.

(** ** [getenv] *)

Definition sizeof_env_buf : Z := 32.

Definition getenv (name : cstring) (e : env) : option (option cstring * env) :=
  if flg_env_ready e then
    '(_, ep, w, h) ← hsearch_r name None FIND (surroundings e) (env_htab e);
    d ← entry_data h ep;
    Some (d, set_table e w h)
  else
    '(n, t) ← getenv_f name sizeof_env_buf e;
    let e := match t with Some t => set_env_buf e t | None => e end in
    Some (if 0 <? n then (Some (env_buf e), e) else (None, e)).

Definition getenv_ulong (name : cstring) (base default_val : Z) (e : env) : option (Z * env) :=
  '(s, e) ← getenv name e;
  Some (match s with Some s => (simple_strtoul s base).1 | None => default_val end, e).

(** ** The default environment and stored environments *)

Definition EXCLAMATION : Z := 33.

Definition set_default_env (s : option cstring) (e : env) : option env :=
  if ENV_SIZE <? zlen default_environment then Some e
  else
    let do_apply := match s with
      | Some (c :: _) => negb (c =? EXCLAMATION)
      | Some [] => true
      | None => false
      end in
    '(_, w, h) ← himport_r apply_env default_environment 0 0 [] do_apply (surroundings e) (env_htab e);
    Some (set_env_ready (with_effects e w h)).

Definition set_default_vars (vars : list cstring) (e : env) : option (Z * env) :=
  '(r, w, h) ← himport_r apply_env default_environment 0 H_NOCLEAR vars true (surroundings e) (env_htab e);
  Some (r, with_effects e w h).

(** The fields of an [env_t] at address [addr]. *)
Definition ep_crc (buf : list Z) : Z := le_load (take 4 buf).
Definition ep_data (buf : list Z) : list Z := take (Z.to_nat ENV_SIZE) (drop 4 buf).

(** From the [himport_r] call on. *)
Definition import_data (data : list Z) (e : env) : option (Z * env) :=
  '(r, w, h) ← himport_r apply_env data 0 0 [] false (surroundings e) (env_htab e);
  let e := with_effects e w h in
  if negb (r =? 0) then Some (1, set_env_ready e)
  else e ← set_default_env (Some (str "!import failed")) e; Some (0, e).

Definition env_import (addr : Z) (buf : list Z) (check : bool) (e : env) : option (Z * env) :=
  if check && negb (Crc32.crc32 0 (addr + 4) (ep_data buf) =? ep_crc buf) then
    e ← set_default_env (Some (str "!bad CRC")) e; Some (0, e)
  else import_data (ep_data buf) e.

(** [skip_lowlevel] is CONFIG_SKIP_LOWLEVEL_INIT, [nowhere] is
    CONFIG_ENV_IS_NOWHERE, and [env_relocate_spec] belongs to the storage. *)
Definition env_relocate (skip_lowlevel nowhere : bool) (env_relocate_spec : env -> option env) (e : env) : option env :=
  if skip_lowlevel then set_default_env None e
  else if env_valid e =? 0 then set_default_env (if nowhere then None else Some (str "!bad CRC")) e
  else env_relocate_spec e.

(** ** Commands *)

(** The slot a search points to. *)
Definition entry_slot (h : hsearch_data) (ep : option Z) : option (option slot) :=
  match ep with
  | None => Some None
  | Some i => t ← table h; s ← slot_at t i; Some (Some s)
  end.

(** What [puts] prints of a buffer. *)
Fixpoint until_nul (l : list Z) : text :=
  match l with
  | [] => []
  | c :: l => if c =? 0 then [] else c :: until_nul l
  end.

(** The return value and the text that is printed. *)
Definition env_print (name : option cstring) (e : env) : option (Z * text * env) :=
  match name with
  | Some name =>
      '(_, ep, w, h) ← hsearch_r name None FIND (surroundings e) (env_htab e);
      let e := set_table e w h in
      s ← entry_slot h ep;
      match s with
      | None => Some (0, [], e)
      | Some s =>
          '(t, _) ← vsnprintf_text (str "%s=%s" ++ [10]) [AStr (key s); AStr (data s)];
          Some (zlen t, t, e)
      end
  | None =>
      '(len, res, w) ← hexport_r (env_htab e) 10 None 0 [] (surroundings e);
      let e := set_table e w (env_htab e) in
      match res with
      | Some res => if 0 <? len then Some (len, until_nul res, e) else Some (0, [], e)
      | None => Some (0, [], e)
      end
  end.

(** [for (i = 1; i < argc; ++i)]: the names that are not defined are counted. *)
Fixpoint print_names (names : list cstring) (rcode : Z) (out : text) (e : env) : option (Z * text * env) :=
  match names with
  | [] => Some (rcode, out, e)
  | name :: names =>
      '(rc, t, e) ← env_print (Some name) e;
      if rc =? 0 then
        '(msg, _) ← vsnprintf_text (str "## Error: " ++ [34] ++ str "%s" ++ [34] ++ str " not defined" ++ [10]) [AStr (Some name)];
        print_names names (rcode + 1) (out ++ t ++ msg) e
      else print_names names rcode (out ++ t) e
  end.

Definition do_env_print (argv : list cstring) (e : env) : option (Z * text * env) :=
  if zlen argv =? 1 then
    '(rcode, t, e) ← env_print None e;
    if rcode =? 0 then Some (1, t, e)
    else
      '(msg, _) ← vsnprintf_text ([10] ++ str "Environment size: %d/%ld bytes" ++ [10]) [A32 rcode; A32 ENV_SIZE];
      Some (0, t ++ msg, e)
  else print_names (tail argv) 0 [] e.

(** [while ((idx = hmatch_r(var, idx, &match, &env_htab))) ...]: the names
    found and the last index. *)
Fixpoint complete_loop (fuel : nat) (var : cstring) (maxv bufsz idx : Z) (found : list cstring) (e : env) :
    option (list cstring * Z * env) :=
  match fuel with
  | O => None
  | S fuel =>
      '(idx, ep, w) ← hmatch_r var idx (surroundings e) (env_htab e);
      let e := set_table e w (env_htab e) in
      if idx =? 0 then Some (found, idx, e)
      else
        s ← entry_slot (env_htab e) ep;
        s ← s;
        k ← key s;
        let vallen := zlen k + 1 in
        if (maxv - 2 <=? zlen found) || (bufsz <? vallen) then Some (found, idx, e)
        else complete_loop fuel var maxv (bufsz - vallen) idx (found ++ [k]) e
  end.

(** The strings that [cmdv] points to, without the final null pointer. *)
Definition env_complete (var : cstring) (maxv bufsz : Z) (e : env) : option (list cstring * env) :=
  '(found, idx, e) ← complete_loop (S (Z.to_nat (size (env_htab e)))) var maxv bufsz 0 [] e;
  cmdv ← qsort cstrcmp found;
  Some (cmdv ++ (if idx =? 0 then [] else [str "..."]), e).

(** The options of "env default": [-a] and [-f], the rest of the arguments;
    [None] is the usage message. *)
Fixpoint option_chars (arg : cstring) (all force : bool) : option (bool * bool) :=
  match arg with
  | [] => Some (all, force)
  | c :: arg =>
      if c =? 97 then option_chars arg true force
      else if c =? 102 then option_chars arg all true
      else None
  end.

Fixpoint default_options (argv : list cstring) (all force : bool) : option (bool * bool * list cstring) :=
  match argv with
  | [] => Some (all, force, [])
  | arg :: rest =>
      match arg with
      | c :: cs => if c =? 45 then '(all, force) ← option_chars cs all force; default_options rest all force
                   else Some (all, force, argv)
      | [] => Some (all, force, argv)
      end
  end.

(** [argv] without the name of the command.  The force flag is read but not
    used. *)
Definition do_env_default (argv : list cstring) (e : env) : option (Z * env) :=
  match default_options argv false false with
  | None => Some (1, e)
  | Some (all, _, argv) =>
      if all && (zlen argv =? 0) then
        e ← set_default_env (Some (str "## Resetting to default environment" ++ [10])) e; Some (0, e)
      else if negb all && (0 <? zlen argv) then
        '(_, e) ← set_default_vars argv e; Some (0, e)
      else Some (1, e)
  end.

End Environment.

(** ** The environment as a map *)

(** A usable table [t], and memory is available. *)
Definition env_wf (e : env) (t : list slot) : Prop := hwf (env_htab e) t /\ allocs (surroundings e) = [].

(** Everything but the table, its surroundings, the identifier and the
    variables of [env_check_apply] is unchanged. *)
Definition same_boot (e e' : env) : Prop :=
  flg_reloc e' = flg_reloc e /\ flg_env_ready e' = flg_env_ready e /\ env_valid e' = env_valid e /\
  env_image e' = env_image e /\ env_buf e' = env_buf e.

Lemma streq_spec a b : str_ok a -> str_ok b -> streq a b = bool_decide (a = b).
Proof.
  intros Ha Hb. unfold streq. pose proof (cstrcmp_zero a b Ha Hb) as H.
  case_bool_decide; [by apply Z.eqb_eq, H | by apply Z.eqb_neq; rewrite H].
Qed.

Lemma find_data e t name w : env_wf e t -> str_ok name -> exists r ep w',
  hsearch_r name None FIND w (env_htab e) = Some (r, ep, w', env_htab e) /\
  entry_data (env_htab e) ep = Some (abs t !! name) /\ allocs w' = allocs w /\ applied w' = applied w.
Proof.
  intros [Hwf _] Hk. pose proof (hsearch_find (env_htab e) t name w None Hwf Hk) as H.
  destruct (abs t !! name) as [d |].
  - destruct H as (idx & s & -> & Hi & Hs & Hl & Hks & Hd). exists idx, (Some idx), w. split_and!; try done.
    cbn [entry_data]. destruct Hwf as (-> & _). cbn [mbind option_bind]. rewrite Hs. cbn. by rewrite Hd.
  - rewrite H. by eexists 0, None, _.
Qed.

Section EnvProofs.
Context (CONFIG_ENV_SIZE : Z) (default_environment : list Z) (env_overwrite : bool).
Context (console_assign : Z -> cstring -> Z).
Abbreviation check_apply := (env_check_apply env_overwrite console_assign).
Abbreviation env_set := (_do_env_set env_overwrite console_assign).
Abbreviation get_var := (getenv CONFIG_ENV_SIZE default_environment).

Lemma getenv_ready e t name : env_wf e t -> flg_env_ready e = true -> str_ok name -> exists e',
  get_var name e = Some (abs t !! name, e') /\ env_wf e' t /\ globals e' = globals e /\ same_boot e e' /\
  env_htab e' = env_htab e /\ env_id e' = env_id e.
Proof.
  intros Hwf Hr Hk. unfold getenv. rewrite Hr.
  destruct (find_data e t name (surroundings e) Hwf Hk) as (r & ep & w' & -> & Hd & Hal & _). cbn [mbind option_bind].
  rewrite Hd. cbn [mbind option_bind]. destruct Hwf as [Hwf Hw]. eexists. split; [done |].
  split; [split; [done | by cbn; congruence] | done].
Qed.

(** What a call of [_do_env_set] does to the variables. *)
Definition set_spec (name : cstring) (value : option cstring) (del : bool) (new : cstring)
    (m : gmap cstring cstring) (g : gvars) : Z * gmap cstring cstring * gvars :=
  if bool_decide (EQUALS ∈ name) then (1, m, g)
  else
    let '(r, g) := check_apply name (m !! name) value H_NOCLEAR g in
    if negb (r =? 0) then (1, m, g)
    else if del then ((if bool_decide (is_Some (m !! name)) then 0 else 1), delete name m, g)
    else (0, <[name := new]> m, g).

Lemma env_set_spec flag argc argv e t name args : env_wf e t -> arg_at argv 1 = Some name -> str_ok name ->
  occupied t < size (env_htab e) ->
  mapM (fun i => arg_at argv i) (seq 2 (Z.to_nat argc - 2)) = Some args ->
  let del := (argc <? 3) || bool_decide (arg_at argv 2 = None) in
  let '(rc, m, g) := set_spec name (arg_at argv 2) del (join_args args) (abs t) (globals e) in
  exists e' t', env_set flag argc argv e = Some (rc, e') /\ env_wf e' t' /\ abs t' = m /\ globals e' = g /\
    same_boot e e' /\ size (env_htab e') = size (env_htab e) /\ occupied t' <= occupied t + 1.
Proof.
  intros Hwf Hname Hk Hroom Hargs del. unfold set_spec, _do_env_set. rewrite Hname. cbn [mbind option_bind].
  case_bool_decide; [exists e, t; by split_and!; [done.. | lia] |].
  destruct (find_data (next_env_id e) t name (surroundings e) Hwf Hk) as (r & ep & w' & Hf & Hd & Hal & _).
  cbn [env_htab surroundings next_env_id] in Hf, Hd |- *. rewrite Hf. cbn [mbind option_bind]. rewrite Hd. cbn [mbind option_bind].
  cbn [globals set_table next_env_id]. destruct (check_apply name (abs t !! name) (arg_at argv 2) H_NOCLEAR (globals e)) as [rc g].
  destruct Hwf as [Hwf Hw]. destruct (negb (rc =? 0)).
  { eexists _, t. split; [done |]. split; [split; [done | by cbn; congruence] |]. split_and!; try done. lia. }
  fold del. destruct del.
  - destruct (hdelete_spec (apply_env env_overwrite console_assign) (env_htab e) t name false w' Hwf Hk)
      as (w2 & h2 & t2 & Hdel & Hwf2 & Hsz & Ha & Ho & Hal2 & _).
    cbn [env_htab surroundings set_globals set_table]. rewrite Hdel. cbn [mbind option_bind].
    eexists _, t2. split; [by case_bool_decide |]. split; [split; [done | by cbn; congruence] |]. split_and!; try done. lia.
  - rewrite Hargs. cbn [mbind option_bind env_htab surroundings set_globals set_table].
    unfold allocate. rewrite Hal, Hw. cbn [negb env_htab surroundings set_globals set_table].
    destruct (hsearch_enter (env_htab e) t name (join_args args) w' Hwf Hk Hroom ltac:(congruence))
      as (r2 & idx & s & h2 & t2 & He & Hr2 & Hwf2 & Hsz & Ha & Ho & _).
    rewrite He. cbn [mbind option_bind].
    eexists _, t2. split; [done |]. split; [split; [done | by cbn; congruence] |]. by split_and!.
Qed.

(** *** Sequences of commands *)

Inductive envop :=
| SetCmd (name : cstring) (vals : list cstring)     (* setenv name vals... *)
| SetVar (name : cstring) (value : option cstring)  (* setenv(name, value) *)
| GetVar (name : cstring).                          (* getenv(name) *)

Definition envop_name (o : envop) : cstring :=
  match o with SetCmd k _ | SetVar k _ | GetVar k => k end.

Definition run_envop (o : envop) (e : env) : option (Z * option cstring * env) :=
  match o with
  | SetCmd k vals => '(r, e) ← do_env_set env_overwrite console_assign 0 (str "setenv" :: k :: vals) e; Some (r, None, e)
  | SetVar k v => '(r, e) ← setenv env_overwrite console_assign k v e; Some (r, None, e)
  | GetVar k => '(d, e) ← get_var k e; Some (0, d, e)
  end.

(** The values, each with a blank before it but the first. *)
Definition blank_separated (vals : list cstring) : cstring := drop 1 (mjoin ((fun v => 32 :: v) <$> vals)).

Lemma join_args_spec vals : join_args vals = blank_separated vals.
Proof.
  unfold blank_separated. induction vals as [| v vals IH]; [done |]. cbn [fmap list_fmap mjoin list_join].
  cbn [app drop]. destruct vals as [| w vals]; [cbn; by rewrite app_nil_r |].
  change (join_args (v :: w :: vals)) with (v ++ 32 :: join_args (w :: vals)). by rewrite IH.
Qed.

Definition spec_envop (o : envop) (m : gmap cstring cstring) (g : gvars) :
    Z * option cstring * gmap cstring cstring * gvars :=
  match o with
  | SetCmd k vals =>
      let '(r, m, g) := set_spec k (head vals) (bool_decide (vals = [])) (blank_separated vals) m g in (r, None, m, g)
  | SetVar k v =>
      let '(r, m, g) := set_spec k v (bool_decide (default [] v = [])) (default [] v) m g in (r, None, m, g)
  | GetVar k => (0, m !! k, m, g)
  end.

Fixpoint run_env (ops : list envop) (e : env) : option (list (Z * option cstring) * env) :=
  match ops with
  | [] => Some ([], e)
  | o :: ops => '(r, d, e) ← run_envop o e; '(rs, e) ← run_env ops e; Some ((r, d) :: rs, e)
  end.

Fixpoint spec_env (ops : list envop) (m : gmap cstring cstring) (g : gvars) :
    list (Z * option cstring) * gmap cstring cstring * gvars :=
  match ops with
  | [] => ([], m, g)
  | o :: ops =>
      let '(r, d, m, g) := spec_envop o m g in
      let '(rs, m, g) := spec_env ops m g in ((r, d) :: rs, m, g)
  end.

Lemma mapM_args l k n : (k + n = length l)%nat ->
  mapM (fun i => arg_at (Some <$> l) i) (seq k n) = Some (drop k l : list cstring).
Proof.
  revert k. induction n as [| n IH]; intros k Hk; cbn [seq mapM].
  - by rewrite drop_ge by lia.
  - destruct (lookup_lt_is_Some_2 l k ltac:(lia)) as [x Hx].
    assert (arg_at (Some <$> l) k = Some x) as -> by (unfold arg_at; by rewrite list_lookup_fmap, Hx).
    cbn [mbind option_bind]. rewrite IH by lia. cbn. by rewrite (drop_S l x k) by done.
Qed.

Lemma run_envop_refines o e t : env_wf e t -> flg_env_ready e = true -> str_ok (envop_name o) ->
  occupied t < size (env_htab e) ->
  let '(r, d, m, g) := spec_envop o (abs t) (globals e) in
  exists e' t', run_envop o e = Some (r, d, e') /\ env_wf e' t' /\ abs t' = m /\ globals e' = g /\
    same_boot e e' /\ size (env_htab e') = size (env_htab e) /\ occupied t' <= occupied t + 1.
Proof.
  intros Hwf Hr Hk Hroom. destruct o as [k vals | k v | k]; cbn [spec_envop run_envop envop_name] in *.
  - unfold do_env_set. cbn [length]. rewrite (proj2 (Z.ltb_ge _ 2)) by lia.
    set (argv := str "setenv" :: k :: vals).
    pose proof (env_set_spec 0 (Z.of_nat (S (S (length vals)))) (Some <$> argv) e t k vals Hwf eq_refl Hk Hroom) as H.
    rewrite (mapM_args argv 2) in H by (cbn; lia). specialize (H eq_refl). cbn zeta in H.
    assert (arg_at (Some <$> argv) 2 = head vals) as Ha by (by destruct vals). rewrite Ha in H.
    assert ((Z.of_nat (S (S (length vals))) <? 3) || bool_decide (head vals = None) = bool_decide (vals = [])) as Hb.
    { destruct vals; [done |]. cbn [length head]. rewrite (proj2 (Z.ltb_ge _ 3)) by lia. by rewrite !bool_decide_false. }
    rewrite Hb, join_args_spec in H. destruct (set_spec _ _ _ _ _ _) as [[r m] g].
    destruct H as (e' & t' & He & H). exists e', t'. by rewrite He.
  - unfold setenv. rewrite Hr. cbn [negb]. set (argv := [Some (str "setenv"); Some k; v; None]).
    assert ((zlen (default [] v) =? 0) = bool_decide (default [] v = [])) as Hb.
    { destruct (default [] v); [done |]. rewrite bool_decide_false by done. by apply Z.eqb_neq. }
    rewrite Hb. case_bool_decide as Hv.
    + pose proof (env_set_spec 0 2 argv e t k [] Hwf eq_refl Hk Hroom eq_refl) as H. cbn zeta in H.
      change ((2 <? 3) || bool_decide (arg_at argv 2 = None)) with true in H. change (arg_at argv 2) with v in H.
      unfold set_spec in *. destruct (bool_decide (EQUALS ∈ k)).
      * destruct H as (e' & t' & -> & H). by exists e', t'.
      * destruct (check_apply k (abs t !! k) v H_NOCLEAR (globals e)) as [rc g].
        destruct (negb (rc =? 0)); destruct H as (e' & t' & -> & H); by exists e', t'.
    + destruct v as [s |]; [| done]. cbn [default] in *.
      pose proof (env_set_spec 0 3 argv e t k [s] Hwf eq_refl Hk Hroom eq_refl) as H. cbn zeta in H.
      change ((3 <? 3) || bool_decide (arg_at argv 2 = None)) with false in H. change (arg_at argv 2) with (Some s) in H.
      cbn [join_args] in H. unfold id. destruct (set_spec _ _ _ _ _ _) as [[r m] g].
      destruct H as (e' & t' & -> & H). by exists e', t'.
  - destruct (getenv_ready e t k Hwf Hr Hk) as (e' & -> & Hwf' & Hg & Hs & Hh & _). cbn [mbind option_bind].
    exists e', t. split_and!; try done; [by rewrite Hh | lia].
Qed.

Lemma run_env_refines ops : forall e t, env_wf e t -> flg_env_ready e = true -> Forall (fun o => str_ok (envop_name o)) ops ->
  occupied t + zlen ops <= size (env_htab e) ->
  let '(rs, m, g) := spec_env ops (abs t) (globals e) in
  exists e' t', run_env ops e = Some (rs, e') /\ env_wf e' t' /\ abs t' = m /\ globals e' = g.
Proof.
  induction ops as [| o ops IH]; intros e t Hwf Hr Hops Hroom; cbn [spec_env run_env].
  { by exists e, t. }
  apply Forall_cons in Hops as [Hk Hops]. cbn [length] in Hroom.
  pose proof (run_envop_refines o e t Hwf Hr Hk ltac:(lia)) as H.
  destruct (spec_envop o (abs t) (globals e)) as [[[r d] m] g].
  destruct H as (e1 & t1 & -> & Hwf1 & <- & <- & (_ & Hr1 & _) & Hsz & Ho). cbn [mbind option_bind].
  specialize (IH e1 t1 Hwf1 ltac:(congruence) Hops ltac:(lia)).
  destruct (spec_env ops (abs t1) (globals e1)) as [[rs m] g]. destruct IH as (e' & t' & -> & H).
  by exists e', t'.
Qed.

End EnvProofs.

(** ** What [env_check_apply] accepts *)

Definition forced (flag : Z) : Prop := Z.land flag H_FORCE <> 0.
Definition cleared (flag : Z) : Prop := Z.land flag H_NOCLEAR = 0.

Section Check.
Context (env_overwrite : bool) (console_assign : Z -> cstring -> Z).
Context (name : cstring) (old new : option cstring) (flag : Z).
Let newval : cstring := default [] new.

(** The device variables cannot be deleted nor set to something that is not a
    device. *)
Definition bad_console : Prop := exists n, (name, n) ∈ [(str "stdin", 0); (str "stdout", 1); (str "stderr", 2)] /\
  (newval = [] \/ console_assign n newval < 0).

(** The serial number and the MAC address can be set once. *)
Definition write_once : Prop := env_overwrite = false /\ is_Some old /\ ~ forced flag /\
  (name = str "serial#" \/ name = str "ethaddr").

Definition baud_change : Prop := name = str "baudrate" /\ (is_Some old \/ cleared flag).

(** Only the listed baud rates are supported. *)
Definition bad_baudrate : Prop := baud_change /\ (simple_strtoul newval 10).1 ∉ baudrate_table.

End Check.

Lemma console_of_spec name : str_ok name ->
  (console_of name = -1 /\ forall n, (name, n) ∉ [(str "stdin", 0); (str "stdout", 1); (str "stderr", 2)]) \/
  (console_of name <> -1 /\ forall n, (name, n) ∈ [(str "stdin", 0); (str "stdout", 1); (str "stderr", 2)] <-> n = console_of name).
Proof.
  intros Hn. unfold console_of.
  assert (str_ok (str "stdin") /\ str_ok (str "stdout") /\ str_ok (str "stderr")) as (H0 & H1 & H2)
    by (split_and!; unfold str_ok; repeat (apply Forall_cons; split; [done |]); by apply Forall_nil).
  rewrite !streq_spec by done. repeat case_bool_decide; subst.
  - right. split; [done |]. intros n. rewrite !elem_of_cons, elem_of_nil. unfold stdin. naive_solver.
  - right. split; [done |]. intros n. rewrite !elem_of_cons, elem_of_nil. unfold stdout. naive_solver.
  - right. split; [done |]. intros n. rewrite !elem_of_cons, elem_of_nil. unfold stderr. naive_solver.
  - left. split; [done |]. intros n. rewrite !elem_of_cons, elem_of_nil. naive_solver.
Qed.

Lemma check_baudrate_spec newval g : is_u32 (g_baudrate g) ->
  let b := (simple_strtoul newval 10).1 in
  check_baudrate newval g = (if bool_decide (b ∈ baudrate_table) then (0, GVars b (load_addr g)) else (1, g)).
Proof.
  intros Hg b. unfold check_baudrate. fold b.
  assert (u32 (s32 b) = b) as ->.
  { pose proof (strtoul_range newval 10) as Hb. fold b in Hb. unfold is_u32 in Hb. unfold wrap, swrap.
    change (2 ^ (32 - 1)) with (2 ^ 31). rewrite <- (Z.mod_small b (2 ^ 32)) at 2 by lia.
    rewrite Zminus_mod_idemp_l. f_equal. lia. }
  assert (existsb (fun b0 => b =? b0) baudrate_table = bool_decide (b ∈ baudrate_table)) as ->.
  { apply eq_bool_prop_intro. rewrite bool_decide_spec, Is_true_true, existsb_exists. split.
    - intros (x & Hx & He). apply Z.eqb_eq in He as <-. by apply list_elem_of_In.
    - intros Hx. exists b. rewrite Z.eqb_refl. by split; [apply list_elem_of_In |]. }
  case_bool_decide; cbn [negb]; [| done].
  destruct (Z.eqb_spec (g_baudrate g) b) as [<- |]; [by destruct g | done].
Qed.

(** ** Reading the environment text *)

(** The entries as they are stored. *)
Definition env_text (l : list pair) : list Z := flat_map (fun e => e.1 ++ EQUALS :: e.2 ++ [0]) l.

(** A variable that can be stored and read back character by character. *)
Definition var_ok (e : pair) : Prop :=
  str_ok e.1 /\ EQUALS ∉ e.1 /\ str_ok e.2.

(** The first variable with a name. *)
Fixpoint lookup_var (name : cstring) (l : list pair) : option cstring :=
  match l with
  | [] => None
  | (k, v) :: l => if bool_decide (k = name) then Some v else lookup_var name l
  end.

Section Text.
Context (CONFIG_ENV_SIZE : Z) (default_environment : list Z) (e : env).
Let data : list Z := if negb (env_valid e =? 0) then env_image e else default_environment.
Abbreviation get_char := (env_get_char default_environment).

Lemma get_char_at i c s : 0 <= i -> drop (Z.to_nat i) data = c :: s ->
  get_char i e = Some c /\ drop (Z.to_nat (i + 1)) data = s.
Proof.
  intros Hi Hd. assert (data !! Z.to_nat i = Some c) as Hl.
  { rewrite <- (Nat.add_0_r (Z.to_nat i)), <- lookup_drop, Hd. done. }
  split.
  - unfold env_get_char, env_get_char_memory, env_get_char_init, env_get_char_spec. fold data.
    unfold data in Hl. by destruct (flg_reloc e), (negb (env_valid e =? 0)).
  - replace (Z.to_nat (i + 1)) with (S (Z.to_nat i)) by lia. rewrite (drop_S data c) in Hd by done. congruence.
Qed.

Lemma envmatch_spec rest : forall name k i, 0 <= i -> drop (Z.to_nat i) data = k ++ EQUALS :: rest ->
  str_ok name -> EQUALS ∉ name -> str_ok k -> EQUALS ∉ k ->
  envmatch default_environment name i e = Some (if bool_decide (k = name) then i + zlen k + 1 else -1).
Proof.
  unfold envmatch. induction name as [| c name IH]; intros k i Hi Hd Hn Hne Hk Hke; cbn [app envmatch_loop].
  - destruct k as [| d k]; cbn [app] in Hd; destruct (get_char_at i _ _ Hi Hd) as [-> Hd']; cbn [mbind option_bind].
    + rewrite bool_decide_true by done. cbn. f_equal. lia.
    + apply Forall_cons in Hk as [Hd0 Hk]. apply not_elem_of_cons in Hke as [Hd1 Hke].
      rewrite bool_decide_false by done. rewrite (proj2 (Z.eqb_neq 0 d)), (proj2 (Z.eqb_neq d EQUALS)) by (done || lia). done.
  - apply Forall_cons in Hn as [Hc0 Hn]. apply not_elem_of_cons in Hne as [Hc1 Hne].
    destruct k as [| d k]; cbn [app] in Hd; destruct (get_char_at i _ _ Hi Hd) as [-> Hd']; cbn [mbind option_bind].
    + rewrite bool_decide_false by done. rewrite (proj2 (Z.eqb_neq c EQUALS)), (proj2 (Z.eqb_neq c 0)) by (done || lia). done.
    + apply Forall_cons in Hk as [Hd0 Hk]. apply not_elem_of_cons in Hke as [Hd1 Hke].
      destruct (Z.eqb_spec c d) as [<- | Hcd].
      * rewrite (proj2 (Z.eqb_neq c EQUALS)) by done. rewrite (IH k (i + 1)) by (done || lia). f_equal.
        repeat case_bool_decide; subst; try done; [cbn [length]; lia | congruence].
      * rewrite bool_decide_false by (intros [=]; congruence). rewrite (proj2 (Z.eqb_neq c 0)) by lia. done.
Qed.

Lemma next_loop_spec rest s : forall fuel i, 0 <= i -> drop (Z.to_nat i) data = s ++ 0 :: rest -> str_ok s ->
  i + zlen s <= CONFIG_ENV_SIZE -> (length s < fuel)%nat ->
  next_loop CONFIG_ENV_SIZE default_environment fuel i e = Some (inl (i + zlen s)).
Proof.
  induction s as [| c s IH]; intros [| fuel] i Hi Hd Hs Hb Hf; cbn [length] in *; try lia; cbn [next_loop app] in *;
    destruct (get_char_at i _ _ Hi Hd) as [-> Hd']; cbn [mbind option_bind].
  - cbn. do 2 f_equal. lia.
  - apply Forall_cons in Hs as [Hc Hs]. rewrite (proj2 (Z.eqb_neq c 0)), (proj2 (Z.leb_gt CONFIG_ENV_SIZE i)) by lia.
    rewrite IH by (done || lia). do 2 f_equal. lia.
Qed.

Lemma copy_loop_spec rest v : forall n i, 0 <= i -> drop (Z.to_nat i) data = v ++ 0 :: rest -> str_ok v ->
  copy_loop default_environment n i e = Some (take n v, (length v <? n)%nat).
Proof.
  induction v as [| c v IH]; intros [| n] i Hi Hd Hv; cbn [copy_loop app] in *; [done | | done |];
    destruct (get_char_at i _ _ Hi Hd) as [-> Hd']; cbn [mbind option_bind]; [done |].
  apply Forall_cons in Hv as [Hc Hv]. rewrite (proj2 (Z.eqb_neq c 0)), IH by (done || lia). done.
Qed.

(** What the caller of [getenv_f] gets for a value. *)
Definition early_value (len : Z) (v : cstring) : Z * option cstring :=
  (Z.min (zlen v) len, Some (if zlen v <? len then v else take (Z.to_nat (len - 1)) v)).

Lemma copy_value_spec rest v len i : 0 < len -> 0 <= i -> drop (Z.to_nat i) data = v ++ 0 :: rest -> str_ok v ->
  copy_value default_environment len i e = Some (early_value len v).
Proof.
  intros Hlen Hi Hd Hv. unfold copy_value, early_value. rewrite (proj2 (Z.leb_gt len 0)) by lia.
  rewrite (copy_loop_spec rest v) by done. cbn [mbind option_bind]. rewrite length_take.
  destruct (Nat.ltb_spec (length v) (Z.to_nat len)), (Z.ltb_spec (zlen v) len); try lia; do 2 f_equal; try lia.
  - by rewrite take_ge by lia.
  - rewrite take_take. do 2 f_equal. lia.
Qed.

Lemma getenv_loop_spec name len pad : str_ok name -> EQUALS ∉ name -> 0 < len ->
  forall l fuel i, 0 <= i -> drop (Z.to_nat i) data = env_text l ++ 0 :: pad -> Forall var_ok l ->
  i + zlen (env_text l) <= CONFIG_ENV_SIZE -> (length l < fuel)%nat ->
  getenv_loop CONFIG_ENV_SIZE default_environment fuel name len i e =
    Some (match lookup_var name l with Some v => early_value len v | None => (-1, None) end).
Proof.
  intros Hn Hne Hlen. induction l as [| [k v] l IH]; intros [| fuel] i Hi Hd Hl Hb Hf; cbn [length] in *; try lia;
    cbn [getenv_loop].
  - destruct (get_char_at i _ _ Hi Hd) as [-> _]. done.
  - apply Forall_cons in Hl as [(Hk & Hke & Hv) Hl]. cbn [fst snd] in *.
    unfold env_text in Hd, Hb. cbn [flat_map fst snd] in Hd, Hb. fold (env_text l) in Hd, Hb. rewrite !length_app in Hb.
    cbn [length] in Hb. rewrite length_app in Hb. cbn [length] in Hb.
    set (line := k ++ EQUALS :: v).
    assert (str_ok line) as Hline by (apply Forall_app; split; [done | by apply Forall_cons]).
    assert (drop (Z.to_nat i) data = line ++ 0 :: env_text l ++ 0 :: pad) as Hd1.
    { rewrite Hd. unfold line. rewrite <- !app_assoc. cbn [app]. by rewrite <- !app_assoc. }
    assert (zlen line = zlen k + 1 + zlen v) as Hll by (unfold line; rewrite length_app; cbn [length]; lia).
    assert (exists c s, line ++ 0 :: env_text l ++ 0 :: pad = c :: s /\ c <> 0) as (c & s & Hcs & Hc0).
    { destruct k as [| c k]; [by eexists EQUALS, _ |]. apply Forall_cons in Hk as [Hc _]. eexists c, _. split; [done | lia]. }
    destruct (get_char_at i c s Hi) as [-> _]; [congruence |]. cbn [mbind option_bind].
    rewrite (proj2 (Z.eqb_neq c 0)) by done.
    rewrite (next_loop_spec (env_text l ++ 0 :: pad) line) by (done || lia). cbn [mbind option_bind].
    rewrite (envmatch_spec (v ++ 0 :: env_text l ++ 0 :: pad) name k)
      by (done || (rewrite Hd1; unfold line; rewrite <- app_assoc; done)).
    cbn [mbind option_bind lookup_var]. case_bool_decide as Hkn.
    + rewrite (proj2 (Z.ltb_ge _ 0)) by lia. apply (copy_value_spec (env_text l ++ 0 :: pad)); [lia | lia | | done].
      replace (Z.to_nat (i + zlen k + 1)) with (Z.to_nat i + (length k + 1))%nat by lia.
      rewrite <- drop_drop, Hd1. unfold line. rewrite <- app_assoc. cbn [app].
      rewrite drop_app_ge by lia.
      replace (length k + 1 - length k)%nat with 1%nat by lia. done.
    + cbn [Z.ltb Z.compare]. apply IH; [lia | | done | lia | lia].
      replace (Z.to_nat (i + zlen line + 1)) with (Z.to_nat i + (length line + 1))%nat by lia.
      rewrite <- drop_drop, Hd1. rewrite drop_app_ge by lia. by replace (length line + 1 - length line)%nat with 1%nat by lia.
Qed.
End Text.

(** ** Importing *)

(** A list of variables that fits the table and can be stored with NUL as the
    separator. *)
Definition storable (l : list pair) (room : Z) : Prop :=
  Forall (fun e => name_ok 0 e.1 /\ value_ok e.2 /\ BACKSLASH ∉ e.2) l /\ NoDup l.*1 /\
  zlen l <= Z.min CONFIG_ENV_MAX_ENTRIES (CONFIG_ENV_MIN_ENTRIES + room / 8).

Lemma storable_text l room : storable l room -> export_text 0 l = env_text l.
Proof.
  intros (Hl & _). induction Hl as [| [k v] l (Hk & [Hv _] & Hb) _ IH]; [done |].
  unfold export_text, env_text in *. cbn [flat_map]. rewrite IH. f_equal. unfold entry_text. cbn [fst snd app] in *.
  rewrite escape_plain; [done |]. apply Forall_forall. intros c Hc. unfold needs_escape.
  unfold str_ok in Hv. rewrite Forall_forall in Hv. specialize (Hv c Hc).
  rewrite (proj2 (Z.eqb_neq c 0)) by lia. apply Z.eqb_neq. by intros ->.
Qed.

Lemma storable_var_ok l room : storable l room -> Forall var_ok l.
Proof.
  intros (Hl & _). apply (Forall_impl _ _ _ Hl). intros [k v] ((Hk & Hne & _) & [Hv _] & _). cbn [fst snd] in *.
  split_and!; [done | | done]. intros Hin. rewrite Forall_forall in Hne. by destruct (Hne EQUALS Hin).
Qed.

Lemma lookup_var_map l name : lookup_var name l = (list_to_map l : gmap cstring cstring) !! name.
Proof.
  induction l as [| [k v] l IH]; [done |]. cbn [lookup_var list_to_map foldr uncurry].
  case_bool_decide as Hk; [subst; by rewrite lookup_insert_eq | by rewrite lookup_insert_ne by done].
Qed.

(** A table whose variables can be stored in [sz] bytes. *)
Definition storable_table (t : list slot) (sz : Z) : Prop :=
  (forall k v, abs t !! k = Some v -> name_ok 0 k /\ value_ok v /\ BACKSLASH ∉ v) /\
  Z.of_nat (base.size (abs t)) <= Z.min CONFIG_ENV_MAX_ENTRIES (CONFIG_ENV_MIN_ENTRIES + sz / 8).

(** The export of such a table: it does not fit, or it is the text of its
    variables. *)
Lemma export_storable h t sz w : hwf h t -> storable_table t sz -> 0 < sz ->
  hexport_r h 0 (Some sz) sz [] w = Some (-1, None, set_errno ENOMEM w) \/
  exists l n, let data := env_text l ++ replicate (S n) 0 in
    hexport_r h 0 (Some sz) sz [] w = Some (sz, Some data, w) /\
    zlen data = sz /\ storable l (zlen data) /\ is_bytes data /\ list_to_map l = abs t.
Proof.
  intros Hwf [Hvars Hcount] Hsz. pose proof (ok_keys _ _ (proj1 (proj2 Hwf))) as Hnd.
  assert (Forall (fun e : pair => name_ok 0 e.1 /\ value_ok e.2 /\ BACKSLASH ∉ e.2) (entries t)) as Hall.
  { apply Forall_forall. intros [k v] Hin. apply (Hvars k v). by apply elem_of_list_to_map. }
  assert (counted 0 (entries t)) as Hc.
  { right. apply (Forall_impl _ _ _ Hall). by intros e (_ & [Hv _] & Hb). }
  destruct (hexport_spec h t 0 [] sz w Hwf) as (lst & Hp & Hroom & He); [by rewrite chosen_all |].
  rewrite chosen_all in *. rewrite (proj2 (Z.eqb_neq sz 0)) in He by lia. cbn [orb] in He.
  destruct (Z.ltb_spec sz (total_room 0 (entries t) + 1)) as [| Hfit]; [by left | right].
  destruct (Z.to_nat sz - length (export_text 0 lst))%nat as [| n] eqn:Hn; [lia |].
  assert (storable lst sz) as Hs.
  { split_and!; [by rewrite Hp | by rewrite Hp |]. rewrite (Permutation_length Hp), <- abs_size by done. done. }
  assert (export_text 0 lst = env_text lst) as Htext by (by apply (storable_text lst sz)).
  assert (zlen (env_text lst ++ replicate (S n) 0) = sz) as Hlen.
  { rewrite length_app, length_replicate, <- Htext. lia. }
  exists lst, n. cbn zeta. rewrite Htext in He. split_and!; [done | done | by rewrite Hlen | |].
  - apply Forall_app. split; [| by apply Forall_replicate]. rewrite <- Htext. apply export_text_bytes; [done |].
    rewrite Hp. apply (Forall_impl _ _ _ Hall). by intros e ((? & _) & [? _] & _).
  - symmetry. apply entries_perm_abs; [done | by rewrite Hp].
Qed.

Section ImportEnv.
Context (CONFIG_ENV_SIZE : Z) (default_environment : list Z) (env_overwrite : bool).
Context (console_assign : Z -> cstring -> Z).

Definition usable (e : env) : Prop :=
  (table (env_htab e) = None \/ exists t, hwf (env_htab e) t) /\ allocs (surroundings e) = [].

(** The state after variables [l] were imported. *)
Definition imported (e e' : env) (l : list pair) : Prop :=
  exists t, env_wf e' t /\ abs t = list_to_map l /\ globals e' = globals e /\ flg_env_ready e' = true.

Lemma with_effects_quiet e w h : applied w = applied (surroundings e) -> 
  with_effects env_overwrite console_assign e w h = set_table e w h.
Proof.
  intros Ha. unfold with_effects, new_calls. rewrite Ha, Nat.sub_diag. cbn. by destruct e.
Qed.

Lemma import_env l n e : usable e -> storable l (zlen (env_text l ++ replicate (S n) 0)) -> exists e' w h,
  himport_r (apply_env env_overwrite console_assign) (env_text l ++ replicate (S n) 0) 0 0 [] false
    (surroundings e) (env_htab e) = Some (1, w, h) /\
  e' = set_env_ready (with_effects env_overwrite console_assign e w h) /\ imported e e' l.
Proof.
  intros [Hh Hw] Hs. pose proof Hs as (Hl & Hnd & Hroom). rewrite <- (storable_text l _ Hs) in *.
  destruct (himport_text (apply_env env_overwrite console_assign) 0 l n (surroundings e) (env_htab e))
    as (w' & h' & t' & Hi & Hwf & Ha & Hal & Hap); [done | done | done | | done | done |].
  { apply (Forall_impl _ _ _ Hl). by intros x (? & ? & _). }
  exists (set_env_ready (with_effects env_overwrite console_assign e w' h')), w', h'. split; [done |]. split; [done |].
  rewrite with_effects_quiet by done. exists t'. done.
Qed.

(** The default environment can be imported. *)
Definition default_ok (dl : list pair) : Prop :=
  exists n, default_environment = env_text dl ++ replicate (S n) 0 /\ storable dl (zlen default_environment) /\
    zlen default_environment <= ENV_SIZE CONFIG_ENV_SIZE.

Lemma set_default_env_spec dl s e : usable e -> default_ok dl -> (s = None \/ exists r, s = Some (EXCLAMATION :: r)) ->
  exists e', set_default_env CONFIG_ENV_SIZE default_environment env_overwrite console_assign s e = Some e' /\ imported e e' dl.
Proof.
  intros Hu (n & Hd & Hs & Hle) Hm. unfold set_default_env. rewrite (proj2 (Z.ltb_ge _ _)) by done.
  rewrite Hd in Hs. destruct (import_env dl n e Hu Hs) as (e' & w & h & Hi & -> & Him). rewrite <- Hd in Hi.
  destruct Hm as [-> | [r ->]]; [| change (negb (EXCLAMATION =? EXCLAMATION)) with false]; rewrite Hi; cbn [mbind option_bind]; by eexists.
Qed.

Lemma import_data_spec l n e : usable e -> storable l (zlen (env_text l ++ replicate (S n) 0)) -> exists e',
  import_data CONFIG_ENV_SIZE default_environment env_overwrite console_assign (env_text l ++ replicate (S n) 0) e = Some (1, e') /\
  imported e e' l.
Proof.
  intros Hu Hs. unfold import_data. destruct (import_env l n e Hu Hs) as (e' & w & h & -> & -> & Him).
  cbn [mbind option_bind]. by eexists.
Qed.
End ImportEnv.

(** ** The theorems *)

(** [str_lits] proves that literal strings are strings. *)
Ltac str_lits := unfold str_ok; repeat (apply Forall_cons; split; [done |]); by apply Forall_nil.

(** What may be changed: [env_check_apply] refuses exactly to delete a device
    variable or to set it to something that is not a device, to change the
    write-once variables "serial#" and "ethaddr" (without CONFIG_ENV_OVERWRITE
    and without force), and to set an unsupported baud rate; a refused change
    has no effect, and an accepted one sets the baud rate or the load address
    and nothing else. *)
Theorem env_check_apply_correct env_overwrite console_assign name old new flag g :
  str_ok name -> is_u32 (g_baudrate g) ->
  let newval := default [] new in
  exists r g', env_check_apply env_overwrite console_assign name old new flag g = (r, g') /\
    ((r = 1 /\ g' = g /\
      (bad_console console_assign name new \/ write_once env_overwrite name old flag \/ bad_baudrate name old new flag)) \/
     (r = 0 /\ ~ bad_console console_assign name new /\ ~ write_once env_overwrite name old flag /\
      ~ bad_baudrate name old new flag /\
      (baud_change name old flag -> g' = GVars (simple_strtoul newval 10).1 (load_addr g)) /\
      (name = str "loadaddr" -> g' = GVars (g_baudrate g) (simple_strtoul newval 16).1) /\
      (~ baud_change name old flag -> name <> str "loadaddr" -> g' = g))).
Proof.
  intros Hn Hg newval. unfold env_check_apply. fold newval.
  set (refused := _ && ((zlen newval =? 0) || _)).
  assert (if refused then bad_console console_assign name new else ~ bad_console console_assign name new) as Hcon.
  { unfold refused, bad_console. fold newval. destruct (console_of_spec name Hn) as [[Hc Hno] | [Hc Hiff]].
    - rewrite Hc. cbn. intros (n & Hin & _). by apply (Hno n).
    - rewrite (proj2 (Z.eqb_neq _ _) Hc). cbn [negb andb].
      destruct (zlen newval =? 0) eqn:Hz; cbn [orb].
      { apply Z.eqb_eq in Hz. exists (console_of name). split; [by apply Hiff |]. left. by destruct newval. }
      apply Z.eqb_neq in Hz. destruct (Z.ltb_spec (console_assign (console_of name) newval) 0) as [Hlt | Hge].
      + exists (console_of name). split; [by apply Hiff | by right].
      + intros (n & Hin%Hiff & [He | Hlt]); [by rewrite He in Hz |]. subst n. lia. }
  destruct refused; [exists 1, g; split; [done |]; left; by auto |].
  rewrite !streq_spec by (done || str_lits).
  set (once := negb env_overwrite && _ && _ && _).
  assert (if once then write_once env_overwrite name old flag else ~ write_once env_overwrite name old flag) as Honce.
  { unfold once, write_once, forced. destruct env_overwrite; cbn [negb andb]; [by intros (? & _) |].
    case_bool_decide as Hold; cbn [andb]; [| by intros (_ & ? & _)].
    destruct (Z.eqb_spec (Z.land flag H_FORCE) 0) as [Hf | Hf]; cbn [andb]; [| by intros (_ & _ & [] & _)].
    repeat case_bool_decide; cbn [orb]; naive_solver. }
  destruct once; [exists 1, g; split; [done |]; left; by auto |].
  set (baud := (bool_decide (is_Some old) || _) && _).
  assert (if baud then baud_change name old flag else ~ baud_change name old flag) as Hbaud.
  { unfold baud, baud_change, cleared. repeat case_bool_decide; destruct (Z.eqb_spec (Z.land flag H_NOCLEAR) 0);
      cbn [orb andb]; naive_solver. }
  destruct baud.
  - rewrite check_baudrate_spec by done. unfold bad_baudrate. fold newval. case_bool_decide as Hin.
    + do 2 eexists. split; [done |]. right. split_and!; try done; [by intros [_ ?] |]. destruct Hbaud as [-> _]. intros Hx. discriminate Hx.
    + do 2 eexists. split; [done |]. left. by auto 10.
  - case_bool_decide as Hla; do 2 eexists; (split; [done |]); right; unfold bad_baudrate; split_and!; try done; naive_solver.
Qed.

(** C5: The environment commands implement a map of variables: every sequence of
    [setenv] commands and calls, deletions and [getenv] lookups returns what the
    same sequence on a finite map from names to values returns, where a name
    with '=' and a change that [env_check_apply] refuses are errors without
    effect, the arguments of a command are joined with blanks, an empty value
    deletes and deleting an undefined variable is an error, as long as the table
    has room and memory is available. *)
Theorem env_refines_map CONFIG_ENV_SIZE default_environment env_overwrite console_assign ops e t :
  env_wf e t -> flg_env_ready e = true -> Forall (fun o => str_ok (envop_name o)) ops ->
  occupied t + zlen ops <= size (env_htab e) ->
  exists rs m g e' t',
    spec_env env_overwrite console_assign ops (abs t) (globals e) = (rs, m, g) /\
    run_env CONFIG_ENV_SIZE default_environment env_overwrite console_assign ops e = Some (rs, e') /\
    env_wf e' t' /\ abs t' = m /\ globals e' = g.
Proof.
  intros Hwf Hr Hk Hroom.
  pose proof (run_env_refines CONFIG_ENV_SIZE default_environment env_overwrite console_assign ops e t Hwf Hr Hk Hroom) as H.
  destruct (spec_env _ _ _ _ _) as [[rs m] g]. destruct H as (e' & t' & H). by exists rs, m, g, e', t'.
Qed.

(** Loading a stored environment: [env_import] makes exactly the variables of
    the stored text available when the checksum is right; with a wrong checksum
    nothing of the text is used, the environment becomes the default one and 0
    is returned.  In both cases the environment is ready afterwards, and no
    change is applied to the system. *)
Theorem env_import_correct CONFIG_ENV_SIZE default_environment env_overwrite console_assign addr buf l n dl e :
  usable e -> default_ok CONFIG_ENV_SIZE default_environment dl -> is_bytes buf ->
  ep_data CONFIG_ENV_SIZE buf = env_text l ++ replicate (S n) 0 -> storable l (zlen (ep_data CONFIG_ENV_SIZE buf)) ->
  exists e', if decide (Crc32.crc32 0 (addr + 4) (ep_data CONFIG_ENV_SIZE buf) = ep_crc buf) then
    env_import CONFIG_ENV_SIZE default_environment env_overwrite console_assign addr buf true e = Some (1, e') /\ imported e e' l
  else
    env_import CONFIG_ENV_SIZE default_environment env_overwrite console_assign addr buf true e = Some (0, e') /\ imported e e' dl.
Proof.
  intros Hu Hdef Hb Hdata Hs. unfold env_import. cbn [andb]. rewrite Hdata in *.
  case_decide as Hcrc.
  - rewrite Hcrc, Z.eqb_refl. cbn [negb].
    by apply import_data_spec.
  - rewrite (proj2 (Z.eqb_neq _ _) Hcrc). cbn [negb].
    destruct (set_default_env_spec CONFIG_ENV_SIZE default_environment env_overwrite console_assign dl
      (Some (str "!bad CRC")) e Hu Hdef) as (e' & -> & Him); [right; by eexists |]. cbn [mbind option_bind]. by exists e'.
Qed.

(** Before the table exists, [getenv] reads the environment text: it finds the
    value of the first variable with the name, cut to the 31 characters of its
    buffer, and nothing for an undefined name; so for a value that fits the
    buffer the answer is the one that [getenv] gives from the table after the
    import of the same text. *)
Theorem getenv_early_late CONFIG_ENV_SIZE default_environment env_overwrite console_assign name l n e :
  flg_env_ready e = false -> env_valid e <> 0 -> env_image e = env_text l ++ replicate (S n) 0 ->
  zlen (env_image e) <= CONFIG_ENV_SIZE -> storable l (zlen (env_image e)) -> usable e ->
  str_ok name -> EQUALS ∉ name ->
  exists v e1, getenv CONFIG_ENV_SIZE default_environment name e = Some (v, e1) /\
    v = (fun d => take 31 d) <$> lookup_var name l /\
  exists e2 w h e3, himport_r (apply_env env_overwrite console_assign) (env_image e) 0 0 [] false
      (surroundings e) (env_htab e) = Some (1, w, h) /\
    e2 = set_env_ready (with_effects env_overwrite console_assign e w h) /\
    getenv CONFIG_ENV_SIZE default_environment name e2 = Some (lookup_var name l, e3) /\
    (forall d, lookup_var name l = Some d -> zlen d < 32 -> v = Some d).
Proof.
  intros Hr Hv Himg Hsz Hs Hu Hn Hne. rewrite Himg in Hs.
  destruct (import_env env_overwrite console_assign l n e Hu Hs) as (e2 & w & h & Hi & He2 & t & Hwf & Ha & _ & Hr2).
  destruct (getenv_ready CONFIG_ENV_SIZE default_environment e2 t name Hwf Hr2 Hn) as (e3 & Hg & _).
  rewrite Ha, <- lookup_var_map in Hg.
  assert (Forall (fun e : pair => value_ok e.2) l) as Hvals.
  { destruct Hs as (Hl & _). apply (Forall_impl _ _ _ Hl). by intros x (_ & ? & _). }
  assert (getenv_f CONFIG_ENV_SIZE default_environment name sizeof_env_buf e =
    Some (match lookup_var name l with Some v => early_value 32 v | None => (-1, None) end)) as Hf.
  { apply (getenv_loop_spec CONFIG_ENV_SIZE default_environment e name 32 (replicate n 0)); try done.
    - rewrite (proj2 (Z.eqb_neq (env_valid e) 0)) by done. exact Himg.
    - by apply (storable_var_ok l _ Hs).
    - rewrite Himg, length_app in Hsz. lia.
    - rewrite Himg, length_app in Hsz.
      assert (length l <= length (env_text l))%nat; [| lia].
      clear. induction l as [| [k v] l IH]; [done |]. unfold env_text in *. cbn [flat_map length]. rewrite length_app.
      cbn [fst snd]. rewrite length_app. cbn [length]. lia. }
  unfold getenv at 1. rewrite Hr, Hf. cbn [mbind option_bind].
  assert (forall d, lookup_var name l = Some d -> value_ok d) as Hd.
  { intros d Hd. clear -Hvals Hd. induction Hvals as [| [k v] l Hv _ IH]; [done |]. cbn [lookup_var] in Hd.
    case_bool_decide; [by injection Hd as <- | by apply IH]. }
  destruct (lookup_var name l) as [d |].
  - destruct (Hd d eq_refl) as [_ Hne0]. unfold early_value. assert (0 < zlen d) by (destruct d; [done | cbn; lia]).
    rewrite (proj2 (Z.ltb_lt 0 _)) by lia. do 2 eexists. split; [done |]. cbn [env_buf set_env_buf fmap option_fmap option_map].
    change (Z.to_nat (32 - 1)) with 31%nat.
    split; [destruct (Z.ltb_spec (zlen d) 32); by rewrite ?(take_ge d) by lia |].
    exists e2, w, h, e3. rewrite Himg. split_and!; try done.
    intros d' [= <-] Hlt. by rewrite (proj2 (Z.ltb_lt (zlen d) 32)).
  - do 2 eexists. split; [done |]. split; [done |]. exists e2, w, h, e3. rewrite Himg. by split_and!.
Qed.

(** ** Examples *)

Module EnvExamples.
Import HashtableExamples.

Definition no_console (n : Z) (dev : cstring) : Z := -1.

(** An environment with an empty table. *)
Definition fresh_env : env := EnvState empty5 calm 1 (GVars 115200 0x70000000) true true 1 [] [].

Definition ops : list envop :=
  [SetCmd (str "bootcmd") [str "run"; str "ubi_boot"]; SetVar (str "loadaddr") (Some (str "60008000"));
   GetVar (str "bootcmd"); SetVar (str "loadaddr") None].

Lemma env_refines_map_witness : exists rs m g e' t',
  spec_env true no_console ops (abs (fresh_table 5)) (GVars 115200 0x70000000) = (rs, m, g) /\
  run_env 64 [] true no_console ops fresh_env = Some (rs, e') /\ env_wf e' t' /\ abs t' = m /\ globals e' = g.
Proof.
  apply (env_refines_map 64 [] true no_console ops fresh_env (fresh_table 5)).
  - split; [apply empty5_wf | reflexivity].
  - reflexivity.
  - repeat (apply Forall_cons; split; [cbn [envop_name]; str_lits |]). by apply Forall_nil.
  - vm_compute. discriminate.
Defined.

Lemma env_check_apply_correct_witness : exists r g',
  env_check_apply false no_console (str "ethaddr") (Some (str "00:18:0a:00:00:01")) (Some (str "x")) 1 (GVars 115200 0) = (r, g') /\
  r = 1.
Proof.
  destruct (env_check_apply_correct false no_console (str "ethaddr") (Some (str "00:18:0a:00:00:01")) (Some (str "x")) 1 (GVars 115200 0))
    as (r & g' & H & [(Hr & _) | (_ & _ & Hno & _)]); [str_lits | done | by exists r, g' |].
  exfalso. apply Hno. split_and!; [done | by eexists | by intros Hf; apply Hf | by right].
Defined.

Definition stored : list pair := [(str "bootdelay", str "3"); (str "baudrate", str "115200")].
Definition defaults : list pair := [(str "bootdelay", str "10")].
Definition data : list Z := env_text stored ++ replicate 32 0.
Definition default_text : list Z := env_text defaults ++ [0].

(** An environment that was not imported yet. *)
Definition early_env : env := EnvState no_table calm 1 (GVars 115200 0) false false 1 data [].

Lemma var_lits k v : k <> [] -> v <> [] ->
  forallb (fun c => (0 <? c) && (c <? 256) && negb (c =? EQUALS) && negb (isblank c) && negb (c =? HASH)) k = true ->
  forallb (fun c => (0 <? c) && (c <? 256) && negb (c =? BACKSLASH)) v = true ->
  name_ok 0 k /\ value_ok v /\ BACKSLASH ∉ v.
Proof.
  intros Hk Hv Hfk Hfv. rewrite forallb_forall in Hfk, Hfv.
  assert (forall c, c ∈ k -> 0 < c < 256 /\ c <> EQUALS /\ isblank c = false /\ c <> HASH) as Hck.
  { intros c Hc%list_elem_of_In. specialize (Hfk c Hc). rewrite !andb_true_iff, !negb_true_iff in Hfk.
    destruct Hfk as ((((H1 & H2) & H3) & H4) & H5). apply Z.ltb_lt in H1, H2. apply Z.eqb_neq in H3, H5. done. }
  assert (forall c, c ∈ v -> 0 < c < 256 /\ c <> BACKSLASH) as Hcv.
  { intros c Hc%list_elem_of_In. specialize (Hfv c Hc). rewrite !andb_true_iff, !negb_true_iff in Hfv.
    destruct Hfv as ((H1 & H2) & H3). apply Z.ltb_lt in H1, H2. apply Z.eqb_neq in H3. done. }
  unfold name_ok, value_ok. split_and!; [| | | | done |].
  - apply Forall_forall. intros c Hc. by apply Hck.
  - apply Forall_forall. intros c Hc. destruct (Hck c Hc) as (? & ? & _). split; [done | lia].
  - destruct k as [| c k]; [done |]. destruct (Hck c) as (_ & _ & ? & ?); [by left |]. done.
  - apply Forall_forall. intros c Hc. by apply Hcv.
  - intros Hb. by destruct (Hcv _ Hb).
Qed.

Lemma stored_storable room : 0 <= room -> storable stored room.
Proof.
  intros Hr. split_and!.
  - repeat (apply Forall_cons; split; [by apply var_lits |]). by apply Forall_nil.
  - apply NoDup_cons. split; [by rewrite list_elem_of_singleton |]. apply NoDup_singleton.
  - pose proof (Z.div_pos room 8 Hr ltac:(lia)). unfold CONFIG_ENV_MAX_ENTRIES, CONFIG_ENV_MIN_ENTRIES. cbn. lia.
Qed.

Lemma defaults_ok : default_ok 64 default_text defaults.
Proof.
  exists 0%nat. split; [reflexivity |]. split; [| vm_compute; discriminate].
  split_and!; [| apply NoDup_singleton | vm_compute; discriminate].
  apply Forall_cons. split; [by apply var_lits | by apply Forall_nil].
Qed.

Definition crc_bytes (v : Z) : list Z := [u8 v; u8 (v / 2 ^ 8); u8 (v / 2 ^ 16); u8 (v / 2 ^ 24)].
Definition good_block : list Z := crc_bytes (Crc32.crc32 0 0 data) ++ data.

Lemma env_import_correct_witness : exists e',
  env_import 64 default_text true no_console 0x1000 good_block true early_env = Some (1, e') /\ imported early_env e' stored.
Proof.
  destruct (env_import_correct 64 default_text true no_console 0x1000 good_block stored 31 defaults early_env) as (e' & H).
  - split; [by left | reflexivity].
  - apply defaults_ok.
  - vm_compute. repeat constructor; discriminate.
  - vm_compute. reflexivity.
  - apply stored_storable. lia.
  - exists e'. case_decide as Hc; [exact H |]. exfalso. apply Hc. vm_compute. reflexivity.
Defined.

Lemma getenv_early_late_witness : exists v e1,
  getenv 64 default_text (str "baudrate") early_env = Some (v, e1) /\ v = Some (str "115200").
Proof.
  destruct (getenv_early_late 64 default_text true no_console (str "baudrate") stored 31 early_env)
    as (v & e1 & H & Hv & _).
  - reflexivity.
  - done.
  - reflexivity.
  - vm_compute. discriminate.
  - apply stored_storable. lia.
  - split; [by left | reflexivity].
  - str_lits.
  - apply (bool_decide_unpack _). vm_compute. exact I.
  - exists v, e1. split; [exact H | exact Hv].
Defined.

End EnvExamples.
