(* ===== verification/NandEcc.v ===== *)
(** * The error correcting code of NAND pages (drivers/mtd/nand/nand_ecc.c)

    A block of 256 bytes is protected by 22 parity bits in three bytes: six
    column parities over the bit positions and sixteen line parities over the
    byte numbers.  [nand_calculate_ecc] computes them with a table,
    [nand_correct_data] compares the stored with the calculated code and flips
    the bit that is wrong.

    The theorems are the ones of a code that corrects one error and detects two,
    for errors in the data and in the stored code.  They rest on the linearity of
    the code: flipping a bit of the data changes the code by a pattern that
    depends on the position of the bit only. *)

From S2P Require Import Prelude.

(** Pre-calculated 256-way 1 byte column parity. *)
Definition nand_ecc_precalc_table : list Z :=
  [0x00; 0x55; 0x56; 0x03; 0x59; 0x0c; 0x0f; 0x5a; 0x5a; 0x0f; 0x0c; 0x59; 0x03; 0x56; 0x55; 0x00;
   0x65; 0x30; 0x33; 0x66; 0x3c; 0x69; 0x6a; 0x3f; 0x3f; 0x6a; 0x69; 0x3c; 0x66; 0x33; 0x30; 0x65;
   0x66; 0x33; 0x30; 0x65; 0x3f; 0x6a; 0x69; 0x3c; 0x3c; 0x69; 0x6a; 0x3f; 0x65; 0x30; 0x33; 0x66;
   0x03; 0x56; 0x55; 0x00; 0x5a; 0x0f; 0x0c; 0x59; 0x59; 0x0c; 0x0f; 0x5a; 0x00; 0x55; 0x56; 0x03;
   0x69; 0x3c; 0x3f; 0x6a; 0x30; 0x65; 0x66; 0x33; 0x33; 0x66; 0x65; 0x30; 0x6a; 0x3f; 0x3c; 0x69;
   0x0c; 0x59; 0x5a; 0x0f; 0x55; 0x00; 0x03; 0x56; 0x56; 0x03; 0x00; 0x55; 0x0f; 0x5a; 0x59; 0x0c;
   0x0f; 0x5a; 0x59; 0x0c; 0x56; 0x03; 0x00; 0x55; 0x55; 0x00; 0x03; 0x56; 0x0c; 0x59; 0x5a; 0x0f;
   0x6a; 0x3f; 0x3c; 0x69; 0x33; 0x66; 0x65; 0x30; 0x30; 0x65; 0x66; 0x33; 0x69; 0x3c; 0x3f; 0x6a;
   0x6a; 0x3f; 0x3c; 0x69; 0x33; 0x66; 0x65; 0x30; 0x30; 0x65; 0x66; 0x33; 0x69; 0x3c; 0x3f; 0x6a;
   0x0f; 0x5a; 0x59; 0x0c; 0x56; 0x03; 0x00; 0x55; 0x55; 0x00; 0x03; 0x56; 0x0c; 0x59; 0x5a; 0x0f;
   0x0c; 0x59; 0x5a; 0x0f; 0x55; 0x00; 0x03; 0x56; 0x56; 0x03; 0x00; 0x55; 0x0f; 0x5a; 0x59; 0x0c;
   0x69; 0x3c; 0x3f; 0x6a; 0x30; 0x65; 0x66; 0x33; 0x33; 0x66; 0x65; 0x30; 0x6a; 0x3f; 0x3c; 0x69;
   0x03; 0x56; 0x55; 0x00; 0x5a; 0x0f; 0x0c; 0x59; 0x59; 0x0c; 0x0f; 0x5a; 0x00; 0x55; 0x56; 0x03;
   0x66; 0x33; 0x30; 0x65; 0x3f; 0x6a; 0x69; 0x3c; 0x3c; 0x69; 0x6a; 0x3f; 0x65; 0x30; 0x33; 0x66;
   0x65; 0x30; 0x33; 0x66; 0x3c; 0x69; 0x6a; 0x3f; 0x3f; 0x6a; 0x69; 0x3c; 0x66; 0x33; 0x30; 0x65;
   0x00; 0x55; 0x56; 0x03; 0x59; 0x0c; 0x0f; 0x5a; 0x5a; 0x0f; 0x0c; 0x59; 0x03; 0x56; 0x55; 0x00].

Definition EBADMSG : Z := 74.

Section Ecc.
(** CONFIG_MTD_NAND_ECC_SMC: the byte order of Smart Media. *)
Context (smc : bool).

(** ** Calculation *)

Record regs := Regs { reg1 : Z; reg2 : Z; reg3 : Z }.

Definition precalc (b : Z) : Z := default 0 (nand_ecc_precalc_table !! Z.to_nat b).

(** One round of the column parity loop, for the byte [b] with number [i]. *)
Definition ecc_byte (i b : Z) (r : regs) : regs :=
  let idx := precalc b in
  let r1 := reg1 r ⊕ (idx & 0x3f) in
  if negb (idx & 0x40 =? 0) then Regs r1 (reg2 r ⊕ u8 (Z.lnot (u8 i))) (reg3 r ⊕ u8 i)
  else Regs r1 (reg2 r) (reg3 r).

Fixpoint ecc_loop (i : Z) (dat : list Z) (r : regs) : regs :=
  match dat with
  | [] => r
  | b :: dat => ecc_loop (i + 1) dat (ecc_byte i b r)
  end.

Definition line_parity1 (r : regs) : Z :=
  let tmp1 := u8 (Z.shiftr (reg3 r & 0x80) 0) in
  let tmp1 := u8 (Z.lor tmp1 (Z.shiftr (reg2 r & 0x80) 1)) in
  let tmp1 := u8 (Z.lor tmp1 (Z.shiftr (reg3 r & 0x40) 1)) in
  let tmp1 := u8 (Z.lor tmp1 (Z.shiftr (reg2 r & 0x40) 2)) in
  let tmp1 := u8 (Z.lor tmp1 (Z.shiftr (reg3 r & 0x20) 2)) in
  let tmp1 := u8 (Z.lor tmp1 (Z.shiftr (reg2 r & 0x20) 3)) in
  let tmp1 := u8 (Z.lor tmp1 (Z.shiftr (reg3 r & 0x10) 3)) in
  u8 (Z.lor tmp1 (Z.shiftr (reg2 r & 0x10) 4)).

Definition line_parity2 (r : regs) : Z :=
  let tmp2 := u8 (Z.shiftl (reg3 r & 0x08) 4) in
  let tmp2 := u8 (Z.lor tmp2 (Z.shiftl (reg2 r & 0x08) 3)) in
  let tmp2 := u8 (Z.lor tmp2 (Z.shiftl (reg3 r & 0x04) 3)) in
  let tmp2 := u8 (Z.lor tmp2 (Z.shiftl (reg2 r & 0x04) 2)) in
  let tmp2 := u8 (Z.lor tmp2 (Z.shiftl (reg3 r & 0x02) 2)) in
  let tmp2 := u8 (Z.lor tmp2 (Z.shiftl (reg2 r & 0x02) 1)) in
  let tmp2 := u8 (Z.lor tmp2 (Z.shiftl (reg3 r & 0x01) 1)) in
  u8 (Z.lor tmp2 (Z.shiftl (reg2 r & 0x01) 0)).

(** The three bytes of [ecc_code]. *)
Definition code : Type := Z * Z * Z.

Definition final_code (r : regs) : code :=
  let tmp1 := line_parity1 r in
  let tmp2 := line_parity2 r in
  let c2 := u8 (Z.lor (Z.shiftl (Z.lnot (reg1 r)) 2) 0x03) in
  if smc then (u8 (Z.lnot tmp2), u8 (Z.lnot tmp1), c2) else (u8 (Z.lnot tmp1), u8 (Z.lnot tmp2), c2).

Definition nand_calculate_ecc (dat : list Z) : code :=
  final_code (ecc_loop 0 (take 256 dat) (Regs 0 0 0)).

(** ** Correction *)

(** [for (; byte; byte >>= 1) res += byte & 0x01;] on a 32-bit value. *)
Fixpoint countbits_loop (n : nat) (byte res : Z) : Z :=
  match n with
  | O => res
  | S n => if byte =? 0 then res else countbits_loop n (Z.shiftr byte 1) (res + (byte & 1))
  end.
Definition countbits (byte : Z) : Z := countbits_loop 32 byte 0.

(** [s0], [s1] and [s2]. *)
Definition syndrome (read_ecc calc_ecc : code) : code :=
  let '(r0, r1, r2) := read_ecc in
  let '(c0, c1, c2) := calc_ecc in
  if smc then (c0 ⊕ r0, c1 ⊕ r1, c2 ⊕ r2) else (c1 ⊕ r1, c0 ⊕ r0, c2 ⊕ r2).

Definition single_bit_error (s : code) : bool :=
  let '(s0, s1, s2) := s in
  (((s0 ⊕ Z.shiftr s0 1) & 0x55) =? 0x55) && (((s1 ⊕ Z.shiftr s1 1) & 0x55) =? 0x55)
  && (((s2 ⊕ Z.shiftr s2 1) & 0x54) =? 0x54).

Definition error_byteoffs (s : code) : Z :=
  let '(s0, s1, s2) := s in
  let byteoffs := Z.shiftl s1 0 & 0x80 in
  let byteoffs := Z.lor byteoffs (Z.shiftl s1 1 & 0x40) in
  let byteoffs := Z.lor byteoffs (Z.shiftl s1 2 & 0x20) in
  let byteoffs := Z.lor byteoffs (Z.shiftl s1 3 & 0x10) in
  let byteoffs := Z.lor byteoffs (Z.shiftr s0 4 & 0x08) in
  let byteoffs := Z.lor byteoffs (Z.shiftr s0 3 & 0x04) in
  let byteoffs := Z.lor byteoffs (Z.shiftr s0 2 & 0x02) in
  Z.lor byteoffs (Z.shiftr s0 1 & 0x01).

Definition error_bitnum (s : code) : Z :=
  let '(s0, s1, s2) := s in
  let bitnum := Z.shiftr s2 5 & 0x04 in
  let bitnum := Z.lor bitnum (Z.shiftr s2 4 & 0x02) in
  Z.lor bitnum (Z.shiftr s2 3 & 0x01).

(** [dat[n] ^= (1 << k)]. *)
Definition flip_bit (n k : Z) (dat : list Z) : list Z := alter (fun b => u8 (b ⊕ Z.shiftl 1 k)) (Z.to_nat n) dat.

(** The return value and the data. *)
Definition nand_correct_data (dat : list Z) (read_ecc calc_ecc : code) : Z * list Z :=
  let s := syndrome read_ecc calc_ecc in
  let '(s0, s1, s2) := s in
  if Z.lor (Z.lor s0 s1) s2 =? 0 then (0, dat)
  else if single_bit_error s then (1, flip_bit (error_byteoffs s) (error_bitnum s) dat)
  else if countbits (Z.lor (Z.lor s0 (Z.shiftl s1 8)) (Z.shiftl s2 16)) =? 1 then (1, dat)
  else (- EBADMSG, dat).

End Ecc.

(** ** Linearity *)

Lemma land_lxor_distr a b m : (a ⊕ b) & m = (a & m) ⊕ (b & m).
Proof. zbits. by destruct (Z.testbit a i), (Z.testbit b i), (Z.testbit m i). Qed.

Definition rxor (r d : regs) : regs := Regs (reg1 r ⊕ reg1 d) (reg2 r ⊕ reg2 d) (reg3 r ⊕ reg3 d).
Definition cxor (a b : code) : code := (a.1.1 ⊕ b.1.1, a.1.2 ⊕ b.1.2, a.2 ⊕ b.2).

(** How the registers change when bit [k] of byte [n] is flipped. *)
Definition delta (n k : Z) : regs := Regs (precalc (2 ^ k) & 0x3f) (u8 (Z.lnot n)) n.

(** The change of the syndrome that belongs to a change of the registers. *)
Definition pattern (d : regs) : code := (line_parity2 d, line_parity1 d, u8 (Z.shiftl (reg1 d) 2)).

Lemma rxor_comm3 r a b : rxor (rxor r a) b = rxor (rxor r b) a.
Proof. unfold rxor; cbn. f_equal; rewrite !Z.lxor_assoc; f_equal; apply Z.lxor_comm. Qed.

(** A byte adds a value that does not depend on the registers. *)
Lemma ecc_byte_rxor i b r d : ecc_byte i b (rxor r d) = rxor (ecc_byte i b r) d.
Proof.
  unfold ecc_byte. destruct (negb _); unfold rxor; cbn; f_equal; try done; rewrite !Z.lxor_assoc; f_equal; apply Z.lxor_comm.
Qed.

Lemma ecc_loop_rxor d : forall dat i r, ecc_loop i dat (rxor r d) = rxor (ecc_loop i dat r) d.
Proof. induction dat as [| b dat IH]; intros i r; cbn [ecc_loop]; [done |]. by rewrite ecc_byte_rxor, IH. Qed.

(** The table is linear, and every bit has odd parity. *)
Lemma precalc_flip b k : 0 <= b < 256 -> 0 <= k < 8 ->
  precalc (b ⊕ 2 ^ k) = precalc b ⊕ precalc (2 ^ k) /\ precalc (2 ^ k) & 0x40 = 0x40 /\ 0 <= b ⊕ 2 ^ k < 256.
Proof.
  intros Hb Hk.
  assert (all_from (fun b => all_from (fun k => (precalc (b ⊕ 2 ^ k) =? precalc b ⊕ precalc (2 ^ k))
    && (precalc (2 ^ k) & 0x40 =? 0x40)) 8 0) 256 0 = true) as H by (vm_compute; reflexivity).
  pose proof (all_from_spec _ _ _ (all_from_spec _ _ _ H b ltac:(lia)) k ltac:(lia)) as Hc. cbn beta in Hc.
  apply andb_true_iff in Hc as [H1%Z.eqb_eq H2%Z.eqb_eq]. split_and!; [exact H1 | exact H2 | |];
    apply (lxor_range 8); try lia; (split; [apply Z.pow_nonneg; lia | apply Z.pow_lt_mono_r; lia]).
Qed.

Lemma ecc_byte_flip i b k r : is_byte b -> 0 <= k < 8 -> 0 <= i < 256 ->
  ecc_byte i (b ⊕ 2 ^ k) r = rxor (ecc_byte i b r) (delta i k).
Proof.
  intros Hb Hk Hi. destruct (precalc_flip b k Hb Hk) as (H1 & H2 & _). unfold ecc_byte. rewrite H1.
  rewrite !land_lxor_distr, H2.
  assert (precalc b & 0x40 = 0 \/ precalc b & 0x40 = 0x40) as [-> | ->].
  { pose proof (all_from_spec (fun b => (precalc b & 0x40 =? 0) || (precalc b & 0x40 =? 0x40)) 256 0 ltac:(vm_compute; reflexivity) b
      ltac:(unfold is_byte in Hb; lia)) as Hc. cbn beta in Hc. apply orb_true_iff in Hc as [Hc%Z.eqb_eq | Hc%Z.eqb_eq]; tauto. }
  - cbn [negb Z.eqb Z.lxor]. unfold rxor, delta. cbn. rewrite !(wrap_small 8 i) by done. f_equal. by rewrite Z.lxor_assoc.
  - cbn [negb Z.eqb Z.lxor]. unfold rxor, delta. cbn. rewrite !(wrap_small 8 i) by done.
    f_equal; rewrite !Z.lxor_assoc; [done | |]; by rewrite Z.lxor_nilpotent, Z.lxor_0_r.
Qed.

Lemma ecc_loop_flip k : 0 <= k < 8 -> forall dat i n r, is_bytes dat -> (n < length dat)%nat -> 0 <= i -> i + zlen dat <= 256 ->
  ecc_loop i (alter (fun b => u8 (b ⊕ Z.shiftl 1 k)) n dat) r = rxor (ecc_loop i dat r) (delta (i + Z.of_nat n) k).
Proof.
  intros Hk. induction dat as [| b dat IH]; intros i n r Hb Hn Hi Hlen; cbn [length] in *; [lia |].
  apply Forall_cons in Hb as [Hb Hbs]. destruct n as [| n].
  - cbn [alter list_alter]. cbn [ecc_loop]. rewrite Z.shiftl_mul_pow2, Z.mul_1_l by lia.
    rewrite wrap_small by apply (precalc_flip b k Hb Hk). rewrite ecc_byte_flip by (done || lia).
    by rewrite ecc_loop_rxor, Z.add_0_r.
  - change (alter ?f (S n) (b :: dat)) with (b :: alter f n dat). cbn [ecc_loop]. rewrite IH by (done || lia).
    do 2 f_equal. lia.
Qed.

(** [by_bits8] proves an equation of bytes for each of their bits. *)
Ltac by_bits8 :=
  apply Z.bits_inj'; intros j Hj;
  repeat first [rewrite Z.lnot_spec by lia | progress zbits_rw];
  destruct (Z.ltb_spec j 8); [| by rewrite ?andb_false_r];
  assert (j = 0 \/ j = 1 \/ j = 2 \/ j = 3 \/ j = 4 \/ j = 5 \/ j = 6 \/ j = 7) as Hcases by lia;
  destruct_or! Hcases; subst j; rewrite ?Z.lnot_spec, ?Z.lxor_spec by lia;
  repeat match goal with |- context [Z.testbit (Zpos ?p) ?i] =>
    let v := eval vm_compute in (Z.testbit (Zpos p) i) in change (Z.testbit (Zpos p) i) with v end;
  cbn [Z.ltb Z.compare Pos.compare Pos.compare_cont]; rewrite ?andb_false_r, ?andb_true_r, ?andb_true_l, ?orb_false_r, ?orb_false_l;
  repeat match goal with |- context [Z.testbit ?x ?i] => let b := fresh in set (b := Z.testbit x i); clearbody b end;
  repeat match goal with b : bool |- _ => destruct b end; reflexivity.

Lemma parity1_rxor r r' : u8 (Z.lnot (line_parity1 r)) ⊕ u8 (Z.lnot (line_parity1 r')) = line_parity1 (rxor r r').
Proof. unfold line_parity1, rxor. cbn. by_bits8. Qed.

Lemma parity2_rxor r r' : u8 (Z.lnot (line_parity2 r)) ⊕ u8 (Z.lnot (line_parity2 r')) = line_parity2 (rxor r r').
Proof. unfold line_parity2, rxor. cbn. by_bits8. Qed.

Lemma columns_rxor x y : u8 (Z.lor (Z.shiftl (Z.lnot x) 2) 0x03) ⊕ u8 (Z.lor (Z.shiftl (Z.lnot y) 2) 0x03) = u8 (Z.shiftl (x ⊕ y) 2).
Proof. by_bits8. Qed.

Lemma syndrome_code smc r r' : syndrome smc (final_code smc r') (final_code smc r) = pattern (rxor r r').
Proof.
  unfold syndrome, final_code, pattern. destruct smc; by rewrite parity1_rxor, parity2_rxor, columns_rxor.
Qed.

(** ** Errors *)

(** The data of a block with the code that was stored for it. *)
Definition word : Type := list Z * code.

Inductive position := DataBit (n k : Z) | CodeBit (j k : Z).

Definition valid_position (p : position) : Prop :=
  match p with
  | DataBit n k => 0 <= n < 256 /\ 0 <= k < 8
  | CodeBit j k => 0 <= j < 3 /\ 0 <= k < 8
  end.

(** Bit [k] of byte [j] of a code. *)
Definition unit_code (j k : Z) : code := (if j =? 0 then 2 ^ k else 0, if j =? 1 then 2 ^ k else 0, if j =? 2 then 2 ^ k else 0).

(** A bit of a word that was read wrong. *)
Definition flip (p : position) (w : word) : word :=
  match p with
  | DataBit n k => (flip_bit n k w.1, w.2)
  | CodeBit j k => (w.1, cxor w.2 (unit_code j k))
  end.

(** What is read back of the block [dat], when it was stored with its code and
    the bits at [ps] are wrong. *)
Definition read_back (smc : bool) (ps : list position) (dat : list Z) : word :=
  foldr flip (dat, nand_calculate_ecc smc dat) ps.

Definition correct (smc : bool) (w : word) : Z * list Z := nand_correct_data smc w.1 w.2 (nand_calculate_ecc smc w.1).

Definition is_block (dat : list Z) : Prop := is_bytes dat /\ length dat = 256%nat.

Definition word_syndrome (smc : bool) (w : word) : code := syndrome smc w.2 (nand_calculate_ecc smc w.1).

Definition error_pattern (smc : bool) (p : position) : code :=
  match p with
  | DataBit n k => pattern (delta n k)
  | CodeBit j k => if smc then unit_code j k else unit_code (if j =? 0 then 1 else if j =? 1 then 0 else j) k
  end.

Lemma flip_block n k dat : 0 <= k < 8 -> is_block dat -> is_block (flip_bit n k dat).
Proof.
  intros Hk [Hb Hl]. unfold flip_bit. split; [| by rewrite length_alter].
  apply Forall_alter; [done |]. intros b _ _. apply (wrap_range 8). lia.
Qed.

Lemma cxor_assoc a b c : cxor (cxor a b) c = cxor a (cxor b c).
Proof. unfold cxor. cbn. by rewrite !Z.lxor_assoc. Qed.

Lemma cxor_0_l a : cxor (0, 0, 0) a = a.
Proof. by destruct a as [[a b] c]. Qed.

(** The syndrome of the code of changed data. *)
Lemma syndrome_flip_data smc n k dat c : is_block dat -> valid_position (DataBit n k) ->
  syndrome smc c (nand_calculate_ecc smc (flip_bit n k dat)) =
  cxor (syndrome smc c (nand_calculate_ecc smc dat)) (pattern (delta n k)).
Proof.
  intros [Hb Hl] [Hn Hk]. pose proof (flip_block n k dat Hk (conj Hb Hl)) as [_ Hl']. unfold nand_calculate_ecc.
  rewrite !take_ge by lia. unfold flip_bit. rewrite (ecc_loop_flip k Hk) by (done || lia).
  replace (0 + Z.of_nat (Z.to_nat n)) with n by lia. set (r := ecc_loop 0 dat _). set (d := delta n k).
  pose proof (syndrome_code smc (rxor r d) r) as Hs.
  assert (rxor (rxor r d) r = d) as Hrd.
  { unfold rxor. destruct d as [d1 d2 d3]. cbn. f_equal; rewrite Z.lxor_comm, <- Z.lxor_assoc, Z.lxor_nilpotent; apply Z.lxor_0_l. }
  rewrite Hrd in Hs. rewrite <- Hs. destruct (final_code smc r) as [[a0 a1] a2], (final_code smc (rxor r d)) as [[b0 b1] b2], c as [[c0 c1] c2].
  unfold syndrome, cxor. destruct smc; cbn -[Z.lxor]; (f_equal; [f_equal |]);
    apply Z.bits_inj'; intros i Hi; zbits_rw; repeat match goal with |- context [Z.testbit ?x i] => destruct (Z.testbit x i) end; done.
Qed.

Lemma word_syndrome_flip smc p w : is_block w.1 -> valid_position p ->
  word_syndrome smc (flip p w) = cxor (word_syndrome smc w) (error_pattern smc p).
Proof.
  intros Hw Hp. unfold word_syndrome. destruct p as [n k | j k]; cbn [flip error_pattern fst snd].
  - by apply syndrome_flip_data.
  - destruct w as [dat [[c0 c1] c2]]. cbn [fst snd]. destruct (nand_calculate_ecc smc dat) as [[e0 e1] e2]. destruct Hp as [Hj Hk].
    assert (j = 0 \/ j = 1 \/ j = 2) as Hcases by lia. unfold syndrome, cxor, unit_code.
    destruct smc; destruct_or! Hcases; subst j; cbn -[Z.pow Z.lxor]; by rewrite !Z.lxor_assoc.
Qed.

(** The syndrome of a word is the sum of the patterns of its errors. *)
Lemma read_back_syndrome smc ps dat : is_block dat -> Forall valid_position ps ->
  is_block (read_back smc ps dat).1 /\
  word_syndrome smc (read_back smc ps dat) = foldr (fun p s => cxor s (error_pattern smc p)) (0, 0, 0) ps.
Proof.
  intros Hd. induction 1 as [| p ps Hp _ [IHb IHs]]; cbn [read_back foldr].
  - split; [done |]. unfold word_syndrome. cbn [fst snd]. destruct (nand_calculate_ecc smc dat) as [[e0 e1] e2].
    unfold syndrome. destruct smc; by rewrite !Z.lxor_nilpotent.
  - fold (read_back smc ps dat). split.
    + destruct p as [n k | j k]; [| done]. apply flip_block; [apply Hp | done].
    + by rewrite word_syndrome_flip, IHs.
Qed.

(** ** Decoding *)

(** What [nand_correct_data] does for a syndrome: nothing is wrong, one bit of
    the data, one bit of the code, or more than that. *)
Inductive verdict := Clean | BadData | BadCode | Uncorrectable.
#[export] Instance verdict_eq_dec : EqDecision verdict.
Proof. solve_decision. Defined.

Definition verdict_of (s : code) : verdict :=
  let '(s0, s1, s2) := s in
  if Z.lor (Z.lor s0 s1) s2 =? 0 then Clean
  else if single_bit_error s then BadData
  else if countbits (Z.lor (Z.lor s0 (Z.shiftl s1 8)) (Z.shiftl s2 16)) =? 1 then BadCode
  else Uncorrectable.

Lemma correct_verdict smc w : correct smc w =
  match verdict_of (word_syndrome smc w) with
  | Clean => (0, w.1)
  | BadData => (1, flip_bit (error_byteoffs (word_syndrome smc w)) (error_bitnum (word_syndrome smc w)) w.1)
  | BadCode => (1, w.1)
  | Uncorrectable => (- EBADMSG, w.1)
  end.
Proof.
  unfold correct, nand_correct_data, word_syndrome. destruct (syndrome smc w.2 _) as [[s0 s1] s2]. unfold verdict_of.
  destruct (Z.lor (Z.lor s0 s1) s2 =? 0); [done |]. destruct (single_bit_error _); [done |].
  by destruct (countbits _ =? 1).
Qed.

(** The pattern of a data bit names the bit. *)
Lemma data_pattern n k : 0 <= n < 256 -> 0 <= k < 8 -> let s := pattern (delta n k) in
  verdict_of s = BadData /\ error_byteoffs s = n /\ error_bitnum s = k.
Proof.
  intros Hn Hk.
  assert (all_from (fun n => all_from (fun k => let s := pattern (delta n k) in
    bool_decide (verdict_of s = BadData) && (error_byteoffs s =? n) && (error_bitnum s =? k)) 8 0) 256 0 = true) as H
    by (vm_compute; reflexivity).
  pose proof (all_from_spec _ _ _ (all_from_spec _ _ _ H n ltac:(lia)) k ltac:(lia)) as Hc. cbn beta zeta in Hc.
  rewrite !andb_true_iff, bool_decide_eq_true, !Z.eqb_eq in Hc. cbn zeta. tauto.
Qed.

Lemma code_pattern j k : 0 <= j < 3 -> 0 <= k < 8 -> verdict_of (unit_code j k) = BadCode.
Proof.
  intros Hj Hk.
  assert (all_from (fun j => all_from (fun k => bool_decide (verdict_of (unit_code j k) = BadCode)) 8 0) 3 0 = true) as H
    by (vm_compute; reflexivity).
  pose proof (all_from_spec _ _ _ (all_from_spec _ _ _ H j ltac:(lia)) k ltac:(lia)) as Hc. cbn beta in Hc.
  by rewrite bool_decide_eq_true in Hc.
Qed.

Lemma data_code_pattern n k j b : 0 <= n < 256 -> 0 <= k < 8 -> 0 <= j < 3 -> 0 <= b < 8 -> (j = 2 -> 2 <= b) ->
  verdict_of (cxor (pattern (delta n k)) (unit_code j b)) = Uncorrectable.
Proof.
  intros Hn Hk Hj Hb Hjb.
  assert (all_from (fun n => all_from (fun k => let s := pattern (delta n k) in all_from (fun j => all_from (fun b =>
    ((j =? 2) && (b <? 2)) || bool_decide (verdict_of (cxor s (unit_code j b)) = Uncorrectable)) 8 0) 3 0) 8 0) 256 0 = true) as H
    by (vm_compute; reflexivity).
  pose proof (all_from_spec _ _ _ (all_from_spec _ _ _ H n ltac:(lia)) k ltac:(lia)) as Hc. cbn beta zeta in Hc.
  pose proof (all_from_spec _ _ _ (all_from_spec _ _ _ Hc j ltac:(lia)) b ltac:(lia)) as Hd. cbn beta zeta in Hd.
  rewrite orb_true_iff, andb_true_iff, Z.eqb_eq, Z.ltb_lt, bool_decide_eq_true in Hd.
  destruct Hd as [[Hj2 Hb2] | Hd]; [specialize (Hjb Hj2); lia | exact Hd].
Qed.

Lemma code_code_pattern j k j' k' : 0 <= j < 3 -> 0 <= k < 8 -> 0 <= j' < 3 -> 0 <= k' < 8 -> (j, k) <> (j', k') ->
  verdict_of (cxor (unit_code j k) (unit_code j' k')) = Uncorrectable.
Proof.
  intros Hj Hk Hj' Hk' Hne.
  assert (all_from (fun j => all_from (fun k => all_from (fun j' => all_from (fun k' => ((j =? j') && (k =? k')) ||
    bool_decide (verdict_of (cxor (unit_code j k) (unit_code j' k')) = Uncorrectable)) 8 0) 3 0) 8 0) 3 0 = true) as H
    by (vm_compute; reflexivity).
  pose proof (all_from_spec _ _ _ (all_from_spec _ _ _ H j ltac:(lia)) k ltac:(lia)) as Hc. cbn beta in Hc.
  pose proof (all_from_spec _ _ _ (all_from_spec _ _ _ Hc j' ltac:(lia)) k' ltac:(lia)) as Hd. cbn beta in Hd.
  rewrite orb_true_iff, andb_true_iff, !Z.eqb_eq, bool_decide_eq_true in Hd.
  destruct Hd as [[-> ->] | Hd]; [exfalso; by apply Hne | exact Hd].
Qed.

(** *** Two errors in the data *)

(** The parities of the pairs of bits that a data error changes together. *)
Definition pairs (s : code) : code :=
  ((s.1.1 ⊕ Z.shiftr s.1.1 1) & 0x55, (s.1.2 ⊕ Z.shiftr s.1.2 1) & 0x55, (s.2 ⊕ Z.shiftr s.2 1) & 0x54).

Lemma pairs_cxor a b : pairs (cxor a b) = cxor (pairs a) (pairs b).
Proof.
  unfold pairs, cxor. cbn -[Z.lxor Z.land Z.shiftr]. (f_equal; [f_equal |]); rewrite <- land_lxor_distr; f_equal;
    rewrite Z.shiftr_lxor, !Z.lxor_assoc; f_equal; rewrite <- !Z.lxor_assoc; f_equal; apply Z.lxor_comm.
Qed.

Lemma countbits_loop_none n : forall x res, 0 <= x < 2 ^ Z.of_nat n -> 0 <= res -> res <= countbits_loop n x res /\
  (countbits_loop n x res = res -> x = 0).
Proof.
  induction n as [| n IH]; intros x res Hx Hr; cbn [countbits_loop]; [cbn in Hx; lia |].
  destruct (Z.eqb_spec x 0) as [-> | Hne]; [lia |].
  rewrite Nat2Z.inj_succ, Z.pow_succ_r in Hx by lia.
  change 1 with (Z.ones 1) at 2 4. rewrite Z.land_ones, Z.shiftr_div_pow2 by lia. change (2 ^ 1) with 2.
  pose proof (Z.div_mod x 2) as Hd. pose proof (Z.mod_pos_bound x 2) as Hm.
  destruct (IH (x / 2) (res + x mod 2)) as [H1 H2]; [lia | lia |]. split; [lia |]. intros Hc.
  assert (x mod 2 = 0) as H0 by lia. rewrite H0, Z.add_0_r in *. specialize (H2 Hc). lia.
Qed.

Lemma countbits_loop_one n : forall x res, 0 <= x < 2 ^ Z.of_nat n -> 0 <= res -> countbits_loop n x res = res + 1 ->
  exists m, 0 <= m < Z.of_nat n /\ x = 2 ^ m.
Proof.
  induction n as [| n IH]; intros x res Hx Hr Hc; cbn [countbits_loop] in Hc; [lia |].
  destruct (Z.eqb_spec x 0) as [-> | Hne]; [lia |].
  rewrite Nat2Z.inj_succ, Z.pow_succ_r in Hx by lia.
  change 1 with (Z.ones 1) in Hc at 2. rewrite Z.land_ones, Z.shiftr_div_pow2 in Hc by lia. change (2 ^ 1) with 2 in Hc.
  pose proof (Z.div_mod x 2) as Hd. pose proof (Z.mod_pos_bound x 2) as Hm.
  destruct (Z.eq_dec (x mod 2) 0) as [H0 | H0].
  - rewrite H0, Z.add_0_r in Hc. destruct (IH (x / 2) res) as (m & Hm' & Hx'); [lia | done | done |].
    exists (m + 1). rewrite Z.pow_add_r by lia. change (2 ^ 1) with 2. lia.
  - destruct (countbits_loop_none n (x / 2) (res + x mod 2)) as [_ H]; [lia | lia |].
    replace (x mod 2) with 1 in * by lia. specialize (H Hc). exists 0. change (2 ^ 0) with 1. lia.
Qed.

(** A syndrome with one bit has a pair with odd parity. *)
Lemma pairs_zero s0 s1 s2 : is_byte s0 -> is_byte s1 -> is_byte s2 -> s2 & 3 = 0 -> pairs (s0, s1, s2) = (0, 0, 0) ->
  countbits (Z.lor (Z.lor s0 (Z.shiftl s1 8)) (Z.shiftl s2 16)) <> 1.
Proof.
  intros H0 H1 H2 Hlow Hp Hc. set (x := Z.lor _ _) in Hc.
  assert (x & 255 = s0 /\ Z.shiftr x 8 & 255 = s1 /\ Z.shiftr x 16 = s2) as (E0 & E1 & E2).
  { subst x. change 255 with (Z.ones 8). unfold is_byte in *. split_and!; apply Z.bits_inj'; intros i Hi; zbits_rw;
      rewrite ?Z.testbit_ones_nonneg by lia.
    - destruct (Z.ltb_spec i 8); [| by rewrite andb_false_r, (testbit_high 8 s0) by lia].
      by rewrite (Z.testbit_neg_r s1), (Z.testbit_neg_r s2), !orb_false_r, andb_true_r by lia.
    - destruct (Z.ltb_spec i 8); [| by rewrite andb_false_r, (testbit_high 8 s1) by lia].
      rewrite (testbit_high 8 s0), (Z.testbit_neg_r s2), orb_false_r, andb_true_r by lia. cbn. f_equal. lia.
    - rewrite (testbit_high 8 s0), (testbit_high 8 s1) by lia. cbn. f_equal. lia. }
  assert (0 <= x < 2 ^ 24) as Hx.
  { subst x. apply (lor_range 24); [lia | apply (lor_range 24); [lia | unfold is_byte in *; lia |] |];
      rewrite Z.shiftl_mul_pow2 by lia; unfold is_byte in *; lia. }
  destruct (countbits_loop_one 32 x 0) as (m & Hm & Hxm); [lia | lia | exact Hc |].
  assert (m < 24) as Hm24 by (apply (Z.pow_lt_mono_r_iff 2); lia).
  assert (all_from (fun m => let x := 2 ^ m in negb (Z.shiftr x 16 & 3 =? 0) ||
    negb (bool_decide (pairs (x & 255, Z.shiftr x 8 & 255, Z.shiftr x 16) = (0, 0, 0)))) 24 0 = true) as H by (vm_compute; reflexivity).
  pose proof (all_from_spec _ _ _ H m ltac:(lia)) as Hf. cbn beta zeta in Hf. rewrite <- Hxm, E0, E1, E2, Hlow, Hp in Hf.
  by rewrite bool_decide_eq_true_2 in Hf.
Qed.

Lemma data_data_pattern n k n' k' : 0 <= n < 256 -> 0 <= k < 8 -> 0 <= n' < 256 -> 0 <= k' < 8 -> (n, k) <> (n', k') ->
  verdict_of (cxor (pattern (delta n k)) (pattern (delta n' k'))) = Uncorrectable.
Proof.
  intros Hn Hk Hn' Hk' Hne.
  assert (forall n k, 0 <= n < 256 -> 0 <= k < 8 -> let s := pattern (delta n k) in
    is_byte s.1.1 /\ is_byte s.1.2 /\ is_byte s.2 /\ s.2 & 3 = 0 /\ pairs s = (0x55, 0x55, 0x54)) as Hfacts.
  { clear. intros n k Hn Hk.
    assert (all_from (fun n => all_from (fun k => let s := pattern (delta n k) in
      (0 <=? s.1.1) && (s.1.1 <? 256) && (0 <=? s.1.2) && (s.1.2 <? 256) && (0 <=? s.2) && (s.2 <? 256) && (s.2 & 3 =? 0) &&
      bool_decide (pairs s = (0x55, 0x55, 0x54))) 8 0) 256 0 = true) as H by (vm_compute; reflexivity).
    pose proof (all_from_spec _ _ _ (all_from_spec _ _ _ H n ltac:(lia)) k ltac:(lia)) as Hc. cbn beta zeta in Hc.
    rewrite !andb_true_iff, !Z.leb_le, !Z.ltb_lt, Z.eqb_eq, bool_decide_eq_true in Hc. unfold is_byte. cbn zeta. tauto. }
  destruct (Hfacts n k Hn Hk) as (A0 & A1 & A2 & A3 & A4), (Hfacts n' k' Hn' Hk') as (B0 & B1 & B2 & B3 & B4).
  destruct (data_pattern n k Hn Hk) as (_ & C1 & C2), (data_pattern n' k' Hn' Hk') as (_ & D1 & D2).
  set (a := pattern (delta n k)) in *. set (b := pattern (delta n' k')) in *. clearbody a b.
  assert (pairs (cxor a b) = (0, 0, 0)) as Hp by (by rewrite pairs_cxor, A4, B4).
  assert (cxor a b <> (0, 0, 0)) as Hnz.
  { intros H0. apply Hne. assert (a = b) as ->; [| congruence].
    destruct a as [[a0 a1] a2], b as [[b0 b1] b2]. unfold cxor in H0. cbn [fst snd] in H0. injection H0 as E0 E1 E2.
    apply Z.lxor_eq in E0, E1, E2. by subst. }
  assert (is_byte (cxor a b).1.1 /\ is_byte (cxor a b).1.2 /\ is_byte (cxor a b).2) as (R0 & R1 & R2).
  { split_and!; apply (lxor_range 8); done || lia. }
  assert ((cxor a b).2 & 3 = 0) as Hlow by (cbn [cxor snd]; by rewrite land_lxor_distr, A3, B3).
  destruct (cxor a b) as [[s0 s1] s2]. cbn [fst snd] in *. unfold verdict_of.
  destruct (Z.eqb_spec (Z.lor (Z.lor s0 s1) s2) 0) as [E | _].
  { exfalso. apply Hnz. apply Z.lor_eq_0_iff in E as [E ->]. apply Z.lor_eq_0_iff in E as [-> ->]. done. }
  pose proof (pairs_zero s0 s1 s2 R0 R1 R2 Hlow Hp) as Hcb. unfold pairs in Hp. cbn [fst snd] in Hp. injection Hp as P0 P1 P2.
  unfold single_bit_error. rewrite P0. cbn [Z.eqb andb]. by rewrite (proj2 (Z.eqb_neq _ _) Hcb).
Qed.

(** ** The theorems *)

(** The bits of a code that carry a parity: all but the two lowest of the third
    byte, which are always set. *)
Definition parity_position (p : position) : Prop :=
  valid_position p /\ match p with CodeBit j k => j = 2 -> 2 <= k | DataBit _ _ => True end.

Definition swap_bytes (smc : bool) (j : Z) : Z := if smc then j else if j =? 0 then 1 else if j =? 1 then 0 else j.

Lemma error_pattern_code smc j k : error_pattern smc (CodeBit j k) = unit_code (swap_bytes smc j) k.
Proof. by destruct smc. Qed.

Lemma swap_bytes_props smc j : 0 <= j < 3 -> 0 <= swap_bytes smc j < 3 /\ (swap_bytes smc j = 2 <-> j = 2) /\
  forall j', 0 <= j' < 3 -> swap_bytes smc j = swap_bytes smc j' -> j = j'.
Proof.
  intros Hj. unfold swap_bytes. destruct smc; [split_and!; try lia; done |].
  split_and!; [cases_ltb; lia.. |]. intros j' Hj'. cases_ltb; lia.
Qed.

Lemma cxor_comm a b : cxor a b = cxor b a.
Proof. unfold cxor. f_equal; [f_equal |]; apply Z.lxor_comm. Qed.

(** Two different errors at positions with parities. *)
Lemma two_errors smc p q : parity_position p -> parity_position q -> p <> q ->
  verdict_of (cxor (error_pattern smc p) (error_pattern smc q)) = Uncorrectable.
Proof.
  intros [Hp Hpp] [Hq Hqp] Hne. destruct p as [n k | j k], q as [n' k' | j' k']; rewrite ?error_pattern_code; cbn [error_pattern].
  - destruct Hp, Hq. apply data_data_pattern; try done. congruence.
  - destruct Hp, Hq as [Hj' Hk']. destruct (swap_bytes_props smc j' Hj') as (? & ? & _). apply data_code_pattern; try done; lia.
  - destruct Hp as [Hj Hk], Hq. destruct (swap_bytes_props smc j Hj) as (? & ? & _). rewrite cxor_comm.
    apply data_code_pattern; try done; lia.
  - destruct Hp as [Hj Hk], Hq as [Hj' Hk']. destruct (swap_bytes_props smc j Hj) as (? & _ & Hinj), (swap_bytes_props smc j' Hj') as (? & _).
    apply code_code_pattern; try done. intros [= Hsj ->]. apply Hne. f_equal. by apply Hinj.
Qed.

Lemma flip_bit_twice n k dat : is_bytes dat -> 0 <= k < 8 -> flip_bit n k (flip_bit n k dat) = dat.
Proof.
  intros Hb Hk. unfold flip_bit. rewrite list_alter_alter_eq. rewrite <- (list_alter_id id dat (Z.to_nat n)) at 2 by done.
  apply list_alter_ext; [| done]. intros x Hx. rewrite Forall_lookup in Hb. specialize (Hb _ _ Hx). cbn.
  rewrite Z.shiftl_mul_pow2, Z.mul_1_l by lia. destruct (precalc_flip x k Hb Hk) as (_ & _ & Hr).
  rewrite (wrap_small 8 (x ⊕ _)) by exact Hr. rewrite Z.lxor_assoc, Z.lxor_nilpotent, Z.lxor_0_r. by apply wrap_small.
Qed.

(** C30: The code corrects single errors: when no bit of a block of 256 bytes or of
    its stored code is wrong, [nand_correct_data] returns 0 and leaves the data
    alone; when exactly one bit is wrong, in the data or in the code, it returns 1
    and the data are the ones that were stored. *)
Theorem nand_ecc_corrects_one smc dat ps : is_block dat -> Forall valid_position ps -> (length ps <= 1)%nat ->
  correct smc (read_back smc ps dat) = (zlen ps, dat).
Proof.
  intros Hd Hps Hlen. destruct (read_back_syndrome smc ps dat Hd Hps) as [_ Hs]. rewrite correct_verdict, Hs.
  destruct ps as [| p [| q ps]]; cbn [foldr length] in *; [done | | lia].
  rewrite cxor_0_l. apply Forall_cons in Hps as [Hp _]. destruct p as [n k | j k].
  - destruct Hp as [Hn Hk]. destruct (data_pattern n k Hn Hk) as (Hv & Hoff & Hbit). cbn [error_pattern].
    rewrite Hv, Hoff, Hbit. f_equal. apply flip_bit_twice; [apply Hd | done].
  - destruct Hp as [Hj Hk]. rewrite error_pattern_code. by rewrite code_pattern by (done || by apply swap_bytes_props).
Qed.

(** C31: The code detects double errors: when two different bits are wrong, each
    in the data or among the parity bits of the stored code, [nand_correct_data]
    reports an uncorrectable error and does not change the data. *)
Theorem nand_ecc_detects_two smc dat p q : is_block dat -> parity_position p -> parity_position q -> p <> q ->
  let w := read_back smc [p; q] dat in correct smc w = (- EBADMSG, w.1).
Proof.
  intros Hd Hp Hq Hne w. destruct (read_back_syndrome smc [p; q] dat Hd) as [_ Hs].
  { apply Forall_cons. split; [apply Hp | apply Forall_singleton; apply Hq]. }
  fold w in Hs. rewrite correct_verdict, Hs. cbn [foldr]. rewrite cxor_0_l, cxor_comm. by rewrite two_errors.
Qed.

Module NandEccExamples.

Definition page : list Z := (fun i => i) <$> seqZ 0 256.

Lemma page_block : is_block page.
Proof.
  split; [| reflexivity]. unfold page. rewrite list_fmap_id. apply Forall_forall. intros x Hx%elem_of_seqZ. unfold is_byte. lia.
Qed.

Lemma nand_ecc_corrects_one_witness : correct false (read_back false [DataBit 77 5] page) = (1, page).
Proof.
  apply (nand_ecc_corrects_one false page [DataBit 77 5]); [apply page_block | apply Forall_singleton; cbn; lia | cbn; lia].
Defined.

Lemma nand_ecc_detects_two_witness :
  let w := read_back false [DataBit 77 5; CodeBit 1 3] page in correct false w = (- EBADMSG, w.1).
Proof.
  apply (nand_ecc_detects_two false page (DataBit 77 5) (CodeBit 1 3)); [apply page_block | | | discriminate].
  - split; [cbn; lia | exact I].
  - split; [cbn; lia | lia].
Defined.

End NandEccExamples.
