(* ===== verification/NandUtil.v ===== *)
(** * Flash access with bad blocks (drivers/mtd/mtdcore.c, include/nand.h,
      drivers/mtd/nand/nand_util.c)

    The driver of a chip is the interface [Chip]: the functions that an
    [mtd_info] points to.  The wrappers of mtdcore.c check the ranges, the
    functions of nand_util.c erase, write and read areas that may contain bad
    blocks.  [ChipLaws] states what the code relies on: an erased block can be
    written once and then reads as what was written, and an operation on one
    block does not change another.

    A file offset is a 64-bit signed number, the sizes of blocks and pages are
    32-bit numbers, as in the source. *)

From S2P Require Import Prelude Div64.

(** Error numbers (include/asm-generic/errno.h). *)
Definition EINVAL : Z := 22.
Definition EROFS : Z := 30.
Definition EUCLEAN : Z := 117.

(** ** The driver of a chip *)

(** Results of zero are success.  [chip_read] gives its result and the bytes it
    stored, of which there are [retlen]; [chip_write] its result and [retlen]. *)
Class Chip (D : Type) := {
  chip_size : Z;
  erasesize : Z;
  writesize : Z;
  writeable : bool;
  oobavail : Z;
  chip_block_isbad : D -> Z -> Z;
  chip_erase : D -> Z -> Z -> bool -> D * Z;            (* address, length, scrub *)
  chip_read : D -> Z -> Z -> Z * list Z;                (* offset, length *)
  chip_write : D -> Z -> list Z -> D * Z * Z;           (* offset, data *)
  chip_write_oob : D -> Z -> list Z -> D * Z;           (* block, data *)
  forget_bbt : D -> D;                                  (* chip->bbt = NULL *)
  scan_bbt : D -> D }.

Section Flash.
Context {D : Type} `{Chip D}.

(** ** mtdcore.c *)

Definition mtd_block_isbad (d : D) (ofs : Z) : Z :=
  if (ofs <? 0) || (chip_size <? ofs) then - EINVAL else chip_block_isbad d ofs.

Definition mtd_erase (d : D) (addr len : Z) (scrub : bool) : D * Z :=
  if (chip_size <? addr) || (chip_size - addr <? len) then (d, - EINVAL)
  else if negb writeable then (d, - EROFS)
  else if len =? 0 then (d, 0)
  else chip_erase d addr len scrub.

(** The result, [*retlen] and the bytes stored; [retlen0] is what [*retlen] was. *)
Definition mtd_read (d : D) (from len retlen0 : Z) : Z * Z * list Z :=
  if (from <? 0) || (chip_size <? from) || (chip_size - from <? len) then (- EINVAL, retlen0, [])
  else if len =? 0 then (0, retlen0, [])
  else let '(r, l) := chip_read d from len in (r, zlen l, l).

Definition mtd_write (d : D) (to : Z) (buf : list Z) : D * Z * Z :=
  if (to <? 0) || (chip_size <? to) || (chip_size - to <? zlen buf) then (d, - EINVAL, 0)
  else if negb writeable then (d, - EROFS, 0)
  else if zlen buf =? 0 then (d, 0, 0)
  else chip_write d to buf.

Definition mtd_write_oob (d : D) (to : Z) (oob : list Z) : D * Z :=
  if negb writeable then (d, - EROFS) else chip_write_oob d to oob.

(** ** nand.h *)

Definition nand_read (d : D) (ofs len : Z) : Z * Z * list Z := mtd_read d ofs len len.
Definition nand_write (d : D) (ofs : Z) (buf : list Z) : D * Z * Z := mtd_write d ofs buf.
Definition nand_block_isbad (d : D) (ofs : Z) : Z := mtd_block_isbad d ofs.
Definition nand_erase (d : D) (off size : Z) : D * Z := mtd_erase d off size false.

(** ** [nand_erase_opts] *)

Record nand_erase_options := EraseOptions {
  length_ : Z;
  offset : Z;
  jffs2 : bool;
  scrub : bool;
  spread : bool }.

(** The eight bytes of the clean marker of JFFS2. *)
Definition cleanmarker : list Z := [0x85; 0x19; 0x03; 0x20; 8; 0; 0; 0].

(** The body of the loop for one block that is not skipped: an error of the
    erasure only ends the round. *)
Definition erase_block (d : D) (opts : nand_erase_options) (addr : Z) : D :=
  let '(d, result) := mtd_erase d addr erasesize (scrub opts) in
  if negb (result =? 0) then d
  else if jffs2 opts && (8 <=? oobavail) then (mtd_write_oob d addr cleanmarker).1
  else d.

Fixpoint erase_loop (fuel : nat) (d : D) (opts : nand_erase_options) (addr erased_length erase_length : Z) : option (D * Z) :=
  match fuel with
  | O => None
  | S fuel =>
      if erased_length <? erase_length then
        let next := u64 (addr + erasesize) in
        let ret := if scrub opts then 0 else mtd_block_isbad d (swrap 64 addr) in
        if 0 <? ret then
          erase_loop fuel d opts next (if spread opts then erased_length else erased_length + 1) erase_length
        else if ret <? 0 then Some (d, -1)
        else erase_loop fuel (erase_block d opts addr) opts next (erased_length + 1) erase_length
      else Some (d, 0)
  end.

Definition lldiv (dividend divisor : Z) : option Z := '(_, q) ← do_div dividend divisor; Some q.

(** The number of blocks bounds the rounds in which a bad block is skipped. *)
Definition device_blocks : nat := Z.to_nat (chip_size / erasesize).

Definition nand_erase_opts (d : D) (opts : nand_erase_options) : option (D * Z) :=
  if negb (Z.land (offset opts) (writesize - 1) =? 0) then Some (d, -1)
  else
    n ← lldiv (u64 (length_ opts + erasesize - 1)) erasesize;
    let erase_length := u32 n in
    let d := if scrub opts then forget_bbt d else d in
    '(d, r) ← erase_loop (S (S (Z.to_nat erase_length + device_blocks))) d opts (u64 (offset opts)) 0 erase_length;
    Some (if (r =? 0) && scrub opts then scan_bbt d else d, r).

(** ** Reading and writing around bad blocks *)

Definition block_offset (offset : Z) : Z := Z.land offset (erasesize - 1).

(** [offset & ~(loff_t)(nand->erasesize - 1)]. *)
Definition block_start (offset : Z) : Z := Z.land offset (Z.lnot (erasesize - 1)).

(** [offset & ~(nand->erasesize - 1)], where the mask has 32 bits. *)
Definition block_start32 (offset : Z) : Z := Z.land offset (u32 (Z.lnot (erasesize - 1))).

Fixpoint skip_len_loop (fuel : nat) (d : D) (offset length len_excl_bad ret : Z) : option Z :=
  match fuel with
  | O => None
  | S fuel =>
      if len_excl_bad <? length then
        if chip_size <=? offset then Some (-1)
        else
          let block_len := erasesize - block_offset offset in
          if nand_block_isbad d (block_start offset) =? 0 then
            skip_len_loop fuel d (offset + block_len) length (u32 (len_excl_bad + block_len)) ret
          else skip_len_loop fuel d (offset + block_len) length len_excl_bad 1
      else Some ret
  end.

Definition check_skip_len (d : D) (offset length : Z) : option Z := skip_len_loop (S (S device_blocks)) d offset length 0 0.

(** CONFIG_CMD_NAND_TRIMFFS: the length without the trailing 0xff bytes.  When
    there are no other bytes, the loop runs below index 0. *)
Fixpoint last_other (buf : list Z) : option nat :=
  match buf with
  | [] => None
  | b :: buf =>
      match last_other buf with
      | Some i => Some (S i)
      | None => if b =? 0xff then None else Some O
      end
  end.

Definition drop_ffs (buf : list Z) (len : Z) : option Z :=
  i ← last_other (take (Z.to_nat len) buf);
  let l := Z.of_nat i + 1 in
  let l := u32 (l + writesize - 1) / writesize in
  Some (Z.min (l * writesize) len).

Definition WITH_DROP_FFS : Z := 2.

(** The device, the result and what is left to write. *)
Fixpoint write_skip_loop (fuel : nat) (trimffs : bool) (d : D) (offset left_to_write : Z) (p_buffer : list Z) (flags : Z) :
    option (D * Z * Z) :=
  match fuel with
  | O => None
  | S fuel =>
      if 0 <? left_to_write then
        if negb (nand_block_isbad d (block_start32 offset) =? 0) then
          write_skip_loop fuel trimffs d (offset + (erasesize - block_offset offset)) left_to_write p_buffer flags
        else
          let write_size := Z.min left_to_write (erasesize - block_offset offset) in
          truncated_write_size ← (if trimffs && negb (Z.land flags WITH_DROP_FFS =? 0) then drop_ffs p_buffer write_size
                                  else Some write_size);
          let '(d, rval, _) := nand_write d offset (take (Z.to_nat truncated_write_size) p_buffer) in
          if negb (rval =? 0) then Some (d, rval, left_to_write)
          else write_skip_loop fuel trimffs d (offset + write_size) (left_to_write - write_size) (drop (Z.to_nat write_size) p_buffer) flags
      else Some (d, 0, 0)
  end.

(** Every round moves on by a block, so as many rounds as for [check_skip_len]. *)
Definition skip_rounds : nat := S (S device_blocks).

(** The device, the result and [*length].  The write of a page with its
    out-of-band data, CONFIG_CMD_NAND_YAFFS, is left out. *)
Definition nand_write_skip_bad (trimffs : bool) (d : D) (offset length : Z) (buffer : list Z) (flags : Z) : option (D * Z * Z) :=
  if negb (Z.land offset (writesize - 1) =? 0) then Some (d, - EINVAL, 0)
  else
    need_skip ← check_skip_len d offset length;
    if need_skip <? 0 then Some (d, - EINVAL, 0)
    else if (need_skip =? 0) && (Z.land flags WITH_DROP_FFS =? 0) then
      let '(d, rval, retlen) := nand_write d offset (take (Z.to_nat length) buffer) in
      Some (if rval =? 0 then (d, 0, retlen) else (d, rval, 0))
    else
      '(d, rval, rest) ← write_skip_loop skip_rounds trimffs d offset length buffer flags;
      Some (d, rval, length - rest).

(** The result, what is left to read and the bytes stored. *)
Fixpoint read_skip_loop (fuel : nat) (d : D) (offset left_to_read : Z) (p_buffer : list Z) : option (Z * Z * list Z) :=
  match fuel with
  | O => None
  | S fuel =>
      if 0 <? left_to_read then
        if negb (nand_block_isbad d (block_start32 offset) =? 0) then
          read_skip_loop fuel d (offset + (erasesize - block_offset offset)) left_to_read p_buffer
        else
          let read_length := Z.min left_to_read (erasesize - block_offset offset) in
          let '(rval, read_length, l) := nand_read d offset read_length in
          if negb (rval =? 0) && negb (rval =? - EUCLEAN) then Some (rval, left_to_read, p_buffer ++ l)
          else read_skip_loop fuel d (offset + read_length) (u32 (left_to_read - read_length)) (p_buffer ++ l)
      else Some (0, 0, p_buffer)
  end.

(** The result, [*length] and the bytes stored. *)
Definition nand_read_skip_bad (d : D) (offset length : Z) : option (Z * Z * list Z) :=
  if negb (Z.land offset (writesize - 1) =? 0) then Some (- EINVAL, 0, [])
  else
    need_skip ← check_skip_len d offset length;
    if need_skip <? 0 then Some (- EINVAL, 0, [])
    else if need_skip =? 0 then
      let '(rval, retlen, l) := nand_read d offset length in
      Some (if (rval =? 0) || (rval =? - EUCLEAN) then (0, retlen, l) else (rval, 0, l))
    else
      '(rval, rest, l) ← read_skip_loop skip_rounds d offset length [];
      Some (rval, if rval =? 0 then length else length - rest, l).

End Flash.

(** ** What the code relies on *)

Section Contract.
Context {D : Type} `{Chip D}.

Definition block_of (x : Z) : Z := x / erasesize.

(** The areas of [n] bytes at [o] and [m] bytes at [x] have no block in common. *)
Definition apart (o n x m : Z) : Prop := block_of (o + n - 1) < block_of x \/ block_of (x + m - 1) < block_of o.

(** The block at [a] is erased. *)
Definition blank (d : D) (a : Z) : Prop :=
  forall x m, a <= x -> 0 < m -> x + m <= a + erasesize -> chip_read d x m = (0, replicate (Z.to_nat m) 0xff).

Definition good (d : D) (a : Z) : Prop := chip_block_isbad d a = 0.

(** The data [l] can be read at [o]; bit flips may have been corrected. *)
Definition holds_at (d : D) (o : Z) (l : list Z) : Prop :=
  exists r, (r = 0 \/ r = - EUCLEAN) /\ chip_read d o (zlen l) = (r, l).
End Contract.

Class ChipLaws (D : Type) `{Chip D} := {
  chip_geometry : exists a b, 0 <= b <= a /\ a < 32 /\ erasesize = 2 ^ a /\ writesize = 2 ^ b;
  chip_blocks : (erasesize | chip_size);
  chip_size_range : 0 < chip_size <= 2 ^ 32;
  read_full d o n r l : chip_read d o n = (r, l) -> 0 <= n -> r = 0 \/ r = - EUCLEAN -> zlen l = n;
  write_keeps_bad d o l d' r n x : chip_write d o l = (d', r, n) -> chip_block_isbad d' x = chip_block_isbad d x;
  erase_keeps_bad d a len d' r x : chip_erase d a len false = (d', r) -> chip_block_isbad d' x = chip_block_isbad d x;
  write_frame d o l d' r n x m : chip_write d o l = (d', r, n) -> 0 < m -> apart o (zlen l) x m -> chip_read d' x m = chip_read d x m;
  erase_frame d a len d' r x m : chip_erase d a len false = (d', r) -> 0 < m -> apart a len x m -> chip_read d' x m = chip_read d x m;
  erase_blank d a d' : chip_erase d a erasesize false = (d', 0) -> (erasesize | a) -> blank d' a;
  write_reads d o l d' n : chip_write d o l = (d', 0, n) -> 0 < zlen l -> is_bytes l ->
    (forall k, block_of o <= k <= block_of (o + zlen l - 1) -> good d (k * erasesize) /\ blank d (k * erasesize)) ->
    n = zlen l /\ holds_at d' o l }.

(** A chip on which the erasure of a good block does not fail. *)
Class ReliableErase (D : Type) `{Chip D} :=
  erase_succeeds d a : good d a -> (erasesize | a) -> 0 <= a < chip_size -> (chip_erase d a erasesize false).2 = 0.

(** ** Blocks *)

Section Geometry.
Context {D : Type} `{ChipLaws D}.

Lemma erasesize_range : 0 < erasesize < 2 ^ 32.
Proof. destruct chip_geometry as (a & b & Hb & Ha & -> & _). split; [apply Z.pow_pos_nonneg; lia | apply Z.pow_lt_mono_r; lia]. Qed.

Lemma land_mask n x : 0 <= n -> Z.land x (2 ^ n - 1) = x mod 2 ^ n.
Proof. intros. rewrite <- Z.land_ones by done. f_equal. rewrite Z.ones_equiv. lia. Qed.

Lemma aligned_offset o : (erasesize | o) -> block_offset o = 0.
Proof.
  intros Ho. unfold block_offset. destruct chip_geometry as (a & b & Hb & Ha & He & _). rewrite He in *.
  rewrite land_mask by lia. by apply Z.mod_divide; [apply Z.pow_nonzero; lia |].
Qed.

Lemma aligned_page o : (erasesize | o) -> Z.land o (writesize - 1) = 0.
Proof.
  intros Ho. destruct chip_geometry as (a & b & Hb & Ha & He & ->). rewrite He in *.
  rewrite land_mask by lia. apply Z.mod_divide; [apply Z.pow_nonzero; lia |].
  apply (Z.divide_trans _ (2 ^ a)); [| done]. exists (2 ^ (a - b)). rewrite <- Z.pow_add_r by lia. f_equal. lia.
Qed.

Lemma aligned_start o : (erasesize | o) -> block_start o = o.
Proof.
  intros [k ->]. unfold block_start. destruct chip_geometry as (a & b & Hb & Ha & -> & _).
  replace (2 ^ a - 1) with (Z.ones a) by (rewrite Z.ones_equiv; lia).
  rewrite <- Z.ldiff_land, Z.ldiff_ones_r, Z.shiftr_div_pow2, Z.shiftl_mul_pow2, Z.div_mul by first [lia | apply Z.pow_nonzero; lia]. done.
Qed.

Lemma aligned_start32 o : (erasesize | o) -> 0 <= o < 2 ^ 32 -> block_start32 o = o.
Proof.
  intros Ho Hr. unfold block_start32, wrap. rewrite <- Z.land_ones, Z.land_assoc by lia.
  fold (block_start o). rewrite aligned_start by done. rewrite Z.land_ones by lia. by apply Z.mod_small.
Qed.

Lemma block_of_mul k : block_of (k * erasesize) = k.
Proof. unfold block_of. apply Z.div_mul. pose proof erasesize_range. lia. Qed.

(** The [m] bytes at [x] lie in block [k]. *)
Definition in_block (k x m : Z) : Prop := k * erasesize <= x /\ 0 < m /\ x + m <= k * erasesize + erasesize.

Lemma in_block_start k m : 0 < m <= erasesize -> in_block k (k * erasesize) m.
Proof. unfold in_block. lia. Qed.

Lemma in_block_of k x m : in_block k x m -> block_of x = k /\ block_of (x + m - 1) = k.
Proof.
  intros (H1 & H2 & H3). unfold block_of. pose proof erasesize_range.
  split; symmetry; [apply (Z.div_unique_pos _ _ _ (x - k * erasesize)) | apply (Z.div_unique_pos _ _ _ (x + m - 1 - k * erasesize))]; lia.
Qed.

Lemma apart_blocks k k' x m x' m' : in_block k x m -> in_block k' x' m' -> k' <> k -> apart x m x' m'.
Proof.
  intros H1 H2 Hk. unfold apart. destruct (in_block_of _ _ _ H1) as [-> ->], (in_block_of _ _ _ H2) as [-> ->]. lia.
Qed.

Lemma whole_block k : k * erasesize < chip_size -> k * erasesize + erasesize <= chip_size.
Proof.
  intros Hk. destruct chip_blocks as [q Hq]. pose proof erasesize_range. rewrite Hq in *.
  assert (k < q) by (apply (Z.mul_lt_mono_pos_r erasesize); lia). nia.
Qed.

(** ** Operations on one block *)

Lemma nand_write_block d k l d' rc n : 0 <= k -> k * erasesize < chip_size -> 0 < zlen l <= erasesize ->
  nand_write d (k * erasesize) l = (d', rc, n) ->
  (forall x, chip_block_isbad d' x = chip_block_isbad d x) /\
  (forall k' x m, k' <> k -> in_block k' x m -> chip_read d' x m = chip_read d x m) /\
  (rc = 0 -> good d (k * erasesize) -> blank d (k * erasesize) -> is_bytes l -> n = zlen l /\ holds_at d' (k * erasesize) l).
Proof.
  intros Hk Hsz Hl Hw. unfold nand_write, mtd_write in Hw. pose proof erasesize_range as He.
  destruct ((k * erasesize <? 0) || (chip_size <? k * erasesize) || (chip_size - k * erasesize <? zlen l)).
  { injection Hw as <- <- <-. by split_and!. }
  destruct (negb writeable).
  { injection Hw as <- <- <-. by split_and!. }
  rewrite (proj2 (Z.eqb_neq (zlen l) 0)) in Hw by lia. split_and!.
  - intros x. by apply (write_keeps_bad _ _ _ _ _ _ x Hw).
  - intros k' x m Hne Hx. pose proof Hx as (_ & Hm & _). apply (write_frame _ _ _ _ _ _ _ _ Hw); [done |].
    apply (apart_blocks k k'); [by apply in_block_start | done | done].
  - intros -> Hg Hbl Hb. apply (write_reads _ _ _ _ _ Hw); [lia | done |]. intros j. destruct (in_block_of k _ _ (in_block_start k (zlen l) Hl)) as [-> ->].
    intros Hj. by replace j with k by lia.
Qed.

Lemma erase_block_frame d opts k : scrub opts = false -> jffs2 opts = false -> 0 <= k -> let d' := erase_block d opts (k * erasesize) in
  (forall x, chip_block_isbad d' x = chip_block_isbad d x) /\
  (forall k' x m, k' <> k -> in_block k' x m -> chip_read d' x m = chip_read d x m).
Proof.
  intros Hs Hj Hk. unfold erase_block, mtd_erase. rewrite Hs, Hj. cbn [andb]. pose proof erasesize_range.
  destruct ((chip_size <? k * erasesize) || (chip_size - k * erasesize <? erasesize)); [done |].
  destruct (negb writeable); [done |]. rewrite (proj2 (Z.eqb_neq erasesize 0)) by lia.
  destruct (chip_erase d (k * erasesize) erasesize false) as [d' r] eqn:He.
  assert ((if negb (r =? 0) then d' else d') = d') as -> by (by destruct (negb _)). split.
  - intros x. by apply (erase_keeps_bad _ _ _ _ _ x He).
  - intros k' x m Hne Hx. pose proof Hx as (_ & Hm & _). apply (erase_frame _ _ _ _ _ _ _ He); [done |].
    apply (apart_blocks k k'); [apply in_block_start; lia | done | done].
Qed.

Lemma erase_block_blank `{!ReliableErase D} d opts k : scrub opts = false -> jffs2 opts = false -> writeable = true ->
  0 <= k -> k * erasesize < chip_size -> good d (k * erasesize) -> blank (erase_block d opts (k * erasesize)) (k * erasesize).
Proof.
  intros Hs Hj Hw Hk Hsz Hg. pose proof (erase_succeeds d (k * erasesize) Hg) as Hok. pose proof erasesize_range.
  unfold erase_block, mtd_erase. rewrite Hs, Hj, Hw. cbn [andb negb]. pose proof (whole_block k Hsz).
  rewrite (proj2 (Z.ltb_ge chip_size _)), (proj2 (Z.ltb_ge (chip_size - _) _)) by lia. cbn [orb].
  rewrite (proj2 (Z.eqb_neq erasesize 0)) by lia.
  destruct (chip_erase d (k * erasesize) erasesize false) as [d' r] eqn:He. cbn [snd] in Hok.
  assert (r = 0) as -> by (apply Hok; [by exists k | nia]). cbn [negb Z.eqb]. apply (erase_blank _ _ _ He). by exists k.
Qed.

Lemma nand_isbad d k : 0 <= k -> k * erasesize <= chip_size -> nand_block_isbad d (k * erasesize) = chip_block_isbad d (k * erasesize).
Proof.
  intros Hk Hsz. unfold nand_block_isbad, mtd_block_isbad. pose proof erasesize_range.
  rewrite (proj2 (Z.ltb_ge _ _)), (proj2 (Z.ltb_ge _ _)) by nia. done.
Qed.

Lemma nand_read_block d k n : 0 <= k -> k * erasesize < chip_size -> 0 < n <= erasesize ->
  nand_read d (k * erasesize) n = let '(r, l) := chip_read d (k * erasesize) n in (r, zlen l, l).
Proof.
  intros Hk Hsz Hn. unfold nand_read, mtd_read. pose proof erasesize_range. pose proof (whole_block k Hsz).
  rewrite (proj2 (Z.ltb_ge (k * erasesize) 0)) by nia. rewrite (proj2 (Z.ltb_ge chip_size _)), (proj2 (Z.ltb_ge (chip_size - _) _)) by lia.
  cbn [orb]. by rewrite (proj2 (Z.eqb_neq n 0)) by lia.
Qed.

(** Reading a part of a good block. *)
Lemma read_skip_bad_block d k n : 0 <= k -> k * erasesize < chip_size -> good d (k * erasesize) -> 0 < n <= erasesize ->
  nand_read_skip_bad d (k * erasesize) n = let '(r, l) := chip_read d (k * erasesize) n in
    Some (if (r =? 0) || (r =? - EUCLEAN) then (0, zlen l, l) else (r, 0, l)).
Proof.
  intros Hk Hsz Hg Hn. unfold nand_read_skip_bad. pose proof erasesize_range.
  assert (erasesize | k * erasesize) as Hal by (by exists k). rewrite aligned_page by done. cbn [negb Z.eqb].
  unfold check_skip_len. cbn [skip_len_loop]. rewrite (proj2 (Z.ltb_lt 0 n)), (proj2 (Z.leb_gt chip_size _)) by lia.
  rewrite aligned_start, aligned_offset, nand_isbad by (done || lia). rewrite Hg. cbn [Z.eqb].
  rewrite Z.sub_0_r, Z.add_0_l, (wrap_small 32) by lia. rewrite (proj2 (Z.ltb_ge erasesize n)) by lia.
  cbn [mbind option_bind Z.ltb Z.compare Z.eqb]. rewrite nand_read_block by done. by destruct (chip_read d (k * erasesize) n).
Qed.

End Geometry.

(** ** Erasing, writing and reading an area with bad blocks *)

Section RoundTrip.
Context {D : Type} `{ChipLaws D} `{!ReliableErase D}.

(** The number of good blocks among [n] blocks from block [k] on. *)
Fixpoint goods (d : D) (k : Z) (n : nat) : Z :=
  match n with
  | O => 0
  | S n => (if chip_block_isbad d (k * erasesize) =? 0 then 1 else 0) + goods d (k + 1) n
  end.

Lemma goods_ext d d' : (forall x, chip_block_isbad d' x = chip_block_isbad d x) -> forall n k, goods d' k n = goods d k n.
Proof. intros Hb. induction n as [| n IH]; intros k; cbn [goods]; [done |]. by rewrite Hb, IH. Qed.

Lemma goods_nonneg d : forall n k, 0 <= goods d k n.
Proof. induction n as [| n IH]; intros k; cbn [goods]; [done |]. specialize (IH (k + 1)). destruct (_ =? 0); lia. Qed.

(** The good blocks among [n] blocks from block [k] on are erased. *)
Definition blank_area (d : D) (k : Z) (n : nat) : Prop :=
  forall j, k <= j < k + Z.of_nat n -> j * erasesize < chip_size -> good d (j * erasesize) -> blank d (j * erasesize).

Lemma blank_frame d d' k j : (forall k' x m, k' <> k -> in_block k' x m -> chip_read d' x m = chip_read d x m) -> j <> k ->
  blank d (j * erasesize) -> blank d' (j * erasesize).
Proof. intros Hf Hj Hb x m H1 H2 H3. rewrite (Hf j x m Hj) by (unfold in_block; lia). by apply Hb. Qed.

Lemma isbad_beyond d a : chip_size < a -> mtd_block_isbad d a = -22.
Proof.
  intros Ha. unfold mtd_block_isbad. pose proof chip_size_range.
  by rewrite (proj2 (Z.ltb_ge a 0)), (proj2 (Z.ltb_lt chip_size _)) by lia.
Qed.

(** *** Erasing *)

(** The loop erases the good blocks of an area; the blocks that count are the
    good ones with [spread], all blocks without. *)
Lemma erase_loop_area opts L : scrub opts = false -> jffs2 opts = false -> writeable = true ->
  forall fuel d k erased d', 0 <= k -> k * erasesize <= chip_size -> erased <= L ->
  erase_loop fuel d opts (k * erasesize) erased L = Some (d', 0) ->
  (forall x, chip_block_isbad d' x = chip_block_isbad d x) /\
  exists n, (if spread opts then goods d k n else Z.of_nat n) = L - erased /\ blank_area d' k n /\
  (forall k' x m, k' < k \/ k + Z.of_nat n <= k' -> in_block k' x m -> chip_read d' x m = chip_read d x m).
Proof.
  intros Hs Hj Hw. induction fuel as [| fuel IH]; intros d k erased d' Hk Hsz HL He; [done |]. cbn [erase_loop] in He.
  pose proof erasesize_range as Hbs. pose proof chip_size_range as Hcs.
  destruct (Z.ltb_spec erased L) as [Hlt | Hge].
  2: { injection He as <-. split; [done |]. exists 0%nat. split_and!; [destruct (spread opts); cbn; lia | intros j Hj1; lia | done]. }
  rewrite Hs in He. rewrite swrap_small in He by nia. change (mtd_block_isbad d) with (nand_block_isbad d) in He.
  rewrite nand_isbad in He by done. set (bad := chip_block_isbad d (k * erasesize)) in *.
  replace (u64 (k * erasesize + erasesize)) with ((k + 1) * erasesize) in He by (rewrite wrap_small; nia).
  (* the loop behind the last block *)
  assert (forall d0 e0, chip_size < (k + 1) * erasesize -> e0 <= L ->
    erase_loop fuel d0 opts ((k + 1) * erasesize) e0 L = Some (d', 0) -> d' = d0 /\ e0 = L) as Hbehind.
  { intros d0 e0 Hb He0 Hl. destruct fuel as [| fuel']; [done |]. cbn [erase_loop] in Hl. destruct (Z.ltb_spec e0 L).
    - rewrite Hs in Hl. rewrite swrap_small in Hl by nia. rewrite isbad_beyond in Hl by lia. done.
    - injection Hl as <-. split; [done | lia]. }
  destruct (Z.ltb_spec 0 bad) as [Hbad | Hnb].
  { set (e0 := if spread opts then erased else erased + 1) in *.
    assert (e0 <= L) as He0 by (unfold e0; destruct (spread opts); lia).
    destruct (Z.le_gt_cases ((k + 1) * erasesize) chip_size) as [Hin | Hout].
    - destruct (IH d (k + 1) e0 d') as (H1 & n & H3 & H4 & H5); [lia | done | done | done |]. split; [done |].
      exists (S n). split_and!.
      + cbn [goods]. fold bad. rewrite (proj2 (Z.eqb_neq bad 0)) by lia. unfold e0 in H3. destruct (spread opts); lia.
      + intros j Hjr Hjs Hg. destruct (Z.eq_dec j k) as [-> | Hne]; [| apply H4; lia || done].
        unfold good in Hg. rewrite H1 in Hg. fold bad in Hg. lia.
      + intros k' x m Hk'. apply H5. lia.
    - destruct (Hbehind d e0 ltac:(lia) He0 He) as [-> He0']. split; [done |]. unfold e0 in He0'. destruct (spread opts); [lia |].
      exists 1%nat. split_and!; [lia | | done]. intros j Hjr Hjs Hg. replace j with k in * by lia. unfold good in Hg. fold bad in Hg. lia. }
  destruct (Z.ltb_spec bad 0) as [| Hnn]; [done |].
  destruct (erase_block_frame d opts k Hs Hj Hk) as [Hb1 Hf1]. set (d1 := erase_block d opts (k * erasesize)) in *.
  destruct (Z.le_gt_cases ((k + 1) * erasesize) chip_size) as [Hin | Hout].
  - destruct (IH d1 (k + 1) (erased + 1) d') as (H1 & n & H3 & H4 & H5); [lia | done | lia | done |].
    split; [intros x; by rewrite H1 |]. exists (S n). split_and!.
    + cbn [goods]. fold bad. rewrite (proj2 (Z.eqb_eq bad 0)) by lia. rewrite <- (goods_ext d d1 Hb1 n). destruct (spread opts); lia.
    + intros j Hjr Hjs Hg. destruct (Z.eq_dec j k) as [-> | Hne]; [| apply H4; lia || done].
      intros x m Hx1 Hx2 Hx3. rewrite (H5 k) by (lia || unfold in_block; lia).
      apply (erase_block_blank d opts k); try done. unfold good. lia.
    + intros k' x m Hk' Hx. rewrite (H5 k' x m ltac:(lia) Hx). by apply (Hf1 k'); [lia |].
  - destruct (Hbehind d1 (erased + 1) ltac:(lia) ltac:(lia) He) as [-> He0]. split; [done |]. exists 1%nat. split_and!.
    + cbn [goods]. fold bad. rewrite (proj2 (Z.eqb_eq bad 0)) by lia. destruct (spread opts); lia.
    + assert (k * erasesize = chip_size) as Hlast.
      { destruct (Z.lt_ge_cases (k * erasesize) chip_size) as [Hl |]; [pose proof (whole_block k Hl); lia | lia]. }
      intros j Hjr Hjs. nia.
    + intros k' x m Hk' Hx. apply (Hf1 k'); [lia | done].
Qed.

Lemma erase_area d k length sp d' : 0 <= k -> k * erasesize <= chip_size -> 0 <= length < 2 ^ 32 -> writeable = true ->
  nand_erase_opts d (EraseOptions length (k * erasesize) false false sp) = Some (d', 0) ->
  (forall x, chip_block_isbad d' x = chip_block_isbad d x) /\
  exists n, (if sp then goods d k n else Z.of_nat n) = (length + erasesize - 1) / erasesize /\ blank_area d' k n /\
  (forall k' x m, k' < k \/ k + Z.of_nat n <= k' -> in_block k' x m -> chip_read d' x m = chip_read d x m).
Proof.
  intros Hk Hsz Hlen Hw He. pose proof erasesize_range as Hbs. pose proof chip_size_range as Hcs.
  unfold nand_erase_opts in He. cbn [length_ offset scrub] in He.
  rewrite aligned_page in He by (by exists k). cbn [negb Z.eqb] in He. unfold lldiv in He.
  rewrite (wrap_small 64 (length + _ - 1)) in He by lia. rewrite do_div_spec in He by lia. cbn [mbind option_bind] in He.
  set (L := (length + erasesize - 1) / erasesize) in *.
  assert (0 <= L < 2 ^ 32) as HL by (unfold L; split; [apply Z.div_pos; lia | apply Z.div_lt_upper_bound; nia]).
  rewrite (wrap_small 32 L) in He by done. rewrite (wrap_small 64) in He by nia.
  destruct (erase_loop _ _ _ _ _ _) as [[d1 r] |] eqn:Hloop; [| done]. cbn [mbind option_bind] in He.
  rewrite andb_false_r in He. injection He as -> ->.
  destruct (erase_loop_area (EraseOptions length (k * erasesize) false false sp) L eq_refl eq_refl Hw _ _ _ _ _
    Hk Hsz (proj1 HL) Hloop) as (H1 & n & H2 & H3 & H4).
  cbn [spread] in H2. split; [done |]. exists n. split_and!; [lia | done | done].
Qed.

Lemma erase_spread d k length d' : 0 <= k -> k * erasesize <= chip_size -> 0 <= length < 2 ^ 32 -> writeable = true ->
  nand_erase_opts d (EraseOptions length (k * erasesize) false false true) = Some (d', 0) ->
  (forall x, chip_block_isbad d' x = chip_block_isbad d x) /\ exists n, length <= erasesize * goods d' k n /\ blank_area d' k n.
Proof.
  intros Hk Hsz Hlen Hw He. pose proof erasesize_range as Hbs. destruct (erase_area d k length true d') as (H1 & n & H2 & H3 & _); try done.
  split; [done |]. exists n. rewrite (goods_ext d d' H1), H2. split; [| done]. assert (erasesize <> 0) as Hnz by lia.
  pose proof (Z.div_mod (length + erasesize - 1) erasesize Hnz). pose proof (Z.mod_pos_bound (length + erasesize - 1) erasesize (proj1 Hbs)). lia.
Qed.

(** *** Writing and reading *)

Lemma write_beyond trimffs flags : forall fuel d k left l d' rest, 0 <= k -> chip_size <= k * erasesize -> 0 < left -> left = zlen l ->
  Z.land flags WITH_DROP_FFS = 0 -> write_skip_loop fuel trimffs d (k * erasesize) left l flags <> Some (d', 0, rest).
Proof.
  induction fuel as [| fuel IH]; intros d k left l d' rest Hk Hsz Hleft Hl Hfl; [done |]. cbn [write_skip_loop].
  pose proof erasesize_range as Hbs.
  rewrite (proj2 (Z.ltb_lt 0 left)), aligned_offset, Z.sub_0_r by (lia || by exists k).
  destruct (negb _).
  { replace (k * erasesize + erasesize) with ((k + 1) * erasesize) by lia. apply IH; try done; nia. }
  rewrite Hfl, andb_false_r. cbn [mbind option_bind]. unfold nand_write, mtd_write.
  set (chunk := take _ l). assert (0 < zlen chunk) as Hch by (unfold chunk; rewrite length_take; lia).
  assert ((k * erasesize <? 0) || (chip_size <? k * erasesize) || (chip_size - k * erasesize <? zlen chunk) = true) as ->.
  { rewrite (proj2 (Z.ltb_lt (chip_size - _) _)) by lia. by rewrite orb_true_r. }
  done.
Qed.

(** What a loop of writes stored can be read by a loop of reads. *)
Lemma write_read_skip trimffs : forall fuel d k n l d' rest acc, 0 <= k -> is_bytes l -> zlen l < 2 ^ 32 ->
  zlen l <= erasesize * goods d k n -> blank_area d k n ->
  write_skip_loop fuel trimffs d (k * erasesize) (zlen l) l 0 = Some (d', 0, rest) ->
  rest = 0 /\ (forall x, chip_block_isbad d' x = chip_block_isbad d x) /\
  (forall k' x m, k' < k -> in_block k' x m -> chip_read d' x m = chip_read d x m) /\
  read_skip_loop fuel d' (k * erasesize) (zlen l) acc = Some (0, 0, acc ++ l).
Proof.
  induction fuel as [| fuel IH]; intros d k n l d' rest acc Hk Hb Hl32 Hcov Hblank Hw; [done |].
  pose proof erasesize_range as Hbs. pose proof chip_size_range as Hcs.
  destruct (Z.lt_ge_cases 0 (zlen l)) as [Hpos | Hz].
  2: { destruct l; [| cbn in Hz; lia]. injection Hw as <- <-. cbn. by rewrite app_nil_r. }
  destruct (Z.lt_ge_cases (k * erasesize) chip_size) as [Hsz | Hbeyond].
  2: { exfalso. by apply (write_beyond trimffs 0 (S fuel) d k (zlen l) l d' rest). }
  cbn [write_skip_loop read_skip_loop] in *. rewrite (proj2 (Z.ltb_lt 0 (zlen l))) in * by done.
  assert (erasesize | k * erasesize) as Hal by (by exists k).
  assert (0 <= k * erasesize < 2 ^ 32) as Hr32 by nia.
  rewrite aligned_offset, aligned_start32, Z.sub_0_r, nand_isbad in Hw by (done || lia).
  rewrite aligned_offset, aligned_start32, Z.sub_0_r, nand_isbad by (done || lia).
  destruct n as [| n]; [cbn [goods] in Hcov; lia |]. cbn [goods] in Hcov.
  replace (k * erasesize + erasesize) with ((k + 1) * erasesize) in Hw by lia.
  replace (k * erasesize + erasesize) with ((k + 1) * erasesize) by lia.
  destruct (Z.eqb_spec (chip_block_isbad d (k * erasesize)) 0) as [Hg | Hbad]; cbn [negb] in *.
  - set (ws := Z.min (zlen l) erasesize) in *. cbn [mbind option_bind] in Hw. rewrite andb_false_r in Hw. cbn [mbind option_bind] in Hw.
    set (chunk := take (Z.to_nat ws) l) in *. assert (zlen chunk = ws) as Hch by (unfold chunk; rewrite length_take; lia).
    destruct (nand_write d (k * erasesize) chunk) as [[d1 rv] rn] eqn:Hnw.
    destruct (Z.eqb_spec rv 0) as [-> |]; cbn [negb] in Hw; [| by injection Hw].
    assert (0 < zlen chunk <= erasesize) as Hchr by lia.
    destruct (nand_write_block d k chunk d1 0 rn Hk Hsz Hchr Hnw) as (Hb1 & Hf1 & Hread).
    destruct Hread as (_ & r & Hr & Hrd); [done | done | apply Hblank; [lia | done | done] | by apply Forall_take |].
    assert (in_block k (k * erasesize) (zlen chunk)) as Hin by (by apply in_block_start).
    assert (zlen (drop (Z.to_nat ws) l) = zlen l - ws) as Hdl by (rewrite length_drop; lia).
    assert (blank_area d1 (k + 1) n) as Hblank1.
    { intros j Hj Hjs Hgj. apply (blank_frame d d1 k j Hf1); [lia |]. apply Hblank; [lia | done |].
      unfold good in *. by rewrite Hb1 in Hgj. }
    assert (zlen (drop (Z.to_nat ws) l) <= erasesize * goods d1 (k + 1) n) as Hcov1 by (rewrite (goods_ext d d1 Hb1), Hdl; pose proof (goods_nonneg d n (k + 1)); nia).
    assert (chip_read d1 (k * erasesize) ws = (r, chunk)) as Hrd1 by (by rewrite Hch in Hrd).
    assert (forall x, chip_block_isbad d' x = chip_block_isbad d1 x -> chip_block_isbad d' x = chip_block_isbad d x) as Hbad'
      by (intros x ->; apply Hb1).
    assert (forall left acc', read_skip_loop fuel d' (k * erasesize + ws) left acc' =
      Some (0, 0, acc' ++ drop (Z.to_nat ws) l) -> chip_read d' (k * erasesize) ws = (r, chunk) -> left = zlen l - ws ->
      acc' = acc ++ chunk -> (forall x, chip_block_isbad d' x = chip_block_isbad d1 x) ->
      (if negb (chip_block_isbad d' (k * erasesize) =? 0) then read_skip_loop fuel d' ((k + 1) * erasesize) (zlen l) acc
       else let '(rval, read_length, l0) := nand_read d' (k * erasesize) ws in
            if negb (rval =? 0) && negb (rval =? - EUCLEAN) then Some (rval, zlen l, acc ++ l0)
            else read_skip_loop fuel d' (k * erasesize + read_length) (u32 (zlen l - read_length)) (acc ++ l0)) =
      Some (0, 0, acc ++ l)) as Hfinish.
    { intros left acc' Hrest Hrk -> -> Hbd. rewrite Hbd, Hb1, Hg. cbn [negb Z.eqb]. rewrite nand_read_block by lia. rewrite Hrk, Hch.
      assert (negb (r =? 0) && negb (r =? - EUCLEAN) = false) as -> by (destruct Hr as [-> | ->]; done).
      rewrite wrap_small by lia. rewrite Hrest, <- app_assoc. unfold chunk. by rewrite take_drop. }
    destruct (Z.eq_dec ws erasesize) as [Hfull | Hpart].
    + replace (k * erasesize + ws) with ((k + 1) * erasesize) in * by lia. rewrite <- Hdl in Hw.
      destruct (IH d1 (k + 1) n (drop (Z.to_nat ws) l) d' rest (acc ++ chunk)) as (H1 & H2 & H3 & H4);
        [lia | by apply Forall_drop | lia | done | done | done |].
      split_and!; [done | intros x; by apply Hbad', H2 | |].
      * intros k' x m Hk' Hx. rewrite (H3 k') by (done || lia). apply (Hf1 k'); [lia | done].
      * apply (Hfinish (zlen l - ws) (acc ++ chunk)); try done; [by rewrite <- Hdl |].
        rewrite (H3 k); [done | lia | by rewrite <- Hch].
    + assert (zlen l - ws = 0) as Hend by lia. rewrite Hend in Hw. destruct fuel as [| fuel]; [done |].
      injection Hw as <- <-. split_and!; [done | done | intros k' x m Hk' Hx; apply (Hf1 k'); [lia | done] |].
      apply (Hfinish 0 (acc ++ chunk)); try done. rewrite drop_ge by lia. cbn. by rewrite app_nil_r.
  - destruct (IH d (k + 1) n l d' rest acc) as (H1 & H2 & H3 & H4);
      [lia | done | done | by rewrite Z.add_0_l in Hcov | intros j Hj; apply Hblank; lia | done |].
    rewrite H2. rewrite (proj2 (Z.eqb_neq _ 0)) by done. cbn [negb]. split_and!; try done. intros k' x m Hk'. apply H3. lia.
Qed.

Lemma skip_len_ext d d' : (forall x, chip_block_isbad d' x = chip_block_isbad d x) -> forall fuel o len acc ret,
  skip_len_loop fuel d' o len acc ret = skip_len_loop fuel d o len acc ret.
Proof.
  intros Hb. induction fuel as [| fuel IH]; intros o len acc ret; cbn [skip_len_loop]; [done |].
  assert (nand_block_isbad d' (block_start o) = nand_block_isbad d (block_start o)) as ->.
  { unfold nand_block_isbad, mtd_block_isbad. by rewrite Hb. }
  destruct (acc <? len); [| done]. destruct (chip_size <=? o); [done |]. destruct (_ =? 0); apply IH.
Qed.

Lemma skip_len_nonzero d : forall fuel o len acc, skip_len_loop fuel d o len acc 1 <> Some 0.
Proof.
  induction fuel as [| fuel IH]; intros o len acc; cbn [skip_len_loop]; [done |].
  destruct (acc <? len); [| done]. destruct (chip_size <=? o); [done |]. destruct (_ =? 0); apply IH.
Qed.

(** No bad blocks were found: the blocks of the area are good. *)
Lemma skip_len_zero d len : len + erasesize <= 2 ^ 32 -> forall fuel k acc, 0 <= k -> 0 <= acc ->
  skip_len_loop fuel d (k * erasesize) len acc 0 = Some 0 ->
  forall j, k <= j -> acc + (j - k) * erasesize < len -> good d (j * erasesize) /\ j * erasesize < chip_size.
Proof.
  intros Hlen. pose proof erasesize_range as Hbs. induction fuel as [| fuel IH]; intros k acc Hk Hacc Hs j Hj Hlt; [done |].
  cbn [skip_len_loop] in Hs. assert (acc < len) as Hal by nia. rewrite (proj2 (Z.ltb_lt acc len)) in Hs by done.
  destruct (Z.leb_spec chip_size (k * erasesize)) as [| Hsz]; [done |].
  assert (erasesize | k * erasesize) as Hdiv by (by exists k).
  rewrite aligned_offset, aligned_start, nand_isbad, Z.sub_0_r in Hs by (done || lia).
  replace (k * erasesize + erasesize) with ((k + 1) * erasesize) in Hs by lia.
  destruct (Z.eqb_spec (chip_block_isbad d (k * erasesize)) 0) as [Hg | _]; [| by apply skip_len_nonzero in Hs].
  rewrite (wrap_small 32) in Hs by lia.
  destruct (Z.eq_dec j k) as [-> | Hne]; [by split |]. apply (IH (k + 1) (acc + erasesize)); try done; nia.
Qed.

(** The first blocks of an area are good, so there are at least as many. *)
Lemma goods_prefix d : forall n k, (forall j, k <= j < k + Z.of_nat n -> good d (j * erasesize)) -> goods d k n = Z.of_nat n.
Proof.
  induction n as [| n IH]; intros k Hg; cbn [goods]; [done |]. rewrite IH by (intros j Hj; apply Hg; lia).
  rewrite (Hg k) by lia. cbn [Z.eqb]. lia.
Qed.

Lemma goods_le d : forall n k, goods d k n <= Z.of_nat n.
Proof. induction n as [| n IH]; intros k; cbn [goods]; [done |]. specialize (IH (k + 1)). destruct (_ =? 0); lia. Qed.

(** C23: Data written around bad blocks can be read back.  When an area was erased
    with [nand_erase_opts], skipping bad blocks without counting them, and
    [nand_write_skip_bad] then reports success, it wrote the whole buffer, and
    [nand_read_skip_bad] returns it, whatever blocks of the area are bad. *)
Theorem nand_skip_bad_roundtrip trimffs d k l d1 d2 n : 0 <= k -> k * erasesize <= chip_size -> writeable = true ->
  is_bytes l -> 0 < zlen l -> zlen l + erasesize <= 2 ^ 32 ->
  nand_erase_opts d (EraseOptions (zlen l) (k * erasesize) false false true) = Some (d1, 0) ->
  nand_write_skip_bad trimffs d1 (k * erasesize) (zlen l) l 0 = Some (d2, 0, n) ->
  n = zlen l /\ nand_read_skip_bad d2 (k * erasesize) (zlen l) = Some (0, zlen l, l).
Proof.
  intros Hk Hsz Hwr Hb Hpos Hl32 Herase Hwrite. pose proof erasesize_range as Hbs.
  destruct (erase_spread d k (zlen l) d1 Hk Hsz ltac:(lia) Hwr Herase) as (_ & N & Hcov & Hblank).
  unfold nand_write_skip_bad in Hwrite. unfold nand_read_skip_bad.
  rewrite aligned_page in * by (by exists k). cbn [negb Z.eqb] in *. rewrite take_ge in Hwrite by lia.
  destruct (check_skip_len d1 (k * erasesize) (zlen l)) as [skip |] eqn:Hcheck; [| done]. cbn [mbind option_bind] in Hwrite.
  assert (forall d, (forall x, chip_block_isbad d x = chip_block_isbad d1 x) -> check_skip_len d (k * erasesize) (zlen l) = Some skip) as Hsame.
  { intros d0 Hd0. unfold check_skip_len. by rewrite (skip_len_ext d1 d0 Hd0). }
  destruct (Z.ltb_spec skip 0) as [| Hge]; [done |]. rewrite Z.land_0_l in Hwrite. cbn [Z.eqb] in Hwrite. rewrite andb_true_r in Hwrite.
  destruct (Z.eqb_spec skip 0) as [-> | Hskip].
  - (* one write *)
    pose proof (skip_len_zero d1 (zlen l) Hl32 _ k 0 Hk (Z.le_refl 0) Hcheck) as Hgood.
    unfold nand_write, mtd_write in Hwrite.
    destruct ((k * erasesize <? 0) || (chip_size <? k * erasesize) || (chip_size - k * erasesize <? zlen l)) eqn:Hrange; [done |].
    rewrite Hwr, (proj2 (Z.eqb_neq (zlen l) 0)) in Hwrite by lia. cbn [negb] in Hwrite.
    destruct (chip_write d1 (k * erasesize) l) as [[dw rw] nw] eqn:Hcw.
    destruct (Z.eqb_spec rw 0) as [-> | Hrw]; [| injection Hwrite as _ ->; done]. injection Hwrite as -> ->.
    destruct (write_reads _ _ _ _ _ Hcw Hpos Hb) as (-> & r & Hr & Hrd).
    { intros j. rewrite block_of_mul. intros Hj. unfold block_of in Hj.
      assert ((j - k) * erasesize < zlen l) as Hlt.
      { destruct Hj as [Hj1 Hj2]. assert (j * erasesize <= k * erasesize + zlen l - 1); [| lia].
        etransitivity; [apply Z.mul_le_mono_nonneg_r; [lia | exact Hj2] |]. rewrite Z.mul_comm. apply Z.mul_div_le. lia. }
      destruct (Hgood j ltac:(lia) ltac:(lia)) as [Hg Hs]. split; [done |]. apply Hblank; [| done | done].
      split; [lia |]. destruct (Z.lt_ge_cases j (k + Z.of_nat N)) as [| Hout]; [done |]. pose proof (goods_le d1 N k). nia. }
    split; [done |]. rewrite (Hsame d2) by (intros x; by apply (write_keeps_bad _ _ _ _ _ _ x Hcw)).
    cbn [mbind option_bind Z.ltb Z.compare Z.eqb]. unfold nand_read, mtd_read. rewrite Hrange, (proj2 (Z.eqb_neq (zlen l) 0)), Hrd by lia.
    destruct Hr as [-> | ->]; done.
  - destruct (write_skip_loop _ _ _ _ _ _ _) as [[[dw rv] rest] |] eqn:Hloop; [| done]. cbn [mbind option_bind] in Hwrite.
    injection Hwrite as -> -> <-.
    destruct (write_read_skip trimffs _ _ _ N l _ _ [] Hk Hb ltac:(lia) Hcov Hblank Hloop) as (-> & Hbad & _ & Hread).
    split; [lia |]. rewrite (Hsame d2 Hbad). cbn [mbind option_bind]. rewrite (proj2 (Z.ltb_ge skip 0)), (proj2 (Z.eqb_neq skip 0)) by done.
    rewrite Hread. done.
Qed.
End RoundTrip.

(** ** Termination *)

Section Termination.
Context {D : Type} `{ChipLaws D}.

Lemma block_start_eq o : block_start o = block_of o * erasesize.
Proof.
  unfold block_start, block_of. destruct chip_geometry as (a & b & Hb & Ha & -> & _).
  replace (2 ^ a - 1) with (Z.ones a) by (rewrite Z.ones_equiv; lia).
  by rewrite <- Z.ldiff_land, Z.ldiff_ones_r, Z.shiftr_div_pow2, Z.shiftl_mul_pow2 by lia.
Qed.

Lemma block_start32_eq o : 0 <= o < 2 ^ 32 -> block_start32 o = block_start o.
Proof.
  intros Ho. unfold block_start32, wrap. rewrite <- Z.land_ones, Z.land_assoc by lia. fold (block_start o).
  rewrite block_start_eq. pose proof erasesize_range as Hbs. unfold block_of.
  pose proof (Z.mul_div_le o erasesize (proj1 Hbs)). pose proof (Z.div_pos o erasesize (proj1 Ho) (proj1 Hbs)).
  rewrite Z.land_ones, Z.mod_small by lia. done.
Qed.

(** The start of the next block. *)
Lemma next_block o : o + (erasesize - block_offset o) = (block_of o + 1) * erasesize /\ 0 <= block_offset o < erasesize.
Proof.
  pose proof erasesize_range as Hbs. unfold block_offset, block_of. destruct chip_geometry as (a & b & Hb & Ha & He & _).
  rewrite He in *. rewrite land_mask by lia. pose proof (Z.mod_pos_bound o (2 ^ a) ltac:(lia)).
  rewrite (Z.div_mod o (2 ^ a)) at 1 by lia. lia.
Qed.

Lemma skip_len_total d len : forall fuel o acc ret, chip_size <= (block_of o + Z.of_nat fuel - 1) * erasesize -> (0 < fuel)%nat ->
  exists r, skip_len_loop fuel d o len acc ret = Some r.
Proof.
  pose proof erasesize_range as Hbs. induction fuel as [| fuel IH]; intros o acc ret Hf Hpos; [lia |]. cbn [skip_len_loop].
  destruct (acc <? len); [| eauto]. destruct (Z.leb_spec chip_size o) as [| Hlt]; [eauto |].
  assert (0 < fuel)%nat as Hfuel.
  { destruct fuel; [| lia]. unfold block_of in Hf. pose proof (Z.mul_div_le o erasesize (proj1 Hbs)). lia. }
  destruct (next_block o) as [-> _]. destruct (_ =? 0); (apply IH; [rewrite block_of_mul; lia | done]).
Qed.

Lemma check_skip_len_total d o len : 0 <= o -> exists r, check_skip_len d o len = Some r.
Proof.
  intros Ho. apply skip_len_total; [| lia]. pose proof erasesize_range as Hbs. pose proof chip_size_range. unfold device_blocks.
  pose proof (Z.div_pos o erasesize Ho (proj1 Hbs)). unfold block_of. destruct chip_blocks as [q Hq]. rewrite Hq, Z.div_mul by lia. nia.
Qed.

(** The writing loop moves in step with the check. *)
Lemma write_skip_total trimffs flags len d0 : len + erasesize <= 2 ^ 32 -> Z.land flags WITH_DROP_FFS = 0 ->
  forall fuel d o acc ret r l, 0 <= o -> 0 <= acc -> (forall x, chip_block_isbad d x = chip_block_isbad d0 x) ->
  skip_len_loop fuel d0 o len acc ret = Some r -> 0 <= r ->
  exists v, write_skip_loop fuel trimffs d o (Z.max 0 (len - acc)) l flags = Some v.
Proof.
  intros Hlen Hfl. pose proof erasesize_range as Hbs. pose proof chip_size_range as Hcs.
  induction fuel as [| fuel IH]; intros d o acc ret r l Ho Hacc Hb Hs Hr; [done |]. cbn [skip_len_loop write_skip_loop] in *.
  destruct (Z.ltb_spec acc len) as [Hlt | Hge].
  2: { rewrite Z.max_l by lia. cbn. eauto. }
  rewrite Z.max_r by lia. rewrite (proj2 (Z.ltb_lt 0 (len - acc))) by lia.
  destruct (Z.leb_spec chip_size o) as [| Hin]; [injection Hs as <-; lia |].
  rewrite block_start32_eq by lia. destruct (next_block o) as [Hnext Hoff].
  assert (nand_block_isbad d (block_start o) = nand_block_isbad d0 (block_start o)) as ->.
  { unfold nand_block_isbad, mtd_block_isbad. by rewrite Hb. }
  destruct (nand_block_isbad d0 (block_start o) =? 0); cbn [negb].
  - rewrite Hfl, andb_false_r. cbn [mbind option_bind]. rewrite (wrap_small 32) in Hs by lia.
    destruct (nand_write d o _) as [[d1 rv] n1] eqn:Hw. destruct (negb (rv =? 0)); [eauto |].
    assert (forall x, chip_block_isbad d1 x = chip_block_isbad d0 x) as Hb1.
    { intros x. rewrite <- Hb. unfold nand_write, mtd_write in Hw.
      destruct (_ || _); [by injection Hw as <- |]. destruct (negb _); [by injection Hw as <- |].
      destruct (_ =? 0); [by injection Hw as <- |]. by apply (write_keeps_bad _ _ _ _ _ _ x Hw). }
    destruct (Z.le_gt_cases (len - acc) (erasesize - block_offset o)) as [Hlast | Hmore].
    + rewrite Z.min_l by lia. destruct fuel as [| fuel]; [done |]. cbn [write_skip_loop].
      rewrite (proj2 (Z.ltb_ge 0 _)) by lia. eauto.
    + rewrite Z.min_r by lia. destruct (IH d1 (o + (erasesize - block_offset o)) (acc + (erasesize - block_offset o)) ret r
        (drop (Z.to_nat (erasesize - block_offset o)) l)) as [v Hv]; try done; [lia | lia |].
      exists v. rewrite <- Hv. f_equal. lia.
  - destruct (IH d (o + (erasesize - block_offset o)) acc 1 r l) as [v Hv]; try done; [lia |].
    exists v. rewrite <- Hv. f_equal. lia.
Qed.

Lemma read_skip_total len d : len + erasesize <= 2 ^ 32 ->
  forall fuel o acc ret r l, 0 <= o -> 0 <= acc -> skip_len_loop fuel d o len acc ret = Some r -> 0 <= r ->
  exists v, read_skip_loop fuel d o (Z.max 0 (len - acc)) l = Some v.
Proof.
  intros Hlen. pose proof erasesize_range as Hbs. pose proof chip_size_range as Hcs.
  induction fuel as [| fuel IH]; intros o acc ret r l Ho Hacc Hs Hr; [done |]. cbn [skip_len_loop read_skip_loop] in *.
  destruct (Z.ltb_spec acc len) as [Hlt | Hge].
  2: { rewrite Z.max_l by lia. cbn. eauto. }
  rewrite Z.max_r by lia. rewrite (proj2 (Z.ltb_lt 0 (len - acc))) by lia.
  destruct (Z.leb_spec chip_size o) as [| Hin]; [injection Hs as <-; lia |].
  rewrite block_start32_eq by lia. destruct (next_block o) as [Hnext Hoff].
  destruct (nand_block_isbad d (block_start o) =? 0); cbn [negb].
  - rewrite (wrap_small 32) in Hs by lia.
    destruct (nand_read d o _) as [[rv n1] l1] eqn:Hrd. destruct (negb (rv =? 0) && negb (rv =? - EUCLEAN)) eqn:Hrv; [eauto |].
    assert (n1 = Z.min (len - acc) (erasesize - block_offset o)) as ->.
    { unfold nand_read, mtd_read in Hrd. destruct (_ || _); [by injection Hrd as <- <- <- |].
      destruct (Z.eqb_spec (Z.min (len - acc) (erasesize - block_offset o)) 0); [lia |].
      destruct (chip_read d o _) as [r0 l0] eqn:Hc. injection Hrd as <- <- <-. apply (read_full _ _ _ _ _ Hc); [lia |].
      apply andb_false_iff in Hrv as [Hrv | Hrv]; apply negb_false_iff, Z.eqb_eq in Hrv; tauto. }
    rewrite wrap_small by lia.
    destruct (Z.le_gt_cases (len - acc) (erasesize - block_offset o)) as [Hlast | Hmore].
    + rewrite Z.min_l by lia. destruct fuel as [| fuel]; [done |]. cbn [read_skip_loop].
      rewrite (proj2 (Z.ltb_ge 0 _)) by lia. eauto.
    + rewrite Z.min_r by lia. destruct (IH (o + (erasesize - block_offset o)) (acc + (erasesize - block_offset o)) ret r (l ++ l1)) as [v Hv];
        try done; [lia | lia |].
      exists v. rewrite <- Hv. f_equal. lia.
  - destruct (IH (o + (erasesize - block_offset o)) acc 1 r l) as [v Hv]; try done; [lia |].
    exists v. rewrite <- Hv. f_equal. lia.
Qed.

Lemma erase_loop_total opts L : forall fuel d addr erased, 0 <= addr < 2 ^ 64 -> (0 < fuel)%nat ->
  (if scrub opts then L - erased < Z.of_nat fuel else chip_size < addr + (Z.of_nat fuel - 1) * erasesize) ->
  exists v, erase_loop fuel d opts addr erased L = Some v.
Proof.
  pose proof erasesize_range as Hbs. pose proof chip_size_range as Hcs.
  induction fuel as [| fuel IH]; intros d addr erased Ha Hpos Hf; [lia |]. cbn [erase_loop].
  destruct (Z.ltb_spec erased L) as [Hlt |]; [| eauto].
  destruct (scrub opts) eqn:Hs.
  - cbn [Z.ltb Z.compare]. apply IH; [apply (wrap_range 64); lia | lia | lia].
  - destruct (Z.lt_ge_cases chip_size addr) as [Hbeyond | Hin].
    + assert (mtd_block_isbad d (swrap 64 addr) = -22) as ->; [| cbn; eauto].
      unfold mtd_block_isbad. destruct (Z.ltb_spec (swrap 64 addr) 0); [done |]. rewrite (proj2 (Z.ltb_lt chip_size _)); [done |].
      unfold swrap in *. change (2 ^ (64 - 1)) with (2 ^ 63) in *.
      destruct (Z.lt_ge_cases addr (2 ^ 63)); [rewrite Z.mod_small in * by lia; lia |].
      replace (addr + 2 ^ 63) with ((addr - 2 ^ 63) + 1 * 2 ^ 64) in * by lia. rewrite Z.mod_add, Z.mod_small in * by lia. lia.
    + assert (0 < fuel)%nat by (destruct fuel; lia).
      replace (u64 (addr + erasesize)) with (addr + erasesize) by (rewrite wrap_small; lia).
      destruct (0 <? _); [apply IH; lia |]. destruct (_ <? 0); [eauto |]. apply IH; lia.
Qed.

Lemma nand_erase_opts_total d opts : 0 <= length_ opts < 2 ^ 63 -> exists v, nand_erase_opts d opts = Some v.
Proof.
  intros Hlen. pose proof erasesize_range as Hbs. pose proof chip_size_range as Hcs.
  unfold nand_erase_opts. destruct (negb _); [eauto |]. unfold lldiv. rewrite (wrap_small 64 (length_ opts + _ - 1)) by lia.
  rewrite do_div_spec by lia. cbn [mbind option_bind]. set (L := u32 _).
  destruct (erase_loop_total opts L (S (S (Z.to_nat L + device_blocks))) (if scrub opts then forget_bbt d else d) (u64 (offset opts)) 0)
    as [[d' r] ->]; [apply (wrap_range 64); lia | lia | | by eexists].
  destruct (scrub opts); [lia |]. unfold device_blocks. destruct chip_blocks as [q Hq]. rewrite Hq, Z.div_mul by lia.
  pose proof (wrap_range 64 (offset opts)). nia.
Qed.

(** C36: The flash functions return: for every driver that keeps its contract,
    [nand_erase_opts], [nand_write_skip_bad] and [nand_read_skip_bad] terminate,
    whatever blocks are bad and whatever the operations of the driver report. *)
Theorem nand_util_terminates trimffs d opts o len buf : 0 <= length_ opts < 2 ^ 63 -> 0 <= o -> 0 <= len ->
  len + erasesize <= 2 ^ 32 ->
  (exists v, nand_erase_opts d opts = Some v) /\
  (exists v, nand_write_skip_bad trimffs d o len buf 0 = Some v) /\
  (exists v, nand_read_skip_bad d o len = Some v).
Proof.
  intros Hlen Ho Hl Hl32. pose proof erasesize_range as Hbs. pose proof chip_size_range as Hcs.
  destruct (check_skip_len_total d o len Ho) as [skip Hskip]. split_and!.
  - by apply nand_erase_opts_total.
  - unfold nand_write_skip_bad. destruct (negb _); [eauto |]. rewrite Hskip. cbn [mbind option_bind].
    destruct (Z.ltb_spec skip 0); [eauto |]. destruct (_ && _).
    { destruct (nand_write d o _) as [[d' rv] n]. eauto. }
    destruct (write_skip_total trimffs 0 len d Hl32 (Z.land_0_l _) _ d o 0 0 skip buf Ho (Z.le_refl 0) (fun _ => eq_refl) Hskip ltac:(done))
      as [[[d' rv] rest] Hv].
    rewrite Z.sub_0_r, Z.max_r in Hv by done. unfold skip_rounds. rewrite Hv. cbn [mbind option_bind]. eauto.
  - unfold nand_read_skip_bad. destruct (negb _); [eauto |]. rewrite Hskip. cbn [mbind option_bind].
    destruct (Z.ltb_spec skip 0); [eauto |]. destruct (skip =? 0).
    { destruct (nand_read d o len) as [[rv n] l]. destruct (_ || _); eauto. }
    destruct (read_skip_total len d Hl32 _ o 0 0 skip [] Ho (Z.le_refl 0) Hskip ltac:(done)) as [[[rv rest] l] Hv].
    rewrite Z.sub_0_r, Z.max_r in Hv by done. unfold skip_rounds. rewrite Hv. cbn [mbind option_bind]. eauto.
Qed.
End Termination.

(** ** A simulated chip *)

(** Sixteen blocks of 32 bytes, with pages of eight bytes.  Writing can only
    clear bits, as in a real chip.  The blocks [stuck] cannot be erased. *)
Module ChipSim.

Record sim (stuck : list Z) : Type := Sim { sim_bad : list Z; sim_mem : Z -> Z }.
Arguments Sim {stuck} _ _.
Arguments sim_bad {stuck} _.
Arguments sim_mem {stuck} _.

(** The memory after [l] was written to [off]. *)
Definition put (m : Z -> Z) (off : Z) (l : list Z) : Z -> Z :=
  fun a => if (off <=? a) && (a <? off + zlen l) then m a & default 255 (l !! Z.to_nat (a - off)) else m a.

(** The memory after an erasure. *)
Definition clear (m : Z -> Z) (off len : Z) : Z -> Z := fun a => if (off <=? a) && (a <? off + len) then 255 else m a.

Definition get (m : Z -> Z) (off n : Z) : list Z := (fun i => m (off + Z.of_nat i)) <$> seq 0 (Z.to_nat n).

Section Sim.
Context (stuck : list Z).

#[export] Instance sim_chip : Chip (sim stuck) := {
  chip_size := 512;
  erasesize := 32;
  writesize := 8;
  writeable := true;
  oobavail := 0;
  chip_block_isbad d o := if existsb (Z.eqb o) (sim_bad d) then 1 else 0;
  chip_erase d a len _ := if existsb (Z.eqb a) stuck then (d, -5) else (Sim (sim_bad d) (clear (sim_mem d) a len), 0);
  chip_read d off n := (0, get (sim_mem d) off n);
  chip_write d off l := (Sim (sim_bad d) (put (sim_mem d) off l), 0, zlen l);
  chip_write_oob d _ _ := (d, 0);
  forget_bbt d := d;
  scan_bbt d := d }.

Lemma get_ext m m' off n : (forall a, off <= a < off + n -> m' a = m a) -> get m' off n = get m off n.
Proof.
  intros Hm. unfold get. apply list_fmap_ext. intros i x Hx. apply lookup_seq in Hx as [-> Hlt]. apply Hm. lia.
Qed.

Lemma get_put m off l : (forall a, off <= a < off + zlen l -> m a = 255) -> is_bytes l -> get (put m off l) off (zlen l) = l.
Proof.
  intros Hm Hl. apply list_eq. intros i. unfold get. rewrite Nat2Z.id, list_lookup_fmap.
  destruct (decide (i < length l)%nat) as [Hi | Hi].
  - rewrite lookup_seq_lt by done. cbn [fmap option_fmap option_map]. unfold put.
    rewrite (proj2 (Z.leb_le _ _)), (proj2 (Z.ltb_lt _ _)), Hm by lia. cbn [andb].
    replace (Z.to_nat (off + Z.of_nat (0 + i) - off)) with i by lia.
    destruct (lookup_lt_is_Some_2 l i Hi) as [x Hx]. rewrite Hx. cbn [default]. rewrite Forall_lookup in Hl. specialize (Hl _ _ Hx).
    change 255 with (Z.ones 8). rewrite Z.land_comm, Z.land_ones by lia. f_equal. by apply Z.mod_small.
  - rewrite lookup_seq_ge by lia. symmetry. apply lookup_ge_None. lia.
Qed.

Lemma blank_byte (d : sim stuck) k a : blank d (k * 32) -> k * 32 <= a < k * 32 + 32 -> sim_mem d a = 255.
Proof.
  intros Hb Ha. specialize (Hb a 1 (proj1 Ha) ltac:(lia)). cbn in Hb. specialize (Hb ltac:(lia)).
  injection Hb as Hb. by rewrite Z.add_0_r in Hb.
Qed.

Lemma apart_bytes o n x m : apart (D := sim stuck) o n x m -> o + n <= x \/ x + m <= o.
Proof.
  unfold apart, block_of. cbn. intros [Hlt | Hlt]; [left | right].
  - destruct (Z.le_gt_cases (o + n) x); [done |]. pose proof (Z.div_le_mono x (o + n - 1) 32). lia.
  - destruct (Z.le_gt_cases (x + m) o); [done |]. pose proof (Z.div_le_mono o (x + m - 1) 32). lia.
Qed.

#[export] Instance sim_laws : ChipLaws (sim stuck).
Proof.
  split.
  - exists 5, 3. cbn. lia.
  - exists 16. reflexivity.
  - cbn. lia.
  - intros d o n r l [= <- <-] Hn _. unfold get. rewrite length_fmap, length_seq. lia.
  - intros d o l d' r n x [= <- <- <-]. done.
  - intros d a len d' r x. cbn. destruct (existsb _ _); by intros [= <- <-].
  - intros d o l d' r n x m [= <- <- <-] Hm Hap%apart_bytes. cbn. f_equal. apply get_ext. intros a Ha. unfold put.
    destruct (Z.leb_spec o a), (Z.ltb_spec a (o + zlen l)); cbn [andb]; try done; lia.
  - intros d a len d' r x m. cbn. destruct (existsb _ _); [by intros [= <- <-] |]. intros [= <- <-] Hm Hap%apart_bytes. cbn.
    f_equal. apply get_ext. intros y Hy. unfold clear. destruct (Z.leb_spec a y), (Z.ltb_spec y (a + len)); cbn [andb]; try done; lia.
  - intros d a d'. cbn. destruct (existsb _ _); [done |]. intros [= <-] _ x m H1 H2 H3. cbn in *. f_equal. unfold get.
    apply list_eq. intros i. rewrite list_lookup_fmap. destruct (decide (i < Z.to_nat m)%nat) as [Hi | Hi].
    + rewrite lookup_seq_lt, lookup_replicate_2 by done. cbn. unfold clear.
      by rewrite (proj2 (Z.leb_le _ _)), (proj2 (Z.ltb_lt _ _)) by lia.
    + rewrite lookup_seq_ge by lia. symmetry. apply lookup_ge_None. rewrite length_replicate. lia.
  - intros d o l d' n [= <- <-] Hl Hb Hblocks. split; [done |]. exists 0. split; [by left |]. cbn. f_equal. apply get_put; [| done].
    intros a Ha. destruct (Hblocks (a / 32)) as [_ Hblank].
    { unfold block_of. cbn. split; apply Z.div_le_mono; lia. }
    apply (blank_byte d (a / 32)); [done |]. pose proof (Z.div_mod a 32). pose proof (Z.mod_pos_bound a 32). lia.
Qed.

End Sim.

(** A chip without such blocks. *)
#[export] Instance sim_reliable : ReliableErase (sim []).
Proof. intros d a _ _ _. reflexivity. Qed.

End ChipSim.

Module NandUtilExamples.
Import ChipSim.

(** The blocks 3 and 4 are bad; the chip was used before. *)
Definition used : sim [] := Sim [0x60; 0x80] (fun a => a mod 7).

(** 70 bytes from block 2 on. *)
Definition image : list Z := (fun i => (i * 37) mod 256) <$> seqZ 0 70.

Lemma image_bytes : is_bytes image.
Proof.
  apply Forall_fmap, Forall_forall. intros i _. cbn. apply Z.mod_pos_bound. lia.
Qed.

Definition erased : sim [] := default used (fst <$> nand_erase_opts used (EraseOptions 70 64 false false true)).
Definition written : sim [] := default used ((fun v => v.1.1) <$> nand_write_skip_bad false erased 64 70 image 0).

Lemma nand_skip_bad_roundtrip_witness :
  nand_write_skip_bad false erased 64 70 image 0 = Some (written, 0, 70) /\
  nand_read_skip_bad written 64 70 = Some (0, 70, image).
Proof.
  assert (nand_write_skip_bad false erased 64 70 image 0 = Some (written, 0, 70)) as Hw by reflexivity.
  split; [exact Hw |].
  destruct (nand_skip_bad_roundtrip false used 2 image erased written 70) as [_ Hr].
  - lia.
  - vm_compute. discriminate.
  - reflexivity.
  - apply image_bytes.
  - reflexivity.
  - vm_compute. discriminate.
  - reflexivity.
  - exact Hw.
  - exact Hr.
Defined.

Lemma nand_util_terminates_witness : exists v, nand_erase_opts used (EraseOptions 70 64 false false true) = Some v.
Proof.
  destruct (nand_util_terminates false used (EraseOptions 70 64 false false true) 64 70 image) as (Hv & _ & _).
  - cbn. lia.
  - lia.
  - lia.
  - vm_compute. discriminate.
  - exact Hv.
Defined.

(** A chip whose block 2 cannot be erased. *)
Definition worn : sim [0x40] := Sim [] (fun a => a mod 7).

(** [nand_erase_opts] reports success when the erasure of a block failed: on a
    chip whose block 2 cannot be erased it returns 0 and leaves the block as it
    was, although the driver reported the error. *)
Theorem nand_erase_opts_hides_failure :
  (mtd_erase worn 0x40 32 false).2 = -5 /\
  exists d', nand_erase_opts worn (EraseOptions 32 0x40 false false false) = Some (d', 0) /\
    nand_read_skip_bad d' 0x40 32 = nand_read_skip_bad worn 0x40 32 /\ (nand_read_skip_bad d' 0x40 32) <> Some (0, 32, replicate 32 0xff).
Proof.
  split; [reflexivity |]. eexists. split; [reflexivity |]. split; [reflexivity |]. vm_compute. discriminate.
Qed.

End NandUtilExamples.
