(* ===== verification/EnvCmd.v ===== *)
(** * The environment commands over memory (common/cmd_nvedit.c)

    "env export" writes the variables to memory, as text, as raw binary data or
    as a block with a checksum; "env import" reads them back; "env grep" shows
    the variables in which a string occurs.  The state is the memory together
    with the environment of Env.v; an access outside the memory is a fault.

    [argv] starts with the name of the command.  The format, the options and the
    addresses are parsed as in the source, with [simple_strtoul]. *)

From S2P Require Import Prelude Crc StringLib Memory Ctype Qsort Hashtable HashIO Vsprintf Env.

Definition CMD_RET_USAGE : Z := -1.
Definition DASH : Z := 45.

(** ** Options *)

(** The variables of the commands that the options set: [sep], [chk], [fmt],
    [del] and [size]. *)
Record options := Options { o_sep : Z; o_chk : bool; o_fmt : Z; o_del : bool; o_size : Z }.

Definition no_options : options := Options 10 false 0 false 0.

(** A format option; [None] is the jump to [sep_err]. *)
Definition set_format (sep : Z) (chk : bool) (o : options) : option options :=
  if negb (o_fmt o =? 0) then None
  else Some (Options sep (o_chk o || chk) (o_fmt o + 1) (o_del o) (o_size o)).

(** [while ( *++arg) switch ( *arg)] of "env export": the letters of one
    argument; [rest] are the arguments behind it, of which "-s" takes the first
    and ends the argument.  [inl] is the return value. *)
Fixpoint export_letters (arg : cstring) (o : options) (rest : list cstring) : Z + options * list cstring :=
  match arg with
  | [] => inr (o, rest)
  | c :: arg =>
      let format sep chk := match set_format sep chk o with Some o => export_letters arg o rest | None => inl 1 end in
      if c =? 98 then format 0 false
      else if c =? 99 then format 0 true
      else if c =? 115 then
        match rest with
        | [] => inl 1
        | v :: rest => inr (Options (o_sep o) (o_chk o) (o_fmt o) (o_del o) (simple_strtoul v 16).1, rest)
        end
      else if c =? 116 then format 10 false
      else inl CMD_RET_USAGE
  end.

(** The letters of "env import". *)
Fixpoint import_letters (arg : cstring) (o : options) (rest : list cstring) : Z + options * list cstring :=
  match arg with
  | [] => inr (o, rest)
  | c :: arg =>
      let format sep chk := match set_format sep chk o with Some o => import_letters arg o rest | None => inl 1 end in
      if c =? 98 then format 0 false
      else if c =? 99 then format 0 true
      else if c =? 116 then format 10 false
      else if c =? 100 then import_letters arg (Options (o_sep o) (o_chk o) (o_fmt o) true (o_size o)) rest
      else inl CMD_RET_USAGE
  end.

(** [while (--argc > 0 && **++argv == '-')]: every round takes an argument. *)
Fixpoint parse_options (letters : cstring -> options -> list cstring -> Z + options * list cstring) (fuel : nat)
    (args : list cstring) (o : options) : option (Z + options * list cstring) :=
  match fuel with
  | O => None
  | S fuel =>
      match args with
      | (c :: arg) :: rest =>
          if c =? DASH then
            match letters arg o rest with
            | inl r => Some (inl r)
            | inr (o, rest) => parse_options letters fuel rest o
            end
          else Some (inr (o, args))
      | _ => Some (inr (o, args))
      end
  end.

Definition command_options (letters : cstring -> options -> list cstring -> Z + options * list cstring) (argv : list cstring) :
    option (Z + options * list cstring) :=
  parse_options letters (S (length argv)) (drop 1 argv) no_options.

Section Commands.
Context (CONFIG_ENV_SIZE : Z) (env_overwrite : bool) (console_assign : Z -> cstring -> Z).
Abbreviation env_size := (ENV_SIZE CONFIG_ENV_SIZE).

(** [offsetof(env_t, data)]. *)
Definition data_offset : Z := 4.

(** ** "env export" *)

(** [sprintf(buf, "%zX", (size_t)len); setenv("filesize", buf);] *)
Definition set_filesize (len : Z) (e : env) : option env :=
  '(buf, _) ← vsnprintf_text (str "%zX") [A32 len];
  '(_, e) ← setenv env_overwrite console_assign (str "filesize") (Some buf) e; Some e.

(** [hexport_r] with the result at address [res]: a null address makes it
    allocate a buffer.  The 4 GiB of the address space bound the buffer. *)
Definition export_to (res sep size : Z) (argv : list cstring) (m : mem) (e : env) : option (Z * mem * env) :=
  '(len, data, w) ← hexport_r (env_htab e) sep (if res =? NULL then None else Some (2 ^ 32)) size argv (surroundings e);
  m ← match data with
      | Some data => if res =? NULL then Some m else store_bytes m res data
      | None => Some m
      end;
  Some (len, m, set_table e w (env_htab e)).

Definition do_env_export (argv : list cstring) (m : mem) (e : env) : option (Z * mem * env) :=
  o ← command_options export_letters argv;
  match o with
  | inl r => Some (r, m, e)
  | inr (_, []) => Some (CMD_RET_USAGE, m, e)
  | inr (o, arg :: argv) =>
      let addr := (simple_strtoul arg 16).1 in
      m ← (if negb (o_size o =? 0) then fst <$> memset m addr 0 (o_size o) else Some m);
      if negb (o_sep o =? 0) then
        '(len, m, e) ← export_to addr (o_sep o) (o_size o) argv m e;
        if len <? 0 then Some (1, m, e)
        else e ← set_filesize len e; Some (0, m, e)
      else
        let res := if o_chk o then addr + data_offset else addr in
        '(len, m, e) ← export_to res 0 env_size argv m e;
        if len <? 0 then Some (1, m, e)
        else
          m ← (if o_chk o then
                 data ← load_bytes m (addr + data_offset) (Z.to_nat env_size);
                 store32 m addr (Crc32.crc32 0 (addr + data_offset) data)
               else Some m);
          e ← set_filesize (u32 (len + data_offset)) e; Some (0, m, e)
  end.

(** ** "env import" *)

Definition MAX_ENV_SIZE : Z := 2 ^ 20.

(** [while (size < MAX_ENV_SIZE) { if (( *s == sep) && ( *(s+1) == '\0')) break; ++s; ++size; }] *)
Fixpoint find_end (n : nat) (sep : Z) (m : mem) (s size : Z) : option Z :=
  match n with
  | O => Some size
  | S n =>
      c ← load m s;
      stop ← (if c =? sep then d ← load m (s + 1); Some (d =? 0) else Some false);
      if stop : bool then Some size else find_end n sep m (s + 1) (size + 1)
  end.

Definition do_env_import (argv : list cstring) (m : mem) (e : env) : option (Z * env) :=
  o ← command_options import_letters argv;
  match o with
  | inl r => Some (r, e)
  | inr (_, []) => Some (CMD_RET_USAGE, e)
  | inr (o, arg :: argv) =>
      let addr := (simple_strtoul arg 16).1 in
      size ← match argv with
             | [arg] => Some (simple_strtoul arg 16).1
             | _ => size ← find_end (Z.to_nat MAX_ENV_SIZE) (o_sep o) m addr 0; Some (size + 2)
             end;
      checked ← (if o_chk o then
                   let size := u32 (size - data_offset) in
                   crc ← load32 m addr;
                   data ← load_bytes m (addr + data_offset) (Z.to_nat size);
                   Some (if Crc32.crc32 0 (addr + data_offset) data =? crc then Some (addr + data_offset, size) else None)
                 else Some (Some (addr, size)));
      match checked with
      | None => Some (1, e)
      | Some (addr, size) =>
          data ← load_bytes m addr (Z.to_nat size);
          '(r, w, h) ← himport_r (apply_env env_overwrite console_assign) data (o_sep o) (if o_del o then 0 else H_NOCLEAR) [] false
            (surroundings e) (env_htab e);
          let e := with_effects env_overwrite console_assign e w h in
          if r =? 0 then Some (1, e) else Some (0, set_env_ready e)
      end
  end.

(** ** "env delete" *)

Definition do_env_delete (argv : list cstring) (e : env) : Z * env := (0, e).

End Commands.

(** ** Lemmas *)

(** More room than [sz] changes nothing. *)
Lemma hexport_capacity h sep sz cap argv w x : sz <> 0 -> sz <= cap ->
  hexport_r h sep (Some sz) sz argv w = Some x -> hexport_r h sep (Some cap) sz argv w = Some x.
Proof.
  intros Hz Hc. unfold hexport_r. destruct (table h) as [t |]; [| done]. cbn [mbind option_bind].
  destruct (export_scan _ _ _ _ _ _ _) as [[lst n] |]; [| done]. cbn [mbind option_bind].
  destruct (qsort cmpkey lst) as [l |]; [| done]. cbn [mbind option_bind].
  destruct (negb _ && _); [done |]. rewrite (proj2 (Z.eqb_neq sz 0)) by done.
  rewrite (proj2 (Z.ltb_ge sz sz)), (proj2 (Z.ltb_ge cap sz)) by lia. cbn [orb].
  destruct (Z.ltb_spec sz (zlen (export_text sep l ++ [0]))); [done |]. by rewrite (proj2 (Z.ltb_ge cap _)) by lia.
Qed.

(** The decimal digits that [setenv] stores for the size. *)
Lemma format_zX v : is_u32 v -> exists t, vsnprintf_text (str "%zX") [A32 v] = Some (t, []).
Proof.
  intros Hv. assert (vsnprintf_text (str "%zX") [A32 v] = t ← number (u32 v) 16 (-1) (-1) 0; Some (t, [])) as ->.
  { by apply (format_one [122; 88]). }
  rewrite (wrap_small 32 v), (number_plain v 16 0) by (try done; try (unfold is_u32 in Hv; lia); unfold base_ok; auto).
  by eexists.
Qed.

Section Lemmas.
Context (env_overwrite : bool).
Context (console_assign : Z -> cstring -> Z).

Lemma set_filesize_total v e t : is_u32 v -> env_wf e t -> flg_env_ready e = true -> occupied t < size (env_htab e) ->
  exists e' t', set_filesize env_overwrite console_assign v e = Some e' /\ env_wf e' t' /\
    flg_env_ready e' = true /\ forall k, k <> str "filesize" -> abs t' !! k = abs t !! k.
Proof.
  intros Hv Hwf Hr Ho. unfold set_filesize. destruct (format_zX v Hv) as [s ->]. cbn [mbind option_bind].
  pose proof (run_envop_refines 0 [] env_overwrite console_assign
    (SetVar (str "filesize") (Some s)) e t Hwf Hr ltac:(cbn [envop_name]; str_lits) Ho) as H.
  cbn [spec_envop run_envop] in H. destruct (set_spec _ _ _ _ _ _ _ _) as [[r m] g] eqn:Hs.
  destruct H as (e' & t' & He & Hwf' & <- & _ & (_ & Hr' & _) & _).
  destruct (setenv _ _ _ _ _) as [[r' e1] |]; [| done]. cbn [mbind option_bind] in *. simplify_eq.
  exists e', t'. split_and!; [done | done | congruence |]. intros k Hk.
  unfold set_spec in Hs. repeat case_match; simplify_eq;
    try (match goal with Hm : _ = abs t' |- _ => rewrite <- Hm end);
    by rewrite ?lookup_insert_ne, ?lookup_delete_ne by done.
Qed.
End Lemmas.

Section Block.
Context (CONFIG_ENV_SIZE : Z) (env_overwrite : bool).
Context (console_assign : Z -> cstring -> Z).
Context (A S : cstring) (addr : Z).
Hypothesis (HA : (simple_strtoul A 16).1 = addr) (HdA : head A <> Some DASH).
Hypothesis (HS : (simple_strtoul S 16).1 = CONFIG_ENV_SIZE) (Hsize : 4 < CONFIG_ENV_SIZE).
Abbreviation env_size := (ENV_SIZE CONFIG_ENV_SIZE).
Abbreviation block data := (le4 (Crc32.crc32 0 (addr + data_offset) data) ++ data).

Lemma parse_stop letters fuel args o : match args with [] => True | x :: _ => head x <> Some DASH end ->
  parse_options letters (Datatypes.S fuel) args o = Some (inr (o, args)).
Proof.
  destruct args as [| [| c x] args]; intros H; [done.. |]. cbn [parse_options].
  destruct (Z.eqb_spec c DASH) as [-> | _]; [by destruct (H eq_refl) | done].
Qed.

Lemma parse_take letters fuel arg rest o o' rest' : letters arg o rest = inr (o', rest') ->
  parse_options letters (Datatypes.S fuel) ((DASH :: arg) :: rest) o = parse_options letters fuel rest' o'.
Proof. intros H. cbn [parse_options]. rewrite Z.eqb_refl. by rewrite H. Qed.

Lemma addr_u32 : 0 <= addr.
Proof. rewrite <- HA. apply strtoul_range. Qed.

(** "env export -c": the block with its checksum is at the address, and nothing
    else in memory has changed. *)
Lemma export_block m e t l n data : data = env_text l ++ replicate n 0 -> zlen data = env_size -> is_bytes data ->
  hexport_r (env_htab e) 0 (Some env_size) env_size [] (surroundings e) = Some (env_size, Some data, surroundings e) ->
  mapped m addr CONFIG_ENV_SIZE -> is_u32 CONFIG_ENV_SIZE ->
  env_wf e t -> flg_env_ready e = true -> occupied t < size (env_htab e) -> exists e' t',
    do_env_export CONFIG_ENV_SIZE env_overwrite console_assign [str "export"; str "-c"; A] m e =
      Some (0, write_bytes m addr (block data), e') /\
    env_wf e' t' /\ flg_env_ready e' = true /\ forall k, k <> str "filesize" -> abs t' !! k = abs t !! k.
Proof.
  intros Hd Hlen Hb Hexp Hm Hu Hwf Hr Ho. pose proof addr_u32 as Ha. unfold ENV_SIZE in Hlen.
  assert (command_options export_letters [str "export"; str "-c"; A] = Some (inr (Options 0 true 1 false 0, [A]))) as Hopt.
  { unfold command_options. cbn [length drop]. change (str "-c") with [DASH; 99]. try change (str "-d") with [DASH; 100].
    rewrite (parse_take export_letters 3 [99] [A] no_options (Options 0 true 1 false 0) [A]) by done.
    by apply parse_stop. }
  unfold do_env_export. rewrite Hopt. cbn [mbind option_bind o_size o_sep o_chk negb]. rewrite HA.
  change (negb (0 =? 0)) with false. cbn iota. cbn [mbind option_bind]. unfold export_to.
  rewrite (proj2 (Z.eqb_neq (addr + data_offset) NULL)) by (unfold NULL, data_offset; lia). cbn iota.
  rewrite (hexport_capacity _ 0 env_size (2 ^ 32) [] _ (env_size, Some data, surroundings e))
    by (done || (unfold ENV_SIZE, is_u32 in *; lia)). cbn [mbind option_bind].
  assert (mapped m (addr + data_offset) (zlen data)) as Hmd.
  { apply (mapped_sub m addr CONFIG_ENV_SIZE); [done | unfold data_offset; lia | unfold data_offset; lia]. }
  rewrite (store_bytes_spec data) by done. cbn [mbind option_bind].
  rewrite (proj2 (Z.ltb_ge env_size 0)) by (unfold ENV_SIZE; lia).
  assert (Z.to_nat env_size = length data) as -> by (unfold ENV_SIZE; lia).
  rewrite (load_bytes_spec data) by (by apply bytes_at_write). cbn [mbind option_bind].
  rewrite store32_spec; [| by apply Crc32Facts.crc32_range |].
  2:{ apply mapped_write, (mapped_sub m addr CONFIG_ENV_SIZE); [done | lia | lia]. }
  cbn [mbind option_bind]. rewrite write_write_back by (unfold data_offset; cbn; lia).
  destruct (set_filesize_total env_overwrite console_assign (u32 (env_size + data_offset))
    (set_table e (surroundings e) (env_htab e)) t) as (e' & t' & Hset & Hwf' & Hr' & Hk).
  - by apply wrap_range.
  - by destruct e.
  - by destruct e.
  - by destruct e.
  - rewrite Hset. by exists e', t'.
Qed.

(** "env import -d -c" of such a block. *)
Lemma import_block m e l n data : data = env_text l ++ replicate (Datatypes.S n) 0 -> zlen data = env_size -> is_bytes data ->
  storable l (zlen data) -> bytes_at m addr (block data) -> is_u32 CONFIG_ENV_SIZE -> usable e -> exists e',
  do_env_import env_overwrite console_assign [str "import"; str "-d"; str "-c"; A; S] m e = Some (0, e') /\ imported e e' l.
Proof.
  intros Hd Hlen Hb Hs Hm Hu Huse. pose proof addr_u32 as Ha. unfold ENV_SIZE in Hlen.
  assert (command_options import_letters [str "import"; str "-d"; str "-c"; A; S] =
    Some (inr (Options 0 true 1 true 0, [A; S]))) as Hopt.
  { unfold command_options. cbn [length drop]. change (str "-c") with [DASH; 99]. try change (str "-d") with [DASH; 100].
    rewrite (parse_take import_letters 5 [100] [[DASH; 99]; A; S] no_options (Options 10 false 0 true 0) [[DASH; 99]; A; S]) by done.
    rewrite (parse_take import_letters 4 [99] [A; S] _ (Options 0 true 1 true 0) [A; S]) by done.
    by apply parse_stop. }
  unfold do_env_import. rewrite Hopt. cbn [mbind option_bind o_size o_sep o_chk o_del negb]. rewrite HA, HS.
  cbn [mbind option_bind]. rewrite wrap_small by (unfold data_offset, is_u32 in *; lia).
  apply bytes_at_app in Hm as [Hc Hm]. assert (is_u32 (Crc32.crc32 0 (addr + data_offset) data)) by (by apply Crc32Facts.crc32_range).
  rewrite (load32_spec m addr (Crc32.crc32 0 (addr + data_offset) data)) by done. cbn [mbind option_bind].
  assert (Z.to_nat (CONFIG_ENV_SIZE - data_offset) = length data) as Hn by (unfold data_offset; lia). rewrite Hn.
  change (addr + zlen (le4 (Crc32.crc32 0 (addr + data_offset) data))) with (addr + data_offset) in Hm.
  rewrite (load_bytes_spec data) by done. cbn [mbind option_bind]. rewrite Z.eqb_refl. cbn iota.
  rewrite Hn, (load_bytes_spec data) by done. cbn [mbind option_bind].
  subst data. destruct (import_env env_overwrite console_assign l n e Huse Hs) as (e' & w & h & -> & -> & Him).
  cbn [mbind option_bind]. by eexists.
Qed.
End Block.

(** C19: The block format of "env export" and "env import": "env export -c A"
    stores the variables with their checksum in the CONFIG_ENV_SIZE bytes at the
    address A, changes no other byte of memory and sets no variable but
    "filesize"; "env import -d -c A S" with the size S = CONFIG_ENV_SIZE then
    makes the variables of any usable environment, after whatever it held
    before, those that were exported.  The variables fit and can be stored with
    NUL as the separator. *)
Theorem env_export_import_block CONFIG_ENV_SIZE env_overwrite console_assign A S m e t e2 :
  let addr := (simple_strtoul A 16).1 in
  head A <> Some DASH -> (simple_strtoul S 16).1 = CONFIG_ENV_SIZE -> 4 < CONFIG_ENV_SIZE ->
  mapped m addr CONFIG_ENV_SIZE -> env_wf e t -> flg_env_ready e = true -> occupied t < size (env_htab e) ->
  storable_table t (ENV_SIZE CONFIG_ENV_SIZE) -> total_room 0 (entries t) < ENV_SIZE CONFIG_ENV_SIZE -> usable e2 ->
  exists m' e1 t1 e3 t3,
    do_env_export CONFIG_ENV_SIZE env_overwrite console_assign [str "export"; str "-c"; A] m e = Some (0, m', e1) /\
    env_wf e1 t1 /\ (forall k, k <> str "filesize" -> abs t1 !! k = abs t !! k) /\
    (forall a, ~ (addr <= a < addr + CONFIG_ENV_SIZE) -> m' !! a = m !! a) /\
    do_env_import env_overwrite console_assign [str "import"; str "-d"; str "-c"; A; S] m' e2 = Some (0, e3) /\
    env_wf e3 t3 /\ abs t3 = abs t /\ globals e3 = globals e2.
Proof.
  intros addr HdA HS Hsize Hm Hwf Hr Ho Hst Hroom Hu2.
  assert (is_u32 CONFIG_ENV_SIZE) as Hu by (rewrite <- HS; apply strtoul_range).
  destruct (export_storable (env_htab e) t (ENV_SIZE CONFIG_ENV_SIZE) (surroundings e) (proj1 Hwf) Hst
    ltac:(unfold ENV_SIZE; lia)) as [Herr | (l & n & Hexp & Hlen & Hsl & Hb & Hl)].
  { exfalso. destruct (hexport_spec (env_htab e) t 0 [] (ENV_SIZE CONFIG_ENV_SIZE) (surroundings e) (proj1 Hwf))
      as (lst & _ & _ & He).
    - rewrite chosen_all. right. apply Forall_forall. intros [k v] Hin. destruct Hst as [Hv _].
      destruct (Hv k v) as (_ & [? _] & ?); [| done]. apply elem_of_list_to_map; [| done].
      apply ok_keys with (size (env_htab e)). apply Hwf.
    - rewrite He, chosen_all in Herr. unfold ENV_SIZE in *. rewrite (proj2 (Z.eqb_neq _ 0)), (proj2 (Z.ltb_ge _ _)) in Herr by lia. done. }
  destruct (export_block CONFIG_ENV_SIZE env_overwrite console_assign A addr eq_refl HdA Hsize
    m e t l (Datatypes.S n) _ eq_refl Hlen Hb Hexp Hm Hu Hwf Hr Ho) as (e1 & t1 & He & Hwf1 & _ & Hk).
  assert (forall crc, is_bytes (le4 crc ++ env_text l ++ replicate (Datatypes.S n) 0)) as Hbb.
  { intros crc. apply Forall_app. split; [apply le4_bytes | done]. }
  destruct (import_block CONFIG_ENV_SIZE env_overwrite console_assign A S addr eq_refl HdA HS Hsize
    (write_bytes m addr (le4 (Crc32.crc32 0 (addr + data_offset) (env_text l ++ replicate (Datatypes.S n) 0)) ++ env_text l ++ replicate (Datatypes.S n) 0))
    e2 l n _ eq_refl Hlen Hb Hsl) as (e3 & Hi & t3 & Hwf3 & Ha3 & Hg3 & _); [by apply bytes_at_write | done | done |].
  eexists _, e1, t1, e3, t3. split_and!; [exact He | done | done | | exact Hi | done | by rewrite Ha3 | done].
  intros a Hna. rewrite write_bytes_lookup, decide_False; [done |].
  rewrite length_app. change (length (le4 _)) with 4%nat. unfold ENV_SIZE in Hlen. lia.
Qed.

Module EnvCmdExamples.
Import HashtableExamples EnvExamples.

(** An environment with the variables [stored]. *)
Definition loaded : option env := snd <$> import_data 64 default_text true no_console data early_env.

Lemma loaded_vars : exists e t, loaded = Some e /\ env_wf e t /\ abs t = list_to_map stored.
Proof.
  destruct (import_data_spec 64 default_text true no_console stored 31 early_env) as (e & He & t & Hwf & Ha & _).
  - split; [by left | reflexivity].
  - apply stored_storable. lia.
  - exists e, t. unfold loaded. change data with (env_text stored ++ replicate 32 0). rewrite He.
    split_and!; [reflexivity | exact Hwf | exact Ha].
Qed.

(** 96 bytes of memory at 0x1000. *)
Definition ram : mem := write_bytes ∅ 0x1000 (replicate 96 7).

Lemma ram_mapped n : n <= 96 -> mapped ram 0x1000 n.
Proof.
  intros Hn a Ha. unfold ram. rewrite write_bytes_lookup.
  change (zlen (replicate 96 7)) with 96. rewrite decide_True by lia.
  apply lookup_lt_is_Some. rewrite length_replicate. lia.
Qed.

Lemma env_export_import_block_witness : exists e m' e1 e3 t3, loaded = Some e /\
  do_env_export 64 true no_console [str "export"; str "-c"; str "1000"] ram e = Some (0, m', e1) /\
  do_env_import true no_console [str "import"; str "-d"; str "-c"; str "0x1000"; str "0x40"] m' fresh_env = Some (0, e3) /\
  env_wf e3 t3 /\ abs t3 = list_to_map stored.
Proof.
  destruct loaded_vars as (e & t & He & Hwf & Ha). pose proof Hwf as [(Ht & _) _].
  assert (stored_table : storable_table t 60).
  { destruct (stored_storable 60 ltac:(lia)) as (Hall & Hnd & Hcount). unfold storable_table. rewrite Ha. split.
    - intros k v Hk. apply elem_of_list_to_map in Hk; [| done]. rewrite Forall_forall in Hall. exact (Hall (k, v) Hk).
    - change (Z.of_nat (base.size (list_to_map stored : gmap (list Z) (list Z)))) with 2. done. }
  destruct (env_export_import_block 64 true no_console (str "1000") (str "0x40") ram e t fresh_env)
    as (m' & e1 & t1 & e3 & t3 & H1 & _ & _ & _ & H2 & H3 & H4 & _).
  - discriminate.
  - reflexivity.
  - lia.
  - change (simple_strtoul (str "1000") 16).1 with 0x1000. apply ram_mapped. lia.
  - exact Hwf.
  - vm_compute in He. injection He as <-. reflexivity.
  - vm_compute in He. injection He as <-. injection Ht as <-. vm_compute. reflexivity.
  - exact stored_table.
  - vm_compute in He. injection He as <-. injection Ht as <-. vm_compute. reflexivity.
  - split; [right; exists (fresh_table 5); apply empty5_wf | reflexivity].
  - exists e, m', e1, e3, t3. split_and!; [exact He | exact H1 | exact H2 | exact H3 | by rewrite H4].
Defined.

(** Where the documented size arguments do not help.  A block written by
    "env export -c" cannot be read back without its size, although the size is
    documented as optional: the scan stops at the end of the variables and the
    checksum of that part is not the one of the block.  "env export -b -s 20"
    writes the 60 bytes of the data area although the buffer is given as 32
    bytes: with no memory behind it the command faults.  And "filesize" is set
    to 64 after it has written 60. *)
Theorem env_export_size_ignored : exists e, loaded = Some e /\
  (exists m' e1, do_env_export 64 true no_console [str "export"; str "-c"; str "1000"] ram e = Some (0, m', e1) /\
    do_env_import true no_console [str "import"; str "-d"; str "-c"; str "1000"] m' fresh_env = Some (1, fresh_env)) /\
  do_env_export 64 true no_console [str "export"; str "-b"; str "-s"; str "20"; str "1000"]
    (write_bytes ∅ 0x1000 (replicate 32 7)) e = None /\
  (exists m' e1, do_env_export 64 true no_console [str "export"; str "-b"; str "-s"; str "20"; str "1000"] ram e = Some (0, m', e1) /\
    m' !! 0x103b = Some 0 /\ m' !! 0x103c = Some 7 /\ (fst <$> getenv 64 default_text (str "filesize") e1) = Some (Some (str "40"))).
Proof.
  eexists. split; [vm_compute; reflexivity |]. split.
  { eexists _, _. split; [vm_compute; reflexivity | vm_compute; reflexivity]. }
  split; [vm_compute; reflexivity |]. eexists _, _. split; [vm_compute; reflexivity |].
  split; [vm_compute; reflexivity |]. split; vm_compute; reflexivity.
Qed.

End EnvCmdExamples.
