(* ===== verification/EnvNand.v ===== *)
(** * The environment in NAND flash (common/env_nand.c)

    [saveenv] exports the environment, adds the checksum, erases the range of
    the environment and writes it block by block, skipping bad blocks;
    [env_relocate_spec] reads the blocks back in the same way and imports them.
    The variant with two copies, CONFIG_ENV_OFFSET_REDUND, is in EnvRedund.v.

    The flash is accessed with the functions of NandUtil.v, over any driver that
    keeps the contract [ChipLaws].  The offset, the range and the size are
    parameters, as they are configuration constants of the board. *)

From S2P Require Import Prelude Crc StringLib Memory Qsort Hashtable HashIO Env NandUtil.

Section EnvNand.
Context {D : Type} `{Chip D}.
Context (CONFIG_ENV_SIZE CONFIG_ENV_OFFSET CONFIG_ENV_RANGE : Z).
Context (default_environment : list Z) (env_overwrite : bool) (console_assign : Z -> cstring -> Z).

(** ** Writing and reading the blocks *)

(** [while (amount_saved < CONFIG_ENV_SIZE && offset < end) ...]: the device,
    and [amount_saved] or the early return.  [nand_write] updates [len]. *)
Fixpoint write_loop (fuel : nat) (d : D) (blocksize len offset end_ amount_saved : Z) (buf : list Z) :
    option (D * option Z) :=
  match fuel with
  | O => None
  | S fuel =>
      if (amount_saved <? CONFIG_ENV_SIZE) && (offset <? end_) then
        if negb (nand_block_isbad d offset =? 0) then
          write_loop fuel d blocksize len (offset + blocksize) end_ amount_saved buf
        else
          let '(d, r, len) := nand_write d offset (take (Z.to_nat len) (drop (Z.to_nat amount_saved) buf)) in
          if negb (r =? 0) then Some (d, None)
          else write_loop fuel d blocksize len (offset + blocksize) end_ (amount_saved + len) buf
      else Some (d, Some amount_saved)
  end.

(** Every round takes at least one byte of the range, as a block has at least
    one. *)
Definition loop_rounds : nat := S (Z.to_nat CONFIG_ENV_RANGE).

Definition writeenv (d : D) (offset : Z) (buf : list Z) : option (D * Z) :=
  let blocksize := erasesize in
  '(d, saved) ← write_loop loop_rounds d blocksize (Z.min blocksize CONFIG_ENV_SIZE) offset (offset + CONFIG_ENV_RANGE) 0 buf;
  Some (d, match saved with
           | None => 1
           | Some amount_saved => if amount_saved =? CONFIG_ENV_SIZE then 0 else 1
           end).

(** [buf] with the bytes [l] stored at index [a]. *)
Definition store_at (buf : list Z) (a : Z) (l : list Z) : list Z :=
  take (Z.to_nat a) buf ++ l ++ drop (Z.to_nat a + length l) buf.

(** The buffer, and [amount_loaded] or the early return.  [nand_read_skip_bad]
    updates [len]. *)
Fixpoint read_loop (fuel : nat) (d : D) (blocksize len offset end_ amount_loaded : Z) (buf : list Z) : option (list Z * option Z) :=
  match fuel with
  | O => None
  | S fuel =>
      if (amount_loaded <? CONFIG_ENV_SIZE) && (offset <? end_) then
        if negb (nand_block_isbad d offset =? 0) then
          read_loop fuel d blocksize len (offset + blocksize) end_ amount_loaded buf
        else
          '(r, len, l) ← nand_read_skip_bad d offset len;
          let buf := store_at buf amount_loaded l in
          if negb (r =? 0) then Some (buf, None)
          else read_loop fuel d blocksize len (offset + blocksize) end_ (amount_loaded + len) buf
      else Some (buf, Some amount_loaded)
  end.

(** The return value and the buffer, which was [buf] before. *)
Definition readenv (d : D) (offset : Z) (buf : list Z) : option (Z * list Z) :=
  let blocksize := erasesize in
  if blocksize =? 0 then Some (1, buf)
  else
    '(buf, loaded) ← read_loop loop_rounds d blocksize (Z.min blocksize CONFIG_ENV_SIZE) offset (offset + CONFIG_ENV_RANGE) 0 buf;
    Some (match loaded with
          | None => 1
          | Some amount_loaded => if negb (amount_loaded =? CONFIG_ENV_SIZE) then 1 else 0
          end, buf).

(** ** One copy *)

Definition saveenv (d : D) (e : env) : option (Z * D * env) :=
  if CONFIG_ENV_RANGE <? CONFIG_ENV_SIZE then Some (1, d, e)
  else
    let env_size := ENV_SIZE CONFIG_ENV_SIZE in
    '(len, data, w) ← hexport_r (env_htab e) 0 (Some env_size) env_size [] (surroundings e);
    let e := set_table e w (env_htab e) in
    match data with
    | None => Some (1, d, e)
    | Some data =>
        if len <? 0 then Some (1, d, e)
        else
          let crc := Crc32.crc32 0 0 data in
          '(d, r) ← nand_erase_opts d (EraseOptions CONFIG_ENV_RANGE CONFIG_ENV_OFFSET false false false);
          if negb (r =? 0) then Some (1, d, e)
          else
            '(d, r) ← writeenv d CONFIG_ENV_OFFSET (le4 crc ++ data);
            Some (if negb (r =? 0) then 1 else 0, d, e)
    end.

(** The command. *)
Definition do_env_save (d : D) (e : env) : option (Z * D * env) :=
  '(r, d, e) ← saveenv d e; Some (if negb (r =? 0) then 1 else 0, d, e).

(** [buf] is the contents of the buffer on the stack. *)
Definition env_relocate_spec (d : D) (buf : list Z) (e : env) : option env :=
  '(ret, buf) ← readenv d CONFIG_ENV_OFFSET buf;
  if negb (ret =? 0) then
    set_default_env CONFIG_ENV_SIZE default_environment env_overwrite console_assign (Some (str "!readenv() failed")) e
  else
    '(_, e) ← env_import CONFIG_ENV_SIZE default_environment env_overwrite console_assign 0 buf true e; Some e.

(** [env_init] of a build without an embedded environment. *)
Definition env_init (e : env) : env :=
  EnvState (env_htab e) (surroundings e) (env_id e) (globals e) (flg_reloc e) (flg_env_ready e) 1 default_environment (env_buf e).

End EnvNand.

(** ** Blocks *)

(** The area of an environment: [n] whole blocks from block [k] on, inside the
    chip, and an environment that fills whole blocks or a part of one. *)
Record env_area {D : Type} `{Chip D} (size offset range : Z) (k : Z) (n : nat) : Prop := EnvArea {
  ea_size : 0 < size;
  ea_offset : offset = k * erasesize;
  ea_range : range = Z.of_nat n * erasesize;
  ea_range32 : range < 2 ^ 32;
  ea_first : 0 <= k;
  ea_inside : (k + Z.of_nat n) * erasesize <= chip_size;
  ea_divides : (Z.min erasesize size | size);
  ea_writeable : writeable = true }.

Section Blocks.
Context {D : Type} `{ChipLaws D}.
Context (size : Z).
Abbreviation wloop := (write_loop size).
Abbreviation rloop := (read_loop size).
Abbreviation len := (Z.min erasesize size).

Lemma divide_next n a b : 0 < n -> (n | a) -> (n | b) -> a < b -> a + n <= b.
Proof.
  intros Hn [p ->] [q ->] Hlt. assert (p < q) by (apply (Z.mul_lt_mono_pos_r n); lia).
  replace (p * n + n) with ((p + 1) * n) by lia. apply Z.mul_le_mono_nonneg_r; lia.
Qed.

Lemma length_chunk (buf : list Z) a n : 0 <= a -> 0 <= n -> a + n <= zlen buf -> zlen (take (Z.to_nat n) (drop (Z.to_nat a) buf)) = n.
Proof. intros. rewrite length_take, length_drop. lia. Qed.

(** The loop ends. *)
Lemma write_loop_total end_ buf : forall fuel d l o a, end_ - o < Z.of_nat fuel -> (0 < fuel)%nat ->
  exists d' r, wloop fuel d erasesize l o end_ a buf = Some (d', r).
Proof.
  pose proof erasesize_range as Hbs. induction fuel as [| fuel IH]; intros d l o a Hf H0'; [lia |]. cbn [write_loop].
  destruct (a <? size), (Z.ltb_spec o end_); cbn [andb]; eauto.
  destruct (negb _); [apply IH; lia |].
  destruct (nand_write d o _) as [[d1 r1] l1]. destruct (negb (r1 =? 0)); [eauto |]. apply IH; lia.
Qed.

(** Writing keeps the bad blocks and what is outside of the area. *)
Lemma write_loop_frame buf k0 n0 : (k0 + Z.of_nat n0) * erasesize <= chip_size -> 0 <= k0 -> (len | size) -> zlen buf = size -> 0 < size ->
  forall fuel d k a d' r, k0 <= k -> 0 <= a -> (len | a) -> is_bytes buf ->
  (forall j, k <= j < k0 + Z.of_nat n0 -> good d (j * erasesize) -> blank d (j * erasesize)) ->
  wloop fuel d erasesize len (k * erasesize) ((k0 + Z.of_nat n0) * erasesize) a buf = Some (d', r) ->
  (forall x, chip_block_isbad d' x = chip_block_isbad d x) /\
  forall j x m, j < k \/ k0 + Z.of_nat n0 <= j -> in_block j x m -> chip_read d' x m = chip_read d x m.
Proof.
  intros Hin Hk0 Hds Hbuf Hsize. pose proof erasesize_range as Hbs.
  induction fuel as [| fuel IH]; intros d k a d' r Hk Ha Hda Hb Hblank Hw; [done |]. cbn [write_loop] in Hw.
  destruct (Z.ltb_spec a size) as [Hlt |]; [| by injection Hw as <- <-].
  destruct (Z.ltb_spec (k * erasesize) ((k0 + Z.of_nat n0) * erasesize)) as [Hke |]; [| by injection Hw as <- <-]. cbn [andb] in Hw.
  assert (k < k0 + Z.of_nat n0) as Hkn by (apply (Z.mul_lt_mono_pos_r erasesize); lia).
  replace (k * erasesize + erasesize) with ((k + 1) * erasesize) in Hw by lia. rewrite nand_isbad in Hw by nia.
  destruct (Z.eqb_spec (chip_block_isbad d (k * erasesize)) 0) as [Hg | Hbad]; cbn [negb] in Hw.
  2: { destruct (IH d (k + 1) a d' r) as (H1 & H2); try done; [lia | intros j Hj; apply Hblank; lia |].
       split; [done |]. intros j x m Hj. apply H2. lia. }
  assert (a + len <= size) as Hfit by (apply (divide_next len); [lia | done..]).
  set (chunk := take (Z.to_nat len) (drop (Z.to_nat a) buf)) in *.
  assert (zlen chunk = len) as Hch by (apply length_chunk; lia).
  destruct (nand_write d (k * erasesize) chunk) as [[d1 r1] l1] eqn:Hw1.
  destruct (nand_write_block d k chunk d1 r1 l1) as (Hb1 & Hf1 & Hread); [lia | lia | lia | done |].
  destruct (Z.eqb_spec r1 0) as [-> |]; cbn [negb] in Hw.
  2: { injection Hw as <- <-. split; [done |]. intros j x m Hj Hx. apply (Hf1 j); [lia | done]. }
  destruct Hread as [-> _]; [done | done | apply Hblank; [lia | done] | by apply Forall_take, Forall_drop |]. rewrite Hch in Hw.
  destruct (IH d1 (k + 1) (a + len) d' r) as (H1 & H2); try done; [lia | lia | by apply Z.divide_add_r; [| apply Z.divide_refl] | |].
  { intros j Hj Hgj. apply (blank_frame d d1 k j Hf1); [lia |]. apply Hblank; [lia |]. unfold good in *. by rewrite Hb1 in Hgj. }
  split; [intros x; by rewrite H1 |]. intros j x m Hj Hx. rewrite (H2 j) by (done || lia). apply (Hf1 j); [lia | done].
Qed.

(** What was written is read back. *)
Lemma write_read_loop buf k0 n0 : (k0 + Z.of_nat n0) * erasesize <= chip_size -> 0 <= k0 -> (len | size) -> zlen buf = size -> 0 < size ->
  forall fuel d k a d' dest, k0 <= k -> 0 <= a <= size -> (len | a) -> is_bytes buf -> zlen dest = size ->
  (forall j, k <= j < k0 + Z.of_nat n0 -> good d (j * erasesize) -> blank d (j * erasesize)) ->
  wloop fuel d erasesize len (k * erasesize) ((k0 + Z.of_nat n0) * erasesize) a buf = Some (d', Some size) ->
  rloop fuel d' erasesize len (k * erasesize) ((k0 + Z.of_nat n0) * erasesize) a dest =
    Some (take (Z.to_nat a) dest ++ drop (Z.to_nat a) buf, Some size).
Proof.
  intros Hin Hk0 Hds Hbuf Hsize. pose proof erasesize_range as Hbs.
  induction fuel as [| fuel IH]; intros d k a d' dest Hk Ha Hda Hb Hdest Hblank Hw; [done |]. pose proof Hw as Hw0.
  cbn [write_loop] in Hw. cbn [read_loop].
  destruct (Z.ltb_spec a size) as [Hlt |]; cbn [andb] in *.
  2: { injection Hw as <- <-. rewrite take_ge, drop_ge, app_nil_r by lia. done. }
  destruct (Z.ltb_spec (k * erasesize) ((k0 + Z.of_nat n0) * erasesize)) as [Hke |]; [| injection Hw as _ ->; lia].
  assert (k < k0 + Z.of_nat n0) as Hkn by (apply (Z.mul_lt_mono_pos_r erasesize); lia).
  destruct (write_loop_frame buf k0 n0 Hin Hk0 Hds Hbuf Hsize _ _ _ _ _ _ Hk (proj1 Ha) Hda Hb Hblank Hw0) as [Hbad' _]. clear Hw0.
  replace (k * erasesize + erasesize) with ((k + 1) * erasesize) in * by lia. rewrite nand_isbad in Hw by nia.
  rewrite nand_isbad, Hbad' by nia.
  destruct (Z.eqb_spec (chip_block_isbad d (k * erasesize)) 0) as [Hg | Hbad]; cbn [negb] in *.
  2: { apply (IH d); try done; [lia |]. intros j Hj. apply Hblank. lia. }
  assert (a + len <= size) as Hfit by (apply (divide_next len); [lia | done..]).
  set (chunk := take (Z.to_nat len) (drop (Z.to_nat a) buf)) in *.
  assert (zlen chunk = len) as Hch by (apply length_chunk; lia).
  destruct (nand_write d (k * erasesize) chunk) as [[d1 r1] l1] eqn:Hw1.
  destruct (nand_write_block d k chunk d1 r1 l1) as (Hb1 & Hf1 & Hread); [lia | lia | lia | done |].
  destruct (Z.eqb_spec r1 0) as [-> |]; cbn [negb] in Hw; [| done].
  destruct Hread as (-> & r & Hr & Hrd); [done | done | apply Hblank; [lia | done] | by apply Forall_take, Forall_drop |]. rewrite Hch in Hw, Hrd.
  assert (len | a + len) as Hda' by (by apply Z.divide_add_r; [| apply Z.divide_refl]).
  assert (forall j, k + 1 <= j < k0 + Z.of_nat n0 -> good d1 (j * erasesize) -> blank d1 (j * erasesize)) as Hblank1.
  { intros j Hj Hgj. apply (blank_frame d d1 k j Hf1); [lia |]. apply Hblank; [lia |]. unfold good in *. by rewrite Hb1 in Hgj. }
  assert (k0 <= k + 1) as Hk1 by lia. assert (0 <= a + len) as Ha1 by lia.
  destruct (write_loop_frame buf k0 n0 Hin Hk0 Hds Hbuf Hsize _ _ _ _ _ _ Hk1 Ha1 Hda' Hb Hblank1 Hw) as [_ Hframe].
  rewrite read_skip_bad_block; [| lia | lia | unfold good; by rewrite Hbad' | lia].
  rewrite (Hframe k); [| lia | apply in_block_start; lia]. rewrite Hrd.
  assert ((r =? 0) || (r =? - EUCLEAN) = true) as -> by (destruct Hr as [-> | ->]; done).
  cbn [mbind option_bind negb Z.eqb]. rewrite Hch.
  assert (zlen (store_at dest a chunk) = size) as Hst.
  { unfold store_at. rewrite !length_app, length_take, length_drop. lia. }
  rewrite (IH d1 (k + 1) (a + len) d' (store_at dest a chunk)); try done. do 2 f_equal.
  unfold store_at. rewrite app_assoc, take_app_length' by (rewrite length_app, length_take; lia). rewrite <- app_assoc. f_equal.
  unfold chunk. rewrite Z2Nat.inj_add by lia. rewrite <- drop_drop. apply take_drop.
Qed.
End Blocks.

(** ** One copy, written and read *)

Section Copies.
Context {D : Type} `{ChipLaws D} `{!ReliableErase D} (size offset range k : Z) (n : nat).
Hypothesis Harea : env_area (D := D) size offset range k n.

Lemma area_end : offset + range = (k + Z.of_nat n) * erasesize.
Proof. destruct Harea. lia. Qed.

Lemma writeenv_total d buf : exists d' r, writeenv size range d offset buf = Some (d', r).
Proof.
  unfold writeenv, loop_rounds.
  destruct (write_loop_total size (offset + range) buf (S (Z.to_nat range)) d (Z.min erasesize size) offset 0)
    as (d' & r & ->); [lia | lia |]. cbn [mbind option_bind]. by do 2 eexists.
Qed.

(** Erasing the range. *)
Lemma erase_range d d' : nand_erase_opts d (EraseOptions range offset false false false) = Some (d', 0) ->
  (forall x, chip_block_isbad d' x = chip_block_isbad d x) /\ blank_area d' k n /\
  (forall j x m, j < k \/ k + Z.of_nat n <= j -> in_block j x m -> chip_read d' x m = chip_read d x m).
Proof.
  pose proof erasesize_range as Hbs. pose proof chip_size_range as Hcs. destruct Harea as [Hs Ho Hr Hr32 Hk Hin _ Hw]. rewrite Ho. intros He.
  destruct (erase_area d k range false d') as (H1 & n' & H2 & H3 & H4); [done | nia | nia | done | done |].
  assert (n' = n) as ->; [| done].
  apply Nat2Z.inj. rewrite H2, Hr. replace (Z.of_nat n * erasesize + erasesize - 1) with (erasesize - 1 + Z.of_nat n * erasesize) by lia.
  rewrite Z.div_add, Z.div_small by lia. lia.
Qed.

(** Writing to the erased range. *)
Lemma writeenv_frame d buf d' r : is_bytes buf -> zlen buf = size -> blank_area d k n ->
  writeenv size range d offset buf = Some (d', r) ->
  (forall x, chip_block_isbad d' x = chip_block_isbad d x) /\
  (forall j x m, j < k \/ k + Z.of_nat n <= j -> in_block j x m -> chip_read d' x m = chip_read d x m).
Proof.
  intros Hb Hl Hblank Hw. pose proof area_end as Hend. destruct Harea as [Hs Ho Hr Hr32 Hk Hin Hd _]. unfold writeenv in Hw. rewrite Hend in Hw.
  destruct (write_loop _ _ _ _ _ _ _ _ _) as [[d1 r1] |] eqn:Hloop; [| done]. cbn [mbind option_bind] in Hw. injection Hw as -> _.
  rewrite Ho in Hloop.
  apply (write_loop_frame size buf k n Hin Hk Hd Hl Hs (loop_rounds range) d k 0 d' r1 (Z.le_refl k) (Z.le_refl 0) (Z.divide_0_r _) Hb); [| done].
  intros j Hj Hg. apply Hblank; [done | | done]. pose proof erasesize_range. nia.
Qed.

Lemma readenv_writeenv d buf d' dest : is_bytes buf -> zlen buf = size -> zlen dest = size -> blank_area d k n ->
  writeenv size range d offset buf = Some (d', 0) -> readenv size range d' offset dest = Some (0, buf).
Proof.
  intros Hb Hl Hd0 Hblank Hw. pose proof area_end as Hend. pose proof erasesize_range as Hbs.
  destruct Harea as [Hs Ho Hr Hr32 Hk Hin Hd _]. unfold writeenv in Hw. unfold readenv. rewrite Hend in *.
  destruct (write_loop _ _ _ _ _ _ _ _ _) as [[d1 r1] |] eqn:Hloop; [| done]. cbn [mbind option_bind] in Hw.
  destruct r1 as [a |]; [| done]. destruct (Z.eqb_spec a size) as [-> |]; [| done]. injection Hw as ->. rewrite Ho in *.
  rewrite (proj2 (Z.eqb_neq erasesize 0)) by lia.
  assert (0 <= 0 <= size) as H0s by lia.
  rewrite (write_read_loop size buf k n Hin Hk Hd Hl Hs (loop_rounds range) d k 0 d' dest (Z.le_refl k) H0s (Z.divide_0_r _) Hb Hd0).
  - cbn. by rewrite Z.eqb_refl.
  - intros j Hj Hg. apply Hblank; [done | | done]. nia.
  - done.
Qed.
End Copies.

Lemma le4_crc data : is_bytes data -> ep_crc (le4 (Crc32.crc32 0 0 data) ++ data) = Crc32.crc32 0 0 data.
Proof.
  intros Hd. unfold ep_crc. rewrite take_app_length' by done. apply le4_load. by apply Crc32Facts.crc32_range.
Qed.

Lemma ep_data_block size crc data : zlen data = ENV_SIZE size -> ep_data size (le4 crc ++ data) = data.
Proof.
  intros Hd. unfold ep_data. rewrite drop_app_length' by done. apply take_ge. lia.
Qed.

(** The checksum does not depend on the address of the data. *)
Lemma crc32_any_addr crc a b data : is_u32 crc -> is_bytes data -> Crc32.crc32 crc a data = Crc32.crc32 crc b data.
Proof. intros. by rewrite !Crc32Facts.crc32_eq. Qed.

(** [saveenv] returns; when it succeeds, the flash holds the text of the
    variables. *)
Lemma saveenv_outcome {D : Type} `{ChipLaws D} `{!ReliableErase D} size offset range k n (d : D) e t :
  4 < size -> env_area (D := D) size offset range k n -> env_wf e t -> storable_table t (ENV_SIZE size) ->
  exists rc d' e1, saveenv size offset range d e = Some (rc, d', e1) /\
  (rc = 0 -> exists l m, let data := env_text l ++ replicate (S m) 0 in
    zlen data = ENV_SIZE size /\ is_bytes data /\ storable l (zlen data) /\ list_to_map l = abs t /\
    forall dest, zlen dest = size -> readenv size range d' offset dest = Some (0, le4 (Crc32.crc32 0 0 data) ++ data)).
Proof.
  intros Hsize Harea [Hwf Hw] Hst. unfold saveenv.
  destruct (range <? size); [by do 3 eexists |]. set (sz := ENV_SIZE size) in *.
  assert (0 < sz) as Hsz by (unfold sz, ENV_SIZE; lia).
  destruct (export_storable (env_htab e) t sz (surroundings e) Hwf Hst Hsz) as [-> | (l & m & -> & Hlen & Hs & Hb & Ha)];
    cbn [mbind option_bind]; [by do 3 eexists |].
  set (data := env_text l ++ replicate (S m) 0) in *. rewrite (proj2 (Z.ltb_ge sz 0)) by lia.
  assert (0 <= range < 2 ^ 63) as Hrange by (destruct Harea; pose proof erasesize_range; nia).
  destruct (nand_erase_opts_total d (EraseOptions range offset false false false) Hrange) as [[d1 r] Herase].
  rewrite Herase. cbn [mbind option_bind]. destruct (Z.eqb_spec r 0) as [-> |]; cbn [negb]; [| by do 3 eexists].
  destruct (writeenv_total size offset range d1 (le4 (Crc32.crc32 0 0 data) ++ data)) as (d2 & r2 & Hwrite).
  rewrite Hwrite. cbn [mbind option_bind]. do 3 eexists. split; [reflexivity |].
  destruct (Z.eqb_spec r2 0) as [-> |]; cbn [negb]; [| done]. intros _. exists l, m. split_and!; try done.
  intros dest Hdest. destruct (erase_range size offset range k n Harea d d1 Herase) as (_ & Hblank & _).
  apply (readenv_writeenv size offset range k n Harea d1); try done.
  - apply Forall_app. split; [apply le4_bytes | done].
  - fold data. rewrite length_app, Nat2Z.inj_add, Hlen. unfold sz, ENV_SIZE. cbn [length le4]. lia.
Qed.

(** C6: [saveenv] returns, and when it reports success, the saved environment
    survives a reboot: relocating the environment from the flash makes exactly
    the variables that were set at the time of saving available again, whatever
    blocks of the range are bad, for every chip that keeps the contract of a
    flash driver and on which the erasure of good blocks does not fail, and for
    every environment that can be stored ([storable_table]): names that can be
    parsed back, values without a backslash, and no more variables than the table
    of the next boot has room for. *)
Theorem saveenv_restores {D : Type} `{ChipLaws D} `{!ReliableErase D} size offset range k n
    default_environment env_overwrite console_assign (d : D) e t e0 dest :
  4 < size -> env_area (D := D) size offset range k n -> env_wf e t -> storable_table t (ENV_SIZE size) -> usable e0 -> zlen dest = size ->
  exists rc d' e1, saveenv size offset range d e = Some (rc, d', e1) /\
  (rc = 0 -> exists e2 t2,
    env_relocate_spec size offset range default_environment env_overwrite console_assign d' dest e0 = Some e2 /\
    env_wf e2 t2 /\ abs t2 = abs t /\ flg_env_ready e2 = true).
Proof.
  intros Hsize Harea Hwf Hst Hu Hdest.
  destruct (saveenv_outcome size offset range k n d e t Hsize Harea Hwf Hst) as (rc & d' & e1 & Hsave & Hok).
  exists rc, d', e1. split; [done |]. intros Hrc. destruct (Hok Hrc) as (l & m & Hlen & Hb & Hs & Ha & Hread).
  unfold env_relocate_spec. rewrite Hread by done. cbn [mbind option_bind negb Z.eqb].
  unfold env_import. cbn [andb]. rewrite (ep_data_block size) by done.
  rewrite le4_crc, (crc32_any_addr 0 (0 + 4) 0), Z.eqb_refl by done. cbn [negb].
  destruct (import_data_spec size default_environment env_overwrite console_assign l m e0 Hu Hs)
    as (e2 & -> & t2 & Hwf2 & Ha2 & _ & Hr2). cbn [mbind option_bind]. exists e2, t2. by rewrite Ha2.
Qed.

Module EnvNandExamples.
Import ChipSim EnvExamples.

(** The environment has 64 bytes in the blocks 8 to 11, of which block 9 is bad. *)
Definition flash : sim [] := Sim [0x120] (fun a => a mod 5).

Lemma area stuck : env_area (D := sim stuck) 64 0x100 128 8 4.
Proof. split; cbn; try lia; try done. by exists 2. Qed.

(** An environment with the variables [stored]. *)
Definition loaded : option env := snd <$> import_data 64 default_text true no_console data early_env.

Lemma loaded_wf : exists e t, loaded = Some e /\ env_wf e t /\ abs t = list_to_map stored.
Proof.
  destruct (import_data_spec 64 default_text true no_console stored 31 early_env) as (e & He & t & Hwf & Ha & _).
  - split; [by left | reflexivity].
  - apply stored_storable. lia.
  - exists e, t. unfold loaded. change data with (env_text stored ++ replicate 32 0). rewrite He.
    split_and!; [reflexivity | exact Hwf | exact Ha].
Qed.

Lemma stored_table t sz : 0 <= sz -> abs t = list_to_map stored -> storable_table t sz.
Proof.
  intros Hsz Ha. destruct (stored_storable sz Hsz) as (Hall & Hnd & Hcount). unfold storable_table. rewrite Ha. split.
  - intros k v Hk. apply elem_of_list_to_map in Hk; [| done].
    rewrite Forall_forall in Hall. exact (Hall (k, v) Hk).
  - change (Z.of_nat (base.size (list_to_map stored : gmap (list Z) (list Z)))) with 2. done.
Qed.

Lemma saveenv_restores_witness : exists e1 d' e2 t2,
  (e ← loaded; saveenv 64 0x100 128 flash e) = Some (0, d', e1) /\
  env_relocate_spec 64 0x100 128 default_text true no_console d' (replicate 64 0) early_env = Some e2 /\
  env_wf e2 t2 /\ abs t2 = list_to_map stored.
Proof.
  destruct loaded_wf as (e & t & He & Hwf & Ha).
  destruct (saveenv_restores 64 0x100 128 8 4 default_text true no_console flash e t early_env (replicate 64 0))
    as (rc & d' & e1 & Hsave & Hok).
  - lia.
  - apply area.
  - exact Hwf.
  - apply stored_table; [vm_compute; discriminate | exact Ha].
  - split; [by left | reflexivity].
  - reflexivity.
  - assert ((fun v => v.1.1) <$> saveenv 64 0x100 128 flash e = Some 0) as Hrc.
    { vm_compute in He. injection He as <-. vm_compute. reflexivity. }
    rewrite Hsave in Hrc. injection Hrc as Hrc.
    destruct (Hok Hrc) as (e2 & t2 & H1 & H2 & H3 & _). exists e1, d', e2, t2. rewrite He. cbn [mbind option_bind]. rewrite H3.
    split_and!; [rewrite Hsave, Hrc; reflexivity | exact H1 | exact H2 | exact Ha].
Defined.

(** A chip whose block 9 cannot be erased. *)
Definition worn : sim [0x120] := Sim [] (fun a => a mod 5).
Definition worn_after : sim [0x120] := default worn (e ← loaded; v ← saveenv 64 0x120 64 worn e; Some v.1.2).

(** A failed erasure can destroy the environment although [saveenv] reports
    success: [nand_erase_opts] hides the failure, the new data are combined with
    the old bits, and the next boot finds a bad checksum and uses the default
    environment. *)
Theorem saveenv_lost_after_failed_erase : exists e e1 e2,
  loaded = Some e /\ saveenv 64 0x120 64 worn e = Some (0, worn_after, e1) /\
  env_relocate_spec 64 0x120 64 default_text true no_console worn_after (replicate 64 0) early_env = Some e2 /\
  (fst <$> getenv 64 default_text (str "bootdelay") e) = Some (Some (str "3")) /\
  (fst <$> getenv 64 default_text (str "bootdelay") e2) = Some (Some (str "10")).
Proof.
  eexists _, _, _. split; [vm_compute; reflexivity |]. split; [vm_compute; reflexivity |].
  split; [vm_compute; reflexivity |]. split; vm_compute; reflexivity.
Qed.

End EnvNandExamples.
