(* ===== verification/EnvRedund.v ===== *)
(** * The redundant environment in NAND flash (common/env_nand.c)

    With CONFIG_ENV_OFFSET_REDUND the environment is kept in two copies, each
    with a checksum and a serial number (the [flags] byte).  [saveenv] writes
    the copy that is not in use; at boot the valid copy with the newer serial
    number is used.

    The device states a save can leave behind when the power fails are the ones
    reachable by operations, complete or interrupted, on blocks of the copy that
    is written: a step relation on devices. *)

From S2P Require Import Prelude Crc StringLib Memory Qsort Hashtable HashIO Env NandUtil EnvNand.

Section Redundant.
Context {D : Type} `{Chip D}.
Context (CONFIG_ENV_SIZE CONFIG_ENV_OFFSET CONFIG_ENV_OFFSET_REDUND CONFIG_ENV_RANGE : Z).
Context (default_environment : list Z) (env_overwrite : bool) (console_assign : Z -> cstring -> Z).

(** ENV_SIZE and the fields of an [env_t] with CONFIG_SYS_REDUNDAND_ENVIRONMENT. *)
Definition ENV_SIZE_redund : Z := CONFIG_ENV_SIZE - 5.
Definition ep_flags (buf : list Z) : Z := default 0 (buf !! 4%nat).
Definition ep_data_redund (buf : list Z) : list Z := take (Z.to_nat ENV_SIZE_redund) (drop 5 buf).

(** The common code, with the smaller data area. *)
Abbreviation default_env := (set_default_env (CONFIG_ENV_SIZE - 1) default_environment env_overwrite console_assign).
Abbreviation import_env_data := (import_data (CONFIG_ENV_SIZE - 1) default_environment env_overwrite console_assign).

Definition set_env_valid (e : env) (v : Z) : env :=
  EnvState (env_htab e) (surroundings e) (env_id e) (globals e) (flg_reloc e) (flg_env_ready e) v (env_image e) (env_buf e).

(** ** Saving *)

(** The return value, the device, [env_flags] and the state. *)
Definition saveenv_redund (d : D) (env_flags : Z) (e : env) : option (Z * D * Z * env) :=
  if CONFIG_ENV_RANGE <? CONFIG_ENV_SIZE then Some (1, d, env_flags, e)
  else
    '(len, data, w) ← hexport_r (env_htab e) 0 (Some ENV_SIZE_redund) ENV_SIZE_redund [] (surroundings e);
    let e := set_table e w (env_htab e) in
    match data with
    | None => Some (1, d, env_flags, e)
    | Some data =>
        if len <? 0 then Some (1, d, env_flags, e)
        else
          let crc := Crc32.crc32 0 0 data in
          let env_flags := u8 (env_flags + 1) in
          let offset := if env_valid e =? 1 then CONFIG_ENV_OFFSET_REDUND else CONFIG_ENV_OFFSET in
          '(d, r) ← nand_erase_opts d (EraseOptions CONFIG_ENV_RANGE offset false false false);
          if negb (r =? 0) then Some (1, d, env_flags, e)
          else
            '(d, ret) ← writeenv CONFIG_ENV_SIZE CONFIG_ENV_RANGE d offset (le4 crc ++ [env_flags] ++ data);
            if negb (ret =? 0) then Some (1, d, env_flags, e)
            else Some (ret, d, env_flags, set_env_valid e (if env_valid e =? 2 then 1 else 2))
    end.

(** ** Loading *)

(** Which copy to use, when one is valid. *)
Definition newer_copy (flags1 flags2 : Z) : Z :=
  if (flags1 =? 255) && (flags2 =? 0) then 2
  else if (flags2 =? 255) && (flags1 =? 0) then 1
  else if flags2 <? flags1 then 1
  else if flags1 <? flags2 then 2
  else 1.

Definition choose_copy (crc1_ok crc2_ok : bool) (flags1 flags2 : Z) : option Z :=
  if negb crc1_ok && negb crc2_ok then None
  else if crc1_ok && negb crc2_ok then Some 1
  else if negb crc1_ok && crc2_ok then Some 2
  else Some (newer_copy flags1 flags2).

Definition crc_ok (buf : list Z) : bool := Crc32.crc32 0 0 (ep_data_redund buf) =? ep_crc buf.

(** The buffers from [malloc] hold [junk1] and [junk2] before; the results of
    [readenv] are reported but not used. *)
Definition env_relocate_spec_redund (d : D) (junk1 junk2 : list Z) (env_flags : Z) (e : env) : option (Z * env) :=
  let '(ok1, w) := allocate (surroundings e) in
  let '(ok2, w) := allocate w in
  let e := set_table e w (env_htab e) in
  if negb (ok1 && ok2) then e ← default_env (Some (str "!malloc() failed")) e; Some (env_flags, e)
  else
    '(_, tmp_env1) ← readenv CONFIG_ENV_SIZE CONFIG_ENV_RANGE d CONFIG_ENV_OFFSET junk1;
    '(_, tmp_env2) ← readenv CONFIG_ENV_SIZE CONFIG_ENV_RANGE d CONFIG_ENV_OFFSET_REDUND junk2;
    match choose_copy (crc_ok tmp_env1) (crc_ok tmp_env2) (ep_flags tmp_env1) (ep_flags tmp_env2) with
    | None => e ← default_env (Some (str "!bad CRC")) e; Some (env_flags, e)
    | Some v =>
        let ep := if v =? 1 then tmp_env1 else tmp_env2 in
        '(_, e) ← import_env_data (ep_data_redund ep) (set_env_valid e v);
        Some (ep_flags ep, e)
    end.

End Redundant.

(** ** Device states during a save *)

Section Steps.
Context {D : Type} `{Chip D}.

(** One operation on a block of the [n] blocks from block [k] on: an erasure or
    a write with any result, or one that was interrupted and left the block in
    an arbitrary state. *)
Inductive flash_step (k : Z) (n : nat) : D -> D -> Prop :=
| step_erase d d' j r : k <= j < k + Z.of_nat n -> mtd_erase d (j * erasesize) erasesize false = (d', r) -> flash_step k n d d'
| step_write d d' j l r c : k <= j < k + Z.of_nat n -> 0 < zlen l <= erasesize -> nand_write d (j * erasesize) l = (d', r, c) ->
    flash_step k n d d'
| step_interrupted d d' j : k <= j < k + Z.of_nat n -> (forall x, chip_block_isbad d' x = chip_block_isbad d x) ->
    (forall j' x m, j' <> j -> in_block j' x m -> chip_read d' x m = chip_read d x m) -> flash_step k n d d'.

(** Nothing but the [n] blocks from block [k] on changed. *)
Definition same_outside (k : Z) (n : nat) (d d' : D) : Prop :=
  (forall x, chip_block_isbad d' x = chip_block_isbad d x) /\
  forall j x m, j < k \/ k + Z.of_nat n <= j -> in_block j x m -> chip_read d' x m = chip_read d x m.

#[export] Instance same_outside_preorder k n : PreOrder (same_outside k n).
Proof.
  split; [done |]. intros d1 d2 d3 [H1 H2] [H3 H4]. split; [intros x; by rewrite H3 |].
  intros j x m Hj Hx. by rewrite (H4 j x m Hj Hx), (H2 j x m Hj Hx).
Qed.
End Steps.

Section Frames.
Context {D : Type} `{ChipLaws D} (size offset range k : Z) (n : nat).
Hypothesis Harea : env_area (D := D) size offset range k n.

Lemma step_same_outside k' n' (d d' : D) : 0 <= k' -> (k' + Z.of_nat n') * erasesize <= chip_size ->
  flash_step k' n' d d' -> same_outside k' n' d d'.
Proof.
  intros Hk' Hin Hstep. pose proof erasesize_range as Hbs.
  assert (forall j, k' <= j < k' + Z.of_nat n' -> 0 <= j /\ j * erasesize < chip_size) as Hj by (intros j Hj; nia).
  destruct Hstep as [d d' j r Hr He | d d' j l r c Hr Hl Hw | d d' j Hr Hb Hf].
  - destruct (Hj j Hr) as [Hj0 Hjs]. pose proof (whole_block j Hjs) as Hwb. unfold mtd_erase in He.
    destruct (_ || _); [by injection He as <- <- |]. destruct (negb writeable); [by injection He as <- <- |].
    rewrite (proj2 (Z.eqb_neq erasesize 0)) in He by lia. split.
    + intros x. by apply (erase_keeps_bad _ _ _ _ _ x He).
    + intros j' x m Hj' Hx. pose proof Hx as (_ & Hm & _). apply (erase_frame _ _ _ _ _ _ _ He); [done |].
      apply (apart_blocks j j'); [apply in_block_start; lia | done | lia].
  - destruct (Hj j Hr) as [Hj0 Hjs]. destruct (nand_write_block d j l d' r c Hj0 Hjs Hl Hw) as (Hb & Hf & _).
    split; [done |]. intros j' x m Hj' Hx. apply (Hf j'); [lia | done].
  - split; [done |]. intros j' x m Hj' Hx. apply (Hf j'); [lia | done].
Qed.

Lemma steps_same_outside k' n' (d d' : D) : 0 <= k' -> (k' + Z.of_nat n') * erasesize <= chip_size ->
  rtc (flash_step k' n') d d' -> same_outside k' n' d d'.
Proof.
  intros Hk' Hin. induction 1 as [| d1 d2 d3 Hs _ IH]; [done |]. etransitivity; [by apply step_same_outside | done].
Qed.

(** Reading depends on the blocks of the area only. *)
Lemma read_loop_ext (d d' : D) : (forall x, chip_block_isbad d' x = chip_block_isbad d x) ->
  (forall j x m, k <= j < k + Z.of_nat n -> in_block j x m -> chip_read d' x m = chip_read d x m) ->
  forall fuel j l a buf, k <= j -> 0 < l <= erasesize ->
  read_loop size fuel d' erasesize l (j * erasesize) ((k + Z.of_nat n) * erasesize) a buf =
  read_loop size fuel d erasesize l (j * erasesize) ((k + Z.of_nat n) * erasesize) a buf.
Proof.
  destruct Harea as [Hs Ho Hr Hr32 Hk Hin Hd Hw]. pose proof erasesize_range as Hbs. intros Hbad Hread.
  induction fuel as [| fuel IH]; intros j l a buf Hj Hl; [done |]. cbn [read_loop].
  destruct (a <? size); cbn [andb]; [| done].
  destruct (Z.ltb_spec (j * erasesize) ((k + Z.of_nat n) * erasesize)) as [Hlt |]; [| done].
  assert (j < k + Z.of_nat n) as Hjn by (apply (Z.mul_lt_mono_pos_r erasesize); lia).
  replace (j * erasesize + erasesize) with ((j + 1) * erasesize) by lia. rewrite (nand_isbad d'), (nand_isbad d), Hbad by nia.
  destruct (Z.eqb_spec (chip_block_isbad d (j * erasesize)) 0) as [Hg |]; cbn [negb]; [| apply IH; lia].
  assert (good d' (j * erasesize)) as Hg' by (unfold good; by rewrite Hbad).
  assert (0 <= j /\ j * erasesize < chip_size) as [Hj0 Hjs] by nia.
  rewrite (read_skip_bad_block d'), (read_skip_bad_block d) by done.
  rewrite (Hread j) by (lia || by apply in_block_start). destruct (chip_read d (j * erasesize) l) as [r bytes] eqn:Hrd.
  destruct ((r =? 0) || (r =? - EUCLEAN)) eqn:Hok; cbn [mbind option_bind].
  - cbn [negb Z.eqb]. assert (zlen bytes = l) as Hlb.
    { apply (read_full _ _ _ _ _ Hrd); [lia |]. apply orb_true_iff in Hok as [->%Z.eqb_eq | ->%Z.eqb_eq]; auto. }
    apply IH; lia.
  - apply orb_false_iff in Hok as [-> _]. done.
Qed.

Lemma read_loop_total (d : D) : forall fuel j l a buf, k <= j -> 0 < l <= erasesize ->
  (k + Z.of_nat n - j) * erasesize < Z.of_nat fuel -> (0 < fuel)%nat ->
  exists r, read_loop size fuel d erasesize l (j * erasesize) ((k + Z.of_nat n) * erasesize) a buf = Some r.
Proof.
  destruct Harea as [Hs Ho Hr Hr32 Hk Hin Hd Hw]. pose proof erasesize_range as Hbs.
  induction fuel as [| fuel IH]; intros j l a buf Hj Hl Hf Hpos; [lia |]. cbn [read_loop].
  destruct (a <? size); cbn [andb]; [| eauto].
  destruct (Z.ltb_spec (j * erasesize) ((k + Z.of_nat n) * erasesize)) as [Hlt |]; [| eauto].
  assert (j < k + Z.of_nat n) as Hjn by (apply (Z.mul_lt_mono_pos_r erasesize); lia).
  replace (j * erasesize + erasesize) with ((j + 1) * erasesize) by lia. rewrite nand_isbad by nia.
  destruct (Z.eqb_spec (chip_block_isbad d (j * erasesize)) 0) as [Hg |]; cbn [negb]; [| apply IH; nia].
  assert (0 <= j /\ j * erasesize < chip_size) as [Hj0 Hjs] by nia. rewrite read_skip_bad_block by done.
  destruct (chip_read d (j * erasesize) l) as [r bytes] eqn:Hrd.
  destruct ((r =? 0) || (r =? - EUCLEAN)) eqn:Hok; cbn [mbind option_bind].
  - cbn [negb Z.eqb]. assert (zlen bytes = l) as Hlb.
    { apply (read_full _ _ _ _ _ Hrd); [lia |]. apply orb_true_iff in Hok as [->%Z.eqb_eq | ->%Z.eqb_eq]; auto. }
    apply IH; nia.
  - apply orb_false_iff in Hok as [-> _]. cbn [negb]. eauto.
Qed.

Lemma readenv_total (d : D) buf : exists r, readenv size range d offset buf = Some r.
Proof.
  pose proof (area_end size offset range k n Harea) as Hend. pose proof Harea as [Hs Ho Hr Hr32 Hk Hin Hd Hw].
  pose proof erasesize_range as Hbs. unfold readenv. destruct (erasesize =? 0); [eauto |]. rewrite Hend, Ho. unfold loop_rounds.
  destruct (read_loop_total d (S (Z.to_nat range)) k (Z.min erasesize size) 0 buf) as [[b r] ->]; [lia | lia | nia | lia |].
  cbn [mbind option_bind]. eauto.
Qed.

Lemma readenv_frame k' n' (d d' : D) buf : same_outside k' n' d d' -> k + Z.of_nat n <= k' \/ k' + Z.of_nat n' <= k ->
  readenv size range d' offset buf = readenv size range d offset buf.
Proof.
  intros [Hb Hf] Hap. pose proof (area_end size offset range k n Harea) as Hend. pose proof Harea as [Hs Ho Hr Hr32 Hk Hin Hd Hw].
  pose proof erasesize_range as Hbs. unfold readenv. rewrite Hend, Ho.
  rewrite (read_loop_ext d d'); [done | done | | lia | lia]. intros j x m Hj Hx. apply (Hf j); [lia | done].
Qed.

(** The loops of a save are such steps. *)
Lemma erase_loop_steps opts L : scrub opts = false -> jffs2 opts = false -> spread opts = false ->
  forall fuel (d : D) j erased d' r, k <= j -> 0 <= erased -> j + (L - erased) <= k + Z.of_nat n ->
  erase_loop fuel d opts (j * erasesize) erased L = Some (d', r) -> rtc (flash_step k n) d d'.
Proof.
  destruct Harea as [Hs Ho Hr Hr32 Hk Hin Hd Hw]. pose proof erasesize_range as Hbs. pose proof chip_size_range as Hcs. intros Hsc Hj Hsp.
  induction fuel as [| fuel IH]; intros d j erased d' r Hkj He0 Hjn He; [done |]. cbn [erase_loop] in He.
  destruct (Z.ltb_spec erased L) as [Hlt |]; [| by injection He as <- <-].
  replace (u64 (j * erasesize + erasesize)) with ((j + 1) * erasesize) in He by (rewrite wrap_small; nia). rewrite Hsc, Hsp in He.
  destruct (0 <? _); [by apply (IH d (j + 1) (erased + 1) d' r); try lia |]. destruct (_ <? 0); [by injection He as <- <- |].
  apply (rtc_l _ _ (erase_block d opts (j * erasesize))); [| by apply (IH _ (j + 1) (erased + 1) d' r); try lia].
  unfold erase_block. rewrite Hsc, Hj. cbn [andb]. destruct (mtd_erase d (j * erasesize) erasesize false) as [d1 r1] eqn:Hme.
  apply (step_erase k n d _ j r1); [lia |]. rewrite Hme. by destruct (negb _).
Qed.

Lemma erase_opts_steps (d d' : D) r : nand_erase_opts d (EraseOptions range offset false false false) = Some (d', r) ->
  rtc (flash_step k n) d d'.
Proof.
  destruct Harea as [Hs Ho Hr Hr32 Hk Hin Hd Hw]. pose proof erasesize_range as Hbs. pose proof chip_size_range as Hcs. intros He.
  unfold nand_erase_opts in He. cbn [length_ NandUtil.offset scrub] in He. destruct (negb _); [by injection He as <- <- |].
  unfold lldiv in He. rewrite (wrap_small 64 (range + _ - 1)) in He by nia. rewrite Div64.do_div_spec in He by nia.
  cbn [mbind option_bind] in He.
  replace ((range + erasesize - 1) / erasesize) with (Z.of_nat n) in He.
  2: { replace (range + erasesize - 1) with (erasesize - 1 + Z.of_nat n * erasesize) by lia. rewrite Z.div_add, Z.div_small by lia. lia. }
  rewrite (wrap_small 32 (Z.of_nat n)) in He by nia. rewrite Ho, (wrap_small 64) in He by nia.
  destruct (erase_loop _ _ _ _ _ _) as [[d1 r1] |] eqn:Hloop; [| done]. cbn [mbind option_bind] in He. injection He as <- <-.
  rewrite andb_false_r. eapply (erase_loop_steps _ (Z.of_nat n)); [.. | exact Hloop]; try done; lia.
Qed.

Lemma write_loop_steps buf : zlen buf = size -> is_bytes buf -> forall fuel (d : D) j a d' r, k <= j -> 0 <= a ->
  (Z.min erasesize size | a) -> (forall i, j <= i < k + Z.of_nat n -> good d (i * erasesize) -> blank d (i * erasesize)) ->
  write_loop size fuel d erasesize (Z.min erasesize size) (j * erasesize) ((k + Z.of_nat n) * erasesize) a buf = Some (d', r) ->
  rtc (flash_step k n) d d'.
Proof.
  destruct Harea as [Hs Ho Hr Hr32 Hk Hin Hd Hw]. pose proof erasesize_range as Hbs. intros Hbuf Hb.
  induction fuel as [| fuel IH]; intros d j a d' r Hkj Ha Hda Hblank Hl; [done |]. cbn [write_loop] in Hl.
  destruct (Z.ltb_spec a size) as [Hlt |]; [| by injection Hl as <- <-].
  destruct (Z.ltb_spec (j * erasesize) ((k + Z.of_nat n) * erasesize)) as [Hje |]; [| by injection Hl as <- <-]. cbn [andb] in Hl.
  assert (j < k + Z.of_nat n) as Hjn by (apply (Z.mul_lt_mono_pos_r erasesize); lia).
  replace (j * erasesize + erasesize) with ((j + 1) * erasesize) in Hl by lia. rewrite nand_isbad in Hl by nia.
  destruct (Z.eqb_spec (chip_block_isbad d (j * erasesize)) 0) as [Hg |]; cbn [negb] in Hl.
  2: { apply (IH d (j + 1) a d' r); try done; [lia |]. intros i Hi. apply Hblank. lia. }
  set (len := Z.min erasesize size) in *.
  assert (a + len <= size) as Hfit by (apply (divide_next len); [lia | done..]).
  set (chunk := take (Z.to_nat len) (drop (Z.to_nat a) buf)) in *. assert (zlen chunk = len) as Hch by (apply length_chunk; lia).
  destruct (nand_write d (j * erasesize) chunk) as [[d1 r1] l1] eqn:Hw1.
  assert (0 < zlen chunk <= erasesize) as Hchr by lia.
  assert (flash_step k n d d1) as Hstep by (apply (step_write k n d d1 j chunk r1 l1); [lia | done | done]).
  destruct (Z.eqb_spec r1 0) as [-> |]; cbn [negb] in Hl; [| injection Hl as <- <-; by apply rtc_once].
  destruct (nand_write_block d j chunk d1 0 l1) as (Hb1 & Hf1 & Hread); [lia | nia | lia | done |].
  destruct Hread as [-> _]; [done | done | apply Hblank; [lia | done] | by apply Forall_take, Forall_drop |]. rewrite Hch in Hl.
  apply (rtc_l _ _ d1); [done |]. apply (IH d1 (j + 1) (a + len) d' r); try done; [lia | lia | by apply Z.divide_add_r; [| apply Z.divide_refl] |].
  intros i Hi Hgi. apply (blank_frame d d1 j i Hf1); [lia |]. apply Hblank; [lia |]. unfold good in *. by rewrite Hb1 in Hgi.
Qed.

Lemma writeenv_steps (d d' : D) buf r : zlen buf = size -> is_bytes buf -> blank_area d k n ->
  writeenv size range d offset buf = Some (d', r) -> rtc (flash_step k n) d d'.
Proof.
  intros Hbuf Hb Hblank Hw0. pose proof (area_end size offset range k n Harea) as Hend. pose proof Harea as [Hs Ho Hr Hr32 Hk Hin Hd Hw].
  pose proof erasesize_range as Hbs. unfold writeenv in Hw0. rewrite Hend, Ho in Hw0.
  destruct (write_loop _ _ _ _ _ _ _ _ _) as [[d1 r1] |] eqn:Hloop; [| done]. cbn [mbind option_bind] in Hw0. injection Hw0 as -> _.
  apply (write_loop_steps buf Hbuf Hb (loop_rounds range) d k 0 d' r1); [lia | lia | apply Z.divide_0_r | | done].
  intros i Hi Hg. apply Hblank; [done | nia | done].
Qed.
End Frames.

(** ** The serial number *)

(** [g] is the serial number of a later save than [f]: the larger one, but 0 comes
    after 255. *)
Definition later (f g : Z) : Prop := if decide (f = 255 /\ g = 0) then True else if decide (f = 0 /\ g = 255) then False else f < g.
#[global] Instance later_dec f g : Decision (later f g).
Proof. unfold later. repeat case_decide; apply _. Defined.

(** A number is followed by its successor, across the wrap from 255 to 0 as well. *)
Lemma later_successor f : 0 <= f < 256 -> later f (u8 (f + 1)) /\ ~ later (u8 (f + 1)) f.
Proof.
  intros Hf. unfold later. destruct (decide (f = 255)) as [-> | Hne]; [change (u8 (255 + 1)) with 0; repeat case_decide; lia |].
  rewrite wrap_small by lia. repeat case_decide; lia.
Qed.

Lemma newer_copy_spec f g : 0 <= f < 256 -> 0 <= g < 256 -> newer_copy f g = if decide (later f g) then 2 else 1.
Proof.
  intros Hf Hg. unfold newer_copy, later.
  repeat match goal with |- context [Z.eqb ?a ?b] => destruct (Z.eqb_spec a b) | |- context [Z.ltb ?a ?b] => destruct (Z.ltb_spec a b) end;
    cbn [andb]; repeat case_decide; try done; lia.
Qed.

(** A copy as it is stored. *)
Definition block (flags : Z) (data : list Z) : list Z := le4 (Crc32.crc32 0 0 data) ++ [flags] ++ data.

Section Copy.
Context (CONFIG_ENV_SIZE : Z).

Lemma block_fields f data : is_bytes data -> zlen data = ENV_SIZE_redund CONFIG_ENV_SIZE ->
  ep_data_redund CONFIG_ENV_SIZE (block f data) = data /\ ep_flags (block f data) = f /\ crc_ok CONFIG_ENV_SIZE (block f data) = true.
Proof.
  intros Hb Hl. assert (ep_data_redund CONFIG_ENV_SIZE (block f data) = data) as Hd.
  { unfold ep_data_redund, block. rewrite app_assoc, drop_app_length' by done. apply take_ge. lia. }
  split_and!; [done | done |]. unfold crc_ok. rewrite Hd. apply Z.eqb_eq. symmetry. unfold ep_crc, block.
  rewrite take_app_length' by done. apply le4_load. by apply Crc32Facts.crc32_range.
Qed.
End Copy.

(** The variables [l] as the data of a copy. *)
Definition data_of (size : Z) (l : list pair) (data : list Z) : Prop :=
  exists n, data = env_text l ++ replicate (S n) 0 /\ storable l (zlen data) /\ is_bytes data /\ zlen data = ENV_SIZE_redund size.

Lemma length_block size f data : zlen data = ENV_SIZE_redund size -> zlen (block f data) = size.
Proof. intros Hd. unfold block. rewrite !length_app. cbn [length le4]. unfold ENV_SIZE_redund in Hd. lia. Qed.

Definition other_copy (v : Z) : Z := if v =? 1 then 2 else 1.

(** The other copy, with the serial number [g], is preferred to the copy [v] with [f]. *)
Definition preferred (v f g : Z) : Prop := later f g \/ f = g /\ v = 2.
#[global] Instance preferred_dec v f g : Decision (preferred v f g).
Proof. unfold preferred. apply _. Defined.

(** What the boot code chooses between a copy and what is found in place of the
    other one. *)
Lemma choose_other size v f data b g data' : v = 1 \/ v = 2 -> 0 <= f < 256 -> is_bytes data -> zlen data = ENV_SIZE_redund size ->
  let old := block f data in
  let b1 := if v =? 1 then old else b in
  let b2 := if v =? 1 then b else old in
  let choice := choose_copy (crc_ok size b1) (crc_ok size b2) (ep_flags b1) (ep_flags b2) in
  (crc_ok size b = false -> choice = Some v) /\
  (0 <= g < 256 -> is_bytes data' -> zlen data' = ENV_SIZE_redund size -> b = block g data' ->
    choice = Some (if decide (preferred v f g) then other_copy v else v)).
Proof.
  intros Hv Hf Hd Hl old b1 b2 choice. destruct (block_fields size f data Hd Hl) as (_ & Hflags & Hok). fold old in Hflags, Hok. split.
  - intros Hb. unfold choice, b1, b2. destruct Hv as [-> | ->]; cbn [Z.eqb Pos.eqb]; by rewrite !Hb, Hok.
  - intros Hg Hd' Hl' ->. destruct (block_fields size g data' Hd' Hl') as (_ & Hflags' & Hok').
    unfold choice, b1, b2, choose_copy, preferred. destruct Hv as [-> | ->]; cbn [Z.eqb Pos.eqb]; rewrite Hok, Hok', Hflags, Hflags'; cbn [negb andb];
      rewrite newer_copy_spec by done; f_equal; unfold later; repeat case_decide; try done; lia.
Qed.

(** The two copies: [n] blocks each, from the blocks [k1] and [k2] on. *)
Record layout := Layout { l_size : Z; l_offset : Z; l_offset_redund : Z; l_range : Z; l_first : Z; l_first_redund : Z; l_blocks : nat }.

Section Recovery.
Context {D : Type} `{ChipLaws D} (L : layout).
Context (default_environment : list Z) (env_overwrite : bool) (console_assign : Z -> cstring -> Z).

Definition offset_of (v : Z) : Z := if v =? 1 then l_offset L else l_offset_redund L.
Definition first_of (v : Z) : Z := if v =? 1 then l_first L else l_first_redund L.

Record redund_ok : Prop := RedundOk {
  ro_size : 5 < l_size L;
  ro_area : env_area (D := D) (l_size L) (l_offset L) (l_range L) (l_first L) (l_blocks L);
  ro_area_redund : env_area (D := D) (l_size L) (l_offset_redund L) (l_range L) (l_first_redund L) (l_blocks L);
  ro_apart : l_first L + Z.of_nat (l_blocks L) <= l_first_redund L \/ l_first_redund L + Z.of_nat (l_blocks L) <= l_first L }.

(** What the boot code finds in the range of copy [v], in a buffer with old
    contents [junk]. *)
Definition found_copy (d : D) (v : Z) (junk : list Z) : option (list Z) :=
  snd <$> readenv (l_size L) (l_range L) d (offset_of v) junk.

(** Copy [v] holds the variables [l] with serial number [f]. *)
Definition holds (d : D) (v f : Z) (l : list pair) : Prop :=
  exists data, data_of (l_size L) l data /\
    forall junk, zlen junk = l_size L -> readenv (l_size L) (l_range L) d (offset_of v) junk = Some (0, block f data).

Abbreviation relocate := (env_relocate_spec_redund (l_size L) (l_offset L) (l_offset_redund L) (l_range L)
  default_environment env_overwrite console_assign).

Lemma area_of v : redund_ok -> env_area (D := D) (l_size L) (offset_of v) (l_range L) (first_of v) (l_blocks L).
Proof. intros [_ H1 H2 _]. unfold offset_of, first_of. by destruct (v =? 1). Qed.

Lemma relocate_choice d junk1 junk2 fl e b1 b2 v l data : usable e ->
  found_copy d 1 junk1 = Some b1 -> found_copy d 2 junk2 = Some b2 ->
  choose_copy (crc_ok (l_size L) b1) (crc_ok (l_size L) b2) (ep_flags b1) (ep_flags b2) = Some v ->
  ep_data_redund (l_size L) (if v =? 1 then b1 else b2) = data -> data_of (l_size L) l data ->
  exists fl' e', relocate d junk1 junk2 fl e = Some (fl', e') /\ imported e e' l.
Proof.
  intros Hu H1 H2 Hc Hdata (n & Htext & Hs & _). unfold env_relocate_spec_redund, allocate.
  pose proof Hu as [Hh Hw]. rewrite !Hw. cbn [andb negb].
  unfold found_copy in H1, H2. change (offset_of 1) with (l_offset L) in H1. change (offset_of 2) with (l_offset_redund L) in H2.
  destruct (readenv _ _ d (l_offset L) junk1) as [[r1 l1] |]; [| done]. injection H1 as ->.
  destruct (readenv _ _ d (l_offset_redund L) junk2) as [[r2 l2] |]; [| done]. injection H2 as ->.
  cbn [mbind option_bind]. rewrite Hc, Hdata, Htext. rewrite Htext in Hs.
  destruct (import_data_spec (l_size L - 1) default_environment env_overwrite console_assign l n
    (set_env_valid (set_table e (surroundings e) (env_htab e)) v)) as (e' & Hi & t & Hwf & Ha & Hg & Hr); [done | done |].
  rewrite Hi. cbn [mbind option_bind]. eexists _, e'. split; [done |]. by exists t.
Qed.

(** The old copy after steps on the other one. *)
Lemma old_copy d d' v f l junk : redund_ok -> v = 1 \/ v = 2 -> holds d v f l ->
  rtc (flash_step (first_of (other_copy v)) (l_blocks L)) d d' -> zlen junk = l_size L ->
  exists data, data_of (l_size L) l data /\ found_copy d' v junk = Some (block f data).
Proof.
  intros Hok Hv (data & Hdata & Hread) Hsteps Hj. exists data. split; [done |]. unfold found_copy.
  pose proof (area_of (other_copy v) Hok) as Hother. pose proof (steps_same_outside _ _ _ _ (ea_first _ _ _ _ _ Hother)
    (ea_inside _ _ _ _ _ Hother) Hsteps) as Hsame.
  rewrite (readenv_frame _ _ _ _ _ (area_of v Hok) _ _ d d' junk Hsame), Hread by
    (done || (destruct Hok as [_ _ _ Hap]; unfold first_of, other_copy; destruct Hv as [-> | ->]; cbn [Z.eqb Pos.eqb]; lia)).
  done.
Qed.
End Recovery.

(** ** The theorems *)

(** C20: A save of the redundant environment is atomic with respect to power loss.
    Let one copy hold the variables [l] with serial number [f], and let the
    device be in any state that operations on the blocks of the other copy,
    complete or interrupted, can lead to.  The boot code then finds something in
    place of the other copy.  When its checksum is wrong the variables [l] are
    restored.  When it is a whole copy with the variables [l2] and any serial
    number [g], such as the older environment that was there before the save or
    the new one, those of the copy with the later number are: the numbers are
    counted modulo 256 as far as the step from 255 to 0, and the first copy is
    taken when they are equal.  So before the save has ended the old variables are
    there and afterwards the new ones.  What is not covered is a torn copy that
    has the checksum of its contents by chance. *)
Theorem redundant_power_loss_safe {D : Type} `{ChipLaws D} L default_environment env_overwrite console_assign
    (d d' : D) v f l junk1 junk2 fl e :
  redund_ok (D := D) L -> v = 1 \/ v = 2 -> 0 <= f < 256 -> holds L d v f l ->
  rtc (flash_step (first_of L (other_copy v)) (l_blocks L)) d d' ->
  zlen junk1 = l_size L -> zlen junk2 = l_size L -> usable e ->
  let restores l := exists fl' e', env_relocate_spec_redund (l_size L) (l_offset L) (l_offset_redund L) (l_range L)
      default_environment env_overwrite console_assign d' junk1 junk2 fl e = Some (fl', e') /\ imported e e' l in
  exists b, found_copy L d' (other_copy v) (if v =? 1 then junk2 else junk1) = Some b /\
    (crc_ok (l_size L) b = false -> restores l) /\
    (forall g l2 data2, 0 <= g < 256 -> data_of (l_size L) l2 data2 -> b = block g data2 ->
      restores (if decide (preferred v f g) then l2 else l)).
Proof.
  intros Hok Hv Hf Hholds Hsteps Hj1 Hj2 Hu restores.
  destruct (old_copy L d d' v f l (if v =? 1 then junk1 else junk2) Hok Hv Hholds Hsteps) as (data & Hdata & Hold); [by destruct (v =? 1) |].
  destruct (readenv_total _ _ _ _ _ (area_of L (other_copy v) Hok) d' (if v =? 1 then junk2 else junk1)) as [[rc b] Hb].
  exists b. assert (found_copy L d' (other_copy v) (if v =? 1 then junk2 else junk1) = Some b) as Hfound by (unfold found_copy; by rewrite Hb).
  split; [done |]. clear Hb. pose proof Hdata as (n & _ & _ & Hbytes & Hlen).
  destruct (block_fields (l_size L) f data Hbytes Hlen) as (Hd & _ & _).
  pose proof (choose_other (l_size L) v f data b) as Hchoice. split.
  - intros Hcrc. destruct (Hchoice 0 [] Hv Hf Hbytes Hlen) as [Hc _]. specialize (Hc Hcrc).
    destruct Hv as [-> | ->]; cbn [Z.eqb Pos.eqb other_copy] in *;
      by eapply (relocate_choice L default_environment env_overwrite console_assign d' junk1 junk2 fl e).
  - intros g l2 data2 Hg Hdata2 Hb. pose proof Hdata2 as (n2 & _ & _ & Hbytes2 & Hlen2).
    destruct (Hchoice g data2 Hv Hf Hbytes Hlen) as [_ Hc]. specialize (Hc Hg Hbytes2 Hlen2 Hb).
    destruct (block_fields (l_size L) g data2 Hbytes2 Hlen2) as (Hd2 & _ & _). rewrite <- Hb in Hd2.
    destruct (decide (preferred v f g)); destruct Hv as [-> | ->]; cbn [Z.eqb Pos.eqb other_copy] in *;
      by eapply (relocate_choice L default_environment env_overwrite console_assign d' junk1 junk2 fl e).
Qed.

(** [saveenv] of the redundant environment returns, and it performs only
    operations on blocks of the copy that is not in use, whatever they report;
    when it reports success, that copy holds the current variables with the next
    serial number and becomes the copy in use. *)
Theorem saveenv_redund_correct {D : Type} `{ChipLaws D} `{!ReliableErase D} L (d : D) f e t :
  redund_ok (D := D) L -> env_valid e = 1 \/ env_valid e = 2 -> env_wf e t -> storable_table t (ENV_SIZE_redund (l_size L)) ->
  exists rc d' f' e', saveenv_redund (l_size L) (l_offset L) (l_offset_redund L) (l_range L) d f e = Some (rc, d', f', e') /\
  rtc (flash_step (first_of L (other_copy (env_valid e))) (l_blocks L)) d d' /\
  (rc = 0 -> f' = u8 (f + 1) /\ env_valid e' = other_copy (env_valid e) /\
    exists l, list_to_map l = abs t /\ holds L d' (other_copy (env_valid e)) f' l).
Proof.
  intros Hok Hv [Hwf Hw] Hst. pose proof (ro_size L Hok) as Hsz. unfold saveenv_redund.
  pose proof (area_of L (other_copy (env_valid e)) Hok) as Harea.
  destruct (l_range L <? l_size L); [by do 4 eexists |].
  set (sz := ENV_SIZE_redund (l_size L)) in *. assert (0 < sz) as Hsz' by (unfold sz, ENV_SIZE_redund; lia).
  destruct (export_storable (env_htab e) t sz (surroundings e) Hwf Hst Hsz') as [-> | (l & n & -> & Hlen & Hs & Hb & Ha)];
    cbn [mbind option_bind]; [by do 4 eexists |].
  set (data := env_text l ++ replicate (S n) 0) in *. rewrite (proj2 (Z.ltb_ge sz 0)) by lia.
  cbn [env_valid set_table].
  assert ((if env_valid e =? 1 then l_offset_redund L else l_offset L) = offset_of L (other_copy (env_valid e))) as ->.
  { unfold offset_of, other_copy. by destruct Hv as [-> | ->]. }
  assert (0 <= l_range L < 2 ^ 63) as Hrange by (destruct Harea; pose proof erasesize_range; nia).
  destruct (nand_erase_opts_total d (EraseOptions (l_range L) (offset_of L (other_copy (env_valid e))) false false false) Hrange)
    as [[d1 r] Herase]. rewrite Herase. cbn [mbind option_bind].
  pose proof (erase_opts_steps _ _ _ _ _ Harea d d1 r Herase) as Hsteps1.
  destruct (Z.eqb_spec r 0) as [-> |]; cbn [negb]; [| by do 4 eexists].
  destruct (erase_range _ _ _ _ _ Harea d d1 Herase) as (_ & Hblank & _).
  fold (block (u8 (f + 1)) data). set (b := block (u8 (f + 1)) data).
  assert (is_bytes b) as Hbytes.
  { apply Forall_app. split; [apply le4_bytes |]. apply Forall_app. split; [| done].
    apply Forall_singleton. by apply wrap_range. }
  pose proof (length_block (l_size L) (u8 (f + 1)) data Hlen) as Hlb. fold b in Hlb.
  destruct (writeenv_total (l_size L) (offset_of L (other_copy (env_valid e))) (l_range L) d1 b) as (d2 & r2 & Hwrite). rewrite Hwrite. cbn [mbind option_bind].
  pose proof (writeenv_steps _ _ _ _ _ Harea d1 d2 b r2 Hlb Hbytes Hblank Hwrite) as Hsteps2.
  assert (rtc (flash_step (first_of L (other_copy (env_valid e))) (l_blocks L)) d d2) as Hsteps by (by etransitivity).
  destruct (Z.eqb_spec r2 0) as [-> |]; cbn [negb]; do 4 eexists; (split; [reflexivity |]); [| by split].
  split; [done |]. intros _. split_and!; [done | by destruct Hv as [-> | ->] |]. exists l. split; [done |].
  exists data. split; [by exists n |]. intros junk Hj. by apply (readenv_writeenv _ _ _ _ _ Harea d1 b).
Qed.

Module EnvRedundExamples.
Import ChipSim EnvExamples EnvNandExamples.

Definition L64 : layout := Layout 64 0x100 0x180 128 8 12 4.

Lemma L64_ok : redund_ok (D := sim []) L64.
Proof.
  split; cbn; [lia | apply area | | lia]. split; cbn; try lia; try done. by exists 2.
Qed.

Definition data59 (l : list pair) : list Z := env_text l ++ replicate (59 - length (env_text l)) 0.

Lemma data59_of l n : storable l 59 -> data59 l = env_text l ++ replicate (S n) 0 -> forallb (fun b => (0 <=? b) && (b <? 256)) (data59 l) = true ->
  zlen (data59 l) = 59 -> data_of 64 l (data59 l).
Proof.
  intros Hs Hd Hb Hl. exists n. rewrite Hl. split_and!; [exact Hd | exact Hs | | done].
  apply Forall_forall. intros b Hin%list_elem_of_In. rewrite forallb_forall in Hb. specialize (Hb b Hin).
  apply andb_true_iff in Hb as [H1%Z.leb_le H2%Z.ltb_lt]. done.
Qed.

Lemma stored_data : data_of 64 stored (data59 stored).
Proof. apply (data59_of stored 30); [apply stored_storable; lia | vm_compute; reflexivity..]. Qed.

Lemma defaults_data : data_of 64 defaults (data59 defaults).
Proof.
  apply (data59_of defaults 45); [| vm_compute; reflexivity..].
  split_and!; [| apply NoDup_singleton | vm_compute; discriminate].
  apply Forall_cons. split; [by apply var_lits | by apply Forall_nil].
Qed.

(** The first copy holds [stored] with serial number 255, in two good blocks
    around a bad one. *)
Definition erased1 : sim [] := default flash (fst <$> nand_erase_opts flash (EraseOptions 128 0x100 false false false)).
Definition flash1 : sim [] := default flash (fst <$> writeenv 64 128 erased1 0x100 (block 255 (data59 stored))).

Lemma flash1_holds : holds L64 flash1 1 255 stored.
Proof.
  exists (data59 stored). split; [apply stored_data |]. intros junk Hj. change (l_size L64) with 64 in Hj.
  destruct (erase_range _ _ _ _ _ (area []) flash erased1) as (_ & Hblank & _); [reflexivity |].
  apply (readenv_writeenv 64 0x100 128 8 4 (area []) erased1); [| reflexivity | exact Hj | exact Hblank | reflexivity].
  destruct stored_data as (n & _ & _ & Hb & _). apply Forall_app. split; [apply le4_bytes |]. apply Forall_app. split; [| exact Hb].
  apply Forall_singleton. unfold is_byte. lia.
Qed.

(** The power failed after the first block of the new copy was written. *)
Definition erased2 : sim [] := default flash (fst <$> nand_erase_opts flash1 (EraseOptions 128 0x180 false false false)).
Definition torn : sim [] := (nand_write erased2 0x180 (take 32 (block 0 (data59 defaults)))).1.1.

Lemma torn_steps : rtc (flash_step (first_of L64 (other_copy 1)) (l_blocks L64)) flash1 torn.
Proof.
  etransitivity.
  - apply (erase_opts_steps 64 0x180 128 12 4 (ro_area_redund _ L64_ok) flash1 erased2 0). reflexivity.
  - apply rtc_once. apply (step_write 12 4 erased2 torn 12 (take 32 (block 0 (data59 defaults))) 0 32); [lia | | reflexivity].
    split; [reflexivity | vm_compute; discriminate].
Qed.

Definition junk : list Z := replicate 64 0.

(** After the torn save the old variables are there, and after the whole one, whose
    serial number is 0, the new ones. *)
Definition written : sim [] := default flash (fst <$> writeenv 64 128 erased2 0x180 (block 0 (data59 defaults))).

Lemma written_steps : rtc (flash_step (first_of L64 (other_copy 1)) (l_blocks L64)) flash1 written.
Proof.
  etransitivity.
  - apply (erase_opts_steps 64 0x180 128 12 4 (ro_area_redund _ L64_ok) flash1 erased2 0). reflexivity.
  - destruct (erase_range _ _ _ _ _ (ro_area_redund _ L64_ok) flash1 erased2) as (_ & Hblank & _); [reflexivity |].
    apply (writeenv_steps 64 0x180 128 12 4 (ro_area_redund _ L64_ok) erased2 written (block 0 (data59 defaults)) 0);
      [reflexivity | | exact Hblank | reflexivity].
    destruct defaults_data as (n & _ & _ & Hb & _). apply Forall_app. split; [apply le4_bytes |]. apply Forall_app. split; [| exact Hb].
    apply Forall_singleton. unfold is_byte. lia.
Qed.

Definition restored (d : sim []) (l : list pair) : Prop := exists fl' e',
  env_relocate_spec_redund 64 0x100 0x180 128 default_text true no_console d junk junk 0 early_env = Some (fl', e') /\
  imported early_env e' l.

Lemma redundant_power_loss_safe_witness : restored torn stored /\ restored written defaults.
Proof.
  assert (usable early_env) as Hu by (split; [by left | reflexivity]). split.
  - destruct (redundant_power_loss_safe L64 default_text true no_console flash1 torn 1 255 stored junk junk 0 early_env
      L64_ok (or_introl eq_refl) ltac:(lia) flash1_holds torn_steps eq_refl eq_refl Hu) as (b & Hfound & Hbad & _).
    apply Hbad. vm_compute in Hfound. injection Hfound as <-. vm_compute. reflexivity.
  - destruct (redundant_power_loss_safe L64 default_text true no_console flash1 written 1 255 stored junk junk 0 early_env
      L64_ok (or_introl eq_refl) ltac:(lia) flash1_holds written_steps eq_refl eq_refl Hu) as (b & Hfound & _ & Hwhole).
    apply (Hwhole 0 defaults (data59 defaults)); [lia | apply defaults_data |]. vm_compute in Hfound. injection Hfound as <-. vm_compute. reflexivity.
Defined.

Lemma saveenv_redund_correct_witness : exists e d' e' l,
  loaded = Some e /\ saveenv_redund 64 0x100 0x180 128 flash1 255 e = Some (0, d', 0, e') /\
  list_to_map l = (list_to_map stored : gmap (list Z) (list Z)) /\ holds L64 d' 2 0 l.
Proof.
  destruct loaded_wf as (e & t & He & Hwf & Ha).
  assert (env_valid e = 1) as Hv by (vm_compute in He; injection He as <-; reflexivity).
  destruct (saveenv_redund_correct L64 flash1 255 e t) as (rc & d' & f' & e' & Hsave & _ & Hok).
  - apply L64_ok.
  - left. exact Hv.
  - exact Hwf.
  - apply stored_table; [vm_compute; discriminate | exact Ha].
  - assert ((fun v => v.1.1.1) <$> saveenv_redund 64 0x100 0x180 128 flash1 255 e = Some 0) as Hrc.
    { vm_compute in He. injection He as <-. vm_compute. reflexivity. }
    change (saveenv_redund 64 0x100 0x180 128 flash1 255 e = Some (rc, d', f', e')) in Hsave. rewrite Hsave in Hrc. injection Hrc as ->.
    destruct (Hok eq_refl) as (-> & _ & l & Hl & Hh). rewrite Hv in Hh. exists e, d', e', l. rewrite <- Ha.
    split_and!; [exact He | exact Hsave | exact Hl | exact Hh].
Defined.

End EnvRedundExamples.
