(* ===== verification/Circbuf.v ===== *)
(** * The circular buffer (lib/circbuf.c)

    A pointer into the buffer is its offset from [data]; [end_] is the offset
    behind the last byte.  Reading or writing outside the allocated bytes is a
    fault, [None].  The specification is a queue of bounded capacity that loses
    its oldest bytes when too much is pushed. *)

From S2P Require Import Prelude.

Record circbuf_t := CircBuf {
  size : Z;           (* current number of bytes held *)
  totalsize : Z;      (* number of bytes allocated *)
  top : Z;            (* pointer to current buffer start *)
  tail : Z;           (* pointer to space for next element *)
  data : list Z;      (* all data *)
  end_ : Z }.         (* end of data buffer *)

(** The allocated bytes are [mem]; the case that [malloc] fails is an assertion
    of the code. *)
Definition buf_init (mem : list Z) (size : Z) : circbuf_t := CircBuf 0 size 0 0 (take (Z.to_nat size) mem) size.

(** [p++; if (p == buf->end) p = buf->data;] *)
Definition advance (buf : circbuf_t) (p : Z) : Z := if p + 1 =? end_ buf then 0 else p + 1.

(** The loop of [buf_pop], from [p] on: the bytes and the pointer. *)
Fixpoint pop_loop (n : nat) (buf : circbuf_t) (p : Z) : option (list Z * Z) :=
  match n with
  | O => Some ([], p)
  | S n =>
      c ← (if p <? 0 then None else data buf !! Z.to_nat p);
      '(l, p) ← pop_loop n buf (advance buf p);
      Some (c :: l, p)
  end.

Definition buf_pop (buf : circbuf_t) (len : Z) : option (Z * list Z * circbuf_t) :=
  let len := if size buf <? len then size buf else len in
  '(dest, p) ← pop_loop (Z.to_nat len) buf (top buf);
  Some (len, dest, CircBuf (u32 (size buf - len)) (totalsize buf) p (tail buf) (data buf) (end_ buf)).

(** One round of [buf_push] for the byte [c] with the pointer [p]. *)
Definition push_byte (c : Z) (buf : circbuf_t) (p : Z) : option (circbuf_t * Z) :=
  if (p <? 0) || (zlen (data buf) <=? p) then None
  else
    let d := <[Z.to_nat p := c]> (data buf) in
    let p' := advance buf p in
    Some (if size buf <? totalsize buf then
            (CircBuf (size buf + 1) (totalsize buf) (top buf) (tail buf) d (end_ buf), p')
          else
            (CircBuf (size buf) (totalsize buf) (advance buf (top buf)) (tail buf) d (end_ buf), p')).

Fixpoint push_loop (src : list Z) (buf : circbuf_t) (p : Z) : option (circbuf_t * Z) :=
  match src with
  | [] => Some (buf, p)
  | c :: src => '(buf, p) ← push_byte c buf p; push_loop src buf p
  end.

(** [src] is the [len] bytes to push. *)
Definition buf_push (buf : circbuf_t) (src : list Z) : option (Z * circbuf_t) :=
  '(buf, p) ← push_loop src buf (tail buf);
  Some (zlen src, CircBuf (size buf) (totalsize buf) (top buf) p (data buf) (end_ buf)).

(** [free] and [memset]. *)
Definition buf_free (buf : circbuf_t) : circbuf_t := CircBuf 0 0 0 0 [] 0.

(** ** The queue *)

(** The newest [n] bytes. *)
Definition newest (n : Z) (q : list Z) : list Z := drop (length q - Z.to_nat n) q.

Inductive queue_op := Push (src : list Z) | Pop (len : Z).
Inductive queue_result := Pushed (n : Z) | Popped (l : list Z).

Definition spec_op (n : Z) (op : queue_op) (q : list Z) : queue_result * list Z :=
  match op with
  | Push src => (Pushed (zlen src), newest n (q ++ src))
  | Pop len => (Popped (take (Z.to_nat len) q), drop (Z.to_nat len) q)
  end.

Fixpoint spec_queue (n : Z) (ops : list queue_op) (q : list Z) : list queue_result * list Z :=
  match ops with
  | [] => ([], q)
  | op :: ops => let '(r, q) := spec_op n op q in let '(rs, q) := spec_queue n ops q in (r :: rs, q)
  end.

Definition run_op (op : queue_op) (buf : circbuf_t) : option (queue_result * circbuf_t) :=
  match op with
  | Push src => '(n, buf) ← buf_push buf src; Some (Pushed n, buf)
  | Pop len => '(_, l, buf) ← buf_pop buf len; Some (Popped l, buf)
  end.

Fixpoint run_ops (ops : list queue_op) (buf : circbuf_t) : option (list queue_result * circbuf_t) :=
  match ops with
  | [] => Some ([], buf)
  | op :: ops => '(r, buf) ← run_op op buf; '(rs, buf) ← run_ops ops buf; Some (r :: rs, buf)
  end.

(** ** The representation *)

(** The offset of the element number [k]. *)
Definition place (n top k : Z) : Z := if top + k <? n then top + k else top + k - n.

(** A buffer in use, and the bytes it holds.  The pointer at which the next byte
    is stored is [p], which is [tail] between the operations. *)
Record circ_ok (buf : circbuf_t) (p : Z) : Prop := CircOk {
  co_total : 0 < totalsize buf < 2 ^ 31;
  co_data : zlen (data buf) = totalsize buf;
  co_end : end_ buf = totalsize buf;
  co_top : 0 <= top buf < totalsize buf;
  co_size : 0 <= size buf <= totalsize buf;
  co_tail : p = (if size buf =? totalsize buf then top buf else place (totalsize buf) (top buf) (size buf)) }.

Definition contents (buf : circbuf_t) : list Z :=
  (fun k => default 0 (data buf !! Z.to_nat (place (totalsize buf) (top buf) (Z.of_nat k)))) <$> seq 0 (Z.to_nat (size buf)).

Lemma length_contents buf : length (contents buf) = Z.to_nat (size buf).
Proof. unfold contents. by rewrite length_fmap, length_seq. Qed.

Lemma contents_lookup buf k : (k < Z.to_nat (size buf))%nat ->
  contents buf !! k = Some (default 0 (data buf !! Z.to_nat (place (totalsize buf) (top buf) (Z.of_nat k)))).
Proof. intros Hk. unfold contents. by rewrite list_lookup_fmap, lookup_seq_lt. Qed.

(** A list with the elements of the buffer is its contents. *)
Lemma contents_eq buf l : length l = Z.to_nat (size buf) ->
  (forall k x, l !! k = Some x -> default 0 (data buf !! Z.to_nat (place (totalsize buf) (top buf) (Z.of_nat k))) = x) ->
  contents buf = l.
Proof.
  intros Hl Hx. apply list_eq_same_length with (n := length l); [done | by rewrite length_contents |].
  intros k x y Hk Hc Hy. rewrite contents_lookup in Hc by lia. injection Hc as <-. by apply Hx.
Qed.

Lemma newest_app n q l : 0 <= n -> newest n (newest n q ++ l) = newest n (q ++ l).
Proof.
  intros Hn. unfold newest. rewrite !length_app, length_drop. set (m := Z.to_nat n). rewrite !drop_app, length_drop, drop_drop.
  f_equal; f_equal; lia.
Qed.

Lemma newest_small n q : zlen q <= n -> newest n q = q.
Proof. intros Hq. unfold newest. by replace (length q - Z.to_nat n)%nat with 0%nat by lia. Qed.

(** Arithmetic on places, [H] being an equation for a pointer. *)
Ltac places H := revert H; unfold place; cases_ltb; intros; lia.

Lemma push_byte_ok c buf p : circ_ok buf p -> exists buf' p', push_byte c buf p = Some (buf', p') /\ circ_ok buf' p' /\
  totalsize buf' = totalsize buf /\ contents buf' = newest (totalsize buf) (contents buf ++ [c]).
Proof.
  intros [Ht Hd He Htop Hs Hp]. unfold push_byte. pose proof (length_contents buf) as Hlc.
  set (n := totalsize buf) in *.
  assert (0 <= p < n) as Hpr by (places Hp).
  rewrite (proj2 (Z.ltb_ge p 0)), (proj2 (Z.leb_gt _ _)) by lia. cbn [orb].
  assert (forall q, 0 <= q < n -> advance buf q = if q + 1 =? n then 0 else q + 1) as Hadv by (intros; unfold advance; by rewrite He).
  destruct (Z.ltb_spec (size buf) n) as [Hlt | Hge]; eexists _, _; (split; [reflexivity |]).
  - split_and!; [split; cbn; fold n | done |].
    + done.
    + by rewrite length_insert.
    + done.
    + done.
    + lia.
    + rewrite Hadv by done. places Hp.
    + rewrite newest_small by (rewrite length_app; cbn; lia). apply contents_eq; cbn [size data top totalsize]; fold n.
      { rewrite length_app. cbn. lia. }
      intros k x Hx. apply lookup_app_Some in Hx as [Hx | [Hk Hx]].
      * pose proof (lookup_lt_Some _ _ _ Hx) as Hk. rewrite contents_lookup in Hx by lia. injection Hx as <-. fold n.
        rewrite list_lookup_insert_ne; [done |]. places Hp.
      * apply list_lookup_singleton_Some in Hx as [Hk0 ->].
        replace (Z.to_nat (place n (top buf) (Z.of_nat k))) with (Z.to_nat p).
        { rewrite list_lookup_insert_eq by lia. done. }
        places Hp.
  - assert (size buf = n) as Hsn by lia. split_and!; [split; cbn; fold n | done |].
    + done.
    + by rewrite length_insert.
    + done.
    + rewrite Hadv by done. cases_ltb; lia.
    + lia.
    + rewrite Hsn, Z.eqb_refl in *. by rewrite Hp.
    + rewrite Hsn, Z.eqb_refl in Hp. apply contents_eq; cbn [size data top totalsize]; fold n.
      { unfold newest. rewrite length_drop, !length_app. cbn. lia. }
      intros k x Hx. unfold newest in Hx. rewrite lookup_drop, !length_app in Hx. cbn [length] in Hx.
      replace (length (contents buf) + 1 - Z.to_nat n + k)%nat with (S k) in Hx by lia. rewrite Hadv by done.
      apply lookup_app_Some in Hx as [Hx | [Hk Hx]].
      * pose proof (lookup_lt_Some _ _ _ Hx) as Hk. rewrite contents_lookup in Hx by lia. injection Hx as <-. fold n.
        rewrite list_lookup_insert_ne by (places Hp).
        do 2 f_equal. unfold place. cases_ltb; lia.
      * apply list_lookup_singleton_Some in Hx as [Hk0 ->].
        replace (Z.to_nat (place n _ (Z.of_nat k))) with (Z.to_nat p); [by rewrite list_lookup_insert_eq by lia |].
        places Hp.
Qed.

Lemma push_loop_ok src : forall buf p, circ_ok buf p -> exists buf' p', push_loop src buf p = Some (buf', p') /\ circ_ok buf' p' /\
  totalsize buf' = totalsize buf /\ contents buf' = newest (totalsize buf) (contents buf ++ src).
Proof.
  induction src as [| c src IH]; intros buf p Hok; cbn [push_loop].
  - exists buf, p. split_and!; try done. rewrite app_nil_r, newest_small; [done |]. destruct Hok. rewrite length_contents. lia.
  - destruct (push_byte_ok c buf p Hok) as (b1 & p1 & -> & Hok1 & Ht1 & Hc1). cbn [mbind option_bind].
    destruct (IH b1 p1 Hok1) as (b2 & p2 & -> & Hok2 & Ht2 & Hc2). exists b2, p2. split_and!; [done | done | congruence |].
    rewrite Hc2, Ht1, Hc1, newest_app by (destruct Hok; lia). by rewrite <- app_assoc.
Qed.

Lemma pop_loop_ok buf p : circ_ok buf p -> forall m k, (k + m <= Z.to_nat (size buf))%nat ->
  pop_loop m buf (place (totalsize buf) (top buf) (Z.of_nat k)) =
  Some (take m (drop k (contents buf)), place (totalsize buf) (top buf) (Z.of_nat (k + m))).
Proof.
  intros [Ht Hd He Htop Hs Hp]. induction m as [| m IH]; intros k Hk; cbn [pop_loop].
  { by rewrite Nat.add_0_r. }
  set (q := place _ _ (Z.of_nat k)). assert (0 <= q < totalsize buf) as Hq by (unfold q, place; cases_ltb; lia).
  rewrite (proj2 (Z.ltb_ge q 0)) by lia.
  destruct (lookup_lt_is_Some_2 (data buf) (Z.to_nat q)) as [c Hc]; [lia |]. rewrite Hc. cbn [mbind option_bind].
  replace (advance buf q) with (place (totalsize buf) (top buf) (Z.of_nat (S k))).
  2: { unfold advance, q, place. rewrite He. cases_ltb; lia. }
  rewrite IH by lia. cbn [mbind option_bind].
  assert (contents buf !! k = Some c) as Hck by (rewrite contents_lookup by lia; fold q; by rewrite Hc).
  rewrite (drop_S _ _ _ Hck). by replace (S k + m)%nat with (k + S m)%nat by lia.
Qed.

Lemma place_place n t a b : 0 <= t < n -> 0 <= a -> 0 <= b -> a + b <= n -> place n (place n t a) b = place n t (a + b).
Proof. intros. unfold place. destruct (Z.ltb_spec (t + a) n); cases_ltb; lia. Qed.

Lemma buf_pop_ok buf len : circ_ok buf (tail buf) -> 0 <= len -> exists buf',
  buf_pop buf len = Some (Z.min len (size buf), take (Z.to_nat len) (contents buf), buf') /\
  circ_ok buf' (tail buf') /\ totalsize buf' = totalsize buf /\ contents buf' = drop (Z.to_nat len) (contents buf).
Proof.
  intros Hok Hlen. pose proof Hok as [Ht Hd He Htop Hs Hp]. unfold buf_pop. pose proof (length_contents buf) as Hlc.
  replace (if size buf <? len then size buf else len) with (Z.min len (size buf)) by (cases_ltb; lia).
  set (m := Z.min len (size buf)).
  pose proof (pop_loop_ok buf _ Hok (Z.to_nat m) 0 ltac:(lia)) as Hpop. rewrite drop_0 in Hpop.
  replace (place _ _ (Z.of_nat 0)) with (top buf) in Hpop by (unfold place; cases_ltb; lia). rewrite Hpop. cbn [mbind option_bind].
  replace (take (Z.to_nat m) (contents buf)) with (take (Z.to_nat len) (contents buf)).
  2: { destruct (Z.le_gt_cases len (size buf)); [f_equal; lia | by rewrite !take_ge by lia]. }
  rewrite (wrap_small 32) by lia.
  eexists. split; [reflexivity |]. rewrite !Nat.add_0_l. split_and!; [split; cbn; [done | done | done | | lia |] | done |].
  - unfold place. cases_ltb; lia.
  - rewrite place_place by lia. revert Hp. replace (Z.of_nat (Z.to_nat m) + (size buf - m)) with (size buf) by lia.
    unfold place. cases_ltb; lia.
  - apply contents_eq; cbn [size data top totalsize]; [rewrite length_drop; lia |].
    intros k x Hx. rewrite lookup_drop in Hx. pose proof (lookup_lt_Some _ _ _ Hx) as Hk. rewrite contents_lookup in Hx by lia.
    injection Hx as <-. do 3 f_equal. rewrite place_place by lia. f_equal. lia.
Qed.

Lemma buf_push_ok buf src : circ_ok buf (tail buf) -> exists buf', buf_push buf src = Some (zlen src, buf') /\
  circ_ok buf' (tail buf') /\ totalsize buf' = totalsize buf /\ contents buf' = newest (totalsize buf) (contents buf ++ src).
Proof.
  intros Hok. unfold buf_push. destruct (push_loop_ok src buf _ Hok) as (b & p & -> & [] & Ht & Hc). cbn [mbind option_bind].
  eexists. split; [reflexivity |]. split_and!; [by split | done | done].
Qed.

Lemma run_ops_ok ops : Forall (fun op => match op with Pop len => 0 <= len | Push _ => True end) ops ->
  forall buf, circ_ok buf (tail buf) -> exists rs q buf',
    spec_queue (totalsize buf) ops (contents buf) = (rs, q) /\ run_ops ops buf = Some (rs, buf') /\
    circ_ok buf' (tail buf') /\ contents buf' = q.
Proof.
  induction 1 as [| op ops Hop _ IH]; intros buf Hok; cbn [spec_queue run_ops]; [by exists [], (contents buf), buf |].
  assert (exists r q b, spec_op (totalsize buf) op (contents buf) = (r, q) /\ run_op op buf = Some (r, b) /\
    circ_ok b (tail b) /\ totalsize b = totalsize buf /\ contents b = q) as (r & q & b & -> & -> & Hokb & Htb & Hcb).
  { destruct op as [src | len]; cbn [spec_op run_op].
    - destruct (buf_push_ok buf src Hok) as (b & -> & ? & ? & ?). by eexists _, _, b.
    - destruct (buf_pop_ok buf len Hok Hop) as (b & -> & ? & ? & ?). by eexists _, _, b. }
  cbn [mbind option_bind]. destruct (IH b Hokb) as (rs & q2 & b2 & Hspec & -> & Hok2 & Hc2).
  rewrite Htb, Hcb in Hspec. rewrite Hspec. cbn [mbind option_bind]. by exists (r :: rs), q2, b2.
Qed.

(** The circular buffer is a queue of bounded capacity: after [buf_init],
    every sequence of [buf_push] and [buf_pop] calls accesses only the allocated
    bytes and returns what a queue returns that keeps the newest bytes up to its
    size. *)
Theorem circbuf_refines_queue mem n ops : 0 < n < 2 ^ 31 -> n <= zlen mem ->
  Forall (fun op => match op with Pop len => 0 <= len | Push _ => True end) ops ->
  exists rs q buf', spec_queue n ops [] = (rs, q) /\ run_ops ops (buf_init mem n) = Some (rs, buf') /\ contents buf' = q.
Proof.
  intros Hn Hmem Hops. assert (circ_ok (buf_init mem n) (tail (buf_init mem n))) as Hok.
  { split; cbn -[Z.eqb]; [lia | rewrite length_take; lia | done | lia | lia |]. unfold place. cases_ltb; lia. }
  destruct (run_ops_ok ops Hops _ Hok) as (rs & q & b & Hs & Hr & _ & Hc). by exists rs, q, b.
Qed.

Lemma circbuf_refines_queue_witness : exists buf', contents buf' = [8] /\
  run_ops [Push [1; 2; 3]; Pop 1; Push [4; 5; 6; 7]; Pop 9; Push [8]] (buf_init (replicate 4 0) 4) =
  Some ([Pushed 3; Popped [1]; Pushed 4; Popped [4; 5; 6; 7]; Pushed 1], buf').
Proof.
  destruct (circbuf_refines_queue (replicate 4 0) 4 [Push [1; 2; 3]; Pop 1; Push [4; 5; 6; 7]; Pop 9; Push [8]])
    as (rs & q & buf' & Hs & Hr & Hc).
  - lia.
  - cbn. lia.
  - repeat (apply Forall_cons; split; [first [exact I | lia] |]). apply Forall_nil. exact I.
  - exists buf'. vm_compute in Hs. injection Hs as <- <-. split; [exact Hc | exact Hr].
Defined.
