(* ===== verification/Command.v ===== *)
(** * The command table (common/command.c)

    Looking up a command by its name or an unambiguous abbreviation, running it,
    the help texts, and the completion of a command line with TAB.

    A function pointer in the table is an integer; what the functions do is a
    parameter ([call], [call_complete]) that acts on the state of the machine.
    A string is the list of its characters; [None] is an access outside of a
    string or an array. *)

From S2P Require Import Prelude Ctype StringLib Qsort Hashtable HashIO Vsprintf Env.
From Stdlib Require Import Permutation Sorted.

Record cmd_tbl := Cmd {
  name : cstring; maxargs : Z; repeatable : Z; cmd : Z;
  usage : option cstring; help : option cstring; complete : Z }.

Definition CMD_RET_SUCCESS : Z := 0.
Definition CMD_RET_FAILURE : Z := 1.
Definition CMD_RET_USAGE : Z := -1.
Definition CMD_FLAG_BOOTD : Z := 2.
Definition CONFIG_SYS_HELP_CMD_WIDTH : Z := 8.

(** The configuration of the board (include/configs/kingpin.h). *)
Definition CONFIG_SYS_CBSIZE : Z := 1024.
Definition CONFIG_SYS_MAXARGS : Z := 64.
Definition CONFIG_SYS_PROMPT : cstring := str "u-boot> ".

Definition DOT : Z := 46.
Definition NEWLINE : Z := 10.
Definition BELL : Z := 7.

(** ** Looking up a command *)

(** [((p = strchr(cmd, '.')) == NULL) ? strlen(cmd) : (p - cmd)]. *)
Fixpoint name_len (cmd : cstring) : nat :=
  match cmd with
  | [] => O
  | c :: cmd => if c =? DOT then O else S (name_len cmd)
  end.

(** [for (cmdtp = table; cmdtp != table + table_len; cmdtp++)]: the index of
    the entry.  [strncmp(cmd, cmdtp->name, len)] compares no more than the
    characters of [cmd]. *)
Fixpoint find_loop (cmd : cstring) (len : nat) (table : list cmd_tbl) (i temp : nat) (n_found : Z) : option nat :=
  match table with
  | [] => if n_found =? 1 then Some temp else None
  | cmdtp :: table =>
      if is_prefix (take len cmd) (name cmdtp) then
        if Nat.eqb len (length (name cmdtp)) then Some i
        else find_loop cmd len table (S i) i (n_found + 1)
      else find_loop cmd len table (S i) temp n_found
  end.

Definition find_cmd_tbl (cmd : option cstring) (table : list cmd_tbl) : option nat :=
  match cmd with
  | None => None
  | Some cmd => find_loop cmd (name_len cmd) table 0 0 0
  end.

(** ** Help *)

Definition cmd_usage (cmdtp : cmd_tbl) : option (Z * text) :=
  '(t, _) ← vsnprintf_text (str "%s - %s" ++ [NEWLINE; NEWLINE]) [AStr (Some (name cmdtp)); AStr (usage cmdtp)];
  '(u, _) ← vsnprintf_text (str "Usage:" ++ [NEWLINE] ++ str "%s ") [AStr (Some (name cmdtp))];
  match help cmdtp with
  | None => Some (1, t ++ u ++ str "- No additional help available." ++ [NEWLINE])
  | Some h => Some (1, t ++ u ++ h ++ [NEWLINE])
  end.

(** [for (j = 0; j < i; ++j)]: the array and whether there were swaps. *)
Fixpoint bubble (i : nat) (l : list cmd_tbl) : list cmd_tbl * bool :=
  match i, l with
  | S i, a :: b :: l =>
      if 0 <? cstrcmp (name a) (name b)
      then let '(l, _) := bubble i (a :: l) in (b :: l, true)
      else let '(l, swaps) := bubble i (b :: l) in (a :: l, swaps)
  | _, _ => (l, false)
  end.

(** [for (i = cmd_items - 1; i > 0; --i)]. *)
Fixpoint bubble_sort (i : nat) (cmd_array : list cmd_tbl) : list cmd_tbl :=
  match i with
  | O => cmd_array
  | S i' => let '(cmd_array, swaps) := bubble i cmd_array in if swaps then bubble_sort i' cmd_array else cmd_array
  end.

(** ** Splitting a line *)

Fixpoint skip_blanks (s : list Z) : list Z :=
  match s with
  | c :: r => if isblank c then skip_blanks r else s
  | [] => []
  end.

(** [while ( *s && !isblank( *s)) ++s;]: the argument and the text from its end. *)
Fixpoint find_end_of_string (s : list Z) : cstring * list Z :=
  match s with
  | c :: r => if isblank c then ([], s) else let '(w, rest) := find_end_of_string r in (c :: w, rest)
  | [] => ([], [])
  end.

(** [while (argc < argvsz - 1)]; the blank behind an argument becomes its
    terminator. *)
Fixpoint make_argv_loop (room : nat) (s : list Z) : list cstring :=
  match room with
  | O => []
  | S room =>
      match skip_blanks s with
      | [] => []
      | s =>
          let '(arg, rest) := find_end_of_string s in
          match rest with
          | [] => [arg]
          | _ :: rest => arg :: make_argv_loop room rest
          end
      end
  end.

Definition make_argv (s : list Z) (argvsz : Z) : list cstring := make_argv_loop (Z.to_nat (argvsz - 1)) s.

(** [while ( *argv != NULL)] of [print_argv]; [i] is the column. *)
Fixpoint print_loop (leader sep : option cstring) (ll sl linemax i : Z) (argv : list cstring) : text :=
  match argv with
  | [] => []
  | arg :: argv =>
      let len := zlen arg + sl in
      let '(t, i) := if linemax <=? i + len then ([NEWLINE] ++ default [] leader, ll - sl) else (default [] sep, i) in
      t ++ arg ++ print_loop leader sep ll sl linemax (i + len) argv
  end.

Definition print_argv (banner leader sep : option cstring) (linemax : Z) (argv : list cstring) : text :=
  let length_of s := match s with Some s => zlen s | None => 0 end in
  match banner with Some b => [NEWLINE] ++ b | None => [] end ++
  print_loop leader sep (length_of leader) (length_of sep) linemax linemax argv ++ [NEWLINE].

(** [for (i = 0; i < len; i++, t++, s++) if ( *t != *s) break;]: the string [t]
    ends where [s], of at least [len] characters, does not. *)
Fixpoint common_length (len : nat) (s t : cstring) : nat :=
  match len, s, t with
  | S len, c :: s, d :: t => if d =? c then S (common_length len s t) else O
  | _, _, _ => O
  end.

Definition find_common_prefix (argv : list cstring) : Z :=
  match argv with
  | [] => 0
  | anchor :: argv => Z.of_nat (foldl (fun len t => common_length len anchor t) (length anchor) argv)
  end.

(** ".b", ".w", ".l" and ".s" at the end of a command's name. *)
Definition cmd_get_data_size (arg : cstring) (default_size : Z) : Z :=
  match reverse arg with
  | c :: d :: _ :: _ =>
      if d =? DOT then
        if c =? 98 then 1 else if c =? 119 then 2 else if c =? 108 then 4 else if c =? 115 then -2 else -1
      else default_size
  | _ => default_size
  end.

Section Machine.
Context {M : Type}.
Context (table : list cmd_tbl).
Context (call : Z -> cmd_tbl -> Z -> list cstring -> M -> option (Z * M)).
Context (call_complete : Z -> list cstring -> Z -> Z -> M -> option (list cstring * M)).
Context (do_bootd : Z) (ctrlc : M -> bool * M).

Definition find_cmd (cmd : option cstring) : option nat := find_cmd_tbl cmd table.

(** The lines of the command list, until it is interrupted. *)
Fixpoint print_help (cmd_array : list cmd_tbl) (out : text) (s : M) : option (Z * text * M) :=
  match cmd_array with
  | [] => Some (0, out, s)
  | cmdtp :: cmd_array =>
      let '(stop, s) := ctrlc s in
      if stop : bool then Some (1, out, s)
      else
        match usage cmdtp with
        | None => print_help cmd_array out s
        | Some u =>
            '(t, _) ← vsnprintf_text (str "%-*s- %s" ++ [NEWLINE]) [A32 CONFIG_SYS_HELP_CMD_WIDTH; AStr (Some (name cmdtp)); AStr (Some u)];
            print_help cmd_array (out ++ t) s
        end
  end.

(** [for (i = 1; i < argc; ++i)]. *)
Fixpoint long_help (cmds : list cmd_tbl) (argv : list cstring) (rcode : Z) (out : text) : option (Z * text) :=
  match argv with
  | [] => Some (rcode, out)
  | arg :: argv =>
      match find_cmd_tbl (Some arg) cmds with
      | Some i => cmdtp ← cmds !! i; '(r, t) ← cmd_usage cmdtp; long_help cmds argv (Z.lor rcode r) (out ++ t)
      | None =>
          '(t, _) ← vsnprintf_text (str "Unknown command '%s' - try 'help' without arguments for list of all known commands" ++ [NEWLINE; NEWLINE])
                      [AStr (Some arg)];
          long_help cmds argv 1 (out ++ t)
      end
  end.

Definition _do_help (cmds : list cmd_tbl) (argv : list cstring) (s : M) : option (Z * text * M) :=
  if zlen argv =? 1 then print_help (bubble_sort (length cmds - 1) cmds) [] s
  else '(rcode, out) ← long_help cmds (tail argv) 0 []; Some (rcode, out, s).

(** ** Running a command *)

Definition cmd_call (cmdtp : cmd_tbl) (flag : Z) (argv : list cstring) (s : M) : option (Z * M) :=
  call (cmd cmdtp) cmdtp flag argv s.

(** The return value, [*repeatable] and the state; the messages are left out. *)
Definition cmd_process (flag : Z) (argv : list cstring) (repeat : Z) (s : M) : option (Z * Z * M) :=
  match find_cmd (head argv) with
  | None => Some (1, repeat, s)
  | Some i =>
      cmdtp ← table !! i;
      let '(rc, flag) :=
        if maxargs cmdtp <? zlen argv then (CMD_RET_USAGE, flag)
        else if cmd cmdtp =? do_bootd then
          if negb (Z.land flag CMD_FLAG_BOOTD =? 0) then (CMD_RET_FAILURE, flag) else (0, Z.lor flag CMD_FLAG_BOOTD)
        else (0, flag) in
      '(rc, repeat, s) ←
        (if rc =? 0 then '(rc, s) ← cmd_call cmdtp flag argv s; Some (rc, Z.land repeat (repeatable cmdtp), s)
         else Some (rc, repeat, s));
      if rc =? CMD_RET_USAGE then '(rc, _) ← cmd_usage cmdtp; Some (rc, repeat, s) else Some (rc, repeat, s)
  end.

(** ** Completion *)

(** The names in the table, as many as fit. *)
Fixpoint command_names (maxv : Z) (keep : cmd_tbl -> bool) (cmds : list cmd_tbl) (cmdv : list cstring) : list cstring :=
  match cmds with
  | [] => cmdv
  | cmdtp :: cmds =>
      if keep cmdtp then
        if maxv - 2 <=? zlen cmdv then cmdv ++ [str "..."]
        else command_names maxv keep cmds (cmdv ++ [name cmdtp])
      else command_names maxv keep cmds cmdv
  end.

Definition at_space (last_char : Z) : bool := (last_char =? 0) || isblank last_char.

(** [cmdv] without its null pointer; its length is the return value, except for
    -2 when [maxv] is too small. *)
Definition complete_cmdv (argv : list cstring) (last_char maxv : Z) (s : M) : option (Z * list cstring * M) :=
  if maxv <? 2 then Some (-2, [], s)
  else
    let found l s := Some (zlen l, l, s) in
    match argv with
    | [] => found (command_names maxv (fun _ => true) table []) s
    | cmd :: _ =>
        if (1 <? zlen argv) || at_space last_char then
          match find_cmd (Some cmd) with
          | None => Some (0, [], s)
          | Some i =>
              cmdtp ← table !! i;
              if complete cmdtp =? 0 then Some (0, [], s)
              else '(l, s) ← call_complete (complete cmdtp) argv last_char maxv s; found l s
          end
        else found (command_names maxv (fun cmdtp => is_prefix (take (name_len cmd) cmd) (name cmdtp)) table []) s
    end.

(** [strcpy(tmp_buf, buf)]. *)
Definition copy_to_tmp_buf (buf : cstring) : option (list Z) :=
  if zlen buf <? CONFIG_SYS_CBSIZE then Some buf else None.

(** The last argument, [argv[argc - 1]]. *)
Definition last_arg (argv : list cstring) : option cstring := last argv.

(** The text [s] to insert and whether a blank follows, if anything is. *)
Definition insertion (argv cmdv : list cstring) (i : Z) : option (option (cstring * bool)) :=
  if i =? 1 then
    arg ← last_arg argv; c ← head cmdv;
    if (length c <? length arg)%nat then None else Some (Some (drop (length arg) c, true))
  else if (1 <? i) && negb (find_common_prefix cmdv =? 0) then
    arg ← last_arg argv; c ← head cmdv;
    let j := find_common_prefix cmdv - zlen arg in
    if 0 <? j then Some (Some (take (Z.to_nat j) (drop (length arg) c), false)) else Some None
  else Some None.

(** The text [t] and a terminator behind the line, in [console_buffer], which has
    CONFIG_SYS_CBSIZE + 1 bytes. *)
Definition append_to_line (buf t : cstring) : option cstring :=
  if zlen buf + zlen t + 1 <=? CONFIG_SYS_CBSIZE + 1 then Some (buf ++ t) else None.

(** The return value, the buffer, [*np], [*colp], the output and the state. *)
Definition cmd_auto_complete (prompt buf : cstring) (n col : Z) (s : M) :
    option (Z * cstring * Z * Z * text * M) :=
  if negb (cstrcmp prompt CONFIG_SYS_PROMPT =? 0) then Some (0, buf, n, col, [], s)
  else
    tmp_buf ← copy_to_tmp_buf buf;
    let argv := make_argv tmp_buf (CONFIG_SYS_MAXARGS + 1) in
    '(i, cmdv, s) ← complete_cmdv argv (default 0 (last buf)) 20 s;
    if i =? 0 then
      if 1 <? zlen argv then Some (0, buf, n, col, [], s) else Some (1, buf, n, col, [BELL], s)
    else
      ins ← insertion argv cmdv i;
      match ins with
      | Some (t, sep) =>
          let t := t ++ (if sep : bool then [32] else []) in
          let k := zlen t in
          if CONFIG_SYS_CBSIZE - 2 <=? n + k then Some (1, buf, n, col, [BELL], s)
          else
            buf ← append_to_line buf t;
            Some (1, buf, n + k, col + k, t ++ (if sep then [] else [BELL]), s)
      | None => Some (1, buf, n, col, print_argv None (Some (str "  ")) (Some [32]) 78 cmdv ++ prompt ++ buf, s)
      end.

End Machine.

(** The completion of variable names. *)
Definition var_complete (argv : list cstring) (last_char maxv : Z) (e : env) : option (list cstring * env) :=
  let space := at_space last_char in
  if space && (zlen argv =? 1) then env_complete [] maxv 512 e
  else if negb space && (zlen argv =? 2) then env_complete (default [] (argv !! 1%nat)) maxv 512 e
  else Some ([], e).

(** ** The lookup *)

(** The part of a command that is compared: the text before the first dot. *)
Definition word (cmd : cstring) : cstring := take (name_len cmd) cmd.

Lemma is_prefix_spec p s : is_prefix p s = bool_decide (p `prefix_of` s).
Proof.
  revert s. induction p as [| c p IH]; intros s; cbn [is_prefix].
  { symmetry. apply bool_decide_true, prefix_nil. }
  destruct s as [| d s].
  { symmetry. apply bool_decide_false. intros H%prefix_nil_inv. done. }
  rewrite IH. destruct (Z.eqb_spec c d) as [-> | Hne]; cbn [andb].
  - apply bool_decide_ext. split; [apply prefix_cons | apply prefix_cons_inv_2].
  - symmetry. apply bool_decide_false. intros H%prefix_cons_inv_1. done.
Qed.

Lemma name_len_le cmd : (name_len cmd <= length cmd)%nat.
Proof. induction cmd as [| c cmd IH]; cbn [name_len length]; [done |]. destruct (c =? DOT); lia. Qed.

Lemma length_word cmd : length (word cmd) = name_len cmd.
Proof. unfold word. rewrite length_take. pose proof (name_len_le cmd). lia. Qed.

Lemma prefix_same_length {A} (p s : list A) : p `prefix_of` s -> length p = length s -> p = s.
Proof. intros [k ->] H. rewrite length_app in H. destruct k; [by rewrite app_nil_r | cbn in H; lia]. Qed.

(** What the lookup promises: the first entry with that name, else the only
    entry whose name starts with it. *)
Definition is_entry (w : cstring) (table : list cmd_tbl) (r : option nat) : Prop :=
  let abbreviates i := exists c, table !! i = Some c /\ w `prefix_of` name c in
  let named i := exists c, table !! i = Some c /\ name c = w in
  match r with
  | Some i => named i /\ (forall j, (j < i)%nat -> ~ named j) \/
      (forall j, ~ named j) /\ abbreviates i /\ forall j, abbreviates j -> j = i
  | None => (forall j, ~ named j) /\ forall i, abbreviates i -> exists j, j <> i /\ abbreviates j
  end.

Section Lookup.
Context (cmd : cstring) (all : list cmd_tbl).
Abbreviation w := (word cmd).
Abbreviation abbreviates i := (exists c, all !! i = Some c /\ w `prefix_of` name c).
Abbreviation named i := (exists c, all !! i = Some c /\ name c = w).

Lemma find_loop_spec rest : forall i temp n, drop i all = rest -> 0 <= n ->
  (forall j, (j < i)%nat -> ~ named j) ->
  (n = 0 -> forall j, (j < i)%nat -> ~ abbreviates j) ->
  (1 <= n -> (temp < i)%nat /\ abbreviates temp) ->
  (n = 1 -> forall j, (j < i)%nat -> abbreviates j -> j = temp) ->
  (2 <= n -> exists j, (j < i)%nat /\ j <> temp /\ abbreviates j) ->
  is_entry w all (find_loop cmd (name_len cmd) rest i temp n).
Proof.
  induction rest as [| c rest IH]; intros i temp n Hd Hn Hnamed H0 H1 Hu H2; cbn [find_loop].
  { assert (forall j c, all !! j = Some c -> (j < i)%nat) as Hlt.
    { intros j c Hj. apply lookup_lt_Some in Hj. apply (f_equal length) in Hd. rewrite length_drop in Hd. cbn in Hd. lia. }
    assert (forall j, ~ named j) as Hno by (intros j (c & Hj & Hc); apply (Hnamed j); eauto).
    destruct (Z.eqb_spec n 1) as [-> | Hne]; cbn [is_entry].
    - right. split; [done |]. split; [by apply H1 |]. intros j (c & Hj & Hc). apply Hu; eauto.
    - split; [done |]. intros j (c & Hj & Hc). destruct (decide (n = 0)) as [-> | Hn0].
      + exfalso. apply (H0 eq_refl j); eauto.
      + destruct (H2 ltac:(lia)) as (k & Hk & Hkt & Ha). destruct (decide (j = temp)) as [-> | Hjt]; [by exists k |].
        exists temp. split; [done |]. apply H1; lia. }
  assert (all !! i = Some c) as Hi.
  { rewrite <- (Nat.add_0_r i), <- lookup_drop, Hd. done. }
  assert (drop (S i) all = rest) as Hd' by (rewrite <- Nat.add_1_r, <- drop_drop, Hd; done).
  rewrite is_prefix_spec. fold w. case_bool_decide as Hp.
  - destruct (Nat.eqb_spec (name_len cmd) (length (name c))) as [He | Hne].
    { left. split; [| done]. exists c. split; [done |]. symmetry. apply prefix_same_length; [done |]. by rewrite length_word. }
    assert (name c <> w) as Hnw by (intros Hw; rewrite Hw, length_word in Hne; done).
    apply IH; [done | lia | | lia | | |].
    + intros j Hj (d & Hl & Hw). destruct (decide (j = i)) as [-> | Hji]; [congruence |]. apply (Hnamed j); [lia | eauto].
    + intros _. split; [lia | eauto].
    + intros Hn1 j Hj Ha. destruct (decide (j = i)) as [| Hji]; [done |]. exfalso. apply (H0 ltac:(lia) j); [lia | done].
    + intros Hn2. destruct (H1 ltac:(lia)) as (Ht & Ha). exists temp. split_and!; [lia | lia | done].
  - assert (~ abbreviates i) as Hni by (intros (d & Hl & Hw); congruence).
    apply IH; [done | done | | | | |].
    + intros j Hj (d & Hl & Hw). destruct (decide (j = i)) as [-> | Hji]; [| apply (Hnamed j); [lia | eauto]].
      apply Hp. simplify_eq. by rewrite Hw.
    + intros Hn0 j Hj Ha. destruct (decide (j = i)) as [-> | Hji]; [done |]. apply (H0 Hn0 j); [lia | done].
    + intros Hn1. destruct (H1 Hn1). split; [lia | done].
    + intros Hn1 j Hj Ha. destruct (decide (j = i)) as [-> | Hji]; [done |]. apply Hu; [done | lia | done].
    + intros Hn2. destruct (H2 Hn2) as (j & ? & ? & ?). exists j. split_and!; [lia | done | done].
Qed.
End Lookup.

(** The command that is run: a name selects the first entry with exactly
    that name, otherwise the only entry whose name it abbreviates; when there is
    no such entry or more than one, none.  What follows a dot in the command
    ("cp.b") does not count. *)
Theorem find_cmd_tbl_correct cmd table r : find_cmd_tbl (Some cmd) table = r -> is_entry (word cmd) table r.
Proof.
  intros <-. apply find_loop_spec; [by rewrite drop_0 | lia | intros; lia | intros; lia | lia | lia | lia].
Qed.

(** ** The longest common prefix *)

Lemma common_length_spec s : forall len t, (len <= length s)%nat ->
  let n := common_length len s t in (n <= len)%nat /\ take n s `prefix_of` t /\
  forall p, (length p <= len)%nat -> p `prefix_of` s -> p `prefix_of` t -> (length p <= n)%nat.
Proof.
  induction s as [| c s IH]; intros [| len] t Hl; cbn [length] in Hl; try lia.
  1, 2: cbn; split_and!; [lia | apply prefix_nil | intros p Hp _ _; lia].
  cbn [common_length]. destruct t as [| d t].
  { cbn. split_and!; [lia | done |]. intros p _ _ Hp%prefix_nil_inv. by subst. }
  destruct (Z.eqb_spec d c) as [-> | Hne].
  - destruct (IH len t ltac:(lia)) as (H1 & H2 & H3). split_and!; [lia | by cbn; apply prefix_cons |].
    intros [| e p] Hp Hs Ht; cbn [length] in *; [lia |]. apply prefix_cons_inv_2 in Hs, Ht.
    specialize (H3 p ltac:(lia) Hs Ht). lia.
  - cbn. split_and!; [lia | apply prefix_nil |]. intros [| e p] Hp Hs Ht; cbn [length]; [lia |].
    apply prefix_cons_inv_1 in Hs, Ht. congruence.
Qed.

(** The longest common prefix of a list of strings. *)
Definition is_lcp (p : cstring) (l : list cstring) : Prop :=
  Forall (prefix p) l /\ forall q, Forall (prefix q) l -> (length q <= length p)%nat.

Lemma find_common_prefix_spec anchor l : exists n, find_common_prefix (anchor :: l) = Z.of_nat n /\
  (n <= length anchor)%nat /\ is_lcp (take n anchor) (anchor :: l).
Proof.
  cbn [find_common_prefix].
  assert (forall n0, (n0 <= length anchor)%nat -> let n := foldl (fun len t => common_length len anchor t) n0 l in
    (n <= n0)%nat /\ Forall (prefix (take n anchor)) l /\
    forall p, (length p <= n0)%nat -> p `prefix_of` anchor -> Forall (prefix p) l -> (length p <= n)%nat) as H.
  { induction l as [| t l IH]; intros n0 Hn0; cbn [foldl].
    { split_and!; [lia | by apply Forall_nil | done]. }
    destruct (common_length_spec anchor n0 t Hn0) as (H1 & H2 & H3).
    destruct (IH (common_length n0 anchor t) ltac:(lia)) as (H4 & H5 & H6). split_and!; [lia | |].
    - apply Forall_cons. split; [| done]. etrans; [| exact H2]. rewrite <- (Nat.min_l _ _ H4), <- take_take. apply prefix_take.
    - intros p Hp Ha [Ht Hl]%Forall_cons. apply H6; [by apply H3 | done | done]. }
  destruct (H (length anchor) ltac:(lia)) as (H1 & H2 & H3). eexists. split; [done |]. split; [done |]. split.
  - apply Forall_cons. split; [apply prefix_take | done].
  - intros q [Hq Hl]%Forall_cons. rewrite length_take, Nat.min_l by done. apply H3; [| done | done]. by apply prefix_length.
Qed.

(** ** Completion of a command name *)

Lemma name_len_no_dot w : DOT ∉ w -> name_len w = length w.
Proof.
  induction w as [| c w IH]; [done |]. intros H. apply not_elem_of_cons in H as [H1 H2]. cbn [name_len length].
  rewrite (proj2 (Z.eqb_neq c DOT)) by done. by rewrite IH.
Qed.

Definition plain_word (w : cstring) : Prop := w <> [] /\ Forall (fun c => isblank c = false /\ c <> 0) w.

Lemma find_end_word w : Forall (fun c => isblank c = false /\ c <> 0) w -> find_end_of_string w = (w, []).
Proof. induction 1 as [| c w [Hc _] _ IH]; [done |]. cbn [find_end_of_string]. by rewrite Hc, IH. Qed.

Lemma skip_blanks_word bl w : Forall (fun c => isblank c = true) bl -> plain_word w -> skip_blanks (bl ++ w) = w.
Proof.
  intros Hb [Hne Hw]. induction Hb as [| c bl Hc _ IH]; cbn [app skip_blanks]; [| by rewrite Hc].
  destruct w as [| c w]; [done |]. apply Forall_cons in Hw as [[Hc _] _]. cbn [skip_blanks]. by rewrite Hc.
Qed.

Lemma make_argv_word bl w n : Forall (fun c => isblank c = true) bl -> plain_word w -> 2 <= n -> make_argv (bl ++ w) n = [w].
Proof.
  intros Hb Hw Hn. unfold make_argv. destruct (Z.to_nat (n - 1)) as [| k] eqn:Hk; [lia |]. cbn [make_argv_loop].
  rewrite (skip_blanks_word bl w Hb Hw). destruct Hw as [Hne Hw]. destruct w as [| c w]; [done |]. by rewrite find_end_word.
Qed.

Lemma last_word bl w : plain_word w -> at_space (default 0 (last (bl ++ w))) = false.
Proof.
  intros [Hne Hw]. destruct (last w) as [c |] eqn:Hl; [| by apply last_None in Hl].
  rewrite last_app, Hl. change (default 0 (Some c)) with c. apply last_Some_elem_of in Hl. rewrite Forall_forall in Hw.
  destruct (Hw c Hl) as [Hc H0]. unfold at_space. rewrite Hc. by rewrite (proj2 (Z.eqb_neq c 0)).
Qed.

Lemma command_names_all maxv keep table l : zlen l + zlen (filter (fun c => keep c = true) table) <= maxv - 2 ->
  command_names maxv keep table l = l ++ (name <$> filter (fun c => keep c = true) table).
Proof.
  revert l. induction table as [| c table IH]; intros l; cbn [command_names].
  { by rewrite app_nil_r. }
  rewrite filter_cons. destruct (keep c) eqn:Hk.
  - rewrite decide_True by done. cbn [length]. intros H. rewrite (proj2 (Z.leb_gt _ _)) by lia.
    rewrite IH; [by rewrite <- app_assoc | rewrite length_app; cbn; lia].
  - rewrite decide_False by done. apply IH.
Qed.

Lemma drop_prefix (w c : cstring) : w `prefix_of` c -> w ++ drop (length w) c = c.
Proof. intros [k ->]. by rewrite drop_app_length. Qed.

(** What is completed: the whole name and a blank, or what all the names have in
    common. *)
Definition completion (w : cstring) (names : list cstring) (goal : cstring) : Prop :=
  match names with
  | [] => goal = w
  | [nm] => goal = nm ++ [32]
  | _ => is_lcp goal names
  end.

Lemma complete_word {M} (table : list cmd_tbl) call_complete (bl w : cstring) (s : M) : plain_word w -> DOT ∉ w ->
  let names := name <$> filter (fun c => w `prefix_of` name c) table in zlen names <= 18 ->
  complete_cmdv table call_complete [w] (default 0 (last (bl ++ w))) 20 s = Some (zlen names, names, s).
Proof.
  intros Hw Hdot names Hfew. unfold complete_cmdv. change (20 <? 2) with false. cbn iota.
  rewrite (last_word bl w Hw). change (1 <? zlen [w]) with false. cbn [orb]. rewrite name_len_no_dot, firstn_all by done.
  assert (name <$> filter (fun c => is_prefix w (name c) = true) table = names) as He.
  { unfold names. f_equal. apply list_filter_iff. intros c. rewrite is_prefix_spec. apply bool_decide_eq_true. }
  rewrite command_names_all; cbn [app]; [by rewrite He |].
  rewrite <- (length_fmap name), He. cbn [length]. lia.
Qed.

(** What is inserted behind the word. *)
Definition inserted (ins : option (cstring * bool)) : cstring :=
  match ins with
  | Some (t, sep) => t ++ (if sep then [32] else [])
  | None => []
  end.

Lemma insertion_spec w names : w <> [] -> names <> [] -> Forall (prefix w) names -> exists ins,
  insertion [w] names (zlen names) = Some ins /\ completion w names (w ++ inserted ins).
Proof.
  intros Hne Hnn Hpre. destruct names as [| nm [| nm2 names']]; [done | |]; unfold insertion.
  - apply Forall_cons in Hpre as [Hpre _]. cbn [length]. change (Z.of_nat 1 =? 1) with true.
    cbn [last_arg last head mbind option_bind]. rewrite (proj2 (Nat.ltb_ge _ _)) by (by apply prefix_length).
    eexists. split; [done |]. cbn [completion inserted]. by rewrite app_assoc, drop_prefix.
  - set (i := zlen (nm :: nm2 :: names')). assert (1 < i) as Hi by (unfold i; cbn [length]; lia).
    rewrite (proj2 (Z.eqb_neq i 1)), (proj2 (Z.ltb_lt 1 i)) by lia.
    destruct (find_common_prefix_spec nm (nm2 :: names')) as (k & -> & Hkl & Hlcp).
    assert (length w <= k)%nat as Hwk.
    { destruct Hlcp as [_ Hmax]. specialize (Hmax w Hpre). rewrite length_take in Hmax. lia. }
    assert (0 < length w)%nat as Hw0 by (destruct w; [done | cbn; lia]).
    rewrite (proj2 (Z.eqb_neq (Z.of_nat k) 0)) by lia. cbn [andb negb last_arg last head mbind option_bind].
    assert (w ++ take (k - length w) (drop (length w) nm) = take k nm) as Hcat.
    { apply Forall_cons in Hpre as [[r ->] _]. by rewrite drop_app_length, take_app, (take_ge w) by lia. }
    destruct (Z.ltb_spec 0 (Z.of_nat k - zlen w)); eexists; (split; [done |]); cbn [completion inserted].
    + rewrite app_nil_r. replace (Z.to_nat (Z.of_nat k - zlen w)) with (k - length w)%nat by lia. by rewrite Hcat.
    + replace (k - length w)%nat with 0%nat in Hcat by lia. rewrite take_0 in Hcat. by rewrite Hcat.
Qed.

(** C34: Completing the name of a command with TAB, for a line that is one word
    and whose characters are counted by [n]: the only command whose name starts
    with the word is completed and a blank added; of several commands (18 at most,
    as many as are collected) the longest common prefix is completed; without a
    match the line stays as it is, and also, exactly, when it would grow to
    CONFIG_SYS_CBSIZE - 2 characters: nothing is ever stored behind the end of the
    line buffer, whatever the names in the table.  The position and the column
    advance by what was added. *)
Theorem cmd_auto_complete_correct {M} (table : list cmd_tbl) call_complete (bl w : cstring) n col (s : M) :
  Forall (fun c => isblank c = true) bl -> plain_word w -> DOT ∉ w -> zlen (bl ++ w) < CONFIG_SYS_CBSIZE -> zlen (bl ++ w) <= n ->
  let names := name <$> filter (fun c => w `prefix_of` name c) table in zlen names <= 18 ->
  exists (buf out goal : cstring), let added := zlen buf - zlen (bl ++ w) in
    cmd_auto_complete table call_complete CONFIG_SYS_PROMPT (bl ++ w) n col s = Some (1, buf, n + added, col + added, out, s) /\
    completion w names goal /\
    (if decide (goal = w \/ n + (zlen goal - zlen w) < CONFIG_SYS_CBSIZE - 2) then buf = bl ++ goal else buf = bl ++ w).
Proof.
  intros Hb Hw Hdot Hlen Hn names Hfew. unfold cmd_auto_complete.
  change (negb (cstrcmp CONFIG_SYS_PROMPT CONFIG_SYS_PROMPT =? 0)) with false. cbn iota.
  unfold copy_to_tmp_buf. rewrite (proj2 (Z.ltb_lt _ _)) by done. cbn [mbind option_bind].
  rewrite make_argv_word by (done || unfold CONFIG_SYS_MAXARGS; lia).
  rewrite (complete_word table call_complete bl w s) by done. fold names. cbn [mbind option_bind].
  change (1 <? zlen [w]) with false. cbn iota.
  assert (Forall (prefix w) names) as Hpre.
  { unfold names. apply Forall_fmap, Forall_forall. intros c [Hc _]%list_elem_of_filter. done. }
  destruct (decide (names = [])) as [Hnil | Hnn].
  { rewrite Hnil. exists (bl ++ w), [BELL], w. cbn zeta. rewrite Z.sub_diag, !Z.add_0_r. split_and!; [done | done | by rewrite decide_True by (by left)]. }
  rewrite (proj2 (Z.eqb_neq (zlen names) 0)) by (destruct names; [done | cbn; lia]).
  destruct (insertion_spec w names (proj1 Hw) Hnn Hpre) as (ins & -> & Hgoal). cbn [mbind option_bind].
  assert (forall x, zlen (bl ++ w ++ x) - zlen (bl ++ w) = zlen x) as Hadd by (intros x; rewrite !length_app; lia).
  destruct ins as [[t sep] |]; cbn [inserted] in Hgoal.
  - set (ext := t ++ (if sep then [32] else [])) in *.
    destruct (Z.leb_spec (CONFIG_SYS_CBSIZE - 2) (n + zlen ext)) as [Hbig | Hfit].
    + exists (bl ++ w), [BELL], (w ++ ext). cbn zeta. rewrite Z.sub_diag, !Z.add_0_r. split_and!; [done | done |].
      case_decide as Hd; [| done]. destruct Hd as [-> | Hd]; [done |]. rewrite length_app in Hd. lia.
    + unfold append_to_line. rewrite (proj2 (Z.leb_le _ _)) by (unfold CONFIG_SYS_CBSIZE in *; lia). cbn [mbind option_bind].
      eexists (bl ++ w ++ ext), _, (w ++ ext). cbn zeta. rewrite Hadd, <- (app_assoc bl w ext). split_and!; [done | done |].
      rewrite decide_True; [done |]. right. rewrite length_app. lia.
  - eexists (bl ++ w), _, w. cbn zeta. rewrite Z.sub_diag, !Z.add_0_r. rewrite app_nil_r in Hgoal.
    split_and!; [done | done | by rewrite decide_True by (by left)].
Qed.

Lemma name_len_dot w x : DOT ∉ w -> name_len (w ++ DOT :: x) = length w.
Proof.
  induction w as [| c w IH]; [done |]. intros H. apply not_elem_of_cons in H as [H1 H2]. cbn [name_len length app].
  rewrite (proj2 (Z.eqb_neq c DOT)) by done. by rewrite IH.
Qed.

(** Two lines on which TAB reads or writes out of bounds.  A command with a
    length modifier, like "cp.b", of which only one command's name starts with
    the part before the dot: the text to insert is taken from behind the end of
    that name.  And a line that fills the line buffer, which [cread_line] lets
    grow to CONFIG_SYS_CBSIZE characters: its copy does not fit [tmp_buf]. *)
Theorem cmd_auto_complete_faults {M} (table : list cmd_tbl) call_complete (bl w x nm : cstring) n col (s : M) :
  Forall (fun c => isblank c = true) bl -> plain_word (w ++ DOT :: x) -> DOT ∉ w ->
  name <$> filter (fun c => w `prefix_of` name c) table = [nm] -> zlen nm <= zlen w + zlen x ->
  cmd_auto_complete table call_complete CONFIG_SYS_PROMPT (bl ++ w ++ DOT :: x) n col s = None /\
  forall buf, CONFIG_SYS_CBSIZE <= zlen buf -> cmd_auto_complete table call_complete CONFIG_SYS_PROMPT buf n col s = None.
Proof.
  intros Hb Hw Hdot Hone Hlen.
  assert (forall buf, CONFIG_SYS_CBSIZE <= zlen buf -> cmd_auto_complete table call_complete CONFIG_SYS_PROMPT buf n col s = None) as Hlong.
  { intros buf Hbuf. unfold cmd_auto_complete, copy_to_tmp_buf. by rewrite (proj2 (Z.ltb_ge _ _)) by done. }
  split; [| done]. set (cmd := w ++ DOT :: x) in *.
  destruct (Z.le_gt_cases CONFIG_SYS_CBSIZE (zlen (bl ++ cmd))) as [Hl | Hl]; [by apply Hlong |].
  unfold cmd_auto_complete, copy_to_tmp_buf. rewrite (proj2 (Z.ltb_lt _ _)) by done.
  change (negb (cstrcmp CONFIG_SYS_PROMPT CONFIG_SYS_PROMPT =? 0)) with false. cbn [mbind option_bind].
  rewrite make_argv_word by (done || unfold CONFIG_SYS_MAXARGS; lia).
  assert (complete_cmdv table call_complete [cmd] (default 0 (last (bl ++ cmd))) 20 s = Some (1, [nm], s)) as ->.
  { unfold complete_cmdv. change (20 <? 2) with false. cbn iota. rewrite (last_word bl cmd Hw).
    change (1 <? zlen [cmd]) with false. cbn [orb]. unfold cmd. rewrite name_len_dot, take_app_length by done.
    assert (name <$> filter (fun c => is_prefix w (name c) = true) table = [nm]) as He.
    { rewrite <- Hone. f_equal. apply list_filter_iff. intros c. rewrite is_prefix_spec. apply bool_decide_eq_true. }
    rewrite command_names_all; cbn [app]; [by rewrite He |]. rewrite <- (length_fmap name), He. cbn. lia. }
  cbn [mbind option_bind]. unfold insertion. change (1 =? 0) with false. change (1 =? 1) with true.
  cbn [last_arg last head mbind option_bind].
  rewrite (proj2 (Nat.ltb_lt _ _)); [done |]. unfold cmd. rewrite length_app. cbn [length]. lia.
Qed.

(** ** Help *)

Definition name_le (a b : cmd_tbl) : Prop := cstrcmp (name a) (name b) <= 0.

Section Help.
(** On names of 7-bit characters [strcmp] orders like the dictionary. *)
Definition ascii (s : cstring) : Prop := Forall (fun c => 0 < c < 128) s.

Lemma s8_diff c d : 0 <= c < 128 -> 0 <= d < 128 -> s8 (c - d) = c - d.
Proof. intros. apply swrap_small; [lia |]. change (2 ^ (8 - 1)) with 128. lia. Qed.

Lemma cstrcmp_trans s : forall t u, ascii s -> ascii t -> ascii u -> cstrcmp s t <= 0 -> cstrcmp t u <= 0 -> cstrcmp s u <= 0.
Proof.
  induction s as [| c s IH]; intros [| d t] [| e u] Hs Ht Hu; cbn [cstrcmp]; try done;
    repeat match goal with H : ascii (_ :: _) |- _ => apply Forall_cons in H as [? ?] end;
    repeat case_match; rewrite ?Z.eqb_eq, ?Z.eqb_neq in *; rewrite ?s8_diff by lia; try lia; subst.
  eauto.
Qed.

Lemma cstrcmp_total s t : ascii s -> ascii t -> 0 < cstrcmp s t -> cstrcmp t s <= 0.
Proof.
  revert t. induction s as [| c s IH]; intros [| d t] Hs Ht; cbn [cstrcmp];
    repeat match goal with H : ascii (_ :: _) |- _ => apply Forall_cons in H as [? ?] end; rewrite ?s8_diff by lia; try lia.
  rewrite (Z.eqb_sym d c). destruct (c =? d); [by apply IH | rewrite ?s8_diff by lia; lia].
Qed.

Abbreviation ascii_names := (Forall (fun c => ascii (name c))).

(** A pass over the first [S i] elements moves a largest one behind the others;
    without a swap they were in order. *)
Lemma bubble_spec i : forall a p q, length p = i -> ascii_names (a :: p) ->
  exists p' m swaps, bubble i (a :: p ++ q) = (p' ++ m :: q, swaps) /\ a :: p ≡ₚ p' ++ [m] /\
    Forall (fun c => name_le c m) p' /\ (swaps = false -> a :: p = p' ++ [m] /\ Sorted name_le (a :: p)).
Proof.
  induction i as [| i IH]; intros a p q Hp Hn.
  { destruct p; [| done]. exists [], a, false. cbn. split_and!; [done | done | by apply Forall_nil |].
    intros _. split; [done | repeat constructor]. }
  destruct p as [| b p]; [done |]. cbn [length] in Hp. cbn [app bubble].
  apply Forall_cons in Hn as [Ha Hn]. pose proof Hn as [Hb Hn']%Forall_cons.
  destruct (Z.ltb_spec 0 (cstrcmp (name a) (name b))) as [Hgt | Hle].
  - destruct (IH a p q ltac:(lia) ltac:(by apply Forall_cons)) as (p' & m & sw & -> & Hperm & Hmax & _).
    exists (b :: p'), m, true. cbn [app]. split_and!; [done | by rewrite <- Hperm, Permutation_swap | | done].
    assert (ascii_names (p' ++ [m])) as Hn2 by (rewrite <- Hperm; by apply Forall_cons).
    apply Forall_app in Hn2 as [Hnp [Hnm _]%Forall_cons].
    apply Forall_cons. split; [| done]. pose proof (cstrcmp_total _ _ Ha Hb Hgt) as Hba.
    assert (a ∈ p' ++ [m]) as [Hin | Hin%list_elem_of_singleton]%elem_of_app by (rewrite <- Hperm; by left); [| by subst].
    rewrite Forall_forall in Hmax. exact (cstrcmp_trans _ _ _ Hb Ha Hnm Hba (Hmax a Hin)).
  - destruct (IH b p q ltac:(lia) Hn) as (p' & m & sw & -> & Hperm & Hmax & Hsw).
    exists (a :: p'), m, sw. cbn [app]. split_and!; [done | by rewrite <- Hperm | |].
    + assert (ascii_names (p' ++ [m])) as Hn2 by (by rewrite <- Hperm).
      apply Forall_app in Hn2 as [Hnp [Hnm _]%Forall_cons]. apply Forall_cons. split; [| done].
      assert (b ∈ p' ++ [m]) as [Hin | Hin%list_elem_of_singleton]%elem_of_app by (rewrite <- Hperm; by left); [| by subst].
      rewrite Forall_forall in Hmax. exact (cstrcmp_trans _ _ _ Ha Hb Hnm Hle (Hmax b Hin)).
    + intros H. destruct (Hsw H) as [He Hs]. split; [by f_equal |]. constructor; [done | by constructor].
Qed.

Lemma bubble_sort_spec i : forall p q, length p = S i -> ascii_names p -> ascii_names q -> Sorted name_le q ->
  Forall (fun c => Forall (name_le c) q) p -> bubble_sort i (p ++ q) ≡ₚ p ++ q /\ Sorted name_le (bubble_sort i (p ++ q)).
Proof.
  assert (forall l (q : list cmd_tbl), Sorted name_le l -> Sorted name_le q -> Forall (fun c => Forall (name_le c) q) l -> Sorted name_le (l ++ q)) as Happ.
  { intros l q Hl Hq Hf. induction Hl as [| a l Hl IH Hd]; [done |]. apply Forall_cons in Hf as [Ha Hf]. cbn [app].
    constructor; [by apply IH |]. destruct l; cbn; [| inversion Hd; by constructor].
    destruct q; constructor. by apply Forall_cons in Ha as [? _]. }
  induction i as [| i IH]; intros p q Hp Hnp Hnq Hq Hle.
  { cbn [bubble_sort]. split; [done |]. apply Happ; [| done | done]. destruct p as [| a [|]]; [done | repeat constructor | done]. }
  destruct p as [| a p]; [done |]. injection Hp as Hp. cbn [bubble_sort].
  destruct (bubble_spec (S i) a p q Hp Hnp) as (p' & m & sw & Hb & Hperm & Hmax & Hsw). cbn [app]. rewrite Hb.
  assert (ascii_names (p' ++ [m])) as [Hn1 Hn2]%Forall_app by (by rewrite <- Hperm).
  rewrite Hperm in Hle. apply Forall_app in Hle as [Hle1 [Hle2 _]%Forall_cons]. destruct sw.
  - destruct (IH p' (m :: q)) as [H1 H2].
    + apply Permutation_length in Hperm. rewrite length_app in Hperm. cbn [length] in Hperm. lia.
    + done.
    + apply Forall_cons in Hn2 as [? _]. by apply Forall_cons.
    + constructor; [done |]. destruct q; constructor. by apply Forall_cons in Hle2 as [? _].
    + rewrite Forall_forall in Hmax, Hle1 |- *. intros c Hc. apply Forall_cons. split; [by apply Hmax | by apply Hle1].
    + split; [| done]. rewrite H1. change (m :: q) with ([m] ++ q). rewrite app_assoc, <- Hperm. done.
  - destruct (Hsw eq_refl) as [He Hs]. change (m :: q) with ([m] ++ q). rewrite app_assoc, <- He. split; [done |].
    apply Happ; [done | done |]. rewrite He. apply Forall_app. split; [done |]. by apply Forall_cons.
Qed.
End Help.

(** "help" lists every command once, in the order of the names, when the
    names consist of 7-bit characters. *)
Theorem help_sorted cmds : Forall (fun c => ascii (name c)) cmds ->
  bubble_sort (length cmds - 1) cmds ≡ₚ cmds /\ Sorted name_le (bubble_sort (length cmds - 1) cmds).
Proof.
  intros Hn. destruct cmds as [| c cmds]; [done |].
  pose proof (bubble_sort_spec (length cmds) (c :: cmds) [] eq_refl Hn ltac:(by apply Forall_nil) ltac:(constructor)) as H.
  rewrite app_nil_r in H. replace (length (c :: cmds) - 1)%nat with (length cmds) by (cbn; lia). apply H. apply Forall_forall. intros. by apply Forall_nil.
Qed.

Module CommandExamples.

Definition entry (n : cstring) : cmd_tbl := Cmd n 5 1 0x60100000 (Some (str "usage")) None 0.
Definition commands : list cmd_tbl := [entry (str "cp"); entry (str "md"); entry (str "mw"); entry (str "crc32")].
Definition no_completion (f : Z) (argv : list cstring) (last_char maxv : Z) (s : unit) : option (list cstring * unit) :=
  Some ([], s).

Lemma find_cmd_tbl_correct_witness : is_entry (str "cp") commands (Some 0%nat).
Proof. apply (find_cmd_tbl_correct (str "cp.b")). vm_compute. reflexivity. Defined.

Lemma plain_word_lit w : forallb (fun c => negb (isblank c) && negb (c =? 0)) w = true -> w <> [] -> plain_word w.
Proof.
  intros H Hne. split; [done |]. apply Forall_forall. intros c Hc%list_elem_of_In. rewrite forallb_forall in H.
  specialize (H c Hc). apply andb_true_iff in H as [H1 H2]. apply negb_true_iff in H1, H2. by apply Z.eqb_neq in H2.
Qed.

Lemma cmd_auto_complete_correct_witness : exists buf out goal,
  cmd_auto_complete commands no_completion CONFIG_SYS_PROMPT (str " cr") 3 11 tt = Some (1, buf, 3 + (zlen buf - 3), 11 + (zlen buf - 3), out, tt) /\
  goal = str "crc32" ++ [32] /\
  (if decide (goal = str "cr" \/ 3 + (zlen goal - zlen (str "cr")) < CONFIG_SYS_CBSIZE - 2) then buf = [32] ++ goal else buf = str " cr").
Proof.
  apply (cmd_auto_complete_correct commands no_completion [32] (str "cr") 3 11 tt).
  - by repeat constructor.
  - by apply plain_word_lit.
  - apply (bool_decide_unpack _). vm_compute. exact I.
  - vm_compute. reflexivity.
  - done.
  - vm_compute. discriminate.
Defined.

Lemma cmd_auto_complete_faults_witness :
  cmd_auto_complete commands no_completion CONFIG_SYS_PROMPT (str "cp.b") 4 12 tt = None /\
  forall buf, CONFIG_SYS_CBSIZE <= zlen buf -> cmd_auto_complete commands no_completion CONFIG_SYS_PROMPT buf 4 12 tt = None.
Proof.
  apply (cmd_auto_complete_faults commands no_completion [] (str "cp") (str "b") (str "cp") 4 12 tt).
  - by apply Forall_nil.
  - by apply plain_word_lit.
  - apply (bool_decide_unpack _). vm_compute. exact I.
  - vm_compute. reflexivity.
  - vm_compute. discriminate.
Defined.

Lemma help_sorted_witness : bubble_sort 3 commands ≡ₚ commands /\ Sorted name_le (bubble_sort 3 commands).
Proof. apply (help_sorted commands). repeat (constructor; [cbn; repeat (constructor; [lia |]); constructor |]). constructor. Defined.

End CommandExamples.
