(* ===== verification/Readline.v ===== *)
(** * Reading a command line (common/main.c)

    The line editor [cread_line] with its history: keys change the buffer of the
    line, its length [eol_num] and the position [num] of the cursor, and emit
    characters to the terminal.

    The keys come from a list; when it ends, the editor waits for more.  Output
    is the list of the characters sent.  [None] is an access outside of a
    buffer.  Time-outs are not modelled. *)

From S2P Require Import Prelude Ctype StringLib Hashtable HashIO Vsprintf Env Command.

Definition BACKSPACE : Z := 8.
Definition ESC : Z := 27.
Definition DEL : Z := 255.
Definition DEL7 : Z := 127.
Definition CREAD_HIST_CHAR : Z := 33.
(** [CTL_CH(c)]. *)
Definition CTL_CH (c : Z) : Z := c - 97 + 1.

(** ** The history *)

Definition HIST_MAX : Z := 20.
Definition HIST_SIZE : Z := CONFIG_SYS_CBSIZE.

Record history := History { hist_max : Z; hist_add_idx : Z; hist_cur : Z; hist_num : Z; hist_list : list cstring }.

Definition hist_init : history := History 0 0 (-1) 0 (replicate (Z.to_nat HIST_MAX) []).

(** A line of the history has room for HIST_SIZE characters. *)
Definition cread_add_to_hist (line : cstring) (h : history) : option history :=
  if HIST_SIZE <? zlen line then None
  else
    let l := <[Z.to_nat (hist_add_idx h) := line]> (hist_list h) in
    let add := if HIST_MAX <=? hist_add_idx h + 1 then 0 else hist_add_idx h + 1 in
    Some (History (if hist_max h <? add then add else hist_max h) add (hist_cur h) (u32 (hist_num h + 1)) l).

Definition set_cur (c : Z) (h : history) : history := History (hist_max h) (hist_add_idx h) c (hist_num h) (hist_list h).

(** The line, if any, and the history. *)
Definition hist_prev (h : history) : option (option cstring * history) :=
  if hist_cur h <? 0 then Some (None, h)
  else
    let old_cur := hist_cur h in
    let cur := if old_cur - 1 <? 0 then hist_max h else old_cur - 1 in
    if cur =? hist_add_idx h then Some (None, set_cur old_cur h)
    else l ← hist_list h !! Z.to_nat cur; Some (Some l, set_cur cur h).

Definition hist_next (h : history) : option (option cstring * history) :=
  if hist_cur h <? 0 then Some (None, h)
  else if hist_cur h =? hist_add_idx h then Some (None, h)
  else
    let cur := if hist_max h <? hist_cur h + 1 then 0 else hist_cur h + 1 in
    if cur =? hist_add_idx h then Some (Some [], set_cur cur h)
    else l ← hist_list h !! Z.to_nat cur; Some (Some l, set_cur cur h).

(** ** The buffer *)

(** The line being edited: the buffer, the cursor, the length and what has been
    sent to the terminal. *)
Record line := Line { buf : list Z; num : nat; eol_num : nat; out : text }.

Definition store_char (b : list Z) (i : nat) (c : Z) : option (list Z) :=
  if decide (i < length b)%nat then Some (<[i := c]> b) else None.

(** [memmove(&b[dst], &b[src], n)]. *)
Definition move (b : list Z) (dst src n : nat) : option (list Z) :=
  if decide (dst + n <= length b /\ src + n <= length b)%nat
  then Some (take dst b ++ take n (drop src b) ++ drop (dst + n) b) else None.

Definition emit (t : text) (l : line) : line := Line (buf l) (num l) (eol_num l) (out l ++ t).

(** [putnstr(buf + i, n)] with "%.*s", which ends at a terminator. *)
Definition putnstr (i n : nat) (l : line) : line := emit (until_nul (take n (drop i (buf l)))) l.

Definition set_num (n : nat) (l : line) : line := Line (buf l) n (eol_num l) (out l).
Definition set_eol (n : nat) (l : line) : line := Line (buf l) (num l) n (out l).
Definition set_buf (b : list Z) (l : line) : line := Line b (num l) (eol_num l) (out l).

Definition BEGINNING_OF_LINE (l : line) : line := set_num 0 (emit (replicate (num l) BACKSPACE) l).

(** The blanks of [printf("%*s", n, "")], then back. *)
Definition ERASE_TO_EOL (l : line) : line :=
  if (num l <? eol_num l)%nat then
    let n := (eol_num l - num l)%nat in
    set_eol (num l) (emit (replicate n 32 ++ replicate n BACKSPACE) l)
  else l.

Definition REFRESH_TO_EOL (l : line) : line :=
  if (num l <? eol_num l)%nat then set_num (eol_num l) (putnstr (num l) (eol_num l - num l) l) else l.

Definition cread_add_char (ichar : Z) (insert : bool) (len : nat) (l : line) : option line :=
  if (insert || (num l =? eol_num l)%nat) && (len - 1 <? eol_num l)%nat then Some (emit [BELL] l)
  else
    let l := if insert || (num l =? eol_num l)%nat then set_eol (S (eol_num l)) l else l in
    if insert then
      let wlen := (eol_num l - num l)%nat in
      b ← (if (1 <? wlen)%nat then move (buf l) (num l + 1) (num l) (wlen - 1) else Some (buf l));
      b ← store_char b (num l) ichar;
      let l := putnstr (num l) wlen (set_buf b l) in
      Some (emit (replicate (wlen - 1) BACKSPACE) (set_num (S (num l)) l))
    else
      b ← store_char (buf l) (num l) ichar;
      let l := putnstr (num l) 1 (set_buf b l) in Some (set_num (S (num l)) l).

Fixpoint cread_add_str (str : list Z) (insert : bool) (len : nat) (l : line) : option line :=
  match str with
  | [] => Some l
  | c :: str => l ← cread_add_char c insert len l; cread_add_str str insert len l
  end.

(** [do { getcmd_putch(CTL_BACKSPACE); } while (wlen--)]. *)
Definition back (wlen : nat) : text := replicate (S wlen) BACKSPACE.

(** Control-D: the character under the cursor. *)
Definition delete_under (l : line) : option line :=
  if (num l <? eol_num l)%nat then
    let wlen := (eol_num l - num l - 1)%nat in
    l ← (if (0 <? wlen)%nat then b ← move (buf l) (num l) (num l + 1) wlen; Some (putnstr (num l) wlen (set_buf b l)) else Some l);
    Some (set_eol (eol_num l - 1) (emit ([32] ++ back wlen) l))
  else Some l.

(** Backspace: the character in front of the cursor. *)
Definition delete_before (l : line) : option line :=
  if (0 <? num l)%nat then
    let wlen := (eol_num l - num l)%nat in
    let l := set_num (num l - 1) l in
    b ← move (buf l) (num l) (num l + 1) wlen;
    let l := putnstr (num l) wlen (emit [BACKSPACE] (set_buf b l)) in
    Some (set_eol (eol_num l - 1) (emit ([32] ++ back wlen) l))
  else Some l.

(** [strcpy(buf, s)]. *)
Definition copy_string (b : list Z) (s : cstring) : option (list Z) :=
  if decide (length s < length b)%nat then Some (s ++ [0] ++ drop (S (length s)) b) else None.

(** A line of the history takes the place of the line. *)
Definition replace_line (hline : cstring) (l : line) : option line :=
  let l := ERASE_TO_EOL (BEGINNING_OF_LINE l) in
  b ← copy_string (buf l) hline;
  Some (REFRESH_TO_EOL (set_eol (length hline) (set_buf b l))).

Section Editor.
Context {M : Type} (cmd_auto_complete : cstring -> cstring -> Z -> Z -> M -> option (Z * cstring * Z * Z * text * M)).
Context (prompt : cstring) (len : nat).

(** The variables of [cread_line]; [esc_save] has [esc_len] characters. *)
Record editor := Editor { text_line : line; insert : bool; esc_save : list Z; hist : history; machine : M }.

Definition with_line (l : line) (ed : editor) : editor := Editor l (insert ed) (esc_save ed) (hist ed) (machine ed).
Definition with_esc (e : list Z) (ed : editor) : editor := Editor (text_line ed) (insert ed) e (hist ed) (machine ed).

(** The key of an escape sequence, after "ESC [". *)
Definition arrow (ichar : Z) : option Z :=
  if ichar =? 68 then Some (CTL_CH 98)
  else if ichar =? 67 then Some (CTL_CH 102)
  else if ichar =? 72 then Some (CTL_CH 97)
  else if ichar =? 65 then Some (CTL_CH 112)
  else if ichar =? 66 then Some (CTL_CH 110)
  else None.

(** The part before the second [switch]: the editor and the key that is left, if
    the round goes on. *)
Definition escape_step (ichar : Z) (ed : editor) : option (editor * option Z) :=
  let add s := l ← cread_add_str s (insert ed) len (text_line ed); Some (with_esc [] (with_line l ed), None) in
  match esc_save ed with
  | [] => Some (ed, Some ichar)
  | [c] => if ichar =? 91 then Some (with_esc [c; ichar] ed, None) else add [c]
  | s => match arrow ichar with Some k => Some (with_esc [] ed, Some k) | None => add (s ++ [ichar]) end
  end.

(** TAB at the end of the line.  The completed text is in the buffer. *)
Definition tab_step (ed : editor) : option editor :=
  let l := text_line ed in
  if (num l <? eol_num l)%nat then Some (with_line (emit [BELL] l) ed)
  else
    b ← store_char (buf l) (num l) 0;
    let s := until_nul b in
    '(r, s', num2, _, t, m) ← cmd_auto_complete prompt s (Z.of_nat (num l)) (zlen prompt + Z.of_nat (eol_num l)) (machine ed);
    b ← copy_string b s';
    let l := emit t (set_buf b l) in
    let col := num2 - Z.of_nat (num l) in
    let l := if r =? 0 then l
             else set_eol (Z.to_nat (Z.of_nat (eol_num l) + col)) (set_num (Z.to_nat (Z.of_nat (num l) + col)) l) in
    Some (Editor l (insert ed) (esc_save ed) (hist ed) m).

(** The second [switch].  [inl] is the break of Control-C. *)
Definition key_step (ichar : Z) (ed : editor) : option (editor * bool) :=
  let l := text_line ed in
  let go l := Some (with_line l ed, false) in
  if ichar =? ESC then
    match esc_save ed with [] => Some (with_esc [ichar] ed, false) | _ => Some (with_esc [] ed, false) end
  else if ichar =? CTL_CH 97 then go (BEGINNING_OF_LINE l)
  else if ichar =? CTL_CH 99 then b ← store_char (buf l) 0 0; Some (with_line (set_buf b l) ed, true)
  else if ichar =? CTL_CH 102 then
    if (num l <? eol_num l)%nat then c ← buf l !! num l; go (set_num (S (num l)) (emit [c] l)) else go l
  else if ichar =? CTL_CH 98 then
    if (0 <? num l)%nat then go (set_num (num l - 1) (emit [BACKSPACE] l)) else go l
  else if ichar =? CTL_CH 100 then l ← delete_under l; go l
  else if ichar =? CTL_CH 107 then go (ERASE_TO_EOL l)
  else if ichar =? CTL_CH 101 then go (REFRESH_TO_EOL l)
  else if ichar =? CTL_CH 111 then Some (Editor l (negb (insert ed)) (esc_save ed) (hist ed) (machine ed), false)
  else if (ichar =? CTL_CH 120) || (ichar =? CTL_CH 117) then go (ERASE_TO_EOL (BEGINNING_OF_LINE l))
  else if (ichar =? DEL) || (ichar =? DEL7) || (ichar =? BACKSPACE) then l ← delete_before l; go l
  else if (ichar =? CTL_CH 112) || (ichar =? CTL_CH 110) then
    '(hline, h) ← (if ichar =? CTL_CH 112 then hist_prev (hist ed) else hist_next (hist ed));
    match hline with
    | None => Some (Editor (emit [BELL] l) (insert ed) [] h (machine ed), false)
    | Some s => l ← replace_line s l; Some (Editor l (insert ed) [] h (machine ed), false)
    end
  else if ichar =? 9 then ed ← tab_step ed; Some (ed, false)
  else l ← cread_add_char ichar (insert ed) len l; go l.

(** A round of [while (1)]: the return value when the loop ends. *)
Definition round (ichar : Z) (ed : editor) : option (editor * option Z) :=
  if (ichar =? 10) || (ichar =? 13) then
    let l := text_line ed in
    b ← store_char (buf l) (eol_num l) 0;
    let l := emit [10] (set_buf b l) in
    let s := until_nul b in
    h ← match s with
        | c :: _ => if c =? CREAD_HIST_CHAR then Some (hist ed) else cread_add_to_hist s (hist ed)
        | [] => Some (hist ed)
        end;
    Some (Editor l (insert ed) (esc_save ed) (set_cur (hist_add_idx h) h) (machine ed), Some (Z.of_nat (eol_num l)))
  else
    '(ed, key) ← escape_step ichar ed;
    match key with
    | None => Some (ed, None)
    | Some k => '(ed, stop) ← key_step k ed; Some (ed, if stop : bool then Some (-1) else None)
    end.

(** [None] as the return value: the editor still waits for keys. *)
Fixpoint cread_loop (keys : list Z) (ed : editor) : option (editor * option Z * list Z) :=
  match keys with
  | [] => Some (ed, None, [])
  | k :: keys =>
      '(ed, r) ← round k ed;
      match r with
      | Some r => Some (ed, Some r, keys)
      | None => cread_loop keys ed
      end
  end.

(** The text that is already in the buffer is typed first. *)
Definition cread_line (keys : list Z) (b : list Z) (h : history) (m : M) : option (editor * option Z * list Z) :=
  l ← cread_add_str (until_nul b) true len (Line b 0 0 []);
  cread_loop keys (Editor l true [] h m).

End Editor.

(** [readline] after the relocation, when the history is set up: the return
    value, the line and the history.  The buffer has CONFIG_SYS_CBSIZE + 1
    bytes. *)
Definition readline {M} (complete : cstring -> cstring -> Z -> Z -> M -> option (Z * cstring * Z * Z * text * M))
    (prompt : cstring) (keys console_buffer : list Z) (h : history) (m : M) :=
  b ← store_char console_buffer 0 0;
  cread_line complete prompt (Z.to_nat CONFIG_SYS_CBSIZE) keys b h m.

(** ** The history is a list *)

(** The lines that can be recalled, the newest first, and how far back the
    cursor is. *)
Record recall := Recall { lines : list cstring; pos : nat }.

Definition spec_prev (r : recall) : option cstring * recall :=
  match lines r !! pos r with
  | Some l => (Some l, Recall (lines r) (S (pos r)))
  | None => (None, r)
  end.

Definition spec_next (r : recall) : option cstring * recall :=
  match pos r with
  | O => (None, r)
  | S O => (Some [], Recall (lines r) 0)
  | S (S p) => (lines r !! p, Recall (lines r) (S p))
  end.

(** Entering a line: empty lines and lines that start with '!' are not kept,
    and no more than 19 lines are. *)
Definition spec_enter (line : cstring) (r : recall) : recall :=
  match line with
  | c :: _ => if c =? CREAD_HIST_CHAR then Recall (lines r) 0 else Recall (take 19 (line :: lines r)) 0
  | [] => Recall (lines r) 0
  end.

(** The slot [k] places before the one that is overwritten next, in the ring of
    the [hist_max + 1] slots in use. *)
Definition slot_back (h : history) (k : Z) : Z :=
  if hist_add_idx h - k <? 0 then hist_add_idx h - k + hist_max h + 1 else hist_add_idx h - k.

(** The ring still grows, or all 20 slots are in use. *)
Definition hist_rel (h : history) (r : recall) : Prop :=
  0 <= hist_add_idx h <= hist_max h /\ hist_max h <= 19 /\ (hist_add_idx h = hist_max h \/ hist_max h = 19) /\
  length (hist_list h) = 20%nat /\ zlen (lines r) = hist_max h /\ Z.of_nat (pos r) <= hist_max h /\
  (forall k, Z.of_nat k < hist_max h -> hist_list h !! Z.to_nat (slot_back h (Z.of_nat k + 1)) = lines r !! k) /\
  (hist_cur h = slot_back h (Z.of_nat (pos r)) \/ hist_cur h = -1 /\ lines r = []).

Lemma slot_back_spec h k :
  (hist_add_idx h < k /\ slot_back h k = hist_add_idx h - k + hist_max h + 1) \/
  (k <= hist_add_idx h /\ slot_back h k = hist_add_idx h - k).
Proof. unfold slot_back. cases_ltb; lia. Qed.

(** [slots] solves goals on slots by cases on the wrap-around. *)
Ltac slots :=
  repeat match goal with
  | |- context [slot_back ?h ?k] => lazymatch goal with _ : context [hist_add_idx h < k] |- _ => fail | _ => pose proof (slot_back_spec h k) end
  | _ : context [slot_back ?h ?k] |- _ => lazymatch goal with _ : context [hist_add_idx h < k] |- _ => fail | _ => pose proof (slot_back_spec h k) end
  end; cases_ltb; lia.

Lemma hist_init_rel : hist_rel hist_init (Recall [] 0).
Proof. split_and!; cbn; try done; try lia. by right. Qed.

Lemma hist_prev_rel h r : hist_rel h r -> exists h', hist_prev h = Some ((spec_prev r).1, h') /\ hist_rel h' (spec_prev r).2.
Proof.
  intros H. pose proof H as (Ha & Hm & Hg & Hlen & Hl & Hp & Hk & Hc). unfold hist_prev, spec_prev.
  destruct Hc as [Hc | [Hc Hnil]].
  2:{ rewrite Hc, Hnil. cbn. by exists h. }
  assert (0 <= hist_cur h <= hist_max h) as Hr by (clear Hk; slots).
  rewrite (proj2 (Z.ltb_ge _ _)) by lia.
  destruct (decide (Z.of_nat (pos r) < hist_max h)) as [Hlt | Hge].
  - set (cur := if hist_cur h - 1 <? 0 then hist_max h else hist_cur h - 1).
    assert (cur = slot_back h (Z.of_nat (pos r) + 1) /\ cur <> hist_add_idx h) as [Hcur Hne].
    { unfold cur. clear Hk. slots. }
    rewrite (proj2 (Z.eqb_neq _ _)) by done. rewrite Hcur, (Hk _ Hlt).
    destruct (lookup_lt_is_Some_2 (lines r) (pos r) ltac:(lia)) as [l Hline]. rewrite Hline. eexists. split; [done |].
    split_and!; cbn; try done; try lia. left. rewrite Z.add_1_r, <- Nat2Z.inj_succ. done.
  - assert (Z.of_nat (pos r) = hist_max h) as He by lia.
    rewrite (proj2 (Z.eqb_eq _ _)) by (clear Hk; slots).
    rewrite lookup_ge_None_2 by lia. exists h. destruct h. done.
Qed.

Lemma hist_next_rel h r : hist_rel h r -> exists h', hist_next h = Some ((spec_next r).1, h') /\ hist_rel h' (spec_next r).2.
Proof.
  intros H. pose proof H as (Ha & Hm & Hg & Hlen & Hl & Hp & Hk & Hc). unfold hist_next, spec_next.
  destruct Hc as [Hc | [Hc Hnil]].
  2:{ rewrite Hc. cbn. assert (pos r = 0%nat) as -> by (rewrite Hnil in Hl; cbn in Hl; lia). by exists h. }
  assert (0 <= hist_cur h <= hist_max h) as Hr by (clear Hk; slots).
  rewrite (proj2 (Z.ltb_ge _ _)) by lia. destruct (pos r) as [| [| p]] eqn:Hpos.
  - rewrite (proj2 (Z.eqb_eq _ _)) by (clear Hk; slots). by exists h.
  - rewrite (proj2 (Z.eqb_neq _ _)) by (clear Hk; slots).
    rewrite (proj2 (Z.eqb_eq _ _)) by (clear Hk; slots).
    eexists. split; [done |]. split_and!; cbn; try done; try lia. left. unfold slot_back. cbn [hist_max hist_add_idx set_cur].
    clear Hk. slots.
  - rewrite (proj2 (Z.eqb_neq _ _)) by (clear Hk; slots).
    set (cur := if hist_max h <? hist_cur h + 1 then 0 else hist_cur h + 1).
    assert (cur = slot_back h (Z.of_nat (S p)) /\ cur <> hist_add_idx h) as [Hcur Hne].
    { unfold cur. clear Hk. slots. }
    rewrite (proj2 (Z.eqb_neq _ _)) by done. specialize (Hk p ltac:(lia)) as Hkp.
    replace (Z.of_nat p + 1) with (Z.of_nat (S p)) in Hkp by lia. rewrite Hcur, Hkp.
    destruct (lookup_lt_is_Some_2 (lines r) p ltac:(lia)) as [l Hline]. rewrite Hline. eexists. split; [done |].
    split_and!; cbn; try done; try lia. by left.
Qed.

Lemma hist_add_rel h r line : hist_rel h r -> zlen line <= HIST_SIZE -> exists h',
  cread_add_to_hist line h = Some h' /\ hist_rel (set_cur (hist_add_idx h') h') (Recall (take 19 (line :: lines r)) 0).
Proof.
  intros (Ha & Hm & Hg & Hlen & Hl & Hp & Hk & _) Hline. unfold cread_add_to_hist.
  rewrite (proj2 (Z.ltb_ge _ _)) by done. eexists. split; [done |].
  set (add := if HIST_MAX <=? hist_add_idx h + 1 then 0 else hist_add_idx h + 1).
  set (mx := if hist_max h <? add then add else hist_max h).
  assert (0 <= add <= 19 /\ add <= mx /\ mx <= 19 /\ (add = mx \/ mx = 19) /\ mx = Z.min (hist_max h + 1) 19 /\
    (add = 0 /\ hist_add_idx h = 19 \/ add = hist_add_idx h + 1)) as (H1 & H2 & H3 & H4 & H5 & H6).
  { unfold mx, add, HIST_MAX. cases_ltb; lia. }
  split_and!; cbn [set_cur hist_add_idx hist_max hist_cur hist_list lines pos]; try lia.
  - by rewrite length_insert.
  - rewrite length_take. cbn [length]. lia.
  - intros k Hkk. unfold slot_back. cbn [hist_add_idx hist_max set_cur].
    rewrite lookup_take_lt by lia. destruct k as [| k]; [change ((line :: lines r) !! 0%nat) with (Some line) | change ((line :: lines r) !! S k) with (lines r !! k)].
    + replace (Z.to_nat _) with (Z.to_nat (hist_add_idx h)) by (f_equal; cases_ltb; lia).
      apply list_lookup_insert_eq. lia.
    + rewrite list_lookup_insert_ne by (cases_ltb; lia). rewrite <- (Hk k) by lia. f_equal. unfold slot_back. cases_ltb; lia.
  - left. unfold slot_back. cbn [hist_add_idx hist_max set_cur]. cases_ltb; lia.
Qed.

Lemma hist_reset_rel h r : hist_rel h r -> hist_rel (set_cur (hist_add_idx h) h) (Recall (lines r) 0).
Proof.
  intros (Ha & Hm & Hg & Hlen & Hl & Hp & Hk & Hc). split_and!; cbn; try done; try lia.
  left. unfold slot_back. cbn. cases_ltb; lia.
Qed.

(** ** The terminal *)

(** What a character does to the line on the screen and the cursor: backspace
    moves left, the bell changes nothing, a newline starts a new line, and other
    characters overwrite.  Lines are not wrapped. *)
Definition term_char (t : list Z * nat) (c : Z) : list Z * nat :=
  let '(cells, cur) := t in
  if c =? BACKSPACE then (cells, (cur - 1)%nat)
  else if c =? BELL then t
  else if c =? NEWLINE then ([], O)
  else (take cur cells ++ [c] ++ drop (S cur) cells, S cur).

Definition term_run (t : text) (s : list Z * nat) : list Z * nat := foldl term_char s t.

Definition printable (c : Z) : Prop := 32 <= c < 255 /\ c <> DEL7.

Lemma term_app t1 t2 s : term_run (t1 ++ t2) s = term_run t2 (term_run t1 s).
Proof. apply foldl_app. Qed.

Lemma term_back n cells cur : term_run (replicate n BACKSPACE) (cells, cur) = (cells, (cur - n)%nat).
Proof.
  revert cur. induction n as [| n IH]; intros cur; cbn [replicate term_run foldl]; [f_equal; lia |].
  change (term_char (cells, cur) BACKSPACE) with (cells, (cur - 1)%nat). unfold term_run in IH. rewrite IH. f_equal. lia.
Qed.

Lemma term_bell s : term_run [BELL] s = s.
Proof. by destruct s. Qed.

Lemma term_printable cells cur c : printable c -> term_char (cells, cur) c = (take cur cells ++ [c] ++ drop (S cur) cells, S cur).
Proof.
  unfold printable, DEL7. intros Hc. unfold term_char.
  by rewrite !(proj2 (Z.eqb_neq c _)) by (unfold BACKSPACE, BELL, NEWLINE; lia).
Qed.

Lemma term_write t : forall x y, Forall printable t ->
  term_run t (x ++ y, length x) = (x ++ t ++ drop (length t) y, (length x + length t)%nat).
Proof.
  induction t as [| c t IH]; intros x y Ht; cbn [term_run foldl length app].
  { by rewrite drop_0, Nat.add_0_r. }
  apply Forall_cons in Ht as [Hc Ht]. rewrite term_printable by done.
  assert (drop (S (length x)) (x ++ y) = drop 1 y) as Hd by (rewrite drop_app_ge by lia; f_equal; lia).
  rewrite take_app_length, Hd. specialize (IH (x ++ [c]) (drop 1 y) Ht). unfold term_run in IH.
  rewrite length_app in IH. cbn [length] in IH. rewrite Nat.add_1_r in IH. rewrite (app_assoc x [c]), IH.
  rewrite <- app_assoc, drop_drop. f_equal. lia.
Qed.

(** The screen shows [shown], perhaps with blanks behind it, and the cursor is at
    [cur]. *)
Definition shows (t : text) (start : list Z * nat) (shown : list Z) (cur : nat) : Prop :=
  exists k, term_run t start = (shown ++ replicate k 32, cur).

Lemma drop_blanks n k : drop n (replicate k 32 : list Z) = replicate (k - n) 32.
Proof. by rewrite drop_replicate. Qed.

(** Printing [s] behind [x], over [u], and going back. *)
Lemma shows_write t start x u s back cur : Forall printable s -> (back <= length x + length s)%nat ->
  shows t start (x ++ u) (length x) -> cur = (length x + length s - back)%nat ->
  shows (t ++ s ++ replicate back BACKSPACE) start (x ++ s ++ drop (length s) u) cur.
Proof.
  intros Hs Hb [k Hk] ->. unfold shows. rewrite !term_app, Hk, <- app_assoc, term_write, term_back by done.
  rewrite drop_app, drop_blanks. eexists. by rewrite <- !app_assoc.
Qed.

(** Blanks at the end do not count. *)
Lemma shows_blanks t start x n cur : shows t start (x ++ replicate n 32) cur -> shows t start x cur.
Proof. intros [k Hk]. exists (n + k)%nat. by rewrite Hk, <- app_assoc, replicate_add. Qed.

Lemma shows_back t start x cur k : shows t start x cur -> shows (t ++ replicate k BACKSPACE) start x (cur - k).
Proof. intros [j Hj]. exists j. by rewrite term_app, Hj, term_back. Qed.

Lemma shows_bell t start x cur : shows t start x cur -> shows (t ++ [BELL]) start x cur.
Proof. intros [j Hj]. exists j. by rewrite term_app, Hj, term_bell. Qed.

(** ** What the editor promises *)

Inductive edit :=
| Type_ (c : Z) | Left | Right | Home | End_ | DeleteUnder | DeleteBefore | KillToEnd | KillLine | Toggle | Up | Down.

(** The key sequences for each of them. *)
Definition key_codes (e : edit) : list (list Z) :=
  match e with
  | Type_ c => [[c]]
  | Left => [[2]; [27; 91; 68]]
  | Right => [[6]; [27; 91; 67]]
  | Home => [[1]; [27; 91; 72]]
  | End_ => [[5]]
  | DeleteUnder => [[4]]
  | DeleteBefore => [[8]; [127]; [255]]
  | KillToEnd => [[11]]
  | KillLine => [[21]; [24]]
  | Toggle => [[15]]
  | Up => [[16]; [27; 91; 65]]
  | Down => [[14]; [27; 91; 66]]
  end.

(** A text with a cursor, the insert mode, and the history. *)
Record doc := Doc { txt : list Z; cur : nat; ins : bool; past : recall }.

Definition with_text (t : list Z) (c : nat) (d : doc) : doc := Doc t c (ins d) (past d).

Definition spec_edit (len : nat) (e : edit) (d : doc) : doc :=
  let a := take (cur d) (txt d) in
  let b := drop (cur d) (txt d) in
  match e with
  | Type_ c =>
      if ins d then if decide (length (txt d) < len)%nat then with_text (a ++ [c] ++ b) (S (cur d)) d else d
      else if decide (cur d < length (txt d) \/ length (txt d) < len)%nat then with_text (a ++ [c] ++ drop 1 b) (S (cur d)) d else d
  | Left => with_text (txt d) (cur d - 1) d
  | Right => with_text (txt d) (Nat.min (S (cur d)) (length (txt d))) d
  | Home => with_text (txt d) 0 d
  | End_ => with_text (txt d) (length (txt d)) d
  | DeleteUnder => with_text (a ++ drop 1 b) (cur d) d
  | DeleteBefore => with_text (take (cur d - 1) (txt d) ++ b) (cur d - 1) d
  | KillToEnd => with_text a (cur d) d
  | KillLine => with_text [] 0 d
  | Toggle => Doc (txt d) (cur d) (negb (ins d)) (past d)
  | Up => let '(l, r) := spec_prev (past d) in
          match l with Some l => Doc l (length l) (ins d) r | None => Doc (txt d) (cur d) (ins d) r end
  | Down => let '(l, r) := spec_next (past d) in
            match l with Some l => Doc l (length l) (ins d) r | None => Doc (txt d) (cur d) (ins d) r end
  end.

(** The keys are those of the edits. *)
Definition typed (edits : list edit) (keys : list Z) : Prop :=
  exists ks, Forall2 (fun e k => k ∈ key_codes e) edits ks /\ keys = concat ks.

Section Editing.
Context (p : list Z) (len : nat).
Abbreviation start := (p, length p).

(** The buffer holds [a ++ b], the cursor is behind [a], on the screen too. *)
Definition line_rel (l : line) (a b : list Z) : Prop :=
  (exists rest, buf l = a ++ b ++ rest) /\ length (buf l) = S len /\ num l = length a /\
  eol_num l = (length a + length b)%nat /\ (length a + length b <= len)%nat /\ Forall printable (a ++ b) /\
  shows (out l) start (p ++ a ++ b) (length p + length a).

Lemma printable_text (s : list Z) : Forall printable s -> Forall (fun c => c <> 0) s.
Proof. intros H. apply (Forall_impl _ _ _ H). unfold printable. lia. Qed.

Lemma until_nul_text s r : Forall printable s -> until_nul (s ++ r) = s ++ until_nul r.
Proof.
  induction 1 as [| c s Hc _ IH]; [done |]. cbn [app until_nul]. unfold printable in Hc.
  rewrite (proj2 (Z.eqb_neq c 0)) by lia. by rewrite IH.
Qed.

Lemma until_nul_id s : Forall printable s -> until_nul s = s.
Proof. intros H. rewrite <- (app_nil_r s) at 1. rewrite until_nul_text by done. apply app_nil_r. Qed.

(** [putnstr] prints a part of the text. *)
Lemma putnstr_text l x s r : buf l = x ++ s ++ r -> Forall printable s ->
  putnstr (length x) (length s) l = emit s l.
Proof. intros Hb Hs. unfold putnstr. by rewrite Hb, drop_app_length, take_app_length, until_nul_id. Qed.

(** Output [s] at the cursor, over [b]. *)
Lemma shows_over t a b s back n : Forall printable s -> (back <= length a + length s)%nat ->
  shows t start (p ++ a ++ b) (length p + length a) -> n = (length p + (length a + length s - back))%nat ->
  shows (t ++ s ++ replicate back BACKSPACE) start (p ++ a ++ s ++ drop (length s) b) n.
Proof.
  intros Hs Hb H ->. rewrite app_assoc, <- length_app in H. rewrite (app_assoc p a).
  apply (shows_write t start (p ++ a) b); [done | | exact H |]; rewrite length_app; lia.
Qed.

Lemma shows_over_all t a b s back n : Forall printable s -> (length b <= length s)%nat -> (back <= length a + length s)%nat ->
  shows t start (p ++ a ++ b) (length p + length a) -> n = (length p + (length a + length s - back))%nat ->
  shows (t ++ s ++ replicate back BACKSPACE) start (p ++ a ++ s) n.
Proof. intros Hs Hl Hb H Hn. pose proof (shows_over t a b s back n Hs Hb H Hn) as Hw. by rewrite drop_ge, app_nil_r in Hw. Qed.

(** Room for [n] more characters. *)
Lemma line_room l a b : line_rel l a b -> exists rest, buf l = a ++ b ++ rest /\ (length a + length b + length rest = S len)%nat.
Proof. intros ((rest & Hb) & Hlen & _). exists rest. split; [done |]. rewrite Hb, !length_app in Hlen. lia. Qed.

Lemma store_char_at x d y c : store_char (x ++ d :: y) (length x) c = Some (x ++ c :: y).
Proof.
  unfold store_char. rewrite decide_True by (rewrite length_app; cbn; lia). f_equal.
  rewrite insert_app_r_alt by lia. by rewrite Nat.sub_diag.
Qed.

(** Shifting [s] to the right by one. *)
Lemma move_right x s d y : move (x ++ s ++ d :: y) (length x + 1) (length x) (length s) =
  Some (x ++ (default 0 (head (s ++ [d]))) :: s ++ y).
Proof.
  unfold move. rewrite decide_True by (rewrite !length_app; cbn [length]; lia). f_equal.
  rewrite drop_app_length, take_app_length.
  assert (drop (length x + 1 + length s) (x ++ s ++ d :: y) = y) as ->.
  { rewrite drop_app_ge, drop_app_ge by lia. replace (length x + 1 + length s - length x - length s)%nat with 1%nat by lia. done. }
  assert (take (length x + 1) (x ++ s ++ d :: y) = x ++ [default 0 (head (s ++ [d]))]) as ->.
  { rewrite take_app, take_ge by lia. replace (length x + 1 - length x)%nat with 1%nat by lia. by destruct s. }
  by rewrite <- app_assoc.
Qed.

(** Shifting [s] to the left by one. *)
Lemma move_left x d s y : move (x ++ d :: s ++ y) (length x) (length x + 1) (length s) =
  Some (x ++ s ++ default 0 (last (d :: s)) :: y).
Proof.
  unfold move. rewrite decide_True by (rewrite length_app; cbn [length]; rewrite length_app; lia). f_equal.
  rewrite take_app_length. f_equal.
  assert (drop (length x + 1) (x ++ d :: s ++ y) = s ++ y) as ->.
  { rewrite drop_app_ge by lia. replace (length x + 1 - length x)%nat with 1%nat by lia. done. }
  rewrite take_app_length. f_equal. rewrite drop_app_ge by lia. replace (length x + length s - length x)%nat with (length s) by lia.
  destruct (exists_last (l := d :: s)) as (s' & e & He); [done |]. rewrite He, last_snoc.
  change (d :: s ++ y) with ((d :: s) ++ y). rewrite He, <- app_assoc.
  assert (length s = length s') as -> by (apply (f_equal length) in He; rewrite length_app in He; cbn in He; lia).
  by rewrite drop_app_length.
Qed.

Lemma bell_rel l a b : line_rel l a b -> line_rel (emit [BELL] l) a b.
Proof. intros (? & ? & ? & ? & ? & ? & ?). split_and!; try done. by apply shows_bell. Qed.

(** The result of an edit, from its parts. *)
Lemma line_rel_intro b n e o a s rest : b = a ++ s ++ rest -> length b = S len -> n = length a -> e = (length a + length s)%nat ->
  (length a + length s <= len)%nat -> Forall printable a -> Forall printable s ->
  shows o start (p ++ a ++ s) (length p + length a) -> line_rel (Line b n e o) a s.
Proof.
  intros -> Hl -> -> Hr Ha Hs Ho. split_and!; try done; [by exists rest |]. by apply Forall_app.
Qed.

Lemma insert_rel l a b c : line_rel l a b -> printable c -> (length a + length b < len)%nat -> exists l',
  cread_add_char c true len l = Some l' /\ line_rel l' (a ++ [c]) b.
Proof.
  intros H Hc Hroom. destruct (line_room l a b H) as ([| d rest] & Hbuf & Hr); [cbn in Hr; lia |].
  destruct H as (_ & Hlen & Hn & He & _ & [Ha Hb]%Forall_app & Hs). unfold cread_add_char. cbn [orb andb].
  rewrite (proj2 (Nat.ltb_ge _ _)) by lia. cbn [num eol_num buf set_eol]. rewrite Hn, He.
  replace (S (length a + length b) - length a)%nat with (S (length b)) by lia.
  assert (exists x, (if (1 <? S (length b))%nat then move (buf l) (length a + 1) (length a) (S (length b) - 1) else Some (buf l)) =
    Some (a ++ x :: b ++ rest)) as [x ->].
  { replace (S (length b) - 1)%nat with (length b) by lia. rewrite Hbuf. destruct b as [| e b].
    - exists d. done.
    - rewrite (proj2 (Nat.ltb_lt _ _)) by (cbn; lia). eexists. apply (move_right a (e :: b) d rest). }
  cbn [mbind option_bind]. rewrite store_char_at. cbn [mbind option_bind]. eexists. split; [done |].
  change (putnstr (length a) (S (length b)) ?l) with (putnstr (length a) (length (c :: b)) l).
  rewrite (putnstr_text _ a (c :: b) rest) by (done || by apply Forall_cons).
  replace (S (length b) - 1)%nat with (length b) by lia. unfold emit, set_num, set_buf. cbn [buf num eol_num out set_eol].
  apply (line_rel_intro _ _ _ _ _ _ rest); rewrite ?length_app; cbn [length]; try lia.
  - by rewrite <- app_assoc.
  - cbn [length] in Hr. rewrite length_app. lia.
  - apply Forall_app. split; [done |]. by apply Forall_cons.
  - done.
  - rewrite <- !app_assoc. apply (shows_over_all _ a b (c :: b)); cbn [length]; [by apply Forall_cons | lia | lia | done | lia].
Qed.

Lemma overwrite_rel l a b c : line_rel l a b -> printable c -> (b <> [] \/ length a + length b < len)%nat -> exists l',
  cread_add_char c false len l = Some l' /\ line_rel l' (a ++ [c]) (drop 1 b).
Proof.
  intros H Hc Hroom. destruct (line_room l a b H) as (rest & Hbuf & Hr).
  destruct H as (_ & Hlen & Hn & He & Hle & [Ha Hb]%Forall_app & Hs). unfold cread_add_char. cbn [orb].
  assert (exists y rest', buf l = a ++ y :: drop 1 b ++ rest' /\ (length a + length (drop 1 b) < len)%nat) as (y & rest' & Hbuf' & Hle').
  { destruct b as [| e b]; [destruct rest as [| d rest]; [cbn in Hr; lia |] |].
    - exists d, rest. split; [done |]. destruct Hroom as [| Hroom]; [done | cbn in Hroom |- *; lia].
    - exists e, rest. split; [done |]. cbn [drop]. rewrite drop_0. cbn [length] in Hle. lia. }
  assert ((num l =? eol_num l)%nat && (len - 1 <? eol_num l)%nat = false) as ->.
  { rewrite Hn, He. destruct b as [| e b]; cbn [length] in *.
    - rewrite (proj2 (Nat.ltb_ge _ _)); [apply andb_false_r | destruct Hroom; [done | lia]].
    - by rewrite (proj2 (Nat.eqb_neq _ _)) by lia. }
  set (l1 := if (num l =? eol_num l)%nat then set_eol (S (eol_num l)) l else l).
  assert (num l1 = length a /\ buf l1 = buf l /\ out l1 = out l /\ eol_num l1 = (length a + 1 + length (drop 1 b))%nat) as (Hn1 & Hb1 & Ho & He1).
  { unfold l1. rewrite Hn, He. destruct b as [| e b]; cbn [length drop] in *.
    - rewrite Nat.add_0_r, Nat.eqb_refl. cbn. split_and!; try done; lia.
    - rewrite (proj2 (Nat.eqb_neq _ _)) by lia. split_and!; try done. rewrite drop_0. lia. }
  rewrite Hn1, Hb1, Hbuf', store_char_at. cbn [mbind option_bind]. eexists. split; [done |].
  rewrite (putnstr_text _ a [c] (drop 1 b ++ rest')) by (done || by apply Forall_cons).
  unfold emit, set_num, set_buf. cbn [buf num eol_num out].
  rewrite Hn1, Ho, He1. rewrite Hbuf', length_app in Hlen. cbn [length] in Hlen.
  apply (line_rel_intro _ _ _ _ _ _ rest'); rewrite ?length_app; cbn [length]; try lia.
  - by rewrite <- app_assoc.
  - apply Forall_app. split; [done |]. by apply Forall_cons.
  - by apply Forall_drop.
  - rewrite <- (app_nil_r [c]), <- !app_assoc. apply (shows_over _ a b [c] 0); cbn [length]; [by apply Forall_cons | lia | done | lia].
Qed.
(** Moving the cursor. *)
Lemma back_rel l a b k : line_rel l (a ++ k) b -> line_rel (set_num (num l - length k) (emit (replicate (length k) BACKSPACE) l)) a (k ++ b).
Proof.
  intros ((rest & Hb) & Hlen & Hn & He & Hle & Hp & Hs). rewrite length_app in *. destruct l as [bf n e o].
  unfold emit, set_num. cbn [buf num eol_num out] in *. rewrite Hn. apply Forall_app in Hp as [Hp Hpb]. apply Forall_app in Hp as [Ha Hk].
  apply (line_rel_intro _ _ _ _ _ _ rest); rewrite ?length_app; try lia; try done.
  - by rewrite Hb, <- !app_assoc.
  - by apply Forall_app.
  - replace (length p + length a)%nat with (length p + (length a + length k) - length k)%nat by lia.
    apply shows_back. by rewrite <- app_assoc in Hs.
Qed.

Lemma home_rel l a b : line_rel l a b -> line_rel (BEGINNING_OF_LINE l) [] (a ++ b).
Proof.
  intros H. pose proof H as (_ & _ & Hn & _). unfold BEGINNING_OF_LINE. apply (back_rel l [] b a) in H.
  rewrite Hn, Nat.sub_diag in H. by rewrite Hn.
Qed.

(** Printing the text under the cursor moves over it. *)
Lemma forward_rel l a k b : line_rel l a (k ++ b) -> line_rel (set_num (num l + length k) (emit k l)) (a ++ k) b.
Proof.
  intros ((rest & Hb) & Hlen & Hn & He & Hle & Hp & Hs). rewrite length_app in *. destruct l as [bf n e o].
  unfold emit, set_num. cbn [buf num eol_num out] in *. rewrite Hn. apply Forall_app in Hp as [Ha Hp]. apply Forall_app in Hp as [Hk Hpb].
  apply (line_rel_intro _ _ _ _ _ _ rest); rewrite ?length_app; try lia; try done.
  - by rewrite Hb, <- !app_assoc.
  - by apply Forall_app.
  - rewrite <- (app_nil_r k) at 1. rewrite <- app_assoc.
    pose proof (shows_over _ a (k ++ b) k 0 (length p + (length a + length k)) Hk ltac:(lia) Hs ltac:(lia)) as Hw.
    by rewrite drop_app_length in Hw.
Qed.

Lemma end_rel l a b : line_rel l a b -> line_rel (REFRESH_TO_EOL l) (a ++ b) [].
Proof.
  intros H. pose proof H as ((rest & Hb) & _ & Hn & He & _ & [_ Hp]%Forall_app & _). unfold REFRESH_TO_EOL.
  destruct (Nat.ltb_spec (num l) (eol_num l)).
  - rewrite <- (app_nil_r b) in H. apply forward_rel in H. rewrite Hn, He in *.
    replace (length a + length b - length a)%nat with (length b) by lia. by rewrite (putnstr_text l a b rest).
  - assert (b = []) as -> by (apply nil_length_inv; lia). by rewrite app_nil_r.
Qed.

(** Removing [k], of which [s] takes the place on the screen. *)
Lemma kill_rel l a b : line_rel l a b -> line_rel (ERASE_TO_EOL l) a [].
Proof.
  intros ((rest & Hb) & Hlen & Hn & He & Hle & [Ha Hp]%Forall_app & Hs). unfold ERASE_TO_EOL. rewrite Hn, He.
  destruct (Nat.ltb_spec (length a) (length a + length b)).
  - replace (length a + length b - length a)%nat with (length b) by lia. unfold emit, set_eol. cbn.
    apply (line_rel_intro _ _ _ _ _ _ (b ++ rest)); cbn; try lia; try done.
    rewrite app_nil_r. apply (shows_blanks _ _ _ (length b)). rewrite <- app_assoc.
    apply (shows_over_all _ a b); rewrite ?length_replicate; try lia; [| done]. by apply Forall_replicate.
  - assert (b = []) as -> by (apply nil_length_inv; lia). split_and!; try done; [by exists rest |]. by apply Forall_app.
Qed.

(** The text behind the cursor moves left over [d]. *)
Lemma shift_rel o a d b back bf rest n e : bf = a ++ b ++ rest -> length bf = S len -> Forall printable (a ++ d :: b) ->
  (length a + S (length b) <= len)%nat -> shows o start (p ++ a ++ d :: b) (length p + length a) ->
  n = length a -> e = (length a + length b)%nat -> back = S (length b) ->
  line_rel (Line bf n e (o ++ b ++ [32] ++ replicate back BACKSPACE)) a b.
Proof.
  intros Hbf Hl [Ha [Hd Hb]%Forall_cons]%Forall_app Hle Hs -> -> ->.
  apply (line_rel_intro _ _ _ _ _ _ rest); try done; [lia |].
  apply (shows_blanks _ _ _ 1). rewrite <- !app_assoc. change (replicate 1 32) with [32]. rewrite (app_assoc b [32]).
  apply (shows_over_all _ a (d :: b)); rewrite ?length_app; cbn [length]; try lia; [| done].
  apply Forall_app. split; [done |]. by repeat constructor.
Qed.

Lemma delete_under_rel l a b : line_rel l a b -> exists l', delete_under l = Some l' /\ line_rel l' a (drop 1 b).
Proof.
  intros H. pose proof H as ((rest & Hb) & Hlen & Hn & He & Hle & Hp & Hs). unfold delete_under. rewrite Hn, He.
  destruct b as [| d b].
  { rewrite (proj2 (Nat.ltb_ge _ _)) by (cbn; lia). by exists l. }
  cbn [length] in *. rewrite (proj2 (Nat.ltb_lt _ _)) by lia. replace (length a + S (length b) - length a - 1)%nat with (length b) by lia.
  cbn [drop]. rewrite drop_0.
  assert (exists x, (if (0 <? length b)%nat then b0 ← move (buf l) (length a) (length a + 1) (length b);
      Some (putnstr (length a) (length b) (set_buf b0 l)) else Some l) =
      Some (emit b (set_buf (a ++ b ++ x :: rest) l))) as [x ->].
  { destruct b as [| e b].
    - exists d. cbn [app] in *. unfold emit, set_buf. destruct l as [bf n e o]. cbn [buf] in *. subst bf. cbn. by rewrite app_nil_r.
    - rewrite (proj2 (Nat.ltb_lt _ _)) by (cbn; lia). rewrite Hb. eexists. pose proof (move_left a d (e :: b) rest) as Hm. cbn [app] in Hm |- *. rewrite Hm.
      cbn [mbind option_bind]. f_equal. rewrite (putnstr_text _ a (e :: b) (default 0 (last (d :: e :: b)) :: rest)); [done | done |].
      apply Forall_app in Hp as [_ Hp]. by apply Forall_cons in Hp as [_ Hp]. }
  cbn [mbind option_bind]. eexists. split; [done |]. unfold emit, set_eol, set_buf, back. cbn [buf num eol_num out].
  rewrite <- app_assoc. apply (shift_rel _ a d b _ _ (x :: rest)); try done; try lia.
  rewrite Hb, !length_app in Hlen. rewrite !length_app. cbn [length] in *. lia.
Qed.

Lemma delete_before_rel l a d b : line_rel l (a ++ [d]) b -> exists l', delete_before l = Some l' /\ line_rel l' a b.
Proof.
  intros H. pose proof H as ((rest & Hb) & Hlen & Hn & He & Hle & Hp & Hs). unfold delete_before.
  rewrite length_app in *. cbn [length] in *. rewrite Hn, He, (proj2 (Nat.ltb_lt _ _)) by lia.
  replace (length a + 1 + length b - (length a + 1))%nat with (length b) by lia.
  replace (length a + 1 - 1)%nat with (length a) by lia. cbn [num buf eol_num set_num].
  rewrite <- app_assoc in Hb. cbn [app] in Hb. rewrite Hb, move_left. cbn [mbind option_bind]. set (x := default 0 (last (d :: b))).
  rewrite <- app_assoc in Hp. cbn [app] in Hp.
  rewrite (putnstr_text _ a b (x :: rest)); [| done | by apply Forall_app in Hp as [_ [_ Hp]%Forall_cons]].
  eexists. split; [done |]. unfold emit, set_eol, set_num, set_buf, back. cbn [buf num eol_num out]. rewrite <- !app_assoc, (app_assoc (out l)).
  apply (shift_rel (out l ++ [BACKSPACE]) a d b _ _ (x :: rest)); try done; try lia.
  - rewrite Hb in Hlen. rewrite !length_app in *. cbn [length] in *. rewrite length_app in Hlen. lia.
  - apply (shows_back _ _ _ _ 1) in Hs. rewrite <- app_assoc in Hs. cbn [app replicate] in Hs.
    by replace (length p + (length a + 1) - 1)%nat with (length p + length a)%nat in Hs by lia.
Qed.

Lemma replace_rel l a b s : line_rel l a b -> Forall printable s -> (length s <= len)%nat -> exists l',
  replace_line s l = Some l' /\ line_rel l' s [].
Proof.
  intros H Hs Hle. apply home_rel, kill_rel in H. unfold replace_line. set (l1 := ERASE_TO_EOL (BEGINNING_OF_LINE l)) in *.
  destruct H as (_ & Hlen & Hn & He & _ & _ & Hsh). unfold copy_string. rewrite decide_True by lia.
  cbn [mbind option_bind]. eexists. split; [done |]. set (bf := s ++ _).
  assert (length bf = S len) as Hbf.
  { unfold bf. rewrite !length_app, length_drop. cbn [length]. lia. }
  destruct l1 as [bf1 n1 e1 o1]. unfold REFRESH_TO_EOL, set_eol, set_buf. cbn [buf num eol_num out length] in *. subst n1 e1.
  destruct (Nat.ltb_spec 0 (length s)).
  - rewrite Nat.sub_0_r, (putnstr_text _ [] s ([0] ++ drop (S (length s)) bf1)) by done.
    unfold emit, set_num. cbn [buf num eol_num out].
    apply (line_rel_intro _ _ _ _ s [] ([0] ++ drop (S (length s)) bf1)); try done; [cbn; lia |].
    rewrite (app_nil_r s). rewrite <- (app_nil_r s) at 1.
    apply (shows_over_all _ [] [] s 0); cbn; try lia; [done | exact Hsh].
  - assert (s = []) as -> by (apply nil_length_inv; lia).
    apply (line_rel_intro _ _ _ _ [] [] ([0] ++ drop 1 bf1)); try done; cbn; lia.
Qed.
End Editing.

Section EditorProofs.
Context {M : Type} (complete : cstring -> cstring -> Z -> Z -> M -> option (Z * cstring * Z * Z * text * M)).
Context (prompt : cstring) (len : nat) (Hlen : (0 < len)%nat) (Hhist : Z.of_nat len <= HIST_SIZE).
Abbreviation press := (key_step complete prompt len).
Abbreviation step := (round complete prompt len).
Abbreviation keep_on := (cread_loop complete prompt len).

Definition recall_ok (r : recall) : Prop := Forall (fun l => Forall printable l /\ (length l <= len)%nat) (lines r).

(** The editor is in the state [d]. *)
Definition ed_rel (ed : editor (M := M)) (d : doc) : Prop :=
  line_rel prompt len (text_line ed) (take (cur d) (txt d)) (drop (cur d) (txt d)) /\ (cur d <= length (txt d))%nat /\
  insert ed = ins d /\ esc_save ed = [] /\ hist_rel (hist ed) (past d) /\ recall_ok (past d).

(** Changing the line only. *)
Lemma ed_rel_line ed d l t c : ed_rel ed d -> (c <= length t)%nat -> line_rel prompt len l (take c t) (drop c t) ->
  ed_rel (with_line l ed) (with_text t c d).
Proof. intros (_ & _ & ? & ? & ? & ?) Hc Hl. done. Qed.

Lemma ed_rel_same ed d : ed_rel ed d -> ed_rel ed (with_text (txt d) (cur d) d).
Proof. by destruct d. Qed.

(** A new text of which the part in front of the cursor is [a]. *)
Lemma ed_rel_parts ed d l a b t c : ed_rel ed d -> line_rel prompt len l a b -> t = a ++ b -> c = length a ->
  ed_rel (with_line l ed) (with_text t c d).
Proof.
  intros H Hl -> ->. apply (ed_rel_line _ d); [done | rewrite length_app; lia |]. by rewrite take_app_length, drop_app_length.
Qed.

Lemma recall_prev r : recall_ok r -> recall_ok (spec_prev r).2 /\
  forall l, (spec_prev r).1 = Some l -> Forall printable l /\ (length l <= len)%nat.
Proof.
  intros H. unfold spec_prev. destruct (lines r !! pos r) as [l |] eqn:Hl; cbn; [| done].
  split; [done |]. intros ? [= <-]. by apply (Forall_lookup_1 _ _ _ _ H Hl).
Qed.

Lemma recall_next r : recall_ok r -> recall_ok (spec_next r).2 /\
  forall l, (spec_next r).1 = Some l -> Forall printable l /\ (length l <= len)%nat.
Proof.
  intros H. unfold spec_next. destruct (pos r) as [| [| k]]; cbn; [done | | ].
  - split; [done |]. intros ? [= <-]. split; [by apply Forall_nil | cbn; lia].
  - split; [done |]. intros l Hl. by apply (Forall_lookup_1 _ _ _ _ H Hl).
Qed.

(** Showing a line of the history. *)
Lemma show_line ed d hline h r : ed_rel ed d -> hist_rel h r -> recall_ok r ->
  (forall l, hline = Some l -> Forall printable l /\ (length l <= len)%nat) -> exists ed',
  match hline with
  | None => Some (Editor (emit [BELL] (text_line ed)) (insert ed) [] h (machine ed), false)
  | Some s => l ← replace_line s (text_line ed); Some (Editor l (insert ed) [] h (machine ed), false)
  end = Some (ed', false) /\
  ed_rel ed' (match hline with Some l => Doc l (length l) (ins d) r | None => Doc (txt d) (cur d) (ins d) r end) /\
  machine ed' = machine ed.
Proof.
  intros (Hl & Hc & Hi & He & _) Hh Hr Hok. destruct hline as [s |].
  - destruct (Hok s eq_refl) as [Hs Hle]. destruct (replace_rel prompt len _ _ _ s Hl Hs Hle) as (l' & -> & Hl').
    cbn [mbind option_bind]. eexists. split; [done |]. split; [| done]. split_and!; try done. cbn. by rewrite firstn_all, drop_all.
  - eexists. split; [done |]. split; [| done]. split_and!; try done. by apply bell_rel.
Qed.

Definition edit_ok (e : edit) : Prop := match e with Type_ c => printable c | _ => True end.

(** The control key of an edit. *)
Definition control_key (e : edit) (k : Z) : Prop :=
  match e with
  | Type_ c => k = c | Left => k = 2 | Right => k = 6 | Home => k = 1 | End_ => k = 5 | DeleteUnder => k = 4
  | DeleteBefore => k = 8 \/ k = 127 \/ k = 255 | KillToEnd => k = 11 | KillLine => k = 21 \/ k = 24 | Toggle => k = 15
  | Up => k = 16 | Down => k = 14
  end.

Lemma type_key c ed : printable c ->
  press c ed = (l ← cread_add_char c (insert ed) len (text_line ed); Some (with_line l ed, false)).
Proof.
  intros Hc. unfold printable, DEL7 in Hc. unfold Readline.key_step.
  by rewrite !(proj2 (Z.eqb_neq c _)) by (unfold ESC, CTL_CH, DEL, DEL7, BACKSPACE; lia).
Qed.

Lemma drop_one {A} n (l : list A) : drop 1 (drop n l) = drop (S n) l.
Proof. rewrite drop_drop. f_equal. lia. Qed.

(** Typing a character. *)
Lemma type_rel c ed d : ed_rel ed d -> printable c -> exists l,
  cread_add_char c (insert ed) len (text_line ed) = Some l /\ ed_rel (with_line l ed) (spec_edit len (Type_ c) d).
Proof.
  intros H Hc. pose proof H as (Hl & Hcur & Hi & _). set (a := take (cur d) (txt d)) in *. set (b := drop (cur d) (txt d)) in *.
  assert (length a = cur d) as Ha by (unfold a; rewrite length_take; lia).
  assert (length a + length b = length (txt d))%nat as Hab by (unfold b; rewrite length_drop; lia).
  assert (forall l, line_rel prompt len l a b -> ed_rel (with_line l ed) d) as Hsame.
  { intros l Hl'. destruct d as [t cu i r]. apply (ed_rel_line ed (Doc t cu i r) l t cu); done. }
  assert (len <= length (txt d) -> cread_add_char c (insert ed) len (text_line ed) = Some (emit [BELL] (text_line ed)) \/
    insert ed = false /\ b <> [])%nat as Hfull.
  { intros Hf. pose proof Hl as (_ & _ & Hn & He & _). unfold cread_add_char. rewrite Hn, He.
    destruct (insert ed); cbn [orb andb]; [left; by rewrite (proj2 (Nat.ltb_lt _ _)) by lia |].
    destruct b; [left; cbn [length] in *; rewrite Nat.add_0_r, Nat.eqb_refl, (proj2 (Nat.ltb_lt _ _)) by lia; done | by right]. }
  cbn [spec_edit]. rewrite <- Hi. fold a b. destruct (insert ed) eqn:Hins.
  - case_decide as Hr.
    + destruct (insert_rel prompt len _ a b c Hl Hc ltac:(lia)) as (l & He & Hl'). exists l. split; [done |].
      apply (ed_rel_parts _ d _ _ _ _ _ H Hl'); [by rewrite <- app_assoc | rewrite length_app; cbn; lia].
    + destruct (Hfull ltac:(lia)) as [-> | [? _]]; [| done]. eexists. split; [done |]. by apply Hsame, bell_rel.
  - case_decide as Hr.
    + destruct (overwrite_rel prompt len _ a b c Hl Hc) as (l & He & Hl').
      { destruct Hr; [left; intros Hb; rewrite Hb in Hab; cbn in Hab; lia | right; lia]. }
      exists l. split; [done |]. apply (ed_rel_parts _ d _ _ _ _ _ H Hl'); [by rewrite <- app_assoc | rewrite length_app; cbn; lia].
    + assert (b = []) as Hb by (apply nil_length_inv; lia).
      destruct (Hfull ltac:(lia)) as [-> | [_ ?]]; [| done]. eexists. split; [done |]. by apply Hsame, bell_rel.
Qed.

(** The keys that move. *)
Lemma left_rel l t c : (c <= length t)%nat -> line_rel prompt len l (take c t) (drop c t) -> (0 < c)%nat ->
  line_rel prompt len (set_num (num l - 1) (emit [BACKSPACE] l)) (take (c - 1) t) (drop (c - 1) t).
Proof.
  intros Hc Hl H0. destruct (lookup_lt_is_Some_2 t (c - 1) ltac:(lia)) as [x Hx].
  pose proof (take_S_r t (c - 1) x Hx) as Ht. replace (S (c - 1)) with c in Ht by lia. rewrite Ht in Hl.
  apply (back_rel prompt len l (take (c - 1) t) (drop c t) [x]) in Hl. cbn [length replicate app] in Hl.
  rewrite (drop_S t x (c - 1) Hx). by replace (S (c - 1)) with c by lia.
Qed.

Lemma right_rel l t c x : t !! c = Some x -> line_rel prompt len l (take c t) (drop c t) ->
  buf l !! num l = Some x /\ line_rel prompt len (set_num (S (num l)) (emit [x] l)) (take (S c) t) (drop (S c) t).
Proof.
  intros Hx Hl. pose proof Hl as ((rest & Hb) & _ & Hn & _). rewrite (drop_S t x c Hx) in Hl, Hb. split.
  - rewrite Hb, Hn, lookup_app_r, Nat.sub_diag by lia. done.
  - apply (forward_rel prompt len l (take c t) [x]) in Hl. cbn [length] in Hl. rewrite Nat.add_1_r in Hl. by rewrite (take_S_r t c x Hx).
Qed.

Lemma line_position ed d : ed_rel ed d -> num (text_line ed) = cur d /\ eol_num (text_line ed) = length (txt d).
Proof.
  intros ((_ & _ & Hn & He & _) & Hcur & _). rewrite length_take, length_drop in *. lia.
Qed.

Lemma move_key e k ed d : e = Left \/ e = Right \/ e = Home \/ e = End_ -> control_key e k -> ed_rel ed d -> exists ed',
  press k ed = Some (ed', false) /\ ed_rel ed' (spec_edit len e d) /\ machine ed' = machine ed.
Proof.
  intros He Hk H. pose proof H as (Hl & Hcur & Hi & Hesc & Hh & Hr).
  pose proof (line_position _ _ H) as [Hn Heol].
  destruct He as [-> | [-> | [-> | ->]]]; cbn [control_key] in Hk; cbn [spec_edit].
  - subst k. change (press 2 ed) with (if (0 <? num (text_line ed))%nat
      then Some (with_line (set_num (num (text_line ed) - 1) (emit [BACKSPACE] (text_line ed))) ed, false) else Some (with_line (text_line ed) ed, false)).
    destruct (Nat.ltb_spec 0 (num (text_line ed))); (eexists; split; [done |]; split; [| done]).
    + apply (ed_rel_line _ d); [done | lia | apply left_rel; done || lia].
    + apply (ed_rel_line _ d); [done | lia |]. by replace (cur d - 1)%nat with (cur d) by lia.
  - subst k. change (press 6 ed) with (if (num (text_line ed) <? eol_num (text_line ed))%nat
      then c ← buf (text_line ed) !! num (text_line ed); Some (with_line (set_num (S (num (text_line ed))) (emit [c] (text_line ed))) ed, false)
      else Some (with_line (text_line ed) ed, false)).
    destruct (Nat.ltb_spec (num (text_line ed)) (eol_num (text_line ed))) as [Hlt | Hge].
    + rewrite Hn, Heol in Hlt. destruct (lookup_lt_is_Some_2 (txt d) (cur d) Hlt) as [x Hx]. destruct (right_rel _ _ _ x Hx Hl) as [-> Hl'].
      cbn [mbind option_bind]. eexists. split; [done |]. split; [| done]. rewrite Nat.min_l by lia. apply (ed_rel_line _ d); [done | lia | done].
    + rewrite Hn, Heol in Hge. eexists. split; [done |]. split; [| done]. rewrite Nat.min_r by lia. apply (ed_rel_line _ d); [done | lia |].
      by replace (length (txt d)) with (cur d) by lia.
  - subst k. change (press 1 ed) with (Some (with_line (BEGINNING_OF_LINE (text_line ed)) ed, false)).
    eexists. split; [done |]. split; [| done]. apply (ed_rel_parts _ d _ _ _ _ _ H (home_rel _ _ _ _ _ Hl)); [by rewrite take_drop | done].
  - subst k. change (press 5 ed) with (Some (with_line (REFRESH_TO_EOL (text_line ed)) ed, false)).
    eexists. split; [done |]. split; [| done]. pose proof (end_rel _ _ _ _ _ Hl) as Hl'. rewrite take_drop in Hl'.
    apply (ed_rel_parts _ d _ _ _ _ _ H Hl'); [by rewrite app_nil_r | done].
Qed.

Lemma delete_key e k ed d : e = DeleteUnder \/ e = DeleteBefore \/ e = KillToEnd \/ e = KillLine -> control_key e k -> ed_rel ed d -> exists ed',
  press k ed = Some (ed', false) /\ ed_rel ed' (spec_edit len e d) /\ machine ed' = machine ed.
Proof.
  intros He Hk H. pose proof H as (Hl & Hcur & Hi & Hesc & Hh & Hr).
  pose proof (line_position _ _ H) as [Hn Heol].
  destruct He as [-> | [-> | [-> | ->]]]; cbn [control_key] in Hk; cbn [spec_edit].
  - subst k. change (press 4 ed) with (l ← delete_under (text_line ed); Some (with_line l ed, false)).
    destruct (delete_under_rel _ _ _ _ _ Hl) as (l' & -> & Hl'). cbn [mbind option_bind]. eexists. split; [done |]. split; [| done].
    apply (ed_rel_parts _ d _ _ _ _ _ H Hl'); [done | rewrite length_take; lia].
  - assert (press k ed = (l ← delete_before (text_line ed); Some (with_line l ed, false))) as ->
      by (destruct Hk as [-> | [-> | ->]]; reflexivity).
    destruct (decide (cur d = 0%nat)) as [H0 | H0].
    + assert (delete_before (text_line ed) = Some (text_line ed)) as ->.
      { unfold delete_before. by rewrite Hn, H0. }
      cbn [mbind option_bind]. eexists. split; [done |]. split; [| done]. rewrite H0. cbn [Nat.sub]. rewrite take_0, drop_0. cbn [app].
      apply (ed_rel_line _ d); [done | lia |]. by rewrite H0 in Hl.
    + destruct (lookup_lt_is_Some_2 (txt d) (cur d - 1) ltac:(lia)) as [x Hx].
      pose proof (take_S_r (txt d) (cur d - 1) x Hx) as Ht. replace (S (cur d - 1)) with (cur d) in Ht by lia. rewrite Ht in Hl.
      destruct (delete_before_rel _ _ _ _ _ _ Hl) as (l' & -> & Hl'). cbn [mbind option_bind]. eexists. split; [done |]. split; [| done].
      apply (ed_rel_parts _ d _ _ _ _ _ H Hl'); [done | rewrite length_take; lia].
  - subst k. change (press 11 ed) with (Some (with_line (ERASE_TO_EOL (text_line ed)) ed, false)).
    eexists. split; [done |]. split; [| done]. apply (ed_rel_parts _ d _ _ _ _ _ H (kill_rel _ _ _ _ _ Hl)); [by rewrite app_nil_r | rewrite length_take; lia].
  - assert (press k ed = Some (with_line (ERASE_TO_EOL (BEGINNING_OF_LINE (text_line ed))) ed, false)) as ->
      by (destruct Hk as [-> | ->]; reflexivity).
    eexists. split; [done |]. split; [| done]. by apply (ed_rel_parts _ d _ _ _ _ _ H (kill_rel _ _ _ _ _ (home_rel _ _ _ _ _ Hl))).
Qed.

Lemma history_key e k ed d : e = Up \/ e = Down -> control_key e k -> ed_rel ed d -> exists ed',
  press k ed = Some (ed', false) /\ ed_rel ed' (spec_edit len e d) /\ machine ed' = machine ed.
Proof.
  intros He Hk H. pose proof H as (Hl & Hcur & Hi & Hesc & Hh & Hr).
  pose proof (line_position _ _ H) as [Hn Heol].
  destruct He as [-> | ->]; cbn [control_key] in Hk; cbn [spec_edit].
  - subst k. change (press 16 ed) with ('(hline, h) ← hist_prev (hist ed);
      match hline with
      | None => Some (Editor (emit [BELL] (text_line ed)) (insert ed) [] h (machine ed), false)
      | Some s => l ← replace_line s (text_line ed); Some (Editor l (insert ed) [] h (machine ed), false)
      end).
    destruct (hist_prev_rel _ _ Hh) as (h' & -> & Hh'). cbn [mbind option_bind]. destruct (recall_prev _ Hr) as [Hr' Hok'].
    destruct (spec_prev (past d)) as [hline r]. cbn [fst snd] in *. exact (show_line ed d hline h' r H Hh' Hr' Hok').
  - subst k. change (press 14 ed) with ('(hline, h) ← hist_next (hist ed);
      match hline with
      | None => Some (Editor (emit [BELL] (text_line ed)) (insert ed) [] h (machine ed), false)
      | Some s => l ← replace_line s (text_line ed); Some (Editor l (insert ed) [] h (machine ed), false)
      end).
    destruct (hist_next_rel _ _ Hh) as (h' & -> & Hh'). cbn [mbind option_bind]. destruct (recall_next _ Hr) as [Hr' Hok'].
    destruct (spec_next (past d)) as [hline r]. cbn [fst snd] in *. exact (show_line ed d hline h' r H Hh' Hr' Hok').
Qed.

Lemma edit_key e k ed d : control_key e k -> ed_rel ed d -> edit_ok e -> exists ed',
  press k ed = Some (ed', false) /\ ed_rel ed' (spec_edit len e d) /\ machine ed' = machine ed.
Proof.
  intros Hk H Hok. destruct e as [c | | | | | | | | | | |].
  2-5: apply move_key; [by auto 6 | done | done].
  2-5: apply delete_key; [by auto 6 | done | done].
  3-4: apply history_key; [by auto | done | done].
  - cbn [control_key] in Hk. subst k. rewrite type_key by done. destruct (type_rel c ed d H Hok) as (l & -> & Hrel). by eexists.
  - cbn [control_key] in Hk. subst k. pose proof H as (Hl & Hcur & Hi & Hesc & Hh & Hr).
    change (press 15 ed) with (Some (Editor (text_line ed) (negb (insert ed)) (esc_save ed) (hist ed) (machine ed), false)).
    eexists. split; [done |]. split; [| done]. cbn [spec_edit]. rewrite <- Hi. split_and!; try done.
Qed.

(** ** Sequences of keys *)

Lemma loop_key e k keys ed d : control_key e k -> ed_rel ed d -> edit_ok e -> exists ed',
  keep_on (k :: keys) ed = keep_on keys ed' /\ ed_rel ed' (spec_edit len e d) /\ machine ed' = machine ed.
Proof.
  intros Hk H Hok. destruct (edit_key e k ed d Hk H Hok) as (ed' & He & Hrel). exists ed'. split; [| done].
  assert (k <> 10 /\ k <> 13) as [H10 H13].
  { destruct e; cbn [control_key edit_ok] in *; unfold printable in *; lia. }
  cbn [Readline.cread_loop]. unfold Readline.round, escape_step.
  rewrite (proj2 (Z.eqb_neq k 10)), (proj2 (Z.eqb_neq k 13)) by done. cbn [orb].
  destruct H as (_ & _ & _ & -> & _). cbn [mbind option_bind]. by rewrite He.
Qed.

(** An escape sequence stands for a control key. *)
Lemma loop_escape k c keys ed : arrow c = Some k -> c <> 10 -> c <> 13 -> k <> 10 -> k <> 13 -> esc_save ed = [] ->
  keep_on (27 :: 91 :: c :: keys) ed = keep_on (k :: keys) ed.
Proof.
  intros Ha H1 H2 H3 H4 He. cbn [Readline.cread_loop].
  assert (step 27 ed = Some (with_esc [27] ed, None)) as ->.
  { unfold Readline.round, escape_step. rewrite He. cbn [mbind option_bind].
    change ((27 =? 10) || (27 =? 13)) with false. cbn iota. cbn [mbind option_bind].
    change (press 27 ed) with (match esc_save ed with [] => Some (with_esc [27] ed, false) | _ => Some (with_esc [] ed, false) end).
    by rewrite He. }
  cbn [mbind option_bind].
  assert (step 91 (with_esc [27] ed) = Some (with_esc [27; 91] ed, None)) as -> by (by destruct ed).
  cbn [mbind option_bind]. unfold Readline.round at 1. unfold escape_step.
  rewrite (proj2 (Z.eqb_neq c 10)), (proj2 (Z.eqb_neq c 13)) by done. cbn [orb with_esc esc_save]. rewrite Ha. cbn [mbind option_bind].
  unfold Readline.round, escape_step. rewrite (proj2 (Z.eqb_neq k 10)), (proj2 (Z.eqb_neq k 13)) by done. cbn [orb].
  rewrite He. cbn [mbind option_bind]. destruct ed as [l i es h mm]. cbn in He. by subst es.
Qed.

Lemma loop_edit e ks keys ed d : ks ∈ key_codes e -> ed_rel ed d -> edit_ok e -> exists ed',
  keep_on (ks ++ keys) ed = keep_on keys ed' /\ ed_rel ed' (spec_edit len e d) /\ machine ed' = machine ed.
Proof.
  intros Hks H Hok. pose proof H as (_ & _ & _ & Hesc & _).
  assert ((exists k, ks = [k] /\ control_key e k) \/ exists k c, ks = [27; 91; c] /\ arrow c = Some k /\ control_key e k /\
    c <> 10 /\ c <> 13 /\ k <> 10 /\ k <> 13) as [(k & -> & Hk) | (k & c & -> & Ha & Hk & H1 & H2 & H3 & H4)].
  { destruct e; cbn [key_codes] in Hks; repeat (apply elem_of_cons in Hks as [-> | Hks]); try (by apply elem_of_nil in Hks);
      first [left; eexists; split; [reflexivity | cbn; lia] | right; eexists _, _; split; [reflexivity |]; split; [reflexivity |]; unfold CTL_CH; cbn; lia]. }
  - apply loop_key; done.
  - cbn [app]. rewrite (loop_escape k c) by done. by apply (loop_key e).
Qed.

Lemma loop_edits edits : forall keys rest ed d, typed edits keys -> ed_rel ed d -> Forall edit_ok edits -> exists ed',
  keep_on (keys ++ rest) ed = keep_on rest ed' /\ ed_rel ed' (foldl (fun d e => spec_edit len e d) d edits) /\ machine ed' = machine ed.
Proof.
  induction edits as [| e edits IH]; intros keys rest ed d (ks & Hks & ->) H Hok.
  { inversion Hks. subst. by exists ed. }
  inversion Hks as [| ? k ? ks' Hk Hks']. subst. apply Forall_cons in Hok as [Hoke Hok]. cbn [concat foldl]. rewrite <- app_assoc.
  destruct (loop_edit e k (concat ks' ++ rest) ed d Hk H Hoke) as (ed1 & -> & H1 & Hm).
  destruct (IH (concat ks') rest ed1 (spec_edit len e d)) as (ed2 & -> & H2 & Hm2); [by exists ks' | done | done |].
  exists ed2. split_and!; [done | done | congruence].
Qed.

Lemma recall_enter r t : recall_ok r -> Forall printable t -> (length t <= len)%nat -> recall_ok (spec_enter t r).
Proof.
  intros Hr Ht Hl. unfold spec_enter. destruct t as [| c t]; [done |]. destruct (c =? CREAD_HIST_CHAR); [done |].
  apply Forall_take. by apply Forall_cons.
Qed.

(** The key that ends the line. *)
Lemma loop_enter nl rest ed d : nl = 10 \/ nl = 13 -> ed_rel ed d -> exists ed',
  keep_on (nl :: rest) ed = Some (ed', Some (zlen (txt d)), rest) /\ until_nul (buf (text_line ed')) = txt d /\
  hist_rel (hist ed') (spec_enter (txt d) (past d)) /\ out (text_line ed') = out (text_line ed) ++ [10] /\ machine ed' = machine ed.
Proof.
  intros Hnl H. pose proof (line_position _ _ H) as [_ Heol].
  destruct H as (Hl & Hcur & _ & _ & Hh & _). pose proof (line_room _ _ _ _ _ Hl) as (r & Hb & Hr).
  pose proof Hl as (_ & _ & _ & _ & Hle & Hp & _). rewrite app_assoc, take_drop in Hb. rewrite take_drop in Hp.
  rewrite <- length_app, take_drop in Hr, Hle.
  destruct r as [| x r]; [cbn in Hr; lia |].
  cbn [Readline.cread_loop]. unfold Readline.round. assert ((nl =? 10) || (nl =? 13) = true) as -> by (destruct Hnl; subst; done).
  rewrite Heol, Hb, store_char_at. cbn [mbind option_bind].
  assert (until_nul (txt d ++ 0 :: r) = txt d) as Hu by (rewrite until_nul_text by done; cbn; apply app_nil_r). rewrite Hu.
  assert (exists h, match txt d with
    | [] => Some (hist ed)
    | c :: _ => if c =? CREAD_HIST_CHAR then Some (hist ed) else cread_add_to_hist (txt d) (hist ed)
    end = Some h /\ hist_rel (set_cur (hist_add_idx h) h) (spec_enter (txt d) (past d))) as (h & -> & Hh').
  { unfold spec_enter. destruct (txt d) as [| c t] eqn:Ht; [by exists (hist ed); split; [| apply hist_reset_rel] |].
    destruct (c =? CREAD_HIST_CHAR); [by exists (hist ed); split; [| apply hist_reset_rel] |].
    destruct (hist_add_rel (hist ed) (past d) (c :: t) Hh) as (h' & ? & ?); [lia | by exists h']. }
  cbn [mbind option_bind]. change (eol_num (emit _ (set_buf _ (text_line ed)))) with (eol_num (text_line ed)). rewrite Heol.
  eexists. split; [reflexivity |]. by split_and!.
Qed.
End EditorProofs.

(** C18: The line editor is a text with a cursor: whatever is typed (characters,
    movements, deletions, recalled lines, by control keys or escape sequences),
    the line that is returned is the one those edits make of an empty line, it
    never exceeds the buffer, and the screen shows the prompt and
    that text with the cursor at its place.  The line enters the history, from
    which the last 19 lines can be recalled. *)
Theorem cread_line_correct {M} (complete : cstring -> cstring -> Z -> Z -> M -> option (Z * cstring * Z * Z * text * M))
    prompt len edits keys nl rest b h r (m : M) :
  (0 < len)%nat -> Z.of_nat len <= HIST_SIZE -> length b = S len -> until_nul b = [] -> nl = 10 \/ nl = 13 ->
  typed edits keys -> Forall edit_ok edits -> hist_rel h r -> recall_ok len r ->
  let d := foldl (fun d e => spec_edit len e d) (Doc [] 0 true r) edits in
  exists ed shown, cread_line complete prompt len (keys ++ nl :: rest) b h m = Some (ed, Some (zlen (txt d)), rest) /\
    until_nul (buf (text_line ed)) = txt d /\ (length (txt d) <= len)%nat /\ machine ed = m /\
    hist_rel (hist ed) (spec_enter (txt d) (past d)) /\ recall_ok len (spec_enter (txt d) (past d)) /\
    out (text_line ed) = shown ++ [NEWLINE] /\
    shows shown (prompt, length prompt) (prompt ++ txt d) (length prompt + cur d).
Proof.
  intros Hlen Hhist Hb Hempty Hnl Htyped Hok Hh Hr d. unfold cread_line. rewrite Hempty. cbn [cread_add_str mbind option_bind].
  set (ed0 := Editor (Line b 0 0 []) true [] h m).
  assert (ed_rel prompt len ed0 (Doc [] 0 true r)) as H0.
  { split; [| done]. cbn. apply (line_rel_intro _ _ _ _ _ _ _ _ b); cbn; try done; [lia |]. exists O. cbn. rewrite !app_nil_r. f_equal. lia. }
  destruct (loop_edits complete prompt len Hlen edits keys (nl :: rest) ed0 _ Htyped H0 Hok) as (ed1 & -> & H1 & Hm1). fold d in H1.
  destruct (loop_enter complete prompt len Hlen Hhist nl rest ed1 d Hnl H1) as (ed2 & -> & Hbuf & Hhr & Ho & Hm2).
  pose proof H1 as (Hl & _). pose proof Hl as (_ & _ & _ & _ & Hle & _ & Hs). rewrite take_drop in Hs.
  rewrite <- length_app, take_drop in Hle. destruct Hl as (_ & _ & _ & _ & _ & Hp & _). rewrite take_drop in Hp.
  destruct H1 as (_ & Hcur & _ & _ & _ & Hrec). pose proof (recall_enter len (past d) (txt d) Hrec Hp Hle). rewrite length_take, Nat.min_l in Hs by done.
  assert (machine ed2 = m) by (rewrite Hm2, Hm1; done).
  exists ed2, (out (text_line ed1)). split_and!; done.
Qed.

Module ReadlineExamples.

(** Nothing is completed. *)
Definition no_completion (prompt buf : cstring) (n col : Z) (s : unit) : option (Z * cstring * Z * Z * text * unit) :=
  Some (0, buf, n, col, [], s).

(** "md 1", two steps to the left, "x", and the line before this one. *)
Definition session : list edit := Type_ <$> str "md 1".
Definition corrections : list edit := [Left; Left; Type_ 46; Type_ 98; End_; DeleteBefore].
Definition session_keys : list Z := str "md 1" ++ [2; 27; 91; 68; 46; 98; 5; 127].

Lemma typed_keys : typed (session ++ corrections) session_keys.
Proof.
  exists [[109]; [100]; [32]; [49]; [2]; [27; 91; 68]; [46]; [98]; [5]; [127]]. split; [| reflexivity].
  unfold session, corrections. cbn. repeat (apply Forall2_cons; split; [by apply (bool_decide_unpack _); vm_compute |]). by apply Forall2_nil.
Qed.

Lemma cread_line_correct_witness : exists ed shown,
  cread_line no_completion (str "u-boot> ") 1024 (session_keys ++ 13 :: str "x") (replicate 1025 0) hist_init tt = Some (ed, Some 5, str "x") /\
  until_nul (buf (text_line ed)) = str "md.b " /\ machine ed = tt /\
  out (text_line ed) = shown ++ [NEWLINE] /\ shows shown (str "u-boot> ", 8%nat) (str "u-boot> md.b ") 13.
Proof.
  destruct (cread_line_correct no_completion (str "u-boot> ") 1024 (session ++ corrections) session_keys 13 (str "x")
    (replicate 1025 0) hist_init (Recall [] 0) tt) as (ed & shown & H1 & H2 & _ & H3 & _ & _ & H4 & H5).
  - lia.
  - vm_compute. discriminate.
  - reflexivity.
  - reflexivity.
  - by right.
  - apply typed_keys.
  - unfold session, corrections. cbn. repeat (apply Forall_cons; split; [cbn; unfold printable, DEL7; lia || exact I |]). by apply Forall_nil.
  - apply hist_init_rel.
  - by apply Forall_nil.
  - exists ed, shown. split_and!; [exact H1 | exact H2 | exact H3 | exact H4 | exact H5].
Defined.

End ReadlineExamples.
