(* ===== verification/Cli.v ===== *)
(** * The command line interpreter (common/main.c)

    The built-in parser: a line is split at semicolons, variables are expanded,
    the words become the arguments of a command; "run" executes the values of
    variables; after the boot delay the value of "bootcmd" is executed.

    The machine the commands act on is a type with the operations of [Shell].
    Commands may run command lines themselves: [depth] bounds how deep they are
    nested, as the stack does.  [None] is an access outside of a buffer or a
    stack overflow.  The board is configured for the other parser
    (common/hush.c), which is modelled in Hush.v and HushRun.v; [autoboot] takes the parser as a
    parameter. *)

From S2P Require Import Prelude Ctype StringLib Hashtable HashIO Vsprintf Env Command.

(** What the interpreter uses of the machine: variables, the Control-C flag,
    memory, the keyboard and the delay. *)
Class Shell (M : Type) := {
  sh_getenv : cstring -> M -> option (option cstring * M);
  clear_ctrlc : M -> M;
  had_ctrlc : M -> bool;
  malloc_ok : M -> bool * M;
  tstc : M -> bool * M;
  getc : M -> Z * M;
  udelay : Z -> M -> M }.

Definition CMD_FLAG_REPEAT : Z := 1.
Definition BACKSLASH : Z := 92.
Definition QUOTE : Z := 39.
Definition DOLLAR : Z := 36.
Definition SEMICOLON : Z := 59.
Definition opens (c : Z) : bool := (c =? 40) || (c =? 123).
Definition closes (c : Z) : bool := (c =? 41) || (c =? 125).

(** ** [parse_line] *)

(** [while (nargs < CONFIG_SYS_MAXARGS)]: the arguments, and whether [argv] is
    ended by a null pointer. *)
Fixpoint parse_loop (room : nat) (line : list Z) : list cstring * bool :=
  match room with
  | O => ([], false)
  | S room =>
      match skip_blanks line with
      | [] => ([], true)
      | line =>
          let '(arg, rest) := find_end_of_string line in
          match rest with
          | [] => ([arg], true)
          | _ :: rest => let '(args, null) := parse_loop room rest in (arg :: args, null)
          end
      end
  end.

Definition parse_line (line : list Z) : list cstring * bool := parse_loop (Z.to_nat CONFIG_SYS_MAXARGS) line.

Section Parser.
Context {M : Type} `{Shell M}.

(** ** [process_macros] *)

(** The output, its remaining room, the state (0 to 3), the previous character,
    the text since [varname_start], and the machine. *)
Record macro_state := Macro { m_out : list Z; outputcnt : nat; mstate : Z; prev : Z; var : list Z; mach : M }.

Definition put (c : Z) (st : macro_state) : macro_state :=
  Macro (m_out st ++ [c]) (outputcnt st - 1) (mstate st) (prev st) (var st) (mach st).
Definition to_state (n : Z) (st : macro_state) : macro_state :=
  Macro (m_out st) (outputcnt st) n (prev st) (var st) (mach st).
Definition set_prev (c : Z) (st : macro_state) : macro_state :=
  Macro (m_out st) (outputcnt st) (mstate st) c (var st) (mach st).
Definition set_var (v : list Z) (st : macro_state) : macro_state :=
  Macro (m_out st) (outputcnt st) (mstate st) (prev st) v (mach st).

(** The end of a variable's name. *)
Definition expand_var (envname : cstring) (st : macro_state) : option macro_state :=
  if zlen envname <? CONFIG_SYS_CBSIZE then
    '(envval, s) ← sh_getenv envname (mach st);
    let v := take (outputcnt st) (default [] envval) in
    Some (Macro (m_out st ++ v) (outputcnt st - length v) 0 (prev st) (var st) s)
  else None.

(** [switch (state)] for the character [c], which is the last of [raw]. *)
Definition macro_switch (c : Z) (raw : list Z) (st : macro_state) : option macro_state :=
  if mstate st =? 0 then
    Some (if (c =? QUOTE) && negb (prev st =? BACKSLASH) then to_state 3 st
          else if (c =? DOLLAR) && negb (prev st =? BACKSLASH) then to_state 1 st
          else put c st)
  else if mstate st =? 1 then
    Some (if opens c then set_var [] (to_state 2 st)
          else
            let st := put DOLLAR (to_state 0 st) in
            if negb (outputcnt st =? 0)%nat then put c st else st)
  else if mstate st =? 2 then
    if closes c then expand_var (var st ++ removelast raw) st else Some (set_var (var st ++ raw) st)
  else
    Some (if (c =? QUOTE) && negb (prev st =? BACKSLASH) then to_state 0 st else put c st).

(** [while (inputcnt && outputcnt)]. *)
Fixpoint macro_loop (input : list Z) (st : macro_state) : option macro_state :=
  match input with
  | [] => Some st
  | c :: input =>
      if (outputcnt st =? 0)%nat then Some st
      else if negb (mstate st =? 3) && (c =? BACKSLASH) && negb (prev st =? BACKSLASH) then
        match input with
        | [] => Some st
        | d :: input =>
            st ← macro_switch d [c; d] (set_prev c st); macro_loop input (set_prev d st)
        end
      else st ← macro_switch c [c] st; macro_loop input (set_prev c st)
  end.

(** The string in [output]; when it is full, its last character is overwritten
    by the terminator. *)
Definition process_macros (input : cstring) (s : M) : option (cstring * M) :=
  st ← macro_loop input (Macro [] (Z.to_nat CONFIG_SYS_CBSIZE) 0 0 [] s);
  Some ((if (outputcnt st =? 0)%nat then removelast (m_out st) else m_out st), mach st).

(** ** [builtin_run_command] *)

(** [for (inquotes = 0, sep = str; *sep; sep++)]: the token, and the text behind
    the separator if there is one.  [prev] is [*(sep-1)]. *)
Fixpoint find_sep (first inquotes : bool) (prev : Z) (s : list Z) : cstring * option (list Z) :=
  match s with
  | [] => ([], None)
  | c :: s =>
      let inquotes := if (c =? QUOTE) && negb (prev =? BACKSLASH) then negb inquotes else inquotes in
      if negb inquotes && (c =? SEMICOLON) && negb first && negb (prev =? BACKSLASH) then ([], Some s)
      else let '(token, rest) := find_sep false inquotes c s in (c :: token, rest)
  end.

Section Running.
Context (table : list cmd_tbl) (do_bootd : Z).
(** The byte in front of [cmdbuf] on the stack, which is read when a command
    starts with a quote. *)
Context (below : Z).

(** [while ( *str)]; every round takes a character.  [call] runs a command. *)
Fixpoint run_tokens (call : Z -> cmd_tbl -> Z -> list cstring -> M -> option (Z * M))
    (fuel : nat) (flag before : Z) (str : list Z) (rc repeatable : Z) (s : M) : option (Z * M) :=
  match fuel with
  | O => None
  | S fuel =>
      match str with
      | [] => Some ((if negb (rc =? 0) then rc else repeatable), s)
      | _ =>
          let '(token, rest) := find_sep true false before str in
          let str := default [] rest in
          '(finaltoken, s) ← process_macros token s;
          match (parse_line finaltoken).1 with
          | [] => run_tokens call fuel flag 0 str (-1) repeatable s
          | argv =>
              '(r, repeatable, s) ← cmd_process table call do_bootd flag argv repeatable s;
              if had_ctrlc s then Some (-1, s)
              else run_tokens call fuel flag 0 str (if r =? 0 then rc else -1) repeatable s
          end
      end
  end.

Definition builtin_run_command (call : Z -> cmd_tbl -> Z -> list cstring -> M -> option (Z * M))
    (cmd : option cstring) (flag : Z) (s : M) : option (Z * M) :=
  let s := clear_ctrlc s in
  match cmd with
  | None | Some [] => Some (-1, s)
  | Some cmd =>
      if CONFIG_SYS_CBSIZE <=? zlen cmd then Some (-1, s)
      else run_tokens call (S (length cmd)) flag below cmd 0 1 s
  end.

(** ** Nested commands *)

(** The commands that are not modelled; they may run command lines. *)
Context (prim : Z -> (cstring -> Z -> M -> option (Z * M)) -> cmd_tbl -> Z -> list cstring -> M -> option (Z * M)).
Context (do_run_fn : Z).

(** [for (i=1; i<argc; ++i)] of [do_run]; [run] is [run_command]. *)
Fixpoint do_run_loop (run : cstring -> Z -> M -> option (Z * M)) (flag : Z) (names : list cstring) (s : M) : option (Z * M) :=
  match names with
  | [] => Some (0, s)
  | name :: names =>
      '(arg, s) ← sh_getenv name s;
      match arg with
      | None => Some (1, s)
      | Some arg => '(r, s) ← run arg flag s; if negb (r =? 0) then Some (1, s) else do_run_loop run flag names s
      end
  end.

Definition do_run (run : cstring -> Z -> M -> option (Z * M)) (flag : Z) (argv : list cstring) (s : M) : option (Z * M) :=
  if zlen argv <? 2 then Some (CMD_RET_USAGE, s) else do_run_loop run flag (tail argv) s.

(** A call through the function pointer of a command. *)
Definition call_command (run : cstring -> Z -> M -> option (Z * M)) (fn : Z) (cmdtp : cmd_tbl) (flag : Z) (argv : list cstring) (s : M) :
    option (Z * M) :=
  if fn =? do_run_fn then do_run run flag argv s else prim fn run cmdtp flag argv s.

Fixpoint run_command (depth : nat) (cmd : cstring) (flag : Z) (s : M) : option (Z * M) :=
  match depth with
  | O => None
  | S depth =>
      '(rc, s) ← builtin_run_command (call_command (run_command depth)) (Some cmd) flag s;
      Some ((if rc =? -1 then 1 else 0), s)
  end.

(** [builtin_run_command] at a depth. *)
Definition run_builtin (depth : nat) (cmd : cstring) (flag : Z) (s : M) : option (Z * M) :=
  builtin_run_command (call_command (run_command depth)) (Some cmd) flag s.

(** ** Command lists *)

(** [while ( *next)]: [line] is the text from [line] to [next]. *)
Fixpoint list_loop (depth : nat) (line next : list Z) (s : M) : option (Z * M) :=
  match next with
  | c :: next =>
      if c =? NEWLINE then
        match line with
        | [] => list_loop depth [] next s
        | _ => '(r, s) ← run_builtin depth line 0 s; if r <? 0 then Some (1, s) else list_loop depth [] next s
        end
      else list_loop depth (line ++ [c]) next s
  | [] =>
      match line with
      | [] => Some (0, s)
      | _ => '(r, s) ← run_builtin depth line 0 s; Some ((if 0 <=? r then 1 else 0), s)
      end
  end.

Definition builtin_run_command_list (depth : nat) (cmd : cstring) (s : M) : option (Z * M) := list_loop depth [] cmd s.

(** [len] is -1 for the whole string. *)
Definition run_command_list (depth : nat) (cmd : cstring) (len : Z) (s : M) : option (Z * M) :=
  let need_buff := if len =? -1 then existsb (Z.eqb NEWLINE) cmd else true in
  let len := if len =? -1 then zlen cmd else len in
  if need_buff then
    let '(ok, s) := malloc_ok s in
    if negb ok then Some (1, s) else builtin_run_command_list depth (until_nul (take (Z.to_nat len) cmd)) s
  else builtin_run_command_list depth cmd s.

(** ** The loop of [main_loop] *)

(** [if (len > 0) strcpy(lastcommand, console_buffer);]. *)
Definition keep_command (len : Z) (console_buffer lastcommand : cstring) : option cstring :=
  if 0 <? len then (if zlen console_buffer <? CONFIG_SYS_CBSIZE then Some console_buffer else None) else Some lastcommand.

(** One round: [len] and [console_buffer] are what [readline] returned; the last
    command is kept.  The result has [lastcommand] and [rc]. *)
Definition main_round (depth : nat) (len : Z) (console_buffer lastcommand : cstring) (rc : Z) (s : M) : option (cstring * Z * M) :=
  lastcommand ← keep_command len console_buffer lastcommand;
  let flag := if len =? 0 then CMD_FLAG_REPEAT else 0 in
  '(rc, s) ← (if len =? -1 then Some (rc, s) else run_command depth lastcommand flag s);
  Some ((if rc <=? 0 then [] else lastcommand), rc, s).

End Running.

(** ** The boot delay *)

(** [for (i=0; !abort && i<100; ++i)]: whether a key was pressed. *)
Fixpoint wait_key (n : nat) (s : M) : bool * M :=
  match n with
  | O => (false, s)
  | S n =>
      let '(key, s) := tstc s in
      if key : bool then (true, (getc s).2) else wait_key n (udelay 10000 s)
  end.

(** [while ((bootdelay > 0) && (!abort))]. *)
Fixpoint countdown (bootdelay : nat) (s : M) : bool * M :=
  match bootdelay with
  | O => (false, s)
  | S bootdelay => let '(abort, s) := wait_key 100 s in if abort : bool then (true, s) else countdown bootdelay s
  end.

Definition abortboot (bootdelay : Z) (s : M) : bool * M := countdown (Z.to_nat bootdelay) s.

Definition CONFIG_BOOTDELAY : Z := 3.

(** [main_loop] up to its endless loop.  [run_list] is [run_command_list]; its
    result is ignored. *)
Definition autoboot (run_list : cstring -> M -> option (Z * M)) (s : M) : option M :=
  '(v, s) ← sh_getenv (str "bootdelay") s;
  let bootdelay := match v with Some v => (simple_strtol v 10).1 | None => CONFIG_BOOTDELAY end in
  '(cmd, s) ← sh_getenv (str "bootcmd") s;
  match cmd with
  | Some cmd =>
      if bootdelay =? -1 then Some s
      else let '(abort, s) := abortboot bootdelay s in
           if abort : bool then Some s else '(_, s) ← run_list cmd s; Some s
  | None => Some s
  end.

End Parser.

(** ** Words *)

Abbreviation blanks := (Forall (fun c => isblank c = true)).
Definition is_word (w : cstring) : Prop := w <> [] /\ Forall (fun c => isblank c = false) w.

(** The words of a line, separated by blanks. *)
Inductive words_of : list Z -> list cstring -> Prop :=
| words_none bl : blanks bl -> words_of bl []
| words_last bl w : blanks bl -> is_word w -> words_of (bl ++ w) [w]
| words_more bl w b s ws : blanks bl -> is_word w -> isblank b = true -> words_of s ws ->
    words_of (bl ++ w ++ b :: s) (w :: ws).

Lemma skip_blanks_spec s : exists bl, s = bl ++ skip_blanks s /\ blanks bl /\
  match skip_blanks s with [] => True | c :: _ => isblank c = false end.
Proof.
  induction s as [| c s (bl & Hs & Hb & Hc)]; cbn [skip_blanks]; [by exists [] |].
  destruct (isblank c) eqn:Hbc; [| by exists []]. exists (c :: bl). split_and!; [by rewrite Hs at 1 | by constructor | done].
Qed.

Lemma find_end_spec s : s = (find_end_of_string s).1 ++ (find_end_of_string s).2 /\
  Forall (fun c => isblank c = false) (find_end_of_string s).1 /\
  match (find_end_of_string s).2 with [] => True | b :: _ => isblank b = true end.
Proof.
  induction s as [| c s (Hs & Hw & Hb)]; cbn [find_end_of_string]; [by split_and! |].
  destruct (isblank c) eqn:Hbc; [by split_and! |]. destruct (find_end_of_string s) as [w rest]. cbn [fst snd] in *.
  split_and!; [by rewrite Hs at 1 | by constructor | done].
Qed.

(** Every line has words. *)
Lemma words_exist s : exists ws, words_of s ws.
Proof.
  remember (length s) as n eqn:Hn. revert s Hn. induction (lt_wf n) as [n _ IH]. intros s Hn.
  destruct (skip_blanks_spec s) as (bl & Hs & Hbl & Hc). destruct (find_end_spec (skip_blanks s)) as (He & Hw & Hb).
  destruct (skip_blanks s) as [| c r] eqn:Hk.
  { exists []. rewrite Hs, app_nil_r. by constructor. }
  destruct (find_end_of_string (c :: r)) as [w rest] eqn:Hf. cbn [fst snd] in *.
  assert (is_word w) as Hword.
  { split; [| done]. intros ->. cbn in He. subst rest. congruence. }
  destruct rest as [| b rest].
  - exists [w]. rewrite Hs, He, app_nil_r. by constructor.
  - destruct (IH (length rest)) with (s := rest) as [ws Hws]; [| done |].
    + subst n. rewrite Hs, He, !length_app. cbn. lia.
    + exists (w :: ws). rewrite Hs, He. by constructor.
Qed.

Lemma skip_blanks_app bl w s : blanks bl -> is_word w -> skip_blanks (bl ++ w ++ s) = w ++ s.
Proof.
  intros Hb [Hne Hw]. induction Hb as [| c bl Hc _ IH]; cbn [app skip_blanks]; [| by rewrite Hc].
  destruct w as [| c w]; [done |]. apply Forall_cons in Hw as [Hc _]. cbn [app skip_blanks]. by rewrite Hc.
Qed.

Lemma skip_blanks_all bl : blanks bl -> skip_blanks bl = [].
Proof. induction 1 as [| c bl Hc _ IH]; cbn [skip_blanks]; [done | by rewrite Hc]. Qed.

Lemma find_end_app w s : Forall (fun c => isblank c = false) w ->
  match s with [] => True | b :: _ => isblank b = true end -> find_end_of_string (w ++ s) = (w, s).
Proof.
  intros Hw Hs. induction Hw as [| c w Hc _ IH]; cbn [app find_end_of_string].
  - destruct s as [| b s]; [done |]. cbn. by rewrite Hs.
  - by rewrite Hc, IH.
Qed.

Lemma parse_loop_words s ws : words_of s ws -> forall n, (parse_loop n s).1 = take n ws /\
  ((length ws < n)%nat -> (parse_loop n s).2 = true) /\ ((n < length ws)%nat -> (parse_loop n s).2 = false).
Proof.
  induction 1 as [bl Hb | bl w Hb Hw | bl w b s ws Hb Hw Hbb _ IH]; intros [| n]; cbn [parse_loop]; try (cbn; split_and!; done || lia).
  - rewrite skip_blanks_all by done. cbn. split_and!; [done | done | lia].
  - pose proof (skip_blanks_app bl w [] Hb Hw) as Hk. rewrite !app_nil_r in Hk. rewrite Hk. destruct Hw as [Hne Hw].
    pose proof (find_end_app w [] Hw I) as Hf. rewrite app_nil_r in Hf.
    destruct w as [| c w]; [done |]. rewrite Hf. cbn. rewrite take_nil. split_and!; [done | done | lia].
  - rewrite skip_blanks_app by done. destruct Hw as [Hne Hw]. pose proof (find_end_app w (b :: s) Hw Hbb) as Hf.
    destruct w as [| c w]; [done |]. cbn [app] in *. rewrite Hf. destruct (IH n) as (H1 & H2 & H3). destruct (parse_loop n s) as [args null].
    cbn [fst snd take length] in *. split_and!; [by rewrite H1 | intros; apply H2; lia | intros; apply H3; lia].
Qed.

Lemma words_unique s ws1 ws2 : words_of s ws1 -> words_of s ws2 -> ws1 = ws2.
Proof.
  intros H1 H2. set (n := (length ws1 + length ws2)%nat).
  destruct (parse_loop_words s ws1 H1 n) as [E1 _]. destruct (parse_loop_words s ws2 H2 n) as [E2 _].
  rewrite E1 in E2. rewrite !take_ge in E2 by lia. done.
Qed.

(** A line is split into its words: [parse_line] stores the words, at most
    CONFIG_SYS_MAXARGS of them, in their order, whatever blanks surround them.
    With fewer words the argument vector ends with a null pointer, with more it
    does not. *)
Theorem parse_line_correct s : exists ws, words_of s ws /\
  (parse_line s).1 = take (Z.to_nat CONFIG_SYS_MAXARGS) ws /\
  (zlen ws < CONFIG_SYS_MAXARGS -> (parse_line s).2 = true) /\ (CONFIG_SYS_MAXARGS < zlen ws -> (parse_line s).2 = false).
Proof.
  destruct (words_exist s) as [ws Hws]. exists ws. split; [done |].
  destruct (parse_loop_words s ws Hws (Z.to_nat CONFIG_SYS_MAXARGS)) as (H1 & H2 & H3). unfold CONFIG_SYS_MAXARGS in *.
  split_and!; [done | intros; apply H2; lia | intros; apply H3; lia].
Qed.

(** ** Expansion *)

(** What the interpreter relies on: in the states [shell_ok], a lookup gives the
    value of the variable and changes no variable, and neither does resetting
    the Control-C flag. *)
Class ShellLaws (M : Type) `{Shell M} := {
  shell_ok : M -> Prop;
  variable : M -> cstring -> option cstring;
  getenv_ok name s : shell_ok s -> str_ok name -> exists s',
    sh_getenv name s = Some (variable s name, s') /\ shell_ok s' /\ forall k, variable s' k = variable s k;
  clear_ok s : shell_ok s -> shell_ok (clear_ctrlc s) /\ forall k, variable (clear_ctrlc s) k = variable s k }.

(** The parts of a command: plain text, a variable in braces or parentheses, and
    quoted text. *)
Inductive piece := Lit (t : cstring) | Var (brace : bool) (name : cstring) | Quoted (t : cstring).

Definition piece_text (p : piece) : cstring :=
  match p with
  | Lit t => t
  | Var true name => DOLLAR :: 123 :: name ++ [125]
  | Var false name => DOLLAR :: 40 :: name ++ [41]
  | Quoted t => QUOTE :: t ++ [QUOTE]
  end.

(** No special character where it would have its meaning; quoted text may hold
    dollar signs and semicolons. *)
Definition piece_ok (p : piece) : Prop :=
  match p with
  | Lit t => Forall (fun c => c <> BACKSLASH /\ c <> QUOTE /\ c <> DOLLAR /\ c <> SEMICOLON) t
  | Var _ name => Forall (fun c => c <> BACKSLASH /\ c <> QUOTE /\ c <> SEMICOLON /\ closes c = false) name /\
      str_ok name /\ zlen name < CONFIG_SYS_CBSIZE
  | Quoted t => Forall (fun c => c <> BACKSLASH /\ c <> QUOTE) t
  end.

Definition source (ps : list piece) : cstring := flat_map piece_text ps.

Section Expansion.
Context {M : Type} {SH : Shell M} {SL : ShellLaws M}.

(** Nothing but a lookup happened. *)
Definition looked (s s' : M) : Prop := shell_ok s' /\ forall k, variable s' k = variable s k.

Definition expand (s : M) (p : piece) : cstring :=
  match p with
  | Lit t | Quoted t => t
  | Var _ name => default [] (variable s name)
  end.

Definition expansion (s : M) (ps : list piece) : cstring := flat_map (expand s) ps.

(** [st'] is [st] after [t] was written, as far as there was room. *)
Definition wrote (t : cstring) (st st' : macro_state (M := M)) : Prop :=
  m_out st' = m_out st ++ take (outputcnt st) t /\ outputcnt st' = (outputcnt st - length t)%nat /\ looked (mach st) (mach st').

(** Between two parts. *)
Definition at_rest (st : macro_state (M := M)) : Prop := mstate st = 0 /\ prev st <> BACKSLASH.

Lemma wrote_nil st : shell_ok (mach st) -> wrote [] st st.
Proof. intros Hs. unfold wrote. cbn [length]. rewrite take_nil, app_nil_r, Nat.sub_0_r. by split_and!. Qed.

Lemma wrote_app t1 t2 st1 st2 st3 : wrote t1 st1 st2 -> wrote t2 st2 st3 -> wrote (t1 ++ t2) st1 st3.
Proof.
  intros (Ho1 & Hc1 & Hs1 & Hv1) (Ho2 & Hc2 & Hs2 & Hv2). split_and!; [| | split; [done | intros k; by rewrite Hv2]].
  - by rewrite Ho2, Ho1, Hc1, take_app, <- app_assoc.
  - rewrite Hc2, Hc1, length_app. lia.
Qed.

Lemma loop_full input st : outputcnt st = 0%nat -> macro_loop input st = Some st.
Proof. intros Hc. destruct input; cbn [macro_loop]; [done |]. by rewrite Hc. Qed.

(** A full output stays as it is. *)
Lemma wrote_full t st : outputcnt st = 0%nat -> shell_ok (mach st) -> wrote t st st.
Proof. intros Hc Hs. unfold wrote. rewrite Hc, take_0, app_nil_r. by split_and!. Qed.

(** An ordinary character outside of quotes. *)
Lemma loop_plain c input st : outputcnt st <> 0%nat -> c <> BACKSLASH ->
  macro_loop (c :: input) st = (st ← macro_switch c [c] st; macro_loop input (set_prev c st)).
Proof.
  intros Hc Hb. cbn [macro_loop]. rewrite (proj2 (Nat.eqb_neq _ _)) by done.
  rewrite (proj2 (Z.eqb_neq c BACKSLASH)) by done. by rewrite andb_false_r.
Qed.

(** Text that is copied, in state 0 or inside of quotes. *)
Lemma copy_text t : forall input st, (mstate st = 0 \/ mstate st = 3) ->
  Forall (fun c => c <> BACKSLASH /\ c <> QUOTE /\ (mstate st = 0 -> c <> DOLLAR)) t -> prev st <> BACKSLASH -> shell_ok (mach st) ->
  exists st', wrote t st st' /\ (outputcnt st' = 0%nat /\ macro_loop (t ++ input) st = Some st' \/
    macro_loop (t ++ input) st = macro_loop input st' /\ mstate st' = mstate st /\ prev st' <> BACKSLASH).
Proof.
  induction t as [| c t IH]; intros input st Hm Ht Hp Hs; cbn [app].
  { exists st. split; [by apply wrote_nil |]. by right. }
  destruct (decide (outputcnt st = 0%nat)) as [H0 | H0].
  { exists st. split; [by apply wrote_full |]. left. split; [done |]. by apply loop_full. }
  apply Forall_cons in Ht as [(H1 & H2 & H3) Ht]. rewrite loop_plain by done.
  set (st1 := set_prev c (put c st)).
  assert (macro_switch c [c] st = Some (put c st)) as ->.
  { unfold macro_switch. rewrite (proj2 (Z.eqb_neq c QUOTE)) by done. cbn [andb]. destruct Hm as [Hm | Hm]; rewrite Hm.
    - change (0 =? 0) with true. cbn iota. by rewrite (proj2 (Z.eqb_neq c DOLLAR)) by auto.
    - done. }
  cbn [mbind option_bind]. fold st1.
  assert (wrote [c] st st1) as Hw.
  { unfold wrote, st1, set_prev, put. cbn [m_out outputcnt mach length]. destruct (outputcnt st); [done |]. cbn [take]. rewrite take_nil. by split_and!. }
  destruct (IH input st1) as (st' & Hw' & Hl); try done.
  exists st'. split; [| exact Hl]. apply (wrote_app [c] t _ _ _ Hw Hw').
Qed.

(** The name of a variable is collected. *)
Lemma collect_name name : forall input st, mstate st = 2 -> outputcnt st <> 0%nat ->
  Forall (fun c => c <> BACKSLASH /\ closes c = false) name -> exists st',
  macro_loop (name ++ input) st = macro_loop input st' /\ var st' = var st ++ name /\ m_out st' = m_out st /\
  outputcnt st' = outputcnt st /\ mstate st' = 2 /\ mach st' = mach st.
Proof.
  induction name as [| c name IH]; intros input st Hm Hc Hn; cbn [app].
  { exists st. by rewrite app_nil_r. }
  apply Forall_cons in Hn as [[H1 H2] Hn]. rewrite loop_plain by done. unfold macro_switch at 1. rewrite Hm. cbn iota.
  change (2 =? 0) with false. change (2 =? 1) with false. change (2 =? 2) with true. cbn iota. rewrite H2. cbn [mbind option_bind].
  destruct (IH input (set_prev c (set_var (var st ++ [c]) st)) Hm Hc Hn) as (st' & Hl & Hv & ?).
  exists st'. split; [done |]. split; [| done]. rewrite Hv. cbn. by rewrite <- app_assoc.
Qed.

Lemma loop_var (brace : bool) name input st : piece_ok (Var brace name) -> at_rest st -> shell_ok (mach st) -> outputcnt st <> 0%nat ->
  exists st', macro_loop (piece_text (Var brace name) ++ input) st = macro_loop input st' /\
    wrote (expand (mach st) (Var brace name)) st st' /\ at_rest st'.
Proof.
  intros (Hn & Hok & Hlen) [Hm Hb] Hs Hroom. cbn [expand].
  set (o := if brace then 123 else 40). set (cl := if brace then 125 else 41).
  assert (piece_text (Var brace name) ++ input = DOLLAR :: o :: name ++ cl :: input) as ->
    by (destruct brace; cbn; by rewrite <- app_assoc).
  rewrite loop_plain by done. unfold macro_switch at 1. rewrite Hm. change (0 =? 0) with true. cbn iota.
  rewrite (proj2 (Z.eqb_neq (prev st) BACKSLASH)) by done. change (DOLLAR =? QUOTE) with false. change (DOLLAR =? DOLLAR) with true.
  cbn [andb negb mbind option_bind]. rewrite loop_plain by (done || by destruct brace).
  unfold macro_switch at 1. cbn [set_prev to_state mstate]. change (1 =? 0) with false. change (1 =? 1) with true. cbn iota.
  assert (opens o = true) as -> by (by destruct brace). cbn [mbind option_bind].
  destruct (collect_name name (cl :: input) (set_prev o (set_var [] (to_state 2 (set_prev DOLLAR (to_state 1 st))))))
    as (st2 & -> & Hv2 & Ho2 & Hc2 & Hm2 & Hs2); [done | exact Hroom | apply (Forall_impl _ _ _ Hn); tauto |]. cbn in Hv2, Ho2, Hc2, Hs2.
  rewrite loop_plain by (rewrite ?Hc2; by destruct brace). unfold macro_switch at 1. rewrite Hm2.
  change (2 =? 0) with false. change (2 =? 1) with false. change (2 =? 2) with true. cbn iota.
  assert (closes cl = true) as -> by (by destruct brace). unfold expand_var. cbn [removelast]. rewrite app_nil_r, Hv2, Hs2.
  rewrite (proj2 (Z.ltb_lt _ _)) by done.
  destruct (getenv_ok name (mach st) Hs Hok) as (s' & -> & Hs' & Hvs). cbn [mbind option_bind]. eexists. split; [done |].
  split; [| split; [done | by destruct brace]].
  unfold wrote, set_prev. cbn [m_out outputcnt mach]. rewrite Ho2, Hc2, length_take. split_and!; [done | lia | by split].
Qed.

(** The quotes around quoted text. *)
Lemma loop_quote input st : mstate st = 0 \/ mstate st = 3 -> prev st <> BACKSLASH -> outputcnt st <> 0%nat ->
  macro_loop (QUOTE :: input) st = macro_loop input (set_prev QUOTE (to_state (3 - mstate st) st)).
Proof.
  intros Hm Hp Hc. rewrite loop_plain by done. unfold macro_switch at 1. change (QUOTE =? QUOTE) with true.
  rewrite (proj2 (Z.eqb_neq (prev st) BACKSLASH)) by done. by destruct Hm as [-> | ->].
Qed.

Lemma loop_piece p input st : piece_ok p -> at_rest st -> shell_ok (mach st) -> exists st', wrote (expand (mach st) p) st st' /\
  (outputcnt st' = 0%nat /\ macro_loop (piece_text p ++ input) st = Some st' \/
   macro_loop (piece_text p ++ input) st = macro_loop input st' /\ at_rest st').
Proof.
  intros Hp [Hm Hb] Hs. destruct (decide (outputcnt st = 0%nat)) as [H0 | H0].
  { exists st. split; [by apply wrote_full |]. left. split; [done |]. by apply loop_full. }
  destruct p as [t | brace name | t].
  - destruct (copy_text t input st) as (st' & Hw & Hl); [by left | | done | done |].
    { apply (Forall_impl _ _ _ Hp). tauto. }
    exists st'. split; [done |]. destruct Hl as [? | (? & Hm' & ?)]; [by left | right]. unfold at_rest. by rewrite Hm', Hm.
  - destruct (loop_var brace name input st Hp (conj Hm Hb) Hs H0) as (st' & -> & Hw & Hr). exists st'. split; [done | by right].
  - cbn [piece_text expand piece_ok] in *. change ((QUOTE :: t ++ [QUOTE]) ++ input) with (QUOTE :: (t ++ [QUOTE]) ++ input).
    rewrite <- app_assoc, loop_quote by (done || by left). rewrite Hm. set (st1 := set_prev QUOTE (to_state (3 - 0) st)).
    destruct (copy_text t ([QUOTE] ++ input) st1) as (st2 & Hw2 & Hl); [by right | | done | done |].
    { apply (Forall_impl _ _ _ Hp). cbn. intros c [? ?]. by split_and!. }
    destruct Hl as [[Hc2 Hl] | (Hl & Hm2 & Hp2)]; rewrite Hl; [exists st2; split; [done | by left] |].
    destruct (decide (outputcnt st2 = 0%nat)) as [Hc2 | Hc2].
    { exists st2. split; [done |]. left. split; [done |]. by apply loop_full. }
    cbn [app]. rewrite loop_quote by (done || by right). eexists. split; [| by right; split; [done | by rewrite Hm2]]. done.
Qed.

Lemma loop_pieces ps : forall st, Forall piece_ok ps -> at_rest st -> shell_ok (mach st) -> exists st',
  macro_loop (source ps) st = Some st' /\ wrote (expansion (mach st) ps) st st'.
Proof.
  induction ps as [| p ps IH]; intros st Hok Hr Hs.
  { exists st. split; [done |]. by apply wrote_nil. }
  apply Forall_cons in Hok as [Hp Hok]. unfold source, expansion. cbn [flat_map].
  destruct (loop_piece p (source ps) st Hp Hr Hs) as (st1 & Hw & Hl). pose proof Hw as (_ & _ & Hs1 & Hv1).
  assert (expansion (mach st1) ps = expansion (mach st) ps) as Hex.
  { unfold expansion. apply flat_map_ext. intros [| ? name |]; cbn; [done | by rewrite Hv1 | done]. }
  destruct Hl as [[Hc Hl] | [Hl Hr1]].
  - exists st1. split; [exact Hl |]. apply (wrote_app _ _ _ _ _ Hw). by apply wrote_full.
  - destruct (IH st1 Hok Hr1 Hs1) as (st2 & Hl2 & Hw2). rewrite Hex in Hw2. exists st2. split; [by rewrite <- Hl2 |].
    by apply (wrote_app _ _ _ _ _ Hw).
Qed.

(** The result of the expansion, cut to the size of the buffer. *)
Definition finaltoken (s : M) (ps : list piece) : cstring := take (Z.to_nat (CONFIG_SYS_CBSIZE - 1)) (expansion s ps).

Lemma process_macros_spec ps s : Forall piece_ok ps -> shell_ok s -> exists s',
  process_macros (source ps) s = Some (finaltoken s ps, s') /\ looked s s'.
Proof.
  intros Hok Hs. unfold process_macros.
  destruct (loop_pieces ps (Macro [] (Z.to_nat CONFIG_SYS_CBSIZE) 0 0 [] s)) as (st & -> & Ho & Hc & Hl); [done | done | done |].
  cbn [mbind option_bind m_out outputcnt mach app] in *. exists (mach st). split; [| done]. f_equal. f_equal.
  unfold finaltoken. replace (Z.to_nat (CONFIG_SYS_CBSIZE - 1)) with (Z.to_nat CONFIG_SYS_CBSIZE - 1)%nat by (unfold CONFIG_SYS_CBSIZE; lia).
  set (n := Z.to_nat CONFIG_SYS_CBSIZE) in *. assert (0 < n)%nat by (unfold n, CONFIG_SYS_CBSIZE; lia). set (t := expansion s ps) in *.
  destruct (Nat.eqb_spec (outputcnt st) 0) as [H0 | H0]; rewrite Ho.
  - assert (n <= length t)%nat by lia. destruct (lookup_lt_is_Some_2 t (n - 1) ltac:(lia)) as [c Hcn].
    pose proof (take_S_r t (n - 1) c Hcn) as Ht. replace (S (n - 1)) with n in Ht by lia. rewrite Ht. apply removelast_last.
  - rewrite !take_ge by lia. done.
Qed.
End Expansion.

(** C33: [process_macros] replaces the variables of a command by their values
    (nothing, when they are not set) and drops the quotes around quoted text,
    inside of which nothing is replaced; a result that does not fit the buffer
    is cut at its end, and nothing is written outside of it. *)
Theorem process_macros_correct {M} {SH : Shell M} {SL : ShellLaws M} (ps : list piece) (s : M) :
  Forall piece_ok ps -> shell_ok s -> exists s',
  process_macros (source ps) s = Some (take (Z.to_nat (CONFIG_SYS_CBSIZE - 1)) (expansion s ps), s') /\ looked s s'.
Proof. apply process_macros_spec. Qed.

(** ** Lists of commands *)

(** The commands with semicolons between them. *)
Fixpoint script (cmds : list (list piece)) : cstring :=
  match cmds with
  | [] => []
  | [c] => source c
  | c :: cmds => source c ++ SEMICOLON :: script cmds
  end.

Definition command_ok (ps : list piece) : Prop := Forall piece_ok ps /\ source ps <> [].

(** Text in which no separator is found, and which leaves no quote open. *)
Definition passes (t : cstring) : Prop := forall first prev rest, prev <> BACKSLASH -> exists first' prev',
  prev' <> BACKSLASH /\ (t <> [] \/ first = false -> first' = false) /\
  find_sep first false prev (t ++ rest) = (let '(token, r) := find_sep first' false prev' rest in (t ++ token, r)).

Lemma passes_nil : passes [].
Proof.
  intros first p rest Hp. exists first, p. split; [done |]. split; [by intros [|] |]. cbn. by destruct (find_sep _ _ _ _).
Qed.

Lemma passes_app t1 t2 : passes t1 -> passes t2 -> passes (t1 ++ t2).
Proof.
  intros H1 H2 first p rest Hp. rewrite <- app_assoc.
  destruct (H1 first p (t2 ++ rest) Hp) as (f1 & p1 & Hp1 & Hf1 & ->). destruct (H2 f1 p1 rest Hp1) as (f2 & p2 & Hp2 & Hf2 & ->).
  exists f2, p2. split; [done |]. split.
  - intros H. apply Hf2. destruct H as [H | H]; [| right; apply Hf1; by right].
    destruct t1 as [| c t1]; [left; by intros -> | right; apply Hf1; by left].
  - destruct (find_sep f2 false p2 rest). by rewrite <- app_assoc.
Qed.

Lemma passes_char c : c <> QUOTE -> c <> SEMICOLON -> c <> BACKSLASH -> passes [c].
Proof.
  intros H1 H2 H3 first p rest Hp. exists false, c. split; [done |]. split; [done |]. cbn [app find_sep].
  rewrite (proj2 (Z.eqb_neq c QUOTE)), (proj2 (Z.eqb_neq c SEMICOLON)) by done. cbn [andb negb]. by destruct (find_sep _ _ _ _).
Qed.

Lemma passes_plain t : Forall (fun c => c <> QUOTE /\ c <> SEMICOLON /\ c <> BACKSLASH) t -> passes t.
Proof.
  induction 1 as [| c t (? & ? & ?) _ IH]; [apply passes_nil |]. change (c :: t) with ([c] ++ t).
  apply passes_app; [by apply passes_char | done].
Qed.

Lemma find_sep_quoted t : forall p rest, Forall (fun c => c <> BACKSLASH /\ c <> QUOTE) t -> p <> BACKSLASH ->
  find_sep false true p (t ++ QUOTE :: rest) = (let '(token, r) := find_sep false false QUOTE rest in (t ++ QUOTE :: token, r)).
Proof.
  induction t as [| c t IH]; intros p rest Ht Hp; cbn [app find_sep].
  - change (QUOTE =? QUOTE) with true. rewrite (proj2 (Z.eqb_neq p BACKSLASH)) by done. change (QUOTE =? SEMICOLON) with false. cbn.
    by destruct (find_sep _ _ _ _).
  - apply Forall_cons in Ht as [[H1 H2] Ht]. rewrite (proj2 (Z.eqb_neq c QUOTE)) by done. cbn [andb negb]. rewrite IH by done.
    by destruct (find_sep _ _ _ _).
Qed.

Lemma passes_piece p : piece_ok p -> passes (piece_text p).
Proof.
  destruct p as [t | brace name | t]; cbn [piece_ok piece_text].
  - intros Ht. apply passes_plain. apply (Forall_impl _ _ _ Ht). tauto.
  - intros (Hn & _).
    assert (passes (DOLLAR :: (if brace then 123 else 40) :: name ++ [if brace then 125 else 41])) as Hp; [| by destruct brace].
    apply passes_plain. repeat apply Forall_cons; split; [done |]. apply Forall_cons. split; [by destruct brace |].
    apply Forall_app. split; [apply (Forall_impl _ _ _ Hn); tauto |]. apply Forall_cons. split; [by destruct brace | by apply Forall_nil].
  - intros Ht first p rest Hp. exists false, QUOTE. split; [done |]. split; [done |]. cbn [app find_sep].
    change (QUOTE =? QUOTE) with true. rewrite (proj2 (Z.eqb_neq p BACKSLASH)) by done. cbn [andb negb].
    rewrite <- app_assoc. cbn [app]. rewrite find_sep_quoted by done. destruct (find_sep _ _ _ _). by rewrite <- app_assoc.
Qed.

Lemma passes_source ps : Forall piece_ok ps -> passes (source ps).
Proof.
  induction 1 as [| p ps Hp _ IH]; [apply passes_nil |]. unfold source. cbn [flat_map].
  apply passes_app; [by apply passes_piece | done].
Qed.

(** The tokens of a script are its commands. *)
Lemma find_sep_script ps cmds before : command_ok ps -> before <> BACKSLASH ->
  find_sep true false before (script (ps :: cmds)) = (source ps, match cmds with [] => None | _ => Some (script cmds) end).
Proof.
  intros [Hok Hne] Hb. destruct cmds as [| c cmds].
  - cbn [script]. rewrite <- (app_nil_r (source ps)) at 1.
    destruct (passes_source ps Hok true before [] Hb) as (f & p & _ & _ & ->). cbn. by rewrite app_nil_r.
  - change (script (ps :: c :: cmds)) with (source ps ++ SEMICOLON :: script (c :: cmds)).
    destruct (passes_source ps Hok true before (SEMICOLON :: script (c :: cmds)) Hb) as (f & p & Hp & Hf & ->).
    rewrite (Hf (or_introl Hne)). cbn [find_sep]. change (SEMICOLON =? QUOTE) with false. change (SEMICOLON =? SEMICOLON) with true.
    rewrite (proj2 (Z.eqb_neq p BACKSLASH)) by done. cbn. by rewrite app_nil_r.
Qed.

Section Execution.
Context {M : Type} {SH : Shell M} {SL : ShellLaws M}.
Context (table : list cmd_tbl) (do_bootd below : Z) (call : Z -> cmd_tbl -> Z -> list cstring -> M -> option (Z * M)) (flag : Z).
Abbreviation process := (cmd_process table call do_bootd flag).

(** The commands are executed one after the other, each with the words of its
    expansion as arguments; a command without words counts as a failure;
    Control-C ends the list.  [rc] is -1 after a failure, and [repeat] the
    result of success. *)
Inductive executes : list (list piece) -> Z -> Z -> M -> Z * M -> Prop :=
| ex_done rc repeat s : executes [] rc repeat s ((if negb (rc =? 0) then rc else repeat), s)
| ex_blank ps cmds rc repeat s s1 res : looked s s1 -> words_of (finaltoken s ps) [] ->
    executes cmds (-1) repeat s1 res -> executes (ps :: cmds) rc repeat s res
| ex_stop ps cmds rc repeat s s1 w ws r repeat' s2 : looked s s1 -> words_of (finaltoken s ps) (w :: ws) ->
    process (take 64 (w :: ws)) repeat s1 = Some (r, repeat', s2) -> had_ctrlc s2 = true ->
    executes (ps :: cmds) rc repeat s (-1, s2)
| ex_next ps cmds rc repeat s s1 w ws r repeat' s2 res : looked s s1 -> words_of (finaltoken s ps) (w :: ws) ->
    process (take 64 (w :: ws)) repeat s1 = Some (r, repeat', s2) -> had_ctrlc s2 = false ->
    executes cmds (if r =? 0 then rc else -1) repeat' s2 res -> executes (ps :: cmds) rc repeat s res.

(** The commands return. *)
Definition calls_ok : Prop := forall fn cmdtp flag argv s, shell_ok s ->
  exists r s', call fn cmdtp flag argv s = Some (r, s') /\ shell_ok s'.

Lemma cmd_usage_total cmdtp : exists t, cmd_usage cmdtp = Some (1, t).
Proof.
  unfold cmd_usage. destruct (help cmdtp); eexists; reflexivity.
Qed.

Lemma find_loop_bound cmd len rest : forall i temp n k, find_loop cmd len rest i temp n = Some k ->
  (k < i + length rest)%nat \/ (n = 1 /\ k = temp).
Proof.
  induction rest as [| c rest IH]; intros i temp n k; cbn [find_loop length].
  - destruct (Z.eqb_spec n 1); [| done]. intros [= <-]. by right.
  - destruct (is_prefix _ _); [destruct (Nat.eqb _ _) |].
    + intros [= <-]. left. lia.
    + intros H. destruct (IH _ _ _ _ H) as [? | [_ ->]]; left; lia.
    + intros H. destruct (IH _ _ _ _ H) as [? | [? ->]]; [left; lia | by right].
Qed.

Lemma cmd_process_total argv repeat s : calls_ok -> shell_ok s -> exists r repeat' s',
  process argv repeat s = Some (r, repeat', s') /\ shell_ok s'.
Proof.
  intros Hcalls Hs. unfold cmd_process. destruct (find_cmd table (head argv)) as [i |] eqn:Hf; [| by eexists _, _, _].
  assert (is_Some (table !! i)) as [cmdtp ->].
  { apply lookup_lt_is_Some. unfold find_cmd, find_cmd_tbl in Hf. destruct (head argv); [| done].
    destruct (find_loop_bound _ _ _ _ _ _ _ Hf) as [? | [? _]]; [lia | done]. }
  cbn [mbind option_bind]. destruct (cmd_usage_total cmdtp) as [t Hu].
  destruct (if maxargs cmdtp <? zlen argv then _ else _) as [rc fl].
  destruct (rc =? 0) eqn:Hrc.
  - destruct (Hcalls (cmd cmdtp) cmdtp fl argv s Hs) as (r & s' & Hc & Hs'). unfold cmd_call. rewrite Hc. cbn [mbind option_bind].
    destruct (r =? CMD_RET_USAGE); [rewrite Hu; cbn [mbind option_bind] |]; by eexists _, _, _.
  - cbn [mbind option_bind]. destruct (rc =? CMD_RET_USAGE); [rewrite Hu; cbn [mbind option_bind] |]; by eexists _, _, _.
Qed.

(** A round of the loop. *)
Lemma run_tokens_step ps cmds fuel before rc repeat s : command_ok ps -> before <> BACKSLASH -> shell_ok s -> exists s1 ws,
  looked s s1 /\ words_of (finaltoken s ps) ws /\
  run_tokens table do_bootd call (S fuel) flag before (script (ps :: cmds)) rc repeat s =
    match take 64 ws with
    | [] => run_tokens table do_bootd call fuel flag 0 (script cmds) (-1) repeat s1
    | argv => '(r, repeat, s2) ← process argv repeat s1;
        if had_ctrlc s2 then Some (-1, s2)
        else run_tokens table do_bootd call fuel flag 0 (script cmds) (if r =? 0 then rc else -1) repeat s2
    end.
Proof.
  intros Hps Hb Hs. pose proof (find_sep_script ps cmds before Hps Hb) as Hsep.
  assert (script (ps :: cmds) <> []) as Hne.
  { destruct Hps as [_ Hne]. cbn [script]. destruct cmds; [done |]. intros [? _]%app_eq_nil. done. }
  assert (default [] (match cmds with [] => None | _ => Some (script cmds) end) = script cmds) as Hrest by (by destruct cmds).
  destruct (process_macros_spec ps s (proj1 Hps) Hs) as (s1 & Hpm & Hl). destruct (words_exist (finaltoken s ps)) as [ws Hws].
  exists s1, ws. split; [done |]. split; [done |]. cbn [run_tokens].
  destruct (script (ps :: cmds)) as [| c0 t0]; [done |]. rewrite Hsep, Hrest, Hpm. cbn [mbind option_bind].
  destruct (parse_loop_words _ ws Hws (Z.to_nat CONFIG_SYS_MAXARGS)) as [Hp _]. unfold parse_line. by rewrite Hp.
Qed.

Lemma script_shorter ps cmds : command_ok ps -> (length (script cmds) < length (script (ps :: cmds)))%nat.
Proof.
  intros [_ Hne]. destruct cmds as [| c cmds].
  - cbn [script]. destruct (source ps); [done | cbn; lia].
  - change (script (ps :: c :: cmds)) with (source ps ++ SEMICOLON :: script (c :: cmds)). rewrite length_app. cbn [length]. lia.
Qed.

Lemma run_tokens_script : calls_ok -> forall cmds fuel before rc repeat s, Forall command_ok cmds -> before <> BACKSLASH -> shell_ok s ->
  (length (script cmds) < fuel)%nat -> exists res,
  run_tokens table do_bootd call fuel flag before (script cmds) rc repeat s = Some res /\ executes cmds rc repeat s res /\ shell_ok res.2.
Proof.
  intros Hcalls. induction cmds as [| ps cmds IH]; intros [| fuel] before rc repeat s Hok Hb Hs Hf; try lia.
  { cbn [script run_tokens]. eexists. split; [done |]. split; [constructor | done]. }
  apply Forall_cons in Hok as [Hps Hok]. pose proof (script_shorter ps cmds Hps) as Hsh. assert (length (script cmds) < fuel)%nat as Hf' by lia.
  destruct (run_tokens_step ps cmds fuel before rc repeat s Hps Hb Hs) as (s1 & ws & Hl & Hws & ->). pose proof Hl as [Hs1 _].
  destruct ws as [| w ws].
  - destruct (IH fuel 0 (-1) repeat s1 Hok ltac:(done) Hs1 Hf') as (res & Hr & He & Hr2).
    exists res. split; [exact Hr |]. split; [by eapply ex_blank | done].
  - destruct (cmd_process_total (take 64 (w :: ws)) repeat s1 Hcalls Hs1) as (r & repeat' & s2 & Hproc & Hs2).
    cbn [take] in *. rewrite Hproc. cbn [mbind option_bind]. destruct (had_ctrlc s2) eqn:Hc.
    + eexists. split; [done |]. split; [by eapply ex_stop | done].
    + destruct (IH fuel 0 (if r =? 0 then rc else -1) repeat' s2 Hok ltac:(done) Hs2 Hf') as (res & -> & He & Hr).
      exists res. split; [done |]. split; [by eapply ex_next | done].
Qed.
End Execution.

(** C26: Running a command line: the line is split at the semicolons outside of
    quotes, and its commands are executed one after the other as [executes]
    says, with their variables expanded at the time they are run; the result is
    -1 when one of them failed, was missing, or was the one during which Control-C
    was pressed, which ends the list.  The line is shorter than CONFIG_SYS_CBSIZE,
    and the functions of the commands return. *)
Theorem builtin_run_command_correct {M} {SH : Shell M} {SL : ShellLaws M} table do_bootd below call flag cmds (s : M) :
  calls_ok call -> cmds <> [] -> Forall command_ok cmds -> zlen (script cmds) < CONFIG_SYS_CBSIZE -> below <> BACKSLASH -> shell_ok s ->
  exists res, builtin_run_command table do_bootd below call (Some (script cmds)) flag s = Some res /\
    executes table do_bootd call flag cmds 0 1 (clear_ctrlc s) res /\ shell_ok res.2.
Proof.
  intros Hcalls Hne Hok Hlen Hb Hs. unfold builtin_run_command. destruct cmds as [| ps cmds]; [done |].
  assert (script (ps :: cmds) <> []) as Hnn.
  { apply Forall_cons in Hok as [[_ Hn] _]. cbn [script]. destruct cmds; [done |]. intros [? _]%app_eq_nil. done. }
  destruct (clear_ok s Hs) as [Hs' _].
  destruct (run_tokens_script table do_bootd call flag Hcalls (ps :: cmds) (S (length (script (ps :: cmds)))) below 0 1 (clear_ctrlc s) Hok Hb Hs')
    as (res & Hr & He & Hsr); [lia |].
  exists res. split; [| done]. destruct (script (ps :: cmds)) as [| c t]; [done |].
  by rewrite (proj2 (Z.leb_gt _ _)) by done.
Qed.

(** ** Nesting without end *)

(** There is no limit on nested command lines: when a variable runs itself
    ("setenv a 'run a'"), executing it overflows every stack. *)
Theorem run_itself_overflows {M} {SH : Shell M} {SL : ShellLaws M} table do_bootd below prim do_run_fn a i entry :
  is_word a -> piece_ok (Lit a) -> str_ok a -> zlen a < CONFIG_SYS_CBSIZE - 5 ->
  find_cmd table (Some (str "run")) = Some i -> table !! i = Some entry -> cmd entry = do_run_fn -> do_run_fn <> do_bootd -> below <> BACKSLASH ->
  2 <= maxargs entry ->
  forall depth flag (s : M), shell_ok s -> (forall k, variable s k = if decide (k = a) then Some (str "run " ++ a) else None) ->
  run_command table do_bootd below prim do_run_fn depth (str "run " ++ a) flag s = None.
Proof.
  intros [Hane Hab] Hap Hok Hal Hi He Hc Hb Hbelow Hargs. induction depth as [| depth IH]; intros flag s Hs Hvar; [done |].
  destruct (clear_ok s Hs) as [Hs1 Hv1]. set (line := str "run " ++ a).
  assert (script [[Lit line]] = line) as Hsrc by apply app_nil_r.
  assert (command_ok [Lit line]) as Hcok.
  { split; [| by unfold source; cbn]. apply Forall_cons. split; [| by apply Forall_nil]. cbn.
    repeat (apply Forall_cons; split; [done |]). done. }
  assert (zlen line < CONFIG_SYS_CBSIZE - 1) as Hlen by (unfold line; rewrite length_app; change (length (str "run ")) with 4%nat; lia).
  assert (words_of line [str "run"; a]) as Hw.
  { apply (words_more [] (str "run") 32 a [a]); [by apply Forall_nil | | done |].
    - split; [done |]. repeat (apply Forall_cons; split; [done |]). by apply Forall_nil.
    - apply (words_last [] a); [by apply Forall_nil | done]. }
  destruct (run_tokens_step table do_bootd (call_command prim do_run_fn (run_command table do_bootd below prim do_run_fn depth)) flag
    [Lit line] [] (length line) below 0 1 (clear_ctrlc s) Hcok Hbelow Hs1) as (s2 & ws & [Hs2 Hv2] & Hws & Hrun).
  assert (finaltoken (clear_ctrlc s) [Lit line] = line) as Hft.
  { unfold finaltoken, expansion. cbn [flat_map expand]. rewrite app_nil_r. apply take_ge. unfold CONFIG_SYS_CBSIZE in *. lia. }
  rewrite Hft in Hws. rewrite (words_unique _ _ _ Hws Hw) in Hrun. rewrite Hsrc in Hrun.
  cbn [run_command]. unfold builtin_run_command. fold line.
  assert (line <> []) as Hnn by done. destruct line as [| c0 l0] eqn:Hline; [done |]. rewrite (proj2 (Z.leb_gt _ _)) by lia.
  rewrite Hrun. change (take 64 [str "run"; a]) with [str "run"; a]. unfold cmd_process. cbn [head]. rewrite Hi.
  rewrite He. cbn [mbind option_bind length]. rewrite (proj2 (Z.ltb_ge _ _)) by lia.
  rewrite (proj2 (Z.eqb_neq (cmd entry) do_bootd)) by congruence. change (0 =? 0) with true. cbn iota.
  unfold cmd_call, call_command. rewrite Hc, Z.eqb_refl. unfold do_run. change (zlen [str "run"; a] <? 2) with false. cbn iota. cbn [tail do_run_loop].
  destruct (getenv_ok a s2 Hs2 Hok) as (s3 & -> & Hs3 & Hv3). cbn [mbind option_bind].
  rewrite Hv2, Hv1, Hvar, decide_True by done. rewrite IH; [done | done |]. intros k. by rewrite Hv3, Hv2, Hv1.
Qed.

(** ** The boot delay *)

Section Boot.
Context {M : Type} {SH : Shell M} {SL : ShellLaws M}.

(** The machine after a poll of the keyboard and the delay of 10 ms. *)
Definition idle (s : M) : M := udelay 10000 (tstc s).2.
(** Whether the poll number [k] finds a key. *)
Definition pressed (k : nat) (s : M) : bool := (tstc (Nat.iter k idle s)).1.

Lemma wait_idle n : forall s, (forall k, (k < n)%nat -> pressed k s = false) -> wait_key n s = (false, Nat.iter n idle s).
Proof.
  induction n as [| n IH]; intros s Hq; [done |]. cbn [wait_key]. pose proof (Hq 0%nat ltac:(lia)) as H0. unfold pressed in H0. cbn in H0.
  destruct (tstc s) as [key s'] eqn:Ht. cbn in H0. subst key.
  assert (udelay 10000 s' = idle s) as -> by (unfold idle; by rewrite Ht).
  rewrite IH; [by rewrite Nat.iter_succ_r |]. intros k Hk. specialize (Hq (S k) ltac:(lia)). unfold pressed in *.
  by rewrite Nat.iter_succ_r in Hq.
Qed.

Lemma wait_pressed n k : forall s, (k < n)%nat -> pressed k s = true -> (forall j, (j < k)%nat -> pressed j s = false) ->
  wait_key n s = (true, (getc (tstc (Nat.iter k idle s)).2).2).
Proof.
  revert k. induction n as [| n IH]; intros k s Hk Hp Hq; [lia |]. cbn [wait_key]. destruct k as [| k].
  - unfold pressed in Hp. cbn in Hp |- *. destruct (tstc s) as [key s']. cbn in *. by subst.
  - pose proof (Hq 0%nat ltac:(lia)) as H0. unfold pressed in H0. cbn in H0. destruct (tstc s) as [key s'] eqn:Ht. cbn in H0. subst key.
    assert (udelay 10000 s' = idle s) as -> by (unfold idle; by rewrite Ht).
    rewrite (IH k); [by rewrite Nat.iter_succ_r | lia | |].
    + unfold pressed in *. by rewrite Nat.iter_succ_r in Hp.
    + intros j Hj. specialize (Hq (S j) ltac:(lia)). unfold pressed in *. by rewrite Nat.iter_succ_r in Hq.
Qed.

Lemma wait_key_add n1 n2 s : wait_key (n1 + n2) s = (let '(b, s') := wait_key n1 s in if b then (true, s') else wait_key n2 s').
Proof.
  revert s. induction n1 as [| n1 IH]; intros s; [done |]. cbn [wait_key Nat.add]. destruct (tstc s) as [[] s']; [done | apply IH].
Qed.

(** The rounds of one second together. *)
Lemma countdown_wait d : forall s, countdown d s = wait_key (100 * d) s.
Proof.
  induction d as [| d IH]; intros s; [done |]. replace (100 * S d)%nat with (100 + 100 * d)%nat by lia.
  rewrite wait_key_add. change (countdown (S d) s) with (let '(b, s') := wait_key 100 s in if b then (true, s') else countdown d s').
  destruct (wait_key 100 s) as [[] s']; [done | apply IH].
Qed.
End Boot.

(** C25: What happens after power-on: the boot command is executed, when it is
    defined and "bootdelay" (3 when it is not set) is not -1, after exactly 100
    polls per second of the delay in which no key is pressed (at once for a
    delay of 0 or a negative one); the first key pressed before that is consumed
    and leads to the prompt. *)
Theorem autoboot_runs_bootcmd {M} {SH : Shell M} {SL : ShellLaws M} run_list (s : M) : shell_ok s -> exists s1, looked s s1 /\
  let delay := match variable s (str "bootdelay") with Some v => (simple_strtol v 10).1 | None => CONFIG_BOOTDELAY end in
  let polls := (100 * Z.to_nat delay)%nat in
  match variable s (str "bootcmd") with
  | None => autoboot run_list s = Some s1
  | Some cmd =>
      (delay = -1 -> autoboot run_list s = Some s1) /\
      (delay <> -1 -> (forall k, (k < polls)%nat -> pressed k s1 = false) ->
        autoboot run_list s = '(_, s) ← run_list cmd (Nat.iter polls idle s1); Some s) /\
      (delay <> -1 -> forall k, (k < polls)%nat -> pressed k s1 = true -> (forall j, (j < k)%nat -> pressed j s1 = false) ->
        autoboot run_list s = Some (getc (tstc (Nat.iter k idle s1)).2).2)
  end.
Proof.
  intros Hs. unfold autoboot.
  destruct (getenv_ok (str "bootdelay") s Hs ltac:(str_lits)) as (s0 & -> & Hs0 & Hv0). cbn [mbind option_bind].
  destruct (getenv_ok (str "bootcmd") s0 Hs0 ltac:(str_lits)) as (s1 & -> & Hs1 & Hv1). cbn [mbind option_bind].
  exists s1. split; [split; [done | intros k; by rewrite Hv1] |]. cbn zeta. rewrite Hv0.
  set (delay := match variable s (str "bootdelay") with Some v => _ | None => _ end).
  destruct (variable s (str "bootcmd")) as [cmd |]; [| done]. unfold abortboot. rewrite countdown_wait. split_and!.
  - intros ->. done.
  - intros Hd Hq. rewrite (proj2 (Z.eqb_neq delay (-1))) by done. by rewrite wait_idle.
  - intros Hd k Hk Hp Hq. rewrite (proj2 (Z.eqb_neq delay (-1))) by done. by rewrite (wait_pressed _ k).
Qed.

(** The key ENTER alone repeats the wrong commands: [main_loop] forgets the
    last command when it succeeded, since [run_command] returns 0 for success,
    and keeps it when it failed.  After a command that succeeded ENTER does
    nothing, after one that failed it executes it again. *)
Theorem enter_repeats_failures {M} {SH : Shell M} table do_bootd below prim do_run_fn depth cmd last rc0 rc (s s' : M) :
  0 < zlen cmd < CONFIG_SYS_CBSIZE -> run_command table do_bootd below prim do_run_fn (S depth) cmd 0 s = Some (rc, s') ->
  exists kept, main_round table do_bootd below prim do_run_fn (S depth) (zlen cmd) cmd last rc0 s = Some (kept, rc, s') /\
    (rc = 0 -> main_round table do_bootd below prim do_run_fn (S depth) 0 [] kept rc s' = Some ([], 1, clear_ctrlc s')) /\
    (rc <> 0 -> forall rc2 s2, run_command table do_bootd below prim do_run_fn (S depth) cmd CMD_FLAG_REPEAT s' = Some (rc2, s2) ->
      exists kept2, main_round table do_bootd below prim do_run_fn (S depth) 0 [] kept rc s' = Some (kept2, rc2, s2)).
Proof.
  intros Hlen Hrun. assert (rc = 0 \/ rc = 1) as Hrc.
  { cbn [run_command] in Hrun. destruct (builtin_run_command _ _ _ _ _ _ _) as [[r s1] |]; [| done]. cbn [mbind option_bind] in Hrun.
    simplify_eq. destruct (r =? -1); auto. }
  unfold main_round at 1, keep_command. rewrite (proj2 (Z.ltb_lt 0 _)), (proj2 (Z.ltb_lt _ CONFIG_SYS_CBSIZE)) by lia. cbn [mbind option_bind].
  rewrite (proj2 (Z.eqb_neq (zlen cmd) 0)), (proj2 (Z.eqb_neq (zlen cmd) (-1))) by lia. rewrite Hrun. cbn [mbind option_bind].
  destruct Hrc as [-> | ->]; (eexists; split; [done |]; split; [| try done]); [done | done |].
  intros _ rc2 s2 H2. unfold main_round, keep_command. change (0 <? 0) with false. cbn [mbind option_bind].
  change (0 =? 0) with true. change (0 =? -1) with false. change (1 <=? 0) with false. cbn iota. rewrite H2. cbn [mbind option_bind]. by eexists.
Qed.

(** ** The environment as the machine's variables *)

Record machine := Machine { m_env : env; ctrlc_pressed : bool; keys_down : list bool }.

Section EnvMachine.
Context (CONFIG_ENV_SIZE : Z) (default_environment : list Z).

(** Polls find the keys of the list, then none. *)
Definition machine_shell : Shell machine := {|
  sh_getenv := fun name m =>
    '(v, e) ← getenv CONFIG_ENV_SIZE default_environment name (m_env m); Some (v, Machine e (ctrlc_pressed m) (keys_down m));
  clear_ctrlc := fun m => Machine (m_env m) false (keys_down m);
  had_ctrlc := ctrlc_pressed;
  malloc_ok := fun m => (true, m);
  tstc := fun m => (match keys_down m with b :: _ => b | [] => false end, Machine (m_env m) (ctrlc_pressed m) (tail (keys_down m)));
  getc := fun m => (0, m);
  udelay := fun _ m => m |}.

Definition env_ready (m : machine) : Prop := exists t, env_wf (m_env m) t /\ flg_env_ready (m_env m) = true.
Definition env_variable (m : machine) (name : cstring) : option cstring := t ← table (env_htab (m_env m)); abs t !! name.

Lemma env_variable_wf m t name : env_wf (m_env m) t -> env_variable m name = abs t !! name.
Proof. intros [(Ht & _) _]. unfold env_variable. by rewrite Ht. Qed.

(** The environment keeps what the interpreter relies on. *)
#[refine] Definition machine_laws : @ShellLaws machine machine_shell := {| shell_ok := env_ready; variable := env_variable |}.
Proof.
  - intros name m (t & Hwf & Hr) Hk.
    destruct (getenv_ready CONFIG_ENV_SIZE default_environment (m_env m) t name Hwf Hr Hk) as (e' & He & Hwf' & _ & (_ & Hr' & _) & _).
    cbn. rewrite He. cbn [mbind option_bind]. eexists. rewrite (env_variable_wf m t) by done. split; [done |]. split.
    + exists t. split; [done | cbn; congruence].
    + intros k. by rewrite (env_variable_wf m t), (env_variable_wf _ t).
  - intros m (t & Hwf & Hr). split; [by exists t | done].
Defined.
End EnvMachine.

Module CliExamples.
Import HashtableExamples EnvExamples.

#[local] Instance shell : Shell machine := machine_shell 64 default_text.
#[local] Instance laws : ShellLaws machine := machine_laws 64 default_text.

(** The variables "bootcmd" and "a". *)
Definition vars : list envop :=
  [SetVar (str "bootcmd") (Some (str "true;false")); SetVar (str "bootdelay") (Some (str "0"))].
Definition booted : machine := Machine (default fresh_env (snd <$> run_env 64 [] true no_console vars fresh_env)) false [].

Lemma booted_ok : shell_ok booted /\ (forall k, variable booted k = (<[str "bootdelay" := str "0"]> (<[str "bootcmd" := str "true;false"]> ∅) : gmap cstring cstring) !! k).
Proof.
  pose proof (run_env_refines 64 [] true no_console vars fresh_env (fresh_table 5)) as H.
  destruct H as (e' & t' & He & Hwf & Ha & Hg).
  - split; [apply empty5_wf | reflexivity].
  - reflexivity.
  - repeat (apply Forall_cons; split; [cbn [envop_name]; str_lits |]). by apply Forall_nil.
  - vm_compute. discriminate.
  - assert (flg_env_ready e' = true) as Hr.
    { vm_compute in He. injection He as <-. reflexivity. }
    assert (m_env booted = e') as Hb by (unfold booted; rewrite He; reflexivity).
    split; [exists t'; rewrite Hb; by split |]. intros k. cbn [variable laws machine_laws].
    rewrite (env_variable_wf booted t' k) by (rewrite Hb; done). rewrite Ha. reflexivity.
Qed.

(** Commands that only succeed or fail. *)
Definition simple (fn : Z) (cmdtp : cmd_tbl) (flag : Z) (argv : list cstring) (s : machine) : option (Z * machine) := Some (fn, s).
Definition commands : list cmd_tbl :=
  [Cmd (str "true") 64 1 0 None None 0; Cmd (str "false") 64 1 1 None None 0; Cmd (str "run") 64 1 200 None None 0].

Definition line : list (list piece) := [[Lit (str "true "); Var true (str "bootcmd")]; [Quoted (str "false;")]; [Lit (str "false")]].

Lemma lits_ok (P : Z -> Prop) {HP : forall c, Decision (P c)} l : forallb (fun c => bool_decide (P c)) l = true -> Forall P l.
Proof. intros Hl. apply Forall_forall. intros c Hc%list_elem_of_In. rewrite forallb_forall in Hl. by eapply bool_decide_eq_true, Hl. Qed.
Ltac lits := lazymatch goal with |- Forall ?P ?l => exact (lits_ok P l eq_refl) | _ => hnf; lazymatch goal with |- Forall ?P ?l => exact (lits_ok P l eq_refl) end end.

Lemma builtin_run_command_correct_witness : exists res,
  builtin_run_command commands 300 0 simple (Some (str "true ${bootcmd};'false;';false")) 0 booted = Some res /\
  executes commands 300 simple 0 line 0 1 (clear_ctrlc booted) res /\ res.1 = -1.
Proof.
  destruct (builtin_run_command_correct commands 300 0 simple 0 line booted) as (res & Hr & He & _).
  - intros fn c f argv s Hs. by exists fn, s.
  - discriminate.
  - repeat (apply Forall_cons; split; [split; [| discriminate] |]); [| | | by apply Forall_nil].
    + apply Forall_cons. split; [lits |]. apply Forall_cons. split; [| by apply Forall_nil].
      split; [lits |]. split; [str_lits | reflexivity].
    + apply Forall_cons. split; [lits | by apply Forall_nil].
    + apply Forall_cons. split; [lits | by apply Forall_nil].
  - reflexivity.
  - discriminate.
  - apply booted_ok.
  - exists res. split; [exact Hr |]. split; [exact He |].
    assert (fst <$> builtin_run_command commands 300 0 simple (Some (script line)) 0 booted = Some (-1)) as Hv by (vm_compute; reflexivity).
    rewrite Hr in Hv. by injection Hv.
Defined.

Lemma process_macros_correct_witness : exists s',
  process_macros (str "x$(bootdelay)'$a'") booted = Some (str "x0$a", s') /\ looked booted s'.
Proof.
  destruct (process_macros_correct [Lit (str "x"); Var false (str "bootdelay"); Quoted (str "$a")] booted) as (s' & H1 & H2).
  - apply Forall_cons. split; [lits |]. apply Forall_cons. split; [split; [lits |]; split; [str_lits | reflexivity] |].
    apply Forall_cons. split; [lits | by apply Forall_nil].
  - apply booted_ok.
  - exists s'. split; [| exact H2]. unfold expansion in H1. cbn [flat_map expand] in H1. rewrite (proj2 booted_ok) in H1. exact H1.
Defined.

Definition self_machine : machine := Machine (default fresh_env (snd <$> run_env 64 [] true no_console
  [SetVar (str "a") (Some (str "run a"))] fresh_env)) false [].

Lemma self_ok : shell_ok self_machine /\ forall k, variable self_machine k = if decide (k = str "a") then Some (str "run a") else None.
Proof.
  pose proof (run_env_refines 64 [] true no_console [SetVar (str "a") (Some (str "run a"))] fresh_env (fresh_table 5)) as H.
  destruct H as (e' & t' & He & Hwf & Ha & Hg).
  - split; [apply empty5_wf | reflexivity].
  - reflexivity.
  - repeat (apply Forall_cons; split; [cbn [envop_name]; str_lits |]). by apply Forall_nil.
  - vm_compute. discriminate.
  - assert (flg_env_ready e' = true) as Hr.
    { vm_compute in He. injection He as <-. reflexivity. }
    assert (m_env self_machine = e') as Hb by (unfold self_machine; rewrite He; reflexivity).
    split; [exists t'; rewrite Hb; by split |]. intros k. cbn [variable laws machine_laws].
    rewrite (env_variable_wf self_machine t' k) by (rewrite Hb; done). rewrite Ha.
    change (spec_env true no_console _ _ _).1.2 with (<[str "a" := str "run a"]> (∅ : gmap cstring cstring)).
    case_decide as Hk; [subst; apply lookup_insert_eq | by rewrite lookup_insert_ne].
Qed.

Lemma run_itself_overflows_witness :
  run_command commands 300 0 (fun fn _ => simple fn) 200 100 (str "run a") 0 self_machine = None.
Proof.
  apply (run_itself_overflows commands 300 0 (fun fn _ => simple fn) 200 (str "a") 2 (Cmd (str "run") 64 1 200 None None 0)).
  - split; [discriminate | repeat constructor].
  - lits.
  - str_lits.
  - reflexivity.
  - vm_compute. reflexivity.
  - reflexivity.
  - reflexivity.
  - discriminate.
  - discriminate.
  - cbn. lia.
  - apply self_ok.
  - apply self_ok.
Defined.

(** The parser that only remembers that it was called. *)
Definition note_call (cmd : cstring) (m : machine) : option (Z * machine) := Some (0, Machine (m_env m) true (keys_down m)).

Lemma autoboot_runs_bootcmd_witness : exists s1, looked booted s1 /\
  autoboot note_call booted = Some (Machine (m_env s1) true (keys_down s1)).
Proof.
  destruct (autoboot_runs_bootcmd note_call booted (proj1 booted_ok)) as (s1 & Hl & Hb).
  exists s1. split; [exact Hl |]. rewrite !(proj2 booted_ok) in Hb.
  destruct Hb as (_ & Hb & _). rewrite Hb; [reflexivity | discriminate |].
  intros k Hk. apply Nat.nlt_0_r in Hk. contradiction.
Defined.

Lemma enter_repeats_failures_witness : exists kept,
  main_round commands 300 0 (fun fn _ => simple fn) 200 1 5 (str "false") [] 0 booted = Some (kept, 1, booted) /\
  exists kept2, main_round commands 300 0 (fun fn _ => simple fn) 200 1 0 [] kept 1 booted = Some (kept2, 1, booted).
Proof.
  assert (forall f, run_command commands 300 0 (fun fn _ => simple fn) 200 1 (str "false") f booted = Some (1, booted)) as Hrun.
  { intros f. reflexivity. }
  destruct (enter_repeats_failures commands 300 0 (fun fn _ => simple fn) 200 0 (str "false") [] 0 1 booted booted) as (kept & H1 & _ & H2).
  - vm_compute. split; reflexivity.
  - apply Hrun.
  - exists kept. split; [exact H1 |]. apply H2; [discriminate | apply Hrun].
Defined.

(** The result of a list of commands is inverted: for a list that ends
    without a newline [run_command_list] returns 1 when its last command
    succeeded and 0 when it failed, although 0 stands for success. *)
Theorem run_command_list_inverted :
  fst <$> run_command_list commands 300 0 (fun fn _ => simple fn) 200 1 (str "true") (-1) booted = Some 1 /\
  fst <$> run_command_list commands 300 0 (fun fn _ => simple fn) 200 1 (str "true;false") (-1) booted = Some 0 /\
  fst <$> run_command commands 300 0 (fun fn _ => simple fn) 200 1 (str "true") 0 booted = Some 0.
Proof. split; [vm_compute; reflexivity |]. split; vm_compute; reflexivity. Qed.

(** A command that starts with a quote depends on what is in front of the
    buffer on the stack. *)
Theorem leading_quote_reads_stack :
  fst <$> builtin_run_command commands 300 0 simple (Some (str "'true';true")) 0 booted <>
  fst <$> builtin_run_command commands 300 92 simple (Some (str "'true';true")) 0 booted.
Proof. vm_compute. discriminate. Qed.

End CliExamples.
