(* ===== verification/Rbtree.v ===== *)
(** * Red-black trees (lib/rbtree.c, include/linux/rbtree.h)

    The nodes are in a heap, a map from addresses to nodes; a node has pointers
    to its children and the pointer to its parent with the color in the lowest
    bit.  [None] is the access to a null pointer or outside of the heap.

    The two halves of each function, which the source writes out with the
    fields rb_left and rb_right exchanged, are one definition with the side as
    an argument.

    The proofs follow the pointers with a tree and its context (the path from
    a node to the root), which the heap represents: [shape]. *)

From S2P Require Import Prelude.
From Stdlib Require Import Permutation Sorted.

(** ** Nodes *)

Record rb_node := Rb { rb_parent_color : Z; rb_right : Z; rb_left : Z }.

Definition RB_RED : Z := 0.
Definition RB_BLACK : Z := 1.

Definition rb_parent (r : rb_node) : Z := Z.land (rb_parent_color r) (Z.lnot 3).
Definition rb_color (r : rb_node) : Z := Z.land (rb_parent_color r) 1.
Definition rb_is_red (r : rb_node) : bool := rb_color r =? 0.
Definition rb_is_black (r : rb_node) : bool := negb (rb_color r =? 0).

Inductive side := L | R.
Definition opp (s : side) : side := match s with L => R | R => L end.

#[export] Instance side_eq_dec : EqDecision side.
Proof. solve_decision. Defined.

(** [r->rb_left] or [r->rb_right]. *)
Definition child (s : side) (r : rb_node) : Z := match s with L => rb_left r | R => rb_right r end.
Definition with_child (s : side) (p : Z) (r : rb_node) : rb_node :=
  match s with L => Rb (rb_parent_color r) (rb_right r) p | R => Rb (rb_parent_color r) p (rb_left r) end.
Definition with_parent_color (pc : Z) (r : rb_node) : rb_node := Rb pc (rb_right r) (rb_left r).

(** ** The heap: the nodes and [root->rb_node] *)

Record heap := Heap { nodes : gmap Z rb_node; root : Z }.

Definition get (p : Z) (h : heap) : option rb_node := if p =? 0 then None else nodes h !! p.
Definition put (p : Z) (n : rb_node) (h : heap) : heap := Heap (<[p := n]> (nodes h)) (root h).
Definition set_root (p : Z) (h : heap) : heap := Heap (nodes h) p.

Definition modify (p : Z) (f : rb_node -> rb_node) (h : heap) : option heap := n ← get p h; Some (put p (f n) h).

Definition set_child (s : side) (p v : Z) (h : heap) : option heap := modify p (with_child s v) h.

Definition rb_set_red (p : Z) (h : heap) : option heap :=
  modify p (fun r => with_parent_color (Z.land (rb_parent_color r) (Z.lnot 1)) r) h.
Definition rb_set_black (p : Z) (h : heap) : option heap :=
  modify p (fun r => with_parent_color (Z.lor (rb_parent_color r) 1) r) h.
Definition rb_set_parent (rb p : Z) (h : heap) : option heap :=
  modify rb (fun r => with_parent_color (Z.lor (Z.land (rb_parent_color r) 3) p) r) h.
Definition rb_set_color (rb color : Z) (h : heap) : option heap :=
  modify rb (fun r => with_parent_color (Z.lor (Z.land (rb_parent_color r) (Z.lnot 1)) color) r) h.

(** [p && rb_is_red(p)] and [!p || rb_is_black(p)]. *)
Definition red_node (p : Z) (h : heap) : option bool := if p =? 0 then Some false else n ← get p h; Some (rb_is_red n).
Definition black_node (p : Z) (h : heap) : option bool := if p =? 0 then Some true else n ← get p h; Some (rb_is_black n).
(** [if (p) rb_set_parent(p, v);] and [if (p) rb_set_black(p);]. *)
Definition set_parent_if (p v : Z) (h : heap) : option heap := if p =? 0 then Some h else rb_set_parent p v h.
Definition set_black_if (p : Z) (h : heap) : option heap := if p =? 0 then Some h else rb_set_black p h.

(** The pointer to [old] in [parent], or in the root, becomes [new]; the child
    on the side [s] is compared first. *)
Definition replace_child (s : side) (parent old new : Z) (h : heap) : option heap :=
  if parent =? 0 then Some (set_root new h)
  else pn ← get parent h; set_child (if old =? child s pn then s else opp s) parent new h.

(** [rb_link_node(node, parent, rb_link)]: the link is a field of the parent or
    the root. *)
Definition rb_link_node (node parent : Z) (link : option side) (h : heap) : option heap :=
  _ ← get node h;
  let h := put node (Rb parent 0 0) h in
  match link with
  | None => Some (set_root node h)
  | Some s => set_child s parent node h
  end.

(** ** Rotations *)

(** [__rb_rotate_left] for [L], [__rb_rotate_right] for [R]. *)
Definition rotate (s : side) (node : Z) (h : heap) : option heap :=
  n ← get node h;
  let right := child (opp s) n in
  let parent := rb_parent n in
  rn ← get right h;
  h ← set_child (opp s) node (child s rn) h;
  h ← set_parent_if (child s rn) node h;
  h ← set_child s right node h;
  h ← rb_set_parent right parent h;
  h ← replace_child s parent node right h;
  rb_set_parent node right h.

Definition __rb_rotate_left : Z -> heap -> option heap := rotate L.
Definition __rb_rotate_right : Z -> heap -> option heap := rotate R.

(** ** Insertion *)

(** The round of [rb_insert_color] for a red parent that is the child of
    [gparent] on the side [s]: the next node. *)
Definition insert_round (s : side) (node parent gparent : Z) (h : heap) : option (Z * heap) :=
  gn ← get gparent h;
  let uncle := child (opp s) gn in
  red ← red_node uncle h;
  if red : bool then
    h ← rb_set_black uncle h;
    h ← rb_set_black parent h;
    h ← rb_set_red gparent h;
    Some (gparent, h)
  else
    pn ← get parent h;
    '(node, parent, h) ←
      (if child (opp s) pn =? node then h ← rotate s parent h; Some (parent, node, h) else Some (node, parent, h));
    h ← rb_set_black parent h;
    h ← rb_set_red gparent h;
    h ← rotate (opp s) gparent h;
    Some (node, h).

Fixpoint insert_loop (fuel : nat) (node : Z) (h : heap) : option heap :=
  match fuel with
  | O => None
  | S fuel =>
      n ← get node h;
      let parent := rb_parent n in
      if parent =? 0 then Some h
      else
        pn ← get parent h;
        if negb (rb_is_red pn) then Some h
        else
          let gparent := rb_parent pn in
          gn ← get gparent h;
          '(node, h) ← insert_round (if parent =? rb_left gn then L else R) node parent gparent h;
          insert_loop fuel node h
  end.

(** The number of rounds is bounded by the number of nodes. *)
Definition loop_fuel (h : heap) : nat := S (S (size (nodes h))).

Definition rb_insert_color (node : Z) (h : heap) : option heap :=
  h ← insert_loop (loop_fuel h) node h;
  rb_set_black (root h) h.

(** ** Removal *)

(** The parts of a round of [__rb_erase_color], for a node that is the child of
    [parent] on the side [s]; [other] is its sibling.  A red sibling: *)
Definition red_sibling (s : side) (parent other : Z) (h : heap) : option (Z * heap) :=
  on ← get other h;
  if rb_is_red on then
    h ← rb_set_black other h;
    h ← rb_set_red parent h;
    h ← rotate s parent h;
    pn ← get parent h;
    Some (child (opp s) pn, h)
  else Some (other, h).

(** A sibling with a red child on the side [s] only: *)
Definition near_child (s : side) (parent other : Z) (h : heap) : option (Z * heap) :=
  on ← get other h;
  b ← black_node (child (opp s) on) h;
  if b : bool then
    h ← set_black_if (child s on) h;
    h ← rb_set_red other h;
    h ← rotate (opp s) other h;
    pn ← get parent h;
    Some (child (opp s) pn, h)
  else Some (other, h).

(** The last rotation: *)
Definition last_rotation (s : side) (parent other : Z) (h : heap) : option heap :=
  pn ← get parent h;
  h ← rb_set_color other (rb_color pn) h;
  h ← rb_set_black parent h;
  on ← get other h;
  h ← set_black_if (child (opp s) on) h;
  rotate s parent h.

(** The round for a black sibling: the next node, its parent, and whether the
    loop ends. *)
Definition black_sibling_round (s : side) (parent other : Z) (h : heap) : option (Z * Z * bool * heap) :=
  on ← get other h;
  bl ← black_node (rb_left on) h;
  both ← (if bl : bool then black_node (rb_right on) h else Some false);
  if both : bool then
    h ← rb_set_red other h;
    pn ← get parent h;
    Some (parent, rb_parent pn, false, h)
  else
    '(other, h) ← near_child s parent other h;
    h ← last_rotation s parent other h;
    Some (root h, parent, true, h).

Definition erase_round (s : side) (parent : Z) (h : heap) : option (Z * Z * bool * heap) :=
  pn ← get parent h;
  '(other, h) ← red_sibling s parent (child (opp s) pn) h;
  black_sibling_round s parent other h.

Fixpoint erase_loop (fuel : nat) (node parent : Z) (h : heap) : option (Z * heap) :=
  match fuel with
  | O => None
  | S fuel =>
      black ← black_node node h;
      if negb (black && negb (node =? root h)) then Some (node, h)
      else
        pn ← get parent h;
        '(node, parent, stop, h) ← erase_round (if rb_left pn =? node then L else R) parent h;
        if stop : bool then Some (node, h) else erase_loop fuel node parent h
  end.

Definition __rb_erase_color (node parent : Z) (h : heap) : option heap :=
  '(node, h) ← erase_loop (loop_fuel h) node parent h;
  set_black_if node h.

(** [while ((left = node->rb_left) != NULL) node = left;] and its mirror image. *)
Fixpoint descend (s : side) (fuel : nat) (node : Z) (h : heap) : option Z :=
  match fuel with
  | O => None
  | S fuel =>
      n ← get node h;
      if child s n =? 0 then Some node else descend s fuel (child s n) h
  end.

(** [node], the successor of [old], leaves its place: its parent, then the
    parent of its child. *)
Definition unlink_successor (old node child parent : Z) (h : heap) : option (Z * heap) :=
  h ← set_parent_if child parent h;
  if parent =? old then h ← set_child R parent child h; Some (node, h)
  else h ← set_child L parent child h; Some (parent, h).

(** [node] gets the place of [old]. *)
Definition take_place (old node : Z) (h : heap) : option heap :=
  on ← get old h;
  _ ← get node h;
  let h := put node on h in
  h ← replace_child L (rb_parent on) old node h;
  on ← get old h;
  h ← rb_set_parent (rb_left on) node h;
  set_parent_if (rb_right on) node h.

(** The part of [rb_erase] for a node with two children. *)
Definition erase_inner (old : Z) (h : heap) : option (Z * Z * Z * heap) :=
  on ← get old h;
  node ← descend L (loop_fuel h) (rb_right on) h;
  n ← get node h;
  let child := rb_right n in
  let color := rb_color n in
  '(parent, h) ← unlink_successor old node child (rb_parent n) h;
  h ← take_place old node h;
  Some (child, parent, color, h).

Definition rb_erase (node : Z) (h : heap) : option heap :=
  n ← get node h;
  '(child, parent, color, h) ←
    (if negb (rb_left n =? 0) && negb (rb_right n =? 0) then erase_inner node h
     else
       let child := if rb_left n =? 0 then rb_right n else rb_left n in
       let parent := rb_parent n in
       let color := rb_color n in
       h ← set_parent_if child parent h;
       h ← replace_child L parent node child h;
       Some (child, parent, color, h));
  if color =? RB_BLACK then __rb_erase_color child parent h else Some h.

(** ** Iteration *)

(** [rb_first] for [L], [rb_last] for [R]. *)
Definition rb_end (s : side) (h : heap) : option Z :=
  if root h =? 0 then Some 0 else descend s (loop_fuel h) (root h) h.
Definition rb_first : heap -> option Z := rb_end L.
Definition rb_last : heap -> option Z := rb_end R.

(** [while ((parent = rb_parent(node)) && node == parent->rb_right) node = parent;] *)
Fixpoint ascend (s : side) (fuel : nat) (node : Z) (h : heap) : option Z :=
  match fuel with
  | O => None
  | S fuel =>
      n ← get node h;
      let parent := rb_parent n in
      if parent =? 0 then Some parent
      else pn ← get parent h; if node =? child s pn then ascend s fuel parent h else Some parent
  end.

(** [rb_next] for [R], [rb_prev] for [L]. *)
Definition rb_step (s : side) (node : Z) (h : heap) : option Z :=
  n ← get node h;
  if rb_parent n =? node then Some 0
  else if negb (child s n =? 0) then descend (opp s) (loop_fuel h) (child s n) h
  else ascend s (loop_fuel h) node h.
Definition rb_next : Z -> heap -> option Z := rb_step R.
Definition rb_prev : Z -> heap -> option Z := rb_step L.

Definition rb_replace_node (victim new : Z) (h : heap) : option heap :=
  vn ← get victim h;
  h ← replace_child L (rb_parent vn) victim new h;
  h ← set_parent_if (rb_left vn) new h;
  h ← set_parent_if (rb_right vn) new h;
  vn ← get victim h;
  _ ← get new h;
  Some (put new vn h).

(** ** Trees *)

Create HintDb rb.

Inductive color := Red | Black.
Definition code (c : color) : Z := match c with Red => RB_RED | Black => RB_BLACK end.

#[export] Instance color_eq_dec : EqDecision color.
Proof. solve_decision. Defined.

(** A tree of addresses; [T s c t a u] has [t] on the side [s]. *)
Inductive tree := Leaf | Node (c : color) (l : tree) (a : Z) (r : tree).
Definition T (s : side) (c : color) (t : tree) (a : Z) (u : tree) : tree :=
  match s with L => Node c t a u | R => Node c u a t end.

Definition ptr (t : tree) : Z := match t with Leaf => 0 | Node _ _ a _ => a end.

#[export] Instance tree_eq_dec : EqDecision tree.
Proof. solve_decision. Defined.

(** A frame of a context: the hole is on the side [s] of the node. *)
Inductive frame := Fr (s : side) (c : color) (a : Z) (sib : tree).
Definition faddr (f : frame) : Z := match f with Fr _ _ a _ => a end.

Fixpoint plug (k : list frame) (t : tree) : tree :=
  match k with [] => t | Fr s c a u :: k => plug k (T s c t a u) end.

(** The parent of the hole, and the root, when what is outside of the context
    has the address [b]. *)
Definition top (b : Z) (k : list frame) : Z := match k with [] => b | f :: _ => faddr f end.
Fixpoint rt (k : list frame) (p : Z) : Z := match k with [] => p | f :: k => rt k (faddr f) end.

Definition enc (par : Z) (c : color) : Z := Z.lor par (code c).
Definition rbn (s : side) (pc p q : Z) : rb_node := match s with L => Rb pc q p | R => Rb pc p q end.

(** The nodes of a tree whose parent is [par], and those of a context. *)
Fixpoint cells (par : Z) (t : tree) : list (Z * rb_node) :=
  match t with
  | Leaf => []
  | Node c l a r => (a, Rb (enc par c) (ptr r) (ptr l)) :: cells a l ++ cells a r
  end.
Fixpoint ctx_cells (b : Z) (k : list frame) (p : Z) : list (Z * rb_node) :=
  match k with
  | [] => []
  | Fr s c a u :: k => (a, rbn s (enc (top b k) c) p (ptr u)) :: cells a u ++ ctx_cells b k a
  end.

(** The address of a node is aligned and not null. *)
Definition addr_ok (a : Z) : Prop := 0 < a /\ Z.land a 3 = 0.
Definition par_ok (a : Z) : Prop := 0 <= a /\ Z.land a 3 = 0.

(** The heap has these nodes. *)
Definition holds (h : heap) (l : list (Z * rb_node)) : Prop :=
  NoDup l.*1 /\ Forall (fun x => addr_ok x.1 /\ nodes h !! x.1 = Some x.2) l.

(** The heap is a tree, seen from a node of it, and the other nodes [F]. *)
Definition shape (h : heap) (k : list frame) (t : tree) (F : list (Z * rb_node)) : Prop :=
  root h = rt k (ptr t) /\ holds h (cells (top 0 k) t ++ ctx_cells 0 k (ptr t) ++ F).

(** *** The parent pointer and the color *)

Lemma land_lnot3 x : Z.land x (Z.lnot 3) = Z.ldiff x 3.
Proof. apply Z.bits_inj'. intros n Hn. by rewrite Z.land_spec, Z.ldiff_spec, Z.lnot_spec. Qed.

Lemma testbit_ok par i : par_ok par -> 0 <= i < 2 -> Z.testbit par i = false.
Proof.
  intros [_ H] Hi. pose proof (f_equal (fun z => Z.testbit z i) H) as Hb. cbv beta in Hb.
  rewrite Z.land_spec, Z.bits_0 in Hb. assert (Z.testbit 3 i = true) as H3 by (assert (i = 0 \/ i = 1) as [-> | ->] by lia; reflexivity).
  by rewrite H3, andb_true_r in Hb.
Qed.

Lemma code_bits c i : 0 < i -> Z.testbit (code c) i = false.
Proof.
  intros Hi. destruct c; [apply Z.bits_0 |]. change (code Black) with 1. apply Z.bits_above_log2; [lia |].
  change (Z.log2 1) with 0. lia.
Qed.

Ltac bitwise_enc Hp :=
  apply Z.bits_inj'; intros i Hi; unfold enc; rewrite ?land_lnot3;
  repeat first [rewrite Z.land_spec | rewrite Z.lor_spec | rewrite Z.ldiff_spec | rewrite Z.lnot_spec by done];
  destruct (decide (i = 0)) as [-> | ?]; [| destruct (decide (i = 1)) as [-> | ?]].

Lemma high_bits n i : 0 <= n < 4 -> 2 <= i -> Z.testbit n i = false.
Proof.
  intros Hn Hi. destruct (decide (n = 0)) as [-> | ?]; [apply Z.bits_0 |].
  apply Z.bits_above_log2; [lia |]. assert (Z.log2 n < 2) by (apply Z.log2_lt_pow2; lia). lia.
Qed.

Lemma enc_parent par c : par_ok par -> Z.land (enc par c) (Z.lnot 3) = par.
Proof.
  intros Hp. bitwise_enc Hp.
  - by rewrite (testbit_ok par 0 Hp), andb_false_r by lia.
  - by rewrite (testbit_ok par 1 Hp), andb_false_r by lia.
  - rewrite (high_bits 3 i), code_bits by lia. by rewrite orb_false_r, andb_true_r.
Qed.

Lemma enc_color par c : par_ok par -> Z.land (enc par c) 1 = code c.
Proof.
  intros Hp. bitwise_enc Hp.
  - rewrite (testbit_ok par 0 Hp) by lia. by destruct c.
  - rewrite code_bits by lia. by rewrite andb_false_r.
  - rewrite (high_bits 1 i), code_bits by lia. by rewrite andb_false_r.
Qed.

Lemma enc_set_parent par par' c : par_ok par -> Z.lor (Z.land (enc par c) 3) par' = enc par' c.
Proof.
  intros Hp. bitwise_enc Hp.
  - rewrite (testbit_ok par 0 Hp) by lia. destruct c, (Z.testbit par' 0); reflexivity.
  - rewrite (testbit_ok par 1 Hp), code_bits by lia. by destruct (Z.testbit par' 1).
  - rewrite (high_bits 3 i), code_bits by lia. by rewrite andb_false_r, orb_false_r.
Qed.

Lemma enc_clear par c : par_ok par -> Z.land (enc par c) (Z.lnot 1) = par.
Proof.
  intros Hp. bitwise_enc Hp.
  - by rewrite (testbit_ok par 0 Hp), andb_false_r by lia.
  - rewrite code_bits by lia. cbn. by rewrite orb_false_r, andb_true_r.
  - rewrite (high_bits 1 i), code_bits by lia. by rewrite orb_false_r, andb_true_r.
Qed.

Lemma enc_red par c : par_ok par -> Z.land (enc par c) (Z.lnot 1) = enc par Red.
Proof. intros Hp. rewrite enc_clear by done. unfold enc. by rewrite Z.lor_0_r. Qed.
Lemma enc_recolor par c d : par_ok par -> Z.lor (Z.land (enc par c) (Z.lnot 1)) (code d) = enc par d.
Proof. intros Hp. by rewrite enc_clear. Qed.
Lemma enc_black par c : par_ok par -> Z.lor (enc par c) 1 = enc par Black.
Proof. intros Hp. unfold enc. rewrite <- Z.lor_assoc. by destruct c. Qed.

Lemma addr_par a : addr_ok a -> par_ok a.
Proof. intros [? ?]. split; [lia | done]. Qed.
Lemma par_0 : par_ok 0.
Proof. done. Qed.
#[export] Hint Resolve addr_par par_0 : rb.

(** *** Cells *)

Lemma holds_perm h l l' : l ≡ₚ l' -> holds h l -> holds h l'.
Proof. intros Hp [Hn Hf]. split; [by rewrite <- Hp | by rewrite <- Hp]. Qed.

Lemma holds_get h a n l : holds h ((a, n) :: l) -> get a h = Some n.
Proof. intros [_ [[[Ha _] H] _]%Forall_cons]. unfold get. cbn in *. by rewrite (proj2 (Z.eqb_neq a 0)) by lia. Qed.

Lemma holds_addr h a n l : holds h ((a, n) :: l) -> addr_ok a.
Proof. by intros [_ [[Ha _] _]%Forall_cons]. Qed.

Lemma holds_put h a n n' l : holds h ((a, n) :: l) -> holds (put a n' h) ((a, n') :: l).
Proof.
  intros [Hn Hf]. split; [done |]. apply Forall_cons in Hf as [[Ha _] Hf]. apply Forall_cons. split.
  - split; [done |]. cbn. apply lookup_insert_eq.
  - cbn in Hn. apply NoDup_cons in Hn as [Hn _]. rewrite Forall_forall in Hf |- *. intros [b m] Hb.
    destruct (Hf _ Hb) as [? ?]. split; [done |]. cbn in *. rewrite lookup_insert_ne; [done |].
    intros ->. apply Hn. apply list_elem_of_fmap. by exists (b, m).
Qed.

Lemma holds_modify h a n f l : holds h ((a, n) :: l) -> exists h', modify a f h = Some h' /\ root h' = root h /\ holds h' ((a, f n) :: l).
Proof.
  intros H. unfold modify. rewrite (holds_get _ _ _ _ H). cbn. eexists. split; [done |]. split; [done | by eapply holds_put].
Qed.

Lemma holds_root h p l : holds h l -> holds (set_root p h) l.
Proof. done. Qed.

Lemma holds_ne h a n b m l : holds h ((a, n) :: (b, m) :: l) -> a <> b.
Proof. intros [H _] ->. cbn in H. apply NoDup_cons in H as [H _]. apply H. left. Qed.

Lemma T_opp s c t a u : T (opp s) c t a u = T s c u a t.
Proof. by destruct s. Qed.
Lemma rbn_opp s pc p q : rbn (opp s) pc p q = rbn s pc q p.
Proof. by destruct s. Qed.
Lemma opp_opp s : opp (opp s) = s.
Proof. by destruct s. Qed.
Lemma ptr_T s c t a u : ptr (T s c t a u) = a.
Proof. by destruct s. Qed.
Lemma child_rbn s pc p q : child s (rbn s pc p q) = p.
Proof. by destruct s. Qed.
Lemma child_opp_rbn s pc p q : child (opp s) (rbn s pc p q) = q.
Proof. by destruct s. Qed.
Lemma rb_parent_rbn s par c p q : par_ok par -> rb_parent (rbn s (enc par c) p q) = par.
Proof. intros H. unfold rb_parent. destruct s; by apply enc_parent. Qed.
Lemma rb_color_rbn s par c p q : par_ok par -> rb_color (rbn s (enc par c) p q) = code c.
Proof. intros H. unfold rb_color. destruct s; by apply enc_color. Qed.
Lemma with_child_rbn s pc p q v : with_child s v (rbn s pc p q) = rbn s pc v q.
Proof. by destruct s. Qed.
Lemma with_child_opp_rbn s pc p q v : with_child (opp s) v (rbn s pc p q) = rbn s pc p v.
Proof. by destruct s. Qed.
Lemma with_pc_rbn s pc pc' p q : with_parent_color pc' (rbn s pc p q) = rbn s pc' p q.
Proof. by destruct s. Qed.
Lemma rb_pc_rbn s pc p q : rb_parent_color (rbn s pc p q) = pc.
Proof. by destruct s. Qed.

Lemma cells_T par s c t a u :
  cells par (T s c t a u) ≡ₚ (a, rbn s (enc par c) (ptr t) (ptr u)) :: cells a t ++ cells a u.
Proof. destruct s; cbn; [done |]. by rewrite (Permutation_app_comm (cells a u)). Qed.

Lemma cells_plug k : forall b t, cells b (plug k t) ≡ₚ cells (top b k) t ++ ctx_cells b k (ptr t).
Proof.
  induction k as [| [s c a u] k IH]; intros b t; cbn [plug top ctx_cells faddr]; [by rewrite app_nil_r |].
  rewrite IH, cells_T, ptr_T. solve_Permutation.
Qed.

Lemma ptr_plug k : forall t, ptr (plug k t) = rt k (ptr t).
Proof. induction k as [| [s c a u] k IH]; intros t; [done |]. cbn [plug rt faddr]. by rewrite IH, ptr_T. Qed.

Lemma plug_app k1 k2 t : plug (k1 ++ k2) t = plug k2 (plug k1 t).
Proof. revert t. induction k1 as [| [s c a u] k1 IH]; intros t; [done |]. apply IH. Qed.
Lemma rt_app k1 k2 p : rt (k1 ++ k2) p = rt k2 (rt k1 p).
Proof. revert p. induction k1 as [| f k1 IH]; intros p; [done |]. apply IH. Qed.
Lemma top_app b k1 k2 : top b (k1 ++ k2) = top (top b k2) k1.
Proof. by destruct k1. Qed.
Lemma ctx_cells_app b k1 k2 p : ctx_cells b (k1 ++ k2) p ≡ₚ ctx_cells (top b k2) k1 p ++ ctx_cells b k2 (rt k1 p).
Proof.
  revert p. induction k1 as [| [s c a u] k1 IH]; intros p; [done |]. cbn [app ctx_cells rt faddr].
  rewrite IH, top_app. solve_Permutation.
Qed.

Lemma rt_nonempty k p q : k <> [] -> rt k p = rt k q.
Proof. by destruct k. Qed.

(** A permutation of the cells. *)
Ltac front H l := apply (holds_perm _ _ l) in H; [| rewrite ?cells_T, ?ptr_T; solve_Permutation].
(** Changes the first cell. *)
Ltac change_cell H :=
  let h' := fresh "h" in let Hm := fresh "Hm" in let Hr := fresh "Hr" in let H' := fresh "H" in
  lazymatch goal with |- context [modify ?a ?f ?h] =>
    destruct (holds_modify h a _ f _ H) as (h' & Hm & Hr & H'); clear H; rename H' into H; rewrite Hm; clear Hm
  end; cbn [mbind option_bind].

Lemma ptr_ok h par t F : holds h (cells par t ++ F) -> t = Leaf \/ addr_ok (ptr t).
Proof. destruct t as [| c l a r]; [by left |]. cbn. intros H. right. by eapply holds_addr. Qed.

Lemma top_ok h b k p F : par_ok b -> holds h (ctx_cells b k p ++ F) -> par_ok (top b k).
Proof. destruct k as [| [s c a u] k]; [done |]. cbn. intros _ H. eapply addr_par, holds_addr, H. Qed.

Lemma set_parent_cells h par par' t F : holds h (cells par t ++ F) -> par_ok par ->
  exists h', set_parent_if (ptr t) par' h = Some h' /\ root h' = root h /\ holds h' (cells par' t ++ F).
Proof.
  intros H Hp. destruct t as [| c l a r]; [by exists h |]. cbn [cells ptr app] in *. unfold set_parent_if.
  destruct (holds_addr _ _ _ _ H) as [Ha _]. rewrite (proj2 (Z.eqb_neq a 0)) by lia. unfold rb_set_parent.
  change_cell H. exists h0. split; [done |]. split; [done |]. cbn in H. by rewrite enc_set_parent in H.
Qed.

Lemma replace_child_ctx s h k old new F :
  holds h (ctx_cells 0 k old ++ F) -> root h = rt k old -> addr_ok old -> (exists n, (old, n) ∈ F) ->
  exists h', replace_child s (top 0 k) old new h = Some h' /\ root h' = rt k new /\ holds h' (ctx_cells 0 k new ++ F).
Proof.
  intros H Hr Ho (n & HF). unfold replace_child. destruct k as [| [s' c a u] k]; [by exists (set_root new h) |].
  cbn [ctx_cells top faddr app] in *. destruct (holds_addr _ _ _ _ H) as [Ha _].
  rewrite (proj2 (Z.eqb_neq a 0)) by lia. rewrite (holds_get _ _ _ _ H). cbn [mbind option_bind].
  assert ((if old =? child s (rbn s' (enc (top 0 k) c) old (ptr u)) then s else opp s) = s') as ->.
  { destruct (decide (s = s')) as [-> | Hs]; [by rewrite child_rbn, Z.eqb_refl |].
    assert (s' = opp s) as -> by (by destruct s, s'). rewrite rbn_opp, child_rbn.
    destruct (Z.eqb_spec old (ptr u)) as [Heq |]; [| done]. exfalso. destruct u as [| d l b r].
    - destruct Ho. cbn in Heq. lia.
    - cbn in Heq. subst b. destruct H as [H _]. cbn [cells ptr] in H. rewrite fmap_cons, !fmap_app in H.
      cbn [fmap list_fmap app fst] in H. apply NoDup_cons in H as [_ H]. apply NoDup_cons in H as [H _]. apply H.
      rewrite elem_of_app. right. apply list_elem_of_fmap. by exists (old, n). }
  unfold set_child. change_cell H. exists h0. split; [done |]. rewrite with_child_rbn in H. by rewrite Hr0.
Qed.

(** ** The operations on shapes *)

Lemma shape_up h k s c t a u F : shape h (Fr s c a u :: k) t F <-> shape h k (T s c t a u) F.
Proof.
  unfold shape. rewrite ptr_T. cbn [rt faddr top ctx_cells].
  split; (intros [Hr H]; split; [done |]; revert H; apply holds_perm; rewrite cells_T; solve_Permutation).
Qed.

Lemma shape_plug h k t F : shape h k t F <-> shape h [] (plug k t) F.
Proof. revert t. induction k as [| [s c a u] k IH]; intros t; [done |]. cbn [plug]. rewrite <- IH. apply shape_up. Qed.

(** The node in the focus. *)
Lemma shape_get h k s c t a u F : shape h k (T s c t a u) F ->
  get a h = Some (rbn s (enc (top 0 k) c) (ptr t) (ptr u)) /\ addr_ok a /\ par_ok (top 0 k).
Proof.
  intros [_ H]. rewrite ptr_T in H.
  front H ((a, rbn s (enc (top 0 k) c) (ptr t) (ptr u)) :: cells a t ++ cells a u ++ ctx_cells 0 k a ++ F).
  split; [by apply holds_get in H |]. split; [by apply holds_addr in H |].
  front H (ctx_cells 0 k a ++ (a, rbn s (enc (top 0 k) c) (ptr t) (ptr u)) :: cells a t ++ cells a u ++ F).
  by apply top_ok in H.
Qed.

Lemma shape_ptr h k t F : shape h k t F -> (t = Leaf /\ ptr t = 0) \/ (t <> Leaf /\ 0 < ptr t).
Proof. intros [_ H]. destruct t as [| c l a r]; [by left | right]. cbn in H. apply holds_addr in H as [? _]. by split. Qed.

(** The node in the focus gets another color. *)
Lemma shape_recolor h k s c d t a u F f : shape h k (T s c t a u) F ->
  (forall par n, par_ok par -> f (with_parent_color (enc par c) n) = with_parent_color (enc par d) n) ->
  exists h', modify a f h = Some h' /\ shape h' k (T s d t a u) F.
Proof.
  intros Hs Hf. destruct (shape_get _ _ _ _ _ _ _ _ Hs) as (_ & Ha & Hk). destruct Hs as [Hr H].
  rewrite ptr_T in Hr, H. front H ((a, rbn s (enc (top 0 k) c) (ptr t) (ptr u)) :: cells a t ++ cells a u ++ ctx_cells 0 k a ++ F).
  change_cell H. exists h0. split; [done |]. split; [by rewrite ptr_T, Hr0 |]. rewrite ptr_T.
  rewrite <- (with_pc_rbn s (enc (top 0 k) c) (enc (top 0 k) c)), Hf, with_pc_rbn in H by done.
  revert H. apply holds_perm. rewrite cells_T. solve_Permutation.
Qed.

Lemma shape_set_red h k s c t a u F : shape h k (T s c t a u) F ->
  exists h', rb_set_red a h = Some h' /\ shape h' k (T s Red t a u) F.
Proof.
  intros H. apply (shape_recolor _ _ _ _ _ _ _ _ _ _ H). intros par [] Hp. cbn. by rewrite enc_red.
Qed.
Lemma shape_set_black h k s c t a u F : shape h k (T s c t a u) F ->
  exists h', rb_set_black a h = Some h' /\ shape h' k (T s Black t a u) F.
Proof.
  intros H. apply (shape_recolor _ _ _ _ _ _ _ _ _ _ H). intros par [] Hp. cbn. by rewrite enc_black.
Qed.
Lemma shape_set_color h k s c d t a u F : shape h k (T s c t a u) F ->
  exists h', rb_set_color a (code d) h = Some h' /\ shape h' k (T s d t a u) F.
Proof.
  intros H. apply (shape_recolor _ _ _ _ _ _ _ _ _ _ H). intros par [] Hp. cbn. by rewrite enc_recolor.
Qed.

(** A rotation. *)
Lemma shape_rotate h k s cx cy A x B y C F : shape h k (T s cx A x (T (opp s) cy C y B)) F ->
  exists h', rotate s x h = Some h' /\ shape h' k (T s cy (T s cx A x B) y C) F.
Proof.
  rewrite T_opp. intros Hs. destruct (shape_get _ _ _ _ _ _ _ _ Hs) as (Hx & Hxo & Hpo). destruct Hs as [Hr H]. rewrite !ptr_T in *.
  front H ((y, rbn s (enc x cy) (ptr B) (ptr C)) :: (x, rbn s (enc (top 0 k) cx) (ptr A) y) ::
    cells x A ++ cells y B ++ cells y C ++ ctx_cells 0 k x ++ F).
  unfold rotate. rewrite Hx. cbn [mbind option_bind]. rewrite child_opp_rbn, (holds_get _ _ _ _ H). cbn [mbind option_bind].
  assert (Hyo : addr_ok y) by (by apply holds_addr in H). rewrite child_rbn, rb_parent_rbn by done.
  front H ((x, rbn s (enc (top 0 k) cx) (ptr A) y) :: (y, rbn s (enc x cy) (ptr B) (ptr C)) ::
    cells x A ++ cells y B ++ cells y C ++ ctx_cells 0 k x ++ F).
  unfold set_child. change_cell H. rewrite with_child_opp_rbn in H.
  front H (cells y B ++ (y, rbn s (enc x cy) (ptr B) (ptr C)) :: (x, rbn s (enc (top 0 k) cx) (ptr A) (ptr B)) ::
    cells x A ++ cells y C ++ ctx_cells 0 k x ++ F).
  destruct (set_parent_cells _ _ x _ _ H) as (h1 & -> & Hr1 & H1); [by auto with rb |]. cbn [mbind option_bind]. clear H. rename H1 into H.
  front H ((y, rbn s (enc x cy) (ptr B) (ptr C)) :: (x, rbn s (enc (top 0 k) cx) (ptr A) (ptr B)) ::
    cells x A ++ cells x B ++ cells y C ++ ctx_cells 0 k x ++ F).
  unfold set_child. change_cell H. rewrite with_child_rbn in H.
  unfold rb_set_parent. change_cell H. rewrite with_pc_rbn, rb_pc_rbn, enc_set_parent in H by auto with rb.
  front H (ctx_cells 0 k x ++ (x, rbn s (enc (top 0 k) cx) (ptr A) (ptr B)) :: (y, rbn s (enc (top 0 k) cy) x (ptr C)) ::
    cells x A ++ cells x B ++ cells y C ++ F).
  destruct (replace_child_ctx s _ _ _ y _ H) as (h4 & -> & Hr4 & H4); [congruence | done | eexists; left |].
  cbn [mbind option_bind]. clear H. rename H4 into H.
  front H ((x, rbn s (enc (top 0 k) cx) (ptr A) (ptr B)) :: (y, rbn s (enc (top 0 k) cy) x (ptr C)) ::
    cells x A ++ cells x B ++ cells y C ++ ctx_cells 0 k y ++ F).
  unfold rb_set_parent. change_cell H. rewrite with_pc_rbn, rb_pc_rbn, enc_set_parent in H by auto with rb.
  eexists. split; [done |]. split; [rewrite ptr_T; congruence |]. rewrite ptr_T.
  revert H. apply holds_perm. rewrite !cells_T, ptr_T. solve_Permutation.
Qed.

(** ** Red-black trees *)

(** [c] is the color of the parent, [n] the number of black nodes on each path
    to a leaf. *)
Inductive is_rb : tree -> color -> nat -> Prop :=
| rb_leaf c : is_rb Leaf c 0
| rb_red_node l a r n : is_rb l Red n -> is_rb r Red n -> is_rb (Node Red l a r) Black n
| rb_black_node c l a r n : is_rb l Black n -> is_rb r Black n -> is_rb (Node Black l a r) c (S n).

(** The context of a tree with [n] black nodes per path under a parent of the
    color [c]; the root is black. *)
Inductive ctx_rb : list frame -> color -> nat -> Prop :=
| ctx_root n : ctx_rb [] Red n
| ctx_red s a u k n : is_rb u Red n -> ctx_rb k Black n -> ctx_rb (Fr s Red a u :: k) Red n
| ctx_black s a u k c n : is_rb u Black n -> ctx_rb k c (S n) -> ctx_rb (Fr s Black a u :: k) Black n.

Definition is_red (t : tree) : bool := match t with Node Red _ _ _ => true | _ => false end.
Definition blacken (t : tree) : tree := match t with Leaf => Leaf | Node _ l a r => Node Black l a r end.
Definition pick (s : side) (l r : tree) : tree := match s with L => l | R => r end.

Fixpoint inorder (t : tree) : list Z :=
  match t with Leaf => [] | Node _ l a r => inorder l ++ a :: inorder r end.

#[export] Hint Constructors is_rb ctx_rb : rb.

Lemma Node_T s c l a r : Node c l a r = T s c (pick s l r) a (pick (opp s) l r).
Proof. by destruct s. Qed.
Lemma T_side s s0 c l x r : exists a b, T s0 c l x r = T s c a x b.
Proof. destruct s, s0; by eexists _, _. Qed.
Lemma T_not_leaf s c t a u : T s c t a u <> Leaf.
Proof. by destruct s. Qed.
#[export] Hint Resolve T_not_leaf : rb.
Lemma is_red_T s c t a u : is_red (T s c t a u) = bool_decide (c = Red).
Proof. by destruct s, c. Qed.
Lemma blacken_T s c t a u : blacken (T s c t a u) = T s Black t a u.
Proof. by destruct s. Qed.

Lemma rb_weaken t c n : is_rb t Red n -> is_rb t c n.
Proof. inversion 1; subst; auto with rb. Qed.
Lemma rb_unred t c n : is_rb t c n -> is_red t = false -> is_rb t Red n.
Proof. inversion 1; subst; by auto with rb. Qed.
Lemma rb_height_unique t c d n m : is_rb t c n -> is_rb t d m -> n = m.
Proof.
  intros H. revert d m. induction H; intros d m Hm; inversion Hm; subst; [done | eauto |]. f_equal. eauto.
Qed.
Lemma rb_T_red s t a u n : is_rb (T s Red t a u) Black n <-> is_rb t Red n /\ is_rb u Red n.
Proof. destruct s; (split; [inversion 1; subst; by split | intros []; by constructor]). Qed.
Lemma rb_T_black s t a u c n : is_rb (T s Black t a u) c (S n) <-> is_rb t Black n /\ is_rb u Black n.
Proof. destruct s; (split; [inversion 1; subst; by split | intros []; by constructor]). Qed.
Lemma rb_pick s c l a r : forall d n, is_rb (Node c l a r) d n -> exists m, is_rb (pick s l r) c m /\ is_rb (pick (opp s) l r) c m.
Proof. intros d n H. inversion H; subst; destruct s; eauto. Qed.
Lemma blacken_rb t : forall c n, is_rb t c n -> exists m, is_rb (blacken t) Red m.
Proof. intros c n [| l a r m Hl Hr | ?]; cbn; eauto 6 using rb_weaken with rb. Qed.
Lemma rb_not_red t n : is_rb t Red n -> is_red t = false.
Proof. by inversion 1. Qed.
Lemma blacken_id t : is_red t = false -> blacken t = t.
Proof. by destruct t as [| []]. Qed.
#[export] Hint Resolve rb_weaken : rb.

Lemma plug_rb k c n : ctx_rb k c n -> forall t, is_rb t c n -> exists m, is_rb (plug k t) Red m.
Proof.
  induction 1 as [n | s a u k n Hu Hk IH | s a u k c n Hu Hk IH]; intros t Ht; cbn [plug]; [by eauto | |].
  - apply IH. by apply rb_T_red.
  - apply IH. by apply rb_T_black.
Qed.

Lemma inorder_plug k t t' : inorder t = inorder t' -> inorder (plug k t) = inorder (plug k t').
Proof. revert t t'. induction k as [| [s c a u] k IH]; intros t t' H; [done |]. apply IH. destruct s; cbn; by rewrite H. Qed.

Lemma inorder_rotate s cx cy A x B y C cx' cy' :
  inorder (T s cx A x (T (opp s) cy C y B)) = inorder (T s cy' (T s cx' A x B) y C).
Proof. destruct s; cbn; simplify_list_eq; done. Qed.
Lemma inorder_rotate_opp s cx cy A x B y C cx' cy' :
  inorder (T s cx (T s cy C y B) x A) = inorder (T s cy' C y (T s cx' B x A)).
Proof. destruct s; cbn; simplify_list_eq; done. Qed.
Lemma inorder_recolor s c d t a u : inorder (T s c t a u) = inorder (T s d t a u).
Proof. by destruct s. Qed.
Lemma inorder_T s c c' t t' a u u' : inorder t = inorder t' -> inorder u = inorder u' -> inorder (T s c t a u) = inorder (T s c' t' a u').
Proof. destruct s; cbn; by intros -> ->. Qed.
Lemma inorder_blacken t : inorder (blacken t) = inorder t.
Proof. by destruct t. Qed.

(** The other subtree of a focus. *)
Lemma shape_down h k s c t a u F : shape h k (T s c t a u) F -> shape h (Fr s c a u :: k) t F.
Proof. by rewrite shape_up. Qed.
Lemma shape_down_opp h k s c t a u F : shape h k (T s c t a u) F -> shape h (Fr (opp s) c a t :: k) u F.
Proof. by rewrite shape_up, T_opp. Qed.
Lemma shape_other h k s c a t u F : shape h (Fr s c a u :: k) t F -> shape h (Fr (opp s) c a t :: k) u F.
Proof. rewrite shape_up. apply shape_down_opp. Qed.

Lemma color_node h k t F : shape h k t F ->
  red_node (ptr t) h = Some (is_red t) /\ black_node (ptr t) h = Some (negb (is_red t)).
Proof.
  intros H. destruct t as [| c l a r]; [done |]. rewrite (Node_T L) in H |- *.
  destruct (shape_get _ _ _ _ _ _ _ _ H) as (Hg & [Ha _] & Hp). unfold red_node, black_node. rewrite ptr_T, is_red_T.
  rewrite (proj2 (Z.eqb_neq a 0)), Hg by lia. cbn [mbind option_bind]. unfold rb_is_red, rb_is_black.
  rewrite rb_color_rbn by done. by destruct c.
Qed.

Lemma shape_sides h k s c t a u F : shape h k (T s c t a u) F -> t <> Leaf \/ u <> Leaf -> ptr t <> ptr u.
Proof.
  intros Hs Hn Heq. pose proof (shape_ptr _ _ _ _ (shape_down _ _ _ _ _ _ _ _ Hs)) as Ht.
  pose proof (shape_ptr _ _ _ _ (shape_down_opp _ _ _ _ _ _ _ _ Hs)) as Hu.
  destruct t as [| c1 l1 b r1], u as [| c2 l2 b2 r2]; cbn in *; try (destruct Hn; done);
    [destruct Ht as [[_ ?] | []], Hu as [[? _] | [_ ?]]; (done || lia) | destruct Hu as [[_ ?] | []], Ht as [[? _] | [_ ?]]; (done || lia) |].
  subst b2. destruct Hs as [_ H].
  front H ((b, Rb (enc a c1) (ptr r1) (ptr l1)) :: (b, Rb (enc a c2) (ptr r2) (ptr l2)) ::
    (a, rbn s (enc (top 0 k) c) b b) :: cells b l1 ++ cells b r1 ++ cells b l2 ++ cells b r2 ++ ctx_cells 0 k a ++ F).
  by apply holds_ne in H.
Qed.

(** The side the code computes is the side of the frame. *)
Lemma side_of h k s c t a u F : shape h k (T s c t a u) F -> t <> Leaf \/ u <> Leaf ->
  (if ptr t =? rb_left (rbn s (enc (top 0 k) c) (ptr t) (ptr u)) then L else R) = s.
Proof.
  intros H Hn. pose proof (shape_sides _ _ _ _ _ _ _ _ H Hn) as Hne. destruct s; cbn.
  - by rewrite Z.eqb_refl.
  - by rewrite (proj2 (Z.eqb_neq _ _)).
Qed.

(** The loops do not run out of fuel. *)
Lemma holds_size h l : holds h l -> (length l <= size (nodes h))%nat.
Proof.
  intros [Hn Hf]. rewrite <- (length_fmap fst). rewrite <- size_dom, <- (size_list_to_set (C := gset Z)) by done.
  apply subseteq_size. intros a Ha%elem_of_list_to_set. apply list_elem_of_fmap in Ha as ([b m] & -> & Hb).
  rewrite Forall_forall in Hf. destruct (Hf _ Hb) as [_ Hl]. by apply elem_of_dom_2 in Hl.
Qed.
Lemma ctx_length b k p : (length k <= length (ctx_cells b k p))%nat.
Proof. revert p. induction k as [| [s c a u] k IH]; intros p; [done |]. cbn. rewrite length_app. specialize (IH a). lia. Qed.
Lemma shape_fuel h k t F : shape h k t F -> (length (cells (top 0 k) t) + length k + 2 <= loop_fuel h)%nat.
Proof.
  intros [_ H]. apply holds_size in H. rewrite !length_app in H. pose proof (ctx_length 0 k (ptr t)). unfold loop_fuel. lia.
Qed.

Lemma shape_raise h k s c t a u F : shape h (Fr s c a u :: k) t F -> shape h k (T s c t a u) F.
Proof. by rewrite shape_up. Qed.
Lemma shape_raise_opp h k s c t a u F : shape h (Fr (opp s) c a t :: k) u F -> shape h k (T s c t a u) F.
Proof. by rewrite shape_up, T_opp. Qed.
Lemma shape_rotate_opp h k s cx cy A x B y C F : shape h k (T s cx (T s cy C y B) x A) F ->
  exists h', rotate (opp s) x h = Some h' /\ shape h' k (T s cy C y (T s cx B x A)) F.
Proof.
  intros H. destruct (shape_rotate h k (opp s) cx cy A x B y C F) as (h' & Hr & H'); [by rewrite T_opp, opp_opp |].
  exists h'. split; [done |]. by rewrite !T_opp in H'.
Qed.

(** Walks to a node, changes it and comes back. *)
Ltac op lem H :=
  let h' := fresh "h" in let He := fresh "He" in let H' := fresh "H" in
  destruct (lem _ _ _ _ _ _ _ _ H) as (h' & He & H'); rewrite He; clear He; clear H; rename H' into H; cbn [mbind option_bind].

(** ** Insertion *)

Lemma insert_round_outer h k s p g X sib unc F :
  shape h k (T s Black (T s Red X p sib) g unc) F ->
  exists h', (h ← rb_set_black p h; h ← rb_set_red g h; h ← rotate (opp s) g h; Some (ptr X, h)) = Some (ptr X, h') /\
    shape h' k (T s Black X p (T s Red sib g unc)) F.
Proof.
  intros H. apply shape_down in H. op shape_set_black H. apply shape_raise in H. op shape_set_red H.
  destruct (shape_rotate_opp _ _ _ _ _ _ _ _ _ _ _ H) as (h3 & -> & H3). cbn [mbind option_bind]. by exists h3.
Qed.

(** What a round of the loop does to a red node [X] under a red parent. *)
Lemma insert_round_shape h k s s2 s0 l x r p sib g unc n F :
  shape h (Fr s Red p sib :: Fr s2 Black g unc :: k) (T s0 Red l x r) F ->
  is_rb (T s0 Red l x r) Black n -> is_rb sib Red n -> is_rb unc Black n ->
  exists z h' t', insert_round s2 x p g h = Some (z, h') /\ shape h' k t' F /\
    inorder t' = inorder (plug [Fr s Red p sib; Fr s2 Black g unc] (T s0 Red l x r)) /\
    ((z = g /\ exists a b, t' = T s2 Red a z b /\ is_rb t' Black (S n)) \/
     (exists a b q u, t' = T s2 Black (T s2 Red a z b) q u /\ forall c, is_rb t' c (S n))).
Proof.
  intros H Hx Hsib Hunc. cbn [plug]. unfold insert_round. destruct (T_side s2 s0 Red l x r) as (B & C & HX). rewrite HX in *. clear HX s0 l r.
  apply shape_raise, shape_raise in H. destruct (shape_get _ _ _ _ _ _ _ _ H) as (Hg & _ & _).
  rewrite Hg. cbn [mbind option_bind]. rewrite child_opp_rbn, (proj1 (color_node _ _ _ _ (shape_down_opp _ _ _ _ _ _ _ _ H))).
  cbn [mbind option_bind]. destruct (is_red unc) eqn:Hu.
  - destruct unc as [| [] ul ua ur]; try done. rewrite (Node_T L) in H, Hunc |- *. set (ul' := pick L ul ur) in *. set (ur' := pick (opp L) ul ur) in *.
    rewrite ptr_T. apply shape_down_opp in H. op shape_set_black H. apply shape_raise_opp, shape_down in H. op shape_set_black H.
    apply shape_raise in H. op shape_set_red H. eexists g, _, _. split; [done |]. split; [exact H |]. split.
    { apply inorder_T; by apply inorder_T. }
    left. split; [done |]. eexists _, _. split; [done |]. apply rb_T_red. apply rb_T_red in Hunc as [Hl Hr].
    split; (apply rb_T_black; split; [eauto with rb | eauto with rb]).
  - pose proof (rb_unred _ _ _ Hunc Hu) as HuR. pose proof (shape_down _ _ _ _ _ _ _ _ H) as Hd. apply rb_T_red in Hx as [HB HC].
    destruct (shape_get _ _ _ _ _ _ _ _ Hd) as (Hp & _ & _). rewrite Hp. cbn [mbind option_bind].
    assert (forall a z b q v, is_rb a Red n -> is_rb b Red n -> is_rb v Red n ->
      forall c, is_rb (T s2 Black (T s2 Red a z b) q (T s2 Red v g unc)) c (S n)) as Hrb.
    { intros a z b q v ? ? ? c. apply rb_T_black. split; by apply rb_T_red. }
    destruct (decide (s = s2)) as [-> | Hne].
    + rewrite child_opp_rbn, (proj2 (Z.eqb_neq (ptr sib) x)).
      2: { intros Heq. eapply shape_sides; [exact Hd | left; auto with rb |]. by rewrite ptr_T. }
      cbn [mbind option_bind]. destruct (insert_round_outer _ _ _ _ _ _ _ _ _ H) as (h' & He & H'). rewrite ptr_T in He.
      rewrite He. eexists x, h', _. split; [done |]. split; [exact H' |]. split; [symmetry; apply inorder_rotate_opp |].
      right. eexists _, _, _, _. split; [done |]. by apply Hrb.
    + assert (s = opp s2) as -> by (by destruct s, s2). rewrite child_rbn, ptr_T, Z.eqb_refl.
      rewrite T_opp, <- (T_opp s2 Red C x B) in Hd.
      destruct (shape_rotate _ _ _ _ _ _ _ _ _ _ _ Hd) as (h1 & -> & H1). cbn [mbind option_bind]. apply shape_raise in H1.
      destruct (insert_round_outer _ _ _ _ _ _ _ _ _ H1) as (h' & He & H'). rewrite ptr_T in He.
      rewrite He. eexists p, h', _. split; [done |]. split; [exact H' |]. split.
      { rewrite <- (inorder_rotate_opp s2 Black Red _ _ _ _ _ Red Black). apply inorder_T; [| done].
        rewrite T_opp, <- (T_opp s2 Red C x B). symmetry. apply inorder_rotate. }
      right. eexists _, _, _, _. split; [done |]. by apply Hrb.
Qed.

Lemma plug_not_leaf k t : t <> Leaf -> plug k t <> Leaf.
Proof. revert t. induction k as [| [s c a u] k IH]; intros t Ht; [done |]. apply IH. auto with rb. Qed.

(** The loop stops at a black parent. *)
Lemma insert_loop_stop fuel h k s c s2 a u l x r F :
  shape h (Fr s2 Black a u :: k) (T s c l x r) F -> insert_loop (S fuel) x h = Some h.
Proof.
  intros H. cbn [insert_loop]. destruct (shape_get _ _ _ _ _ _ _ _ H) as (-> & _ & Hp). cbn [mbind option_bind].
  apply shape_raise in H. destruct (shape_get _ _ _ _ _ _ _ _ H) as (Ha & [Hao _] & Hp2). rewrite rb_parent_rbn by done.
  cbn [top faddr]. rewrite (proj2 (Z.eqb_neq a 0)), Ha by lia. cbn [mbind option_bind]. unfold rb_is_red. by rewrite rb_color_rbn.
Qed.

Lemma insert_loop_shape fuel : forall k s l x r c n h F, shape h k (T s Red l x r) F -> is_rb (T s Red l x r) Black n -> ctx_rb k c n ->
  (length k < fuel)%nat ->
  exists h' t', insert_loop fuel x h = Some h' /\ shape h' [] t' F /\ inorder t' = inorder (plug k (T s Red l x r)) /\
    t' <> Leaf /\ exists m, is_rb (blacken t') Red m.
Proof.
  induction fuel as [| fuel IH]; intros k s l x r c n h F H Hx Hk Hf; [lia |].
  inversion Hk as [n0 | s1 a u k' n0 Hu Hk' | s1 a u k' c' n0 Hu Hk']; subst.
  - exists h, (T s Red l x r). cbn [insert_loop]. destruct (shape_get _ _ _ _ _ _ _ _ H) as (-> & _ & Hp). cbn [mbind option_bind].
    rewrite rb_parent_rbn by done. split; [done |]. split; [done |]. split; [done |]. split; [auto with rb |]. by eapply blacken_rb.
  - inversion Hk' as [n1 | | s2 g unc k2 c2 n1 Hunc Hk2]; subst. cbn [length] in Hf.
    cbn [insert_loop]. destruct (shape_get _ _ _ _ _ _ _ _ H) as (-> & _ & Hp). cbn [mbind option_bind]. rewrite rb_parent_rbn by done. cbn [top faddr].
    pose proof (shape_raise _ _ _ _ _ _ _ _ H) as Ha. destruct (shape_get _ _ _ _ _ _ _ _ Ha) as (-> & [Hao _] & Hpa). cbn [mbind option_bind].
    rewrite (proj2 (Z.eqb_neq a 0)) by lia. unfold rb_is_red. rewrite rb_color_rbn, rb_parent_rbn by done. cbn [code top faddr].
    change (negb (RB_RED =? 0)) with false. cbn iota.
    pose proof (shape_raise _ _ _ _ _ _ _ _ Ha) as Hg. destruct (shape_get _ _ _ _ _ _ _ _ Hg) as (Hgg & _ & _). rewrite Hgg. cbn [mbind option_bind].
    pose proof (side_of _ _ _ _ _ _ _ _ Hg ltac:(left; auto with rb)) as Hside. rewrite (ptr_T s1 Red) in Hside at 1. rewrite Hside.
    destruct (insert_round_shape _ _ _ _ _ _ _ _ _ _ _ _ _ _ H Hx Hu Hunc) as (z & h' & t' & -> & H' & Hin & Hcase). cbn [mbind option_bind].
    assert (inorder (plug (Fr s1 Red a u :: Fr s2 Black g unc :: k2) (T s Red l x r)) = inorder (plug k2 t')) as ->.
    { symmetry. apply (inorder_plug k2), Hin. }
    destruct Hcase as [(-> & b & d & -> & Hrb) | (b & d & q & v & -> & Hrb)].
    + destruct (IH _ _ _ _ _ _ _ _ _ H' Hrb Hk2) as (h2 & t2 & -> & H2 & Hi & Hr); [lia |]. exists h2, t2. by rewrite Hi.
    + apply shape_down in H'. destruct fuel as [| fuel]; [lia |]. rewrite (insert_loop_stop _ _ _ _ _ _ _ _ _ _ _ _ H').
      eexists h', _. split; [done |]. apply shape_raise, shape_plug in H'. split; [exact H' |].
      destruct (plug_rb _ _ _ Hk2 _ (Hrb _)) as [m Hm]. split; [done |]. split; [| by eapply blacken_rb].
      apply plug_not_leaf. auto with rb.
  - destruct fuel as [| fuel]; [| clear IH]; rewrite (insert_loop_stop _ _ _ _ _ _ _ _ _ _ _ _ H); eexists h, _; (split; [done |]);
      apply shape_plug in H; (split; [exact H |]); (split; [done |]); (split; [apply plug_not_leaf; auto with rb |]);
      destruct (plug_rb _ _ _ Hk _ Hx) as [m Hm]; by eapply blacken_rb.
Qed.

(** A red leaf [x] was linked into a red-black tree. *)
Lemma rb_insert_color_shape h k x c F : shape h k (T L Red Leaf x Leaf) F -> ctx_rb k c 0 ->
  exists h' t', rb_insert_color x h = Some h' /\ shape h' [] t' F /\ inorder t' = inorder (plug k (T L Red Leaf x Leaf)) /\
    exists m, is_rb t' Red m.
Proof.
  intros H Hk. unfold rb_insert_color. pose proof (shape_fuel _ _ _ _ H) as Hf.
  destruct (insert_loop_shape (loop_fuel h) k L Leaf x Leaf c 0 h F H) as (h1 & t1 & -> & H1 & Hi & Hl & m & Hm);
    [apply rb_T_red; auto with rb | done | lia |].
  cbn [mbind option_bind]. assert (root h1 = ptr t1) as -> by apply H1. destruct t1 as [| c1 l1 a1 r1]; [done |].
  rewrite (Node_T L) in H1 at 1. cbn [ptr]. op shape_set_black H1. rewrite <- Node_T in H1.
  exists h0, (Node Black l1 a1 r1). split; [done |]. split; [done |]. split; [by rewrite <- Hi |]. by exists m.
Qed.

(** ** Removal *)

Lemma T_exists s t c n : is_rb t c (S n) -> exists d a o b, t = T s d a o b.
Proof. intros H. destruct t as [| d l o r]; [inversion H |]. rewrite (Node_T s). by eexists _, _, _, _. Qed.

Lemma red_sibling_shape h k s p A o B t F :
  shape h (Fr s Black p (T s Red A o B) :: k) t F ->
  exists h', red_sibling s p o h = Some (ptr A, h') /\ shape h' (Fr s Red p A :: Fr s Black o B :: k) t F.
Proof.
  intros H. unfold red_sibling. apply shape_other in H. destruct (shape_get _ _ _ _ _ _ _ _ H) as (-> & _ & Hp). cbn [mbind option_bind].
  unfold rb_is_red. rewrite rb_color_rbn by done. change (code Red =? 0) with true. cbn iota.
  op shape_set_black H. apply shape_raise_opp in H. op shape_set_red H. rewrite <- (T_opp s Black B o A) in H.
  destruct (shape_rotate _ _ _ _ _ _ _ _ _ _ _ H) as (h3 & -> & H3). cbn [mbind option_bind]. apply shape_down in H3.
  destruct (shape_get _ _ _ _ _ _ _ _ H3) as (-> & _ & _). cbn [mbind option_bind]. rewrite child_opp_rbn.
  exists h3. split; [done |]. by apply shape_down in H3.
Qed.

Lemma red_sibling_black h k s c p A o B t F :
  shape h (Fr s c p (T s Black A o B) :: k) t F -> red_sibling s p o h = Some (o, h).
Proof.
  intros H. unfold red_sibling. apply shape_other in H. destruct (shape_get _ _ _ _ _ _ _ _ H) as (-> & _ & Hp). cbn [mbind option_bind].
  unfold rb_is_red. by rewrite rb_color_rbn by done.
Qed.

Lemma near_child_shape h k s c p A o B t m F :
  shape h (Fr s c p (T s Black A o B) :: k) t F -> is_rb A Black m -> is_rb B Black m -> is_red A = true \/ is_red B = true ->
  exists h' A' o' B', near_child s p o h = Some (o', h') /\ shape h' (Fr s c p (T s Black A' o' B') :: k) t F /\
    is_rb A' Black m /\ is_rb B' Black m /\ is_red B' = true /\ inorder (T s Black A' o' B') = inorder (T s Black A o B).
Proof.
  intros H HA HB Hred. unfold near_child. apply shape_other in H.
  destruct (shape_get _ _ _ _ _ _ _ _ H) as (-> & _ & _). cbn [mbind option_bind]. rewrite child_opp_rbn, child_rbn.
  rewrite (proj2 (color_node _ _ _ _ (shape_down_opp _ _ _ _ _ _ _ _ H))). cbn [mbind option_bind].
  destruct (is_red B) eqn:HredB; cbn [negb].
  { exists h, A, o, B. split; [done |]. split; [by apply shape_other in H; rewrite opp_opp in H |]. by split_and!. }
  destruct Hred as [HredA |]; [| done]. destruct A as [| [] l a r]; try done.
  rewrite (Node_T s) in H, HA |- *. set (A1 := pick s l r) in *. set (A2 := pick (opp s) l r) in *. clearbody A1 A2.
  unfold set_black_if. rewrite ptr_T. apply shape_down in H. destruct (shape_get _ _ _ _ _ _ _ _ H) as (_ & [Ha _] & _).
  rewrite (proj2 (Z.eqb_neq a 0)) by lia. op shape_set_black H. apply shape_raise in H. op shape_set_red H.
  destruct (shape_rotate_opp _ _ _ _ _ _ _ _ _ _ _ H) as (h3 & -> & H3). cbn [mbind option_bind]. apply shape_raise_opp in H3.
  destruct (shape_get _ _ _ _ _ _ _ _ H3) as (-> & _ & _). cbn [mbind option_bind]. rewrite child_opp_rbn, ptr_T.
  apply rb_T_red in HA as [HA1 HA2]. exists h3, A1, a, (T s Red A2 o B). split; [done |]. split; [by apply shape_down |].
  split; [by apply rb_weaken |]. split; [apply rb_T_red; split; [done | by eapply rb_unred] |]. split; [by rewrite is_red_T |].
  symmetry. apply inorder_rotate_opp.
Qed.

Lemma last_rotation_shape h k s c p A o B t m F :
  shape h (Fr s c p (T s Black A o B) :: k) t F -> is_rb t Red m -> is_rb A Black m -> is_rb B Black m -> is_red B = true ->
  exists h' t', last_rotation s p o h = Some h' /\ shape h' k t' F /\ inorder t' = inorder (T s c t p (T s Black A o B)) /\
    forall d n, (c = Red -> d = Black /\ n = S m) -> (c = Black -> n = S (S m)) -> is_rb t' d n.
Proof.
  intros H Ht HA HB Hred. unfold last_rotation. apply shape_raise in H.
  destruct (shape_get _ _ _ _ _ _ _ _ H) as (-> & _ & Hpo). cbn [mbind option_bind]. rewrite rb_color_rbn by done.
  apply shape_down_opp in H. destruct (shape_set_color _ _ _ _ c _ _ _ _ H) as (h1 & -> & H1). cbn [mbind option_bind].
  clear H. rename H1 into H. apply shape_raise_opp in H. op shape_set_black H. apply shape_down_opp in H.
  destruct (shape_get _ _ _ _ _ _ _ _ H) as (-> & _ & _).
  cbn [mbind option_bind]. rewrite child_opp_rbn. destruct B as [| [] l b r]; try done.
  rewrite (Node_T s) in H, HB |- *. set (B1 := pick s l r) in *. set (B2 := pick (opp s) l r) in *. clearbody B1 B2.
  unfold set_black_if. rewrite ptr_T. apply shape_down_opp in H. destruct (shape_get _ _ _ _ _ _ _ _ H) as (_ & [Hb _] & _).
  rewrite (proj2 (Z.eqb_neq b 0)) by lia. op shape_set_black H. apply shape_raise_opp, shape_raise_opp in H.
  rewrite <- (T_opp s c (T s Black B1 b B2) o A) in H. destruct (shape_rotate _ _ _ _ _ _ _ _ _ _ _ H) as (h4 & -> & H4). cbn [mbind option_bind].
  exists h4, (T s c (T s Black t p A) o (T s Black B1 b B2)). split; [done |]. split; [done |]. split.
  { rewrite <- (inorder_rotate s Black c). rewrite T_opp. apply inorder_T; [done |]. apply inorder_T; [done | by apply inorder_T]. }
  apply rb_T_red in HB as [HB1 HB2]. intros d n Hr Hbl.
  assert (is_rb (T s Black t p A) Red (S m) /\ is_rb (T s Black B1 b B2) Red (S m)) as [H5 H6].
  { split; apply rb_T_black; split; eauto with rb. }
  destruct c; [destruct Hr as [-> ->]; [done |]; by apply rb_T_red | rewrite Hbl by done; apply rb_T_black; split; by apply rb_weaken].
Qed.

(** The state after a round: the tree is finished, or there is a node that only
    has to become black, or the node moved up. *)
Definition round_result (k : list frame) (m : nat) (order : list Z) (F : list (Z * rb_node)) (r : Z * Z * bool * heap) : Prop :=
  let '(z, par, stop, h') := r in exists k' t', shape h' k' t' F /\ z = ptr t' /\ inorder (plug k' t') = order /\
    if stop : bool then k' = [] /\ exists n, is_rb t' Red n
    else par = top 0 k' /\
      ((is_red t' = true /\ exists n, is_rb (plug k' (blacken t')) Red n) \/
       (k' = k /\ exists c, is_rb t' Red (S m) /\ ctx_rb k c (S (S m)))).

Lemma black_sibling_round_shape h k s c p A o B t m d n F :
  shape h (Fr s c p (T s Black A o B) :: k) t F -> is_rb t Red m -> is_rb A Black m -> is_rb B Black m -> ctx_rb k d n ->
  (c = Red -> d = Black /\ n = S m) -> (c = Black -> n = S (S m)) ->
  exists r, black_sibling_round s p o h = Some r /\ round_result k m (inorder (plug k (T s c t p (T s Black A o B)))) F r.
Proof.
  intros H Ht HA HB Hk Hcr Hcb. unfold black_sibling_round. pose proof (shape_other _ _ _ _ _ _ _ _ H) as Ho.
  destruct (shape_get _ _ _ _ _ _ _ _ Ho) as (-> & _ & _). cbn [mbind option_bind].
  assert (exists b1, black_node (rb_left (rbn s (enc (top 0 (Fr (opp s) c p t :: k)) Black) (ptr A) (ptr B))) h = Some b1 /\
    (both ← (if b1 : bool then black_node (rb_right (rbn s (enc (top 0 (Fr (opp s) c p t :: k)) Black) (ptr A) (ptr B))) h else Some false); Some both) =
    Some (negb (is_red A) && negb (is_red B))) as (b1 & -> & Hboth).
  { pose proof (proj2 (color_node _ _ _ _ (shape_down _ _ _ _ _ _ _ _ Ho))) as H1.
    pose proof (proj2 (color_node _ _ _ _ (shape_down_opp _ _ _ _ _ _ _ _ Ho))) as H2.
    destruct s; cbn [rbn rb_left rb_right]; eexists; (split; [eassumption |]); rewrite ?H1, ?H2; by destruct (is_red A), (is_red B). }
  cbn [mbind option_bind]. assert ((if b1 : bool then black_node (rb_right (rbn s (enc (top 0 (Fr (opp s) c p t :: k)) Black) (ptr A) (ptr B))) h else Some false) =
    Some (negb (is_red A) && negb (is_red B))) as ->.
  { destruct (if b1 : bool then _ else _); [| done]. by cbn in Hboth. }
  cbn [mbind option_bind]. clear Hboth. destruct (negb (is_red A) && negb (is_red B)) eqn:Hbb.
  - apply andb_true_iff in Hbb as [HrA%negb_true_iff HrB%negb_true_iff]. clear H.
    op shape_set_red Ho. apply shape_raise_opp in Ho. destruct (shape_get _ _ _ _ _ _ _ _ Ho) as (-> & _ & Hpo). cbn [mbind option_bind].
    rewrite rb_parent_rbn by done. eexists. split; [done |]. exists k, (T s c t p (T s Red A o B)). rewrite ptr_T.
    split; [done |]. split; [done |]. split; [apply inorder_plug; by apply inorder_T, inorder_T |]. split; [done |].
    assert (is_rb (T s Red A o B) Black m) as Hs by (apply rb_T_red; split; by eapply rb_unred).
    destruct c.
    + left. split; [by rewrite is_red_T |]. rewrite blacken_T. destruct (Hcr eq_refl) as [-> ->].
      eapply plug_rb; [done |]. apply rb_T_black. split; [by apply rb_weaken | done].
    + right. split; [done |]. exists d. rewrite <- (Hcb eq_refl). split; [| done]. apply rb_T_black. split; [by apply rb_weaken | done].
  - destruct (near_child_shape _ _ _ _ _ _ _ _ _ _ _ H HA HB) as (h1 & A' & o' & B' & -> & H1 & HA' & HB' & Hr & Hi).
    { destruct (is_red A); [by left |]. right. by destruct (is_red B). }
    cbn [mbind option_bind]. destruct (last_rotation_shape _ _ _ _ _ _ _ _ _ _ _ H1 Ht HA' HB' Hr) as (h2 & t' & -> & H2 & Hi2 & Hrb).
    cbn [mbind option_bind]. eexists. split; [done |]. pose proof (proj1 (shape_plug _ _ _ _) H2) as H3. exists [], (plug k t'). split; [done |].
    split; [apply H3 |]. split; [cbn [plug]; apply inorder_plug; rewrite Hi2; by apply inorder_T |]. split; [done |]. eapply plug_rb, Hrb; done.
Qed.

Lemma erase_round_shape h k s c p u t m d F :
  shape h (Fr s c p u :: k) t F -> is_rb t Red m -> ctx_rb (Fr s c p u :: k) d (S m) ->
  exists r, erase_round s p h = Some r /\ round_result k m (inorder (plug k (T s c t p u))) F r.
Proof.
  intros H Ht Hk. unfold erase_round. pose proof (shape_raise _ _ _ _ _ _ _ _ H) as Hp.
  destruct (shape_get _ _ _ _ _ _ _ _ Hp) as (-> & _ & _). cbn [mbind option_bind]. rewrite child_opp_rbn.
  assert (exists e, is_rb u e (S m)) as [e Hu] by (inversion Hk; eauto).
  destruct (T_exists s _ _ _ Hu) as (cu & A & o & B & ->). rewrite ptr_T. destruct cu.
  - assert (c = Black) as ->.
    { inversion Hk as [| ? ? ? ? ? Hr |]; subst; [| done]. apply rb_not_red in Hr. by rewrite is_red_T in Hr. }
    inversion Hk as [| | ? ? ? ? c2 ? Hs Hk2]; subst. apply rb_T_red in Hs as [HA HB].
    destruct (red_sibling_shape _ _ _ _ _ _ _ _ _ H) as (h1 & -> & H1). cbn [mbind option_bind].
    destruct (T_exists s _ _ _ HA) as (ca & A1 & a & A2 & ->). destruct ca; [apply rb_not_red in HA; by rewrite is_red_T in HA |].
    apply rb_T_black in HA as [HA1 HA2]. rewrite ptr_T.
    destruct (black_sibling_round_shape _ _ _ _ _ _ _ _ _ _ Black (S m) _ H1 Ht HA1 HA2) as (r & -> & Hr); [| done | done |].
    { apply ctx_black with (c := c2); [by apply rb_weaken | done]. }
    exists r. split; [done |]. destruct r as [[[z par] stop] h']. destruct Hr as (k' & t' & H' & -> & Hi & Hcase). exists k', t'.
    split; [done |]. split; [done |]. split.
    { rewrite Hi. cbn [plug]. apply inorder_plug. rewrite <- (T_opp s Red B o). symmetry. apply inorder_rotate. }
    destruct stop; [done |]. destruct Hcase as [-> Hcase]. split; [done |]. destruct Hcase as [? | (-> & c' & Ht' & Hk')]; [by left |].
    inversion Hk' as [| | ? ? ? ? ? ? HB2]; subst. pose proof (rb_height_unique _ _ _ _ _ HB HB2). lia.
  - assert (is_rb A Black m /\ is_rb B Black m) as [HA HB] by (by apply rb_T_black in Hu).
    rewrite (red_sibling_black _ _ _ _ _ _ _ _ _ _ H). cbn [mbind option_bind].
    inversion Hk as [| ? ? ? ? ? Hs Hk2 | ? ? ? ? c2 ? Hs Hk2]; subst;
      by eapply (black_sibling_round_shape _ _ _ _ _ _ _ _ _ _ _ _ _ H).
Qed.

Lemma rt_in b k p : k <> [] -> rt k p ∈ (ctx_cells b k p).*1.
Proof.
  revert p. induction k as [| [s c a u] k IH]; intros p Hk; [done |]. cbn [rt faddr ctx_cells]. rewrite fmap_cons, fmap_app.
  destruct k as [| f k]; [left |]. right. apply elem_of_app. right. by apply IH.
Qed.

Lemma shape_not_root h f k t F : shape h (f :: k) t F -> ptr t <> root h.
Proof.
  intros H Heq. pose proof (shape_ptr _ _ _ _ H) as Hp. destruct H as [Hr H].
  pose proof (rt_in 0 (f :: k) (ptr t) ltac:(done)) as Hin. rewrite <- Hr, <- Heq in Hin.
  destruct t as [| c l a r]; cbn [ptr] in *.
  - apply list_elem_of_fmap in Hin as ([a n] & Ha & Hin). cbn in Ha. destruct H as [_ H]. rewrite Forall_forall in H.
    destruct (H (a, n)) as [[Hpos _] _]; [set_solver |]. cbn in Hpos. lia.
  - destruct H as [H _]. cbn [cells] in H. rewrite !fmap_app, fmap_cons in H. cbn in H. apply NoDup_cons in H as [H _]. apply H.
    rewrite !elem_of_app. auto.
Qed.

Lemma erase_loop_exit fuel h k t par F : shape h k t F -> is_red t = true \/ k = [] ->
  erase_loop (S fuel) (ptr t) par h = Some (ptr t, h).
Proof.
  intros H Hor. cbn [erase_loop]. rewrite (proj2 (color_node _ _ _ _ H)). cbn [mbind option_bind].
  destruct Hor as [-> | ->]; [done |]. destruct H as [-> _]. cbn [rt]. rewrite Z.eqb_refl. by destruct (is_red t).
Qed.

Lemma erase_loop_shape fuel : forall k t m c h F, shape h k t F -> is_rb t Red m -> ctx_rb k c (S m) -> (length k < fuel)%nat ->
  exists h' k' t', erase_loop fuel (ptr t) (top 0 k) h = Some (ptr t', h') /\ shape h' k' t' F /\
    inorder (plug k' t') = inorder (plug k t) /\ exists n, is_rb (plug k' (blacken t')) Red n.
Proof.
  induction fuel as [| fuel IH]; intros k t m c h F H Ht Hk Hf; [lia |]. destruct k as [| [s pc p u] k].
  - rewrite (erase_loop_exit _ _ _ _ _ _ H) by auto. exists h, [], t. split; [done |]. split; [done |]. split; [done |].
    cbn [plug]. rewrite blacken_id by (by eapply rb_not_red). by exists m.
  - cbn [length] in Hf. cbn [erase_loop top faddr]. rewrite (proj2 (color_node _ _ _ _ H)). cbn [mbind option_bind].
    rewrite (proj2 (Z.eqb_neq _ _) (shape_not_root _ _ _ _ _ H)), (rb_not_red _ _ Ht). cbn [negb andb].
    pose proof (shape_raise _ _ _ _ _ _ _ _ H) as Hp. destruct (shape_get _ _ _ _ _ _ _ _ Hp) as (Hg & _ & _). rewrite Hg. cbn [mbind option_bind].
    assert (exists e, is_rb u e (S m)) as [e Hu] by (inversion Hk; eauto).
    assert (u <> Leaf) as Hul by (intros ->; inversion Hu).
    rewrite Z.eqb_sym, (side_of _ _ _ _ _ _ _ _ Hp) by auto.
    destruct (erase_round_shape _ _ _ _ _ _ _ _ _ _ H Ht Hk) as ([[[z par] stop] h1] & -> & k' & t' & H1 & -> & Hi & Hcase). cbn [mbind option_bind].
    destruct stop.
    + destruct Hcase as [-> [n Hn]]. exists h1, [], t'. split; [done |]. split; [done |]. split; [done |].
      cbn [plug]. rewrite blacken_id by (by eapply rb_not_red). by exists n.
    + destruct Hcase as [-> [[Hred Hrb] | (-> & c' & Ht' & Hk')]].
      * destruct fuel as [| fuel]; [lia |]. rewrite (erase_loop_exit _ _ _ _ _ _ H1) by auto. by exists h1, k', t'.
      * destruct (IH _ _ _ _ _ _ H1 Ht' Hk') as (h2 & k2 & t2 & -> & H2 & Hi2 & Hr); [lia |].
        exists h2, k2, t2. split; [done |]. split; [done |]. by rewrite Hi2.
Qed.

Lemma set_black_if_shape h k t F : shape h k t F -> exists h', set_black_if (ptr t) h = Some h' /\ shape h' k (blacken t) F.
Proof.
  intros H. destruct t as [| c l a r]; [by exists h |]. rewrite (Node_T L) in H |- *. rewrite blacken_T, ptr_T. unfold set_black_if.
  destruct (shape_get _ _ _ _ _ _ _ _ H) as (_ & [Ha _] & _). rewrite (proj2 (Z.eqb_neq a 0)) by lia. by eapply shape_set_black.
Qed.

Lemma erase_color_shape h k t m c F : shape h k t F -> is_rb t Black m -> ctx_rb k c (S m) ->
  exists h' t', __rb_erase_color (ptr t) (top 0 k) h = Some h' /\ shape h' [] t' F /\ inorder t' = inorder (plug k t) /\
    exists n, is_rb t' Red n.
Proof.
  intros H Ht Hk. unfold __rb_erase_color. pose proof (shape_fuel _ _ _ _ H) as Hf.
  assert (exists h' k' t', erase_loop (loop_fuel h) (ptr t) (top 0 k) h = Some (ptr t', h') /\ shape h' k' t' F /\
    inorder (plug k' t') = inorder (plug k t) /\ exists n, is_rb (plug k' (blacken t')) Red n) as (h1 & k1 & t1 & -> & H1 & Hi & n & Hn).
  { destruct (is_red t) eqn:Hred.
    - unfold loop_fuel. rewrite (erase_loop_exit _ _ _ _ _ _ H) by auto. exists h, k, t. split; [done |]. split; [done |]. split; [done |].
      eapply plug_rb; [done |]. destruct Ht as [| l a r m Hl Hr |]; [done | | done]. cbn. constructor; by apply rb_weaken.
    - apply (erase_loop_shape _ _ _ _ _ _ _ H (rb_unred _ _ _ Ht Hred) Hk). lia. }
  cbn [mbind option_bind]. destruct (set_black_if_shape _ _ _ _ H1) as (h2 & -> & H2). exists h2, (plug k1 (blacken t1)).
  split; [done |]. split; [by apply shape_plug in H2 |]. split; [| by exists n]. rewrite <- Hi. apply inorder_plug, inorder_blacken.
Qed.

(** The end of [rb_erase]: the node between the context and [u] is gone. *)
Lemma erase_finish h k s cs x u d n F : shape h k u F -> is_rb (T s cs Leaf x u) d n -> ctx_rb k d n ->
  exists h' t', (if code cs =? RB_BLACK then __rb_erase_color (ptr u) (top 0 k) h else Some h) = Some h' /\ shape h' [] t' F /\
    inorder t' = inorder (plug k u) /\ exists m, is_rb t' Red m.
Proof.
  intros H Hx Hk. destruct cs; cbn [code].
  - change (RB_RED =? RB_BLACK) with false. cbn iota. exists h, (plug k u). split; [done |]. split; [by apply (proj1 (shape_plug _ _ _ _)) |]. split; [done |].
    assert (d = Black /\ is_rb u Red n) as [-> Hu] by (by destruct s; inversion Hx).
    eapply plug_rb; [done | by apply rb_weaken].
  - change (RB_BLACK =? RB_BLACK) with true. cbn iota.
    assert (exists m, n = S m /\ is_rb u Black m) as (m & -> & Hu) by (destruct s; inversion Hx; eauto).
    by eapply erase_color_shape.
Qed.

(** A node with at most one child is cut out. *)
Lemma splice_shape h k s c x u F : shape h k (T s c Leaf x u) F ->
  exists h1 h' n, set_parent_if (ptr u) (top 0 k) h = Some h1 /\ replace_child L (top 0 k) x (ptr u) h1 = Some h' /\
    shape h' k u ((x, n) :: F).
Proof.
  intros H. destruct (shape_get _ _ _ _ _ _ _ _ H) as (_ & Hx & Hk). destruct H as [Hr H]. rewrite ptr_T in Hr, H.
  front H (cells x Leaf ++ cells x u ++ (x, rbn s (enc (top 0 k) c) (ptr Leaf) (ptr u)) :: ctx_cells 0 k x ++ F). cbn [cells ptr app] in H.
  destruct (set_parent_cells _ _ (top 0 k) _ _ H) as (h1 & He1 & Hr1 & H1); [by auto with rb |].
  front H1 (ctx_cells 0 k x ++ (x, rbn s (enc (top 0 k) c) 0 (ptr u)) :: cells (top 0 k) u ++ F).
  destruct (replace_child_ctx L _ _ _ (ptr u) _ H1) as (h2 & He2 & Hr2 & H2); [congruence | done | eexists; left |].
  exists h1, h2, (rbn s (enc (top 0 k) c) 0 (ptr u)). split; [done |]. split; [done |]. split; [done |]. revert H2. apply holds_perm. solve_Permutation.
Qed.

(** The outermost node on a side. *)
Definition fside (f : frame) : side := match f with Fr s _ _ _ => s end.

Lemma end_node s t : t <> Leaf -> exists k c a u, t = plug k (T s c Leaf a u) /\ Forall (fun f => fside f = s) k.
Proof.
  induction t as [| c l IHl a r IHr]; [done |]. intros _. rewrite (Node_T s).
  destruct (decide (pick s l r = Leaf)) as [-> | Hn]; [by exists [], c, a, (pick (opp s) l r) |].
  assert (exists k c1 a1 u1, pick s l r = plug k (T s c1 Leaf a1 u1) /\ Forall (fun f => fside f = s) k) as (k & c1 & a1 & u1 & -> & Hk).
  { destruct s; [by apply IHl | by apply IHr]. }
  exists (k ++ [Fr s c a (pick (opp s) l r)]), c1, a1, u1. rewrite plug_app. split; [done |]. apply Forall_app_2; [done |]. by repeat constructor.
Qed.

Lemma shape_plug_app h k1 k t F : shape h (k1 ++ k) t F <-> shape h k (plug k1 t) F.
Proof. by rewrite shape_plug, plug_app, <- shape_plug. Qed.

Lemma descend_shape s h k c a u F kl : forall fuel, shape h (kl ++ k) (T s c Leaf a u) F -> Forall (fun f => fside f = s) kl ->
  (length kl < fuel)%nat -> descend s fuel (ptr (plug kl (T s c Leaf a u))) h = Some a.
Proof.
  revert k. induction kl as [| f kl IH] using rev_ind; intros k [| fuel] H Hk Hf; try (cbn in Hf; lia).
  - cbn [plug]. rewrite ptr_T. cbn [descend app] in *. destruct (shape_get _ _ _ _ _ _ _ _ H) as (-> & _ & _). cbn [mbind option_bind].
    by rewrite child_rbn.
  - rewrite plug_app. destruct f as [s' c' a' u']. apply Forall_app in Hk as [Hk Hs]. apply Forall_cons in Hs as [Hs _]. cbn in Hs. subst s'.
    cbn [plug]. rewrite ptr_T. rewrite <- app_assoc in H. pose proof (proj1 (shape_plug_app _ _ _ _ _) H) as Hp. apply shape_raise in Hp.
    cbn [descend]. destruct (shape_get _ _ _ _ _ _ _ _ Hp) as (-> & _ & _). cbn [mbind option_bind]. rewrite child_rbn.
    destruct (shape_ptr _ _ _ _ (shape_down _ _ _ _ _ _ _ _ Hp)) as [[Hl _] | [_ Hpos]].
    { by apply plug_not_leaf in Hl; [| auto with rb]. }
    rewrite (proj2 (Z.eqb_neq _ 0)) by lia. eapply IH; [done | done |]. rewrite length_app in Hf. cbn in Hf. lia.
Qed.

Lemma ctx_rb_app kl : forall k t d n, is_rb (plug kl t) d n -> ctx_rb k d n -> exists d' n', is_rb t d' n' /\ ctx_rb (kl ++ k) d' n'.
Proof.
  induction kl as [| [s c a u] kl IH] using rev_ind; intros k t d n Ht Hk; [by exists d, n |].
  rewrite plug_app in Ht. cbn [plug] in Ht. rewrite <- app_assoc.
  assert (exists d1 n1, is_rb (plug kl t) d1 n1 /\ ctx_rb ([Fr s c a u] ++ k) d1 n1) as (d1 & n1 & H1 & H2); [| by eapply IH].
  destruct c; destruct s; inversion Ht; subst; eexists _, _; (split; [eassumption |]); econstructor; eassumption.
Qed.

Lemma ctx_rb_rename kl s c a b u k d n : ctx_rb (kl ++ Fr s c a u :: k) d n -> ctx_rb (kl ++ Fr s c b u :: k) d n.
Proof.
  revert d n. induction kl as [| f kl IH]; intros d n H; cbn [app] in *; inversion H; subst; econstructor; eauto.
Qed.

Lemma inorder_plug_app k : exists l1 l2, forall t, inorder (plug k t) = l1 ++ inorder t ++ l2.
Proof.
  induction k as [| [s c a u] k (l1 & l2 & IH)]; [exists [], []; intros t; cbn; by rewrite app_nil_r |].
  destruct s; [exists l1, (a :: inorder u ++ l2) | exists (l1 ++ inorder u ++ [a]), l2]; intros t; cbn [plug]; rewrite IH; cbn [T inorder];
    by simplify_list_eq.
Qed.

(** The cells when the successor [s] of [x] has left its place. *)
Lemma unlink_successor_cells h kl K c x l cs s rr F : par_ok (top x kl) -> Forall (fun f => fside f = L) kl ->
  holds h (cells s rr ++ (s, rbn L (enc (top x kl) cs) 0 (ptr rr)) :: ctx_cells x kl s ++ (x, rbn R (enc K c) (rt kl s) (ptr l)) :: F) ->
  addr_ok s ->
  exists h', unlink_successor x s (ptr rr) (top x kl) h = Some (top s kl, h') /\ root h' = root h /\
    holds h' ((x, rbn R (enc K c) (rt kl (ptr rr)) (ptr l)) :: (s, rbn L (enc (top x kl) cs) 0 (ptr rr)) ::
      cells (top x kl) rr ++ ctx_cells x kl (ptr rr) ++ F).
Proof.
  intros HP Hkl H Hs. unfold unlink_successor. destruct (set_parent_cells _ _ (top x kl) _ _ H) as (h1 & -> & Hr1 & H1); [by auto with rb |].
  cbn [mbind option_bind]. destruct kl as [| [s1 c1 a1 u1] kl]; cbn [top faddr rt ctx_cells app] in *.
  - rewrite Z.eqb_refl. front H1 ((x, rbn R (enc K c) s (ptr l)) :: (s, rbn L (enc x cs) 0 (ptr rr)) :: cells x rr ++ F).
    unfold set_child. change_cell H1. eexists. split; [done |]. split; [congruence | done].
  - apply Forall_cons in Hkl as [Hs1 _]. cbn in Hs1. subst s1.
    front H1 ((a1, rbn L (enc (top x kl) c1) s (ptr u1)) :: (x, rbn R (enc K c) (rt kl a1) (ptr l)) :: (s, rbn L (enc a1 cs) 0 (ptr rr)) ::
      cells a1 rr ++ cells a1 u1 ++ ctx_cells x kl a1 ++ F).
    rewrite (proj2 (Z.eqb_neq _ _) (holds_ne _ _ _ _ _ _ H1)). unfold set_child. change_cell H1.
    eexists. split; [done |]. split; [congruence |]. rewrite with_child_rbn in H1. revert H1. apply holds_perm. solve_Permutation.
Qed.

(** The cells when [s] has taken the place of [x], whose subtrees are [l] and
    [t]. *)
Lemma take_place_cells h k c x l t s n F :
  holds h ((x, rbn R (enc (top 0 k) c) (ptr t) (ptr l)) :: (s, n) :: cells x t ++ cells x l ++ ctx_cells 0 k x ++ F) ->
  root h = rt k x -> l <> Leaf -> par_ok (top 0 k) ->
  exists h' nx, take_place x s h = Some h' /\ root h' = rt k s /\
    holds h' ((x, nx) :: (s, rbn R (enc (top 0 k) c) (ptr t) (ptr l)) :: cells s t ++ cells s l ++ ctx_cells 0 k s ++ F).
Proof.
  intros H Hroot Hl Hk. unfold take_place. set (X := rbn R (enc (top 0 k) c) (ptr t) (ptr l)) in *.
  pose proof (holds_addr _ _ _ _ H) as Hx. rewrite (holds_get _ _ _ _ H). cbn [mbind option_bind].
  front H ((s, n) :: (x, X) :: cells x t ++ cells x l ++ ctx_cells 0 k x ++ F). rewrite (holds_get _ _ _ _ H). cbn [mbind option_bind].
  replace (rb_parent X) with (top 0 k) by (symmetry; by apply (rb_parent_rbn R)). apply (holds_put _ _ _ X) in H.
  front H (ctx_cells 0 k x ++ (x, X) :: (s, X) :: cells x t ++ cells x l ++ F).
  destruct (replace_child_ctx L _ _ _ s _ H) as (h3 & -> & Hr3 & H3); [done | done | eexists; left |]. cbn [mbind option_bind].
  front H3 ((x, X) :: cells x l ++ (s, X) :: cells x t ++ ctx_cells 0 k s ++ F). rewrite (holds_get _ _ _ _ H3). cbn [mbind option_bind].
  change (rb_left X) with (ptr l). change (rb_right X) with (ptr t).
  front H3 (cells x l ++ (x, X) :: (s, X) :: cells x t ++ ctx_cells 0 k s ++ F).
  destruct (set_parent_cells _ _ s _ _ H3) as (h4 & He4 & Hr4 & H4); [by auto with rb |].
  assert (rb_set_parent (ptr l) s h3 = Some h4) as ->.
  { unfold set_parent_if in He4. destruct l as [| cl ll la lr]; [done |]. cbn [ptr] in *. apply holds_addr in H3 as [? _].
    by rewrite (proj2 (Z.eqb_neq la 0)) in He4 by lia. }
  cbn [mbind option_bind]. front H4 (cells x t ++ (x, X) :: (s, X) :: cells s l ++ ctx_cells 0 k s ++ F).
  destruct (set_parent_cells _ _ s _ _ H4) as (h5 & -> & Hr5 & H5); [by auto with rb |].
  exists h5, X. split; [done |]. split; [congruence |]. revert H5. apply holds_perm. solve_Permutation.
Qed.

(** The successor [s] of a node [x] with two children takes its place. *)
Lemma erase_inner_shape h k kl c x l cs s rr F :
  shape h (kl ++ Fr R c x l :: k) (T L cs Leaf s rr) F -> Forall (fun f => fside f = L) kl -> l <> Leaf ->
  exists h' n, erase_inner x h = Some (ptr rr, top 0 (kl ++ Fr R c s l :: k), code cs, h') /\
    shape h' (kl ++ Fr R c s l :: k) rr ((x, n) :: F).
Proof.
  intros H Hkl Hl. unfold erase_inner. pose proof (shape_fuel _ _ _ _ H) as Hfuel. rewrite length_app in Hfuel.
  pose proof (shape_raise _ _ _ _ _ _ _ _ (proj1 (shape_plug_app _ _ _ _ _) H)) as Hx.
  destruct (shape_get _ _ _ _ _ _ _ _ Hx) as (-> & Hxo & Hko). cbn [mbind option_bind rbn rb_right].
  rewrite (descend_shape L h _ _ _ _ _ kl (loop_fuel h) H Hkl) by lia. cbn [mbind option_bind].
  destruct (shape_get _ _ _ _ _ _ _ _ H) as (-> & Hso & Hpo). cbn [mbind option_bind].
  rewrite rb_parent_rbn, rb_color_rbn by done. cbn [rbn rb_right ptr].
  destruct H as [Hroot H]. rewrite rt_app, ptr_T in Hroot. cbn [rt faddr] in Hroot. rewrite !top_app in *. cbn [top faddr] in *.
  apply (holds_perm _ _ (cells s rr ++ (s, rbn L (enc (top x kl) cs) 0 (ptr rr)) :: ctx_cells x kl s ++
    (x, rbn R (enc (top 0 k) c) (rt kl s) (ptr l)) :: cells x l ++ ctx_cells 0 k x ++ F)) in H.
  2: { rewrite ctx_cells_app, cells_T, ptr_T. cbn [cells ptr app ctx_cells top faddr]. solve_Permutation. }
  destruct (unlink_successor_cells _ _ _ _ _ _ _ _ _ _ Hpo Hkl H Hso) as (h2 & -> & Hr2 & H2). cbn [mbind option_bind].
  rewrite <- (ptr_plug kl rr) in H2.
  apply (holds_perm _ _ ((x, rbn R (enc (top 0 k) c) (ptr (plug kl rr)) (ptr l)) :: (s, rbn L (enc (top x kl) cs) 0 (ptr rr)) ::
    cells x (plug kl rr) ++ cells x l ++ ctx_cells 0 k x ++ F)) in H2; [| rewrite cells_plug; solve_Permutation].
  destruct (take_place_cells _ _ _ _ _ _ _ _ _ H2) as (h3 & nx & -> & Hr3 & H3); [congruence | done | done |]. cbn [mbind option_bind].
  exists h3, nx. split; [done |]. split; [by rewrite rt_app |]. rewrite ptr_plug in H3.
  revert H3. apply holds_perm. rewrite cells_plug, top_app, ctx_cells_app. cbn [ctx_cells top faddr]. solve_Permutation.
Qed.

Lemma inorder_first kl : Forall (fun f => fside f = L) kl -> exists l2, forall t, inorder (plug kl t) = inorder t ++ l2.
Proof.
  induction kl as [| [s c a u] kl IH]; intros Hk; [exists []; intros t; cbn; by rewrite app_nil_r |].
  apply Forall_cons in Hk as [Hs Hk]. cbn in Hs. subst s. destruct (IH Hk) as (l2 & H). exists (a :: inorder u ++ l2).
  intros t. cbn [plug]. rewrite H. cbn [T inorder]. by simplify_list_eq.
Qed.

(** [x] was removed: [t'] is the tree. *)
Definition removed (x : Z) (order : list Z) (F : list (Z * rb_node)) (h' : heap) : Prop :=
  exists t' nx, shape h' [] t' ((x, nx) :: F) /\ (exists m, is_rb t' Red m) /\
    exists l1 l2, order = l1 ++ x :: l2 /\ inorder t' = l1 ++ l2.

Lemma erase_simple h k s c x u d n F : shape h k (T s c Leaf x u) F -> is_rb (T s c Leaf x u) d n -> ctx_rb k d n ->
  exists h1 h2 h', set_parent_if (ptr u) (top 0 k) h = Some h1 /\ replace_child L (top 0 k) x (ptr u) h1 = Some h2 /\
    (if code c =? RB_BLACK then __rb_erase_color (ptr u) (top 0 k) h2 else Some h2) = Some h' /\
    removed x (inorder (plug k (T s c Leaf x u))) F h'.
Proof.
  intros H Hx Hk. destruct (splice_shape _ _ _ _ _ _ _ H) as (h1 & h2 & nx & He1 & He2 & H2).
  destruct (erase_finish _ _ _ _ _ _ _ _ _ H2 Hx Hk) as (h3 & t3 & He3 & H3 & Hi & Hm).
  exists h1, h2, h3. split; [done |]. split; [done |]. split; [done |]. exists t3, nx. split; [done |]. split; [done |].
  destruct (inorder_plug_app k) as (i1 & i2 & Hio). rewrite Hi, !Hio.
  destruct s; [exists i1, (inorder u ++ i2) | exists (i1 ++ inorder u), i2]; cbn [T inorder]; by simplify_list_eq.
Qed.

Lemma rb_erase_shape h k s c l x r d n F : shape h k (T s c l x r) F -> is_rb (T s c l x r) d n -> ctx_rb k d n ->
  exists h', rb_erase x h = Some h' /\ removed x (inorder (plug k (T s c l x r))) F h'.
Proof.
  intros H Hx Hk. destruct (T_side R s c l x r) as (r1 & l1 & Heq). rewrite Heq in H, Hx |- *. clear Heq s l r.
  unfold rb_erase. destruct (shape_get _ _ _ _ _ _ _ _ H) as (Hg & _ & Hko). rewrite Hg. cbn [mbind option_bind rbn rb_left rb_right].
  destruct (inorder_plug_app k) as (i1 & i2 & Hio).
  pose proof (shape_ptr _ _ _ _ (shape_down _ _ _ _ _ _ _ _ H)) as Hr1. pose proof (shape_ptr _ _ _ _ (shape_down_opp _ _ _ _ _ _ _ _ H)) as Hl1.
  destruct Hl1 as [[-> Hl1] | [Hl Hl1]]; [| destruct Hr1 as [[-> Hr1] | [Hr Hr1]]].
  - change (ptr Leaf =? 0) with true. cbn [negb andb]. change (T R c r1 x Leaf) with (T L c Leaf x r1) in *.
    destruct (erase_simple _ _ _ _ _ _ _ _ _ H Hx Hk) as (h1 & h2 & h3 & He1 & He2 & He3 & Hr).
    change (Rb (enc (top 0 k) c) (ptr r1) (ptr Leaf)) with (rbn L (enc (top 0 k) c) (ptr Leaf) (ptr r1)).
    rewrite rb_parent_rbn, rb_color_rbn, He1 by done. cbn [mbind option_bind]. rewrite He2. cbn [mbind option_bind]. by exists h3.
  - change (ptr Leaf =? 0) with true. rewrite (proj2 (Z.eqb_neq (ptr l1) 0)) by lia. cbn [negb andb].
    destruct (erase_simple _ _ _ _ _ _ _ _ _ H Hx Hk) as (h1 & h2 & h3 & He1 & He2 & He3 & Hr).
    change (Rb (enc (top 0 k) c) (ptr Leaf) (ptr l1)) with (rbn R (enc (top 0 k) c) (ptr Leaf) (ptr l1)).
    rewrite rb_parent_rbn, rb_color_rbn, He1 by done. cbn [mbind option_bind]. rewrite He2. cbn [mbind option_bind]. by exists h3.
  - rewrite (proj2 (Z.eqb_neq (ptr l1) 0)), (proj2 (Z.eqb_neq (ptr r1) 0)) by lia. cbn [negb andb].
    destruct (end_node L r1 Hr) as (kl & cs & s & rr & -> & Hkl). apply shape_down, shape_plug_app in H.
    destruct (erase_inner_shape _ _ _ _ _ _ _ _ _ _ H Hkl Hl) as (h1 & nx & -> & H1). cbn [mbind option_bind].
    assert (exists d1 n1, is_rb (plug kl (T L cs Leaf s rr)) d1 n1 /\ ctx_rb (Fr R c x l1 :: k) d1 n1) as (d1 & n1 & Hr2 & Hk2).
    { destruct c; inversion Hx; subst; eexists _, _; (split; [eassumption |]); econstructor; eassumption. }
    destruct (ctx_rb_app kl _ _ _ _ Hr2 Hk2) as (d2 & n2 & Hr3 & Hk3). apply ctx_rb_rename with (b := s) in Hk3.
    destruct (erase_finish _ _ _ _ _ _ _ _ _ H1 Hr3 Hk3) as (h2 & t2 & -> & H2 & Hi & Hm). exists h2. split; [done |]. exists t2, nx.
    split; [done |]. split; [done |]. destruct (inorder_first kl Hkl) as (l2 & Hl2).
    exists (i1 ++ inorder l1), (s :: inorder rr ++ l2 ++ i2). rewrite Hi, plug_app. cbn [plug]. rewrite !Hio. cbn [T inorder]. rewrite !Hl2.
    cbn [T inorder]. by simplify_list_eq.
Qed.

(** ** Iteration *)

(** The elements in front of and behind the hole of a context. *)
Fixpoint before (k : list frame) : list Z :=
  match k with [] => [] | Fr L _ _ _ :: k => before k | Fr R _ a u :: k => before k ++ inorder u ++ [a] end.
Fixpoint after (k : list frame) : list Z :=
  match k with [] => [] | Fr L _ a u :: k => a :: inorder u ++ after k | Fr R _ _ _ :: k => after k end.

Lemma inorder_plug_split k : forall t, inorder (plug k t) = before k ++ inorder t ++ after k.
Proof.
  induction k as [| [[] c a u] k IH]; intros t; cbn [plug before after]; [by rewrite app_nil_r | |]; rewrite IH; cbn [T inorder]; by simplify_list_eq.
Qed.

Lemma before_app k1 k2 : before (k1 ++ k2) = before k2 ++ before k1.
Proof. induction k1 as [| [[] c a u] k1 IH]; cbn [app before]; [by rewrite app_nil_r | done |]. rewrite IH. by simplify_list_eq. Qed.
Lemma after_app k1 k2 : after (k1 ++ k2) = after k1 ++ after k2.
Proof. induction k1 as [| [[] c a u] k1 IH]; cbn [app after]; [done | | done]. rewrite IH. by simplify_list_eq. Qed.

(** The element of a list that is next to its end on a side. *)
Definition near (s : side) (l : list Z) : Z := default 0 (match s with L => last l | R => head l end).
(** The elements beside the hole. *)
Definition beside (s : side) (k : list frame) : list Z := match s with L => before k | R => after k end.

Lemma shape_member t a : a ∈ inorder t -> exists k c l r, t = plug k (T L c l a r).
Proof.
  induction t as [| c l IHl b r IHr]; cbn [inorder]; [by rewrite elem_of_nil |].
  rewrite elem_of_app, elem_of_cons. intros [Hl | [-> | Hr]].
  - destruct (IHl Hl) as (k & c' & l' & r' & ->). exists (k ++ [Fr L c b r]), c', l', r'. by rewrite plug_app.
  - by exists [], c, l, r.
  - destruct (IHr Hr) as (k & c' & l' & r' & ->). exists (k ++ [Fr R c b l]), c', l', r'. by rewrite plug_app.
Qed.

Lemma cells_inorder t : forall b, (cells b t).*1 ≡ₚ inorder t.
Proof.
  induction t as [| c l IHl a r IHr]; intros b; [done |]. cbn [cells inorder]. rewrite fmap_cons, fmap_app, IHl, IHr. cbn [fst]. solve_Permutation.
Qed.

Lemma shape_nodup h t F : shape h [] t F -> NoDup (inorder t).
Proof. intros [_ [H _]]. rewrite !fmap_app in H. apply NoDup_app in H as [H _]. by rewrite cells_inorder in H. Qed.

(** An end of a tree. *)
Lemma last_first kl : Forall (fun f => fside f = R) kl -> exists l1, forall t, inorder (plug kl t) = l1 ++ inorder t.
Proof.
  induction kl as [| [s c a u] kl IH]; intros Hk; [by exists [] |].
  apply Forall_cons in Hk as [Hs Hk]. cbn in Hs. subst s. destruct (IH Hk) as (l1 & H). exists (l1 ++ inorder u ++ [a]).
  intros t. cbn [plug]. rewrite H. cbn [T inorder]. by simplify_list_eq.
Qed.

Lemma end_of_tree s h k t F : shape h k t F -> t <> Leaf ->
  descend s (loop_fuel h) (ptr t) h = Some (near (opp s) (inorder t)).
Proof.
  intros H Ht. destruct (end_node s t Ht) as (kl & c & a & u & -> & Hkl). apply shape_plug_app in H.
  pose proof (shape_fuel _ _ _ _ H) as Hf. rewrite length_app in Hf. rewrite (descend_shape s h _ _ _ _ _ _ _ H Hkl) by lia.
  f_equal. unfold near. destruct s; cbn [opp].
  - destruct (inorder_first kl Hkl) as (l2 & ->). done.
  - destruct (last_first kl Hkl) as (l1 & ->). cbn [T inorder]. by rewrite app_assoc, last_snoc.
Qed.

Lemma ascend_shape s fuel : forall k t h F, shape h k t F -> t <> Leaf -> (length k < fuel)%nat ->
  ascend s fuel (ptr t) h = Some (near s (beside s k)).
Proof.
  induction fuel as [| fuel IH]; intros k t h F H Ht Hf; [lia |]. destruct t as [| c l a r]; [done |]. clear Ht. rewrite (Node_T L) in H |- *.
  rewrite ptr_T. cbn [ascend]. destruct (shape_get _ _ _ _ _ _ _ _ H) as (-> & _ & Hp). cbn [mbind option_bind]. rewrite rb_parent_rbn by done.
  destruct k as [| [s' c' b u] k]; [by destruct s |]. cbn [top faddr]. pose proof (shape_raise _ _ _ _ _ _ _ _ H) as Hb.
  destruct (shape_get _ _ _ _ _ _ _ _ Hb) as (-> & [Hbo _] & _). rewrite (proj2 (Z.eqb_neq b 0)) by lia. cbn [mbind option_bind]. rewrite ptr_T.
  destruct (decide (s' = s)) as [-> | Hne].
  - rewrite child_rbn, Z.eqb_refl. rewrite <- (ptr_T s c' (T L c (pick L l r) a (pick (opp L) l r)) b u).
    cbn [length] in Hf. rewrite (IH _ _ _ _ Hb) by (auto with rb || lia). by destruct s.
  - assert (s' = opp s) as -> by (by destruct s, s'). rewrite rbn_opp, child_rbn, (proj2 (Z.eqb_neq _ _)).
    { f_equal. unfold near. destruct s; cbn [opp beside before after]; [| done]. by rewrite app_assoc, last_snoc. }
    intros Heq. eapply shape_sides; [exact Hb | left; auto with rb |]. by rewrite ptr_T.
Qed.

Lemma rb_end_shape s h t F : shape h [] t F -> rb_end s h = Some (near (opp s) (inorder t)).
Proof.
  intros H. unfold rb_end. destruct (shape_ptr _ _ _ _ H) as [[-> _] | [Hl Hp]].
  - destruct H as [-> _]. by destruct s.
  - assert (root h = ptr t) as -> by apply H. rewrite (proj2 (Z.eqb_neq _ 0)) by lia. by eapply end_of_tree.
Qed.

Lemma rb_step_shape s h k t l x r c F : shape h k (T L c l x r) F -> t = T L c l x r ->
  rb_step s x h = Some (near s (match s with L => before k ++ inorder l | R => inorder r ++ after k end)).
Proof.
  intros H ->. unfold rb_step. pose proof (shape_fuel _ _ _ _ H) as Hf. destruct (shape_get _ _ _ _ _ _ _ _ H) as (Hg & [Hx _] & Hp). rewrite Hg. cbn [mbind option_bind].
  rewrite rb_parent_rbn by done. rewrite (proj2 (Z.eqb_neq _ x)).
  2: { destruct k as [| [s' c' a u] k]; cbn [top faddr]; [lia |]. intros ->. apply shape_raise in H. destruct H as [_ H].
       rewrite ptr_T in H. front H ((x, rbn s' (enc (top 0 k) c') x (ptr u)) :: (x, rbn L (enc x c) (ptr l) (ptr r)) :: cells x l ++ cells x r ++ cells x u ++ ctx_cells 0 k x ++ F).
       by apply holds_ne in H. }
  assert (shape h (Fr s c x (pick (opp s) l r) :: k) (pick s l r) F) as Hs.
  { assert (T L c l x r = T s c (pick s l r) x (pick (opp s) l r)) as He by (by destruct s). rewrite He in H. by apply shape_down. }
  assert (child s (rbn L (enc (top 0 k) c) (ptr l) (ptr r)) = ptr (pick s l r)) as -> by (by destruct s).
  destruct (shape_ptr _ _ _ _ Hs) as [[Hl Hz] | [Hl Hz]].
  - rewrite Hz. cbn [Z.eqb negb]. rewrite <- (ptr_T L c l x r). rewrite (ascend_shape s _ _ _ _ _ H) by (auto with rb || lia).
    f_equal. destruct s; cbn [pick] in Hl; subst; cbn [inorder beside]; [by rewrite app_nil_r | done].
  - rewrite (proj2 (Z.eqb_neq _ 0)) by lia. cbn [negb]. rewrite (end_of_tree (opp s) _ _ _ _ Hs Hl), opp_opp. f_equal.
    destruct s; unfold near; cbn [pick] in *.
    + rewrite last_app. destruct l as [| ? l0 a0 r0]; [done |]. cbn [inorder]. rewrite last_app, last_cons. by destruct (last (inorder r0)).
    + destruct r as [| ? r1]; [done |]. cbn [inorder]. by destruct (inorder r1).
Qed.

Lemma nodup_split (x : Z) l1 l2 m1 m2 : NoDup (l1 ++ x :: l2) -> l1 ++ x :: l2 = m1 ++ x :: m2 -> l1 = m1 /\ l2 = m2.
Proof.
  revert m1. induction l1 as [| a l1 IH]; intros [| b m1] Hn He; cbn [app] in *; simplify_eq; [done | | |].
  - exfalso. apply NoDup_cons in Hn as [Hn _]. set_solver.
  - exfalso. apply NoDup_cons in Hn as [Hn _]. set_solver.
  - apply NoDup_cons in Hn as [_ Hn]. by destruct (IH m1 Hn) as [-> ->].
Qed.

(** [x] is between [l1] and [l2] in the order of the tree. *)
Lemma rb_step_order s h t l1 x l2 F : shape h [] t F -> inorder t = l1 ++ x :: l2 ->
  rb_step s x h = Some (near s (match s with L => l1 | R => l2 end)).
Proof.
  intros H Hi. pose proof (shape_nodup _ _ _ H) as Hn. destruct (shape_member t x) as (k & c & l & r & ->); [rewrite Hi; set_solver |].
  apply shape_plug in H. rewrite (rb_step_shape s _ _ _ _ _ _ _ _ H eq_refl). rewrite inorder_plug_split in Hi, Hn. cbn [T inorder] in Hi, Hn.
  rewrite <- app_assoc, <- app_comm_cons, app_assoc in Hi, Hn. destruct (nodup_split _ _ _ _ _ Hn Hi) as [-> ->]. by destruct s.
Qed.

(** ** Linking and replacing nodes *)

Definition link_of (k : list frame) : option side := match k with [] => None | Fr s _ _ _ :: _ => Some s end.

Lemma rb_link_node_shape h k x n F : shape h k Leaf ((x, n) :: F) ->
  exists h', rb_link_node x (top 0 k) (link_of k) h = Some h' /\ shape h' k (T L Red Leaf x Leaf) F.
Proof.
  intros [Hr H]. cbn [cells ptr app] in *. unfold rb_link_node. front H ((x, n) :: ctx_cells 0 k 0 ++ F).
  rewrite (holds_get _ _ _ _ H). cbn [mbind option_bind]. apply (holds_put _ _ _ (Rb (enc (top 0 k) Red) 0 0)) in H.
  replace (enc (top 0 k) Red) with (top 0 k) in H by (symmetry; apply Z.lor_0_r).
  destruct k as [| [s c a u] k]; cbn [link_of top faddr rt ctx_cells app] in *.
  - eexists. split; [done |]. split; [done |]. apply holds_root. revert H. apply holds_perm. done.
  - front H ((a, rbn s (enc (top 0 k) c) 0 (ptr u)) :: (x, Rb a 0 0) :: cells a u ++ ctx_cells 0 k a ++ F).
    unfold set_child. change_cell H. eexists. split; [done |]. split; [by rewrite Hr0 |]. rewrite with_child_rbn in H.
    revert H. apply holds_perm. cbn [T cells ptr app ctx_cells top faddr]. unfold enc at 2. rewrite Z.lor_0_r. solve_Permutation.
Qed.

Lemma rb_replace_node_shape h k c l x r y n F : shape h k (T L c l x r) ((y, n) :: F) ->
  exists h' nx, rb_replace_node x y h = Some h' /\ shape h' k (T L c l y r) ((x, nx) :: F).
Proof.
  intros H. destruct (shape_get _ _ _ _ _ _ _ _ H) as (Hg & Hx & Hk). unfold rb_replace_node. rewrite Hg. cbn [mbind option_bind].
  rewrite rb_parent_rbn by done. cbn [rbn rb_left rb_right]. destruct H as [Hr H]. cbn [T cells ptr] in Hr, H.
  set (X := Rb (enc (top 0 k) c) (ptr r) (ptr l)) in *.
  front H (ctx_cells 0 k x ++ (x, X) :: (y, n) :: cells x l ++ cells x r ++ F).
  destruct (replace_child_ctx L _ _ _ y _ H) as (h1 & -> & Hr1 & H1); [done | done | eexists; left |]. cbn [mbind option_bind].
  front H1 (cells x l ++ (x, X) :: (y, n) :: cells x r ++ ctx_cells 0 k y ++ F).
  destruct (set_parent_cells _ _ y _ _ H1) as (h2 & -> & Hr2 & H2); [by auto with rb |]. cbn [mbind option_bind].
  front H2 (cells x r ++ (x, X) :: (y, n) :: cells y l ++ ctx_cells 0 k y ++ F).
  destruct (set_parent_cells _ _ y _ _ H2) as (h3 & -> & Hr3 & H3); [by auto with rb |]. cbn [mbind option_bind].
  front H3 ((x, X) :: (y, n) :: cells y l ++ cells y r ++ ctx_cells 0 k y ++ F). rewrite (holds_get _ _ _ _ H3). cbn [mbind option_bind].
  front H3 ((y, n) :: (x, X) :: cells y l ++ cells y r ++ ctx_cells 0 k y ++ F). rewrite (holds_get _ _ _ _ H3). cbn [mbind option_bind].
  apply (holds_put _ _ _ X) in H3. exists (put y X h3), X. split; [done |]. split; [cbn [root put T ptr]; congruence |].
  revert H3. apply holds_perm. cbn [T cells ptr]. solve_Permutation.
Qed.

(** ** The height of a tree *)

Fixpoint size_tree (t : tree) : nat := match t with Leaf => 0 | Node _ l _ r => S (size_tree l + size_tree r) end.
Fixpoint height (t : tree) : nat := match t with Leaf => 0 | Node _ l _ r => S (height l `max` height r) end.

Lemma size_inorder t : size_tree t = length (inorder t).
Proof. induction t as [| c l IHl a r IHr]; [done |]. cbn [size_tree inorder]. rewrite length_app. cbn. lia. Qed.

Lemma rb_balanced t c n : is_rb t c n ->
  (2 ^ n <= S (size_tree t) /\ height t <= 2 * n + (match c with Red => 0 | Black => 1 end))%nat.
Proof.
  induction 1 as [c | l a r n Hl [IHl1 IHl2] Hr [IHr1 IHr2] | c l a r n Hl [IHl1 IHl2] Hr [IHr1 IHr2]]; cbn [size_tree height].
  - destruct c; cbn; lia.
  - lia.
  - rewrite Nat.pow_succ_r'. destruct c; lia.
Qed.

(** ** The operations on a heap that is a tree *)

(** The heap is a red-black tree (a black root, no red node with a red child, and
    as many black nodes on each path) with the nodes [l] in this order, and has the
    other nodes [F]. *)
Definition rb_tree (h : heap) (l : list Z) (F : list (Z * rb_node)) : Prop :=
  exists t, shape h [] t F /\ (exists m, is_rb t Red m) /\ inorder t = l.

(** C12: a node that is linked in at any place of a red-black tree (the link at the
    end of a path [k]) and given to rb_insert_color makes a red-black tree again,
    with the node between those in front of the place and those behind it. *)
Theorem rb_insert_correct h k x n m F : shape h k Leaf ((x, n) :: F) -> is_rb (plug k Leaf) Red m ->
  exists h1 h2, rb_link_node x (top 0 k) (link_of k) h = Some h1 /\ rb_insert_color x h1 = Some h2 /\
    rb_tree h2 (before k ++ x :: after k) F.
Proof.
  intros H Hm. destruct (rb_link_node_shape _ _ _ _ _ H) as (h1 & Hl & H1).
  destruct (ctx_rb_app k [] Leaf Red m Hm (ctx_root _)) as (d & n1 & Hn & Hc). rewrite app_nil_r in Hc.
  assert (n1 = 0%nat) as -> by (by inversion Hn).
  destruct (rb_insert_color_shape _ _ _ _ _ H1 Hc) as (h2 & t & Hi & H2 & Ho & Hrb). exists h1, h2. split; [done |]. split; [done |].
  exists t. split; [done |]. split; [done |]. by rewrite Ho, inorder_plug_split.
Qed.

(** C4: rb_erase of any node of a red-black tree makes a red-black tree of the
    other nodes in their order, and leaves the memory of the node alone. *)
Theorem rb_erase_correct h l1 x l2 F : rb_tree h (l1 ++ x :: l2) F ->
  exists h' n, rb_erase x h = Some h' /\ rb_tree h' (l1 ++ l2) ((x, n) :: F).
Proof.
  intros (t & H & [m Hm] & Hi). destruct (shape_member t x) as (k & c & l & r & ->); [rewrite Hi; set_solver |].
  pose proof (shape_nodup _ _ _ H) as Hn. apply shape_plug in H. destruct (ctx_rb_app k [] _ _ _ Hm (ctx_root _)) as (d & n & Hd & Hc).
  rewrite app_nil_r in Hc. destruct (rb_erase_shape _ _ _ _ _ _ _ _ _ _ H Hd Hc) as (h' & He & t' & nx & H' & Hm' & i1 & i2 & Ho & Ho').
  exists h', nx. split; [done |]. exists t'. split; [done |]. split; [done |]. rewrite Hi in Ho, Hn. destruct (nodup_split _ _ _ _ _ Hn Ho) as [-> ->]. done.
Qed.

(** rb_first and rb_next go through the nodes of a tree in their order,
    rb_last and rb_prev in the opposite order, and end with a null pointer. *)
Theorem rb_iteration_correct h l F : rb_tree h l F ->
  rb_first h = Some (default 0 (head l)) /\ rb_last h = Some (default 0 (last l)) /\
  forall l1 x l2, l = l1 ++ x :: l2 ->
    rb_next x h = Some (default 0 (head l2)) /\ rb_prev x h = Some (default 0 (last l1)).
Proof.
  intros (t & H & _ & Hi). unfold rb_first, rb_last. rewrite !(rb_end_shape _ _ _ _ H), Hi. split; [done |]. split; [done |].
  intros l1 x l2 ->. unfold rb_next, rb_prev. by rewrite !(rb_step_order _ _ _ _ _ _ _ H Hi).
Qed.

(** the tree of the heap has at most the height 2 * log2 (n + 1) for n nodes. *)
Theorem rb_height_bound h l F : rb_tree h l F ->
  exists t, shape h [] t F /\ inorder t = l /\ (height t <= 2 * Nat.log2 (S (length l)))%nat.
Proof.
  intros (t & H & [m Hm] & Hi). exists t. split; [done |]. split; [done |]. destruct (rb_balanced _ _ _ Hm) as [Hsize Hh]. cbv iota in Hh.
  rewrite size_inorder, Hi in Hsize. apply Nat.log2_le_pow2 in Hsize; lia.
Qed.

(** *** A tree of two nodes *)

Definition small_heap : heap :=
  Heap (list_to_map [(64, Rb 1 128 0); (128, Rb 64 0 0); (32, Rb 7 7 7)]) 64.
Definition small_tree : tree := Node Black Leaf 64 (Node Red Leaf 128 Leaf).

Lemma small_shape : shape small_heap [] small_tree [(32, Rb 7 7 7)].
Proof. split; [done |]. split; [by vm_compute; repeat constructor; set_solver |]. repeat constructor. Defined.
Lemma small_rb : is_rb small_tree Red 1.
Proof. repeat constructor. Defined.

Lemma rb_insert_correct_witness : exists h1 h2, rb_link_node 32 64 (Some L) small_heap = Some h1 /\ rb_insert_color 32 h1 = Some h2 /\ rb_tree h2 [32; 64; 128] [].
Proof.
  apply (rb_insert_correct small_heap [Fr L Black 64 (Node Red Leaf 128 Leaf)] 32 (Rb 7 7 7) 1 []); [| exact small_rb].
  split; [done |]. split; [by vm_compute; repeat constructor; set_solver |]. repeat constructor.
Defined.

Lemma rb_erase_correct_witness : exists h' n, rb_erase 64 small_heap = Some h' /\ rb_tree h' [128] [(64, n); (32, Rb 7 7 7)].
Proof. apply (rb_erase_correct small_heap [] 64 [128] [(32, Rb 7 7 7)]). exists small_tree. split; [exact small_shape |]. split; [exists 1%nat; exact small_rb | done]. Defined.

Lemma rb_iteration_correct_witness : rb_next 64 small_heap = Some 128 /\ rb_prev 64 small_heap = Some 0.
Proof.
  apply (rb_iteration_correct small_heap [64; 128] [(32, Rb 7 7 7)]) with (l1 := []) (l2 := [128]); [| done].
  exists small_tree. split; [exact small_shape |]. split; [exists 1%nat; exact small_rb | done].
Defined.

Lemma rb_height_bound_witness : exists t, shape small_heap [] t [(32, Rb 7 7 7)] /\ inorder t = [64; 128] /\ (height t <= 2)%nat.
Proof. apply (rb_height_bound small_heap [64; 128] [(32, Rb 7 7 7)]). exists small_tree. split; [exact small_shape |]. split; [exists 1%nat; exact small_rb | done]. Defined.
