(* ===== verification/Wl.v ===== *)
(** * Wear-leveling of UBI (drivers/mtd/ubi/wl.c)

    The trees of the physical eraseblocks, on the red-black trees of Rbtree.v:
    free blocks, used blocks, blocks to be scrubbed, and the two trees of the
    protected blocks.  All trees are in one heap.  An entry (struct
    ubi_wl_entry) is the address of its node; a protection entry has its node
    [rb_pnum] at its address and [rb_aec] behind it.  The work queue and its
    workers are in WlWork.v. *)

From stdpp Require Import functions sorting.
From Stdlib Require Import Permutation Sorted.
From S2P Require Import Prelude Rbtree.

Definition ENOMEM : Z := 12.
Definition ENODEV : Z := 19.
Definition ENOSPC : Z := 28.

Definition UBI_LONGTERM : Z := 1.
Definition UBI_SHORTTERM : Z := 2.
Definition UBI_UNKNOWN : Z := 3.

Definition ST_PROTECTION : Z := 16.
Definition U_PROTECTION : Z := 10.
Definition LT_PROTECTION : Z := 4.
Definition UBI_WL_THRESHOLD : Z := 4096.
Definition WL_FREE_MAX_DIFF : Z := 2 * UBI_WL_THRESHOLD.

(** The offset of rb_aec in struct ubi_wl_prot_entry. *)
Definition aec_offset : Z := 12.

(** ** Walking down a tree *)

(** The loop of [wl_tree_add] and [prot_tree_add] that looks for the place of a
    new node: the parent and the link. *)
Fixpoint find_link (fuel : nat) (left : Z -> bool) (parent : Z) (link : option side) (p : Z) (h : heap) : option (Z * option side) :=
  match fuel with
  | O => None
  | S fuel =>
      if p =? 0 then Some (parent, link)
      else
        n ← get p h;
        let s := if left p then L else R in
        find_link fuel left p (Some s) (child s n) h
  end.

Definition tree_add (left : Z -> bool) (node : Z) (h : heap) : option heap :=
  '(parent, link) ← find_link (loop_fuel h) left 0 None (root h) h;
  h ← rb_link_node node parent link h;
  rb_insert_color node h.

(** The loop of [in_wl_tree] and [prot_tree_del]: the node, or 0. *)
Fixpoint search (fuel : nat) (cmp : Z -> comparison) (p : Z) (h : heap) : option Z :=
  match fuel with
  | O => None
  | S fuel =>
      if p =? 0 then Some 0
      else
        n ← get p h;
        match cmp p with
        | Eq => Some p
        | Lt => search fuel cmp (rb_left n) h
        | Gt => search fuel cmp (rb_right n) h
        end
  end.

(** The loop of [find_wl_entry]. *)
Fixpoint closest (fuel : nat) (ec : Z -> Z) (max : Z) (p e : Z) (h : heap) : option Z :=
  match fuel with
  | O => None
  | S fuel =>
      if p =? 0 then Some e
      else
        n ← get p h;
        if max <=? ec p then closest fuel ec max (rb_left n) e h
        else closest fuel ec max (rb_right n) p h
  end.

(** ** The state *)

Inductive tree_id := Free | Used | Scrub | ProtPnum | ProtAec.

#[export] Instance tree_id_eq_dec : EqDecision tree_id.
Proof. solve_decision. Defined.

(** The nodes and the roots, the erase counters of the entries, the protection
    entries, [ubi->abs_ec] and the number of calls of kmalloc. *)
Record wl := Wl {
  w_nodes : gmap Z rb_node; roots : tree_id -> Z; ec : Z -> Z;
  pe_e : Z -> Z; pe_abs_ec : Z -> Z; abs_ec : Z; kmallocs : nat }.

Definition tree_of (id : tree_id) (w : wl) : heap := Heap (w_nodes w) (roots w id).
Definition set_tree (id : tree_id) (h : heap) (w : wl) : wl :=
  Wl (nodes h) (<[id := root h]> (roots w)) (ec w) (pe_e w) (pe_abs_ec w) (abs_ec w) (kmallocs w).
Definition in_tree (id : tree_id) (f : heap -> option heap) (w : wl) : option wl := h ← f (tree_of id w); Some (set_tree id h w).
Definition kfree (pe : Z) (w : wl) : wl :=
  Wl (delete pe (delete (pe + aec_offset) (w_nodes w))) (roots w) (ec w) (pe_e w) (pe_abs_ec w) (abs_ec w) (kmallocs w).

Section Wl.
(** [e->pnum], and the address kmalloc returns (0 for a failure) depending on
    the number of the call and the nodes that are in use. *)
Context (pnum : Z -> Z) (kmalloc_address : nat -> gmap Z rb_node -> Z).

(** kmalloc of a protection entry; its nodes have arbitrary contents. *)
Definition kmalloc (w : wl) : Z * wl :=
  let pe := kmalloc_address (kmallocs w) (w_nodes w) in
  (pe, Wl (if pe =? 0 then w_nodes w else <[pe := Rb 0 0 0]> (<[pe + aec_offset := Rb 0 0 0]> (w_nodes w)))
         (roots w) (ec w) (pe_e w) (pe_abs_ec w) (abs_ec w) (S (kmallocs w))).

(** [e] is in front of [e1]. *)
Definition goes_left (ec : Z -> Z) (e e1 : Z) : bool :=
  if ec e <? ec e1 then true else if ec e1 <? ec e then false else pnum e <? pnum e1.

Definition wl_tree_add (id : tree_id) (e : Z) (w : wl) : option wl := in_tree id (tree_add (goes_left (ec w) e) e) w.

Definition in_wl_tree (id : tree_id) (e : Z) (w : wl) : option bool :=
  let cmp e1 := if pnum e =? pnum e1 then Eq else if goes_left (ec w) e e1 then Lt else Gt in
  p ← search (loop_fuel (tree_of id w)) cmp (roots w id) (tree_of id w);
  Some (negb (p =? 0)).

Definition find_wl_entry (id : tree_id) (max : Z) (w : wl) : option Z :=
  e ← rb_first (tree_of id w);
  _ ← get e (tree_of id w);
  let max := s32 (max + ec w e) in
  closest (loop_fuel (tree_of id w)) (ec w) max (roots w id) e (tree_of id w).

Definition prot_tree_add (e pe protect : Z) (w : wl) : option wl :=
  let w := Wl (w_nodes w) (roots w) (ec w) (<[pe := e]> (pe_e w)) (<[pe := u64 (abs_ec w + protect)]> (pe_abs_ec w))
             (abs_ec w) (kmallocs w) in
  w ← in_tree ProtPnum (tree_add (fun pe1 => pnum e <? pnum (pe_e w pe1)) pe) w;
  in_tree ProtAec (tree_add (fun p => pe_abs_ec w pe <? pe_abs_ec w (p - aec_offset)) (pe + aec_offset)) w.

(** The choice of [ubi_wl_get_peb] and the protection time. *)
Definition choose (dtype : Z) (w : wl) : option (Z * Z) :=
  if dtype =? UBI_LONGTERM then
    e ← find_wl_entry Free WL_FREE_MAX_DIFF w; Some (e, LT_PROTECTION)
  else if dtype =? UBI_UNKNOWN then
    first ← rb_first (tree_of Free w);
    last ← rb_last (tree_of Free w);
    if s32 (ec w last - ec w first) <? WL_FREE_MAX_DIFF then Some (roots w Free, U_PROTECTION)
    else
      let medium_ec := Z.quot (s32 (ec w first + WL_FREE_MAX_DIFF)) 2 in
      e ← find_wl_entry Free medium_ec w; Some (e, U_PROTECTION)
  else if dtype =? UBI_SHORTTERM then
    e ← rb_first (tree_of Free w); Some (e, ST_PROTECTION)
  else None.

(** The end of [ubi_wl_get_peb], when there is a free block. *)
Definition take_free (dtype pe : Z) (w : wl) : option (Z * wl) :=
  '(e, protect) ← choose dtype w;
  w ← in_tree Free (rb_erase e) w;
  w ← prot_tree_add e pe protect w;
  Some (pnum e, w).

Definition prot_tree_del (n : Z) (w : wl) : option (Z * wl) :=
  let cmp pe := if n =? pnum (pe_e w pe) then Eq else if n <? pnum (pe_e w pe) then Lt else Gt in
  pe ← search (loop_fuel (tree_of ProtPnum w)) cmp (roots w ProtPnum) (tree_of ProtPnum w);
  if pe =? 0 then Some (- ENODEV, w)
  else
    w ← in_tree ProtAec (rb_erase (pe + aec_offset)) w;
    w ← in_tree ProtPnum (rb_erase pe) w;
    Some (0, kfree pe w).

(** A round of [check_protection_over]: whether an entry was moved. *)
Definition protection_round (w : wl) : option (bool * wl) :=
  if roots w ProtAec =? 0 then Some (false, w)
  else
    p ← rb_first (tree_of ProtAec w);
    let pe := p - aec_offset in
    if abs_ec w <? pe_abs_ec w pe then Some (false, w)
    else
      w ← in_tree ProtAec (rb_erase (pe + aec_offset)) w;
      w ← in_tree ProtPnum (rb_erase pe) w;
      w ← wl_tree_add Used (pe_e w pe) w;
      Some (true, kfree pe w).

Fixpoint protection_loop (fuel : nat) (w : wl) : option wl :=
  match fuel with
  | O => None
  | S fuel => '(more, w) ← protection_round w; if more : bool then protection_loop fuel w else Some w
  end.

(** Each round removes a node. *)
Definition check_protection_over (w : wl) : option wl := protection_loop (loop_fuel (tree_of ProtAec w)) w.
End Wl.

(** ** Walking down a shape *)

Lemma find_link_shape left h F : forall fuel k t, shape h k t F -> (length (cells (top 0 k) t) < fuel)%nat ->
  StronglySorted (fun a b => left a = true -> left b = true) (inorder t) ->
  exists k', find_link fuel left (top 0 k) (link_of k) (ptr t) h = Some (top 0 (k' ++ k), link_of (k' ++ k)) /\
    shape h (k' ++ k) Leaf F /\ plug k' Leaf = t /\ Forall (fun a => left a = false) (before k') /\ Forall (fun a => left a = true) (after k').
Proof.
  intros fuel k t. revert fuel k. induction t as [| c l IHl a r IHr]; intros [| fuel] k H Hf Hs; try (cbn in Hf; lia).
  - exists []. cbn. split_and!; [done | done | done | constructor | constructor].
  - cbn [find_link ptr]. rewrite (Node_T L) in H. cbn [pick opp] in H. destruct (shape_get _ _ _ _ _ _ _ _ H) as (-> & [Ha _] & _).
    rewrite (proj2 (Z.eqb_neq a 0)) by lia. cbn [mbind option_bind]. cbn [inorder] in Hs. apply StronglySorted_app in Hs as (Hlr & Hsl & Hsr).
    apply StronglySorted_inv in Hsr as [Hsr Har]. cbn [cells length] in Hf. rewrite length_app in Hf.
    destruct (left a) eqn:Hleft.
    + destruct (IHl fuel _ (shape_down _ _ _ _ _ _ _ _ H)) as (k' & He & H' & Hp & Hb & Hf'); [cbn; lia | done |].
      exists (k' ++ [Fr L c a r]). cbn [top faddr link_of child rbn rb_left] in *. rewrite He, <- app_assoc. cbn [app]. split; [done |]. split; [done |].
      rewrite plug_app, Hp. split; [done |]. rewrite before_app, after_app. cbn [before after]. rewrite app_nil_l, app_nil_r.
      split; [done |]. apply Forall_app_2; [done |]. constructor; [done |].
      rewrite Forall_forall in Har |- *. intros b Hb'. by apply Har.
    + destruct (IHr fuel _ (shape_down_opp _ _ _ _ _ _ _ _ H)) as (k' & He & H' & Hp & Hb & Hf'); [cbn; lia | done |].
      exists (k' ++ [Fr R c a l]). cbn [opp top faddr link_of child rbn rb_right] in *. rewrite He, <- app_assoc. cbn [app]. split; [done |]. split; [done |].
      rewrite plug_app, Hp. split; [done |]. rewrite before_app, after_app. cbn [before after app]. rewrite app_nil_r.
      split; [| done]. apply Forall_app_2; [| done]. apply Forall_app_2; [| by repeat constructor].
      rewrite Forall_forall. intros b Hb'. destruct (left b) eqn:Hlb; [| done]. rewrite (Hlr b a) in Hleft; [done | done | left | done].
Qed.

(** [l] with [x] inserted behind the elements [x] does not go left of. *)
Definition inserted (left : Z -> bool) (x : Z) (l l' : list Z) : Prop :=
  exists l1 l2, l = l1 ++ l2 /\ l' = l1 ++ x :: l2 /\ Forall (fun a => left a = false) l1 /\ Forall (fun a => left a = true) l2.

Lemma tree_add_shape left x n h t F : shape h [] t ((x, n) :: F) -> (exists m, is_rb t Red m) ->
  StronglySorted (fun a b => left a = true -> left b = true) (inorder t) ->
  exists h' t', tree_add left x h = Some h' /\ shape h' [] t' F /\ (exists m, is_rb t' Red m) /\ inserted left x (inorder t) (inorder t').
Proof.
  intros H [m Hrb] Hs. unfold tree_add. pose proof (shape_fuel _ _ _ _ H) as Hf. cbn [length] in Hf.
  destruct (find_link_shape left h _ (loop_fuel h) [] t H) as (k & He & Hk & Hp & Hb & Ha); [lia | done |].
  assert (root h = ptr t) as -> by apply H. cbn [top link_of] in He. rewrite He. cbn [mbind option_bind]. rewrite !app_nil_r in *.
  destruct (rb_link_node_shape _ _ _ _ _ Hk) as (h1 & -> & H1). cbn [mbind option_bind]. rewrite <- Hp in Hrb.
  destruct (ctx_rb_app k [] Leaf Red m Hrb (ctx_root _)) as (d & n1 & Hl & Hc). rewrite app_nil_r in Hc.
  assert (n1 = 0%nat) as -> by (by inversion Hl).
  destruct (rb_insert_color_shape _ _ _ _ _ H1 Hc) as (h2 & t2 & -> & H2 & Hi & Hm). exists h2, t2.
  split; [done |]. split; [done |]. split; [done |]. exists (before k), (after k). rewrite Hi, <- Hp, !inorder_plug_split. by split_and!.
Qed.

(** The element a search finds, or 0. *)
Lemma search_shape cmp h F : forall fuel k t, shape h k t F -> (length (cells (top 0 k) t) < fuel)%nat ->
  StronglySorted (fun a b => cmp a <> Gt -> cmp b = Lt) (inorder t) ->
  exists p, search fuel cmp (ptr t) h = Some p /\
    ((p = 0 /\ Forall (fun a => cmp a <> Eq) (inorder t)) \/ (0 < p /\ p ∈ inorder t /\ cmp p = Eq)).
Proof.
  intros fuel k t. revert fuel k. induction t as [| c l IHl a r IHr]; intros [| fuel] k H Hf Hs; try (cbn in Hf; lia).
  - exists 0. split; [done |]. left. split; [done | constructor].
  - cbn [search ptr]. rewrite (Node_T L) in H. cbn [pick opp] in H. destruct (shape_get _ _ _ _ _ _ _ _ H) as (-> & [Ha _] & _).
    rewrite (proj2 (Z.eqb_neq a 0)) by lia. cbn [mbind option_bind rbn rb_left rb_right]. cbn [inorder] in *. apply StronglySorted_app in Hs as (Hlr & Hsl & Hsr).
    apply StronglySorted_inv in Hsr as [Hsr Har]. cbn [cells length] in Hf. rewrite length_app in Hf. rewrite Forall_forall in Har.
    destruct (cmp a) eqn:Hc.
    + exists a. split; [done |]. right. split; [done |]. split; [set_solver | done].
    + destruct (IHl fuel _ (shape_down _ _ _ _ _ _ _ _ H)) as (p & -> & Hp); [cbn; lia | done |]. exists p. split; [done |].
      destruct Hp as [[-> Hn] | (? & ? & ?)]; [left | right; split_and!; set_solver]. split; [done |]. apply Forall_app_2; [done |]. constructor; [congruence |].
      apply Forall_forall. intros b Hb. rewrite (Har b); [done | done | congruence].
    + destruct (IHr fuel _ (shape_down_opp _ _ _ _ _ _ _ _ H)) as (p & -> & Hp); [cbn; lia | done |]. exists p. split; [done |].
      destruct Hp as [[-> Hn] | (? & ? & ?)]; [left | right; split_and!; set_solver]. split; [done |]. apply Forall_app_2; [| constructor; [congruence | done]].
      apply Forall_forall. intros b Hb He. rewrite (Hlr b a) in Hc; [done | done | left | congruence].
Qed.

Lemma last_app_cons (l1 l2 : list Z) a e : List.last (l1 ++ a :: l2) e = List.last l2 a.
Proof.
  induction l1 as [| b l1 IH]; cbn [app].
  - revert a e. induction l2 as [| c l2 IH2]; intros a e; [done |]. change (List.last (a :: c :: l2) e) with (List.last (c :: l2) e). by rewrite !IH2.
  - destruct l1; [exact IH | exact IH].
Qed.

(** The last element whose erase counter is below [max], or [e]. *)
Lemma closest_shape ec max h F : forall fuel k t e, shape h k t F -> (length (cells (top 0 k) t) < fuel)%nat ->
  StronglySorted (fun a b => ec a <= ec b) (inorder t) ->
  exists l1 l2, inorder t = l1 ++ l2 /\ closest fuel ec max (ptr t) e h = Some (List.last l1 e) /\
    Forall (fun a => ec a < max) l1 /\ Forall (fun a => max <= ec a) l2.
Proof.
  intros fuel k t. revert fuel k. induction t as [| c l IHl a r IHr]; intros [| fuel] k e H Hf Hs; try (cbn in Hf; lia).
  - by exists [], [].
  - cbn [closest ptr]. rewrite (Node_T L) in H. cbn [pick opp] in H. destruct (shape_get _ _ _ _ _ _ _ _ H) as (-> & [Ha _] & _).
    rewrite (proj2 (Z.eqb_neq a 0)) by lia. cbn [mbind option_bind rbn rb_left rb_right]. cbn [inorder] in *. apply StronglySorted_app in Hs as (Hlr & Hsl & Hsr).
    apply StronglySorted_inv in Hsr as [Hsr Har]. cbn [cells length] in Hf. rewrite length_app in Hf. rewrite Forall_forall in Har.
    destruct (Z.leb_spec max (ec a)) as [Hge | Hlt].
    + destruct (IHl fuel _ e (shape_down _ _ _ _ _ _ _ _ H)) as (l1 & l2 & -> & He & H1 & H2); [cbn; lia | done |].
      exists l1, (l2 ++ a :: inorder r). split; [by simplify_list_eq |]. split; [done |]. split; [done |]. apply Forall_app_2; [done |].
      constructor; [done |]. apply Forall_forall. intros b Hb. specialize (Har b Hb). lia.
    + destruct (IHr fuel _ a (shape_down_opp _ _ _ _ _ _ _ _ H)) as (l1 & l2 & -> & He & H1 & H2); [cbn; lia | done |].
      exists (inorder l ++ a :: l1), l2. split; [by simplify_list_eq |]. split.
      { by rewrite He, last_app_cons. }
      split; [| done]. apply Forall_app_2; [| by constructor]. apply Forall_forall. intros b Hb. specialize (Hlr b a Hb ltac:(left)). lia.
Qed.

(** ** The trees in one heap *)

Definition others (id : tree_id) (ts : tree_id -> tree) : list (Z * rb_node) :=
  let c id' := if decide (id' = id) then [] else cells 0 (ts id') in
  c Free ++ c Used ++ c Scrub ++ c ProtPnum ++ c ProtAec.
Definition all_cells (ts : tree_id -> tree) : list (Z * rb_node) :=
  cells 0 (ts Free) ++ cells 0 (ts Used) ++ cells 0 (ts Scrub) ++ cells 0 (ts ProtPnum) ++ cells 0 (ts ProtAec).

(** The heap has the trees [ts] and the nodes [G] outside of them. *)
Definition trees_hold (w : wl) (ts : tree_id -> tree) (G : list (Z * rb_node)) : Prop :=
  (forall id, roots w id = ptr (ts id) /\ exists m, is_rb (ts id) Red m) /\ holds (Heap (w_nodes w) 0) (all_cells ts ++ G).

Lemma all_cells_others id ts : all_cells ts ≡ₚ cells 0 (ts id) ++ others id ts.
Proof. unfold all_cells, others. destruct id; cbn; solve_Permutation. Qed.
Lemma others_update id t ts : others id (<[id := t]> ts) = others id ts.
Proof. destruct id; reflexivity. Qed.

Lemma holds_heap h r l : holds (Heap (nodes h) r) l <-> holds h l.
Proof. done. Qed.

Lemma tree_focus w ts G id : trees_hold w ts G -> shape (tree_of id w) [] (ts id) (others id ts ++ G).
Proof.
  intros [Hr H]. split; [apply Hr |]. cbn [top ctx_cells app]. apply (holds_heap (Heap (w_nodes w) 0)). revert H.
  apply holds_perm. rewrite (all_cells_others id). solve_Permutation.
Qed.

Lemma tree_unfocus w ts G G' id h' t' : trees_hold w ts G -> shape h' [] t' (others id ts ++ G') -> (exists m, is_rb t' Red m) ->
  trees_hold (set_tree id h' w) (<[id := t']> ts) G'.
Proof.
  intros [Hr H] [Hroot H'] Hm. cbn [rt top ctx_cells app] in *. split.
  - intros id'. cbn [set_tree roots]. destruct (decide (id = id')) as [<- | Hne]; [by rewrite !fn_lookup_insert | by rewrite !fn_lookup_insert_ne].
  - cbn [set_tree w_nodes]. apply (holds_heap h'). revert H'. apply holds_perm.
    rewrite (all_cells_others id), fn_lookup_insert, others_update. solve_Permutation.
Qed.

(** What the operations on the trees leave alone. *)
Definition same_rest (w w' : wl) : Prop :=
  ec w' = ec w /\ pe_e w' = pe_e w /\ pe_abs_ec w' = pe_abs_ec w /\ abs_ec w' = abs_ec w /\ kmallocs w' = kmallocs w.

Lemma in_tree_add w ts G id left x n : trees_hold w ts ((x, n) :: G) ->
  StronglySorted (fun a b => left a = true -> left b = true) (inorder (ts id)) ->
  exists w' t', in_tree id (tree_add left x) w = Some w' /\ trees_hold w' (<[id := t']> ts) G /\
    inserted left x (inorder (ts id)) (inorder t') /\ same_rest w w'.
Proof.
  intros Hw Hs. pose proof (tree_focus _ _ _ id Hw) as H.
  assert (shape (tree_of id w) [] (ts id) ((x, n) :: others id ts ++ G)) as H2.
  { destruct H as [Hr H]. split; [done |]. revert H. apply holds_perm. solve_Permutation. }
  destruct (tree_add_shape left x n _ _ _ H2 (proj2 (proj1 Hw id)) Hs) as (h' & t' & He & H' & Hm & Hi).
  exists (set_tree id h' w), t'. unfold in_tree. rewrite He. split; [done |]. split; [by eapply tree_unfocus | done].
Qed.

Lemma in_tree_erase w ts G id x : trees_hold w ts G -> x ∈ inorder (ts id) ->
  exists w' t' n, in_tree id (rb_erase x) w = Some w' /\ trees_hold w' (<[id := t']> ts) ((x, n) :: G) /\ same_rest w w' /\
    exists l1 l2, inorder (ts id) = l1 ++ x :: l2 /\ inorder t' = l1 ++ l2.
Proof.
  intros Hw Hx. pose proof (tree_focus _ _ _ id Hw) as H. destruct (proj1 Hw id) as [_ [m Hm]].
  destruct (shape_member _ _ Hx) as (k & c & l & r & Ht). rewrite Ht in H, Hm. apply shape_plug in H.
  destruct (ctx_rb_app k [] _ _ _ Hm (ctx_root _)) as (d & n & Hd & Hc). rewrite app_nil_r in Hc.
  destruct (rb_erase_shape _ _ _ _ _ _ _ _ _ _ H Hd Hc) as (h' & He & t' & nx & H' & Hm' & l1 & l2 & Hi & Hi').
  exists (set_tree id h' w), t', nx. unfold in_tree. rewrite He. split; [done |]. split; [| split; [done |]].
  - eapply tree_unfocus; [done | | done]. destruct H' as [Hr H']. split; [done |]. revert H'. apply holds_perm. solve_Permutation.
  - exists l1, l2. by rewrite Ht.
Qed.

Lemma nodup_fst {A B} (l l' : list (A * B)) : l ≡ₚ l' -> NoDup l.*1 -> NoDup l'.*1.
Proof. by intros ->. Qed.

Lemma trees_hold_perm w ts G G' : G ≡ₚ G' -> trees_hold w ts G -> trees_hold w ts G'.
Proof. intros Hp [Hr H]. split; [done |]. revert H. apply holds_perm. by rewrite Hp. Qed.

Lemma trees_hold_outside w ts x n G id : trees_hold w ts ((x, n) :: G) -> x ∉ inorder (ts id).
Proof.
  intros [_ [H _]] Hx. apply (nodup_fst _ ((x, n) :: cells 0 (ts id) ++ others id ts ++ G)) in H.
  - cbn in H. apply NoDup_cons in H as [H _]. apply H. rewrite fmap_app. apply elem_of_app. left. by rewrite cells_inorder.
  - rewrite (all_cells_others id). solve_Permutation.
Qed.

Lemma kmalloc_hold w ts G pe : trees_hold w ts G -> addr_ok pe -> addr_ok (pe + aec_offset) ->
  w_nodes w !! pe = None -> w_nodes w !! (pe + aec_offset) = None ->
  holds (Heap (<[pe := Rb 0 0 0]> (<[pe + aec_offset := Rb 0 0 0]> (w_nodes w))) 0)
    (all_cells ts ++ (pe, Rb 0 0 0) :: (pe + aec_offset, Rb 0 0 0) :: G).
Proof.
  intros [_ [Hn Hf]] Hp Hq Hfp Hfq. apply (holds_perm _ ((pe, Rb 0 0 0) :: (pe + aec_offset, Rb 0 0 0) :: all_cells ts ++ G)); [solve_Permutation |].
  assert (forall x, w_nodes w !! x = None -> x ∉ (all_cells ts ++ G).*1) as Hout.
  { intros x Hx Hin. apply list_elem_of_fmap in Hin as ([a n] & -> & Hin). rewrite Forall_forall in Hf. destruct (Hf _ Hin) as [_ Hl]. cbn in Hl, Hx. congruence. }
  assert (pe <> pe + aec_offset) as Hne by (unfold aec_offset; lia). split.
  - rewrite !fmap_cons. apply NoDup_cons. split; [| apply NoDup_cons; split; [by apply Hout | done]].
    rewrite elem_of_cons. intros [? | Hin]; [done | by apply (Hout pe)].
  - constructor; [split; [done |]; cbn; apply lookup_insert_eq |]. constructor; [split; [done |]; cbn; rewrite lookup_insert_ne by done; apply lookup_insert_eq |].
    apply Forall_forall. intros [a n] Hin. rewrite Forall_forall in Hf. destruct (Hf _ Hin) as [Ha Hl]. split; [done |]. cbn in *.
    rewrite !lookup_insert_ne; [done | |]; intros <-; congruence.
Qed.

Lemma kfree_hold w ts G pe n m : trees_hold w ts ((pe, n) :: (pe + aec_offset, m) :: G) -> trees_hold (kfree pe w) ts G.
Proof.
  intros [Hr [Hn Hf]]. split; [done |].
  apply (nodup_fst _ ((pe, n) :: (pe + aec_offset, m) :: all_cells ts ++ G)) in Hn; [| solve_Permutation].
  cbn in Hn. apply NoDup_cons in Hn as [Hp Hn]. apply NoDup_cons in Hn as [Hq Hn]. split; [done |].
  apply Forall_forall. intros [a k] Hin. rewrite Forall_forall in Hf. destruct (Hf (a, k)) as [Ha Hl].
  { rewrite elem_of_app, !elem_of_cons. apply elem_of_app in Hin as [? | ?]; auto. }
  split; [done |]. cbn in *. assert (a ∈ (all_cells ts ++ G).*1) as Hin' by (apply list_elem_of_fmap; by exists (a, k)).
  rewrite !lookup_delete_ne; [done | |]; intros <-; [done | apply Hp; by right].
Qed.

(** The nodes [l] are among the loose ones. *)
Definition loose_ok (G : list (Z * rb_node)) (l : list Z) : Prop := exists X, G.*1 ≡ₚ l ++ X.

Lemma loose_perm G l l' : l ≡ₚ l' -> loose_ok G l -> loose_ok G l'.
Proof. intros Hp [X H]. exists X. by rewrite <- Hp. Qed.
Lemma loose_cons G x n l : loose_ok G l -> loose_ok ((x, n) :: G) (x :: l).
Proof. intros [X H]. exists X. cbn. by rewrite H. Qed.
Lemma loose_skip G x n l : loose_ok G l -> loose_ok ((x, n) :: G) l.
Proof. intros [X H]. exists (x :: X). cbn. rewrite H. solve_Permutation. Qed.
Lemma loose_take G x l : loose_ok G (x :: l) -> exists n G', G ≡ₚ (x, n) :: G' /\ loose_ok G' l.
Proof.
  intros [X H]. assert (x ∈ G.*1) as Hx by (rewrite H; left). apply list_elem_of_fmap in Hx as ([a n] & -> & Hx).
  apply elem_of_Permutation in Hx as [G' HG]. exists n, G'. split; [done |]. exists X. rewrite HG in H. cbn in H. by apply Permutation_cons_inv in H.
Qed.

(** *** Sorted lists *)

Lemma inserted_sorted (R : Z -> Z -> Prop) left x l l' : inserted left x l l' -> StronglySorted R l ->
  (forall a, a ∈ l -> left a = false -> R a x) -> (forall a, a ∈ l -> left a = true -> R x a) ->
  StronglySorted R l'.
Proof.
  intros (l1 & l2 & -> & -> & H1 & H2) Hs Hf Ht. apply StronglySorted_app in Hs as (H12 & Hs1 & Hs2).
  rewrite Forall_forall in H1, H2. apply StronglySorted_app. split_and!; [| done |].
  - intros a b Ha Hb. apply elem_of_cons in Hb as [-> | Hb]; [apply Hf; [set_solver | by apply H1] | by apply H12].
  - constructor; [done |]. apply Forall_forall. intros b Hb. apply Ht; [set_solver | by apply H2].
Qed.

Lemma inserted_perm left x l l' : inserted left x l l' -> l' ≡ₚ x :: l.
Proof. intros (l1 & l2 & -> & -> & _). solve_Permutation. Qed.

Lemma StronglySorted_impl {A} (R S : A -> A -> Prop) l : (forall a b, a ∈ l -> b ∈ l -> R a b -> S a b) -> StronglySorted R l -> StronglySorted S l.
Proof.
  intros H. induction 1 as [| a l Hs IH Hf]; [constructor |]. constructor.
  - apply IH. intros b c Hb Hc. apply H; by right.
  - rewrite Forall_forall in Hf |- *. intros b Hb. apply H; [left | by right | by apply Hf].
Qed.

Lemma StronglySorted_remove {A} (R : A -> A -> Prop) l1 x l2 : StronglySorted R (l1 ++ x :: l2) -> StronglySorted R (l1 ++ l2).
Proof.
  intros (H12 & H1 & H2)%StronglySorted_app. apply StronglySorted_inv in H2 as [H2 _]. apply StronglySorted_app.
  split_and!; [| done | done]. intros a b Ha Hb. apply H12; [done | by right].
Qed.

Section Rep.
Context (pnum : Z -> Z).
#[local] Abbreviation in_front := (goes_left pnum).

Lemma goes_left_spec ec a b : in_front ec a b = true <-> ec a < ec b \/ (ec a = ec b /\ pnum a < pnum b).
Proof. unfold in_front. destruct (Z.ltb_spec (ec a) (ec b)), (Z.ltb_spec (ec b) (ec a)), (Z.ltb_spec (pnum a) (pnum b)); intuition lia. Qed.
Lemma goes_left_false ec a b : in_front ec a b = false <-> ec b < ec a \/ (ec a = ec b /\ pnum b <= pnum a).
Proof. unfold in_front. destruct (Z.ltb_spec (ec a) (ec b)), (Z.ltb_spec (ec b) (ec a)), (Z.ltb_spec (pnum a) (pnum b)); intuition lia. Qed.

(** The trees of blocks, ordered by the erase counter and the number. *)
Definition block_tree (id : tree_id) : Prop := id = Free \/ id = Used \/ id = Scrub.
Definition key_lt (ec : Z -> Z) (a b : Z) : Prop := in_front ec a b = true.

(** The protected entries, and all entries when [loose] are outside of the
    trees. *)
Definition protected (w : wl) (ts : tree_id -> tree) : list Z := pe_e w <$> inorder (ts ProtPnum).
Definition entries (w : wl) (ts : tree_id -> tree) (loose : list Z) : list Z :=
  inorder (ts Free) ++ inorder (ts Used) ++ inorder (ts Scrub) ++ protected w ts ++ loose.

(** The heap has the trees, the nodes of the loose and the protected entries,
    and the nodes [X] that are in use otherwise. *)
Definition heap_rep (w : wl) (ts : tree_id -> tree) (loose : list Z) (X : list (Z * rb_node)) : Prop :=
  exists G, trees_hold w ts (X ++ G) /\ loose_ok G (protected w ts ++ loose).

Record wl_rep (w : wl) (ts : tree_id -> tree) (loose : list Z) (X : list (Z * rb_node)) : Prop := {
  rep_heap : heap_rep w ts loose X;
  rep_sorted : forall id, block_tree id -> StronglySorted (key_lt (ec w)) (inorder (ts id));
  rep_pnum : StronglySorted (fun a b => pnum (pe_e w a) < pnum (pe_e w b)) (inorder (ts ProtPnum));
  rep_aec : StronglySorted (fun a b => pe_abs_ec w (a - aec_offset) <= pe_abs_ec w (b - aec_offset)) (inorder (ts ProtAec));
  rep_prot : inorder (ts ProtAec) ≡ₚ (fun pe => pe + aec_offset) <$> inorder (ts ProtPnum);
  rep_distinct : NoDup (pnum <$> entries w ts loose) }.

(** *** The operations keep the representation *)

Lemma entries_distinct w ts loose X a b : wl_rep w ts loose X -> a ∈ entries w ts loose -> b ∈ entries w ts loose -> pnum a = pnum b -> a = b.
Proof.
  intros H Ha Hb He. pose proof (rep_distinct _ _ _ _ H) as Hn. apply list_elem_of_lookup in Ha as [i Hi], Hb as [j Hj].
  assert (i = j) as ->; [| congruence]. eapply NoDup_lookup; [exact Hn | by rewrite list_lookup_fmap, Hi |]. by rewrite list_lookup_fmap, Hj, He.
Qed.

Lemma entries_block id w ts loose a : block_tree id -> a ∈ inorder (ts id) -> a ∈ entries w ts loose.
Proof. unfold entries. intros [-> | [-> | ->]]; set_solver. Qed.

Lemma block_update id (ts : tree_id -> tree) (t : tree) id' : block_tree id -> (id' = ProtPnum \/ id' = ProtAec) -> <[id := t]> ts id' = ts id'.
Proof. by intros [-> | [-> | ->]] [-> | ->]. Qed.

Lemma entries_update id w (ts : tree_id -> tree) (t : tree) loose x : block_tree id -> inorder t ≡ₚ x :: inorder (ts id) ->
  entries w (<[id := t]> ts) loose ≡ₚ entries w ts (x :: loose).
Proof.
  intros Hid Ht. unfold entries, protected. destruct Hid as [-> | [-> | ->]]; cbn; rewrite Ht; solve_Permutation.
Qed.

Lemma same_rest_prot w w' ts : same_rest w w' -> protected w' ts = protected w ts.
Proof. intros (_ & Hp & _). unfold protected. by rewrite Hp. Qed.
Lemma same_rest_entries w w' ts l : same_rest w w' -> entries w' ts l = entries w ts l.
Proof. intros H. unfold entries. by rewrite (same_rest_prot _ _ _ H). Qed.

Lemma loose_distinct w ts e loose X a : wl_rep w ts (e :: loose) X -> a ∈ entries w ts loose -> pnum a <> pnum e.
Proof.
  intros H Ha Heq. pose proof (rep_distinct _ _ _ _ H) as Hn.
  assert (entries w ts (e :: loose) ≡ₚ e :: entries w ts loose) as Hp by (unfold entries; solve_Permutation).
  rewrite Hp in Hn. cbn in Hn. apply NoDup_cons in Hn as [Hn _]. apply Hn. apply list_elem_of_fmap. by exists a.
Qed.

(** A loose entry is added to a tree of blocks. *)
Lemma rep_add w ts e loose X id : wl_rep w ts (e :: loose) X -> block_tree id ->
  exists w' t', wl_tree_add pnum id e w = Some w' /\ wl_rep w' (<[id := t']> ts) loose X /\ same_rest w w' /\
    inorder t' ≡ₚ e :: inorder (ts id).
Proof.
  intros H Hid. destruct (rep_heap _ _ _ _ H) as (G & Ht & Hl). destruct (loose_take G e (protected w ts ++ loose)) as (n & G' & HG & Hl').
  { eapply loose_perm; [| exact Hl]. solve_Permutation. }
  apply (trees_hold_perm _ _ _ ((e, n) :: X ++ G')) in Ht; [| rewrite HG; solve_Permutation]. pose proof (rep_sorted _ _ _ _ H id Hid) as Hs.
  destruct (in_tree_add w ts _ id (in_front (ec w) e) e n Ht) as (w' & t' & He & Ht' & Hi & Hr).
  { revert Hs. apply StronglySorted_impl. intros a b _ _. unfold key_lt. rewrite !goes_left_spec. lia. }
  exists w', t'. split; [done |]. split; [| split; [done | by apply inserted_perm in Hi]].
  destruct Hr as (Hec & Hpe & Hpa & _). split; rewrite ?Hec, ?Hpe, ?Hpa.
  - exists G'. split; [done |]. unfold protected. by rewrite Hpe, block_update by auto.
  - intros id' Hid'. destruct (decide (id = id')) as [<- | Hne]; [| rewrite fn_lookup_insert_ne by done; by apply (rep_sorted _ _ _ _ H)].
    rewrite fn_lookup_insert. eapply inserted_sorted; [exact Hi | done | | by intros a _].
    intros a Ha Hfa. unfold key_lt. apply goes_left_false in Hfa. rewrite goes_left_spec.
    assert (pnum a <> pnum e); [| lia]. intros Hpn. assert (a = e) as ->.
    { eapply (entries_distinct _ _ _ _ _ _ H); [by eapply entries_block | unfold entries; set_solver | done]. }
    by apply (trees_hold_outside _ _ _ _ _ id Ht).
  - rewrite block_update by auto. apply (rep_pnum _ _ _ _ H).
  - rewrite block_update by auto. apply (rep_aec _ _ _ _ H).
  - rewrite !block_update by auto. apply (rep_prot _ _ _ _ H).
  - unfold entries, protected. rewrite Hpe. fold (protected w (<[id:=t']> ts)). fold (entries w (<[id:=t']> ts) loose).
    rewrite (entries_update _ _ _ _ _ e Hid) by (by eapply inserted_perm). apply (rep_distinct _ _ _ _ H).
Qed.

(** An entry leaves a tree of blocks. *)
Lemma rep_erase w ts e loose X id : wl_rep w ts loose X -> block_tree id -> e ∈ inorder (ts id) ->
  exists w' t', in_tree id (rb_erase e) w = Some w' /\ wl_rep w' (<[id := t']> ts) (e :: loose) X /\ same_rest w w' /\
    exists l1 l2, inorder (ts id) = l1 ++ e :: l2 /\ inorder t' = l1 ++ l2.
Proof.
  intros H Hid Hin. destruct (rep_heap _ _ _ _ H) as (G & Ht & Hl).
  destruct (in_tree_erase _ _ _ id e Ht Hin) as (w' & t' & n & He & Ht' & Hr & l1 & l2 & Hi & Hi').
  exists w', t'. split; [done |]. split; [| split; [done | by exists l1, l2]].
  assert (entries w (<[id := t']> ts) (e :: loose) ≡ₚ entries w ts loose) as Hent.
  { symmetry. assert (inorder (ts id) ≡ₚ e :: inorder t') as Hp by (rewrite Hi, Hi'; solve_Permutation).
    unfold entries, protected. destruct Hid as [-> | [-> | ->]]; cbn; rewrite Hp; solve_Permutation. }
  destruct Hr as (Hec & Hpe & Hpa & _). split; rewrite ?Hec, ?Hpe, ?Hpa.
  - exists ((e, n) :: G). split; [revert Ht'; apply trees_hold_perm; solve_Permutation |]. unfold protected. rewrite Hpe, block_update by auto.
    eapply loose_perm; [| apply loose_cons, Hl]. unfold protected. solve_Permutation.
  - intros id' Hid'. destruct (decide (id = id')) as [<- | Hne]; [| rewrite fn_lookup_insert_ne by done; by apply (rep_sorted _ _ _ _ H)].
    rewrite fn_lookup_insert, Hi'. apply StronglySorted_remove with (x := e). rewrite <- Hi. by apply (rep_sorted _ _ _ _ H).
  - rewrite block_update by auto. apply (rep_pnum _ _ _ _ H).
  - rewrite block_update by auto. apply (rep_aec _ _ _ _ H).
  - rewrite !block_update by auto. apply (rep_prot _ _ _ _ H).
  - unfold entries, protected. rewrite Hpe. fold (protected w (<[id:=t']> ts)). fold (entries w (<[id:=t']> ts) (e :: loose)).
    rewrite Hent. apply (rep_distinct _ _ _ _ H).
Qed.

(** The trees of blocks are the same. *)
Definition same_blocks (ts ts' : tree_id -> tree) : Prop := forall id, block_tree id -> ts' id = ts id.

(** A loose entry becomes protected. *)
Lemma rep_protect w ts e loose pe n m protect : wl_rep w ts (e :: loose) [(pe, n); (pe + aec_offset, m)] ->
  exists w' ts', prot_tree_add pnum e pe protect w = Some w' /\ wl_rep w' ts' loose [] /\ same_blocks ts ts' /\
    ec w' = ec w /\ abs_ec w' = abs_ec w /\ kmallocs w' = kmallocs w /\ protected w' ts' ≡ₚ e :: protected w ts.
Proof.
  intros H. destruct (rep_heap _ _ _ _ H) as (G & Ht & Hl). cbn [app] in Ht.
  unfold prot_tree_add. set (w1 := Wl _ _ _ _ _ _ _).
  assert (Ht1 : trees_hold w1 ts ((pe, n) :: (pe + aec_offset, m) :: G)) by done.
  assert (Hpe_out : forall a, a ∈ inorder (ts ProtPnum) -> pe_e w1 a = pe_e w a).
  { intros a Ha. cbn. rewrite fn_lookup_insert_ne; [done |]. intros ->. by apply (trees_hold_outside _ _ _ _ _ ProtPnum Ht1). }
  assert (Hpa_out : forall a, a ∈ inorder (ts ProtAec) -> pe_abs_ec w1 (a - aec_offset) = pe_abs_ec w (a - aec_offset)).
  { intros a Ha. cbn. rewrite fn_lookup_insert_ne; [done |]. intros Heq. rewrite (rep_prot _ _ _ _ H) in Ha.
    apply list_elem_of_fmap in Ha as (b & -> & Hb). replace (b + aec_offset - aec_offset) with b in Heq by lia. subst b.
    by apply (trees_hold_outside _ _ _ _ _ ProtPnum Ht1). }
  destruct (in_tree_add w1 ts _ ProtPnum (fun pe1 => pnum e <? pnum (pe_e w1 pe1)) pe n Ht1) as (w2 & t1 & -> & Ht2 & Hi1 & Hr1).
  { apply (StronglySorted_impl (fun a b => pnum (pe_e w a) < pnum (pe_e w b))); [| apply (rep_pnum _ _ _ _ H)].
    intros a b Ha Hb. rewrite (Hpe_out a Ha), (Hpe_out b Hb), !Z.ltb_lt. lia. }
  cbn [mbind option_bind]. destruct Hr1 as (Hec1 & Hpe1 & Hpa1 & Hab1 & Hkm1).
  destruct (in_tree_add w2 _ _ ProtAec (fun p => pe_abs_ec w2 pe <? pe_abs_ec w2 (p - aec_offset)) (pe + aec_offset) m Ht2) as (w3 & t2 & -> & Ht3 & Hi2 & Hr2).
  { rewrite fn_lookup_insert_ne by done. rewrite Hpa1.
    apply (StronglySorted_impl (fun a b => pe_abs_ec w (a - aec_offset) <= pe_abs_ec w (b - aec_offset))); [| apply (rep_aec _ _ _ _ H)].
    intros a b Ha Hb. rewrite (Hpa_out a Ha), (Hpa_out b Hb), !Z.ltb_lt. lia. }
  rewrite fn_lookup_insert_ne in Hi2 by done. destruct Hr2 as (Hec2 & Hpe2 & Hpa2 & Hab2 & Hkm2).
  set (ts' := <[ProtAec := t2]> (<[ProtPnum := t1]> ts)) in *.
  assert (Hpn : pe_e w1 pe = e) by apply fn_lookup_insert.
  assert (Hprot : protected w3 ts' ≡ₚ e :: protected w ts).
  { unfold protected. rewrite Hpe2, Hpe1. change (ts' ProtPnum) with t1. rewrite (inserted_perm _ _ _ _ Hi1), fmap_cons, Hpn.
    apply Permutation_skip. erewrite (list_fmap_ext (pe_e w1)); [done |]. intros i a Ha%list_elem_of_lookup_2. by apply Hpe_out. }
  exists w3, ts'. split; [done |]. split; [| split_and!; [by intros id [-> | [-> | ->]] | by rewrite Hec2, Hec1 | by rewrite Hab2, Hab1 | by rewrite Hkm2, Hkm1 | done]].
  split; rewrite ?Hec2, ?Hec1.
  - exists G. split; [done |]. eapply loose_perm; [| exact Hl]. rewrite Hprot. solve_Permutation.
  - intros id Hid. change (ec w1) with (ec w). assert (ts' id = ts id) as -> by (by destruct Hid as [-> | [-> | ->]]). by apply (rep_sorted _ _ _ _ H).
  - rewrite Hpe2, Hpe1. change (ts' ProtPnum) with t1. eapply inserted_sorted; [exact Hi1 | | |].
    + apply (StronglySorted_impl (fun a b => pnum (pe_e w a) < pnum (pe_e w b))); [| apply (rep_pnum _ _ _ _ H)].
      intros a b Ha Hb. by rewrite (Hpe_out a Ha), (Hpe_out b Hb).
    + intros a Ha. cbv beta. rewrite Hpn, Z.ltb_ge, (Hpe_out a Ha). intros Hle.
      assert (pnum (pe_e w a) <> pnum e); [| lia]. eapply loose_distinct; [exact H |]. unfold entries, protected.
      rewrite !elem_of_app. do 3 right. left. apply list_elem_of_fmap. by exists a.
    + intros a Ha. cbv beta. by rewrite Hpn, Z.ltb_lt.
  - rewrite Hpa2. change (ts' ProtAec) with t2. eapply inserted_sorted; [exact Hi2 | | |]; rewrite ?Hpa1.
    + apply (StronglySorted_impl (fun a b => pe_abs_ec w (a - aec_offset) <= pe_abs_ec w (b - aec_offset))); [| apply (rep_aec _ _ _ _ H)].
      intros a b Ha Hb. by rewrite (Hpa_out a Ha), (Hpa_out b Hb).
    + intros a Ha. cbv beta. rewrite Z.ltb_ge. by replace (pe + aec_offset - aec_offset) with pe by lia.
    + intros a Ha. cbv beta. rewrite Z.ltb_lt. replace (pe + aec_offset - aec_offset) with pe by lia. lia.
  - change (ts' ProtAec) with t2. change (ts' ProtPnum) with t1.
    rewrite (inserted_perm _ _ _ _ Hi2), (inserted_perm _ _ _ _ Hi1), (rep_prot _ _ _ _ H). done.
  - assert (entries w3 ts' loose ≡ₚ entries w ts (e :: loose)) as ->; [| apply (rep_distinct _ _ _ _ H)].
    unfold entries. rewrite Hprot. change (ts' Free) with (ts Free). change (ts' Used) with (ts Used). change (ts' Scrub) with (ts Scrub). solve_Permutation.
Qed.

(** A protected entry becomes loose. *)
Lemma rep_unprotect w ts pe loose : wl_rep w ts loose [] -> pe ∈ inorder (ts ProtPnum) ->
  exists w' ts' n m, (w ← in_tree ProtAec (Rbtree.rb_erase (pe + aec_offset)) w; in_tree ProtPnum (Rbtree.rb_erase pe) w) = Some w' /\
    wl_rep w' ts' (pe_e w pe :: loose) [(pe, n); (pe + aec_offset, m)] /\ same_blocks ts ts' /\ same_rest w w' /\
    inorder (ts ProtPnum) ≡ₚ pe :: inorder (ts' ProtPnum).
Proof.
  intros H Hin. destruct (rep_heap _ _ _ _ H) as (G & Ht & Hl). cbn [app] in Ht.
  assert (pe + aec_offset ∈ inorder (ts ProtAec)) as Hin2.
  { rewrite (rep_prot _ _ _ _ H). apply list_elem_of_fmap. by exists pe. }
  destruct (in_tree_erase _ _ _ ProtAec _ Ht Hin2) as (w1 & t1 & m & -> & Ht1 & Hr1 & a1 & a2 & Ha & Ha'). cbn [mbind option_bind].
  assert (pe ∈ inorder ((<[ProtAec := t1]> ts) ProtPnum)) as Hin' by done.
  destruct (in_tree_erase _ _ _ ProtPnum _ Ht1 Hin') as (w2 & t2 & n & -> & Ht2 & Hr2 & p1 & p2 & Hp & Hp').
  change ((<[ProtAec := t1]> ts) ProtPnum) with (ts ProtPnum) in Hp. set (ts' := <[ProtPnum := t2]> (<[ProtAec := t1]> ts)) in *.
  assert (same_rest w w2) as Hr.
  { destruct Hr1 as (?&?&?&?&?), Hr2 as (?&?&?&?&?). split_and!; congruence. }
  assert (inorder (ts ProtPnum) ≡ₚ pe :: inorder (ts' ProtPnum)) as Hpp.
  { change (ts' ProtPnum) with t2. rewrite Hp, Hp'. solve_Permutation. }
  exists w2, ts', n, m. split; [done |]. split; [| split_and!; [by intros id [-> | [-> | ->]] | done | done]].
  destruct Hr as (Hec & Hpe & Hpa & _). assert (protected w ts ≡ₚ pe_e w pe :: protected w2 ts') as Hprot.
  { unfold protected. by rewrite Hpe, Hpp. }
  split; rewrite ?Hec, ?Hpe, ?Hpa.
  - exists G. split; [done |]. eapply loose_perm; [| exact Hl]. rewrite Hprot. solve_Permutation.
  - intros id Hid. assert (ts' id = ts id) as -> by (by destruct Hid as [-> | [-> | ->]]). by apply (rep_sorted _ _ _ _ H).
  - change (ts' ProtPnum) with t2. rewrite Hp'. apply StronglySorted_remove with (x := pe). rewrite <- Hp. apply (rep_pnum _ _ _ _ H).
  - change (ts' ProtAec) with t1. rewrite Ha'. apply StronglySorted_remove with (x := pe + aec_offset). rewrite <- Ha. apply (rep_aec _ _ _ _ H).
  - change (ts' ProtAec) with t1. pose proof (rep_prot _ _ _ _ H) as Hrp. rewrite Hpp in Hrp. rewrite Ha in Hrp. rewrite Ha'.
    rewrite <- Permutation_middle in Hrp. cbn in Hrp. by apply Permutation_cons_inv in Hrp.
  - assert (entries w2 ts' (pe_e w pe :: loose) ≡ₚ entries w ts loose) as ->; [| apply (rep_distinct _ _ _ _ H)].
    unfold entries. rewrite Hprot. change (ts' Free) with (ts Free). change (ts' Used) with (ts Used). change (ts' Scrub) with (ts Scrub). solve_Permutation.
Qed.

Lemma rep_kfree w ts pe n m loose : wl_rep w ts loose [(pe, n); (pe + aec_offset, m)] -> wl_rep (kfree pe w) ts loose [].
Proof.
  intros H. destruct (rep_heap _ _ _ _ H) as (G & Ht & Hl). destruct H as [_ H1 H2 H3 H4 H5]. split; try done.
  exists G. split; [exact (kfree_hold _ _ _ _ _ _ Ht) | exact Hl].
Qed.

(** *** Lookups *)

(** What [in_wl_tree] compares with. *)
Definition wl_cmp (ec : Z -> Z) (e e1 : Z) : comparison := if pnum e =? pnum e1 then Eq else if in_front ec e e1 then Lt else Gt.

Lemma wl_cmp_spec w ts loose X id e a : wl_rep w ts loose X -> block_tree id -> e ∈ entries w ts loose -> a ∈ inorder (ts id) ->
  wl_cmp (ec w) e a = if decide (a = e) then Eq else if in_front (ec w) e a then Lt else Gt.
Proof.
  intros H Hid He Ha. unfold wl_cmp. case_decide as Hd; [by subst a; rewrite Z.eqb_refl |]. destruct (Z.eqb_spec (pnum e) (pnum a)) as [Hp |]; [| done].
  exfalso. apply Hd. eapply (entries_distinct _ _ _ _ _ _ H); [by eapply entries_block | done | done].
Qed.

Lemma search_wl_tree w ts loose X id e : wl_rep w ts loose X -> block_tree id -> e ∈ entries w ts loose ->
  exists p, search (loop_fuel (tree_of id w)) (wl_cmp (ec w) e) (roots w id) (tree_of id w) = Some p /\
    ((p = 0 /\ e ∉ inorder (ts id)) \/ (p <> 0 /\ p = e /\ e ∈ inorder (ts id))).
Proof.
  intros H Hid He. destruct (rep_heap _ _ _ _ H) as (G & Ht & _). pose proof (fun a => wl_cmp_spec _ _ _ _ id e a H Hid He) as Hc.
  pose proof (tree_focus _ _ _ id Ht) as Hs. pose proof (shape_fuel _ _ _ _ Hs) as Hf.
  destruct (search_shape (wl_cmp (ec w) e) _ _ (loop_fuel (tree_of id w)) [] _ Hs) as (p & Hp & Hcase); [lia | |].
  - apply (StronglySorted_impl (key_lt (ec w))); [| by apply (rep_sorted _ _ _ _ H)]. intros a b Ha Hb Hab. rewrite (Hc a Ha), (Hc b Hb).
    unfold key_lt in Hab. apply goes_left_spec in Hab. intros Hn. case_decide as Hd; subst.
    + case_decide as Hd2; [subst; lia |]. by rewrite (proj2 (goes_left_spec _ _ _)) by lia.
    + destruct (in_front (ec w) e a) eqn:Hea; [| done]. apply goes_left_spec in Hea.
      case_decide as Hd2; [subst; exfalso; lia |]. by rewrite (proj2 (goes_left_spec _ _ _)) by lia.
  - assert (roots w id = ptr (ts id)) as -> by apply Ht. exists p. split; [done |]. destruct Hcase as [[-> Hn] | (Hpos & Hin & Heq)].
    + left. split; [done |]. intros Hin. rewrite Forall_forall in Hn. apply (Hn e Hin). rewrite (Hc e Hin). by case_decide.
    + right. rewrite (Hc p Hin) in Heq. case_decide; [subst; split; [lia | done] |]. by destruct (in_front _ _ _).
Qed.

Lemma in_wl_tree_spec w ts loose X id e : wl_rep w ts loose X -> block_tree id -> e ∈ entries w ts loose ->
  in_wl_tree pnum id e w = Some (bool_decide (e ∈ inorder (ts id))).
Proof.
  intros H Hid He. destruct (search_wl_tree _ _ _ _ id e H Hid He) as (p & Hp & Hcase). unfold in_wl_tree. fold (wl_cmp (ec w) e). rewrite Hp. cbn [mbind option_bind].
  destruct Hcase as [[-> Hn] | (Hne & -> & Hin)]; f_equal; symmetry.
  - by apply bool_decide_eq_false.
  - rewrite (proj2 (Z.eqb_neq e 0)) by done. by apply bool_decide_eq_true.
Qed.

Lemma prot_tree_del_spec w ts loose e : wl_rep w ts loose [] -> e ∈ entries w ts loose ->
  (e ∈ protected w ts -> exists w' ts', prot_tree_del pnum (pnum e) w = Some (0, w') /\ wl_rep w' ts' (e :: loose) [] /\ same_blocks ts ts' /\
    same_rest w w' /\ protected w ts ≡ₚ e :: protected w' ts') /\
  (e ∉ protected w ts -> prot_tree_del pnum (pnum e) w = Some (- ENODEV, w)).
Proof.
  intros H He. unfold prot_tree_del.
  set (cmp := fun pe => if pnum e =? pnum (pe_e w pe) then Eq else if pnum e <? pnum (pe_e w pe) then Lt else Gt). destruct (rep_heap _ _ _ _ H) as (G & Ht & _).
  pose proof (tree_focus _ _ _ ProtPnum Ht) as Hs. pose proof (shape_fuel _ _ _ _ Hs) as Hf.
  assert (Hmem : forall a, a ∈ inorder (ts ProtPnum) -> pe_e w a ∈ entries w ts loose).
  { intros a Ha. unfold entries, protected. rewrite !elem_of_app. do 3 right. left. apply list_elem_of_fmap. by exists a. }
  destruct (search_shape cmp _ _ (loop_fuel (tree_of ProtPnum w)) [] _ Hs) as (p & Hp & Hcase); [lia | |].
  { apply (StronglySorted_impl (fun a b => pnum (pe_e w a) < pnum (pe_e w b))); [| by apply (rep_pnum _ _ _ _ H)]. intros a b _ _ Hab.
    unfold cmp. destruct (Z.eqb_spec (pnum e) (pnum (pe_e w a))), (Z.ltb_spec (pnum e) (pnum (pe_e w a))),
      (Z.eqb_spec (pnum e) (pnum (pe_e w b))), (Z.ltb_spec (pnum e) (pnum (pe_e w b))); intros; (done || lia). }
  assert (Hfound : forall a, cmp a = Eq <-> pnum e = pnum (pe_e w a)).
  { intros a. unfold cmp. destruct (Z.eqb_spec (pnum e) (pnum (pe_e w a))); [done |]. by destruct (_ <? _). }
  assert (roots w ProtPnum = ptr (ts ProtPnum)) as -> by apply Ht. rewrite Hp. cbn [mbind option_bind].
  destruct Hcase as [[-> Hn] | (Hpos & Hin & Heq)]; rewrite ?Z.eqb_refl.
  - rewrite Forall_forall in Hn. split; [| done]. intros Hpr. exfalso. unfold protected in Hpr. apply list_elem_of_fmap in Hpr as (a & -> & Ha).
    by apply (Hn a Ha), Hfound.
  - rewrite (proj2 (Z.eqb_neq p 0)) by lia. apply Hfound in Heq.
    assert (e = pe_e w p) as -> by (eapply (entries_distinct _ _ _ _ _ _ H); [done | by apply Hmem | done]).
    split; [| intros Hno; exfalso; apply Hno, list_elem_of_fmap; by exists p]. intros _.
    destruct (rep_unprotect _ _ _ _ H Hin) as (w' & ts' & n & m & Hr & Hw' & Hb & Hsr & Hpp).
    destruct (in_tree ProtAec (Rbtree.rb_erase (p + aec_offset)) w) as [w1 |]; [| done]. cbn [mbind option_bind] in Hr |- *. rewrite Hr. cbn [mbind option_bind].
    apply rep_kfree in Hw'. exists (kfree p w'), ts'. split; [done |]. split; [done |]. split; [done |]. split; [exact Hsr |].
    destruct Hsr as (_ & Hpe & _). unfold protected. cbn [kfree pe_e]. by rewrite Hpp, Hpe.
Qed.

(** *** The choice of a block *)

(** [e] is a block that find_wl_entry returns: the last one, in the order of the
    tree, whose erase counter is below [bound], or the first. *)
Definition closest_below (ec : Z -> Z) (bound : Z) (l : list Z) (e : Z) : Prop :=
  exists l1 l2, l = l1 ++ l2 /\ Forall (fun a => ec a < bound) l1 /\ Forall (fun a => bound <= ec a) l2 /\ e = List.last l1 (default 0 (head l)).

Lemma block_ec_sorted w ts loose X id : wl_rep w ts loose X -> block_tree id -> StronglySorted (fun a b => ec w a <= ec w b) (inorder (ts id)).
Proof.
  intros H Hid. apply (StronglySorted_impl (key_lt (ec w))); [| by apply (rep_sorted _ _ _ _ H)].
  intros a b _ _. unfold key_lt. rewrite goes_left_spec. lia.
Qed.

Lemma find_wl_entry_spec w ts loose X id max a l : wl_rep w ts loose X -> block_tree id -> inorder (ts id) = a :: l ->
  exists e, find_wl_entry id max w = Some e /\ closest_below (ec w) (s32 (max + ec w a)) (inorder (ts id)) e.
Proof.
  intros H Hid Hl. unfold find_wl_entry. destruct (rep_heap _ _ _ _ H) as (G & Ht & _).
  pose proof (tree_focus _ _ _ id Ht) as Hs. pose proof (shape_fuel _ _ _ _ Hs) as Hf.
  unfold rb_first. rewrite (rb_end_shape L _ _ _ Hs). assert (near (opp L) (inorder (ts id)) = a) as -> by (by rewrite Hl). cbn [mbind option_bind].
  destruct (shape_member (ts id) a) as (k & c & l0 & r0 & Hk); [rewrite Hl; left |].
  pose proof Hs as Hs2. rewrite Hk in Hs2. apply shape_plug in Hs2. destruct (shape_get _ _ _ _ _ _ _ _ Hs2) as (-> & _ & _). cbn [mbind option_bind].
  destruct (closest_shape (ec w) (s32 (max + ec w a)) _ _ (loop_fuel (tree_of id w)) [] (ts id) a Hs) as (l1 & l2 & Hi & He & H1 & H2);
    [lia | by eapply block_ec_sorted |].
  assert (roots w id = ptr (ts id)) as -> by apply Ht. rewrite He. eexists. split; [done |]. exists l1, l2. rewrite Hl in Hi |- *. by split_and!.
Qed.

Lemma closest_below_in ec bound l e : closest_below ec bound l e -> l <> [] -> e ∈ l.
Proof.
  intros (l1 & l2 & -> & _ & _ & ->) Hn. destruct l1 as [| a l1] using rev_ind; [destruct l2; [done | left] |].
  rewrite last_app_cons. set_solver.
Qed.

(** The blocks [ubi_wl_get_peb] may return for a type of data. *)
Definition chosen (dtype : Z) (ec : Z -> Z) (l : list Z) (e : Z) : Prop :=
  e ∈ l /\ forall first, head l = Some first ->
  (dtype = UBI_SHORTTERM -> e = first) /\
  (dtype = UBI_LONGTERM -> ec e < ec first + WL_FREE_MAX_DIFF /\ forall b, b ∈ l -> ec b < ec first + WL_FREE_MAX_DIFF -> ec b <= ec e) /\
  (dtype = UBI_UNKNOWN -> ec first <= WL_FREE_MAX_DIFF -> ec e < ec first + WL_FREE_MAX_DIFF).

Definition dtype_ok (dtype : Z) : Prop := dtype = UBI_LONGTERM \/ dtype = UBI_SHORTTERM \/ dtype = UBI_UNKNOWN.
(** No overflow of [int]. *)
Definition ec_ok (w : wl) (l : list Z) : Prop := Forall (fun a => 0 <= ec w a < 2 ^ 30) l.

Lemma closest_below_max ec bound l e first : closest_below ec bound l e -> StronglySorted (fun a b => ec a <= ec b) l -> head l = Some first ->
  ec first < bound -> ec e < bound /\ forall b, b ∈ l -> ec b < bound -> ec b <= ec e.
Proof.
  intros (l1 & l2 & -> & H1 & H2 & ->) Hs Hh Hb. rewrite Forall_forall in H1, H2. rewrite Hh. cbn [default].
  destruct l1 as [| a l1 _] using rev_ind.
  - destruct l2 as [| b l2]; [done |]. cbn in Hh. simplify_eq. specialize (H2 first ltac:(left)). lia.
  - rewrite last_app_cons. cbn [List.last]. split; [apply H1; set_solver |]. intros b Hin Hlt. apply elem_of_app in Hin as [Hin | Hin].
    + apply StronglySorted_app in Hs as (_ & Hs & _). apply StronglySorted_app in Hs as (Hla & _ & _).
      apply elem_of_app in Hin as [Hin | Hin%list_elem_of_singleton]; [apply Hla; [done | left] | subst; lia].
    + specialize (H2 b Hin). lia.
Qed.

(** The first, the last and the root of a tree that is not empty. *)
Lemma ends_spec w ts loose X id a l : wl_rep w ts loose X -> inorder (ts id) = a :: l ->
  rb_first (tree_of id w) = Some a /\ roots w id ∈ a :: l /\ roots w id <> 0 /\
  exists z, rb_last (tree_of id w) = Some z /\ z ∈ a :: l /\ (block_tree id -> forall b, b ∈ a :: l -> ec w b <= ec w z).
Proof.
  intros H Hl. destruct (rep_heap _ _ _ _ H) as (G & Ht & _). pose proof (tree_focus _ _ _ id Ht) as Hs.
  unfold rb_first, rb_last. rewrite !(rb_end_shape _ _ _ _ Hs), Hl. split; [done |].
  assert (roots w id = ptr (ts id)) as -> by apply Ht. destruct (shape_ptr _ _ _ _ Hs) as [[Hleaf _] | [Hnl Hpos]]; [by rewrite Hleaf in Hl |].
  split; [destruct (ts id) as [| c t1 r t2]; [done | rewrite <- Hl; cbn; set_solver] |]. split; [lia |].
  destruct (last (a :: l)) as [z |] eqn:Hz; [| by apply last_None in Hz]. exists z. split; [unfold near; cbn [opp]; by rewrite Hz |].
  split; [by apply last_Some_elem_of |]. intros Hid b Hb. pose proof (block_ec_sorted _ _ _ _ id H Hid) as Hsort. rewrite Hl in Hsort.
  apply last_Some in Hz as [l' Hz]. rewrite Hz in Hb, Hsort. apply StronglySorted_app in Hsort as (Hlz & _ & _).
  apply elem_of_app in Hb as [Hb | ->%list_elem_of_singleton]; [apply Hlz; [done | left] | lia].
Qed.

Lemma root_zero w ts loose X id : wl_rep w ts loose X -> roots w id = 0 <-> inorder (ts id) = [].
Proof.
  intros H. destruct (inorder (ts id)) as [| a l] eqn:Hl.
  - split; [done |]. intros _. destruct (rep_heap _ _ _ _ H) as (G & Ht & _). assert (roots w id = ptr (ts id)) as -> by apply Ht.
    destruct (ts id) as [| c t1 r t2]; [done |]. cbn in Hl. by destruct (inorder t1).
  - split; [| done]. intros Hr. by destruct (ends_spec _ _ _ _ _ _ _ H Hl) as (_ & _ & ? & _).
Qed.

Lemma find_wl_entry_in w ts loose X id max a l : wl_rep w ts loose X -> block_tree id -> inorder (ts id) = a :: l ->
  exists e, find_wl_entry id max w = Some e /\ e ∈ inorder (ts id).
Proof.
  intros H Hid Hl. destruct (find_wl_entry_spec _ _ _ _ id max a l H Hid Hl) as (e & He & Hc). exists e. split; [done |].
  eapply closest_below_in; [exact Hc | by rewrite Hl].
Qed.

Lemma choose_total w ts loose X dtype : wl_rep w ts loose X -> dtype_ok dtype -> inorder (ts Free) <> [] ->
  exists e protect, choose dtype w = Some (e, protect) /\ e ∈ inorder (ts Free).
Proof.
  intros H Hd Hn. destruct (inorder (ts Free)) as [| a l] eqn:Hl; [done |]. rewrite <- Hl.
  assert (Hfind : forall max, exists e, find_wl_entry Free max w = Some e /\ e ∈ inorder (ts Free)).
  { intros max. apply (find_wl_entry_in _ _ _ _ Free max a l H ltac:(by left) Hl). }
  destruct (ends_spec _ _ _ _ Free a l H Hl) as (Ha & Hr & _ & z & Hz & _). rewrite <- Hl in Hr. unfold choose.
  destruct Hd as [-> | [-> | ->]]; cbn [Z.eqb Pos.eqb UBI_LONGTERM UBI_SHORTTERM UBI_UNKNOWN]; rewrite ?Ha, ?Hz; cbn [mbind option_bind].
  - destruct (Hfind WL_FREE_MAX_DIFF) as (e & -> & He). by exists e, LT_PROTECTION.
  - exists a, ST_PROTECTION. split; [done |]. rewrite Hl. left.
  - destruct (_ <? _); [by exists (roots w Free), U_PROTECTION |].
    destruct (Hfind (Z.quot (s32 (ec w a + WL_FREE_MAX_DIFF)) 2)) as (e & -> & He). by exists e, U_PROTECTION.
Qed.

(** find_wl_entry without overflow. *)
Lemma find_free_spec w ts loose X max a l : wl_rep w ts loose X -> inorder (ts Free) = a :: l -> ec_ok w (a :: l) -> 0 < max < 2 ^ 30 ->
  exists e, find_wl_entry Free max w = Some e /\ ec w e < max + ec w a /\ forall b, b ∈ a :: l -> ec w b < max + ec w a -> ec w b <= ec w e.
Proof.
  intros H Hl Hec Hmax. destruct (find_wl_entry_spec _ _ _ _ Free max a l H ltac:(by left) Hl) as (e & He & Hc). exists e. split; [done |].
  pose proof (Forall_inv Hec) as Ha. cbn in Ha. assert (s32 (max + ec w a) = max + ec w a) as Hs by (unfold swrap; rewrite Z.mod_small; lia).
  rewrite Hs, Hl in Hc. pose proof (block_ec_sorted _ _ _ _ Free H ltac:(by left)) as Hsort. rewrite Hl in Hsort.
  apply (closest_below_max _ _ _ _ a Hc Hsort eq_refl). lia.
Qed.

Lemma choose_spec w ts loose X dtype e protect : wl_rep w ts loose X -> dtype_ok dtype -> inorder (ts Free) <> [] -> ec_ok w (inorder (ts Free)) ->
  choose dtype w = Some (e, protect) -> chosen dtype (ec w) (inorder (ts Free)) e.
Proof.
  intros H Hd Hn Hec He. destruct (choose_total _ _ _ _ dtype H Hd Hn) as (e' & p' & He' & Hin). simplify_eq. split; [done |].
  destruct (inorder (ts Free)) as [| a l] eqn:Hl; [done |]. intros first Hf. cbn in Hf. simplify_eq. rename first into a.
  destruct (ends_spec _ _ _ _ Free a l H Hl) as (Ha & Hr & _ & z & Hz & Hzin & Hmax). specialize (Hmax ltac:(by left)).
  pose proof (proj1 (Forall_forall _ _) Hec) as Hb. cbv beta in Hb. pose proof (Hb a ltac:(left)) as Hba. pose proof (Hb z Hzin) as Hbz. unfold choose in He.
  assert (WL_FREE_MAX_DIFF = 8192) as HD by done.
  destruct Hd as [-> | [-> | ->]]; cbn [Z.eqb Pos.eqb UBI_LONGTERM UBI_SHORTTERM UBI_UNKNOWN] in He; rewrite ?Ha, ?Hz in He; cbn [mbind option_bind] in He.
  - destruct (find_free_spec _ _ _ _ WL_FREE_MAX_DIFF a l H Hl Hec ltac:(lia)) as (e1 & He1 & Hlt & Hbest). rewrite He1 in He. cbn in He. simplify_eq.
    split_and!; [done | intros _ | done]. split; [lia |]. intros b Hbin Hblt. apply Hbest; [done | lia].
  - simplify_eq. by split_and!.
  - assert (s32 (ec w z - ec w a) = ec w z - ec w a) as Hs by (pose proof (Hmax a ltac:(left)); unfold swrap; rewrite Z.mod_small; lia).
    assert (s32 (ec w a + WL_FREE_MAX_DIFF) = ec w a + WL_FREE_MAX_DIFF) as Hs2 by (unfold swrap; rewrite Z.mod_small; lia).
    rewrite Hs, Hs2 in He. split_and!; [done | done | intros _ Hsmall]. destruct (Z.ltb_spec (ec w z - ec w a) WL_FREE_MAX_DIFF) as [Hlt | Hge].
    + simplify_eq. specialize (Hmax _ Hr). lia.
    + rewrite Z.quot_div_nonneg in He by lia. assert (0 < (ec w a + WL_FREE_MAX_DIFF) / 2) by (apply Z.div_str_pos; lia).
      assert ((ec w a + WL_FREE_MAX_DIFF) / 2 <= WL_FREE_MAX_DIFF) by (apply Z.div_le_upper_bound; lia).
      destruct (find_free_spec _ _ _ _ ((ec w a + WL_FREE_MAX_DIFF) / 2) a l H Hl Hec ltac:(lia)) as (e1 & He1 & Hlt & _).
      rewrite He1 in He. cbn in He. simplify_eq. lia.
Qed.

(** for data of unknown type [ubi_wl_get_peb] may choose a block whose erase
    counter is the lowest one plus WL_FREE_MAX_DIFF or more: [medium_ec] has the
    lowest counter in it, and find_wl_entry adds the lowest counter again. *)
Theorem wl_unknown_beyond_bound w ts loose X a l b : wl_rep w ts loose X -> inorder (ts Free) = a :: l -> ec_ok w (a :: l) ->
  b ∈ a :: l -> ec w a + WL_FREE_MAX_DIFF <= ec w b < ec w a + (ec w a + WL_FREE_MAX_DIFF) / 2 ->
  exists e, choose UBI_UNKNOWN w = Some (e, U_PROTECTION) /\ e ∈ a :: l /\ ec w a + WL_FREE_MAX_DIFF <= ec w e.
Proof.
  intros H Hl Hec Hb Hbe. destruct (choose_total _ _ _ _ UBI_UNKNOWN H) as (e & p & He & Hin); [by right; right | by rewrite Hl |]. rewrite Hl in Hin.
  destruct (ends_spec _ _ _ _ Free a l H Hl) as (Ha & _ & _ & z & Hz & Hzin & Hmax). specialize (Hmax ltac:(by left) b Hb).
  pose proof (proj1 (Forall_forall _ _) Hec) as Hall. cbv beta in Hall. pose proof (Hall a ltac:(left)) as Hba. pose proof (Hall z Hzin) as Hbz.
  assert (WL_FREE_MAX_DIFF = 8192) as HD by done. unfold choose in *. cbn [Z.eqb Pos.eqb UBI_LONGTERM UBI_SHORTTERM UBI_UNKNOWN] in *.
  rewrite Ha, Hz in *. cbn [mbind option_bind] in *.
  assert (s32 (ec w z - ec w a) = ec w z - ec w a) as Hs by (unfold swrap; rewrite Z.mod_small; lia).
  assert (s32 (ec w a + WL_FREE_MAX_DIFF) = ec w a + WL_FREE_MAX_DIFF) as Hs2 by (unfold swrap; rewrite Z.mod_small; lia).
  rewrite Hs, Hs2 in *. rewrite (proj2 (Z.ltb_ge _ _)) in * by lia. rewrite Z.quot_div_nonneg in * by lia.
  destruct (find_free_spec _ _ _ _ ((ec w a + WL_FREE_MAX_DIFF) / 2) a l H Hl Hec) as (e1 & He1 & _ & Hbest).
  { split; [apply Z.div_str_pos; lia | apply Z.div_lt_upper_bound; lia]. }
  rewrite He1 in *. cbn in He. simplify_eq. exists e. split; [done |]. split; [done |]. specialize (Hbest b Hb). lia.
Qed.

(** *** Getting a block *)

(** kmalloc returns null or unused memory. *)
Definition kmalloc_fresh (kmalloc_address : nat -> gmap Z rb_node -> Z) : Prop := forall n m, let p := kmalloc_address n m in
  p = 0 \/ (addr_ok p /\ addr_ok (p + aec_offset) /\ m !! p = None /\ m !! (p + aec_offset) = None).

Lemma kmalloc_rep alloc w ts loose : kmalloc_fresh alloc -> wl_rep w ts loose [] ->
  let '(pe, w') := kmalloc alloc w in same_rest (Wl (w_nodes w) (roots w) (ec w) (pe_e w) (pe_abs_ec w) (abs_ec w) (S (kmallocs w))) w' /\
    roots w' = roots w /\
    ((pe = 0 /\ wl_rep w' ts loose []) \/ (pe <> 0 /\ wl_rep w' ts loose [(pe, Rb 0 0 0); (pe + aec_offset, Rb 0 0 0)])).
Proof.
  intros Ha H. unfold kmalloc. set (pe := alloc _ _). specialize (Ha (kmallocs w) (w_nodes w)). cbv zeta in Ha. fold pe in Ha.
  split; [done |]. split; [done |]. destruct (Z.eqb_spec pe 0) as [He | Hne].
  - left. split; [done |]. destruct H. by split.
  - right. split; [done |]. destruct Ha as [? | (Hp & Hq & Hfp & Hfq)]; [done |]. destruct (rep_heap _ _ _ _ H) as (G & Ht & Hl).
    destruct H as [_ H1 H2 H3 H4 H5]. split; try done. exists G. split; [| done]. split; [apply Ht |]. by eapply kmalloc_hold.
Qed.

Lemma take_free_rep w ts loose dtype pe n m : wl_rep w ts loose [(pe, n); (pe + aec_offset, m)] -> dtype_ok dtype ->
  inorder (ts Free) <> [] ->
  exists e protect w' ts' l1 l2, take_free pnum dtype pe w = Some (pnum e, w') /\ wl_rep w' ts' loose [] /\ ec w' = ec w /\ abs_ec w' = abs_ec w /\
    choose dtype w = Some (e, protect) /\ inorder (ts Free) = l1 ++ e :: l2 /\ inorder (ts' Free) = l1 ++ l2 /\
    ts' Used = ts Used /\ ts' Scrub = ts Scrub /\ protected w' ts' ≡ₚ e :: protected w ts.
Proof.
  intros H Hd Hn. unfold take_free. destruct (choose_total _ _ _ _ dtype H Hd Hn) as (e & protect & He & Hc). rewrite He. cbn [mbind option_bind].
  destruct (rep_erase _ _ e _ _ Free H ltac:(by left) Hc) as (w2 & t2 & -> & H2 & Hsr & l1 & l2 & Hl & Hl'). cbn [mbind option_bind].
  destruct (rep_protect _ _ _ _ _ _ _ protect H2) as (w3 & ts3 & -> & H3 & Hb & Hec3 & Hab3 & _ & Hprot). cbn [mbind option_bind].
  destruct Hsr as (Hec2 & Hp2 & Hpa2 & Hab2 & _).
  exists e, protect, w3, ts3, l1, l2. split; [done |]. split; [done |]. split; [congruence |]. split; [congruence |]. split; [done |]. split; [done |].
  split; [by rewrite (Hb Free) by (by left) |]. split; [by rewrite (Hb Used) by (by right; left) |].
  split; [by rewrite (Hb Scrub) by (by right; right) |]. rewrite Hprot. unfold protected. by rewrite Hp2.
Qed.

(** *** The end of the protection *)

Lemma protection_round_rep w ts loose : wl_rep w ts loose [] ->
  exists more w' ts', protection_round pnum w = Some (more, w') /\ wl_rep w' ts' loose [] /\ same_rest w w' /\
    entries w' ts' loose ≡ₚ entries w ts loose /\ ts' Free = ts Free /\ ts' Scrub = ts Scrub /\
    if more : bool then exists pe, abs_ec w >= pe_abs_ec w pe /\ inorder (ts' Used) ≡ₚ pe_e w pe :: inorder (ts Used) /\
      inorder (ts ProtPnum) ≡ₚ pe :: inorder (ts' ProtPnum)
    else w' = w /\ ts' = ts /\ forall pe, pe ∈ inorder (ts ProtPnum) -> abs_ec w < pe_abs_ec w pe.
Proof.
  intros H. unfold protection_round. destruct (rep_heap _ _ _ _ H) as (G & Ht & _). pose proof (tree_focus _ _ _ ProtAec Ht) as Hs.
  assert (roots w ProtAec = ptr (ts ProtAec)) as -> by apply Ht. pose proof (rep_prot _ _ _ _ H) as Hprot.
  destruct (shape_ptr _ _ _ _ Hs) as [[Hleaf ->] | [Hnl Hpos]].
  - rewrite Z.eqb_refl. exists false, w, ts. split_and!; try done. intros pe Hpe. rewrite Hleaf in Hprot.
    apply (Permutation_nil), fmap_nil_inv in Hprot. rewrite Hprot in Hpe. by apply elem_of_nil in Hpe.
  - rewrite (proj2 (Z.eqb_neq _ 0)) by lia. unfold rb_first. rewrite (rb_end_shape L _ _ _ Hs). cbn [mbind option_bind].
    destruct (inorder (ts ProtAec)) as [| a l] eqn:Hl; [by destruct (ts ProtAec) as [| ? t1 ? ?]; [| cbn in Hl; destruct (inorder t1)] |].
    change (near (opp L) (a :: l)) with a. assert (a ∈ (fun pe => pe + aec_offset) <$> inorder (ts ProtPnum)) as Hin by (rewrite <- Hprot; left).
    apply list_elem_of_fmap in Hin as (pe & -> & Hin). replace (pe + aec_offset - aec_offset) with pe by lia.
    pose proof (rep_aec _ _ _ _ H) as Hsort. rewrite Hl in Hsort. apply StronglySorted_inv in Hsort as [_ Hmin]. rewrite Forall_forall in Hmin.
    replace (pe + aec_offset - aec_offset) with pe in Hmin by lia.
    destruct (Z.ltb_spec (abs_ec w) (pe_abs_ec w pe)) as [Hlt | Hge].
    + exists false, w, ts. split_and!; try done. intros pe' Hpe'. assert (pe' + aec_offset ∈ (pe + aec_offset) :: l) as Hin'.
      { rewrite Hprot. apply list_elem_of_fmap. by exists pe'. }
      apply elem_of_cons in Hin' as [He | Hin']; [assert (pe' = pe) as -> by lia; done |].
      specialize (Hmin _ Hin'). replace (pe' + aec_offset - aec_offset) with pe' in Hmin by lia. lia.
    + destruct (rep_unprotect _ _ _ _ H Hin) as (w1 & ts1 & n & m & He & H1 & Hb & Hsr & Hpp).
      destruct (in_tree ProtAec (Rbtree.rb_erase (pe + aec_offset)) w) as [w0 |]; [| done]. cbn [mbind option_bind] in He |- *.
      rewrite He. cbn [mbind option_bind].
      assert (pe_e w1 = pe_e w) as Hpe by apply Hsr. rewrite Hpe.
      destruct (rep_add _ _ _ _ _ Used H1) as (w2 & t2 & -> & H2 & Hsr2 & Hperm); [by right; left |]. cbn [mbind option_bind].
      apply rep_kfree in H2. exists true, (kfree pe w2), (<[Used := t2]> ts1). split; [done |]. split; [done |].
      destruct Hsr as (?&?&?&?&?), Hsr2 as (?&?&?&?&?). split; [split_and!; cbn; congruence |]. split.
      { change (entries (kfree pe w2) (<[Used := t2]> ts1) loose) with (entries w2 (<[Used := t2]> ts1) loose).
        rewrite (entries_update Used _ _ _ _ _ ltac:(by right; left) Hperm). unfold entries, protected.
        rewrite (Hb Free), (Hb Scrub), (Hb Used) by (unfold block_tree; auto). replace (pe_e w2) with (pe_e w) by congruence.
        rewrite Hpp. cbn. solve_Permutation. }
      split; [by rewrite fn_lookup_insert_ne, (Hb Free) by (unfold block_tree; auto) |].
      split; [by rewrite fn_lookup_insert_ne, (Hb Scrub) by (unfold block_tree; auto) |].
      exists pe. split; [lia |]. split; [| done]. by rewrite fn_lookup_insert, Hperm, (Hb Used) by (unfold block_tree; auto).
Qed.

Lemma protection_loop_rep fuel : forall w ts loose, wl_rep w ts loose [] -> (length (inorder (ts ProtPnum)) < fuel)%nat ->
  exists w' ts', protection_loop pnum fuel w = Some w' /\ wl_rep w' ts' loose [] /\ same_rest w w' /\
    entries w' ts' loose ≡ₚ entries w ts loose /\ ts' Free = ts Free /\ ts' Scrub = ts Scrub /\
    (forall pe, pe ∈ inorder (ts' ProtPnum) -> pe ∈ inorder (ts ProtPnum) /\ abs_ec w < pe_abs_ec w pe) /\
    (forall pe, pe ∈ inorder (ts ProtPnum) -> pe ∈ inorder (ts' ProtPnum) \/ pe_abs_ec w pe <= abs_ec w /\ pe_e w pe ∈ inorder (ts' Used)) /\
    (forall e, e ∈ inorder (ts Used) -> e ∈ inorder (ts' Used)).
Proof.
  induction fuel as [| fuel IH]; intros w ts loose H Hf; [lia |]. cbn [protection_loop].
  destruct (protection_round_rep _ _ _ H) as (more & w1 & ts1 & -> & H1 & Hsr & Hent & HF & HS & Hmore). cbn [mbind option_bind].
  destruct more; [| destruct Hmore as (-> & -> & Hall); exists w, ts; split_and!; try done; [intros pe Hpe; split; [done | by apply Hall] | by left]].
  destruct Hmore as (pe & Hge & HU & Hpp). destruct (IH _ _ _ H1) as (w2 & ts2 & -> & H2 & Hsr2 & Hent2 & HF2 & HS2 & Hout & Hin & Hused).
  { apply Permutation_length in Hpp. cbn in Hpp. lia. }
  destruct Hsr as (?&Hpe&Hpa&Hab&?), Hsr2 as (?&?&?&?&?). rewrite Hpe, Hpa, Hab in *.
  exists w2, ts2. split; [done |]. split; [done |]. split; [split_and!; congruence |]. split; [by rewrite Hent2 |]. split; [congruence |]. split; [congruence |].
  split; [| split].
  - intros q Hq. destruct (Hout q Hq) as [Hq1 Hq2]. split; [| done]. rewrite Hpp. by right.
  - intros q Hq. rewrite Hpp in Hq. apply elem_of_cons in Hq as [-> | Hq]; [| by apply Hin]. right. split; [lia |]. apply Hused. rewrite HU. left.
  - intros e He. apply Hused. rewrite HU. by right.
Qed.

Lemma check_protection_rep w ts loose : wl_rep w ts loose [] ->
  exists w' ts', check_protection_over pnum w = Some w' /\ wl_rep w' ts' loose [] /\ same_rest w w' /\
    entries w' ts' loose ≡ₚ entries w ts loose /\ ts' Free = ts Free /\ ts' Scrub = ts Scrub /\
    (forall pe, pe ∈ inorder (ts' ProtPnum) -> pe ∈ inorder (ts ProtPnum) /\ abs_ec w < pe_abs_ec w pe) /\
    (forall pe, pe ∈ inorder (ts ProtPnum) -> pe ∈ inorder (ts' ProtPnum) \/ pe_abs_ec w pe <= abs_ec w /\ pe_e w pe ∈ inorder (ts' Used)) /\
    (forall e, e ∈ inorder (ts Used) -> e ∈ inorder (ts' Used)).
Proof.
  intros H. apply protection_loop_rep; [done |]. destruct (rep_heap _ _ _ _ H) as (G & Ht & _).
  pose proof (shape_fuel _ _ _ _ (tree_focus _ _ _ ProtPnum Ht)) as Hf. change (loop_fuel (tree_of ProtAec w)) with (loop_fuel (tree_of ProtPnum w)).
  pose proof (Permutation_length (cells_inorder (ts ProtPnum) 0)) as Hl. rewrite length_fmap in Hl. cbn [top] in Hf. lia.
Qed.
End Rep.

(** ** Two worn blocks *)

Definition worn_trees (id : tree_id) : tree := match id with Free => Node Black Leaf 64 (Node Red Leaf 128 Leaf) | _ => Leaf end.
Definition worn_wl : wl :=
  Wl (list_to_map [(64, Rb 1 128 0); (128, Rb 64 0 0)]) (fun id => ptr (worn_trees id)) (fun e => if e =? 64 then 9000 else 17400)
    (fun _ => 0) (fun _ => 0) 0 0.

Lemma worn_rep : wl_rep (fun e => e / 64) worn_wl worn_trees [] [].
Proof.
  split.
  - exists []. split; [| exists []; constructor]. split; [by intros []; (split; [done |]); eexists; repeat constructor |].
    split; [vm_compute; repeat constructor; set_solver | repeat constructor].
  - intros id [-> | [-> | ->]]; repeat constructor.
  - constructor.
  - constructor.
  - constructor.
  - vm_compute. repeat constructor; set_solver.
Defined.

Lemma wl_unknown_beyond_bound_witness : exists e, choose UBI_UNKNOWN worn_wl = Some (e, U_PROTECTION) /\ e ∈ [64; 128] /\ 17192 <= ec worn_wl e.
Proof.
  apply (wl_unknown_beyond_bound (fun e => e / 64) worn_wl worn_trees [] [] 64 [128] 128 worn_rep); [reflexivity | | right; left | by vm_compute].
  repeat constructor; by vm_compute.
Defined.
