(* ===== verification/WlWork.v ===== *)
(** * The works of the wear-leveling unit (drivers/mtd/ubi/wl.c)

    The operations of the unit ([ubi_wl_get_peb], [ubi_wl_put_peb],
    [ubi_wl_scrub_peb], [ubi_wl_flush]), the queue of works and the two workers,
    [erase_worker] and [wear_leveling_worker], on the trees of Wl.v.  U-Boot has no
    background thread: [schedule_ubi_work] calls [do_work] itself, so that the workers
    and [do_work] are mutually recursive; [do_work] has fuel.

    The results of the flash (drivers/mtd/ubi/io.c), of the movement of a logical
    block (eba.c) and of the allocations of works and buffers are those of a
    [world], by the number of the request. *)

From stdpp Require Import functions sorting.
From Stdlib Require Import Permutation Sorted.
From S2P Require Import Prelude Rbtree Wl.

Definition EINTR : Z := 4.
Definition EIO : Z := 5.
Definition EAGAIN : Z := 11.
Definition EBUSY : Z := 16.
Definition EINVAL : Z := 22.

Definition UBI_IO_PEB_FREE : Z := 2.
Definition UBI_IO_BITFLIPS : Z := 5.
Definition UBI_MAX_ERASECOUNTER : Z := 0x7FFFFFFF.
Definition CONFIG_MTD_UBI_BEB_RESERVE : Z := 1.
Definition MIN_RESEVED_PEBS : Z := 2.

(** ** State *)

Record world := World {
  alloc_ok : nat -> bool;
  io_sync_erase : nat -> Z; io_write_ec_hdr : nat -> Z; io_mark_bad : nat -> Z;
  io_read_vid_hdr : nat -> Z; eba_copy_leb : nat -> Z }.

Inductive work := Erase (e : Z) | WearLeveling.

(** The reserve for bad blocks. *)
Record reserve := Reserve {
  bad_allowed : bool; beb_rsvd_level : Z; beb_rsvd_pebs : Z; avail_pebs : Z; rsvd_pebs : Z; bad_peb_count : Z; good_peb_count : Z }.

(** What a movement of data sets: [move_from], [move_to], [move_to_put] and
    [wl_scheduled]. *)
Record movement := Movement { move_from : Z; move_to : Z; move_to_put : bool; wl_scheduled : bool }.

Record ubi := Ubi { trees : wl; works : list work; moves : movement; ro_mode : bool; max_ec : Z; rsvd : reserve; asked : nat }.

Definition set_trees (w : wl) (u : ubi) : ubi := Ubi w (works u) (moves u) (ro_mode u) (max_ec u) (rsvd u) (asked u).
Definition set_works (l : list work) (u : ubi) : ubi := Ubi (trees u) l (moves u) (ro_mode u) (max_ec u) (rsvd u) (asked u).
Definition set_moves (m : movement) (u : ubi) : ubi := Ubi (trees u) (works u) m (ro_mode u) (max_ec u) (rsvd u) (asked u).
Definition set_max_ec (n : Z) (u : ubi) : ubi := Ubi (trees u) (works u) (moves u) (ro_mode u) n (rsvd u) (asked u).
Definition set_rsvd (r : reserve) (u : ubi) : ubi := Ubi (trees u) (works u) (moves u) (ro_mode u) (max_ec u) r (asked u).
Definition ubi_ro_mode (u : ubi) : ubi := Ubi (trees u) (works u) (moves u) true (max_ec u) (rsvd u) (asked u).
Definition schedule_wl (b : bool) (u : ubi) : ubi :=
  set_moves (Movement (move_from (moves u)) (move_to (moves u)) (move_to_put (moves u)) b) u.

Definition ask {A} (f : nat -> A) (u : ubi) : A * ubi :=
  (f (asked u), Ubi (trees u) (works u) (moves u) (ro_mode u) (max_ec u) (rsvd u) (S (asked u))).
Definition on_trees (f : wl -> option wl) (u : ubi) : option ubi := w ← f (trees u); Some (set_trees w u).

(** [e->ec = ec] and [kmem_cache_free] of an entry. *)
Definition set_ec (e n : Z) (w : wl) : wl :=
  Wl (w_nodes w) (roots w) (<[e := n]> (ec w)) (pe_e w) (pe_abs_ec w) (abs_ec w) (kmallocs w).
Definition kmem_cache_free (e : Z) (u : ubi) : ubi :=
  let w := trees u in
  set_trees (Wl (delete e (w_nodes w)) (roots w) (ec w) (pe_e w) (pe_abs_ec w) (abs_ec w) (kmallocs w)) u.

(** ** The workers *)

(** Errors after which [erase_worker] queues the block again. *)
Definition retried (err : Z) : bool := (err =? - EINTR) || (err =? - ENOMEM) || (err =? - EAGAIN) || (err =? - EBUSY).

Section Unit.
Context (W : world) (pnum lookuptbl : Z -> Z) (kmalloc_address : nat -> gmap Z rb_node -> Z).

Definition sync_erase (e : Z) (u : ubi) : Z * ubi :=
  let '(ok, u) := ask (alloc_ok W) u in
  if negb ok then (- ENOMEM, u)
  else
    let '(err, u) := ask (io_sync_erase W) u in
    if err <? 0 then (err, u)
    else
      let new_ec := u64 (ec (trees u) e + err) in
      if UBI_MAX_ERASECOUNTER <? new_ec then (- EINVAL, u)
      else
        let '(err, u) := ask (io_write_ec_hdr W) u in
        if negb (err =? 0) then (err, u)
        else (err, set_max_ec (Z.max new_ec (max_ec u)) (set_trees (set_ec e new_ec (trees u)) u)).

Definition ubi_calculate_reserved (r : reserve) : reserve :=
  let level := Z.quot (good_peb_count r) 100 * CONFIG_MTD_UBI_BEB_RESERVE in
  Reserve (bad_allowed r) (if level <? MIN_RESEVED_PEBS then MIN_RESEVED_PEBS else level)
    (beb_rsvd_pebs r) (avail_pebs r) (rsvd_pebs r) (bad_peb_count r) (good_peb_count r).

(** Filling the reserve from the available blocks. *)
Definition fill_reserve (r : reserve) : reserve :=
  let need := beb_rsvd_level r - beb_rsvd_pebs r + 1 in
  if 0 <? need then
    let need := if need <=? avail_pebs r then need else avail_pebs r in
    Reserve (bad_allowed r) (beb_rsvd_level r) (beb_rsvd_pebs r + need) (avail_pebs r - need) (rsvd_pebs r + need)
      (bad_peb_count r) (good_peb_count r)
  else r.

(** The end of [erase_worker] for a block that went bad. *)
Definition peb_went_bad (u : ubi) : Z * ubi :=
  if negb (bad_allowed (rsvd u)) then (- EIO, ubi_ro_mode u)
  else
    let u := set_rsvd (fill_reserve (rsvd u)) u in
    if beb_rsvd_pebs (rsvd u) =? 0 then (- EIO, ubi_ro_mode u)
    else
      let '(err, u) := ask (io_mark_bad W) u in
      if negb (err =? 0) then (err, ubi_ro_mode u)
      else
        let r := rsvd u in
        (err, set_rsvd (ubi_calculate_reserved
          (Reserve (bad_allowed r) (beb_rsvd_level r) (beb_rsvd_pebs r - 1) (avail_pebs r) (rsvd_pebs r)
             (bad_peb_count r + 1) (good_peb_count r - 1))) u).

(** The worker is called by [do_work]. *)
Section Workers.
Context (do_work : ubi -> option (Z * ubi)).

Definition schedule_ubi_work (wrk : work) (u : ubi) : option ubi :=
  '(_, u) ← do_work (set_works (works u ++ [wrk]) u); Some u.

Definition schedule_erase (e : Z) (u : ubi) : option (Z * ubi) :=
  let '(ok, u) := ask (alloc_ok W) u in
  if negb ok then Some (- ENOMEM, u)
  else u ← schedule_ubi_work (Erase e) u; Some (0, u).

(** Whether the erase counters of the blocks [e1] and [e2] differ much. *)
Definition unbalanced (e1 e2 : Z) (w : wl) : bool := UBI_WL_THRESHOLD <=? s32 (ec w e2 - ec w e1).

Definition wl_needed (w : wl) : option bool :=
  if roots w Scrub =? 0 then
    if (roots w Used =? 0) || (roots w Free =? 0) then Some false
    else
      e1 ← rb_first (tree_of Used w);
      e2 ← find_wl_entry Free WL_FREE_MAX_DIFF w;
      Some (unbalanced e1 e2 w)
  else Some true.

Definition ensure_wear_leveling (u : ubi) : option (Z * ubi) :=
  if wl_scheduled (moves u) then Some (0, u)
  else
    needed ← wl_needed (trees u);
    if negb needed then Some (0, u)
    else
      let u := schedule_wl true u in
      let '(ok, u) := ask (alloc_ok W) u in
      if negb ok then Some (- ENOMEM, schedule_wl false u)
      else u ← schedule_ubi_work WearLeveling u; Some (0, u).

Definition erase_worker (e : Z) (u : ubi) : option (Z * ubi) :=
  let '(err, u) := sync_erase e u in
  if err =? 0 then
    let w := trees u in
    let w := Wl (w_nodes w) (roots w) (ec w) (pe_e w) (pe_abs_ec w) (u64 (abs_ec w + 1)) (kmallocs w) in
    w ← wl_tree_add pnum Free e w;
    w ← check_protection_over pnum w;
    ensure_wear_leveling (set_trees w u)
  else
    let u := kmem_cache_free e u in
    if retried err then
      '(err1, u) ← schedule_erase e u;
      if negb (err1 =? 0) then Some (err1, ubi_ro_mode u) else Some (err, u)
    else if negb (err =? - EIO) then Some (err, ubi_ro_mode u)
    else Some (peb_went_bad u).

(** The exits of [wear_leveling_worker]. *)
Definition no_movement (u : ubi) : ubi := set_moves (Movement 0 0 false false) u.

Definition out_error (err e1 e2 : Z) (u : ubi) : Z * ubi :=
  (err, ubi_ro_mode (kmem_cache_free e2 (kmem_cache_free e1 (no_movement u)))).

Definition out_not_moved (scrubbing : bool) (e1 e2 : Z) (u : ubi) : option (Z * ubi) :=
  u ← on_trees (wl_tree_add pnum (if scrubbing then Scrub else Used) e1) u;
  '(err, u) ← schedule_erase e2 (no_movement u);
  if negb (err =? 0) then Some (out_error err e1 e2 u) else Some (0, u).

(** The movement is done, or cancelled with [e1] to be protected by [pe]. *)
Definition moved (pe : option Z) (e1 e2 : Z) (u : ubi) : option (Z * ubi) :=
  u ← match pe with Some pe => on_trees (prot_tree_add pnum e1 pe 1) u | None => Some u end;
  let put := move_to_put (moves u) in
  u ← if put then Some u else on_trees (wl_tree_add pnum Used e2) u;
  let u := no_movement u in
  '(err, u) ← if put then schedule_erase e2 u else Some (0, u);
  if negb (err =? 0) then Some (out_error err e1 e2 u)
  else
    match pe with
    | Some _ => Some (0, u)
    | None => '(err, u) ← schedule_erase e1 u; if negb (err =? 0) then Some (out_error err e1 e2 u) else Some (0, u)
    end.

(** The blocks to move the data from and to, taken out of their trees; nothing
    when the movement is cancelled. *)
Definition pick_blocks (w : wl) : option (option (bool * Z * Z * wl)) :=
  if (roots w Free =? 0) || ((roots w Used =? 0) && (roots w Scrub =? 0)) then Some None
  else
    let scrubbing := negb (roots w Scrub =? 0) in
    let id := if scrubbing then Scrub else Used in
    e1 ← rb_first (tree_of id w);
    e2 ← find_wl_entry Free WL_FREE_MAX_DIFF w;
    if negb scrubbing && negb (unbalanced e1 e2 w) then Some None
    else
      w ← in_tree id (rb_erase e1) w;
      w ← in_tree Free (rb_erase e2) w;
      Some (Some (scrubbing, e1, e2, w)).

(** The movement of the data from [e1] to [e2], which are in no tree. *)
Definition move_data (scrubbing : bool) (e1 e2 : Z) (u : ubi) : option (Z * ubi) :=
  let '(err, u) := ask (io_read_vid_hdr W) u in
  if negb (err =? 0) && negb (err =? UBI_IO_BITFLIPS) then
    if err =? UBI_IO_PEB_FREE then out_not_moved scrubbing e1 e2 u
    else Some (out_error (if 0 <? err then - EIO else err) e1 e2 u)
  else
    let '(err, u) := ask (eba_copy_leb W) u in
    if negb (err =? 0) then
      if err <? 0 then Some (out_error err e1 e2 u)
      else if err =? 1 then out_not_moved scrubbing e1 e2 u
      else
        let '(pe, w) := kmalloc kmalloc_address (trees u) in
        let u := set_trees w u in
        if pe =? 0 then Some (out_error (- ENOMEM) e1 e2 u) else moved (Some pe) e1 e2 u
    else moved None e1 e2 u.

Definition wear_leveling_worker (u : ubi) : option (Z * ubi) :=
  let '(ok, u) := ask (alloc_ok W) u in
  if negb ok then Some (- ENOMEM, u)
  else
    picked ← pick_blocks (trees u);
    match picked with
    | None => Some (0, schedule_wl false u)
    | Some (scrubbing, e1, e2, w) =>
        move_data scrubbing e1 e2
          (set_moves (Movement e1 e2 (move_to_put (moves u)) (wl_scheduled (moves u))) (set_trees w u))
    end.

(** [wrk->func] for the first work of the queue. *)
Definition do_first (u : ubi) : option (Z * ubi) :=
  match works u with
  | [] => Some (0, u)
  | Erase e :: l => erase_worker e (set_works l u)
  | WearLeveling :: l => wear_leveling_worker (set_works l u)
  end.
End Workers.

Fixpoint do_work (fuel : nat) (u : ubi) : option (Z * ubi) :=
  match fuel with
  | O => None
  | S fuel => do_first (do_work fuel) u
  end.

(** ** The operations *)

(** The removal of a block from the tree it is in. *)
Definition remove_used (e : Z) (u : ubi) : option (Z * ubi) :=
  used ← in_wl_tree pnum Used e (trees u);
  if used : bool then u ← on_trees (in_tree Used (rb_erase e)) u; Some (0, u)
  else
    scrub ← in_wl_tree pnum Scrub e (trees u);
    if scrub : bool then u ← on_trees (in_tree Scrub (rb_erase e)) u; Some (0, u)
    else '(err, w) ← prot_tree_del pnum (pnum e) (trees u); Some (err, set_trees w u).

(** The test [e == ubi->move_from] and the retries for it are those of another
    thread: here they would not end. *)
Definition ubi_wl_put_peb (fuel : nat) (n : Z) (u : ubi) : option (Z * ubi) :=
  let e := lookuptbl n in
  if e =? move_from (moves u) then None
  else if e =? move_to (moves u) then
    Some (0, set_moves (Movement (move_from (moves u)) (move_to (moves u)) true (wl_scheduled (moves u))) u)
  else
    '(err, u) ← remove_used e u;
    if negb (err =? 0) then Some (err, ubi_ro_mode u)
    else
      '(err, u) ← schedule_erase (do_work fuel) e u;
      if negb (err =? 0) then u ← on_trees (wl_tree_add pnum Used e) u; Some (err, u) else Some (err, u).

Definition ubi_wl_scrub_peb (fuel : nat) (n : Z) (u : ubi) : option (Z * ubi) :=
  let e := lookuptbl n in
  scrub ← in_wl_tree pnum Scrub e (trees u);
  if (e =? move_from (moves u)) || scrub then Some (0, u)
  else if e =? move_to (moves u) then None
  else
    used ← in_wl_tree pnum Used e (trees u);
    '(err, u) ← (if used : bool then u ← on_trees (in_tree Used (rb_erase e)) u; Some (0, u)
                 else '(err, w) ← prot_tree_del pnum (pnum e) (trees u); Some (err, set_trees w u));
    if negb (err =? 0) then Some (err, ubi_ro_mode u)
    else
      u ← on_trees (wl_tree_add pnum Scrub e) u;
      ensure_wear_leveling (do_work fuel) u.

Fixpoint produce_free_peb (fuel : nat) (u : ubi) : option (Z * ubi) :=
  match fuel with
  | O => None
  | S fuel =>
      if negb (roots (trees u) Free =? 0) then Some (0, u)
      else '(err, u) ← do_work fuel u; if negb (err =? 0) then Some (err, u) else produce_free_peb fuel u
  end.

(** From the label [retry]. *)
Fixpoint get_peb_retry (fuel : nat) (dtype pe : Z) (u : ubi) : option (Z * ubi) :=
  match fuel with
  | O => None
  | S fuel =>
      if roots (trees u) Free =? 0 then
        match works u with
        | [] => Some (- ENOSPC, set_trees (kfree pe (trees u)) u)
        | _ :: _ =>
            '(err, u) ← produce_free_peb fuel u;
            if err <? 0 then Some (err, set_trees (kfree pe (trees u)) u) else get_peb_retry fuel dtype pe u
        end
      else '(n, w) ← take_free pnum dtype pe (trees u); Some (n, set_trees w u)
  end.

Definition ubi_wl_get_peb (fuel : nat) (dtype : Z) (u : ubi) : option (Z * ubi) :=
  let '(pe, w) := kmalloc kmalloc_address (trees u) in
  let u := set_trees w u in
  if pe =? 0 then Some (- ENOMEM, u) else get_peb_retry fuel dtype pe u.

(** The works that remain, at most [fuel] of them. *)
Fixpoint ubi_wl_flush (fuel : nat) (u : ubi) : option (Z * ubi) :=
  match fuel with
  | O => None
  | S fuel =>
      match works u with
      | [] => Some (0, u)
      | _ :: _ => '(err, u) ← do_work fuel u; if negb (err =? 0) then Some (err, u) else ubi_wl_flush fuel u
      end
  end.
End Unit.

(** ** Entries that are in no tree *)

Section Spec.
Context (pnum : Z -> Z).

#[local] Abbreviation rep := (wl_rep pnum).

Lemma rep_loose_perm w ts l l' X : l ≡ₚ l' -> rep w ts l X -> rep w ts l' X.
Proof.
  intros Hp H. destruct (rep_heap _ _ _ _ _ H) as (G & Ht & Hl). destruct H as [_ H1 H2 H3 H4 H5]. split; try done.
  - exists G. split; [done |]. eapply loose_perm; [| exact Hl]. by rewrite Hp.
  - revert H5. unfold entries. by rewrite Hp.
Qed.

Lemma rep_set_ec w ts e loose X n : rep w ts (e :: loose) X -> rep (set_ec e n w) ts (e :: loose) X.
Proof.
  intros H. assert (Hne : forall id a, block_tree id -> a ∈ inorder (ts id) -> ec (set_ec e n w) a = ec w a).
  { intros id a Hid Ha. cbn. rewrite fn_lookup_insert_ne; [done |]. intros <-. eapply (loose_distinct pnum); [exact H | | reflexivity]. by eapply entries_block. }
  destruct (rep_heap _ _ _ _ _ H) as (G & Ht & Hl). destruct H as [_ H1 H2 H3 H4 H5]. split; try done.
  - by exists G.
  - intros id Hid. apply (StronglySorted_impl (key_lt pnum (ec w))); [| by apply H1]. intros a b Ha Hb. unfold key_lt.
    rewrite !goes_left_spec, (Hne id a Hid Ha), (Hne id b Hid Hb). done.
Qed.

Lemma rep_abs_ec w ts loose X n : rep w ts loose X ->
  rep (Wl (w_nodes w) (roots w) (ec w) (pe_e w) (pe_abs_ec w) n (kmallocs w)) ts loose X.
Proof. intros [H1 H2 H3 H4 H5 H6]. by split. Qed.

Lemma rep_free w ts e loose : rep w ts (e :: loose) [] ->
  rep (Wl (delete e (w_nodes w)) (roots w) (ec w) (pe_e w) (pe_abs_ec w) (abs_ec w) (kmallocs w)) ts loose [].
Proof.
  intros H. destruct (rep_heap _ _ _ _ _ H) as (G & Ht & Hl). cbn [app] in Ht.
  destruct (loose_take G e (protected w ts ++ loose)) as (n & G' & HG & Hl').
  { eapply loose_perm; [| exact Hl]. solve_Permutation. }
  assert (entries w ts (e :: loose) ≡ₚ e :: entries w ts loose) as He by (unfold entries; solve_Permutation).
  destruct H as [_ H1 H2 H3 H4 H5]. split; try done.
  - exists G'. split; [| done]. apply (trees_hold_perm _ _ _ _ HG) in Ht. destruct Ht as [Hr [Hn Hf]]. split; [done |].
    apply (nodup_fst _ ((e, n) :: all_cells ts ++ G')) in Hn; [| solve_Permutation]. cbn in Hn. apply NoDup_cons in Hn as [Hout Hn]. split; [done |].
    apply Forall_forall. intros [a k] Hin. rewrite Forall_forall in Hf. destruct (Hf (a, k)) as [Ha Hk].
    { rewrite elem_of_app, !elem_of_cons. apply elem_of_app in Hin as [? | ?]; auto. }
    split; [done |]. cbn in *. rewrite lookup_delete_ne; [done |]. intros <-. apply Hout. apply list_elem_of_fmap. by exists (e, k).
  - rewrite He, fmap_cons in H5. by apply NoDup_cons in H5 as [_ H5].
Qed.

(** *** Erase counters and the measure of the works *)

Definition counters_ok (w : wl) (l : list Z) : Prop := Forall (fun e => 0 <= ec w e < 2 ^ 31) l.

Definition sum (l : list Z) : Z := foldr Z.add 0 l.
Lemma sum_perm l l' : l ≡ₚ l' -> sum l = sum l'.
Proof. unfold sum. induction 1; cbn [foldr] in *; lia. Qed.
Lemma sum_nonneg l : Forall (fun x => 0 <= x) l -> 0 <= sum l.
Proof. unfold sum. induction 1; cbn [foldr] in *; lia. Qed.

(** What is left of the life of the blocks in use; a block to be scrubbed counts
    for more than a life. *)
Definition life (w : wl) (l : list Z) : Z := sum ((fun e => 2 ^ 31 - ec w e) <$> l).
Definition measure (w : wl) (ts : tree_id -> tree) : Z :=
  life w (inorder (ts Used) ++ protected w ts) + (2 ^ 31 + 1) * Z.of_nat (length (inorder (ts Scrub))).

Lemma life_perm w l l' : l ≡ₚ l' -> life w l = life w l'.
Proof. intros Hp. apply sum_perm. by rewrite Hp. Qed.

Lemma life_ext w w' l : (forall e, e ∈ l -> ec w' e = ec w e) -> life w' l = life w l.
Proof.
  intros He. unfold life. f_equal. apply list_fmap_ext. intros i e Hi%list_elem_of_lookup_2. by rewrite He.
Qed.

Lemma measure_nonneg w ts loose : counters_ok w (entries w ts loose) -> 0 <= measure w ts.
Proof.
  intros Hc. unfold measure. assert (0 <= life w (inorder (ts Used) ++ protected w ts)); [| lia]. apply sum_nonneg.
  apply Forall_fmap. rewrite !Forall_app in *. unfold counters_ok, entries in Hc. rewrite !Forall_app in Hc.
  split; (eapply Forall_impl; [apply Hc |]); intros e He; unfold compose; cbv beta in *; lia.
Qed.

(** ** The steps of the workers *)

Context (W : world) (alloc : nat -> gmap Z rb_node -> Z).

(** What the operations of the workers do not change. *)
Definition quiet (u u' : ubi) : Prop :=
  works u' = works u /\ moves u' = moves u /\ ro_mode u' = ro_mode u /\ rsvd u' = rsvd u.

(** There is memory for the works and the headers, and no erasure fails with an
    error after which it is tried again: the code is not correct otherwise
    ([wl_error_frees_used], [wl_out_of_memory_stops], [wl_erase_retry_fault]).  That a
    block has no header yet, or that its data could not be moved now, is answered
    a number of times only: such a block is taken again at once, without end. *)
Record gentle : Prop := {
  gentle_alloc : forall n, alloc_ok W n = true;
  gentle_erase : forall n, retried (io_sync_erase W n) = false;
  gentle_write : forall n, retried (io_write_ec_hdr W n) = false;
  gentle_move : exists N, forall n, (N <= n)%nat -> io_read_vid_hdr W n <> UBI_IO_PEB_FREE /\ eba_copy_leb W n <> 1 }.

Context (HW : gentle) (Halloc : kmalloc_fresh alloc).

Lemma sync_erase_spec e u : let '(err, u') := sync_erase W e u in quiet u u' /\ (asked u <= asked u')%nat /\
  ((err = 0 /\ exists n, 0 <= n < 2 ^ 31 /\ trees u' = set_ec e n (trees u)) \/ (err <> 0 /\ retried err = false /\ trees u' = trees u)).
Proof.
  unfold sync_erase, ask. rewrite (gentle_alloc HW). cbn [negb asked trees works moves ro_mode max_ec rsvd].
  destruct (Z.ltb_spec (io_sync_erase W (S (asked u))) 0) as [Hlt | Hge].
  - split; [done |]. split; [cbn; lia |]. right. split; [lia |]. split; [apply (gentle_erase HW) | done].
  - cbn. destruct (Z.ltb_spec UBI_MAX_ERASECOUNTER (u64 (ec (trees u) e + io_sync_erase W (S (asked u))))) as [Hov | Hok].
    + split; [done |]. split; [cbn; lia | by right].
    + destruct (Z.eqb_spec (io_write_ec_hdr W (S (S (asked u)))) 0) as [H0 | Hne]; cbn.
      * split; [done |]. split; [lia |]. left. split; [done |]. eexists. split; [| done].
        unfold UBI_MAX_ERASECOUNTER in Hok. split; [unfold wrap; apply Z.mod_pos_bound; lia | lia].
      * split; [done |]. split; [lia |]. right. split; [done |]. split; [apply (gentle_write HW) | done].
Qed.

(** *** The pair of blocks of a movement *)

Lemma wl_needed_spec w ts loose : rep w ts loose [] -> exists b, wl_needed w = Some b.
Proof.
  intros H. unfold wl_needed. destruct (roots w Scrub =? 0); [| by eexists].
  destruct (Z.eqb_spec (roots w Used) 0) as [| HU]; [by eexists |]. destruct (Z.eqb_spec (roots w Free) 0) as [| HF]; [by eexists |]. cbn [orb].
  rewrite (root_zero pnum _ _ _ _ Used H) in HU. rewrite (root_zero pnum _ _ _ _ Free H) in HF. destruct (inorder (ts Used)) as [| a l] eqn:Ha; [done |]. destruct (inorder (ts Free)) as [| b l2] eqn:Hb; [done |].
  destruct (ends_spec pnum _ _ _ _ _ _ _ H Ha) as (-> & _). cbn [mbind option_bind].
  destruct (find_wl_entry_in pnum _ _ _ _ Free WL_FREE_MAX_DIFF _ _ H ltac:(by left) Hb) as (e & -> & _). by eexists.
Qed.

Lemma unbalanced_spec e1 e2 w l : counters_ok w l -> e1 ∈ l -> e2 ∈ l -> unbalanced e1 e2 w = true -> ec w e1 < ec w e2.
Proof.
  unfold counters_ok. rewrite Forall_forall. intros Hc H1 H2. specialize (Hc e1 H1) as Hc1. specialize (Hc e2 H2).
  unfold unbalanced, UBI_WL_THRESHOLD. rewrite Z.leb_le. unfold swrap. rewrite Z.mod_small; lia.
Qed.

(** The trees after [pick_blocks]. *)
Lemma pick_blocks_spec w ts : rep w ts [] [] -> counters_ok w (entries w ts []) ->
  pick_blocks w = Some None \/
  exists (scrubbing : bool) e1 e2 w' ts', pick_blocks w = Some (Some (scrubbing, e1, e2, w')) /\ rep w' ts' [e2; e1] [] /\ same_rest w w' /\
    entries w' ts' [e2; e1] ≡ₚ entries w ts [] /\ ts' ProtPnum = ts ProtPnum /\
    if scrubbing then inorder (ts Scrub) ≡ₚ e1 :: inorder (ts' Scrub) /\ ts' Used = ts Used
    else ts' Scrub = ts Scrub /\ inorder (ts Used) ≡ₚ e1 :: inorder (ts' Used) /\ ec w e1 < ec w e2.
Proof.
  intros H Hc. unfold pick_blocks. destruct (Z.eqb_spec (roots w Free) 0) as [| HF]; [by left |]. cbn [orb].
  destruct ((roots w Used =? 0) && (roots w Scrub =? 0)) eqn:Hus; [by left |]. set (sc := negb (roots w Scrub =? 0)).
  set (id := if sc then Scrub else Used). assert (Hid : block_tree id) by (unfold id, block_tree; destruct sc; auto).
  assert (Hne : inorder (ts id) <> []).
  { rewrite <- (root_zero pnum _ _ _ _ _ H). unfold id, sc. destruct (Z.eqb_spec (roots w Scrub) 0); cbn; [| done].
    apply andb_false_iff in Hus as [Hus | Hus]; [by apply Z.eqb_neq in Hus | done]. }
  destruct (inorder (ts id)) as [| e1 l1] eqn:Hl1; [done |]. rewrite (root_zero pnum _ _ _ _ _ H) in HF. destruct (inorder (ts Free)) as [| b l2] eqn:Hb; [done |].
  destruct (ends_spec pnum _ _ _ _ _ _ _ H Hl1) as (-> & _). cbn [mbind option_bind].
  destruct (find_wl_entry_in pnum _ _ _ _ Free WL_FREE_MAX_DIFF _ _ H ltac:(by left) Hb) as (e2 & -> & He2). cbn [mbind option_bind].
  assert (e1 ∈ inorder (ts id)) as He1 by (rewrite Hl1; left).
  destruct (negb sc && negb (unbalanced e1 e2 w)) eqn:Hbal; [by left |]. right.
  destruct (rep_erase pnum _ _ e1 _ _ id H Hid He1) as (w1 & t1 & -> & H1 & Hs1 & p1 & p2 & Hp & Hp'). cbn [mbind option_bind].
  assert (id <> Free) as HidF by (unfold id; by destruct sc).
  assert (e2 ∈ inorder ((<[id := t1]> ts) Free)) as He2' by (by rewrite fn_lookup_insert_ne).
  destruct (rep_erase pnum _ _ e2 _ _ Free H1 ltac:(by left) He2') as (w2 & t2 & -> & H2 & Hs2 & q1 & q2 & Hq & Hq'). cbn [mbind option_bind].
  exists sc, e1, e2, w2, (<[Free := t2]> (<[id := t1]> ts)). split; [done |]. split; [done |].
  assert (same_rest w w2) as Hs by (destruct Hs1 as (?&?&?&?&?), Hs2 as (?&?&?&?&?); split_and!; congruence). split; [done |].
  rewrite fn_lookup_insert_ne in Hq by done.
  assert (inorder (ts id) ≡ₚ e1 :: inorder t1) as Hi1 by (rewrite Hp, Hp'; solve_Permutation).
  assert (inorder (ts Free) ≡ₚ e2 :: inorder t2) as Hi2 by (rewrite Hq, Hq'; solve_Permutation).
  split; [| split; [by destruct sc |]].
  - rewrite (same_rest_entries _ _ _ _ Hs). unfold entries, protected. unfold id in *. destruct sc; cbn; rewrite Hi1, Hi2; solve_Permutation.
  - unfold id in *. destruct sc; [done |]. split; [done |]. split; [done |]. cbn in Hbal. apply negb_false_iff in Hbal.
    eapply unbalanced_spec; [exact Hc | | | done]; [by eapply (entries_block pnum Used); [right; left |] | by eapply (entries_block pnum Free); [left |]].
Qed.

(** ** The works terminate *)

(** With enough fuel the result is [r]. *)
Definition runs (f : nat -> option (Z * ubi)) (r : Z * ubi) : Prop := exists n, forall m, (n <= m)%nat -> f m = Some r.

Lemma runs_const f r : (forall m, f m = Some r) -> runs f r.
Proof. by exists 0%nat. Qed.

Lemma runs_work u r : runs (fun m => do_first W pnum alloc (do_work W pnum alloc m) u) r -> runs (fun m => do_work W pnum alloc m u) r.
Proof. intros [n Hn]. exists (S n). intros [| m] Hm; [lia |]. apply Hn. lia. Qed.

(** No work is pending and no data are being moved. *)
Record quiescent (u : ubi) (ts : tree_id -> tree) : Prop := {
  q_rep : rep (trees u) ts [] [];
  q_works : works u = [];
  q_moves : moves u = Movement 0 0 false false;
  q_counters : counters_ok (trees u) (entries (trees u) ts []) }.

(** The blocks [gone] are no longer managed: then UBI is read-only, or there are
    more bad blocks. *)
Definition lost (u u' : ubi) (gone : list Z) : Prop :=
  (ro_mode u = true -> ro_mode u' = true) /\ bad_peb_count (rsvd u) <= bad_peb_count (rsvd u') /\
  (gone = [] \/ ro_mode u' = true \/ bad_peb_count (rsvd u) < bad_peb_count (rsvd u')).

Definition settled (u : ubi) (es : list Z) (u' : ubi) : Prop :=
  exists ts' gone, quiescent u' ts' /\ es ≡ₚ entries (trees u') ts' [] ++ gone /\ lost u u' gone.

Lemma lost_trans u u1 u2 g1 g2 : lost u u1 g1 -> lost u1 u2 g2 -> lost u u2 (g2 ++ g1).
Proof.
  intros (H1 & H2 & H3) (H4 & H5 & H6). split; [auto |]. split; [lia |].
  destruct H3 as [-> | [? | ?]]; [| auto | right; right; lia]. rewrite app_nil_r. destruct H6 as [-> | [? | ?]]; [auto | auto | right; right; lia].
Qed.

Lemma quiet_lost u u' : ro_mode u' = ro_mode u -> rsvd u' = rsvd u -> lost u u' [].
Proof. intros Hr Hs. unfold lost. rewrite Hr, Hs. split; [done |]. split; [lia | by left]. Qed.

Lemma settled_from u u1 es es1 gone u' : lost u u1 gone -> es ≡ₚ es1 ++ gone -> settled u1 es1 u' -> settled u es u'.
Proof.
  intros Hl Hp (ts' & g & Hq & Hp1 & Hl1). exists ts', (g ++ gone). split; [done |]. split; [| by eapply lost_trans].
  rewrite Hp, Hp1. solve_Permutation.
Qed.

Lemma settled_done u ts gone es u0 : quiescent u ts -> es ≡ₚ entries (trees u) ts [] ++ gone -> lost u0 u gone -> settled u0 es u.
Proof. intros. by exists ts, gone. Qed.

(** The states in which the workers start. *)
Definition at_erase (u : ubi) (ts : tree_id -> tree) (e : Z) : Prop :=
  rep (trees u) ts [e] [] /\ works u = [Erase e] /\ moves u = Movement 0 0 false false /\ counters_ok (trees u) (entries (trees u) ts [e]).
Definition at_wl (u : ubi) (ts : tree_id -> tree) : Prop :=
  rep (trees u) ts [] [] /\ works u = [WearLeveling] /\ moves u = Movement 0 0 false true /\ counters_ok (trees u) (entries (trees u) ts []).

(** Up to the request [N] movements may be put off. *)
Section Bounded.
Context (N : nat) (HN : forall n, (N <= n)%nat -> io_read_vid_hdr W n <> UBI_IO_PEB_FREE /\ eba_copy_leb W n <> 1).

(** [B] requests are left up to [N]. *)
Definition erase_done (B K : nat) : Prop := forall u ts e, at_erase u ts e -> (N <= asked u + B)%nat -> measure (trees u) ts < Z.of_nat K ->
  exists r u', runs (fun m => do_work W pnum alloc m u) (r, u') /\ settled u (entries (trees u) ts [e]) u'.
Definition wl_done (B K : nat) : Prop := forall u ts, at_wl u ts -> (N <= asked u + B)%nat -> measure (trees u) ts < Z.of_nat K ->
  exists r u', runs (fun m => do_work W pnum alloc m u) (r, u') /\ settled u (entries (trees u) ts []) u'.

Lemma schedule_erase_runs B K u ts e : erase_done B K -> (N <= asked u + B)%nat -> rep (trees u) ts [e] [] -> works u = [] -> moves u = Movement 0 0 false false ->
  counters_ok (trees u) (entries (trees u) ts [e]) -> measure (trees u) ts < Z.of_nat K ->
  exists u', runs (fun m => schedule_erase W (do_work W pnum alloc m) e u) (0, u') /\ settled u (entries (trees u) ts [e]) u'.
Proof.
  intros HK HB H Hw Hm Hc Hlt. unfold schedule_erase, schedule_ubi_work, ask. rewrite (gentle_alloc HW). cbn [negb].
  destruct (HK (set_works [Erase e] (Ubi (trees u) (works u) (moves u) (ro_mode u) (max_ec u) (rsvd u) (S (asked u)))) ts e) as (r & u' & [n Hn] & Hs).
  { by split_and!. } { cbn. lia. } { done. }
  exists u'. split; [| exact Hs]. exists n. intros m Hm'. specialize (Hn m Hm'). cbn [works]. rewrite Hw in Hn |- *. cbn [app]. by rewrite Hn.
Qed.

Lemma ensure_runs B K u ts : wl_done B K -> (N <= asked u + B)%nat -> quiescent u ts -> measure (trees u) ts < Z.of_nat K ->
  exists u', runs (fun m => ensure_wear_leveling W (do_work W pnum alloc m) u) (0, u') /\ settled u (entries (trees u) ts []) u'.
Proof.
  intros HK HB [H Hw Hm Hc] Hlt. unfold ensure_wear_leveling, schedule_ubi_work, ask. rewrite Hm. cbn [wl_scheduled].
  destruct (wl_needed_spec _ _ _ H) as [b ->]. cbn [mbind option_bind]. destruct b; cbn [negb].
  - cbn [schedule_wl set_moves asked trees works moves]. rewrite (gentle_alloc HW). cbn [negb].
    destruct (HK (set_works [WearLeveling] (Ubi (trees u) (works u) (Movement 0 0 false true) (ro_mode u) (max_ec u) (rsvd u) (S (asked u)))) ts) as (r & u' & [n Hn] & Hs).
    { by split_and!. } { cbn. lia. } { done. }
    exists u'. split; [| exact Hs]. exists n. intros m Hm'. specialize (Hn m Hm'). unfold schedule_wl, set_moves, set_works in *. cbn in Hn |- *. rewrite Hm, Hw in *. cbn in Hn |- *. by rewrite Hn.
  - exists u. split; [by apply runs_const |]. eapply settled_done; [by split | by rewrite app_nil_r | by apply quiet_lost].
Qed.

(** *** Erasing *)

Lemma fill_reserve_bad r : bad_peb_count (fill_reserve r) = bad_peb_count r.
Proof. unfold fill_reserve. cbv zeta. by destruct (0 <? _). Qed.

Lemma peb_went_bad_spec u gone : let '(r, u') := peb_went_bad W u in
  trees u' = trees u /\ works u' = works u /\ moves u' = moves u /\ lost u u' gone.
Proof.
  unfold peb_went_bad, ask, lost. destruct (bad_allowed (rsvd u)); cbn [negb]; [| cbn; split_and!; auto; lia].
  destruct (beb_rsvd_pebs _ =? 0); [cbn; rewrite fill_reserve_bad; split_and!; auto; lia |].
  destruct (io_mark_bad W _ =? 0); cbn; rewrite fill_reserve_bad; split_and!; auto; lia.
Qed.

Lemma quiescent_free u u' ts e gone : rep (trees u) ts [e] [] -> counters_ok (trees u) (entries (trees u) ts [e]) ->
  trees u' = trees (kmem_cache_free e u) -> works u' = [] -> moves u' = Movement 0 0 false false -> lost u u' (e :: gone) ->
  settled u (entries (trees u) ts [e] ++ gone) u'.
Proof.
  intros H Hc Ht Hw Hm Hl. assert (entries (trees u) ts [e] ≡ₚ entries (trees u) ts [] ++ [e]) as Hp by (unfold entries; solve_Permutation).
  apply (settled_done _ ts (e :: gone)); [| | done].
  - split; rewrite ?Ht; try done; [by apply rep_free |]. unfold counters_ok in *. rewrite Hp in Hc. by apply Forall_app in Hc as [Hc _].
  - rewrite Ht, Hp. cbn. change (entries _ ts []) with (entries (trees u) ts []). solve_Permutation.
Qed.

(** A successful erasure. *)
Lemma erase_success u ts e n : rep (trees u) ts [e] [] -> counters_ok (trees u) (entries (trees u) ts [e]) -> 0 <= n < 2 ^ 31 ->
  let w := set_ec e n (trees u) in
  exists w' ts', (w1 ← wl_tree_add pnum Free e (Wl (w_nodes w) (roots w) (ec w) (pe_e w) (pe_abs_ec w) (u64 (abs_ec w + 1)) (kmallocs w));
      check_protection_over pnum w1) = Some w' /\ rep w' ts' [] [] /\ entries w' ts' [] ≡ₚ entries (trees u) ts [e] /\
    counters_ok w' (entries w' ts' []) /\ measure w' ts' = measure (trees u) ts.
Proof.
  intros H Hc Hn w. set (w0 := Wl _ _ _ _ _ _ _). assert (H0 : rep w0 ts [e] []) by (by apply rep_abs_ec, rep_set_ec).
  destruct (rep_add pnum _ _ _ _ _ Free H0) as (w1 & t1 & -> & H1 & Hs1 & Hi1); [by left |]. cbn [mbind option_bind].
  destruct (check_protection_rep pnum _ _ _ H1) as (w2 & ts2 & -> & H2 & Hs2 & He2 & HF & HS & _).
  assert (same_rest w0 w2) as Hs by (destruct Hs1 as (?&?&?&?&?), Hs2 as (?&?&?&?&?); split_and!; congruence).
  assert (entries w2 ts2 [] ≡ₚ entries (trees u) ts [e]) as He.
  { rewrite He2, (entries_update Free _ _ _ _ e ltac:(by left) Hi1). by rewrite (same_rest_entries _ _ _ _ Hs1). }
  exists w2, ts2. split; [done |]. split; [done |]. split; [exact He |]. destruct Hs as (Hec & _).
  assert (Hce : forall a, ec w2 a = if decide (a = e) then n else ec (trees u) a).
  { intros a. rewrite Hec. cbn. destruct (decide (a = e)) as [-> | Hne]; [by rewrite fn_lookup_insert | by rewrite fn_lookup_insert_ne]. }
  split.
  - unfold counters_ok in *. rewrite He. eapply Forall_impl; [exact Hc |]. intros a Ha. rewrite Hce. by case_decide.
  - unfold measure. rewrite HS. change ((<[Free := t1]> ts) Scrub) with (ts Scrub). f_equal.
    assert (inorder (ts2 Used) ++ protected w2 ts2 ≡ₚ inorder (ts Used) ++ protected (trees u) ts) as Hup.
    { pose proof He2 as Hx. unfold entries in Hx. rewrite HF, HS in Hx. change ((<[Free := t1]> ts) Scrub) with (ts Scrub) in Hx.
      change ((<[Free := t1]> ts) Used) with (ts Used) in Hx. change ((<[Free := t1]> ts) Free) with t1 in Hx.
      assert (protected w1 (<[Free := t1]> ts) = protected (trees u) ts) as Hpr by (rewrite (same_rest_prot _ _ _ Hs1); done). rewrite Hpr in Hx.
      apply Permutation_app_inv_l in Hx. rewrite !app_nil_r in Hx. rewrite (Permutation_app_comm (inorder (ts Scrub))), (Permutation_app_comm (inorder (ts Scrub)) (protected (trees u) ts)), !app_assoc in Hx.
      by apply Permutation_app_inv_r in Hx. }
    rewrite (life_perm _ _ _ Hup). apply life_ext. intros a Ha. rewrite Hce. rewrite decide_False; [done |]. intros ->.
    apply (loose_distinct pnum _ _ _ _ _ e H); [| done]. unfold entries. rewrite !elem_of_app. apply elem_of_app in Ha as [Ha | Ha]; auto.
Qed.

Lemma erase_step B K : wl_done B K -> erase_done B K.
Proof.
  intros HK u ts e (H & Hw & Hm & Hc) HB Hlt. cut (exists r u', runs (fun m => erase_worker W pnum (do_work W pnum alloc m) e (set_works [] u)) (r, u') /\
    settled u (entries (trees u) ts [e]) u').
  { intros (r & u' & Hr & Hs). exists r, u'. split; [| done]. apply runs_work. unfold do_first. by rewrite Hw. }
  unfold erase_worker. pose proof (sync_erase_spec e (set_works [] u)) as Hse. destruct (sync_erase W e (set_works [] u)) as [err u1].
  destruct Hse as [(Hw1 & Hm1 & Hr1 & Hv1) [Has [(-> & n & Hn & Ht1) | (Hne & Hret & Ht1)]]]; cbn in Hw1, Hm1, Hr1, Hv1, Has, Ht1.
  - rewrite Z.eqb_refl, Ht1. destruct (erase_success u ts e n H Hc Hn) as (w' & ts' & Hrun & H' & He' & Hc' & Hms). cbv zeta in Hrun.
    destruct (wl_tree_add _ _ _ _) as [w1 |]; [| done]. cbn [mbind option_bind] in Hrun |- *. rewrite Hrun. cbn [mbind option_bind].
    destruct (ensure_runs B K (set_trees w' u1) ts' HK) as (u' & Hr & Hs).
    { cbn. lia. } { split; cbn; try done. by rewrite Hm1. } { cbn. lia. }
    exists 0, u'. split; [done |]. eapply settled_from; [| | exact Hs]; [by apply (quiet_lost u) | by rewrite app_nil_r, <- He'].
  - rewrite (proj2 (Z.eqb_neq _ _) Hne). cbv zeta. rewrite Hret.
    assert (Hsettled : forall u', trees u' = trees (kmem_cache_free e u) -> works u' = [] -> moves u' = Movement 0 0 false false -> lost u u' [e] ->
      settled u (entries (trees u) ts [e]) u').
    { intros u' H1 H2 H3 H4. pose proof (quiescent_free u u' ts e [] H Hc H1 H2 H3 H4) as Hq. by rewrite app_nil_r in Hq. }
    destruct (negb (err =? - EIO)).
    + eexists err, _. split; [by apply runs_const |]. apply Hsettled; cbn; [by rewrite Ht1 | done | congruence |].
      unfold lost. cbn. rewrite Hv1. split_and!; auto; lia.
    + pose proof (peb_went_bad_spec (kmem_cache_free e u1) [e]) as Hb. destruct (peb_went_bad W (kmem_cache_free e u1)) as [r u2].
      destruct Hb as (Ht2 & Hw2 & Hm2 & Hl2). exists r, u2. split; [by apply runs_const |]. cbn in Hw2, Hm2.
      apply Hsettled; [rewrite Ht2; unfold kmem_cache_free; cbn; by rewrite Ht1 | congruence | congruence |].
      revert Hl2. unfold lost. cbn. by rewrite Hr1, Hv1.
Qed.

(** *** Moving data *)

Lemma entries_snoc w ts e l : entries w ts (e :: l) ≡ₚ entries w ts l ++ [e].
Proof. unfold entries. solve_Permutation. Qed.

Lemma counters_perm w l l' : l ≡ₚ l' -> counters_ok w l -> counters_ok w l'.
Proof. unfold counters_ok. by intros ->. Qed.

(** The movement fails and both entries are freed. *)
Lemma out_error_spec err e1 e2 u ts u0 : rep (trees u) ts [e2; e1] [] -> works u = [] -> rsvd u = rsvd u0 ->
  counters_ok (trees u) (entries (trees u) ts [e2; e1]) ->
  settled u0 (entries (trees u) ts [e2; e1]) (out_error err e1 e2 u).2.
Proof.
  intros H Hw Hv Hc. apply (settled_done _ ts [e1; e2]).
  - split; [| done | done |].
    + apply (rep_loose_perm _ _ _ [e1; e2]) in H; [| solve_Permutation]. by apply rep_free, rep_free.
    + apply (counters_perm _ _ (entries (trees u) ts [] ++ [e1; e2])) in Hc; [| unfold entries; solve_Permutation]. by apply Forall_app in Hc as [Hc _].
  - change (entries (trees (out_error err e1 e2 u).2) ts []) with (entries (trees u) ts []). unfold entries. solve_Permutation.
  - unfold lost. cbn. rewrite Hv. split_and!; auto; lia.
Qed.

(** The movement is cancelled: [e1] is protected, [e2] used. *)
Lemma cancelled_spec pe n m e1 e2 u ts : rep (trees u) ts [e2; e1] [(pe, n); (pe + aec_offset, m)] -> works u = [] ->
  move_to_put (moves u) = false -> counters_ok (trees u) (entries (trees u) ts [e2; e1]) ->
  exists u', (forall do_work, moved W pnum do_work (Some pe) e1 e2 u = Some (0, u')) /\ settled u (entries (trees u) ts [e2; e1]) u'.
Proof.
  intros H Hw Hm Hc. unfold moved, on_trees. apply (rep_loose_perm _ _ _ [e1; e2]) in H; [| solve_Permutation].
  destruct (rep_protect pnum _ _ _ _ _ _ _ 1 H) as (w1 & ts1 & -> & H1 & Hb & Hec & _ & _ & Hp). cbn [mbind option_bind set_trees moves trees]. rewrite Hm.
  destruct (rep_add pnum _ _ _ _ _ Used H1) as (w2 & t2 & -> & H2 & Hs2 & Hi); [by right; left |]. cbn [mbind option_bind].
  eexists. split; [reflexivity |].
  assert (entries w2 (<[Used := t2]> ts1) [] ≡ₚ entries (trees u) ts [e2; e1]) as He.
  { rewrite (entries_update Used _ _ _ _ e2 ltac:(by right; left) Hi), (same_rest_entries _ _ _ _ Hs2). unfold entries. rewrite Hp.
    rewrite (Hb Free), (Hb Used), (Hb Scrub) by (unfold block_tree; auto). solve_Permutation. }
  apply (settled_done _ (<[Used := t2]> ts1) []); [split; try done | |].
  - cbn. unfold counters_ok. rewrite He. destruct Hs2 as (-> & _). by rewrite Hec.
  - cbn. by rewrite app_nil_r, He.
  - by apply quiet_lost.
Qed.

(** The data are moved: [e2] is used, [e1] is erased. *)
Lemma moved_runs B K e1 e2 u ts : erase_done B K -> (N <= asked u + B)%nat -> rep (trees u) ts [e2; e1] [] -> works u = [] -> move_to_put (moves u) = false ->
  counters_ok (trees u) (entries (trees u) ts [e2; e1]) -> measure (trees u) ts + (2 ^ 31 - ec (trees u) e2) < Z.of_nat K ->
  exists u', runs (fun m => moved W pnum (do_work W pnum alloc m) None e1 e2 u) (0, u') /\ settled u (entries (trees u) ts [e2; e1]) u'.
Proof.
  intros HK HB H Hw Hm Hc Hlt. unfold moved, on_trees. cbn [mbind option_bind]. rewrite Hm.
  destruct (rep_add pnum _ _ _ _ _ Used H) as (w2 & t2 & -> & H2 & Hs2 & Hi); [by right; left |]. cbn [mbind option_bind].
  assert (entries w2 (<[Used := t2]> ts) [e1] ≡ₚ entries (trees u) ts [e2; e1]) as He.
  { by rewrite (entries_update Used _ _ _ _ e2 ltac:(by right; left) Hi), (same_rest_entries _ _ _ _ Hs2). }
  destruct (schedule_erase_runs B K (no_movement (set_trees w2 u)) (<[Used := t2]> ts) e1 HK) as (u' & [n Hn] & Hs); cbn [no_movement set_trees set_moves trees works moves asked].
  - done.
  - done.
  - done.
  - done.
  - unfold counters_ok. rewrite He. destruct Hs2 as (-> & _). done.
  - unfold measure in *. rewrite (same_rest_prot _ _ _ Hs2). change (<[Used := t2]> ts Used) with t2. change (<[Used := t2]> ts Scrub) with (ts Scrub).
    change (protected (trees u) (<[Used := t2]> ts)) with (protected (trees u) ts).
    rewrite (life_ext (trees u)) by (by destruct Hs2 as (-> & _)). rewrite (life_perm _ _ (e2 :: inorder (ts Used) ++ protected (trees u) ts)) by (by rewrite Hi).
    unfold life in *. cbn. unfold sum in *. lia.
  - exists u'. split.
    + exists n. intros m Hm'. specialize (Hn m Hm'). cbn [negb Z.eqb]. by rewrite Hn.
    + eapply settled_from; [| | exact Hs]; [by apply (quiet_lost u) | by rewrite app_nil_r, He].
Qed.

(** The data are not moved: [e1] goes back, [e2] is erased. *)
Lemma not_moved_runs B e1 e2 sc u ts : (forall K, erase_done B K) -> (N <= asked u + B)%nat -> rep (trees u) ts [e2; e1] [] -> works u = [] ->
  counters_ok (trees u) (entries (trees u) ts [e2; e1]) ->
  exists u', runs (fun m => out_not_moved W pnum (do_work W pnum alloc m) sc e1 e2 u) (0, u') /\ settled u (entries (trees u) ts [e2; e1]) u'.
Proof.
  intros HK HB H Hw Hc. unfold out_not_moved, on_trees. set (id := if sc then Scrub else Used). assert (block_tree id) as Hid by (unfold id, block_tree; destruct sc; auto).
  apply (rep_loose_perm _ _ _ [e1; e2]) in H; [| solve_Permutation].
  destruct (rep_add pnum _ _ _ _ _ id H Hid) as (w2 & t2 & -> & H2 & Hs2 & Hi). cbn [mbind option_bind].
  assert (entries w2 (<[id := t2]> ts) [e2] ≡ₚ entries (trees u) ts [e2; e1]) as He.
  { rewrite (entries_update id _ _ _ _ e1 Hid Hi), (same_rest_entries _ _ _ _ Hs2). unfold entries. solve_Permutation. }
  destruct (schedule_erase_runs B (Z.to_nat (measure w2 (<[id := t2]> ts) + 1)) (no_movement (set_trees w2 u)) (<[id := t2]> ts) e2 (HK _)) as (u' & [n Hn] & Hs);
    cbn [no_movement set_trees set_moves trees works moves asked]; [done | done | done | done | | lia |].
  - unfold counters_ok. rewrite He. destruct Hs2 as (-> & _). done.
  - exists u'. split; [exists n; intros m Hm'; by rewrite (Hn m Hm') |]. eapply settled_from; [| | exact Hs]; [by apply (quiet_lost u) | by rewrite app_nil_r, He].
Qed.

Lemma move_data_runs B K e1 e2 sc u ts : erase_done B K -> ((0 < B)%nat -> forall K, erase_done (pred B) K) -> (N <= asked u + B)%nat -> rep (trees u) ts [e2; e1] [] -> works u = [] -> move_to_put (moves u) = false ->
  counters_ok (trees u) (entries (trees u) ts [e2; e1]) -> measure (trees u) ts + (2 ^ 31 - ec (trees u) e2) < Z.of_nat K ->
  exists r u', runs (fun m => move_data W pnum alloc (do_work W pnum alloc m) sc e1 e2 u) (r, u') /\ settled u (entries (trees u) ts [e2; e1]) u'.
Proof.
  intros HK HK' HB H Hw Hm Hc Hlt. unfold move_data, ask. cbn [asked trees works moves ro_mode max_ec rsvd]. set (u1 := Ubi _ _ _ _ _ _ (S (asked u))).
  set (u2 := Ubi _ _ _ _ _ _ (S (S (asked u)))).
  assert (Herr : forall err v, trees v = trees u -> works v = [] -> rsvd v = rsvd u ->
    exists r u', runs (fun _ => Some (out_error err e1 e2 v)) (r, u') /\ settled u (entries (trees u) ts [e2; e1]) u').
  { intros err v Ht Hwv Hv. eexists _, _. split; [apply runs_const; reflexivity |]. pose proof (out_error_spec err e1 e2 v ts u) as Ho. rewrite Ht in Ho. by apply Ho. }
  destruct (negb (io_read_vid_hdr W (asked u) =? 0) && negb (io_read_vid_hdr W (asked u) =? UBI_IO_BITFLIPS)).
  { destruct (Z.eqb_spec (io_read_vid_hdr W (asked u)) UBI_IO_PEB_FREE) as [Hfree |]; [| by apply Herr].
    assert (asked u < N)%nat as Hlate by (destruct (decide (N <= asked u)%nat) as [Hl |]; [by destruct (HN _ Hl) | lia]).
    destruct (not_moved_runs (pred B) e1 e2 sc u1 ts (HK' ltac:(lia)) ltac:(cbn; lia) H Hw Hc) as (u' & Hr & Hs). exists 0, u'. split; [exact Hr |].
    eapply settled_from; [| | exact Hs]; [by apply (quiet_lost u) | by rewrite app_nil_r]. }
  destruct (Z.eqb_spec (eba_copy_leb W (S (asked u))) 0) as [_ | _]; cbn [negb].
  - destruct (moved_runs B K e1 e2 u2 ts HK ltac:(cbn; lia) H Hw Hm Hc Hlt) as (u' & Hr & Hs). exists 0, u'. split; [exact Hr |].
    eapply settled_from; [| | exact Hs]; [by apply (quiet_lost u) | by rewrite app_nil_r].
  - destruct (_ <? 0); [by apply Herr |]. destruct (Z.eqb_spec (eba_copy_leb W (S (asked u))) 1) as [Hone | _].
    { assert (S (asked u) < N)%nat as Hlate by (destruct (decide (N <= S (asked u))%nat) as [Hl |]; [by destruct (HN _ Hl) | lia]).
      destruct (not_moved_runs (pred B) e1 e2 sc u2 ts (HK' ltac:(lia)) ltac:(cbn; lia) H Hw Hc) as (u' & Hr & Hs). exists 0, u'. split; [exact Hr |].
      eapply settled_from; [| | exact Hs]; [by apply (quiet_lost u) | by rewrite app_nil_r]. }
    pose proof (kmalloc_rep pnum alloc (trees u) ts [e2; e1] Halloc H) as Hk. cbn [trees]. destruct (kmalloc alloc (trees u)) as [pe w].
    destruct Hk as ((Hec & Hpe & _) & _ & Hk). cbn in Hec, Hpe.
    assert (entries w ts [e2; e1] = entries (trees u) ts [e2; e1]) as He by (unfold entries, protected; by rewrite Hpe).
    assert (counters_ok w (entries w ts [e2; e1])) as Hcw by (rewrite He; unfold counters_ok; by rewrite Hec).
    destruct Hk as [[-> Hk] | [Hne Hk]].
    + rewrite Z.eqb_refl. eexists _, _. split; [apply runs_const; reflexivity |]. rewrite <- He. by apply (out_error_spec (- ENOMEM) e1 e2 (set_trees w u2) ts u).
    + rewrite (proj2 (Z.eqb_neq _ _) Hne). destruct (cancelled_spec pe _ _ e1 e2 (set_trees w u2) ts Hk Hw Hm Hcw) as (u' & Hr & Hs).
      exists 0, u'. split; [apply runs_const; intros m; apply Hr |]. rewrite <- He. eapply settled_from; [| | exact Hs]; [by apply (quiet_lost u) | by rewrite app_nil_r].
Qed.

Lemma life_app w l l' : life w (l ++ l') = life w l + life w l'.
Proof. unfold life. rewrite fmap_app. induction (_ <$> l) as [| a l0 IH]; unfold sum in *; cbn; lia. Qed.
Lemma life_cons w e l : life w (e :: l) = 2 ^ 31 - ec w e + life w l.
Proof. done. Qed.

Lemma wl_step B K : erase_done B K -> ((0 < B)%nat -> forall K, erase_done (pred B) K) -> wl_done B (S K).
Proof.
  intros HK HK' u ts (H & Hw & Hm & Hc) HB Hlt.
  cut (exists r u', runs (fun m => wear_leveling_worker W pnum alloc (do_work W pnum alloc m) (set_works [] u)) (r, u') /\ settled u (entries (trees u) ts []) u').
  { intros (r & u' & Hr & Hs). exists r, u'. split; [| done]. apply runs_work. unfold do_first. by rewrite Hw. }
  unfold wear_leveling_worker, ask. rewrite (gentle_alloc HW). cbn [negb trees set_works].
  destruct (pick_blocks_spec (trees u) ts H Hc) as [-> | (sc & e1 & e2 & w & ts' & -> & H' & Hs' & He & Hpn & Hcase)]; cbn [mbind option_bind].
  - eexists _, _. split; [apply runs_const; reflexivity |]. apply (settled_done _ ts []); [| by rewrite app_nil_r | by apply quiet_lost].
    split; try done. cbn. by rewrite Hm.
  - assert (ec w = ec (trees u)) as Hec by apply Hs'. assert (counters_ok w (entries w ts' [e2; e1])) as Hc'.
    { unfold counters_ok in *. by rewrite He, Hec. }
    edestruct (move_data_runs B K e1 e2 sc) as (r & u' & Hr & Hs); [exact HK | exact HK' | | | | | | | exists r, u'; split; [exact Hr |]; eapply settled_from; [| | exact Hs]].
    + cbn. lia.
    + exact H'.
    + done.
    + cbn. by rewrite Hm.
    + exact Hc'.
    + cbn [trees set_moves set_trees]. assert (0 <= ec w e2 < 2 ^ 31) as He2.
      { unfold counters_ok in Hc'. rewrite Forall_forall in Hc'. apply Hc'. unfold entries. rewrite !elem_of_app. do 4 right. left. }
      unfold measure in *. rewrite Hec in He2 |- *. rewrite (life_ext (trees u)) by (by rewrite Hec).
      assert (protected w ts' = protected (trees u) ts) as Hp by (unfold protected; destruct Hs' as (_ & -> & _); by rewrite Hpn). rewrite Hp, !life_app in *.
      destruct sc; [destruct Hcase as [Hsc ->] | destruct Hcase as (-> & HU & Hless)].
      * apply Permutation_length in Hsc. cbn in Hsc. rewrite Hsc in Hlt. lia.
      * rewrite (life_perm _ _ _ HU), life_cons in Hlt. lia.
    + by apply quiet_lost.
    + by rewrite app_nil_r, He.
Qed.

Lemma works_done_within : forall B K, erase_done B K /\ wl_done B K.
Proof.
  induction B as [B IHB] using lt_wf_ind. induction K as [| K [IHe IHw]].
  - split; intros u ts; [intros e (_ & _ & _ & Hc) | intros (_ & _ & _ & Hc)]; apply measure_nonneg in Hc; lia.
  - assert (wl_done B (S K)) as Hw by (apply wl_step; [done | intros HB K'; apply (IHB (pred B)); lia]). split; [by apply erase_step | done].
Qed.
End Bounded.

Lemma works_done : exists N, forall K, erase_done N N K /\ wl_done N N K.
Proof. destruct (gentle_move HW) as [N HN]. exists N. intros K. by apply works_done_within. Qed.

(** ** The operations *)

Context (lookuptbl : Z -> Z).

Inductive operation := Get (dtype : Z) | Put (n : Z) | Scrub_peb (n : Z).

Definition perform (fuel : nat) (op : operation) (u : ubi) : option (Z * ubi) :=
  match op with
  | Get dtype => ubi_wl_get_peb W pnum alloc fuel dtype u
  | Put n => ubi_wl_put_peb W pnum lookuptbl alloc fuel n u
  | Scrub_peb n => ubi_wl_scrub_peb W pnum lookuptbl alloc fuel n u
  end.

(** The type of the data is one of the three, the block is managed. *)
Definition operation_ok (op : operation) (u : ubi) (ts : tree_id -> tree) : Prop :=
  match op with
  | Get dtype => dtype_ok dtype
  | Put n | Scrub_peb n => lookuptbl n ∈ entries (trees u) ts []
  end.

(** The result of an operation: the blocks that are free are not those of a user. *)
Definition result_ok (op : operation) (u : ubi) (ts : tree_id -> tree) (r : Z) : Prop :=
  match op with
  | Get dtype => r = - ENOMEM \/ (r = - ENOSPC /\ inorder (ts Free) = []) \/
      exists e, r = pnum e /\ e ∈ inorder (ts Free) /\
        (ec_ok (trees u) (inorder (ts Free)) -> chosen dtype (ec (trees u)) (inorder (ts Free)) e)
  | Put n | Scrub_peb n => r = if decide (lookuptbl n ∈ inorder (ts Free)) then - ENODEV else 0
  end.

Lemma entries_nonzero w ts loose X e : rep w ts loose X -> e ∈ entries w ts loose -> e <> 0.
Proof.
  intros H He -> . destruct (rep_heap _ _ _ _ _ H) as (G & [_ [_ Hf]] & [Y HG]). rewrite Forall_forall in Hf.
  assert (exists n, (0, n) ∈ all_cells ts ++ X ++ G) as [n Hn]; [| destruct (Hf _ Hn) as [[? _] _]; cbn in *; lia].
  assert (forall t p, 0 ∈ inorder t -> exists n, (0, n) ∈ cells p t) as Hcell.
  { intros t p Hin. rewrite <- (cells_inorder t p) in Hin. apply list_elem_of_fmap in Hin as ([a n] & -> & Hin). by exists n. }
  assert (forall l : list Z, 0 ∈ l -> (forall a : Z, a ∈ l -> a ∈ G.*1) -> exists n, (0, n) ∈ G) as HGin.
  { intros l Hin Hl. apply Hl, list_elem_of_fmap in Hin as ([a n] & -> & Hin). by exists n. }
  unfold all_cells. unfold entries in He. rewrite !elem_of_app in He. destruct He as [He | [He | [He | He]]].
  1-3: destruct (Hcell _ 0 He) as [n Hn]; exists n; rewrite !elem_of_app; tauto.
  destruct (HGin (protected w ts ++ loose)) as [n Hn]; [by apply elem_of_app | | exists n; rewrite !elem_of_app; tauto].
  intros a Ha. rewrite HG. apply elem_of_app. by left.
Qed.

Lemma entries_disjoint w ts loose X : rep w ts loose X -> NoDup (entries w ts loose).
Proof. intros H. apply (NoDup_fmap_1 pnum). apply (rep_distinct _ _ _ _ _ H). Qed.

(** A block of a user leaves the tree it is in. *)
Definition removed (e : Z) (u : ubi) (ts : tree_id -> tree) (u' : ubi) : Prop :=
  exists w ts', u' = set_trees w u /\ rep w ts' [e] [] /\ ec w = ec (trees u) /\ entries w ts' [e] ≡ₚ entries (trees u) ts [].

Lemma removed_block e u ts id : rep (trees u) ts [] [] -> block_tree id -> e ∈ inorder (ts id) ->
  exists u', on_trees (in_tree id (rb_erase e)) u = Some u' /\ removed e u ts u'.
Proof.
  intros H Hid He. destruct (rep_erase pnum _ _ e _ _ id H Hid He) as (w & t & Hw & Hr & Hs & l1 & l2 & Hi & Hi').
  exists (set_trees w u). unfold on_trees. rewrite Hw. split; [done |]. exists w, (<[id := t]> ts). split; [done |]. split; [done |]. split; [apply Hs |].
  assert (inorder (ts id) ≡ₚ e :: inorder t) as Hp by (rewrite Hi, Hi'; solve_Permutation).
  rewrite (same_rest_entries _ _ _ _ Hs). unfold entries, protected. destruct Hid as [-> | [-> | ->]]; cbn; rewrite Hp; solve_Permutation.
Qed.

Lemma removed_protected e u ts : rep (trees u) ts [] [] -> e ∈ protected (trees u) ts ->
  exists w, prot_tree_del pnum (pnum e) (trees u) = Some (0, w) /\ removed e u ts (set_trees w u).
Proof.
  intros H He. assert (e ∈ entries (trees u) ts []) as Hin by (unfold entries; rewrite !elem_of_app; auto).
  destruct (proj1 (prot_tree_del_spec pnum _ _ _ _ H Hin) He) as (w & ts' & Hw & Hr & Hb & Hs & Hp). exists w. split; [done |].
  exists w, ts'. split; [done |]. split; [done |]. split; [apply Hs |]. unfold entries. rewrite (Hb Free), (Hb Used), (Hb Scrub), Hp by (unfold block_tree; auto).
  solve_Permutation.
Qed.

Lemma not_protected e u ts : rep (trees u) ts [] [] -> e ∈ entries (trees u) ts [] -> e ∉ protected (trees u) ts ->
  prot_tree_del pnum (pnum e) (trees u) = Some (- ENODEV, trees u).
Proof. intros H Hin. apply (prot_tree_del_spec pnum _ _ _ _ H Hin). Qed.

Lemma free_excludes w ts e : rep w ts [] [] -> e ∈ inorder (ts Free) ->
  e ∉ inorder (ts Used) /\ e ∉ inorder (ts Scrub) /\ e ∉ protected w ts.
Proof.
  intros H He. pose proof (entries_disjoint _ _ _ _ H) as Hn. unfold entries in Hn. apply NoDup_app in Hn as (_ & Hd & _).
  specialize (Hd e He). rewrite !elem_of_app in Hd. tauto.
Qed.

Lemma remove_used_spec e u ts : rep (trees u) ts [] [] -> e ∈ entries (trees u) ts [] ->
  if decide (e ∈ inorder (ts Free)) then remove_used pnum e u = Some (- ENODEV, u)
  else exists u', remove_used pnum e u = Some (0, u') /\ removed e u ts u'.
Proof.
  intros H Hin. unfold remove_used. rewrite (in_wl_tree_spec pnum _ _ _ _ Used e H ltac:(by right; left) Hin). cbn [mbind option_bind].
  rewrite (in_wl_tree_spec pnum _ _ _ _ Scrub e H ltac:(by right; right) Hin). cbn [mbind option_bind]. destruct (decide (e ∈ inorder (ts Free))) as [HF | HF].
  - destruct (free_excludes _ _ _ H HF) as (HU & HS & HP). rewrite !bool_decide_false by done. rewrite (not_protected e u ts H Hin HP). cbn. by destruct u.
  - destruct (decide (e ∈ inorder (ts Used))) as [HU | HU]; [rewrite bool_decide_true by done |].
    { destruct (removed_block e u ts Used H ltac:(by right; left) HU) as (u' & -> & Hr). by exists u'. }
    rewrite bool_decide_false by done. destruct (decide (e ∈ inorder (ts Scrub))) as [HS | HS]; [rewrite bool_decide_true by done |].
    { destruct (removed_block e u ts Scrub H ltac:(by right; right) HS) as (u' & -> & Hr). by exists u'. }
    rewrite bool_decide_false by done. destruct (removed_protected e u ts H) as (w & -> & Hr).
    { unfold entries in Hin. rewrite !elem_of_app in Hin. destruct Hin as [? | [? | [? | [? | Hn]]]]; [done | done | done | done | by apply elem_of_nil in Hn]. }
    by exists (set_trees w u).
Qed.

Lemma removed_counters e u ts u' : quiescent u ts -> removed e u ts u' -> exists ts',
  rep (trees u') ts' [e] [] /\ works u' = [] /\ moves u' = Movement 0 0 false false /\ ro_mode u' = ro_mode u /\ rsvd u' = rsvd u /\
  counters_ok (trees u') (entries (trees u') ts' [e]) /\ entries (trees u') ts' [e] ≡ₚ entries (trees u) ts [].
Proof.
  intros [H Hw Hm Hc] (w & ts' & -> & Hr & Hec & He). exists ts'. split_and!; try done. cbn. unfold counters_ok. by rewrite He, Hec.
Qed.

Lemma settled_same u ts : quiescent u ts -> settled u (entries (trees u) ts []) u.
Proof. intros Hq. apply (settled_done _ ts []); [done | by rewrite app_nil_r | by apply quiet_lost]. Qed.

Lemma settled_read_only u ts : quiescent u ts -> settled u (entries (trees u) ts []) (ubi_ro_mode u).
Proof.
  intros [H Hw Hm Hc]. apply (settled_done _ ts []); [by split | by rewrite app_nil_r |]. unfold lost. cbn. split_and!; auto; lia.
Qed.

Lemma measure_bound w ts : measure w ts < Z.of_nat (Z.to_nat (measure w ts + 1)).
Proof. lia. Qed.

Lemma put_runs n u ts : quiescent u ts -> lookuptbl n ∈ entries (trees u) ts [] ->
  exists u', runs (fun m => ubi_wl_put_peb W pnum lookuptbl alloc m n u) (if decide (lookuptbl n ∈ inorder (ts Free)) then - ENODEV else 0, u') /\
    settled u (entries (trees u) ts []) u'.
Proof.
  intros Hq Hin. pose proof Hq as [H Hw Hm Hc]. unfold ubi_wl_put_peb. rewrite Hm. cbn [move_from move_to].
  rewrite (proj2 (Z.eqb_neq _ _) (entries_nonzero _ _ _ _ _ H Hin)). pose proof (remove_used_spec _ _ _ H Hin) as Hrm.
  destruct (decide (lookuptbl n ∈ inorder (ts Free))) as [HF | HF].
  - rewrite Hrm. eexists. split; [apply runs_const; reflexivity | by apply settled_read_only].
  - destruct Hrm as (u1 & -> & Hr). cbn [mbind option_bind negb Z.eqb]. destruct (removed_counters _ _ _ _ Hq Hr) as (ts' & H1 & Hw1 & Hm1 & Hr1 & Hv1 & Hc1 & He1).
    destruct works_done as [N HN]. destruct (schedule_erase_runs N N _ u1 ts' _ (proj1 (HN _)) ltac:(lia) H1 Hw1 Hm1 Hc1 (measure_bound _ _)) as (u' & [k Hk] & Hs).
    exists u'. split; [exists k; intros m Hm'; by rewrite (Hk m Hm') |]. eapply settled_from; [| | exact Hs]; [by apply quiet_lost | by rewrite app_nil_r, He1].
Qed.

Lemma scrub_runs n u ts : quiescent u ts -> lookuptbl n ∈ entries (trees u) ts [] ->
  exists u', runs (fun m => ubi_wl_scrub_peb W pnum lookuptbl alloc m n u) (if decide (lookuptbl n ∈ inorder (ts Free)) then - ENODEV else 0, u') /\
    settled u (entries (trees u) ts []) u'.
Proof.
  intros Hq Hin. pose proof Hq as [H Hw Hm Hc]. unfold ubi_wl_scrub_peb. set (e := lookuptbl n) in *. rewrite Hm. cbn [move_from move_to].
  rewrite (in_wl_tree_spec pnum _ _ _ _ Scrub e H ltac:(by right; right) Hin), (proj2 (Z.eqb_neq _ _) (entries_nonzero _ _ _ _ _ H Hin)). cbn [mbind option_bind orb].
  destruct (decide (e ∈ inorder (ts Scrub))) as [HS | HS].
  { rewrite bool_decide_true by done. rewrite decide_False; [exists u; split; [by apply runs_const | by apply settled_same] |].
    intros HF. by destruct (free_excludes _ _ _ H HF) as (_ & ? & _). }
  rewrite bool_decide_false by done. rewrite (in_wl_tree_spec pnum _ _ _ _ Used e H ltac:(by right; left) Hin). cbn [mbind option_bind].
  pose proof (remove_used_spec e u ts H Hin) as Hrm. unfold remove_used in Hrm.
  rewrite (in_wl_tree_spec pnum _ _ _ _ Used e H ltac:(by right; left) Hin), (in_wl_tree_spec pnum _ _ _ _ Scrub e H ltac:(by right; right) Hin) in Hrm.
  cbn [mbind option_bind] in Hrm. rewrite (bool_decide_false (e ∈ inorder (ts Scrub))) in Hrm by done.
  destruct (decide (e ∈ inorder (ts Free))) as [HF | HF].
  - rewrite Hrm. eexists. split; [apply runs_const; reflexivity | by apply settled_read_only].
  - destruct Hrm as (u1 & -> & Hr). cbn [mbind option_bind negb Z.eqb]. destruct (removed_counters _ _ _ _ Hq Hr) as (ts' & H1 & Hw1 & Hm1 & Hr1 & Hv1 & Hc1 & He1).
    destruct (rep_add pnum _ _ _ _ _ Scrub H1) as (w2 & t2 & Hw2 & H2 & Hs2 & Hi); [by right; right |]. unfold on_trees. rewrite Hw2. cbn [mbind option_bind].
    assert (entries w2 (<[Scrub := t2]> ts') [] ≡ₚ entries (trees u) ts []) as He2.
    { by rewrite (entries_update Scrub _ _ _ _ e ltac:(by right; right) Hi), (same_rest_entries _ _ _ _ Hs2). }
    destruct works_done as [N HN].
    destruct (ensure_runs N N (Z.to_nat (measure w2 (<[Scrub := t2]> ts') + 1)) (set_trees w2 u1) (<[Scrub := t2]> ts') (proj2 (HN _)) ltac:(lia)) as (u' & Hr' & Hs); [| apply measure_bound |].
    + split; try done. cbn. unfold counters_ok. rewrite He2, <- He1. destruct Hs2 as (-> & _). done.
    + exists u'. split; [exact Hr' |]. eapply settled_from; [| | exact Hs]; [by apply quiet_lost | by rewrite app_nil_r, He2].
Qed.

Lemma get_runs dtype u ts : quiescent u ts -> dtype_ok dtype ->
  exists r u', runs (fun m => ubi_wl_get_peb W pnum alloc m dtype u) (r, u') /\ result_ok (Get dtype) u ts r /\ settled u (entries (trees u) ts []) u'.
Proof.
  intros [H Hw Hm Hc] Hd. unfold ubi_wl_get_peb. pose proof (kmalloc_rep pnum alloc _ _ _ Halloc H) as Hk. destruct (kmalloc alloc (trees u)) as [pe w].
  destruct Hk as ((Hec & Hpe & _) & Hr & Hk). cbn in Hec, Hpe.
  assert (entries w ts [] = entries (trees u) ts []) as He by (unfold entries, protected; by rewrite Hpe).
  assert (counters_ok w (entries w ts [])) as Hcw by (rewrite He; unfold counters_ok; by rewrite Hec).
  destruct Hk as [[-> Hk] | [Hne Hk]].
  - exists (- ENOMEM), (set_trees w u). split; [by apply runs_const |]. split; [by left |].
    apply (settled_done _ ts []); [by split | by rewrite app_nil_r; cbn; rewrite He | by apply quiet_lost].
  - rewrite (proj2 (Z.eqb_neq _ _) Hne). assert (Hone : forall r, (forall m, get_peb_retry W pnum alloc (S m) dtype pe (set_trees w u) = Some r) ->
      runs (fun m => get_peb_retry W pnum alloc m dtype pe (set_trees w u)) r).
    { intros r Hr'. exists 1%nat. intros [| m] Hm'; [lia | apply Hr']. }
    destruct (decide (inorder (ts Free) = [])) as [HF | HF].
    + exists (- ENOSPC), (set_trees (kfree pe w) (set_trees w u)). split; [| split; [right; by left |]].
      * apply Hone. intros m. cbn [get_peb_retry set_trees trees works]. by rewrite (proj2 (root_zero pnum _ _ _ _ Free Hk) HF), Hw.
      * apply rep_kfree in Hk. apply (settled_done _ ts []); [by split | by rewrite app_nil_r; cbn; rewrite <- He | by apply quiet_lost].
    + destruct (take_free_rep pnum _ _ _ dtype _ _ _ Hk Hd HF) as (e & protect & w' & ts' & l1 & l2 & Ht & Hk' & Hec' & _ & Hch & Hl & Hl' & HU & HS & HP).
      exists (pnum e), (set_trees w' (set_trees w u)). split; [| split; [right; right; exists e; split; [done |]; split; [rewrite Hl; set_solver |] |]].
      * apply Hone. intros m. cbn [get_peb_retry set_trees trees works].
        rewrite (proj2 (Z.eqb_neq _ 0)) by (by rewrite (root_zero pnum _ _ _ _ Free Hk)). by rewrite Ht.
      * intros Hok. rewrite <- Hec. eapply (choose_spec pnum); [exact Hk | done | done | | exact Hch]. unfold ec_ok. by rewrite Hec.
      * assert (entries w' ts' [] ≡ₚ entries (trees u) ts []) as Hent.
        { rewrite <- He. unfold entries. rewrite Hl, Hl', HU, HS, HP. solve_Permutation. }
        apply (settled_done _ ts' []); [split; try done; cbn; unfold counters_ok; by rewrite Hent, Hec', Hec | by rewrite app_nil_r; cbn; rewrite Hent | by apply quiet_lost].
Qed.

End Spec.

(** ** Failures *)

(** The requests that fail are those of the theorems. *)
Section Failures.
Context (W : world) (pnum lookuptbl : Z -> Z) (alloc : nat -> gmap Z rb_node -> Z).

Lemma tree_add_missing left x h : nodes h !! x = None -> tree_add left x h = None.
Proof.
  intros Hx. unfold tree_add. destruct (find_link _ _ _ _ _ _) as [[p l] |]; [| done]. cbn [mbind option_bind].
  unfold rb_link_node, get. destruct (x =? 0); [done |]. by rewrite Hx.
Qed.

Lemma erase_missing do_work e u : (sync_erase W e u).1 = 0 -> (trees (sync_erase W e u).2).(w_nodes) !! e = None ->
  erase_worker W pnum do_work e u = None.
Proof.
  unfold erase_worker. destruct (sync_erase W e u) as [err u1]. cbn [fst snd]. intros -> Hn. rewrite Z.eqb_refl.
  unfold wl_tree_add, in_tree. by rewrite tree_add_missing.
Qed.

(** A search that finds a node that has been freed meanwhile. *)
Lemma search_missing cmp h h' q : (forall p, get p h' = None \/ get p h' = get p h) -> get q h' = None -> q <> 0 ->
  forall fuel fuel' p, search fuel cmp p h = Some q -> (fuel' <= fuel)%nat -> search fuel' cmp p h' = None.
Proof.
  intros Hh Hq Hne. induction fuel as [| fuel IH]; intros [| fuel'] p Hs Hle; [done | done | done |]. cbn [search] in *.
  destruct (Z.eqb_spec p 0); [by simplify_eq |]. destruct (Hh p) as [-> | Heq]; [done |].
  destruct (get p h) as [n0 |] eqn:Hg; [| done]. rewrite Heq. cbn [mbind option_bind] in *.
  destruct (cmp p) eqn:Hc; [simplify_eq; congruence | |]; (eapply IH; [exact Hs | lia]).
Qed.

(** when the data have been moved and the erasure of the old block cannot be
    queued for lack of memory, [wear_leveling_worker] frees the entries of both
    blocks, though the new one is in the tree of the used blocks already: putting
    that block back reads freed memory. *)
Theorem wl_error_frees_used u ts e1 e2 do_work : wl_rep pnum (trees u) ts [e2; e1] [] -> move_to_put (moves u) = false ->
  alloc_ok W (asked u) = false ->
  exists u', moved W pnum do_work None e1 e2 u = Some (- ENOMEM, u') /\
    forall W' fuel n, lookuptbl n = e2 -> ubi_wl_put_peb W' pnum lookuptbl alloc fuel n u' = None.
Proof.
  intros H Hm Ha. unfold moved, on_trees. cbn [mbind option_bind]. rewrite Hm.
  destruct (rep_add pnum _ _ _ _ _ Used H) as (w2 & t2 & -> & H2 & Hs2 & Hi); [by right; left |]. cbn [mbind option_bind negb Z.eqb].
  unfold schedule_erase, ask. cbn [no_movement set_moves set_trees asked]. rewrite Ha. cbn [negb mbind option_bind].
  eexists. split; [reflexivity |]. intros W' fuel n Hn. assert (e2 ∈ inorder (<[Used := t2]> ts Used)) as Hin2 by (rewrite fn_lookup_insert, Hi; left).
  assert (e2 ∈ entries w2 (<[Used := t2]> ts) [e1]) as Hin by (by eapply (entries_block pnum Used); [right; left |]).
  destruct (search_wl_tree pnum _ _ _ _ Used e2 H2 ltac:(by right; left) Hin) as (p & Hp & [[_ ?] | (Hne & -> & _)]); [done |].
  match goal with |- ubi_wl_put_peb _ _ _ _ _ _ ?v = None => set (u' := v) end. unfold ubi_wl_put_peb. rewrite Hn.
  assert (moves u' = Movement 0 0 false false) as -> by done. cbn [move_from move_to]. rewrite (proj2 (Z.eqb_neq _ _) Hne).
  unfold remove_used, in_wl_tree. fold (wl_cmp pnum (ec (trees u')) e2). change (ec (trees u')) with (ec w2). change (roots (trees u')) with (roots w2).
  assert (search (loop_fuel (tree_of Used (trees u'))) (wl_cmp pnum (ec w2) e2) (roots w2 Used) (tree_of Used (trees u')) = None) as ->; [| done].
  eapply (search_missing _ (tree_of Used w2) _ e2); [| | done | exact Hp |].
  - intros p. unfold get. cbn. destruct (p =? 0); [by left |]. destruct (decide (p = e2)) as [-> | ?]; [left; apply lookup_delete_eq |].
    rewrite lookup_delete_ne by done. destruct (decide (p = e1)) as [-> | ?]; [left; apply lookup_delete_eq | right; by rewrite lookup_delete_ne].
  - unfold get. cbn. rewrite lookup_delete_eq. by destruct (e2 =? 0).
  - unfold loop_fuel. cbn. rewrite !map_size_delete. destruct (_ !! e2), (_ !! e1); cbn; lia.
Qed.

(** Without memory for the header [wear_leveling_worker] leaves [wl_scheduled] set:
    wear-leveling is not scheduled again. *)
Lemma wl_out_of_memory_stops u do_work : alloc_ok W (asked u) = false -> wl_scheduled (moves u) = true ->
  exists u', wear_leveling_worker W pnum alloc do_work u = Some (- ENOMEM, u') /\ forall do_work', ensure_wear_leveling W do_work' u' = Some (0, u').
Proof.
  intros Ha Hs. unfold wear_leveling_worker, ask. rewrite Ha. eexists. split; [reflexivity |]. intros do_work'. unfold ensure_wear_leveling. cbn [moves].
  by rewrite Hs.
Qed.

Context (alloc_works : forall n, alloc_ok W n = true).

Definition set_asked (n : nat) (u : ubi) : ubi := Ubi (trees u) (works u) (moves u) (ro_mode u) (max_ec u) (rsvd u) n.

Lemma sync_erase_fails e u : io_sync_erase W (S (asked u)) < 0 ->
  sync_erase W e u = (io_sync_erase W (S (asked u)), set_asked (S (S (asked u))) u).
Proof. intros Hlt. unfold sync_erase, ask. rewrite alloc_works. cbn [negb asked]. by rewrite (proj2 (Z.ltb_lt _ _) Hlt). Qed.

Lemma sync_erase_ok e u : io_sync_erase W (S (asked u)) = 1 -> 0 <= ec (trees u) e < UBI_MAX_ERASECOUNTER -> io_write_ec_hdr W (S (S (asked u))) = 0 ->
  (sync_erase W e u).1 = 0 /\ w_nodes (trees (sync_erase W e u).2) = w_nodes (trees u).
Proof.
  intros He Hec Hwr. unfold sync_erase, ask. rewrite alloc_works. cbn [negb asked trees]. rewrite He. cbn [Z.ltb Z.compare].
  unfold UBI_MAX_ERASECOUNTER in *. unfold wrap. rewrite Z.mod_small by lia. rewrite (proj2 (Z.ltb_ge _ _)) by lia. rewrite Hwr. cbn. done.
Qed.

Lemma schedule_erase_alloc do_work e u : works u = [] -> schedule_erase W do_work e u =
  ('(_, u) ← do_work (set_works [Erase e] (set_asked (S (asked u)) u)); Some (0, u)).
Proof. intros Hw. unfold schedule_erase, ask. rewrite alloc_works. unfold schedule_ubi_work. cbn [negb works]. rewrite Hw. cbn. destruct (do_work _) as [[r v] |]; [done | done]. Qed.

(** when the erasure of a block fails with an error that is retried,
    [erase_worker] frees the entry and queues the freed entry again: the second
    erasure, which succeeds, links memory that is no longer there into the tree of
    the free blocks. *)
Theorem wl_erase_retry_fault fuel e u : works u = [] -> retried (io_sync_erase W (asked u + 2)%nat) = true ->
  io_sync_erase W (asked u + 5)%nat = 1 -> 0 <= ec (trees u) e < UBI_MAX_ERASECOUNTER -> io_write_ec_hdr W (asked u + 6)%nat = 0 ->
  schedule_erase W (do_work W pnum alloc fuel) e u = None.
Proof.
  intros Hw Hret He Hec Hwr. rewrite schedule_erase_alloc by done. destruct fuel as [| fuel]; [done |]. cbn [do_work]. unfold do_first. cbn [works set_works].
  unfold erase_worker. set (u1 := set_works [] _). replace (asked u + 2)%nat with (S (asked u1)) in Hret by (cbn; lia).
  assert (io_sync_erase W (S (asked u1)) < 0) as Hneg.
  { unfold retried in Hret. rewrite !orb_true_iff, !Z.eqb_eq in Hret. unfold EINTR, ENOMEM, EAGAIN, EBUSY in Hret. lia. }
  rewrite sync_erase_fails by done. rewrite (proj2 (Z.eqb_neq _ 0)) by lia. cbv zeta. rewrite Hret.
  set (u2 := kmem_cache_free e _). rewrite schedule_erase_alloc by done. destruct fuel as [| fuel]; [done |]. cbn [do_work]. unfold do_first. cbn [works set_works].
  set (u3 := set_works [] _). destruct (sync_erase_ok e u3) as [H0 Hn].
  - by replace (S (asked u3)) with (asked u + 5)%nat by (cbn; lia).
  - done.
  - by replace (S (S (asked u3))) with (asked u + 6)%nat by (cbn; lia).
  - rewrite erase_missing; [done | done |]. rewrite Hn. cbn. apply lookup_delete_eq.
Qed.
End Failures.

(** ** Two blocks *)

Definition two_pnum (e : Z) : Z := e / 64.
Definition two_entry (n : Z) : Z := 64 * n.
Definition two_alloc (n : nat) (m : gmap Z rb_node) : Z :=
  let p := 4096 + 64 * Z.of_nat n in
  if decide (m !! p = None /\ m !! (p + aec_offset) = None) then p else 0.
Definition two_trees (id : tree_id) : tree := match id with Free => Node Black Leaf 64 Leaf | Used => Node Black Leaf 128 Leaf | _ => Leaf end.
Definition two_wl (ts : tree_id -> tree) : wl :=
  Wl (list_to_map [(64, Rb 1 0 0); (128, Rb 1 0 0)]) (fun id => ptr (ts id)) (fun _ => 5) (fun _ => 0) (fun _ => 0) 0 0.
Definition two_ubi (ts : tree_id -> tree) : ubi :=
  Ubi (two_wl ts) [] (Movement 0 0 false false) false 5 (Reserve true 2 2 10 0 0 100) 0.
(** The first movements are put off. *)
Definition two_world : world :=
  World (fun _ => true) (fun _ => 1) (fun _ => 0) (fun _ => 0) (fun n => if (n <? 40)%nat then UBI_IO_PEB_FREE else 0) (fun n => if (n <? 40)%nat then 1 else 0).

Lemma two_alloc_fresh : kmalloc_fresh two_alloc.
Proof.
  intros n m. cbv zeta. unfold two_alloc. cbv zeta. destruct (decide _) as [[H1 H2] |]; [right | by left].
  assert (forall z, 0 <= z -> z mod 4 = 0 -> Z.land z 3 = 0) as Hland by (intros z _ Hz; change 3 with (Z.ones 2); by rewrite Z.land_ones).
  unfold addr_ok, aec_offset. split_and!; [lia | | lia | | done | done]; apply Hland; try lia.
  - replace (4096 + 64 * Z.of_nat n) with ((1024 + 16 * Z.of_nat n) * 4) by lia. apply Z.mod_mul. lia.
  - replace (4096 + 64 * Z.of_nat n + 12) with ((1024 + 16 * Z.of_nat n + 3) * 4) by lia. apply Z.mod_mul. lia.
Qed.

Lemma two_rep : wl_rep two_pnum (two_wl two_trees) two_trees [] [].
Proof.
  split.
  - exists []. split; [| exists []; constructor]. split; [by intros []; (split; [done |]); eexists; repeat constructor |].
    split; [vm_compute; repeat constructor; set_solver | repeat constructor].
  - intros id [-> | [-> | ->]]; repeat constructor.
  - constructor.
  - constructor.
  - constructor.
  - vm_compute. repeat constructor; set_solver.
Qed.

Lemma two_quiescent : quiescent two_pnum (two_ubi two_trees) two_trees.
Proof. split; [exact two_rep | done | done |]. by repeat constructor. Qed.

Lemma two_gentle : gentle two_world.
Proof. split; [done | done | done |]. exists 40%nat. intros n Hn. unfold two_world. cbn [io_read_vid_hdr eba_copy_leb]. by rewrite (proj2 (Nat.ltb_ge n 40) Hn). Qed.


Lemma wl_erase_retry_fault_witness :
  schedule_erase (World (fun _ => true) (fun n => if (n =? 2)%nat then - EBUSY else 1) (fun _ => 0) (fun _ => 0) (fun _ => 0) (fun _ => 0))
    (do_work (World (fun _ => true) (fun n => if (n =? 2)%nat then - EBUSY else 1) (fun _ => 0) (fun _ => 0) (fun _ => 0) (fun _ => 0))
       two_pnum two_alloc 100) 128 (two_ubi (fun _ => Leaf)) = None.
Proof. apply wl_erase_retry_fault; by vm_compute. Defined.

Lemma two_loose : wl_rep two_pnum (two_wl (fun _ => Leaf)) (fun _ => Leaf) [128; 64] [].
Proof.
  split.
  - exists [(128, Rb 1 0 0); (64, Rb 1 0 0)]. split; [| exists []; done]. split; [by intros []; (split; [done |]); eexists; repeat constructor |].
    split; [vm_compute; repeat constructor; set_solver | repeat constructor].
  - intros id [-> | [-> | ->]]; repeat constructor.
  - constructor.
  - constructor.
  - constructor.
  - vm_compute. repeat constructor; set_solver.
Qed.

Lemma wl_error_frees_used_witness : exists u',
  moved (World (fun _ => false) (fun _ => 1) (fun _ => 0) (fun _ => 0) (fun _ => 0) (fun _ => 0)) two_pnum (fun _ => None) None 64 128 (two_ubi (fun _ => Leaf)) =
    Some (- ENOMEM, u') /\
  forall W' fuel n, two_entry n = 128 -> ubi_wl_put_peb W' two_pnum two_entry two_alloc fuel n u' = None.
Proof. apply (wl_error_frees_used _ two_pnum two_entry two_alloc (two_ubi (fun _ => Leaf)) (fun _ => Leaf) 64 128 _ two_loose); reflexivity. Defined.
