(* ===== verification/Srecord.v ===== *)
(** * S-records (common/s_record.c, common/cmd_load.c)

    The decoder of S-records, the commands "loads" and "saves" that receive and
    send memory as S-records over the serial line.  A record in memory is the text
    up to its terminator.  The characters received are a list; [None] is a fault or
    waiting for more characters than come.  The flash branch is not compiled for
    the board (CONFIG_SYS_NO_FLASH); the echo, the progress dots and the change of
    the line speed are not modelled. *)

From S2P Require Import Prelude Ctype StringLib Memory Vsprintf.

(** ** The decoder *)

Definition SREC_START : Z := 0.
Definition SREC_DATA2 : Z := 1.
Definition SREC_DATA3 : Z := 2.
Definition SREC_DATA4 : Z := 3.
Definition SREC_COUNT : Z := 5.
Definition SREC_END4 : Z := 7.
Definition SREC_END3 : Z := 8.
Definition SREC_END2 : Z := 9.
Definition SREC_EMPTY : Z := 10.
Definition SREC_E_BADTYPE : Z := -1.
Definition SREC_E_NOSREC : Z := -2.
Definition SREC_E_BADCHKS : Z := -3.
Definition SREC_MAXRECLEN : Z := 512 + 4.
Definition SREC_MAXBINLEN : Z := 255.

Definition hex1_bin (c : Z) : Z :=
  if (48 <=? c) && (c <=? 57) then c - 48
  else if (97 <=? c) && (c <=? 102) then c + 10 - 97
  else if (65 <=? c) && (c <=? 70) then c + 10 - 65
  else -1.

Definition hex2_bin (s : text) : Z :=
  let i := hex1_bin (at0 s) in
  if i <? 0 then -1
  else
    let j := hex1_bin (at0 (tail s)) in
    if j <? 0 then -1 else Z.shiftl i 4 + j.

(** A byte of the record, for the checksum and what follows; [None] for
    SREC_E_NOSREC. *)
Definition next_byte (input : text) (chksum : Z) : option (Z * text * Z) :=
  let v := hex2_bin input in
  if v <? 0 then None else Some (v, drop 2 input, u8 (chksum + v)).

(** The text behind the first 'S'. *)
Fixpoint skip_to_S (input : text) : text :=
  match input with
  | [] => []
  | c :: r => if c =? 83 then r else skip_to_S r
  end.

(** The type, the bytes of the address and what the length counts besides the data;
    the data of a count record are ignored. *)
Definition record_type (v : Z) : option (Z * nat * Z) :=
  if v =? 48 then Some (SREC_START, 2%nat, 3)
  else if v =? 49 then Some (SREC_DATA2, 2%nat, 3)
  else if v =? 50 then Some (SREC_DATA3, 3%nat, 4)
  else if v =? 51 then Some (SREC_DATA4, 4%nat, 5)
  else if v =? 53 then Some (SREC_COUNT, 2%nat, 0)
  else if v =? 55 then Some (SREC_END4, 4%nat, 5)
  else if v =? 56 then Some (SREC_END3, 3%nat, 4)
  else if v =? 57 then Some (SREC_END2, 2%nat, 3)
  else None.

(** The address field; the first shift of the source is one of zero less. *)
Fixpoint read_address (n : nat) (input : text) (addr chksum : Z) : option (Z * text * Z) :=
  match n with
  | O => Some (addr, input, chksum)
  | S n =>
      '(v, input, chksum) ← next_byte input chksum;
      read_address n input (u32 (u32 (Z.shiftl addr 8) + v)) chksum
  end.

(** [for (i=0; i < *count; ++i)] *)
Fixpoint read_data (n : nat) (input : text) (chksum : Z) : option (list Z * text * Z) :=
  match n with
  | O => Some ([], input, chksum)
  | S n =>
      '(v, input, chksum) ← next_byte input chksum;
      '(l, input, chksum) ← read_data n input chksum;
      Some (v :: l, input, chksum)
  end.

(** What follows the record type: the address, the data and the checksum. *)
Definition read_fields (bytes : nat) (count : Z) (input : text) (chksum : Z) : option (Z * list Z * bool) :=
  '(addr, input, chksum) ← read_address bytes input 0 chksum;
  '(data, input, chksum) ← read_data (Z.to_nat count) input chksum;
  let v := hex2_bin input in
  if v <? 0 then None else Some (addr, data, v =? u8 (Z.lnot chksum)).

(** The result, and [*count], [*addr] and [data] for a result that is not
    negative. *)
Definition srec_decode (input : text) : Z * Z * Z * list Z :=
  match skip_to_S input with
  | [] => (SREC_EMPTY, 0, 0, [])
  | v :: input =>
      let count := hex2_bin input in
      if count <? 0 then (SREC_E_NOSREC, 0, 0, [])
      else
        match record_type v with
        | None => (SREC_E_BADTYPE, 0, 0, [])
        | Some (srec_type, bytes, overhead) =>
            let chksum := u8 count in
            let count := if srec_type =? SREC_COUNT then 0 else count - overhead in
            match read_fields bytes count (drop 2 input) chksum with
            | None => (SREC_E_NOSREC, 0, 0, [])
            | Some (addr, data, ok) => if ok : bool then (srec_type, count, addr, data) else (SREC_E_BADCHKS, 0, 0, [])
            end
        end
  end.

(** ** Receiving *)

(** The loop of [read_record] for [n] more characters: the text, or nothing for
    Control-C, and the characters that remain. *)
Fixpoint read_record (n : nat) (input : list Z) : option (option text * list Z) :=
  match n with
  | O => Some (Some [], input)
  | S n =>
      match input with
      | [] => None
      | c :: input =>
          if (c =? 13) || (c =? 10) then Some (Some [], input)
          else if (c =? 0) || (c =? 3) then Some (None, input)
          else '(r, input) ← read_record n input; Some (option_map (cons c) r, input)
      end
  end.

(** The memory, the first and the last address, "filesize" once it is set. *)
Record loading := Loading { l_mem : mem; start_addr : Z; end_addr : Z; filesize : option text }.

(** [memcpy] of a data record out of [binbuf], which starts with the [data]: the
    length is converted to size_t. *)
Definition store_data (store_addr binlen : Z) (data : list Z) (st : loading) : option loading :=
  let n := u32 binlen in
  if SREC_MAXBINLEN <? n then None
  else
    m ← store_bytes (l_mem st) store_addr (take (Z.to_nat n) data);
    let last := u32 (store_addr + binlen - 1) in
    Some (Loading m (if store_addr <? start_addr st then store_addr else start_addr st)
            (if end_addr st <? last then last else end_addr st) (filesize st)).

(** [sprintf(buf, "%lX", size); setenv("filesize", buf);] *)
Definition end_of_load (st : loading) : option loading :=
  let size := u32 (end_addr st - start_addr st + 1) in
  '(t, _) ← vsprintf (str "%lX") [A32 size];
  Some (Loading (l_mem st) (start_addr st) (end_addr st) (Some (removelast t))).

(** The loop of [load_serial]; each round takes a character. *)
Fixpoint load_loop (fuel : nat) (offset : Z) (input : list Z) (st : loading) : option (Z * loading) :=
  match fuel with
  | O => None
  | S fuel =>
      '(r, input) ← read_record (Z.to_nat SREC_MAXRECLEN) input;
      match r with
      | None => Some (u32 (-1), st)
      | Some record =>
          let '(type, binlen, addr, data) := srec_decode record in
          if type <? 0 then Some (u32 (-1), st)
          else if (type =? SREC_DATA2) || (type =? SREC_DATA3) || (type =? SREC_DATA4) then
            st ← store_data (u32 (addr + offset)) binlen data st;
            load_loop fuel offset input st
          else if (type =? SREC_END2) || (type =? SREC_END3) || (type =? SREC_END4) then
            st ← end_of_load st;
            Some (addr, st)
          else load_loop fuel offset input st
      end
  end.

Definition load_serial (m : mem) (offset : Z) (input : list Z) : option (Z * loading) :=
  load_loop (S (length input)) offset input (Loading m (u32 (-1)) 0 None).

(** The command "loads" with at most one argument: the status, the new value of
    [load_addr] if there is one, and the loaded memory. *)
Definition do_load_serial (m : mem) (argv : list text) (input : list Z) : option (Z * option Z * loading) :=
  let offset := match argv with [_; a] => (simple_strtol a 16).1 | _ => 0 end in
  '(addr, st) ← load_serial m offset input;
  if addr =? u32 (-1) then Some (1, None, st) else Some (0, Some addr, st).

(** ** Sending *)

Definition SREC3_START : text := str "S0030000FC" ++ [10].
Definition SREC3_FORMAT : text := str "S3%02X%08lX%s%02X" ++ [10].
Definition SREC3_END : text := str "S70500000000FA" ++ [10].
Definition SREC_BYTES_PER_RECORD : Z := 16.

Definition hex_digits : text := str "0123456789ABCDEF".
Definition hex_digit (i : Z) : Z := default 0 (hex_digits !! Z.to_nat i).

Section Saving.
(** Whether Control-C was pressed when the record of that number was sent. *)
Context (ctrlc : nat -> bool).

(** What was sent, and the number of the records. *)
Record sending := Sending { sent : text; records : nat }.

Definition write_record (buf : text) (s : sending) : bool * sending :=
  (ctrlc (records s), Sending (sent s ++ buf) (S (records s))).

(** [sprintf] into [record], which has 48 bytes. *)
Definition format_record (length address : Z) (data : text) (checksum : Z) : option text :=
  '(t, n) ← vsprintf SREC3_FORMAT [A32 length; A32 address; AStr (Some data); A32 checksum];
  if 2 * SREC_BYTES_PER_RECORD + 16 <? n + 1 then None else Some (removelast t).

(** The checksum of a record: the sum of the data [sum], the length and the
    address. *)
Definition record_checksum (sum length address : Z) : Z :=
  let sum := sum + Z.land length 0xff + Z.land (Z.shiftr length 8) 0xff in
  let sum := sum + Z.land address 0xff + Z.land (Z.shiftr address 8) 0xff + Z.land (Z.shiftr address 16) 0xff
               + Z.land (Z.shiftr address 24) 0xff in
  Z.land (Z.lnot sum) 0xff.

(** The variables of the loop. *)
Record saving := Saving { sv_address : Z; sv_count : Z; sv_reclen : Z; sv_checksum : Z; sv_data : text }.

(** [if(count) { ... }]: one byte is collected. *)
Definition collect (m : mem) (v : saving) : option saving :=
  if sv_count v =? 0 then Some v
  else
    c ← load m (u32 (sv_address v + sv_reclen v));
    Some (Saving (sv_address v) (sv_count v - 1) (sv_reclen v + 1) (sv_checksum v + c)
            (sv_data v ++ [hex_digit (Z.land (Z.shiftr c 4) 0x0f); hex_digit (Z.land c 0x0f)])).

(** The record is sent when it is full or the last one; whether the transfer was
    stopped. *)
Definition dump (v : saving) (s : sending) : option (bool * saving * sending) :=
  if (sv_reclen v =? SREC_BYTES_PER_RECORD) || (sv_count v =? 0) then
    let next := Saving (u32 (sv_address v + sv_reclen v)) (sv_count v) 0 0 [] in
    if sv_reclen v =? 0 then Some (false, next, s)
    else
      let length := 4 + sv_reclen v + 1 in
      record ← format_record length (sv_address v) (sv_data v) (record_checksum (sv_checksum v) length (sv_address v));
      let '(stop, s) := write_record record s in
      Some (stop, next, s)
  else Some (false, v, s).

(** The loop of [save_serial], which runs once per byte and at least once. *)
Fixpoint save_loop (fuel : nat) (m : mem) (v : saving) (s : sending) : option (Z * sending) :=
  match fuel with
  | O => None
  | S fuel =>
      v ← collect m v;
      '(stop, v, s) ← dump v s;
      if stop : bool then Some (-1, s)
      else if sv_count v =? 0 then
        let '(stop, s) := write_record SREC3_END s in Some (if stop : bool then -1 else 0, s)
      else save_loop fuel m v s
  end.

Definition save_serial (m : mem) (address count : Z) : option (Z * sending) :=
  let '(stop, s) := write_record SREC3_START (Sending [] 0) in
  if stop : bool then Some (-1, s)
  else save_loop (S (Z.to_nat count)) m (Saving address count 0 0 []) s.

(** [if (getc() == '\r') break;] *)
Fixpoint wait_enter (input : list Z) : option (list Z) :=
  match input with
  | [] => None
  | c :: input => if c =? 13 then Some input else wait_enter input
  end.

(** The command "saves": whether the upload is reported as complete. *)
Definition do_save_serial (m : mem) (argv : list text) (input : list Z) : option (bool * sending) :=
  let offset := match argv with _ :: a :: _ => (simple_strtoul a 16).1 | _ => 0 end in
  let size := match argv with [_; _; n] => (simple_strtoul n 16).1 | _ => 0 end in
  _ ← wait_enter input;
  '(r, s) ← save_serial m offset size;
  Some (r =? 0, s).
End Saving.

(** ** Tests *)

Definition test_mem : mem := write_bytes ∅ 0x4000 (seqZ 200 20).
(** ** Bytes as hexadecimal digits *)

Definition hexbyte (b : Z) : text := dchar 0 <$> fixed 16 2 b.
Definition hexbytes (l : list Z) : text := flat_map hexbyte l.

Lemma hexbyte_pair b : is_byte b -> exists c d, hexbyte b = [c; d] /\ hex2_bin [c; d] = b /\
  ~ In c [0; 3; 10; 13; 37] /\ ~ In d [0; 3; 10; 13; 37] /\ hexbyte b = [hex_digit (Z.land (Z.shiftr b 4) 0x0f); hex_digit (Z.land b 0x0f)].
Proof.
  intros Hb.
  set (ok := fun b => match hexbyte b with
    | [c; d] => (hex2_bin [c; d] =? b) && negb (existsb (Z.eqb c) [0; 3; 10; 13; 37]) && negb (existsb (Z.eqb d) [0; 3; 10; 13; 37]) &&
        (c =? hex_digit (Z.land (Z.shiftr b 4) 0x0f)) && (d =? hex_digit (Z.land b 0x0f))
    | _ => false end).
  assert (ok b = true) as H by (apply (all_from_spec ok 256 0); [vm_compute; reflexivity | unfold is_byte in Hb; lia]).
  unfold ok in H. destruct (hexbyte b) as [| c [| d [|]]]; [done | done | | done].
  rewrite !andb_true_iff, !negb_true_iff, !Z.eqb_eq in H. destruct H as ((((H1 & H2) & H3) & <-) & <-).
  exists c, d. split; [done |]. split; [done |].
  assert (Hnot : forall x, existsb (Z.eqb x) [0; 3; 10; 13; 37] = false -> ~ In x [0; 3; 10; 13; 37]).
  { intros x Hx Hin. assert (existsb (Z.eqb x) [0; 3; 10; 13; 37] = true); [| congruence]. apply existsb_exists. exists x. split; [done | apply Z.eqb_refl]. }
  auto.
Qed.

Lemma hex2_bin_hex b r : is_byte b -> hex2_bin (hexbyte b ++ r) = b /\ drop 2 (hexbyte b ++ r) = r.
Proof. intros Hb. destruct (hexbyte_pair b Hb) as (x & y & -> & H2 & _). split; [exact H2 | done]. Qed.

Lemma next_byte_hex b r c : is_byte b -> next_byte (hexbyte b ++ r) c = Some (b, r, u8 (c + b)).
Proof.
  intros Hb. destruct (hex2_bin_hex b r Hb) as [H1 H2]. unfold next_byte. rewrite H1, H2. unfold is_byte in Hb.
  by rewrite (proj2 (Z.ltb_ge _ _)) by lia.
Qed.

Definition sum (l : list Z) : Z := foldr Z.add 0 l.

Lemma u8_lnot x : u8 (Z.lnot (u8 x)) = u8 (Z.lnot x).
Proof.
  unfold wrap, Z.lnot. rewrite <- !Z.sub_1_r, <- !Z.sub_0_l. rewrite Zminus_mod, (Zminus_mod_idemp_r 0), <- Zminus_mod. done.
Qed.

Lemma u8_add x y : u8 (u8 x + y) = u8 (x + y).
Proof. unfold wrap. by rewrite Zplus_mod_idemp_l. Qed.

Lemma read_data_hex l r c : is_bytes l -> read_data (length l) (hexbytes l ++ r) (u8 c) = Some (l, r, u8 (c + sum l)).
Proof.
  intros Hl. revert c. induction Hl as [| b l Hb _ IH]; intros c; [by cbn; rewrite Z.add_0_r |].
  cbn [length read_data hexbytes flat_map]. rewrite <- app_assoc, next_byte_hex by done. cbn [mbind option_bind].
  change (flat_map hexbyte l) with (hexbytes l). rewrite u8_add, IH. cbn [mbind option_bind sum foldr]. do 3 f_equal. unfold sum. lia.
Qed.

Definition be4 (a : Z) : list Z := [Z.shiftr a 24 mod 256; Z.shiftr a 16 mod 256; Z.shiftr a 8 mod 256; a mod 256].

Lemma be4_bytes a : is_bytes (be4 a).
Proof. unfold be4, is_byte. repeat constructor; apply Z.mod_pos_bound; lia. Qed.

Lemma read_address_hex n l r c : length l = n -> is_bytes l -> forall a,
  read_address n (hexbytes l ++ r) a (u8 c) = Some (foldl (fun a v => u32 (u32 (Z.shiftl a 8) + v)) a l, r, u8 (c + sum l)).
Proof.
  intros <- Hl. revert c. induction Hl as [| b l Hb _ IH]; intros c a; [by cbn; rewrite Z.add_0_r |].
  cbn [length read_address hexbytes flat_map]. rewrite <- app_assoc, next_byte_hex by done. cbn [mbind option_bind].
  change (flat_map hexbyte l) with (hexbytes l). rewrite u8_add, IH. cbn [foldl sum foldr]. do 3 f_equal. unfold sum. lia.
Qed.

Lemma be4_value a : is_u32 a -> foldl (fun a v => u32 (u32 (Z.shiftl a 8) + v)) 0 (be4 a) = a.
Proof.
  unfold is_u32. intros Ha. unfold be4. cbn [foldl]. rewrite !Z.shiftr_div_pow2, !Z.shiftl_mul_pow2 by lia.
  change (2 ^ 24) with (256 * 256 * 256). change (2 ^ 16) with (256 * 256). change (2 ^ 8) with 256. rewrite <- !Z.div_div by lia.
  pose proof (Z.div_mod a 256 ltac:(lia)) as H1. pose proof (Z.div_mod (a / 256) 256 ltac:(lia)) as H2.
  pose proof (Z.div_mod (a / 256 / 256) 256 ltac:(lia)) as H3. pose proof (Z.mod_pos_bound a 256 ltac:(lia)).
  pose proof (Z.mod_pos_bound (a / 256) 256 ltac:(lia)). pose proof (Z.mod_pos_bound (a / 256 / 256) 256 ltac:(lia)).
  rewrite (Z.mod_small (a / 256 / 256 / 256)).
  - assert (0 <= a / 256 / 256 / 256) by (repeat apply Z.div_pos; lia).
    assert (Hstep : forall acc v, 0 <= acc < 2 ^ 24 -> 0 <= v < 256 -> u32 (u32 (acc * 256) + v) = acc * 256 + v).
    { intros acc v Hacc Hv. by rewrite (wrap_small 32 (acc * 256)), wrap_small by lia. }
    assert (a / 256 / 256 / 256 < 256) by lia. 
    rewrite (Hstep 0), (Hstep (0 * 256 + a / 256 / 256 / 256)) by lia.
    rewrite (Hstep ((0 * 256 + a / 256 / 256 / 256) * 256 + (a / 256 / 256) mod 256)) by lia. rewrite Hstep by lia. lia.
  - rewrite !Z.div_div by lia. split; [apply Z.div_pos; lia | apply Z.div_lt_upper_bound; lia].
Qed.

(** The text of a 32-bit address. *)
Lemma hexbytes_be4 a : is_u32 a -> hexbytes (be4 a) = dchar 0 <$> fixed 16 8 a.
Proof.
  unfold is_u32. intros Ha. unfold hexbytes, be4. cbn [flat_map]. rewrite !Z.shiftr_div_pow2 by lia. unfold hexbyte.
  rewrite app_nil_r. change 256 with (16 ^ Z.of_nat 2). rewrite !(fixed_mod 16 2) by lia.
  change (fixed 16 8 a) with (fixed 16 (6 + 2) a). rewrite (fixed_app 16 6 2) by lia.
  change (fixed 16 6 (a / 16 ^ Z.of_nat 2)) with (fixed 16 (4 + 2) (a / 16 ^ Z.of_nat 2)). rewrite (fixed_app 16 4 2) by (lia || (apply Z.div_pos; lia)).
  change (fixed 16 4 (a / 16 ^ Z.of_nat 2 / 16 ^ Z.of_nat 2)) with (fixed 16 (2 + 2) (a / 16 ^ Z.of_nat 2 / 16 ^ Z.of_nat 2)).
  rewrite (fixed_app 16 2 2) by (lia || (repeat apply Z.div_pos; lia)). rewrite !Z.div_div by lia. rewrite !fmap_app, <- !app_assoc. done.
Qed.

(** ** A line of data *)

#[local] Opaque number.

Lemma format_02X v r args outs f s : is_byte v ->
  format_loop (S f) (str "%02X" ++ r) (A32 v :: args) s outs = format_loop f r args (s ++ hexbyte v) outs.
Proof.
  intros Hv. change (str "%02X" ++ r) with (37 :: 48 :: 50 :: 88 :: r). cbn [format_loop]. change (negb (37 =? 37)) with false. cbn iota.
  assert (parse_conversion (48 :: 50 :: 88 :: r) (A32 v :: args) = (t ← number (u32 v) 16 2 (-1) ZEROPAD; Some (t, r, args, false))) as -> by reflexivity.
  unfold is_byte in Hv. rewrite wrap_small by lia. change 2 with (Z.of_nat 2) at 1. rewrite (number_zeropad 2) by (cbn; lia). done.
Qed.

Lemma format_08lX v r args outs f s : is_u32 v ->
  format_loop (S f) (str "%08lX" ++ r) (A32 v :: args) s outs = format_loop f r args (s ++ hexbytes (be4 v)) outs.
Proof.
  intros Hv. change (str "%08lX" ++ r) with (37 :: 48 :: 56 :: 108 :: 88 :: r). cbn [format_loop]. change (negb (37 =? 37)) with false. cbn iota.
  assert (parse_conversion (48 :: 56 :: 108 :: 88 :: r) (A32 v :: args) = (t ← number (u32 v) 16 8 (-1) ZEROPAD; Some (t, r, args, false))) as -> by reflexivity.
  rewrite hexbytes_be4 by done. unfold is_u32 in Hv. rewrite wrap_small by lia. change 8 with (Z.of_nat 8) at 1. rewrite (number_zeropad 8) by (cbn; lia). done.
Qed.

#[local] Transparent number.

(** The line for the bytes [l] at the address [a]. *)
Definition line_checksum (a : Z) (l : list Z) : Z := u8 (Z.lnot (sum l + (5 + zlen l) + sum (be4 a))).
Definition line (a : Z) (l : list Z) : text :=
  str "S3" ++ hexbyte (5 + zlen l) ++ hexbytes (be4 a) ++ hexbytes l ++ hexbyte (line_checksum a l).

Lemma hexbytes_length l : is_bytes l -> length (hexbytes l) = (2 * length l)%nat.
Proof.
  induction 1 as [| b l Hb _ IH]; [done |]. cbn [hexbytes flat_map length]. rewrite length_app. change (flat_map hexbyte l) with (hexbytes l). rewrite IH.
  destruct (hexbyte_pair b Hb) as (c & d & -> & _). cbn. lia.
Qed.

Lemma line_checksum_byte a l : is_byte (line_checksum a l).
Proof. unfold is_byte, line_checksum. by apply (wrap_range 8). Qed.

Lemma format_record_line a l chk : is_u32 a -> is_bytes l -> (length l <= 16)%nat -> is_byte chk ->
  format_record (5 + zlen l) a (hexbytes l) chk =
    Some (str "S3" ++ hexbyte (5 + zlen l) ++ hexbytes (be4 a) ++ hexbytes l ++ hexbyte chk ++ [10]).
Proof.
  intros Ha Hl Hlen Hc. unfold format_record, vsprintf, vsnprintf_text.
  assert (is_byte (5 + zlen l)) as Hb by (unfold is_byte; lia).
  change (format_loop _ _ _ _ _) with (format_loop (length (str "S3") + S (S (S (S (length [10] + 12)))))
    (str "S3" ++ str "%02X" ++ str "%08lX" ++ str "%s" ++ str "%02X" ++ [10] ++ [])
    [A32 (5 + zlen l); A32 a; AStr (Some (hexbytes l)); A32 chk] [] []).
  rewrite (format_loop_lit (str "S3")) by lits. rewrite format_02X, format_08lX, format_loop_s, format_02X, (format_loop_lit [10]) by (done || lits).
  cbn [format_loop mbind option_bind]. rewrite <- !app_assoc. cbn [app].
  rewrite (proj2 (Z.ltb_ge _ _)).
  - f_equal. change [10; 0] with ([10] ++ [0]). by rewrite !app_assoc, removelast_last.
  - destruct (hexbyte_pair _ Hb) as (x & y & -> & _), (hexbyte_pair _ Hc) as (z & w & -> & _).
    rewrite !length_app, !hexbytes_length by (done || apply be4_bytes). unfold SREC_BYTES_PER_RECORD. cbn [length be4 str]. cbn. lia.
Qed.

Lemma record_checksum_line a l : is_u32 a -> (length l <= 16)%nat -> record_checksum (sum l) (5 + zlen l) a = line_checksum a l.
Proof.
  unfold is_u32. intros Ha Hlen. unfold record_checksum, line_checksum, wrap. change 0xff with (Z.ones 8). rewrite !Z.land_ones by lia. f_equal. f_equal.
  rewrite (Z.shiftr_div_pow2 (5 + zlen l)), (Z.div_small (5 + zlen l)), (Z.mod_small (5 + zlen l)) by lia.
  unfold be4, sum. cbn [foldr]. change (2 ^ 8) with 256. rewrite Z.mod_0_l by lia. lia.
Qed.

Lemma hexbyte_clean b : is_byte b -> Forall (fun c => ~ In c [0; 3; 10; 13]) (hexbyte b).
Proof.
  intros Hb. destruct (hexbyte_pair b Hb) as (c & d & -> & _ & Hc & Hd & _). cbn in Hc, Hd |- *.
  repeat constructor; intros Hin; [apply Hc | apply Hd]; cbn in Hin; tauto.
Qed.

Lemma hexbytes_clean l : is_bytes l -> Forall (fun c => ~ In c [0; 3; 10; 13]) (hexbytes l).
Proof. induction 1 as [| b l Hb _ IH]; [constructor |]. cbn [hexbytes flat_map]. apply Forall_app_2; [by apply hexbyte_clean | exact IH]. Qed.

Lemma line_clean a l : is_bytes l -> (length l <= 16)%nat -> Forall (fun c => ~ In c [0; 3; 10; 13]) (line a l).
Proof.
  intros Hl Hlen. assert (is_byte (5 + zlen l)) by (unfold is_byte; lia). unfold line. rewrite !Forall_app.
  repeat split; [by repeat constructor; cbn; lia | | apply hexbytes_clean, be4_bytes | by apply hexbytes_clean |]; apply hexbyte_clean; [done |].
  apply line_checksum_byte.
Qed.

Lemma line_length a l : is_bytes l -> (length l <= 16)%nat -> (length (line a l) <= 46)%nat.
Proof.
  intros Hl Hlen. unfold line. rewrite !length_app, !hexbytes_length by (done || apply be4_bytes). unfold hexbyte. rewrite !length_fmap, !fixed_length. cbn. lia.
Qed.

(** The checksum of a line that holds the bytes [l]. *)
Lemma srec_decode_fields a l chk : is_u32 a -> is_bytes l -> (length l <= 16)%nat -> is_byte chk ->
  srec_decode (str "S3" ++ hexbyte (5 + zlen l) ++ hexbytes (be4 a) ++ hexbytes l ++ hexbyte chk) =
    if chk =? line_checksum a l then (SREC_DATA4, zlen l, a, l) else (SREC_E_BADCHKS, 0, 0, []).
Proof.
  intros Ha Hl Hlen Hck. unfold srec_decode. change (str "S3") with [83; 51]. cbn [app skip_to_S]. change (83 =? 83) with true. cbn iota.
  assert (is_byte (5 + zlen l)) as Hb by (unfold is_byte; lia). destruct (hex2_bin_hex _ (hexbytes (be4 a) ++ hexbytes l ++ hexbyte chk) Hb) as [-> ->].
  rewrite (proj2 (Z.ltb_ge _ 0)) by lia. cbn [record_type Z.eqb Pos.eqb]. change (SREC_DATA4 =? SREC_COUNT) with false. cbn iota.
  replace (5 + zlen l - 5) with (zlen l) by lia. unfold read_fields. rewrite (read_address_hex 4 (be4 a)) by (done || apply be4_bytes).
  cbn [mbind option_bind]. rewrite be4_value, Nat2Z.id, read_data_hex by done. cbn [mbind option_bind].
  destruct (hex2_bin_hex _ [] Hck) as [H1 _]. rewrite app_nil_r in H1. rewrite H1.
  rewrite (proj2 (Z.ltb_ge _ 0)) by (unfold is_byte in Hck; lia).
  assert (u8 (Z.lnot (u8 (5 + zlen l + sum (be4 a) + sum l))) = line_checksum a l) as ->; [| done].
  unfold line_checksum. rewrite u8_lnot. do 2 f_equal. lia.
Qed.

(** The decoder reads a line back. *)
Lemma srec_decode_line a l : is_u32 a -> is_bytes l -> (length l <= 16)%nat -> srec_decode (line a l) = (SREC_DATA4, zlen l, a, l).
Proof. intros Ha Hl Hlen. unfold line. by rewrite srec_decode_fields, Z.eqb_refl by (done || apply line_checksum_byte). Qed.

(** ** A file of lines *)

Lemma read_record_clean t r n : Forall (fun c => ~ In c [0; 3; 10; 13]) t -> (length t < n)%nat ->
  read_record n (t ++ 10 :: r) = Some (Some t, r).
Proof.
  intros Ht. revert n. induction Ht as [| c t Hc _ IH]; intros [| n] Hn; cbn [length] in Hn; try lia; [done |].
  cbn [app read_record]. cbn [In] in Hc. rewrite !(proj2 (Z.eqb_neq c _)) by (intros ->; tauto). cbn [orb].
  by rewrite IH by lia.
Qed.

(** What is sent for the bytes [l] that follow the [pre] collected ones. *)
Fixpoint emit (a : Z) (pre l : list Z) : text :=
  match l with
  | [] => []
  | b :: l =>
      let pre := pre ++ [b] in
      if (zlen pre =? SREC_BYTES_PER_RECORD) || (zlen l =? 0) then line a pre ++ 10 :: emit (u32 (a + zlen pre)) [] l
      else emit a pre l
  end.

Lemma sum_snoc l b : sum (l ++ [b]) = sum l + b.
Proof. unfold sum. rewrite foldr_app. cbn [foldr]. generalize (Z.add_0_r b). intros _. induction l as [| x l IH]; cbn [foldr]; [lia |]. lia. Qed.

Lemma hexbytes_snoc l b : hexbytes (l ++ [b]) = hexbytes l ++ hexbyte b.
Proof. unfold hexbytes. rewrite flat_map_app. cbn [flat_map]. by rewrite app_nil_r. Qed.

Section Sent.
Context (ctrlc : nat -> bool) (Hquiet : forall i, ctrlc i = false) (m : mem).

(** The state of the loop with the bytes [pre] collected and [l] to come. *)
Definition collected (a : Z) (pre l : list Z) : saving := Saving a (zlen l) (zlen pre) (sum pre) (hexbytes pre).

Lemma collect_spec a pre b l : is_byte b -> 0 <= a -> a + zlen pre < 2 ^ 32 -> m !! (a + zlen pre) = Some b ->
  collect m (collected a pre (b :: l)) = Some (collected a (pre ++ [b]) l).
Proof.
  intros Hb Ha Hlt Hm. unfold collect, collected. cbn [sv_count sv_address sv_reclen sv_checksum sv_data length].
  rewrite (proj2 (Z.eqb_neq _ 0)), wrap_small by lia. unfold load. rewrite Hm. cbn [mbind option_bind].
  destruct (hexbyte_pair b Hb) as (x & y & _ & _ & _ & _ & He). rewrite <- He, sum_snoc, hexbytes_snoc, length_app. cbn [length].
  f_equal. f_equal; lia.
Qed.

Lemma dump_spec a pre l s : is_u32 a -> is_bytes pre -> 0 < zlen pre <= 16 ->
  dump ctrlc (collected a pre l) s = Some
    (if (zlen pre =? SREC_BYTES_PER_RECORD) || (zlen l =? 0)
     then (false, collected (u32 (a + zlen pre)) [] l, Sending (sent s ++ line a pre ++ [10]) (S (records s)))
     else (false, collected a pre l, s)).
Proof.
  intros Ha Hpre Hlen. unfold dump, collected. cbn [sv_count sv_address sv_reclen sv_checksum sv_data].
  destruct ((zlen pre =? SREC_BYTES_PER_RECORD) || (zlen l =? 0)); [| done].
  rewrite (proj2 (Z.eqb_neq (zlen pre) 0)) by lia. cbv zeta. replace (4 + zlen pre + 1) with (5 + zlen pre) by lia.
  rewrite record_checksum_line, format_record_line by (done || lia || apply line_checksum_byte). cbn [mbind option_bind].
  unfold write_record. rewrite Hquiet. unfold line. by rewrite <- !app_assoc.
Qed.

Lemma save_loop_spec l : forall fuel a pre s, l <> [] -> (length l <= fuel)%nat -> (length pre < 16)%nat -> 0 <= a ->
  a + zlen pre + zlen l <= 2 ^ 32 -> is_bytes pre -> is_bytes l -> bytes_at m (a + zlen pre) l ->
  exists n, save_loop ctrlc fuel m (collected a pre l) s = Some (0, Sending (sent s ++ emit a pre l ++ SREC3_END) n).
Proof.
  induction l as [| b l IH]; intros [| fuel] a pre s Hne Hfuel Hpre Ha Hend Hbp Hbl Hm; try done; [cbn in Hfuel; lia |].
  cbn [length] in Hfuel, Hend. apply Forall_cons in Hbl as [Hb Hbl]. destruct Hm as (Hm & _ & Hml).
  assert (is_bytes (pre ++ [b])) as Hbp' by (by apply Forall_app_2, Forall_singleton).
  assert (zlen (pre ++ [b]) = zlen pre + 1) as Hlen by (rewrite length_app; cbn; lia).
  cbn [save_loop]. rewrite collect_spec by (done || lia). cbn [mbind option_bind].
  rewrite dump_spec by (done || unfold is_u32; lia). cbn [mbind option_bind emit].
  destruct ((zlen (pre ++ [b]) =? SREC_BYTES_PER_RECORD) || (zlen l =? 0)) eqn:Hfull; cbn [sv_count collected].
  - destruct (decide (l = [])) as [-> | Hl].
    + change (zlen [] =? 0) with true. cbn iota. unfold write_record. rewrite Hquiet. cbn [sent emit]. eexists. do 3 f_equal. by rewrite <- !app_assoc.
    + assert (zlen l <> 0) by (destruct l; cbn in *; (done || lia)). rewrite (proj2 (Z.eqb_neq (zlen l) 0)) in * by done.
      rewrite orb_false_r, Z.eqb_eq in Hfull. unfold SREC_BYTES_PER_RECORD in Hfull. rewrite wrap_small by lia.
      rewrite Hlen, Hfull in *. destruct (IH fuel (a + 16) [] (Sending (sent s ++ line a (pre ++ [b]) ++ [10]) (S (records s)))) as [n Hn];
        try (done || lia || by apply Forall_nil || (cbn; lia)).
      * cbn [length]. by replace (a + 16 + Z.of_nat 0) with (a + zlen pre + 1) by lia.
      * exists n. rewrite Hn. cbn [sent]. by rewrite <- !app_assoc.
  - apply orb_false_iff in Hfull as [Hf1 Hf2]. rewrite Hf2. apply Z.eqb_neq in Hf1, Hf2. unfold SREC_BYTES_PER_RECORD in Hf1.
    apply IH; try done; [intros ->; cbn in Hf2; lia | lia | lia | lia |]. by replace (a + zlen (pre ++ [b])) with (a + zlen pre + 1) by lia.
Qed.
End Sent.

Section Received.
Context (offset : Z).

Lemma load_loop_more f : forall input st x, load_loop f offset input st = Some x ->
  forall f', (f <= f')%nat -> load_loop f' offset input st = Some x.
Proof.
  induction f as [| f IH]; intros input st x H [| f'] Hf; cbn [load_loop] in *; try (done || lia).
  destruct (read_record _ input) as [[[record |] rest] |]; cbn [mbind option_bind] in *; [| done | done].
  destruct (srec_decode record) as [[[type n] a] d]. destruct (type <? 0); [done |].
  destruct (_ || _ || _); [destruct (store_data _ _ _ _); [| done]; cbn [mbind option_bind] in *; apply (IH _ _ _ H); lia |].
  destruct (_ || _ || _); [done |]. apply (IH _ _ _ H). lia.
Qed.

(** The effect of a record with data. *)
Definition loaded (base : Z) (l : list Z) (st : loading) : loading :=
  Loading (write_bytes (l_mem st) base l) (Z.min base (start_addr st)) (Z.max (end_addr st) (base + zlen l - 1)) (filesize st).

Lemma store_data_spec base l st : 0 <= base -> 0 < zlen l <= 16 -> base + zlen l <= 2 ^ 32 -> is_bytes l -> mapped (l_mem st) base (zlen l) ->
  store_data base (zlen l) l st = Some (loaded base l st).
Proof.
  intros Hb Hl Hend Hbl Hm. unfold store_data, loaded. rewrite (wrap_small 32 (zlen l)), Nat2Z.id, firstn_all, (proj2 (Z.ltb_ge _ _)) by (lia || (unfold SREC_MAXBINLEN; lia)).
  rewrite store_bytes_spec by done. cbn [mbind option_bind]. rewrite wrap_small by lia. do 2 f_equal.
  - destruct (Z.ltb_spec base (start_addr st)); lia.
  - destruct (Z.ltb_spec (end_addr st) (base + zlen l - 1)); lia.
Qed.

Lemma load_line f a l st r : is_u32 a -> is_bytes l -> (length l <= 16)%nat ->
  load_loop (S f) offset (line a l ++ 10 :: r) st =
    (st ← store_data (u32 (a + offset)) (zlen l) l st; load_loop f offset r st).
Proof.
  intros Ha Hl Hlen. cbn [load_loop]. pose proof (line_length a l Hl Hlen).
  rewrite read_record_clean by (by apply line_clean || (change (Z.to_nat SREC_MAXRECLEN) with 516%nat; lia)). cbn [mbind option_bind].
  by rewrite srec_decode_line.
Qed.

Lemma loaded_app base l1 l2 st : 0 < zlen l2 -> loaded (base + zlen l1) l2 (loaded base l1 st) = loaded base (l1 ++ l2) st.
Proof.
  intros Hl. unfold loaded. cbn [l_mem start_addr end_addr filesize]. rewrite write_write, length_app by done. f_equal; lia.
Qed.

Lemma receive_spec l : forall a pre st f r x, l <> [] -> (length pre < 16)%nat -> 0 <= a -> a + zlen pre + zlen l <= 2 ^ 32 ->
  u32 (a + offset) + zlen pre + zlen l <= 2 ^ 32 -> is_bytes (pre ++ l) -> mapped (l_mem st) (u32 (a + offset)) (zlen (pre ++ l)) ->
  load_loop f offset r (loaded (u32 (a + offset)) (pre ++ l) st) = Some x ->
  load_loop (f + length (emit a pre l)) offset (emit a pre l ++ r) st = Some x.
Proof.
  induction l as [| b l IH]; intros a pre st f r x Hne Hpre Ha Ha' Hb Hbl Hm H; [done |]. cbn [length] in Ha', Hb. cbn [emit].
  rewrite (cons_middle b pre l), app_assoc in Hbl, Hm, H. assert (zlen (pre ++ [b]) = zlen pre + 1) as Hlen by (rewrite length_app; cbn; lia).
  pose proof (wrap_range 32 (a + offset) ltac:(lia)) as Hr. destruct (_ || _) eqn:Hfull.
  - rewrite length_app, <- app_assoc. cbn [length app]. rewrite Nat.add_succ_r, Nat.add_succ_r.
    apply Forall_app in Hbl as [Hbp Hbl]. rewrite load_line by (done || unfold is_u32; lia).
    rewrite length_app in Hm. rewrite store_data_spec; [cbn [mbind option_bind] | lia | lia | lia | done | by apply (mapped_sub _ _ _ _ _ Hm); lia].
    destruct (decide (l = [])) as [-> | Hl].
    + rewrite app_nil_r in H. cbn [emit app]. apply (load_loop_more _ _ _ _ H). lia.
    + assert (0 < zlen l) by (destruct l; cbn in *; (done || lia)). rewrite (proj2 (Z.eqb_neq (zlen l) 0)) in Hfull by lia.
      rewrite orb_false_r, Z.eqb_eq in Hfull. unfold SREC_BYTES_PER_RECORD in Hfull.
      assert (u32 (u32 (a + zlen (pre ++ [b])) + offset) = u32 (a + offset) + zlen (pre ++ [b])) as Hbase.
      { rewrite (wrap_small 32 (a + _)), <- (wrap_small 32 (u32 (a + offset) + _)) by lia. unfold wrap. rewrite Zplus_mod_idemp_l. f_equal. lia. }
      eapply load_loop_more; [apply (IH (u32 (a + zlen (pre ++ [b]))) [] _ f) | lia]; rewrite ?Hbase; try (done || lia).
      * cbn; lia.
      * by apply wrap_range.
      * rewrite wrap_small by lia. cbn [length]. lia.
      * cbn [length]. lia.
      * cbn [app l_mem loaded]. apply mapped_write, (mapped_sub _ _ _ _ _ Hm); lia.
      * cbn [app]. by rewrite loaded_app.
  - apply orb_false_iff in Hfull as [Hf1 Hf2]. apply Z.eqb_neq in Hf1, Hf2. unfold SREC_BYTES_PER_RECORD in Hf1.
    apply (IH a (pre ++ [b])); try (done || lia). intros ->. cbn in Hf2. lia.
Qed.
End Received.

(** ** The first and the last line *)

Lemma load_start offset f r st : load_loop (S f) offset (SREC3_START ++ r) st = load_loop f offset r st.
Proof.
  cbn [load_loop]. change (SREC3_START ++ r) with (str "S0030000FC" ++ 10 :: r).
  rewrite read_record_clean; [done | by repeat constructor; cbn; lia | change (Z.to_nat SREC_MAXRECLEN) with 516%nat; cbn; lia].
Qed.

Lemma load_end offset f r st : load_loop (S f) offset (SREC3_END ++ r) st = (st ← end_of_load st; Some (0, st)).
Proof.
  cbn [load_loop]. change (SREC3_END ++ r) with (str "S70500000000FA" ++ 10 :: r).
  rewrite read_record_clean; [done | by repeat constructor; cbn; lia | change (Z.to_nat SREC_MAXRECLEN) with 516%nat; cbn; lia].
Qed.

#[local] Opaque number.
Lemma format_lX v : vsnprintf_text (str "%lX") [A32 v] = t ← number (u32 v) 16 (-1) (-1) 0; Some (t, []).
Proof. apply (format_one [108; 88]). reflexivity. Qed.
#[local] Transparent number.

Lemma end_of_load_spec st : exists t, end_of_load st = Some (Loading (l_mem st) (start_addr st) (end_addr st) (Some t)) /\
  simple_strtoul t 16 = (u32 (end_addr st - start_addr st + 1), []).
Proof.
  unfold end_of_load, vsprintf. rewrite format_lX, wrap_wrap by lia. pose proof (wrap_range 32 (end_addr st - start_addr st + 1) ltac:(lia)) as Hr.
  rewrite (number_plain _ 16 0) by (done || lia || (unfold base_ok; auto)). cbn [mbind option_bind]. eexists. split; [by rewrite removelast_last |].
  apply strtoul_digits; [lia | done | by left].
Qed.

(** The state behind the last record, with "filesize" set to [t]. *)
Definition loading_done (base : Z) (l : list Z) (st : loading) (t : text) : loading :=
  let st := loaded base l st in Loading (l_mem st) (start_addr st) (end_addr st) (Some t).

(** C21: What "saves" sends, "loads" stores: the bytes of the saved memory, moved
    by the offset, and nothing else is changed; the command succeeds, and the
    variable "filesize" is set to a text that [simple_strtoul] reads back as the
    number of bytes.  The range and its image must not wrap around the end of the
    address space and the image must be memory; nobody presses Control-C. *)
Theorem srec_roundtrip ctrlc m m' a arg l r ta tn : (forall i, ctrlc i = false) -> 
  (simple_strtoul ta 16).1 = a -> (simple_strtoul tn 16).1 = zlen l -> 0 < zlen l -> a + zlen l <= 2 ^ 32 ->
  bytes_at m a l -> let base := u32 (a + (simple_strtol arg 16).1) in base + zlen l <= 2 ^ 32 -> mapped m' base (zlen l) ->
  exists s t, do_save_serial ctrlc m [str "saves"; ta; tn] [13] = Some (true, s) /\
    do_load_serial m' [str "loads"; arg] (sent s ++ r) = Some (0, Some 0, Loading (write_bytes m' base l) base (base + zlen l - 1) (Some t)) /\
    simple_strtoul t 16 = (zlen l, []).
Proof.
  intros Hquiet Hta Htn Hlen0 Hend Hl base Hbase Hm. pose proof (bytes_at_bytes _ _ _ Hl) as Hbl.
  pose proof (strtoul_range ta 16) as Ha. rewrite Hta in Ha. unfold is_u32 in Ha. pose proof (strtoul_range tn 16) as Hlen. rewrite Htn in Hlen. unfold is_u32 in Hlen.
  assert (l <> []) as Hne by (intros ->; cbn in Hlen0; lia). set (offset := (simple_strtol arg 16).1) in *.
  unfold do_save_serial. cbn [wait_enter Z.eqb Pos.eqb mbind option_bind]. rewrite Hta, Htn. unfold save_serial. cbn [write_record]. unfold write_record. rewrite Hquiet.
  destruct (save_loop_spec ctrlc Hquiet m l (S (Z.to_nat (zlen l))) a [] (Sending ([] ++ SREC3_START) 1)) as [n Hs];
    try first [done | lia | by apply Forall_nil | cbn [length]; lia]; [cbn [length]; by rewrite Z.add_0_r |].
  change (collected a [] l) with (Saving a (zlen l) 0 0 []) in Hs. cbn [sent records] in *.
  assert (0 <= base < 2 ^ 32) as Hr by (by apply wrap_range). set (st0 := Loading m' (u32 (-1)) 0 None).
  destruct (end_of_load_spec (loaded base l st0)) as (t & He & Ht). eexists _, t. split; [by rewrite Hs |].
  assert (u32 (end_addr (loaded base l st0) - start_addr (loaded base l st0) + 1) = zlen l) as Hsize.
  { unfold loaded, st0. cbn [start_addr end_addr]. change (u32 (-1)) with (2 ^ 32 - 1).
    rewrite wrap_small by lia. lia. }
  rewrite Hsize in Ht. split; [| exact Ht].
  unfold do_load_serial. fold offset. unfold load_serial. fold st0. cbn [sent app]. rewrite <- !app_assoc, load_start, !length_app.
  rewrite (load_loop_more offset (1 + length (emit a [] l)) _ _ (0, loading_done base l st0 t)); [| apply receive_spec |].
  - unfold loading_done, loaded, st0. cbn [l_mem start_addr end_addr mbind option_bind].
    change (u32 (-1)) with (2 ^ 32 - 1). change (0 =? 2 ^ 32 - 1) with false. cbn iota. do 3 f_equal; lia.
  - done.
  - cbn; lia.
  - lia.
  - cbn [length]. lia.
  - cbn [length]. fold base. lia.
  - done.
  - done.
  - rewrite load_end. fold base. cbn [app]. by rewrite He.
  - change (length SREC3_END) with 15%nat. change (length SREC3_START) with 11%nat. lia.
Qed.

Lemma srec_roundtrip_witness : exists s t, do_save_serial (fun _ => false) test_mem [str "saves"; str "4000"; str "14"] [13] = Some (true, s) /\
  do_load_serial (write_bytes ∅ 0x5000 (replicate 20 0)) [str "loads"; str "1000"] (sent s ++ []) =
    Some (0, Some 0, Loading (write_bytes (write_bytes ∅ 0x5000 (replicate 20 0)) 0x5000 (seqZ 200 20)) 0x5000 0x5013 (Some t)) /\
  simple_strtoul t 16 = (20, []).
Proof.
  assert (is_bytes (seqZ 200 20)) as Hb by (apply Forall_forall; intros x Hx%elem_of_seqZ; unfold is_byte; lia).
  apply (srec_roundtrip (fun _ => false) test_mem (write_bytes ∅ 0x5000 (replicate 20 0)) 0x4000 (str "1000") (seqZ 200 20) [] (str "4000") (str "14")).
  - done.
  - reflexivity.
  - rewrite length_seqZ. reflexivity.
  - rewrite length_seqZ. lia.
  - rewrite length_seqZ. lia.
  - by apply bytes_at_write.
  - vm_compute. discriminate.
  - apply (bytes_at_mapped _ _ (replicate 20 0)), bytes_at_write; [apply Forall_replicate; unfold is_byte; lia | done].
Defined.

(** ** Damaged and unusual records *)

(** The checksum of a record detects every damage of its data that changes
    their sum modulo 256, in particular every change of a single byte: the decoder
    refuses the record with SREC_E_BADCHKS, whatever its address and length. *)
Theorem srec_detects_damage a l l' : is_u32 a -> is_bytes l -> is_bytes l' -> length l' = length l -> (length l <= 16)%nat ->
  u8 (sum l') <> u8 (sum l) ->
  srec_decode (str "S3" ++ hexbyte (5 + zlen l) ++ hexbytes (be4 a) ++ hexbytes l' ++ hexbyte (line_checksum a l)) =
    (SREC_E_BADCHKS, 0, 0, []).
Proof.
  intros Ha Hl Hl' Hll Hlen Hsum. rewrite <- Hll at 1. rewrite srec_decode_fields by (done || lia || apply line_checksum_byte).
  destruct (Z.eqb_spec (line_checksum a l) (line_checksum a l')) as [Heq |]; [| done]. exfalso. apply Hsum.
  unfold line_checksum, wrap, Z.lnot in *. rewrite Hll in Heq. change (2 ^ 8) with 256 in *. Z.to_euclidean_division_equations; lia.
Qed.

Lemma srec_detects_damage_witness :
  srec_decode (str "S3" ++ hexbyte (5 + zlen [1; 2]) ++ hexbytes (be4 0x4000) ++ hexbytes [1; 130] ++ hexbyte (line_checksum 0x4000 [1; 2])) =
    (SREC_E_BADCHKS, 0, 0, []).
Proof. apply (srec_detects_damage 0x4000 [1; 2] [1; 130]); try (by repeat constructor); cbn; lia. Defined.

(** A data record whose length field counts fewer bytes than its address and
    checksum is accepted: with a right checksum the decoder returns a negative
    number of bytes, and the command copies that number, converted to size_t,
    2^32 - 3 bytes and more, out of a buffer of 255: no run of "loads" survives
    the record, whatever the memory, the offset and what follows. *)
Theorem srec_negative_length m argv n hi lo r : 0 <= n < 3 -> is_byte hi -> is_byte lo ->
  let record := str "S1" ++ hexbyte n ++ hexbytes [hi; lo] ++ hexbyte (u8 (Z.lnot (n + hi + lo))) in
  srec_decode record = (SREC_DATA2, n - 3, hi * 256 + lo, []) /\ do_load_serial m argv (record ++ 10 :: r) = None.
Proof.
  intros Hn Hhi Hlo record. assert (is_bytes [hi; lo]) as Hhl by (by apply Forall_cons_2, Forall_singleton). unfold is_byte in Hhi, Hlo.
  assert (srec_decode record = (SREC_DATA2, n - 3, hi * 256 + lo, [])) as Hdec.
  { unfold srec_decode, record. change (str "S1") with [83; 49]. cbn [app skip_to_S]. change (83 =? 83) with true. cbn iota.
    assert (is_byte n) as Hb by (unfold is_byte; lia). destruct (hex2_bin_hex _ (hexbytes [hi; lo] ++ hexbyte (u8 (Z.lnot (n + hi + lo)))) Hb) as [-> ->].
    rewrite (proj2 (Z.ltb_ge _ 0)) by lia. cbn [record_type Z.eqb Pos.eqb]. change (SREC_DATA2 =? SREC_COUNT) with false. cbn iota.
    unfold read_fields. rewrite (read_address_hex 2 [hi; lo]) by done. cbn [mbind option_bind].
    rewrite Z2Nat.nonpos by lia. cbn [read_data mbind option_bind foldl sum foldr].
    assert (is_byte (u8 (Z.lnot (n + hi + lo)))) as Hck by (by apply (wrap_range 8)).
    destruct (hex2_bin_hex _ [] Hck) as [H1 _]. rewrite app_nil_r in H1. rewrite H1, (proj2 (Z.ltb_ge _ 0)) by (unfold is_byte in Hck; lia).
    rewrite u8_lnot. replace (n + (hi + (lo + 0))) with (n + hi + lo) by lia. rewrite Z.eqb_refl. do 3 f_equal.
    rewrite !Z.shiftl_mul_pow2 by lia. rewrite (wrap_small 32 (0 * _)), (wrap_small 32 (_ + hi)), (wrap_small 32 (_ * _)), wrap_small by lia. lia. }
  split; [exact Hdec |]. unfold do_load_serial, load_serial. cbn [load_loop].
  assert (Forall (fun c => ~ In c [0; 3; 10; 13]) record) as Hclean.
  { unfold record. rewrite !Forall_app. split; [by repeat constructor; cbn; lia |].
    split; [apply hexbyte_clean; unfold is_byte; lia |]. split; [by apply hexbytes_clean |]. apply hexbyte_clean. by apply (wrap_range 8). }
  assert (length record = 10%nat) as Hlen.
  { unfold record. rewrite !length_app, hexbytes_length by done. unfold hexbyte. by rewrite !length_fmap, !fixed_length. }
  rewrite read_record_clean by (done || (change (Z.to_nat SREC_MAXRECLEN) with 516%nat; lia)). cbn [mbind option_bind]. rewrite Hdec.
  change (SREC_DATA2 <? 0) with false. change (SREC_DATA2 =? SREC_DATA2) with true. cbn [orb]. unfold store_data.
  assert (u32 (n - 3) = n - 3 + 2 ^ 32) as -> by (unfold wrap; symmetry; apply (Z.mod_unique _ _ (-1)); lia).
  by rewrite (proj2 (Z.ltb_lt _ _)) by (unfold SREC_MAXBINLEN; lia).
Qed.

Lemma srec_negative_length_witness :
  let record := str "S1" ++ hexbyte 1 ++ hexbytes [0; 0] ++ hexbyte (u8 (Z.lnot (1 + 0 + 0))) in
  srec_decode record = (SREC_DATA2, -2, 0, []) /\ do_load_serial ∅ [str "loads"] (record ++ [10]) = None.
Proof. apply (srec_negative_length ∅ [str "loads"] 1 0 0 []); unfold is_byte; lia. Defined.

(** "saves" of no bytes sends a file without data, and "loads" of such a
    file succeeds, changes no memory and sets "filesize" to 2. *)
Theorem srec_empty_filesize ctrlc m m' a argv : (forall i, ctrlc i = false) ->
  exists s, save_serial ctrlc m a 0 = Some (0, s) /\
    do_load_serial m' argv (sent s) = Some (0, Some 0, Loading m' (2 ^ 32 - 1) 0 (Some (str "2"))).
Proof.
  intros Hquiet. exists (Sending (SREC3_START ++ SREC3_END) 2). split.
  - unfold save_serial, write_record. rewrite Hquiet. cbn [save_loop Z.to_nat collect sv_count]. unfold write_record. cbn. by rewrite Hquiet.
  - reflexivity.
Qed.

Lemma srec_empty_filesize_witness : exists s, save_serial (fun _ => false) ∅ 0x4000 0 = Some (0, s) /\
  do_load_serial ∅ [str "loads"] (sent s) = Some (0, Some 0, Loading ∅ (2 ^ 32 - 1) 0 (Some (str "2"))).
Proof. by apply (srec_empty_filesize (fun _ => false) ∅ ∅ 0x4000 [str "loads"]). Defined.
