(* ===== verification/Kermit.v ===== *)
(** * Kermit downloads (common/cmd_load.c)

    The receiver of the command "loadb": packets with a sequence number and a
    checksum, whose data go to memory while they arrive.  The state of the receiver
    is explicit; a packet runs in a monad of state, input and packet errors.  The
    characters received are a list; [None] is a fault of the memory or waiting for
    more characters than come. *)

From S2P Require Import Prelude StringLib Memory Vsprintf.

Definition START_CHAR : Z := 0x01.
Definition ETX_CHAR : Z := 0x03.
Definition END_CHAR : Z := 0x0D.
Definition K_SPACE : Z := 0x20.
Definition K_ESCAPE : Z := 0x23.
Definition SEND_TYPE : Z := 83.
Definition DATA_TYPE : Z := 68.
Definition ACK_TYPE : Z := 89.
Definition NACK_TYPE : Z := 78.
Definition BREAK_TYPE : Z := 66.
Definition SEND_DATA_SIZE : Z := 20.

Definition tochar (x : Z) : Z := Z.land (x + K_SPACE) 0xff.
Definition untochar (x : Z) : Z := Z.land (x - K_SPACE) 0xff.

(** Converts an escaped character; [~0x40] is taken within a byte. *)
Definition ktrans (c : Z) : Z :=
  if Z.land c 0x60 =? 0x40 then Z.land c 0xbf
  else if Z.land c 0x7f =? 0x3f then Z.lor c 0x40
  else c.

(** The block check of type 1 for the sum of the characters. *)
Definition block_check (sum : Z) : Z := Z.land (sum + Z.land (Z.shiftr sum 6) 0x03) 0x3f.

(** A string ends at its first null character. *)
Fixpoint c_string (s : list Z) : list Z :=
  match s with [] => [] | c :: s => if c =? 0 then [] else c :: c_string s end.

Definition chk1 (buffer : list Z) : Z := block_check (foldl Z.add 0 (c_string buffer)).

(** ** The state *)

(** What the sender asked for. *)
Record params := Params { his_eol : Z; his_pad_count : Z; his_pad_char : Z; his_quote : Z }.

(** The variables of the data, which are saved and restored together. *)
Record data_state := DataState { k_data_escape : bool; os_data_state : Z; os_data_addr : Z }.

Record kermit := Kermit {
  his : params;
  k_state : Z; k_state_saved : Z;
  k_data : data_state; k_data_saved : data_state;
  send_parms : list Z; send_ptr : Z;
  seq : Z; last_n : Z;
  k_mem : mem;
  k_out : list Z
}.

Definition set_his p (k : kermit) := Kermit p (k_state k) (k_state_saved k) (k_data k) (k_data_saved k) (send_parms k) (send_ptr k) (seq k) (last_n k) (k_mem k) (k_out k).
Definition set_state s (k : kermit) := Kermit (his k) s (k_state_saved k) (k_data k) (k_data_saved k) (send_parms k) (send_ptr k) (seq k) (last_n k) (k_mem k) (k_out k).
Definition set_saved s d (k : kermit) := Kermit (his k) (k_state k) s (k_data k) d (send_parms k) (send_ptr k) (seq k) (last_n k) (k_mem k) (k_out k).
Definition set_data d m (k : kermit) := Kermit (his k) (k_state k) (k_state_saved k) d (k_data_saved k) (send_parms k) (send_ptr k) (seq k) (last_n k) m (k_out k).
Definition set_send l p (k : kermit) := Kermit (his k) (k_state k) (k_state_saved k) (k_data k) (k_data_saved k) l p (seq k) (last_n k) (k_mem k) (k_out k).
Definition set_n n (k : kermit) := Kermit (his k) (k_state k) (k_state_saved k) (k_data k) (k_data_saved k) (send_parms k) (send_ptr k) n (last_n k) (k_mem k) (k_out k).
Definition set_last n (k : kermit) := Kermit (his k) (k_state k) (k_state_saved k) (k_data k) (k_data_saved k) (send_parms k) (send_ptr k) (seq k) n (k_mem k) (k_out k).
Definition put_text t (k : kermit) := Kermit (his k) (k_state k) (k_state_saved k) (k_data k) (k_data_saved k) (send_parms k) (send_ptr k) (seq k) (last_n k) (k_mem k) (k_out k ++ t).

(** ** Replies *)

Definition send_pad (k : kermit) : kermit := put_text (replicate (Z.to_nat (his_pad_count (his k))) (his_pad_char (his k))) k.
Definition s1_sendpacket (packet : list Z) (k : kermit) : kermit := put_text (c_string packet) (send_pad k).

(** The packet of [type] with the data [l] in the buffer [a_b]; its check is over
    all characters but the first. *)
Definition reply (n type : Z) (l : list Z) (k : kermit) : list Z :=
  let body := [tochar (3 + zlen l); tochar n; type] ++ l in
  [START_CHAR] ++ body ++ [tochar (chk1 body); his_eol (his k)].

Definition send_ack (n : Z) (k : kermit) : kermit := s1_sendpacket (reply n ACK_TYPE [] k) k.
Definition send_nack (n : Z) (k : kermit) : kermit := s1_sendpacket (reply n NACK_TYPE [] k) k.

(** ** The data *)

Definition bin_data_init (start : Z) : Z * Z := (0, start).

(** [os_data_char], which is [bin_data_char]: the state of the data is always 0. *)
Definition bin_data_char (c : Z) (d : data_state) (m : mem) : option (data_state * mem) :=
  if os_data_state d =? 0 then
    m ← store m (os_data_addr d) c;
    Some (DataState (k_data_escape d) (os_data_state d) (u32 (os_data_addr d + 1)), m)
  else Some (d, m).

Definition k_data_init (start : Z) (k : kermit) : kermit :=
  let '(s, a) := bin_data_init start in set_data (DataState false s a) (k_mem k) k.

Definition set_escape (b : bool) (d : data_state) : data_state := DataState b (os_data_state d) (os_data_addr d).

Definition k_data_char (quote c : Z) (d : data_state) (m : mem) : option (data_state * mem) :=
  if k_data_escape d then
    '(d, m) ← bin_data_char (ktrans c) d m;
    Some (set_escape false d, m)
  else if c =? quote then Some (set_escape true d, m)
  else bin_data_char c d m.

Definition k_data_save (k : kermit) : kermit := set_saved (k_state_saved k) (k_data k) k.
Definition k_data_restore (k : kermit) : kermit := set_data (k_data_saved k) (k_mem k) k.

(** [k_state_saved = k_state; k_data_save ();] and [k_state = k_state_saved;
    k_data_restore ();] *)
Definition checkpoint (k : kermit) : kermit := k_data_save (set_saved (k_state k) (k_data_saved k) k).
Definition restore (k : kermit) : kermit := k_data_restore (set_state (k_state_saved k) k).

(** ** The parameters of the sender *)

Definition default_params : params := Params END_CHAR 0 0 K_ESCAPE.

Definition parm (k : kermit) (i : nat) : Z := default 0 (send_parms k !! i).

(** What each byte of the packet adds to the answer, and what is remembered. *)
Definition send_steps (k : kermit) : list (list Z * (params -> params)) :=
  [ ([tochar 94], id);
    ([tochar 1], id);
    ([tochar 0], fun h => Params (his_eol h) (untochar (parm k 2)) (his_pad_char h) (his_quote h));
    ([0x40], fun h => Params (his_eol h) (his_pad_count h) (ktrans (parm k 3)) (his_quote h));
    ([tochar END_CHAR], fun h => Params (untochar (parm k 4)) (his_pad_count h) (his_pad_char h) (his_quote h));
    ([35], fun h => Params (his_eol h) (his_pad_count h) (his_pad_char h) (parm k 5));
    ([78], id);
    ([49], id);
    ([78], id);
    ([tochar 2; tochar 0; tochar 94; tochar 94], id) ].

(** [handle_send_packet]; the last byte is ignored when the buffer is full. *)
Definition handle_send_packet (n : Z) (k : kermit) : kermit :=
  let ptr := if send_ptr k =? SEND_DATA_SIZE - 1 then send_ptr k - 1 else send_ptr k in
  let k := set_send (send_parms k) ptr k in
  let steps := take (Z.to_nat ptr) (send_steps k) in
  let k := set_his (foldl (fun h s => s.2 h) default_params steps) k in
  s1_sendpacket (reply n ACK_TYPE (steps ≫= fst) k) k.

(** ** Packets *)

(** A step of the receiver: a packet error leaves the state and the input where
    they are. *)
Definition K (A : Type) := kermit -> list Z -> option (option A * kermit * list Z).
Definition kret {A} (x : A) : K A := fun k input => Some (Some x, k, input).
Definition kbind {A B} (f : A -> K B) (c : K A) : K B := fun k input =>
  '(r, k, input) ← c k input;
  match r with Some x => f x k input | None => Some (None, k, input) end.
Definition packet_error {A} : K A := fun k input => Some (None, k, input).
Definition modify (f : kermit -> kermit) : K unit := fun k input => Some (Some tt, f k, input).
Definition effect (f : kermit -> option kermit) : K unit := fun k input => k ← f k; Some (Some tt, k, input).
Definition getc : K Z := fun k input => match input with [] => None | c :: input => Some (Some c, k, input) end.

#[local] Notation "'let!' x := c 'in' d" := (kbind (fun x => d) c) (at level 10, x name, c at level 100, d at level 200).

(** [new_char = getc (); if ((new_char & 0xE0) == 0) goto packet_error;] *)
Definition get_printable : K Z :=
  let! c := getc in
  if Z.land c 0xE0 =? 0 then packet_error else kret c.

(** A character of the packet: data go to memory, the parameters to their buffer,
    which its last place is used again for. *)
Definition take_char (c : Z) (k : kermit) : option kermit :=
  if k_state k =? DATA_TYPE then
    '(d, m) ← k_data_char (his_quote (his k)) c (k_data k) (k_mem k);
    Some (set_data d m k)
  else if k_state k =? SEND_TYPE then
    if SEND_DATA_SIZE <=? send_ptr k then None
    else
      let l := <[Z.to_nat (send_ptr k) := c]> (send_parms k) in
      let ptr := send_ptr k + 1 in
      Some (set_send l (if SEND_DATA_SIZE <=? ptr then ptr - 1 else ptr) k)
  else Some k.

(** [while (length > 1) { ... }] with the sum of the characters. *)
Fixpoint rest_of_packet (n : nat) (sum : Z) : K Z :=
  match n with
  | O => kret sum
  | S n =>
      let! c := get_printable in
      let! u := effect (take_char c) in
      rest_of_packet n (sum + c)
  end.

(** A retried packet restores the state before its first try. *)
Definition new_sequence (k : kermit) : kermit :=
  if seq k =? last_n k then restore k else checkpoint (set_last (seq k) k).

(** The two bytes of an extended length and the check of the header. *)
Definition extended_length (sum : Z) : K (Z * Z) :=
  let! hi := get_printable in
  let! lo := get_printable in
  let sum := sum + hi + lo in
  let! c := get_printable in
  if negb (c =? tochar (block_check sum)) then packet_error
  else kret (untochar hi * 95 + untochar lo, sum + c).

(** The checksum and the last character. *)
Definition end_of_packet (sum : Z) : K unit :=
  let! c := get_printable in
  if negb (c =? tochar (block_check sum)) then packet_error
  else
    let! c := getc in
    if negb (c =? END_CHAR) then packet_error else kret tt.

(** From the length to the character that ends the packet. *)
Definition packet : K unit :=
  let! len := get_printable in
  let! n := get_printable in
  let! u := modify (set_n (untochar n)) in
  let! u := modify new_sequence in
  let! type := get_printable in
  let! u := modify (set_state type) in
  let sum := len + n + type in
  let length := untochar len - 2 in
  let! r := if length =? -2 then extended_length sum else kret (length, sum) in
  let '(length, sum) := r in
  let! sum := rest_of_packet (Z.to_nat (length - 1)) sum in
  end_of_packet sum.

(** The characters up to the start of a packet; [None] inside for Control-C. *)
Fixpoint wait_start (input : list Z) : option (option (list Z)) :=
  match input with
  | [] => None
  | c :: input => if c =? START_CHAR then Some (Some input) else if c =? ETX_CHAR then Some None else wait_start input
  end.

(** What follows a packet; whether the transmission ends. *)
Definition answer (ok : option unit) (k : kermit) : bool * kermit :=
  match ok with
  | None => let k := restore k in (false, send_nack (seq k) k)
  | Some _ =>
      if k_state k =? SEND_TYPE then (false, handle_send_packet (seq k) k)
      else (k_state k =? BREAK_TYPE, send_ack (seq k) k)
  end.

(** The loop of [k_recv]; each round takes a character. *)
Fixpoint k_recv_loop (fuel : nat) (start : Z) (input : list Z) (k : kermit) : option (Z * kermit) :=
  match fuel with
  | O => None
  | S fuel =>
      let k := set_send (send_parms k) 0 k in
      input ← wait_start input;
      match input with
      | None => Some (0, k)
      | Some input =>
          '(ok, k, input) ← packet k input;
          let '(done, k) := answer ok k in
          if done : bool then Some (u32 (os_data_addr (k_data k) - start), k)
          else k_recv_loop fuel start input k
      end
  end.

(** The static variables keep the values of an earlier download. *)
Definition k_recv_init (start : Z) (k : kermit) : kermit :=
  set_last (-1) (set_n 0 (checkpoint (k_data_init start (set_state 0 (set_his default_params k))))).

Definition k_recv (start : Z) (input : list Z) (k : kermit) : option (Z * kermit) :=
  k_recv_loop (S (length input)) start input (k_recv_init start k).

(** [load_serial_bin]: the address, the value of "filesize" and the state. *)
Definition load_serial_bin (offset : Z) (input : list Z) (k : kermit) : option (Z * text * kermit) :=
  '(size, k) ← k_recv offset input k;
  '(t, _) ← vsprintf (str "%X") [A32 size];
  Some (offset, removelast t, k).

Definition CONFIG_SYS_LOAD_ADDR : Z := 0x70000000.

(** The command "loadb" at the current line speed: the status, [load_addr],
    "filesize" and the state. *)
Definition do_load_serial_bin (loadaddr : option text) (argv : list text) (input : list Z) (k : kermit) :
    option (Z * Z * text * kermit) :=
  let offset := match loadaddr with Some s => (simple_strtoul s 16).1 | None => CONFIG_SYS_LOAD_ADDR end in
  let offset := match argv with _ :: a :: _ => (simple_strtoul a 16).1 | _ => offset end in
  '(addr, filesize, k) ← load_serial_bin offset input k;
  if addr =? u32 (-1) then Some (1, 0, filesize, k) else Some (0, addr, filesize, k).

(** ** Parsing before storing

    A packet that is parsed first and stored afterwards has the same effect: the
    number and the type it brought, the characters of its data, and whether it was
    right. *)

Record received := Received { r_seq : option Z; r_type : option Z; r_data : list Z; r_ok : bool }.

Definition printable (c : Z) : bool := negb (Z.land c 0xE0 =? 0).

(** The characters that came and, if all did, the sum with them. *)
Fixpoint parse_rest (n : nat) (sum : Z) (input : list Z) : option (list Z * option Z * list Z) :=
  match n with
  | O => Some ([], Some sum, input)
  | S n =>
      match input with
      | [] => None
      | c :: input =>
          if printable c then '(l, r, input) ← parse_rest n (sum + c) input; Some (c :: l, r, input)
          else Some ([], None, input)
      end
  end.

(** The block check and the end. *)
Definition parse_check (sum : Z) (input : list Z) : option (bool * list Z) :=
  match input with
  | [] => None
  | c :: input =>
      if printable c && (c =? tochar (block_check sum)) then
        match input with [] => None | e :: input => Some (e =? END_CHAR, input) end
      else Some (false, input)
  end.

Definition parse_body (n type : Z) (length sum : Z) (input : list Z) : option (received * list Z) :=
  '(l, r, input) ← parse_rest (Z.to_nat (length - 1)) sum input;
  match r with
  | None => Some (Received (Some n) (Some type) l false, input)
  | Some sum => '(ok, input) ← parse_check sum input; Some (Received (Some n) (Some type) l ok, input)
  end.

(** A character that must be printable. *)
Definition expect {A} (bad : A) (f : Z -> list Z -> option (A * list Z)) (input : list Z) : option (A * list Z) :=
  match input with [] => None | c :: input => if printable c then f c input else Some (bad, input) end.

Definition parse (input : list Z) : option (received * list Z) :=
  expect (Received None None [] false) (fun len =>
  expect (Received None None [] false) (fun n =>
  expect (Received (Some (untochar n)) None [] false) (fun type =>
    let sum := len + n + type in
    let length := untochar len - 2 in
    let bad := Received (Some (untochar n)) (Some type) [] false in
    if length =? -2 then
      expect bad (fun hi =>
      expect bad (fun lo =>
      expect bad (fun c input =>
        let sum := sum + hi + lo in
        if c =? tochar (block_check sum) then
          parse_body (untochar n) type (untochar hi * 95 + untochar lo) (sum + c) input
        else Some (bad, input))))
    else parse_body (untochar n) type length sum))) input.

(** The effect of a packet. *)
Fixpoint take_chars (l : list Z) (k : kermit) : option kermit :=
  match l with [] => Some k | c :: l => k ← take_char c k; take_chars l k end.

Definition arrive (r : received) (k : kermit) : option kermit :=
  let k := match r_seq r with Some n => new_sequence (set_n n k) | None => k end in
  let k := match r_type r with Some t => set_state t k | None => k end in
  take_chars (r_data r) k.

Lemma get_printable_spec k input : get_printable k input =
  match input with [] => None | c :: input => Some (if printable c then Some c else None, k, input) end.
Proof. unfold get_printable, kbind, getc, printable. destruct input as [| c input]; [done |]. cbn. by destruct (Z.land c 224 =? 0). Qed.

Lemma kbind_get {A} (f : Z -> K A) k input : kbind f get_printable k input =
  match input with [] => None | c :: input => if printable c then f c k input else Some (None, k, input) end.
Proof. unfold kbind. rewrite get_printable_spec. destruct input as [| c input]; [done |]. cbn. by destruct (printable c). Qed.

Lemma kbind_modify {A} (f : unit -> K A) g k input : kbind f (modify g) k input = f tt (g k) input.
Proof. done. Qed.

Lemma rest_of_packet_spec n : forall sum k input, rest_of_packet n sum k input =
  ('(l, r, input) ← parse_rest n sum input; k ← take_chars l k; Some (r, k, input)).
Proof.
  induction n as [| n IH]; intros sum k input; [done |]. cbn [rest_of_packet parse_rest]. unfold kbind at 1. rewrite get_printable_spec.
  destruct input as [| c input]; [done |]. cbn [mbind option_bind]. destruct (printable c); [| done]. unfold kbind, effect.
  destruct (take_char c k) as [k' |] eqn:Ht; cbn [mbind option_bind].
  - rewrite IH. destruct (parse_rest n (sum + c) input) as [[[l r] input'] |]; [| done]. cbn [mbind option_bind take_chars]. by rewrite Ht.
  - destruct (parse_rest n (sum + c) input) as [[[l r] input'] |]; [| done]. cbn [mbind option_bind take_chars]. by rewrite Ht.
Qed.

Definition outcome (ok : bool) : option unit := if ok then Some tt else None.

Lemma end_of_packet_spec sum k input :
  end_of_packet sum k input = ('(ok, input) ← parse_check sum input; Some (outcome ok, k, input)).
Proof.
  unfold end_of_packet, kbind at 1. rewrite get_printable_spec. destruct input as [| c input]; [done |]. cbn [mbind option_bind parse_check].
  destruct (printable c); [| done]. cbn [andb]. destruct (c =? tochar (block_check sum)); [| done]. cbn [negb]. unfold kbind, getc.
  destruct input as [| e input]; [done |]. cbn [mbind option_bind]. by destruct (e =? END_CHAR).
Qed.

Lemma body_spec n type length sum k input :
  kbind end_of_packet (rest_of_packet (Z.to_nat (length - 1)) sum) k input =
    ('(r, input) ← parse_body n type length sum input; k ← take_chars (r_data r) k; Some (outcome (r_ok r), k, input)).
Proof.
  unfold kbind, parse_body. rewrite rest_of_packet_spec.
  destruct (parse_rest _ sum input) as [[[l r] rest] |]; [| done]. cbn [mbind option_bind].
  destruct (take_chars l k) as [k' |] eqn:Ht; cbn [mbind option_bind].
  - destruct r as [sum' |]; [| cbn [mbind option_bind r_data]; by rewrite Ht]. rewrite end_of_packet_spec.
    destruct (parse_check sum' rest) as [[ok rest'] |]; [| done]. cbn [mbind option_bind r_data r_ok]. by rewrite Ht.
  - destruct r as [sum' |]; [| cbn [mbind option_bind r_data]; by rewrite Ht].
    destruct (parse_check sum' rest) as [[ok rest'] |]; [| done]. cbn [mbind option_bind r_data r_ok]. by rewrite Ht.
Qed.

Lemma parse_body_header n type length sum input r rest : parse_body n type length sum input = Some (r, rest) ->
  r_seq r = Some n /\ r_type r = Some type.
Proof.
  unfold parse_body. destruct (parse_rest _ _ _) as [[[l [sum' |]] rest'] |]; cbn [mbind option_bind]; [| by intros [= <- <-] | done].
  destruct (parse_check _ _) as [[ok rest2] |]; [| done]. by intros [= <- <-].
Qed.

(** Storing while receiving is the same as parsing the whole packet first and
    then storing its characters: for every state and input the receiver consumes
    the characters the parser consumes, reports a packet error when the parser
    does, and ends in the state that the number, the type and the data of the
    packet lead to. *)
Theorem packet_parse k input :
  packet k input = ('(r, input) ← parse input; k ← arrive r k; Some (outcome (r_ok r), k, input)).
Proof.
  unfold packet, parse. rewrite kbind_get. destruct input as [| len input]; [done |]. cbn [expect].
  destruct (printable len); [| done]. rewrite kbind_get. destruct input as [| n input]; [done |]. cbn [expect].
  destruct (printable n); [| done]. rewrite !kbind_modify, kbind_get. destruct input as [| type input]; [done |]. cbn [expect].
  destruct (printable type); [| done]. rewrite kbind_modify. set (k' := set_state type _).
  assert (forall length sum input, kbind end_of_packet (rest_of_packet (Z.to_nat (length - 1)) sum) k' input =
    ('(r, input) ← parse_body (untochar n) type length sum input; k ← arrive r k; Some (outcome (r_ok r), k, input))) as Hbody.
  { intros length sum inp. rewrite (body_spec (untochar n) type). destruct (parse_body _ _ _ _ inp) as [[r rest] |] eqn:Hp; [| done].
    cbn [mbind option_bind]. apply parse_body_header in Hp as [Hs Ht]. unfold arrive. by rewrite Hs, Ht. }
  destruct (_ =? -2); [| apply Hbody]. unfold kbind at 1, extended_length. rewrite kbind_get.
  destruct input as [| hi input]; [done |]. cbn [expect]. destruct (printable hi); [| done].
  rewrite kbind_get. destruct input as [| lo input]; [done |]. cbn [expect]. destruct (printable lo); [| done].
  rewrite kbind_get. destruct input as [| c input]; [done |]. cbn [expect]. destruct (printable c); [| done].
  destruct (c =? _); [| done]. apply Hbody.
Qed.

(** ** The parser *)

Lemma parse_rest_app n : forall sum input l r rest x, parse_rest n sum input = Some (l, r, rest) ->
  parse_rest n sum (input ++ x) = Some (l, r, rest ++ x).
Proof.
  induction n as [| n IH]; intros sum input l r rest x H; cbn [parse_rest] in *; [by simplify_eq |].
  destruct input as [| c input]; [done |]. cbn [app]. destruct (printable c); [| by simplify_eq].
  destruct (parse_rest n (sum + c) input) as [[[l' r'] rest'] |] eqn:He; [| done]. cbn [mbind option_bind] in H. simplify_eq.
  by rewrite (IH _ _ _ _ _ x He).
Qed.

Lemma parse_body_app n type len sum input r rest x : parse_body n type len sum input = Some (r, rest) ->
  parse_body n type len sum (input ++ x) = Some (r, rest ++ x).
Proof.
  unfold parse_body. destruct (parse_rest _ sum input) as [[[l r'] rest'] |] eqn:He; [| done].
  rewrite (parse_rest_app _ _ _ _ _ _ x He). cbn [mbind option_bind]. destruct r' as [sum' |]; [| by intros [= <- <-]].
  destruct rest' as [| c rest']; [done |]. cbn [app parse_check]. destruct (_ && _); [| by intros [= <- <-]].
  destruct rest' as [| e rest']; [done |]. cbn [app mbind option_bind]. by intros [= <- <-].
Qed.

Lemma parse_app input r rest x : parse input = Some (r, rest) -> parse (input ++ x) = Some (r, rest ++ x).
Proof.
  unfold parse, expect.
  repeat (match goal with
    | |- context [match ?l with [] => None | _ => _ end] => destruct l as [| ? ?]; [done |]; cbn [app]
    | |- context [if ?b then _ else _] => destruct b
    end; try by intros [= <- <-]); apply parse_body_app.
Qed.

Lemma parse_rest_length n : forall sum input l r rest, parse_rest n sum input = Some (l, r, rest) -> (length l <= n)%nat.
Proof.
  induction n as [| n IH]; intros sum input l r rest H; cbn [parse_rest] in H; [by simplify_eq |].
  destruct input as [| c input]; [done |]. destruct (printable c); [| simplify_eq; cbn; lia].
  destruct (parse_rest n (sum + c) input) as [[[l' r'] rest'] |] eqn:He; [| done]. cbn [mbind option_bind] in H. simplify_eq.
  apply IH in He. cbn. lia.
Qed.

Lemma parse_body_length n type len sum input r rest : parse_body n type len sum input = Some (r, rest) ->
  zlen (r_data r) <= Z.max 0 (len - 1).
Proof.
  unfold parse_body. destruct (parse_rest _ sum input) as [[[l [sum' |]] rest'] |] eqn:He; cbn [mbind option_bind]; [| | done].
  - apply parse_rest_length in He. destruct (parse_check sum' rest') as [[ok rest2] |]; [| done]. cbn [mbind option_bind]. intros [= <- <-]. cbn. lia.
  - apply parse_rest_length in He. intros [= <- <-]. cbn. lia.
Qed.

(** No packet has more data than a length field can say. *)
Definition MAX_DATA : Z := 24480.

Lemma untochar_range c : 0 <= untochar c < 256.
Proof. unfold untochar. change 0xff with (Z.ones 8). rewrite Z.land_ones by lia. change (2 ^ 8) with 256. pose proof (Z.mod_pos_bound (c - K_SPACE) 256 ltac:(lia)). lia. Qed.

Lemma parse_length input r rest : parse input = Some (r, rest) -> zlen (r_data r) <= MAX_DATA.
Proof.
  unfold parse, expect, MAX_DATA.
  repeat (match goal with
    | |- context [match ?l with [] => None | _ => _ end] => destruct l as [| ? ?]; [done |]
    | |- context [if ?b then _ else _] => destruct b
    end; try (by intros [= <- <-]; cbn; lia)); intros H%parse_body_length;
  repeat match goal with H : context [untochar ?c] |- _ => let u := fresh "u" in pose proof (untochar_range c); set (u := untochar c) in *; clearbody u end; lia.
Qed.

(** ** The packets of a sender *)

Definition char_sum (l : list Z) : Z := foldl Z.add 0 l.
Definition checked (body : list Z) : list Z := body ++ [tochar (block_check (char_sum body))].

(** The packet of the number [n] with the data [l], in the short form when it
    fits. *)
Definition packet_body (n type : Z) (l : list Z) : list Z :=
  if zlen l <=? 91 then checked ([tochar (zlen l + 3); tochar n; type] ++ l) ++ [END_CHAR]
  else checked (checked [tochar 0; tochar n; type; tochar ((zlen l + 1) / 95); tochar ((zlen l + 1) mod 95)] ++ l) ++ [END_CHAR].

Definition max_packet : Z := 9023.

Lemma printable_range c : 32 <= c < 256 -> printable c = true.
Proof.
  intros Hc. apply (all_from_spec printable 224 32); [vm_compute; reflexivity | lia].
Qed.

Lemma tochar_small x : 0 <= x < 224 -> tochar x = x + 32.
Proof. intros Hx. unfold tochar, K_SPACE. change 0xff with (Z.ones 8). rewrite Z.land_ones by lia. apply Z.mod_small. lia. Qed.

Lemma untochar_tochar x : 0 <= x < 224 -> untochar (tochar x) = x.
Proof. intros Hx. rewrite tochar_small by lia. unfold untochar, K_SPACE. change 0xff with (Z.ones 8). rewrite Z.land_ones by lia. rewrite Z.mod_small; lia. Qed.

Lemma tochar_printable x : 0 <= x < 224 -> printable (tochar x) = true.
Proof. intros Hx. rewrite tochar_small by lia. apply printable_range. lia. Qed.

Lemma block_check_range s : 0 <= block_check s < 64.
Proof. unfold block_check. change 0x3f with (Z.ones 6). rewrite Z.land_ones by lia. by apply Z.mod_pos_bound. Qed.

Lemma check_printable s : printable (tochar (block_check s)) = true.
Proof. pose proof (block_check_range s). apply tochar_printable. lia. Qed.

Lemma parse_rest_all l : forall sum x, Forall (fun c => printable c = true) l ->
  parse_rest (length l) sum (l ++ x) = Some (l, Some (foldl Z.add sum l), x).
Proof.
  induction l as [| c l IH]; intros sum x Hl; [done |]. apply Forall_cons in Hl as [Hc Hl]. cbn [length parse_rest app foldl].
  by rewrite Hc, IH.
Qed.

Lemma parse_body_all n type l len sum x : Forall (fun c => printable c = true) l -> len - 1 = zlen l ->
  parse_body n type len sum (l ++ tochar (block_check (foldl Z.add sum l)) :: END_CHAR :: x) = Some (Received (Some n) (Some type) l true, x).
Proof.
  intros Hl Hlen. unfold parse_body. rewrite Hlen, Nat2Z.id, parse_rest_all by done. cbn [mbind option_bind parse_check].
  by rewrite check_printable, Z.eqb_refl.
Qed.

Lemma packet_body_parse n type l x : 0 <= n < 64 -> printable type = true -> Forall (fun c => printable c = true) l -> zlen l <= max_packet ->
  parse (packet_body n type l ++ x) = Some (Received (Some n) (Some type) l true, x).
Proof.
  unfold max_packet. intros Hn Ht Hl Hlen. unfold packet_body, checked. destruct (Z.leb_spec (zlen l) 91) as [Hs | Hs].
  - cbn [app]. rewrite <- !app_assoc. cbn [app]. unfold parse, expect. rewrite !tochar_printable, Ht by lia. cbv zeta. rewrite !untochar_tochar by lia.
    rewrite (proj2 (Z.eqb_neq _ (-2))) by lia. apply parse_body_all; [done | lia].
  - pose proof (Z.div_mod (zlen l + 1) 95 ltac:(lia)). pose proof (Z.mod_pos_bound (zlen l + 1) 95 ltac:(lia)).
    assert (0 <= (zlen l + 1) / 95 < 95) by (split; [apply Z.div_pos; lia | apply Z.div_lt_upper_bound; lia]).
    cbn [app]. rewrite <- !app_assoc. cbn [app]. unfold parse, expect. rewrite !tochar_printable, Ht by lia. cbv zeta. rewrite !untochar_tochar by lia.
    change (0 - 2 =? -2) with true. cbv beta iota. rewrite !tochar_printable, check_printable, !untochar_tochar by lia. unfold char_sum. cbn [foldl]. rewrite !Z.add_0_l, Z.eqb_refl.
    apply parse_body_all; [done | lia].
Qed.

(** ** The data of a packet *)

(** What the characters stand for, and whether the last one was a quote. *)
Fixpoint decode (quote : Z) (esc : bool) (l : list Z) : list Z * bool :=
  match l with
  | [] => ([], esc)
  | c :: l =>
      if esc then let '(d, e) := decode quote false l in (u8 (ktrans c) :: d, e)
      else if c =? quote then decode quote true l
      else let '(d, e) := decode quote false l in (u8 c :: d, e)
  end.

Lemma decode_app q l1 l2 : forall esc, decode q esc (l1 ++ l2) =
  let '(d1, e1) := decode q esc l1 in let '(d2, e2) := decode q e1 l2 in (d1 ++ d2, e2).
Proof.
  induction l1 as [| c l1 IH]; intros esc; cbn [app decode]; [by destruct (decode q esc l2) |].
  destruct esc; [| destruct (c =? q)]; rewrite IH; destruct (decode q _ l1) as [d1 e1]; by destruct (decode q e1 l2).
Qed.

Lemma decode_length q l : forall esc, (length (decode q esc l).1 <= length l)%nat.
Proof.
  induction l as [| c l IH]; intros esc; cbn [decode length]; [done |].
  destruct esc; [| destruct (c =? q)].
  - specialize (IH false). destruct (decode q false l). cbn in *. lia.
  - specialize (IH true). destruct (decode q true l). cbn in *. lia.
  - specialize (IH false). destruct (decode q false l). cbn in *. lia.
Qed.

(** The quote character that a packet of parameters announces. *)
Definition sender_quote (l : list Z) : Z := if 6 <=? zlen l then default 0 (l !! 5%nat) else K_ESCAPE.

Lemma take_send l : forall k, k_state k = SEND_TYPE -> length (send_parms k) = 20%nat -> 0 <= send_ptr k < 20 ->
  exists p i, take_chars l k = Some (set_send p i k) /\ length p = 20%nat /\ i = Z.min 19 (send_ptr k + zlen l) /\
    (forall j, (j < 19)%nat -> Z.of_nat j < send_ptr k -> p !! j = send_parms k !! j) /\
    (forall j, (j < 19)%nat -> send_ptr k <= Z.of_nat j < send_ptr k + zlen l -> p !! j = l !! (j - Z.to_nat (send_ptr k))%nat).
Proof.
  induction l as [| c l IH]; intros k Hk Hlen Hptr; cbn [length].
  { exists (send_parms k), (send_ptr k). cbn [take_chars]. split; [by destruct k |]. split; [done |]. split; [lia |]. split; [done | intros; lia]. }
  cbn [take_chars]. unfold take_char. rewrite Hk. change (SEND_TYPE =? DATA_TYPE) with false. change (SEND_TYPE =? SEND_TYPE) with true. cbn iota.
  unfold SEND_DATA_SIZE. rewrite (proj2 (Z.leb_gt 20 (send_ptr k))) by lia. cbv zeta. cbn [mbind option_bind].
  set (i := if 20 <=? send_ptr k + 1 then send_ptr k + 1 - 1 else send_ptr k + 1).
  assert (i = Z.min 19 (send_ptr k + 1)) as Hi by (unfold i; destruct (Z.leb_spec 20 (send_ptr k + 1)); lia). clearbody i.
  set (p1 := <[Z.to_nat (send_ptr k) := c]> (send_parms k)).
  destruct (IH (set_send p1 i k)) as (p & j & He & Hp & Hj & H1 & H2); [done | by unfold p1; cbn; rewrite length_insert | cbn; lia |].
  cbn [set_send send_ptr send_parms] in Hj, H1, H2. exists p, j. split; [by rewrite He |]. split; [done |]. split; [lia |].
  split; intros x Hx Hr.
  - rewrite H1 by lia. unfold p1. apply list_lookup_insert_ne. lia.
  - destruct (decide (Z.of_nat x = send_ptr k)) as [Hxe |].
    + rewrite H1 by lia. unfold p1. replace x with (Z.to_nat (send_ptr k)) by lia. rewrite list_lookup_insert_eq by lia.
      by rewrite Nat.sub_diag.
    + rewrite H2 by lia. replace (x - Z.to_nat (send_ptr k))%nat with (S (x - Z.to_nat i)) by lia. done.
Qed.

Lemma take_other l : forall k, k_state k <> DATA_TYPE -> k_state k <> SEND_TYPE -> take_chars l k = Some k.
Proof.
  induction l as [| c l IH]; intros k H1 H2; [done |]. cbn [take_chars]. unfold take_char.
  rewrite (proj2 (Z.eqb_neq _ _) H1), (proj2 (Z.eqb_neq _ _) H2). by apply IH.
Qed.

(** ** Sessions *)

(** What comes between packets. *)
Definition quiet (noise : list Z) : Prop := Forall (fun c => c <> START_CHAR /\ c <> ETX_CHAR) noise.

Definition good_packet (n type : Z) (l : list Z) : Prop :=
  0 <= n < 64 /\ 32 <= type < 256 /\ Forall (fun c => 32 <= c < 256) l /\ zlen l <= max_packet.

(** What the receiver hears while the sender tries to get the packet of the number
    [n] acknowledged; [seen] when the receiver knows the number from an earlier
    try.  The last try is right; before it there can be the same packet, whose
    acknowledgement was lost, and packets that are damaged behind their number, and,
    once the number is known, in their length or number. *)
Inductive tries (n type : Z) (l : list Z) : bool -> list Z -> Prop :=
  | tries_last seen noise : quiet noise -> tries n type l seen (noise ++ START_CHAR :: packet_body n type l)
  | tries_again seen noise t : quiet noise -> tries n type l true t ->
      tries n type l seen (noise ++ START_CHAR :: packet_body n type l ++ t)
  | tries_damaged seen noise body type' l' t : quiet noise -> parse body = Some (Received (Some n) type' l' false, []) ->
      tries n type l true t -> tries n type l seen (noise ++ START_CHAR :: body ++ t)
  | tries_headless noise body t : quiet noise -> parse body = Some (Received None None [] false, []) ->
      tries n type l true t -> tries n type l true (noise ++ START_CHAR :: body ++ t).

(** The packets of a file, numbered from [i] modulo 64. *)
Inductive session : nat -> list (Z * list Z) -> list Z -> Prop :=
  | session_end i : session i [] []
  | session_packet i type l ps t ts : good_packet (Z.of_nat i mod 64) type l -> tries (Z.of_nat i mod 64) type l false t ->
      session (S i) ps ts -> session i ((type, l) :: ps) (t ++ ts).

(** The characters of the data packets. *)
Definition data_chars (ps : list (Z * list Z)) : list Z := flat_map (fun p => if p.1 =? DATA_TYPE then p.2 else []) ps.

Lemma wait_start_quiet noise r : quiet noise -> wait_start (noise ++ START_CHAR :: r) = Some (Some r).
Proof.
  induction 1 as [| c noise [H1 H2] _ IH]; [done |]. cbn [app wait_start]. by rewrite !(proj2 (Z.eqb_neq c _)) by done.
Qed.

Lemma k_recv_loop_hears f start noise body r rest k : quiet noise -> parse body = Some (r, []) ->
  k_recv_loop (S f) start (noise ++ START_CHAR :: body ++ rest) k =
    (k2 ← arrive r (set_send (send_parms k) 0 k);
     let '(done, k3) := answer (outcome (r_ok r)) k2 in
     if done : bool then Some (u32 (os_data_addr (k_data k3) - start), k3) else k_recv_loop f start rest k3).
Proof.
  intros Hn Hp. cbn [k_recv_loop]. rewrite wait_start_quiet by done. cbn [mbind option_bind]. rewrite packet_parse, (parse_app _ _ _ rest Hp).
  cbn [app mbind option_bind]. by destruct (arrive r _) as [k2 |].
Qed.

Lemma quote_steps k i : his_quote (foldl (fun h s => s.2 h) default_params (take i (send_steps k))) = if decide (6 <= i)%nat then parm k 5 else K_ESCAPE.
Proof. do 10 (destruct i as [| i]; [reflexivity |]). rewrite take_ge by (cbn; lia). case_decide; [reflexivity | lia]. Qed.

Section Session.
Context (start size : Z) (m0 : mem) (Hstart : 0 <= start) (Hsize : start + size < 2 ^ 32).

(** The memory: [l] is stored from the start on, the room can be written, and
    nothing outside of it has changed. *)
Definition holds (l : list Z) (m : mem) : Prop :=
  bytes_at m start l /\ mapped m start size /\ forall a, ~ (start <= a < start + size) -> m !! a = m0 !! a.

(** The variables behind the bytes [l]. *)
Definition behind (l : list Z) (esc : bool) : data_state := DataState esc 0 (start + zlen l).

Lemma holds_prefix l1 l2 m : holds (l1 ++ l2) m -> holds l1 m.
Proof. intros (H1 & H2 & H3). rewrite bytes_at_app in H1. unfold holds. tauto. Qed.

Lemma bin_data_char_spec l esc c m : holds l m -> zlen l < size ->
  exists m', bin_data_char c (behind l esc) m = Some (behind (l ++ [u8 c]) esc, m') /\ holds (l ++ [u8 c]) m'.
Proof.
  intros (H1 & H2 & H3) Hl. unfold bin_data_char, behind. cbn [os_data_state os_data_addr k_data_escape]. change (0 =? 0) with true. cbn iota.
  unfold store. destruct (H2 (start + zlen l)) as [x ->]; [lia |]. cbn [mbind option_bind]. eexists. split.
  - assert (u32 (start + zlen l + 1) = start + zlen (l ++ [u8 c])) as ->; [| done]. rewrite wrap_small, length_app by lia. cbn [length]. lia.
  - unfold holds. rewrite bytes_at_app. split; [split |split].
    + apply bytes_at_insert; [done | lia].
    + cbn [bytes_at]. rewrite lookup_insert_eq. split; [done |]. split; [| done]. by apply (wrap_range 8).
    + by apply mapped_insert.
    + intros a Ha. rewrite lookup_insert_ne by lia. by apply H3.
Qed.

Lemma take_data l : forall k done esc, k_state k = DATA_TYPE -> k_data k = behind done esc -> holds done (k_mem k) ->
  zlen done + zlen l <= size ->
  let '(d, e) := decode (his_quote (his k)) esc l in
  exists m, take_chars l k = Some (set_data (behind (done ++ d) e) m k) /\ holds (done ++ d) m.
Proof.
  induction l as [| c l IH]; intros k done esc Hk Hd Hm Hl; cbn [decode length] in *.
  { rewrite app_nil_r. exists (k_mem k). split; [| done]. cbn [take_chars]. rewrite <- Hd. by destruct k. }
  assert (forall done' esc' m', holds done' m' -> zlen done' + zlen l <= size ->
    let '(d, e) := decode (his_quote (his k)) esc' l in
    exists m, take_chars l (set_data (behind done' esc') m' k) = Some (set_data (behind (done' ++ d) e) m k) /\ holds (done' ++ d) m) as Hnext.
  { intros done' esc' m' Hm' Hl'. specialize (IH (set_data (behind done' esc') m' k) done' esc' Hk eq_refl Hm' Hl').
    change (his (set_data _ m' k)) with (his k) in IH. by destruct (decode (his_quote (his k)) esc' l) as [d e]. }
  assert (forall c, zlen (done ++ [u8 c]) = zlen done + 1) as Hlen by (intros; rewrite length_app; cbn [length]; lia).
  cbn [take_chars]. unfold take_char. rewrite Hk. change (DATA_TYPE =? DATA_TYPE) with true. cbn iota. unfold k_data_char. rewrite Hd.
  change (k_data_escape (behind done esc)) with esc. destruct esc; [| destruct (c =? his_quote (his k))].
  - destruct (bin_data_char_spec done true (ktrans c) (k_mem k) Hm) as (m' & -> & Hm'); [lia |]. cbn [mbind option_bind].
    change (set_escape false (behind ?l true)) with (behind l false). pose proof (Hnext _ false m' Hm') as H.
    destruct (decode (his_quote (his k)) false l) as [d e]. rewrite (cons_middle (u8 (ktrans c)) done d), app_assoc. apply H. rewrite Hlen. lia.
  - cbn [mbind option_bind]. change (set_escape true (behind done false)) with (behind done true). apply Hnext; [done | lia].
  - destruct (bin_data_char_spec done false c (k_mem k) Hm) as (m' & -> & Hm'); [lia |]. cbn [mbind option_bind].
    pose proof (Hnext _ false m' Hm') as H. destruct (decode (his_quote (his k)) false l) as [d e].
    rewrite (cons_middle (u8 c) done d), app_assoc. apply H. rewrite Hlen. lia.
Qed.

(** In the middle of the packet [n], and before it: [l] are the bytes of the packets
    before. *)
Definition pending (n : Z) (l : list Z) (esc : bool) (k : kermit) : Prop :=
  holds l (k_mem k) /\ length (send_parms k) = 20%nat /\ last_n k = n /\ k_data_saved k = behind l esc.
Definition before (n : Z) (l : list Z) (esc : bool) (k : kermit) : Prop :=
  holds l (k_mem k) /\ length (send_parms k) = 20%nat /\ last_n k <> n /\ k_data k = behind l esc.
Definition at_packet (seen : bool) : Z -> list Z -> bool -> kermit -> Prop := if seen then pending else before.

Lemma begin_spec seen n l esc k : at_packet seen n l esc k -> exists k1, new_sequence (set_n n k) = k1 /\
  pending n l esc k1 /\ k_data k1 = behind l esc /\ his k1 = his k /\ send_ptr k1 = send_ptr k /\ seq k1 = n.
Proof.
  intros H. eexists. split; [reflexivity |]. unfold new_sequence. change (seq (set_n n k)) with n. change (last_n (set_n n k)) with (last_n k).
  destruct seen; destruct H as (H1 & H2 & H3 & H4).
  - rewrite H3, Z.eqb_refl. unfold restore, pending. cbn. tauto.
  - rewrite (proj2 (Z.eqb_neq n _)) by congruence. unfold checkpoint, pending. cbn. tauto.
Qed.

Lemma arrive_spec seen n l esc k r : at_packet seen n l esc k -> r_seq r = Some n -> send_ptr k = 0 -> zlen l + zlen (r_data r) <= size ->
  exists k', arrive r k = Some k' /\ pending n l esc k' /\ his k' = his k /\
    forall ty, r_type r = Some ty -> k_state k' = ty /\ seq k' = n /\
      (ty = DATA_TYPE -> let '(d, e) := decode (his_quote (his k)) esc (r_data r) in k_data k' = behind (l ++ d) e /\ holds (l ++ d) (k_mem k')) /\
      (ty <> DATA_TYPE -> k_data k' = behind l esc) /\
      (ty = SEND_TYPE -> send_ptr k' = Z.min 19 (zlen (r_data r)) /\ (6 <= zlen (r_data r) -> send_parms k' !! 5%nat = r_data r !! 5%nat)).
Proof.
  intros H Hn Hptr Hlen. unfold arrive. rewrite Hn. destruct (begin_spec _ _ _ _ _ H) as (k1 & -> & Hp & Hd & Hh & Hs & Hq).
  destruct Hp as (P1 & P2 & P3 & P4).
  set (k2 := match r_type r with Some t => set_state t k1 | None => k1 end).
  assert (pending n l esc k2 /\ k_data k2 = behind l esc /\ his k2 = his k /\ send_ptr k2 = 0 /\ seq k2 = n /\
    (forall ty, r_type r = Some ty -> k_state k2 = ty)) as (Hp & Hd2 & Hh2 & Hs2 & Hq2 & Ht).
  { unfold k2, pending. destruct (r_type r) as [t |]; cbn; (do 5 (split; [tauto || congruence |])); congruence. }
  clearbody k2. destruct Hp as (Q1 & Q2 & Q3 & Q4).
  destruct (decide (k_state k2 = DATA_TYPE)) as [HD | HD]; [| destruct (decide (k_state k2 = SEND_TYPE)) as [HS | HS]].
  - pose proof (take_data (r_data r) k2 l esc HD Hd2 Q1 Hlen) as Ht2. rewrite Hh2 in Ht2.
    destruct (decode (his_quote (his k)) esc (r_data r)) as [d e]. destruct Ht2 as (m & -> & Hm). eexists. split; [done |].
    split; [split; [by apply (holds_prefix l d) | done] |]. split; [done |]. intros ty Hty. specialize (Ht ty Hty).
    split; [by rewrite <- Ht |]. split; [done |]. split; [intros _; by split |]. split; [congruence |]. intros ->. by rewrite HD in Ht.
  - destruct (take_send (r_data r) k2) as (p & i & -> & H1 & H2 & H3 & H4); [done | done | lia |]. eexists. split; [done |].
    split; [done |]. split; [done |]. intros ty Hty. specialize (Ht ty Hty). rewrite Hs2 in *.
    split; [by rewrite <- Ht |]. split; [done |]. split; [congruence |]. split; [done |]. intros _. cbn [set_send send_ptr send_parms].
    split; [done |]. intros H6. by rewrite H4 by lia.
  - rewrite take_other by done. eexists. split; [done |]. split; [done |]. split; [done |]. intros ty Hty. specialize (Ht ty Hty).
    split; [done |]. split; [done |]. split; [congruence |]. split; [done | congruence].
Qed.

Lemma answer_bad n l esc k : pending n l esc k ->
  exists k', answer None k = (false, k') /\ pending n l esc k' /\ his k' = his k /\ k_data k' = behind l esc.
Proof. intros (H1 & H2 & H3 & H4). eexists. split; [reflexivity |]. unfold pending. by cbn. Qed.

Lemma answer_good n l esc k ty dat : pending n l esc k -> k_state k = ty ->
  (ty = SEND_TYPE -> send_ptr k = Z.min 19 (zlen dat) /\ (6 <= zlen dat -> send_parms k !! 5%nat = dat !! 5%nat)) ->
  exists k', answer (Some tt) k = (ty =? BREAK_TYPE, k') /\ pending n l esc k' /\ k_data k' = k_data k /\ k_mem k' = k_mem k /\
    his_quote (his k') = if ty =? SEND_TYPE then sender_quote dat else his_quote (his k).
Proof.
  intros (H1 & H2 & H3 & H4) Hty Hs. unfold answer. rewrite Hty. destruct (Z.eqb_spec ty SEND_TYPE) as [-> | Hne].
  - destruct (Hs eq_refl) as [Hptr H5]. eexists. split; [reflexivity |]. unfold handle_send_packet, s1_sendpacket, send_pad, put_text, set_his, set_send, pending.
    cbn [his k_data k_mem send_parms send_ptr last_n k_data_saved]. split; [done |]. split; [done |]. split; [done |]. rewrite quote_steps.
    unfold sender_quote, parm. cbn [send_parms]. unfold SEND_DATA_SIZE. rewrite Hptr.
    destruct (Z.leb_spec 6 (zlen dat)); case_decide as Hd; try done; [by rewrite H5 by lia | |]; exfalso; destruct (Z.eqb_spec (Z.min 19 (zlen dat)) (20 - 1)); lia.
  - eexists. split; [reflexivity |]. unfold send_ack, s1_sendpacket, send_pad, put_text, pending. by cbn.
Qed.

(** What a packet adds to the bytes [l], and the quote character behind it. *)
Definition added (q ty : Z) (esc : bool) (dat : list Z) : list Z * bool := if ty =? DATA_TYPE then decode q esc dat else ([], esc).

Definition delivered (n ty q : Z) (dat l : list Z) (esc : bool) (k : kermit) : Prop :=
  let '(d, e) := added q ty esc dat in
  pending n l esc k /\ k_data k = behind (l ++ d) e /\ holds (l ++ d) (k_mem k) /\
  his_quote (his k) = if ty =? SEND_TYPE then sender_quote dat else q.

Lemma pending_rewind n l esc k : pending n l esc k <-> pending n l esc (set_send (send_parms k) 0 k).
Proof. done. Qed.

Lemma at_packet_rewind seen n l esc k : at_packet seen n l esc k -> at_packet seen n l esc (set_send (send_parms k) 0 k).
Proof. by destruct seen. Qed.

Lemma hear_good seen n l esc k ty dat q noise : at_packet seen n l esc k -> ty = SEND_TYPE \/ his_quote (his k) = q ->
  good_packet n ty dat -> quiet noise -> zlen l + MAX_DATA <= size ->
  exists k', delivered n ty q dat l esc k' /\ forall f rest,
    k_recv_loop (S f) start (noise ++ START_CHAR :: packet_body n ty dat ++ rest) k =
      if ty =? BREAK_TYPE then Some (u32 (os_data_addr (k_data k') - start), k') else k_recv_loop f start rest k'.
Proof.
  intros Hat Hq (Hn & Hty & Hdat & Hmax) Hnoise Hlen.
  assert (parse (packet_body n ty dat) = Some (Received (Some n) (Some ty) dat true, [])) as Hp.
  { rewrite <- (app_nil_r (packet_body _ _ _)). apply packet_body_parse; [done | by apply printable_range | | done].
    apply (Forall_impl _ _ _ Hdat). intros c Hc. by apply printable_range. }
  destruct (arrive_spec _ _ _ _ _ (Received (Some n) (Some ty) dat true) (at_packet_rewind _ _ _ _ _ Hat)) as (k2 & Ha & Hpen & Hhis & Hmore);
    [done | done | unfold max_packet in Hmax; unfold MAX_DATA in Hlen; cbn [r_data]; lia |].
  destruct (Hmore ty eq_refl) as (Hst & _ & HD & HnD & HS). cbn [r_data] in *.
  destruct (answer_good _ _ _ _ ty dat Hpen Hst HS) as (k3 & Hans & Hpen3 & Hd3 & Hm3 & Hq3). exists k3. split.
  - unfold delivered, added. destruct (Z.eqb_spec ty DATA_TYPE) as [HtD | HtD].
    + destruct Hq as [-> | Hq]; [done |]. change (his (set_send (send_parms k) 0 k)) with (his k) in HD. rewrite Hq in HD. specialize (HD HtD).
      destruct (decode q esc dat) as [d e]. rewrite Hd3, Hm3, Hq3, Hhis. destruct HD. split; [done |]. split; [done |]. split; [done |]. by rewrite HtD.
    + rewrite app_nil_r, Hd3, Hm3, Hq3, Hhis. split; [done |]. split; [by apply HnD |]. split; [apply Hpen |].
      destruct (Z.eqb_spec ty SEND_TYPE); [done |]. by destruct Hq.
  - intros f rest. rewrite (k_recv_loop_hears _ _ _ _ _ _ _ Hnoise Hp), Ha. cbn [mbind option_bind r_ok outcome]. by rewrite Hans.
Qed.

Lemma hear_bad seen n l esc k noise body ty' l' : at_packet seen n l esc k -> quiet noise -> zlen l + MAX_DATA <= size ->
  parse body = Some (Received (Some n) ty' l' false, []) ->
  exists k', pending n l esc k' /\ his k' = his k /\ forall f rest,
    k_recv_loop (S f) start (noise ++ START_CHAR :: body ++ rest) k = k_recv_loop f start rest k'.
Proof.
  intros Hat Hnoise Hlen Hp. pose proof (parse_length _ _ _ Hp) as Hl'.
  destruct (arrive_spec _ _ _ _ _ (Received (Some n) ty' l' false) (at_packet_rewind _ _ _ _ _ Hat)) as (k2 & Ha & Hpen & Hhis & _);
    [done | done | lia |].
  destruct (answer_bad _ _ _ _ Hpen) as (k3 & Hans & Hpen3 & Hh3 & _). exists k3. split; [done |]. split; [by rewrite Hh3, Hhis |].
  intros f rest. rewrite (k_recv_loop_hears _ _ _ _ _ _ _ Hnoise Hp), Ha. cbn [mbind option_bind r_ok outcome]. by rewrite Hans.
Qed.

Lemma hear_headless n l esc k noise body : pending n l esc k -> quiet noise -> parse body = Some (Received None None [] false, []) ->
  exists k', pending n l esc k' /\ his k' = his k /\ k_data k' = behind l esc /\ forall f rest,
    k_recv_loop (S f) start (noise ++ START_CHAR :: body ++ rest) k = k_recv_loop f start rest k'.
Proof.
  intros Hpen Hnoise Hp. destruct (answer_bad n l esc (set_send (send_parms k) 0 k) Hpen) as (k3 & Hans & Hpen3 & Hh3 & Hd3).
  exists k3. split; [done |]. split; [done |]. split; [done |]. intros f rest. rewrite (k_recv_loop_hears _ _ _ _ _ _ _ Hnoise Hp).
  unfold arrive. cbn [r_seq r_type r_data r_ok take_chars mbind option_bind outcome]. by rewrite Hans.
Qed.

(** The characters [t] take the loop from the state [k] to [k2], or to its end there
    when they are those of the last packet. *)
Definition leads (ty : Z) (k : kermit) (t : list Z) (k2 : kermit) : Prop := forall f rest, exists g, (f <= g)%nat /\
  k_recv_loop (f + length t) start (t ++ rest) k =
    if ty =? BREAK_TYPE then Some (u32 (os_data_addr (k_data k2) - start), k2) else k_recv_loop g start rest k2.

Lemma leads_step ty k k' k2 noise body t :
  (forall f rest, k_recv_loop (S f) start (noise ++ START_CHAR :: body ++ rest) k = k_recv_loop f start rest k') ->
  leads ty k' t k2 -> leads ty k (noise ++ START_CHAR :: body ++ t) k2.
Proof.
  intros H H2 f rest. destruct (H2 (f + (length noise + length body))%nat rest) as (g & Hg & He). exists g. split; [lia |].
  rewrite !length_app. cbn [length]. rewrite !length_app, <- He, !Nat.add_succ_r, <- app_assoc. cbn [app]. rewrite <- app_assoc, H. f_equal. lia.
Qed.

Lemma leads_app ty ty2 k k1 k2 t1 t2 : ty <> BREAK_TYPE -> leads ty k t1 k1 -> leads ty2 k1 t2 k2 -> leads ty2 k (t1 ++ t2) k2.
Proof.
  intros Hty H1 H2 f rest. destruct (H1 (f + length t2)%nat (t2 ++ rest)) as (g1 & Hg1 & He1). rewrite (proj2 (Z.eqb_neq ty _) Hty) in He1.
  destruct (H2 (g1 - length t2)%nat rest) as (g2 & Hg2 & He2). exists g2. split; [lia |]. rewrite <- He2, length_app, <- app_assoc.
  replace (f + (length t1 + length t2))%nat with (f + length t2 + length t1)%nat by lia. rewrite He1. f_equal. lia.
Qed.

Lemma tries_spec n ty dat q seen t : tries n ty dat seen t -> good_packet n ty dat -> forall l esc k, at_packet seen n l esc k ->
  ty = SEND_TYPE \/ his_quote (his k) = q -> zlen l + MAX_DATA <= size ->
  exists k', delivered n ty q dat l esc k' /\ leads ty k t k'.
Proof.
  intros Ht Hgood. induction Ht as [seen noise Hn | seen noise t Hn Ht IH | seen noise body ty' l' t Hn Hp Ht IH | noise body t Hn Hp Ht IH];
    intros l esc k Hat Hq Hlen.
  - destruct (hear_good _ _ _ _ _ ty dat q noise Hat Hq Hgood Hn Hlen) as (k' & Hdel & H). exists k'. split; [done |].
    intros f rest. rewrite length_app. cbn [length]. exists (f + (length noise + length (packet_body n ty dat)))%nat. split; [lia |].
    rewrite !Nat.add_succ_r, <- app_assoc. cbn [app]. apply H.
  - destruct (hear_good _ _ _ _ _ ty dat q noise Hat Hq Hgood Hn Hlen) as (k' & Hdel & H).
    destruct (decide (ty = BREAK_TYPE)) as [Hb | Hb].
    + exists k'. split; [done |]. intros f rest. exists f. split; [done |]. rewrite length_app. cbn [length].
      rewrite !Nat.add_succ_r, <- app_assoc. cbn [app]. rewrite <- app_assoc, H. by rewrite Hb.
    + rewrite (proj2 (Z.eqb_neq ty _) Hb) in H. unfold delivered in Hdel. destruct (added q ty esc dat). destruct Hdel as (Hpen & _ & _ & Hquote).
      destruct (IH l esc k') as (k2 & Hdel2 & H2); [done | destruct (Z.eqb_spec ty SEND_TYPE); [by left | by right] | done |].
      exists k2. split; [done |]. by apply (leads_step _ _ k').
  - destruct (hear_bad _ _ _ _ _ noise body ty' l' Hat Hn Hlen Hp) as (k' & Hpen & Hhis & H).
    destruct (IH l esc k') as (k2 & Hdel2 & H2); [done | by rewrite Hhis | done |]. exists k2. split; [done |]. by apply (leads_step _ _ k').
  - destruct (hear_headless _ _ _ _ noise body Hat Hn Hp) as (k' & Hpen & Hhis & _ & H).
    destruct (IH l esc k') as (k2 & Hdel2 & H2); [done | by rewrite Hhis | done |]. exists k2. split; [done |]. by apply (leads_step _ _ k').
Qed.

(** From a packet to the next one. *)
Lemma delivered_next i ty q dat l esc k : delivered (Z.of_nat i mod 64) ty q dat l esc k ->
  let '(d, e) := added q ty esc dat in before (Z.of_nat (S i) mod 64) (l ++ d) e k.
Proof.
  unfold delivered, before. destruct (added q ty esc dat) as [d e]. intros ((_ & H2 & H3 & _) & H5 & H6 & _). split; [done |]. split; [done |].
  split; [| done]. rewrite H3. Z.to_euclidean_division_equations; lia.
Qed.

Lemma session_spec i ps t q : session i ps t -> Forall (fun p => p.1 <> SEND_TYPE /\ p.1 <> BREAK_TYPE) ps ->
  forall l esc k, before (Z.of_nat i mod 64) l esc k -> his_quote (his k) = q ->
  zlen l + zlen (data_chars ps) + MAX_DATA <= size ->
  let '(d, e) := decode q esc (data_chars ps) in
  exists k', before (Z.of_nat (i + length ps) mod 64) (l ++ d) e k' /\ his_quote (his k') = q /\ leads 0 k t k'.
Proof.
  induction 1 as [i | i ty dat ps t ts Hgood Ht _ IH]; intros Hps l esc k Hk Hq Hlen.
  - cbn. exists k. rewrite app_nil_r, Nat.add_0_r. split; [done |]. split; [done |]. intros f rest. exists f. cbn. by rewrite Nat.add_0_r.
  - apply Forall_cons in Hps as [[H1 H2] Hps]. cbn [fst] in H1, H2.
    assert (data_chars ((ty, dat) :: ps) = (if ty =? DATA_TYPE then dat else []) ++ data_chars ps) as Hdc by done.
    rewrite Hdc, length_app in Hlen. destruct (tries_spec _ _ _ q _ _ Ht Hgood l esc k Hk) as (k1 & Hdel & Hl1); [by right | lia |].
    pose proof (delivered_next _ _ _ _ _ _ _ Hdel) as Hnext. rewrite Hdc, decode_app.
    assert (decode q esc (if ty =? DATA_TYPE then dat else []) = added q ty esc dat) as Hadd by (unfold added; by destruct (ty =? DATA_TYPE)).
    pose proof (decode_length q (if ty =? DATA_TYPE then dat else []) esc) as Hdl. rewrite Hadd in Hdl |- *.
    unfold delivered in Hdel. destruct (added q ty esc dat) as [d1 e1]. destruct Hdel as (_ & _ & _ & Hquote). cbn [fst] in Hdl.
    rewrite (proj2 (Z.eqb_neq ty SEND_TYPE) H1) in Hquote.
    specialize (IH Hps (l ++ d1) e1 k1 Hnext Hquote). rewrite length_app in IH. specialize (IH ltac:(lia)).
    destruct (decode q e1 (data_chars ps)) as [d2 e2]. destruct IH as (k2 & Hb2 & Hq2 & Hl2). exists k2. rewrite app_assoc. split; [| split; [done |]].
    + cbn [length]. by rewrite Nat.add_succ_r.
    + by apply (leads_app ty _ _ k1).
Qed.
End Session.

(** ** The command *)

(** What a sender makes of a byte. *)
Definition quoted (q b : Z) : list Z :=
  if (Z.land b 0x7f <? 32) || (Z.land b 0x7f =? 127) then [q; Z.lxor b 0x40] else if b =? q then [q; q] else [b].

(** A quote character stands for itself when it is quoted. *)
Definition good_quote (q : Z) : Prop := is_byte q /\ ktrans q = q /\ 32 <= Z.land q 0x7f < 127.

Lemma decode_quoted q l : good_quote q -> is_bytes l -> decode q false (flat_map (quoted q) l) = (l, false).
Proof.
  intros (Hq & Hkq & Hq32). induction 1 as [| b l Hb _ IH]; [done |]. cbn [flat_map]. rewrite decode_app.
  assert (decode q false (quoted q b) = ([b], false)) as ->; [| by rewrite IH].
  set (ok := fun b => if (Z.land b 0x7f <? 32) || (Z.land b 0x7f =? 127) then u8 (ktrans (Z.lxor b 0x40)) =? b else u8 b =? b).
  assert (ok b = true) as Hok by (apply (all_from_spec ok 256 0); [vm_compute; reflexivity | unfold is_byte in Hb; lia]).
  unfold ok in Hok. unfold quoted. destruct (_ || _) eqn:Hctl; apply Z.eqb_eq in Hok.
  - cbn [decode]. by rewrite Z.eqb_refl, Hok.
  - destruct (Z.eqb_spec b q) as [-> | Hne]; cbn [decode]; [by rewrite Z.eqb_refl, Hkq, Hok |].
    by rewrite (proj2 (Z.eqb_neq b q) Hne), Hok.
Qed.

#[local] Opaque number.
Lemma format_X v : vsnprintf_text (str "%X") [A32 v] = t ← number (u32 v) 16 (-1) (-1) 0; Some (t, []).
Proof. apply (format_one [88]). reflexivity. Qed.
#[local] Transparent number.

Lemma print_X v : is_u32 v -> exists t, vsprintf (str "%X") [A32 v] = Some (t ++ [0], zlen t) /\ simple_strtoul t 16 = (v, []).
Proof.
  unfold is_u32. intros Hv. unfold vsprintf. rewrite format_X, (wrap_small 32 v), (number_plain v 16 0) by (try lia; unfold base_ok; auto).
  cbn [mbind option_bind]. eexists. split; [done |]. apply strtoul_digits; [lia | lia | by left].
Qed.

Lemma session_app ps1 : forall i ps2 t, session i (ps1 ++ ps2) t -> exists t1 t2, t = t1 ++ t2 /\ session i ps1 t1 /\ session (i + length ps1) ps2 t2.
Proof.
  induction ps1 as [| p ps1 IH]; intros i ps2 t H; cbn [app length] in *.
  - exists [], t. rewrite Nat.add_0_r. by repeat constructor.
  - inversion H as [| ? ty l ? t1 ts Hg Ht Hs]; subst. destruct (IH _ _ _ Hs) as (t2 & t3 & -> & H2 & H3).
    exists (t1 ++ t2), t3. rewrite <- app_assoc, Nat.add_succ_r. split; [done |]. split; [by constructor | done].
Qed.

Lemma session_one i ty l t : session i [(ty, l)] t -> good_packet (Z.of_nat i mod 64) ty l /\ tries (Z.of_nat i mod 64) ty l false t.
Proof. intros H. inversion H as [| ? ? ? ? t1 ts Hg Ht Hs]; subst. inversion Hs; subst. by rewrite app_nil_r. Qed.

Lemma quoted_length q l : good_quote q -> is_bytes l -> zlen l <= zlen (flat_map (quoted q) l).
Proof.
  intros Hq Hl. pose proof (decode_length q (flat_map (quoted q) l) false) as H. rewrite decode_quoted in H by done. cbn in H. lia.
Qed.

Section Ends.
Context (start size : Z) (Hstart : 0 <= start) (Hsize : start + size < 2 ^ 32).

Lemma first_packet k sp t : good_packet 0 SEND_TYPE sp -> tries 0 SEND_TYPE sp false t -> MAX_DATA <= size ->
  mapped (k_mem k) start size -> length (send_parms k) = 20%nat ->
  exists k1, before start size (k_mem k) 1 [] false k1 /\ his_quote (his k1) = sender_quote sp /\ leads start SEND_TYPE (k_recv_init start k) t k1.
Proof.
  intros Hg Ht Hmax Hm Hlen.
  assert (at_packet start size (k_mem k) false 0 [] false (k_recv_init start k)) as Hk0.
  { unfold at_packet, before, holds, behind. cbn. by rewrite Z.add_0_r. }
  destruct (tries_spec start size (k_mem k) Hstart Hsize 0 SEND_TYPE sp 0 false t Ht Hg [] false _ Hk0) as (k1 & Hd & Hl); [by left | done |].
  exists k1. split; [| split; [| done]].
  - exact (delivered_next start size (k_mem k) 0 _ _ _ _ _ _ Hd).
  - by destruct Hd as (_ & _ & _ & Hd).
Qed.

Lemma last_packet m0 q n bd t l esc k : good_packet n BREAK_TYPE bd -> tries n BREAK_TYPE bd false t -> before start size m0 n l esc k ->
  his_quote (his k) = q -> zlen l + MAX_DATA <= size ->
  exists k3, k_data k3 = behind start l esc /\ holds start size m0 l (k_mem k3) /\ leads start BREAK_TYPE k t k3.
Proof.
  intros Hg Ht Hb Hq Hlen. destruct (tries_spec start size m0 Hstart Hsize n BREAK_TYPE bd q false t Ht Hg l esc k Hb) as (k3 & Hd & Hl); [by right | done |].
  unfold delivered, added in Hd. change (BREAK_TYPE =? DATA_TYPE) with false in Hd. cbn iota in Hd. rewrite app_nil_r in Hd.
  destruct Hd as (_ & H1 & H2 & _). by exists k3.
Qed.
End Ends.

Lemma command_spec k loadaddr ta t rest k3 l esc : let start := (simple_strtoul ta 16).1 in
  leads start BREAK_TYPE (k_recv_init start k) t k3 -> k_data k3 = behind start l esc -> start + zlen l < 2 ^ 32 -> start < 2 ^ 32 - 1 ->
  exists fs, do_load_serial_bin loadaddr [str "loadb"; ta] (t ++ rest) k = Some (0, start, fs, k3) /\ simple_strtoul fs 16 = (zlen l, []).
Proof.
  intros start Hl Hd Hend Hmax. pose proof (strtoul_range ta 16) as [Hstart _]. fold start in Hstart.
  destruct (print_X (u32 (os_data_addr (k_data k3) - start))) as (fs & Hfs & Hfs2); [by apply wrap_range |]. exists fs. split.
  - unfold do_load_serial_bin. fold start. unfold load_serial_bin, k_recv.
    destruct (Hl (S (length rest)) rest) as (g & _ & He). change (BREAK_TYPE =? BREAK_TYPE) with true in He. cbn iota in He.
    rewrite length_app. replace (S (length t + length rest))%nat with (S (length rest) + length t)%nat by lia. rewrite He.
    cbn [mbind option_bind]. rewrite Hfs. cbn [mbind option_bind]. rewrite removelast_last.
    change (u32 (-1)) with (2 ^ 32 - 1). by rewrite (proj2 (Z.eqb_neq start _)) by lia.
  - rewrite Hfs2, Hd. unfold behind. cbn [os_data_addr]. rewrite wrap_small by lia. f_equal. lia.
Qed.

(** C7: "loadb" receives a file over a line that damages and repeats packets: when
    every packet arrives in the end, and the damage to its first try spares its
    length and its number, the bytes of the file lie in memory from the address of the command on, in
    order and once each; "filesize" reads back as their number; no memory outside
    the room, which is as large as the file and one packet, is changed; the
    command succeeds. *)
Theorem kermit_receives k loadaddr ta sp ps bd image t rest size : let q := sender_quote sp in let start := (simple_strtoul ta 16).1 in
  session 0 ((SEND_TYPE, sp) :: ps ++ [(BREAK_TYPE, bd)]) t ->
  Forall (fun p => p.1 <> SEND_TYPE /\ p.1 <> BREAK_TYPE) ps -> good_quote q -> is_bytes image ->
  data_chars ps = flat_map (quoted q) image -> zlen (data_chars ps) + MAX_DATA <= size -> start + size < 2 ^ 32 ->
  mapped (k_mem k) start size -> length (send_parms k) = 20%nat ->
  exists fs k', do_load_serial_bin loadaddr [str "loadb"; ta] (t ++ rest) k = Some (0, start, fs, k') /\
    simple_strtoul fs 16 = (zlen image, []) /\ bytes_at (k_mem k') start image /\
    forall a, ~ (start <= a < start + size) -> k_mem k' !! a = k_mem k !! a.
Proof.
  intros q start Hs Hps Hq Hb Hdata Hsize Hend Hm Hlen. pose proof (strtoul_range ta 16) as Hr. fold start in Hr. destruct Hr as [Hstart _].
  apply (session_app [(SEND_TYPE, sp)] 0) in Hs as (t1 & t' & -> & Hs1 & Hs2). apply session_app in Hs2 as (t2 & t3 & -> & Hs2 & Hs3).
  apply session_one in Hs1 as [Hg1 Ht1], Hs3 as [Hg3 Ht3]. cbn [length] in *.
  destruct (first_packet start size Hstart Hend k sp t1 Hg1 Ht1) as (k1 & Hb1 & Hq1 & Hl1); [lia | done | done |].
  pose proof (session_spec start size (k_mem k) Hstart Hend 1 ps t2 q Hs2 Hps [] false k1 Hb1 Hq1) as Hmid. rewrite Hdata, decode_quoted in Hmid by done.
  destruct Hmid as (k2 & Hb2 & Hq2 & Hl2); [cbn [length]; rewrite <- Hdata; lia |]. cbn [app] in Hb2.
  assert (zlen image <= zlen (data_chars ps)) as Himg by (rewrite Hdata; by apply quoted_length).
  destruct (last_packet start size Hstart Hend (k_mem k) q _ bd t3 image false k2 Hg3 Ht3) as (k3 & Hd3 & (Hh1 & _ & Hh3) & Hl3); [done | done | lia |].
  destruct (command_spec k loadaddr ta (t1 ++ t2 ++ t3) rest k3 image false) as (fs & Hc & Hfs).
  - apply (leads_app _ SEND_TYPE _ _ k1); [done | done |]. by apply (leads_app _ 0 _ _ k2).
  - done.
  - fold start. unfold MAX_DATA in Hsize. lia.
  - fold start. unfold MAX_DATA in Hsize. lia.
  - by exists fs, k3.
Qed.

(** ** An example *)

Definition test_state : kermit :=
  Kermit default_params 0 0 (DataState false 0 0) (DataState false 0 0) (replicate 20 0) 0 0 0 (write_bytes ∅ 0x1000 (replicate 24500 0)) [].

(** The second try of the data packet is damaged, the third in its length; its
    first acknowledgement was lost. *)
Definition test_data : list Z :=
  [] ++ START_CHAR :: packet_body 1 DATA_TYPE (str "a#M") ++
  [] ++ START_CHAR :: [tochar 6; tochar 1; DATA_TYPE; 64; tochar 0; tochar 0; tochar 0] ++
  [13] ++ START_CHAR :: [10] ++
  [120] ++ START_CHAR :: packet_body 1 DATA_TYPE (str "a#M").

Definition test_session : list Z :=
  ([] ++ START_CHAR :: packet_body 0 SEND_TYPE (str "~* @-#N1")) ++ test_data ++ ([] ++ START_CHAR :: packet_body 2 BREAK_TYPE []) ++ [].

Lemma test_session_ok : session 0 [(SEND_TYPE, str "~* @-#N1"); (DATA_TYPE, str "a#M"); (BREAK_TYPE, [])] test_session.
Proof.
  assert (forall n type l, 0 <= n < 64 -> 32 <= type < 256 -> forallb (fun c => (32 <=? c) && (c <? 256)) l = true -> zlen l <= max_packet ->
    good_packet n type l) as Hgood.
  { intros n type l H1 H2 H3 H4. split; [done |]. split; [done |]. split; [| done]. apply Forall_forall. intros c Hc. rewrite forallb_forall in H3.
    specialize (H3 c ltac:(by apply list_elem_of_In)). lia. }
  unfold test_session. constructor; [by apply Hgood | by apply tries_last; constructor |].
  constructor; [by apply Hgood | | constructor; [by apply Hgood | by apply tries_last; constructor | constructor]].
  unfold test_data. apply tries_again; [by constructor |]. apply (tries_damaged _ _ _ _ _ _ (Some DATA_TYPE) [64; tochar 0; tochar 0]); [by constructor | by vm_compute |].
  apply tries_headless; [by repeat constructor | by vm_compute |]. apply tries_last. by repeat constructor.
Qed.

Lemma kermit_receives_witness : exists fs k', do_load_serial_bin None [str "loadb"; str "1000"] (test_session ++ []) test_state = Some (0, 0x1000, fs, k') /\
  simple_strtoul fs 16 = (2, []) /\ bytes_at (k_mem k') 0x1000 [97; 13] /\
  forall a, ~ (0x1000 <= a < 0x1000 + 24500) -> k_mem k' !! a = k_mem test_state !! a.
Proof.
  apply (kermit_receives test_state None (str "1000") (str "~* @-#N1") [(DATA_TYPE, str "a#M")] [] [97; 13] test_session [] 24500).
  - exact test_session_ok.
  - by repeat constructor.
  - by vm_compute.
  - by repeat constructor.
  - reflexivity.
  - by vm_compute.
  - by vm_compute.
  - change (mapped (k_mem test_state) 0x1000 24500). apply (bytes_at_mapped _ _ (replicate 24500 0)), bytes_at_write; [apply Forall_replicate; by split | done].
  - done.
Defined.

(** ** Losses *)

(** Damage of the length or the number of a new packet loses the packet before
    it: the receiver, which has not seen the number, restores the state before that
    packet, though it acknowledged it.  When the second of two data packets is
    damaged so and repeated, the file in memory has the bytes of the second packet
    only, from the start on, and the command reports success. *)
Theorem kermit_loses_packet k loadaddr ta sp l1 image2 noise body t1 t2 t3 t4 rest size :
  let q := sender_quote sp in let start := (simple_strtoul ta 16).1 in let l2 := flat_map (quoted q) image2 in
  good_packet 0 SEND_TYPE sp -> good_packet 1 DATA_TYPE l1 -> good_packet 2 DATA_TYPE l2 -> good_quote q -> is_bytes image2 ->
  tries 0 SEND_TYPE sp false t1 -> tries 1 DATA_TYPE l1 false t2 ->
  quiet noise -> parse body = Some (Received None None [] false, []) ->
  tries 2 DATA_TYPE l2 false t3 -> tries 3 BREAK_TYPE [] false t4 ->
  zlen l2 + MAX_DATA <= size -> start + size < 2 ^ 32 -> mapped (k_mem k) start size -> length (send_parms k) = 20%nat ->
  exists fs k', do_load_serial_bin loadaddr [str "loadb"; ta] ((t1 ++ t2 ++ noise ++ START_CHAR :: body ++ t3 ++ t4) ++ rest) k =
      Some (0, start, fs, k') /\
    simple_strtoul fs 16 = (zlen image2, []) /\ bytes_at (k_mem k') start image2.
Proof.
  intros q start l2 Hg1 Hg2 Hg3 Hq Hb Ht1 Ht2 Hn Hp Ht3 Ht4 Hsize Hend Hm Hlen.
  pose proof (strtoul_range ta 16) as [Hstart _]. fold start in Hstart. unfold l2 in *.
  pose proof (quoted_length q image2 Hq Hb) as Hql.
  destruct (first_packet start size Hstart Hend k sp t1 Hg1 Ht1) as (k1 & Hb1 & Hq1 & Hl1); [lia | done | done |].
  destruct (tries_spec start size (k_mem k) Hstart Hend _ _ _ q _ _ Ht2 Hg2 [] false k1 Hb1) as (k2 & Hd2 & Hl2); [by right | cbn [length]; lia |].
  unfold delivered, added in Hd2. change (DATA_TYPE =? DATA_TYPE) with true in Hd2. cbn iota in Hd2. destruct (decode q false l1) as [d e].
  destruct Hd2 as (Hpen & _ & _ & Hq2). change (DATA_TYPE =? SEND_TYPE) with false in Hq2. cbn iota in Hq2.
  destruct (hear_headless start size (k_mem k) 1 [] false k2 noise body Hpen Hn Hp) as (k3 & Hpen3 & Hhis3 & Hd3 & Hloop).
  assert (before start size (k_mem k) 2 [] false k3) as Hb3.
  { destruct Hpen3 as (P1 & P2 & P3 & P4). split; [done |]. split; [done |]. split; [by rewrite P3 | done]. }
  destruct (tries_spec start size (k_mem k) Hstart Hend _ _ _ q _ _ Ht3 Hg3 [] false k3 Hb3) as (k4 & Hd4 & Hl4); [right; by rewrite Hhis3 | cbn [length]; lia |].
  pose proof (delivered_next start size (k_mem k) 2 _ _ _ _ _ _ Hd4) as Hb4. unfold delivered, added in Hd4, Hb4.
  change (DATA_TYPE =? DATA_TYPE) with true in Hd4, Hb4. cbn iota in Hd4, Hb4. rewrite decode_quoted in Hd4, Hb4 by done. cbn [app] in Hd4, Hb4.
  destruct Hd4 as (_ & _ & _ & Hq4). change (DATA_TYPE =? SEND_TYPE) with false in Hq4. cbn iota in Hq4.
  assert (good_packet 3 BREAK_TYPE []) as Hg4 by (split; [lia |]; split; [unfold BREAK_TYPE; lia |]; by split; [constructor | vm_compute]).
  destruct (last_packet start size Hstart Hend (k_mem k) q 3 [] t4 image2 false k4 Hg4 Ht4 Hb4 Hq4) as (k5 & Hd5 & (Hh5 & _) & Hl5); [lia |].
  destruct (command_spec k loadaddr ta (t1 ++ t2 ++ noise ++ START_CHAR :: body ++ t3 ++ t4) rest k5 image2 false) as (fs & Hc & Hfs).
  - apply (leads_app _ SEND_TYPE _ _ k1); [done | done |]. apply (leads_app _ DATA_TYPE _ _ k2); [done | done |].
    apply (leads_step _ _ _ k3); [done |]. by apply (leads_app _ DATA_TYPE _ _ k4).
  - done.
  - fold start. unfold MAX_DATA in *. lia.
  - fold start. unfold MAX_DATA in *. lia.
  - by exists fs, k5.
Qed.

Lemma kermit_loses_packet_witness : exists fs k',
  do_load_serial_bin None [str "loadb"; str "1000"]
    ((([] ++ START_CHAR :: packet_body 0 SEND_TYPE (str "~* @-#N1")) ++ ([] ++ START_CHAR :: packet_body 1 DATA_TYPE (str "hello")) ++
      [] ++ START_CHAR :: [10] ++ ([] ++ START_CHAR :: packet_body 2 DATA_TYPE (str "world")) ++ ([] ++ START_CHAR :: packet_body 3 BREAK_TYPE [])) ++ [])
    test_state = Some (0, 0x1000, fs, k') /\
  simple_strtoul fs 16 = (5, []) /\ bytes_at (k_mem k') 0x1000 (str "world").
Proof.
  apply (kermit_loses_packet test_state None (str "1000") (str "~* @-#N1") (str "hello") (str "world") [] [10]) with (size := 24500).
  - split; [lia |]. split; [unfold SEND_TYPE; lia |]. split; [by repeat constructor | by vm_compute].
  - split; [lia |]. split; [unfold DATA_TYPE; lia |]. split; [by repeat constructor | by vm_compute].
  - split; [lia |]. split; [unfold DATA_TYPE; lia |]. split; [by repeat constructor | by vm_compute].
  - by vm_compute.
  - by repeat constructor.
  - by apply tries_last; constructor.
  - by apply tries_last; constructor.
  - by constructor.
  - by vm_compute.
  - by apply tries_last; constructor.
  - by apply tries_last; constructor.
  - by vm_compute.
  - by vm_compute.
  - change (mapped (k_mem test_state) 0x1000 24500). apply (bytes_at_mapped _ _ (replicate 24500 0)), bytes_at_write; [apply Forall_replicate; by split | done].
  - done.
Defined.

(** Control-C in place of a packet ends the transmission, and the command does
    not notice: it reports success, sets [load_addr], and "filesize" to 0, though
    data may lie in memory. *)
Theorem kermit_abort_unreported k loadaddr ta noise rest : quiet noise -> (simple_strtoul ta 16).1 <> 2 ^ 32 - 1 ->
  do_load_serial_bin loadaddr [str "loadb"; ta] (noise ++ ETX_CHAR :: rest) k =
    Some (0, (simple_strtoul ta 16).1, str "0", set_send (send_parms k) 0 (k_recv_init (simple_strtoul ta 16).1 k)).
Proof.
  intros Hn Hta. unfold do_load_serial_bin, load_serial_bin, k_recv. cbn [k_recv_loop].
  assert (wait_start (noise ++ ETX_CHAR :: rest) = Some None) as ->.
  { induction Hn as [| c noise [H1 H2] _ IH]; [done |]. cbn [app wait_start]. by rewrite !(proj2 (Z.eqb_neq c _)) by done. }
  cbn [mbind option_bind]. change (vsprintf (str "%X") [A32 0]) with (Some ([48; 0], 1)). cbn [mbind option_bind removelast].
  change (u32 (-1)) with (2 ^ 32 - 1). by rewrite (proj2 (Z.eqb_neq _ _) Hta).
Qed.

Lemma kermit_abort_unreported_witness :
  do_load_serial_bin None [str "loadb"; str "1000"] ([32] ++ ETX_CHAR :: []) test_state =
    Some (0, (simple_strtoul (str "1000") 16).1, str "0", set_send (send_parms test_state) 0 (k_recv_init (simple_strtoul (str "1000") 16).1 test_state)).
Proof. apply (kermit_abort_unreported test_state None (str "1000") [32] []); [by repeat constructor | by vm_compute]. Defined.
