(* ===== verification/Hush.v ===== *)
(** * The parser of the shell (common/hush.c)

    The board is configured for this shell (CONFIG_SYS_HUSH_PARSER).  The parser
    reads characters and builds lists of pipes, which HushRun executes.  A string of
    the shell is its characters, or nothing for a null pointer; the input is the
    characters that remain up to the terminator, or nothing when its pointer must
    not be followed (it is null, or behind the terminator).  [None] is an access
    through such a pointer or behind a terminator.  There is always memory. *)

From S2P Require Import Prelude Ctype StringLib Vsprintf.

(** ** Data *)

Inductive pipe_style := PIPE_NONE | PIPE_SEQ | PIPE_AND | PIPE_OR | PIPE_BG.

Inductive reserved_style :=
  RES_NONE | RES_IF | RES_THEN | RES_ELIF | RES_ELSE | RES_FI | RES_FOR | RES_WHILE | RES_UNTIL | RES_DO | RES_DONE | RES_XXXX | RES_IN | RES_SNTX.

#[global] Instance pipe_style_eq : EqDecision pipe_style.
Proof. solve_decision. Defined.
#[global] Instance reserved_style_eq : EqDecision reserved_style.
Proof. solve_decision. Defined.

Definition code (r : reserved_style) : Z :=
  match r with
  | RES_NONE => 0 | RES_IF => 1 | RES_THEN => 2 | RES_ELIF => 3 | RES_ELSE => 4 | RES_FI => 5 | RES_FOR => 6 | RES_WHILE => 7
  | RES_UNTIL => 8 | RES_DO => 9 | RES_DONE => 10 | RES_XXXX => 11 | RES_IN => 12 | RES_SNTX => 13
  end.
Definition FLAG (r : reserved_style) : Z := Z.shiftl 1 (code r).
Definition FLAG_END : Z := FLAG RES_NONE.
Definition FLAG_START : Z := FLAG RES_XXXX.

Definition FLAG_EXIT_FROM_LOOP : Z := 1.
Definition FLAG_PARSE_SEMICOLON : Z := 2.
Definition FLAG_REPARSING : Z := 4.
Definition has_flag (flags f : Z) : bool := negb (Z.land flags f =? 0).

Definition SPECIAL_VAR_SYMBOL : Z := 3.
Definition SUBSTED_VAR_SYMBOL : Z := 4.
Definition EOF : Z := -1.

(** A command has arguments or a group; a pipe has the commands that are counted
    by [num_progs]. *)
Inductive pipe := Pipe (progs : list child_prog) (followup : pipe_style) (r_mode : reserved_style)
with child_prog := Child (argv : option (list text)) (group : option (list pipe)) (sp : Z).

Definition progs (p : pipe) := let 'Pipe l _ _ := p in l.
Definition followup (p : pipe) := let 'Pipe _ f _ := p in f.
Definition r_mode (p : pipe) := let 'Pipe _ _ r := p in r.
Definition argv (c : child_prog) := let 'Child a _ _ := c in a.
Definition group (c : child_prog) := let 'Child _ g _ := c in g.
Definition sp (c : child_prog) := let 'Child _ _ s := c in s.

(** [head] are the pipes in front of the last one of the list, [cur] the commands
    counted in the last one, [child] the command that is not counted yet. *)
Inductive p_context := Context_ {
  child : option child_prog;
  head : list pipe;
  cur : list child_prog;
  w : reserved_style;
  old_flag : Z;
  stack : option p_context;
  type : Z
}.

Record o_string := OString { data : option text; quote : bool; nonnull : bool }.
Definition NULL_O_STRING : o_string := OString None false false.
Definition in_str := option text.

Definition list_head (ctx : p_context) : list pipe := head ctx ++ [Pipe (cur ctx) PIPE_NONE RES_NONE].

Definition set_child c (x : p_context) := Context_ c (head x) (cur x) (w x) (old_flag x) (stack x) (type x).
Definition set_pipes h c (x : p_context) := Context_ (child x) h c (w x) (old_flag x) (stack x) (type x).
Definition set_w r (x : p_context) := Context_ (child x) (head x) (cur x) r (old_flag x) (stack x) (type x).
Definition set_old_flag f (x : p_context) := Context_ (child x) (head x) (cur x) (w x) f (stack x) (type x).
Definition set_stack s (x : p_context) := Context_ (child x) (head x) (cur x) (w x) (old_flag x) s (type x).

(** ** Strings *)

Definition o_length (o : o_string) : Z := zlen (default [] (data o)).
Definition b_addchr (o : o_string) (ch : Z) : o_string := OString (Some (default [] (data o) ++ [u8 ch])) (quote o) (nonnull o).
Definition b_reset (o : o_string) : o_string := OString ((fun _ => []) <$> data o) (quote o) false.
Definition b_free (o : o_string) : o_string := OString None (quote o) false.
Definition b_addqchr (o : o_string) (ch : Z) (q : bool) : o_string :=
  b_addchr (if q && existsb (Z.eqb ch) (str "*?[\") then b_addchr o 92 else o) ch.

(** [static_get] moves behind the terminator, [static_peek] does not. *)
Definition b_getch (i : in_str) : option (Z * in_str) :=
  match i with None => None | Some [] => Some (EOF, None) | Some (c :: r) => Some (c, Some r) end.
Definition b_peek (i : in_str) : option Z :=
  match i with None => None | Some [] => Some 0 | Some (c :: _) => Some c end.

(** ** Commands and pipes *)

Definition new_child : child_prog := Child None None 0.

Definition done_command (ctx : p_context) : p_context :=
  match child ctx with
  | Some (Child None None _) => ctx
  | Some c => set_child (Some new_child) (set_pipes (head ctx) (cur ctx ++ [c]) ctx)
  | None => set_child (Some new_child) ctx
  end.

Definition done_pipe (ctx : p_context) (type : pipe_style) : p_context :=
  let ctx := done_command ctx in
  done_command (set_child None (set_pipes (head ctx ++ [Pipe (cur ctx) type (w ctx)]) [] ctx)).

Definition initialize_context (ctx : p_context) : p_context :=
  done_command (Context_ None [] [] RES_NONE 0 None (type ctx)).

(** ** Reserved words *)

Definition reserved_list : list (text * reserved_style * Z) :=
  [ (str "if", RES_IF, Z.lor (FLAG RES_THEN) FLAG_START);
    (str "then", RES_THEN, Z.lor (Z.lor (FLAG RES_ELIF) (FLAG RES_ELSE)) (FLAG RES_FI));
    (str "elif", RES_ELIF, FLAG RES_THEN);
    (str "else", RES_ELSE, FLAG RES_FI);
    (str "fi", RES_FI, FLAG_END);
    (str "for", RES_FOR, Z.lor (FLAG RES_IN) FLAG_START);
    (str "while", RES_WHILE, Z.lor (FLAG RES_DO) FLAG_START);
    (str "until", RES_UNTIL, Z.lor (FLAG RES_DO) FLAG_START);
    (str "in", RES_IN, FLAG RES_DO);
    (str "do", RES_DO, FLAG RES_DONE);
    (str "done", RES_DONE, FLAG_END) ].

Definition find_reserved (s : text) : option (reserved_style * Z) :=
  '(_, r, f) ← find (fun e => bool_decide (e.1.1 = s)) reserved_list; Some (r, f).

(** The group is the list that ends here; the saved context becomes the context
    again. *)
Definition pop (ctx : p_context) : option p_context :=
  let ctx := done_pipe ctx PIPE_SEQ in
  old ← stack ctx;
  c ← child old;
  Some (set_child (Some (Child (argv c) (Some (list_head ctx)) (sp c))) old).

(** The result, when the word is a reserved one; [strcmp] reads [dest->data]. *)
Definition reserved_word (dest : o_string) (ctx : p_context) : option (bool * o_string * p_context) :=
  s ← data dest;
  match find_reserved s with
  | None => Some (false, dest, ctx)
  | Some (r, flag) =>
      let syntax := Some (true, b_reset dest, set_w RES_SNTX ctx) in
      let go ctx :=
        let ctx := set_old_flag flag (set_w r ctx) in
        ctx ← (if has_flag flag FLAG_END then pop ctx else Some ctx);
        Some (true, b_reset dest, ctx) in
      if has_flag flag FLAG_START then
        if bool_decide (w ctx = RES_IN \/ w ctx = RES_FOR) then syntax
        else go (set_stack (Some ctx) (initialize_context ctx))
      else if bool_decide (w ctx = RES_NONE) || negb (has_flag (old_flag ctx) (FLAG r)) then syntax
      else go ctx
  end.

(** ** Words *)

(** The copy of a word without its backslashes; a backslash in front of the
    terminator makes the loop step over it. *)
Fixpoint unescape (s : text) : option text :=
  match s with
  | [] => Some []
  | [c] => if c =? 92 then None else Some [c]
  | c :: ((d :: r') as r) => if c =? 92 then t ← unescape r'; Some (d :: t) else t ← unescape r; Some (c :: t)
  end.

(** [done_word] for a word in the middle of a command; the source calls itself
    once more for an empty string, which does nothing. *)
Definition add_word (dest : o_string) (ctx : p_context) (c : child_prog) : option (Z * o_string * p_context) :=
  t ← unescape (default [] (data dest));
  let ctx := set_child (Some (Child (Some (default [] (argv c) ++ [t])) (group c) (sp c))) ctx in
  let dest := b_reset dest in
  Some (0, dest, if bool_decide (w ctx = RES_FOR) then done_pipe ctx PIPE_SEQ else ctx).

Definition done_word (dest : o_string) (ctx : p_context) : option (Z * o_string * p_context) :=
  if (o_length dest =? 0) && negb (nonnull dest) then Some (0, dest, ctx)
  else
    c ← child ctx;
    match group c with
    | Some _ => Some (1, dest, ctx)
    | None =>
        if bool_decide (argv c = None) && has_flag (type ctx) FLAG_PARSE_SEMICOLON then
          '(found, dest, ctx) ← reserved_word dest ctx;
          if found : bool then Some ((if bool_decide (w ctx = RES_SNTX) then 1 else 0), dest, ctx) else add_word dest ctx c
        else add_word dest ctx c
    end.

(** ** Variables in words *)

(** [ctx->child->sp++] *)
Definition add_sp (ctx : p_context) : option p_context :=
  c ← child ctx; Some (set_child (Some (Child (argv c) (group c) (sp c + 1))) ctx).

(** [while(ch=b_peek(input),isalnum(ch) || ch=='_')] *)
Fixpoint variable_name (fuel : nat) (dest : o_string) (input : in_str) : option (o_string * in_str) :=
  match fuel with
  | O => None
  | S fuel =>
      ch ← b_peek input;
      if isalnum ch || (ch =? 95) then '(_, input) ← b_getch input; variable_name fuel (b_addchr dest ch) input
      else Some (dest, input)
  end.

(** [while(ch=b_getch(input),ch!=EOF && ch!=stop)]: the last character. *)
Fixpoint add_until (fuel : nat) (stop : Z) (dest : o_string) (input : in_str) : option (Z * o_string * in_str) :=
  match fuel with
  | O => None
  | S fuel =>
      '(ch, input) ← b_getch input;
      if (ch =? EOF) || (ch =? stop) then Some (ch, dest, input) else add_until fuel stop (b_addchr dest ch) input
  end.

Definition input_fuel (input : in_str) : nat := S (S (length (default [] input))).

Definition handle_dollar (dest : o_string) (ctx : p_context) (input : in_str) : option (Z * o_string * p_context * in_str) :=
  ch ← b_peek input;
  if isalpha ch then
    ctx ← add_sp ctx;
    '(dest, input) ← variable_name (input_fuel input) (b_addchr dest SPECIAL_VAR_SYMBOL) input;
    Some (0, b_addchr dest SPECIAL_VAR_SYMBOL, ctx, input)
  else if ch =? 63 then
    ctx ← add_sp ctx;
    let dest := b_addchr (b_addchr (b_addchr (b_addchr dest SPECIAL_VAR_SYMBOL) 36) 63) SPECIAL_VAR_SYMBOL in
    '(_, input) ← b_getch input;
    Some (0, dest, ctx, input)
  else if ch =? 123 then
    ctx ← add_sp ctx;
    '(_, input) ← b_getch input;
    '(ch, dest, input) ← add_until (input_fuel input) 125 (b_addchr dest SPECIAL_VAR_SYMBOL) input;
    if negb (ch =? 125) then Some (1, dest, ctx, input)
    else Some (0, b_addchr dest SPECIAL_VAR_SYMBOL, ctx, input)
  else Some (0, b_addqchr dest 36 (quote dest), ctx, input).

(** ** Classes of characters *)

Definition mapset (set : text) (c : Z) (map : Z -> Z) : Z -> Z := fun ch => if existsb (Z.eqb ch) set then c else map ch.

Definition update_ifs_map (IFS : option text) : Z -> Z :=
  mapset (default (str " " ++ [9; 10]) IFS) 2
    (mapset (str ";&|#") 1 (mapset [92; 36; 39; 34] 3 (mapset [SUBSTED_VAR_SYMBOL] 3 (fun _ => 0)))).

(** ** The parser *)

Record pstate := PState { dest : o_string; ctx : p_context; input : in_str }.

(** The rest of a comment. *)
Fixpoint skip_comment (fuel : nat) (input : in_str) : option in_str :=
  match fuel with
  | O => None
  | S fuel =>
      ch ← b_peek input;
      if (ch =? EOF) || (ch =? 10) then Some input else '(_, input) ← b_getch input; skip_comment fuel input
  end.

(** Text up to its closing character, which is taken as it is. *)
Definition take_quoted (stop : Z) (st : pstate) : option (option Z * pstate) :=
  let d := OString (data (dest st)) (quote (dest st)) true in
  '(ch, d, i) ← add_until (input_fuel (input st)) stop d (input st);
  Some ((if ch =? EOF then Some 1 else None), PState d (ctx st) i).

(** ["&&"] and ["||"]; a single character is an error. *)
Definition and_or (ch next : Z) (type : pipe_style) (st : pstate) : option (option Z * pstate) :=
  '(_, d, c) ← done_word (dest st) (ctx st);
  if next =? ch then '(_, i) ← b_getch (input st); Some (None, PState d (done_pipe c type) i)
  else Some (Some 1, PState d c (input st)).

(** [switch (ch)]: the result of [parse_stream], if it ends here. *)
Definition special (ch next : Z) (st : pstate) : option (option Z * pstate) :=
  let d := dest st in
  if ch =? 35 then
    if (o_length d =? 0) && negb (quote d) then i ← skip_comment (input_fuel (input st)) (input st); Some (None, PState d (ctx st) i)
    else Some (None, PState (b_addqchr d ch (quote d)) (ctx st) (input st))
  else if ch =? 92 then
    if next =? EOF then Some (Some 1, st)
    else
      '(c, i) ← b_getch (input st);
      Some (None, PState (b_addqchr (b_addqchr d 92 (quote d)) c (quote d)) (ctx st) i)
  else if ch =? 36 then
    '(r, d, c, i) ← handle_dollar d (ctx st) (input st);
    Some ((if negb (r =? 0) then Some 1 else None), PState d c i)
  else if ch =? 39 then take_quoted 39 st
  else if ch =? 34 then Some (None, PState (OString (data d) (negb (quote d)) true) (ctx st) (input st))
  else if ch =? 59 then '(_, d, c) ← done_word d (ctx st); Some (None, PState d (done_pipe c PIPE_SEQ) (input st))
  else if ch =? 38 then and_or ch next PIPE_AND st
  else if ch =? 124 then and_or ch next PIPE_OR st
  else if ch =? SUBSTED_VAR_SYMBOL then take_quoted SUBSTED_VAR_SYMBOL st
  else Some (Some 1, st).

(** A character that separates words. *)
Definition separate (end_trigger ch : Z) (st : pstate) : option (option Z * pstate) :=
  '(r, d, c) ← done_word (dest st) (ctx st);
  if negb (r =? 0) then Some (Some 1, PState d c (input st))
  else Some (None, PState d (if negb (end_trigger =? 0) && (ch =? 10) then done_pipe c PIPE_SEQ else c) (input st)).

(** One round of the loop for the character [ch]. *)
Definition parse_char (map : Z -> Z) (end_trigger ch : Z) (st : pstate) : option (option Z * pstate) :=
  let m := map ch in
  next ← (if ch =? 10 then Some 0 else b_peek (input st));
  if (m =? 0) || (((m =? 1) || (m =? 2)) && quote (dest st)) then
    Some (None, PState (b_addqchr (dest st) ch (quote (dest st))) (ctx st) (input st))
  else
    '(r, st) ← (if m =? 2 then separate end_trigger ch st else Some (None, st));
    match r with
    | Some r => Some (Some r, st)
    | None =>
        if (ch =? end_trigger) && negb (quote (dest st)) && bool_decide (w (ctx st) = RES_NONE) then Some (Some 0, st)
        else if m =? 2 then Some (None, st)
        else special ch next st
    end.

Fixpoint parse_loop (fuel : nat) (map : Z -> Z) (end_trigger : Z) (st : pstate) : option (Z * pstate) :=
  match fuel with
  | O => None
  | S fuel =>
      '(ch, i) ← b_getch (input st);
      let st := PState (dest st) (ctx st) i in
      if ch =? EOF then Some ((if negb (end_trigger =? 0) then -1 else 0), st)
      else
        '(r, st) ← parse_char map end_trigger ch st;
        match r with Some r => Some (r, st) | None => parse_loop fuel map end_trigger st end
  end.

Definition parse_stream (map : Z -> Z) (end_trigger : Z) (st : pstate) : option (Z * pstate) :=
  parse_loop (input_fuel (input st)) map end_trigger st.
