(* ===== verification/HushParse.v ===== *)
(** * Scripts and how the shell reads them (common/hush.c)

    The abstract syntax of the scripts, their texts, and the lists of pipes the
    parser of Hush makes of them. *)

From S2P Require Import Prelude Ctype StringLib Vsprintf Hush.

(** ** Words *)

(** The parts of a word: a character that stands for itself, a quoted character, and
    text in quotes. *)
Inductive part := Plain (c : Z) | Esc (c : Z) | Single (t : text) | Double (t : text).

Definition part_text (p : part) : text :=
  match p with Plain c => [c] | Esc c => [92; c] | Single t => 39 :: t ++ [39] | Double t => 34 :: t ++ [34] end.
Definition part_value (p : part) : text :=
  match p with Plain c | Esc c => [c] | Single t | Double t => t end.

(** What [dest->data] gets. *)
Definition globbed (c : Z) : text := if existsb (Z.eqb c) (str "*?[\") then [92; c] else [c].
Definition part_raw (p : part) : text :=
  match p with Plain c => [c] | Esc c => [92; c] | Single t => t | Double t => flat_map globbed t end.

Definition word := list part.
Definition word_text (x : word) : text := flat_map part_text x.
Definition word_value (x : word) : text := flat_map part_value x.
Definition word_raw (x : word) : text := flat_map part_raw x.

(** ** Scripts *)

Inductive command :=
  | Simple (ws : list word)
  | If (c b : script) (e : orelse)
  | While (until : bool) (c b : script)
  | For (name : text) (ws : list word) (b : script)
with script :=
  | Done
  | Item (c : command) (f : pipe_style) (s : script)
with orelse :=
  | Fi
  | Elif (c b : script) (e : orelse)
  | Else (b : script).

Scheme command_mut := Induction for command Sort Prop
  with script_mut := Induction for script Sort Prop
  with orelse_mut := Induction for orelse Sort Prop.
Combined Scheme script_ind3 from command_mut, script_mut, orelse_mut.

Definition style_text (f : pipe_style) : text :=
  match f with PIPE_AND => str "&&" | PIPE_OR => str "||" | _ => str ";" end.

Definition words_text (ws : list word) : text := flat_map (fun x => word_text x ++ [32]) ws.

Fixpoint command_text (c : command) : text :=
  match c with
  | Simple ws => words_text ws
  | If c b e => str "if " ++ script_text c ++ str "then " ++ script_text b ++ orelse_text e
  | While until c b => str (if until then "until " else "while ") ++ script_text c ++ str "do " ++ script_text b ++ str "done "
  | For n ws b => str "for " ++ n ++ str " in " ++ words_text ws ++ str ";do " ++ script_text b ++ str "done "
  end
with script_text (s : script) : text :=
  match s with Done => [] | Item c f s => command_text c ++ style_text f ++ script_text s end
with orelse_text (e : orelse) : text :=
  match e with
  | Fi => str "fi "
  | Elif c b e => str "elif " ++ script_text c ++ str "then " ++ script_text b ++ orelse_text e
  | Else b => str "else " ++ script_text b ++ str "fi "
  end.

(** The pipes of a script. *)
Definition end_pipe : pipe := Pipe [] PIPE_NONE RES_NONE.
Definition args (a : list text) : child_prog := Child (Some a) None 0.

Fixpoint compile (c : command) : child_prog :=
  match c with
  | Simple ws => args (map word_value ws)
  | If c b e => Child None (Some (pipes RES_IF c ++ pipes RES_THEN b ++ orelse_pipes e)) 0
  | While until c b =>
      Child None (Some (pipes (if until then RES_UNTIL else RES_WHILE) c ++ pipes RES_DO b ++ [Pipe [] PIPE_SEQ RES_DONE; end_pipe])) 0
  | For n ws b =>
      Child None (Some ([Pipe [args [n]] PIPE_SEQ RES_FOR;
        Pipe (match ws with [] => [] | _ => [args (map word_value ws)] end) PIPE_SEQ RES_IN] ++
        pipes RES_DO b ++ [Pipe [] PIPE_SEQ RES_DONE; end_pipe])) 0
  end
with pipes (m : reserved_style) (s : script) : list pipe :=
  match s with Done => [] | Item c f s => Pipe [compile c] f m :: pipes m s end
with orelse_pipes (e : orelse) : list pipe :=
  match e with
  | Fi => [Pipe [] PIPE_SEQ RES_FI; end_pipe]
  | Elif c b e => pipes RES_ELIF c ++ pipes RES_THEN b ++ orelse_pipes e
  | Else b => pipes RES_ELSE b ++ [Pipe [] PIPE_SEQ RES_FI; end_pipe]
  end.

(** ** Well-formed scripts *)

Definition IFS_map : Z -> Z := update_ifs_map None.

(** Characters of words are no markers of variables. *)
Definition word_char (c : Z) : Prop := 0 < c < 256 /\ c <> SPECIAL_VAR_SYMBOL.

Definition part_ok (p : part) : Prop :=
  match p with
  | Plain c => word_char c /\ IFS_map c = 0
  | Esc c => word_char c
  | Single t => Forall (fun c => word_char c /\ c <> 39 /\ c <> 92) t
  | Double t => Forall (fun c => word_char c /\ IFS_map c <> 3) t
  end.

Definition word_ok (x : word) : Prop := Forall part_ok x /\ word_raw x <> [].

(** A word that starts a command is not a reserved one. *)
Definition first_ok (x : word) : Prop := find_reserved (word_raw x) = None.

Definition name_ok (n : text) : Prop := Forall (fun c => word_char c /\ IFS_map c = 0) n /\ n <> [] /\ find_reserved n = None.

Definition style_ok (f : pipe_style) (last : bool) : Prop :=
  match f with PIPE_SEQ => True | PIPE_AND | PIPE_OR => last = false | _ => False end.

Definition is_done (s : script) : bool := match s with Done => true | _ => false end.

(** The last command of a script ends with a semicolon; conditions and bodies are not
    empty. *)
Fixpoint command_ok (c : command) : Prop :=
  match c with
  | Simple ws => Forall word_ok ws /\ (exists x l, ws = x :: l /\ first_ok x)
  | If c b e => script_ok c /\ script_ok b /\ orelse_ok e /\ is_done c = false /\ is_done b = false
  | While _ c b => script_ok c /\ script_ok b /\ is_done c = false /\ is_done b = false
  | For n ws b => name_ok n /\ Forall word_ok ws /\ match ws with [] => True | x :: _ => first_ok x end /\ script_ok b
  end
with script_ok (s : script) : Prop :=
  match s with Done => True | Item c f s => command_ok c /\ style_ok f (is_done s) /\ script_ok s end
with orelse_ok (e : orelse) : Prop :=
  match e with
  | Fi => True
  | Elif c b e => script_ok c /\ script_ok b /\ orelse_ok e /\ is_done c = false /\ is_done b = false
  | Else b => script_ok b /\ is_done b = false
  end.

(** ** Reading characters *)

(** The characters [t] take the parser from one string and context to others. *)
Definition reads (t : text) (d : o_string) (c : p_context) (d' : o_string) (c' : p_context) : Prop :=
  forall f rest, exists g, (f <= g)%nat /\
    parse_loop (f + length t) IFS_map 10 (PState d c (Some (t ++ rest))) = parse_loop g IFS_map 10 (PState d' c' (Some rest)).

Lemma reads_nil d c : reads [] d c d c.
Proof. intros f rest. exists f. split; [done |]. by rewrite Nat.add_0_r. Qed.

Lemma reads_app t1 t2 d1 c1 d2 c2 d3 c3 : reads t1 d1 c1 d2 c2 -> reads t2 d2 c2 d3 c3 -> reads (t1 ++ t2) d1 c1 d3 c3.
Proof.
  intros H1 H2 f rest. destruct (H1 (f + length t2)%nat (t2 ++ rest)) as (g1 & Hg1 & He1).
  destruct (H2 (g1 - length t2)%nat rest) as (g2 & Hg2 & He2). exists g2. split; [lia |].
  rewrite length_app, <- app_assoc. replace (f + (length t1 + length t2))%nat with (f + length t2 + length t1)%nat by lia.
  rewrite He1, <- He2. f_equal. lia.
Qed.

(** One round. *)
Lemma reads_round ch t d c d' c' : 0 < ch ->
  (forall rest, parse_char IFS_map 10 ch (PState d c (Some (t ++ rest))) = Some (None, PState d' c' (Some rest))) ->
  reads (ch :: t) d c d' c'.
Proof.
  intros Hch H f rest. exists (f + length t)%nat. split; [lia |]. cbn [length]. rewrite Nat.add_succ_r. cbn [parse_loop app input b_getch mbind option_bind].
  rewrite (proj2 (Z.eqb_neq ch EOF)) by (unfold EOF; lia). cbn [dest ctx]. by rewrite H.
Qed.

Lemma parse_char_plain ch d c r : quote d = false -> IFS_map ch = 0 ->
  parse_char IFS_map 10 ch (PState d c (Some r)) = Some (None, PState (b_addchr d ch) c (Some r)).
Proof.
  intros Hq Hm. unfold parse_char. cbn [input]. assert (exists n, (if ch =? 10 then Some 0 else b_peek (Some r)) = Some n) as [n ->] by (destruct (ch =? 10), r; eauto).
  cbn [mbind option_bind dest ctx]. rewrite Hm, Hq. done.
Qed.

Lemma parse_char_quoted ch d c r : quote d = true -> IFS_map ch <> 3 ->
  parse_char IFS_map 10 ch (PState d c (Some r)) = Some (None, PState (b_addqchr d ch true) c (Some r)).
Proof.
  intros Hq Hm. unfold parse_char. cbn [input]. assert (exists n, (if ch =? 10 then Some 0 else b_peek (Some r)) = Some n) as [n ->] by (destruct (ch =? 10), r; eauto).
  cbn [mbind option_bind dest ctx]. rewrite Hq.
  assert ((IFS_map ch =? 0) || (((IFS_map ch =? 1) || (IFS_map ch =? 2)) && true) = true) as ->; [| done].
  revert Hm. unfold IFS_map, update_ifs_map, mapset. repeat destruct (existsb _ _); done.
Qed.

Lemma parse_char_special ch d c r : quote d = false -> IFS_map ch = 1 \/ IFS_map ch = 3 -> ch <> 10 ->
  parse_char IFS_map 10 ch (PState d c (Some r)) = special ch (match r with [] => 0 | x :: _ => x end) (PState d c (Some r)).
Proof.
  intros Hq Hm Hch. unfold parse_char. cbn [input]. rewrite (proj2 (Z.eqb_neq ch 10) Hch).
  replace (b_peek (Some r)) with (Some (match r with [] => 0 | x :: _ => x end)) by (by destruct r). cbn [mbind option_bind dest ctx]. rewrite Hq.
  by destruct Hm as [-> | ->].
Qed.

(** [d'] is [d] with [r] behind it. *)
Definition grows (d : o_string) (r : text) (d' : o_string) : Prop :=
  default [] (data d') = default [] (data d) ++ r /\ quote d' = quote d.

Lemma grows_add d c : word_char c -> grows d [c] (b_addchr d c).
Proof. intros [Hc _]. unfold grows, b_addchr. cbn. by rewrite wrap_small by lia. Qed.

Lemma grows_trans d1 r1 d2 r2 d3 : grows d1 r1 d2 -> grows d2 r2 d3 -> grows d1 (r1 ++ r2) d3.
Proof. intros [H1 Q1] [H2 Q2]. split; [by rewrite H2, H1, app_assoc | congruence]. Qed.

Lemma grows_foldl t : forall d, Forall word_char t -> grows d t (foldl b_addchr d t) /\ nonnull (foldl b_addchr d t) = nonnull d.
Proof.
  induction t as [| c t IH]; intros d Ht; cbn [foldl]; [unfold grows; by rewrite app_nil_r |].
  apply Forall_cons in Ht as [Hc Ht]. destruct (IH (b_addchr d c) Ht) as [Hg Hn]. split; [| done].
  apply (grows_trans _ [c] (b_addchr d c)); [by apply grows_add | done].
Qed.

Lemma add_until_all stop t : forall fuel d rest, Forall (fun c => word_char c /\ c <> stop) t -> (length t < fuel)%nat ->
  add_until fuel stop d (Some (t ++ stop :: rest)) = Some (stop, foldl b_addchr d t, Some rest).
Proof.
  induction t as [| c t IH]; intros [| fuel] d rest Ht Hf; cbn [length] in Hf; try lia; cbn [app add_until b_getch mbind option_bind foldl].
  - by rewrite Z.eqb_refl, orb_true_r.
  - apply Forall_cons in Ht as [[Hc Hne] Ht]. rewrite (proj2 (Z.eqb_neq c EOF)), (proj2 (Z.eqb_neq c stop)) by (unfold EOF, word_char in *; lia || done).
    apply IH; [done | lia].
Qed.

Lemma reads_double t : forall d c, quote d = true -> Forall (fun c => word_char c /\ IFS_map c <> 3) t ->
  exists d', reads t d c d' c /\ grows d (flat_map globbed t) d'.
Proof.
  induction t as [| ch t IH]; intros d c Hq Ht.
  - exists d. split; [apply reads_nil |]. unfold grows. by rewrite app_nil_r.
  - apply Forall_cons in Ht as [[Hc Hm] Ht].
    assert (grows d (globbed ch) (b_addqchr d ch true)) as Hg.
    { unfold b_addqchr, globbed. cbn [andb]. destruct (existsb _ _); [| by apply grows_add].
      apply (grows_trans _ [92] (b_addchr d 92)); apply grows_add; [split; [lia | done] | done]. }
    destruct (IH (b_addqchr d ch true) c) as (d' & Hr & Hg'); [by rewrite (proj2 Hg) | done |].
    exists d'. split; [| by apply (grows_trans _ (globbed ch) (b_addqchr d ch true))].
    apply (reads_app [ch] t d c (b_addqchr d ch true) c); [| done]. apply reads_round; [destruct Hc; lia |]. intros rest. by apply parse_char_quoted.
Qed.

Lemma reads_part p d c : quote d = false -> part_ok p -> exists d', reads (part_text p) d c d' c /\ grows d (part_raw p) d'.
Proof.
  intros Hq Hp. destruct p as [ch | ch | t | t]; cbn [part_text part_raw part_ok] in *.
  - destruct Hp as [Hc Hm]. exists (b_addchr d ch). split; [| by apply grows_add].
    apply reads_round; [destruct Hc; lia |]. intros rest. by apply parse_char_plain.
  - exists (b_addchr (b_addchr d 92) ch). split.
    + apply reads_round; [lia |]. intros rest. cbn [app]. rewrite parse_char_special; [| done | by right | done]. cbn [special Z.eqb Pos.eqb input dest ctx].
      unfold special. change (92 =? 35) with false. change (92 =? 92) with true. cbn iota.
      rewrite (proj2 (Z.eqb_neq ch EOF)) by (unfold EOF; destruct Hp; lia). cbn [input b_getch mbind option_bind dest ctx]. by rewrite Hq.
    + apply (grows_trans _ [92] (b_addchr d 92) [ch]); apply grows_add; [split; [lia | done] | done].
  - assert (Forall word_char t) as Ht by (apply (Forall_impl _ _ _ Hp); intuition).
    exists (foldl b_addchr (OString (data d) (quote d) true) t). split; [| by apply (grows_foldl t (OString (data d) (quote d) true))].
    apply reads_round; [lia |]. intros rest. rewrite <- app_assoc. cbn [app]. rewrite parse_char_special; [| done | by right | done].
    unfold special. change (39 =? 35) with false. change (39 =? 92) with false. change (39 =? 36) with false. change (39 =? 39) with true. cbn iota.
    unfold take_quoted. cbn [dest ctx input]. rewrite add_until_all; [done | apply (Forall_impl _ _ _ Hp); intuition |].
    unfold input_fuel. cbn. rewrite length_app. cbn. lia.
  - destruct (reads_double t (OString (data d) true true) c eq_refl Hp) as (d' & Hr & Hg).
    exists (OString (data d') false true). split.
    + apply (reads_app [34] (t ++ [34]) d c (OString (data d) true true) c).
      { apply reads_round; [lia |]. intros rest. cbn [app]. rewrite parse_char_special; [| done | by right | done]. unfold special. cbn [dest ctx input].
        by rewrite Hq. }
      apply (reads_app t [34] _ c d' c); [done |]. apply reads_round; [lia |]. intros rest. cbn [app].
      unfold parse_char. cbn [input]. change (34 =? 10) with false. cbn iota. assert (exists n, b_peek (Some rest) = Some n) as [n ->] by (destruct rest; eauto).
      cbn [mbind option_bind dest ctx]. change (IFS_map 34) with 3. cbn [Z.eqb Pos.eqb orb andb]. unfold special. cbn [dest ctx input].
      cbn [mbind option_bind dest ctx input Z.eqb Pos.eqb]. by rewrite (proj2 Hg).
    + split; [apply Hg | done].
Qed.

(** ** Reading words *)

Definition empty (d : o_string) : Prop := default [] (data d) = [] /\ quote d = false /\ nonnull d = false.

Lemma reads_parts x : forall d c, quote d = false -> Forall part_ok x -> exists d', reads (word_text x) d c d' c /\ grows d (word_raw x) d'.
Proof.
  induction x as [| p x IH]; intros d c Hq Hx; [exists d; split; [apply reads_nil |]; unfold grows; by rewrite app_nil_r |].
  apply Forall_cons in Hx as [Hp Hx]. destruct (reads_part p d c Hq Hp) as (d1 & H1 & G1).
  destruct (IH d1 c) as (d2 & H2 & G2); [by rewrite (proj2 G1) | done |]. exists d2. split; [by apply (reads_app _ _ _ _ d1 c) | by apply (grows_trans _ _ d1)].
Qed.

Lemma unescape_cons c r : c <> 92 -> unescape (c :: r) = t ← unescape r; Some (c :: t).
Proof. intros Hc. destruct r as [| d r]; cbn [unescape]; by rewrite (proj2 (Z.eqb_neq c 92) Hc). Qed.

Lemma unescape_globbed c r : c <> 92 -> unescape (globbed c ++ r) = t ← unescape r; Some (c :: t).
Proof. intros Hc. unfold globbed. destruct (existsb _ _); [done | by apply unescape_cons]. Qed.

Lemma unescape_part p r : part_ok p -> unescape (part_raw p ++ r) = t ← unescape r; Some (part_value p ++ t).
Proof.
  intros Hp. destruct p as [c | c | t | t]; cbn [part_raw part_value part_ok app] in *.
  - destruct Hp as [_ Hm]. apply unescape_cons. by intros ->.
  - done.
  - induction t as [| c t IH]; cbn [app]; [by destruct (unescape r) |]. apply Forall_cons in Hp as [(_ & _ & Hc) Ht].
    rewrite unescape_cons, IH by done. by destruct (unescape r).
  - induction t as [| c t IH]; cbn [flat_map app]; [by destruct (unescape r) |]. apply Forall_cons in Hp as [(_ & Hc) Ht].
    rewrite <- app_assoc, unescape_globbed, IH by (done || by intros ->). by destruct (unescape r).
Qed.

Lemma unescape_word x : Forall part_ok x -> unescape (word_raw x) = Some (word_value x).
Proof.
  induction 1 as [| p x Hp _ IH]; [done |]. unfold word_raw, word_value in *. cbn [flat_map]. by rewrite unescape_part, IH by done.
Qed.

Lemma IFS_map_10_32 c : IFS_map c = 0 \/ IFS_map c = 1 \/ IFS_map c = 2 \/ IFS_map c = 3.
Proof. unfold IFS_map, update_ifs_map, mapset. repeat destruct (existsb _ _); tauto. Qed.

(** A word and the space behind it. *)
Lemma reads_word x d c d1 c1 : empty d -> word_ok x ->
  (forall d', data d' = Some (word_raw x) -> quote d' = false -> done_word d' c = Some (0, d1, c1)) -> reads (word_text x ++ [32]) d c d1 c1.
Proof.
  intros (Hd & Hq & Hn) [Hx Hne] H. destruct (reads_parts x d c Hq Hx) as (d' & Hr & [G1 G2]). rewrite Hd in G1. cbn [app] in G1.
  assert (data d' = Some (word_raw x)) as Hdata by (destruct (data d') as [t |]; cbn in G1; congruence).
  apply (reads_app _ _ _ _ d' c); [done |]. apply reads_round; [lia |]. intros rest. cbn [app]. unfold parse_char. cbn [input].
  change (32 =? 10) with false. cbn iota. assert (exists n, b_peek (Some rest) = Some n) as [n ->] by (destruct rest; eauto).
  cbn [mbind option_bind dest ctx]. change (IFS_map 32) with 2. rewrite G2, Hq. cbn [Z.eqb Pos.eqb orb andb]. unfold separate. cbn [dest ctx input].
  rewrite H by (done || congruence). done.
Qed.

(** The context between commands. *)
Definition between (hd : list pipe) (m : reserved_style) (fl : Z) (st : option p_context) (ty : Z) : p_context :=
  Context_ (Some new_child) hd [] m fl st ty.
Definition with_child (c : child_prog) (x : p_context) : p_context := set_child (Some c) x.

Definition plain_mode (m : reserved_style) : Prop := m <> RES_FOR /\ m <> RES_IN.

Lemma add_word_spec d x c hd m fl st ty a s : data d = Some (word_raw x) -> quote d = false -> Forall part_ok x -> m <> RES_FOR ->
  c = with_child (Child a None s) (between hd m fl st ty) ->
  add_word d c (Child a None s) = Some (0, OString (Some []) false false, with_child (Child (Some (default [] a ++ [word_value x])) None s) (between hd m fl st ty)).
Proof.
  intros Hd Hq Hx Hm ->. unfold add_word. rewrite Hd. cbn [default]. unfold id. rewrite unescape_word by done. cbn [mbind option_bind].
  rewrite bool_decide_eq_false_2 by done. unfold b_reset. rewrite Hd, Hq. done.
Qed.

Lemma done_word_next d x hd m fl st ty a s : data d = Some (word_raw x) -> quote d = false -> word_ok x -> m <> RES_FOR ->
  done_word d (with_child (Child (Some a) None s) (between hd m fl st ty)) =
    Some (0, OString (Some []) false false, with_child (Child (Some (a ++ [word_value x])) None s) (between hd m fl st ty)).
Proof.
  intros Hd Hq [Hx Hne] Hm. unfold done_word, o_length. rewrite Hd. cbn [default]. unfold id.
  rewrite (proj2 (Z.eqb_neq _ 0)) by (destruct (word_raw x); cbn; done || lia). cbn [andb with_child set_child child mbind option_bind group argv].
  rewrite bool_decide_eq_false_2 by done. cbn [andb]. by apply add_word_spec.
Qed.

Lemma done_word_first d x hd m fl st ty : data d = Some (word_raw x) -> quote d = false -> word_ok x -> first_ok x -> m <> RES_FOR ->
  done_word d (between hd m fl st ty) =
    Some (0, OString (Some []) false false, with_child (Child (Some [word_value x]) None 0) (between hd m fl st ty)).
Proof.
  intros Hd Hq [Hx Hne] Hf Hm. unfold done_word, o_length. rewrite Hd. cbn [default]. unfold id.
  rewrite (proj2 (Z.eqb_neq _ 0)) by (destruct (word_raw x); cbn; done || lia). cbn [andb between child mbind option_bind group argv new_child].
  pose proof (add_word_spec d x (between hd m fl st ty) hd m fl st ty None 0 Hd Hq Hx Hm eq_refl) as Ha. cbn [default app] in Ha.
  rewrite bool_decide_eq_true_2 by done. cbn [andb type]. fold new_child in Ha. unfold new_child in *. destruct (has_flag (type (between hd m fl st ty)) FLAG_PARSE_SEMICOLON); [| exact Ha].
  unfold reserved_word. rewrite Hd. cbn [mbind option_bind]. by rewrite Hf.
Qed.

Lemma empty_reset : empty (OString (Some []) false false).
Proof. done. Qed.

(** The words behind the first one. *)
Lemma reads_next_words ws : forall d hd m fl st ty a s, empty d -> Forall word_ok ws -> m <> RES_FOR ->
  exists d', empty d' /\ reads (words_text ws) d (with_child (Child (Some a) None s) (between hd m fl st ty))
    d' (with_child (Child (Some (a ++ map word_value ws)) None s) (between hd m fl st ty)).
Proof.
  induction ws as [| x ws IH]; intros d hd m fl st ty a s Hd Hws Hm; [exists d; split; [done |]; cbn; rewrite app_nil_r; apply reads_nil |].
  apply Forall_cons in Hws as [Hx Hws]. cbn [words_text flat_map map].
  destruct (IH (OString (Some []) false false) hd m fl st ty (a ++ [word_value x]) s empty_reset Hws Hm) as (d' & Hd' & Hr). exists d'. split; [done |].
  rewrite <- app_assoc in Hr. cbn [app] in Hr. eapply reads_app; [| exact Hr]. apply reads_word; [done | done |]. intros d2 H1 H2. by apply done_word_next.
Qed.

Lemma reads_words x ws d hd m fl st ty : empty d -> Forall word_ok (x :: ws) -> first_ok x -> m <> RES_FOR ->
  exists d', empty d' /\ reads (words_text (x :: ws)) d (between hd m fl st ty) d' (with_child (args (map word_value (x :: ws))) (between hd m fl st ty)).
Proof.
  intros Hd Hws Hf Hm. apply Forall_cons in Hws as [Hx Hws].
  destruct (reads_next_words ws (OString (Some []) false false) hd m fl st ty [word_value x] 0 empty_reset Hws Hm) as (d' & Hd' & Hr).
  exists d'. split; [done |]. cbn [words_text flat_map map app] in *. eapply reads_app; [| exact Hr]. apply reads_word; [done | done |].
  intros d2 H1 H2. by apply done_word_first.
Qed.

(** ** Reading operators and reserved words *)

Lemma done_word_empty d c : empty d -> done_word d c = Some (0, d, c).
Proof. intros (Hd & _ & Hn). unfold done_word, o_length. by rewrite Hd, Hn. Qed.

Lemma done_pipe_child ch hd m fl st ty f : argv ch <> None \/ group ch <> None ->
  done_pipe (with_child ch (between hd m fl st ty)) f = between (hd ++ [Pipe [ch] f m]) m fl st ty.
Proof. intros Hch. destruct ch as [[a |] [g |] s]; cbn in *; done || by destruct Hch. Qed.

Lemma done_pipe_empty hd m fl st ty f : done_pipe (between hd m fl st ty) f = between (hd ++ [Pipe [] f m]) m fl st ty.
Proof. done. Qed.

(** A separator behind the command [c]. *)
Lemma reads_style f last d c c' : style_ok f last -> empty d -> done_pipe c f = c' -> reads (style_text f) d c d c'.
Proof.
  intros Hf Hd <-. destruct f; try done; cbn [style_text].
  - change (str ";") with [59]. apply reads_round; [lia |]. intros rest. cbn [app]. rewrite parse_char_special; [| apply Hd | by left | done]. unfold special. cbn [dest ctx input Z.eqb Pos.eqb].
    by rewrite done_word_empty.
  - change (str "&&") with [38; 38]. apply reads_round; [lia |]. intros rest. cbn [app]. rewrite parse_char_special; [| apply Hd | by left | done]. unfold special. cbn [dest ctx input Z.eqb Pos.eqb].
    unfold and_or. cbn [dest ctx input]. by rewrite done_word_empty.
  - change (str "||") with [124; 124]. apply reads_round; [lia |]. intros rest. cbn [app]. rewrite parse_char_special; [| apply Hd | by left | done]. unfold special. cbn [dest ctx input Z.eqb Pos.eqb].
    unfold and_or. cbn [dest ctx input]. by rewrite done_word_empty.
Qed.

(** A reserved word at the start of a command. *)
Lemma reads_reserved s r fl' d hd m fl st ty c1 : Forall (fun c => word_char c /\ IFS_map c = 0) s -> s <> [] ->
  find_reserved s = Some (r, fl') -> has_flag ty FLAG_PARSE_SEMICOLON = true -> empty d -> w c1 <> RES_SNTX ->
  (forall d', data d' = Some s -> reserved_word d' (between hd m fl st ty) = Some (true, b_reset d', c1)) ->
  reads (s ++ [32]) d (between hd m fl st ty) (OString (Some []) false false) c1.
Proof.
  intros Hs Hne Hr Hty Hd Hw H.
  assert (word_text (map Plain s) = s /\ word_raw (map Plain s) = s) as [Ht Hraw].
  { unfold word_text, word_raw. clear. induction s as [| c s [IH1 IH2]]; [done |]. cbn. by rewrite IH1, IH2. }
  rewrite <- Ht. apply reads_word; [done | |].
  - split; [| by rewrite Hraw]. apply Forall_map. apply (Forall_impl _ _ _ Hs). done.
  - rewrite Hraw. intros d' Hd' Hq'. unfold done_word, o_length. rewrite Hd'. cbn [default]. unfold id.
    rewrite (proj2 (Z.eqb_neq _ 0)) by (destruct s; cbn; done || lia). cbn [andb between child mbind option_bind group argv new_child type].
    rewrite bool_decide_eq_true_2, Hty by done. cbn [andb]. rewrite H by done. cbn [mbind option_bind]. rewrite bool_decide_eq_false_2 by done.
    unfold b_reset. by rewrite Hd', Hq'.
Qed.

(** The flags that follow the words. *)
Definition then_flag : Z := Z.lor (Z.lor (FLAG RES_ELIF) (FLAG RES_ELSE)) (FLAG RES_FI).
Definition start_of (r : reserved_style) : Z := Z.lor (FLAG (if bool_decide (r = RES_IF) then RES_THEN else if bool_decide (r = RES_FOR) then RES_IN else RES_DO)) FLAG_START.

Definition literal_chars (s : text) : Prop := Forall (fun c => word_char c /\ IFS_map c = 0) s.
Ltac chars := try unfold literal_chars; match goal with |- Forall _ ?t => let e := eval vm_compute in t in change t with e end;
  repeat (apply Forall_cons; split; [split; [split; [lia | done] | reflexivity] |]); by apply Forall_nil.

Lemma reads_start s r d hd m fl st ty : In (s, r) [(str "if", RES_IF); (str "while", RES_WHILE); (str "until", RES_UNTIL); (str "for", RES_FOR)] ->
  has_flag ty FLAG_PARSE_SEMICOLON = true -> empty d -> plain_mode m ->
  reads (s ++ [32]) d (between hd m fl st ty) (OString (Some []) false false) (between [] r (start_of r) (Some (between hd m fl st ty)) ty).
Proof.
  intros Hin Hty Hd [Hm1 Hm2]. cbn [In] in Hin.
  destruct Hin as [[= <- <-] | [[= <- <-] | [[= <- <-] | [[= <- <-] | []]]]];
    (eapply reads_reserved; [chars | done | reflexivity | done | done | done |]; intros d' Hd'; unfold reserved_word; rewrite Hd';
     cbn [mbind option_bind]; match goal with |- context [find_reserved ?t] => let e := eval vm_compute in (find_reserved t) in change (find_reserved t) with e end; cbn iota;
     match goal with |- context [has_flag ?a FLAG_START] => change (has_flag a FLAG_START) with true end; cbn iota;
     rewrite bool_decide_eq_false_2 by (cbn; intros [? | ?]; done); reflexivity).
Qed.

Lemma reads_middle s r fl' d hd m fl st ty : literal_chars s -> find_reserved s = Some (r, fl') ->
  has_flag fl' FLAG_START = false -> has_flag fl' FLAG_END = false -> has_flag fl (FLAG r) = true -> m <> RES_NONE -> r <> RES_SNTX ->
  has_flag ty FLAG_PARSE_SEMICOLON = true -> empty d ->
  reads (s ++ [32]) d (between hd m fl st ty) (OString (Some []) false false) (between hd r fl' st ty).
Proof.
  intros Hs Hr Hst Hen Hfl Hm Hns Hty Hd.
  assert (s <> []) as Hne by (intros ->; by vm_compute in Hr).
  eapply reads_reserved; [done | done | exact Hr | done | done | by cbn |]. intros d' Hd'. unfold reserved_word. rewrite Hd'. cbn [mbind option_bind].
  rewrite Hr, Hst. cbn [between w old_flag]. by rewrite bool_decide_eq_false_2, Hfl, Hen by done.
Qed.

Lemma reads_end s r fl' d hd m fl hd0 m0 fl0 st0 ty0 ty : literal_chars s -> find_reserved s = Some (r, fl') ->
  has_flag fl' FLAG_START = false -> has_flag fl' FLAG_END = true -> has_flag fl (FLAG r) = true -> m <> RES_NONE -> m0 <> RES_SNTX ->
  has_flag ty FLAG_PARSE_SEMICOLON = true -> empty d ->
  reads (s ++ [32]) d (between hd m fl (Some (between hd0 m0 fl0 st0 ty0)) ty) (OString (Some []) false false)
    (with_child (Child None (Some (hd ++ [Pipe [] PIPE_SEQ r; end_pipe])) 0) (between hd0 m0 fl0 st0 ty0)).
Proof.
  intros Hs Hr Hst Hen Hfl Hm Hns Hty Hd.
  assert (s <> []) as Hne by (intros ->; by vm_compute in Hr).
  eapply reads_reserved; [done | done | exact Hr | done | done | done |]. intros d' Hd'. unfold reserved_word. rewrite Hd'. cbn [mbind option_bind].
  rewrite Hr, Hst. cbn [between w old_flag]. rewrite bool_decide_eq_false_2, Hfl, Hen by done. cbn [negb orb]. unfold pop.
  change (done_pipe _ PIPE_SEQ) with (between (hd ++ [Pipe [] PIPE_SEQ r]) r fl' (Some (between hd0 m0 fl0 st0 ty0)) ty).
  cbn [between stack mbind option_bind child new_child argv sp]. unfold list_head. cbn [between head cur]. by rewrite <- app_assoc.
Qed.

(** ** Scripts *)

Definition reads_command (c : command) : Prop := command_ok c -> forall d hd m fl st ty, empty d -> plain_mode m -> m <> RES_SNTX ->
  has_flag ty FLAG_PARSE_SEMICOLON = true ->
  exists d', empty d' /\ reads (command_text c) d (between hd m fl st ty) d' (with_child (compile c) (between hd m fl st ty)).
Definition reads_script (s : script) : Prop := script_ok s -> forall d hd m fl st ty, empty d -> plain_mode m -> m <> RES_SNTX ->
  has_flag ty FLAG_PARSE_SEMICOLON = true ->
  exists d', empty d' /\ reads (script_text s) d (between hd m fl st ty) d' (between (hd ++ pipes m s) m fl st ty).
Definition reads_orelse (e : orelse) : Prop := orelse_ok e -> forall d hd hd0 m0 fl0 st0 ty0 ty, empty d -> m0 <> RES_SNTX ->
  has_flag ty FLAG_PARSE_SEMICOLON = true ->
  exists d', empty d' /\ reads (orelse_text e) d (between hd RES_THEN then_flag (Some (between hd0 m0 fl0 st0 ty0)) ty) d'
    (with_child (Child None (Some (hd ++ orelse_pipes e)) 0) (between hd0 m0 fl0 st0 ty0)).

Lemma compile_child c : command_ok c -> argv (compile c) <> None \/ group (compile c) <> None.
Proof. destruct c; cbn; (by left) || (by right). Qed.

Lemma for_words_ok ws : Forall word_ok ws -> match ws with [] => True | x :: _ => first_ok x end -> forall d hd fl st ty, empty d ->
  exists d', empty d' /\ reads (words_text ws) d (between hd RES_IN fl st ty) d'
    (match ws with [] => between hd RES_IN fl st ty | _ => with_child (args (map word_value ws)) (between hd RES_IN fl st ty) end).
Proof.
  intros Hws Hf d hd fl st ty Hd. destruct ws as [| x ws]; [exists d; split; [done | apply reads_nil] |]. by apply reads_words.
Qed.

(** The name behind "for" ends its pipe. *)
Lemma reads_name n p0 d st ty fl : Forall (fun c => word_char c /\ IFS_map c = 0) n -> n <> [] -> find_reserved n = None -> empty d ->
  p0 = Pipe [args [n]] PIPE_SEQ RES_FOR ->
  reads (n ++ [32]) d (between [] RES_FOR fl st ty) (OString (Some []) false false) (between [p0] RES_FOR fl st ty).
Proof.
  intros Hn Hne Hr Hd ->.
  assert (word_text (map Plain n) = n /\ word_raw (map Plain n) = n /\ word_value (map Plain n) = n) as (Ht & Hraw & Hv).
  { unfold word_text, word_raw, word_value. clear. induction n as [| c n (IH1 & IH2 & IH3)]; [done |]. cbn. by rewrite IH1, IH2, IH3. }
  assert (Forall part_ok (map Plain n)) as Hok by (apply Forall_map; by apply (Forall_impl _ _ _ Hn)).
  rewrite <- Ht at 1. apply reads_word; [done | by split; [| rewrite Hraw] |]. rewrite Hraw. intros d' Hd' Hq'.
  unfold done_word, o_length. rewrite Hd'. cbn [default]. unfold id. rewrite (proj2 (Z.eqb_neq _ 0)) by (destruct n; cbn; done || lia).
  cbn [andb between child mbind option_bind group argv new_child type]. rewrite bool_decide_eq_true_2 by done. cbn [andb].
  assert (add_word d' (between [] RES_FOR fl st ty) new_child = Some (0, OString (Some []) false false, between [Pipe [args [n]] PIPE_SEQ RES_FOR] RES_FOR fl st ty)) as Ha.
  { unfold add_word. rewrite Hd'. cbn [default]. unfold id. rewrite <- Hraw at 1. rewrite unescape_word, Hv by done. cbn [mbind option_bind].
    unfold b_reset. by rewrite Hd', Hq'. }
  destruct (has_flag ty FLAG_PARSE_SEMICOLON); [| exact Ha]. unfold reserved_word. rewrite Hd'. cbn [mbind option_bind]. by rewrite Hr.
Qed.

Lemma reads_all : (forall c, reads_command c) /\ (forall s, reads_script s) /\ (forall e, reads_orelse e).
Proof.
  apply script_ind3; unfold reads_command, reads_script, reads_orelse.
  - (* Simple *)
    intros ws [Hws (x & l & -> & Hf)] d hd m fl st ty Hd [Hm _] _ Hty. by apply reads_words.
  - (* If *)
    intros c IHc b IHb e IHe (Hc & Hb & He & _) d hd m fl st ty Hd Hm Hsn Hty.
    destruct (IHc Hc (OString (Some []) false false) [] RES_IF (start_of RES_IF) (Some (between hd m fl st ty)) ty) as (d1 & Hd1 & H1); [done | done | done | done |].
    destruct (IHb Hb (OString (Some []) false false) (pipes RES_IF c) RES_THEN then_flag (Some (between hd m fl st ty)) ty) as (d2 & Hd2 & H2); [done | done | done | done |].
    destruct (IHe He d2 (pipes RES_IF c ++ pipes RES_THEN b) hd m fl st ty ty) as (d3 & Hd3 & H3); [done | done | done |]. exists d3. split; [done |].
    eapply reads_app; [apply (reads_start (str "if") RES_IF); [by left | done..] |]. eapply reads_app; [exact H1 |].
    eapply reads_app; [by apply (reads_middle (str "then") RES_THEN then_flag); [chars | done..] |]. eapply reads_app; [exact H2 |].
    cbn [compile]. by rewrite app_assoc.
  - (* While *)
    intros u c IHc b IHb (Hc & Hb & _) d hd m fl st ty Hd Hm Hsn Hty. set (r := if u then RES_UNTIL else RES_WHILE).
    assert (plain_mode r /\ r <> RES_SNTX /\ r <> RES_NONE /\ start_of r = Z.lor (FLAG RES_DO) FLAG_START) as (Hr1 & Hr2 & Hr3 & Hr4) by (unfold plain_mode, r; by destruct u).
    destruct (IHc Hc (OString (Some []) false false) [] r (start_of r) (Some (between hd m fl st ty)) ty) as (d1 & Hd1 & H1); [done | done | done | done |].
    destruct (IHb Hb (OString (Some []) false false) (pipes r c) RES_DO (FLAG RES_DONE) (Some (between hd m fl st ty)) ty) as (d2 & Hd2 & H2); [done | done | done | done |].
    exists (OString (Some []) false false). split; [done |].
    assert (command_text (While u c b) = (if u then str "until" else str "while") ++ [32] ++ script_text c ++ str "do " ++ script_text b ++ str "done ") as -> by (by destruct u).
    rewrite app_assoc. eapply reads_app; [apply (reads_start _ r); [unfold r; destruct u; cbn; tauto | done..] |]. eapply reads_app; [exact H1 |].
    eapply reads_app; [apply (reads_middle (str "do") RES_DO (FLAG RES_DONE)); [chars | done | done | done | by rewrite Hr4 | done..] |]. eapply reads_app; [exact H2 |].
    cbn [compile]. fold r. rewrite app_assoc. by apply (reads_end (str "done") RES_DONE FLAG_END); [chars | done..].
  - (* For *)
    intros n ws b IHb ((Hn & Hne & Hnr) & Hws & Hf & Hb) d hd m fl st ty Hd Hm Hsn Hty.
    set (ctx0 := between hd m fl st ty). set (p0 := Pipe [args [n]] PIPE_SEQ RES_FOR).
    set (p1 := Pipe (match ws with [] => [] | _ => [args (map word_value ws)] end) PIPE_SEQ RES_IN).
    destruct (for_words_ok ws Hws Hf (OString (Some []) false false) [p0] (FLAG RES_DO) (Some ctx0) ty) as (d1 & Hd1 & H1); [done |].
    destruct (IHb Hb (OString (Some []) false false) [p0; p1] RES_DO (FLAG RES_DONE) (Some ctx0) ty) as (d2 & Hd2 & H2); [done | done | done | done |].
    exists (OString (Some []) false false). split; [done |]. cbn [command_text].
    eapply reads_app; [apply (reads_start (str "for") RES_FOR); [cbn; tauto | done..] |].
    change (str " in ") with ([32] ++ str "in "). rewrite <- !app_assoc.
    rewrite (app_assoc n [32]). eapply reads_app; [apply (reads_name n p0); done |].
    eapply reads_app; [apply (reads_middle (str "in") RES_IN (FLAG RES_DO)); [chars | done..] |]. eapply reads_app; [exact H1 |].
    change (str ";do ") with (str ";" ++ str "do "). rewrite <- app_assoc.
    eapply reads_app; [apply (reads_style PIPE_SEQ true _ _ (between [p0; p1] RES_IN (FLAG RES_DO) (Some ctx0) ty)); [done | done |]; unfold p1; by destruct ws |].
    eapply reads_app; [apply (reads_middle (str "do") RES_DO (FLAG RES_DONE)); [chars | done..] |]. eapply reads_app; [exact H2 |].
    by apply (reads_end (str "done") RES_DONE FLAG_END); [chars | done..].
  - (* Done *)
    intros _ d hd m fl st ty Hd _ _ _. exists d. split; [done |]. cbn. rewrite app_nil_r. apply reads_nil.
  - (* Item *)
    intros c IHc f s IHs (Hc & Hf & Hs) d hd m fl st ty Hd Hm Hsn Hty.
    destruct (IHc Hc d hd m fl st ty Hd Hm Hsn Hty) as (d1 & Hd1 & H1).
    destruct (IHs Hs d1 (hd ++ [Pipe [compile c] f m]) m fl st ty Hd1 Hm Hsn Hty) as (d2 & Hd2 & H2). exists d2. split; [done |].
    cbn [script_text pipes]. eapply reads_app; [exact H1 |]. eapply reads_app; [by apply (reads_style f (is_done s)); [| | apply done_pipe_child, compile_child] |].
    by rewrite <- app_assoc in H2.
  - (* Fi *)
    intros _ d hd hd0 m0 fl0 st0 ty0 ty Hd Hm0 Hty. exists (OString (Some []) false false). split; [done |].
    by apply (reads_end (str "fi") RES_FI FLAG_END); [chars | done..].
  - (* Elif *)
    intros c IHc b IHb e IHe (Hc & Hb & He & _) d hd hd0 m0 fl0 st0 ty0 ty Hd Hm0 Hty.
    destruct (IHc Hc (OString (Some []) false false) hd RES_ELIF (FLAG RES_THEN) (Some (between hd0 m0 fl0 st0 ty0)) ty) as (d1 & Hd1 & H1); [done | done | done | done |].
    destruct (IHb Hb (OString (Some []) false false) (hd ++ pipes RES_ELIF c) RES_THEN then_flag (Some (between hd0 m0 fl0 st0 ty0)) ty) as (d2 & Hd2 & H2); [done | done | done | done |].
    destruct (IHe He d2 ((hd ++ pipes RES_ELIF c) ++ pipes RES_THEN b) hd0 m0 fl0 st0 ty0 ty) as (d3 & Hd3 & H3); [done | done | done |]. exists d3. split; [done |].
    cbn [orelse_text orelse_pipes]. eapply reads_app; [apply (reads_middle (str "elif") RES_ELIF (FLAG RES_THEN)); [chars | done..] |]. eapply reads_app; [exact H1 |].
    eapply reads_app; [by apply (reads_middle (str "then") RES_THEN then_flag); [chars | done..] |]. eapply reads_app; [exact H2 |].
    by rewrite !app_assoc.
  - (* Else *)
    intros b IHb (Hb & _) d hd hd0 m0 fl0 st0 ty0 ty Hd Hm0 Hty.
    destruct (IHb Hb (OString (Some []) false false) hd RES_ELSE (FLAG RES_FI) (Some (between hd0 m0 fl0 st0 ty0)) ty) as (d1 & Hd1 & H1); [done | done | done | done |].
    exists (OString (Some []) false false). split; [done |]. cbn [orelse_text orelse_pipes].
    eapply reads_app; [apply (reads_middle (str "else") RES_ELSE (FLAG RES_FI)); [chars | done..] |]. eapply reads_app; [exact H1 |].
    rewrite app_assoc. by apply (reads_end (str "fi") RES_FI FLAG_END); [chars | done..].
Qed.

(** The context in front of a string, and behind a script in it. *)
Definition fresh (ty : Z) : p_context := initialize_context (Context_ None [] [] RES_NONE 0 None ty).
Definition parsed (s : script) (ty : Z) : p_context := between (pipes RES_NONE s ++ [Pipe [] PIPE_SEQ RES_NONE]) RES_NONE 0 None ty.

Lemma parse_text s ty rest d0 : script_ok s -> has_flag ty FLAG_PARSE_SEMICOLON = true -> empty d0 ->
  exists d, empty d /\ parse_stream IFS_map 10 (PState d0 (fresh ty) (Some (script_text s ++ 10 :: rest))) = Some (0, PState d (parsed s ty) (Some rest)).
Proof.
  intros Hs Hty H0. destruct (proj1 (proj2 reads_all) _ Hs d0 [] RES_NONE 0 None ty) as (d & Hd & Hr); [done..|]. exists d. split; [done |].
  destruct (Hr (S (S (S (length rest)))) (10 :: rest)) as (g & Hg & He).
  unfold parse_stream. replace (input_fuel _) with (S (S (S (length rest))) + length (script_text s))%nat
    by (unfold input_fuel; cbn; rewrite length_app; cbn; lia).
  change (fresh ty) with (between [] RES_NONE 0 None ty). rewrite He.
  destruct g as [| g]; [lia |]. cbn [parse_loop b_getch mbind option_bind input dest ctx]. change (10 =? EOF) with false. cbn iota.
  unfold parse_char. change (10 =? 10) with true. cbn [mbind option_bind input dest ctx]. change (IFS_map 10) with 2. rewrite (proj1 (proj2 Hd)).
  cbn [Z.eqb Pos.eqb orb andb]. unfold separate. cbn [dest ctx input]. rewrite (done_word_empty _ _ Hd). cbn. by rewrite (proj1 (proj2 Hd)).
Qed.

(** C22: The text of a script is read back: from the text and a newline behind it the
    parser makes the pipes of the script, without a construct left open, and it takes
    exactly these characters. *)
Theorem script_roundtrip s rest : script_ok s ->
  exists st, parse_stream IFS_map 10 (PState NULL_O_STRING (fresh 3) (Some (script_text s ++ 10 :: rest))) = Some (0, st) /\
    list_head (ctx st) = pipes RES_NONE s ++ [Pipe [] PIPE_SEQ RES_NONE; end_pipe] /\ old_flag (ctx st) = 0 /\ input st = Some rest.
Proof.
  intros Hs. destruct (parse_text s 3 rest NULL_O_STRING Hs eq_refl) as (d & Hd & He); [done |].
  eexists. split; [exact He |]. cbn. unfold list_head. cbn. by rewrite <- app_assoc.
Qed.

(** Words of plain characters. *)
Definition plain_word (t : text) : word := map Plain t.

(** if test a && true; then echo 'b c'; elif x; then for i in u v\ w ;do y; done ; fi || "z"; *)
Definition example_script : script :=
  Item (If (Item (Simple [plain_word (str "test"); plain_word (str "a")]) PIPE_AND (Item (Simple [plain_word (str "true")]) PIPE_SEQ Done))
    (Item (Simple [plain_word (str "echo"); [Single (str "b c")]]) PIPE_SEQ Done)
    (Elif (Item (Simple [plain_word (str "x")]) PIPE_SEQ Done)
      (Item (For (str "i") [plain_word (str "u"); [Plain 118; Esc 32; Plain 119]] (Item (Simple [plain_word (str "y")]) PIPE_SEQ Done)) PIPE_SEQ Done) Fi)) PIPE_OR
  (Item (Simple [[Double (str "z")]]) PIPE_SEQ Done).

(** Side conditions of concrete scripts. *)
Ltac script_check :=
  match goal with
  | |- True => exact I
  | |- _ /\ _ => split; script_check
  | |- Forall _ _ => constructor; script_check
  | |- exists _, _ => do 2 eexists; split; [reflexivity |]; script_check
  | |- _ = _ => reflexivity
  | |- _ <> _ => discriminate
  | |- _ < _ => reflexivity
  | |- _ => progress hnf; script_check
  end.

Lemma example_script_ok : script_ok example_script.
Proof. script_check. Qed.

Lemma script_roundtrip_witness : exists st, parse_stream IFS_map 10 (PState NULL_O_STRING (fresh 3) (Some (script_text example_script ++ 10 :: str "next"))) = Some (0, st) /\
    list_head (ctx st) = pipes RES_NONE example_script ++ [Pipe [] PIPE_SEQ RES_NONE; end_pipe] /\ old_flag (ctx st) = 0 /\ input st = Some (str "next").
Proof. exact (script_roundtrip example_script (str "next") example_script_ok). Defined.
