(* ===== verification/HushRun.v ===== *)
(** * The execution of command lists by the shell (common/hush.c)

    The local variables of the shell, the substitution of variables, the pipes and
    lists the parser (Hush) built, and the loop that parses and runs a string.  The
    machine the commands act on is a type with the operations of [Shell]; the shell
    adds its own variables to it.  Lists, strings and commands run one another:
    [depth] bounds the nesting and the rounds of a loop.  [None] is a fault, as in
    Hush, or too small a depth. *)

From S2P Require Import Prelude Ctype StringLib Hashtable HashIO Vsprintf Env Command Cli Hush.

(** ** State *)

Record variables := Variables { v_name : text; v_value : text; flg_export : Z; flg_read_only : bool }.

Record hush (M : Type) := Hush_ {
  top_vars : list variables;
  last_return_code : Z;
  flag_repeat : Z;
  do_repeat : bool;
  mach : M
}.
Arguments Hush_ {M}. Arguments top_vars {M}. Arguments last_return_code {M}. Arguments flag_repeat {M}. Arguments do_repeat {M}. Arguments mach {M}.

Section Shell.
Context {M : Type} `{Shell M}.

Definition set_vars l (h : hush M) := Hush_ l (last_return_code h) (flag_repeat h) (do_repeat h) (mach h).
Definition set_code c (h : hush M) := Hush_ (top_vars h) c (flag_repeat h) (do_repeat h) (mach h).
Definition set_repeat r (h : hush M) := Hush_ (top_vars h) (last_return_code h) r (do_repeat h) (mach h).
Definition set_mach (m : M) (h : hush M) := Hush_ (top_vars h) (last_return_code h) (flag_repeat h) (do_repeat h) m.

(** The operations of the machine on the state of the shell. *)
#[export] Instance hush_shell : Shell (hush M) := {|
  sh_getenv := fun name h => '(v, m) ← sh_getenv name (mach h); Some (v, set_mach m h);
  clear_ctrlc := fun h => set_mach (clear_ctrlc (mach h)) h;
  had_ctrlc := fun h => had_ctrlc (mach h);
  malloc_ok := fun h => let '(b, m) := malloc_ok (mach h) in (b, set_mach m h);
  tstc := fun h => let '(b, m) := tstc (mach h) in (b, set_mach m h);
  getc := fun h => let '(c, m) := getc (mach h) in (c, set_mach m h);
  udelay := fun n h => set_mach (udelay n (mach h)) h |}.

(** ** Local variables *)

(** [u_boot_hush_start] *)
Definition hush_start (l : list variables) : list variables :=
  match l with [] => [Variables (str "HUSH_VERSION") (str "0.01") 0 true] | _ => l end.

Definition get_dollar_var (ch : Z) (h : hush M) : option (option text) :=
  if ch =? 63 then '(t, _) ← vsprintf (str "%u") [A32 (last_return_code h)]; Some (Some (removelast t)) else Some None.

Fixpoint find_var (s : text) (l : list variables) : option variables :=
  match l with [] => None | v :: l => if bool_decide (v_name v = s) then Some v else find_var s l end.

Definition get_local_var (s : text) (h : hush M) : option (option text) :=
  match s with
  | 36 :: r => get_dollar_var (at0 r) h
  | _ => Some (v_value <$> find_var s (top_vars h))
  end.

(** [strchr (s, c)]: the text in front of it, and behind. *)
Fixpoint split_at (c : Z) (s : text) : option (text * text) :=
  match s with
  | [] => None
  | d :: s => if d =? c then Some ([], s) else '(a, b) ← split_at c s; Some (d :: a, b)
  end.

Fixpoint update_var (name value : text) (flg : Z) (l : list variables) : list variables :=
  match l with
  | [] => []
  | v :: l => if bool_decide (v_name v = name) then Variables name value flg (flg_read_only v) :: l else v :: update_var name value flg l
  end.

(** The variable is there: its value is the same, read-only, or replaced. *)
Definition change_var (name value : text) (flg : Z) (v : variables) (h : hush M) : Z * hush M :=
  if bool_decide (v_value v = value) then
    if (0 <? flg) && (flg_export v =? 0) then (0, set_vars (update_var name value flg (top_vars h)) h) else (1, h)
  else if flg_read_only v then (-1, h)
  else (0, set_vars (update_var name value (if (0 <? flg) || (1 <? flg_export v) then 1 else flg_export v) (top_vars h)) h).

(** Without '=' the pointer behind null is written to; a new variable goes behind
    the last one, and there must be one. *)
Definition set_local_var (s : text) (flg : Z) (h : hush M) : option (Z * hush M) :=
  if negb (isalpha (at0 s)) then Some (-1, h)
  else
    '(g, h) ← sh_getenv s h;
    match g with
    | Some _ => Some (-1, h)
    | None =>
        '(name, value) ← split_at 61 s;
        match find_var name (top_vars h) with
        | Some v => Some (change_var name value flg v h)
        | None => match top_vars h with [] => None | l => Some (0, set_vars (l ++ [Variables name value flg false]) h) end
        end
    end.

Definition is_assignment (s : text) : bool :=
  let fix rest (s : text) := match s with [] => false | c :: s => if isalnum c || (c =? 95) then rest s else c =? 61 end in
  match s with [] => false | c :: s => isalpha c && rest s end.

(** ** Substitution *)

(** The name and what follows its colon. *)
Definition param_parts (src : text) : text * option text :=
  match split_at 58 src with Some (a, b) => (a, Some b) | None => (src, None) end.

(** [default_val], [assign] and [expand_empty] *)
Definition param_mode (sep : option text) : option text * bool * bool :=
  match sep with
  | Some (45 :: d) => (Some d, false, false)
  | Some (61 :: d) => (Some d, true, false)
  | Some (43 :: d) => (Some d, false, true)
  | _ => (None, false, false)
  end.

Definition lookup_param (src : text) (h : hush M) : option (option text * hush M) :=
  let '(name, sep) := param_parts src in
  let '(default_val, assign, expand_empty) := param_mode sep in
  '(p, h) ← sh_getenv name h;
  p ← (match p with Some _ => Some p | None => get_local_var name h end);
  match p with
  | Some (_ :: _) => Some ((if expand_empty : bool then Some [] else p), h)
  | _ =>
      if assign : bool then
        '(_, h) ← set_local_var (name ++ 61 :: default [] default_val) 0 h;
        Some (default_val, h)
      else Some (default_val, h)
  end.

(** The loop of [insert_var_value_sub]: the result, and whether there was a
    variable; a missing end of a variable is written to. *)
Fixpoint insert_loop (fuel : nat) (inp : text) (tag : bool) (h : hush M) : option (text * bool * hush M) :=
  match fuel with
  | O => None
  | S fuel =>
      match split_at SPECIAL_VAR_SYMBOL inp with
      | None => Some (inp, false, h)
      | Some (before, rest) =>
          '(name, rest) ← split_at SPECIAL_VAR_SYMBOL rest;
          '(v, h) ← lookup_param name h;
          let v := match v with Some t => if tag then SUBSTED_VAR_SYMBOL :: t ++ [SUBSTED_VAR_SYMBOL] else t | None => [] end in
          '(t, _, h) ← insert_loop fuel rest tag h;
          Some (before ++ v ++ t, true, h)
      end
  end.

Definition newlines_to_spaces (t : text) : text := (fun c => if c =? 10 then 32 else c) <$> t.

Definition insert_var_value_sub (inp : text) (tag : bool) (h : hush M) : option (text * hush M) :=
  '(t, done, h) ← insert_loop (S (length inp)) inp tag h;
  Some ((if done : bool then newlines_to_spaces t else t), h).

Definition insert_var_value (inp : text) (h : hush M) : option (text * hush M) := insert_var_value_sub inp false h.

(** The words of a text, which spaces separate. *)
Fixpoint split_words (fuel : nat) (s : text) : list text :=
  match fuel with
  | O => []
  | S fuel =>
      match s with
      | [] => []
      | c :: s' =>
          if c =? 32 then split_words fuel s'
          else match split_at 32 s with Some (a, b) => a :: split_words fuel (32 :: b) | None => [s] end
      end
  end.

Fixpoint make_list_in (inp : list text) (name : text) (h : hush M) : option (list text * hush M) :=
  match inp with
  | [] => Some ([], h)
  | s :: inp =>
      '(p3, h) ← insert_var_value s h;
      '(l, h) ← make_list_in inp name h;
      Some (((fun x => name ++ 61 :: x) <$> split_words (S (length p3)) p3) ++ l, h)
  end.

Fixpoint join_loop (inp : list text) (noeval : bool) (h : hush M) : option (list text * hush M) :=
  match inp with
  | [] => Some ([], h)
  | s :: inp => '(p, h) ← insert_var_value_sub s noeval h; '(l, h) ← join_loop inp noeval h; Some (p :: l, h)
  end.

Fixpoint join (l : list text) : text :=
  match l with [] => [] | [s] => s | s :: l => s ++ 32 :: join l end.

(** The command line for the parser; without arguments [strlen] reads a null
    pointer. *)
Definition make_string (inp : list text) (h : hush M) : option (text * hush M) :=
  noeval ← get_local_var (str "HUSH_NO_EVAL") h;
  let noeval := match noeval with Some (c :: _) => negb (c =? 48) | _ => false end in
  match inp with
  | [] => None
  | _ => '(l, h) ← join_loop inp noeval h; Some (join l ++ [10], h)
  end.

(** ** Pipes *)

Context (table : list cmd_tbl) (do_bootd do_run_fn : Z).
(** The commands that are not modelled; they may run command lines. *)
Context (prim : Z -> (cstring -> Z -> hush M -> option (Z * hush M)) -> cmd_tbl -> Z -> list cstring -> hush M -> option (Z * hush M)).
(** Polling for Control-C. *)
Context (ctrlc : M -> bool * M).

(** Assignments in front of a command: the command's [sp]. *)
Fixpoint assign_all (l : list text) (s : Z) (h : hush M) : option (Z * hush M) :=
  match l with
  | [] => Some (s, h)
  | a :: l =>
      '(p, h) ← insert_var_value a h;
      '(_, h) ← set_local_var p 0 h;
      assign_all l (if existsb (Z.eqb SPECIAL_VAR_SYMBOL) a then s - 1 else s) h
  end.

Fixpoint assignments (l : list text) : list text :=
  match l with a :: l => if is_assignment a then a :: assignments l else [] | [] => [] end.

Section Nested.
(** The lists in groups, strings, and the commands. *)
Context (run_group : list pipe -> hush M -> option (Z * list pipe * hush M)) (run_string : text -> Z -> hush M -> option (Z * hush M)).

(** [run_command] *)
Definition run_command (cmd : text) (flag : Z) (h : hush M) : option (Z * hush M) :=
  run_string cmd (Z.lor FLAG_PARSE_SEMICOLON FLAG_EXIT_FROM_LOOP) h.

(** [cmd_process]; the command may change [flag_repeat] itself. *)
Definition run_process (args : list text) (h : hush M) : option (Z * hush M) :=
  let flag := if do_repeat h then CMD_FLAG_REPEAT else 0 in
  '(rc, mask, h) ← cmd_process table (call_command prim do_run_fn run_command) do_bootd flag args (-1) h;
  Some (rc, set_repeat (Z.land (flag_repeat h) mask) h).

(** A command with its arguments; its [sp] is kept. *)
Definition run_args (args : list text) (s : Z) (h : hush M) : option (Z * Z * hush M) :=
  let pre := assignments args in
  let rest := drop (length pre) args in
  match rest with
  | [] => '(_, h) ← assign_all pre s h; Some (0, s, h)
  | arg :: _ =>
      '(s, h) ← assign_all pre s h;
      if negb (s =? 0) then
        '(t, h) ← make_string rest h;
        '(_, h) ← run_string t (Z.lor FLAG_EXIT_FROM_LOOP FLAG_REPARSING) h;
        Some (last_return_code h, s, h)
      else if existsb (Z.eqb 59) arg then Some (-1, s, h)
      else '(r, h) ← run_process args h; Some (r, s, h)
  end.

(** The result, the pipe as it is left behind, and the state. *)
Definition run_pipe_real (p : pipe) (h : hush M) : option (Z * pipe * hush M) :=
  match p with
  | Pipe [Child a (Some g) s] f r => '(rc, g, h) ← run_group g h; Some (rc, Pipe [Child a (Some g) s] f r, h)
  | Pipe [Child (Some args) None s] f r => '(rc, s, h) ← run_args args s h; Some (rc, Pipe [Child (Some args) None s] f r, h)
  | _ => Some (-1, p, h)
  end.

(** ** Lists *)

Definition args_of (p : pipe) : option (list text) := match progs p with c :: _ => argv c | [] => None end.

(** [check syntax for "for"] *)
Fixpoint for_syntax (l : list pipe) : bool :=
  match l with
  | [] => true
  | p :: l =>
      match l with
      | [] => negb (bool_decide (r_mode p = RES_IN) || bool_decide (r_mode p = RES_FOR))
      | q :: _ =>
          negb (bool_decide (r_mode p = RES_IN) && bool_decide (r_mode q = RES_IN) && bool_decide (args_of q <> None) ||
                bool_decide (r_mode p = RES_FOR) && bool_decide (r_mode q <> RES_IN)) && for_syntax l
      end
  end.

(** The variables of [run_list_real]; pipes are named by their places in the list. *)
Record lstate := LState {
  flag_rep : bool; flag_skip : bool; flag_restore : bool;
  if_code : Z; next_if_code : Z;
  skip_more : reserved_style;
  rpipe : option nat;
  for_list : option (list text); save_name : text;
  l_rcode : Z;
  l_pipes : list pipe;
  l_hush : hush M
}.

Definition set_argv0 (t : text) (p : pipe) : pipe :=
  match p with
  | Pipe (Child (Some (_ :: a)) g s :: l) f r => Pipe (Child (Some (t :: a)) g s :: l) f r
  | _ => p
  end.

(** What follows a pipe: the next one, the result of the list, or a fault. *)
Inductive step_result := Continue (s : lstate) | Break (s : lstate) | Return (r : Z) (s : lstate).

Definition put_hush (h : hush M) (s : lstate) : lstate :=
  LState (flag_rep s) (flag_skip s) (flag_restore s) (if_code s) (next_if_code s) (skip_more s) (rpipe s) (for_list s) (save_name s) (l_rcode s) (l_pipes s) h.

(** The start of a loop. *)
Definition loop_head (i : nat) (s : lstate) : lstate :=
  LState (match rpipe s with None => false | Some _ => flag_rep s end) (flag_skip s) false (if_code s) (next_if_code s) (skip_more s)
    (match rpipe s with None => Some i | r => r end) (for_list s) (save_name s) (l_rcode s) (l_pipes s) (l_hush s).

Definition set_skip (b : bool) (m : reserved_style) (s : lstate) : lstate :=
  LState (flag_rep s) b (flag_restore s) (if_code s) (next_if_code s) m (rpipe s) (for_list s) (save_name s) (l_rcode s) (l_pipes s) (l_hush s).
Definition set_if_code (c : Z) (s : lstate) : lstate :=
  LState (flag_rep s) (flag_skip s) (flag_restore s) c (next_if_code s) (skip_more s) (rpipe s) (for_list s) (save_name s) (l_rcode s) (l_pipes s) (l_hush s).
Definition set_for (rep : bool) (l : option (list text)) (n : text) (pipes : list pipe) (s : lstate) : lstate :=
  LState rep (flag_skip s) (flag_restore s) (if_code s) (next_if_code s) (skip_more s) (rpipe s) l n (l_rcode s) pipes (l_hush s).
Definition set_done (s : lstate) : lstate :=
  LState (flag_rep s) (flag_skip s) (if flag_rep s then true else flag_restore s) (if_code s) (next_if_code s) (skip_more s)
    (if flag_rep s then rpipe s else None) (for_list s) (save_name s) (l_rcode s) (l_pipes s) (l_hush s).

(** The value of the variable of "for" for this round; whether there is one. *)
Definition take_value (i : nat) (s : lstate) : bool * lstate :=
  match for_list s with
  | Some (v :: l) => (true, set_for (flag_rep s) (Some l) (save_name s) (alter (set_argv0 v) i (l_pipes s)) s)
  | _ => (false, set_for false None (save_name s) (alter (set_argv0 (save_name s)) i (l_pipes s)) s)
  end.

Definition next_value (i : nat) (p : pipe) (s : lstate) : option (bool * lstate) :=
  match for_list s with
  | Some _ => Some (take_value i s)
  | None =>
      q ← l_pipes s !! S i;
      match args_of q with
      | None => Some (false, s)
      | Some words =>
          args ← args_of p;
          name ← List.hd_error args;
          '(l, h) ← make_list_in words name (l_hush s);
          Some (take_value i (set_for true (Some l) name (l_pipes s) (put_hush h s)))
      end
  end.

(** A pipe that is run; its place keeps what it leaves behind. *)
Definition run_it (i : nat) (s : lstate) : option step_result :=
  p ← l_pipes s !! i;
  let rmode := r_mode p in
  '(rcode, p, h) ← run_pipe_real p (l_hush s);
  let pipes := <[i := p]> (l_pipes s) in
  if rcode <? -1 then
    Some (Return (-2) (LState (flag_rep s) (flag_skip s) (flag_restore s) (if_code s) (next_if_code s) (skip_more s) (rpipe s) (for_list s) (save_name s)
      rcode pipes (set_code (u32 (- rcode - 2)) h)))
  else
    let failed := negb (rcode =? 0) in
    let h := set_code (if failed then 1 else 0) h in
    Some (Continue (LState
      (if bool_decide (rmode = RES_WHILE) then negb failed else if bool_decide (rmode = RES_UNTIL) then failed else flag_rep s)
      (flag_skip s) (flag_restore s) (if_code s)
      (if bool_decide (rmode = RES_IF \/ rmode = RES_ELIF) then rcode else next_if_code s)
      (if bool_decide (followup p = PIPE_OR) && negb failed || bool_decide (followup p = PIPE_AND) && failed then rmode else skip_more s)
      (rpipe s) (for_list s) (save_name s) rcode pipes h)).

(** What is done with a pipe that is not skipped. *)
Definition visit (i : nat) (p : pipe) (s : lstate) : option step_result :=
  let rmode := r_mode p in
  let s := set_skip true RES_XXXX s in
  let s := if bool_decide (rmode = RES_THEN \/ rmode = RES_ELSE) then set_if_code (next_if_code s) s else s in
  if bool_decide (rmode = RES_THEN) && negb (if_code s =? 0) then Some (Continue s)
  else if bool_decide (rmode = RES_ELSE) && (if_code s =? 0) then Some (Continue s)
  else if bool_decide (rmode = RES_ELIF) && (if_code s =? 0) then Some (Break s)
  else
    '(go, s) ← (if bool_decide (rmode = RES_FOR) && negb (bool_decide (progs p = [])) then next_value i p s else Some (true, s));
    if negb go then Some (Continue s)
    else if bool_decide (rmode = RES_IN) then Some (Continue s)
    else if bool_decide (rmode = RES_DO) && negb (flag_rep s) then Some (Continue s)
    else
      let s := if bool_decide (rmode = RES_DONE) then set_done s else s in
      if bool_decide (progs p = []) then Some (Continue s) else run_it i s.

(** One round of the loop for the pipe in the place [i]. *)
Definition list_step (i : nat) (p : pipe) (s : lstate) : option step_result :=
  let rmode := r_mode p in
  let loop := bool_decide (rmode = RES_WHILE \/ rmode = RES_UNTIL \/ rmode = RES_FOR) in
  let s := if loop then put_hush (set_mach (ctrlc (mach (l_hush s))).2 (l_hush s)) s else s in
  if loop && had_ctrlc (mach (l_hush s)) then Some (Return 1 s)
  else
    let s := if loop then loop_head i s else s in
    if bool_decide (rmode = skip_more s) && flag_skip s then
      Some (Continue (set_skip (negb (bool_decide (followup p = PIPE_SEQ)) && flag_skip s) (skip_more s) s))
    else visit i p s.

Fixpoint list_loop (rounds : nat) (pi : option nat) (s : lstate) : option (Z * list pipe * hush M) :=
  match rounds with
  | O => None
  | S rounds =>
      match pi ≫= fun i => (i,.) <$> l_pipes s !! i with
      | None => Some (l_rcode s, l_pipes s, l_hush s)
      | Some (i, p) =>
          r ← list_step i p s;
          match r with
          | Continue s => list_loop rounds (if flag_restore s then rpipe s else Some (S i)) s
          | Break s => Some (l_rcode s, l_pipes s, l_hush s)
          | Return r s => Some (r, l_pipes s, l_hush s)
          end
      end
  end.

Definition run_list_with (rounds : nat) (pipes : list pipe) (h : hush M) : option (Z * list pipe * hush M) :=
  if negb (for_syntax pipes) then Some (1, pipes, set_repeat 0 h)
  else list_loop rounds (Some O) (LState false true false 0 0 RES_XXXX None None [] 0 pipes h).

(** ** Strings *)

(** What is done with the list that was parsed: the result, and whether the loop
    is left. *)
Definition run_parsed (st : pstate) (h : hush M) : option (Z * bool * hush M) :=
  '(_, d, c) ← done_word (dest st) (ctx st);
  '(code, _, h) ← run_group (list_head (done_pipe c PIPE_SEQ)) h;
  if code =? -2 then Some (0, true, h) else Some (code, false, if code =? -1 then set_repeat 0 h else h).

(** [do { ... } while (rcode != -1 && !(flag & FLAG_EXIT_FROM_LOOP))]; a syntax error
    makes the input pointer null. *)
Fixpoint outer_loop (rounds : nat) (flag : Z) (temp : o_string) (inp : in_str) (code : Z) (h : hush M) : option (Z * hush M) :=
  match rounds with
  | O => None
  | S rounds =>
      let ctx := initialize_context (Context_ None [] [] RES_NONE 0 None flag) in
      '(IFS, h) ← sh_getenv (str "IFS") h;
      let map := update_ifs_map IFS in
      let map := if negb (has_flag flag FLAG_PARSE_SEMICOLON) || has_flag flag FLAG_REPARSING then mapset (str ";$&|") 0 map else map in
      '(rcode, st) ← parse_stream map 10 (PState temp ctx inp);
      let bad := negb (old_flag (Hush.ctx st) =? 0) in
      let h := if (rcode =? 1) || bad then set_repeat 0 h else h in
      if negb (rcode =? 1) && negb bad then
        '(code, leave, h) ← run_parsed st h;
        if leave || (rcode =? -1) || has_flag flag FLAG_EXIT_FROM_LOOP then Some ((if code =? 0 then 0 else 1), h)
        else outer_loop rounds flag (b_free (dest st)) (input st) code h
      else if (rcode =? -1) || has_flag flag FLAG_EXIT_FROM_LOOP then Some ((if code =? 0 then 0 else 1), h)
      else outer_loop rounds flag (OString None false false) None code h
  end.

Definition parse_stream_outer (inp : text) (flag : Z) (h : hush M) : option (Z * hush M) :=
  outer_loop (S (S (length inp))) flag NULL_O_STRING (Some inp) 0 h.

(** A newline is added unless the first one is the last character. *)
Definition with_newline (s : text) : text :=
  match split_at 10 s with Some (_, []) => s | _ => s ++ [10] end.
End Nested.

Definition parse_string_outer_with (run_group : list pipe -> hush M -> option (Z * list pipe * hush M)) (s : text) (flag : Z) (h : hush M) :
    option (Z * hush M) :=
  match s with [] => Some (1, h) | _ => parse_stream_outer run_group (with_newline s) flag h end.

Fixpoint run_list_real (depth : nat) (pipes : list pipe) (h : hush M) : option (Z * list pipe * hush M) :=
  match depth with
  | O => None
  | S depth =>
      run_list_with (run_list_real depth) (parse_string_outer_with (run_list_real depth)) depth pipes h
  end.

Definition parse_string_outer (depth : nat) : text -> Z -> hush M -> option (Z * hush M) := parse_string_outer_with (run_list_real depth).

(** [run_command_list] of common/main.c *)
Definition run_command_list (depth : nat) (cmd : text) (len : Z) (h : hush M) : option (Z * hush M) :=
  if len =? -1 then parse_string_outer depth cmd FLAG_PARSE_SEMICOLON h
  else
    let '(ok, m) := malloc_ok (mach h) in
    let h := set_mach m h in
    if negb ok then Some (1, h)
    else parse_string_outer depth (until_nul (take (Z.to_nat len) cmd)) FLAG_PARSE_SEMICOLON h.
End Shell.
