(* ===== verification/HushFacts.v ===== *)
(** * What the shell does with scripts (common/hush.c)

    A semantics of the scripts of HushParse in big steps, over the commands the shell
    runs for their words, and the proof that the shell executes a script that way:
    the text is parsed, the lists are walked with their marks for skipped parts and
    loops, and the result is that of the semantics. *)

From S2P Require Import Prelude Ctype StringLib Hashtable HashIO Vsprintf Env Command Cli Hush HushParse HushRun.

Section Facts.
Context {M : Type} `{Shell M}.
Context (table : list cmd_tbl) (do_bootd do_run_fn : Z).
Context (prim : Z -> (cstring -> Z -> hush M -> option (Z * hush M)) -> cmd_tbl -> Z -> list cstring -> hush M -> option (Z * hush M)).
Context (ctrlc : M -> bool * M).

Notation run_list_real := (run_list_real table do_bootd do_run_fn prim ctrlc).
Notation parse_string_outer := (parse_string_outer table do_bootd do_run_fn prim ctrlc).
Notation run_pipe_at d := (run_pipe_real table do_bootd do_run_fn prim (run_list_real d) (parse_string_outer d)).
Notation lstate := (lstate (M := M)).
Notation list_step_at d := (list_step table do_bootd do_run_fn prim ctrlc (run_list_real d) (parse_string_outer d)).
Notation list_loop_at d := (list_loop table do_bootd do_run_fn prim ctrlc (run_list_real d) (parse_string_outer d)).

(** ** Semantics *)

(** The words [args] run as a command, if it is given enough depth. *)
Definition executes (args : list text) (h : hush M) (r : Z) (h' : hush M) : Prop :=
  exists d, forall d', (d <= d')%nat ->
    run_args table do_bootd do_run_fn prim (parse_string_outer d') args 0 h = Some (r, 0, h').

(** Control-C is polled at the pipes of conditions, and was not pressed. *)
Definition loops (m : reserved_style) : bool := bool_decide (m = RES_WHILE \/ m = RES_UNTIL \/ m = RES_FOR).
Definition polled (m : reserved_style) (h h' : hush M) : Prop :=
  if loops m then h' = set_mach (ctrlc (mach h)).2 h /\ had_ctrlc (mach h') = false else h' = h.

(** [$?] behind a command with the result [r]. *)
Definition status (r : Z) (h : hush M) : hush M := set_code (if negb (r =? 0) then 1 else 0) h.

(** The result ends a chain of "&&" and "||". *)
Definition stops (f : pipe_style) (r : Z) : bool :=
  bool_decide (f = PIPE_OR) && (r =? 0) || bool_decide (f = PIPE_AND) && negb (r =? 0).

(** The rest of the chain is skipped, whatever its operators are. *)
Inductive skips (m : reserved_style) : script -> hush M -> script -> hush M -> Prop :=
  | skips_last c s h h' : polled m h h' -> skips m (Item c PIPE_SEQ s) h s h'
  | skips_more c f s h h1 s' h' : f <> PIPE_SEQ -> polled m h h1 -> skips m s h1 s' h' -> skips m (Item c f s) h s' h'.

Definition for_values (ws : list word) : list text :=
  flat_map (fun x => split_words (S (length (word_value x))) (word_value x)) ws.
Definition while_style (u : bool) : reserved_style := if u then RES_UNTIL else RES_WHILE.

(** [runs_script m s r h r' h']: in a part of the kind [m], behind a result [r]. *)
Inductive runs : command -> hush M -> Z -> hush M -> Prop :=
  | RSimple ws h r h' : executes (map word_value ws) h r h' -> runs (Simple ws) h r h'
  | RIf_true c b e h h1 r h' :
      runs_script RES_IF c 0 h 0 h1 -> runs_script RES_THEN b 0 h1 r h' -> runs (If c b e) h r h'
  | RIf_false c b e h rc h1 r h' :
      runs_script RES_IF c 0 h rc h1 -> rc <> 0 -> runs_orelse e rc h1 r h' -> runs (If c b e) h r h'
  | RWhile u c b h r h' : runs_while u c b 0 h r h' -> runs (While u c b) h r h'
  | RFor n ws b h r h' : runs_for n b (for_values ws) 0 h r h' -> runs (For n ws b) h r h'
with runs_script : reserved_style -> script -> Z -> hush M -> Z -> hush M -> Prop :=
  | RDone m r h : runs_script m Done r h r h
  | RNext m c f s r h h1 r1 h2 r' h' :
      polled m h h1 -> runs c h1 r1 h2 -> -1 <= r1 -> stops f r1 = false ->
      runs_script m s r1 (status r1 h2) r' h' -> runs_script m (Item c f s) r h r' h'
  | RSkip m c f s r h h1 r1 h2 s' h3 r' h' :
      polled m h h1 -> runs c h1 r1 h2 -> -1 <= r1 -> stops f r1 = true ->
      skips m s (status r1 h2) s' h3 -> runs_script m s' r1 h3 r' h' -> runs_script m (Item c f s) r h r' h'
with runs_orelse : orelse -> Z -> hush M -> Z -> hush M -> Prop :=
  | RFi r h : runs_orelse Fi r h r h
  | RElif_true c b e r h h1 r' h' :
      runs_script RES_ELIF c r h 0 h1 -> runs_script RES_THEN b 0 h1 r' h' -> runs_orelse (Elif c b e) r h r' h'
  | RElif_false c b e r h rc h1 r' h' :
      runs_script RES_ELIF c r h rc h1 -> rc <> 0 -> runs_orelse e rc h1 r' h' -> runs_orelse (Elif c b e) r h r' h'
  | RElse b r h r' h' : runs_script RES_ELSE b r h r' h' -> runs_orelse (Else b) r h r' h'
with runs_while : bool -> script -> script -> Z -> hush M -> Z -> hush M -> Prop :=
  | RStop u c b r h rc h1 : runs_script (while_style u) c r h rc h1 -> (rc =? 0) = u -> runs_while u c b r h rc h1
  | RAgain u c b r h rc h1 rb h2 r' h' :
      runs_script (while_style u) c r h rc h1 -> (rc =? 0) = negb u -> runs_script RES_DO b rc h1 rb h2 ->
      runs_while u c b rb h2 r' h' -> runs_while u c b r h r' h'
with runs_for : text -> script -> list text -> Z -> hush M -> Z -> hush M -> Prop :=
  | REnd n b r h h1 : polled RES_FOR h h1 -> runs_for n b [] r h r h1
  | REach n b v l r h h1 ra h2 rb h3 r' h' :
      polled RES_FOR h h1 -> executes [n ++ 61 :: v] h1 ra h2 -> -1 <= ra ->
      runs_script RES_DO b ra (status ra h2) rb h3 -> runs_for n b l rb h3 r' h' -> runs_for n b (v :: l) r h r' h'.

Scheme runs_mut := Minimality for runs Sort Prop
  with runs_script_mut := Minimality for runs_script Sort Prop
  with runs_orelse_mut := Minimality for runs_orelse Sort Prop
  with runs_while_mut := Minimality for runs_while Sort Prop
  with runs_for_mut := Minimality for runs_for Sort Prop.
Combined Scheme runs_ind5 from runs_mut, runs_script_mut, runs_orelse_mut, runs_while_mut, runs_for_mut.

(** ** Walking a list *)

Definition leads (i : nat) (s : lstate) (j : nat) (s' : lstate) : Prop :=
  exists d n, forall d' rounds, (d <= d')%nat -> list_loop_at d' (n + rounds) (Some i) s = list_loop_at d' rounds (Some j) s'.
Definition ends (i : nat) (s : lstate) (r : Z) (h : hush M) (l : list pipe) : Prop :=
  exists d n, forall d' rounds, (d <= d')%nat -> list_loop_at d' (n + rounds) (Some i) s = Some (r, l, h).

Lemma leads_refl i s : leads i s i s.
Proof. by exists O, O. Qed.

Lemma leads_trans i1 s1 i2 s2 i3 s3 : leads i1 s1 i2 s2 -> leads i2 s2 i3 s3 -> leads i1 s1 i3 s3.
Proof.
  intros (d1 & n1 & H1) (d2 & n2 & H2). exists (max d1 d2), (n1 + n2)%nat. intros d' rounds Hd. rewrite <- Nat.add_assoc.
  rewrite H1, H2 by lia. done.
Qed.

Lemma leads_ends i1 s1 i2 s2 r h l : leads i1 s1 i2 s2 -> ends i2 s2 r h l -> ends i1 s1 r h l.
Proof.
  intros (d1 & n1 & H1) (d2 & n2 & H2). exists (max d1 d2), (n1 + n2)%nat. intros d' rounds Hd. rewrite <- Nat.add_assoc.
  rewrite H1, H2 by lia. done.
Qed.

Lemma ends_here s r : l_rcode s = r -> ends (length (l_pipes s)) s r (l_hush s) (l_pipes s).
Proof.
  intros <-. exists O, 1%nat. intros d' rounds _. cbn [Nat.add list_loop mbind option_bind].
  assert (l_pipes s !! length (l_pipes s) = None) as -> by (by apply lookup_ge_None). done.
Qed.

Lemma step_leads d i p s s' : l_pipes s !! i = Some p -> (forall d', (d <= d')%nat -> list_step_at d' i p s = Some (Continue s')) ->
  flag_restore s' = false -> leads i s (S i) s'.
Proof.
  intros Hp Hs Hr. exists d, 1%nat. intros d' rounds Hd. cbn [Nat.add list_loop mbind option_bind]. rewrite Hp. cbn [fmap option_fmap option_map].
  rewrite Hs by done. cbn [mbind option_bind]. by rewrite Hr.
Qed.

Lemma step_back d i p s s' j : l_pipes s !! i = Some p -> (forall d', (d <= d')%nat -> list_step_at d' i p s = Some (Continue s')) ->
  flag_restore s' = true -> rpipe s' = Some j -> leads i s j s'.
Proof.
  intros Hp Hs Hr Hj. exists d, 1%nat. intros d' rounds Hd. cbn [Nat.add list_loop mbind option_bind]. rewrite Hp. cbn [fmap option_fmap option_map].
  rewrite Hs by done. cbn [mbind option_bind]. by rewrite Hr, Hj.
Qed.

(** Nothing is being skipped. *)
Definition settled (s : lstate) : Prop := skip_more s = RES_XXXX \/ flag_skip s = false.

(** The state behind commands of a part of the kind [m] that starts at [i]. *)
Definition after (m : reserved_style) (i : nat) (s : lstate) (r : Z) (h : hush M) (b : bool) (sm : reserved_style) : lstate :=
  LState (match m with RES_WHILE => r =? 0 | RES_UNTIL => negb (r =? 0) | _ => flag_rep s end) b
    (if loops m then false else flag_restore s)
    (match m with RES_THEN | RES_ELSE => next_if_code s | _ => if_code s end)
    (match m with RES_IF | RES_ELIF => r | _ => next_if_code s end) sm
    (if loops m then match rpipe s with None => Some i | j => j end else rpipe s)
    (for_list s) (save_name s) r (l_pipes s) h.

Lemma after_after m i j s r1 h1 b1 m1 r2 h2 b2 m2 : after m j (after m i s r1 h1 b1 m1) r2 h2 b2 m2 = after m i s r2 h2 b2 m2.
Proof. unfold after. destruct m, (rpipe s); reflexivity. Qed.

(** The part is one that runs. *)
Definition mode_ok (m : reserved_style) (s : lstate) : Prop :=
  match m with
  | RES_THEN => next_if_code s = 0 | RES_ELSE => next_if_code s <> 0 | RES_ELIF => if_code s <> 0 | RES_DO => flag_rep s = true
  | RES_NONE | RES_IF | RES_WHILE | RES_UNTIL => True
  | _ => False
  end.

Lemma mode_ok_after m i s r h b sm : mode_ok m s -> mode_ok m (after m i s r h b sm).
Proof. by destruct m. Qed.

Lemma loops_spec m : loops m = match m with RES_WHILE | RES_UNTIL | RES_FOR => true | _ => false end.
Proof. by destruct m. Qed.

Ltac decide_modes := repeat match goal with |- context [@bool_decide ?P ?D] =>
  let e := eval vm_compute in (@bool_decide P D) in match e with true => idtac | false => idtac end; change (@bool_decide P D) with e end.

(** The state in which a pipe is visited. *)
Definition entering (m : reserved_style) (i : nat) (h : hush M) (s : lstate) : lstate :=
  put_hush h (if loops m then loop_head i s else s).

Notation visit_at d := (visit table do_bootd do_run_fn prim (run_list_real d) (parse_string_outer d)).

Lemma list_step_visit d i cs f m s h1 : settled s -> m <> RES_XXXX -> polled m (l_hush s) h1 ->
  list_step_at d i (Pipe cs f m) s = visit_at d i (Pipe cs f m) (entering m i h1 s).
Proof.
  intros Hs Hm Hp. unfold list_step. cbn [r_mode]. fold (loops m). unfold entering, polled in *.
  assert (bool_decide (m = skip_more s) && flag_skip s = false) as Hskip.
  { destruct Hs as [-> | ->]; [by rewrite bool_decide_eq_false_2 | by rewrite andb_false_r]. }
  destruct s as [frep fskip frest ifc next skip rp fl sn rc pp hh]. cbn in *. destruct (loops m).
  - destruct Hp as [-> Hc]. cbn in Hc |- *. rewrite Hc, Hskip. done.
  - subst. cbn. rewrite Hskip. done.
Qed.

Lemma step_command d i c f m s h1 r h2 : settled s -> mode_ok m s -> l_pipes s !! i = Some (Pipe [c] f m) ->
  polled m (l_hush s) h1 -> -1 <= r ->
  (forall d', (d <= d')%nat -> run_pipe_at d' (Pipe [c] f m) h1 = Some (r, Pipe [c] f m, h2)) ->
  forall d', (d <= d')%nat ->
    list_step_at d' i (Pipe [c] f m) s = Some (Continue (after m i s r (status r h2) true (if stops f r then m else RES_XXXX))).
Proof.
  intros Hs Hm Hp Hpoll Hr Hrun d' Hd. specialize (Hrun d' Hd). rewrite (list_step_visit _ _ _ _ _ _ h1) by (done || by intros ->).
  destruct s as [frep fskip frest ifc next skip rp fl sn rc pp hh]. unfold visit, entering, run_it, after, stops, status. rewrite loops_spec.
  cbn [r_mode progs l_pipes] in *.
  destruct m; cbn in Hm; try done; decide_modes; cbn; subst; try rewrite (proj2 (Z.eqb_neq _ 0) Hm); cbn; rewrite Hp;
    cbn [mbind option_bind r_mode]; rewrite Hrun; cbn; rewrite (list_insert_id pp i) by done; rewrite (proj2 (Z.ltb_ge r (-1))) by done; decide_modes; destruct (r =? 0); try done.
Qed.

(** A command in the rest of a chain that is skipped. *)
Lemma step_chain d i j c f m s r h h1 : mode_ok m s -> polled m h h1 ->
  list_step_at d j (Pipe [c] f m) (after m i s r h true m) = Some (Continue (after m i s r h1 (negb (bool_decide (f = PIPE_SEQ))) m)).
Proof.
  intros Hm Hp. unfold list_step. cbn [r_mode]. fold (loops m). unfold polled in Hp. destruct (loops m) eqn:Hl.
  - destruct Hp as [-> Hc]. cbn in Hc |- *. rewrite Hc. rewrite bool_decide_eq_true_2 by done. cbn. rewrite andb_true_r.
    unfold after, set_skip, loop_head. rewrite Hl. cbn. by destruct (rpipe s).
  - subst. cbn. rewrite bool_decide_eq_true_2 by done. cbn. by rewrite andb_true_r.
Qed.

(** A part that does not run. *)
Definition mode_off (m : reserved_style) (s : lstate) : Prop :=
  match m with RES_THEN => next_if_code s <> 0 | RES_ELSE => next_if_code s = 0 | RES_DO => flag_rep s = false | _ => False end.
Definition passed (m : reserved_style) (s : lstate) : lstate :=
  set_skip true RES_XXXX (match m with RES_THEN | RES_ELSE => set_if_code (next_if_code s) s | _ => s end).

Lemma passed_idem m s : passed m (passed m s) = passed m s.
Proof. by destruct m. Qed.

Lemma step_off d i cs f m s : settled s -> mode_off m s -> list_step_at d i (Pipe cs f m) s = Some (Continue (passed m s)).
Proof.
  intros Hs Hm. rewrite (list_step_visit _ _ _ _ _ _ (l_hush s)); [| done | by intros -> | by destruct m].
  destruct s as [frep fskip frest ifc next skip rp fl sn rc pp hh]. unfold visit, entering. rewrite loops_spec. cbn [r_mode progs].
  destruct m; cbn in Hm; try done; decide_modes; cbn; subst; try rewrite (proj2 (Z.eqb_neq _ 0) Hm); done.
Qed.

(** The pipes at the end of a list. *)
Lemma step_idle d i f m s : settled s -> m = RES_NONE \/ m = RES_FI -> list_step_at d i (Pipe [] f m) s = Some (Continue (set_skip true RES_XXXX s)).
Proof.
  intros Hs Hm. rewrite (list_step_visit _ _ _ _ _ _ (l_hush s)); [| done | by destruct Hm as [-> | ->] | by destruct Hm as [-> | ->]].
  destruct s as [frep fskip frest ifc next skip rp fl sn rc pp hh]. unfold visit, entering. rewrite loops_spec. cbn [r_mode progs].
  destruct Hm as [-> | ->]; decide_modes; done.
Qed.

Lemma step_done d i s : settled s -> list_step_at d i (Pipe [] PIPE_SEQ RES_DONE) s = Some (Continue (set_done (set_skip true RES_XXXX s))).
Proof.
  intros Hs. rewrite (list_step_visit _ _ _ _ _ _ (l_hush s)); [| done..].
  destruct s as [frep fskip frest ifc next skip rp fl sn rc pp hh]. unfold visit, entering. rewrite loops_spec. cbn [r_mode progs]. decide_modes. done.
Qed.

(** "elif" behind a part that ran ends the list. *)
Lemma step_elif_break d i cs f s : settled s -> if_code s = 0 ->
  exists s', list_step_at d i (Pipe cs f RES_ELIF) s = Some (Break s') /\ l_rcode s' = l_rcode s /\ l_hush s' = l_hush s /\ l_pipes s' = l_pipes s.
Proof.
  intros Hs Hc. rewrite (list_step_visit _ _ _ _ _ _ (l_hush s)); [| done..].
  destruct s as [frep fskip frest ifc next skip rp fl sn rc pp hh]. unfold visit, entering. rewrite loops_spec. cbn [r_mode progs]. cbn in Hc. subst. decide_modes.
  eexists. split; [reflexivity | done].
Qed.

(** ** Parts of lists *)

Lemma lookup_part {A} (pre post : list A) x : (pre ++ x :: post) !! length pre = Some x.
Proof. by rewrite lookup_app_r, Nat.sub_diag by lia. Qed.

Lemma section_off m sc : forall pre post s, l_pipes s = pre ++ pipes m sc ++ post -> settled s -> mode_off m s -> flag_restore s = false ->
  leads (length pre) s (length (pre ++ pipes m sc)) (if is_done sc then s else passed m s).
Proof.
  induction sc as [| c f sc IH]; intros pre post s Hl Hs Hm Hr; cbn [pipes is_done] in *; [rewrite app_nil_r; apply leads_refl |].
  eapply leads_trans.
  - apply (step_leads O _ (Pipe [compile c] f m) s (passed m s)); [rewrite Hl; apply lookup_part | by intros; apply step_off | by destruct m].
  - replace (S (length pre)) with (length (pre ++ [Pipe [compile c] f m])) by (rewrite length_app; cbn; lia).
    replace (passed m s) with (if is_done sc then passed m s else passed m (passed m s)) at 2 by (rewrite passed_idem; by destruct (is_done sc)).
    replace (pre ++ Pipe [compile c] f m :: pipes m sc) with ((pre ++ [Pipe [compile c] f m]) ++ pipes m sc) by (by rewrite <- app_assoc).
    apply (IH _ post); [rewrite <- app_assoc; cbn; by destruct m | by left; destruct m | by destruct m | by destruct m].
Qed.

Lemma ends_idle l : forall pre s, l_pipes s = pre ++ l -> Forall (fun p => progs p = [] /\ (r_mode p = RES_NONE \/ r_mode p = RES_FI)) l ->
  settled s -> flag_restore s = false -> ends (length pre) s (l_rcode s) (l_hush s) (l_pipes s).
Proof.
  induction l as [| [cs f m] l IH]; intros pre s Hl Hf Hs Hr.
  - replace (length pre) with (length (l_pipes s)) by (by rewrite Hl, app_nil_r). by apply ends_here.
  - apply Forall_cons in Hf as [[Hc Hm] Hf]. cbn in Hc, Hm. subst cs.
    eapply leads_ends; [apply (step_leads O _ (Pipe [] f m) s (set_skip true RES_XXXX s)); [rewrite Hl; apply lookup_part | by intros; apply step_idle | done] |].
    replace (S (length pre)) with (length (pre ++ [Pipe [] f m])) by (rewrite length_app; cbn; lia).
    apply (IH (pre ++ [Pipe [] f m]) (set_skip true RES_XXXX s)); [rewrite <- app_assoc; done | done | by left | done].
Qed.

(** The mark of a finished loop does not come from outside. *)
Definition restored (m : reserved_style) (s : lstate) : Prop := loops m = true \/ flag_restore s = false.

Lemma restored_after m i s r h b sm : restored m s -> flag_restore (after m i s r h b sm) = false.
Proof. intros [Hm | Hm]; unfold after; cbn; [by rewrite Hm | by rewrite Hm; destruct (loops m)]. Qed.

Lemma section_chain m sc h sc' h' : skips m sc h sc' h' -> forall pre post i b r, l_pipes b = pre ++ pipes m sc ++ post -> mode_ok m b -> restored m b ->
  exists sk, pipes m sc = sk ++ pipes m sc' /\ leads (length pre) (after m i b r h true m) (length (pre ++ sk)) (after m i b r h' false m).
Proof.
  induction 1 as [c s h h1 Hp | c f s h h1 s' h' Hf Hp Hsk IH]; intros pre post i b r Hl Hm Hr; cbn [pipes] in *.
  - exists [Pipe [compile c] PIPE_SEQ m]. split; [done |]. rewrite length_app. cbn [length]. rewrite Nat.add_1_r.
    apply (step_leads O _ (Pipe [compile c] PIPE_SEQ m)); [cbn; rewrite Hl; apply lookup_part | | by apply restored_after].
    intros d' _. by rewrite (step_chain _ _ _ _ _ _ _ _ _ h1).
  - destruct (IH (pre ++ [Pipe [compile c] f m]) post i b r) as (sk & He & Hle); [by rewrite Hl, <- app_assoc | done | done |].
    exists (Pipe [compile c] f m :: sk). split; [by rewrite He |]. eapply leads_trans.
    + apply (step_leads O _ (Pipe [compile c] f m) _ (after m i b r h1 true m)); [cbn; rewrite Hl; apply lookup_part | | by apply restored_after].
      intros d' _. rewrite (step_chain _ _ _ _ _ _ _ _ _ h1) by done. by rewrite bool_decide_eq_false_2.
    + rewrite <- app_assoc in Hle. cbn [app] in Hle. rewrite length_app in Hle. cbn in Hle. by rewrite Nat.add_1_r in Hle.
Qed.

(** ** The execution of commands and scripts *)

Definition does_command (c : command) (h : hush M) (r : Z) (h' : hush M) : Prop := command_ok c ->
  exists d, forall d' f m, (d <= d')%nat -> run_pipe_at d' (Pipe [compile c] f m) h = Some (r, Pipe [compile c] f m, h').
Definition does_script (m : reserved_style) (sc : script) (r : Z) (h : hush M) (r' : Z) (h' : hush M) : Prop := script_ok sc ->
  forall pre post s, l_pipes s = pre ++ pipes m sc ++ post -> settled s -> l_rcode s = r -> l_hush s = h -> mode_ok m s -> restored m s ->
  exists s', leads (length pre) s (length (pre ++ pipes m sc)) s' /\ settled s' /\ l_rcode s' = r' /\ l_hush s' = h' /\
    if is_done sc then s' = s else exists b sm, s' = after m (length pre) s r' h' b sm.
Definition does_orelse (e : orelse) (r : Z) (h : hush M) (r' : Z) (h' : hush M) : Prop := orelse_ok e ->
  forall pre s, l_pipes s = pre ++ orelse_pipes e -> settled s -> l_rcode s = r -> l_hush s = h ->
  next_if_code s <> 0 -> if_code s <> 0 -> flag_restore s = false -> ends (length pre) s r' h' (l_pipes s).
Definition while_pipes (u : bool) (c b : script) : list pipe :=
  pipes (while_style u) c ++ pipes RES_DO b ++ [Pipe [] PIPE_SEQ RES_DONE; end_pipe].
Definition does_while (u : bool) (c b : script) (r : Z) (h : hush M) (r' : Z) (h' : hush M) : Prop :=
  script_ok c -> is_done c = false -> script_ok b -> forall s, l_pipes s = while_pipes u c b -> settled s -> l_rcode s = r -> l_hush s = h ->
  rpipe s = None \/ rpipe s = Some O -> ends O s r' h' (l_pipes s).
Definition for_pipes (a : text) (q : pipe) (b : script) : list pipe :=
  [Pipe [args [a]] PIPE_SEQ RES_FOR; q] ++ pipes RES_DO b ++ [Pipe [] PIPE_SEQ RES_DONE; end_pipe].
Definition does_for (n : text) (b : script) (l : list text) (r : Z) (h : hush M) (r' : Z) (h' : hush M) : Prop :=
  script_ok b -> forall s a q, l_pipes s = for_pipes a q b -> r_mode q = RES_IN -> settled s -> l_rcode s = r -> l_hush s = h ->
  rpipe s = Some O -> for_list s = Some ((fun v => n ++ 61 :: v) <$> l) -> save_name s = n -> flag_rep s = true ->
  ends O s r' h' (for_pipes n q b).

Lemma stops_settled f r (m : reserved_style) : stops f r = false -> (if stops f r then m else RES_XXXX) = RES_XXXX.
Proof. by intros ->. Qed.

Lemma does_next m c f sc r h h1 r1 h2 r' h' : polled m h h1 -> does_command c h1 r1 h2 -> -1 <= r1 -> stops f r1 = false ->
  does_script m sc r1 (status r1 h2) r' h' -> does_script m (Item c f sc) r h r' h'.
Proof.
  intros Hp Hc Hr1 Hst Hsc (Hok & _ & Hoks) pre post s Hl Hs Hr Hh Hm Hre. cbn [pipes is_done] in *. destruct (Hc Hok) as (d & Hd). subst h.
  set (s1 := after m (length pre) s r1 (status r1 h2) true RES_XXXX).
  assert (leads (length pre) s (S (length pre)) s1) as H1.
  { apply (step_leads d _ (Pipe [compile c] f m)); [rewrite Hl; apply lookup_part | | by apply restored_after].
    intros d' Hd'. rewrite (step_command d _ _ _ _ _ h1 r1 h2); [by rewrite Hst | done | done | rewrite Hl; apply lookup_part | done | done | | done].
    intros. by apply Hd. }
  destruct (Hsc Hoks (pre ++ [Pipe [compile c] f m]) post s1) as (s' & Hle & Hs' & Hr' & Hh' & He);
    [cbn; by rewrite Hl, <- app_assoc | by left | done | done | by apply mode_ok_after | by right; apply restored_after |].
  exists s'. split_and!; [| done.. |].
  - eapply leads_trans; [exact H1 |]. rewrite <- app_assoc in Hle. cbn [app] in Hle. rewrite length_app in Hle at 1. cbn in Hle. by rewrite Nat.add_1_r in Hle.
  - destruct (is_done sc); [subst; by exists true, RES_XXXX |]. destruct He as (bb & sm & ->). exists bb, sm. apply after_after.
Qed.

Lemma skips_ok m sc h sc' h' : skips m sc h sc' h' -> script_ok sc -> script_ok sc'.
Proof. induction 1 as [| c f s h h1 s' h' Hf Hp Hsk IH]; intros (Hc & Hst & Hs); [done | by apply IH]. Qed.

Lemma does_skip m c f sc r h h1 r1 h2 sc' h3 r' h' : polled m h h1 -> does_command c h1 r1 h2 -> -1 <= r1 -> stops f r1 = true ->
  skips m sc (status r1 h2) sc' h3 -> does_script m sc' r1 h3 r' h' -> does_script m (Item c f sc) r h r' h'.
Proof.
  intros Hp Hc Hr1 Hst Hsk Hsc (Hok & _ & Hoks) pre post s Hl Hs Hr Hh Hm Hre. cbn [pipes is_done] in *. destruct (Hc Hok) as (d & Hd). subst h.
  set (s1 := after m (length pre) s r1 (status r1 h2) true m).
  assert (leads (length pre) s (S (length pre)) s1) as H1.
  { apply (step_leads d _ (Pipe [compile c] f m)); [rewrite Hl; apply lookup_part | | by apply restored_after].
    intros d' Hd'. rewrite (step_command d _ _ _ _ _ h1 r1 h2); [by rewrite Hst | done | done | rewrite Hl; apply lookup_part | done | done | | done].
    intros. by apply Hd. }
  destruct (section_chain m sc _ sc' h3 Hsk (pre ++ [Pipe [compile c] f m]) post (length pre) s r1) as (sk & Hsk' & H2);
    [by rewrite Hl, <- app_assoc | done | done |].
  set (s2 := after m (length pre) s r1 h3 false m) in *.
  destruct (Hsc (skips_ok _ _ _ _ _ Hsk Hoks) ((pre ++ [Pipe [compile c] f m]) ++ sk) post s2) as (s' & Hle & Hs' & Hr' & Hh' & He);
    [cbn; rewrite Hl, Hsk', <- !app_assoc; cbn; by rewrite <- app_assoc | by right | done | done | by apply mode_ok_after | by right; apply restored_after |].
  exists s'. split_and!; [| done.. |].
  - eapply leads_trans; [exact H1 |]. rewrite length_app in H2 at 1. cbn in H2. rewrite Nat.add_1_r in H2. eapply leads_trans; [exact H2 |].
    replace (pre ++ Pipe [compile c] f m :: pipes m sc) with (((pre ++ [Pipe [compile c] f m]) ++ sk) ++ pipes m sc') by (by rewrite Hsk', <- !app_assoc).
    exact Hle.
  - destruct (is_done sc'); [subst; by exists false, m |]. destruct He as (bb & sm & ->). exists bb, sm. apply after_after.
Qed.

(** What is left of "if" behind a part that ran. *)
Lemma orelse_left e : forall pre s, orelse_ok e -> l_pipes s = pre ++ orelse_pipes e -> settled s -> next_if_code s = 0 -> if_code s = 0 -> flag_restore s = false ->
  ends (length pre) s (l_rcode s) (l_hush s) (l_pipes s).
Proof.
  intros pre s He Hl Hs Hn Hi Hr. destruct e as [| c b e | b]; cbn [orelse_pipes] in Hl.
  - apply (ends_idle [Pipe [] PIPE_SEQ RES_FI; end_pipe]); [done | | done | done]. repeat apply Forall_cons; cbn; auto using Forall_nil.
  - destruct He as (_ & _ & _ & Hne & _). destruct c as [| c1 f c]; [done |]. cbn [pipes app] in Hl.
    exists O, 1%nat. intros d' rounds _. cbn [Nat.add list_loop mbind option_bind]. rewrite Hl, lookup_part. cbn [fmap option_fmap option_map].
    destruct (step_elif_break d' (length pre) [compile c1] f s Hs Hi) as (s' & -> & E1 & E2 & E3). cbn [mbind option_bind]. by rewrite E1, E2, E3, Hl.
  - destruct He as [_ Hne]. eapply leads_ends; [by apply (section_off RES_ELSE b pre [Pipe [] PIPE_SEQ RES_FI; end_pipe] s) |]. rewrite Hne.
    apply (ends_idle [Pipe [] PIPE_SEQ RES_FI; end_pipe] _ (passed RES_ELSE s)); [by rewrite <- app_assoc | | by left | done].
    repeat apply Forall_cons; cbn; auto using Forall_nil.
Qed.

Lemma does_fi r h : does_orelse Fi r h r h.
Proof.
  intros _ pre s Hl Hs <- <- _ _ Hr. apply (ends_idle [Pipe [] PIPE_SEQ RES_FI; end_pipe]); [done | | done | done].
  repeat apply Forall_cons; cbn; auto using Forall_nil.
Qed.

Lemma does_else b r h r' h' : does_script RES_ELSE b r h r' h' -> does_orelse (Else b) r h r' h'.
Proof.
  intros Hb [Hok Hne] pre s Hl Hs Hr Hh Hn Hi Hre. cbn [orelse_pipes] in Hl.
  destruct (Hb Hok pre [Pipe [] PIPE_SEQ RES_FI; end_pipe] s Hl Hs Hr Hh Hn (or_intror Hre)) as (s' & Hle & Hs' & Hr' & Hh' & He). rewrite Hne in He.
  destruct He as (bb & sm & ->). eapply leads_ends; [exact Hle |].
  apply (ends_idle [Pipe [] PIPE_SEQ RES_FI; end_pipe] _ (after RES_ELSE (length pre) s r' h' bb sm)); [by rewrite <- app_assoc | | done | done].
  repeat apply Forall_cons; cbn; auto using Forall_nil.
Qed.

(** A condition that holds, the part behind it, and the rest. *)
Lemma branch_true m c b e pre s r h h1 r' h' : m = RES_IF \/ m = RES_ELIF -> does_script m c r h 0 h1 -> does_script RES_THEN b 0 h1 r' h' ->
  script_ok c -> script_ok b -> orelse_ok e -> is_done c = false -> is_done b = false ->
  l_pipes s = pre ++ pipes m c ++ pipes RES_THEN b ++ orelse_pipes e -> settled s -> l_rcode s = r -> l_hush s = h -> mode_ok m s -> flag_restore s = false ->
  ends (length pre) s r' h' (l_pipes s).
Proof.
  intros Hm Hc Hb Hokc Hokb Hoke Hnc Hnb Hl Hs Hr Hh Hmo Hre.
  destruct (Hc Hokc pre (pipes RES_THEN b ++ orelse_pipes e) s Hl Hs Hr Hh Hmo (or_intror Hre)) as (s1 & Hle1 & Hs1 & Hr1 & Hh1 & He1). rewrite Hnc in He1.
  destruct He1 as (b1 & sm1 & He1). assert (next_if_code s1 = 0 /\ flag_restore s1 = false /\ l_pipes s1 = l_pipes s) as (Hn1 & Hf1 & Hl1)
    by (subst s1; by destruct Hm as [-> | ->]).
  destruct (Hb Hokb (pre ++ pipes m c) (orelse_pipes e) s1) as (s2 & Hle2 & Hs2 & Hr2 & Hh2 & He2); [by rewrite Hl1, Hl, <- app_assoc | done.. | by right |].
  rewrite Hnb in He2. destruct He2 as (b2 & sm2 & He2). eapply leads_ends; [exact Hle1 |]. eapply leads_ends; [exact Hle2 |].
  assert (ends (length ((pre ++ pipes m c) ++ pipes RES_THEN b)) s2 (l_rcode s2) (l_hush s2) (l_pipes s2)) as Hend.
  { apply (orelse_left e); [done | | done | by subst s2 | by subst s2 | by subst s2]. subst s2. cbn. by rewrite Hl1, Hl, <- !app_assoc. }
  rewrite Hr2, Hh2 in Hend. subst s2. cbn in Hend. by rewrite Hl1 in Hend.
Qed.

(** A condition that does not hold. *)
Lemma branch_false m c b e pre s r h rc h1 r' h' : m = RES_IF \/ m = RES_ELIF -> does_script m c r h rc h1 -> rc <> 0 -> does_orelse e rc h1 r' h' ->
  script_ok c -> script_ok b -> orelse_ok e -> is_done c = false -> is_done b = false ->
  l_pipes s = pre ++ pipes m c ++ pipes RES_THEN b ++ orelse_pipes e -> settled s -> l_rcode s = r -> l_hush s = h -> mode_ok m s -> flag_restore s = false ->
  ends (length pre) s r' h' (l_pipes s).
Proof.
  intros Hm Hc Hrc Hb Hokc Hokb Hoke Hnc Hnb Hl Hs Hr Hh Hmo Hre.
  destruct (Hc Hokc pre (pipes RES_THEN b ++ orelse_pipes e) s Hl Hs Hr Hh Hmo (or_intror Hre)) as (s1 & Hle1 & Hs1 & Hr1 & Hh1 & He1). rewrite Hnc in He1.
  destruct He1 as (b1 & sm1 & He1). assert (next_if_code s1 = rc /\ flag_restore s1 = false /\ l_pipes s1 = l_pipes s) as (Hn1 & Hf1 & Hl1)
    by (subst s1; by destruct Hm as [-> | ->]).
  eapply leads_ends; [exact Hle1 |]. eapply leads_ends.
  - apply (section_off RES_THEN b (pre ++ pipes m c) (orelse_pipes e) s1); [by rewrite Hl1, Hl, <- app_assoc | done | cbn; congruence | done].
  - rewrite Hnb, <- Hl1. apply (Hb Hoke ((pre ++ pipes m c) ++ pipes RES_THEN b) (passed RES_THEN s1));
      [cbn; by rewrite Hl1, Hl, <- !app_assoc | by left | done | done | cbn; congruence | cbn; congruence | done].
Qed.

(** ** Whole lists *)

Lemma for_syntax_plain p l : plain_mode (r_mode p) -> for_syntax (p :: l) = for_syntax l.
Proof.
  intros [Hf Hi]. destruct l as [| q l]; cbn [for_syntax]; rewrite !(bool_decide_eq_false_2 (r_mode p = _)) by done; done.
Qed.

Lemma for_syntax_pipes m sc l : plain_mode m -> for_syntax (pipes m sc ++ l) = for_syntax l.
Proof. intros Hm. induction sc as [| c f sc IH]; [done |]. cbn [pipes app]. by rewrite for_syntax_plain. Qed.

Lemma for_syntax_orelse e : for_syntax (orelse_pipes e) = true.
Proof.
  induction e as [| c b e IH | b]; cbn [orelse_pipes]; [done | |]; by rewrite !for_syntax_pipes.
Qed.

Definition start (l : list pipe) (h : hush M) : lstate := LState false true false 0 0 RES_XXXX None None [] 0 l h.

Lemma run_list_ends l l' h r h' : for_syntax l = true -> ends O (start l h) r h' l' ->
  exists d, forall d', (d <= d')%nat -> run_list_real d' l h = Some (r, l', h').
Proof.
  intros Hsyn (d & n & He). exists (S (max d n)). intros [| d'] Hd; [lia |]. cbn [HushRun.run_list_real]. unfold run_list_with. rewrite Hsyn.
  cbn [negb]. specialize (He d' (d' - n)%nat ltac:(lia)). by replace (n + (d' - n))%nat with d' in He by lia.
Qed.

Lemma does_group c g h r h' : compile c = Child None (Some g) 0 -> for_syntax g = true -> ends O (start g h) r h' g ->
  exists d, forall d' f m, (d <= d')%nat -> run_pipe_at d' (Pipe [compile c] f m) h = Some (r, Pipe [compile c] f m, h').
Proof.
  intros Hc Hsyn He. destruct (run_list_ends g g h r h' Hsyn He) as (d & Hd). exists d. intros d' f m Hd'. rewrite Hc.
  cbn [run_pipe_real]. by rewrite Hd.
Qed.

Lemma does_if_true c b e h h1 r h' : does_script RES_IF c 0 h 0 h1 -> does_script RES_THEN b 0 h1 r h' -> does_command (If c b e) h r h'.
Proof.
  intros Hc Hb (Hokc & Hokb & Hoke & Hnc & Hnb). set (g := pipes RES_IF c ++ pipes RES_THEN b ++ orelse_pipes e).
  apply (does_group _ g); [done | unfold g; by rewrite !for_syntax_pipes, for_syntax_orelse |].
  apply (branch_true RES_IF c b e [] (start g h) 0 h h1 r h'); try done; by left.
Qed.

Lemma does_if_false c b e h rc h1 r h' : does_script RES_IF c 0 h rc h1 -> rc <> 0 -> does_orelse e rc h1 r h' -> does_command (If c b e) h r h'.
Proof.
  intros Hc Hrc He (Hokc & Hokb & Hoke & Hnc & Hnb). set (g := pipes RES_IF c ++ pipes RES_THEN b ++ orelse_pipes e).
  apply (does_group _ g); [done | unfold g; by rewrite !for_syntax_pipes, for_syntax_orelse |].
  apply (branch_false RES_IF c b e [] (start g h) 0 h rc h1 r h'); try done; by left.
Qed.

Lemma does_elif_true c b e r h h1 r' h' : does_script RES_ELIF c r h 0 h1 -> does_script RES_THEN b 0 h1 r' h' -> does_orelse (Elif c b e) r h r' h'.
Proof.
  intros Hc Hb (Hokc & Hokb & Hoke & Hnc & Hnb) pre s Hl Hs Hr Hh Hn Hi Hre.
  apply (branch_true RES_ELIF c b e pre s r h h1 r' h'); try done; by right.
Qed.

Lemma does_elif_false c b e r h rc h1 r' h' : does_script RES_ELIF c r h rc h1 -> rc <> 0 -> does_orelse e rc h1 r' h' ->
  does_orelse (Elif c b e) r h r' h'.
Proof.
  intros Hc Hrc He (Hokc & Hokb & Hoke & Hnc & Hnb) pre s Hl Hs Hr Hh Hn Hi Hre.
  apply (branch_false RES_ELIF c b e pre s r h rc h1 r' h'); try done; by right.
Qed.

(** ** Loops *)

Lemma while_style_spec u : loops (while_style u) = true /\ plain_mode (while_style u) /\ forall s, mode_ok (while_style u) s.
Proof. unfold plain_mode. by destruct u. Qed.

(** The condition, up to the body. *)
Lemma while_condition u c b r h rc h1 s : does_script (while_style u) c r h rc h1 -> script_ok c -> is_done c = false ->
  l_pipes s = while_pipes u c b -> settled s -> l_rcode s = r -> l_hush s = h -> rpipe s = None \/ rpipe s = Some O ->
  exists s1, leads O s (length (pipes (while_style u) c)) s1 /\ settled s1 /\ l_rcode s1 = rc /\ l_hush s1 = h1 /\
    l_pipes s1 = while_pipes u c b /\ flag_restore s1 = false /\ rpipe s1 = Some O /\ flag_rep s1 = negb (Bool.eqb (rc =? 0) u).
Proof.
  intros Hc Hok Hne Hl Hs Hr Hh Hrp. destruct (while_style_spec u) as (Hlo & _ & Hm).
  destruct (Hc Hok [] (pipes RES_DO b ++ [Pipe [] PIPE_SEQ RES_DONE; end_pipe]) s Hl Hs Hr Hh (Hm s) (or_introl Hlo)) as (s1 & Hle & Hs1 & Hr1 & Hh1 & He).
  rewrite Hne in He. destruct He as (bb & sm & He). exists s1. split_and!; try done; subst s1; unfold after; cbn; rewrite ?Hlo; try done.
  - by destruct Hrp as [-> | ->].
  - destruct u; cbn; by destruct (rc =? 0).
Qed.

(** The end of a loop: back to its start, or on. *)
Lemma loop_again pre s j : l_pipes s = pre ++ [Pipe [] PIPE_SEQ RES_DONE; end_pipe] -> settled s -> flag_rep s = true -> rpipe s = Some j ->
  leads (length pre) s j (set_done (set_skip true RES_XXXX s)).
Proof.
  intros Hl Hs Hf Hj. apply (step_back O _ (Pipe [] PIPE_SEQ RES_DONE)); [rewrite Hl; apply lookup_part | by intros; apply step_done | |];
    unfold set_done; cbn; by rewrite Hf.
Qed.

Lemma loop_over pre s : l_pipes s = pre ++ [Pipe [] PIPE_SEQ RES_DONE; end_pipe] -> settled s -> flag_rep s = false -> flag_restore s = false ->
  ends (length pre) s (l_rcode s) (l_hush s) (l_pipes s).
Proof.
  intros Hl Hs Hf Hr. eapply leads_ends.
  - apply (step_leads O _ (Pipe [] PIPE_SEQ RES_DONE) s (set_done (set_skip true RES_XXXX s))); [rewrite Hl; apply lookup_part | by intros; apply step_done |].
    unfold set_done. cbn. by rewrite Hf.
  - replace (S (length pre)) with (length (pre ++ [Pipe [] PIPE_SEQ RES_DONE])) by (rewrite length_app; cbn; lia).
    apply (ends_idle [end_pipe] _ (set_done (set_skip true RES_XXXX s))); [by cbn; rewrite Hl, <- app_assoc | | by left | unfold set_done; cbn; by rewrite Hf].
    repeat apply Forall_cons; cbn; auto using Forall_nil.
Qed.

(** The body is passed by. *)
Lemma body_off b pre s : l_pipes s = pre ++ pipes RES_DO b ++ [Pipe [] PIPE_SEQ RES_DONE; end_pipe] -> settled s -> flag_rep s = false ->
  flag_restore s = false -> ends (length pre) s (l_rcode s) (l_hush s) (l_pipes s).
Proof.
  intros Hl Hs Hf Hr. eapply leads_ends; [by apply (section_off RES_DO b pre [Pipe [] PIPE_SEQ RES_DONE; end_pipe] s) |].
  destruct (is_done b); [by apply loop_over; [rewrite Hl, <- app_assoc | ..] |].
  apply (loop_over _ (passed RES_DO s)); [by cbn; rewrite Hl, <- app_assoc | by left | done | done].
Qed.

(** The body is run, and the loop starts again. *)
Lemma body_on b pre s r h r' h' j : does_script RES_DO b r h r' h' -> script_ok b ->
  l_pipes s = pre ++ pipes RES_DO b ++ [Pipe [] PIPE_SEQ RES_DONE; end_pipe] -> settled s -> l_rcode s = r -> l_hush s = h ->
  flag_rep s = true -> flag_restore s = false -> rpipe s = Some j ->
  exists s', leads (length pre) s j s' /\ settled s' /\ l_rcode s' = r' /\ l_hush s' = h' /\ l_pipes s' = l_pipes s /\ rpipe s' = Some j /\
    for_list s' = for_list s /\ save_name s' = save_name s /\ flag_rep s' = true.
Proof.
  intros Hb Hok Hl Hs Hr Hh Hf Hre Hj.
  destruct (Hb Hok pre [Pipe [] PIPE_SEQ RES_DONE; end_pipe] s Hl Hs Hr Hh Hf (or_intror Hre)) as (s1 & Hle & Hs1 & Hr1 & Hh1 & He).
  assert (l_pipes s1 = l_pipes s /\ rpipe s1 = Some j /\ for_list s1 = for_list s /\ save_name s1 = save_name s /\ flag_rep s1 = true) as (E1 & E2 & E3 & E4 & E5).
  { destruct (is_done b); [by subst s1 |]. destruct He as (bb & sm & ->). done. }
  exists (set_done (set_skip true RES_XXXX s1)). split_and!; try done.
  - eapply leads_trans; [exact Hle |]. apply loop_again; [by rewrite E1, Hl, <- app_assoc | done..].
  - by left.
  - unfold set_done. cbn. by rewrite E5.
Qed.

Lemma does_stop u c b r h rc h1 : does_script (while_style u) c r h rc h1 -> (rc =? 0) = u -> does_while u c b r h rc h1.
Proof.
  intros Hc Hu Hok Hne Hokb s Hl Hs Hr Hh Hrp.
  destruct (while_condition u c b r h rc h1 s Hc Hok Hne Hl Hs Hr Hh Hrp) as (s1 & Hle & Hs1 & Hr1 & Hh1 & Hl1 & Hf1 & Hrp1 & Hfr).
  rewrite Hu, eqb_reflx in Hfr. eapply leads_ends; [exact Hle |]. rewrite Hl, <- Hl1, <- Hr1, <- Hh1. by apply (body_off b).
Qed.

Lemma does_again u c b r h rc h1 rb h2 r' h' : does_script (while_style u) c r h rc h1 -> (rc =? 0) = negb u -> does_script RES_DO b rc h1 rb h2 ->
  does_while u c b rb h2 r' h' -> does_while u c b r h r' h'.
Proof.
  intros Hc Hu Hb Hw Hok Hne Hokb s Hl Hs Hr Hh Hrp.
  destruct (while_condition u c b r h rc h1 s Hc Hok Hne Hl Hs Hr Hh Hrp) as (s1 & Hle & Hs1 & Hr1 & Hh1 & Hl1 & Hf1 & Hrp1 & Hfr).
  assert (flag_rep s1 = true) as Hfr' by (rewrite Hfr, Hu; by destruct u).
  destruct (body_on b (pipes (while_style u) c) s1 rc h1 rb h2 O Hb Hokb Hl1 Hs1 Hr1 Hh1 Hfr' Hf1 Hrp1) as (s2 & Hle2 & Hs2 & Hr2 & Hh2 & Hl2 & Hrp2 & _).
  eapply leads_ends; [exact Hle |]. eapply leads_ends; [exact Hle2 |]. rewrite Hl, <- Hl1, <- Hl2.
  apply (Hw Hok Hne Hokb); [congruence | done.. | by right].
Qed.

Lemma does_loop u c b h r h' : does_while u c b 0 h r h' -> does_command (While u c b) h r h'.
Proof.
  intros Hw (Hokc & Hokb & Hnc & Hnb). destruct (while_style_spec u) as (_ & Hp & _).
  apply (does_group _ (while_pipes u c b)); [done | unfold while_pipes; by rewrite !for_syntax_pipes |].
  apply (Hw Hokc Hnc Hokb (start (while_pipes u c b) h)); try done; by left.
Qed.

(** The values of "for". *)
Lemma split_at_none c t : Forall (fun x => x <> c) t -> split_at c t = None.
Proof. induction 1 as [| x t Hx _ IH]; [done |]. cbn [split_at]. by rewrite (proj2 (Z.eqb_neq x c) Hx), IH. Qed.

Lemma insert_plain t h : Forall (fun x => x <> SPECIAL_VAR_SYMBOL) t -> insert_var_value t h = Some (t, h).
Proof. intros Ht. unfold insert_var_value, insert_var_value_sub. cbn [insert_loop]. by rewrite split_at_none. Qed.

Lemma word_value_plain x : word_ok x -> Forall (fun c => c <> SPECIAL_VAR_SYMBOL) (word_value x).
Proof.
  intros [Hx _]. unfold word_value. induction Hx as [| p x Hp _ IH]; [done |]. cbn [flat_map]. apply Forall_app. split; [| done].
  destruct p as [c | c | t | t]; cbn [part_ok part_value] in *.
  - apply Forall_singleton, Hp.
  - apply Forall_singleton, Hp.
  - eapply Forall_impl; [exact Hp |]. by intros c [[_ Hc] _].
  - eapply Forall_impl; [exact Hp |]. by intros c [[_ Hc] _].
Qed.

Lemma make_list_plain ws n h : Forall word_ok ws -> make_list_in (map word_value ws) n h = Some ((fun v => n ++ 61 :: v) <$> for_values ws, h).
Proof.
  induction 1 as [| x ws Hx _ IH]; [done |]. cbn [map make_list_in]. rewrite insert_plain by (by apply word_value_plain). cbn [mbind option_bind].
  rewrite IH. cbn [mbind option_bind]. unfold for_values. cbn [flat_map]. by rewrite fmap_app.
Qed.

(** The pipe of "for" with a value, and without. *)
Lemma step_value d s a v l q b h1 r h2 : settled s -> l_pipes s = for_pipes a q b -> polled RES_FOR (l_hush s) h1 -> rpipe s = Some O ->
  for_list s = Some (v :: l) -> flag_rep s = true -> -1 <= r ->
  (forall d', (d <= d')%nat -> run_args table do_bootd do_run_fn prim (parse_string_outer d') [v] 0 h1 = Some (r, 0, h2)) ->
  forall d', (d <= d')%nat -> list_step_at d' O (Pipe [args [a]] PIPE_SEQ RES_FOR) s =
    Some (Continue (LState true true false (if_code s) (next_if_code s) RES_XXXX (Some O) (Some l) (save_name s) r (for_pipes v q b) (status r h2))).
Proof.
  intros Hs Hp Hpoll Hrp Hfl Hfr Hr Hrun d' Hd. specialize (Hrun d' Hd). rewrite (list_step_visit _ _ _ _ _ _ h1) by done.
  destruct s as [frep fskip frest ifc next skip rp fl sn rc pp hh]. cbn in *. subst. unfold visit, entering. rewrite loops_spec. cbn [r_mode progs].
  decide_modes. cbn. unfold run_it. cbn [l_pipes lookup]. unfold run_pipe_real. cbn. rewrite Hrun. cbn. rewrite (proj2 (Z.ltb_ge r (-1))) by done.
  decide_modes. done.
Qed.

Lemma step_no_value d s a q b h1 : settled s -> l_pipes s = for_pipes a q b -> polled RES_FOR (l_hush s) h1 -> rpipe s = Some O -> for_list s = Some [] ->
  list_step_at d O (Pipe [args [a]] PIPE_SEQ RES_FOR) s =
    Some (Continue (LState false true false (if_code s) (next_if_code s) RES_XXXX (Some O) None (save_name s) (l_rcode s) (for_pipes (save_name s) q b) h1)).
Proof.
  intros Hs Hp Hpoll Hrp Hfl. rewrite (list_step_visit _ _ _ _ _ _ h1) by done.
  destruct s as [frep fskip frest ifc next skip rp fl sn rc pp hh]. cbn in *. subst. unfold visit, entering. rewrite loops_spec. cbn [r_mode progs].
  decide_modes. cbn. decide_modes. done.
Qed.

(** The pipe of "in" is passed by. *)
Lemma step_in d i cs f s : settled s -> list_step_at d i (Pipe cs f RES_IN) s = Some (Continue (set_skip true RES_XXXX s)).
Proof.
  intros Hs. rewrite (list_step_visit _ _ _ _ _ _ (l_hush s)) by done. destruct s as [frep fskip frest ifc next skip rp fl sn rc pp hh].
  unfold visit, entering. rewrite loops_spec. cbn [r_mode progs]. decide_modes. done.
Qed.

Lemma pass_in a q b s : l_pipes s = for_pipes a q b -> r_mode q = RES_IN -> settled s -> flag_restore s = false ->
  leads 1 s 2 (set_skip true RES_XXXX s).
Proof.
  intros Hl Hq Hs Hr. destruct q as [cs f m]. cbn in Hq. subst m.
  apply (step_leads O 1 (Pipe cs f RES_IN)); [by rewrite Hl | by intros; apply step_in | done].
Qed.

Lemma does_end n b r h h1 : polled RES_FOR h h1 -> does_for n b [] r h r h1.
Proof.
  intros Hpoll Hok s a q Hl Hq Hs Hr Hh Hrp Hfl Hn Hf. subst. eapply leads_ends.
  { apply (step_leads O O (Pipe [args [a]] PIPE_SEQ RES_FOR)); [by rewrite Hl | intros d' _; by apply step_no_value | done]. }
  eapply leads_ends; [by eapply pass_in; [| exact Hq | by left |] |].
  eapply (body_off b [Pipe [args [save_name s]] PIPE_SEQ RES_FOR; q] (set_skip true RES_XXXX (LState false true false _ _ RES_XXXX _ None _ _ _ _))); [done | by left | done | done].
Qed.

Lemma does_each n b v l r h h1 ra h2 rb h3 r' h' : polled RES_FOR h h1 -> executes [n ++ 61 :: v] h1 ra h2 -> -1 <= ra ->
  does_script RES_DO b ra (status ra h2) rb h3 -> does_for n b l rb h3 r' h' -> does_for n b (v :: l) r h r' h'.
Proof.
  intros Hpoll (d & Hd) Hra Hb Hfor Hok s a q Hl Hq Hs Hr Hh Hrp Hfl Hn Hf. cbn [fmap list_fmap] in Hfl. subst h.
  set (s1 := LState true true false (if_code s) (next_if_code s) RES_XXXX (Some O) (Some ((fun v => n ++ 61 :: v) <$> l)) (save_name s) ra
    (for_pipes (n ++ 61 :: v) q b) (status ra h2)).
  assert (leads O s 1 s1) as H1.
  { apply (step_leads d O (Pipe [args [a]] PIPE_SEQ RES_FOR)); [by rewrite Hl | | done]. by apply (step_value d s a _ _ q b h1). }
  assert (leads 1 s1 2 (set_skip true RES_XXXX s1)) as H2 by (by apply (pass_in (n ++ 61 :: v) q b); [| | left |]).
  destruct (body_on b [Pipe [args [n ++ 61 :: v]] PIPE_SEQ RES_FOR; q] (set_skip true RES_XXXX s1) ra (status ra h2) rb h3 O Hb Hok)
    as (s2 & H3 & Hs2 & Hr2 & Hh2 & Hl2 & Hrp2 & Hfl2 & Hn2 & Hf2); [done | by left | done..|].
  eapply leads_ends; [exact H1 |]. eapply leads_ends; [exact H2 |]. eapply leads_ends; [exact H3 |].
  apply (Hfor Hok s2 (n ++ 61 :: v) q); try done. by rewrite Hn2.
Qed.

(** The first round makes the list of the values. *)
Lemma first_value n ws b h h1 d rounds : Forall word_ok ws -> ws <> [] -> polled RES_FOR h h1 ->
  let q := Pipe [args (map word_value ws)] PIPE_SEQ RES_IN in
  list_loop_at d (S rounds) (Some O) (start (for_pipes n q b) h) =
  list_loop_at d (S rounds) (Some O) (LState true true false 0 0 RES_XXXX (Some O) (Some ((fun v => n ++ 61 :: v) <$> for_values ws)) n 0 (for_pipes n q b) h).
Proof.
  intros Hws Hne Hpoll q. cbn [list_loop mbind option_bind l_pipes start]. change (for_pipes n q b !! O) with (Some (Pipe [args [n]] PIPE_SEQ RES_FOR)).
  cbn [fmap option_fmap option_map]. rewrite !(list_step_visit _ _ _ _ _ _ h1) by (done || by left).
  unfold visit, entering. rewrite !loops_spec. cbn [r_mode progs]. decide_modes. cbn. rewrite make_list_plain by done. cbn. done.
Qed.

Lemma runs_for_polled n b l r h r' h' : runs_for n b l r h r' h' -> exists h1, polled RES_FOR h h1.
Proof. intros Hr. inversion Hr; eauto. Qed.

Lemma does_for_loop n ws b h r h' : runs_for n b (for_values ws) 0 h r h' -> does_for n b (for_values ws) 0 h r h' -> does_command (For n ws b) h r h'.
Proof.
  intros Hruns Hfor (_ & Hws & _ & Hokb). set (q := Pipe (match ws with [] => [] | _ => [args (map word_value ws)] end) PIPE_SEQ RES_IN).
  apply (does_group _ (for_pipes n q b)); [done | |].
  { cbn [for_pipes app for_syntax]. destruct b as [| c f b]; cbn; [by rewrite andb_false_r |]. rewrite for_syntax_pipes by done.
    by destruct (pipes RES_DO b). }
  destruct (runs_for_polled _ _ _ _ _ _ _ Hruns) as (h1 & Hpoll). destruct ws as [| x ws].
  - inversion Hruns as [n' b' r' h0 h2 Hpoll2 |]; subst. eapply leads_ends.
    + apply (step_leads O O (Pipe [args [n]] PIPE_SEQ RES_FOR) _ (LState false true false 0 0 RES_XXXX (Some O) None [] 0 (for_pipes n q b) h')); [done | | done].
      intros d _. rewrite (list_step_visit _ _ _ _ _ _ h') by (done || by left). unfold visit, entering. rewrite loops_spec. cbn [r_mode progs].
      decide_modes. done.
    + eapply leads_ends; [by eapply (pass_in n q b); [| | left |] |].
      eapply (body_off b [Pipe [args [n]] PIPE_SEQ RES_FOR; q] (set_skip true RES_XXXX (LState false true false 0 0 RES_XXXX (Some O) None [] 0 (for_pipes n q b) h')));
        [done | by left | done | done].
  - destruct (Hfor Hokb (LState true true false 0 0 RES_XXXX (Some O) (Some ((fun v => n ++ 61 :: v) <$> for_values (x :: ws))) n 0 (for_pipes n q b) h) n q)
      as (d & k & He); try done; [by left |].
    exists d, (S k). intros d' rounds Hd. cbn [Nat.add]. unfold q at 1. rewrite (first_value n (x :: ws) b h h1) by done. fold q.
    rewrite <- Nat.add_succ_r. by apply He.
Qed.

Lemma does_simple ws h r h' : executes (map word_value ws) h r h' -> does_command (Simple ws) h r h'.
Proof. intros (d & Hd) _. exists d. intros d' f m Hd'. cbn [compile]. unfold run_pipe_real. cbn [args]. by rewrite Hd. Qed.

Lemma does_done m r h : does_script m Done r h r h.
Proof. intros _ pre post s Hl Hs <- <- Hm Hr. exists s. cbn [pipes]. rewrite app_nil_r. split_and!; try done. apply leads_refl. Qed.

Lemma runs_does :
  (forall c h r h', runs c h r h' -> does_command c h r h') /\
  (forall m sc r h r' h', runs_script m sc r h r' h' -> does_script m sc r h r' h') /\
  (forall e r h r' h', runs_orelse e r h r' h' -> does_orelse e r h r' h') /\
  (forall u c b r h r' h', runs_while u c b r h r' h' -> does_while u c b r h r' h') /\
  (forall n b l r h r' h', runs_for n b l r h r' h' -> does_for n b l r h r' h').
Proof.
  apply runs_ind5; eauto using does_simple, does_if_true, does_if_false, does_loop, does_for_loop, does_done, does_next, does_skip, does_fi,
    does_elif_true, does_elif_false, does_else, does_stop, does_again, does_end, does_each.
Qed.

(** ** Strings *)

Lemma script_text_last sc : is_done sc = false -> script_ok sc -> exists t, script_text sc = t ++ [59].
Proof.
  induction sc as [| c f sc IH]; intros Hne Hok; [done |]. destruct Hok as (_ & Hst & Hok). cbn [script_text]. destruct sc as [| c' f' sc'].
  - destruct f; try done. exists (command_text c). by rewrite app_nil_r.
  - destruct (IH eq_refl Hok) as (t & ->). exists (command_text c ++ style_text f ++ t). by rewrite <- !app_assoc.
Qed.

Lemma split_at_some c t a b : split_at c t = Some (a, b) -> t = a ++ c :: b.
Proof.
  revert a b. induction t as [| x t IH]; intros a b He; cbn [split_at] in He; [done |]. destruct (Z.eqb_spec x c) as [-> | Hx]; [by simplify_eq |].
  destruct (split_at c t) as [[a' b'] |]; cbn in He; simplify_eq. by rewrite (IH _ _ eq_refl).
Qed.

Lemma with_newline_script sc : is_done sc = false -> script_ok sc -> with_newline (script_text sc) = script_text sc ++ [10].
Proof.
  intros Hne Hok. destruct (script_text_last sc Hne Hok) as (t & ->). unfold with_newline.
  destruct (split_at 10 (t ++ [59])) as [[a [| x b]] |] eqn:Hs; try done. apply split_at_some, app_inj_tail in Hs. by destruct Hs.
Qed.

(** The list of a script, with what is behind it. *)
Lemma run_list_script sc l h r h' : script_ok sc -> runs_script RES_NONE sc 0 h r h' ->
  Forall (fun p => progs p = [] /\ (r_mode p = RES_NONE \/ r_mode p = RES_FI)) l ->
  exists d, forall d', (d <= d')%nat -> run_list_real d' (pipes RES_NONE sc ++ l) h = Some (r, pipes RES_NONE sc ++ l, h').
Proof.
  intros Hok Hruns Hl. apply run_list_ends.
  { rewrite for_syntax_pipes by done. clear -Hl. induction Hl as [| p l [_ Hm] _ IH]; [done |].
    rewrite for_syntax_plain; [done |]. by destruct Hm as [-> | ->]. }
  destruct (proj1 (proj2 runs_does) _ _ _ _ _ _ Hruns Hok [] l (start (pipes RES_NONE sc ++ l) h)) as (s' & Hle & Hs' & <- & <- & He);
    [done | by left | done | done | done | by right |].
  assert (l_pipes s' = pipes RES_NONE sc ++ l /\ flag_restore s' = false) as [E1 E2].
  { destruct (is_done sc); [by subst s' |]. by destruct He as (b & sm & ->). }
  eapply leads_ends; [exact Hle |]. rewrite <- E1. by apply (ends_idle l).
Qed.

Lemma runs_script_bound m sc r h r' h' : runs_script m sc r h r' h' -> -1 <= r -> -1 <= r'.
Proof. induction 1; auto. Qed.

Notation outer_loop_at d := (outer_loop (run_list_real d)).

(** What the loop over a string keeps of the result of a line. *)
Definition line_end (r : Z) (h : hush M) : hush M := if r =? -1 then set_repeat 0 h else h.

(** One round of that loop for a script; the variable IFS is not set. *)
Lemma outer_line flag sc h h0 r h' : flag = FLAG_PARSE_SEMICOLON \/ flag = Z.lor FLAG_PARSE_SEMICOLON FLAG_EXIT_FROM_LOOP ->
  script_ok sc -> sh_getenv (str "IFS") h = Some (None, h0) -> runs_script RES_NONE sc 0 h0 r h' ->
  exists d, forall d' rounds temp code rest, (d <= d')%nat -> empty temp -> exists temp', empty temp' /\
    outer_loop_at d' (S rounds) flag temp (Some (script_text sc ++ 10 :: rest)) code h =
      if has_flag flag FLAG_EXIT_FROM_LOOP then Some ((if r =? 0 then 0 else 1), line_end r h')
      else outer_loop_at d' rounds flag temp' (Some rest) r (line_end r h').
Proof.
  intros Hflag Hok HIFS Hruns. pose proof (runs_script_bound _ _ _ _ _ _ Hruns) as Hr.
  destruct (run_list_script sc [Pipe [] PIPE_SEQ RES_NONE; Pipe [] PIPE_SEQ RES_NONE; end_pipe] h0 r h' Hok Hruns) as (d & Hd).
  { repeat (apply Forall_cons; split); cbn; auto using Forall_nil. }
  assert (has_flag flag FLAG_PARSE_SEMICOLON = true /\ has_flag flag FLAG_REPARSING = false) as [Hsem Hrep] by (by destruct Hflag as [-> | ->]).
  exists d. intros d' rounds temp code rest Hd' Ht. specialize (Hd d' Hd').
  destruct (parse_text sc flag rest temp Hok Hsem Ht) as (o & Ho & Hparse). exists (b_free o).
  split; [split_and!; [done | apply Ho | done] |].
  cbn [outer_loop]. rewrite HIFS. cbn [mbind option_bind]. rewrite Hsem, Hrep. cbn [negb orb]. change (initialize_context _) with (fresh flag).
  change (update_ifs_map None) with IFS_map. rewrite Hparse. cbn [mbind option_bind ctx parsed between old_flag]. change (negb (0 =? 0)) with false.
  change (0 =? 1) with false. cbn [negb orb andb]. unfold run_parsed. cbn [dest ctx]. rewrite (done_word_empty _ _ Ho). cbn [mbind option_bind].
  change (list_head (done_pipe (parsed sc flag) PIPE_SEQ)) with
    (((pipes RES_NONE sc ++ [Pipe [] PIPE_SEQ RES_NONE]) ++ [Pipe [] PIPE_SEQ RES_NONE]) ++ [end_pipe]).
  rewrite <- !app_assoc. cbn [app]. rewrite Hd. cbn [mbind option_bind]. rewrite (proj2 (Z.eqb_neq r (-2))) by lia. cbn [mbind option_bind].
  change (0 =? -1) with false. cbn [orb]. done.
Qed.

(** A line, and what follows it. *)
Lemma run_string_line sc h h0 r h' : script_ok sc -> sh_getenv (str "IFS") h = Some (None, h0) -> runs_script RES_NONE sc 0 h0 r h' ->
  exists d, forall d' cmd rest, (d <= d')%nat -> with_newline cmd = script_text sc ++ 10 :: rest -> cmd <> [] ->
    parse_string_outer d' cmd (Z.lor FLAG_PARSE_SEMICOLON FLAG_EXIT_FROM_LOOP) h = Some ((if r =? 0 then 0 else 1), line_end r h').
Proof.
  intros Hok HIFS Hruns. destruct (outer_line _ sc h h0 r h' (or_intror eq_refl) Hok HIFS Hruns) as (d & Hd).
  exists d. intros d' cmd rest Hd' Hcmd Hne. unfold HushRun.parse_string_outer, parse_string_outer_with. destruct cmd as [| x cmd]; [done |].
  unfold parse_stream_outer. rewrite Hcmd.
  by destruct (Hd d' (S (length (script_text sc ++ 10 :: rest))) NULL_O_STRING 0 rest Hd') as (t & _ & ->).
Qed.
End Facts.
