(* ===== verification/HushScripts.v ===== *)
(** * Commands and scripts given to the shell (common/hush.c)

    What [run_command] and [run_command_list] do with scripts, with errors of the
    syntax, and where the shell differs from others. *)

From S2P Require Import Prelude Ctype StringLib Hashtable HashIO Vsprintf Env Command Cli Hush HushParse HushRun HushFacts.

(** ** Texts of several lines *)

Fixpoint lines_text (l : list script) : text :=
  match l with [] => [] | [s] => script_text s | s :: l => script_text s ++ 10 :: lines_text l end.

Lemma with_newline_cases t : with_newline t = t \/ with_newline t = t ++ [10].
Proof. unfold with_newline. destruct (split_at 10 t) as [[a [| x b]] |]; auto. Qed.

Lemma with_newline_end t : with_newline (t ++ [59]) = (t ++ [59]) ++ [10].
Proof.
  unfold with_newline. destruct (split_at 10 (t ++ [59])) as [[a [| x b]] |] eqn:Hs; try done.
  apply split_at_some, app_inj_tail in Hs. by destruct Hs.
Qed.

Lemma lines_text_cons s l : l <> [] -> lines_text (s :: l) = script_text s ++ 10 :: lines_text l.
Proof. by destruct l. Qed.

Lemma snoc_not_nil {A} (l : list A) x : l ++ [x] <> [].
Proof. by destruct l. Qed.

Lemma lines_text_last l s : Forall script_ok (l ++ [s]) -> is_done s = false -> exists t, lines_text (l ++ [s]) = t ++ [59].
Proof.
  induction l as [| s' l IH]; intros Hok Hne; cbn [app] in *.
  - apply Forall_cons in Hok as [Hok _]. exact (script_text_last s Hne Hok).
  - apply Forall_cons in Hok as [_ Hok]. destruct (IH Hok Hne) as (t & Ht). exists (script_text s' ++ 10 :: t).
    rewrite (lines_text_cons s' (l ++ [s])), Ht by apply snoc_not_nil. by rewrite <- app_assoc.
Qed.

Lemma lines_text_newline l : l <> [] -> lines_text l ++ [10] = flat_map (fun s => script_text s ++ [10]) l.
Proof.
  induction l as [| s l IH]; intros Hl; [done |]. destruct l as [| s' l]; [cbn; by rewrite app_nil_r |].
  change (lines_text (s :: s' :: l)) with (script_text s ++ 10 :: lines_text (s' :: l)). rewrite <- app_assoc. cbn [app flat_map]. rewrite IH by done.
  cbn [flat_map]. by rewrite <- !app_assoc.
Qed.

Section Scripts.
Context {M : Type} `{Shell M}.
Context (table : list cmd_tbl) (do_bootd do_run_fn : Z).
Context (prim : Z -> (cstring -> Z -> hush M -> option (Z * hush M)) -> cmd_tbl -> Z -> list cstring -> hush M -> option (Z * hush M)).
Context (ctrlc : M -> bool * M).

Notation run_list_real := (run_list_real table do_bootd do_run_fn prim ctrlc).
Notation parse_string_outer := (parse_string_outer table do_bootd do_run_fn prim ctrlc).
Notation runs := (runs table do_bootd do_run_fn prim ctrlc).
Notation runs_script := (runs_script table do_bootd do_run_fn prim ctrlc).
Notation outer_loop_at d := (outer_loop (run_list_real d)).

Lemma parse_string_nonempty d s flag h : s <> [] ->
  parse_string_outer d s flag h = parse_stream_outer (run_list_real d) (with_newline s) flag h.
Proof. by destruct s. Qed.

Lemma run_command_any sc h h0 r h' : script_ok sc -> is_done sc = false ->
  sh_getenv (str "IFS") h = Some (None, h0) -> runs_script RES_NONE sc 0 h0 r h' ->
  exists d, forall d' flag cmd, (d <= d')%nat -> cmd = script_text sc \/ (exists rest, cmd = script_text sc ++ 10 :: rest) ->
    run_command (parse_string_outer d') cmd flag h = Some ((if r =? 0 then 0 else 1), line_end r h').
Proof.
  intros Hok Hne HIFS Hruns. destruct (run_string_line table do_bootd do_run_fn prim ctrlc sc h h0 r h' Hok HIFS Hruns) as (d & Hd).
  exists d. intros d' flag cmd Hd' Hcmd. unfold run_command. destruct (script_text_last sc Hne Hok) as (t & Ht).
  assert (exists rest, with_newline cmd = script_text sc ++ 10 :: rest) as (rest & Hrest).
  { destruct Hcmd as [-> | (rest & ->)]; [exists []; by apply with_newline_script |].
    destruct (with_newline_cases (script_text sc ++ 10 :: rest)) as [-> | ->]; [by exists rest | exists (rest ++ [10]); by rewrite <- app_assoc]. }
  apply (Hd d' cmd rest Hd' Hrest). destruct Hcmd as [-> | (rest' & ->)]; rewrite Ht; by destruct t.
Qed.

(** C2: The shell executes a script by its meaning: [run_command] on the text of a
    script runs the commands, chains, conditions and loops of it in the order of the
    semantics [runs_script], and gives 0 when the last command that ran gave 0, and 1
    otherwise.  Whatever is behind a newline in the string is not executed. *)
Theorem run_command_script sc h h0 r h' : script_ok sc -> is_done sc = false ->
  sh_getenv (str "IFS") h = Some (None, h0) -> runs_script RES_NONE sc 0 h0 r h' ->
  exists d, forall d' flag cmd, (d <= d')%nat -> cmd = script_text sc \/ (exists rest, cmd = script_text sc ++ 10 :: rest) ->
    run_command (parse_string_outer d') cmd flag h = Some ((if r =? 0 then 0 else 1), line_end r h').
Proof. exact (run_command_any sc h h0 r h'). Qed.

(** The lines of a text, one behind the other; IFS is read in front of each. *)
Inductive runs_lines : list script -> hush M -> hush M -> Prop :=
  | lines_nil h h0 : sh_getenv (str "IFS") h = Some (None, h0) -> runs_lines [] h h0
  | lines_cons s l h h0 r h1 h' : sh_getenv (str "IFS") h = Some (None, h0) -> runs_script RES_NONE s 0 h0 r h1 ->
      runs_lines l (line_end r h1) h' -> runs_lines (s :: l) h h'.

(** The end of the text. *)
Lemma outer_end h h0 : sh_getenv (str "IFS") h = Some (None, h0) -> exists d, forall d' rounds temp code, (d <= d')%nat -> empty temp ->
  outer_loop_at d' (S rounds) FLAG_PARSE_SEMICOLON temp (Some []) code h = Some (0, h0).
Proof.
  intros HIFS. destruct (run_list_script table do_bootd do_run_fn prim ctrlc Done [Pipe [] PIPE_SEQ RES_NONE; end_pipe] h0 0 h0) as (d & Hd);
    [done | constructor | repeat (apply Forall_cons; split); cbn; auto using Forall_nil |].
  exists d. intros d' rounds temp code Hd' Ht. cbn [outer_loop]. rewrite HIFS. cbn [mbind option_bind].
  change (negb (has_flag FLAG_PARSE_SEMICOLON FLAG_PARSE_SEMICOLON) || has_flag FLAG_PARSE_SEMICOLON FLAG_REPARSING) with false. cbn iota.
  cbn [parse_stream]. unfold parse_stream. cbn. unfold run_parsed. cbn [dest ctx]. rewrite (done_word_empty _ _ Ht). cbn [mbind option_bind].
  specialize (Hd d' Hd'). unfold end_pipe in Hd. cbn in Hd. cbn. by rewrite Hd.
Qed.

Lemma outer_lines l h h' : Forall script_ok l -> runs_lines l h h' -> exists d, forall d' rounds temp code, (d <= d')%nat -> empty temp ->
  (length l < rounds)%nat ->
  outer_loop_at d' rounds FLAG_PARSE_SEMICOLON temp (Some (flat_map (fun s => script_text s ++ [10]) l)) code h = Some (0, h').
Proof.
  intros Hok Hruns. induction Hruns as [h h0 HIFS | s l h h0 r h1 h' HIFS Hs _ IH].
  - destruct (outer_end h h0 HIFS) as (d & Hd). exists d. intros d' [| rounds] temp code Hd' Ht Hr; [cbn in Hr; lia |]. by apply Hd.
  - apply Forall_cons in Hok as [Hok Hl]. destruct (IH Hl) as (d1 & H1).
    destruct (outer_line table do_bootd do_run_fn prim ctrlc FLAG_PARSE_SEMICOLON s h h0 r h1 (or_introl eq_refl) Hok HIFS Hs) as (d2 & H2).
    exists (max d1 d2). intros d' [| rounds] temp code Hd' Ht Hr; cbn [length] in Hr; [lia |]. cbn [flat_map].
    rewrite <- app_assoc. cbn [app].
    destruct (H2 d' rounds temp code (flat_map (fun s => script_text s ++ [10]) l)) as (temp' & Ht' & ->); [lia | done |].
    change (has_flag FLAG_PARSE_SEMICOLON FLAG_EXIT_FROM_LOOP) with false. cbn iota. apply H1; [lia | done | lia].
Qed.

(** A text of several lines, as "source" runs it: the scripts of the lines are
    executed in their order, one that fails does not stop the others, and the result
    is always 0, whatever the last line gave. *)
Theorem run_command_list_script l last h h' : Forall script_ok (l ++ [last]) -> is_done last = false -> runs_lines (l ++ [last]) h h' ->
  exists d, forall d', (d <= d')%nat ->
    run_command_list table do_bootd do_run_fn prim ctrlc d' (lines_text (l ++ [last])) (-1) h = Some (0, h').
Proof.
  intros Hok Hne Hruns. destruct (outer_lines (l ++ [last]) h h' Hok Hruns) as (d & Hd). exists d. intros d' Hd'.
  unfold run_command_list. change (-1 =? -1) with true. cbn iota. destruct (lines_text_last l last Hok Hne) as (t & Ht).
  rewrite parse_string_nonempty by (rewrite Ht; apply snoc_not_nil).
  rewrite Ht, with_newline_end, <- Ht, lines_text_newline by apply snoc_not_nil.
  apply Hd; [done | done |]. cbn [length]. rewrite <- lines_text_newline by apply snoc_not_nil. clear.
  assert (forall k, (length k <= S (length (lines_text k)))%nat) as Hlen.
  { induction k as [| s k IH]; [cbn; lia |]. destruct k as [| s' k]; [cbn; lia |]. rewrite lines_text_cons by done. rewrite length_app. cbn [length] in *. lia. }
  specialize (Hlen (l ++ [last])). rewrite !length_app in *. cbn [length] in *. lia.
Qed.

(** A command in front of "&&" that fails, or one in front of "||" that succeeds,
    ends the whole chain: the command behind the next operator is not run either,
    whatever the operator is. *)
Theorem chain_skips_rest a b c f g h h0 r h1 : command_ok a -> command_ok b -> command_ok c -> g = PIPE_AND \/ g = PIPE_OR ->
  stops f r = true -> -1 <= r -> sh_getenv (str "IFS") h = Some (None, h0) -> runs a h0 r h1 ->
  exists d, forall d' flag, (d <= d')%nat ->
    run_command (parse_string_outer d') (command_text a ++ style_text f ++ command_text b ++ style_text g ++ command_text c ++ str ";") flag h =
      Some ((if r =? 0 then 0 else 1), line_end r (status r h1)).
Proof.
  intros Ha Hb Hc Hg Hst Hr HIFS Hruns. set (sc := Item a f (Item b g (Item c PIPE_SEQ Done))).
  destruct (run_command_any sc h h0 r (status r h1)) as (d & Hd); [| done | done | |].
  - split_and!; try done; [by destruct f | by destruct Hg as [-> | ->]].
  - apply (RSkip _ _ _ _ _ _ a f _ 0 h0 h0 r h1 Done (status r h1)); try done; [| constructor].
    apply skips_more with (status r h1); [by destruct Hg as [-> | ->] | done |]. by apply skips_last.
  - exists d. intros d' flag Hd'. apply (Hd d' flag); [done | left]. unfold sc. cbn [script_text]. by rewrite app_nil_r.
Qed.

(** A condition that fails is the result of "if" without "else": the command
    fails although it did what it says. *)
Theorem if_without_else_fails c b h h0 r h1 : script_ok c -> script_ok b -> is_done c = false -> is_done b = false -> r <> 0 ->
  sh_getenv (str "IFS") h = Some (None, h0) -> runs_script RES_IF c 0 h0 r h1 ->
  exists d, forall d' flag, (d <= d')%nat ->
    run_command (parse_string_outer d') (command_text (If c b Fi) ++ str ";") flag h = Some (1, line_end r (status r h1)).
Proof.
  intros Hc Hb Hnc Hnb Hr HIFS Hruns. pose proof (runs_script_bound _ _ _ _ _ _ _ _ _ _ _ Hruns) as Hbound.
  destruct (run_command_any (Item (If c b Fi) PIPE_SEQ Done) h h0 r (status r h1)) as (d & Hd); [by split_and! | done | done | |].
  - apply RNext with h0 r h1; [done | | by apply Hbound | done | constructor]. apply RIf_false with r h1; [done | done | constructor].
  - exists d. intros d' flag Hd'. rewrite (Hd d' flag); [by rewrite (proj2 (Z.eqb_neq r 0)) | done | left]. cbn [script_text style_text].
    by rewrite app_nil_r.
Qed.

(** C38: A string with a syntax error, or with a construct that is not complete, runs
    nothing and succeeds: the result is 0. *)
Theorem syntax_error_succeeds cmd flag h h0 rc st d : cmd <> [] -> sh_getenv (str "IFS") h = Some (None, h0) ->
  parse_stream IFS_map 10 (PState NULL_O_STRING (fresh 3) (Some (with_newline cmd))) = Some (rc, st) -> rc = 1 \/ old_flag (ctx st) <> 0 ->
  run_command (parse_string_outer d) cmd flag h = Some (0, set_repeat 0 h0).
Proof.
  intros Hne HIFS Hp Hbad. unfold run_command. rewrite parse_string_nonempty by done. unfold parse_stream_outer. cbn [outer_loop]. rewrite HIFS.
  cbn [mbind option_bind]. change (Z.lor FLAG_PARSE_SEMICOLON FLAG_EXIT_FROM_LOOP) with 3.
  change (negb (has_flag 3 FLAG_PARSE_SEMICOLON) || has_flag 3 FLAG_REPARSING) with false. cbn iota. change (initialize_context _) with (fresh 3).
  change (update_ifs_map None) with IFS_map. rewrite Hp. cbn [mbind option_bind]. change (has_flag 3 FLAG_EXIT_FROM_LOOP) with true.
  assert ((rc =? 1) || negb (old_flag (ctx st) =? 0) = true) as Hb.
  { destruct Hbad as [-> | Hbad]; [done |]. by rewrite (proj2 (Z.eqb_neq _ _) Hbad), orb_true_r. }
  rewrite Hb, <- negb_orb, Hb, orb_true_r. done.
Qed.

(** In a text of several lines the error ends in an access through a null pointer:
    the input is set to it, and the loop goes on to read. *)
Theorem list_syntax_error_faults cmd h h0 st d : cmd <> [] -> sh_getenv (str "IFS") h = Some (None, h0) ->
  parse_stream IFS_map 10 (PState NULL_O_STRING (fresh 2) (Some (with_newline cmd))) = Some (1, st) ->
  run_command_list table do_bootd do_run_fn prim ctrlc d cmd (-1) h = None.
Proof.
  intros Hne HIFS Hp. unfold run_command_list. change (-1 =? -1) with true. cbn iota. rewrite parse_string_nonempty by done.
  unfold parse_stream_outer. cbn [outer_loop]. rewrite HIFS. cbn [mbind option_bind].
  change (negb (has_flag FLAG_PARSE_SEMICOLON FLAG_PARSE_SEMICOLON) || has_flag FLAG_PARSE_SEMICOLON FLAG_REPARSING) with false. cbn iota.
  change (initialize_context _) with (fresh 2). change (update_ifs_map None) with IFS_map. rewrite Hp. cbn.
  change (has_flag FLAG_PARSE_SEMICOLON FLAG_EXIT_FROM_LOOP) with false. cbn iota. by destruct (sh_getenv _ (mach h0)) as [[IFS m] |].
Qed.
End Scripts.

(** ** A machine for the examples *)

Module Toy.
(** Its state is what "echo" printed; no variable is set in the environment. *)
Definition toy : Type := list (list text).
#[local] Instance toy_shell : Shell toy := {|
  sh_getenv := fun _ m => Some (None, m); clear_ctrlc := fun m => m; had_ctrlc := fun _ => false; malloc_ok := fun m => (true, m);
  tstc := fun m => (false, m); getc := fun m => (0, m); udelay := fun _ m => m |}.
Definition commands : list cmd_tbl :=
  [Cmd (str "true") 64 1 0 None None 0; Cmd (str "false") 64 1 1 None None 0; Cmd (str "echo") 64 1 3 None None 0].
Definition toy_prim (fn : Z) (run : cstring -> Z -> hush toy -> option (Z * hush toy)) (c : cmd_tbl) (flag : Z) (argv : list cstring) (h : hush toy) :
    option (Z * hush toy) :=
  if fn =? 3 then Some (0, set_mach (mach h ++ [argv]) h) else Some (fn, h).
Definition no_ctrlc (m : toy) : bool * toy := (false, m).
Definition hs (vars : list variables) (code : Z) (log : toy) : hush toy := Hush_ (hush_start [] ++ vars) code 1 false log.
Definition var (v : text) : variables := Variables (str "i") v 0 false.
Definition say (t : text) : command := Simple [plain_word (str "echo"); plain_word t].
Definition simple (t : text) : command := Simple [plain_word t].

Notation executes := (executes commands 100 200 toy_prim no_ctrlc).
Notation runs := (runs commands 100 200 toy_prim no_ctrlc).
Notation runs_script := (runs_script commands 100 200 toy_prim no_ctrlc).

Lemma echo_runs t vars code log : In t [str "a"; str "b"; str "c"] -> runs (say t) (hs vars code log) 0 (hs vars code (log ++ [[str "echo"; t]])).
Proof. intros Ht. constructor. exists O. intros d _. cbn [In] in Ht. by destruct Ht as [<- | [<- | [<- | []]]]. Qed.

Lemma true_runs vars code log : runs (simple (str "true")) (hs vars code log) 0 (hs vars code log).
Proof. constructor. by exists O. Qed.

Lemma false_runs vars code log : runs (simple (str "false")) (hs vars code log) 1 (hs vars code log).
Proof. constructor. by exists O. Qed.

Lemma set_runs v code log vars : In (vars, v) [([], str "u"); ([var (str "u")], str "v"); ([var (str "v")], str "w")] ->
  executes [str "i" ++ 61 :: v] (hs vars code log) 0 (hs [var v] code log).
Proof. intros Hv. exists O. intros d _. cbn [In] in Hv. by destruct Hv as [[= <- <-] | [[= <- <-] | [[= <- <-] | []]]]. Qed.

Definition body : script := Item (say (str "b")) PIPE_SEQ Done.
Definition one (c : command) : script := Item c PIPE_SEQ Done.
(** if false ; then echo a ; else for i in u v\ w ;do echo b ; done ; fi ; false && echo a || echo c ; *)
Definition toy_script : script :=
  Item (If (one (simple (str "false"))) (one (say (str "a")))
    (Else (one (For (str "i") [plain_word (str "u"); [Plain 118; Esc 32; Plain 119]] body)))) PIPE_SEQ
  (Item (simple (str "false")) PIPE_AND (Item (say (str "a")) PIPE_OR (Item (say (str "c")) PIPE_SEQ Done))).

Definition said : toy := repeat [str "echo"; str "b"] 3.

Lemma one_runs m c r0 h r h' : polled no_ctrlc m h h -> runs c h r h' -> -1 <= r -> runs_script m (one c) r0 h r (status r h').
Proof. intros Hp Hc Hr. apply RNext with h r h'; [done | done | done | done | constructor]. Qed.

Lemma toy_loop : HushFacts.runs_for commands 100 200 toy_prim no_ctrlc (str "i") body [str "u"; str "v"; str "w"] 0 (hs [] 1 []) 0 (hs [var (str "w")] 0 said).
Proof.
  assert (forall vars v code log l r h', In (vars, v) [([], str "u"); ([var (str "u")], str "v"); ([var (str "v")], str "w")] ->
    HushFacts.runs_for commands 100 200 toy_prim no_ctrlc (str "i") body l 0 (hs [var v] 0 (log ++ [[str "echo"; str "b"]])) r h' ->
    HushFacts.runs_for commands 100 200 toy_prim no_ctrlc (str "i") body (v :: l) 0 (hs vars code log) r h') as Hround.
  { intros vars v code log l r h' Hin Hl. eapply REach; [done | by apply set_runs | done | | exact Hl].
    apply (one_runs RES_DO (say (str "b")) 0 (hs [var v] 0 log) 0 (hs [var v] 0 (log ++ [[str "echo"; str "b"]]))); [done | | done].
    apply echo_runs. cbn. tauto. }
  apply Hround; [cbn; tauto |]. apply Hround; [cbn; tauto |]. apply Hround; [cbn; tauto |]. by constructor.
Qed.

Lemma toy_script_runs : runs_script RES_NONE toy_script 0 (hs [] 0 []) 1 (hs [var (str "w")] 1 said).
Proof.
  eapply RNext; [done | | by instantiate (1 := 0) | done |].
  - apply RIf_false with 1 (hs [] 1 []); [| done |].
    + apply (one_runs RES_IF (simple (str "false")) 0 (hs [] 0 []) 1 (hs [] 0 [])); [done | apply false_runs | done].
    + constructor. apply (one_runs RES_ELSE (For (str "i") _ body) 1 (hs [] 1 []) 0 (hs [var (str "w")] 0 said)); [done | | done].
      constructor. exact toy_loop.
  - eapply RSkip; [done | apply (false_runs [var (str "w")] 0 said) | done | done | | constructor].
    eapply skips_more; [done | done |]. by apply skips_last.
Qed.

Lemma toy_script_ok : script_ok toy_script.
Proof. script_check. Qed.
End Toy.
#[local] Existing Instance Toy.toy_shell.

Lemma run_command_script_witness :
  let text := script_text Toy.toy_script ++ 10 :: str "echo c" in
  exists d, forall d', (d <= d')%nat ->
    run_command (parse_string_outer Toy.commands 100 200 Toy.toy_prim Toy.no_ctrlc d') text 0 (Toy.hs [] 0 []) =
      Some (1, Toy.hs [Toy.var (str "w")] 1 Toy.said).
Proof.
  destruct (run_command_script Toy.commands 100 200 Toy.toy_prim Toy.no_ctrlc Toy.toy_script (Toy.hs [] 0 []) (Toy.hs [] 0 []) 1
    (Toy.hs [Toy.var (str "w")] 1 Toy.said)) as (d & Hd); [exact Toy.toy_script_ok | reflexivity | reflexivity | exact Toy.toy_script_runs |].
  exists d. intros d' Hd'. apply (Hd d' 0 _ Hd'). right. by exists (str "echo c").
Defined.

Lemma run_command_list_script_witness :
  exists d, forall d', (d <= d')%nat ->
    run_command_list Toy.commands 100 200 Toy.toy_prim Toy.no_ctrlc d' (script_text (Toy.one (Toy.say (str "a"))) ++ 10 :: script_text (Toy.one (Toy.simple (str "false"))))
      (-1) (Toy.hs [] 0 []) = Some (0, Toy.hs [] 1 [[str "echo"; str "a"]]).
Proof.
  apply (run_command_list_script Toy.commands 100 200 Toy.toy_prim Toy.no_ctrlc [Toy.one (Toy.say (str "a"))] (Toy.one (Toy.simple (str "false")))
    (Toy.hs [] 0 []) (Toy.hs [] 1 [[str "echo"; str "a"]])); [script_check | reflexivity |].
  apply lines_cons with (Toy.hs [] 0 []) 0 (Toy.hs [] 0 [[str "echo"; str "a"]]); [reflexivity | |].
  - apply (Toy.one_runs RES_NONE (Toy.say (str "a")) 0 _ 0 (Toy.hs [] 0 [[str "echo"; str "a"]])); [reflexivity | | discriminate].
    apply (Toy.echo_runs (str "a") [] 0 []). by left.
  - apply lines_cons with (Toy.hs [] 0 [[str "echo"; str "a"]]) 1 (Toy.hs [] 1 [[str "echo"; str "a"]]); [reflexivity | | by apply lines_nil].
    apply (Toy.one_runs RES_NONE (Toy.simple (str "false")) 0 _ 1 (Toy.hs [] 0 [[str "echo"; str "a"]])); [reflexivity | | discriminate].
    apply Toy.false_runs.
Defined.

(** false && echo a || echo b *)
Lemma chain_skips_rest_witness :
  exists d, forall d' flag, (d <= d')%nat ->
    run_command (parse_string_outer Toy.commands 100 200 Toy.toy_prim Toy.no_ctrlc d') (str "false &&echo a ||echo b ;") flag (Toy.hs [] 0 []) =
      Some (1, Toy.hs [] 1 []).
Proof.
  apply (chain_skips_rest Toy.commands 100 200 Toy.toy_prim Toy.no_ctrlc (Toy.simple (str "false")) (Toy.say (str "a")) (Toy.say (str "b")) PIPE_AND PIPE_OR
    (Toy.hs [] 0 []) (Toy.hs [] 0 []) 1 (Toy.hs [] 0 []));
    [script_check | script_check | script_check | by right | reflexivity | discriminate | reflexivity | apply Toy.false_runs].
Defined.

(** if false ; then echo a ; fi ; *)
Lemma if_without_else_fails_witness :
  exists d, forall d' flag, (d <= d')%nat ->
    run_command (parse_string_outer Toy.commands 100 200 Toy.toy_prim Toy.no_ctrlc d') (str "if false ;then echo a ;fi ;") flag (Toy.hs [] 0 []) =
      Some (1, Toy.hs [] 1 []).
Proof.
  apply (if_without_else_fails Toy.commands 100 200 Toy.toy_prim Toy.no_ctrlc (Toy.one (Toy.simple (str "false"))) (Toy.one (Toy.say (str "a")))
    (Toy.hs [] 0 []) (Toy.hs [] 0 []) 1 (Toy.hs [] 1 [])); [script_check | script_check | reflexivity | reflexivity | discriminate | reflexivity |].
  apply (Toy.one_runs RES_IF (Toy.simple (str "false")) 0 (Toy.hs [] 0 []) 1 (Toy.hs [] 0 [])); [reflexivity | apply Toy.false_runs | discriminate].
Defined.

(** A single "&", and an "if" without its end. *)
Lemma syntax_error_succeeds_witness :
  run_command (parse_string_outer Toy.commands 100 200 Toy.toy_prim Toy.no_ctrlc 9) (str "echo a & echo b") 0 (Toy.hs [] 0 []) = Some (0, set_repeat 0 (Toy.hs [] 0 [])) /\
  run_command (parse_string_outer Toy.commands 100 200 Toy.toy_prim Toy.no_ctrlc 9) (str "if true; then echo a") 0 (Toy.hs [] 0 []) = Some (0, set_repeat 0 (Toy.hs [] 0 [])).
Proof.
  split.
  - eapply (syntax_error_succeeds Toy.commands 100 200 Toy.toy_prim Toy.no_ctrlc (str "echo a & echo b") 0 (Toy.hs [] 0 []) (Toy.hs [] 0 []));
      [discriminate | reflexivity | vm_compute; reflexivity | by left].
  - eapply (syntax_error_succeeds Toy.commands 100 200 Toy.toy_prim Toy.no_ctrlc (str "if true; then echo a") 0 (Toy.hs [] 0 []) (Toy.hs [] 0 []));
      [discriminate | reflexivity | vm_compute; reflexivity | right; discriminate].
Defined.

Lemma list_syntax_error_faults_witness :
  run_command_list Toy.commands 100 200 Toy.toy_prim Toy.no_ctrlc 9 (str "echo a & echo b") (-1) (Toy.hs [] 0 []) = None.
Proof.
  eapply (list_syntax_error_faults Toy.commands 100 200 Toy.toy_prim Toy.no_ctrlc (str "echo a & echo b") (Toy.hs [] 0 []) (Toy.hs [] 0 []));
    [discriminate | reflexivity | vm_compute; reflexivity].
Defined.
