(* ===== verification/Mtdparts.v ===== *)
(** * Partitions of the flash (common/cmd_mtdparts.c)

    The variables "mtdids" and "mtdparts" describe the flash devices and their
    partitions; the code parses them into lists, changes these with the command
    "mtdparts", and writes the text of the lists back.  A device is named by its
    address, which a counter makes fresh; a partition by its place in the list of
    its device.  A device holds a copy of its identifier; that a device outlives
    the identifier it points to is a fault of [mtdparts_init].  The environment is a type with [Variables]; the registered
    flash devices are a table.  [None] is a fault: a null pointer, or a write or
    read behind a buffer.  Memory is always there; what is printed is left out;
    the counters of use of the flash devices too; the commands run when the
    environment is ready. *)

From S2P Require Import Prelude Ctype StringLib Vsprintf.

(** What is used of the environment. *)
Class Variables (E : Type) := {
  getenv : text -> E -> option text;
  setenv : text -> option text -> E -> E }.

Definition SIZE_REMAINING : Z := 0xffffffff.
Definition OFFSET_NOT_SPECIFIED : Z := 0xffffffff.
Definition MIN_PART_SIZE : Z := 4096.
Definition MTD_WRITEABLE_CMD : Z := 1.
Definition MTDIDS_MAXLEN : Z := 128.
Definition MTDPARTS_MAXLEN : Z := 512.
Definition PARTITION_MAXLEN : Z := 16.
Definition PART_ADD_DESC_MAXLEN : Z := 64.
Definition CMD_RET_USAGE : Z := -1.

Definition MTD_DEV_TYPE_NOR : Z := 1.
Definition MTD_DEV_TYPE_NAND : Z := 2.
Definition MTD_DEV_TYPE_ONENAND : Z := 4.
Definition MTD_DEV_TYPE (type : Z) : text :=
  if type =? MTD_DEV_TYPE_NAND then str "nand" else if type =? MTD_DEV_TYPE_ONENAND then str "onenand" else str "nor".

(** ** Data *)

Record mtdids := Mtdids { id_type : Z; id_num : Z; id_size : Z; mtd_id : text }.
Record part_info := Part { p_name : text; auto_name : bool; p_size : Z; p_offset : Z; mask_flags : Z; sector_size : Z }.
Record mtd_device := Device { d_addr : nat; d_id : mtdids; num_parts : Z; d_parts : list part_info }.

(** [struct mtd_info] with its erase regions. *)
Record erase_region := Region { r_offset : Z; r_erasesize : Z; numblocks : nat }.
Record mtd_info := Mtd { m_name : text; m_size : Z; erasesize : Z; eraseregions : list erase_region }.

#[global] Instance mtdids_eq : EqDecision mtdids.
Proof. solve_decision. Defined.
#[global] Instance part_info_eq : EqDecision part_info.
Proof. solve_decision. Defined.

Definition set_size (s : Z) (p : part_info) := Part (p_name p) (auto_name p) s (p_offset p) (mask_flags p) (sector_size p).
Definition set_offset (o : Z) (p : part_info) := Part (p_name p) (auto_name p) (p_size p) o (mask_flags p) (sector_size p).
Definition set_sector (s : Z) (p : part_info) := Part (p_name p) (auto_name p) (p_size p) (p_offset p) (mask_flags p) s.
Definition set_parts (n : Z) (l : list part_info) (d : mtd_device) := Device (d_addr d) (d_id d) n l.

Definition part_end (p : part_info) : Z := u32 (p_offset p + p_size p).

(** ** Numbers and texts *)

Definition starts (s p : text) : bool := bool_decide (take (length s) p = s).

(** [strchr]: the text in front of the character and behind it. *)
Fixpoint cut_at (p : text) (c : Z) : option (text * text) :=
  match p with
  | [] => None
  | d :: p => if d =? c then Some ([], p) else '(a, b) ← cut_at p c; Some (d :: a, b)
  end.

Definition sprintf (fmt : text) (args : list arg) : option text := '(t, _) ← vsnprintf_text fmt args; Some t.

(** The suffix multiplies. *)
Definition memsize_parse (ptr : text) : Z * text :=
  let '(ret, rest) := simple_strtoul ptr 0 in
  let c := at0 rest in
  if (c =? 71) || (c =? 103) then (u32 (Z.shiftl ret 30), tail rest)
  else if (c =? 77) || (c =? 109) then (u32 (Z.shiftl ret 20), tail rest)
  else if (c =? 75) || (c =? 107) then (u32 (Z.shiftl ret 10), tail rest)
  else (ret, rest).

Definition SIZE_GB : Z := 1024 * 1024 * 1024.
Definition SIZE_MB : Z := 1024 * 1024.
Definition SIZE_KB : Z := 1024.

Definition memsize_format (size : Z) : option text :=
  if size mod SIZE_GB =? 0 then sprintf (str "%ug") [A32 (size / SIZE_GB)]
  else if size mod SIZE_MB =? 0 then sprintf (str "%um") [A32 (size / SIZE_MB)]
  else if size mod SIZE_KB =? 0 then sprintf (str "%uk") [A32 (size / SIZE_KB)]
  else sprintf (str "%u") [A32 size].

(** ** Parsing *)

(** The rest and the partition; [None] is an error. *)
Definition part_name (p : text) : option (option text * text) :=
  if at0 p =? 40 then
    '(name, p) ← cut_at (tail p) 41;
    match name with [] => None | _ => Some (Some name, p) end
  else Some (None, p).

Definition part_parse (partdef : text) : option (option (text * part_info)) :=
  let '(size, p) := if at0 partdef =? 45 then (SIZE_REMAINING, tail partdef) else memsize_parse partdef in
  if negb (at0 partdef =? 45) && (size <? MIN_PART_SIZE) then Some None
  else
    let '(offset, p) := if at0 p =? 64 then memsize_parse (tail p) else (OFFSET_NOT_SPECIFIED, p) in
    match part_name p with
    | None => Some None
    | Some (name, p) =>
        let '(flags, p) := if starts (str "ro") p then (MTD_WRITEABLE_CMD, drop 2 p) else (0, p) in
        let make rest :=
          n ← (match name with Some n => Some n | None => sprintf (str "0x%08lx@0x%08lx") [A32 size; A32 offset] end);
          Some (Some (rest, Part n (negb (bool_decide (is_Some name))) size offset flags 0)) in
        if at0 p =? 44 then if size =? SIZE_REMAINING then Some None else make (tail p)
        else if (at0 p =? 59) || bool_decide (p = []) then make p
        else Some None
    end.

(** [<dev-id>]: the rest, the type and the number. *)
Definition mtd_id_parse (id : text) : option (text * Z * Z) :=
  '(type, p) ← (if starts (str "nand") id then Some (MTD_DEV_TYPE_NAND, drop 4 id)
    else if starts (str "nor") id then Some (MTD_DEV_TYPE_NOR, drop 3 id)
    else if starts (str "onenand") id then Some (MTD_DEV_TYPE_ONENAND, drop 7 id) else None);
  if isdigit (at0 p) then let '(n, p) := simple_strtoul p 0 in Some (p, type, u8 n) else None.

(** ** State *)

Record state (E : Type) := State {
  ids : list mtdids; devices : list mtd_device;
  current_mtd_dev : option nat; current_mtd_partnum : Z;
  last_ids : text; last_parts : text; last_partition : text;
  next_addr : nat; env : E }.
Arguments State {E}. Arguments ids {E}. Arguments devices {E}. Arguments current_mtd_dev {E}. Arguments current_mtd_partnum {E}.
Arguments last_ids {E}. Arguments last_parts {E}. Arguments last_partition {E}. Arguments next_addr {E}. Arguments env {E}.

Section Commands.
Context {E : Type} `{Variables E} (mtd_table : list mtd_info) (mtdids_default mtdparts_default : option text).

Notation state := (state E).
Definition set_ids (l : list mtdids) (s : state) : state :=
  State l (devices s) (current_mtd_dev s) (current_mtd_partnum s) (last_ids s) (last_parts s) (last_partition s) (next_addr s) (env s).
Definition set_devices (l : list mtd_device) (s : state) : state :=
  State (ids s) l (current_mtd_dev s) (current_mtd_partnum s) (last_ids s) (last_parts s) (last_partition s) (next_addr s) (env s).
Definition set_current (d : option nat) (n : Z) (s : state) : state :=
  State (ids s) (devices s) d n (last_ids s) (last_parts s) (last_partition s) (next_addr s) (env s).
Definition set_last_ids (t : text) (s : state) : state :=
  State (ids s) (devices s) (current_mtd_dev s) (current_mtd_partnum s) t (last_parts s) (last_partition s) (next_addr s) (env s).
Definition set_last_parts (t : text) (s : state) : state :=
  State (ids s) (devices s) (current_mtd_dev s) (current_mtd_partnum s) (last_ids s) t (last_partition s) (next_addr s) (env s).
Definition set_last_partition (t : text) (s : state) : state :=
  State (ids s) (devices s) (current_mtd_dev s) (current_mtd_partnum s) (last_ids s) (last_parts s) t (next_addr s) (env s).
Definition set_next_addr (n : nat) (s : state) : state :=
  State (ids s) (devices s) (current_mtd_dev s) (current_mtd_partnum s) (last_ids s) (last_parts s) (last_partition s) n (env s).
Definition put_env (name : text) (v : option text) (s : state) : state :=
  State (ids s) (devices s) (current_mtd_dev s) (current_mtd_partnum s) (last_ids s) (last_parts s) (last_partition s) (next_addr s)
    (setenv name v (env s)).

(** The device at an address, and a change of it. *)
Definition device_at (a : nat) (s : state) : option mtd_device := find (fun d => bool_decide (d_addr d = a)) (devices s).
Definition put_device (d : mtd_device) (s : state) : state :=
  set_devices ((fun e => if bool_decide (d_addr e = d_addr d) then d else e) <$> devices s) s.

Definition get_mtd_device_nm (name : text) : option mtd_info := find (fun m => bool_decide (m_name m = name)) mtd_table.
Definition get_mtd_info (type num : Z) : option (option mtd_info) :=
  name ← sprintf (str "%s%d") [AStr (Some (MTD_DEV_TYPE type)); A32 num]; Some (get_mtd_device_nm name).

(** The partition of a number; [num_parts] is what is checked. *)
Definition mtd_part_info (d : mtd_device) (part_num : Z) : option part_info :=
  if num_parts d <=? part_num then None else d_parts d !! Z.to_nat part_num.

(** ** The current partition in the environment *)

Fixpoint mtddevnum (l : list mtd_device) (cur : nat) (partnum n : Z) : option Z :=
  match l with
  | [] => None
  | d :: l => if bool_decide (d_addr d = cur) then Some (wrap 16 (n + partnum)) else mtddevnum l cur partnum (wrap 16 (n + num_parts d))
  end.

Definition index_partitions (s : state) : option state :=
  match current_mtd_dev s with
  | Some a =>
      s ← (match mtddevnum (devices s) a (current_mtd_partnum s) 0 with
           | Some n => t ← sprintf (str "%d") [A32 n]; Some (put_env (str "mtddevnum") (Some t) s)
           | None => Some s
           end);
      d ← device_at a s;
      part ← mtd_part_info d (current_mtd_partnum s);
      Some (put_env (str "mtddevname") (Some (p_name part)) s)
  | None => Some (put_env (str "mtddevname") None (put_env (str "mtddevnum") None s))
  end.

Definition current_save (s : state) : option state :=
  s ← (match current_mtd_dev s with
       | Some a =>
           d ← device_at a s;
           t ← sprintf (str "%s%d,%d") [AStr (Some (MTD_DEV_TYPE (id_type (d_id d)))); A32 (id_num (d_id d)); A32 (current_mtd_partnum s)];
           Some (set_last_partition t (put_env (str "partition") (Some t) s))
       | None => Some (set_last_partition [] (put_env (str "partition") None s))
       end);
  index_partitions s.

(** ** Validation *)

(** The starts of the blocks of the regions, and the end of the last one. *)
Fixpoint region_starts (start esize : Z) (n : nat) : list Z :=
  match n with O => [] | S n => start :: region_starts (u32 (start + esize)) esize n end.
Definition region_end (r : erase_region) : Z := u32 (r_offset r + r_erasesize r * Z.of_nat (numblocks r)).
Definition all_starts (l : list erase_region) : list Z := flat_map (fun r => region_starts (u32 (r_offset r)) (r_erasesize r) (numblocks r)) l.

(** The partition with its sector size, if it is valid. *)
Definition part_validate_eraseblock (id : mtdids) (part : part_info) : option (option part_info) :=
  mtd ← get_mtd_info (id_type id) (id_num id);
  match mtd with
  | None => Some None
  | Some mtd =>
      let part := set_sector (erasesize mtd) part in
      match last (eraseregions mtd) with
      | None =>
          if negb (p_offset part mod erasesize mtd =? 0) || negb (p_size part mod erasesize mtd =? 0) then Some None else Some (Some part)
      | Some r =>
          let starts := all_starts (eraseregions mtd) in
          if negb (existsb (Z.eqb (p_offset part)) starts) then Some None
          else if negb (existsb (Z.eqb (part_end part)) starts) && negb (part_end part =? region_end r) then Some None
          else Some (Some part)
      end
  end.

Definition part_validate (id : mtdids) (part : part_info) : option (option part_info) :=
  let part := if p_size part =? SIZE_REMAINING then set_size (u32 (id_size id - p_offset part)) part else part in
  if id_size id <? p_offset part then Some None
  else if part_end part <=? p_offset part then Some None
  else if id_size id <? part_end part then Some None
  else part_validate_eraseblock id part.

(** ** Partitions of a device *)

(** The list with the new partition, and the one it is put in front of; [None] is
    a second partition at the offset 0. *)
Fixpoint sort_add (new : part_info) (l : list part_info) : option (list part_info * option part_info) :=
  match l with
  | [] => Some ([new], None)
  | pi :: l =>
      if (p_offset new =? p_offset pi) && (p_offset pi =? 0) then None
      else if p_offset new <=? p_offset pi then Some (new :: pi :: l, Some pi)
      else '(l, at_) ← sort_add new l; Some (pi :: l, at_)
  end.

(** The return value, the device and the state. *)
Definition part_sort_add (dev : mtd_device) (part : part_info) (s : state) : option (Z * mtd_device * state) :=
  let curr_pi := if bool_decide (current_mtd_dev s = Some (d_addr dev)) then mtd_part_info dev (current_mtd_partnum s) else None in
  match sort_add part (d_parts dev) with
  | None => Some (1, dev, s)
  | Some (l, at_) =>
      let dev := set_parts (wrap 16 (num_parts dev + 1)) l dev in
      let s := put_device dev s in
      match at_, curr_pi with
      | Some pi, Some curr =>
          if p_offset pi <=? p_offset curr then
            s ← current_save (set_current (current_mtd_dev s) (u8 (current_mtd_partnum s + 1)) s); Some (0, dev, s)
          else s ← index_partitions s; Some (0, dev, s)
      | _, _ => s ← index_partitions s; Some (0, dev, s)
      end
  end.

Definition part_add (dev : mtd_device) (part : part_info) (s : state) : option (Z * state) :=
  v ← part_validate (d_id dev) part;
  match v with
  | None => Some (1, s)
  | Some part => '(r, _, s) ← part_sort_add dev part s; Some ((if r =? 0 then 0 else 1), s)
  end.

(** ** Devices *)

Definition device_find (type num : Z) (s : state) : option mtd_device :=
  find (fun d => (id_type (d_id d) =? type) && (id_num (d_id d) =? num)) (devices s).

Definition device_delall (s : state) : state := set_devices [] s.

Definition device_del (dev : mtd_device) (s : state) : option state :=
  let s := set_devices (filter (fun d => d_addr d <> d_addr dev) (devices s)) s in
  if bool_decide (current_mtd_dev s = Some (d_addr dev)) then
    current_save (match devices s with
                  | [] => set_current None (current_mtd_partnum s) s
                  | d :: _ => set_current (Some (d_addr d)) 0 s
                  end)
  else index_partitions s.

Definition device_add (dev : mtd_device) (s : state) : option state :=
  match devices s with
  | [] => current_save (set_devices [dev] (set_current (Some (d_addr dev)) 0 s))
  | l => index_partitions (set_devices (l ++ [dev]) s)
  end.

(** The partition in the place [n] of a device. *)
Definition part_del (dev : mtd_device) (n : nat) (s : state) : option state :=
  if num_parts dev =? 1 then device_del dev s
  else
    part ← d_parts dev !! n;
    let curr_pi := if bool_decide (current_mtd_dev s = Some (d_addr dev)) then mtd_part_info dev (current_mtd_partnum s) else None in
    let dev' := set_parts (wrap 16 (num_parts dev - 1)) (take n (d_parts dev) ++ drop (S n) (d_parts dev)) dev in
    match curr_pi with
    | Some curr =>
        let num := if bool_decide (Z.of_nat n = current_mtd_partnum s) then 0
          else if p_offset part <=? p_offset curr then u8 (current_mtd_partnum s - 1) else current_mtd_partnum s in
        current_save (put_device dev' (set_current (current_mtd_dev s) num s))
    | None => index_partitions (put_device dev' s)
    end.

Definition id_find (type num : Z) (s : state) : option mtdids := find (fun i => (id_type i =? type) && (id_num i =? num)) (ids s).
Definition id_find_by_mtd_id (name : text) (s : state) : option mtdids := find (fun i => bool_decide (mtd_id i = name)) (ids s).

(** The partitions up to the end of the device: the rest and the partitions. *)
Fixpoint parse_parts (fuel : nat) (id : mtdids) (p : text) (offset : Z) : option (option (text * list part_info)) :=
  match fuel with
  | O => None
  | S fuel =>
      if (at0 p =? 59) || bool_decide (p = []) then Some (Some (p, []))
      else
        r ← part_parse p;
        match r with
        | None => Some None
        | Some (p, part) =>
            let part := if p_offset part =? OFFSET_NOT_SPECIFIED then set_offset offset part else part in
            v ← part_validate id part;
            match v with
            | None => Some None
            | Some part =>
                r ← parse_parts fuel id p (part_end part);
                Some ('(p, l) ← r; Some (p, part :: l))
            end
        end
  end.

Fixpoint add_all (l : list part_info) (dev : mtd_device) (s : state) : option (Z * mtd_device * state) :=
  match l with
  | [] => Some (0, dev, s)
  | part :: l => '(r, dev, s) ← part_sort_add dev part s; if r =? 0 then add_all l dev s else Some (r, dev, s)
  end.

(** The rest and the device, which is not in the list yet; [None] inside is an
    error. *)
Definition device_parse (mtd_dev : text) (s : state) : option (option (text * mtd_device) * state) :=
  match cut_at mtd_dev 58 with
  | None => Some (None, s)
  | Some (name, p) =>
      match id_find_by_mtd_id name s with
      | None => Some (None, s)
      | Some id =>
          offset ← (match device_find (id_type id) (id_num id) s with
                    | Some dev => part ← last (d_parts dev); Some (part_end part)
                    | None => Some 0
                    end);
          r ← parse_parts (S (length p)) id p offset;
          match r with
          | None | Some (_, []) => Some (None, s)
          | Some (p, parts) =>
              let rest := if at0 p =? 59 then tail p else p in
              let dev := Device (next_addr s) id 0 [] in
              '(r, dev, s) ← add_all parts dev (set_next_addr (S (next_addr s)) s);
              if r =? 0 then Some (Some (rest, dev), s)
              else s ← device_del dev s; Some (None, s)
          end
      end
  end.

Definition mtd_devices_init (s : state) : option state :=
  s ← current_save (set_current None (current_mtd_partnum s) (set_last_parts [] s));
  Some (device_delall s).

(** ** Writing the text *)

(** The text so far and the room that is left; an error, when the room is not
    enough; a fault, when the buffer is overrun. *)
Definition writer : Type := text * Z.
Definition put (buflen : Z) (t : text) (o : option (option writer)) : option (option writer) :=
  r ← o;
  match r with
  | None => Some None
  | Some (buf, maxlen) =>
      if maxlen <? zlen t then Some None
      else if buflen <? zlen (buf ++ t) then None else Some (Some (buf ++ t, maxlen - zlen t))
  end.

Definition part_gap (prev : option part_info) (part : part_info) : bool :=
  match prev with None => negb (p_offset part =? 0) | Some prev => negb (part_end prev =? p_offset part) end.

Definition generate_part (buflen : Z) (prev : option part_info) (part : part_info) (more : bool) (o : option (option writer)) :
    option (option writer) :=
  size ← memsize_format (p_size part);
  offset ← memsize_format (p_offset part);
  let o := put buflen size o in
  let o := if part_gap prev part then put buflen (64 :: offset) o else o in
  let o := if auto_name part then o else put buflen (40 :: p_name part ++ [41]) o in
  let o := if mask_flags part =? 0 then o else put buflen (str "ro") o in
  if more then put buflen [44] o else o.

Fixpoint generate_parts (buflen : Z) (n : Z) (prev : option part_info) (l : list part_info) (cnt : Z) (o : option (option writer)) :
    option (option writer) :=
  match l with
  | [] => o
  | part :: l => generate_parts buflen n (Some part) l (cnt + 1) (generate_part buflen prev part (cnt + 1 <? n) o)
  end.

Fixpoint generate_devices (buflen : Z) (l : list mtd_device) (o : option (option writer)) : option (option writer) :=
  match l with
  | [] => o
  | dev :: l =>
      let o := put buflen (mtd_id (d_id dev) ++ [58]) o in
      let o := generate_parts buflen (num_parts dev) None (d_parts dev) 0 o in
      generate_devices buflen l (match l with [] => o | _ => put buflen [59] o end)
  end.

(** The text for the buffer, or an error; the terminator needs its byte. *)
Definition generate_mtdparts (buflen : Z) (l : list mtd_device) : option (option text) :=
  match l with
  | [] => Some (Some [])
  | _ =>
      r ← generate_devices buflen l (Some (Some (str "mtdparts=", buflen - 1)));
      match r with
      | None => Some None
      | Some (t, _) => if buflen <? zlen t + 1 then None else Some (Some t)
      end
  end.

(** The buffer is [last_parts]. *)
Definition generate_mtdparts_save (s : state) : option (Z * state) :=
  r ← generate_mtdparts MTDPARTS_MAXLEN (devices s);
  match r with
  | Some ((_ :: _) as t) => Some (0, put_env (str "mtdparts") (Some t) (set_last_parts t s))
  | Some [] => Some (0, put_env (str "mtdparts") None (set_last_parts [] s))
  | None => Some (1, put_env (str "mtdparts") None (set_last_parts [] s))
  end.

(** ** Lookup *)

Fixpoint find_name (id : text) (l : list part_info) (n : nat) : option nat :=
  match l with [] => None | p :: l => if bool_decide (p_name p = id) then Some n else find_name id l (S n) end.
Fixpoint find_part (id : text) (l : list mtd_device) : option (mtd_device * nat) :=
  match l with
  | [] => None
  | d :: l => match find_name id (d_parts d) O with Some n => Some (d, n) | None => find_part id l end
  end.

(** The device and the place of the partition; [*part_num] is a byte. *)
Definition find_dev_and_part (id : text) (s : state) : option (mtd_device * nat) :=
  match find_part id (devices s) with
  | Some r => Some r
  | None =>
      '(p, type, dnum) ← mtd_id_parse id;
      if negb (at0 p =? 44) || bool_decide (tail p = []) then None
      else
        let '(n, p) := simple_strtoul (tail p) 0 in
        let pnum := u8 n in
        match p with
        | _ :: _ => None
        | [] => dev ← device_find type dnum s; _ ← mtd_part_info dev pnum; Some (dev, Z.to_nat pnum)
        end
  end.

Definition delete_partition (id : text) (s : state) : option (Z * state) :=
  match find_dev_and_part id s with
  | None => Some (1, s)
  | Some (dev, n) => s ← part_del dev n s; generate_mtdparts_save s
  end.

(** ** The variables *)

(** Devices up to the end: the return value. *)
Fixpoint parse_devices (fuel : nat) (p : text) (s : state) : option (Z * state) :=
  match fuel with
  | O => None
  | S fuel =>
      '(r, s) ← device_parse p s;
      match r with
      | None => Some (1, s)
      | Some (p, dev) =>
          match device_find (id_type (d_id dev)) (id_num (d_id dev)) s with
          | Some _ => Some (1, s)
          | None =>
              let s := set_devices (devices s ++ [dev]) s in
              match p with [] => Some (0, s) | _ => parse_devices fuel p s end
          end
      end
  end.

Definition parse_mtdparts (s : state) : option (Z * state) :=
  s ← mtd_devices_init s;
  p ← getenv (str "mtdparts") (env s);
  if negb (starts (str "mtdparts=") p) then Some (1, s)
  else
    let p := drop 9 p in
    '(err, s) ← (match p with [] => Some (1, s) | _ => parse_devices (S (length p)) p s end);
    if err =? 1 then Some (1, device_delall s) else Some (0, s).

(** The entries of "mtdids" behind those in the list: the return value, and
    whether the list is emptied. *)
Fixpoint parse_ids (fuel : nat) (p : text) (l : list mtdids) : option (bool * bool * list mtdids) :=
  match fuel with
  | O => None
  | S fuel =>
      match mtd_id_parse p with
      | None => Some (false, true, l)
      | Some (p, type, num) =>
          if negb (at0 p =? 61) then Some (false, true, l)
          else
            mtd ← get_mtd_info type num;
            match mtd with
            | None => Some (false, false, l)
            | Some mtd =>
                let '(name, p) := match cut_at (tail p) 44 with Some (a, b) => (a, b) | None => (tail p, []) end in
                if existsb (fun i => (id_type i =? type) && (id_num i =? num)) l then Some (false, true, l)
                else
                  let l := l ++ [Mtdids type num (u32 (m_size mtd)) name] in
                  match p with [] => Some (true, false, l) | _ => parse_ids fuel p l end
            end
      end
  end.

Definition parse_mtdids (t : text) (s : state) : option (Z * state) :=
  let s := set_last_ids [] s in
  match t with
  | [] => Some (1, set_ids [] s)
  | _ =>
      '(ok, clean, l) ← parse_ids (S (length t)) t [];
      Some ((if ok : bool then 0 else 1), set_ids (if clean : bool then [] else l) s)
  end.

(** Reading the identifier [t] comes to its end. *)
Definition reaches_end (t : text) : bool :=
  match mtd_id_parse t with
  | None => false
  | Some (p, _, _) => bool_decide (p = []) || (at0 p =? 44) && (bool_decide (tail p = []) || bool_decide ((simple_strtoul (tail p) 0).2 = []))
  end.

(** The current partition of the environment.  [strncpy] copies 16 bytes; a longer
    value has no terminator then, and who compares or reads it to its end reads
    behind the buffer. *)
Definition use_partition (value : text) (s : state) : option state :=
  let tmp_ep := take (Z.to_nat PARTITION_MAXLEN) value in
  if PARTITION_MAXLEN <=? zlen value then
    if existsb (fun d => existsb (fun p => bool_decide (take (Z.to_nat PARTITION_MAXLEN) (p_name p) = tmp_ep)) (d_parts d)) (devices s) || reaches_end tmp_ep
    then None else Some s
  else if negb (bool_decide (tmp_ep = [])) && negb (bool_decide (tmp_ep = last_partition s)) then
    match find_dev_and_part tmp_ep s with
    | Some (dev, n) => current_save (set_current (Some (d_addr dev)) (u8 (Z.of_nat n)) s)
    | None => Some s
    end
  else match getenv (str "partition") (env s) with None => current_save s | Some _ => Some s end.

(** "mtdparts" or "mtdids" changed. *)
Definition read_parts (parts : text) (s : state) : option (Z * state) :=
  '(r, s) ← parse_mtdparts s;
  if negb (r =? 0) then Some (1, s)
  else
    match devices s with
    | [] => Some (1, s)
    | d :: _ => s ← current_save (set_current (Some (d_addr d)) 0 (set_last_parts parts s)); Some (0, s)
    end.

Definition mtdparts_init (s : state) : option (Z * state) :=
  let parts := getenv (str "mtdparts") (env s) in
  let value := default [] (getenv (str "partition") (env s)) in
  match (match getenv (str "mtdids") (env s) with
         | Some t => Some (t, s)
         | None => t ← mtdids_default; Some (t, put_env (str "mtdids") (Some t) s)
         end) with
  | None => Some (1, s)
  | Some (t, s) =>
      if MTDIDS_MAXLEN - 1 <? zlen t then Some (1, s)
      else if bool_decide (is_Some parts) && (MTDPARTS_MAXLEN - 1 <? zlen (default [] parts)) then Some (1, s)
      else
        let same := negb (bool_decide (last_ids s = [])) && bool_decide (last_ids s = t) in
        '(r, s) ← (if same then Some (0, s) else parse_mtdids t s);
        if negb (r =? 0) then s ← mtd_devices_init s; Some (1, s)
        else
          let s := if same then s else set_last_ids t s in
          match parts with
          | None =>
              match last_parts s, devices s with
              | [], [] => Some (0, s)
              | [], _ => if same then Some (0, s) else None
              | _, _ => s ← mtd_devices_init s; Some (0, s)
              end
          | Some parts =>
              '(r, s) ← (if bool_decide (last_parts s = []) || negb (bool_decide (last_parts s = parts)) || negb same
                          then read_parts parts s else Some (0, s));
              if negb (r =? 0) then Some (1, s) else s ← use_partition value s; Some (0, s)
          end
  end.

(** ** The commands *)

Definition do_chpart (argv : list text) (s : state) : option (Z * state) :=
  '(r, s) ← mtdparts_init s;
  if negb (r =? 0) then Some (1, s)
  else
    match argv with
    | _ :: id :: _ =>
        match find_dev_and_part id s with
        | None => Some (1, s)
        | Some (dev, n) => s ← current_save (set_current (Some (d_addr dev)) (u8 (Z.of_nat n)) s); Some (0, s)
        end
    | _ => Some (1, s)
    end.

(** [len] is a byte. *)
Definition desc_len (id : mtdids) (size name : text) (ro : option text) : Z :=
  let len := u8 (zlen (mtd_id id) + 1) in
  let len := u8 (len + zlen size) in
  let len := u8 (len + (zlen name + 2)) in
  match ro with Some t => if zlen t =? 2 then u8 (len + 2) else len | None => len end.

Definition mtdparts_add (mtd_dev size name : text) (ro : option text) (s : state) : option (Z * state) :=
  match mtd_id_parse mtd_dev with
  | None => Some (1, s)
  | Some (_, type, num) =>
      match id_find type num s with
      | None => Some (1, s)
      | Some id =>
          if PART_ADD_DESC_MAXLEN <=? desc_len id size name ro then Some (1, s)
          else
            tmpbuf ← sprintf (str "%s:%s(%s)%s") [AStr (Some (mtd_id id)); AStr (Some size); AStr (Some name); AStr (Some (default [] ro))];
            if PART_ADD_DESC_MAXLEN <? zlen tmpbuf + 1 then None
            else
              '(r, s) ← device_parse tmpbuf s;
              match r with
              | None => Some (1, s)
              | Some (_, dev) =>
                  p ← head (d_parts dev);
                  match device_find (id_type (d_id dev)) (id_num (d_id dev)) s with
                  | None => s ← device_add dev s; generate_mtdparts_save s
                  | Some dev_tmp =>
                      '(r, s) ← part_add dev_tmp p s;
                      if negb (r =? 0) then s ← device_del dev s; Some (1, s) else generate_mtdparts_save s
                  end
              end
      end
  end.

Definition do_mtdparts (argv : list text) (s : state) : option (Z * state) :=
  let word n := default [] (argv !! n) in
  let argc := length argv in
  if (argc =? 2)%nat && bool_decide (word 1%nat = str "default") then
    let s := put_env (str "partition") None (put_env (str "mtdparts") mtdparts_default (put_env (str "mtdids") mtdids_default s)) in
    '(_, s) ← mtdparts_init s; Some (0, s)
  else if (argc =? 2)%nat && bool_decide (word 1%nat = str "delall") then
    '(_, s) ← mtdparts_init s;
    s ← mtd_devices_init (put_env (str "mtdparts") None s); Some (0, s)
  else
    '(r, s) ← mtdparts_init s;
    if negb (r =? 0) then Some (1, s)
    else if (argc =? 1)%nat then Some (0, s)
    else if ((argc =? 5)%nat || (argc =? 6)%nat) && starts (str "add") (word 1%nat) then mtdparts_add (word 2%nat) (word 3%nat) (word 4%nat) (argv !! 5%nat) s
    else if (argc =? 3)%nat && bool_decide (word 1%nat = str "del") then delete_partition (word 2%nat) s
    else Some (CMD_RET_USAGE, s).
End Commands.
