(* ===== verification/MtdpartsFacts.v ===== *)
(** * What the code for the partitions of the flash does (common/cmd_mtdparts.c)

    The text of the partitions is read back; the partitions stay inside of their
    flash; the current partition stays the same one; the errors of the code. *)

From Stdlib Require Import Sorted.
From S2P Require Import Prelude Ctype StringLib Vsprintf Mtdparts.

(** ** Sizes *)

Definition decimal (n : Z) : text := dchar 0 <$> reverse (digits_of 10 n).

#[local] Opaque number.
Lemma format_u_suffix v c : c <> 37 -> vsnprintf_text [37; 117; c] [A32 v] = t ← number (u32 v) 10 (-1) (-1) 0; Some (t ++ [c], []).
Proof.
  intros Hc. unfold vsnprintf_text. cbn [length format_loop]. change (negb (37 =? 37)) with false. cbn iota.
  assert (parse_conversion [117; c] [A32 v] = (t ← number (u32 v) 10 (-1) (-1) 0; Some (t, [c], [], false))) as -> by reflexivity.
  destruct (number _ _ _ _ _) as [t |]; [| done]. cbn [mbind option_bind app length format_loop].
  rewrite (proj2 (Z.eqb_neq c 37)) by done. done.
Qed.
#[local] Transparent number.

Lemma decimal_number v : 0 <= v < 2 ^ 32 -> number (u32 v) 10 (-1) (-1) 0 = Some (decimal v).
Proof. intros Hv. rewrite wrap_small by lia. apply number_plain; [lia | unfold base_ok; auto | by left]. Qed.

Lemma sprintf_u v : 0 <= v < 2 ^ 32 -> sprintf (str "%u") [A32 v] = Some (decimal v).
Proof.
  intros Hv. unfold sprintf. change (str "%u") with [37; 117]. rewrite (format_one [117] v (number (u32 v) 10 (-1) (-1) 0)) by reflexivity. by rewrite decimal_number.
Qed.

Lemma sprintf_suffix v c : 0 <= v < 2 ^ 32 -> c <> 37 -> sprintf [37; 117; c] [A32 v] = Some (decimal v ++ [c]).
Proof. intros Hv Hc. unfold sprintf. rewrite format_u_suffix by done. by rewrite decimal_number. Qed.

(** A character that does not continue a number. *)
Definition no_digit (rest : text) : Prop := match rest with [] => True | c :: _ => isxdigit c && (digit_value c <? 10) = false end.

Lemma strtoul_decimal v rest : 0 <= v < 2 ^ 32 -> no_digit rest -> at0 rest <> 120 -> simple_strtoul (decimal v ++ rest) 0 = (v, rest).
Proof.
  intros Hv Hr Hx. destruct (digits_head 10 v 0) as (c & r & He & _ & Hz); [lia | lia | by left |].
  destruct (digits_of_spec 10 v) as (Hval & Hd & _); [lia | lia |]. unfold decimal, simple_strtoul, strto_prefix.
  assert (forall b w, b <= 10 -> strto_loop 32 rest b w = (w, rest)) as Hstop.
  { intros b w Hb. destruct rest as [| x rest]; [done |]. cbn [strto_loop]. cbn in Hr.
    assert (isxdigit x && (digit_value x <? b) = false) as ->; [| done].
    destruct (isxdigit x); [| done]. cbn in *. apply Z.ltb_ge in Hr. apply Z.ltb_ge. lia. }
  rewrite He. cbn [app]. change (at0 (c :: r ++ rest)) with c. destruct (Z.eqb_spec c 48) as [-> | Hc].
  - destruct (Hz eq_refl) as [-> ->]. cbn [tail app]. rewrite (proj2 (Z.eqb_neq (at0 rest) 120)) by done. cbn [andb]. change (0 =? 0) with true. cbn iota.
    change (8 =? 0) with false. cbn iota. by apply Hstop.
  - change (0 =? 0) with true. cbn iota. change (c :: r ++ rest) with ((c :: r) ++ rest). rewrite <- He.
    rewrite (strto_loop_digits 32 10 0) by (lia || (by left) || (by apply Forall_reverse)). rewrite reverse_involutive, Hval, Hstop by lia.
    by rewrite Z.mul_0_l, Z.add_0_l, wrap_small by lia.
Qed.

Definition memsize_text (n : Z) : text :=
  if n mod SIZE_GB =? 0 then decimal (n / SIZE_GB) ++ [103]
  else if n mod SIZE_MB =? 0 then decimal (n / SIZE_MB) ++ [109]
  else if n mod SIZE_KB =? 0 then decimal (n / SIZE_KB) ++ [107]
  else decimal n.

Lemma memsize_format_text n : 0 <= n < 2 ^ 32 -> memsize_format n = Some (memsize_text n).
Proof.
  intros Hn. unfold memsize_format, memsize_text, SIZE_GB, SIZE_MB, SIZE_KB.
  change (str "%ug") with [37; 117; 103]. change (str "%um") with [37; 117; 109]. change (str "%uk") with [37; 117; 107].
  repeat destruct (_ =? 0); [rewrite sprintf_suffix | rewrite sprintf_suffix | rewrite sprintf_suffix | rewrite sprintf_u]; done || Z.to_euclidean_division_equations; lia.
Qed.

(** What may follow a size. *)
Definition after_size (rest : text) : Prop :=
  match rest with [] => True | c :: _ => In c [44; 59; 64; 40; 114] end.

Lemma memsize_roundtrip n rest : 0 <= n < 2 ^ 32 -> after_size rest -> memsize_parse (memsize_text n ++ rest) = (n, rest).
Proof.
  intros Hn Hr.
  assert (forall u k c, 0 <= u < 2 ^ 32 -> u * 2 ^ k = n -> 0 <= k -> (c, k) = (103, 30) \/ (c, k) = (109, 20) \/ (c, k) = (107, 10) ->
    memsize_parse ((decimal u ++ [c]) ++ rest) = (n, rest)) as Hsuf.
  { intros u k c Hu Hk H0 Hc. unfold memsize_parse. rewrite <- app_assoc. cbn [app].
    destruct Hc as [[= -> ->] | [[= -> ->] | [= -> ->]]]; (rewrite strtoul_decimal by done; cbn [at0 head default tail];
      repeat match goal with |- context [if ?b then _ else _] => let v := eval vm_compute in b in change b with v; cbn iota end;
      rewrite Z.shiftl_mul_pow2, Hk by lia; by rewrite wrap_small by lia). }
  unfold memsize_text, SIZE_GB, SIZE_MB, SIZE_KB.
  destruct (Z.eqb_spec (n mod (1024 * 1024 * 1024)) 0); [apply (Hsuf _ 30); [.. | by left]; change (2 ^ 30) with (1024 * 1024 * 1024); Z.to_euclidean_division_equations; lia |].
  destruct (Z.eqb_spec (n mod (1024 * 1024)) 0); [apply (Hsuf _ 20); [.. | by right; left]; change (2 ^ 20) with (1024 * 1024); Z.to_euclidean_division_equations; lia |].
  destruct (Z.eqb_spec (n mod 1024) 0); [apply (Hsuf _ 10); [.. | by right; right]; change (2 ^ 10) with 1024; Z.to_euclidean_division_equations; lia |].
  unfold memsize_parse. destruct rest as [| c rest]; [by rewrite strtoul_decimal |].
  cbn in Hr. rewrite strtoul_decimal; [| done | |]; destruct Hr as [<- | [<- | [<- | [<- | [<- | []]]]]]; done.
Qed.

Lemma memsize_first n rest : 0 <= n < 2 ^ 32 -> 48 <= at0 (memsize_text n ++ rest) < 58.
Proof.
  intros Hn. assert (forall k, 0 <= k < 2 ^ 32 -> forall t, 48 <= at0 (decimal k ++ t) < 58) as H.
  { intros k Hk t. destruct (digits_head 10 k 0) as (c & r & He & _); [lia | lia | by left |].
    destruct (digits_of_spec 10 k) as (_ & Hd & _); [lia | lia |]. apply Forall_reverse in Hd. unfold decimal. rewrite He.
    destruct (reverse (digits_of 10 k)) as [| d ds]; [done |]. apply Forall_cons in Hd as [Hd _]. injection He as <- _.
    change (at0 ((dchar 0 d :: r) ++ t)) with (dchar 0 d). rewrite dchar_decimal by (lia || by left). lia. }
  unfold memsize_text, SIZE_GB, SIZE_MB, SIZE_KB.
  repeat destruct (_ =? 0); rewrite <- ?app_assoc; apply H; Z.to_euclidean_division_equations; lia.
Qed.

(** ** The text of the devices *)

Definition part_text (prev : option part_info) (more : bool) (p : part_info) : text :=
  memsize_text (p_size p) ++ (if part_gap prev p then 64 :: memsize_text (p_offset p) else [])
  ++ (if auto_name p then [] else 40 :: p_name p ++ [41]) ++ (if mask_flags p =? 0 then [] else str "ro") ++ (if more then [44] else []).

Fixpoint parts_text (prev : option part_info) (l : list part_info) : text :=
  match l with
  | [] => []
  | p :: l => part_text prev (negb (bool_decide (l = []))) p ++ parts_text (Some p) l
  end.

Definition device_text (d : mtd_device) : text := mtd_id (d_id d) ++ 58 :: parts_text None (d_parts d).

Fixpoint devices_text (l : list mtd_device) : text :=
  match l with
  | [] => []
  | d :: l => device_text d ++ match l with [] => [] | _ => 59 :: devices_text l end
  end.

Definition range_ok (p : part_info) : Prop := 0 <= p_size p < 2 ^ 32 /\ 0 <= p_offset p < 2 ^ 32.
Definition counted (d : mtd_device) : Prop := num_parts d = zlen (d_parts d) /\ Forall range_ok (d_parts d).

(** Many texts. *)
Definition puts (B : Z) (l : list text) (o : option (option writer)) : option (option writer) := foldl (fun o t => put B t o) o l.

Lemma puts_app B l1 l2 o : puts B (l1 ++ l2) o = puts B l2 (puts B l1 o).
Proof. apply foldl_app. Qed.

Lemma puts_cons B t l o : puts B (t :: l) o = puts B l (put B t o).
Proof. done. Qed.

Lemma puts_none B l : puts B l None = None.
Proof. induction l as [| t l IH]; done. Qed.

Lemma puts_error B l : puts B l (Some None) = Some None.
Proof. induction l as [| t l IH]; done. Qed.

(** The room that is counted is enough: the buffer is, or it is overrun; it is not
    enough: no text. *)
Lemma puts_spec B l buf m : zlen buf <= B -> 0 <= m ->
  (zlen (concat l) <= m -> puts B l (Some (Some (buf, m))) =
    if B <? zlen (buf ++ concat l) then None else Some (Some (buf ++ concat l, m - zlen (concat l))))
  /\ (m < zlen (concat l) -> forall w, puts B l (Some (Some (buf, m))) <> Some (Some w)).
Proof.
  revert buf m. induction l as [| t l IH]; intros buf m Hb Hm; rewrite ?puts_cons; cbn [concat].
  { unfold puts. cbn [foldl]. rewrite app_nil_r. change (zlen []) with 0. rewrite Z.sub_0_r. split; [| lia]. intros _. by rewrite (proj2 (Z.ltb_ge _ _)) by lia. }
  change (put B t (Some (Some (buf, m)))) with
    (if m <? zlen t then Some None else if B <? zlen (buf ++ t) then None else Some (Some (buf ++ t, m - zlen t))).
  rewrite !length_app, !Nat2Z.inj_add. destruct (Z.ltb_spec m (Z.of_nat (length t))) as [H1 | H1].
  { split; [lia |]. intros _ w. by rewrite puts_error. }
  destruct (Z.ltb_spec B (Z.of_nat (length buf) + Z.of_nat (length t))) as [H2 | H2].
  { rewrite puts_none. split; [| done]. intros _. by rewrite (proj2 (Z.ltb_lt _ _)) by lia. }
  destruct (IH (buf ++ t) (m - Z.of_nat (length t))) as [I1 I2]; [rewrite length_app; lia | lia |]. split; intros H3.
  - rewrite I1 by lia. rewrite <- !app_assoc, !length_app, ?Nat2Z.inj_add, Z.sub_add_distr. done.
  - apply I2. lia.
Qed.

Lemma put_puts B t o : put B t o = puts B [t] o.
Proof. done. Qed.

Lemma puts_nil B o : puts B [] o = o.
Proof. done. Qed.

Definition part_chunks (prev : option part_info) (more : bool) (p : part_info) : list text :=
  [memsize_text (p_size p)] ++ (if part_gap prev p then [64 :: memsize_text (p_offset p)] else [])
  ++ (if auto_name p then [] else [40 :: p_name p ++ [41]]) ++ (if mask_flags p =? 0 then [] else [str "ro"]) ++ (if more then [[44]] else []).

Lemma generate_part_puts B prev p more o : range_ok p -> generate_part B prev p more o = puts B (part_chunks prev more p) o.
Proof.
  intros [Hs Ho]. unfold generate_part. rewrite !memsize_format_text by done. cbn [mbind option_bind]. unfold part_chunks. rewrite !puts_app.
  destruct (part_gap prev p), (auto_name p), (mask_flags p =? 0), more; done.
Qed.

Lemma part_chunks_text prev more p : concat (part_chunks prev more p) = part_text prev more p.
Proof.
  unfold part_chunks, part_text. rewrite !concat_app. cbn [concat]. rewrite app_nil_r.
  destruct (part_gap prev p), (auto_name p), (mask_flags p =? 0), more; cbn [concat]; by rewrite ?app_nil_r.
Qed.

Lemma generate_parts_puts B l : forall prev cnt o, Forall range_ok l ->
  exists c, generate_parts B (cnt + zlen l) prev l cnt o = puts B c o /\ concat c = parts_text prev l.
Proof.
  induction l as [| p l IH]; intros prev cnt o Hl; [by exists [] |]. apply Forall_cons in Hl as [Hp Hl]. cbn [generate_parts parts_text].
  assert ((cnt + 1 <? cnt + zlen (p :: l)) = negb (bool_decide (l = []))) as ->.
  { destruct l; cbn [length]; [rewrite bool_decide_true by done; apply Z.ltb_ge | rewrite bool_decide_false by done; apply Z.ltb_lt]; lia. }
  rewrite generate_part_puts by done.
  edestruct (IH (Some p) (cnt + 1)) as (c & He & Hc); [done |]. exists (part_chunks prev (negb (bool_decide (l = []))) p ++ c).
  rewrite puts_app, <- He, concat_app, part_chunks_text, Hc. split; [f_equal; cbn [length]; lia | done].
Qed.

Lemma generate_devices_puts B l : forall o, Forall counted l -> exists c, generate_devices B l o = puts B c o /\ concat c = devices_text l.
Proof.
  induction l as [| d l IH]; intros o Hl; [by exists [] |]. apply Forall_cons in Hl as [[Hn Hd] Hl]. cbn [generate_devices devices_text].
  rewrite Hn. destruct (generate_parts_puts B (d_parts d) None 0 (put B (mtd_id (d_id d) ++ [58]) o) Hd) as (c & He & Hc).
  rewrite Z.add_0_l in He. rewrite He.
  destruct l as [| e l].
  - exists ((mtd_id (d_id d) ++ [58]) :: c). split; [done |]. cbn [concat]. rewrite Hc, app_nil_r. unfold device_text. by rewrite <- app_assoc.
  - edestruct IH as (c' & -> & Hc'); [done |]. exists ((mtd_id (d_id d) ++ [58]) :: c ++ [59] :: c'). split.
    + change ((?a :: ?b ++ ?x :: ?y)) with ([a] ++ b ++ [x] ++ y). by rewrite !puts_app.
    + cbn [concat]. rewrite concat_app. cbn [concat]. rewrite Hc, Hc'. unfold device_text. rewrite <- !app_assoc. done.
Qed.

Lemma generate_mtdparts_cases B l : l <> [] -> Forall counted l -> 10 <= B ->
  (zlen (devices_text l) + 9 < B -> generate_mtdparts B l = Some (Some (str "mtdparts=" ++ devices_text l)))
  /\ (B <= zlen (devices_text l) + 9 < B + 9 -> generate_mtdparts B l = None)
  /\ (B <= zlen (devices_text l) -> forall t, generate_mtdparts B l <> Some (Some t)).
Proof.
  intros Hne Hl HB. unfold generate_mtdparts. destruct l as [| d l']; [done |]. set (l := d :: l') in *.
  destruct (generate_devices_puts B l (Some (Some (str "mtdparts=", B - 1))) Hl) as (c & -> & Hc).
  destruct (puts_spec B c (str "mtdparts=") (B - 1)) as [H1 H2]; [change (zlen (str "mtdparts=")) with 9; lia | lia |]. rewrite Hc in *.
  assert (zlen (str "mtdparts=" ++ devices_text l) = zlen (devices_text l) + 9) as Hlen.
  { rewrite length_app. change (length (str "mtdparts=")) with 9%nat. lia. }
  rewrite Hlen in *. repeat split; intros H.
  - rewrite H1 by lia. rewrite (proj2 (Z.ltb_ge _ _)) by lia. cbn [mbind option_bind]. rewrite Hlen, (proj2 (Z.ltb_ge _ _)) by lia. done.
  - rewrite H1 by lia. destruct (Z.ltb_spec B (zlen (devices_text l) + 9)); [done |]. cbn [mbind option_bind].
    by rewrite Hlen, (proj2 (Z.ltb_lt _ _)) by lia.
  - intros t. specialize (H2 ltac:(lia)). destruct (puts B c _) as [[[u m] |] |]; [by destruct (H2 (u, m)) | done | done].
Qed.

Lemma generate_mtdparts_ok l : l <> [] -> Forall counted l -> zlen (devices_text l) + 9 < MTDPARTS_MAXLEN ->
  generate_mtdparts MTDPARTS_MAXLEN l = Some (Some (str "mtdparts=" ++ devices_text l)).
Proof. intros Hl Hc. by apply generate_mtdparts_cases. Qed.

(** [generate_mtdparts] counts the room without the nine bytes of "mtdparts=":
    it writes the text of the devices when that leaves ten bytes of the buffer,
    writes behind the buffer when the text fits into it but not behind the nine
    bytes, and never delivers a longer one. *)
Theorem generate_mtdparts_bounds B l : l <> [] -> Forall counted l -> 10 <= B ->
  (zlen (devices_text l) + 9 < B -> generate_mtdparts B l = Some (Some (str "mtdparts=" ++ devices_text l)))
  /\ (B <= zlen (devices_text l) + 9 < B + 9 -> generate_mtdparts B l = None)
  /\ (B <= zlen (devices_text l) -> forall t, generate_mtdparts B l <> Some (Some t)).
Proof. apply generate_mtdparts_cases. Qed.

(** ** Reading a partition *)

Lemma number_some n w p type : 0 <= n < 2 ^ 64 -> flag type SIGN = false -> exists t, number n 16 w p type = Some t.
Proof.
  intros Hn Hs. unfold number. set (lc := Z.land type SMALL).
  assert (lc = 0 \/ lc = SMALL) as Hlc.
  { assert (lc = 32 * Z.b2z (Z.testbit type 5)) as ->; [| unfold SMALL; destruct (Z.testbit type 5); [by right | by left]].
    subst lc. change SMALL with (2 ^ 5). apply Z.bits_inj'. intros i Hi. rewrite Z.land_spec, Z.pow2_bits_eqb by lia.
    change 32 with (2 ^ 5). rewrite <- Z.shiftl_1_l, Z.mul_comm, Z.shiftl_1_l, <- Z.shiftl_mul_pow2, Z.shiftl_spec by lia.
    destruct (Z.eqb_spec 5 i) as [<- | He]; [rewrite andb_true_r, Z.sub_diag; by rewrite Z.b2z_bit0 |]. rewrite andb_false_r.
    destruct (Z.ltb_spec i 5); [by rewrite Z.testbit_neg_r by lia |]. destruct (Z.testbit type 5); [| by rewrite Z.bits_0].
    change (Z.b2z true) with (2 ^ 0). by rewrite Z.pow2_bits_false by lia. }
  assert (number_sign n w (if flag type LEFT then Z.land type (-2) else type) = (0, n, w)) as ->.
  { unfold number_sign. assert (flag (if flag type LEFT then Z.land type (-2) else type) SIGN = false) as ->; [| done].
    destruct (flag type LEFT); [| done]. unfold flag in *. rewrite <- Z.land_assoc. by change (Z.land (-2) SIGN) with SIGN. }
  rewrite number_digits_spec by (done || (by right; right)). cbn [mbind option_bind].
  repeat match goal with |- context [let '(_, _) := ?x in _] => destruct x end. eauto.
Qed.

#[local] Opaque number.
Lemma format_loop_08lx r a args outs f s :
  format_loop (S f) (str "%08lx" ++ r) (A32 a :: args) s outs = t ← number (u32 a) 16 8 (-1) (ZEROPAD + SMALL); format_loop f r args (s ++ t) outs.
Proof.
  change (str "%08lx" ++ r) with (37 :: 48 :: 56 :: 108 :: 120 :: r). cbn [format_loop]. change (negb (37 =? 37)) with false. cbn iota.
  assert (parse_conversion (48 :: 56 :: 108 :: 120 :: r) (A32 a :: args) = (t ← number (u32 a) 16 8 (-1) (ZEROPAD + SMALL); Some (t, r, args, false))) as -> by reflexivity.
  by destruct (number _ _ _ _ _).
Qed.

Lemma auto_name_text size offset : exists t, sprintf (str "0x%08lx@0x%08lx") [A32 size; A32 offset] = Some t.
Proof.
  destruct (number_some (u32 size) 8 (-1) (ZEROPAD + SMALL)) as [t1 H1]; [assert (H := wrap_range 32 size); lia | done |].
  destruct (number_some (u32 offset) 8 (-1) (ZEROPAD + SMALL)) as [t2 H2]; [assert (H := wrap_range 32 offset); lia | done |].
  eexists. unfold sprintf, vsnprintf_text.
  change (str "0x%08lx@0x%08lx") with (str "0x" ++ str "%08lx" ++ str "@0x" ++ str "%08lx" ++ []).
  change (S (length _)) with (length (str "0x") + S (length (str "@0x") + 10))%nat.
  rewrite format_loop_lit, format_loop_08lx, H1 by lits. cbn [mbind option_bind].
  rewrite format_loop_lit by lits. change 10%nat with (S (S 8)). rewrite format_loop_08lx, H2. cbn [mbind option_bind format_loop]. done.
Qed.
#[local] Transparent number.

Definition name_ok (n : text) : Prop := n <> [] /\ ~ In 41 n.
Definition part_ok (p : part_info) : Prop :=
  MIN_PART_SIZE <= p_size p < SIZE_REMAINING /\ 0 <= p_offset p < OFFSET_NOT_SPECIFIED /\
  (auto_name p = false -> name_ok (p_name p)) /\ (mask_flags p = 0 \/ mask_flags p = MTD_WRITEABLE_CMD).

(** What may follow the last partition of a device. *)
Definition after_parts (rest : text) : Prop := rest = [] \/ at0 rest = 59.

Lemma strchr_app a b c : ~ In c a -> cut_at (a ++ c :: b) c = Some (a, b).
Proof.
  induction a as [| x a IH]; intros Hi; cbn [app cut_at]; [by rewrite Z.eqb_refl |].
  rewrite (proj2 (Z.eqb_neq x c)) by (intros ->; apply Hi; by left). rewrite IH by (intros H; apply Hi; by right). done.
Qed.

(** The text behind the offset. *)
Definition part_tail (more : bool) (p : part_info) (rest : text) : text :=
  (if auto_name p then [] else 40 :: p_name p ++ [41]) ++ (if mask_flags p =? 0 then [] else str "ro") ++ (if more then [44] else []) ++ rest.

Lemma part_tail_after (more : bool) p rest : (if more then True else after_parts rest) -> after_size (part_tail more p rest) /\ at0 (part_tail more p rest) <> 64.
Proof.
  intros Hr. unfold part_tail, after_size.
  assert (match (if more then [44] else []) ++ rest with [] => True | c :: _ => In c [44; 59] end) as Hc.
  { destruct more; [by left |]. destruct Hr as [-> | Hr]; [done |]. destruct rest as [| c r]; [done |]. cbn in Hr. subst c. by right; left. }
  destruct (auto_name p); [| cbn; split; [tauto | done]]. destruct (mask_flags p =? 0); [| cbn; split; [tauto | done]]. cbn [app].
  destruct (_ ++ rest) as [| c r]; [done |]. cbn in Hc. destruct Hc as [<- | [<- | []]]; cbn; split; tauto || done.
Qed.

Lemma part_parse_text prev (more : bool) p rest : part_ok p -> (if more then True else after_parts rest) ->
  exists n, part_parse (part_text prev more p ++ rest) =
    Some (Some (rest, Part n (auto_name p) (p_size p) (if part_gap prev p then p_offset p else OFFSET_NOT_SPECIFIED) (mask_flags p) 0))
    /\ (auto_name p = false -> n = p_name p).
Proof.
  intros (Hs & Ho & Hn & Hm) Hr. set (off := if part_gap prev p then p_offset p else OFFSET_NOT_SPECIFIED).
  destruct (auto_name_text (p_size p) off) as [at_ Hat]. exists (if auto_name p then at_ else p_name p).
  split; [| by intros ->]. unfold MIN_PART_SIZE, SIZE_REMAINING, OFFSET_NOT_SPECIFIED in Hs, Ho.
  destruct (part_tail_after more p rest Hr) as [Ha H64]. unfold part_parse, part_text. rewrite <- !app_assoc. fold (part_tail more p rest).
  match goal with |- context [at0 (memsize_text ?n ++ ?r)] => assert (H48 := memsize_first n r ltac:(lia)) end.
  rewrite (proj2 (Z.eqb_neq _ 45)) by lia. cbn iota. clear H48.
  assert (after_size ((if part_gap prev p then 64 :: memsize_text (p_offset p) else []) ++ part_tail more p rest)) as Ha'.
  { destruct (part_gap prev p); [by right; right; left | done]. }
  rewrite memsize_roundtrip by (done || lia). cbn [negb andb]. unfold MIN_PART_SIZE. rewrite (proj2 (Z.ltb_ge _ _)) by lia.
  assert ((if at0 ((if part_gap prev p then 64 :: memsize_text (p_offset p) else []) ++ part_tail more p rest) =? 64
    then memsize_parse (tail ((if part_gap prev p then 64 :: memsize_text (p_offset p) else []) ++ part_tail more p rest))
    else (OFFSET_NOT_SPECIFIED, (if part_gap prev p then 64 :: memsize_text (p_offset p) else []) ++ part_tail more p rest)) = (off, part_tail more p rest)) as ->.
  { subst off. destruct (part_gap prev p); cbn [app tail]; [| by rewrite (proj2 (Z.eqb_neq _ _))].
    change (at0 (64 :: _)) with 64. change (64 =? 64) with true. cbn iota. apply memsize_roundtrip; [lia | done]. }
  clear Ha' Ha H64.
  set (R := (if mask_flags p =? 0 then [] else str "ro") ++ (if more then [44] else []) ++ rest).
  assert (part_name (part_tail more p rest) = Some (if auto_name p then None else Some (p_name p), R)) as ->.
  { unfold part_name, part_tail. fold R. destruct (auto_name p); cbn [app tail].
    - rewrite (proj2 (Z.eqb_neq (at0 R) 40)); [done |]. subst R. destruct (mask_flags p =? 0); [| done]. cbn [app].
      destruct more; [done |]. destruct Hr as [-> | Hr]; [done |]. cbn [app]. by rewrite Hr.
    - change (at0 (40 :: _)) with 40. change (40 =? 40) with true. cbn iota. rewrite <- app_assoc. cbn [app].
      destruct (Hn eq_refl) as [Hne Hi]. rewrite strchr_app by done. cbn [mbind option_bind]. by destruct (p_name p). }
  assert ((if starts (str "ro") R then (MTD_WRITEABLE_CMD, drop 2 R) else (0, R)) = (mask_flags p, (if more then [44] else []) ++ rest)) as ->.
  { subst R. unfold starts. destruct Hm as [-> | ->]; [| done]. change (0 =? 0) with true. cbn [app].
    rewrite bool_decide_false; [done |]. destruct more; [done |]. destruct Hr as [-> | Hr]; [done |]. destruct rest as [| c r]; [done |]. cbn in Hr. subst c. done. }
  assert ((n ← match (if auto_name p then None else Some (p_name p)) with Some n => Some n | None => sprintf (str "0x%08lx@0x%08lx") [A32 (p_size p); A32 off] end;
    Some (Some (rest, Part n (negb (bool_decide (is_Some (if auto_name p then None else Some (p_name p))))) (p_size p) off (mask_flags p) 0))) =
    Some (Some (rest, Part (if auto_name p then at_ else p_name p) (auto_name p) (p_size p) off (mask_flags p) 0))) as Hmake.
  { destruct (auto_name p); [by rewrite Hat | done]. }
  destruct more.
  - cbn [app tail]. change (at0 (44 :: rest) =? 44) with true. cbn iota. unfold SIZE_REMAINING. rewrite (proj2 (Z.eqb_neq _ _)) by lia. exact Hmake.
  - cbn [app]. destruct Hr as [-> | Hr]; [exact Hmake |]. rewrite Hr. change (59 =? 44) with false. change (59 =? 59) with true. cbn [orb]. exact Hmake.
Qed.

(** ** Reading the devices *)

(** The same partition, up to a name that the code made. *)
Definition same_part (p q : part_info) : Prop :=
  auto_name q = auto_name p /\ (auto_name p = false -> p_name q = p_name p) /\ p_size q = p_size p /\ p_offset q = p_offset p
  /\ mask_flags q = mask_flags p /\ sector_size q = sector_size p.

Definition same_device (d e : mtd_device) : Prop := d_id e = d_id d /\ num_parts e = num_parts d /\ Forall2 same_part (d_parts d) (d_parts e).

Definition before (p q : part_info) : Prop := p_offset p < p_offset q.

Lemma same_parts_sorted l l' : Forall2 same_part l l' -> StronglySorted before l -> StronglySorted before l'.
Proof.
  induction 1 as [| p q l l' Hpq Hl IH]; intros Hs; [constructor |]. apply StronglySorted_inv in Hs as [Hs Hf]. constructor; [by apply IH |].
  clear IH Hs. induction Hl as [| x y l l' Hxy Hl IH]; [constructor |]. apply Forall_cons in Hf as [Hx Hf]. constructor; [| by apply IH].
  unfold before in *. destruct Hpq as (_ & _ & _ & -> & _). by destruct Hxy as (_ & _ & _ & -> & _).
Qed.

(** The environment keeps what is put into it. *)
Class VariablesLaws (E : Type) `{Variables E} := {
  getenv_setenv : forall n v (e : E), v <> Some [] -> getenv n (setenv n v e) = v;
  getenv_setenv_other : forall n m v (e : E), n <> m -> getenv n (setenv m v e) = getenv n e }.

Section Commands.
Context {E : Type} `{Variables E} (mtd_table : list mtd_info).
Notation state := (state E).

(** A partition that the code accepts, with its sector size. *)
Definition valid (id : mtdids) (p : part_info) : Prop := part_validate mtd_table id p = Some (Some p).

Lemma valid_same id p q : valid id p -> p_size p <> SIZE_REMAINING -> p_size q = p_size p -> p_offset q = p_offset p ->
  part_validate mtd_table id q = Some (Some (set_sector (sector_size p) q)).
Proof.
  unfold valid, part_validate, part_validate_eraseblock, part_end. intros Hv Hr Hs Ho. rewrite Hs. apply Z.eqb_neq in Hr. rewrite Hr in *. rewrite Ho.
  destruct (id_size id <? p_offset p); [done |]. rewrite Hs. destruct (_ <=? _); [done |]. destruct (_ <? _); [done |].
  destruct (get_mtd_info _ _ _) as [[m |] |]; [| done | done]. cbn [mbind option_bind] in *. cbn [p_size p_offset set_sector] in *. rewrite Hs, Ho.
  assert (forall es, Some (Some (set_sector es p)) = Some (Some p) -> Some (Some (set_sector es q)) = Some (Some (set_sector (sector_size p) q))) as Hes.
  { intros es He. assert (es = sector_size p) as ->; [| done]. clear - He. destruct p. unfold set_sector in He. cbn in *. congruence. }
  destruct (last _); repeat match goal with |- context [if ?b then _ else _] => destruct b; [done |] end; by apply Hes.
Qed.

Definition prev_end (prev : option part_info) : Z := match prev with None => 0 | Some p => part_end p end.

Lemma parse_parts_text id l : forall prev rest fuel, Forall part_ok l -> Forall (valid id) l -> after_parts rest ->
  (length (parts_text prev l ++ rest) < fuel)%nat ->
  exists l', parse_parts mtd_table fuel id (parts_text prev l ++ rest) (prev_end prev) = Some (Some (rest, l')) /\ Forall2 same_part l l'.
Proof.
  induction l as [| p l IH]; intros prev rest fuel Ho Hv Hr Hf.
  { destruct fuel as [| fuel]; [cbn in Hf; lia |]. exists []. split; [| done]. cbn [parts_text app parse_parts]. destruct Hr as [-> | Hr]; [done |]. by rewrite Hr. }
  apply Forall_cons in Ho as [Ho Hol]. apply Forall_cons in Hv as [Hv Hvl]. destruct fuel as [| fuel]; [lia |]. cbn [parts_text] in *.
  set (more := negb (bool_decide (l = []))) in *. rewrite <- app_assoc in *. set (R := parts_text (Some p) l ++ rest) in *.
  assert (48 <= at0 (part_text prev more p ++ R) < 58) as H48.
  { unfold part_text. rewrite <- app_assoc. apply memsize_first. destruct Ho as [Hs _]. unfold MIN_PART_SIZE, SIZE_REMAINING in Hs. lia. }
  assert ((length R < length (part_text prev more p ++ R))%nat) as Hlen.
  { rewrite length_app. assert (part_text prev more p <> []) as Hne.
    { unfold part_text. intros Hnil. apply app_eq_nil in Hnil as [Hnil _].
      destruct Ho as [Hs _]. unfold MIN_PART_SIZE, SIZE_REMAINING in Hs. pose proof (memsize_first (p_size p) [] ltac:(lia)) as Hc. rewrite Hnil in Hc. cbn in Hc. lia. }
    destruct (part_text prev more p); [done |]. cbn [length]. lia. }
  destruct (part_parse_text prev more p R) as (n & Hp & Hn); [done | |].
  { subst more R. destruct l; [done |]. by rewrite bool_decide_false. }
  cbn [parse_parts]. rewrite (proj2 (Z.eqb_neq _ 59)) by lia. cbn [orb].
  rewrite bool_decide_false by (intros Hnil; rewrite Hnil in H48; cbn in H48; lia). rewrite Hp. cbn [mbind option_bind].
  set (q := Part n (auto_name p) (p_size p) (p_offset p) (mask_flags p) 0).
  match goal with |- context [part_validate _ _ ?x] => assert (x = q) as -> end.
  { cbn [p_offset]. destruct Ho as (_ & Hoff & _). unfold part_gap, prev_end, OFFSET_NOT_SPECIFIED in *. destruct prev as [pr |].
    - destruct (Z.eqb_spec (part_end pr) (p_offset p)) as [-> | Hne]; cbn [negb]; [done |]. by rewrite (proj2 (Z.eqb_neq (p_offset p) _)) by lia.
    - destruct (Z.eqb_spec (p_offset p) 0) as [H0 | Hne]; cbn [negb]; [subst q; by rewrite H0 |]. by rewrite (proj2 (Z.eqb_neq (p_offset p) _)) by lia. }
  rewrite (valid_same id p q) by (done || (destruct Ho as [Hs _]; lia)). cbn [mbind option_bind].
  change (part_end (set_sector (sector_size p) q)) with (prev_end (Some p)).
  destruct (IH (Some p) rest fuel) as (l' & He & Hl'); [done | done | done | subst R; lia |]. fold R in He. rewrite He. cbn [mbind option_bind].
  exists (set_sector (sector_size p) q :: l'). split; [done |]. constructor; [| done]. done.
Qed.

(** The same state but for the environment. *)
Definition with_env (e : E) (s : state) : state :=
  State (ids s) (devices s) (current_mtd_dev s) (current_mtd_partnum s) (last_ids s) (last_parts s) (last_partition s) (next_addr s) e.

Lemma index_partitions_none (s : state) : current_mtd_dev s = None -> exists e, index_partitions s = Some (with_env e s).
Proof. intros Hc. unfold index_partitions. rewrite Hc. eauto. Qed.

(** A partition behind all the others is put behind them. *)
Lemma sort_add_last p l : Forall (fun x => before x p) l -> sort_add p l = Some (l ++ [p], None).
Proof.
  unfold before. induction 1 as [| x l Hx Hl IH]; [done |]. cbn [sort_add]. rewrite (proj2 (Z.eqb_neq (p_offset p) (p_offset x))) by lia.
  cbn [andb]. rewrite (proj2 (Z.leb_gt _ _)) by lia. by rewrite IH.
Qed.

Definition fresh (a : nat) (s : state) : Prop := Forall (fun d => d_addr d <> a) (devices s).

Lemma put_device_fresh d (s : state) : fresh (d_addr d) s -> put_device d s = s.
Proof.
  intros Hf. unfold fresh, put_device, set_devices in *. destruct s as [? ds ????? ? ?]. cbn in *. f_equal.
  induction Hf as [| x l Hx Hl IH]; [done |]. rewrite fmap_cons, IH, bool_decide_false by done. done.
Qed.

Lemma add_all_sorted l : forall dev (s : state), current_mtd_dev s = None -> fresh (d_addr dev) s ->
  num_parts dev = wrap 16 (zlen (d_parts dev)) -> StronglySorted before (d_parts dev ++ l) ->
  exists e, add_all l dev s = Some (0, set_parts (wrap 16 (zlen (d_parts dev ++ l))) (d_parts dev ++ l) dev, with_env e s).
Proof.
  induction l as [| p l IH]; intros dev s Hc Hf Hn Hs; cbn [add_all].
  { exists (env s). rewrite app_nil_r, <- Hn. destruct dev, s; done. }
  assert (Forall (fun x => before x p) (d_parts dev)) as Hb.
  { clear - Hs. induction (d_parts dev) as [| x t IH]; [constructor |]. cbn [app] in Hs. apply StronglySorted_inv in Hs as [Hs Hf].
    constructor; [| by apply IH]. apply Forall_app in Hf as [_ Hf]. by apply Forall_cons in Hf as [Hf _]. }
  unfold part_sort_add. rewrite bool_decide_false by (rewrite Hc; done). rewrite sort_add_last by done. rewrite put_device_fresh by done.
  destruct (index_partitions_none s Hc) as [e ->]. cbn [mbind option_bind]. change (0 =? 0) with true. cbn iota.
  destruct (IH (set_parts (wrap 16 (num_parts dev + 1)) (d_parts dev ++ [p]) dev) (with_env e s)) as [e' He]; [done | done | | |].
  - cbn [num_parts set_parts d_parts]. rewrite Hn, length_app, Nat2Z.inj_add. cbn [length]. unfold wrap. by rewrite Z.add_mod_idemp_l by done.
  - cbn [d_parts set_parts]. by rewrite <- app_assoc.
  - exists e'. rewrite He. unfold set_parts. cbn [d_parts d_addr d_id]. rewrite <- app_assoc. done.
Qed.

(** What is written of a device can be read. *)
Record readable (s : state) (d : mtd_device) : Prop := {
  rd_id : ~ In 58 (mtd_id (d_id d)) /\ id_find_by_mtd_id (mtd_id (d_id d)) s = Some (d_id d);
  rd_parts : d_parts d <> [] /\ num_parts d = zlen (d_parts d) /\ num_parts d < 2 ^ 16;
  rd_ok : Forall part_ok (d_parts d);
  rd_valid : Forall (valid (d_id d)) (d_parts d);
  rd_sorted : StronglySorted before (d_parts d) }.

Definition same_key (d e : mtd_device) : Prop := id_type (d_id d) = id_type (d_id e) /\ id_num (d_id d) = id_num (d_id e).

Lemma device_find_none type num (s : state) : device_find type num s = None <->
  Forall (fun d => ~ (id_type (d_id d) = type /\ id_num (d_id d) = num)) (devices s).
Proof.
  unfold device_find. induction (devices s) as [| d l IH]; [done |]. cbn [find]. rewrite Forall_cons, <- IH.
  destruct (Z.eqb_spec (id_type (d_id d)) type), (Z.eqb_spec (id_num (d_id d)) num); cbn [andb]; (split; [done | intros [Hk _]; exfalso; tauto]) || tauto.
Qed.

Definition skip_semi (rest : text) : text := if at0 rest =? 59 then tail rest else rest.

Lemma device_parse_text d rest (s : state) : readable s d -> after_parts rest -> current_mtd_dev s = None -> fresh (next_addr s) s ->
  Forall (fun e => ~ same_key e d) (devices s) ->
  exists d' e, device_parse mtd_table (device_text d ++ rest) s = Some (Some (skip_semi rest, d'), with_env e (set_next_addr (S (next_addr s)) s))
    /\ same_device d d' /\ d_addr d' = next_addr s.
Proof.
  intros [[Hcol Hid] (Hne & Hn & Hn16) Hok Hv Hs] Hr Hc Hf Hkey. unfold device_parse, device_text. rewrite <- app_assoc. cbn [app].
  rewrite strchr_app by done. rewrite Hid. rewrite (proj2 (device_find_none _ _ s)) by exact Hkey. cbn [mbind option_bind].
  destruct (parse_parts_text (d_id d) (d_parts d) None rest (S (length (parts_text None (d_parts d) ++ rest)))) as (l' & Hp & Hl'); [done | done | done | lia |].
  cbn [prev_end] in Hp. rewrite Hp. cbn [mbind option_bind]. assert (length l' = length (d_parts d)) as Hlen by (symmetry; exact (Forall2_length _ _ _ Hl')).
  destruct l' as [| x l'']; [by destruct (d_parts d) |]. set (l' := x :: l'') in *.
  destruct (add_all_sorted l' (Device (next_addr s) (d_id d) 0 []) (set_next_addr (S (next_addr s)) s)) as [e He]; [done | done | done | exact (same_parts_sorted _ _ Hl' Hs) |].
  rewrite He. cbn [mbind option_bind]. change (0 =? 0) with true. cbn iota. eexists _, e. split; [done |]. split; [| done].
  split; [done |]. split; [| done]. cbn [set_parts num_parts d_parts app]. rewrite Hlen, Hn. apply wrap_small; lia.
Qed.

Lemma find_id_with (s s' : state) n : ids s' = ids s -> id_find_by_mtd_id n s' = id_find_by_mtd_id n s.
Proof. unfold id_find_by_mtd_id. by intros ->. Qed.

Lemma readable_ids (s s' : state) d : ids s' = ids s -> readable s d -> readable s' d.
Proof. intros He [[H1 H2] ????]. split; try done. split; [done |]. by rewrite (find_id_with s). Qed.

Lemma parse_devices_text l : forall (s : state) fuel, l <> [] -> Forall (readable s) l -> current_mtd_dev s = None ->
  Forall (fun e => (d_addr e < next_addr s)%nat) (devices s) -> Forall (fun d => Forall (fun e => ~ same_key e d) (devices s)) l ->
  StronglySorted (fun d e => ~ same_key d e) l -> (length (devices_text l) < fuel)%nat ->
  exists l' s', parse_devices mtd_table fuel (devices_text l) s = Some (0, s') /\ devices s' = devices s ++ l' /\ Forall2 same_device l l'.
Proof.
  induction l as [| d l IH]; intros s fuel Hne Hr Hc Ha Hk Hs Hf; [done |]. clear Hne. destruct fuel as [| fuel]; [lia |].
  apply Forall_cons in Hr as [Hd Hr]. apply Forall_cons in Hk as [Hkd Hk]. apply StronglySorted_inv in Hs as [Hs Hsd].
  cbn [devices_text parse_devices] in *. set (rest := match l with [] => [] | _ => 59 :: devices_text l end) in *.
  destruct (device_parse_text d rest s) as (d' & e & He & Hsame & Haddr); [done | | done | | done |].
  { subst rest. destruct l; [by left | by right]. }
  { unfold fresh. eapply Forall_impl; [exact Ha |]. cbn. lia. }
  rewrite He. cbn [mbind option_bind]. destruct Hsame as (Hi & Hn & Hp). rewrite Hi.
  rewrite (proj2 (device_find_none _ _ _)) by exact Hkd.
  set (s' := set_devices (devices (with_env e (set_next_addr (S (next_addr s)) s)) ++ [d']) (with_env e (set_next_addr (S (next_addr s)) s))).
  destruct l as [| d2 l].
  { subst rest. cbn [skip_semi]. exists [d'], s'. split; [done |]. split; [done |]. repeat constructor; done. }
  assert (skip_semi rest = devices_text (d2 :: l)) as -> by done.
  assert (length (devices_text (d2 :: l)) < fuel)%nat as Hlt.
  { subst rest. rewrite length_app in Hf. change (length (59 :: devices_text (d2 :: l))) with (S (length (devices_text (d2 :: l)))) in Hf. lia. }
  assert (devices_text (d2 :: l) <> []) as Hne.
  { cbn [devices_text]. unfold device_text. destruct (mtd_id (d_id d2)); done. }
  destruct (devices_text (d2 :: l)) as [| c r] eqn:Ht; [done |]. rewrite <- Ht in *.
  destruct (IH s' fuel) as (l' & s2 & H1 & H2 & H3).
  - done.
  - eapply Forall_impl; [exact Hr |]. intros x. by apply readable_ids.
  - done.
  - cbn. apply Forall_app_2; [eapply Forall_impl; [exact Ha |]; cbn; lia |]. constructor; [rewrite Haddr; cbn; lia | constructor].
  - cbn [devices s' set_devices]. apply Forall_forall. intros x Hx. apply Forall_app_2; [by apply (proj1 (Forall_forall _ _) Hk) |].
    constructor; [| constructor]. apply (proj1 (Forall_forall _ _) Hsd) in Hx. unfold same_key in *. by rewrite Hi.
  - done.
  - done.
  - exists (d' :: l'), s2. rewrite H1. split; [done |]. rewrite H2. cbn [devices s' set_devices]. rewrite <- app_assoc. split; [done |].
    constructor; [| done]. done.
Qed.

Lemma mtd_devices_init_state (s : state) : exists e, mtd_devices_init s =
  Some (State (ids s) [] None (current_mtd_partnum s) (last_ids s) [] [] (next_addr s) e)
  /\ forall `{!VariablesLaws E} n, n <> str "partition" -> n <> str "mtddevnum" -> n <> str "mtddevname" -> getenv n e = getenv n (env s).
Proof.
  eexists. split; [reflexivity |]. intros HL n H1 H2 H3. cbn [env put_env set_last_partition set_current set_last_parts].
  by rewrite !getenv_setenv_other.
Qed.

Lemma readable_counted (s : state) d : readable s d -> counted d.
Proof.
  intros [_ (_ & Hn & _) Hok _ _]. split; [done |]. eapply Forall_impl; [exact Hok |]. intros p (Hs & Ho & _).
  unfold MIN_PART_SIZE, SIZE_REMAINING, OFFSET_NOT_SPECIFIED in *. split; lia.
Qed.

Lemma parse_mtdparts_text `{!VariablesLaws E} l (s : state) : l <> [] -> Forall (readable s) l -> StronglySorted (fun d e => ~ same_key d e) l ->
  getenv (str "mtdparts") (env s) = Some (str "mtdparts=" ++ devices_text l) ->
  exists s', parse_mtdparts mtd_table s = Some (0, s') /\ Forall2 same_device l (devices s').
Proof.
  intros Hne Hr Hs Hg. unfold parse_mtdparts. destruct (mtd_devices_init_state s) as (e & -> & He). cbn [mbind option_bind env].
  rewrite He, Hg by done. cbn [mbind option_bind]. unfold starts. rewrite take_app_length, bool_decide_true by done. cbn [negb].
  change (drop 9 (str "mtdparts=" ++ devices_text l)) with (devices_text l).
  set (s1 := State (ids s) [] None (current_mtd_partnum s) (last_ids s) [] [] (next_addr s) e).
  destruct (parse_devices_text l s1 (S (length (devices_text l)))) as (l' & s2 & H1 & H2 & H3); [done | | done | constructor | | done | lia |].
  { eapply Forall_impl; [exact Hr |]. intros x. by apply readable_ids. }
  { by apply Forall_forall. }
  rewrite H1. destruct l as [| d l]; [done |]. destruct (devices_text (d :: l)) as [| c r] eqn:Ht.
  { cbn [devices_text] in Ht. unfold device_text in Ht. by destruct (mtd_id (d_id d)). }
  cbn [mbind option_bind]. change (0 =? 1) with false. cbn iota. exists s2. split; [done |]. by rewrite H2.
Qed.

(** C11: what [generate_mtdparts_save] puts into the variable "mtdparts" is read
    back by [parse_mtdparts] as the same devices with the same partitions: size,
    offset, name, flag and sector size, except for the names the code makes.  The
    devices have valid partitions in strict order of their offsets and the text
    has room in the buffer. *)
Theorem mtdparts_roundtrip `{!VariablesLaws E} (s : state) : devices s <> [] -> Forall (readable s) (devices s) ->
  StronglySorted (fun d e => ~ same_key d e) (devices s) -> zlen (devices_text (devices s)) + 9 < MTDPARTS_MAXLEN ->
  exists s1 s2, generate_mtdparts_save s = Some (0, s1) /\ devices s1 = devices s /\ parse_mtdparts mtd_table s1 = Some (0, s2)
    /\ Forall2 same_device (devices s) (devices s2).
Proof.
  intros Hne Hr Hs Hlen. set (t := str "mtdparts=" ++ devices_text (devices s)).
  assert (generate_mtdparts MTDPARTS_MAXLEN (devices s) = Some (Some t)) as Hg.
  { apply generate_mtdparts_ok; [done | eapply Forall_impl; [exact Hr | apply readable_counted] | done]. }
  unfold generate_mtdparts_save. rewrite Hg. cbn [mbind option_bind]. destruct t as [| c r] eqn:Ht; [by apply (f_equal head) in Ht |].
  rewrite <- Ht. set (s1 := put_env (str "mtdparts") (Some t) (set_last_parts t s)).
  destruct (parse_mtdparts_text (devices s) s1) as (s2 & H1 & H2); [done | | done | |].
  { eapply Forall_impl; [exact Hr |]. intros x. by apply readable_ids. }
  { subst s1. cbn [env put_env]. rewrite getenv_setenv; [done |]. by rewrite Ht. }
  exists s1, s2. done.
Qed.
End Commands.
