(* ===== verification/MtdpartsInv.v ===== *)
(** * The partitions stay inside of the flash (common/cmd_mtdparts.c)

    What every command keeps: the partitions of a device are inside of its flash,
    at the boundaries of its blocks and in the order of their offsets, and the
    current partition exists. *)

From Stdlib Require Import Sorted.
From S2P Require Import Prelude Ctype StringLib Vsprintf Mtdparts MtdpartsFacts.

Definition not_behind (p q : part_info) : Prop := p_offset p <= p_offset q.

(** [bind H] takes a computation that succeeded apart. *)
Ltac bind_option H :=
  match type of H with
  | mbind _ ?o = Some _ => let E := fresh "Hb" in destruct o eqn:E; [| done]; cbn [mbind option_bind] in H
  end.

Lemma memsize_parse_range t : is_u32 (memsize_parse t).1.
Proof.
  unfold memsize_parse. destruct (simple_strtoul t 0) as [r u] eqn:He.
  assert (is_u32 r) as Hr by (change r with (r, u).1; rewrite <- He; apply strtoul_range).
  repeat match goal with |- context [if ?b then _ else _] => destruct b end; try done; apply wrap_range; lia.
Qed.

Section Commands.
Context {E : Type} `{Variables E} (mtd_table : list mtd_info).
Notation state := (state E).
Notation valid := (valid mtd_table).

(** ** Validation *)

Lemma part_validate_eraseblock_result id p q : part_validate_eraseblock mtd_table id p = Some (Some q) ->
  exists es, q = set_sector es p /\ part_validate_eraseblock mtd_table id q = Some (Some q).
Proof.
  unfold part_validate_eraseblock. intros Hv. bind_option Hv. destruct o as [m |]; [| done]. exists (erasesize m).
  assert (q = set_sector (erasesize m) p) as ->.
  { destruct (last _); repeat match type of Hv with context [if ?b then _ else _] => destruct b; [done |] end; by injection Hv. }
  split; [done |]. exact Hv.
Qed.

Lemma part_validate_result id p q : part_validate mtd_table id p = Some (Some q) -> range_ok p -> 0 <= id_size id ->
  valid id q /\ range_ok q /\ p_offset q = p_offset p.
Proof.
  intros Hv Hr Hi. unfold MtdpartsFacts.valid, part_validate in *. set (p' := if p_size p =? SIZE_REMAINING then _ else p) in *.
  assert (p_offset p' = p_offset p) as Ho by (subst p'; by destruct (_ =? _)).
  assert (range_ok p') as Hr'.
  { subst p'. destruct (_ =? _); [| done]. split; [apply wrap_range; lia | apply Hr]. }
  assert (p_size p' = SIZE_REMAINING -> p_size p' = u32 (id_size id - p_offset p')) as Hs.
  { subst p'. destruct (Z.eqb_spec (p_size p) SIZE_REMAINING); [done | done]. }
  clearbody p'. destruct (id_size id <? p_offset p') eqn:H1; [done |]. destruct (part_end p' <=? p_offset p') eqn:H2; [done |].
  destruct (id_size id <? part_end p') eqn:H3; [done |]. apply part_validate_eraseblock_result in Hv as (es & -> & Hv).
  assert ((if p_size (set_sector es p') =? SIZE_REMAINING then set_size (u32 (id_size id - p_offset (set_sector es p'))) (set_sector es p')
    else set_sector es p') = set_sector es p') as ->.
  { cbn [p_size set_sector]. destruct (Z.eqb_spec (p_size p') SIZE_REMAINING) as [Hq | _]; [| done]. cbn [p_offset set_sector]. rewrite <- (Hs Hq).
    destruct p'; done. }
  change (part_end (set_sector es p')) with (part_end p'). cbn [p_offset set_sector]. rewrite H1, H2, H3. split; [done |]. by split.
Qed.

Lemma part_parse_range t rest p : part_parse t = Some (Some (rest, p)) -> range_ok p.
Proof.
  unfold part_parse. intros Hp.
  assert (is_u32 SIZE_REMAINING) as Hrem by done.
  assert (forall u, is_u32 (memsize_parse u).1) as Hm by apply memsize_parse_range.
  destruct (if at0 t =? 45 then (SIZE_REMAINING, tail t) else memsize_parse t) as [size u] eqn:H1.
  assert (is_u32 size) as Hs by (change size with (size, u).1; rewrite <- H1; by destruct (_ =? _)). clear H1.
  destruct (negb _ && _); [done |].
  destruct (if at0 u =? 64 then memsize_parse (tail u) else (OFFSET_NOT_SPECIFIED, u)) as [offset v] eqn:H1.
  assert (is_u32 offset) as Ho by (change offset with (offset, v).1; rewrite <- H1; by destruct (_ =? _)). clear H1.
  destruct (part_name v) as [[name w] |]; [| done]. destruct (if starts _ _ then _ else _) as [flags x].
  assert (forall nm r, (n ← nm; Some (Some (r, Part n (negb (bool_decide (is_Some name))) size offset flags 0))) = Some (Some (rest, p)) -> range_ok p) as Hmk.
  { intros nm r Hn. bind_option Hn. injection Hn as <- <-. done. }
  destruct (at0 x =? 44); [destruct (size =? _); [done |] | destruct (_ || _); [| done]]; by eapply Hmk.
Qed.

(** ** Devices *)

(** The device is as [device_parse] and its likes make it. *)
Record device_ok (d : mtd_device) : Prop := {
  ok_size : is_u32 (id_size (d_id d));
  ok_parts : Forall (fun p => valid (d_id d) p /\ range_ok p) (d_parts d);
  ok_sorted : StronglySorted not_behind (d_parts d) }.

Lemma sort_add_perm p l : forall l' at_, sort_add p l = Some (l', at_) -> l' ≡ₚ p :: l.
Proof.
  induction l as [| x l IH]; intros l' at_ Ha; cbn [sort_add] in Ha; [by injection Ha as <- _ |].
  destruct (_ && _); [done |]. destruct (_ <=? _); [by injection Ha as <- _ |]. bind_option Ha. destruct p0 as [t o].
  injection Ha as <- _. rewrite (IH t o) by done. constructor.
Qed.

Lemma sort_add_sorted p l : forall l' at_, sort_add p l = Some (l', at_) -> StronglySorted not_behind l -> StronglySorted not_behind l'.
Proof.
  induction l as [| x l IH]; intros l' at_ Ha Hs; cbn [sort_add] in Ha; [injection Ha as <- _; by repeat constructor |].
  apply StronglySorted_inv in Hs as [Hs Hx]. destruct (_ && _); [done |]. destruct (Z.leb_spec (p_offset p) (p_offset x)) as [Hle | Hlt].
  - injection Ha as <- _. constructor; [by constructor |]. constructor; [done |]. eapply Forall_impl; [exact Hx |]. unfold not_behind. lia.
  - bind_option Ha. destruct p0 as [t o]. injection Ha as <- _. constructor; [by eapply IH |].
    rewrite (sort_add_perm _ _ _ _ Hb). constructor; [unfold not_behind; lia | done].
Qed.

Lemma sort_add_ok d p n l at_ : device_ok d -> valid (d_id d) p -> range_ok p -> sort_add p (d_parts d) = Some (l, at_) ->
  device_ok (set_parts n l d).
Proof.
  intros [Hi Hp Hs] Hv Hr Ha. split; [done | | by eapply sort_add_sorted]. cbn [d_parts set_parts d_id].
  rewrite (sort_add_perm _ _ _ _ Ha). by constructor.
Qed.

Lemma removed_ok d n k : device_ok d -> device_ok (set_parts n (take k (d_parts d) ++ drop (S k) (d_parts d)) d).
Proof.
  intros [Hi Hp Hs]. split; [done | |]; cbn [d_parts set_parts d_id].
  - apply Forall_app_2; [by apply Forall_take | by apply Forall_drop].
  - clear - Hs. revert k Hs. generalize (d_parts d). intros l k Hs. revert k. induction Hs as [| x l Hs IH Hx]; intros k; [destruct k; constructor |].
    destruct k as [| k]; [done |]. cbn [take drop app]. constructor; [apply IH |]. apply Forall_app_2; [by apply Forall_take | by apply Forall_drop].
Qed.

(** ** What the commands keep *)

Definition devices_ok (s : state) : Prop := Forall device_ok (devices s).
Definition ids_ok (s : state) : Prop := Forall (fun i => is_u32 (id_size i)) (ids s).
Definition current_ok (s : state) : Prop :=
  forall a, current_mtd_dev s = Some a -> exists d p, device_at a s = Some d /\ mtd_part_info d (current_mtd_partnum s) = Some p.
Definition state_ok (s : state) : Prop := devices_ok s /\ ids_ok s /\ current_ok s.

(** The same lists. *)
Definition same_lists (s s' : state) : Prop := devices s' = devices s /\ ids s' = ids s.

Lemma index_partitions_keeps (s s' : state) : index_partitions s = Some s' ->
  (exists e, s' = with_env e s) /\ current_ok s'.
Proof.
  unfold index_partitions. intros Hi. destruct (current_mtd_dev s) as [a |] eqn:Hc.
  - bind_option Hi. assert (exists e, s0 = with_env e s) as [e ->].
    { destruct (mtddevnum _ _ _ _) as [n |]; [bind_option Hb; injection Hb as <-; by eexists | injection Hb as <-; exists (env s); by destruct s]. }
    bind_option Hi. bind_option Hi. injection Hi as <-. split; [by eexists |]. intros b Hcb. change (current_mtd_dev s = Some b) in Hcb.
    rewrite Hc in Hcb. injection Hcb as <-. by exists m, p.
  - injection Hi as <-. split; [by eexists |]. intros b Hcb. change (current_mtd_dev s = Some b) in Hcb. by rewrite Hc in Hcb.
Qed.

Lemma current_save_keeps (s s' : state) : current_save s = Some s' ->
  same_lists s s' /\ current_mtd_dev s' = current_mtd_dev s /\ current_mtd_partnum s' = current_mtd_partnum s /\ current_ok s'.
Proof.
  unfold current_save. intros Hs. bind_option Hs. apply index_partitions_keeps in Hs as [[e ->] Hc].
  destruct (current_mtd_dev s) as [a |] eqn:Ha; [bind_option Hb; bind_option Hb |]; injection Hb as <-; (split; [done |]; split; [exact Ha |]; done).
Qed.

Lemma ok_from_save (s s' : state) : current_save s = Some s' -> devices_ok s -> ids_ok s -> state_ok s'.
Proof. intros Hs Hd Hi. apply current_save_keeps in Hs as ((H1 & H2) & _ & _ & H3). unfold state_ok, devices_ok, ids_ok. by rewrite H1, H2. Qed.

Lemma ok_from_index (s s' : state) : index_partitions s = Some s' -> devices_ok s -> ids_ok s -> state_ok s'.
Proof. intros Hs Hd Hi. apply index_partitions_keeps in Hs as [[e ->] H3]. done. Qed.

Lemma put_device_ok d (s : state) : device_ok d -> devices_ok s -> devices_ok (put_device d s).
Proof.
  intros Hd Hs. unfold devices_ok, put_device. cbn [devices set_devices]. apply Forall_fmap. eapply Forall_impl; [exact Hs |].
  intros x Hx. cbn. by destruct (bool_decide _).
Qed.

(** What an operation that works on the lists keeps. *)
Definition keeps (s s' : state) : Prop := state_ok s' /\ ids s' = ids s /\ (current_mtd_dev s = None -> current_mtd_dev s' = None).

Lemma keeps_trans (s1 s2 s3 : state) : keeps s1 s2 -> keeps s2 s3 -> keeps s1 s3.
Proof. unfold keeps. intros (H1 & H2 & H3) (H4 & H5 & H6). rewrite H5, H2. tauto. Qed.

Lemma keeps_refl (s : state) : state_ok s -> keeps s s.
Proof. done. Qed.

Lemma keeps_save (s0 s s' : state) : current_save s = Some s' -> devices_ok s -> ids_ok s -> ids s = ids s0 ->
  (current_mtd_dev s0 = None -> current_mtd_dev s = None) -> keeps s0 s'.
Proof.
  intros Hs Hd Hi He Hn. split; [by eapply ok_from_save |]. apply current_save_keeps in Hs as ((_ & ->) & -> & _). done.
Qed.

Lemma keeps_index (s0 s s' : state) : index_partitions s = Some s' -> devices_ok s -> ids_ok s -> ids s = ids s0 ->
  (current_mtd_dev s0 = None -> current_mtd_dev s = None) -> keeps s0 s'.
Proof.
  intros Hs Hd Hi He Hn. split; [by eapply ok_from_index |]. apply index_partitions_keeps in Hs as [[e ->] _]. done.
Qed.

Lemma part_sort_add_ok d p (s : state) r d' s' : part_sort_add d p s = Some (r, d', s') -> state_ok s -> device_ok d ->
  valid (d_id d) p -> range_ok p -> keeps s s' /\ device_ok d' /\ d_id d' = d_id d.
Proof.
  unfold part_sort_add. intros Ha (Hd & Hi & Hc) Hdev Hv Hr. destruct (sort_add p (d_parts d)) as [[l at_] |] eqn:Hs.
  2: { injection Ha as <- <- <-. split; [done |]. split; done. }
  set (nd := set_parts (wrap 16 (num_parts d + 1)) l d) in *. assert (device_ok nd) as Hnd by (by eapply sort_add_ok).
  set (s1 := put_device nd s) in *. assert (devices_ok s1) as Hd1 by (by apply put_device_ok).
  assert (forall s2, (s3 ← index_partitions s1; Some (0, nd, s3)) = Some (r, d', s2) -> keeps s s2 /\ device_ok d' /\ d_id d' = d_id d) as Hix.
  { intros s2 Hx. bind_option Hx. injection Hx as _ <- <-. split; [by eapply keeps_index | done]. }
  destruct at_ as [pi |]; [| by apply Hix]. destruct (if bool_decide _ then _ else _) as [curr |]; [| by apply Hix].
  destruct (_ <=? _); [| by apply Hix]. bind_option Ha. injection Ha as _ <- <-. split; [| done].
  eapply keeps_save; [exact Hb | done..].
Qed.

Lemma add_all_ok l : forall d (s : state) r d' s', add_all l d s = Some (r, d', s') -> state_ok s -> device_ok d ->
  Forall (fun p => valid (d_id d) p /\ range_ok p) l -> keeps s s' /\ device_ok d' /\ d_id d' = d_id d.
Proof.
  induction l as [| p l IH]; intros d s r d' s' Ha Hs Hd Hl; cbn [add_all] in Ha; [by injection Ha as _ <- <- |].
  apply Forall_cons in Hl as [[Hv Hr] Hl]. bind_option Ha. destruct p0 as [[r1 d1] s1].
  destruct (part_sort_add_ok _ _ _ _ _ _ Hb Hs Hd Hv Hr) as (H1 & H2 & H3). destruct (r1 =? 0); [| by injection Ha as _ <- <-].
  destruct (IH d1 s1 r d' s' Ha) as (H4 & H5 & H6); [apply H1 | done | by rewrite H3 |].
  split; [by eapply keeps_trans |]. split; [done |]. by rewrite H6.
Qed.

Lemma parse_parts_ok fuel id : is_u32 (id_size id) -> forall t off rest l, is_u32 off ->
  parse_parts mtd_table fuel id t off = Some (Some (rest, l)) -> Forall (fun p => valid id p /\ range_ok p) l.
Proof.
  intros Hid. induction fuel as [| fuel IH]; intros t off rest l Hoff Hp; [done |]. cbn [parse_parts] in Hp.
  destruct (_ || _); [by injection Hp as _ <- |]. bind_option Hp. destruct o as [[u p] |]; [| done]. apply part_parse_range in Hb as Hr.
  bind_option Hp. destruct o as [q |]; [| done].
  apply part_validate_result in Hb0 as (Hv & Hq & _); [| | apply Hid].
  2: { destruct (_ =? _); [| done]. split; [apply Hr | done]. }
  bind_option Hp. destruct o as [[u' l'] |]; [| done]. injection Hp as _ <-. constructor; [done |].
  eapply IH; [| exact Hb0]. apply wrap_range. lia.
Qed.

Lemma device_find_in type num (s : state) d : device_find type num s = Some d -> d ∈ devices s.
Proof. unfold device_find. intros Hf. apply find_some in Hf as [Hf _]. by apply list_elem_of_In. Qed.

Lemma find_part_in id l d n : find_part id l = Some (d, n) -> d ∈ l.
Proof.
  induction l as [| x l IH]; cbn [find_part]; [done |]. destruct (find_name _ _ _) as [k |]; intros Hf; [injection Hf as <- _; constructor |].
  constructor. by apply IH.
Qed.

Lemma find_dev_and_part_in id (s : state) d n : find_dev_and_part id s = Some (d, n) -> d ∈ devices s.
Proof.
  unfold find_dev_and_part. destruct (find_part id (devices s)) as [[x k] |] eqn:Hf.
  - intros [= <- <-]. by eapply find_part_in.
  - intros Hs. bind_option Hs. destruct p as [[p type] num]. destruct (_ || _); [done |]. destruct (simple_strtoul _ _) as [v u]. destruct u; [| done].
    bind_option Hs. bind_option Hs. injection Hs as <- _. by eapply device_find_in.
Qed.

Lemma devices_ok_in (s : state) d : devices_ok s -> d ∈ devices s -> device_ok d.
Proof. intros Hs. by apply (proj1 (Forall_forall _ _) Hs). Qed.

Lemma device_del_ok d (s s' : state) : device_del d s = Some s' -> state_ok s -> keeps s s'.
Proof.
  unfold device_del. intros Hs (Hd & Hi & Hc). set (s1 := set_devices _ s) in *.
  assert (devices_ok s1) as H1 by (apply Forall_forall; intros x [_ Hx]%list_elem_of_filter; by eapply devices_ok_in).
  case_bool_decide as Hcur; [| by eapply keeps_index].
  eapply keeps_save; [exact Hs | ..]; try (by destruct (devices s1)). intros Hn. change (current_mtd_dev s = Some (d_addr d)) in Hcur. by rewrite Hn in Hcur.
Qed.

Lemma device_parse_ok t (s : state) r s' : device_parse mtd_table t s = Some (r, s') -> state_ok s ->
  keeps s s' /\ (forall rest d, r = Some (rest, d) -> device_ok d).
Proof.
  unfold device_parse. intros Hp Hs. destruct (cut_at t 58) as [[name p] |]; [| by injection Hp as <- <-].
  destruct (id_find_by_mtd_id name s) as [id |] eqn:Hid; [| by injection Hp as <- <-].
  assert (is_u32 (id_size id)) as Hu.
  { unfold id_find_by_mtd_id in Hid. apply find_some in Hid as [Hid _]. apply list_elem_of_In in Hid. destruct Hs as (_ & Hi & _). by apply (proj1 (Forall_forall _ _) Hi). }
  bind_option Hp. assert (is_u32 z) as Hz.
  { destruct (device_find _ _ _); [| by injection Hb as <-]. bind_option Hb. injection Hb as <-. apply wrap_range. lia. }
  bind_option Hp. destruct o as [[u l] |]; [| by injection Hp as <- <-]. apply parse_parts_ok in Hb0; [| done | done].
  destruct l as [| x l]; [by injection Hp as <- <- |]. bind_option Hp. destruct p0 as [[r1 d1] s1].
  destruct (add_all_ok _ _ _ _ _ _ Hb1) as (H1 & H2 & H3); [done | split; [done | constructor | constructor] | done |].
  assert (keeps s s1) as Hk by exact H1.
  destruct (r1 =? 0); [injection Hp as <- <-; split; [done |]; by intros ? ? [= <- <-] |].
  bind_option Hp. injection Hp as <- <-. split; [| done]. eapply keeps_trans; [exact Hk |]. eapply device_del_ok; [exact Hb2 | apply H1].
Qed.

Lemma device_at_app a (s : state) l d : device_at a s = Some d -> device_at a (set_devices (devices s ++ l) s) = Some d.
Proof. unfold device_at. cbn [devices set_devices]. induction (devices s) as [| x t IH]; [done |]. cbn [find app]. by destruct (bool_decide _). Qed.

Lemma append_device_ok d (s : state) : state_ok s -> device_ok d -> state_ok (set_devices (devices s ++ [d]) s).
Proof.
  intros (Hd & Hi & Hc) Hok. split; [apply Forall_app_2; [done | by apply Forall_singleton] |]. split; [done |].
  intros a Ha. destruct (Hc a Ha) as (e & p & He & Hp). exists e, p. split; [by apply device_at_app | done].
Qed.

Lemma parse_devices_ok fuel : forall t (s : state) r s', parse_devices mtd_table fuel t s = Some (r, s') -> state_ok s -> keeps s s'.
Proof.
  induction fuel as [| fuel IH]; intros t s r s' Hp Hs; [done |]. cbn [parse_devices] in Hp. bind_option Hp. destruct p as [o s1].
  apply device_parse_ok in Hb as [Hk Hd]; [| done]. destruct o as [[u d] |]; [| by injection Hp as <- <-].
  specialize (Hd _ _ eq_refl). destruct (device_find _ _ _); [by injection Hp as <- <- |].
  set (s2 := set_devices (devices s1 ++ [d]) s1) in *. assert (keeps s s2) as Hk2.
  { destruct Hk as (H1 & H2 & H3). split; [by apply append_device_ok | done]. }
  destruct u; [by injection Hp as <- <- |]. eapply keeps_trans; [exact Hk2 |]. eapply IH; [exact Hp | apply Hk2].
Qed.

Lemma mtd_devices_init_ok (s s' : state) : mtd_devices_init s = Some s' -> ids_ok s ->
  state_ok s' /\ current_mtd_dev s' = None /\ devices s' = [].
Proof.
  destruct (mtd_devices_init_state s) as (e & -> & _). intros [= <-] Hi. split; [| done]. split; [constructor | by split].
Qed.

Lemma parse_mtdparts_ok (s : state) r s' : parse_mtdparts mtd_table s = Some (r, s') -> ids_ok s -> state_ok s'.
Proof.
  unfold parse_mtdparts. intros Hp Hi. bind_option Hp. apply mtd_devices_init_ok in Hb as (Hs & Hn & _); [| done].
  bind_option Hp. destruct (negb _); [by injection Hp as _ <- |]. bind_option Hp. destruct p as [err s1].
  assert (keeps s0 s1) as (Hs1 & _ & Hn1).
  { destruct (drop 9 _); [by injection Hb0 as _ <- | by eapply parse_devices_ok]. }
  destruct (err =? 1); injection Hp as _ <-; [| done]. destruct Hs1 as (_ & H1 & _). split; [constructor |]. split; [done |].
  intros a Ha. change (current_mtd_dev s1 = Some a) in Ha. by rewrite Hn1 in Ha.
Qed.

Lemma parse_ids_ok fuel : forall t l ok clean l', parse_ids mtd_table fuel t l = Some (ok, clean, l') ->
  Forall (fun i => is_u32 (id_size i)) l -> Forall (fun i => is_u32 (id_size i)) l'.
Proof.
  induction fuel as [| fuel IH]; intros t l ok clean l' Hp Hl; [done |]. cbn [parse_ids] in Hp.
  destruct (mtd_id_parse t) as [[[u type] num] |]; [| by injection Hp as _ _ <-]. destruct (negb _); [by injection Hp as _ _ <- |].
  bind_option Hp. destruct o as [m |]; [| by injection Hp as _ _ <-]. destruct (match cut_at (tail u) 44 with Some (a, b) => (a, b) | None => (tail u, []) end) as [name v].
  destruct (existsb _ _); [by injection Hp as _ _ <- |].
  assert (Forall (fun i => is_u32 (id_size i)) (l ++ [Mtdids type num (u32 (m_size m)) name])) as Hl'.
  { apply Forall_app_2; [done |]. constructor; [| constructor]. apply wrap_range. lia. }
  destruct v; [by injection Hp as _ _ <- | by eapply IH].
Qed.

Lemma parse_mtdids_ok t (s : state) r s' : parse_mtdids mtd_table t s = Some (r, s') -> state_ok s -> state_ok s'.
Proof.
  unfold parse_mtdids. intros Hp (Hd & Hi & Hc). destruct t as [| c t]; [injection Hp as _ <-; split; [done |]; split; [constructor | done] |].
  bind_option Hp. destruct p as [[ok clean] l]. injection Hp as _ <-. split; [done |]. split; [| done].
  unfold ids_ok. cbn [ids set_ids]. destruct clean; [constructor |]. by eapply parse_ids_ok.
Qed.

Lemma select_ok d n (s s' : state) : current_save (set_current d n s) = Some s' -> state_ok s -> state_ok s'.
Proof. intros Hs (Hd & Hi & _). by eapply ok_from_save. Qed.

Lemma use_partition_ok v (s s' : state) : use_partition v s = Some s' -> state_ok s -> state_ok s'.
Proof.
  unfold use_partition. intros Hu Hs. destruct (_ <=? _); [destruct (_ || _); [done | by injection Hu as <-] |].
  destruct (_ && _).
  - destruct (find_dev_and_part _ _) as [[d n] |]; [by eapply select_ok | by injection Hu as <-].
  - destruct (getenv _ _); [by injection Hu as <- |]. destruct Hs as (Hd & Hi & _). by eapply ok_from_save.
Qed.

Lemma read_parts_ok t (s : state) r s' : read_parts mtd_table t s = Some (r, s') -> ids_ok s -> state_ok s'.
Proof.
  unfold read_parts. intros Hr Hi. bind_option Hr. destruct p as [r1 s1]. apply parse_mtdparts_ok in Hb; [| done].
  destruct (negb _); [by injection Hr as _ <- |]. destruct (devices s1) as [| d l]; [by injection Hr as _ <- |].
  bind_option Hr. injection Hr as _ <-. by eapply select_ok.
Qed.

Lemma mtdparts_init_ok dflt (s : state) r s' : mtdparts_init mtd_table dflt s = Some (r, s') -> state_ok s -> state_ok s'.
Proof.
  unfold mtdparts_init. intros Hm Hs. match type of Hm with match ?x with _ => _ end = _ => destruct x as [[t s1] |] eqn:Ht end; [| by injection Hm as _ <-].
  assert (state_ok s1) as Hs1.
  { destruct (getenv (str "mtdids") (env s)); [by injection Ht as _ <- |]. bind_option Ht. by injection Ht as _ <-. } clear Ht.
  destruct (_ <? _); [by injection Hm as _ <- |]. destruct (_ && _); [by injection Hm as _ <- |].
  set (same := _ && _) in Hm. bind_option Hm. destruct p as [r2 s2].
  assert (state_ok s2) as Hs2 by (destruct same; [by injection Hb as _ <- | by eapply parse_mtdids_ok]).
  destruct (negb (r2 =? 0)).
  { bind_option Hm. injection Hm as _ <-. apply mtd_devices_init_ok in Hb0; [apply Hb0 | apply Hs2]. }
  set (s3 := if same then s2 else set_last_ids t s2) in *. assert (state_ok s3) as Hs3 by (subst s3; by destruct same). clearbody s3.
  destruct (getenv (str "mtdparts") (env s)) as [parts |].
  - bind_option Hm. destruct p as [r4 s4]. assert (state_ok s4) as Hs4.
    { destruct (_ || _); [eapply read_parts_ok; [exact Hb0 | apply Hs3] | by injection Hb0 as _ <-]. }
    destruct (negb (r4 =? 0)); [by injection Hm as _ <- |]. bind_option Hm. injection Hm as _ <-. by eapply use_partition_ok.
  - assert (forall s4, (s5 ← mtd_devices_init s3; Some (0, s5)) = Some (r, s4) -> state_ok s4) as Hi.
    { intros s4 Hx. bind_option Hx. injection Hx as _ <-. apply mtd_devices_init_ok in Hb0; [apply Hb0 | apply Hs3]. }
    destruct (last_parts s3); [| by apply Hi]. destruct (devices s3); [by injection Hm as _ <- |]. destruct same; [by injection Hm as _ <- | done].
Qed.

Lemma do_chpart_ok dflt argv (s : state) r s' : do_chpart mtd_table dflt argv s = Some (r, s') -> state_ok s -> state_ok s'.
Proof.
  unfold do_chpart. intros Hc Hs. bind_option Hc. destruct p as [r1 s1]. apply mtdparts_init_ok in Hb; [| done].
  destruct (negb _); [by injection Hc as _ <- |]. destruct argv as [| ? [| id argv]]; try (by injection Hc as _ <-).
  destruct (find_dev_and_part id s1) as [[d n] |]; [| by injection Hc as _ <-]. bind_option Hc. injection Hc as _ <-. by eapply select_ok.
Qed.

Lemma generate_mtdparts_save_ok (s : state) r s' : generate_mtdparts_save s = Some (r, s') -> state_ok s -> state_ok s'.
Proof. unfold generate_mtdparts_save. intros Hg Hs. bind_option Hg. destruct o as [[| c t] |]; by injection Hg as _ <-. Qed.

Lemma part_add_ok d p (s : state) r s' : part_add mtd_table d p s = Some (r, s') -> state_ok s -> device_ok d -> range_ok p -> state_ok s'.
Proof.
  unfold part_add. intros Ha Hs Hd Hr. bind_option Ha. destruct o as [q |]; [| by injection Ha as _ <-].
  apply part_validate_result in Hb as (Hv & Hq & _); [| done | apply Hd]. bind_option Ha. destruct p0 as [[r1 d1] s1]. injection Ha as _ <-.
  by destruct (part_sort_add_ok _ _ _ _ _ _ Hb Hs Hd Hv Hq) as [[H1 _] _].
Qed.

Lemma part_del_ok d n (s s' : state) : part_del d n s = Some s' -> state_ok s -> device_ok d -> state_ok s'.
Proof.
  unfold part_del. intros Hp Hs Hd. destruct (num_parts d =? 1); [by eapply device_del_ok |]. bind_option Hp.
  set (d' := set_parts _ _ d) in *. assert (devices_ok (put_device d' s)) as H1 by (apply put_device_ok; [by apply removed_ok | apply Hs]).
  destruct (if bool_decide _ then _ else _); [eapply ok_from_save | eapply ok_from_index]; [exact Hp | | | exact Hp | |]; done || apply Hs.
Qed.

Lemma device_add_ok d (s s' : state) : device_add d s = Some s' -> state_ok s -> device_ok d -> state_ok s'.
Proof.
  unfold device_add. intros Ha Hs Hd. destruct (devices s) as [| x l] eqn:He.
  - eapply ok_from_save; [exact Ha | by apply Forall_singleton | apply Hs].
  - eapply ok_from_index; [exact Ha | | apply Hs]. unfold devices_ok. cbn [devices set_devices]. rewrite <- He. apply Forall_app_2; [apply Hs | by apply Forall_singleton].
Qed.

Lemma delete_partition_ok id (s : state) r s' : delete_partition id s = Some (r, s') -> state_ok s -> state_ok s'.
Proof.
  unfold delete_partition. intros Hp Hs. destruct (find_dev_and_part id s) as [[d n] |] eqn:Hf; [| by injection Hp as _ <-].
  bind_option Hp. eapply generate_mtdparts_save_ok; [exact Hp |]. eapply part_del_ok; [exact Hb | done |].
  eapply devices_ok_in; [apply Hs | by eapply find_dev_and_part_in].
Qed.

Lemma mtdparts_add_ok dev size name ro (s : state) r s' : mtdparts_add mtd_table dev size name ro s = Some (r, s') -> state_ok s -> state_ok s'.
Proof.
  unfold mtdparts_add. intros Ha Hs. destruct (mtd_id_parse dev) as [[[u type] num] |]; [| by injection Ha as _ <-].
  destruct (id_find type num s) as [id |]; [| by injection Ha as _ <-]. destruct (_ <=? _); [by injection Ha as _ <- |].
  bind_option Ha. destruct (_ <? _); [done |]. bind_option Ha. destruct p as [o s1]. apply device_parse_ok in Hb0 as [(Hs1 & _ & _) Hd]; [| done].
  destruct o as [[v d] |]; [| by injection Ha as _ <-]. specialize (Hd _ _ eq_refl). bind_option Ha.
  destruct (device_find _ _ s1) as [d1 |] eqn:Hf.
  - bind_option Ha. destruct p0 as [r2 s2]. assert (state_ok s2) as Hs2.
    { eapply part_add_ok; [exact Hb1 | done | eapply devices_ok_in; [apply Hs1 | by eapply device_find_in] |].
      destruct (d_parts d) as [| x t] eqn:Hl; [done |]. injection Hb0 as ->. destruct Hd as [_ Hp _]. rewrite Hl in Hp. by apply Forall_cons in Hp as [[_ Hr] _]. }
    destruct (negb _); [| by eapply generate_mtdparts_save_ok]. bind_option Ha. injection Ha as _ <-. by eapply device_del_ok.
  - bind_option Ha. eapply generate_mtdparts_save_ok; [exact Ha |]. by eapply device_add_ok.
Qed.

Lemma do_mtdparts_ok dids dparts argv (s : state) r s' : do_mtdparts mtd_table dids dparts argv s = Some (r, s') -> state_ok s -> state_ok s'.
Proof.
  unfold do_mtdparts. intros Hd Hs. destruct (_ && bool_decide (_ = str "default")).
  { bind_option Hd. destruct p as [r1 s1]. injection Hd as _ <-. by eapply mtdparts_init_ok. }
  destruct (_ && bool_decide (_ = str "delall")).
  { bind_option Hd. destruct p as [r1 s1]. apply mtdparts_init_ok in Hb; [| done]. bind_option Hd. injection Hd as _ <-.
    apply mtd_devices_init_ok in Hb0; [apply Hb0 | apply Hb]. }
  bind_option Hd. destruct p as [r1 s1]. apply mtdparts_init_ok in Hb; [| done]. destruct (negb _); [by injection Hd as _ <- |].
  destruct (_ =? 1)%nat; [by injection Hd as _ <- |]. destruct (_ && starts _ _); [by eapply mtdparts_add_ok |].
  destruct (_ && bool_decide _); [by eapply delete_partition_ok | by injection Hd as _ <-].
Qed.

(** ** The states that are reached *)

(** A command that returns, or a change of the environment by somebody else. *)
Inductive ran (dids dparts : option text) : state -> state -> Prop :=
  | ran_mtdparts argv s r s' : do_mtdparts mtd_table dids dparts argv s = Some (r, s') -> ran dids dparts s s'
  | ran_chpart argv s r s' : do_chpart mtd_table dids argv s = Some (r, s') -> ran dids dparts s s'
  | ran_env e s : ran dids dparts s (with_env e s).

Definition boot_state (n : nat) (e : E) : state := State [] [] None 0 [] [] [] n e.

Lemma ran_ok dids dparts (s s' : state) : ran dids dparts s s' -> state_ok s -> state_ok s'.
Proof. intros [argv s1 r s2 Hr | argv s1 r s2 Hr | e s1] Hs; [by eapply do_mtdparts_ok | by eapply do_chpart_ok | done]. Qed.

Lemma boot_state_ok n e : state_ok (boot_state n e).
Proof. split; [constructor |]. split; [constructor | done]. Qed.

(** Inside of the flash, and at the boundaries of blocks of one size. *)
Definition in_flash (id : mtdids) (p : part_info) : Prop :=
  0 <= p_offset p /\ 0 < p_size p /\ p_offset p + p_size p <= id_size id /\
  exists m, get_mtd_info mtd_table (id_type id) (id_num id) = Some (Some m) /\ sector_size p = erasesize m /\
    (eraseregions m = [] -> p_offset p mod erasesize m = 0 /\ p_size p mod erasesize m = 0).

Lemma valid_size id p : valid id p -> (if p_size p =? SIZE_REMAINING then set_size (u32 (id_size id - p_offset p)) p else p) = p.
Proof.
  unfold MtdpartsFacts.valid, part_validate. destruct (p_size p =? SIZE_REMAINING); [| done]. set (q := set_size _ p). intros Hv.
  destruct (_ <? _); [done |]. destruct (_ <=? _); [done |]. destruct (_ <? _); [done |].
  apply part_validate_eraseblock_result in Hv as (es & Hp & _). apply (f_equal p_size) in Hp. cbn [p_size set_sector] in Hp.
  subst q. destruct p. cbn in *. unfold set_size in *. cbn in *. by rewrite <- Hp.
Qed.

Lemma valid_in_flash id p : valid id p -> range_ok p -> in_flash id p.
Proof.
  intros Hv [Hs Ho]. assert (Hq := valid_size id p Hv). unfold MtdpartsFacts.valid, part_validate in Hv. rewrite Hq in Hv. clear Hq.
  destruct (Z.ltb_spec (id_size id) (p_offset p)) as [| H1]; [done |]. destruct (Z.leb_spec (part_end p) (p_offset p)) as [| H2]; [done |].
  destruct (Z.ltb_spec (id_size id) (part_end p)) as [| H3]; [done |].
  assert (part_end p = p_offset p + p_size p) as He.
  { unfold part_end, wrap in *. destruct (Z.lt_ge_cases (p_offset p + p_size p) (2 ^ 32)); [apply Z.mod_small; lia |].
    exfalso. assert ((p_offset p + p_size p) mod 2 ^ 32 = p_offset p + p_size p - 2 ^ 32) as Hm; [| lia].
    symmetry. apply (Z.mod_unique _ _ 1); lia. }
  split; [lia |]. split; [lia |]. split; [lia |]. unfold part_validate_eraseblock in Hv. bind_option Hv. destruct o as [m |]; [| done]. exists m.
  split; [done |]. assert (forall es, Some (Some (set_sector es p)) = Some (Some p) -> sector_size p = es) as Hes.
  { intros es [= Hq]. rewrite <- Hq at 1. done. }
  destruct (last (eraseregions m)) as [r |] eqn:Hl.
  - split; [apply Hes; repeat match type of Hv with context [if ?b then _ else _] => destruct b; [done |] end; done |].
    intros Hn. by rewrite Hn in Hl.
  - destruct (Z.eqb_spec (p_offset (set_sector (erasesize m) p) mod erasesize m) 0); [| done].
    destruct (Z.eqb_spec (p_size (set_sector (erasesize m) p) mod erasesize m) 0); [| done]. split; [by apply Hes | done].
Qed.

(** C10: whatever the commands "mtdparts" and "chpart" do, and whatever happens to
    the environment between them: each partition of each device is inside of its
    flash and, when the blocks of the flash have one size, at their boundaries;
    the partitions of a device are in the order of their offsets; and the current
    partition, if there is one, exists. *)
Theorem partitions_in_flash dids dparts n e s : rtc (ran dids dparts) (boot_state n e) s ->
  (forall d p, d ∈ devices s -> p ∈ d_parts d -> in_flash (d_id d) p)
  /\ (forall d, d ∈ devices s -> StronglySorted not_behind (d_parts d))
  /\ (forall a, current_mtd_dev s = Some a -> exists d p, device_at a s = Some d /\ mtd_part_info d (current_mtd_partnum s) = Some p).
Proof.
  intros Hr. assert (state_ok s) as (Hd & _ & Hc).
  { revert Hr. generalize (boot_state_ok n e). generalize (boot_state n e). intros s0 H0 Hr.
    induction Hr as [| s0 s1 s2 H1 _ IH]; [done | apply IH; by eapply ran_ok]. }
  split; [| split; [| exact Hc]]; intros d; [intros p Hin Hp | intros Hin]; destruct (devices_ok_in s d Hd Hin) as [_ Hps Hss]; [| done].
  apply (proj1 (Forall_forall _ _) Hps) in Hp as [Hv Hg]. by apply valid_in_flash.
Qed.
End Commands.
