(* ===== verification/MtdpartsCur.v ===== *)
(** * The current partition, and what goes wrong (common/cmd_mtdparts.c)

    Adding a partition, or deleting another one, keeps the current partition, when
    the offsets are different; the cases in which the code writes behind a buffer
    or follows a null pointer; the theorems at work on a flash. *)

From Stdlib Require Import Sorted.
From S2P Require Import Prelude Ctype StringLib Vsprintf Mtdparts MtdpartsFacts MtdpartsInv.

(** ** Texts *)

#[local] Opaque number.
Lemma format_loop_d r v args outs f s : exists t,
  format_loop (S f) (str "%d" ++ r) (A32 v :: args) s outs = format_loop f r args (s ++ t) outs.
Proof.
  assert (0 <= u32 v < 2 ^ 32) as Hv by (apply wrap_range; lia). eexists.
  change (str "%d" ++ r) with (37 :: 100 :: r). cbn [format_loop]. change (negb (37 =? 37)) with false. cbn iota.
  assert (parse_conversion (100 :: r) (A32 v :: args) = (t ← number (u64 (s32 (u32 v))) 10 (-1) (-1) SIGN; Some (t, r, args, false))) as -> by reflexivity.
  rewrite number_signed by done. reflexivity.
Qed.
#[local] Transparent number.

Lemma sprintf_d v : exists t, sprintf (str "%d") [A32 v] = Some t.
Proof.
  unfold sprintf, vsnprintf_text. change (str "%d") with (str "%d" ++ []). destruct (format_loop_d [] v [] [] 2 []) as [t Ht].
  exists t. change (S (length (str "%d" ++ []))) with 3%nat. by rewrite Ht.
Qed.

Lemma sprintf_partition d n p : exists t, sprintf (str "%s%d,%d") [AStr (Some d); A32 n; A32 p] = Some t.
Proof.
  unfold sprintf, vsnprintf_text. change (str "%s%d,%d") with (str "%s" ++ str "%d" ++ str "," ++ str "%d" ++ []).
  change (S (length _)) with (S (S (length (str ",") + 5))). rewrite format_loop_s.
  destruct (format_loop_d (str "," ++ str "%d" ++ []) n [A32 p] [] (length (str ",") + 5) ([] ++ d)) as [t1 ->].
  rewrite format_loop_lit by lits. destruct (format_loop_d [] p [] [] 4 ((([] ++ d) ++ t1) ++ str ",")) as [t2 Ht]. rewrite Ht. eexists. done.
Qed.

(** ** The place of a partition that is added *)

Lemma sort_add_place p l : forall l' at_, sort_add p l = Some (l', at_) ->
  exists k, (k <= length l)%nat /\ l' = take k l ++ p :: drop k l /\ at_ = l !! k
    /\ Forall (fun x => p_offset x < p_offset p) (take k l) /\ (forall x, l !! k = Some x -> p_offset p <= p_offset x).
Proof.
  induction l as [| x l IH]; intros l' at_ Ha; cbn [sort_add] in Ha.
  { injection Ha as <- <-. by exists O. }
  destruct (_ && _); [done |]. destruct (Z.leb_spec (p_offset p) (p_offset x)) as [Hle | Hlt].
  - injection Ha as <- <-. exists O. split; [cbn; lia |]. repeat split; [constructor |]. by intros y [= <-].
  - bind_option Ha. destruct p0 as [t o]. injection Ha as <- <-. destruct (IH _ _ eq_refl) as (k & Hk & -> & -> & Hf & Hx).
    exists (S k). split; [cbn; lia |]. repeat split; [by constructor | done].
Qed.

Lemma lookup_insert_at {A} (l : list A) k p i x : (k <= length l)%nat -> l !! i = Some x ->
  (take k l ++ p :: drop k l) !! (if (i <? k)%nat then i else S i) = Some x.
Proof.
  intros Hk Hi. destruct (Nat.ltb_spec i k) as [Hlt | Hge].
  - rewrite lookup_app_l by (rewrite length_take; lia). by rewrite lookup_take_lt.
  - rewrite lookup_app_r by (rewrite length_take; lia). rewrite length_take, Nat.min_l by lia.
    replace (S i - k)%nat with (S (i - k)) by lia. change ((p :: drop k l) !! S (i - k)) with (drop k l !! (i - k)%nat). rewrite lookup_drop. by replace (k + (i - k))%nat with i by lia.
Qed.

Lemma lookup_remove_at {A} (l : list A) k i x : (k < length l)%nat -> i <> k -> l !! i = Some x ->
  (take k l ++ drop (S k) l) !! (if (k <? i)%nat then pred i else i) = Some x.
Proof.
  intros Hk Hne Hi. destruct (Nat.ltb_spec k i) as [Hlt | Hge].
  - rewrite lookup_app_r by (rewrite length_take; lia). rewrite length_take, Nat.min_l, lookup_drop by lia.
    by replace (S k + (pred i - k))%nat with i by lia.
  - rewrite lookup_app_l by (rewrite length_take; lia). by rewrite lookup_take_lt by lia.
Qed.

Lemma sorted_lookup {A} (R : A -> A -> Prop) l : StronglySorted R l -> forall i j x y, (i < j)%nat -> l !! i = Some x -> l !! j = Some y -> R x y.
Proof.
  induction 1 as [| z l Hs IH Hz]; intros i j x y Hij Hi Hj; [by rewrite lookup_nil in Hi |]. destruct j as [| j]; [lia |].
  cbn in Hj. destruct i as [| i]; [injection Hi as <-; by eapply (proj1 (Forall_forall _ _) Hz), list_elem_of_lookup_2 | apply (IH i j); [lia | done..]].
Qed.

Section Commands.
Context {E : Type} `{Variables E} (mtd_table : list mtd_info).
Notation state := (state E).

(** The current partition. *)
Definition current (s : state) : option part_info :=
  a ← current_mtd_dev s; d ← device_at a s; mtd_part_info d (current_mtd_partnum s).

Lemma index_partitions_total (s : state) p : current s = Some p -> exists e, index_partitions s = Some (with_env e s).
Proof.
  unfold current, index_partitions. intros Hc. destruct (current_mtd_dev s) as [a |]; [| done]. cbn [mbind option_bind] in Hc.
  destruct (device_at a s) as [d |] eqn:Hd; [| done]. cbn [mbind option_bind] in Hc.
  destruct (mtddevnum _ _ _ _) as [n |].
  - destruct (sprintf_d n) as [t ->]. cbn [mbind option_bind]. change (device_at a (put_env _ _ s)) with (device_at a s). rewrite Hd. cbn [mbind option_bind].
    change (current_mtd_partnum (put_env _ _ s)) with (current_mtd_partnum s). rewrite Hc. by eexists.
  - cbn [mbind option_bind]. rewrite Hd. cbn [mbind option_bind]. rewrite Hc. by eexists.
Qed.

Lemma current_save_total (s : state) p : current s = Some p -> exists e t, current_save s = Some (with_env e (set_last_partition t s)).
Proof.
  unfold current_save. intros Hc. destruct (current_mtd_dev s) as [a |] eqn:Ha; [| unfold current in Hc; by rewrite Ha in Hc].
  destruct (device_at a s) as [d |] eqn:Hd; [| unfold current in Hc; rewrite Ha in Hc; cbn in Hc; by rewrite Hd in Hc]. cbn [mbind option_bind].
  destruct (sprintf_partition (MTD_DEV_TYPE (id_type (d_id d))) (id_num (d_id d)) (current_mtd_partnum s)) as [t ->]. cbn [mbind option_bind].
  set (s1 := set_last_partition t _). destruct (index_partitions_total s1 p) as [e ->]; [exact Hc |]. by eexists e, t.
Qed.

Lemma device_at_put a d d' (s : state) : device_at a s = Some d -> d_addr d' = a -> device_at a (put_device d' s) = Some d'.
Proof.
  unfold device_at, put_device. cbn [devices set_devices]. intros Hd <-. induction (devices s) as [| x l IH]; [done |].
  rewrite fmap_cons. cbn [find] in *. case_bool_decide as Hx; [by rewrite bool_decide_true |]. rewrite bool_decide_false by done. by apply IH.
Qed.

(** A device that is in the list as it is, and whose number of partitions is a
    byte. *)
Record is_current (d : mtd_device) (curr : part_info) (s : state) : Prop := {
  sel_dev : current_mtd_dev s = Some (d_addr d);
  sel_at : device_at (d_addr d) s = Some d;
  sel_num : 0 <= current_mtd_partnum s < zlen (d_parts d);
  sel_count : num_parts d = zlen (d_parts d) /\ num_parts d < 256;
  sel_part : d_parts d !! Z.to_nat (current_mtd_partnum s) = Some curr }.

Lemma mtd_part_info_some d n : num_parts d = zlen (d_parts d) -> 0 <= n < zlen (d_parts d) -> mtd_part_info d n = d_parts d !! Z.to_nat n.
Proof. unfold mtd_part_info. intros -> Hn. by rewrite (proj2 (Z.leb_gt _ _)) by lia. Qed.

Lemma current_of d curr (s : state) : current_mtd_dev s = Some (d_addr d) -> device_at (d_addr d) s = Some d -> num_parts d = zlen (d_parts d) ->
  0 <= current_mtd_partnum s -> d_parts d !! Z.to_nat (current_mtd_partnum s) = Some curr -> current s = Some curr.
Proof.
  intros H1 H2 H3 H4 H5. unfold current. rewrite H1. cbn [mbind option_bind]. rewrite H2. cbn [mbind option_bind]. rewrite mtd_part_info_some; [done | done |].
  apply lookup_lt_Some in H5. lia.
Qed.

(** After a change of the device and of the number, the saving works and the
    partition is the current one. *)
Lemma save_after d d' curr (s : state) n : current_mtd_dev s = Some (d_addr d) -> device_at (d_addr d) s = Some d -> d_addr d' = d_addr d ->
  num_parts d' = zlen (d_parts d') -> 0 <= n -> d_parts d' !! Z.to_nat n = Some curr ->
  let s1 := set_current (current_mtd_dev s) n (put_device d' s) in
  (exists s', current_save s1 = Some s' /\ device_at (d_addr d) s' = Some d' /\ current s' = Some curr)
  /\ (exists s', index_partitions s1 = Some s' /\ device_at (d_addr d) s' = Some d' /\ current s' = Some curr).
Proof.
  intros H1 H2 H3 H4 H5 H6 s1. assert (device_at (d_addr d) s1 = Some d') as Hat by (apply device_at_put with d; done).
  assert (current s1 = Some curr) as Hc by (apply (current_of d'); by rewrite ?H3).
  split; [destruct (current_save_total s1 curr Hc) as (e & t & ->) | destruct (index_partitions_total s1 curr Hc) as (e & ->)]; by eexists.
Qed.

Lemma same_current (s : state) : set_current (current_mtd_dev s) (current_mtd_partnum s) s = s.
Proof. by destruct s. Qed.

(** a partition is added to the device of the current partition in the order
    of the offsets, and the current partition stays the same one, whatever its
    number is then. *)
Theorem part_sort_add_keeps_current d curr p (s : state) : is_current d curr s -> StronglySorted not_behind (d_parts d) -> num_parts d < 255 ->
  (p_offset p = 0 -> forall q, q ∈ d_parts d -> p_offset q <> 0) ->
  exists d' s', part_sort_add d p s = Some (0, d', s') /\ d_parts d' ≡ₚ p :: d_parts d /\ StronglySorted not_behind (d_parts d')
    /\ device_at (d_addr d) s' = Some d' /\ current s' = Some curr.
Proof.
  intros [H1 H2 H3 [H4 H5] H6] Hs H255 H0.
  assert (exists l at_, sort_add p (d_parts d) = Some (l, at_)) as (l & at_ & Ha).
  { clear - H0. induction (d_parts d) as [| x l IH]; [by eexists _, _ |]. cbn [sort_add].
    destruct (Z.eqb_spec (p_offset p) (p_offset x)) as [He | _]; [destruct (Z.eqb_spec (p_offset x) 0) as [H0x |] |]; cbn [andb].
    1: { exfalso. apply (H0 ltac:(congruence) x); [constructor | done]. }
    all: destruct (_ <=? _); [by eexists _, _ |]; destruct IH as (t & o & ->); [intros Hp q Hq; apply H0; [done | by constructor] | by eexists _, _]. }
  assert (Hperm := sort_add_perm _ _ _ _ Ha). assert (Hsort := sort_add_sorted _ _ _ _ Ha Hs).
  destruct (sort_add_place _ _ _ _ Ha) as (k & Hk & -> & -> & Hlt & Hge). unfold part_sort_add. rewrite Ha, H1, bool_decide_true by done.
  rewrite mtd_part_info_some, H6 by done. set (i := Z.to_nat (current_mtd_partnum s)) in *. set (l' := take k (d_parts d) ++ p :: drop k (d_parts d)) in *.
  set (d' := set_parts (wrap 16 (num_parts d + 1)) l' d).
  assert (num_parts d' = zlen (d_parts d')) as Hn'.
  { cbn [num_parts d_parts d' set_parts]. rewrite Hperm. cbn [length]. rewrite wrap_small; lia. }
  assert (Hl := lookup_insert_at (d_parts d) k p i curr Hk H6). fold l' in Hl.
  assert (forall pi, d_parts d !! k = Some pi -> (p_offset pi <=? p_offset curr) = negb (i <? k)%nat) as Hcmp.
  { intros pi Hpi. specialize (Hge pi Hpi). destruct (Nat.ltb_spec i k) as [Hik | Hik]; cbn [negb].
    - apply Z.leb_gt. assert (p_offset curr < p_offset p); [| lia]. apply (proj1 (Forall_forall _ _) Hlt).
      apply list_elem_of_lookup. exists i. by rewrite lookup_take_lt.
    - apply Z.leb_le. destruct (decide (i = k)) as [-> | Hne]; [rewrite Hpi in H6; injection H6 as ->; lia |].
      apply (sorted_lookup _ _ Hs k i); [lia | done..]. }
  set (n := if (i <? k)%nat then current_mtd_partnum s else u8 (current_mtd_partnum s + 1)).
  assert (Z.to_nat n = if (i <? k)%nat then i else S i) as Hzn.
  { subst n. destruct (_ <? _)%nat; [done |]. rewrite wrap_small by lia. subst i. lia. }
  destruct (save_after d d' curr s n) as [(s1 & A1 & A2 & A3) (s2 & B1 & B2 & B3)]; [done | done | done | done | | by rewrite Hzn |].
  { subst n. destruct (_ <? _)%nat; [lia | apply wrap_range; lia]. }
  destruct (d_parts d !! k) as [pi |] eqn:Hpi.
  - rewrite (Hcmp pi) by done. subst n. destruct (i <? k)%nat; cbn [negb].
    + rewrite <- (same_current (put_device d' s)). change (current_mtd_dev (put_device d' s)) with (current_mtd_dev s).
      change (current_mtd_partnum (put_device d' s)) with (current_mtd_partnum s). rewrite B1. by eexists d', s2.
    + change (current_mtd_dev (put_device d' s)) with (current_mtd_dev s). change (current_mtd_partnum (put_device d' s)) with (current_mtd_partnum s). rewrite A1. by eexists d', s1.
  - assert ((i <? k)%nat = true) as Hik. { apply Nat.ltb_lt. apply lookup_ge_None in Hpi. apply lookup_lt_Some in H6. lia. }
    subst n. rewrite Hik in *. rewrite <- (same_current (put_device d' s)). change (current_mtd_dev (put_device d' s)) with (current_mtd_dev s).
    change (current_mtd_partnum (put_device d' s)) with (current_mtd_partnum s). rewrite B1. by eexists d', s2.
Qed.

(** The device without the partition in the place [n]. *)
Definition without (n : nat) (d : mtd_device) : mtd_device :=
  set_parts (wrap 16 (num_parts d - 1)) (take n (d_parts d) ++ drop (S n) (d_parts d)) d.

Lemma part_del_current d curr n part (s : state) : is_current d curr s -> (2 <= length (d_parts d))%nat -> d_parts d !! n = Some part ->
  part_del d n s = current_save (set_current (current_mtd_dev s)
    (if bool_decide (Z.of_nat n = current_mtd_partnum s) then 0
     else if p_offset part <=? p_offset curr then u8 (current_mtd_partnum s - 1) else current_mtd_partnum s) (put_device (without n d) s)).
Proof.
  intros [H1 H2 H3 [H4 H5] H6] Hl Hp. unfold part_del. rewrite (proj2 (Z.eqb_neq _ 1)) by lia. rewrite Hp. cbn [mbind option_bind].
  rewrite bool_decide_true by done. rewrite mtd_part_info_some, H6 by done. done.
Qed.

Lemma without_counted n d : num_parts d = zlen (d_parts d) -> num_parts d < 256 -> (n < length (d_parts d))%nat ->
  num_parts (without n d) = zlen (d_parts (without n d)) /\ zlen (d_parts (without n d)) = num_parts d - 1.
Proof.
  intros Hn H256 Hl. cbn [num_parts d_parts without set_parts]. rewrite length_app, length_take, length_drop. rewrite wrap_small; lia.
Qed.

(** when the partitions of the device have different offsets, deleting
    another one keeps the current partition; its number follows. *)
Theorem part_del_keeps_current d curr n (s : state) : is_current d curr s -> StronglySorted before (d_parts d) -> (n < length (d_parts d))%nat ->
  n <> Z.to_nat (current_mtd_partnum s) ->
  exists s', part_del d n s = Some s' /\ device_at (d_addr d) s' = Some (without n d) /\ current s' = Some curr.
Proof.
  intros Hsel Hs Hn Hne. destruct (lookup_lt_is_Some_2 _ _ Hn) as [part Hp]. assert (Hsel' := Hsel). destruct Hsel' as [H1 H2 H3 [H4 H5] H6].
  set (i := Z.to_nat (current_mtd_partnum s)) in *. assert (Hi := lookup_lt_Some _ _ _ H6).
  rewrite (part_del_current d curr n part) by (done || lia). rewrite bool_decide_false by (subst i; lia).
  assert ((p_offset part <=? p_offset curr) = (n <? i)%nat) as ->.
  { destruct (Nat.ltb_spec n i) as [Hlt | Hge].
    - apply Z.leb_le. assert (before part curr) by (by apply (sorted_lookup _ _ Hs n i)). unfold before in *. lia.
    - apply Z.leb_gt. assert (before curr part); [| done]. apply (sorted_lookup _ _ Hs i n); [lia | done..]. }
  destruct (without_counted n d) as [Hc _]; [done | done | done |]. assert (Hr := lookup_remove_at (d_parts d) n i curr Hn ltac:(done) H6).
  edestruct (save_after d (without n d) curr s) as [(s' & A1 & A2 & A3) _]; [done | done | done | done | | | by exists s'].
  - destruct (n <? i)%nat; [apply wrap_range; lia | lia].
  - cbn [d_parts without set_parts]. destruct (Nat.ltb_spec n i) as [Hlt | Hge]; [| done].
    rewrite wrap_small by (subst i; lia). replace (Z.to_nat (current_mtd_partnum s - 1)) with (pred i) by (subst i; lia). done.
Qed.

(** the current partition is the first one, and another one with the same
    offset is deleted: the number of the current partition becomes 255, and
    [index_partitions] reads the name of a partition that does not exist. *)
Theorem part_del_same_offset_faults d curr n part (s : state) : is_current d curr s -> current_mtd_partnum s = 0 -> d_parts d !! n = Some part ->
  n <> O -> p_offset part = p_offset curr -> part_del d n s = None.
Proof.
  intros Hsel H0 Hp Hn Ho. assert (Hsel' := Hsel). destruct Hsel' as [H1 H2 H3 [H4 H5] H6]. assert (Hl := lookup_lt_Some _ _ _ Hp).
  rewrite (part_del_current d curr n part) by (done || lia). rewrite H0, bool_decide_false by lia. rewrite Ho, Z.leb_refl.
  change (u8 (0 - 1)) with 255. set (s1 := set_current _ 255 _).
  assert (device_at (d_addr d) s1 = Some (without n d)) as Hat by (apply device_at_put with d; done).
  assert (mtd_part_info (without n d) 255 = None) as Hnone.
  { unfold mtd_part_info. destruct (without_counted n d) as [-> ->]; [done | done | done |]. by rewrite (proj2 (Z.leb_le _ _)) by lia. }
  unfold current_save. change (current_mtd_dev s1) with (current_mtd_dev s). rewrite H1, Hat. cbn [mbind option_bind].
  destruct (sprintf _ _) as [t |]; [| done]. cbn [mbind option_bind]. unfold index_partitions.
  change (current_mtd_dev (set_last_partition t _)) with (current_mtd_dev s). rewrite H1.
  destruct (mtddevnum _ _ _ _) as [k |]; [destruct (sprintf _ _) as [u |]; [| done] |]; cbn [mbind option_bind];
    change (device_at (d_addr d) _) with (device_at (d_addr d) s1); rewrite Hat; cbn [mbind option_bind];
    change (current_mtd_partnum _) with 255; by rewrite Hnone.
Qed.

(** ** "mtdparts add" *)

Lemma description_text id size name ro : sprintf (str "%s:%s(%s)%s") [AStr (Some id); AStr (Some size); AStr (Some name); AStr (Some ro)] =
  Some (id ++ 58 :: size ++ 40 :: name ++ 41 :: ro).
Proof.
  unfold sprintf, vsnprintf_text. change (str "%s:%s(%s)%s") with (str "%s" ++ str ":" ++ str "%s" ++ str "(" ++ str "%s" ++ str ")" ++ str "%s" ++ []).
  change (S (length _)) with (S (length (str ":") + S (length (str "(") + S (length (str ")") + S 5)))).
  rewrite format_loop_s, format_loop_lit, format_loop_s, format_loop_lit, format_loop_s, format_loop_lit, format_loop_s by lits.
  cbn [format_loop mbind option_bind app]. rewrite <- !app_assoc. done.
Qed.

Lemma desc_len_mod id size name ro : desc_len id size name ro =
  (zlen (mtd_id id) + zlen size + zlen name + 3 + (if bool_decide (length (default [] ro) = 2%nat) then 2 else 0)) mod 256.
Proof.
  assert (forall a b, u8 (u8 a + b) = u8 (a + b)) as Hw by (intros a b; unfold wrap; by rewrite Z.add_mod_idemp_l).
  change ((?x) mod 256) with (u8 x). unfold desc_len. rewrite (Hw (zlen (mtd_id id) + 1)), (Hw (zlen (mtd_id id) + 1 + zlen size)). destruct ro as [t |].
  - change (default [] (Some t)) with t. destruct (Z.eqb_spec (zlen t) 2) as [H2 | H2]; [rewrite bool_decide_true by lia; rewrite Hw | rewrite bool_decide_false by lia]; f_equal; lia.
  - change (default [] None) with (@nil Z). rewrite bool_decide_false by done. f_equal; lia.
Qed.

(** "mtdparts add" counts the length of the description in a byte, and the
    letters behind the partition only when they are two: a description that is
    too long passes when its length modulo 256 is small enough, and [sprintf]
    writes behind the 64 bytes on the stack. *)
Theorem mtdparts_add_overruns dev u type num id size name ro (s : state) : mtd_id_parse dev = Some (u, type, num) -> id_find type num s = Some id ->
  64 <= zlen (mtd_id id) + zlen size + zlen name + 3 + zlen (default [] ro) ->
  (zlen (mtd_id id) + zlen size + zlen name + 3 + (if bool_decide (length (default [] ro) = 2%nat) then 2 else 0)) mod 256 < 64 ->
  mtdparts_add mtd_table dev size name ro s = None.
Proof.
  intros Hd Hi Hlen Hmod. unfold mtdparts_add. rewrite Hd, Hi.
  rewrite <- desc_len_mod in Hmod.
  unfold PART_ADD_DESC_MAXLEN. rewrite (proj2 (Z.leb_gt _ _)) by lia. rewrite description_text. cbn [mbind option_bind].
  rewrite (proj2 (Z.ltb_lt _ _)); [done |]. repeat (rewrite length_app || cbn [length]). lia.
Qed.
End Commands.

(** ** On a flash of one gigabyte *)

Module Toy.

Definition vars : Type := list (text * text).
Definition others (n : text) (e : vars) : vars := filter (fun x => x.1 <> n) e.

Lemma others_cons n k t (e : vars) : others n ((k, t) :: e) = if decide (k <> n) then (k, t) :: others n e else others n e.
Proof. done. Qed.

#[export] Instance toy_variables : Variables vars := {
  getenv n e := snd <$> find (fun x => bool_decide (x.1 = n)) e;
  setenv n v e := match v with Some t => (n, t) :: others n e | None => others n e end }.

Lemma find_others n m (e : vars) : n <> m ->
  find (fun x => bool_decide (x.1 = n)) (others m e) = find (fun x => bool_decide (x.1 = n)) e.
Proof.
  intros Hn. induction e as [| [k t] e IH]; [done |]. rewrite others_cons. destruct (decide (k <> m)) as [Hk | Hk].
  - cbn [find fst]. by rewrite IH.
  - apply dec_stable in Hk as ->. cbn [find fst]. by rewrite IH, bool_decide_false.
Qed.

Lemma find_removed n (e : vars) : find (fun x => bool_decide (x.1 = n)) (others n e) = None.
Proof.
  induction e as [| [k t] e IH]; [done |]. rewrite others_cons. destruct (decide (k <> n)) as [Hk | Hk]; [| done].
  cbn [find fst]. by rewrite bool_decide_false.
Qed.

#[export] Instance toy_laws : VariablesLaws vars.
Proof.
  split.
  - intros n [t |] e _; cbn [getenv setenv toy_variables]; [cbn [find fst]; by rewrite bool_decide_true | by rewrite find_removed].
  - intros n m [t |] e Hn; cbn [getenv setenv toy_variables]; [cbn [find fst]; rewrite bool_decide_false by done |]; by rewrite find_others.
Qed.

Definition table : list mtd_info := [Mtd (str "nand0") 0x40000000 0x20000 []].
Definition dids : option text := Some (str "nand0=nand").
Definition dparts : option text := Some (str "mtdparts=nand:1m(boot)ro,4m@8m(ubi)").
Definition nand : mtdids := Mtdids MTD_DEV_TYPE_NAND 0 0x40000000 (str "nand").

Definition run (l : list (list text)) : option (state vars) :=
  foldl (fun o argv => s ← o; snd <$> do_mtdparts table dids dparts argv s) (Some (boot_state 0 [])) l.
Definition words (l : list String.string) : list text := List.map str l.
Definition state_of (o : option (state vars)) : state vars := default (boot_state 0 []) o.

Definition part (name : text) (size offset : Z) : part_info := Part name false size offset 0 0x20000.
Definition device (l : list part_info) : mtd_device := Device 0 nand (zlen l) l.
Definition on (l : list part_info) (n : Z) : state vars := State [nand] [device l] (Some O) n [] [] [] 1 [].
Definition boot : part_info := part (str "boot") 0x100000 0.
Definition ubi_part : part_info := part (str "ubi") 0x400000 0x800000.

Lemma not_in_by (c : Z) (l : text) : existsb (Z.eqb c) l = false -> ~ In c l.
Proof. intros He Hi. assert (existsb (Z.eqb c) l = true); [| congruence]. apply existsb_exists. exists c. by rewrite Z.eqb_refl. Qed.

Lemma part_ok_by p : (MIN_PART_SIZE <=? p_size p) && (p_size p <? SIZE_REMAINING) && (0 <=? p_offset p) && (p_offset p <? OFFSET_NOT_SPECIFIED)
  && negb (bool_decide (p_name p = [])) && negb (existsb (Z.eqb 41) (p_name p)) && (mask_flags p =? 0) = true -> part_ok p.
Proof.
  rewrite !andb_true_iff, !negb_true_iff, bool_decide_eq_false, !Z.leb_le, !Z.ltb_lt, Z.eqb_eq. intros [[[[[[H1 H2] H3] H4] H5] H6] H7].
  split; [split; assumption |]. split; [split; assumption |]. split; [| by left]. intros _. split; [done | by apply not_in_by].
Qed.

End Toy.
Export (hints) Toy.

Lemma generate_mtdparts_bounds_witness :
  let l := [Toy.device [Toy.boot; Toy.ubi_part]] in
  generate_mtdparts MTDPARTS_MAXLEN l = Some (Some (str "mtdparts=nand:1m(boot),4m@8m(ubi)"))
  /\ generate_mtdparts 30 l = None /\ forall t, generate_mtdparts 20 l <> Some (Some t).
Proof.
  set (l := [Toy.device [Toy.boot; Toy.ubi_part]]). assert (Forall counted l) as Hc by (repeat constructor; done).
  split; [| split].
  - apply (generate_mtdparts_bounds MTDPARTS_MAXLEN l); [done | done | done | reflexivity].
  - apply (generate_mtdparts_bounds 30 l); [done | done | done | split; vm_compute; congruence].
  - apply (generate_mtdparts_bounds 20 l); [done | done | done | vm_compute; congruence].
Defined.

Lemma mtdparts_roundtrip_witness : let s := Toy.on [Toy.boot; Toy.ubi_part] 0 in
  exists s1 s2, generate_mtdparts_save s = Some (0, s1) /\ devices s1 = devices s /\ parse_mtdparts Toy.table s1 = Some (0, s2)
    /\ Forall2 same_device (devices s) (devices s2).
Proof.
  intros s. apply (mtdparts_roundtrip Toy.table s); [done | | repeat constructor | reflexivity].
  apply Forall_singleton. split; [split; [by apply Toy.not_in_by | reflexivity] | done | | repeat constructor |].
  - apply Forall_cons; split; [| apply Forall_singleton]; by apply Toy.part_ok_by.
  - repeat constructor.
Defined.

Lemma partitions_in_flash_witness :
  let s := Toy.state_of (Toy.run [Toy.words ["mtdparts"; "default"]%string; Toy.words ["mtdparts"; "add"; "nand0"; "2m@2m"; "x"]%string]) in
  length (flat_map d_parts (devices s)) = 3%nat
  /\ (forall d p, d ∈ devices s -> p ∈ d_parts d -> in_flash Toy.table (d_id d) p).
Proof.
  intros s. split; [vm_compute; reflexivity |].
  assert (rtc (ran Toy.table Toy.dids Toy.dparts) (boot_state 0 []) s) as Hr.
  { apply (rtc_l _ _ (Toy.state_of (Toy.run [Toy.words ["mtdparts"; "default"]%string])));
      [apply (ran_mtdparts _ _ _ (Toy.words ["mtdparts"; "default"]%string) _ 0) | apply rtc_once, (ran_mtdparts _ _ _ (Toy.words ["mtdparts"; "add"; "nand0"; "2m@2m"; "x"]%string) _ 0)];
      vm_compute; reflexivity. }
  apply (partitions_in_flash Toy.table Toy.dids Toy.dparts 0 [] s Hr).
Defined.

Lemma part_sort_add_keeps_current_witness : let s := Toy.on [Toy.boot; Toy.ubi_part] 1 in let d := Toy.device [Toy.boot; Toy.ubi_part] in
  exists d' s', part_sort_add d (Toy.part (str "x") 0x100000 0x200000) s = Some (0, d', s') /\ current_mtd_partnum s' = 2 /\ current s' = Some Toy.ubi_part.
Proof.
  intros s d. destruct (part_sort_add_keeps_current d Toy.ubi_part (Toy.part (str "x") 0x100000 0x200000) s) as (d' & s' & Hs & _ & _ & _ & Hc).
  - by split.
  - by repeat constructor.
  - done.
  - done.
  - exists d', s'. split; [exact Hs |]. split; [| exact Hc]. vm_compute in Hs. by injection Hs as _ <-.
Defined.

Lemma part_del_keeps_current_witness : let s := Toy.on [Toy.boot; Toy.ubi_part] 1 in let d := Toy.device [Toy.boot; Toy.ubi_part] in
  exists s', part_del d 0 s = Some s' /\ current_mtd_partnum s' = 0 /\ current s' = Some Toy.ubi_part.
Proof.
  intros s d. destruct (part_del_keeps_current d Toy.ubi_part 0 s) as (s' & Hs & _ & Hc).
  - by split.
  - by repeat constructor.
  - cbn. lia.
  - done.
  - exists s'. split; [exact Hs |]. split; [| exact Hc]. vm_compute in Hs. by injection Hs as <-.
Defined.

(** From the start, with commands: the second partition that is added stands in
    front of the first. *)
Lemma part_del_same_offset_faults_witness :
  (let s := Toy.on [Toy.part (str "y") 0x100000 0x200000; Toy.part (str "x") 0x100000 0x200000] 0 in
   exists d, devices s = [d] /\ part_del d 1 s = None)
  /\ Toy.run [Toy.words ["mtdparts"; "default"]; Toy.words ["mtdparts"; "del"; "boot"]; Toy.words ["mtdparts"; "add"; "nand0"; "1m@2m"; "x"];
       Toy.words ["mtdparts"; "add"; "nand0"; "1m@2m"; "y"]; Toy.words ["mtdparts"; "del"; "x"]]%string <> None
  /\ (s ← Toy.run [Toy.words ["mtdparts"; "default"]; Toy.words ["mtdparts"; "del"; "boot"]; Toy.words ["mtdparts"; "add"; "nand0"; "1m@2m"; "x"];
       Toy.words ["mtdparts"; "add"; "nand0"; "1m@2m"; "y"]]%string;
     '(_, s) ← do_chpart Toy.table Toy.dids (Toy.words ["chpart"; "y"]%string) s;
     do_mtdparts Toy.table Toy.dids Toy.dparts (Toy.words ["mtdparts"; "del"; "x"]%string) s) = None.
Proof.
  split; [| split; [vm_compute; congruence | vm_compute; reflexivity]].
  intros s. eexists. split; [reflexivity |].
  apply (part_del_same_offset_faults _ (Toy.part (str "y") 0x100000 0x200000) 1 (Toy.part (str "x") 0x100000 0x200000)); [by split | done..].
Defined.

Lemma mtdparts_add_overruns_witness : let s := Toy.on [Toy.boot] 0 in
  mtdparts_add Toy.table (str "nand0") (str "1m@2m") (replicate 250 120) None s = None
  /\ mtdparts_add Toy.table (str "nand0") (str "1m@2m") (str "x") (Some (replicate 60 120)) s = None.
Proof.
  intros s. split; (eapply (mtdparts_add_overruns Toy.table (str "nand0")); [reflexivity | reflexivity | vm_compute; congruence | vm_compute; reflexivity]).
Defined.
