(* ===== verification/PartDos.v ===== *)
(** * Block devices and their partitions (disk/part.c, disk/part_dos.c)

    A block device is a record with the function that reads blocks: it gives the
    blocks it has read, and the count it returns is their number.  The partition
    table is read from the first block; extended partitions are chains of tables.
    The depth of the recursion along such a chain stands for the size of the
    stack; [None] is a fault.  Of the board's drivers only the one for USB storage
    is compiled; it is a parameter. *)

From S2P Require Import Prelude Ctype StringLib Vsprintf.

(** ** Devices *)

Record block_dev_desc := BlockDev {
  if_type : Z; dev : Z; part_type : Z; type : Z; lba : Z; blksz : Z;
  block_read : Z -> Z -> list (list Z) }.
Record disk_partition := Partition { p_start : Z; p_size : Z; p_blksz : Z; p_name : text; p_type : text; bootable : bool }.

Definition IF_TYPE_IDE : Z := 1.
Definition IF_TYPE_SCSI : Z := 2.
Definition IF_TYPE_ATAPI : Z := 3.
Definition IF_TYPE_USB : Z := 4.
Definition IF_TYPE_DOC : Z := 5.
Definition IF_TYPE_SATA : Z := 8.
Definition PART_TYPE_UNKNOWN : Z := 0.
Definition PART_TYPE_DOS : Z := 2.
Definition DEV_TYPE_UNKNOWN : Z := 0xff.

Definition DOS_PART_TBL_OFFSET : nat := 0x1be.
Definition DOS_PART_MAGIC_OFFSET : nat := 0x1fe.
Definition DOS_PBR_FSTYPE_OFFSET : nat := 0x36.
Definition DOS_PBR32_FSTYPE_OFFSET : nat := 0x52.
Definition DOS_MBR : Z := 0.
Definition DOS_PBR : Z := 1.

(** The byte at a place of a block, and a part of it; the blocks are as long as
    the sectors of the device. *)
Definition byte_at (b : list Z) (i : nat) : Z := default 0 (b !! i).
Definition bytes_of (b : list Z) (i n : nat) : list Z := take n (drop i b).

(** ** The partition table *)

Record dos_partition := DosPartition { boot_ind : Z; sys_ind : Z; start4 : list Z; size4 : list Z }.

Definition dos_entry (b : list Z) (i : nat) : dos_partition :=
  let o := (DOS_PART_TBL_OFFSET + 16 * i)%nat in
  DosPartition (byte_at b o) (byte_at b (o + 4)) (bytes_of b (o + 8) 4) (bytes_of b (o + 12) 4).
Definition dos_entries (b : list Z) : list dos_partition := dos_entry b <$> seq 0 4.

Definition le32_to_int (le32 : list Z) : Z := s32 (le_load le32).
Definition is_extended (part_type : Z) : bool := (part_type =? 0x5) || (part_type =? 0xf) || (part_type =? 0x85).
Definition is_bootable (p : dos_partition) : bool := boot_ind p =? 0x80.

Definition test_block_type (buffer : list Z) : Z :=
  if negb (byte_at buffer DOS_PART_MAGIC_OFFSET =? 0x55) || negb (byte_at buffer (S DOS_PART_MAGIC_OFFSET) =? 0xaa) then -1
  else if bool_decide (bytes_of buffer DOS_PBR_FSTYPE_OFFSET 3 = str "FAT") || bool_decide (bytes_of buffer DOS_PBR32_FSTYPE_OFFSET 5 = str "FAT32") then DOS_PBR
  else DOS_MBR.

(** One block, if the device gives one. *)
Definition read_one (d : block_dev_desc) (sector : Z) : option (list Z) :=
  match block_read d (u32 sector) 1 with [b] => Some b | _ => None end.

Definition test_part_dos (d : block_dev_desc) : Z :=
  match read_one d 0 with
  | None => -1
  | Some b => if test_block_type b =? DOS_MBR then 0 else -1
  end.

Definition part_names (d : block_dev_desc) : text :=
  if (if_type d =? IF_TYPE_IDE) || (if_type d =? IF_TYPE_SATA) || (if_type d =? IF_TYPE_ATAPI) then str "hd%c%d"
  else if if_type d =? IF_TYPE_SCSI then str "sd%c%d"
  else if if_type d =? IF_TYPE_USB then str "usbd%c%d"
  else if if_type d =? IF_TYPE_DOC then str "docd%c%d" else str "xx%c%d".

Definition BOOT_PART_TYPE : text := str "U-Boot".

Definition dos_info (d : block_dev_desc) (ext_part_sector part_num : Z) (pt : dos_partition) : option disk_partition :=
  '(name, _) ← vsnprintf_text (part_names d) [A32 (97 + dev d); A32 part_num];
  Some (Partition (u32 (ext_part_sector + le32_to_int (start4 pt))) (u32 (le32_to_int (size4 pt))) 512 name BOOT_PART_TYPE (is_bootable pt)).

(** The entry counts for a number. *)
Definition takes_number (ext_part_sector : Z) (pt : dos_partition) : bool :=
  (ext_part_sector =? 0) || (negb (sys_ind pt =? 0) && negb (is_extended (sys_ind pt))).

(** The entry that is looked for, or the number behind the entries. *)
Fixpoint table_scan (d : block_dev_desc) (ext_part_sector part_num which_part : Z) (l : list dos_partition) : option (disk_partition + Z) :=
  match l with
  | [] => Some (inr part_num)
  | pt :: l =>
      if (Z.land (boot_ind pt) (Z.lnot 0x80) =? 0) && negb (sys_ind pt =? 0) && (part_num =? which_part) && negb (is_extended (sys_ind pt)) then
        info ← dos_info d ext_part_sector part_num pt; Some (inl info)
      else table_scan d ext_part_sector (if takes_number ext_part_sector pt then part_num + 1 else part_num) which_part l
  end.

(** [None] inside is the error. *)
Fixpoint get_partition_info_extended (depth : nat) (d : block_dev_desc) (ext_part_sector relative part_num which_part : Z) :
    option (option disk_partition) :=
  match depth with
  | O => None
  | S depth =>
      match read_one d ext_part_sector with
      | None => Some None
      | Some buffer =>
          if negb (byte_at buffer DOS_PART_MAGIC_OFFSET =? 0x55) || negb (byte_at buffer (S DOS_PART_MAGIC_OFFSET) =? 0xaa) then Some None
          else
            r ← table_scan d ext_part_sector part_num which_part (dos_entries buffer);
            match r with
            | inl info => Some (Some info)
            | inr part_num =>
                match find (fun pt => is_extended (sys_ind pt)) (dos_entries buffer) with
                | None => Some None
                | Some pt =>
                    let lba_start := s32 (le32_to_int (start4 pt) + relative) in
                    get_partition_info_extended depth d lba_start (if ext_part_sector =? 0 then lba_start else relative) part_num which_part
                end
            end
      end
  end.

Definition get_partition_info_dos (depth : nat) (d : block_dev_desc) (part : Z) : option (option disk_partition) :=
  get_partition_info_extended depth d 0 0 1 part.

(** What is printed of a table: the number, the start, the size and the type of
    each partition, or that a table cannot be read. *)
Inductive part_line :=
  | one_part (part_num lba_start lba_size sys_ind : Z)
  | no_table (sector : Z)
  | bad_signature (sector : Z).

Fixpoint print_table (ext_part_sector part_num : Z) (l : list dos_partition) : list part_line * Z :=
  match l with
  | [] => ([], part_num)
  | pt :: l =>
      let line := if negb (sys_ind pt =? 0) && ((ext_part_sector =? 0) || negb (is_extended (sys_ind pt))) then
        [one_part part_num (s32 (ext_part_sector + le32_to_int (start4 pt))) (le32_to_int (size4 pt)) (sys_ind pt)] else [] in
      let '(lines, n) := print_table ext_part_sector (if takes_number ext_part_sector pt then part_num + 1 else part_num) l in
      (line ++ lines, n)
  end.

Fixpoint print_partition_extended (depth : nat) (d : block_dev_desc) (ext_part_sector relative part_num : Z) : option (list part_line) :=
  match depth with
  | O => None
  | S depth =>
      match read_one d ext_part_sector with
      | None => Some [no_table ext_part_sector]
      | Some buffer =>
          if negb (test_block_type buffer =? DOS_MBR) then Some [bad_signature ext_part_sector]
          else
            let '(lines, part_num) := print_table ext_part_sector part_num (dos_entries buffer) in
            rest ← foldr (fun pt o =>
              rest ← o;
              if is_extended (sys_ind pt) then
                let lba_start := s32 (le32_to_int (start4 pt) + relative) in
                l ← print_partition_extended depth d lba_start (if ext_part_sector =? 0 then lba_start else relative) part_num;
                Some (l ++ rest)
              else Some rest) (Some []) (dos_entries buffer);
            Some (lines ++ rest)
      end
  end.

Definition print_part_dos (depth : nat) (d : block_dev_desc) : option (list part_line) := print_partition_extended depth d 0 0 1.

(** ** disk/part.c *)

Definition init_part (d : block_dev_desc) : block_dev_desc :=
  BlockDev (if_type d) (dev d) (if test_part_dos d =? 0 then PART_TYPE_DOS else PART_TYPE_UNKNOWN) (type d) (lba d) (blksz d) (block_read d).

Definition get_partition_info (depth : nat) (d : block_dev_desc) (part : Z) : option (option disk_partition) :=
  if part_type d =? PART_TYPE_DOS then get_partition_info_dos depth d part else Some None.

Definition PART_UNSPECIFIED : Z := -2.
Definition PART_AUTO : Z := -1.
Definition MAX_SEARCH_PARTITIONS : Z := 16.

Section Lookup.
Context (usb_stor_get_dev : Z -> option block_dev_desc) (depth : nat).

Definition get_dev (ifname : text) (n : Z) : option block_dev_desc :=
  if bool_decide (take 3 ifname = str "usb") then usb_stor_get_dev n else None.

(** The number and the device. *)
Definition get_device (ifname dev_str : text) : option (Z * block_dev_desc) :=
  let '(n, ep) := simple_strtoul dev_str 16 in
  match ep with
  | _ :: _ => None
  | [] => d ← get_dev ifname (s32 n); if type d =? DEV_TYPE_UNKNOWN then None else Some (s32 n, d)
  end.

(** The search of "auto" from the number [p] on: the first bootable partition, or
    else the first one, which is the one found so far if there is one. *)
Fixpoint search_auto (n : nat) (d : block_dev_desc) (p : Z) (found : option (Z * disk_partition)) : option (option (Z * disk_partition)) :=
  match n with
  | O => Some found
  | S n =>
      r ← get_partition_info depth d p;
      match r with
      | None => search_auto n d (p + 1) found
      | Some info =>
          if bootable info then Some (Some (p, info))
          else search_auto n d (p + 1) (match found with Some _ => found | None => Some (p, info) end)
      end
  end.

(** The specification of the partition; [None] is an error. *)
Definition parse_part (part_str : option text) (allow_whole_dev : bool) : option Z :=
  match part_str with
  | None | Some [] => Some PART_UNSPECIFIED
  | Some s =>
      if bool_decide (s = str "auto") then Some PART_AUTO
      else
        let '(n, ep) := simple_strtoul s 16 in
        if negb (bool_decide (ep = [])) || ((s32 n =? 0) && negb allow_whole_dev) then None else Some (s32 n)
  end.

Fixpoint split_colon (s : text) : text * option text :=
  match s with
  | [] => ([], None)
  | c :: s => if c =? 58 then ([], Some s) else let '(a, b) := split_colon s in (c :: a, b)
  end.

Definition boot_partition (part : Z) (d : block_dev_desc) (info : disk_partition) : option (Z * block_dev_desc * disk_partition) :=
  if bool_decide (p_type info = BOOT_PART_TYPE) then Some (part, d, info) else None.

(** The return value, which is the number of the partition, with the device and
    the partition; [None] inside is an error. *)
Definition get_device_and_partition (bootdevice : option text) (ifname : text) (dev_part_str : option text) (allow_whole_dev : bool) :
    option (option (Z * block_dev_desc * disk_partition)) :=
  let dev_part_str := match dev_part_str with
    | Some s => if bool_decide (s = []) || bool_decide (s = str "-") then bootdevice else Some s
    | None => bootdevice
    end in
  match dev_part_str with
  | None => Some None
  | Some s =>
      let '(dev_str, part_str) := split_colon s in
      match get_device ifname dev_str with
      | None => Some None
      | Some (n, d) =>
          if n <? 0 then Some None
          else
            match parse_part part_str allow_whole_dev with
            | None => Some None
            | Some part =>
                if (part_type d =? PART_TYPE_UNKNOWN) || (part =? 0) then
                  if lba d =? 0 then Some None
                  else if (0 <? part) || negb allow_whole_dev then Some None
                  else Some (Some (0, d, Partition 0 (lba d) (blksz d) [] [] false))
                else
                  let part := if part =? PART_UNSPECIFIED then 1 else part in
                  if negb (part =? PART_AUTO) then
                    r ← get_partition_info depth d part;
                    Some (info ← r; boot_partition part d info)
                  else
                    r ← search_auto (Z.to_nat MAX_SEARCH_PARTITIONS) d 1 None;
                    Some ('(p, info) ← r; boot_partition p d info)
            end
      end
  end.
End Lookup.
