(* ===== verification/PartFacts.v ===== *)
(** * Partitions (disk/part.c, disk/part_dos.c)

    The number of a partition of a DOS partition table is its place among the
    entries of all tables, in their order; the search of "auto" gives the first
    bootable partition, or else the first one.  A table that refers to itself is
    read for ever. *)

From S2P Require Import Prelude Ctype StringLib Vsprintf PartDos.

(** ** The chain of tables *)

Definition magic_ok (b : list Z) : Prop := byte_at b DOS_PART_MAGIC_OFFSET = 0x55 /\ byte_at b (S DOS_PART_MAGIC_OFFSET) = 0xaa.
Definition extended (b : list Z) : option dos_partition := find (fun pt => is_extended (sys_ind pt)) (dos_entries b).

(** The sector of the next table, and the one of the extended partition. *)
Definition next_table (s relative : Z) (pt : dos_partition) : Z * Z :=
  let lba_start := s32 (le32_to_int (start4 pt) + relative) in (lba_start, if s =? 0 then lba_start else relative).

(** The tables from the one in the sector [s] on. *)
Inductive tables (d : block_dev_desc) : Z -> Z -> list (Z * list Z) -> Prop :=
  | tables_last s relative b : read_one d s = Some b -> magic_ok b -> extended b = None -> tables d s relative [(s, b)]
  | tables_next s relative b pt l : read_one d s = Some b -> magic_ok b -> extended b = Some pt ->
      tables d (next_table s relative pt).1 (next_table s relative pt).2 l -> tables d s relative ((s, b) :: l).

(** The entries that have a number: all four of the first table, and those of
    the others that are in use and are not extended partitions. *)
Definition numbered (s : Z) (b : list Z) : list dos_partition := filter (fun pt => takes_number s pt = true) (dos_entries b).
Definition all_numbered (l : list (Z * list Z)) : list (Z * dos_partition) := concat ((fun '(s, b) => pair s <$> numbered s b) <$> l).

(** An entry that is a partition. *)
Definition usable (pt : dos_partition) : bool := (Z.land (boot_ind pt) (Z.lnot 0x80) =? 0) && negb (sys_ind pt =? 0) && negb (is_extended (sys_ind pt)).

(** The partition of a number. *)
Definition lookup_part (d : block_dev_desc) (l : list (Z * dos_partition)) (n which : Z) : option (option disk_partition) :=
  match (if which <? n then None else l !! Z.to_nat (which - n)) with
  | Some (s, pt) => if usable pt then info ← dos_info d s which pt; Some (Some info) else Some None
  | None => Some None
  end.

Lemma takes_number_usable s pt : usable pt = true -> takes_number s pt = true.
Proof. unfold usable, takes_number. intros H. apply andb_true_iff in H as [H ->]. apply andb_true_iff in H as [_ ->]. apply orb_true_r. Qed.

Lemma table_scan_spec d s which : forall l n,
  table_scan d s n which l =
  match (if which <? n then None else filter (fun pt => takes_number s pt = true) l !! Z.to_nat (which - n)) with
  | Some pt => if usable pt then info ← dos_info d s which pt; Some (inl info) else Some (inr (n + zlen (filter (fun pt => takes_number s pt = true) l)))
  | None => Some (inr (n + zlen (filter (fun pt => takes_number s pt = true) l)))
  end.
Proof.
  induction l as [| pt l IH]; intros n.
  { cbn [table_scan]. rewrite filter_nil, lookup_nil. cbn [length]. rewrite Z.add_0_r. by destruct (which <? n). }
  cbn [table_scan]. replace (_ && _ && _ && _) with (usable pt && (n =? which)) by (unfold usable; rewrite <- !andb_assoc; by rewrite (andb_comm (n =? which))).
  rewrite filter_cons. destruct (decide (takes_number s pt = true)) as [Ht | Ht].
  - rewrite Ht, IH. cbn [length]. replace (n + 1 + zlen (filter _ l)) with (n + Z.of_nat (S (length (filter (fun pt => takes_number s pt = true) l)))) by lia.
    destruct (Z.eqb_spec n which) as [-> | Hne].
    + rewrite (proj2 (Z.ltb_ge which which)), (proj2 (Z.ltb_lt which (which + 1))), Z.sub_diag by lia. rewrite andb_true_r. change (Z.to_nat 0) with O. cbn [lookup list_lookup]. destruct (usable pt); reflexivity.
    + rewrite andb_false_r. destruct (Z.ltb_spec which n) as [H | H]; [by rewrite (proj2 (Z.ltb_lt _ _)) by lia |]. rewrite (proj2 (Z.ltb_ge _ _)) by lia.
      replace (Z.to_nat (which - n)) with (S (Z.to_nat (which - (n + 1)))) by lia. done.
  - assert (usable pt = false) as -> by (destruct (usable pt) eqn:E; [exfalso; by apply Ht, takes_number_usable | done]). cbn [andb].
    destruct (takes_number s pt); [done |]. apply IH.
Qed.

Lemma magic_guard b : magic_ok b -> negb (byte_at b DOS_PART_MAGIC_OFFSET =? 0x55) || negb (byte_at b (S DOS_PART_MAGIC_OFFSET) =? 0xaa) = false.
Proof. by intros [-> ->]. Qed.

(** The rest of the chain, if the partition is not in the first table. *)
Lemma get_partition_info_step depth d s relative b n which : read_one d s = Some b -> magic_ok b ->
  get_partition_info_extended (S depth) d s relative n which =
  match (if which <? n then None else numbered s b !! Z.to_nat (which - n)) with
  | Some pt => if usable pt then info ← dos_info d s which pt; Some (Some info)
               else match extended b with None => Some None | Some pt => get_partition_info_extended depth d (next_table s relative pt).1 (next_table s relative pt).2 (n + zlen (numbered s b)) which end
  | None => match extended b with None => Some None | Some pt => get_partition_info_extended depth d (next_table s relative pt).1 (next_table s relative pt).2 (n + zlen (numbered s b)) which end
  end.
Proof.
  intros Hr Hm. cbn [get_partition_info_extended]. rewrite Hr, (magic_guard b Hm), table_scan_spec. fold (numbered s b).
  destruct (if which <? n then None else _) as [pt |]; [destruct (usable pt) |]; [destruct (dos_info _ _ _ _) | |]; cbn [mbind option_bind]; done.
Qed.

Lemma tables_inv d s relative s' b l : tables d s relative ((s', b) :: l) ->
  s' = s /\ read_one d s = Some b /\ magic_ok b
  /\ match extended b with None => l = [] | Some pt => tables d (next_table s relative pt).1 (next_table s relative pt).2 l end.
Proof. intros H. inversion H as [? ? ? ? ? He | ? ? ? pt ? ? ? He]; subst; by rewrite He. Qed.

Lemma get_partition_info_extended_spec d which : forall l depth s relative n, tables d s relative l -> (length l <= depth)%nat ->
  get_partition_info_extended depth d s relative n which = lookup_part d (all_numbered l) n which.
Proof.
  induction l as [| [s' b] l IH]; intros depth s relative n Ht Hdepth; [by inversion Ht |]. destruct depth as [| depth]; [cbn [length] in Hdepth; lia |].
  apply tables_inv in Ht as (-> & Hr & Hm & Ht). rewrite (get_partition_info_step _ _ _ _ b) by done.
  set (rest := match extended b with None => _ | Some pt => _ end).
  assert (rest = lookup_part d (all_numbered l) (n + zlen (numbered s b)) which) as ->.
  { subst rest. destruct (extended b) as [pt |]; [apply IH; [done | cbn [length] in Hdepth; lia] |]. subst l. unfold lookup_part. by destruct (_ <? _). }
  unfold lookup_part, all_numbered. rewrite fmap_cons. cbn [concat]. fold (all_numbered l).
  assert (which < n \/ n <= which < n + zlen (numbered s b) \/ n + zlen (numbered s b) <= which) as [H | [H | H]] by lia.
  - by rewrite !(proj2 (Z.ltb_lt _ _)) by lia.
  - rewrite (proj2 (Z.ltb_ge which n)), (proj2 (Z.ltb_lt which (_ + _))) by lia. rewrite lookup_app_l by (rewrite length_fmap; lia). rewrite list_lookup_fmap.
    by destruct (numbered s b !! Z.to_nat (which - n)).
  - rewrite !(proj2 (Z.ltb_ge _ _)) by lia. rewrite (lookup_ge_None_2 (numbered s b)) by lia. rewrite lookup_app_r by (rewrite length_fmap; lia). rewrite length_fmap.
    by replace (Z.to_nat (which - n) - length (numbered s b))%nat with (Z.to_nat (which - (n + zlen (numbered s b)))) by lia.
Qed.

(** ** The claims *)

(** *** What the bytes of the tables say

    A table is a block of 512 bytes that ends in 0x55 0xaa; its four entries of 16
    bytes begin at 446.  In an entry the byte 0 is 0x80 for a bootable partition,
    the byte 4 is the type, and the words at 8 and 12 are the first sector and the
    number of sectors. *)
Definition octet (b : list Z) (i : nat) : Z := nth i b 0.
Definition dword (b : list Z) (i : nat) : Z :=
  (octet b i + 256 * octet b (i + 1) + 256 ^ 2 * octet b (i + 2) + 256 ^ 3 * octet b (i + 3)) mod 2 ^ 32.
Definition place_in (i k : nat) : nat := 446 + 16 * i + k.
Definition slot_type (b : list Z) (i : nat) : Z := octet b (place_in i 4).
Definition is_table (b : list Z) : Prop := octet b 510 = 0x55 /\ octet b 511 = 0xaa.

(** An entry with one of these types is a link to a further table. *)
Definition link (b : list Z) (i : nat) : Prop := slot_type b i ∈ [0x05; 0x0f; 0x85].
#[global] Instance link_dec b i : Decision (link b i).
Proof. unfold link. apply _. Defined.

(** The tables with the sectors they are in.  The first table is in sector 0; the
    first link of a table names the next one, in the first table by its sector and
    in the others by its distance from the second table, where the extended
    partition begins. *)
Inductive chain (d : block_dev_desc) : Z -> Z -> list (Z * list Z) -> Prop :=
  | chain_end s base b : block_read d s 1 = [b] -> is_table b -> (forall i, (i < 4)%nat -> ~ link b i) -> chain d s base [(s, b)]
  | chain_link s base b i l : block_read d s 1 = [b] -> is_table b -> (i < 4)%nat -> link b i -> (forall j, (j < i)%nat -> ~ link b j) ->
      let next := (base + dword b (place_in i 8)) mod 2 ^ 32 in
      chain d next (if s =? 0 then next else base) l -> chain d s base ((s, b) :: l).

(** The entries with a number: the four of the first table, and of the others
    those that are in use and no links. *)
Definition counted (s : Z) (b : list Z) : list nat :=
  if s =? 0 then [0; 1; 2; 3]%nat else filter (fun i => slot_type b i <> 0 /\ ~ link b i) [0; 1; 2; 3]%nat.
Definition all_counted (l : list (Z * list Z)) : list (Z * list Z * nat) := concat ((fun '(s, b) => pair (s, b) <$> counted s b) <$> l).

(** An entry that describes a partition. *)
Definition partition_slot (b : list Z) (i : nat) : Prop := octet b (place_in i 0) ∈ [0; 0x80] /\ slot_type b i <> 0 /\ ~ link b i.
#[global] Instance partition_slot_dec b i : Decision (partition_slot b i).
Proof. unfold partition_slot. apply _. Defined.

(** "usbda5" is the fifth partition of the first USB device. *)
Definition drive_prefix (t : Z) : text :=
  if decide (t ∈ [IF_TYPE_IDE; IF_TYPE_SATA; IF_TYPE_ATAPI]) then str "hd"
  else if decide (t = IF_TYPE_SCSI) then str "sd" else if decide (t = IF_TYPE_USB) then str "usbd"
  else if decide (t = IF_TYPE_DOC) then str "docd" else str "xx".
Definition partition_name (d : block_dev_desc) (n : Z) : text :=
  drive_prefix (if_type d) ++ [u8 (97 + dev d)] ++ (dchar 0 <$> reverse (digits_of 10 n)).

Definition partition_of (d : block_dev_desc) (l : list (Z * list Z)) (n : Z) : option disk_partition :=
  '(s, b, i) ← (if n <? 1 then None else all_counted l !! Z.to_nat (n - 1));
  if decide (partition_slot b i) then
    Some (Partition ((s + dword b (place_in i 8)) mod 2 ^ 32) (dword b (place_in i 12)) 512 (partition_name d n) (str "U-Boot")
      (bool_decide (octet b (place_in i 0) = 0x80)))
  else None.

(** *** The code reads the same from them *)

Lemma byte_at_octet b i : byte_at b i = octet b i.
Proof. unfold byte_at, octet. rewrite nth_lookup. done. Qed.

Lemma magic_ok_table b : magic_ok b <-> is_table b.
Proof. unfold magic_ok, is_table. by rewrite !byte_at_octet. Qed.

Lemma u32_s32 x y : u32 (x + s32 y) = u32 (x + y).
Proof.
  unfold swrap, wrap. change (2 ^ (32 - 1)) with (2 ^ 31).
  pose proof (Z.div_mod (y + 2 ^ 31) (2 ^ 32) ltac:(done)) as H.
  replace (x + ((y + 2 ^ 31) mod 2 ^ 32 - 2 ^ 31)) with (x + y + (- ((y + 2 ^ 31) / 2 ^ 32)) * 2 ^ 32) by lia.
  by rewrite Z.mod_add.
Qed.

Lemma u32_s32_l y x : u32 (s32 y + x) = u32 (y + x).
Proof. rewrite !(Z.add_comm _ x). apply u32_s32. Qed.

Lemma dword_spec b i x : is_table b -> (i + 4 <= 512)%nat -> u32 (x + le32_to_int (bytes_of b i 4)) = (x + dword b i) mod 2 ^ 32.
Proof.
  intros [_ Ht] Hi. unfold le32_to_int. rewrite u32_s32.
  assert (512 <= length b)%nat as Hl.
  { destruct (decide (512 <= length b)%nat) as [| Hlt]; [done |]. unfold octet in Ht. rewrite nth_overflow in Ht by lia. lia. }
  assert (bytes_of b i 4 = [octet b i; octet b (i + 1); octet b (i + 2); octet b (i + 3)]) as ->.
  { unfold bytes_of. apply list_eq_same_length with 4%nat; [done | rewrite length_take, length_drop; lia |].
    intros k x1 x2 Hk H1 H2. rewrite lookup_take_lt, lookup_drop in H1 by done. apply (nth_lookup_Some _ _ 0) in H1. unfold octet in H2.
    destruct k as [| [| [| [| k]]]]; [.. | lia]; cbn in H2; injection H2 as <-; rewrite <- H1; f_equal; lia. }
  cbn [le_load]. unfold dword, wrap. rewrite Zplus_mod_idemp_r. f_equal. lia.
Qed.

Lemma u32_le32 b i : is_table b -> (i + 4 <= 512)%nat -> u32 (le32_to_int (bytes_of b i 4)) = dword b i.
Proof. intros Ht Hi. rewrite <- (Z.add_0_l (le32_to_int _)), dword_spec by done. unfold dword. rewrite Z.add_0_l. apply Z.mod_mod. done. Qed.

Lemma is_extended_link b i : is_extended (sys_ind (dos_entry b i)) = bool_decide (link b i).
Proof.
  cbn [dos_entry sys_ind]. rewrite byte_at_octet. unfold link, slot_type. set (x := octet _ _). change (octet b _) with x. unfold is_extended.
  apply eq_true_iff_eq. rewrite bool_decide_eq_true, !orb_true_iff, !Z.eqb_eq, !elem_of_cons, elem_of_nil. tauto.
Qed.

Lemma find_fmap {A B} (f : A -> B) P (l : list A) : find P (f <$> l) = f <$> find (fun x => P (f x)) l.
Proof. induction l as [| x l IH]; [done |]. cbn [fmap list_fmap find]. by destruct (P (f x)). Qed.

Lemma extended_spec b : extended b = dos_entry b <$> find (fun i => bool_decide (link b i)) [0; 1; 2; 3]%nat.
Proof.
  unfold extended, dos_entries. rewrite find_fmap. f_equal. change (seq 0 4) with [0; 1; 2; 3]%nat. cbn [find]. by rewrite !is_extended_link.
Qed.

Lemma extended_none b : (forall i, (i < 4)%nat -> ~ link b i) -> extended b = None.
Proof. intros H. rewrite extended_spec. cbn [find]. by rewrite !bool_decide_eq_false_2 by (apply H; lia). Qed.

Lemma extended_some b i : (i < 4)%nat -> link b i -> (forall j, (j < i)%nat -> ~ link b j) -> extended b = Some (dos_entry b i).
Proof.
  intros Hi Hl Hj. rewrite extended_spec. destruct i as [| [| [| [| i]]]]; [.. | lia]; cbn [find];
    repeat rewrite (bool_decide_eq_false_2 (link b _)) by (apply Hj; lia); by rewrite bool_decide_eq_true_2.
Qed.

Lemma filter_fmap_iff {A B} (f : A -> B) (P : B -> Prop) (Q : A -> Prop) `{!forall x, Decision (P x)} `{!forall x, Decision (Q x)} (l : list A) :
  (forall x, P (f x) <-> Q x) -> filter P (f <$> l) = f <$> filter Q l.
Proof.
  intros Hf. induction l as [| x l IH]; [done |]. cbn [fmap list_fmap]. rewrite !filter_cons. fold (f <$> l). rewrite IH.
  pose proof (Hf x). destruct (decide (P (f x))), (decide (Q x)); done || tauto.
Qed.

Lemma numbered_spec s b : - 2 ^ 31 <= s < 2 ^ 31 -> numbered s b = dos_entry b <$> counted (u32 s) b.
Proof.
  intros Hs. assert ((s =? 0) = (u32 s =? 0)) as Hz.
  { apply eq_true_iff_eq. rewrite !Z.eqb_eq. split; [by intros -> |]. intros H. apply (f_equal s32) in H. unfold swrap, wrap in *.
    rewrite <- (swrap_small 32 s) by lia. unfold swrap. change (2 ^ (32 - 1)) with (2 ^ 31) in *. rewrite Zplus_mod_idemp_l in H. rewrite H. done. }
  unfold numbered, counted, dos_entries. rewrite <- Hz. change (seq 0 4) with [0; 1; 2; 3]%nat. destruct (Z.eqb_spec s 0) as [-> | Hne]; [done |].
  apply filter_fmap_iff. intros i. unfold takes_number. rewrite (proj2 (Z.eqb_neq s 0)) by done. cbn [orb]. rewrite is_extended_link.
  rewrite andb_true_iff, !negb_true_iff, Z.eqb_neq, bool_decide_eq_false. cbn [dos_entry sys_ind]. by rewrite byte_at_octet.
Qed.

(** The chain as the code follows it, with signed sectors. *)
Lemma chain_tables d l S B : chain d S B l -> forall s relative, - 2 ^ 31 <= s < 2 ^ 31 -> u32 s = S -> u32 relative = B ->
  exists l', tables d s relative l' /\ l = (fun '(s, b) => (u32 s, b)) <$> l' /\ Forall (fun x => - 2 ^ 31 <= x.1 < 2 ^ 31) l'.
Proof.
  induction 1 as [S B b Hr Ht Hno | S B b i l Hr Ht Hi Hl Hj next Hc IH]; intros s relative Hs HS HB.
  - exists [(s, b)]. split_and!; [| by cbn; rewrite HS | by apply Forall_singleton].
    apply tables_last; [unfold read_one; by rewrite HS, Hr | by apply magic_ok_table | by apply extended_none].
  - set (s' := s32 (le32_to_int (start4 (dos_entry b i)) + relative)).
    assert (u32 s' = next) as Hs'.
    { unfold s', next. rewrite <- (Z.add_0_l (s32 _)), u32_s32, Z.add_0_l. rewrite Z.add_comm. rewrite <- HB. cbn [dos_entry start4].
      replace (DOS_PART_TBL_OFFSET + 16 * i + 8)%nat with (place_in i 8) by (unfold place_in, DOS_PART_TBL_OFFSET; lia).
      rewrite dword_spec by (done || unfold place_in; lia). unfold wrap. by rewrite Zplus_mod_idemp_l. }
    assert ((s =? 0) = (S =? 0)) as Hz.
    { rewrite <- HS. apply eq_true_iff_eq. rewrite !Z.eqb_eq. split; [by intros -> |]. intros H. unfold wrap in H.
      apply Z.mod_divide in H as [k Hk]; [| done]. lia. }
    destruct (IH s' (if s =? 0 then s' else relative)) as (l' & Hl' & -> & Hf); [by apply (swrap_range 32) | done | rewrite Hz; by destruct (S =? 0) |].
    exists ((s, b) :: l'). split_and!; [| by cbn; rewrite HS | by apply Forall_cons].
    eapply (tables_next d s relative b (dos_entry b i)); [unfold read_one; by rewrite HS, Hr | by apply magic_ok_table | by apply extended_some | done].
Qed.

Lemma all_numbered_spec l : Forall (fun x => - 2 ^ 31 <= x.1 < 2 ^ 31) l ->
  Forall2 (fun x y => u32 x.1 = y.1.1 /\ x.2 = dos_entry y.1.2 y.2) (all_numbered l) (all_counted ((fun '(s, b) => (u32 s, b)) <$> l)).
Proof.
  induction 1 as [| [s b] l Hs _ IH]; [constructor |]. unfold all_numbered, all_counted in *. cbn [fmap list_fmap concat]. apply Forall2_app; [| exact IH].
  rewrite numbered_spec by done. generalize (counted (u32 s) b) as l'. intros l'. induction l'; constructor; done.
Qed.

Lemma counted_lt s b i : i ∈ counted s b -> (i < 4)%nat.
Proof. unfold counted. destruct (s =? 0); [| intros [_ H]%list_elem_of_filter; revert H]; rewrite !elem_of_cons, elem_of_nil; lia. Qed.

Lemma all_counted_lt d l S B n s b i : chain d S B l -> all_counted l !! n = Some (s, b, i) -> is_table b /\ (i < 4)%nat.
Proof.
  intros Hc H. apply list_elem_of_lookup_2, list_elem_of_In, in_concat in H as (x & Hx & H).
  apply list_elem_of_In, list_elem_of_fmap in Hx as ([s' b'] & -> & Hin). apply list_elem_of_In, list_elem_of_fmap in H as (i' & [= -> -> ->] & Hi).
  split; [| by apply counted_lt in Hi]. clear - Hc Hin. induction Hc as [? ? ? ? ? ? | ? ? ? ? ? ? ? ? ? ? ? ? IH].
  - apply list_elem_of_singleton in Hin. by injection Hin as -> ->.
  - apply elem_of_cons in Hin as [[= -> ->] | Hin]; [done | by apply IH].
Qed.

#[local] Opaque number.
Lemma drive_name d n : is_u32 n -> n < 2 ^ 31 -> vsnprintf_text (part_names d) [A32 (97 + dev d); A32 n] = Some (partition_name d n, []).
Proof.
  intros Hn Hlt. unfold is_u32 in Hn.
  assert (exists p, part_names d = p ++ str "%c%d" /\ drive_prefix (if_type d) = p /\ Forall (fun c => c <> 37) p) as (p & -> & Hp & Hlit).
  { unfold part_names, drive_prefix. destruct (Z.eqb_spec (if_type d) IF_TYPE_IDE) as [-> | H1]; [exists (str "hd"); split_and!; [reflexivity.. | lits] |].
    destruct (Z.eqb_spec (if_type d) IF_TYPE_SATA) as [-> | H2]; [exists (str "hd"); split_and!; [reflexivity.. | lits] |].
    destruct (Z.eqb_spec (if_type d) IF_TYPE_ATAPI) as [-> | H3]; [exists (str "hd"); split_and!; [reflexivity.. | lits] |]. cbn [orb].
    rewrite decide_False by (rewrite !elem_of_cons, elem_of_nil; tauto).
    destruct (Z.eqb_spec (if_type d) IF_TYPE_SCSI) as [-> | H4]; [exists (str "sd"); split_and!; [reflexivity.. | lits] |]. rewrite decide_False by done.
    destruct (Z.eqb_spec (if_type d) IF_TYPE_USB) as [-> | H5]; [exists (str "usbd"); split_and!; [reflexivity.. | lits] |]. rewrite decide_False by done.
    destruct (Z.eqb_spec (if_type d) IF_TYPE_DOC) as [-> | H6]; [exists (str "docd"); split_and!; [reflexivity.. | lits] |]. rewrite decide_False by done.
    exists (str "xx"); split_and!; [reflexivity.. | lits]. }
  unfold partition_name, vsnprintf_text. rewrite Hp, length_app. change (length (str "%c%d")) with 4%nat. rewrite <- Nat.add_succ_r.
  rewrite format_loop_lit by done. cbn [app]. change (str "%c%d") with (37 :: 99 :: 37 :: 100 :: []). cbn [format_loop]. change (negb (37 =? 37)) with false. cbn iota.
  assert (forall v, parse_conversion (99 :: 37 :: [100]) (A32 v :: [A32 n]) = Some ([u8 (u32 v)], 37 :: [100], [A32 n], false)) as Hc by reflexivity.
  assert (parse_conversion [100] [A32 n] = (t ← number (u64 (s32 (u32 n))) 10 (-1) (-1) SIGN; Some (t, [], [], false))) as Hd by reflexivity.
  rewrite Hc. cbn [mbind option_bind]. rewrite Hd, (wrap_small 32 n), number_signed by lia. rewrite (proj2 (Z.ltb_lt n _)) by lia. cbn [mbind option_bind app].
  do 2 f_equal. rewrite <- app_assoc. do 2 f_equal. cbn [app]. f_equal. unfold wrap. symmetry. apply Znumtheory.Zmod_div_mod; [lia | lia | by exists (2 ^ 24)].
Qed.
#[local] Transparent number.

Lemma land_not_128 v : Z.land v (Z.lnot 0x80) = 0 <-> v = 0 \/ v = 0x80.
Proof.
  split; [| by intros [-> | ->]]. intros H. assert (v = if Z.testbit v 7 then 2 ^ 7 else 0) as Hv.
  { apply Z.bits_inj'. intros i Hi. apply (f_equal (fun z => Z.testbit z i)) in H. rewrite Z.land_spec, Z.lnot_spec, Z.bits_0 in H by done.
    change 0x80 with (2 ^ 7) in H. rewrite Z.pow2_bits_eqb in H by lia. destruct (decide (i = 7)) as [-> | Hne].
    - destruct (Z.testbit v 7); [by rewrite Z.pow2_bits_eqb | by rewrite Z.bits_0].
    - rewrite (proj2 (Z.eqb_neq 7 i)), andb_true_r in H by lia. rewrite H. destruct (Z.testbit v 7); [rewrite Z.pow2_bits_eqb by lia; symmetry; apply Z.eqb_neq; lia | by rewrite Z.bits_0]. }
  rewrite Hv. destruct (Z.testbit v 7); [by right | by left].
Qed.

Lemma usable_slot b i : usable (dos_entry b i) = bool_decide (partition_slot b i).
Proof.
  unfold usable. rewrite is_extended_link. cbn [dos_entry boot_ind sys_ind]. rewrite !byte_at_octet. unfold partition_slot, slot_type.
  replace (DOS_PART_TBL_OFFSET + 16 * i)%nat with (place_in i 0) by (unfold place_in, DOS_PART_TBL_OFFSET; lia). replace (place_in i 0 + 4)%nat with (place_in i 4) by (unfold place_in; lia).
  apply eq_true_iff_eq. rewrite bool_decide_eq_true, !andb_true_iff, !negb_true_iff, Z.eqb_eq, Z.eqb_neq, bool_decide_eq_false, land_not_128, !elem_of_cons, elem_of_nil. tauto.
Qed.

Lemma dos_info_spec d s b i n : is_table b -> (i < 4)%nat -> is_u32 n -> n < 2 ^ 31 ->
  dos_info d s n (dos_entry b i) = Some (Partition ((u32 s + dword b (place_in i 8)) mod 2 ^ 32) (dword b (place_in i 12)) 512 (partition_name d n) (str "U-Boot")
      (bool_decide (octet b (place_in i 0) = 0x80))).
Proof.
  intros Ht Hi Hn Hlt. unfold dos_info. rewrite drive_name by done. unfold is_bootable. cbn [mbind option_bind dos_entry start4 size4 boot_ind].
  replace (DOS_PART_TBL_OFFSET + 16 * i)%nat with (place_in i 0) by (unfold place_in, DOS_PART_TBL_OFFSET; lia).
  replace (place_in i 0 + 8)%nat with (place_in i 8) by (unfold place_in; lia). replace (place_in i 0 + 12)%nat with (place_in i 12) by (unfold place_in; lia).
  rewrite dword_spec, u32_le32 by (done || unfold place_in; lia). rewrite byte_at_octet. f_equal. f_equal.
  - unfold wrap. by rewrite Zplus_mod_idemp_l.
  - by destruct (Z.eqb_spec (octet b (place_in i 0)) 0x80); [rewrite bool_decide_eq_true_2 | rewrite bool_decide_eq_false_2].
Qed.

(** C17: the numbers of the partitions of a disk are those of the entries in its
    tables: 1 to 4 for the entries of the first table, empty ones included, and the
    numbers from 5 on for those entries of the further tables that are in use and
    do not lead on, in the order of the chain of tables.  [get_partition_info_dos]
    gives for a number the first sector of that entry (counted from the table the
    entry is in), its number of sectors, its name and whether it can be booted
    from, as they are in the bytes of the table, if the entry is a partition, and
    an error if it is not or if there is none.  The chain of the tables has an end
    that the stack has room for. *)
Theorem get_partition_info_dos_correct d l depth part :
  chain d 0 0 l -> (length l <= depth)%nat -> part < 2 ^ 31 ->
  get_partition_info_dos depth d part = Some (partition_of d l part).
Proof.
  intros Hc Hdepth Hpart. destruct (chain_tables d l 0 0 Hc 0 0) as (l' & Hl' & -> & Hf); [lia | done | done |].
  unfold get_partition_info_dos. rewrite (get_partition_info_extended_spec _ _ l') by (done || by rewrite length_fmap in Hdepth).
  unfold lookup_part, partition_of. destruct (Z.ltb_spec part 1) as [Hlt | Hge]; [done |].
  pose proof (fun s b i => all_counted_lt d _ _ _ (Z.to_nat (part - 1)) s b i Hc) as Hbound.
  destruct (all_numbered l' !! Z.to_nat (part - 1)) as [[s pt] |] eqn:E1.
  - destruct (Forall2_lookup_l _ _ _ _ _ (all_numbered_spec l' Hf) E1) as ([[S b] i] & E2 & HS & Hpt). cbn [fst snd] in HS, Hpt. subst S pt.
    rewrite E2 in *. cbn [mbind option_bind]. destruct (Hbound _ _ _ eq_refl) as [Ht Hi]. rewrite usable_slot.
    case_bool_decide as Hu; [rewrite decide_True by done | by rewrite decide_False by done].
    rewrite dos_info_spec by (unfold is_u32; done || lia). done.
  - destruct (all_counted _ !! _) as [y |] eqn:E2; [| done]. destruct (Forall2_lookup_r _ _ _ _ _ (all_numbered_spec l' Hf) E2) as (x & E3 & _). congruence.
Qed.

(** The partitions that there are, of the numbers from [p] on. *)
Definition existing (f : Z -> option disk_partition) (p : Z) (n : nat) : list (Z * disk_partition) :=
  omap (fun p => pair p <$> f p) (seqZ p (Z.of_nat n)).

(** The first bootable partition, or else the first one. *)
Definition best (l : list (Z * disk_partition)) : option (Z * disk_partition) :=
  match find (fun x => bootable x.2) l with Some x => Some x | None => head l end.

Lemma search_auto_spec depth d f : (forall p, get_partition_info depth d p = Some (f p)) -> forall n p found,
  (forall x, found = Some x -> bootable x.2 = false) ->
  search_auto depth n d p found = Some (best (match found with Some x => [x] | None => [] end ++ existing f p n)).
Proof.
  intros Hf. induction n as [| n IH]; intros p found Hfound.
  { cbn [search_auto]. change (existing f p 0) with (@nil (Z * disk_partition)). rewrite app_nil_r. destruct found as [x |]; [| done]. unfold best. cbn [find]. by rewrite (Hfound x eq_refl). }
  cbn [search_auto]. rewrite Hf. cbn [mbind option_bind]. unfold existing. rewrite Nat2Z.inj_succ, seqZ_cons by lia. rewrite Z.pred_succ. cbn [omap list_omap].
  destruct (f p) as [info |]; cbn [fmap option_fmap option_map].
  - fold (existing f (Z.succ p) n). destruct (bootable info) eqn:Hb.
    + unfold best. destruct found as [x |]; cbn [app find snd]; rewrite ?(Hfound x eq_refl), Hb; done.
    + rewrite IH by (intros x; destruct found; [apply Hfound | by intros [= <-]]). change (p + 1) with (Z.succ p). f_equal. destruct found as [x |]; [| done].
      unfold best. cbn [app find snd]. by rewrite (Hfound x eq_refl), Hb.
  - fold (existing f (Z.succ p) n). by rewrite IH.
Qed.

(** C35: for the partition "auto" [get_device_and_partition] chooses among the
    partitions 1 to 16 that exist the first bootable one, and the first one when
    none is bootable; the choice is an error when it is not a partition to boot
    from. *)
Theorem get_device_and_partition_auto usb depth bootdevice ifname s dev_str n d f allow :
  s <> [] -> s <> str "-" -> split_colon s = (dev_str, Some (str "auto")) -> get_device usb ifname dev_str = Some (n, d) -> 0 <= n ->
  part_type d <> PART_TYPE_UNKNOWN -> (forall p, get_partition_info depth d p = Some (f p)) ->
  get_device_and_partition usb depth bootdevice ifname (Some s) allow = Some ('(p, info) ← best (existing f 1 16); boot_partition p d info).
Proof.
  intros Hs1 Hs2 Hsplit Hdev Hn Ht Hf. unfold get_device_and_partition. rewrite !bool_decide_eq_false_2 by done. cbn [orb]. rewrite Hsplit, Hdev.
  rewrite (proj2 (Z.ltb_ge n 0)) by done. change (parse_part (Some (str "auto")) allow) with (Some PART_AUTO). rewrite (proj2 (Z.eqb_neq _ PART_TYPE_UNKNOWN)) by done.
  change (Z.to_nat MAX_SEARCH_PARTITIONS) with 16%nat. rewrite (search_auto_spec _ _ f) by done. done.
Qed.

Lemma table_cycle d s b which : read_one d s = Some b -> magic_ok b -> s <> 0 -> numbered s b = [] ->
  (exists pt, extended b = Some pt /\ le32_to_int (start4 pt) = 0) -> s32 s = s ->
  forall depth n, get_partition_info_extended depth d s s n which = None.
Proof.
  intros Hr Hm Hs Hnum (pt & He & Hz) H32. induction depth as [| depth IH]; intros n; [done |]. rewrite (get_partition_info_step _ _ _ _ b) by done.
  rewrite Hnum, He, lookup_nil. unfold next_table. rewrite Hz, Z.add_0_l, H32, (proj2 (Z.eqb_neq s 0)) by done. cbn [fst snd]. destruct (which <? n); apply IH.
Qed.

(** an extended partition whose table names itself as the next one is never
    left: a partition that is not in the first table is looked for by a recursion
    that no depth of the stack is enough for. *)
Theorem get_partition_info_dos_cycle d b0 pt0 b pt part s :
  read_one d 0 = Some b0 -> magic_ok b0 -> extended b0 = Some pt0 -> s = le32_to_int (start4 pt0) -> s <> 0 ->
  read_one d s = Some b -> magic_ok b -> extended b = Some pt -> le32_to_int (start4 pt) = 0 -> numbered s b = [] -> 4 < part ->
  forall depth, get_partition_info_dos depth d part = None.
Proof.
  intros Hr0 Hm0 He0 Hs0 Hs Hr Hm He Hz Hnum Hpart [| depth]; [done |]. unfold get_partition_info_dos. rewrite (get_partition_info_step _ _ _ _ b0) by done.
  assert (length (numbered 0 b0) <= 4)%nat as Hl by (pose proof (length_filter (fun pt => takes_number 0 pt = true) (dos_entries b0)); by unfold numbered).
  rewrite (proj2 (Z.ltb_ge part 1)) by lia. rewrite (lookup_ge_None_2 (numbered 0 b0)) by lia. rewrite He0. unfold next_table. rewrite Z.add_0_r, <- Hs0. cbn [Z.eqb fst snd].
  assert (s32 s = s) as H32. { rewrite Hs0. unfold le32_to_int. pose proof (swrap_range 32 (le_load (start4 pt0)) ltac:(lia)). apply swrap_small; lia. }
  rewrite H32. eapply table_cycle; try done. by exists pt.
Qed.

(** ** A disk with two extended partition tables *)

Module Toy.
Definition le4 (v : Z) : list Z := (fun i => (v / 256 ^ Z.of_nat i) mod 256) <$> seq 0 4.
Definition entry (boot sys start size : Z) : list Z := [boot; 0; 0; 0; sys; 0; 0; 0] ++ le4 start ++ le4 size.
Definition pt_block (l : list (list Z)) : list Z := take 510 (replicate 446 0 ++ concat l ++ replicate 64 0) ++ [0x55; 0xaa].

Definition mbr : list Z := pt_block [entry 0 6 10 5; entry 0 5 20 9].
Definition ext1 : list Z := pt_block [entry 0x80 6 1 3; entry 0 5 4 5].
Definition ext2 : list Z := pt_block [entry 0 0x83 2 3].
(** A table that names itself: its next table is at its own start. *)
Definition loop : list Z := pt_block [entry 0 5 0 9].

Definition with_blocks (f : Z -> list Z) : block_dev_desc := BlockDev IF_TYPE_USB 0 PART_TYPE_DOS 0 30 512 (fun s n => f <$> seqZ s n).
Definition disk : block_dev_desc :=
  with_blocks (fun s => if s =? 0 then mbr else if s =? 20 then ext1 else if s =? 24 then ext2 else replicate 512 0).
Definition cyclic : block_dev_desc := with_blocks (fun s => if s =? 0 then mbr else loop).
Definition usb (n : Z) : option block_dev_desc := if n =? 0 then Some disk else None.

Lemma disk_tables : tables disk 0 0 [(0, mbr); (20, ext1); (24, ext2)].
Proof.
  eapply tables_next; [vm_compute; reflexivity | split; vm_compute; reflexivity | vm_compute; reflexivity |].
  eapply tables_next; [vm_compute; reflexivity | split; vm_compute; reflexivity | vm_compute; reflexivity |].
  apply tables_last; [vm_compute; reflexivity | split; vm_compute; reflexivity | vm_compute; reflexivity].
Qed.

(** Its partitions by number. *)
Definition parts (p : Z) : option disk_partition :=
  if p =? 1 then Some (Partition 10 5 512 (str "usbda1") BOOT_PART_TYPE false)
  else if p =? 5 then Some (Partition 21 3 512 (str "usbda5") BOOT_PART_TYPE true)
  else if p =? 6 then Some (Partition 26 3 512 (str "usbda6") BOOT_PART_TYPE false) else None.

Lemma disk_parts p : get_partition_info 3 disk p = Some (parts p).
Proof.
  unfold get_partition_info. change (part_type disk =? PART_TYPE_DOS) with true. cbn [id]. unfold get_partition_info_dos.
  rewrite (get_partition_info_extended_spec _ _ _ _ _ _ _ disk_tables) by done. unfold lookup_part.
  set (l := all_numbered _). assert (length l = 6%nat) as Hl by (vm_compute; reflexivity). unfold parts.
  destruct (Z.ltb_spec p 1) as [H | H].
  { by rewrite !(proj2 (Z.eqb_neq _ _)) by lia. }
  assert (p = 1 \/ p = 2 \/ p = 3 \/ p = 4 \/ p = 5 \/ p = 6 \/ 6 < p) as [-> | [-> | [-> | [-> | [-> | [-> | Hp]]]]]] by lia; [by vm_compute .. |].
  rewrite (lookup_ge_None_2 l) by lia. by rewrite !(proj2 (Z.eqb_neq _ _)) by lia.
Qed.

Lemma disk_chain : chain disk 0 0 [(0, mbr); (20, ext1); (24, ext2)].
Proof.
  assert (forall b i, (forall j, (j < i)%nat -> bool_decide (link b j) = false) -> forall j, (j < i)%nat -> ~ link b j) as Hno by (intros b i H j Hj; by apply (bool_decide_eq_false (link b j)), H).
  eapply (chain_link _ _ _ _ 1); [vm_compute; reflexivity | split; vm_compute; reflexivity | lia | vm_compute; by repeat constructor | apply Hno; intros [| j] Hj; [reflexivity | lia] |].
  eapply (chain_link _ _ _ _ 1); [vm_compute; reflexivity | split; vm_compute; reflexivity | lia | vm_compute; by repeat constructor | apply Hno; intros [| j] Hj; [reflexivity | lia] |].
  apply chain_end; [vm_compute; reflexivity | split; vm_compute; reflexivity | apply Hno; intros [| [| [| [| j]]]] Hj; [reflexivity.. | lia]].
Qed.
End Toy.

Lemma get_partition_info_dos_correct_witness :
  get_partition_info_dos 3 Toy.disk 6 = Some (Some (Partition 26 3 512 (str "usbda6") BOOT_PART_TYPE false)).
Proof. rewrite (get_partition_info_dos_correct _ _ _ 6 Toy.disk_chain) by (done || (cbn; lia)). vm_compute. reflexivity. Defined.

Lemma get_device_and_partition_auto_witness :
  exists info, get_device_and_partition Toy.usb 3 None (str "usb") (Some (str "0:auto")) true = Some (Some (5, Toy.disk, info)) /\ bootable info = true.
Proof.
  rewrite (get_device_and_partition_auto Toy.usb 3 None (str "usb") (str "0:auto") (str "0") 0 Toy.disk Toy.parts true);
    [eexists; split; reflexivity | done | done | reflexivity | reflexivity | lia | done | exact Toy.disk_parts].
Defined.

Lemma get_partition_info_dos_cycle_witness : get_partition_info_dos 1000 Toy.cyclic 5 = None.
Proof.
  apply (get_partition_info_dos_cycle Toy.cyclic Toy.mbr (dos_entry Toy.mbr 1) Toy.loop (dos_entry Toy.loop 0) 5 20); try (vm_compute; reflexivity); try done; split; vm_compute; reflexivity.
Defined.
