(* ===== verification/Fat.v ===== *)
(** * FAT file systems (fs/fat/fat.c, common/cmd_fat.c)

    Files are read from FAT12, FAT16 and FAT32 partitions of a block device, with
    long names.  The table is read through a buffer of six sectors; directories
    are read into static blocks, which keep what was read before when a read
    delivers less.  The buffer of the caller is an address, of which only the
    alignment matters, and the result holds the bytes that are written from there
    on.  [None] is a fault: an access outside of a buffer, a request for more than
    a buffer can hold, or a loop that does not end.  Allocations succeed; the
    contents of new memory are a parameter. *)

From S2P Require Import Prelude Ctype StringLib Vsprintf PartDos.

Definition VFAT_MAXLEN_BYTES : Z := 256.
Definition VFAT_MAXSEQ : Z := 9.
Definition PREFETCH_BLOCKS : Z := 2.
Definition MAX_CLUSTSIZE : Z := 65536.
Definition FATBUFBLOCKS : Z := 6.
Definition ARCH_DMA_MINALIGN : Z := 64.

Definition ATTR_VOLUME : Z := 8.
Definition ATTR_DIR : Z := 16.
Definition ATTR_VFAT : Z := 15.
Definition DELETED_FLAG : Z := 0xe5.
Definition aRING : Z := 0x05.
Definition LAST_LONG_ENTRY_MASK : Z := 0x40.
Definition LS_NO : Z := 0.
Definition LS_YES : Z := 1.
Definition LS_ROOT : Z := 2.

Definition TOLOWER (c : Z) : Z := if (65 <=? c) && (c <=? 90) then c + 32 else c.
Definition downcase (s : text) : text := TOLOWER <$> s.
Definition ISDIRDELIM (c : Z) : bool := (c =? 47) || (c =? 92).

(** ** The file system *)

Record fsdata := Fsdata {
  fatbuf : list Z; fatsize : Z; fatlength : Z; fat_sect : Z; rootdir_sect : Z; sect_size : Z; clust_size : Z; data_begin : Z; fatbufnum : Z }.

Definition FATBUFSIZE (m : fsdata) : Z := sect_size m * FATBUFBLOCKS.
Definition FAT12BUFSIZE (m : fsdata) : Z := FATBUFSIZE m * 2 / 3.
Definition FAT16BUFSIZE (m : fsdata) : Z := FATBUFSIZE m / 2.
Definition FAT32BUFSIZE (m : fsdata) : Z := FATBUFSIZE m / 4.
Definition DIRENTSPERBLOCK (m : fsdata) : Z := sect_size m / 32.
Definition DIRENTSPERCLUST (m : fsdata) : Z := clust_size m * sect_size m / 32.

Definition CHECK_CLUST (x fatsize : Z) : bool := (x <=? 1) || ((if fatsize =? 32 then 0xffffff0 else 0xfff0) <=? x).

Definition with_fatbuf (buf : list Z) (n : Z) (m : fsdata) : fsdata :=
  Fsdata buf (fatsize m) (fatlength m) (fat_sect m) (rootdir_sect m) (sect_size m) (clust_size m) (data_begin m) n.

(** Bytes over the front of a buffer. *)
Definition overlay (bytes buf : list Z) : list Z := bytes ++ drop (length bytes) buf.

(** The element [i] of an array of 16-bit or 32-bit words. *)
Definition get16 (buf : list Z) (i : Z) : option Z :=
  if (0 <=? i) && (2 * i + 2 <=? zlen buf) then Some (le_load (bytes_of buf (Z.to_nat (2 * i)) 2)) else None.
Definition get32 (buf : list Z) (i : Z) : option Z :=
  if (0 <=? i) && (4 * i + 4 <=? zlen buf) then Some (le_load (bytes_of buf (Z.to_nat (4 * i)) 4)) else None.

(** ** Directory entries

    An entry, or a slot of a long name, is a list of 32 bytes. *)

Definition dir_entry : Type := list Z.
Definition word (e : dir_entry) (i n : nat) : Z := le_load (bytes_of e i n).
Definition attr (e : dir_entry) : Z := byte_at e 11.
Definition alias_checksum (e : dir_entry) : Z := byte_at e 13.
Definition de_size (e : dir_entry) : Z := word e 28 4.
Definition START (m : fsdata) (e : dir_entry) : Z :=
  u32 (word e 26 2 + if fatsize m =? 32 then Z.shiftl (word e 20 2) 16 else 0).
Definition has (e : dir_entry) (flag : Z) : bool := negb (Z.land (attr e) flag =? 0).

Fixpoint until_blank (s : text) : text :=
  match s with [] => [] | c :: s => if (c =? 0) || (c =? 32) then [] else c :: until_blank s end.

(** The first letter of a name. *)
Definition first_letter (s : text) : text :=
  match s with
  | [] => []
  | c :: r => if c =? DELETED_FLAG then [] else if c =? aRING then DELETED_FLAG :: r else s
  end.

Definition get_name (e : dir_entry) : text :=
  let base := until_blank (bytes_of e 0 8) in
  let ext := byte_at e 8 in
  downcase (first_letter (if negb (ext =? 0) && negb (ext =? 32) then base ++ 46 :: until_blank (bytes_of e 8 3) else base)).

Definition mkcksum (e : dir_entry) : Z :=
  foldl (fun ret c => u8 (Z.lor (Z.shiftl (ret & 1) 7) (Z.shiftr (ret & 0xfe) 1) + c)) 0 (bytes_of e 0 11).

(** The letters of a slot up to a zero, and whether there is one. *)
Fixpoint until_zero (s : text) : text * bool :=
  match s with [] => ([], false) | c :: s => if c =? 0 then ([], true) else let '(t, z) := until_zero s in (c :: t, z) end.
Definition slot_places : list nat := [1; 3; 5; 7; 9; 14; 16; 18; 20; 22; 24; 28; 30]%nat.
Definition slot2str (slot : dir_entry) : text * bool := until_zero (byte_at slot <$> slot_places).
Definition slot_number (slot : dir_entry) : Z := Z.land (Z.land (byte_at slot 0) (Z.lnot LAST_LONG_ENTRY_MASK)) 0xff.
Definition is_last_slot (slot : dir_entry) : bool := negb (Z.land (byte_at slot 0) LAST_LONG_ENTRY_MASK =? 0).

Definition entry_at (block : list Z) (k : nat) : dir_entry := bytes_of block (32 * k) 32.
Definition put_entry (block : list Z) (k : nat) (e : dir_entry) : list Z := take (32 * k) block ++ e ++ drop (32 * k + 32) block.

(** From the slot [k] down to the one with the number 1, or to the end of the
    block, which has [limit] bytes: the place, and the numbers that are left. *)
Fixpoint down_slots (limit : Z) (block : list Z) (k counter : nat) : option (nat * nat) :=
  if limit <=? 32 * Z.of_nat k then Some (k, counter)
  else
    match counter with
    | O => Some (k, O)
    | S n => if slot_number (entry_at block k) =? Z.of_nat counter then down_slots limit block (S k) n else None
    end.

(** The same in the next cluster, without a limit: the place of the entry. *)
Fixpoint more_slots (block : list Z) (k counter : nat) : option nat :=
  match counter with
  | O => Some k
  | S n => if slot_number (entry_at block k) =? Z.of_nat counter then more_slots block (S k) n else None
  end.

(** The names of all slots in front of [k], the nearest one first. *)
Fixpoint names_before (block : list Z) (k : nat) : text :=
  match k with O => [] | S k => (slot2str (entry_at block k)).1 ++ names_before block k end.

(** The names of the slots in front of [k] up to a zero or to the last slot of the
    name. *)
Fixpoint names_back (block : list Z) (k : nat) : option text :=
  match k with
  | O => None
  | S k =>
      let '(t, z) := slot2str (entry_at block k) in
      if z || is_last_slot (entry_at block k) then Some t else rest ← names_back block k; Some (t ++ rest)
  end.

(** ** Lists of files *)

Inductive ls_line := ls_file (size : Z) (name : text) | ls_dir (name : text) | ls_total (files dirs : Z).

Record scan := Scan { block : list Z; prevcksum : Z; files : Z; dirs : Z; lines : list ls_line; fs : fsdata }.

Definition set_block (b : list Z) (s : scan) := Scan b (prevcksum s) (files s) (dirs s) (lines s) (fs s).
Definition set_cksum (c : Z) (s : scan) := Scan (block s) c (files s) (dirs s) (lines s) (fs s).
Definition set_fs (m : fsdata) (s : scan) := Scan (block s) (prevcksum s) (files s) (dirs s) (lines s) m.

Definition total (s : scan) : scan := Scan (block s) (prevcksum s) (files s) (dirs s) (lines s ++ [ls_total (files s) (dirs s)]) (fs s).

(** The line of an entry; a directory without a name counts, or it does not. *)
Definition list_entry (count_unnamed : bool) (e : dir_entry) (name : text) (s : scan) : scan :=
  let named := negb (bool_decide (name = [])) in
  if has e ATTR_DIR then
    if named || count_unnamed then Scan (block s) (prevcksum s) (files s) (dirs s + 1) (lines s ++ [ls_dir name]) (fs s) else s
  else if named then Scan (block s) (prevcksum s) (files s + 1) (dirs s) (lines s ++ [ls_file (s32 (de_size e)) name]) (fs s) else s.

(** What the scan of some entries gives. *)
Inductive outcome := go_on | the_end | hit (e : dir_entry).

Section Files.
Context (cur_dev : option block_dev_desc) (cur_part_info : disk_partition).

(** The blocks that were read; [None] is a negative result. *)
Definition disk_read (block nr_blocks : Z) : option (list (list Z)) :=
  d ← cur_dev;
  let r := block_read d (u32 (p_start cur_part_info + block)) nr_blocks in
  if s32 (zlen r) <? 0 then None else Some r.

(** ** The table *)

(** The buffer of the entry, and the place in the buffer. *)
Definition fat_place (m : fsdata) (entry : Z) : option (Z * Z) :=
  n ← (if fatsize m =? 32 then Some (FAT32BUFSIZE m) else if fatsize m =? 16 then Some (FAT16BUFSIZE m)
       else if fatsize m =? 12 then Some (FAT12BUFSIZE m) else None);
  Some (entry / n, u32 (entry - entry / n * n)).

(** The buffer [bufnum] of the table; [None] inside is an error of the device. *)
Definition load_fat (m : fsdata) (bufnum : Z) : option (option fsdata) :=
  if bufnum =? u32 (fatbufnum m) then Some (Some m)
  else
    let startblock := u32 (bufnum * FATBUFBLOCKS) in
    let getsize := if fatlength m <? u32 (startblock + FATBUFBLOCKS) then u32 (fatlength m - startblock) else FATBUFBLOCKS in
    match cur_dev with
    | None => Some None
    | Some _ =>
        if FATBUFBLOCKS <? getsize then None
        else
          match disk_read (u32 (startblock + fat_sect m)) getsize with
          | None => Some None
          | Some blocks => Some (Some (with_fatbuf (overlay (concat blocks) (fatbuf m)) bufnum m))
          end
    end.

(** The entry in the buffer. *)
Definition fat_entry (m : fsdata) (offset : Z) : option Z :=
  if fatsize m =? 32 then get32 (fatbuf m) offset
  else if fatsize m =? 16 then get16 (fatbuf m) offset
  else
    let off16 := u32 (offset * 3) / 4 in
    let k := Z.land offset 3 in
    if k =? 0 then v ← get16 (fatbuf m) off16; Some (v & 0xfff)
    else if k =? 1 then
      val1 ← get16 (fatbuf m) off16; val2 ← get16 (fatbuf m) (off16 + 1);
      Some (Z.lor (Z.shiftl (val2 & 0x00ff) 4) (Z.shiftr (val1 & 0xf000) 12))
    else if k =? 2 then
      val1 ← get16 (fatbuf m) off16; val2 ← get16 (fatbuf m) (off16 + 1);
      Some (Z.lor (Z.shiftl (val2 & 0x000f) 8) (Z.shiftr (val1 & 0xff00) 8))
    else v ← get16 (fatbuf m) off16; Some (Z.shiftr (v & 0xfff0) 4).

Definition get_fatent (m : fsdata) (entry : Z) : option (Z * fsdata) :=
  match fat_place m entry with
  | None => Some (0, m)
  | Some (bufnum, offset) =>
      r ← load_fat m bufnum;
      match r with
      | None => Some (0, m)
      | Some m => ret ← fat_entry m offset; Some (ret, m)
      end
  end.

(** ** Clusters and files *)

(** Sector by sector. *)
Fixpoint read_sectors (n : nat) (startsect : Z) : option (list Z) :=
  match n with
  | O => Some []
  | S n =>
      blocks ← disk_read startsect 1;
      match blocks with
      | [b] => rest ← read_sectors n (u32 (startsect + 1)); Some (b ++ rest)
      | _ => None
      end
  end.

(** The bytes that are written to the buffer at this address; [None] is the
    error. *)
Definition get_cluster (m : fsdata) (clustnum buffer size : Z) : option (list Z) :=
  let startsect := if 0 <? clustnum then u32 (data_begin m + clustnum * clust_size m) else rootdir_sect m in
  let idx := size / sect_size m in
  whole ← (if negb (Z.land buffer (ARCH_DMA_MINALIGN - 1) =? 0) then read_sectors (Z.to_nat idx) startsect
           else blocks ← disk_read startsect idx; if zlen blocks =? idx then Some (concat blocks) else None);
  let size := size - idx * sect_size m in
  if size =? 0 then Some whole
  else
    blocks ← disk_read (u32 (startsect + idx)) 1;
    match blocks with [b] => Some (whole ++ take (Z.to_nat size) b) | _ => None end.

(** Go to the cluster at [pos]: [actsize], or an end in front of it. *)
Fixpoint seek (fuel : nat) (bytesperclust pos actsize curclust : Z) (m : fsdata) : option (option (Z * Z) * fsdata) :=
  if actsize <=? pos then
    match fuel with
    | O => None
    | S fuel =>
        '(curclust, m) ← get_fatent m curclust;
        if CHECK_CLUST curclust (fatsize m) then Some (None, m) else seek fuel bytesperclust pos (u32 (actsize + bytesperclust)) curclust m
    end
  else Some (Some (actsize, curclust), m).

(** How the search for consecutive clusters ends. *)
Inductive extent := whole_rest | next_extent (actsize endclust : Z) | bad_entry.

Fixpoint consecutive (fuel : nat) (bytesperclust filesize actsize endclust : Z) (m : fsdata) : option (extent * fsdata) :=
  if actsize <? filesize then
    match fuel with
    | O => None
    | S fuel =>
        '(newclust, m) ← get_fatent m endclust;
        if negb (u32 (newclust - 1) =? endclust) then Some (next_extent actsize endclust, m)
        else if CHECK_CLUST newclust (fatsize m) then Some (bad_entry, m)
        else consecutive fuel bytesperclust filesize (u32 (actsize + bytesperclust)) newclust m
    end
  else Some (whole_rest, m).

(** The return value, the bytes that are written and the file system. *)
Definition result : Type := Z * list Z * fsdata.

(** [(int)size] as a size. *)
Fixpoint extents (fuel : nat) (bytesperclust filesize buffer curclust gotsize : Z) (out : list Z) (m : fsdata) : option result :=
  match fuel with
  | O => None
  | S fuel' =>
      '(e, m) ← consecutive fuel bytesperclust filesize bytesperclust curclust m;
      match e with
      | bad_entry => Some (s32 gotsize, out, m)
      | whole_rest =>
          match get_cluster m curclust buffer filesize with
          | None => Some (-1, out, m)
          | Some b => Some (s32 (u32 (gotsize + filesize)), out ++ b, m)
          end
      | next_extent actsize endclust =>
          match get_cluster m curclust buffer actsize with
          | None => Some (-1, out, m)
          | Some b =>
              let gotsize := u32 (gotsize + actsize) in
              '(curclust, m) ← get_fatent m endclust;
              if CHECK_CLUST curclust (fatsize m) then Some (s32 gotsize, out ++ b, m)
              else extents fuel' bytesperclust (filesize - actsize) (u32 (buffer + actsize)) curclust gotsize (out ++ b) m
          end
      end
  end.

(** The block of [get_contents] and [get_vfatname] is overwritten before it is
    read here. *)
Definition get_contents (m : fsdata) (dentptr : dir_entry) (pos buffer maxsize : Z) : option result :=
  let filesize := de_size dentptr in
  let bytesperclust := clust_size m * sect_size m in
  if filesize <=? pos then Some (0, [], m)
  else
    let filesize := if (0 <? maxsize) && (u32 (pos + maxsize) <? filesize) then u32 (pos + maxsize) else filesize in
    '(r, m) ← seek (S (Z.to_nat (pos / bytesperclust))) bytesperclust pos bytesperclust (START m dentptr) m;
    match r with
    | None => Some (0, [], m)
    | Some (actsize, curclust) =>
        let actsize := u32 (actsize - bytesperclust) in
        let filesize := u32 (filesize - actsize) in
        let pos := u32 (pos - actsize) in
        let go := fun filesize buffer curclust gotsize out m => extents (S (Z.to_nat (filesize / bytesperclust))) bytesperclust filesize buffer curclust gotsize out m in
        if pos =? 0 then go filesize buffer curclust 0 [] m
        else
          let actsize := Z.min filesize bytesperclust in
          if MAX_CLUSTSIZE <? actsize then None
          else
            match get_cluster m curclust 0 actsize with
            | None => Some (-1, [], m)
            | Some block =>
                let filesize := filesize - actsize in
                let actsize := u32 (actsize - pos) in
                let out := bytes_of block (Z.to_nat pos) (Z.to_nat actsize) in
                if filesize =? 0 then Some (s32 actsize, out, m)
                else
                  '(curclust, m) ← get_fatent m curclust;
                  if CHECK_CLUST curclust (fatsize m) then Some (s32 actsize, out, m)
                  else go filesize (u32 (buffer + actsize)) curclust actsize out m
            end
    end.

(** ** Long names *)

(** The block with the real entry in the place of the slot, and the name; [None]
    inside is a failure. *)
Definition get_vfatname (m : fsdata) (curclust : Z) (cluster : list Z) (k : nat) : option (option (list Z * text) * fsdata) :=
  let limit := sect_size m * (if curclust =? 0 then PREFETCH_BLOCKS else clust_size m) in
  let counter := slot_number (entry_at cluster k) in
  if VFAT_MAXSEQ <? counter then Some (None, m)
  else
    match down_slots limit cluster k (Z.to_nat counter) with
    | None => Some (None, m)
    | Some (slot, counter) =>
        '(r, m) ← (if limit <=? 32 * Z.of_nat slot then
            if curclust =? 0 then Some (None, m)
            else
              '(curclust, m) ← get_fatent m curclust;
              if CHECK_CLUST curclust (fatsize m) then Some (None, m)
              else if MAX_CLUSTSIZE <? clust_size m * sect_size m then None
              else
                match get_cluster m curclust 0 (clust_size m * sect_size m) with
                | None => Some (None, m)
                | Some next =>
                    match more_slots next 0 counter with
                    | None => Some (None, m)
                    | Some slot2 => Some (Some (entry_at next slot2, names_before next slot2), m)
                    end
                end
          else Some (Some (entry_at cluster slot, []), m));
        match r with
        | None => Some (None, m)
        | Some (realdent, front) =>
            back ← names_back cluster slot;
            let l_name := front ++ back in
            if VFAT_MAXLEN_BYTES - 1 <? zlen l_name then None
            else Some (Some (put_entry cluster k realdent, downcase (first_letter l_name)), m)
        end
    end.

(** ** Directories *)

(** One entry of the root directory or of another one. *)
Definition scan_entry (root list : bool) (filename : text) (curclust : Z) (k : nat) (s : scan) : option (outcome * scan) :=
  let e := entry_at (block s) k in
  if byte_at e 0 =? DELETED_FLAG then Some (go_on, s)
  else
    (* The last part: an entry with both of its names. *)
    let names := fun (l_name : text) (s : scan) =>
      let e := entry_at (block s) k in
      let s_name := get_name e in
      if list then (go_on, list_entry (negb root) e s_name s)
      else if bool_decide (filename = s_name) || bool_decide (filename = l_name) then (hit e, s) else (go_on, s) in
    let checks := fun (l_name : text) (s : scan) =>
      let e := entry_at (block s) k in
      if byte_at e 0 =? 0 then (the_end, if list then total s else s)
      else if list && (mkcksum e =? prevcksum s) then (go_on, set_cksum 0xffff s)
      else names l_name s in
    if has e ATTR_VOLUME then
      if (Z.land (attr e) ATTR_VFAT =? ATTR_VFAT) && is_last_slot e then
        let s := set_cksum (alias_checksum e) s in
        '(r, m) ← get_vfatname (fs s) curclust (block s) k;
        let '(b, l_name) := default (block s, []) r in
        let s := set_fs m (set_block b s) in
        if list then Some (go_on, list_entry true (entry_at b k) l_name s)
        else Some (if root then names l_name s else checks l_name s)
      else Some (go_on, s)
    else Some (checks [] s).

Fixpoint scan_entries (n : nat) (root list : bool) (filename : text) (curclust : Z) (k : nat) (s : scan) : option (outcome * scan) :=
  match n with
  | O => Some (go_on, s)
  | S n =>
      '(r, s) ← scan_entry root list filename curclust k s;
      match r with go_on => scan_entries n root list filename curclust (S k) s | _ => Some (r, s) end
  end.

(** The entry of the name in the directory that starts with the cluster. *)
Fixpoint get_dentfromdir (rounds : nat) (list : bool) (filename : text) (curclust : Z) (s : scan) : option (option dir_entry * scan) :=
  match rounds with
  | O => None
  | S rounds =>
      let m := fs s in
      if MAX_CLUSTSIZE <? clust_size m * sect_size m then None
      else
        match get_cluster m curclust 0 (clust_size m * sect_size m) with
        | None => Some (None, s)
        | Some b =>
            '(r, s) ← scan_entries (Z.to_nat (DIRENTSPERCLUST m)) false list filename curclust 0 (set_block b s);
            match r with
            | hit e => Some (Some e, s)
            | the_end => Some (None, s)
            | go_on =>
                '(curclust, m) ← get_fatent (fs s) curclust;
                if CHECK_CLUST curclust (fatsize m) then Some (None, set_fs m s)
                else get_dentfromdir rounds list filename curclust (set_fs m s)
            end
        end
  end.

(** ** The boot sector *)

(** The file system of the boot sector; [block] is new memory. *)
Definition read_bootsectandvi (block : list Z) : option (list Z * Z) :=
  blocks ← disk_read 0 1;
  let block := overlay (concat blocks) block in
  if word block 22 2 =? 0 then
    if bool_decide (bytes_of block 82 8 = str "FAT32   ") then Some (block, 32) else None
  else if bool_decide (bytes_of block 54 8 = str "FAT12   ") then Some (block, 12)
  else if bool_decide (bytes_of block 54 8 = str "FAT16   ") then Some (block, 16)
  else None.

Definition rootdir_size (bs : list Z) : Z := word bs 17 2 * 32 / word bs 11 2.
Definition root_cluster (bs : list Z) (size : Z) : Z := if size =? 32 then word bs 44 4 else 0.

Definition fsdata_of (bs : list Z) (size : Z) (fatbuf : list Z) : fsdata :=
  let fatlength := if size =? 32 then word bs 36 4 else word bs 22 2 in
  let fat_sect := word bs 14 2 in
  let rootdir_sect := u32 (fat_sect + fatlength * byte_at bs 16) in
  let clust_size := byte_at bs 13 in
  Fsdata fatbuf size fatlength fat_sect rootdir_sect (word bs 11 2) clust_size
    (s32 (rootdir_sect + (if size =? 32 then 0 else rootdir_size bs) - clust_size * 2)) (-1).

(** ** Paths *)

Fixpoint skip_delims (s : text) : text :=
  match s with c :: r => if ISDIRDELIM c then skip_delims r else s | [] => [] end.

(** The part in front of the first delimiter, and the part behind it and those
    that follow it. *)
Fixpoint dirdelim (s : text) : option (text * text) :=
  match s with
  | [] => None
  | c :: r => if ISDIRDELIM c then Some ([], skip_delims r) else '(a, b) ← dirdelim r; Some (c :: a, b)
  end.

(** How the search in the root directory ends. *)
Inductive root_outcome := root_exit (ret : Z) | rootdir_done (e : dir_entry).

(** The rounds over the blocks of the root directory: the block [j] of those that
    were read at [cursect]. *)
Fixpoint root_loop (rounds : nat) (size : Z) (list : bool) (filename : text) (j cursect root_cluster : Z) (s : scan) :
    option (root_outcome * scan) :=
  match rounds with
  | O => None
  | S rounds =>
      let m := fs s in
      let n := if fatsize m =? 32 then clust_size m else PREFETCH_BLOCKS in
      let ended := fun s => Some (root_exit (if list then 0 else -1), s) in
      if ((j =? 0) && (MAX_CLUSTSIZE <? n * sect_size m)) || (MAX_CLUSTSIZE <? (j + 1) * sect_size m) then None
      else
        match (if j =? 0 then blocks ← disk_read cursect n; Some (set_block (overlay (concat blocks) (block s)) s) else Some s) with
        | None => Some (root_exit (-1), s)
        | Some s =>
            '(r, s) ← scan_entries (Z.to_nat (DIRENTSPERBLOCK m)) true list filename root_cluster (Z.to_nat (j * DIRENTSPERBLOCK m)) s;
            match r with
            | hit e => Some (rootdir_done e, s)
            | the_end => ended s
            | go_on =>
                let j := j + 1 in
                if fatsize m =? 32 then
                  if j =? clust_size m then
                    '(nxt_clust, m) ← get_fatent (fs s) root_cluster;
                    let s := set_fs m s in
                    if CHECK_CLUST nxt_clust 32 then ended (if list then total s else s)
                    else root_loop rounds size list filename 0 (u32 (data_begin m + nxt_clust * clust_size m)) nxt_clust s
                  else root_loop rounds size list filename j cursect root_cluster s
                else
                  let cursect := u32 (cursect + 1) in
                  if size <=? u32 (cursect - rootdir_sect m) then ended (if list then total s else s)
                  else root_loop rounds size list filename (if j =? PREFETCH_BLOCKS then 0 else j) cursect root_cluster s
            end
        end
  end.

(** Through the directories of a path: the entry of the file, or a return
    value. *)
Fixpoint walk (fuel rounds : nat) (firsttime : bool) (dols : bool) (subname : text) (dent : dir_entry) (s : scan) :
    option (root_outcome * scan) :=
  match fuel with
  | O => None
  | S fuel =>
      let '(name, next, isdir, firsttime) := match dirdelim subname with
        | Some (a, b) => (a, b, true, firsttime && negb (dols && bool_decide (b = [])))
        | None => if dols && firsttime then (subname, subname, true, false) else (subname, subname, false, firsttime)
        end in
      '(r, s) ← get_dentfromdir rounds (negb isdir && dols) name (START (fs s) dent) (Scan (block s) 0xffff 0 0 (lines s) (fs s));
      match r with
      | None => Some (root_exit (if dols && negb isdir then 0 else -1), s)
      | Some e =>
          if isdir then
            if has e ATTR_DIR then walk fuel rounds firsttime dols next e s else Some (root_exit (-1), s)
          else Some (rootdir_done e, s)
      end
  end.

(** What the file system does for a path: the return value, the bytes that are
    written to the buffer, the lines of the list, and the static block. *)
Record fat_answer := FatAnswer { ret : Z; written : list Z; listed : list ls_line; root_block : list Z }.

(** New memory for the boot sector and for the buffer of the table, and the block
    of the function, which is static. *)
Definition do_fat_read_at (rounds : nat) (newblock newbuf do_fat_read_at_block : list Z) (filename : text) (pos buffer maxsize : Z) (dols : Z) :
    option fat_answer :=
  let failed := Some (FatAnswer (-1) [] [] do_fat_read_at_block) in
  match read_bootsectandvi newblock with
  | None => failed
  | Some (bs, fatsize) =>
      let m := fsdata_of bs fatsize newbuf in
      if negb (sect_size m =? p_blksz cur_part_info) then failed
      else
        let fnamecopy := downcase (skip_delims filename) in
        if 2048 <=? zlen fnamecopy then None
        else
          let '(name, subname, isdir, list) := match fnamecopy with
            | [] => ([], [], false, true)
            | _ => match dirdelim fnamecopy with
                   | Some (a, b) => (a, b, true, false)
                   | None => (fnamecopy, [], negb (dols =? LS_NO), false)
                   end
            end in
          if list && (dols =? LS_NO) then failed
          else
            '(r, s) ← root_loop rounds (rootdir_size bs) list name 0 (rootdir_sect m) (root_cluster bs fatsize) (Scan do_fat_read_at_block 0xffff 0 0 [] m);
            let block := block s in
            match r with
            | root_exit ret => Some (FatAnswer ret [] (lines s) block)
            | rootdir_done e =>
                if isdir && negb (has e ATTR_DIR) then Some (FatAnswer (-1) [] (lines s) block)
                else
                  '(r, s) ← (if isdir then walk (S (S (length subname))) rounds true (negb (dols =? LS_NO)) subname e (Scan [] 0xffff 0 0 (lines s) (fs s))
                             else Some (rootdir_done e, s));
                  match r with
                  | root_exit ret => Some (FatAnswer ret [] (lines s) block)
                  | rootdir_done e =>
                      '(ret, out, _) ← get_contents (fs s) e pos buffer maxsize;
                      Some (FatAnswer ret out (lines s) block)
                  end
            end
  end.

Definition file_fat_read_at (rounds : nat) (newblock newbuf block : list Z) (filename : text) (pos buffer maxsize : Z) : option fat_answer :=
  do_fat_read_at rounds newblock newbuf block filename pos buffer maxsize LS_NO.
Definition file_fat_ls (rounds : nat) (newblock newbuf block : list Z) (dir : text) : option fat_answer :=
  do_fat_read_at rounds newblock newbuf block dir 0 0 0 LS_YES.
Definition file_fat_detectfs (newblock : list Z) : Z :=
  match cur_dev with
  | None => 1
  | Some _ => match read_bootsectandvi newblock with None => 1 | Some _ => 0 end
  end.
End Files.

(** ** Registering and the commands *)

Definition is_fat (b : list Z) : bool :=
  bool_decide (bytes_of b 0x1fe 2 = [0x55; 0xAA]) && (bool_decide (bytes_of b 0x36 3 = str "FAT") || bool_decide (bytes_of b 0x52 5 = str "FAT32")).

(** The device and the partition; [None] inside is an error. *)
Definition fat_register_device (depth : nat) (d : block_dev_desc) (part_no : Z) : option (option (block_dev_desc * disk_partition)) :=
  info ← get_partition_info depth d part_no;
  match (match info with
         | Some info => Some info
         | None => if part_no =? 0 then Some (Partition 0 (lba d) (blksz d) [] [] false) else None
         end) with
  | None => Some None
  | Some info =>
      match disk_read (Some d) info 0 1 with
      | Some [b] => Some (if is_fat b then Some (d, info) else None)
      | _ => Some None
      end
  end.

Section Commands.
Context (usb_stor_get_dev : Z -> option block_dev_desc) (depth rounds : nat) (bootdevice : option text) (newblock newbuf block : list Z).

(** The file system of the first two arguments. *)
Definition find_fs (ifname : text) (dev_part : option text) : option (option (block_dev_desc * disk_partition)) :=
  r ← get_device_and_partition usb_stor_get_dev depth bootdevice ifname dev_part true;
  match r with
  | None => Some None
  | Some (part, d, _) => if part <? 0 then Some None else fat_register_device depth d part
  end.

(** The return value of the command, what is written to the address, and the
    value of "filesize". *)
Definition do_fat_fsload (argv : list text) : option (Z * option (Z * list Z * text)) :=
  match argv with
  | _ :: ifname :: dev_part :: addr :: filename :: rest =>
      r ← find_fs ifname (Some dev_part);
      match r with
      | None => Some (1, None)
      | Some (d, info) =>
          let number := fun o => match o with Some t => (simple_strtoul t 16).1 | None => 0 end in
          let offset := (simple_strtoul addr 16).1 in
          a ← file_fat_read_at (Some d) info rounds newblock newbuf block filename (number (rest !! 1%nat)) offset (number (rest !! 0%nat));
          if ret a =? -1 then Some (1, None)
          else '(t, _) ← vsnprintf_text (str "%lX") [A32 (u32 (ret a))]; Some (0, Some (offset, written a, t))
      end
  | _ => Some (1, None)
  end.

Definition do_fat_ls (argv : list text) : option (Z * list ls_line) :=
  match argv with
  | _ :: ifname :: rest =>
      r ← find_fs ifname (rest !! 0%nat);
      match r with
      | None => Some (1, [])
      | Some (d, info) =>
          a ← file_fat_ls (Some d) info rounds newblock newbuf block (match rest with [_; dir] => dir | _ => str "/" end);
          Some (ret a, listed a)
      end
  | _ => Some (0, [])
  end.

Definition do_fat_fsinfo (argv : list text) : option Z :=
  match argv with
  | _ :: ifname :: rest =>
      r ← find_fs ifname (rest !! 0%nat);
      match r with
      | None => Some 1
      | Some (d, info) => Some (file_fat_detectfs (Some d) info newblock)
      end
  | _ => Some 0
  end.
End Commands.
