(* ===== verification/FatFacts.v ===== *)
(** * Reading a file from a FAT file system (fs/fat/fat.c)

    The entries of the table are those of its bytes, whichever buffer they come
    from; a file is read as its chain of clusters says, however its clusters are
    grouped, and at every position. *)

From S2P Require Import Prelude Ctype StringLib Vsprintf PartDos Fat.

(** ** Bits and bytes *)

Lemma mask_shiftr v n k : 0 <= n -> 0 <= k -> Z.shiftr (Z.land v (Z.shiftl (Z.ones n) k)) k = (v / 2 ^ k) mod 2 ^ n.
Proof.
  intros Hn Hk. rewrite Z.shiftr_land, Z.shiftr_shiftl_l, Z.sub_diag, Z.shiftl_0_r by lia.
  by rewrite Z.land_ones, Z.shiftr_div_pow2 by lia.
Qed.

Lemma lor_shifted a b k : 0 <= k -> 0 <= b < 2 ^ k -> Z.lor (Z.shiftl a k) b = a * 2 ^ k + b.
Proof.
  intros Hk Hb. rewrite <- Z.shiftl_mul_pow2 by lia. assert (Z.land (Z.shiftl a k) b = 0) as Hz.
  { apply Z.bits_inj'. intros i Hi. rewrite Z.land_spec, Z.bits_0. destruct (Z.lt_ge_cases i k).
    - by rewrite Z.shiftl_spec_low by lia.
    - rewrite (testbit_high k b) by lia. apply andb_false_r. }
  pose proof (Z.add_lor_land (Z.shiftl a k) b) as H. lia.
Qed.

Lemma bytes_of_length (b : list Z) i n : (i + n <= length b)%nat -> length (bytes_of b i n) = n.
Proof. intros H. unfold bytes_of. rewrite length_take, length_drop. lia. Qed.

Lemma bytes_of_lookup (b : list Z) i n j : (j < n)%nat -> bytes_of b i n !! j = b !! (i + j)%nat.
Proof. intros H. unfold bytes_of. by rewrite lookup_take_lt, lookup_drop by lia. Qed.

Lemma bytes_of_two (b : list Z) i : (i + 2 <= length b)%nat -> bytes_of b i 2 = [byte_at b i; byte_at b (S i)].
Proof.
  intros H. unfold byte_at. destruct (lookup_lt_is_Some_2 b i) as [x Hx]; [lia |]. destruct (lookup_lt_is_Some_2 b (S i)) as [y Hy]; [lia |].
  rewrite Hx, Hy. cbn [default]. apply list_eq. intros [| [| j]].
  - rewrite bytes_of_lookup by lia. by rewrite Nat.add_0_r.
  - rewrite bytes_of_lookup by lia. by rewrite Nat.add_1_r.
  - rewrite lookup_ge_None_2; [done |]. rewrite bytes_of_length by lia. lia.
Qed.

(** [concat] of pieces of one length. *)
Lemma length_concat_same {A} (f : Z -> list A) n : (forall i, length (f i) = n) -> forall l, length (concat (f <$> l)) = (n * length l)%nat.
Proof. intros Hf l. induction l as [| i l IH]; [cbn; lia |]. rewrite fmap_cons. cbn [concat length]. rewrite length_app, Hf, IH. lia. Qed.

Lemma concat_seqZ_app {A} (f : Z -> list A) i n k : 0 <= n -> 0 <= k -> concat (f <$> seqZ i (n + k)) = concat (f <$> seqZ i n) ++ concat (f <$> seqZ (i + n) k).
Proof. intros Hn Hk. by rewrite seqZ_app, fmap_app, concat_app by lia. Qed.

Lemma seqZ_one i : seqZ i 1 = [i].
Proof. done. Qed.

(** ** The disk and the table *)

(** The sectors of the partition, from its start on; the device reads those in
    front of [count]. *)
Record disk_ok (d : block_dev_desc) (info : disk_partition) (sector : Z -> list Z) (count : Z) : Prop := {
  dk_size : 0 < blksz d;
  dk_count : 0 <= count < 2 ^ 31;
  dk_length : forall i, length (sector i) = Z.to_nat (blksz d);
  dk_bytes : forall i, is_bytes (sector i);
  dk_read : forall i n, 0 <= i -> 0 <= n -> i + n <= count -> block_read d (u32 (p_start info + i)) n = sector <$> seqZ i n }.

(** The entry of the table, from its bytes. *)
Definition fat_value (size : Z) (table : list Z) (e : Z) : Z :=
  if size =? 32 then le_load (bytes_of table (Z.to_nat (4 * e)) 4)
  else if size =? 16 then le_load (bytes_of table (Z.to_nat (2 * e)) 2)
  else let w := le_load (bytes_of table (Z.to_nat (3 * e / 2)) 2) in if Z.even e then w mod 2 ^ 12 else w / 2 ^ 4.

(** Its bytes are in the table. *)
Definition entry_in (size : Z) (table : list Z) (e : Z) : Prop :=
  0 <= e /\ (if size =? 32 then 4 * e + 4 else if size =? 16 then 2 * e + 2 else 3 * e / 2 + 2) <= zlen table.

Section Disk.
Context (d : block_dev_desc) (info : disk_partition) (sector : Z -> list Z) (count : Z) (Hd : disk_ok d info sector count).

Notation get_fatent := (get_fatent (Some d) info).
Notation disk_read := (disk_read (Some d) info).

Lemma disk_read_ok i n : 0 <= i -> 0 <= n -> i + n <= count -> disk_read i n = Some (sector <$> seqZ i n).
Proof.
  intros Hi Hn Hin. unfold Fat.disk_read. cbn [mbind option_bind]. rewrite (dk_read _ _ _ _ Hd) by done.
  rewrite length_fmap, length_seqZ, Z2Nat.id by lia. pose proof (dk_count _ _ _ _ Hd). rewrite swrap_small by lia. by rewrite (proj2 (Z.ltb_ge _ _)) by lia.
Qed.

Definition sectors (i n : Z) : list Z := concat (sector <$> seqZ i n).

Lemma sectors_length i n : 0 <= n -> zlen (sectors i n) = n * blksz d.
Proof.
  intros Hn. unfold sectors. rewrite (length_concat_same sector (Z.to_nat (blksz d))) by apply (dk_length _ _ _ _ Hd).
  rewrite length_seqZ. pose proof (dk_size _ _ _ _ Hd). lia.
Qed.

Lemma sectors_app i n k : 0 <= n -> 0 <= k -> sectors i (n + k) = sectors i n ++ sectors (i + n) k.
Proof. apply concat_seqZ_app. Qed.

Lemma sectors_bytes i n : is_bytes (sectors i n).
Proof. apply Forall_concat, Forall_fmap, Forall_forall. intros x _. apply (dk_bytes _ _ _ _ Hd). Qed.

(** The parts of the file system that do not change. *)
Definition same_fs (m m' : fsdata) : Prop := m' = with_fatbuf (fatbuf m') (fatbufnum m') m.

Lemma same_fs_refl m : same_fs m m.
Proof. by destruct m. Qed.
Lemma same_fs_trans m1 m2 m3 : same_fs m1 m2 -> same_fs m2 m3 -> same_fs m1 m3.
Proof. unfold same_fs. intros H1 H2. rewrite H2, H1 at 1. done. Qed.

Record fs_ok (m : fsdata) : Prop := {
  fs_sect : sect_size m = blksz d;
  fs_even : Z.even (sect_size m) = true;
  fs_range : sect_size m < 2 ^ 16;
  fs_size : fatsize m = 12 \/ fatsize m = 16 \/ fatsize m = 32;
  fs_fat : 0 <= fat_sect m /\ 0 <= fatlength m /\ fat_sect m + fatlength m <= count }.

Definition table (m : fsdata) : list Z := sectors (fat_sect m) (fatlength m).

(** The buffer holds its part of the table. *)
Record cached (m : fsdata) : Prop := {
  ca_length : zlen (fatbuf m) = FATBUFSIZE m;
  ca_bytes : is_bytes (fatbuf m);
  ca_num : fatbufnum m = -1 \/ (0 <= fatbufnum m < 2 ^ 31 /\
    forall i, 0 <= i < FATBUFSIZE m -> fatbufnum m * FATBUFSIZE m + i < zlen (table m) ->
      fatbuf m !! Z.to_nat i = table m !! Z.to_nat (fatbufnum m * FATBUFSIZE m + i)) }.

Lemma same_fs_ok m m' : same_fs m m' -> fs_ok m -> fs_ok m'.
Proof. unfold same_fs. intros -> [H1 H2 H3 H4 H5]. by split. Qed.
Lemma same_table m m' : same_fs m m' -> table m' = table m.
Proof. unfold same_fs. by intros ->. Qed.

Lemma table_length m : fs_ok m -> zlen (table m) = fatlength m * sect_size m.
Proof. intros [-> _ _ _ Hf]. unfold table. apply sectors_length. lia. Qed.

Lemma sect_positive m : fs_ok m -> 0 < sect_size m /\ FATBUFSIZE m = 6 * sect_size m.
Proof. intros [H1 _ _ _ _]. pose proof (dk_size _ _ _ _ Hd). unfold FATBUFSIZE, FATBUFBLOCKS. lia. Qed.

Lemma load_fat_ok m b : fs_ok m -> cached m -> 0 <= b -> b * 6 <= fatlength m ->
  exists m', load_fat (Some d) info m b = Some (Some m') /\ same_fs m m' /\ cached m' /\ fatbufnum m' = b.
Proof.
  intros Hm Hc Hb Hbl. assert (Hs := sect_positive m Hm). assert (Hf := fs_fat m Hm). pose proof (dk_count _ _ _ _ Hd) as Hcount.
  unfold load_fat. destruct (Z.eqb_spec b (u32 (fatbufnum m))) as [He | He].
  - destruct (ca_num m Hc) as [Hn | [Hn _]]; [rewrite Hn in He; change (u32 (-1)) with (2 ^ 32 - 1) in He; lia |].
    rewrite wrap_small in He by lia. exists m. split; [done |]. split; [apply same_fs_refl |]. by split.
  - unfold FATBUFBLOCKS. rewrite !(wrap_small 32 (b * 6)) by lia. rewrite (wrap_small 32 (b * 6 + 6)) by lia.
    set (g := if fatlength m <? b * 6 + 6 then u32 (fatlength m - b * 6) else 6).
    assert (g = Z.min 6 (fatlength m - b * 6)) as Hg.
    { subst g. destruct (Z.ltb_spec (fatlength m) (b * 6 + 6)); [rewrite wrap_small by lia |]; lia. }
    rewrite (proj2 (Z.ltb_ge 6 g)) by lia. rewrite wrap_small by lia. rewrite disk_read_ok by lia. fold (sectors (b * 6 + fat_sect m) g).
    set (new := sectors (b * 6 + fat_sect m) g). assert (zlen new = g * sect_size m) as Hnew.
    { subst new. rewrite sectors_length by lia. by rewrite (fs_sect m Hm). }
    assert (zlen (overlay new (fatbuf m)) = FATBUFSIZE m) as Hlen.
    { unfold overlay. rewrite length_app, length_drop. pose proof (ca_length m Hc). nia. }
    eexists. split; [done |]. split; [done |]. split; [| done].
    split; [exact Hlen | apply Forall_app_2; [apply sectors_bytes | apply Forall_drop, (ca_bytes m Hc)] |]. right. cbn [fatbufnum fatbuf with_fatbuf].
    split; [lia |]. intros i Hi Hin. change (table (with_fatbuf _ _ _)) with (table m) in *. change (FATBUFSIZE (with_fatbuf _ _ _)) with (FATBUFSIZE m) in *.
    rewrite table_length in Hin by done. unfold overlay. rewrite lookup_app_l by nia. subst new. unfold table.
    replace (fatlength m) with (b * 6 + (g + (fatlength m - b * 6 - g))) by lia. rewrite !sectors_app by lia.
    assert (zlen (sectors (fat_sect m) (b * 6)) = b * FATBUFSIZE m) as Hl by (rewrite sectors_length by lia; rewrite <- (fs_sect m Hm); lia).
    rewrite lookup_app_r by lia. rewrite (Z.add_comm (fat_sect m)). rewrite lookup_app_l by nia. f_equal. lia.
Qed.

(** Bytes of the buffer are those of the table. *)
Lemma cached_bytes m b o k : cached m -> fatbufnum m = b -> 0 <= b -> 0 <= o -> o + Z.of_nat k <= FATBUFSIZE m ->
  b * FATBUFSIZE m + o + Z.of_nat k <= zlen (table m) ->
  bytes_of (fatbuf m) (Z.to_nat o) k = bytes_of (table m) (Z.to_nat (b * FATBUFSIZE m + o)) k.
Proof.
  intros Hc Hb H0 Ho Hk Ht. destruct (ca_num m Hc) as [Hn | [_ Hn]]; [lia |]. assert (Hl := ca_length m Hc). subst b.
  apply list_eq. intros j. destruct (decide (j < k)%nat) as [Hj | Hj].
  - rewrite !bytes_of_lookup by done. specialize (Hn (o + Z.of_nat j) ltac:(lia) ltac:(lia)).
    replace (Z.to_nat (o + Z.of_nat j)) with (Z.to_nat o + j)%nat in Hn by lia. rewrite Hn. f_equal. nia.
  - rewrite !lookup_ge_None_2; [done | |]; rewrite bytes_of_length; nia.
Qed.

(** ** The entries of the table *)

Lemma table_bytes m : is_bytes (table m).
Proof. apply sectors_bytes. Qed.

Lemma byte_range b i : is_bytes b -> 0 <= byte_at b i < 256.
Proof. intros Hb. unfold byte_at. destruct (b !! i) eqn:Hi; [| done]. by eapply (proj1 (Forall_lookup _ _) Hb). Qed.

(** A word of the buffer whose bytes are in the buffer, of which [n] are in the
    table. *)
Lemma get16_cached m b w : cached m -> 0 <= w -> 2 * w + 2 <= FATBUFSIZE m ->
  get16 (fatbuf m) w = Some (le_load [byte_at (fatbuf m) (Z.to_nat (2 * w)); byte_at (fatbuf m) (S (Z.to_nat (2 * w)))])
  /\ (fatbufnum m = b -> 0 <= b -> forall j, 0 <= j < FATBUFSIZE m -> b * FATBUFSIZE m + j < zlen (table m) ->
      byte_at (fatbuf m) (Z.to_nat j) = byte_at (table m) (Z.to_nat (b * FATBUFSIZE m + j))).
Proof.
  intros Hc Hw Hin. assert (Hl := ca_length m Hc). split.
  - unfold get16. rewrite (proj2 (Z.leb_le 0 w)) by lia. rewrite (proj2 (Z.leb_le _ (zlen _))) by lia. cbn [andb]. by rewrite bytes_of_two by lia.
  - intros Hb H0 j Hj Ht. destruct (ca_num m Hc) as [Hn | [_ Hn]]; [lia |]. subst b. unfold byte_at. by rewrite Hn.
Qed.

(** The four places of a 12-bit entry in three words. *)
Lemma fat12_words x0 x1 y0 y1 : 0 <= x0 < 256 -> 0 <= x1 < 256 -> 0 <= y0 < 256 -> 0 <= y1 < 256 ->
  le_load [x0; x1] & 0xfff = le_load [x0; x1] mod 2 ^ 12
  /\ Z.lor (Z.shiftl (le_load [y0; y1] & 0x00ff) 4) (Z.shiftr (le_load [x0; x1] & 0xf000) 12) = le_load [x1; y0] / 2 ^ 4
  /\ Z.lor (Z.shiftl (le_load [y0; y1] & 0x000f) 8) (Z.shiftr (le_load [x0; x1] & 0xff00) 8) = le_load [x1; y0] mod 2 ^ 12
  /\ Z.shiftr (le_load [x0; x1] & 0xfff0) 4 = le_load [x0; x1] / 2 ^ 4.
Proof.
  intros H1 H2 H3 H4. cbn [le_load]. rewrite !Z.mul_0_r, !Z.add_0_r.
  change 0xfff with (Z.ones 12). change 0x00ff with (Z.ones 8). change 0x000f with (Z.ones 4). change 0xf000 with (Z.shiftl (Z.ones 4) 12).
  change 0xff00 with (Z.shiftl (Z.ones 8) 8). change 0xfff0 with (Z.shiftl (Z.ones 12) 4). rewrite !mask_shiftr, !Z.land_ones by lia.
  rewrite !lor_shifted by (try (apply Z.mod_pos_bound); lia).
  change (2 ^ 12) with 4096. change (2 ^ 8) with 256. change (2 ^ 4) with 16. repeat split; Z.to_euclidean_division_equations; lia.
Qed.

Lemma fat_place_spec m e : fs_ok m -> 0 <= e < 2 ^ 32 -> exists n, 0 < n /\ fat_place m e = Some (e / n, e mod n) /\
  n = (if fatsize m =? 32 then FATBUFSIZE m / 4 else if fatsize m =? 16 then FATBUFSIZE m / 2 else FATBUFSIZE m * 2 / 3).
Proof.
  intros Hm He. destruct (sect_positive m Hm) as [Hs HB]. assert (Hsize := fs_size m Hm). assert (Hev := fs_even m Hm).
  apply Zeven_bool_iff, Zeven_ex in Hev as [h Hh].
  unfold fat_place, FAT32BUFSIZE, FAT16BUFSIZE, FAT12BUFSIZE. rewrite HB, Hh in *.
  assert (forall n, 0 < n -> u32 (e - e / n * n) = e mod n) as Hmod.
  { intros n Hn. rewrite Z.mod_eq by lia. rewrite (Z.mul_comm n). apply wrap_small. assert (0 <= e mod n < n) by (by apply Z.mod_pos_bound).
    rewrite Z.mod_eq in H by lia. pose proof (Z.div_pos e n ltac:(lia) Hn). nia. }
  destruct Hsize as [-> | [-> | ->]]; cbn [mbind option_bind Z.eqb Pos.eqb]; (eexists; split; [| split; [by rewrite Hmod; [| shelve] | done]]);
    Z.to_euclidean_division_equations; lia.
  Unshelve. all: Z.to_euclidean_division_equations; lia.
Qed.

Lemma fat_entry12 m b o : fs_ok m -> cached m -> fatsize m = 12 -> fatbufnum m = b -> 0 <= b -> 0 <= o -> 6 * (o / 4) + 6 <= FATBUFSIZE m ->
  b * FATBUFSIZE m + 3 * o / 2 + 2 <= zlen (table m) ->
  fat_entry m o = Some (let w := le_load (bytes_of (table m) (Z.to_nat (b * FATBUFSIZE m + 3 * o / 2)) 2) in if Z.even o then w mod 2 ^ 12 else w / 2 ^ 4).
Proof.
  intros Hm Hc Hsz Hnum Hb Ho Hg6 Hin. set (g := o / 4) in *. destruct (sect_positive m Hm) as [_ HB]. assert (Hs16 := fs_range m Hm).
  assert (o = 4 * g + o mod 4 /\ 0 <= o mod 4 < 4 /\ 0 <= g) as (Ho4 & Hk & Hg) by (subst g; Z.to_euclidean_division_equations; lia).
  unfold fat_entry. rewrite Hsz. cbn [Z.eqb Pos.eqb]. change (o & 3) with (Z.land o (Z.ones 2)). rewrite Z.land_ones by lia. change (2 ^ 2) with 4.
  rewrite (wrap_small 32) by lia. assert (0 <= b * FATBUFSIZE m) as HbB by nia. set (p := b * FATBUFSIZE m) in *.
  rewrite bytes_of_two by (Z.to_euclidean_division_equations; lia).
  assert (Z.even o = Z.even (o mod 4)) as ->.
  { rewrite Ho4 at 1. replace (4 * g + o mod 4) with (o mod 4 + 2 * (2 * g)) by lia. by rewrite Z.even_add_mul_2. }
  destruct (get16_cached m b (3 * g) Hc) as [W0 B0]; [lia | lia |]. destruct (get16_cached m b (3 * g + 1) Hc) as [W1 _]; [lia | lia |].
  destruct (get16_cached m b (3 * g + 2) Hc) as [W2 _]; [lia | lia |]. specialize (B0 Hnum Hb). fold p in B0.
  assert (forall j, 0 <= j < 6 -> 6 * g + j <= 3 * o / 2 + 1 -> byte_at (fatbuf m) (Z.to_nat (6 * g + j)) = byte_at (table m) (Z.to_nat (p + (6 * g + j)))) as Hbyte by (intros j Hj Hj'; apply B0; lia).
  clear B0. replace (2 * (3 * g)) with (6 * g + 0) in W0 by lia. replace (2 * (3 * g + 1)) with (6 * g + 2) in W1 by lia. replace (2 * (3 * g + 2)) with (6 * g + 4) in W2 by lia.
  rewrite <- Z2Nat.inj_succ in W0, W1, W2 by lia. rewrite <- Z2Nat.inj_succ by (Z.to_euclidean_division_equations; lia). rewrite <- !Z.add_succ_r in *.
  assert (Hw := fun i j k l => fat12_words _ _ _ _ (byte_range _ i (ca_bytes m Hc)) (byte_range _ j (ca_bytes m Hc)) (byte_range _ k (ca_bytes m Hc)) (byte_range _ l (ca_bytes m Hc))).
  assert (forall q j, q = 6 * g + j -> 0 <= j -> j < 5 -> 6 * g + j <= 3 * o / 2 ->
    [byte_at (table m) (Z.to_nat (p + q)); byte_at (table m) (Z.to_nat (Z.succ (p + q)))] = [byte_at (fatbuf m) (Z.to_nat (6 * g + j)); byte_at (fatbuf m) (Z.to_nat (6 * g + Z.succ j))]) as Hpair.
  { intros q j -> H0 H5 Hle. rewrite <- Z.add_succ_r, <- (Z.add_succ_r (6 * g)), <- !Hbyte by lia. done. }
  rewrite Z.add_succ_r.
  assert (o mod 4 = 0 \/ o mod 4 = 1 \/ o mod 4 = 2 \/ o mod 4 = 3) as [E | [E | [E | E]]] by lia; rewrite E in *; cbn [Z.eqb Pos.eqb Z.even].
  - replace (o * 3 / 4) with (3 * g) by (Z.to_euclidean_division_equations; lia). rewrite W0. cbn [mbind option_bind].
    rewrite (Hpair _ 0) by (Z.to_euclidean_division_equations; lia). f_equal. apply (Hw _ _ O O).
  - replace (o * 3 / 4) with (3 * g) by (Z.to_euclidean_division_equations; lia). rewrite W0, W1. cbn [mbind option_bind].
    rewrite (Hpair _ 1) by (Z.to_euclidean_division_equations; lia). f_equal. apply Hw.
  - replace (o * 3 / 4) with (3 * g + 1) by (Z.to_euclidean_division_equations; lia). replace (3 * g + 1 + 1) with (3 * g + 2) by lia. rewrite W1, W2. cbn [mbind option_bind].
    rewrite (Hpair _ 3) by (Z.to_euclidean_division_equations; lia). f_equal. apply Hw.
  - replace (o * 3 / 4) with (3 * g + 2) by (Z.to_euclidean_division_equations; lia). rewrite W2. cbn [mbind option_bind].
    rewrite (Hpair _ 4) by (Z.to_euclidean_division_equations; lia). f_equal. apply (Hw _ _ O O).
Qed.

Lemma fat_entry16 m b o : cached m -> fatsize m = 16 -> fatbufnum m = b -> 0 <= b -> 0 <= o -> 2 * o + 2 <= FATBUFSIZE m ->
  b * FATBUFSIZE m + 2 * o + 2 <= zlen (table m) -> fat_entry m o = Some (le_load (bytes_of (table m) (Z.to_nat (b * FATBUFSIZE m + 2 * o)) 2)).
Proof.
  intros Hc Hsz Hnum Hb Ho H1 H2. unfold fat_entry, get16. rewrite Hsz, (ca_length m Hc). cbn [Z.eqb Pos.eqb].
  rewrite (proj2 (Z.leb_le 0 o)), (proj2 (Z.leb_le _ (FATBUFSIZE m))) by lia. cbn [andb]. by rewrite (cached_bytes m b (2 * o) 2) by (done || lia).
Qed.

Lemma fat_entry32 m b o : cached m -> fatsize m = 32 -> fatbufnum m = b -> 0 <= b -> 0 <= o -> 4 * o + 4 <= FATBUFSIZE m ->
  b * FATBUFSIZE m + 4 * o + 4 <= zlen (table m) -> fat_entry m o = Some (le_load (bytes_of (table m) (Z.to_nat (b * FATBUFSIZE m + 4 * o)) 4)).
Proof.
  intros Hc Hsz Hnum Hb Ho H1 H2. unfold fat_entry, get32. rewrite Hsz, (ca_length m Hc). cbn [Z.eqb Pos.eqb].
  rewrite (proj2 (Z.leb_le 0 o)), (proj2 (Z.leb_le _ (FATBUFSIZE m))) by lia. cbn [andb]. by rewrite (cached_bytes m b (4 * o) 4) by (done || lia).
Qed.

Lemma get_fatent_ok m e : fs_ok m -> cached m -> entry_in (fatsize m) (table m) e -> e < 2 ^ 32 ->
  exists m', get_fatent m e = Some (fat_value (fatsize m) (table m) e, m') /\ same_fs m m' /\ cached m'.
Proof.
  intros Hm Hc [He0 Hin] He. destruct (fat_place_spec m e Hm) as (n & Hn & Hplace & Heq); [lia |]. unfold Fat.get_fatent. rewrite Hplace. cbv iota beta.
  destruct (sect_positive m Hm) as [Hs HB]. assert (Hev := fs_even m Hm). apply Zeven_bool_iff, Zeven_ex in Hev as [h Hh].
  assert (Htl := table_length m Hm). set (b := e / n) in *. set (o := e mod n) in *.
  assert (e = n * b + o /\ 0 <= o < n /\ 0 <= b) as (Hdiv & Ho & Hb).
  { pose proof (Z.div_mod e n). pose proof (Z.mod_pos_bound e n). pose proof (Z.div_pos e n). subst b o. lia. }
  assert (exists k, (if fatsize m =? 32 then 4 * e else if fatsize m =? 16 then 2 * e else 3 * e / 2) = b * FATBUFSIZE m + k /\ 0 <= k
    /\ k = (if fatsize m =? 32 then 4 * o else if fatsize m =? 16 then 2 * o else 3 * o / 2)) as (k & Hk & Hk0 & Hko).
  { destruct (fs_size m Hm) as [Hsz | [Hsz | Hsz]]; rewrite Hsz in *; cbn [Z.eqb Pos.eqb] in *; (eexists; split; [| split; [| reflexivity]]);
      try (Z.to_euclidean_division_equations; nia). }
  destruct (load_fat_ok m b Hm Hc Hb) as (m' & -> & Hsame & Hc' & Hnum).
  { destruct (fs_size m Hm) as [Hsz | [Hsz | Hsz]]; rewrite Hsz in *; cbn [Z.eqb Pos.eqb] in *; nia. }
  cbn [mbind option_bind]. exists m'. split; [| done].
  assert (fatsize m' = fatsize m /\ FATBUFSIZE m' = FATBUFSIZE m /\ table m' = table m) as (Hsz' & HB' & Ht') by (rewrite Hsame; done).
  assert (Hm' := same_fs_ok _ _ Hsame Hm). unfold fat_value.
  destruct (fs_size m Hm) as [Hsz | [Hsz | Hsz]]; rewrite Hsz in *; cbn [Z.eqb Pos.eqb] in *; rewrite Hk in *; subst k.
  - rewrite (fat_entry12 m' b) by (done || rewrite ?HB', ?Ht'; done || lia || (Z.to_euclidean_division_equations; lia)). rewrite HB', Ht'. cbn [mbind option_bind].
    assert (n = 8 * h) as -> by (Z.to_euclidean_division_equations; lia).
    rewrite Hdiv. replace (8 * h * b + o) with (o + 2 * (4 * h * b)) by lia. by rewrite Z.even_add_mul_2.
  - rewrite (fat_entry16 m' b) by (done || rewrite ?HB', ?Ht'; done || lia || (Z.to_euclidean_division_equations; lia)). by rewrite HB', Ht'.
  - rewrite (fat_entry32 m' b) by (done || rewrite ?HB', ?Ht'; done || lia || (Z.to_euclidean_division_equations; lia)). by rewrite HB', Ht'.
Qed.

(** ** Clusters *)

Lemma sectors_one i : sectors i 1 = sector i.
Proof. unfold sectors. rewrite seqZ_one. apply app_nil_r. Qed.

Lemma read_sectors_ok n : forall i, 0 <= i -> i + Z.of_nat n <= count -> read_sectors (Some d) info n i = Some (sectors i (Z.of_nat n)).
Proof.
  pose proof (dk_count _ _ _ _ Hd). induction n as [| n IH]; intros i Hi Hin; [done |]. cbn [read_sectors]. rewrite disk_read_ok by lia. cbn [mbind option_bind].
  rewrite seqZ_one. cbn [fmap list_fmap]. rewrite wrap_small by lia. rewrite IH by lia. cbn [mbind option_bind].
  replace (Z.of_nat (S n)) with (1 + Z.of_nat n) by lia. by rewrite sectors_app, sectors_one by lia.
Qed.

Lemma take_sectors n i a b : 0 <= a <= b -> n <= a * blksz d -> take (Z.to_nat n) (sectors i a) = take (Z.to_nat n) (sectors i b).
Proof.
  intros Hab Hn. replace b with (a + (b - a)) by lia. rewrite sectors_app by lia. rewrite take_app_le; [done |]. pose proof (sectors_length i a ltac:(lia)). lia.
Qed.

(** The first sector of a cluster. *)
Definition cluster_start (m : fsdata) (c : Z) : Z := data_begin m + c * clust_size m.

Lemma get_cluster_ok m c buffer n k : fs_ok m -> 0 < c -> 0 <= cluster_start m c -> 0 <= k -> cluster_start m c + k <= count -> 0 <= n <= k * blksz d ->
  get_cluster (Some d) info m c buffer n = Some (take (Z.to_nat n) (sectors (cluster_start m c) k)).
Proof.
  intros Hm Hc Hs Hk Hin Hn. pose proof (dk_count _ _ _ _ Hd) as Hcount. pose proof (dk_size _ _ _ _ Hd) as Hsz.
  unfold get_cluster. rewrite (proj2 (Z.ltb_lt 0 c)) by done. change (data_begin m + c * clust_size m) with (cluster_start m c). rewrite (fs_sect m Hm). rewrite (wrap_small 32 (cluster_start m c)) by lia.
  set (s := cluster_start m c) in *. set (idx := n / blksz d).
  assert (0 <= idx /\ idx * blksz d <= n < (idx + 1) * blksz d /\ idx <= k) as (Hi0 & Hi & Hik).
  { subst idx. split; [apply Z.div_pos; lia |]. split; [| apply Z.div_le_upper_bound; lia]. pose proof (Z.div_mod n (blksz d)). pose proof (Z.mod_pos_bound n (blksz d)). lia. }
  assert ((if negb (Z.land buffer (ARCH_DMA_MINALIGN - 1) =? 0) then read_sectors (Some d) info (Z.to_nat idx) s
    else blocks ← disk_read s idx; if zlen blocks =? idx then Some (concat blocks) else None) = Some (sectors s idx)) as ->.
  { destruct (negb _); [rewrite read_sectors_ok by lia; by rewrite Z2Nat.id by lia |]. rewrite disk_read_ok by lia. cbn [mbind option_bind].
    rewrite length_fmap, length_seqZ, Z2Nat.id, Z.eqb_refl by lia. done. }
  cbn [mbind option_bind]. destruct (Z.eqb_spec (n - idx * blksz d) 0) as [He | He].
  - rewrite <- (take_sectors n s idx k) by lia. rewrite take_ge; [done |]. pose proof (sectors_length s idx ltac:(lia)). lia.
  - assert (idx < k) by nia. rewrite wrap_small by lia. rewrite disk_read_ok by lia. cbn [mbind option_bind]. rewrite seqZ_one. cbn [fmap list_fmap].
    rewrite <- (take_sectors n s (idx + 1) k) by lia. rewrite sectors_app, sectors_one by lia. pose proof (sectors_length s idx ltac:(lia)).
    rewrite take_app_ge by lia. do 3 f_equal. lia.
Qed.

(** ** Files *)

Notation bpc m := (clust_size m * sect_size m).

Record cluster_ok (m : fsdata) (c : Z) : Prop := {
  cl_check : CHECK_CLUST c (fatsize m) = false;
  cl_entry : entry_in (fatsize m) (table m) c;
  cl_start : 0 <= cluster_start m c;
  cl_end : cluster_start m c + clust_size m <= count }.

Lemma cluster_range m c : cluster_ok m c -> 2 <= c < 2 ^ 32.
Proof.
  intros [Hc _ _ _]. unfold CHECK_CLUST in Hc. apply orb_false_iff in Hc as [H1 H2]. apply Z.leb_gt in H1, H2. destruct (fatsize m =? 32); lia.
Qed.

(** The clusters from [c] on, as the table links them. *)
Inductive chain (m : fsdata) : Z -> list Z -> Prop :=
  | chain_one c : cluster_ok m c -> chain m c [c]
  | chain_next c l : cluster_ok m c -> chain m (fat_value (fatsize m) (table m) c) l -> chain m c (c :: l).

Definition cluster_data (m : fsdata) (c : Z) : list Z := sectors (cluster_start m c) (clust_size m).
Definition file_data (m : fsdata) (l : list Z) : list Z := concat (cluster_data m <$> l).

Lemma same_cluster m m' c : same_fs m m' -> cluster_ok m c -> cluster_ok m' c.
Proof. unfold same_fs. intros -> [H1 H2 H3 H4]. by split. Qed.
Lemma same_chain m m' c l : same_fs m m' -> chain m c l -> chain m' c l.
Proof.
  intros Hs. induction 1 as [c Hc | c l Hc _ IH]; [constructor; by eapply same_cluster |]. constructor; [by eapply same_cluster |].
  unfold same_fs in Hs. by rewrite Hs in IH |- *.
Qed.
Lemma same_data m m' l : same_fs m m' -> file_data m' l = file_data m l.
Proof. unfold same_fs. by intros ->. Qed.

Lemma chain_head m c l : chain m c l -> exists r, l = c :: r.
Proof. intros []; eauto. Qed.

Lemma file_data_length m l : fs_ok m -> 0 <= clust_size m -> zlen (file_data m l) = zlen l * bpc m.
Proof.
  intros Hm Hc. unfold file_data. rewrite (length_concat_same _ (Z.to_nat (bpc m))); [pose proof (sect_positive m Hm); nia |].
  intros i. unfold cluster_data. pose proof (sectors_length (cluster_start m i) (clust_size m) Hc). rewrite (fs_sect m Hm). lia.
Qed.

(** Consecutive clusters are consecutive sectors. *)
Lemma run_data m c n : 0 <= clust_size m -> file_data m (seqZ c (Z.of_nat n)) = sectors (cluster_start m c) (Z.of_nat n * clust_size m).
Proof.
  intros Hc. induction n as [| n IH] using nat_ind; [done |]. replace (Z.of_nat (S n)) with (Z.of_nat n + 1) by lia. unfold file_data in *.
  rewrite seqZ_app, fmap_app, concat_app, IH by lia. rewrite Z.mul_add_distr_r, Z.mul_1_l, sectors_app by lia. f_equal.
  rewrite seqZ_one. cbn [fmap list_fmap concat]. rewrite app_nil_r.
  unfold cluster_data, cluster_start. f_equal. lia.
Qed.

Record ready (m : fsdata) : Prop := { rd_fs : fs_ok m; rd_cached : cached m; rd_clust : 0 < clust_size m }.

Lemma bpc_positive m : ready m -> 0 < bpc m.
Proof. intros [Hm _ Hc]. pose proof (sect_positive m Hm). nia. Qed.

Lemma next_entry m c l : ready m -> chain m c l ->
  exists m', get_fatent m c = Some (fat_value (fatsize m) (table m) c, m') /\ same_fs m m' /\ ready m'.
Proof.
  intros [Hm Hc Hcl] Hch. assert (cluster_ok m c) as Hok by (by destruct Hch). pose proof (cluster_range m c Hok).
  destruct (get_fatent_ok m c Hm Hc (cl_entry _ _ Hok)) as (m' & He & Hs & Hc'); [lia |]. exists m'. split; [done |]. split; [done |].
  split; [by eapply same_fs_ok | done | by rewrite Hs].
Qed.

(** The run of consecutive clusters [e], [e + 1], ..., of which [k] are found. *)
Lemma consecutive_spec m0 filesize : filesize + bpc m0 <= 2 ^ 32 -> forall fuel m k e l, same_fs m0 m -> ready m -> chain m e l -> 0 < k ->
  filesize <= (k - 1 + zlen l) * bpc m0 -> (filesize - k * bpc m0 < Z.of_nat fuel * bpc m0) ->
  exists j r m', consecutive (Some d) info fuel (bpc m0) filesize (k * bpc m0) e m = Some (r, m') /\ same_fs m m' /\ ready m'
    /\ take (S j) l = seqZ e (Z.of_nat (S j)) /\ (j < length l)%nat
    /\ ((r = whole_rest /\ filesize <= (k + Z.of_nat j) * bpc m0)
        \/ (r = next_extent ((k + Z.of_nat j) * bpc m0) (e + Z.of_nat j) /\ (k + Z.of_nat j) * bpc m0 < filesize)).
Proof.
  intros H32. induction fuel as [| fuel IH]; intros m k e l Hs Hm Hch Hk Hl Hfuel; destruct (chain_head _ _ _ Hch) as [t ->]; cbn [consecutive];
    assert (bpc m = bpc m0) as Hb by (by rewrite Hs); pose proof (bpc_positive m Hm) as Hbp; rewrite Hb in Hbp.
  { rewrite (proj2 (Z.ltb_ge _ _)) by lia. exists O, whole_rest, m. rewrite Z.add_0_r. split; [done |]. split; [apply same_fs_refl |]. split; [done |].
    split; [done |]. split; [cbn; lia |]. left. split; [done | lia]. }
  destruct (Z.ltb_spec (k * bpc m0) filesize) as [Hlt | Hge].
  2: { exists O, whole_rest, m. rewrite Z.add_0_r. split; [done |]. split; [apply same_fs_refl |]. split; [done |]. split; [done |]. split; [cbn; lia |]. by left. }
  destruct (next_entry m e _ Hm Hch) as (m1 & -> & Hs1 & Hm1). cbn [mbind option_bind].
  inversion Hch as [c Hc | c l' Hc Hch']; subst; [cbn [length] in Hl; nia |]. clear Hch. set (v := fat_value (fatsize m) (table m) e) in *.
  destruct (chain_head _ _ _ Hch') as [t' ->]. assert (cluster_ok m v) as Hv by (by inversion Hch'). pose proof (cluster_range m v Hv). pose proof (cluster_range m e Hc).
  rewrite wrap_small by lia. destruct (Z.eqb_spec (v - 1) e) as [He | He]; cbn [negb].
  2: { exists O, (next_extent (k * bpc m0) e), m1. rewrite !Z.add_0_r. split; [done |]. split; [done |]. split; [done |]. split; [done |]. split; [cbn; lia |]. by right. }
  replace (fatsize m1) with (fatsize m) by (by rewrite Hs1). rewrite (cl_check _ _ Hv). rewrite wrap_small by nia. replace (k * bpc m0 + bpc m0) with ((k + 1) * bpc m0) by lia.
  destruct (IH m1 (k + 1) v (v :: t')) as (j & r & m2 & -> & Hs2 & Hm2 & Hrun & Hj & Hr);
    [by eapply same_fs_trans | done | by eapply same_chain | lia | cbn [length] in *; lia | lia |].
  exists (S j), r, m2. split; [done |]. split; [by eapply same_fs_trans |]. split; [done |]. split.
  { change (take (S (S j)) (e :: v :: t')) with (e :: take (S j) (v :: t')). rewrite Hrun. replace (Z.of_nat (S (S j))) with (1 + Z.of_nat (S j)) by lia.
    rewrite seqZ_app, seqZ_one by lia. cbn [app]. do 2 f_equal. lia. }
  split; [cbn [length] in *; lia |]. replace (k + Z.of_nat (S j)) with (k + 1 + Z.of_nat j) by lia.
  destruct Hr as [Hr | [-> Hr]]; [by left | right]. split; [f_equal; lia | done].
Qed.

Lemma chain_ok m c l : chain m c l -> Forall (cluster_ok m) l.
Proof. induction 1; by constructor. Qed.

Lemma chain_drop m c l : chain m c l -> forall j x, l !! j = Some x -> chain m x (drop j l).
Proof.
  induction 1 as [c Hc | c l Hc Hch IH]; intros [| j] x Hj; cbn in Hj; try (injection Hj as <-); [by constructor | by destruct j | by constructor |].
  cbn [drop]. by apply IH.
Qed.

Lemma file_data_app m l1 l2 : file_data m (l1 ++ l2) = file_data m l1 ++ file_data m l2.
Proof. unfold file_data. by rewrite fmap_app, concat_app. Qed.

(** What [get_cluster] gives for a part of a run. *)
Lemma run_read m c l j buffer n : ready m -> chain m c l -> take (S j) l = seqZ c (Z.of_nat (S j)) -> (j < length l)%nat -> 0 <= n <= Z.of_nat (S j) * bpc m ->
  get_cluster (Some d) info m c buffer n = Some (take (Z.to_nat n) (file_data m (take (S j) l))).
Proof.
  intros Hm Hch Hrun Hj Hn. assert (Hok := chain_ok _ _ _ Hch). destruct Hm as [Hm _ Hcl].
  assert (cluster_ok m c) as Hc by (destruct (chain_head _ _ _ Hch) as [r ->]; by apply Forall_cons in Hok as [Hok _]).
  assert (cluster_ok m (c + Z.of_nat j)) as Hlast.
  { apply (proj1 (Forall_lookup _ _) Hok j). rewrite <- (lookup_take_lt l (S j)) by lia. rewrite Hrun. apply lookup_seqZ. lia. }
  rewrite Hrun, run_data by lia. pose proof (cluster_range m c Hc). pose proof (cl_end _ _ Hlast) as He. pose proof (cl_start _ _ Hc). unfold cluster_start in *.
  apply get_cluster_ok; [done | lia | done | nia | unfold cluster_start; nia |]. rewrite <- (fs_sect m Hm). nia.
Qed.

Lemma take_run m l j n : fs_ok m -> 0 <= clust_size m -> (j < length l)%nat -> n <= Z.of_nat (S j) * bpc m ->
  take (Z.to_nat n) (file_data m (take (S j) l)) = take (Z.to_nat n) (file_data m l).
Proof.
  intros Hm Hc Hj Hn. rewrite <- (take_drop (S j) l) at 2. rewrite file_data_app, take_app_le; [done |].
  pose proof (file_data_length m (take (S j) l) Hm Hc) as Hl. rewrite length_take_le in Hl by lia. lia.
Qed.

Lemma extents_spec m0 : forall fuel m filesize buffer c l gotsize out, same_fs m0 m -> ready m -> chain m c l -> 0 < filesize ->
  filesize + bpc m0 <= 2 ^ 32 -> filesize <= zlen l * bpc m0 -> filesize < Z.of_nat fuel * bpc m0 ->
  exists m', extents (Some d) info fuel (bpc m0) filesize buffer c gotsize out m =
      Some (s32 (u32 (gotsize + filesize)), out ++ take (Z.to_nat filesize) (file_data m0 l), m')
    /\ same_fs m m' /\ ready m'.
Proof.
  induction fuel as [| fuel IH]; intros m filesize buffer c l gotsize out Hs Hm Hch H0 H32 Hl Hfuel; [pose proof (bpc_positive m Hm); assert (bpc m = bpc m0) by (by rewrite Hs); nia |].
  assert (bpc m = bpc m0) as Hb by (by rewrite Hs). pose proof (bpc_positive m Hm) as Hbp. rewrite Hb in Hbp.
  assert (clust_size m = clust_size m0) as Hcs by (by rewrite Hs).
  cbn [extents]. destruct (consecutive_spec m0 filesize H32 (S fuel) m 1 c l Hs Hm Hch) as (j & r & m1 & He & Hs1 & Hm1 & Hrun & Hj & Hr); [lia | lia | lia |].
  rewrite Z.mul_1_l in He. rewrite He. cbn [mbind option_bind]. assert (same_fs m0 m1) as Hs01 by (by eapply same_fs_trans).
  assert (Hch1 := same_chain _ _ _ _ Hs1 Hch). assert (bpc m1 = bpc m0) as Hb1 by (by rewrite Hs01). replace (1 + Z.of_nat j) with (Z.of_nat (S j)) in Hr by lia.
  rewrite <- (same_data m0 m1 l Hs01). assert (Hf1 := rd_fs m1 Hm1). assert (Hc1 := rd_clust m1 Hm1). destruct Hr as [[-> Hr] | [-> Hr]].
  - rewrite (run_read m1 c l j) by (rewrite ?Hb1; done || lia). rewrite take_run by (rewrite ?Hb1; done || lia). exists m1. split; [done |]. split; done.
  - rewrite (run_read m1 c l j) by (rewrite ?Hb1; done || lia).
    assert (Hfull := file_data_length m1 (take (S j) l) Hf1 ltac:(lia)). rewrite length_take_le in Hfull by lia. rewrite Hb1 in Hfull. rewrite take_ge by lia.
    destruct (lookup_lt_is_Some_2 l j Hj) as [x Hx]. assert (x = c + Z.of_nat j) as ->.
    { rewrite <- (lookup_take_lt l (S j)), Hrun, lookup_seqZ in Hx by lia. lia. }
    assert (Hch2 := chain_drop _ _ _ Hch1 j _ Hx). destruct (next_entry m1 _ _ Hm1 Hch2) as (m2 & -> & Hs2 & Hm2). cbn [mbind option_bind].
    rewrite (drop_S l _ j Hx) in Hch2. assert (length (drop (S j) l) <> 0)%nat as Hne by (rewrite length_drop; nia).
    inversion Hch2 as [? ? | ? ? Hcx Hch3]; subst; [by destruct (drop (S j) l) |]. set (v := fat_value _ _ _) in *.
    assert (cluster_ok m1 v) as Hv by (by inversion Hch3). replace (fatsize m2) with (fatsize m1) by (by rewrite Hs2). rewrite (cl_check _ _ Hv).
    assert (same_fs m0 m2) as Hs02 by (by eapply same_fs_trans).
    destruct (IH m2 (filesize - Z.of_nat (S j) * bpc m0) (u32 (buffer + Z.of_nat (S j) * bpc m0)) v (drop (S j) l) (u32 (gotsize + Z.of_nat (S j) * bpc m0))
      (out ++ file_data m1 (take (S j) l))) as (m3 & He3 & Hs3 & Hm3); [done | done | exact (same_chain _ _ _ _ Hs2 Hch3) | lia | lia | rewrite length_drop; nia | nia |].
    exists m3. rewrite He3. split; [| split; [eapply same_fs_trans; [exact Hs1 |]; by eapply same_fs_trans | done]].
    assert (u32 (u32 (gotsize + Z.of_nat (S j) * bpc m0) + (filesize - Z.of_nat (S j) * bpc m0)) = u32 (gotsize + filesize)) as ->.
    { unfold wrap. rewrite Z.add_mod_idemp_l by done. f_equal. lia. }
    do 3 f_equal. rewrite <- app_assoc. f_equal. rewrite (same_data m0 m1 l Hs01), (same_data m0 m1 (take (S j) l) Hs01). rewrite (same_data m0 m1 (take (S j) l) Hs01) in Hfull.
    rewrite <- (take_drop (S j) l) at 3. rewrite file_data_app, take_app_ge by lia. f_equal. f_equal. lia.
Qed.

Lemma seek_spec m0 pos : pos + bpc m0 < 2 ^ 32 -> forall fuel m k c l, same_fs m0 m -> ready m -> chain m c l -> 1 <= k -> (k - 1) * bpc m0 <= pos ->
  pos < (k - 1 + zlen l) * bpc m0 -> pos - k * bpc m0 < Z.of_nat fuel * bpc m0 ->
  exists i x m', seek (Some d) info fuel (bpc m0) pos (k * bpc m0) c m = Some (Some ((k + Z.of_nat i) * bpc m0, x), m') /\ same_fs m m' /\ ready m'
    /\ l !! i = Some x /\ (k + Z.of_nat i - 1) * bpc m0 <= pos < (k + Z.of_nat i) * bpc m0.
Proof.
  intros H32. induction fuel as [| fuel IH]; intros m k c l Hs Hm Hch Hk Hlo Hl Hfuel; destruct (chain_head _ _ _ Hch) as [t ->]; cbn [seek];
    assert (bpc m = bpc m0) as Hb by (by rewrite Hs); pose proof (bpc_positive m Hm) as Hbp; rewrite Hb in Hbp.
  { rewrite (proj2 (Z.leb_gt _ _)) by lia. exists O, c, m. rewrite Z.add_0_r. split; [done |]. split; [apply same_fs_refl |]. split; [done |]. split; [done | lia]. }
  destruct (Z.leb_spec (k * bpc m0) pos) as [Hle | Hgt].
  2: { exists O, c, m. rewrite Z.add_0_r. split; [done |]. split; [apply same_fs_refl |]. split; [done |]. split; [done | lia]. }
  destruct (next_entry m c _ Hm Hch) as (m1 & -> & Hs1 & Hm1). cbn [mbind option_bind].
  inversion Hch as [? Hc | ? l' Hc Hch']; subst; [cbn [length] in Hl; nia |]. set (v := fat_value (fatsize m) (table m) c) in *.
  assert (cluster_ok m v) as Hv by (by inversion Hch'). replace (fatsize m1) with (fatsize m) by (by rewrite Hs1). rewrite (cl_check _ _ Hv).
  rewrite wrap_small by nia. replace (k * bpc m0 + bpc m0) with ((k + 1) * bpc m0) by lia.
  destruct (IH m1 (k + 1) v t) as (i & x & m2 & He & Hs2 & Hm2 & Hx & Hpos);
    [by eapply same_fs_trans | done | exact (same_chain _ _ _ _ Hs1 Hch') | lia | lia | cbn [length] in *; lia | lia |].
  exists (S i), x, m2. rewrite He. replace (k + Z.of_nat (S i)) with (k + 1 + Z.of_nat i) by lia. split; [done |]. split; [by eapply same_fs_trans |]. done.
Qed.

(** The bytes of a file. *)
Definition contents (m : fsdata) (e : dir_entry) (l : list Z) : list Z := take (Z.to_nat (de_size e)) (file_data m l).

(** The part that is asked for; 0 stands for all the rest. *)
Definition part (pos maxsize : Z) (bytes : list Z) : list Z :=
  let rest := drop (Z.to_nat pos) bytes in if maxsize =? 0 then rest else take (Z.to_nat maxsize) rest.

(** The bytes from [pos] to [F], in the clusters from the one of [pos] on. *)
Lemma part_of_file m l q pos F : ready m -> (q <= length l)%nat -> Z.of_nat q * bpc m <= pos -> pos <= F ->
  take (Z.to_nat (F - pos)) (drop (Z.to_nat pos) (file_data m l)) =
  take (Z.to_nat (F - pos)) (drop (Z.to_nat (pos - Z.of_nat q * bpc m)) (file_data m (drop q l))).
Proof.
  intros [Hm _ Hc] Hq Hpos HF. rewrite <- (take_drop q l) at 1. rewrite file_data_app. pose proof (sect_positive m Hm).
  pose proof (file_data_length m (take q l) Hm ltac:(lia)) as Hl. rewrite length_take_le in Hl by lia. rewrite drop_app_ge by nia. do 2 f_equal. nia.
Qed.

Lemma part_eq (data : list Z) size pos maxsize : 0 <= pos < size -> 0 <= maxsize -> size <= zlen data ->
  let F := if (0 <? maxsize) && (pos + maxsize <? size) then pos + maxsize else size in
  take (Z.to_nat (F - pos)) (drop (Z.to_nat pos) data) = part pos maxsize (take (Z.to_nat size) data)
  /\ zlen (part pos maxsize (take (Z.to_nat size) data)) = F - pos /\ pos < F <= size.
Proof.
  intros Hp Hm Hs F. unfold part. rewrite skipn_firstn_comm. destruct (Z.eqb_spec maxsize 0) as [-> | Hne].
  - subst F. cbn [Z.ltb Z.compare andb]. rewrite length_take, length_drop. split; [f_equal; lia | lia].
  - rewrite take_take. subst F. rewrite (proj2 (Z.ltb_lt 0 maxsize)) by lia. cbn [andb]. rewrite length_take, length_drop.
    destruct (Z.ltb_spec (pos + maxsize) size); (split; [f_equal; lia | lia]).
Qed.

Lemma get_contents_spec m e pos buffer maxsize l : ready m -> chain m (START m e) l -> de_size e <= zlen l * bpc m -> bpc m <= MAX_CLUSTSIZE ->
  0 <= pos -> 0 <= maxsize -> pos + maxsize < 2 ^ 32 -> 0 <= de_size e -> de_size e + bpc m <= 2 ^ 32 ->
  exists m', get_contents (Some d) info m e pos buffer maxsize = Some (s32 (zlen (part pos maxsize (contents m e l))), part pos maxsize (contents m e l), m').
Proof.
  intros Hm Hch Hl Hmax Hp Hms H32 Hsz Hsz32. pose proof (bpc_positive m Hm) as Hbp. assert (Hf := rd_fs m Hm). assert (Hc := rd_clust m Hm).
  assert (Hdl := file_data_length m l Hf ltac:(lia)). unfold get_contents. destruct (Z.leb_spec (de_size e) pos) as [Hge | Hlt].
  { exists m. assert (part pos maxsize (contents m e l) = []) as ->; [| done]. unfold part, contents. rewrite drop_ge by (rewrite length_take; lia). by destruct (_ =? _); rewrite ?take_nil. }
  rewrite (wrap_small 32 (pos + maxsize)) by lia. destruct (part_eq (file_data m l) (de_size e) pos maxsize) as (Hpart & Hplen & HF); [lia | lia | lia |]. fold (contents m e l) in *.
  set (F := if _ && _ then _ else _) in *. set (P := part pos maxsize (contents m e l)) in *. rewrite Hplen, <- Hpart. clear Hpart Hplen P. clearbody F.
  destruct (seek_spec m pos ltac:(lia) (S (Z.to_nat (pos / bpc m))) m 1 (START m e) l (same_fs_refl m) Hm Hch) as (i & x & m1 & He & Hs1 & Hm1 & Hx & Hpos);
    [lia | lia | lia | pose proof (Z.div_pos pos (bpc m)); pose proof (Z.div_mod pos (bpc m)); pose proof (Z.mod_pos_bound pos (bpc m)); nia |].
  rewrite Z.mul_1_l in He. rewrite He. cbn [mbind option_bind]. clear He. assert (Hi := lookup_lt_Some _ _ _ Hx).
  replace ((1 + Z.of_nat i) * bpc m - bpc m) with (Z.of_nat i * bpc m) by lia. set (a := Z.of_nat i * bpc m) in *.
  assert (0 <= a <= pos /\ pos < a + bpc m) as [Ha Hab] by (subst a; nia). rewrite (wrap_small 32 a), (wrap_small 32 (F - a)), (wrap_small 32 (pos - a)) by lia.
  rewrite (part_of_file m l i pos F Hm) by lia. fold a. assert (Hb1 : bpc m1 = bpc m) by (by rewrite Hs1). assert (Hchx := chain_drop _ _ _ (same_chain _ _ _ _ Hs1 Hch) i x Hx).
  assert (F - a <= zlen (drop i l) * bpc m) as HFl by (rewrite length_drop; subst a; nia).
  assert (forall f, 0 <= f -> f < Z.of_nat (S (Z.to_nat (f / bpc m))) * bpc m) as Hfuel.
  { intros f Hf0. pose proof (Z.div_pos f (bpc m)). pose proof (Z.div_mod f (bpc m)). pose proof (Z.mod_pos_bound f (bpc m)). nia. }
  destruct (Z.eqb_spec (pos - a) 0) as [Hz | Hz].
  - destruct (extents_spec m (S (Z.to_nat ((F - a) / bpc m))) m1 (F - a) buffer x (drop i l) 0 [] Hs1 Hm1 Hchx) as (m2 & -> & _ & _); [lia | lia | done | by apply Hfuel; lia |].
    exists m2. replace (F - pos) with (F - a) by lia. rewrite Hz, Z.add_0_l, wrap_small by lia. done.
  - assert (Z.min (F - a) (bpc m) = bpc m \/ Z.min (F - a) (bpc m) = F - a) as Hmin by lia. rewrite (proj2 (Z.ltb_ge _ _)) by lia.
    rewrite (drop_S l x i Hx) in *. rewrite (run_read m1 x (x :: drop (S i) l) 0) by (done || (cbn [length]; lia) || (rewrite Hb1; lia)).
    rewrite firstn_cons, take_0. assert (Hone := file_data_length m [x] Hf ltac:(lia)). rewrite (same_data m m1 _ Hs1). change (x :: drop (S i) l) with ([x] ++ drop (S i) l) at 1. rewrite file_data_app.
    rewrite (wrap_small 32 (Z.min _ _ - _)) by lia. cbn [length] in Hone. unfold bytes_of.
    destruct (Z.eqb_spec (F - a - Z.min (F - a) (bpc m)) 0) as [Hend | Hend].
    + exists m1. assert (Z.min (F - a) (bpc m) = F - a) as -> by lia. replace (F - a - (pos - a)) with (F - pos) by lia. do 3 f_equal.
      rewrite skipn_firstn_comm, take_take, drop_app_le by lia. rewrite take_app_le by (rewrite length_drop; lia). f_equal. lia.
    + assert (Z.min (F - a) (bpc m) = bpc m) as -> by lia. destruct (next_entry m1 x _ Hm1 Hchx) as (m2 & -> & Hs2 & Hm2). cbn [mbind option_bind].
      assert (1 < zlen (x :: drop (S i) l)) as Hmore by nia.
      inversion Hchx as [? ? Hnil Htail | ? ? Hcx Hch2]; subst; [exfalso; rewrite <- Htail in Hmore; cbn [length] in Hmore; lia |]. set (v := fat_value _ _ _) in *.
      assert (cluster_ok m1 v) as Hv by (by inversion Hch2). replace (fatsize m2) with (fatsize m1) by (by rewrite Hs2). rewrite (cl_check _ _ Hv).
      destruct (extents_spec m (S (Z.to_nat ((F - a - bpc m) / bpc m))) m2 (F - a - bpc m) (u32 (buffer + (bpc m - (pos - a)))) v (drop (S i) l) (bpc m - (pos - a))
        (take (Z.to_nat (bpc m - (pos - a))) (drop (Z.to_nat (pos - a)) (take (Z.to_nat (bpc m)) (file_data m [x]))))) as (m3 & -> & _ & _);
        [by eapply same_fs_trans | done | exact (same_chain _ _ _ _ Hs2 Hch2) | lia | lia | cbn [length] in HFl; lia | by apply Hfuel; lia |].
      exists m3. rewrite wrap_small by lia. replace (bpc m - (pos - a) + (F - a - bpc m)) with (F - pos) by lia. do 3 f_equal.
      rewrite (take_ge (file_data m [x])) by lia. rewrite (take_ge (drop _ _)) by (rewrite length_drop; lia). rewrite drop_app_le by lia.
      rewrite take_app_ge by (rewrite length_drop; lia). f_equal. f_equal. rewrite length_drop. lia.
Qed.
End Disk.
