(* ===== verification/FatNames.v ===== *)
(** * Names and directories of FAT file systems

    What the bytes of a directory mean: entries with a short name, entries with a
    long name in the slots in front of them, entries that are not in use, and the
    end.  And how the code reads the slots. *)

From S2P Require Import Prelude Ctype StringLib Vsprintf PartDos Fat FatFacts.

(** ** What the bytes mean *)

Definition entry_byte (e : dir_entry) (i : nat) : Z := nth i e 0.

(** The letters in front of the first one of [stop]. *)
Fixpoint upto (stop : list Z) (s : text) : text :=
  match s with [] => [] | c :: s => if decide (c ∈ stop) then [] else c :: upto stop s end.
Definition lower (s : text) : text := (fun c => if decide (65 <= c <= 90) then c + 32 else c) <$> s.

(** Eight letters and three behind a dot, padded with blanks; the letter 0xe5 at
    the front is stored as 5. *)
Definition short_name (e : dir_entry) : text :=
  let base := upto [0; 32] (take 8 e) in
  let ext := upto [0; 32] (take 3 (drop 8 e)) in
  lower ((match base with c :: r => (if decide (c = 5) then 0xe5 else c) :: r | [] => [] end) ++ match ext with [] => [] | _ => 46 :: ext end).

(** A slot holds 13 letters of 16 bits, of which the lower byte counts; the slot
    with the highest number comes first, and its letters are the last ones. *)
Definition letters (slot : dir_entry) : text := entry_byte slot <$> [1; 3; 5; 7; 9; 14; 16; 18; 20; 22; 24; 28; 30]%nat.
Definition slot_letters (slot : dir_entry) : text := upto [0] (letters slot).
Definition name_letters (slots : list dir_entry) : text := concat (reverse (slot_letters <$> slots)).
Definition long_name (slots : list dir_entry) : text := lower (name_letters slots).

(** The slots of a name, numbered down to 1; the first one is marked with 0x40.
    Only that one has a terminator.  The letters 5 and 0xe5 at the front of a name
    are left out: the code takes them for the marks of short names. *)
Record slots_ok (slots : list dir_entry) : Prop := {
  so_length : (1 <= length slots <= 9)%nat;
  so_slot : forall i slot, slots !! i = Some slot -> entry_byte slot 11 = 0x0f
    /\ entry_byte slot 0 = Z.of_nat (length slots - i) + (if decide (i = O) then 0x40 else 0) /\ (i <> O -> 0 ∉ letters slot);
  so_front : head (name_letters slots) ∉ [Some 5; Some 0xe5] }.

(** Bit 3 of the attributes marks volume labels and slots. *)
Definition labelled (e : dir_entry) : bool := Z.testbit (entry_byte e 11) 3.
Definition regular (e : dir_entry) : Prop := entry_byte e 0 ∉ [0; 0xe5] /\ labelled e = false.
Definition is_first_slot (e : dir_entry) : bool := bool_decide (Z.land (entry_byte e 11) 0x0f = 0x0f) && Z.testbit (entry_byte e 0) 6.

(** A deleted entry, a volume label, or a slot that does not begin a name. *)
Definition unused (e : dir_entry) : Prop := entry_byte e 0 = 0xe5 \/ labelled e = true /\ is_first_slot e = false.

(** [n] slots from the entry [p] on and their entry lie in one window of [w]
    entries; 0 stands for no such limit. *)
Definition fits (w p n : nat) : Prop := w = O \/ (p mod w + n < w)%nat.

(** The files of the entries from the one with the number [p] on, each with its
    long name if it has one; a zero in front of a name is the end. *)
Inductive directory (w : nat) : nat -> list dir_entry -> list (dir_entry * option text) -> Prop :=
  | dir_nil p : directory w p [] []
  | dir_end p e es : entry_byte e 0 = 0 -> labelled e = false -> directory w p (e :: es) []
  | dir_unused p e es l : unused e -> directory w (S p) es l -> directory w p (e :: es) l
  | dir_short p e es l : regular e -> directory w (S p) es l -> directory w p (e :: es) ((e, None) :: l)
  | dir_long p slots e es l : slots_ok slots -> regular e -> fits w p (length slots) -> directory w (p + S (length slots)) es l ->
      directory w p (slots ++ e :: es) ((e, Some (long_name slots)) :: l).

(** The first file with the name. *)
Definition named (name : text) (f : dir_entry * option text) : Prop := name = short_name f.1 \/ f.2 = Some name.
#[global] Instance named_dec name f : Decision (named name f).
Proof. unfold named. apply _. Defined.
Definition find_file (name : text) (l : list (dir_entry * option text)) : option dir_entry := fst <$> find (fun f => bool_decide (named name f)) l.

(** ** The names of the code *)

Lemma byte_at_entry e i : byte_at e i = entry_byte e i.
Proof. unfold byte_at, entry_byte. by rewrite nth_lookup. Qed.

Lemma until_blank_upto s : until_blank s = upto [0; 32] s.
Proof.
  induction s as [| c s IH]; [done |]. cbn [until_blank upto]. rewrite IH.
  destruct (Z.eqb_spec c 0) as [-> | H1]; [done |]. destruct (Z.eqb_spec c 32) as [-> | H2]; [done |]. cbn [orb].
  rewrite decide_False; [done |]. rewrite !elem_of_cons, elem_of_nil. tauto.
Qed.

Lemma until_zero_upto s : (until_zero s).1 = upto [0] s.
Proof.
  induction s as [| c s IH]; [done |]. cbn [until_zero upto]. destruct (Z.eqb_spec c 0) as [-> | H1]; [done |].
  rewrite decide_False by (rewrite elem_of_cons, elem_of_nil; tauto). destruct (until_zero s). cbn [fst] in *. by rewrite IH.
Qed.

Lemma until_zero_found s : (until_zero s).2 = bool_decide (0 ∈ s).
Proof.
  induction s as [| c s IH]; [done |]. cbn [until_zero]. destruct (Z.eqb_spec c 0) as [-> | H1].
  - symmetry. apply bool_decide_eq_true_2. by left.
  - destruct (until_zero s). cbn [snd] in *. rewrite IH. apply bool_decide_ext. rewrite elem_of_cons. intuition congruence.
Qed.

Lemma downcase_lower s : downcase s = lower s.
Proof.
  unfold downcase, lower. apply list_fmap_ext. intros i c _. unfold TOLOWER. destruct (Z.leb_spec 65 c), (Z.leb_spec c 90); cbn [andb]; case_decide; done || lia.
Qed.

Lemma get_name_short e : entry_byte e 0 <> 0xe5 -> get_name e = short_name e.
Proof.
  intros H0. unfold get_name, short_name. rewrite downcase_lower, !until_blank_upto. f_equal. unfold bytes_of. rewrite drop_0, byte_at_entry.
  set (ext := upto [0; 32] (take 3 (drop 8 e))).
  assert ((if negb (entry_byte e 8 =? 0) && negb (entry_byte e 8 =? 32) then upto [0; 32] (take 8 e) ++ 46 :: ext else upto [0; 32] (take 8 e)) =
    upto [0; 32] (take 8 e) ++ match ext with [] => [] | _ => 46 :: ext end) as ->.
  { assert (entry_byte e 8 = default 0 (head (drop 8 e))) as -> by (unfold entry_byte; rewrite nth_lookup, head_lookup, lookup_drop; done).
    subst ext. destruct (drop 8 e) as [| c r]; [cbn; by rewrite app_nil_r |]. cbn [head default take]. unfold id. cbn [upto].
    destruct (Z.eqb_spec c 0) as [-> | H1]; [cbn; by rewrite app_nil_r |]. destruct (Z.eqb_spec c 32) as [-> | H2]; [cbn; by rewrite app_nil_r |]. cbn [negb andb].
    by rewrite decide_False by (rewrite !elem_of_cons, elem_of_nil; tauto). }
  destruct e as [| c e]; [done |]. cbn [entry_byte nth] in H0. unfold entry_byte in H0. cbn [nth] in H0. cbn [take upto]. destruct (decide (c ∈ [0; 32])) as [Hin |].
  - cbn [app]. destruct ext; [done |]. cbn [first_letter]. done.
  - cbn [app first_letter]. rewrite (proj2 (Z.eqb_neq c DELETED_FLAG)) by done. change aRING with 5. destruct (Z.eqb_spec c 5) as [-> | H5].
    + by rewrite decide_True.
    + by rewrite decide_False.
Qed.

Lemma slot2str_letters slot : slot2str slot = (slot_letters slot, bool_decide (0 ∈ letters slot)).
Proof.
  unfold slot2str, slot_letters. change slot_places with [1; 3; 5; 7; 9; 14; 16; 18; 20; 22; 24; 28; 30]%nat.
  assert (byte_at slot <$> [1; 3; 5; 7; 9; 14; 16; 18; 20; 22; 24; 28; 30]%nat = letters slot) as -> by (apply list_fmap_ext; intros; apply byte_at_entry).
  rewrite <- until_zero_upto, <- until_zero_found. by destruct (until_zero _).
Qed.

Lemma has_bit e k : 0 <= k -> has e (2 ^ k) = Z.testbit (entry_byte e 11) k.
Proof.
  intros Hk. unfold has, attr. rewrite byte_at_entry. apply eq_true_iff_eq. rewrite negb_true_iff, Z.eqb_neq. split; intros H.
  - destruct (Z.testbit (entry_byte e 11) k) eqn:Hb; [done |]. destruct H. apply Z.bits_inj'. intros i Hi. rewrite Z.land_spec, Z.bits_0, Z.pow2_bits_eqb by lia.
    destruct (Z.eqb_spec k i) as [<- |]; [by rewrite Hb | apply andb_false_r].
  - intros H0. apply (f_equal (fun z => Z.testbit z k)) in H0. rewrite Z.land_spec, H, Z.bits_0, Z.pow2_bits_true in H0 by lia. done.
Qed.
Lemma has_volume e : has e ATTR_VOLUME = labelled e.
Proof. by apply (has_bit e 3). Qed.
Lemma has_directory e : has e ATTR_DIR = Z.testbit (entry_byte e 11) 4.
Proof. by apply (has_bit e 4). Qed.

Lemma first_slot_code e : (Z.land (attr e) ATTR_VFAT =? ATTR_VFAT) && is_last_slot e = is_first_slot e.
Proof.
  unfold is_first_slot, attr, is_last_slot. rewrite !byte_at_entry. change ATTR_VFAT with 0x0f. f_equal.
  - destruct (Z.eqb_spec (Z.land (entry_byte e 11) 15) 15); [by rewrite bool_decide_eq_true_2 | by rewrite bool_decide_eq_false_2].
  - change LAST_LONG_ENTRY_MASK with (2 ^ 6). apply eq_true_iff_eq. rewrite negb_true_iff, Z.eqb_neq. split; intros H.
    + destruct (Z.testbit (entry_byte e 0) 6) eqn:Hb; [done |]. destruct H. apply Z.bits_inj'. intros i Hi. rewrite Z.land_spec, Z.bits_0.
      rewrite Z.pow2_bits_eqb by lia. destruct (Z.eqb_spec 6 i) as [<- |]; [by rewrite Hb | apply andb_false_r].
    + intros H0. apply (f_equal (fun z => Z.testbit z 6)) in H0. rewrite Z.land_spec, H, Z.bits_0 in H0. done.
Qed.

(** ** The slots of a name *)

Lemma slot_numbers slots i slot : slots_ok slots -> slots !! i = Some slot ->
  slot_number slot = Z.of_nat (length slots - i) /\ is_first_slot slot = bool_decide (i = O) /\ labelled slot = true /\ entry_byte slot 0 <> 0xe5
    /\ is_last_slot slot = bool_decide (i = O).
Proof.
  intros [Hlen Hs _] Hi. destruct (Hs i slot Hi) as (H11 & H0 & _). apply lookup_lt_Some in Hi as Hlt.
  rewrite <- first_slot_code. unfold is_first_slot, labelled, slot_number, is_last_slot, attr. rewrite !byte_at_entry, H11, H0.
  assert (exists n, (length slots - i = n /\ 1 <= n <= 9)%nat) as (n & -> & Hn) by (exists (length slots - i)%nat; lia).
  destruct (decide (i = O)) as [-> |]; [rewrite (bool_decide_eq_true_2 (O = O)) by done | rewrite (bool_decide_eq_false_2 (i = O)) by done];
    do 10 (destruct n as [| n]; [lia || (vm_compute; split_and!; congruence) |]); lia.
Qed.

Lemma down_slots_inside N block : forall slots k, (forall i slot, slots !! i = Some slot -> entry_at block (k + i) = slot) ->
  (forall i slot, slots !! i = Some slot -> slot_number slot = Z.of_nat (length slots - i)) -> (k + length slots < N)%nat ->
  down_slots (32 * Z.of_nat N) block k (length slots) = Some (k + length slots, O)%nat.
Proof.
  induction slots as [| x slots IH]; intros k He Hnum Hk; cbn [length down_slots] in *; rewrite (proj2 (Z.leb_gt _ _)) by lia.
  { by rewrite Nat.add_0_r. }
  pose proof (He O x eq_refl) as Hx. rewrite Nat.add_0_r in Hx. rewrite Hx, (Hnum O x eq_refl), Z.eqb_refl, IH; [f_equal; f_equal; lia | | | lia]; intros i slot Hi;
    [rewrite Nat.add_succ_comm; by apply He | by apply (Hnum (S i))].
Qed.

Lemma down_slots_across N block s2 : forall s1 k, (forall i slot, s1 !! i = Some slot -> entry_at block (k + i) = slot) ->
  (forall i slot, (s1 ++ s2) !! i = Some slot -> slot_number slot = Z.of_nat (length (s1 ++ s2) - i)) -> (k + length s1 = N)%nat ->
  down_slots (32 * Z.of_nat N) block k (length (s1 ++ s2)) = Some (N, length s2).
Proof.
  induction s1 as [| x s1 IH]; intros k He Hnum Hk; cbn [app] in *.
  { assert (k = N) as -> by (cbn [length] in Hk; lia). destruct (length s2); cbn [down_slots]; by rewrite (proj2 (Z.leb_le _ _)) by lia. }
  cbn [length down_slots] in *. rewrite (proj2 (Z.leb_gt _ _)) by lia. pose proof (He O x eq_refl) as Hx. rewrite Nat.add_0_r in Hx.
  rewrite Hx, (Hnum O x eq_refl), Z.eqb_refl, IH; [done | | | lia]; intros i slot Hi;
    [rewrite Nat.add_succ_comm; by apply He | by apply (Hnum (S i))].
Qed.

Lemma more_slots_spec block : forall slots k, (forall i slot, slots !! i = Some slot -> entry_at block (k + i) = slot) ->
  (forall i slot, slots !! i = Some slot -> slot_number slot = Z.of_nat (length slots - i)) -> more_slots block k (length slots) = Some (k + length slots)%nat.
Proof.
  induction slots as [| x slots IH]; intros k He Hnum; cbn [length more_slots]; [by rewrite Nat.add_0_r |].
  pose proof (He O x eq_refl) as Hx. rewrite Nat.add_0_r in Hx. rewrite Hx, (Hnum O x eq_refl), Z.eqb_refl, IH; [f_equal; lia | |]; intros i slot Hi;
    [rewrite Nat.add_succ_comm; by apply He | by apply (Hnum (S i))].
Qed.

Lemma names_before_spec block slots : (forall i slot, slots !! i = Some slot -> entry_at block i = slot) ->
  names_before block (length slots) = name_letters slots.
Proof.
  induction slots as [| x slots IH] using rev_ind; intros He; [done |]. rewrite length_app, Nat.add_1_r. cbn [names_before].
  rewrite (He (length slots) x) by (by rewrite lookup_app_r, Nat.sub_diag). rewrite slot2str_letters. cbn [fst].
  rewrite IH by (intros i slot Hi; apply He; by apply lookup_app_l_Some). unfold name_letters. rewrite fmap_app, reverse_app. done.
Qed.

(** Back to the first slot of the name. *)
Lemma names_back_spec block x : is_last_slot x = true -> forall slots k, entry_at block k = x ->
  (forall i slot, slots !! i = Some slot -> entry_at block (S k + i) = slot /\ is_last_slot slot = false /\ 0 ∉ letters slot) ->
  names_back block (S k + length slots) = Some (name_letters (x :: slots)).
Proof.
  intros Hx. induction slots as [| y slots IH] using rev_ind; intros k Hk He.
  { cbn [length]. rewrite Nat.add_0_r. cbn [names_back]. rewrite Hk, slot2str_letters, Hx, orb_true_r. unfold name_letters. cbn. by rewrite app_nil_r. }
  destruct (He (length slots) y) as (Hy & Hl & H0); [by rewrite lookup_app_r, Nat.sub_diag |].
  rewrite length_app. cbn [length]. rewrite Nat.add_1_r, Nat.add_succ_r. cbn [names_back]. change (S k + length slots)%nat with (S (k + length slots)) in Hy. cbn [Nat.add]. rewrite Hy, slot2str_letters, Hl.
  rewrite bool_decide_eq_false_2 by done. cbn [orb]. change (S (k + length slots)) with (S k + length slots)%nat.
  rewrite IH by (done || (intros i slot Hi; apply He; by apply lookup_app_l_Some)). cbn [mbind option_bind]. unfold name_letters.
  change (x :: slots ++ [y]) with ((x :: slots) ++ [y]). rewrite fmap_app, reverse_app. done.
Qed.

Lemma slots_head slots : slots_ok slots -> exists x tl, slots = x :: tl /\ is_last_slot x = true /\ is_first_slot x = true /\ slot_number x = Z.of_nat (length slots).
Proof.
  intros Hs. destruct slots as [| x tl]; [destruct Hs as [H _ _]; cbn in H; lia |]. exists x, tl. split; [done |].
  destruct (slot_numbers _ O x Hs eq_refl) as (Hn & Hf & _ & _ & Hl). rewrite Nat.sub_0_r in Hn. done.
Qed.

Lemma slots_tail x tl i slot : slots_ok (x :: tl) -> tl !! i = Some slot -> is_first_slot slot = false /\ is_last_slot slot = false /\ labelled slot = true
  /\ entry_byte slot 0 <> 0xe5 /\ 0 ∉ letters slot.
Proof.
  intros Hs Hi. destruct (slot_numbers _ (S i) slot Hs Hi) as (_ & Hf & Hlb & H0 & Hl). destruct (so_slot _ Hs (S i) slot Hi) as (_ & _ & Hz). split_and!; try done. by apply Hz.
Qed.

Lemma slot_letters_length slot : (length (slot_letters slot) <= 13)%nat.
Proof.
  unfold slot_letters. assert (forall s : text, (length (upto [0%Z] s) <= length s)%nat) as H; [| apply H].
  induction s as [| c s IH]; [done |]. cbn [upto]. case_decide; cbn [length]; lia.
Qed.

Lemma name_letters_length slots : (length (name_letters slots) <= 13 * length slots)%nat.
Proof.
  unfold name_letters. induction slots as [| x slots IH]; [done |]. rewrite fmap_cons, reverse_cons, concat_app, length_app. cbn [concat length].
  rewrite app_nil_r. pose proof (slot_letters_length x). cbn [length]. lia.
Qed.

(** The name that [get_vfatname] makes of the letters. *)
Lemma long_name_code slots : slots_ok slots -> (VFAT_MAXLEN_BYTES - 1 <? zlen (name_letters slots)) = false /\ downcase (first_letter (name_letters slots)) = long_name slots.
Proof.
  intros [Hlen _ Hf]. pose proof (name_letters_length slots). split; [apply Z.ltb_ge; unfold VFAT_MAXLEN_BYTES; lia |].
  rewrite downcase_lower. unfold long_name. f_equal. destruct (name_letters slots) as [| c r]; [done |]. cbn [head first_letter] in *.
  destruct (Z.eqb_spec c DELETED_FLAG) as [-> |]; [destruct Hf; right; left |]. destruct (Z.eqb_spec c aRING) as [-> |]; [destruct Hf; left | done].
Qed.

Section Slots.
Context (cur_dev : option block_dev_desc) (info : disk_partition).

(** A name whose slots and entry are in the block. *)
Lemma get_vfatname_inside m c block k slots e N : slots_ok slots -> (forall i x, (slots ++ [e]) !! i = Some x -> entry_at block (k + i) = x) ->
  sect_size m * (if c =? 0 then PREFETCH_BLOCKS else clust_size m) = 32 * Z.of_nat N -> (k + length slots < N)%nat ->
  get_vfatname cur_dev info m c block k = Some (Some (put_entry block k e, long_name slots), m).
Proof.
  intros Hs He HN Hk. destruct (slots_head slots Hs) as (x & tl & -> & Hl & _ & Hn). pose proof (so_length _ Hs) as Hlen.
  pose proof (He O x eq_refl) as Hx. rewrite Nat.add_0_r in Hx. unfold get_vfatname. rewrite Hx, Hn, HN. change VFAT_MAXSEQ with 9. rewrite (proj2 (Z.ltb_ge 9 _)) by lia.
  rewrite Nat2Z.id, down_slots_inside; [| intros i slot Hi; apply He; by apply lookup_app_l_Some | intros i slot Hi; by apply (slot_numbers _ _ _ Hs) | done].
  rewrite (proj2 (Z.leb_gt _ _)) by lia. cbn [mbind option_bind]. rewrite (He (length (x :: tl)) e) by (by rewrite lookup_app_r, Nat.sub_diag).
  cbn [length]. replace (k + S (length tl))%nat with (S k + length tl)%nat by lia.
  rewrite (names_back_spec block x Hl tl k Hx).
  - cbn [mbind option_bind app]. destruct (long_name_code _ Hs) as [-> ->]. done.
  - intros i slot Hi. destruct (slots_tail _ _ _ _ Hs Hi) as (_ & H1 & _ & _ & H2). split_and!; [| done | done].
    replace (S k + i)%nat with (k + S i)%nat by lia. apply He. by apply lookup_app_l_Some.
Qed.

(** A name that goes on in the next cluster. *)
Lemma get_vfatname_across m c block k s1 s2 e N v m1 next : slots_ok (s1 ++ s2) -> s1 <> [] -> (forall i x, s1 !! i = Some x -> entry_at block (k + i) = x) ->
  sect_size m * clust_size m = 32 * Z.of_nat N -> (k + length s1 = N)%nat -> c <> 0 ->
  get_fatent cur_dev info m c = Some (v, m1) -> CHECK_CLUST v (fatsize m1) = false -> clust_size m1 * sect_size m1 <= MAX_CLUSTSIZE ->
  get_cluster cur_dev info m1 v 0 (clust_size m1 * sect_size m1) = Some next -> (forall i x, (s2 ++ [e]) !! i = Some x -> entry_at next i = x) ->
  get_vfatname cur_dev info m c block k = Some (Some (put_entry block k e, long_name (s1 ++ s2)), m1).
Proof.
  intros Hs Hne He HN Hk Hc Hfat Hck Hmax Hcl Hnext. destruct s1 as [| x tl]; [done |]. destruct (slots_head _ Hs) as (x' & tl' & [= <- <-] & Hl & _ & Hn). pose proof (so_length _ Hs) as Hlen.
  pose proof (He O x eq_refl) as Hx. rewrite Nat.add_0_r in Hx. unfold get_vfatname. rewrite Hx, Hn, (proj2 (Z.eqb_neq c 0)), HN by done. change VFAT_MAXSEQ with 9. rewrite (proj2 (Z.ltb_ge 9 _)) by (cbn [app] in *; lia).
  rewrite Nat2Z.id. change (x :: tl ++ s2) with ((x :: tl) ++ s2). rewrite (down_slots_across N block s2 (x :: tl) k He) by (done || (intros i slot Hi; by apply (slot_numbers _ _ _ Hs))).
  rewrite (proj2 (Z.leb_le _ _)) by lia. rewrite Hfat. cbn [mbind option_bind]. rewrite Hck, (proj2 (Z.ltb_ge _ _)) by done. rewrite Hcl.
  rewrite (more_slots_spec next s2 0); [| intros i slot Hi; apply Hnext; by apply lookup_app_l_Some |].
  2: { intros i slot Hi. destruct (slot_numbers _ (length (x :: tl) + i) slot Hs) as [-> _]; [rewrite lookup_app_r by lia; by rewrite Nat.add_comm, Nat.add_sub |]. rewrite length_app. f_equal. lia. }
  cbn [mbind option_bind Nat.add]. rewrite (Hnext (length s2) e) by (by rewrite lookup_app_r, Nat.sub_diag).
  rewrite names_before_spec by (intros i slot Hi; apply Hnext; by apply lookup_app_l_Some). cbn [length] in Hk. replace N with (S k + length tl)%nat by lia.
  rewrite (names_back_spec block x Hl tl k Hx).
  - cbn [mbind option_bind]. assert (name_letters s2 ++ name_letters (x :: tl) = name_letters ((x :: tl) ++ s2)) as ->.
    { unfold name_letters. by rewrite fmap_app, reverse_app, concat_app. }
    destruct (long_name_code _ Hs) as [-> ->]. done.
  - intros i slot Hi. destruct (slots_tail x (tl ++ s2) i slot Hs) as (_ & H1 & _ & _ & H2); [by apply lookup_app_l_Some |]. split_and!; [| done | done].
    replace (S k + i)%nat with (k + S i)%nat by lia. apply He. done.
Qed.
End Slots.

(** ** The search, entry by entry *)

Definition deleted (e : dir_entry) : bool := entry_byte e 0 =? 0xe5.
Definition begins (e : dir_entry) : bool := negb (deleted e) && labelled e && is_first_slot e.
Definition ends_dir (e : dir_entry) : bool := negb (deleted e) && negb (labelled e) && (entry_byte e 0 =? 0).

(** What the first entry decides. *)
Definition look_step (name : text) (es : list dir_entry) : outcome :=
  match es with
  | [] => go_on
  | x :: _ =>
      if begins x then
        let n := Z.to_nat (slot_number x) in
        match drop n es with
        | e :: _ => if decide (name = short_name e \/ name = long_name (take n es)) then hit e else go_on
        | [] => go_on
        end
      else if deleted x || labelled x then go_on
      else if entry_byte x 0 =? 0 then the_end
      else if decide (name = short_name x) then hit x else go_on
  end.

Fixpoint look (name : text) (es : list dir_entry) : outcome :=
  match es with [] => go_on | x :: es' => match look_step name (x :: es') with go_on => look name es' | r => r end end.

(** Every first slot in front of the end begins a whole name. *)
Fixpoint good (w p : nat) (es : list dir_entry) : Prop :=
  match es with
  | [] => True
  | x :: es' =>
      if ends_dir x then True
      else (begins x = true -> exists slots e rest, x :: es' = slots ++ e :: rest /\ slots_ok slots /\ regular e /\ fits w p (length slots)) /\ good w (S p) es'
  end.

Lemma regular_flags e : regular e -> deleted e = false /\ labelled e = false /\ begins e = false /\ ends_dir e = false /\ (entry_byte e 0 =? 0) = false.
Proof.
  intros [H0 Hl]. rewrite !elem_of_cons, elem_of_nil in H0. assert (deleted e = false) as Hd by (apply Z.eqb_neq; tauto).
  assert ((entry_byte e 0 =? 0) = false) as Hz by (apply Z.eqb_neq; tauto). unfold begins, ends_dir. by rewrite Hd, Hl, Hz.
Qed.

Lemma unused_flags e : unused e -> begins e = false /\ ends_dir e = false /\ deleted e || labelled e = true.
Proof.
  intros [H | [Hl Hf]]; unfold begins, ends_dir.
  - assert (deleted e = true) as -> by (by apply Z.eqb_eq). done.
  - rewrite Hl, Hf, !andb_false_r, orb_true_r. done.
Qed.

Lemma look_unused name e es : unused e -> look name (e :: es) = look name es.
Proof. intros Hu. destruct (unused_flags e Hu) as (Hb & _ & Hd). cbn [look look_step]. by rewrite Hb, Hd. Qed.

Lemma look_regular name e es : regular e -> look name (e :: es) = if decide (name = short_name e) then hit e else look name es.
Proof. intros Hr. destruct (regular_flags e Hr) as (Hd & Hl & Hb & _ & Hz). cbn [look look_step]. rewrite Hb, Hd, Hl, Hz. cbn [orb]. by case_decide. Qed.

Lemma look_slots name x tl e es : slots_ok (x :: tl) -> regular e -> look name ((x :: tl) ++ e :: es) =
  if decide (name = short_name e \/ name = long_name (x :: tl)) then hit e else look name es.
Proof.
  intros Hs Hr. destruct (slots_head _ Hs) as (x' & tl' & [= <- <-] & _ & Hf & Hn). destruct (slot_numbers _ O x Hs eq_refl) as (_ & _ & Hl & H0 & _).
  assert (begins x = true) as Hb by (unfold begins, deleted; by rewrite Hl, Hf, (proj2 (Z.eqb_neq _ 0xe5))).
  cbn [app look look_step]. rewrite Hb, Hn, Nat2Z.id. change (x :: tl ++ e :: es) with ((x :: tl) ++ e :: es). rewrite drop_app_length, take_app_length.
  destruct (decide (name = short_name e \/ name = long_name (x :: tl))) as [| Hno]; [done |].
  assert (Forall unused tl) as Hu.
  { apply Forall_lookup. intros i slot Hi. right. by destruct (slots_tail _ _ _ _ Hs Hi) as (? & _ & ? & _). }
  assert (name <> short_name e) as Hne by tauto. clear - Hu Hr Hne.
  induction Hu as [| y tl Hy _ IH]; cbn [app]; [| by rewrite look_unused by done]. rewrite look_regular by done. by rewrite decide_False by done.
Qed.

Lemma good_cons w p e es : begins e = false -> good w (S p) es -> good w p (e :: es).
Proof. intros Hb Hg. cbn [good]. rewrite Hb. by destruct (ends_dir e). Qed.

Lemma good_slots w p x tl e es : slots_ok (x :: tl) -> regular e -> fits w p (length (x :: tl)) -> good w (p + S (length (x :: tl))) es ->
  good w p ((x :: tl) ++ e :: es).
Proof.
  intros Hs Hr Hfit Hg. assert (good w (S p) (tl ++ e :: es)) as Hrest.
  { assert (Forall unused tl) as Hu.
    { apply Forall_lookup. intros i slot Hi. right. by destruct (slots_tail _ _ _ _ Hs Hi) as (? & _ & ? & _). }
    cbn [length] in Hg. replace (p + S (S (length tl)))%nat with (S p + S (length tl))%nat in Hg by lia. revert Hg. generalize (S p). clear - Hu Hr.
    induction Hu as [| y tl Hy _ IH]; intros q Hg; cbn [app length] in *.
    - apply good_cons; [by apply regular_flags |]. by replace (S q) with (q + 1)%nat by lia.
    - apply good_cons; [by apply unused_flags |]. apply IH. by replace (S q + S (length tl))%nat with (q + S (S (length tl)))%nat by lia. }
  change ((x :: tl) ++ e :: es) with (x :: (tl ++ e :: es)) at 1. cbn [good]. destruct (ends_dir x); [done |]. split; [| done]. intros _. by exists (x :: tl), e, es.
Qed.

Lemma directory_good w p es l : directory w p es l -> good w p es.
Proof.
  induction 1 as [| p e es H0 Hl | p e es l Hu _ IH | p e es l Hr _ IH | p slots e es l Hs Hr Hfit _ IH]; [done | | | |].
  - cbn [good]. assert (ends_dir e = true) as -> by (unfold ends_dir, deleted; by rewrite H0, Hl). done.
  - apply good_cons; [by apply unused_flags | done].
  - apply good_cons; [by apply regular_flags | done].
  - destruct slots as [| x tl]; [destruct Hs as [H _ _]; cbn in H; lia |]. by apply good_slots.
Qed.

Lemma directory_look w p es l name f : directory w p es l -> find_file name l = Some f -> look name es = hit f.
Proof.
  induction 1 as [| p e es H0 Hl | p e es l Hu _ IH | p e es l Hr _ IH | p slots e es l Hs Hr Hfit _ IH]; unfold find_file; cbn [find fmap option_fmap option_map]; try done.
  - intros Hf. rewrite look_unused by done. by apply IH.
  - rewrite look_regular by done. case_bool_decide as Hn; unfold named in Hn; cbn [fst snd] in Hn.
    + intros [= <-]. destruct Hn as [Hn | Hn]; [by rewrite decide_True | done].
    + intros Hf. rewrite decide_False by tauto. by apply IH.
  - destruct slots as [| x tl]; [destruct Hs as [H _ _]; cbn in H; lia |]. rewrite look_slots by done.
    case_bool_decide as Hn; unfold named in Hn; cbn [fst snd] in Hn.
    + intros [= <-]. rewrite decide_True; [done |]. destruct Hn as [Hn | [= Hn]]; auto.
    + intros Hf. rewrite decide_False; [by apply IH |]. intros [? | ->]; tauto.
Qed.
