(* ===== verification/FatDir.v ===== *)
(** * Finding and reading files of a FAT file system (fs/fat/fat.c)

    The entries of a block, of a directory in clusters and of the root directory
    are searched one after the other, the slots of long names included; a file of
    a FAT12 or FAT16 file system is read from the boot sector on. *)

From S2P Require Import Prelude Ctype StringLib Vsprintf PartDos Fat FatFacts FatNames.

(** ** Directories as lists of entries *)

(** An entry that is not the first slot of a long name. *)
Definition plain (e : dir_entry) : Prop := ((Z.land (attr e) ATTR_VFAT =? ATTR_VFAT) && is_last_slot e) = false.

(** The first entry of the name in front of the end: deleted entries and volume
    labels are skipped, and a name that starts with a zero is the end. *)
Fixpoint find_entry (name : text) (es : list dir_entry) : outcome :=
  match es with
  | [] => go_on
  | e :: es =>
      if (byte_at e 0 =? DELETED_FLAG) || has e ATTR_VOLUME then find_entry name es
      else if byte_at e 0 =? 0 then the_end
      else if bool_decide (name = get_name e) then hit e else find_entry name es
  end.

Definition entries (b : list Z) : list dir_entry := entry_at b <$> seq 0 (length b / 32).

Lemma find_entry_app name es1 es2 : find_entry name (es1 ++ es2) = match find_entry name es1 with go_on => find_entry name es2 | r => r end.
Proof. induction es1 as [| e es1 IH]; [done |]. cbn [find_entry app]. destruct (_ || _); [done |]. destruct (_ =? _); [done |]. by destruct (bool_decide _). Qed.

Lemma entry_at_app_l b1 b2 k : (32 * k + 32 <= length b1)%nat -> entry_at (b1 ++ b2) k = entry_at b1 k.
Proof. intros H. unfold entry_at, bytes_of. rewrite drop_app_le by lia. rewrite take_app_le; [done |]. rewrite length_drop. lia. Qed.

Lemma entry_at_app_r b1 b2 n k : length b1 = (32 * n)%nat -> entry_at (b1 ++ b2) (n + k) = entry_at b2 k.
Proof. intros H. unfold entry_at, bytes_of. rewrite drop_app_ge by lia. do 2 f_equal. lia. Qed.

Lemma fmap_seq_ext {A} (f g : nat -> A) n i j : (forall k, (k < n)%nat -> f (i + k)%nat = g (j + k)%nat) -> f <$> seq i n = g <$> seq j n.
Proof.
  revert i j. induction n as [| n IH]; intros i j H; [done |]. cbn [seq]. rewrite !fmap_cons. f_equal.
  - specialize (H O ltac:(lia)). by rewrite !Nat.add_0_r in H.
  - apply IH. intros k Hk. specialize (H (S k) ltac:(lia)). by rewrite <- !Nat.add_succ_comm in H.
Qed.

Lemma entries_app b1 b2 n : length b1 = (32 * n)%nat -> entries (b1 ++ b2) = entries b1 ++ entries b2.
Proof.
  intros H. unfold entries. rewrite length_app, H. replace (32 * n + length b2)%nat with (n * 32 + length b2)%nat by lia.
  rewrite Nat.div_add_l by lia. replace (32 * n)%nat with (n * 32)%nat by lia. rewrite Nat.div_mul, seq_app, fmap_app by lia. f_equal.
  - apply fmap_seq_ext. intros k Hk. apply entry_at_app_l. lia.
  - apply fmap_seq_ext. intros k Hk. rewrite Nat.add_0_l. by apply entry_at_app_r.
Qed.

(** The entries of a part of a block. *)
Lemma entries_of_part b k n part : length part = (32 * n)%nat -> bytes_of b (32 * k) (32 * n) = part -> entry_at b <$> seq k n = entries part.
Proof.
  intros Hl <-. unfold entries. rewrite Hl. replace (32 * n / 32)%nat with n by (rewrite Nat.mul_comm; symmetry; by apply Nat.div_mul). apply fmap_seq_ext. intros j Hj. unfold entry_at, bytes_of.
  rewrite skipn_firstn_comm, take_take, drop_drop. f_equal; [lia |]. f_equal. lia.
Qed.

Section Search.
Context (cur_dev : option block_dev_desc) (info : disk_partition).

Lemma scan_entry_plain root name c k s : name <> [] -> plain (entry_at (block s) k) ->
  scan_entry cur_dev info root false name c k s = Some (find_entry name [entry_at (block s) k], s).
Proof.
  unfold plain. intros Hn Hp. unfold scan_entry. cbn [find_entry]. destruct (_ =? DELETED_FLAG); [done |]. cbn [orb].
  destruct (has _ ATTR_VOLUME); [by rewrite Hp |]. destruct (byte_at _ 0 =? 0); [done |]. cbn [andb].
  rewrite (bool_decide_eq_false_2 (name = [])) by done. rewrite orb_false_r. by destruct (bool_decide _).
Qed.

Lemma scan_entries_plain n root name c : name <> [] -> forall k s, Forall plain (entry_at (block s) <$> seq k n) ->
  scan_entries cur_dev info n root false name c k s = Some (find_entry name (entry_at (block s) <$> seq k n), s).
Proof.
  intros Hn. induction n as [| n IH]; intros k s Hp; [done |]. cbn [seq] in *. rewrite fmap_cons in *. apply Forall_cons in Hp as [Hp Hps].
  cbn [scan_entries]. rewrite scan_entry_plain by done. cbn [mbind option_bind].
  rewrite (find_entry_app name [entry_at (block s) k] (entry_at (block s) <$> seq (S k) n) : find_entry name (_ :: _) = _). destruct (find_entry name [_]); [by apply IH | done | done].
Qed.
End Search.

(** ** An entry of the block *)

Lemma entry_at_length b k : (32 * k + 32 <= length b)%nat -> length (entry_at b k) = 32%nat.
Proof. intros H. unfold entry_at. by apply bytes_of_length. Qed.

Lemma put_entry_length b k e : length e = 32%nat -> (32 * k + 32 <= length b)%nat -> length (put_entry b k e) = length b.
Proof. intros He H. unfold put_entry. rewrite !length_app, length_take, length_drop, He. lia. Qed.

Lemma put_entry_same b k e : length e = 32%nat -> (32 * k + 32 <= length b)%nat -> entry_at (put_entry b k e) k = e.
Proof.
  intros He H. unfold entry_at, bytes_of, put_entry. rewrite drop_app_length' by (rewrite length_take; lia). rewrite take_app_length' by done. done.
Qed.

Lemma put_entry_behind b k e j : length e = 32%nat -> (32 * k + 32 <= length b)%nat -> (k < j)%nat -> entry_at (put_entry b k e) j = entry_at b j.
Proof.
  intros He H Hj. unfold entry_at, bytes_of, put_entry. rewrite app_assoc, drop_app_ge by (rewrite length_app, length_take, He; lia).
  rewrite length_app, length_take, He, drop_drop. do 2 f_equal. lia.
Qed.

Lemma entries_lookup b i x : entries b !! i = Some x -> entry_at b i = x.
Proof. unfold entries. rewrite list_lookup_fmap. intros H. apply fmap_Some in H as (j & Hj & ->). apply lookup_seq in Hj as [-> _]. done. Qed.

Section Scan.
Context (cur_dev : option block_dev_desc) (info : disk_partition).

Lemma scan_entry_other root name c k s es : name <> [] -> begins (entry_at (block s) k) = false ->
  scan_entry cur_dev info root false name c k s = Some (look_step name (entry_at (block s) k :: es), s).
Proof.
  intros Hn Hb. unfold scan_entry, look_step. rewrite Hb. set (x := entry_at (block s) k) in *. rewrite !byte_at_entry. unfold deleted, begins in *. change DELETED_FLAG with 0xe5.
  destruct (Z.eqb_spec (entry_byte x 0) 0xe5) as [| H0]; [done |]. unfold deleted in Hb. rewrite (proj2 (Z.eqb_neq _ _)) in Hb by done. cbn [negb andb orb] in *.
  rewrite has_volume, first_slot_code. destruct (labelled x); cbn [andb] in Hb; [by rewrite Hb |]. destruct (entry_byte x 0 =? 0); [done |]. cbn [andb].
  rewrite get_name_short, (bool_decide_eq_false_2 (name = [])), orb_false_r by done. case_bool_decide; [by rewrite decide_True | by rewrite decide_False].
Qed.

Lemma scan_entry_named root name c k s e l_name m1 : name <> [] -> begins (entry_at (block s) k) = true -> regular e -> length e = 32%nat -> (32 * k + 32 <= length (block s))%nat ->
  get_vfatname cur_dev info (fs s) c (block s) k = Some (Some (put_entry (block s) k e, l_name), m1) ->
  exists s', scan_entry cur_dev info root false name c k s = Some (if decide (name = short_name e \/ name = l_name) then hit e else go_on, s')
    /\ fs s' = m1 /\ block s' = put_entry (block s) k e /\ lines s' = lines s.
Proof.
  intros Hn Hb Hr He Hk Hv. unfold scan_entry. set (x := entry_at (block s) k) in *. unfold begins, deleted in Hb. apply andb_true_iff in Hb as [[H0 Hl]%andb_true_iff Hf].
  rewrite byte_at_entry. change DELETED_FLAG with 0xe5. apply negb_true_iff in H0. rewrite H0, has_volume, Hl, first_slot_code, Hf. cbn [block set_cksum fs].
  rewrite Hv. cbn [mbind option_bind from_option]. unfold id. cbv beta iota zeta. cbn [block set_fs set_block set_cksum]. rewrite put_entry_same by done.
  destruct (regular_flags e Hr) as (Hd & _ & _ & _ & Hz). rewrite byte_at_entry, Hz. cbn [andb]. rewrite get_name_short by (by apply Z.eqb_neq).
  exists (set_fs m1 (set_block (put_entry (block s) k e) (set_cksum (alias_checksum x) s))). split; [| done].
  assert (bool_decide (name = short_name e) || bool_decide (name = l_name) = bool_decide (name = short_name e \/ name = l_name)) as ->.
  { apply eq_true_iff_eq. by rewrite orb_true_iff, !bool_decide_eq_true. }
  destruct (decide _) as [Hh | Hh]; [rewrite (bool_decide_eq_true_2 _ Hh) | rewrite (bool_decide_eq_false_2 _ Hh)]; by destruct root.
Qed.
End Scan.

Section Disk.
Context (d : block_dev_desc) (info : disk_partition) (sector : Z -> list Z) (count : Z) (Hd : disk_ok d info sector count).

Notation bpc m := (clust_size m * sect_size m).
Notation ready := (ready d sector count).
Notation chain := (chain sector count).
Notation file_data := (file_data sector).
Notation fs_ok := (fs_ok d count).
Notation sectors := (sectors sector).
Notation table := (table sector).

(** ** Directories in clusters *)

(** The entries of a directory that starts at [c], in whole clusters. *)
Definition dir_entries (m : fsdata) (l : list Z) : list dir_entry := entries (file_data m l).

(** A cluster of a directory: sectors that hold whole entries. *)
Definition whole_entries (m : fsdata) : Prop := sect_size m mod 32 = 0 /\ bpc m <= MAX_CLUSTSIZE.

Lemma cluster_entries m c : ready m -> whole_entries m ->
  length (file_data m [c]) = (32 * Z.to_nat (DIRENTSPERCLUST m))%nat /\ zlen (file_data m [c]) = bpc m.
Proof.
  intros Hm [H32 _]. pose proof (bpc_positive _ _ _ _ Hd _ Hm) as Hb. pose proof (rd_clust _ _ _ _ Hm).
  assert (Hone := file_data_length _ _ _ _ Hd m [c] (rd_fs _ _ _ _ Hm) ltac:(lia)). cbn [length] in Hone. split; [| lia].
  unfold DIRENTSPERCLUST. assert (sect_size m = 32 * (sect_size m / 32)) as E by (pose proof (Z.div_mod (sect_size m) 32); lia). rewrite E in *. set (h := sect_size m / 32) in *.
  replace (clust_size m * (32 * h)) with ((clust_size m * h) * 32) in * by lia. rewrite Z.div_mul by done. lia.
Qed.

(** One cluster of a directory. *)
Lemma get_dentfromdir_step name rounds c s : name <> [] -> ready (fs s) -> whole_entries (fs s) -> cluster_ok sector count (fs s) c ->
  Forall plain (dir_entries (fs s) [c]) ->
  get_dentfromdir (Some d) info (S rounds) false name c s =
    let s := set_block (file_data (fs s) [c]) s in
    match find_entry name (dir_entries (fs s) [c]) with
    | hit e => Some (Some e, s)
    | the_end => Some (None, s)
    | go_on =>
        '(curclust, m) ← get_fatent (Some d) info (fs s) c;
        if CHECK_CLUST curclust (fatsize m) then Some (None, set_fs m s) else get_dentfromdir (Some d) info rounds false name curclust (set_fs m s)
    end.
Proof.
  intros Hn Hm Hw Hc Hp. destruct (cluster_entries _ c Hm Hw) as [Hlen Hz]. pose proof (bpc_positive _ _ _ _ Hd _ Hm) as Hb.
  cbn [get_dentfromdir]. rewrite (proj2 (Z.ltb_ge _ _)) by (destruct Hw; lia).
  rewrite (run_read _ _ _ _ Hd _ c [c] 0) by (done || (by constructor) || (cbn [length]; lia) || lia). rewrite firstn_cons, take_0, take_ge by lia.
  assert (entry_at (file_data (fs s) [c]) <$> seq 0 (Z.to_nat (DIRENTSPERCLUST (fs s))) = dir_entries (fs s) [c]) as Hent.
  { unfold dir_entries, entries. rewrite Hlen. f_equal. f_equal. rewrite Nat.mul_comm. symmetry. by apply Nat.div_mul. }
  rewrite scan_entries_plain by (try done; cbn [set_block block]; by rewrite Hent). cbn [mbind option_bind set_block block fs]. rewrite Hent.
  by destruct (find_entry name _).
Qed.

(** *** Scanning a block

    The block holds [N] entries, of which those from the place [k] on belong to
    the rest [es] of the directory; the slots of a name may go on in the next
    cluster.  Each name that is looked at leaves its entry in the block, in the
    place of its first slot, behind which the block is the same. *)
Section Run.
Context (m0 : fsdata) (root : bool) (c : Z) (N w : nat) (name : text) (f : dir_entry).
Context (Hname : name <> []) (HN : sect_size m0 * (if c =? 0 then PREFETCH_BLOCKS else clust_size m0) = 32 * Z.of_nat N).
Context (Hw : (0 < N)%nat /\ (w = N \/ w = O /\ c <> 0)).

Definition goes_on (es : list dir_entry) : Prop := forall m, same_fs m0 m -> ready m -> exists v m1 next,
  get_fatent (Some d) info m c = Some (v, m1) /\ CHECK_CLUST v (fatsize m1) = false /\ bpc m1 <= MAX_CLUSTSIZE
  /\ get_cluster (Some d) info m1 v 0 (bpc m1) = Some next /\ (288 <= length next)%nat
  /\ (forall i x, (i < 9)%nat -> es !! i = Some x -> entry_at next i = x) /\ same_fs m m1 /\ ready m1.

(** The rest of the directory is in the block from [k] on. *)
Definition in_block (b : list Z) (k : nat) (es : list dir_entry) : Prop :=
  (32 * N <= length b)%nat /\ forall i x, (k + i < N)%nat -> es !! i = Some x -> entry_at b (k + i) = x.

Lemma in_block_next b b' k x es : in_block b k (x :: es) -> length b' = length b -> (forall j, (k < j)%nat -> entry_at b' j = entry_at b j) -> in_block b' (S k) es.
Proof.
  intros [Hl He] Hlen Hsame. split; [lia |]. intros i y Hi Hy. rewrite Hsame by lia. replace (S k + i)%nat with (k + S i)%nat by lia. apply He; [lia | done].
Qed.

(** The name of the first slot, wherever its entry is. *)
Lemma first_slot_name k p s x es : (k < N)%nat -> (w = N -> p mod w = k)%nat -> in_block (block s) k (x :: es) ->
  (w = O -> (N - k < length (x :: es))%nat -> goes_on (drop (N - k) (x :: es))) -> same_fs m0 (fs s) -> ready (fs s) -> good w p (x :: es) -> begins x = true ->
  exists e l_name m1, get_vfatname (Some d) info (fs s) c (block s) k = Some (Some (put_entry (block s) k e, l_name), m1)
    /\ same_fs (fs s) m1 /\ ready m1 /\ regular e /\ length e = 32%nat
    /\ look_step name (x :: es) = if decide (name = short_name e \/ name = l_name) then hit e else go_on.
Proof.
  intros Hk Hp [Hlen Hblk] Hgo Hs Hm Hg Hb. destruct Hw as [HN0 Hww].
  assert (ends_dir x = false) as Hend by (unfold begins, ends_dir in *; destruct (deleted x), (labelled x); done). cbn [good] in Hg. rewrite Hend in Hg.
  destruct Hg as [Hg _]. destruct (Hg Hb) as (slots & e & rest & He & Hsl & Hr & Hfit). pose proof (so_length _ Hsl) as Hsl9.
  assert (look_step name (x :: es) = if decide (name = short_name e \/ name = long_name slots) then hit e else go_on) as Hlook.
  { destruct (slots_head _ Hsl) as (x' & tl & -> & _ & _ & Hnum). injection He as <- ->. cbn [look_step]. rewrite Hb, Hnum, Nat2Z.id.
    change (x :: tl ++ e :: rest) with ((x :: tl) ++ e :: rest). by rewrite drop_app_length, take_app_length. }
  rewrite Hlook. assert (sect_size (fs s) * (if c =? 0 then PREFETCH_BLOCKS else clust_size (fs s)) = 32 * Z.of_nat N) as HN' by (by rewrite Hs).
  destruct (decide (k + length slots < N)%nat) as [Hin | Hout].
  - assert (forall i y, (slots ++ [e]) !! i = Some y -> entry_at (block s) (k + i) = y) as Hall.
    { intros i y Hi. apply lookup_lt_Some in Hi as Hil. rewrite length_app in Hil. cbn [length] in Hil. apply Hblk; [lia |]. rewrite He.
      change (e :: rest) with ([e] ++ rest). rewrite app_assoc. by apply lookup_app_l_Some. }
    exists e, (long_name slots), (fs s). split_and!; [by apply (get_vfatname_inside _ _ _ _ _ _ _ _ N) | apply same_fs_refl | done | done | | done].
    rewrite <- (Hall (length slots) e) by (by rewrite lookup_app_r, Nat.sub_diag). apply entry_at_length. lia.
  - destruct Hww as [-> | [-> Hc]].
    { destruct Hfit as [-> | Hfit]; [lia |]. rewrite Hp in Hfit by done. lia. }
    rewrite <- (take_drop (N - k) slots) in He, Hsl |- *. set (s1 := take (N - k) slots) in *. set (s2 := drop (N - k) slots) in *.
    assert (length s1 = (N - k)%nat) as Hl1 by (subst s1; rewrite length_take; lia). rewrite <- app_assoc in He.
    assert (length s2 <= 8)%nat as Hl2 by (subst s2; rewrite length_drop; lia).
    destruct (Hgo eq_refl) with (m := fs s) as (v & m1 & next & Hf & Hck & Hmax & Hcl & Hlen' & Hnext & Hs1 & Hm1); [rewrite He, !length_app; cbn [length]; lia | done | done |].
    rewrite He, drop_app_length' in Hnext by done. assert (forall i y, (s2 ++ [e]) !! i = Some y -> entry_at next i = y) as Hn2.
    { intros i y Hi. apply lookup_lt_Some in Hi as Hil. rewrite length_app in Hil. cbn [length] in Hil. apply Hnext; [lia |].
      change (e :: rest) with ([e] ++ rest). rewrite app_assoc. by apply lookup_app_l_Some. }
    exists e, (long_name (s1 ++ s2)), m1. split_and!; [| done | done | done | | done].
    + apply (get_vfatname_across _ _ (fs s) c (block s) k s1 s2 e N v m1 next Hsl); try done; [by destruct s1; [cbn in Hl1; lia |] | | by rewrite (proj2 (Z.eqb_neq c 0)) in HN' | lia].
      intros i y Hi. apply lookup_lt_Some in Hi as Hil. apply Hblk; [lia |]. rewrite He. by apply lookup_app_l_Some.
    + rewrite <- (Hn2 (length s2) e) by (by rewrite lookup_app_r, Nat.sub_diag). apply entry_at_length. lia.
Qed.

(** One entry of the block: it is the file, or the search goes on behind it. *)
Lemma scan_entry_run k p s x es : (k < N)%nat -> (w = N -> p mod w = k)%nat -> in_block (block s) k (x :: es) ->
  (w = O -> (N - k < length (x :: es))%nat -> goes_on (drop (N - k) (x :: es))) -> same_fs m0 (fs s) -> ready (fs s) -> good w p (x :: es) -> look name (x :: es) = hit f ->
  exists s', same_fs m0 (fs s') /\ ready (fs s') /\ lines s' = lines s
    /\ (scan_entry (Some d) info root false name c k s = Some (hit f, s')
        \/ scan_entry (Some d) info root false name c k s = Some (go_on, s') /\ look name es = hit f /\ good w (S p) es /\ in_block (block s') (S k) es).
Proof.
  intros Hk Hp Hblk Hgo Hs Hm Hg Hl. pose proof Hblk as [Hlen He0]. pose proof (He0 O x ltac:(lia) eq_refl) as Hx. rewrite Nat.add_0_r in Hx.
  assert (ends_dir x = false) as Hend.
  { destruct (ends_dir x) eqn:E; [| done]. unfold ends_dir in E. cbn [look look_step] in Hl. unfold begins in Hl. destruct (deleted x), (labelled x); try done. cbn [negb andb orb] in *. by rewrite E in Hl. }
  assert (good w (S p) es) as Hg1 by (cbn [good] in Hg; rewrite Hend in Hg; apply Hg).
  assert (look_step name (x :: es) = hit f \/ look_step name (x :: es) = go_on /\ look name es = hit f) as Hstep by (cbn [look] in Hl; destruct (look_step name (x :: es)); auto; done).
  destruct (begins x) eqn:Hb.
  - destruct (first_slot_name k p s x es Hk Hp Hblk Hgo Hs Hm Hg Hb) as (e & l_name & m1 & Hv & Hs1 & Hm1 & Hr & He & Hlook).
    destruct (scan_entry_named (Some d) info root name c k s e l_name m1) as (s' & Hscan & Hfs & Hbk & Hln); [done | by rewrite Hx | done | done | lia | done |].
    rewrite <- Hlook in Hscan. exists s'. rewrite Hfs. split_and!; [by eapply same_fs_trans | done | done |]. rewrite Hscan.
    destruct Hstep as [-> | [-> Hl']]; [by left | right]. split_and!; [done | done | done |]. rewrite Hbk.
    apply (in_block_next _ _ _ _ _ Hblk); [apply put_entry_length; [done | lia] |]. intros j Hj. apply put_entry_behind; [done | lia | done].
  - exists s. split_and!; [done | done | done |]. rewrite (scan_entry_other _ _ _ _ _ _ _ es) by (done || by rewrite Hx). rewrite Hx.
    destruct Hstep as [-> | [-> Hl']]; [by left | right]. split_and!; [done | done | done |]. by apply (in_block_next _ _ _ _ _ Hblk).
Qed.

Lemma scan_run : forall n k p s es, (n <= length es)%nat -> (k + n <= N)%nat -> ((0 < n)%nat -> w = N -> p mod w = k)%nat -> in_block (block s) k es ->
  (w = O -> (N - k < length es)%nat -> goes_on (drop (N - k) es)) -> same_fs m0 (fs s) -> ready (fs s) -> good w p es -> look name es = hit f ->
  exists s', same_fs m0 (fs s') /\ ready (fs s') /\ lines s' = lines s
    /\ (scan_entries (Some d) info n root false name c k s = Some (hit f, s')
        \/ scan_entries (Some d) info n root false name c k s = Some (go_on, s') /\ look name (drop n es) = hit f /\ good w (p + n) (drop n es)
            /\ in_block (block s') (k + n) (drop n es)).
Proof.
  induction n as [| n IH]; intros k p s es Hn Hk Hp Hblk Hgo Hs Hm Hg Hl.
  { exists s. split_and!; [done | done | done |]. right. rewrite !Nat.add_0_r, drop_0. done. }
  destruct es as [| x es]; [cbn [length] in Hn; lia |].
  destruct (scan_entry_run k p s x es) as (s1 & Hs1 & Hm1 & Hl1 & Hscan); [lia | by apply Hp; lia | done | done | done | done | done | done |]. cbn [scan_entries drop].
  destruct Hscan as [-> | (-> & Hl' & Hg' & Hblk')]; cbn [mbind option_bind]; [exists s1; by split_and!; [.. | left] |].
  cbn [length] in Hn. rewrite !Nat.add_succ_r, <- !Nat.add_succ_l.
  destruct (IH (S k) (S p) s1 es) as (s2 & Hs2 & Hm2 & Hl2 & Hres); [lia | lia | | done | | done | done | done | done |].
  - intros Hn0 HwN. specialize (Hp ltac:(lia) HwN). subst w. rewrite <- Nat.add_1_r, <- Nat.Div0.add_mod_idemp_l, Hp, Nat.mod_small by lia. lia.
  - intros Hw0 Hlt. specialize (Hgo Hw0). replace (N - k)%nat with (S (N - S k)) in Hgo by lia. apply Hgo. cbn [length]. lia.
  - exists s2. rewrite <- Hl1. by split_and!.
Qed.
End Run.

Lemma same_fs_sym m m' : same_fs m m' -> same_fs m' m.
Proof. unfold same_fs. intros ->. by destruct m. Qed.

Lemma get_dentfromdir_spec name f m0 : name <> [] -> whole_entries m0 -> 288 <= bpc m0 ->
  forall l rounds c p s, same_fs m0 (fs s) -> ready (fs s) -> chain m0 c l -> good 0 p (dir_entries m0 l) -> look name (dir_entries m0 l) = hit f -> (length l <= rounds)%nat ->
  exists s', get_dentfromdir (Some d) info rounds false name c s = Some (Some f, s') /\ same_fs m0 (fs s') /\ ready (fs s') /\ lines s' = lines s.
Proof.
  intros Hn Hw H288. induction l as [| x l IH]; intros rounds c p s Hs Hm Hch Hg Hl Hr; [by inversion Hch |].
  destruct rounds as [| rounds]; [cbn [length] in Hr; lia |]. assert (Hch1 := same_chain _ _ _ _ _ _ Hs Hch). assert (x = c) as -> by (by inversion Hch).
  assert (whole_entries (fs s)) as Hw1 by (by rewrite Hs). assert (cluster_ok sector count (fs s) c) as Hc1 by (by inversion Hch1). pose proof (cluster_range _ _ _ _ Hc1) as Hc2.
  destruct (cluster_entries _ c Hm Hw1) as [Hlen Hz]. assert (forall l, file_data (fs s) l = file_data m0 l) as Hsd by (intros; by apply same_data). rewrite Hsd in Hlen, Hz.
  pose proof (bpc_positive _ _ _ _ Hd _ Hm) as Hbp. set (N := Z.to_nat (DIRENTSPERCLUST (fs s))) in *.
  assert (length (entries (file_data m0 [c])) = N) as HlN by (unfold entries; rewrite length_fmap, length_seq, Hlen, Nat.mul_comm; by apply Nat.div_mul).
  unfold dir_entries in Hg, Hl |- *. change (c :: l) with ([c] ++ l) in Hg, Hl |- *. rewrite file_data_app, (entries_app _ _ _ Hlen) in Hg, Hl. set (R := entries (file_data m0 l)) in *.
  assert (Hnext : l <> [] -> forall m, same_fs m0 m -> ready m -> exists v m1, get_fatent (Some d) info m c = Some (v, m1) /\ CHECK_CLUST v (fatsize m1) = false
    /\ same_fs m m1 /\ ready m1 /\ chain m0 v l /\ get_cluster (Some d) info m1 v 0 (bpc m1) = Some (file_data m0 [v])).
  { intros Hne m Hsm Hrm. destruct (next_entry _ _ _ _ Hd m c _ Hrm (same_chain _ _ _ _ _ _ Hsm Hch)) as (m1 & Hf & Hs1 & Hm1). rewrite (same_table _ _ _ Hsm) in Hf.
    replace (fatsize m) with (fatsize m0) in Hf by (by rewrite Hsm). inversion Hch as [? Hc | ? ? Hc Hch']; subst; [done |]. set (v := fat_value _ _ c) in *. exists v, m1.
    assert (Hs01 := same_fs_trans _ _ _ Hsm Hs1). assert (Hv : cluster_ok sector count m0 v) by (by inversion Hch'). split_and!; [done | | done | done | done |].
    - replace (fatsize m1) with (fatsize m0) by (by rewrite Hs01). apply (cl_check _ _ _ _ Hv).
    - rewrite (run_read _ _ _ _ Hd _ v [v] 0) by (done || (constructor; by apply (same_cluster _ _ _ _ _ Hs01)) || (cbn [length]; lia) || (pose proof (bpc_positive _ _ _ _ Hd _ Hm1); lia)).
      rewrite firstn_cons, take_0, (same_data _ _ _ _ Hs01). assert (fs_ok m0) as Hm0 by (apply (same_fs_ok _ _ m); [| apply Hrm]; by apply same_fs_sym).
      assert (zlen (file_data m0 [v]) = bpc m0) as Hlv.
      { rewrite (file_data_length _ _ _ _ Hd m0 [v] Hm0); [cbn [length]; lia |]. pose proof (rd_clust _ _ _ _ Hrm) as Hcl0. rewrite Hsm in Hcl0. cbn in Hcl0. lia. }
      replace (bpc m1) with (bpc m0) by (by rewrite Hs01). rewrite take_ge by lia. done. }
  cbn [get_dentfromdir]. rewrite (proj2 (Z.ltb_ge _ _)) by (destruct Hw1; lia).
  rewrite (run_read _ _ _ _ Hd _ c [c] 0) by (done || (by constructor) || (cbn [length]; lia) || lia). rewrite firstn_cons, take_0, Hsd, take_ge by lia.
  assert (bpc (fs s) = bpc m0) as Hbm by (by rewrite Hs). change (Z.to_nat (DIRENTSPERCLUST (fs s))) with N.
  assert (bpc m0 = 32 * Z.of_nat N) as HbN by (rewrite <- Hbm, <- Hz; unfold zlen; rewrite Hlen; apply Nat2Z.inj_mul).
  assert (0 < bpc m0) as Hbp0 by (by rewrite <- Hbm).
  assert (0 < N)%nat as HN0 by lia.
  destruct (scan_run m0 false c N 0 name f Hn) with (n := N) (k := O) (p := p) (s := set_block (file_data m0 [c]) s) (es := entries (file_data m0 [c]) ++ R)
    as (s1 & Hs1 & Hm1 & Hl1 & Hscan); [| | rewrite length_app; lia | lia | lia | | | done | done | done | done |].
  - rewrite (proj2 (Z.eqb_neq c 0)) by lia. lia.
  - split; [done |]. right. split; [done | lia].
  - split; [cbn [block set_block]; lia |]. intros i y Hi Hy. rewrite lookup_app_l in Hy by lia. cbn [block set_block]. rewrite Nat.add_0_l. by apply entries_lookup.
  - intros _. rewrite Nat.sub_0_r, length_app, HlN, drop_app_length' by done. intros Hlt m Hsm Hrm. assert (l <> []) as Hne by (intros ->; cbn in Hlt; lia).
    destruct (Hnext Hne m Hsm Hrm) as (v & m1 & Hf & Hck & Hs1 & Hm1 & Hchv & Hcl). exists v, m1, (file_data m0 [v]).
    assert (zlen (file_data m0 [v]) = bpc m0) as Hlv.
    { rewrite (file_data_length _ _ _ _ Hd m0 [v]); [cbn [length]; lia | | ].
      - apply (same_fs_ok _ _ m); [by apply same_fs_sym | apply Hrm].
      - pose proof (rd_clust _ _ _ _ Hrm) as Hcl0. rewrite Hsm in Hcl0. cbn in Hcl0. lia. }
    split_and!; [done | done | replace (bpc m1) with (bpc m0) by (by rewrite (same_fs_trans _ _ _ Hsm Hs1)); by destruct Hw | done | lia | | done | done].
    intros i y Hi Hy. apply entries_lookup. destruct (chain_head _ _ _ _ _ Hchv) as [t ->]. subst R. change (v :: t) with ([v] ++ t) in Hy.
    rewrite file_data_app, (entries_app _ _ N) in Hy by lia. rewrite lookup_app_l in Hy; [done |]. unfold entries. rewrite length_fmap, length_seq.
    replace (length (file_data m0 [v])) with (N * 32)%nat by lia. rewrite Nat.div_mul by done. lia.
  - destruct Hscan as [-> | (-> & Hl2 & Hg2 & _)]; cbn [mbind option_bind]; [exists s1; by split_and! |].
    rewrite drop_app_length' in Hl2, Hg2 by done. assert (l <> []) as Hne by (intros ->; done).
    destruct (Hnext Hne (fs s1) Hs1 Hm1) as (v & m1 & -> & Hck & Hsv & Hmv & Hchv & _). cbn [mbind option_bind]. rewrite Hck.
    destruct (IH rounds v (p + N)%nat (set_fs m1 s1)) as (s2 & -> & Hs2 & Hm2 & Hl3); try done; [by eapply same_fs_trans | cbn [length] in Hr; lia |].
    exists s2. split_and!; [done | done | done |]. rewrite Hl3. cbn [lines set_fs]. by rewrite Hl1.
Qed.

(** ** The root directory of FAT12 and FAT16 *)

Lemma overlay_bytes (new old : list Z) i n : (i + n <= length new)%nat -> bytes_of (overlay new old) i n = bytes_of new i n.
Proof. intros H. unfold overlay, bytes_of. rewrite drop_app_le by lia. rewrite take_app_le; [done |]. rewrite length_drop. lia. Qed.

(** From the sector [i] of the directory on, of which [r] are left; the blocks are
    read two by two. *)
Lemma root_loop_spec name f m n size : name <> [] -> fs_ok m -> fatsize m <> 32 -> sect_size m = 32 * Z.of_nat n -> 0 <= rootdir_sect m ->
  2 * sect_size m <= MAX_CLUSTSIZE -> rootdir_sect m + size + 1 <= count ->
  forall r i j s rounds, same_fs m (fs s) -> ready (fs s) -> 0 <= i -> i + Z.of_nat r = size -> (0 < r <= rounds)%nat -> j = i mod 2 ->
    let es := entries (sectors (rootdir_sect m + i) (Z.of_nat r)) in
    (j = 1 -> in_block (2 * n) (block s) n es) -> good (2 * n) (n * Z.to_nat i) es -> look name es = hit f ->
  exists s', root_loop (Some d) info rounds size false name j (rootdir_sect m + i) 0 s = Some (rootdir_done f, s')
    /\ same_fs m (fs s') /\ ready (fs s') /\ lines s' = lines s.
Proof.
  intros Hn Hm0 H32 Hn32 Hroot Hmax Hcount. pose proof (dk_count _ _ _ _ Hd) as Hc31. pose proof (dk_size _ _ _ _ Hd) as Hsz. assert (Hss := fs_sect _ _ _ Hm0).
  assert (forall i, length (sector i) = (32 * n)%nat) as Hsec by (intros i; rewrite (dk_length _ _ _ _ Hd); lia).
  assert (forall i k, 0 <= k -> length (entries (sectors i k)) = (n * Z.to_nat k)%nat) as Hel.
  { intros i k Hk. unfold entries. rewrite length_fmap, length_seq. pose proof (sectors_length _ _ _ _ Hd i k Hk) as Hz.
    replace (length (sectors i k)) with (n * Z.to_nat k * 32)%nat by nia. by rewrite Nat.div_mul. }
  induction r as [| r IH]; intros i j s rounds Hs Hm Hi Hir Hr Hj es Hblk Hg Hl; [lia |]. destruct rounds as [| rounds]; [lia |]. cbn [root_loop].
  assert (fatsize (fs s) = fatsize m /\ sect_size (fs s) = sect_size m) as [Hfz Hsc] by (by rewrite Hs). rewrite Hfz, (proj2 (Z.eqb_neq (fatsize m) 32)), Hsc by done. change PREFETCH_BLOCKS with 2.
  assert (0 <= j < 2) as Hj2 by (subst j; by apply Z.mod_pos_bound). assert (0 < n)%nat as Hn0 by lia.
  rewrite (proj2 (Z.ltb_ge MAX_CLUSTSIZE (2 * _))), (proj2 (Z.ltb_ge MAX_CLUSTSIZE ((j + 1) * _))) by nia. rewrite andb_false_r. cbn [orb].
  assert (exists b, (if j =? 0 then blocks ← disk_read (Some d) info (rootdir_sect m + i) 2; Some (set_block (overlay (concat blocks) (block s)) s) else Some s) = Some (set_block b s)
    /\ in_block (2 * n) b (Z.to_nat j * n) es) as (b & -> & Hb).
  { destruct (Z.eqb_spec j 0) as [-> | Hj0].
    - rewrite (disk_read_ok _ _ _ _ Hd) by lia. cbn [mbind option_bind]. fold (sectors (rootdir_sect m + i) 2). eexists. split; [done |].
      pose proof (sectors_length _ _ _ _ Hd (rootdir_sect m + i) 2 ltac:(lia)) as Hl2. set (B := sectors (rootdir_sect m + i) 2) in *.
      split; [unfold overlay; rewrite length_app; lia |]. intros k x Hk Hx. cbn [Nat.mul Nat.add].
      assert (entry_at B k = x) as <-; [| unfold entry_at; apply overlay_bytes; lia].
      destruct r as [| r].
      + subst es. apply lookup_lt_Some in Hx as Hxl. rewrite Hel in Hxl by lia. subst B. change 2 with (1 + 1). rewrite (sectors_app sector) by lia. change (Z.of_nat 1) with 1 in Hx.
        rewrite entry_at_app_l by (rewrite (sectors_one sector), Hsec; lia). by apply entries_lookup.
      + subst es. replace (Z.of_nat (S (S r))) with (2 + Z.of_nat r) in Hx by lia. rewrite (sectors_app sector) in Hx by lia. fold B in Hx.
        rewrite (entries_app _ _ (2 * n)), lookup_app_l in Hx by (lia || (subst B; rewrite Hel; lia)). by apply entries_lookup.
    - assert (j = 1) as Hj1 by lia. exists (block s). split; [by destruct s |]. rewrite Hj1. replace (Z.to_nat 1 * n)%nat with n by lia. by apply Hblk. }
  replace (Z.to_nat (DIRENTSPERBLOCK (fs s))) with n by (unfold DIRENTSPERBLOCK; rewrite Hsc, Hn32, Z.mul_comm, Z.div_mul; lia).
  replace (Z.to_nat (j * DIRENTSPERBLOCK (fs s))) with (Z.to_nat j * n)%nat by (unfold DIRENTSPERBLOCK; rewrite Hsc, Hn32, (Z.mul_comm 32), Z.div_mul by done; nia).
  assert (length es = (n * S r)%nat) as Hles by (subst es; rewrite Hel by lia; nia).
  assert (exists q : nat, j = 0 /\ i = 2 * Z.of_nat q \/ j = 1 /\ i = 2 * Z.of_nat q + 1) as (q & Hij) by (exists (Z.to_nat (i / 2)); pose proof (Z.div_mod i 2); lia).
  destruct (scan_run m true 0 (2 * n) (2 * n) name f Hn) with (n := n) (k := (Z.to_nat j * n)%nat) (p := (n * Z.to_nat i)%nat) (s := set_block b s) (es := es)
    as (s1 & Hs1 & Hm1 & Hl1 & Hscan); [change PREFETCH_BLOCKS with 2; cbn [Z.eqb]; lia | split; [lia | by left] | nia | destruct Hij as [[-> _] | [-> _]]; cbn; lia | | done | lia | done | done | done | done |].
  { intros _ _. destruct Hij as [[-> ->] | [-> ->]].
    - replace (Z.to_nat (2 * Z.of_nat q)) with (2 * q)%nat by lia. replace (n * (2 * q))%nat with (q * (2 * n))%nat by lia. by rewrite Nat.Div0.mod_mul.
    - replace (Z.to_nat (2 * Z.of_nat q + 1)) with (2 * q + 1)%nat by lia. replace (n * (2 * q + 1))%nat with (n + q * (2 * n))%nat by lia.
      rewrite Nat.Div0.mod_add, Nat.mod_small by lia. replace (Z.to_nat 1 * n)%nat with n by lia. done. }
  destruct Hscan as [-> | (-> & Hl2 & Hg2 & Hb2)]; cbn [mbind option_bind]; [by exists s1 |].
  assert (rootdir_sect (fs s) = rootdir_sect m) as Hrs1 by (by rewrite Hs).
  rewrite (wrap_small 32 (rootdir_sect m + i + 1)) by lia. rewrite Hrs1. replace (rootdir_sect m + i + 1 - rootdir_sect m) with (i + 1) by lia. rewrite (wrap_small 32 (i + 1)) by lia.
  destruct r as [| r]; [rewrite drop_ge in Hl2 by lia; done |]. rewrite (proj2 (Z.leb_gt _ _)) by lia. change PREFETCH_BLOCKS with 2.
  assert (drop n es = entries (sectors (rootdir_sect m + (i + 1)) (Z.of_nat (S r)))) as Htail.
  { subst es. replace (Z.of_nat (S (S r))) with (1 + Z.of_nat (S r)) by lia. rewrite (sectors_app sector) by lia.
    rewrite (entries_app _ _ n) by (rewrite (sectors_one sector); apply Hsec). rewrite drop_app_length' by (rewrite Hel; lia). do 2 f_equal. lia. }
  rewrite Htail in Hl2, Hg2, Hb2. replace (n * Z.to_nat i + n)%nat with (n * Z.to_nat (i + 1))%nat in Hg2 by nia.
  replace (rootdir_sect m + i + 1) with (rootdir_sect m + (i + 1)) by lia.
  destruct (IH (i + 1) (if j + 1 =? 2 then 0 else j + 1) s1 rounds) as (s2 & -> & Hs2 & Hm2 & Hl3); [done | done | lia | lia | lia | | | done | done |].
  - destruct Hij as [[-> ->] | [-> ->]].
    + change (if 0 + 1 =? 2 then 0 else 0 + 1) with 1. apply (Z.mod_unique_pos _ _ (Z.of_nat q)); lia.
    + change (if 1 + 1 =? 2 then 0 else 1 + 1) with 0. apply (Z.mod_unique_pos _ _ (Z.of_nat q + 1)); lia.
  - destruct Hij as [[-> _] | [-> _]]; [intros _ | done]. replace (Z.to_nat 0 * n + n)%nat with n in Hb2 by lia. done.
  - exists s2. split_and!; [done | done | done |]. by rewrite Hl3, Hl1.
Qed.

(** ** Paths *)

Definition delimiter (c : Z) : Prop := c = 47 \/ c = 92.

(** A part of a path. *)
Definition component (a : text) : Prop := a <> [] /\ Forall (fun c => ~ delimiter c) a.

(** The parts with one or more delimiters between them. *)
Inductive path_text : list text -> text -> Prop :=
  | path_last a : component a -> path_text [a] a
  | path_cons a delims path t : component a -> delims <> [] -> Forall delimiter delims -> path_text path t -> path_text (a :: path) (a ++ delims ++ t).

Lemma delimiter_code c : ISDIRDELIM c = bool_decide (c = 47 \/ c = 92).
Proof. unfold ISDIRDELIM. apply eq_true_iff_eq. by rewrite orb_true_iff, !Z.eqb_eq, bool_decide_eq_true. Qed.

Lemma skip_delims_app delims t : Forall delimiter delims -> skip_delims (delims ++ t) = skip_delims t.
Proof. induction 1 as [| c delims Hc _ IH]; [done |]. cbn [app skip_delims]. by rewrite delimiter_code, bool_decide_eq_true_2. Qed.

Lemma skip_component a t : component a -> skip_delims (a ++ t) = a ++ t.
Proof. intros [Hne H]. destruct H as [| c a Hc _]; [done |]. cbn [app skip_delims]. by rewrite delimiter_code, bool_decide_eq_false_2. Qed.

Lemma path_text_head path t : path_text path t -> skip_delims t = t /\ t <> [] /\ path <> [].
Proof.
  intros H. assert (exists a r, component a /\ t = a ++ r /\ path <> []) as (a & r & Ha & -> & Hp).
  { destruct H as [a Ha | a delims path t Ha _ _ _]; [exists a, [] | exists a, (delims ++ t)]; by rewrite ?app_nil_r. }
  rewrite skip_component by done. destruct Ha as [Hne _]. by destruct a.
Qed.

Lemma dirdelim_one a : component a -> dirdelim a = None.
Proof. intros [_ H]. induction H as [| c a Hc _ IH]; [done |]. cbn [dirdelim]. by rewrite delimiter_code, bool_decide_eq_false_2, IH. Qed.

Lemma dirdelim_app a delims path t : component a -> delims <> [] -> Forall delimiter delims -> path_text path t -> dirdelim (a ++ delims ++ t) = Some (a, t).
Proof.
  intros [_ H] Hne Hdl Ht. induction H as [| c a Hc _ IH].
  - destruct Hdl as [| c delims Hc Hdl]; [done |]. cbn [app dirdelim]. rewrite delimiter_code, bool_decide_eq_true_2, skip_delims_app by done. by destruct (path_text_head _ _ Ht) as [-> _].
  - cbn [app dirdelim]. by rewrite delimiter_code, bool_decide_eq_false_2, IH.
Qed.

Lemma path_text_inv a path t : path_text (a :: path) t -> component a /\ (path = [] /\ t = a
  \/ exists delims t', t = a ++ delims ++ t' /\ delims <> [] /\ Forall delimiter delims /\ path_text path t').
Proof. intros H. inversion H; subst; split; auto. right. by do 2 eexists. Qed.

Lemma length_path_text path t : path_text path t -> (length path <= length t)%nat.
Proof.
  induction 1 as [a [Ha _] | a delims path t [Ha _] Hne _ _ IH]; [destruct a; [done | cbn; lia] |].
  rewrite !length_app. destruct a; [done |]. cbn [length]. lia.
Qed.

Lemma lower_skip s : downcase (skip_delims s) = skip_delims (lower s).
Proof.
  rewrite downcase_lower. induction s as [| c s IH]; [done |]. cbn [skip_delims lower fmap list_fmap]. rewrite !delimiter_code.
  assert ((c = 47 \/ c = 92) <-> ((if decide (65 <= c <= 90) then c + 32 else c) = 47 \/ (if decide (65 <= c <= 90) then c + 32 else c) = 92)) as Hc by (case_decide; lia).
  destruct (decide (c = 47 \/ c = 92)) as [Hy | Hn]; [rewrite !bool_decide_eq_true_2 by tauto; apply IH |].
  rewrite !bool_decide_eq_false_2 by tauto. done.
Qed.

(** The entry of a name in the directory of an entry, and of a path; the rounds
    are enough for the clusters of each directory. *)
Record in_dir (m : fsdata) (rounds : nat) (dent : dir_entry) (a : text) (e : dir_entry) (l : list Z) (files : list (dir_entry * option text)) : Prop := {
  id_chain : chain m (START m dent) l;
  id_rounds : (length l <= rounds)%nat;
  id_dir : directory 0 0 (dir_entries m l) files;
  id_find : find_file a files = Some e }.

Definition is_directory (e : dir_entry) : Prop := Z.testbit (entry_byte e 11) 4 = true.

Inductive resolves (m : fsdata) (rounds : nat) : dir_entry -> list text -> dir_entry -> Prop :=
  | resolves_last dent a e l files : in_dir m rounds dent a e l files -> resolves m rounds dent [a] e
  | resolves_dir dent a e l files path f : in_dir m rounds dent a e l files -> is_directory e -> resolves m rounds e path f ->
      resolves m rounds dent (a :: path) f.

Lemma in_dir_found m0 rounds dent a e l files s : whole_entries m0 -> 288 <= bpc m0 -> component a -> in_dir m0 rounds dent a e l files -> same_fs m0 (fs s) -> ready (fs s) ->
  exists s', get_dentfromdir (Some d) info rounds false a (START (fs s) dent) s = Some (Some e, s') /\ same_fs m0 (fs s') /\ ready (fs s') /\ lines s' = lines s.
Proof.
  intros Hw Hb [Ha _] [Hch Hr Hdir Hf] Hs Hm. assert (START (fs s) dent = START m0 dent) as -> by (by rewrite Hs).
  apply (get_dentfromdir_spec a e m0 Ha Hw Hb l rounds _ O); try done; [by eapply directory_good | by eapply directory_look].
Qed.

Lemma walk_spec m0 rounds dent path f : whole_entries m0 -> 288 <= bpc m0 -> resolves m0 rounds dent path f ->
  forall fuel t b s, path_text path t -> same_fs m0 (fs s) -> ready (fs s) -> (length path <= fuel)%nat ->
  exists s', walk (Some d) info fuel rounds b false t dent s = Some (rootdir_done f, s')
    /\ same_fs m0 (fs s') /\ ready (fs s') /\ lines s' = lines s.
Proof.
  intros Hw Hb288 Hres. induction Hres as [dent a e l files Hin | dent a e l files path f Hin Hdir Hres IH]; intros fuel t b s Ht Hs Hm Hfuel;
    (destruct fuel as [| fuel]; [cbn [length] in Hfuel; lia |]).
  - assert (t = a /\ component a) as [-> Ha].
    { inversion Ht as [? Ha | ? ? path ? _ _ _ Hp]; subst; [done |]. destruct (path_text_head _ _ Hp) as (_ & _ & Hne). done. }
    cbn [walk]. rewrite (dirdelim_one a Ha). cbn [andb negb].
    destruct (in_dir_found _ _ _ _ _ _ _ (Scan (block s) 0xffff 0 0 (lines s) (fs s)) Hw Hb288 Ha Hin) as (s1 & Hg & Hs1 & Hm1 & Hl1); [done | done |].
    cbn [fs] in Hg. rewrite Hg. cbn [mbind option_bind]. by exists s1.
  - inversion Ht as [? Ha | ? delims ? t' Ha Hne Hdel Hp]; subst; [inversion Hres |]. cbn [walk]. rewrite (dirdelim_app a delims path t') by done. cbn [andb negb].
    destruct (in_dir_found _ _ _ _ _ _ _ (Scan (block s) 0xffff 0 0 (lines s) (fs s)) Hw Hb288 Ha Hin) as (s1 & Hg & Hs1 & Hm1 & Hl1); [done | done |].
    cbn [fs] in Hg. rewrite Hg. cbn [mbind option_bind]. rewrite has_directory, Hdir.
    destruct (IH fuel t' (b && true) s1) as (s2 & He2 & Hs2 & Hm2 & Hl2); [done | done | done | cbn [length] in *; lia |].
    exists s2. rewrite He2. split; [done |]. split; [done |]. split; [done |]. by rewrite Hl2, Hl1.
Qed.

(** ** From the boot sector *)

(** What a volume must be like: the file system of its boot sector is the one of
    the disk, and the root directory is on the disk. *)
Record volume (newblock newbuf bs : list Z) (m : fsdata) (size : Z) : Prop := {
  vo_boot : read_bootsectandvi (Some d) info newblock = Some (bs, fatsize m);
  vo_fs : m = fsdata_of bs (fatsize m) newbuf;
  vo_ok : fs_ok m;
  vo_size : fatsize m <> 32;
  vo_blk : sect_size m = p_blksz info;
  vo_sect : 512 <= sect_size m;
  vo_clust : 0 < clust_size m;
  vo_whole : whole_entries m;
  vo_max : 2 * sect_size m <= MAX_CLUSTSIZE;
  vo_rootsize : size = rootdir_size bs /\ 0 < size;
  vo_root : 0 <= rootdir_sect m /\ rootdir_sect m + size + 1 <= count;
  vo_buf : zlen newbuf = FATBUFSIZE m /\ is_bytes newbuf }.

(** The entry of a path that starts in the root directory; there the slots of a
    name and its entry must be in the same two sectors. *)
Definition resolves_root (m : fsdata) (rounds : nat) (size : Z) (path : list text) (e : dir_entry) : Prop :=
  exists a e0 rest files, path = a :: rest
    /\ directory (2 * Z.to_nat (sect_size m / 32)) 0 (entries (sectors (rootdir_sect m) size)) files /\ find_file a files = Some e0
    /\ (if decide (rest = []) then e = e0 else is_directory e0 /\ resolves m rounds e0 rest e).

Lemma read_contents m s e l pos buffer maxsize : ready m -> whole_entries m -> same_fs m (fs s) -> ready (fs s) -> de_size e = 0 \/ chain m (START m e) l ->
  de_size e <= zlen l * bpc m -> 0 <= de_size e -> de_size e + bpc m <= 2 ^ 32 -> 0 <= pos -> 0 <= maxsize -> pos + maxsize < 2 ^ 32 ->
  exists m', get_contents (Some d) info (fs s) e pos buffer maxsize =
    Some (s32 (zlen (part pos maxsize (contents sector m e l))), part pos maxsize (contents sector m e l), m').
Proof.
  intros Hr Hw Hs Hm Hch Hl H0 Hsz Hpos Hmaxs H32. assert (contents sector (fs s) e l = contents sector m e l) as <- by (unfold contents; by rewrite (same_data _ _ _ _ Hs)).
  destruct Hch as [Hz | Hch].
  - exists (fs s). unfold get_contents, contents, part. rewrite Hz, (proj2 (Z.leb_le _ _)), take_0, drop_nil by done. by destruct (_ =? _); rewrite ?take_nil.
  - assert (START (fs s) e = START m e /\ bpc (fs s) = bpc m) as [Hst Hbp] by (by rewrite Hs). destruct Hw.
    apply (get_contents_spec _ _ _ _ Hd); rewrite ?Hbp; try done. rewrite Hst. by eapply same_chain.
Qed.

Lemma root_found m size a f files sblock rounds newblock newbuf bs : volume newblock newbuf bs m size -> ready m -> size <= Z.of_nat rounds -> component a ->
  directory (2 * Z.to_nat (sect_size m / 32)) 0 (entries (sectors (rootdir_sect m) size)) files -> find_file a files = Some f ->
  exists s', root_loop (Some d) info rounds size false a 0 (rootdir_sect m) 0 (Scan sblock 0xffff 0 0 [] m) = Some (rootdir_done f, s')
    /\ same_fs m (fs s') /\ ready (fs s') /\ lines s' = [].
Proof.
  intros V Hm Hrounds [Ha _] Hdir Hf. destruct V as [_ _ Hok Hn32 _ Hsec Hcl [H32 _] Hmax [_ Hrs0] [Hroot0 Hroot] _]. set (n := Z.to_nat (sect_size m / 32)) in *.
  assert (sect_size m = 32 * Z.of_nat n) as Hn by (subst n; pose proof (Z.div_mod (sect_size m) 32); pose proof (Z.div_pos (sect_size m) 32); lia).
  destruct (root_loop_spec a f m n size Ha Hok Hn32 Hn Hroot0 Hmax Hroot (Z.to_nat size) 0 0 (Scan sblock 0xffff 0 0 [] m) rounds) as (s' & H);
    rewrite ?Z.add_0_r, ?Z2Nat.id by lia; try done; try lia; try apply same_fs_refl.
  - replace (n * Z.to_nat 0)%nat with O by lia. by eapply directory_good.
  - by eapply directory_look.
  - rewrite Z.add_0_r in H. by exists s'.
Qed.

Lemma read_path newblock newbuf bs m size sblock rounds filename delims t path pos buffer maxsize e l :
  volume newblock newbuf bs m size -> size <= Z.of_nat rounds ->
  lower filename = delims ++ t -> Forall delimiter delims -> path_text path t -> zlen t < 2048 ->
  resolves_root m rounds size path e -> de_size e = 0 \/ chain m (START m e) l ->
  de_size e <= zlen l * bpc m -> 0 <= de_size e -> de_size e + bpc m <= 2 ^ 32 -> 0 <= pos -> 0 <= maxsize -> pos + maxsize < 2 ^ 32 ->
  exists b, file_fat_read_at (Some d) info rounds newblock newbuf sblock filename pos buffer maxsize =
    let bytes := part pos maxsize (contents sector m e l) in Some (FatAnswer (s32 (zlen bytes)) bytes [] b).
Proof.
  intros V Hrounds Hname Hdel Hpath Hlen (a & e0 & rest & files & -> & Hdir & Hfind & Hrest) Hch Hl Hsz Hsz32 Hpos Hmaxs H32.
  pose proof V as [Hboot Hfs Hok Hn32 Hblk Hsec Hcl Hwhole Hmax [Hrs Hrs0] [Hroot0 Hroot] [Hbufl Hbuf]].
  assert (ready m) as Hready.
  { split; [done | | done]. assert (fatbuf m = newbuf /\ fatbufnum m = -1) as [Hfb Hfn] by (by rewrite Hfs). split; [by rewrite Hfb | by rewrite Hfb | by left]. }
  assert (288 <= bpc m) as H288 by nia. destruct (path_text_head _ _ Hpath) as (Hskip & Hne & _).
  unfold file_fat_read_at, do_fat_read_at. rewrite Hboot, <- Hfs, Hblk, Z.eqb_refl. cbn [negb]. rewrite lower_skip, Hname, skip_delims_app, Hskip by done.
  rewrite (proj2 (Z.leb_gt 2048 _)) by lia. rewrite <- Hrs. replace (root_cluster bs (fatsize m)) with 0 by (unfold root_cluster; by rewrite (proj2 (Z.eqb_neq _ _))).
  assert (Hcont := fun s H1 H2 => read_contents m s e l pos buffer maxsize Hready Hwhole H1 H2 Hch Hl Hsz Hsz32 Hpos Hmaxs H32).
  destruct (path_text_inv _ _ _ Hpath) as [Ha Hcase]. destruct (root_found _ _ a _ _ sblock _ _ _ _ V Hready Hrounds Ha Hdir Hfind) as (s1 & Hroot1 & Hs1 & Hm1 & Hl1).
  destruct Hcase as [[-> ->] | (ds & t' & -> & Hds & Hdl & Hp)].
  - rewrite decide_True in Hrest by done. subst e0. rewrite (dirdelim_one _ Ha). destruct a as [| c a]; [done |]. change (negb (LS_NO =? LS_NO)) with false. cbn [andb].
    rewrite Hroot1. cbn [mbind option_bind]. destruct (Hcont s1 Hs1 Hm1) as [m' ->]. cbn [mbind option_bind]. rewrite Hl1. by eexists.
  - destruct (path_text_head _ _ Hp) as (_ & _ & Hrne). rewrite decide_False in Hrest by done. destruct Hrest as [Hisdir Hres].
    rewrite (dirdelim_app _ _ _ _ Ha Hds Hdl Hp). destruct (a ++ ds ++ t'); [done |]. cbn [andb]. rewrite Hroot1. cbn [mbind option_bind negb andb]. rewrite has_directory, Hisdir.
    pose proof (length_path_text _ _ Hp). destruct (walk_spec m rounds e0 _ e Hwhole H288 Hres (S (S (length t'))) t' true (Scan [] 0xffff 0 0 (lines s1) (fs s1)) Hp Hs1 Hm1) as (s2 & He2 & Hs2 & Hm2 & Hl2); [lia |].
    change (negb (LS_NO =? LS_NO)) with false. cbn [negb]. rewrite He2. cbn [mbind option_bind]. destruct (Hcont s2 Hs2 Hm2) as [m' ->]. cbn [mbind option_bind]. rewrite Hl2. cbn [lines]. rewrite Hl1. by eexists.
Qed.
End Disk.
