(* ===== verification/FatRun.v ===== *)
(** * Theorems about FAT file systems (fs/fat/fat.c)

    What reading a file gives, and what the code does with tables that are damaged
    or cannot be read.  Module Toy is a small FAT16 disk on which the theorems are
    applied. *)

From S2P Require Import Prelude Ctype StringLib Vsprintf PartDos Fat FatFacts FatNames FatDir.

(** ** A small disk *)

Module Toy.

Definition le (n : nat) (v : Z) : list Z := (fun i => (v / 256 ^ Z.of_nat i) mod 256) <$> seq 0 n.
Definition pad (l : list Z) : list Z := take 512 (l ++ replicate 512 0).
Definition zeros (n : nat) : list Z := replicate n 0.

(** One sector for each cluster, a table of one sector, and a root directory of
    one sector. *)
Definition boot : list Z :=
  pad (zeros 11 ++ le 2 512 ++ [1] ++ le 2 1 ++ [1] ++ le 2 16 ++ zeros 3 ++ le 2 1 ++ zeros 30 ++ str "FAT16   " ++ zeros 448 ++ [0x55; 0xaa]).
Definition fat : list Z := pad (concat (le 2 <$> [0xfff8; 0xffff; 3; 5; 0xffff; 0xffff; 0xffff])).
Definition dent (name : text) (attr start size : Z) : list Z := name ++ [attr] ++ zeros 14 ++ le 2 start ++ le 4 size.
Definition vol : dir_entry := dent (str "VOL        ") 8 0 0.
Definition file : dir_entry := dent (str "FILE    BIN") 32 2 1100.
Definition subdir : dir_entry := dent (str "LONGDI~1   ") 16 6 0.
Definition lfn_slot (number : Z) (s : list Z) : dir_entry :=
  number :: concat (le 2 <$> take 5 s) ++ [0x0f; 0; 0x1c] ++ concat (le 2 <$> take 6 (drop 5 s)) ++ [0; 0] ++ concat (le 2 <$> drop 11 s).
Definition slots : list dir_entry := [lfn_slot 0x42 (str "y" ++ 0 :: replicate 11 0xffff); lfn_slot 1 (str "Long Director")].
Definition a_txt : dir_entry := dent (str "A       TXT") 32 4 5.
Definition root : list Z := pad (vol ++ file ++ concat slots ++ subdir).
Definition sub : list Z := pad (dent (str ".          ") 16 6 0 ++ dent (str "..         ") 16 0 0 ++ a_txt).
Definition image : list (list Z) := [boot; fat; root; replicate 512 1; replicate 512 2; pad (str "hello"); replicate 512 3; sub].

(** The partition starts at the block 0, and the device reads no further than the
    image. *)
Definition sector (i : Z) : list Z := default (zeros 512) (if i <? 0 then None else image !! Z.to_nat i).
Definition disk : block_dev_desc :=
  BlockDev IF_TYPE_USB 0 PART_TYPE_UNKNOWN 0 8 512 (fun s n => if s + n <=? 8 then sector <$> seqZ s n else []).
Definition info : disk_partition := Partition 0 8 512 [] [] false.

Definition newbuf : list Z := zeros 3072.
Definition m : fsdata := fsdata_of boot 16 newbuf.

Lemma disk_good : disk_ok disk info sector 8.
Proof.
  split; [done | done | | |].
  - intros i. unfold sector. destruct (i <? 0); [done |]. destruct (image !! Z.to_nat i) as [b |] eqn:Hb; [| done].
    assert (Forall (fun b : list Z => length b = 512%nat) image) as Hall by (repeat constructor). by apply (proj1 (Forall_lookup _ _) Hall _ _ Hb).
  - intros i. assert (is_bytes (zeros 512)) as Hz by (apply Forall_replicate; by vm_compute). unfold sector. destruct (i <? 0); [done |].
    destruct (image !! Z.to_nat i) as [b |] eqn:Hb; [| done].
    assert (forallb (forallb (fun x => (0 <=? x) && (x <? 256))) image = true) as Hall by (vm_compute; reflexivity).
    apply list_elem_of_lookup_2, list_elem_of_In in Hb. rewrite forallb_forall in Hall. specialize (Hall _ Hb). rewrite forallb_forall in Hall.
    apply Forall_forall. intros x Hx. apply list_elem_of_In in Hx. specialize (Hall _ Hx). apply andb_true_iff in Hall as [H1 H2]. apply Z.leb_le in H1. apply Z.ltb_lt in H2. by split.
  - intros i n Hi Hn Hin. cbn [block_read disk p_start info]. rewrite Z.add_0_l, wrap_small by lia. by rewrite (proj2 (Z.leb_le _ _)) by done.
Qed.

Lemma m_ok : fs_ok disk 8 m.
Proof. split; vm_compute; auto; repeat split; discriminate. Qed.

Lemma m_cached : cached sector m.
Proof. split; [done | apply Forall_replicate; by vm_compute | by left]. Qed.

Lemma m_ready : ready disk sector 8 m.
Proof. split; [apply m_ok | apply m_cached | done]. Qed.
End Toy.

(** A FAT12 file system on the same disk, whose cluster 6 is the sector 3, and a
    device that reads nothing. *)
Definition Toy_m12 : fsdata := Fsdata Toy.newbuf 12 1 1 2 512 1 (-3) (-1).
Definition Toy_dead : block_dev_desc := BlockDev IF_TYPE_USB 0 PART_TYPE_UNKNOWN 0 8 512 (fun _ _ => []).

(** ** The claims *)

(** C16: an entry of the table that [get_fatent] gives is the one of the bytes of
    the table, for tables of 12, 16 and 32 bits, whichever part of the table is in
    the buffer and wherever the entry crosses the words that are read; the buffer
    holds a part of the table again. *)
Theorem get_fatent_correct d info sector count m e :
  disk_ok d info sector count -> fs_ok d count m -> cached sector m -> entry_in (fatsize m) (table sector m) e -> e < 2 ^ 32 ->
  exists m', get_fatent (Some d) info m e = Some (fat_value (fatsize m) (table sector m) e, m') /\ same_fs m m' /\ cached sector m'.
Proof. intros Hd Hm Hc He H32. by eapply get_fatent_ok. Qed.

Lemma get_fatent_correct_witness :
  exists m', get_fatent (Some Toy.disk) Toy.info Toy.m 3 = Some (5, m').
Proof.
  destruct (get_fatent_correct _ _ _ _ Toy.m 3 Toy.disk_good Toy.m_ok Toy.m_cached) as (m' & H & _); [vm_compute; split; discriminate | lia |].
  exists m'. rewrite H. vm_compute. reflexivity.
Defined.

(** C15: [get_contents] writes the bytes of the file that are asked for, from
    any position on and as many as there are or as are wanted, in the order of the
    chain of clusters, whether clusters follow each other on the disk, in the
    middle of a cluster or at its border, and for every alignment of the buffer;
    it returns their number. *)
Theorem get_contents_correct d info sector count m e pos buffer maxsize l :
  disk_ok d info sector count -> ready d sector count m -> chain sector count m (START m e) l ->
  de_size e <= zlen l * (clust_size m * sect_size m) -> clust_size m * sect_size m <= MAX_CLUSTSIZE ->
  0 <= pos -> 0 <= maxsize -> pos + maxsize < 2 ^ 32 -> 0 <= de_size e -> de_size e + clust_size m * sect_size m <= 2 ^ 32 ->
  exists m', get_contents (Some d) info m e pos buffer maxsize =
    let bytes := part pos maxsize (contents sector m e l) in Some (s32 (zlen bytes), bytes, m').
Proof. intros Hd. intros. by eapply get_contents_spec. Qed.

Lemma Toy_chain : chain Toy.sector 8 Toy.m (START Toy.m Toy.file) [2; 3; 5].
Proof.
  assert (forall c, c = 2 \/ c = 3 \/ c = 5 -> cluster_ok Toy.sector 8 Toy.m c) as Hok.
  { intros c [-> | [-> | ->]]; split; vm_compute; try done; split; discriminate. }
  change (START Toy.m Toy.file) with 2. apply chain_next; [by apply Hok; left |].
  replace (fat_value _ _ 2) with 3 by (vm_compute; reflexivity). apply chain_next; [by apply Hok; right; left |].
  replace (fat_value _ _ 3) with 5 by (vm_compute; reflexivity). apply chain_one. apply Hok. by right; right.
Qed.

Lemma get_contents_correct_witness :
  exists m', get_contents (Some Toy.disk) Toy.info Toy.m Toy.file 1000 0x1003 30 = Some (30, replicate 24 2 ++ replicate 6 3, m').
Proof.
  destruct (get_contents_correct _ _ _ _ Toy.m Toy.file 1000 0x1003 30 _ Toy.disk_good Toy.m_ready Toy_chain) as [m' H]; [by vm_compute .. |].
  exists m'. rewrite H. vm_compute. reflexivity.
Defined.

(** C9: reading the file of a path from a FAT12 or FAT16 volume gives the bytes
    of that file: the path is followed from the root directory through the
    directories, where a file is found by its short name or by the long name in the
    slots in front of it, without regard to the case, and of the file the part is
    written that is asked for.  Deleted entries, volume labels and slots that begin
    no name are skipped.  A long name has at most nine slots, all of them there and
    in order; in a cluster directory they may go on in the next cluster, in the root
    directory they are in the same two sectors as their entry.  No name on the way
    begins with the letter 0xe5, nor a long one with the letter 5.  The numbers of
    the clusters of each directory on the path and of the file are in the table; a
    directory needs no end behind the entry that is found, and an empty file has
    no clusters. *)
Theorem file_fat_read_at_correct d info sector count newblock newbuf bs m size sblock rounds filename delims t path pos buffer maxsize e l :
  disk_ok d info sector count -> volume d info count newblock newbuf bs m size -> size <= Z.of_nat rounds ->
  lower filename = delims ++ t -> Forall delimiter delims -> path_text path t -> zlen t < 2048 ->
  resolves_root sector count m rounds size path e -> de_size e = 0 \/ chain sector count m (START m e) l ->
  de_size e <= zlen l * (clust_size m * sect_size m) -> 0 <= de_size e -> de_size e + clust_size m * sect_size m <= 2 ^ 32 ->
  0 <= pos -> 0 <= maxsize -> pos + maxsize < 2 ^ 32 ->
  exists b, file_fat_read_at (Some d) info rounds newblock newbuf sblock filename pos buffer maxsize =
    let bytes := part pos maxsize (contents sector m e l) in Some (FatAnswer (s32 (zlen bytes)) bytes [] b).
Proof. intros Hd. intros. by eapply read_path. Qed.

Lemma Toy_volume : volume Toy.disk Toy.info 8 (Toy.zeros 512) Toy.newbuf Toy.boot Toy.m 1.
Proof.
  split; [vm_compute; reflexivity | vm_compute; reflexivity | apply Toy.m_ok | by vm_compute | by vm_compute | by vm_compute | by vm_compute | split; by vm_compute | by vm_compute
    | split; by vm_compute | split; by vm_compute | split; [by vm_compute | apply Forall_replicate; by vm_compute]].
Qed.

Lemma Toy_one c : c = 4 \/ c = 6 -> chain Toy.sector 8 Toy.m c [c].
Proof. intros Hc. apply chain_one. destruct Hc as [-> | ->]; split; vm_compute; try done; split; discriminate. Qed.

Lemma Toy_slots : slots_ok Toy.slots.
Proof.
  split; [vm_compute; lia | |].
  - intros [| [| i]] slot [= <-]; (split; [done | split; [done | intros Hi]]); [done |]. apply (bool_decide_eq_true_1 _). vm_compute. reflexivity.
  - apply (bool_decide_eq_true_1 _). vm_compute. reflexivity.
Qed.

Lemma Toy_root : directory 32 0 (entries (sectors Toy.sector 2 1)) [(Toy.file, None); (Toy.subdir, Some (str "long directory"))].
Proof.
  assert (entries (sectors Toy.sector 2 1) = Toy.vol :: Toy.file :: Toy.slots ++ Toy.subdir :: replicate 11 (replicate 32 0)) as -> by (vm_compute; reflexivity).
  assert (regular Toy.file /\ regular Toy.subdir) as [Hf Hs] by (split; (split; [apply (bool_decide_eq_true_1 _) |]; vm_compute; reflexivity)).
  apply dir_unused; [right; by vm_compute |]. apply dir_short; [done |]. replace (str "long directory") with (long_name Toy.slots) by (vm_compute; reflexivity).
  apply dir_long; [apply Toy_slots | done | right; vm_compute; lia |]. apply dir_end; by vm_compute.
Qed.

Lemma Toy_resolves : resolves_root Toy.sector 8 Toy.m 1 1 [str "long directory"; str "a.txt"] Toy.a_txt.
Proof.
  exists (str "long directory"), Toy.subdir, [str "a.txt"], [(Toy.file, None); (Toy.subdir, Some (str "long directory"))].
  split; [done |]. split; [apply Toy_root |]. split; [vm_compute; reflexivity |]. rewrite decide_False by done. split; [done |].
  apply resolves_last with (l := [6]) (files := [(Toy.dent (str ".          ") 16 6 0, None); (Toy.dent (str "..         ") 16 0 0, None); (Toy.a_txt, None)]).
  split; [apply (Toy_one 6); by right | done | | vm_compute; reflexivity].
  assert (dir_entries Toy.sector Toy.m [6] = Toy.dent (str ".          ") 16 6 0 :: Toy.dent (str "..         ") 16 0 0 :: Toy.a_txt :: replicate 13 (replicate 32 0)) as -> by (vm_compute; reflexivity).
  do 3 (apply dir_short; [split; [apply (bool_decide_eq_true_1 _) |]; vm_compute; reflexivity |]). apply dir_end; by vm_compute.
Qed.

Lemma file_fat_read_at_correct_witness : exists b, file_fat_read_at (Some Toy.disk) Toy.info 1 (Toy.zeros 512) Toy.newbuf (Toy.zeros 1024) (str "/Long Directory\\A.txt") 0 0x1000 0
  = Some (FatAnswer 5 (str "hello") [] b).
Proof.
  destruct (file_fat_read_at_correct _ _ _ _ _ _ _ _ _ (Toy.zeros 1024) 1 (str "/Long Directory\\A.txt") (str "/") (str "long directory\\a.txt") [str "long directory"; str "a.txt"]
    0 0x1000 0 Toy.a_txt [4] Toy.disk_good Toy_volume) as [b H];
    [done | vm_compute; reflexivity | | | done | apply Toy_resolves | right; apply (Toy_one 4); by left | by vm_compute .. |].
  - repeat constructor.
  - change (str "long directory\\a.txt") with (str "long directory" ++ str "\\" ++ str "a.txt").
    assert (forall a, bool_decide (Forall (fun c => c <> 47 /\ c <> 92) a) = true -> Forall (fun c => ~ delimiter c) a) as Hc.
    { intros a Ha%bool_decide_eq_true_1. eapply Forall_impl; [exact Ha |]. intros c [H1 H2] [? | ?]; by subst. }
    apply path_cons; [split; [done | apply Hc; vm_compute; reflexivity] | done | do 2 (constructor; [by right |]); constructor |]. apply path_last. split; [done | apply Hc; vm_compute; reflexivity].
  - exists b. rewrite H. vm_compute. reflexivity.
Defined.

(** a directory of a FAT12 file system that fills its last cluster is read
    beyond its end: the code takes the marks of the end of a chain, 0xff8 to 0xfff,
    for cluster numbers, and looks for the name in the sectors that such a number
    stands for. *)
Theorem fat12_directory_goes_on d info sector count name rounds c s mark :
  disk_ok d info sector count -> ready d sector count (fs s) -> fatsize (fs s) = 12 -> whole_entries (fs s) -> cluster_ok sector count (fs s) c ->
  name <> [] -> Forall plain (dir_entries sector (fs s) [c]) -> find_entry name (dir_entries sector (fs s) [c]) = go_on ->
  fat_value 12 (table sector (fs s)) c = mark -> 0xff8 <= mark <= 0xfff ->
  exists s', get_dentfromdir (Some d) info (S rounds) false name c s = get_dentfromdir (Some d) info rounds false name mark s'
    /\ same_fs (fs s) (fs s').
Proof.
  intros Hd Hm H12 Hw Hc Hn Hp Hf Hv Hmark. rewrite (get_dentfromdir_step _ _ _ _ Hd) by done. cbv zeta. cbn [set_block fs]. rewrite Hf.
  destruct (next_entry _ _ _ _ Hd _ c [c] Hm) as (m1 & -> & Hs1 & _); [by constructor |]. cbn [mbind option_bind]. rewrite H12, Hv.
  replace (fatsize m1) with 12 by (by rewrite Hs1). assert (CHECK_CLUST mark 12 = false) as ->.
  { unfold CHECK_CLUST. cbn [Z.eqb Pos.eqb]. by rewrite (proj2 (Z.leb_gt mark 1)), (proj2 (Z.leb_gt 0xfff0 mark)) by lia. }
  by eexists.
Qed.

Lemma fat12_directory_goes_on_witness : exists s',
  get_dentfromdir (Some Toy.disk) Toy.info 5 false (str "a") 6 (Scan [] 0xffff 0 0 [] Toy_m12) =
  get_dentfromdir (Some Toy.disk) Toy.info 4 false (str "a") 0xfff s'.
Proof.
  destruct (fat12_directory_goes_on _ _ _ _ (str "a") 4 6 (Scan [] 0xffff 0 0 [] Toy_m12) 0xfff Toy.disk_good) as (s' & H & _); [| done | done | | done | | by vm_compute | by vm_compute | lia |].
  - split; [split; vm_compute; auto; repeat split; discriminate | | done]. split; [done | apply Forall_replicate; by vm_compute | by left].
  - split; vm_compute; try done; split; discriminate.
  - vm_compute. repeat constructor.
  - by exists s'.
Defined.

(** The part of the table that an entry is in starts behind the table. *)
Definition outside_table (m : fsdata) (entry : Z) : Prop :=
  exists b o, fat_place m entry = Some (b, o) /\ b <> u32 (fatbufnum m) /\ fatlength m < b * FATBUFBLOCKS /\ b * FATBUFBLOCKS + FATBUFBLOCKS < 2 ^ 32.

Lemma get_fatent_outside d info m entry : 0 <= fatlength m -> outside_table m entry -> get_fatent (Some d) info m entry = None.
Proof.
  intros Hl (b & o & Hp & Hne & Hb & H32). unfold get_fatent, load_fat. rewrite Hp, (proj2 (Z.eqb_neq _ _)) by done. unfold FATBUFBLOCKS in *.
  rewrite (wrap_small 32 (b * 6)), (wrap_small 32 (b * 6 + 6)), (proj2 (Z.ltb_lt (fatlength m) _)) by lia.
  assert (u32 (fatlength m - b * 6) = fatlength m - b * 6 + 2 ^ 32) as ->.
  { unfold wrap. rewrite <- (Z.mod_small (fatlength m - b * 6 + 2 ^ 32) (2 ^ 32)) by lia. by rewrite <- (Z_mod_plus_full (fatlength m - b * 6) 1). }
  by rewrite (proj2 (Z.ltb_lt 6 _)) by lia.
Qed.

(** C40: a directory entry whose first cluster has its number behind the table,
    and whose size is more than a cluster, makes the code ask the device for some
    four thousand million blocks into the buffer of six: the number of the blocks
    that are left of the table is computed without a sign. *)
Theorem bad_cluster_overruns_buffer d info m e buffer :
  0 <= fatlength m -> 0 < clust_size m * sect_size m -> clust_size m * sect_size m < de_size e -> de_size e < 2 ^ 32 ->
  outside_table m (START m e) -> get_contents (Some d) info m e 0 buffer 0 = None.
Proof.
  intros Hl Hb Hsz H32 Ho. unfold get_contents. rewrite (proj2 (Z.leb_gt _ _)) by lia. cbn [Z.ltb Z.compare andb]. rewrite Z.div_0_l by lia. change (S (Z.to_nat 0)) with 1%nat.
  cbn [seek]. rewrite (proj2 (Z.leb_gt _ 0)) by lia. cbn [mbind option_bind]. rewrite Z.sub_diag, (wrap_small 32 0), !Z.sub_0_r, (wrap_small 32 (de_size e)) by lia.
  cbn [Z.eqb]. cbn [extents consecutive]. rewrite (proj2 (Z.ltb_lt _ _)) by done. by rewrite get_fatent_outside.
Qed.

Lemma bad_cluster_overruns_buffer_witness :
  get_contents (Some Toy.disk) Toy.info Toy.m (Toy.dent (str "BAD     BIN") 32 0x8000 600) 0 0x1000 0 = None.
Proof. apply bad_cluster_overruns_buffer; [by vm_compute .. |]. exists 21, 512. vm_compute. repeat split; discriminate. Defined.

(** a part of the table that the device fails to read counts as read: the
    entry comes from what the buffer held before, and the same wrong entry is
    given again when the device has recovered, or is another one. *)
Theorem failed_table_read_persists d info m entry b o v :
  fat_place m entry = Some (b, o) -> b <> u32 (fatbufnum m) -> 0 <= b -> b * FATBUFBLOCKS <= fatlength m -> fatlength m + FATBUFBLOCKS < 2 ^ 32 ->
  (forall s n, block_read d s n = []) -> fat_entry m o = Some v ->
  exists m', get_fatent (Some d) info m entry = Some (v, m') /\ forall d' info', get_fatent d' info' m' entry = Some (v, m').
Proof.
  intros Hp Hne Hb Hl H32 Hd Hv. unfold FATBUFBLOCKS in *. exists (with_fatbuf (fatbuf m) b m). split.
  - unfold get_fatent, load_fat. rewrite Hp, (proj2 (Z.eqb_neq _ _)) by done. unfold FATBUFBLOCKS. rewrite (wrap_small 32 (b * 6)), (wrap_small 32 (b * 6 + 6)) by lia.
    rewrite (proj2 (Z.ltb_ge 6 _)) by (destruct (Z.ltb_spec (fatlength m) (b * 6 + 6)); [rewrite wrap_small by lia |]; lia).
    unfold disk_read. cbn [mbind option_bind]. rewrite Hd. change (s32 (zlen (@nil (list Z))) <? 0) with false. cbn [concat overlay length drop app mbind option_bind].
    change (fat_entry (with_fatbuf _ _ _) o) with (fat_entry m o). by rewrite Hv.
  - intros d' info'. unfold get_fatent, load_fat. change (fat_place (with_fatbuf _ _ _) entry) with (fat_place m entry). rewrite Hp. cbn [fatbufnum with_fatbuf].
    rewrite (wrap_small 32 b), Z.eqb_refl by lia. cbn [mbind option_bind]. change (fat_entry (with_fatbuf _ _ _) o) with (fat_entry m o). by rewrite Hv.
Qed.

Lemma failed_table_read_persists_witness :
  exists m', get_fatent (Some Toy_dead) Toy.info Toy.m 3 = Some (0, m') /\ get_fatent (Some Toy.disk) Toy.info m' 3 = Some (0, m').
Proof.
  destruct (failed_table_read_persists Toy_dead Toy.info Toy.m 3 0 3 0) as (m' & H1 & H2); [by vm_compute .. | done | by vm_compute |].
  exists m'. split; [exact H1 | apply H2].
Defined.
