(* ===== verification/NandBbt.v ===== *)
(** * The bad block table of a NAND chip (drivers/mtd/nand/nand_bbt.c)

    Two bits for each block, in memory and on the flash, where the table has a
    mirror.  The driver below is the interface [NandDriver]; the arrays of the
    descriptors have one element, and there is one chip (CONFIG_SYS_NAND_MAX_CHIPS
    is 1), which was scanned at the start and has no BBT_AUTO_REFRESH.  A buffer is
    a list of bytes; [None] is a fault: an access outside of the table or of a
    buffer, a BUG_ON, or a loop that does not end.  Allocations succeed; what new
    memory holds is a parameter.  The counters of the bad blocks and the messages
    are left out. *)

From S2P Require Import Prelude.

Definition EIO : Z := 5.
Definition EINVAL : Z := 22.
Definition ENOSPC : Z := 28.
Definition EBADMSG : Z := 74.
Definition EUCLEAN : Z := 117.

Definition NAND_BBT_NRBITS_MSK : Z := 0x0000000F.
Definition NAND_BBT_2BIT : Z := 0x00000002.
Definition NAND_BBT_LASTBLOCK : Z := 0x00000010.
Definition NAND_BBT_ABSPAGE : Z := 0x00000020.
Definition NAND_BBT_PERCHIP : Z := 0x00000080.
Definition NAND_BBT_VERSION : Z := 0x00000100.
Definition NAND_BBT_CREATE : Z := 0x00000200.
Definition NAND_BBT_CREATE_EMPTY : Z := 0x00000400.
Definition NAND_BBT_SCANALLPAGES : Z := 0x00000800.
Definition NAND_BBT_SCANEMPTY : Z := 0x00001000.
Definition NAND_BBT_WRITE : Z := 0x00002000.
Definition NAND_BBT_SAVECONTENT : Z := 0x00004000.
Definition NAND_BBT_SCAN2NDPAGE : Z := 0x00008000.
Definition NAND_BBT_SCANLASTPAGE : Z := 0x00010000.
Definition NAND_BBT_USE_FLASH : Z := 0x00020000.
Definition NAND_BBT_NO_OOB : Z := 0x00040000.
Definition NAND_BBT_NO_OOB_BBM : Z := 0x00080000.
Definition NAND_BBT_SCAN_MAXBLOCKS : Z := 4.

(** A descriptor; the page is -1 when there is none. *)
Record nand_bbt_descr := Descr {
  bd_options : Z; bd_page : Z; bd_offs : Z; bd_veroffs : Z; bd_version : Z; bd_len : Z; bd_maxblocks : Z; bd_reserved : Z; bd_pattern : list Z }.

Definition flag (options f : Z) : bool := negb (Z.land options f =? 0).
Definition opt (td : nand_bbt_descr) (f : Z) : bool := flag (bd_options td) f.
Definition set_page (p : Z) (td : nand_bbt_descr) : nand_bbt_descr :=
  Descr (bd_options td) p (bd_offs td) (bd_veroffs td) (bd_version td) (bd_len td) (bd_maxblocks td) (bd_reserved td) (bd_pattern td).
Definition set_version (v : Z) (td : nand_bbt_descr) : nand_bbt_descr :=
  Descr (bd_options td) (bd_page td) (bd_offs td) (bd_veroffs td) v (bd_len td) (bd_maxblocks td) (bd_reserved td) (bd_pattern td).
Definition set_options (o : Z) (td : nand_bbt_descr) : nand_bbt_descr :=
  Descr o (bd_page td) (bd_offs td) (bd_veroffs td) (bd_version td) (bd_len td) (bd_maxblocks td) (bd_reserved td) (bd_pattern td).

(** The geometry of the chip and its options. *)
Record nand_chip := Geometry {
  mtd_size : Z; chipsize : Z; page_shift : Z; bbt_erase_shift : Z; chip_shift : Z; erasesize : Z; writesize : Z; oobsize : Z;
  badblockpos : Z; buswidth_16 : bool; bbt_options : Z }.

(** The functions of the driver, with the results of the source: reading gives
    the bytes that are stored; erasing is the one of a block at an address. *)
Class NandDriver (D : Type) := {
  drv_read : D -> Z -> Z -> Z * list Z;                        (* address, length *)
  drv_read_oob : D -> Z -> Z -> Z -> Z * list Z * list Z;      (* address, length of the data, of the spare bytes *)
  drv_write_oob : D -> Z -> list Z -> option (list Z) -> D * Z;
  drv_erase : D -> Z -> D * Z;
  drv_write_marker : D -> Z -> Z -> list Z -> D * Z;           (* address, place among the spare bytes *)
  drv_block_bad : D -> Z -> Z }.

Definition mtd_is_bitflip (err : Z) : bool := err =? - EUCLEAN.
Definition mtd_is_eccerr (err : Z) : bool := err =? - EBADMSG.
Definition mtd_is_bitflip_or_eccerr (err : Z) : bool := mtd_is_bitflip err || mtd_is_eccerr err.

(** ** Buffers *)

Definition slice (buf : list Z) (i n : Z) : option (list Z) :=
  if (0 <=? i) && (0 <=? n) && (i + n <=? zlen buf) then Some (take (Z.to_nat n) (drop (Z.to_nat i) buf)) else None.
Definition put (buf : list Z) (i : Z) (bytes : list Z) : option (list Z) :=
  if (0 <=? i) && (i + zlen bytes <=? zlen buf) then Some (take (Z.to_nat i) buf ++ bytes ++ drop (Z.to_nat i + length bytes) buf) else None.
Definition get (buf : list Z) (i : Z) : option Z := if 0 <=? i then buf !! Z.to_nat i else None.
Definition set (buf : list Z) (i v : Z) : option (list Z) := put buf i [v].
Definition all_ff (l : list Z) : bool := forallb (fun b => b =? 0xff) l.

(** ** Patterns *)

Definition pattern (td : nand_bbt_descr) : list Z := take (Z.to_nat (bd_len td)) (bd_pattern td).

Definition check_pattern_no_oob (buf : list Z) (td : nand_bbt_descr) : option bool :=
  p ← slice buf 0 (bd_len td); Some (bool_decide (p = pattern td)).

(** Whether the pattern is there. *)
Definition check_pattern (buf : list Z) (len paglen : Z) (td : nand_bbt_descr) : option bool :=
  if opt td NAND_BBT_NO_OOB then check_pattern_no_oob buf td
  else
    let end_ := paglen + bd_offs td in
    front ← (if opt td NAND_BBT_SCANEMPTY then slice buf 0 end_ else Some []);
    if negb (all_ff front) then Some false
    else
      p ← slice buf end_ (bd_len td);
      if negb (bool_decide (p = pattern td)) then Some false
      else if opt td NAND_BBT_SCANEMPTY then rest ← slice buf (end_ + bd_len td) (len - (end_ + bd_len td)); Some (all_ff rest)
      else Some true.

Definition check_short_pattern (buf : list Z) (td : nand_bbt_descr) : option bool :=
  p ← slice buf (bd_offs td) (bd_len td); Some (bool_decide (p = pattern td)).

Definition add_marker_len (td : nand_bbt_descr) : Z :=
  if negb (opt td NAND_BBT_NO_OOB) then 0 else if opt td NAND_BBT_VERSION then u32 (bd_len td + 1) else u32 (bd_len td).

Section Bbt.
Context {D : Type} `{NandDriver D} (chip : nand_chip).

Definition mtd_read (d : D) (from len : Z) : Z * list Z :=
  if (from <? 0) || (mtd_size chip <? from) || (mtd_size chip - from <? len) then (- EINVAL, [])
  else if len =? 0 then (0, [])
  else drv_read d from len.

(** ** Reading a table *)

(** The bits of a code in the table on the flash; the code of a block there. *)
Definition bits_of (td : nand_bbt_descr) : Z := Z.land (bd_options td) NAND_BBT_NRBITS_MSK.
Definition msk_of (bits : Z) : Z := u8 (Z.shiftl 1 bits - 1).

Definition or_at (bbt : list Z) (i v : Z) : option (list Z) := b ← get bbt i; set bbt i (u8 (Z.lor b v)).

(** One code of the flash; [act] is twice the number of the block. *)
Definition read_code (msk reserved offs : Z) (tmp act : Z) (bbt : list Z) : option (list Z) :=
  let mark := fun v => or_at bbt (offs + Z.shiftr act 3) (Z.shiftl v (Z.land act 0x06)) in
  if tmp =? msk then Some bbt
  else if negb (reserved =? 0) && (tmp =? reserved) then mark 2
  else if tmp =? 0 then mark 3 else mark 1.

(** The places [0], [bits], ... below 8. *)
Definition places (bits : Z) : list Z := (fun k => Z.of_nat k * bits) <$> seq 0 (Z.to_nat ((8 + bits - 1) / bits)).

Fixpoint read_codes (bits reserved offs dat : Z) (js : list Z) (act : Z) (bbt : list Z) : option (list Z * Z) :=
  match js with
  | [] => Some (bbt, act)
  | j :: js => bbt ← read_code (msk_of bits) reserved offs (Z.land (Z.shiftr dat j) (msk_of bits)) act bbt; read_codes bits reserved offs dat js (act + 2) bbt
  end.

Fixpoint read_bytes (bits reserved offs : Z) (bytes : list Z) (act : Z) (bbt : list Z) : option (list Z * Z) :=
  match bytes with
  | [] => Some (bbt, act)
  | dat :: bytes => '(bbt, act) ← read_codes bits reserved offs dat (places bits) act bbt; read_bytes bits reserved offs bytes act bbt
  end.

(** The result, the table and the buffer.  A round reads a part of the table, all
    but perhaps the first one a part that is not empty. *)
Fixpoint read_bbt_loop (fuel : nat) (d : D) (td : nand_bbt_descr) (offs from totlen marker_len act ret : Z) (bbt buf : list Z) :
    option (Z * list Z * list Z) :=
  if totlen =? 0 then Some (ret, bbt, buf)
  else
    match fuel with
    | O => None
    | S fuel =>
        let len := u32 (Z.min totlen (Z.shiftl 1 (bbt_erase_shift chip)) - marker_len) in
        let from := from + marker_len in
        let '(res, bytes) := mtd_read d from len in
        buf ← put buf 0 bytes;
        if (res <? 0) && negb (mtd_is_bitflip res) then Some (res, bbt, buf)
        else
          let ret := if res <? 0 then res else ret in
          data ← slice buf 0 len;
          '(bbt, act) ← read_bytes (bits_of td) (bd_reserved td) offs data act bbt;
          read_bbt_loop fuel d td offs (from + len) (u32 (totlen - len)) 0 act ret bbt buf
    end.

Definition read_bbt (d : D) (page num : Z) (td : nand_bbt_descr) (offs : Z) (bbt buf : list Z) : option (Z * list Z * list Z) :=
  let totlen := Z.shiftr (num * bits_of td) 3 in
  read_bbt_loop (S (S (Z.to_nat totlen))) d td offs (Z.shiftl page (page_shift chip)) totlen (add_marker_len td) 0 0 bbt buf.

Definition blocks_of (size : Z) : Z := s32 (Z.shiftr size (bbt_erase_shift chip)).

(** The number of blocks that a table is about. *)
Definition numblocks (td : nand_bbt_descr) : Z := blocks_of (if opt td NAND_BBT_PERCHIP then chipsize chip else mtd_size chip).

Definition read_abs_bbt (d : D) (td : nand_bbt_descr) (chipsel : Z) (bbt buf : list Z) : option (Z * list Z * list Z) :=
  if opt td NAND_BBT_PERCHIP && negb ((chipsel =? -1) || (chipsel =? 0)) then Some (0, bbt, buf)
  else read_bbt d (bd_page td) (numblocks td) td 0 bbt buf.

(** ** Scanning *)

(** The result and the buffer. *)
Definition scan_read_data (d : D) (buf : list Z) (offs : Z) (td : nand_bbt_descr) : option (Z * list Z) :=
  let '(res, bytes) := mtd_read d offs (if opt td NAND_BBT_VERSION then bd_len td + 1 else bd_len td) in
  buf ← put buf 0 bytes; Some (res, buf).

(** Page by page, from the place [i] of the buffer on. *)
Fixpoint scan_read_oob_loop (fuel : nat) (d : D) (buf : list Z) (i offs len ret : Z) : option (Z * list Z) :=
  if len =? 0 then Some (ret, buf)
  else
    match fuel with
    | O => None
    | S fuel =>
        let n := Z.min len (writesize chip) in
        let '(res, data, oob) := drv_read_oob d offs n (oobsize chip) in
        buf ← put buf i data;
        buf ← put buf (i + n) oob;
        if negb (res =? 0) && negb (mtd_is_bitflip_or_eccerr res) then Some (res, buf)
        else
          let ret := if negb (res =? 0) && (mtd_is_eccerr res || (ret =? 0)) then res else ret in
          scan_read_oob_loop fuel d buf (i + oobsize chip + writesize chip) (offs + writesize chip) (u32 (len - writesize chip)) ret
    end.

(** A length that is not a multiple of the pages wraps, and the buffer ends. *)
Definition scan_read_oob (d : D) (buf : list Z) (offs len : Z) : option (Z * list Z) :=
  scan_read_oob_loop (S (length buf)) d buf 0 offs len 0.

Definition scan_read (d : D) (buf : list Z) (offs len : Z) (td : nand_bbt_descr) : option (Z * list Z) :=
  if opt td NAND_BBT_NO_OOB then scan_read_data d buf offs td else scan_read_oob d buf offs len.

Definition bbt_get_ver_offs (td : nand_bbt_descr) : Z :=
  if opt td NAND_BBT_NO_OOB then bd_veroffs td else bd_veroffs td + writesize chip.

(** The version of a table at its page. *)
Definition read_version (d : D) (buf : list Z) (td : nand_bbt_descr) : option (list Z * nand_bbt_descr) :=
  if opt td NAND_BBT_VERSION then
    '(_, buf) ← scan_read d buf (Z.shiftl (bd_page td) (page_shift chip)) (writesize chip) td;
    v ← get buf (bbt_get_ver_offs td); Some (buf, set_version v td)
  else Some (buf, td).

Definition read_abs_bbts (d : D) (buf : list Z) (td : nand_bbt_descr) (md : option nand_bbt_descr) :
    option (list Z * nand_bbt_descr * option nand_bbt_descr) :=
  '(buf, td) ← read_version d buf td;
  match md with
  | None => Some (buf, td, None)
  | Some md => '(buf, md) ← read_version d buf md; Some (buf, td, Some md)
  end.

Fixpoint patterns_ok (n : nat) (buf : list Z) (i scanlen : Z) (bd : nand_bbt_descr) : option bool :=
  match n with
  | O => Some true
  | S n => ok ← check_pattern (drop (Z.to_nat i) buf) scanlen (writesize chip) bd; if (ok : bool) then patterns_ok n buf (i + scanlen) scanlen bd else Some false
  end.

Definition scan_block_full (d : D) (bd : nand_bbt_descr) (offs : Z) (buf : list Z) (readlen scanlen numpages : Z) : option (Z * list Z) :=
  '(ret, buf) ← scan_read_oob d buf offs readlen;
  if negb (ret =? 0) && negb (mtd_is_bitflip_or_eccerr ret) then Some (ret, buf)
  else ok ← patterns_ok (Z.to_nat numpages) buf 0 scanlen bd; Some (if (ok : bool) then 0 else 1, buf).

Fixpoint scan_block_fast (n : nat) (d : D) (bd : nand_bbt_descr) (offs : Z) (buf : list Z) : option (Z * list Z) :=
  match n with
  | O => Some (0, buf)
  | S n =>
      let '(ret, _, oob) := drv_read_oob d offs 0 (oobsize chip) in
      buf ← put buf 0 oob;
      if negb (ret =? 0) && negb (mtd_is_bitflip_or_eccerr ret) then Some (ret, buf)
      else
        ok ← check_short_pattern buf bd;
        if (ok : bool) then scan_block_fast n d bd (offs + writesize chip) buf else Some (1, buf)
  end.

Definition numpages (bd : nand_bbt_descr) : Z :=
  if opt bd NAND_BBT_SCANALLPAGES then Z.shiftl 1 (bbt_erase_shift chip - page_shift chip)
  else if opt bd NAND_BBT_SCAN2NDPAGE then 2 else 1.

(** The blocks from [i / 2] on. *)
Fixpoint create_loop (n : nat) (d : D) (bd : nand_bbt_descr) (readlen scanlen : Z) (i from : Z) (bbt buf : list Z) : option (Z * list Z * list Z) :=
  match n with
  | O => Some (0, bbt, buf)
  | S n =>
      if opt bd NAND_BBT_NO_OOB then None
      else
        '(ret, buf) ← (if opt bd NAND_BBT_SCANALLPAGES then scan_block_full d bd from buf readlen scanlen (numpages bd)
                       else scan_block_fast (Z.to_nat (numpages bd)) d bd from buf);
        if ret <? 0 then Some (ret, bbt, buf)
        else
          bbt ← (if negb (ret =? 0) then or_at bbt (Z.shiftr i 3) (Z.shiftl 3 (Z.land i 0x6)) else Some bbt);
          create_loop n d bd readlen scanlen (i + 2) (from + Z.shiftl 1 (bbt_erase_shift chip)) bbt buf
  end.

Definition create_bbt (d : D) (bd : nand_bbt_descr) (chipsel : Z) (bbt buf : list Z) : option (Z * list Z * list Z) :=
  let '(scanlen, readlen) := if negb (opt bd NAND_BBT_SCANEMPTY) then (0, bd_len bd)
                             else (writesize chip + oobsize chip, u32 (numpages bd * writesize chip)) in
  if negb (chipsel =? -1) && (1 <=? chipsel) then Some (- EINVAL, bbt, buf)
  else
    let n := s32 (Z.shiftr (if chipsel =? -1 then mtd_size chip else chipsize chip) (bbt_erase_shift chip - 1)) in
    let from := if flag (bbt_options chip) NAND_BBT_SCANLASTPAGE then u32 (erasesize chip - writesize chip * numpages bd) else 0 in
    create_loop (Z.to_nat ((n + 1) / 2)) d bd readlen scanlen 0 from bbt buf.

(** ** Searching a table *)

(** The blocks from [actblock] on in the direction [dir]. *)
Fixpoint search_loop (n : nat) (d : D) (td : nand_bbt_descr) (actblock dir : Z) (buf : list Z) : option (nand_bbt_descr * list Z) :=
  match n with
  | O => Some (td, buf)
  | S n =>
      '(_, buf) ← scan_read d buf (Z.shiftl actblock (bbt_erase_shift chip)) (writesize chip) td;
      ok ← check_pattern buf (writesize chip + oobsize chip) (writesize chip) td;
      if (ok : bool) then
        let td := set_page (Z.shiftl actblock (bbt_erase_shift chip - page_shift chip)) td in
        if opt td NAND_BBT_VERSION then v ← get buf (bbt_get_ver_offs td); Some (set_version v td, buf) else Some (td, buf)
      else search_loop n d td (actblock + dir) dir buf
  end.

Definition search_bbt (d : D) (td : nand_bbt_descr) (buf : list Z) : option (nand_bbt_descr * list Z) :=
  let '(startblock, dir) := if opt td NAND_BBT_LASTBLOCK then (s32 (Z.shiftr (mtd_size chip) (bbt_erase_shift chip) - 1), -1) else (0, 1) in
  let startblock := if opt td NAND_BBT_PERCHIP then Z.land startblock (numblocks td - 1) else startblock in
  search_loop (Z.to_nat (bd_maxblocks td)) d (set_page (-1) (set_version 0 td)) startblock dir buf.

Definition search_read_bbts (d : D) (buf : list Z) (td : nand_bbt_descr) (md : option nand_bbt_descr) :
    option (list Z * nand_bbt_descr * option nand_bbt_descr) :=
  '(td, buf) ← search_bbt d td buf;
  match md with
  | None => Some (buf, td, None)
  | Some md => '(md, buf) ← search_bbt d md buf; Some (buf, td, Some md)
  end.

(** ** Bad blocks *)

(** The code of a block in the memory table. *)
Definition code_of (bbt : list Z) (block : Z) : option Z :=
  b ← get bbt (Z.shiftr block 2); Some (Z.land (Z.shiftr b (2 * Z.land block 0x03)) 0x03).

Definition nand_isbad_bbt (bbt : list Z) (offs : Z) (allowbbt : bool) : option bool :=
  let block := s32 (Z.shiftr offs (bbt_erase_shift chip - 1)) in
  b ← get bbt (Z.shiftr block 3);
  let res := Z.land (Z.shiftr b (Z.land block 0x06)) 0x03 in
  Some (if res =? 0 then false else if res =? 1 then true else if res =? 2 then negb allowbbt else true).

(** An error for a place or a length that is not a multiple of the blocks. *)
Definition check_offs_len (ofs len : Z) : Z :=
  let mask := Z.shiftl 1 (bbt_erase_shift chip) - 1 in
  if negb (Z.land ofs mask =? 0) || negb (Z.land len mask =? 0) then - EINVAL else 0.

(** Erasing one block without scrubbing: a bad one is not erased. *)
Definition nand_erase_nand (d : D) (bbt : option (list Z)) (addr : Z) (allowbbt : bool) : option (D * Z) :=
  if negb (check_offs_len addr (Z.shiftl 1 (bbt_erase_shift chip)) =? 0) then Some (d, - EINVAL)
  else
    bad ← (match bbt with Some t => nand_isbad_bbt t addr allowbbt | None => Some (negb (drv_block_bad d addr =? 0)) end);
    Some (if (bad : bool) then (d, - EIO) else drv_erase d addr).

(** ** Writing a table *)

(** The page of a new table: the first block that is not bad and is not the one
    of the mirror. *)
Fixpoint find_place (n : nat) (bbt : list Z) (md : option nand_bbt_descr) (block dir : Z) : option (option Z) :=
  match n with
  | O => Some None
  | S n =>
      c ← code_of bbt block;
      if (c =? 1) || (c =? 3) then find_place n bbt md (block + dir) dir
      else
        let page := Z.shiftl block (bbt_erase_shift chip - page_shift chip) in
        if match md with None => true | Some md => negb (bd_page md =? page) end then Some (Some page) else find_place n bbt md (block + dir) dir
  end.

Definition place (bbt : list Z) (td : nand_bbt_descr) (md : option nand_bbt_descr) : option (option Z) :=
  if negb (bd_page td =? -1) then Some (Some (bd_page td))
  else
    let '(startblock, dir) := if opt td NAND_BBT_LASTBLOCK then (numblocks td - 1, -1) else (0, 1) in
    find_place (Z.to_nat (bd_maxblocks td)) bbt md startblock dir.

(** The shift and the mask of the bits, and what the four codes clear. *)
Definition masks (bits rcode : Z) : option (Z * Z * list Z) :=
  let m2 := u8 (Z.lnot rcode) in
  if bits =? 1 then Some (3, 0x07, [0; 0x01; m2; 0x01])
  else if bits =? 2 then Some (2, 0x06, [0; 0x01; m2; 0x03])
  else if bits =? 4 then Some (1, 0x04, [0; 0x0C; m2; 0x0f])
  else if bits =? 8 then Some (0, 0, [0; 0x0F; m2; 0xff])
  else None.

(** The codes of the blocks from [i] on, of which [n] are left in the byte. *)
Fixpoint write_codes (n : nat) (sft sftmsk : Z) (msk : list Z) (offs i dat : Z) (buf : list Z) : option (list Z) :=
  match n with
  | O => Some buf
  | S n =>
      let sftcnt := Z.land (Z.shiftl i (3 - sft)) sftmsk in
      m ← get msk (Z.land dat 0x03);
      b ← get buf (offs + Z.shiftr i sft);
      buf ← set buf (offs + Z.shiftr i sft) (u8 (Z.land b (Z.lnot (Z.shiftl m sftcnt))));
      write_codes n sft sftmsk msk offs (i + 1) (Z.shiftr dat 2) buf
  end.

(** The bytes of the memory table from [i / 4] on. *)
Fixpoint write_table (n : nat) (sft sftmsk : Z) (msk : list Z) (offs i : Z) (bbt buf : list Z) : option (list Z) :=
  match n with
  | O => Some buf
  | S n =>
      dat ← get bbt (Z.shiftr i 2);
      buf ← write_codes 4 sft sftmsk msk offs i dat buf;
      write_table n sft sftmsk msk offs (i + 4) bbt buf
  end.

Definition align (len a : Z) : Z := Z.land (len + a - 1) (Z.lnot (a - 1)).
Definition fill (buf : list Z) (i n : Z) : option (list Z) := if 0 <=? n then put buf i (replicate (Z.to_nat n) 0xff) else None.

(** The preparation of the buffer: an error, or the address, the length, the
    buffer, and in it the places of the table and of the spare bytes. *)
Definition prepare (d : D) (buf : list Z) (td : nand_bbt_descr) (page sft : Z) : option (Z + Z * Z * list Z * Z * Z) :=
  let to := Z.shiftl page (page_shift chip) in
  let tablen := Z.shiftr (numblocks td) sft in
  if opt td NAND_BBT_SAVECONTENT then
    let len := Z.shiftl 1 (bbt_erase_shift chip) in
    let to := Z.land to (Z.lnot (len - 1)) in
    let '(res, bytes) := mtd_read d to len in
    buf ← put buf 0 bytes;
    if (res <? 0) && negb (zlen bytes =? len) then Some (inl res)
    else
      let ooblen := Z.shiftr len (page_shift chip) * oobsize chip in
      let '(res, _, oob) := drv_read_oob d (to + writesize chip) 0 ooblen in
      buf ← put buf len oob;
      if (res <? 0) || negb (zlen oob =? ooblen) then Some (inl res)
      else
        let pageoffs := page - Z.shiftr to (page_shift chip) in
        let offs := Z.shiftl pageoffs (page_shift chip) in
        buf ← fill buf offs tablen;
        Some (inr (to, len, buf, offs, len + pageoffs * oobsize chip))
  else if opt td NAND_BBT_NO_OOB then
    let offs := if opt td NAND_BBT_VERSION then bd_len td + 1 else bd_len td in
    let len := align (tablen + offs) (writesize chip) in
    buf ← fill buf 0 len;
    buf ← put buf 0 (pattern td);
    Some (inr (to, len, buf, offs, 0))
  else
    let len := align tablen (writesize chip) in
    buf ← fill buf 0 (len + Z.shiftr len (page_shift chip) * oobsize chip);
    buf ← put buf (len + bd_offs td) (pattern td);
    Some (inr (to, len, buf, 0, len)).

(** The result, the device and the descriptor.  Of the spare bytes those of the
    first page are written.  Nothing is read from the buffer later. *)
Definition write_bbt (d : D) (bbt buf : list Z) (td : nand_bbt_descr) (md : option nand_bbt_descr) (chipsel : Z) : option (Z * D * nand_bbt_descr) :=
  let rcode := if u8 (bd_reserved td) =? 0 then 0xff else u8 (bd_reserved td) in
  if opt td NAND_BBT_PERCHIP && negb (chipsel =? -1) && negb (chipsel =? 0) then None
  else
    p ← place bbt td md;
    match p with
    | None => Some (- ENOSPC, d, td)
    | Some page =>
        match masks (bits_of td) rcode with
        | None => Some (- EINVAL, d, td)
        | Some (sft, sftmsk, msk) =>
            r ← prepare d buf td page sft;
            match r with
            | inl res => Some (res, d, td)
            | inr (to, len, buf, offs, ooboffs) =>
                buf ← (if opt td NAND_BBT_VERSION then set buf (ooboffs + bd_veroffs td) (bd_version td) else Some buf);
                buf ← write_table (Z.to_nat ((numblocks td + 3) / 4)) sft sftmsk msk offs 0 bbt buf;
                '(d, res) ← nand_erase_nand d (Some bbt) to true;
                if res <? 0 then Some (res, d, td)
                else
                  data ← slice buf 0 len;
                  oob ← (if opt td NAND_BBT_NO_OOB then Some None else o ← slice buf len (oobsize chip); Some (Some o));
                  let '(d, res) := drv_write_oob d to data oob in
                  if res <? 0 then Some (res, d, td) else Some (0, d, set_page page td)
            end
        end
    end.

(** ** The tables of a chip *)

Record state := State { bbt : option (list Z); bbt_td : option nand_bbt_descr; bbt_md : option nand_bbt_descr; dev : D }.

Definition set_bbt (t : list Z) (s : state) : state := State (Some t) (bbt_td s) (bbt_md s) (dev s).

(** Which table is read, which of them are written, and whether a table is
    created, from the pages and the versions. *)
Inductive source := from_td | from_md | from_both | from_none.

Definition decide_tables (td : nand_bbt_descr) (md : option nand_bbt_descr) : bool * Z * source :=
  match md with
  | Some md =>
      if (bd_page td =? -1) && (bd_page md =? -1) then (true, 3, from_none)
      else if bd_page td =? -1 then (false, 1, from_md)
      else if bd_page md =? -1 then (false, 2, from_td)
      else if bd_version td =? bd_version md then (false, 0, if negb (opt td NAND_BBT_VERSION) then from_both else from_td)
      else if 0 <? s8 (bd_version td - bd_version md) then (false, 2, from_td)
      else (false, 1, from_md)
  | None => if bd_page td =? -1 then (true, 1, from_none) else (false, 0, from_td)
  end.

Definition invalidate (td : nand_bbt_descr) : nand_bbt_descr := set_page (-1) (set_version 0 td).

(** The table that is read, and the mirror of tables without versions. *)
Definition read_first (d : D) (rd : source) (td : nand_bbt_descr) (md : option nand_bbt_descr) (chipsel : Z) (t buf : list Z) : option (Z * list Z * list Z) :=
  match rd, md with
  | from_none, _ => Some (0, t, buf)
  | from_md, Some md => read_abs_bbt d md chipsel t buf
  | _, _ => read_abs_bbt d td chipsel t buf
  end.
Definition read_second (d : D) (rd : source) (md : option nand_bbt_descr) (chipsel : Z) (t buf : list Z) : option (Z * list Z * list Z) :=
  match rd, md with from_both, Some md => read_abs_bbt d md chipsel t buf | _, _ => Some (0, t, buf) end.

(** Every other round invalidates a table, so three rounds are enough.  The result
    of [create_bbt] is not used. *)
Fixpoint check_create_loop (fuel : nat) (d : D) (bd td : nand_bbt_descr) (md : option nand_bbt_descr) (t buf : list Z) : option (Z * state) :=
  match fuel with
  | O => None
  | S fuel =>
      let chipsel := if opt td NAND_BBT_PERCHIP then 0 else -1 in
      let '(create, writeops, rd) := decide_tables td md in
      if create && negb (opt td NAND_BBT_CREATE) then Some (0, State (Some t) (Some td) md d)
      else
        '(t, buf) ← (if create && negb (flag (bbt_options chip) NAND_BBT_CREATE_EMPTY) then '(_, t, buf) ← create_bbt d bd chipsel t buf; Some (t, buf)
                     else Some (t, buf));
        let '(td, md) := if create then (set_version 1 td, set_version 1 <$> md) else (td, md) in
        '(res, t, buf) ← read_first d rd td md chipsel t buf;
        if mtd_is_eccerr res then
          match rd with
          | from_md => check_create_loop fuel d bd td (invalidate <$> md) t buf
          | _ => check_create_loop fuel d bd (invalidate td) md t buf
          end
        else
          '(res2, t, buf) ← read_second d rd md chipsel t buf;
          if mtd_is_eccerr res2 then check_create_loop fuel d bd td (invalidate <$> md) t buf
          else
            let writeops := if mtd_is_bitflip res || mtd_is_bitflip res2 then 3 else writeops in
            let '(td, md) := match md with
              | Some md => let v := Z.max (bd_version td) (bd_version md) in (set_version v td, Some (set_version v md))
              | None => (td, None)
              end in
            '(res, d, td) ← (if negb (Z.land writeops 1 =? 0) && opt td NAND_BBT_WRITE then write_bbt d t buf td md chipsel else Some (0, d, td));
            if res <? 0 then Some (res, State (Some t) (Some td) md d)
            else
              match md with
              | Some md =>
                  if negb (Z.land writeops 2 =? 0) && opt md NAND_BBT_WRITE then
                    '(res, d, md) ← write_bbt d t buf md (Some td) chipsel;
                    Some (if res <? 0 then res else 0, State (Some t) (Some td) (Some md) d)
                  else Some (0, State (Some t) (Some td) (Some md) d)
              | None => Some (0, State (Some t) (Some td) None d)
              end
  end.

Definition check_create (d : D) (bd td : nand_bbt_descr) (md : option nand_bbt_descr) (t buf : list Z) : option (Z * state) :=
  check_create_loop 3 d bd td md t buf.

(** The temporary buffer is new memory of this length. *)
Definition buffer_length : Z := Z.shiftl 1 (bbt_erase_shift chip) + Z.shiftr (Z.shiftl 1 (bbt_erase_shift chip)) (page_shift chip) * oobsize chip.

Definition nand_update_bbt (s : state) (offs : Z) (buf : list Z) : option (Z * state) :=
  match bbt s, bbt_td s with
  | Some t, Some td =>
      let chip_nr := if opt td NAND_BBT_PERCHIP then s32 (Z.shiftr offs (chip_shift chip)) else 0 in
      if negb (chip_nr =? 0) then None
      else
        let chipsel := if opt td NAND_BBT_PERCHIP then 0 else -1 in
        let td := set_version (u8 (bd_version td + 1)) td in
        let md := (fun md => set_version (u8 (bd_version md + 1)) md) <$> bbt_md s in
        '(res, d, td) ← (if opt td NAND_BBT_WRITE then write_bbt (dev s) t buf td md chipsel else Some (0, dev s, td));
        if res <? 0 then Some (res, State (Some t) (Some td) md d)
        else
          match md with
          | Some md =>
              if opt md NAND_BBT_WRITE then
                '(res, d, md) ← write_bbt d t buf md (Some td) chipsel; Some (res, State (Some t) (Some td) (Some md) d)
              else Some (res, State (Some t) (Some td) (Some md) d)
          | None => Some (res, State (Some t) (Some td) None d)
          end
  | _, _ => Some (- EINVAL, s)
  end.

(** The blocks from [block / 2] on are reserved: the table, and whether one was
    not reserved before. *)
Fixpoint reserve (n : nat) (block : Z) (t : list Z) (update : bool) : option (list Z * bool) :=
  match n with
  | O => Some (t, update)
  | S n =>
      oldval ← get t (Z.shiftr block 3);
      let newval := u8 (Z.lor oldval (Z.shiftl 2 (Z.land block 0x06))) in
      t ← set t (Z.shiftr block 3) newval;
      reserve n (block + 2) t (update || negb (oldval =? newval))
  end.

Definition mark_bbt_region (s : state) (td : nand_bbt_descr) (buf : list Z) : option state :=
  t ← bbt s;
  let mark := fun n block offs =>
    '(t, update) ← reserve n block t false;
    let s := set_bbt t s in
    if update && negb (bd_reserved td =? 0) then '(_, s) ← nand_update_bbt s offs buf; Some s else Some s in
  if opt td NAND_BBT_ABSPAGE || negb (opt td NAND_BBT_WRITE) then
    if bd_page td =? -1 then Some s
    else
      let block := Z.shiftl (Z.shiftr (bd_page td) (bbt_erase_shift chip - page_shift chip)) 1 in
      mark 1%nat block (Z.shiftl block (bbt_erase_shift chip - 1))
  else
    let block := Z.shiftl (if opt td NAND_BBT_LASTBLOCK then numblocks td - bd_maxblocks td else 0) 1 in
    mark (Z.to_nat (bd_maxblocks td)) block (Z.shiftl (block + 2 * bd_maxblocks td - 2) (bbt_erase_shift chip - 1)).

(** Whether a descriptor fails one of the checks. *)
Definition bug_on (bd : nand_bbt_descr) : bool :=
  let bits := bits_of bd in
  let opts := bbt_options chip in
  let pattern_len := if opt bd NAND_BBT_VERSION then bd_len bd + 1 else bd_len bd in
  let table_size := u32 (Z.shiftr (u32 (Z.shiftr (if opt bd NAND_BBT_PERCHIP then chipsize chip else mtd_size chip) (bbt_erase_shift chip))) 3 * bits) in
  (flag opts NAND_BBT_NO_OOB && negb (flag opts NAND_BBT_USE_FLASH)) || (bits =? 0)
  || (opt bd NAND_BBT_NO_OOB &&
      (negb (flag opts NAND_BBT_USE_FLASH) || negb (flag opts NAND_BBT_NO_OOB) || negb (bd_offs bd =? 0)
       || (opt bd NAND_BBT_VERSION && negb (bd_veroffs bd =? bd_len bd)) || opt bd NAND_BBT_SAVECONTENT))
  || (Z.shiftl 1 (bbt_erase_shift chip) <? (if opt bd NAND_BBT_NO_OOB then u32 (table_size + pattern_len) else table_size)).

Definition verify_bbt_descr (bd : option nand_bbt_descr) : option unit :=
  match bd with None => Some tt | Some bd => if bug_on bd then None else Some tt end.

Definition nand_memory_bbt (s : state) (bd : nand_bbt_descr) (t databuf : list Z) : option (Z * state) :=
  '(res, t, _) ← create_bbt (dev s) (set_options (Z.land (bd_options bd) (Z.lnot NAND_BBT_SCANEMPTY)) bd) (-1) t databuf;
  Some (res, State (if res =? 0 then Some t else None) (bbt_td s) (bbt_md s) (dev s)).

(** [buf] is the temporary buffer, [databuf] the one of the chip. *)
Definition nand_scan_bbt (s : state) (bd : nand_bbt_descr) (buf databuf : list Z) : option (Z * state) :=
  let t := replicate (Z.to_nat (Z.shiftr (mtd_size chip) (bbt_erase_shift chip + 2))) 0 in
  match bbt_td s with
  | None => nand_memory_bbt s bd t databuf
  | Some td =>
      _ ← verify_bbt_descr (Some td);
      _ ← verify_bbt_descr (bbt_md s);
      '(buf, td, md) ← (if opt td NAND_BBT_ABSPAGE then read_abs_bbts (dev s) buf td (bbt_md s) else search_read_bbts (dev s) buf td (bbt_md s));
      '(res, s) ← check_create (dev s) bd td md t buf;
      td ← bbt_td s;
      s ← mark_bbt_region s td buf;
      s ← (match bbt_md s with Some md => mark_bbt_region s md buf | None => Some s end);
      Some (res, s)
  end.

(** ** The descriptors *)

Definition scan_ff_pattern : list Z := [0xff; 0xff].
Definition bbt_pattern : list Z := str "Bbt0".
Definition mirror_pattern : list Z := str "1tbB".
Definition table_options : Z := 0x2392.  (* LASTBLOCK, CREATE, WRITE, 2BIT, VERSION and PERCHIP *)
Definition bbt_main_descr : nand_bbt_descr := Descr table_options 0 8 12 0 4 NAND_BBT_SCAN_MAXBLOCKS 0 bbt_pattern.
Definition bbt_mirror_descr : nand_bbt_descr := Descr table_options 0 8 12 0 4 NAND_BBT_SCAN_MAXBLOCKS 0 mirror_pattern.
Definition bbt_main_no_oob_descr : nand_bbt_descr := Descr (Z.lor table_options NAND_BBT_NO_OOB) 0 0 4 0 4 NAND_BBT_SCAN_MAXBLOCKS 0 bbt_pattern.
Definition bbt_mirror_no_oob_descr : nand_bbt_descr := Descr (Z.lor table_options NAND_BBT_NO_OOB) 0 0 4 0 4 NAND_BBT_SCAN_MAXBLOCKS 0 mirror_pattern.

(** The descriptor of the marks of bad blocks. *)
Definition nand_create_badblock_pattern : nand_bbt_descr :=
  Descr (Z.lor (Z.land (bbt_options chip) (Z.lnot NAND_BBT_NO_OOB)) 0x80000000) 0 (badblockpos chip) 0 0 (if buswidth_16 chip then 2 else 1) 0 0 scan_ff_pattern.

(** Without the option NAND_IS_AND, and without a descriptor of the marks that was
    set before; the descriptors of the tables are the ones of the state or the
    default ones. *)
Definition nand_default_bbt (s : state) (buf databuf : list Z) : option (Z * state) :=
  let s := if flag (bbt_options chip) NAND_BBT_USE_FLASH then
      match bbt_td s with
      | Some _ => s
      | None => if flag (bbt_options chip) NAND_BBT_NO_OOB then State (bbt s) (Some bbt_main_no_oob_descr) (Some bbt_mirror_no_oob_descr) (dev s)
                else State (bbt s) (Some bbt_main_descr) (Some bbt_mirror_descr) (dev s)
      end
    else State (bbt s) None None (dev s) in
  nand_scan_bbt s nand_create_badblock_pattern buf databuf.

(** ** Marking a block (drivers/mtd/nand/nand_base.c) *)

Definition nand_block_checkbad (s : state) (ofs : Z) (allowbbt : bool) : option Z :=
  match bbt s with
  | None => Some (drv_block_bad (dev s) ofs)
  | Some t => bad ← nand_isbad_bbt t ofs allowbbt; Some (if (bad : bool) then 1 else 0)
  end.

(** The marks in the spare bytes: the device and the first error. *)
Fixpoint write_markers (n : nat) (d : D) (ofs pos : Z) (marker : list Z) (ret : Z) : D * Z :=
  match n with
  | O => (d, ret)
  | S n => let '(d, res) := drv_write_marker d ofs pos marker in write_markers n d (ofs + writesize chip) pos marker (if ret =? 0 then res else ret)
  end.

Definition nand_default_block_markbad (s : state) (ofs : Z) (buf : list Z) : option (Z * state) :=
  let write_oob := negb (flag (bbt_options chip) NAND_BBT_NO_OOB_BBM) in
  '(d, _) ← (if write_oob then nand_erase_nand (dev s) (bbt s) ofs false else Some (dev s, 0));
  let block := s32 (Z.shiftr ofs (bbt_erase_shift chip)) in
  t ← (match bbt s with
       | None => Some None
       | Some t => t ← or_at t (Z.shiftr block 2) (Z.shiftl 1 (Z.shiftl (Z.land block 0x03) 1)); Some (Some t)
       end);
  let '(d, ret) :=
    if write_oob then
      let pos := if buswidth_16 chip then Z.land (badblockpos chip) (Z.lnot 1) else badblockpos chip in
      let ofs := if flag (bbt_options chip) NAND_BBT_SCANLASTPAGE then ofs + (erasesize chip - writesize chip) else ofs in
      write_markers (if flag (bbt_options chip) NAND_BBT_SCAN2NDPAGE then 2 else 1) d ofs pos (if buswidth_16 chip then [0; 0] else [0]) 0
    else (d, 0) in
  let s := State t (bbt_td s) (bbt_md s) d in
  if flag (bbt_options chip) NAND_BBT_USE_FLASH then
    '(res, s) ← nand_update_bbt s ofs buf; Some (if ret =? 0 then res else ret, s)
  else Some (ret, s).

Definition nand_block_markbad (s : state) (ofs : Z) (buf : list Z) : option (Z * state) :=
  ret ← nand_block_checkbad s ofs false;
  if negb (ret =? 0) then Some (if 0 <? ret then 0 else ret, s) else nand_default_block_markbad s ofs buf.
End Bbt.
