(* ===== verification/BbtFacts.v ===== *)
(** * Bytes and codes of the bad block table (drivers/mtd/nand/nand_bbt.c)

    The buffers, the two bits of a block, and that the bytes written for a table are
    read back without the reserved blocks. *)

From S2P Require Import Prelude NandBbt.

(** ** Buffers *)

Lemma slice_app a b c i n : i = zlen a -> n = zlen b -> slice (a ++ b ++ c) i n = Some b.
Proof.
  intros -> ->. unfold slice. rewrite !length_app. rewrite (proj2 (Z.leb_le _ _)), (proj2 (Z.leb_le _ _)), (proj2 (Z.leb_le _ _)) by lia. cbn [andb].
  rewrite !Nat2Z.id. by rewrite drop_app_length, take_app_length.
Qed.

Lemma put_app a b c b' i : i = zlen a -> length b' = length b -> put (a ++ b ++ c) i b' = Some (a ++ b' ++ c).
Proof.
  intros -> Hl. unfold put. rewrite !length_app. rewrite (proj2 (Z.leb_le _ _)), (proj2 (Z.leb_le _ _)) by lia. cbn [andb].
  rewrite !Nat2Z.id. by rewrite take_app_length, Hl, <- drop_drop, drop_app_length, drop_app_length.
Qed.

Lemma put_front b c b' : length b' = length b -> put (b ++ c) 0 b' = Some (b' ++ c).
Proof. intros Hl. exact (put_app [] b c b' 0 eq_refl Hl). Qed.

Lemma slice_front b c n : n = zlen b -> slice (b ++ c) 0 n = Some b.
Proof. intros Hn. exact (slice_app [] b c 0 n eq_refl Hn). Qed.

Lemma get_app a x c i : i = zlen a -> get (a ++ x :: c) i = Some x.
Proof. intros ->. unfold get. rewrite (proj2 (Z.leb_le _ _)), Nat2Z.id by lia. by rewrite list_lookup_middle. Qed.

Lemma set_app a x c y i : i = zlen a -> set (a ++ x :: c) i y = Some (a ++ y :: c).
Proof. intros ->. unfold set. by apply (put_app a [x] c [y]). Qed.

Lemma all_in_split {A} (l : list A) n : 0 <= n <= zlen l -> l = take (Z.to_nat n) l ++ drop (Z.to_nat n) l /\ zlen (take (Z.to_nat n) l) = n.
Proof. intros H. split; [by rewrite take_drop |]. rewrite length_take. lia. Qed.

(** ** The codes of two bits *)

Definition code (b : Z) (j : nat) : Z := Z.land (Z.shiftr b (2 * Z.of_nat j)) 3.

(** The byte of the flash for a byte of the memory table, the byte of the memory
    table for one of the flash, and the byte without reserved blocks. *)
Definition clears : list Z := [0; 1; 0; 3].
Definition enc_byte (b : Z) : Z :=
  foldl (fun acc j => u8 (Z.land acc (Z.lnot (Z.shiftl (default 0 (clears !! Z.to_nat (code b j))) (2 * Z.of_nat j))))) 255 (seq 0 4).
Definition mark_of (tmp : Z) : Z := if tmp =? 3 then 0 else if tmp =? 0 then 3 else 1.
Definition dec_byte (b : Z) : Z := foldl (fun acc j => u8 (Z.lor acc (Z.shiftl (mark_of (code b j)) (2 * Z.of_nat j)))) 0 (seq 0 4).
Definition clean (b : Z) : Z := foldl (fun acc j => acc + (if code b j =? 2 then 0 else code b j) * 4 ^ Z.of_nat j) 0 (seq 0 4).

Lemma for_bytes (P : Z -> bool) : forallb P (seqZ 0 256) = true -> forall b, is_byte b -> P b = true.
Proof. intros H b Hb. rewrite forallb_forall in H. apply H, list_elem_of_In, elem_of_seqZ. unfold is_byte in Hb. lia. Qed.

Lemma dec_enc b : is_byte b -> dec_byte (enc_byte b) = clean b /\ is_byte (enc_byte b).
Proof.
  intros Hb. assert ((dec_byte (enc_byte b) =? clean b) && (0 <=? enc_byte b) && (enc_byte b <? 256) = true) as H.
  { apply (for_bytes (fun b => (dec_byte (enc_byte b) =? clean b) && (0 <=? enc_byte b) && (enc_byte b <? 256))); [vm_compute; reflexivity | done]. }
  unfold is_byte. lia.
Qed.

Lemma clean_byte b : is_byte b -> is_byte (clean b).
Proof.
  intros Hb. assert ((0 <=? clean b) && (clean b <? 256) = true) as H.
  { apply (for_bytes (fun b => (0 <=? clean b) && (clean b <? 256))); [vm_compute; reflexivity | done]. }
  unfold is_byte. lia.
Qed.

(** The last byte of the table, whose blocks are reserved. *)
Lemma clean_reserved b : is_byte b -> Z.lor b 0xAA = b -> Z.lor (clean b) 0xAA = b.
Proof.
  intros Hb Hr. assert ((negb (Z.lor b 0xAA =? b) || (Z.lor (clean b) 0xAA =? b)) = true) as H.
  { apply (for_bytes (fun b => negb (Z.lor b 0xAA =? b) || (Z.lor (clean b) 0xAA =? b))); [vm_compute; reflexivity | done]. }
  rewrite Hr, Z.eqb_refl in H. cbn [negb orb] in H. by apply Z.eqb_eq.
Qed.

(** The four codes of a byte. *)
Lemma four_times i j : 0 <= i -> (j < 4)%nat ->
  Z.shiftr (4 * i + Z.of_nat j) 2 = i /\ Z.land (Z.shiftl (4 * i + Z.of_nat j) 1) 6 = 2 * Z.of_nat j
  /\ Z.shiftr (8 * i + 2 * Z.of_nat j) 3 = i /\ Z.land (8 * i + 2 * Z.of_nat j) 6 = 2 * Z.of_nat j.
Proof.
  intros Hi Hj. assert (Z.land (2 * (4 * i + Z.of_nat j)) 6 = 2 * Z.of_nat j) as Hl.
  { replace (2 * (4 * i + Z.of_nat j)) with (Z.shiftl (4 * i + Z.of_nat j) 1) by (rewrite Z.shiftl_mul_pow2 by lia; lia).
    change 6 with (Z.shiftl (Z.ones 2) 1). rewrite <- Z.shiftl_land, Z.land_ones, Z.shiftl_mul_pow2 by lia. change (2 ^ 2) with 4. change (2 ^ 1) with 2.
    rewrite Z.add_comm, Z.mul_comm, (Z.mul_comm 4), Z.mod_add, Z.mod_small by lia. lia. }
  rewrite !Z.shiftr_div_pow2, Z.shiftl_mul_pow2 by lia. change (2 ^ 2) with 4. change (2 ^ 3) with 8. change (2 ^ 1) with 2.
  split; [Z.to_euclidean_division_equations; lia |]. split; [by rewrite Z.mul_comm |]. split; [Z.to_euclidean_division_equations; lia |].
  replace (8 * i + 2 * Z.of_nat j) with (2 * (4 * i + Z.of_nat j)) by lia. done.
Qed.

Lemma code_range b j : 0 <= code b j < 4.
Proof. unfold code. change 3 with (Z.ones 2). rewrite Z.land_ones by lia. by apply Z.mod_pos_bound. Qed.

Lemma write_codes_step n i j dat0 pre x post : zlen pre = i -> 0 <= i -> (S n + j = 4)%nat ->
  write_codes (S n) 2 6 clears 0 (4 * i + Z.of_nat j) (Z.shiftr dat0 (2 * Z.of_nat j)) (pre ++ x :: post) =
  write_codes n 2 6 clears 0 (4 * i + Z.of_nat (S j)) (Z.shiftr dat0 (2 * Z.of_nat (S j)))
    (pre ++ u8 (Z.land x (Z.lnot (Z.shiftl (default 0 (clears !! Z.to_nat (code dat0 j))) (2 * Z.of_nat j)))) :: post).
Proof.
  intros Hp Hi Hj. cbn [write_codes]. destruct (four_times i j Hi ltac:(lia)) as (H1 & H2 & _). change (3 - 2) with 1. rewrite H1, H2, Z.add_0_l.
  fold (code dat0 j). pose proof (code_range dat0 j) as Hc. destruct (lookup_lt_is_Some_2 clears (Z.to_nat (code dat0 j))) as [m Hm]; [cbn [clears length]; lia |].
  assert (get clears (code dat0 j) = Some m) as -> by (unfold get; by rewrite (proj2 (Z.leb_le 0 _)) by lia). rewrite Hm. cbn [mbind option_bind]. change (default 0 (Some m)) with m.
  rewrite get_app by done. cbn [mbind option_bind]. rewrite set_app by done. cbn [mbind option_bind]. f_equal; [lia |]. rewrite Z.shiftr_shiftr by lia. f_equal. lia.
Qed.

Lemma write_codes_byte i dat pre post : zlen pre = i -> write_codes 4 2 6 clears 0 (4 * i) dat (pre ++ 255 :: post) = Some (pre ++ enc_byte dat :: post).
Proof.
  intros Hp. assert (0 <= i) by lia. pose proof (fun n j => write_codes_step n i j dat) as S. pose proof (S 3%nat 0%nat pre 255 post Hp H eq_refl) as S0.
  rewrite Z.mul_0_r, Z.add_0_r, Z.shiftr_0_r in S0. rewrite S0, S, S, S by done. done.
Qed.


(** The table of the memory goes into the buffer byte by byte; [bbt0] is in front
    of the rest of the table, and [pre] of the rest of the buffer. *)
Lemma write_table_spec : forall t bbt0 pre post, length pre = length bbt0 ->
  write_table (length t) 2 6 clears 0 (4 * zlen bbt0) (bbt0 ++ t) (pre ++ replicate (length t) 255 ++ post) = Some (pre ++ (enc_byte <$> t) ++ post).
Proof.
  induction t as [| b t IH]; intros bbt0 pre post Hl; [done |]. cbn [length write_table]. rewrite Z.shiftr_div_pow2 by lia. change (2 ^ 2) with 4.
  rewrite Z.mul_comm, Z.div_mul, get_app by done. cbn [mbind option_bind replicate app]. rewrite (Z.mul_comm _ 4), write_codes_byte by lia. cbn [mbind option_bind].
  specialize (IH (bbt0 ++ [b]) (pre ++ [enc_byte b]) post). rewrite !length_app in IH. cbn [length] in IH. rewrite <- !app_assoc in IH. cbn [app] in IH.
  replace (4 * zlen bbt0 + 4) with (4 * Z.of_nat (length bbt0 + 1)) by lia. rewrite IH by lia. by rewrite fmap_cons.
Qed.

(** ** Reading the codes *)

Lemma read_codes_step js i j b dat pre post : zlen pre = i -> (j < 4)%nat -> is_byte b -> 
  read_codes 2 0 0 dat (2 * Z.of_nat j :: js) (8 * i + 2 * Z.of_nat j) (pre ++ b :: post) =
  read_codes 2 0 0 dat js (8 * i + 2 * Z.of_nat (S j)) (pre ++ u8 (Z.lor b (Z.shiftl (mark_of (code dat j)) (2 * Z.of_nat j))) :: post).
Proof.
  intros Hp Hj Hb. cbn [read_codes]. change (msk_of 2) with 3. fold (code dat j). destruct (four_times i j ltac:(lia) Hj) as (_ & _ & H3 & H4).
  assert (read_code 3 0 0 (code dat j) (8 * i + 2 * Z.of_nat j) (pre ++ b :: post) = Some (pre ++ u8 (Z.lor b (Z.shiftl (mark_of (code dat j)) (2 * Z.of_nat j))) :: post)) as ->.
  { unfold read_code, mark_of. rewrite H3, H4, Z.add_0_l. change (negb (0 =? 0)) with false. cbn [andb]. unfold or_at. rewrite get_app by done. cbn [mbind option_bind].
    destruct (_ =? 3); [rewrite Z.shiftl_0_l, Z.lor_0_r, wrap_small by exact Hb; done |]. destruct (_ =? 0); by rewrite set_app. }
  cbn [mbind option_bind]. f_equal. lia.
Qed.

Lemma u8_byte x : is_byte (u8 x).
Proof. apply wrap_range. lia. Qed.

Lemma read_codes_byte i dat pre post : zlen pre = i -> read_codes 2 0 0 dat (places 2) (8 * i) (pre ++ 0 :: post) = Some (pre ++ dec_byte dat :: post, 8 * (i + 1)).
Proof.
  intros Hp. change (places 2) with [2 * Z.of_nat 0; 2 * Z.of_nat 1; 2 * Z.of_nat 2; 2 * Z.of_nat 3].
  pose proof (read_codes_step [2 * Z.of_nat 1; 2 * Z.of_nat 2; 2 * Z.of_nat 3] i 0 0 dat pre post Hp ltac:(lia) ltac:(split; lia)) as S0.
  replace (8 * i + 2 * Z.of_nat 0) with (8 * i) in S0 by lia. rewrite S0. rewrite !read_codes_step by (done || lia || apply u8_byte). cbn [read_codes].
  replace (8 * i + 2 * Z.of_nat 4) with (8 * (i + 1)) by lia. done.
Qed.

Lemma read_bytes_spec : forall bytes pre post i, zlen pre = i ->
  read_bytes 2 0 0 bytes (8 * i) (pre ++ replicate (length bytes) 0 ++ post) = Some (pre ++ (dec_byte <$> bytes) ++ post, 8 * (i + zlen bytes)).
Proof.
  induction bytes as [| dat bytes IH]; intros pre post i Hp; [cbn [length replicate app read_bytes fmap list_fmap]; by rewrite Z.add_0_r |].
  cbn [length replicate app read_bytes]. rewrite read_codes_byte by done. cbn [mbind option_bind].
  specialize (IH (pre ++ [dec_byte dat]) post (i + 1)). rewrite <- !app_assoc in IH. cbn [app] in IH. rewrite IH by (rewrite length_app; cbn [length]; lia).
  rewrite fmap_cons. cbn [app]. do 2 f_equal. lia.
Qed.
