(* ===== verification/BbtSurvive.v ===== *)
(** * The bad block table on the flash (drivers/mtd/nand/nand_bbt.c)

    The laws of the flash; searching, reading and writing a table; what the start
    finds, and that an update of the table and its mirror that fails or is
    interrupted leaves the old or the new one to be found, if a table has one page.
    Of bit flips that are corrected nothing is reported. *)

From S2P Require Import Prelude NandBbt BbtFacts.

(** ** The chip *)

(** [n] blocks, of which the last four are in the last byte of the table. *)
Record geometry_ok (chip : nand_chip) (n : Z) : Prop := {
  ge_blocks : n mod 4 = 0 /\ 4 <= n /\ 4 * n < 2 ^ 31;
  ge_shift : 0 <= page_shift chip < bbt_erase_shift chip;
  ge_page : writesize chip = 2 ^ page_shift chip;
  ge_size : mtd_size chip = n * 2 ^ bbt_erase_shift chip /\ chipsize chip = mtd_size chip;
  ge_range : mtd_size chip < 2 ^ 31 * 2 ^ bbt_erase_shift chip;
  ge_chip : mtd_size chip <= 2 ^ chip_shift chip /\ 0 <= chip_shift chip;
  ge_oob : 13 <= oobsize chip;
  ge_table : n / 4 <= 2 ^ bbt_erase_shift chip;
  ge_small : 2 ^ bbt_erase_shift chip < 2 ^ 32;
  ge_options : flag (bbt_options chip) NAND_BBT_NO_OOB = false }.

(** What the flash holds: its bytes, the spare bytes of its pages, and the pages
    whose data the error correction cannot repair. *)
Class FlashView (D : Type) := { byte : D -> Z -> Z; spare : D -> Z -> list Z; damaged : D -> Z -> bool }.

Section Flash.
Context {D : Type} `{NandDriver D, FlashView D} (chip : nand_chip) (n : Z).

Notation ps := (page_shift chip).
Notation es := (bbt_erase_shift chip).
(** The bytes and the pages of a block. *)
Definition esize : Z := 2 ^ es.
Definition ppb : Z := 2 ^ (es - ps).

(** The contents of the page [p], or of the block [b], are the same. *)
Definition same_page (d d' : D) (p : Z) : Prop :=
  (forall a, p * writesize chip <= a < (p + 1) * writesize chip -> byte d' a = byte d a) /\ spare d' p = spare d p /\ damaged d' p = damaged d p.
Definition same_block (d d' : D) (b : Z) : Prop := forall p, b * ppb <= p < (b + 1) * ppb -> same_page d d' p.
Definition others_same (d d' : D) (b : Z) : Prop := forall b', 0 <= b' < n -> b' <> b -> same_block d d' b'.

Definition erased_page (d : D) (p : Z) : Prop :=
  (forall a, p * writesize chip <= a < (p + 1) * writesize chip -> byte d a = 255) /\ spare d p = replicate (Z.to_nat (oobsize chip)) 255 /\ damaged d p = false.
Definition erased (d : D) (b : Z) : Prop := forall p, b * ppb <= p < (b + 1) * ppb -> erased_page d p.

(** The bits that are set in [l] are set in [l']. *)
Definition raised (l l' : list Z) : Prop := forall i x y, l !! i = Some x -> l' !! i = Some y -> Z.land y x = x.

(** The marks of a table in the spare bytes of the first page of a block. *)
Definition pattern_at (d : D) (b : Z) : list Z := take 4 (drop 8 (spare d (b * ppb))).
Definition version_at (d : D) (b : Z) : Z := default 0 (spare d (b * ppb) !! 12%nat).

(** The pages of an erased block up to [b * ppb + k] have the data, and the first
    one the spare bytes. *)
Definition written (d : D) (b k : Z) (data oob : list Z) : Prop :=
  (forall i, 0 <= i < k * writesize chip -> data !! Z.to_nat i = Some (byte d (b * esize + i))) /\ (0 < k -> spare d (b * ppb) = oob)
  /\ (forall p, b * ppb <= p < b * ppb + k -> damaged d p = false).

(** Erasing fails or is interrupted: each page is as before, or erased, or cannot
    be read; bits of it may have been set. *)
Definition half_erased (d d' : D) (b : Z) : Prop := forall p, b * ppb <= p < (b + 1) * ppb ->
  same_page d d' p \/ erased_page d' p \/ damaged d' p = true /\ raised (spare d p) (spare d' p).

(** Writing page by page fails or is interrupted: some pages are written; the next
    one is erased or cannot be read, and some of the bits that are to be cleared are
    cleared; the ones behind it are erased. *)
Definition half_written (d' : D) (b : Z) (data oob : list Z) : Prop := exists k, 0 <= k < zlen data / writesize chip /\ written d' b k data oob
  /\ (erased_page d' (b * ppb + k) \/ damaged d' (b * ppb + k) = true /\ raised (if decide (k = 0) then oob else []) (spare d' (b * ppb + k)))
  /\ forall p, b * ppb + k < p < (b + 1) * ppb -> erased_page d' p.

(** What the code relies on: reading gives the contents, or the error of the error
    correction; erasing and writing change one block only, and do their work when
    they succeed. *)
Record flash_laws : Prop := {
  fl_spare : forall d p, 0 <= p < n * ppb -> length (spare d p) = Z.to_nat (oobsize chip) /\ is_bytes (spare d p);
  fl_read : forall d from len, 0 <= from -> 0 < len -> from + len <= mtd_size chip ->
    (forall p, from < (p + 1) * writesize chip -> p * writesize chip < from + len -> damaged d p = false) -> drv_read d from len = (0, byte d <$> seqZ from len);
  fl_read_damaged : forall d from len p, 0 <= from -> 0 < len -> from + len <= mtd_size chip ->
    from < (p + 1) * writesize chip -> p * writesize chip < from + len -> damaged d p = true -> exists bytes, drv_read d from len = (- EBADMSG, bytes) /\ zlen bytes <= len;
  fl_read_oob : forall d b, 0 <= b < n -> exists res data,
    drv_read_oob d (b * esize) (writesize chip) (oobsize chip) = (res, data, spare d (b * ppb)) /\ (res = 0 \/ res = - EBADMSG) /\ zlen data = writesize chip;
  fl_erase : forall d b, 0 <= b < n -> exists d' res, drv_erase d (b * esize) = (d', res) /\ others_same d d' b
    /\ (erased d' b \/ res < 0 /\ half_erased d d' b);
  fl_write : forall d b data oob, 0 <= b < n -> erased d b -> is_bytes data -> 0 < zlen data <= esize -> zlen data mod writesize chip = 0 ->
    zlen oob = oobsize chip -> is_bytes oob ->
    exists d' res, drv_write_oob d (b * esize) data (Some oob) = (d', res) /\ others_same d d' b
    /\ (written d' b (zlen data / writesize chip) data oob \/ res < 0 /\ half_written d' b data oob);
  fl_marker : forall d b pos marker i, 0 <= b < n -> 0 <= i < esize -> others_same d (drv_write_marker d (b * esize + i) pos marker).1 b }.

Context (G : geometry_ok chip n) (L : flash_laws).

(** ** Arithmetic of the geometry *)

Lemma esize_pos : 0 < esize.
Proof. unfold esize. pose proof (ge_shift _ _ G). apply Z.pow_pos_nonneg; lia. Qed.
Lemma ppb_pos : 0 < ppb.
Proof. unfold ppb. pose proof (ge_shift _ _ G). apply Z.pow_pos_nonneg; lia. Qed.
Lemma ws_pos : 0 < writesize chip.
Proof. rewrite (ge_page _ _ G). pose proof (ge_shift _ _ G). apply Z.pow_pos_nonneg; lia. Qed.
Lemma esize_pages : esize = ppb * writesize chip.
Proof. unfold esize, ppb. rewrite (ge_page _ _ G). pose proof (ge_shift _ _ G). rewrite <- Z.pow_add_r by lia. f_equal. lia. Qed.

(** The bytes of the table. *)
Definition tsize : Z := n / 4.
Lemma tsize_blocks : n = 4 * tsize /\ 0 < tsize /\ tsize <= esize.
Proof. unfold tsize, esize. destruct (ge_blocks _ _ G) as (H1 & H2 & _). pose proof (ge_table _ _ G). pose proof (Z.div_mod n 4). lia. Qed.

Lemma size_shift k : 0 <= k -> Z.shiftr (mtd_size chip) (es + k) = n / 2 ^ k.
Proof.
  intros Hk. destruct (ge_size _ _ G) as [-> _]. pose proof (ge_shift _ _ G). rewrite Z.shiftr_div_pow2, Z.pow_add_r by lia.
  rewrite <- Z.div_div by (try apply Z.pow_nonzero; try apply Z.pow_pos_nonneg; lia). f_equal. apply Z.div_mul. apply Z.pow_nonzero; lia.
Qed.

Lemma blocks_of_size : blocks_of chip (mtd_size chip) = n.
Proof.
  unfold blocks_of. rewrite <- (Z.add_0_r es), size_shift by lia. rewrite Z.div_1_r. destruct (ge_blocks _ _ G). apply swrap_small; lia.
Qed.

Lemma numblocks_n td : numblocks chip td = n.
Proof. unfold numblocks. destruct (ge_size _ _ G) as [_ ->]. destruct (opt td NAND_BBT_PERCHIP); apply blocks_of_size. Qed.

Lemma block_address b : 0 <= b -> Z.shiftl b es = b * esize /\ Z.shiftl b (es - ps) = b * ppb /\ Z.shiftl (b * ppb) ps = b * esize.
Proof.
  intros Hb. pose proof (ge_shift _ _ G). unfold esize, ppb. rewrite !Z.shiftl_mul_pow2 by lia. split; [done |]. split; [done |].
  rewrite <- Z.mul_assoc, <- Z.pow_add_r by lia. do 2 f_equal. lia.
Qed.

(** ** Codes of blocks *)

Definition tcode (t : list Z) (b : Z) : Z := code (default 0 (t !! Z.to_nat (b / 4))) (Z.to_nat (b mod 4)).

Lemma table_index t b : zlen t = tsize -> 0 <= b < n -> exists x, t !! Z.to_nat (b / 4) = Some x /\ get t (b / 4) = Some x.
Proof.
  intros Ht Hb. destruct tsize_blocks as (Hn & _ & _). assert (0 <= b / 4 < tsize) by (Z.to_euclidean_division_equations; lia).
  destruct (lookup_lt_is_Some_2 t (Z.to_nat (b / 4))) as [x Hx]; [lia |]. exists x. split; [done |]. unfold get. by rewrite (proj2 (Z.leb_le _ _)) by lia.
Qed.

Lemma block_parts b : 0 <= b ->
  Z.shiftr b 2 = b / 4 /\ 2 * Z.land b 3 = 2 * Z.of_nat (Z.to_nat (b mod 4)) /\ Z.shiftr (2 * b) 3 = b / 4 /\ Z.land (2 * b) 6 = 2 * Z.of_nat (Z.to_nat (b mod 4)).
Proof.
  intros Hb. pose proof (Z.mod_pos_bound b 4) as Hm. pose proof (Z.div_mod b 4) as Hdm. destruct (four_times (b / 4) (Z.to_nat (b mod 4))) as (H1 & H2 & H3 & H4); [apply Z.div_pos; lia | lia |].
  rewrite Z2Nat.id in * by lia. replace (4 * (b / 4) + b mod 4) with b in H1, H2 by lia. replace (8 * (b / 4) + 2 * (b mod 4)) with (2 * b) in H3, H4 by lia.
  split; [done |]. split; [| done]. change 3 with (Z.ones 2) at 1. by rewrite Z.land_ones by lia.
Qed.

Lemma code_of_spec t b : zlen t = tsize -> 0 <= b < n -> code_of t b = Some (tcode t b).
Proof.
  intros Ht Hb. destruct (block_parts b) as (H1 & H2 & _); [lia |]. unfold code_of, tcode, code. rewrite H1, H2. destruct (table_index t b Ht Hb) as (x & Hx & ->).
  by rewrite Hx.
Qed.

Lemma isbad_spec t b i allowbbt : zlen t = tsize -> 0 <= b < n -> 0 <= i < esize ->
  nand_isbad_bbt chip t (b * esize + i) allowbbt = Some (if tcode t b =? 0 then false else if tcode t b =? 1 then true else if tcode t b =? 2 then negb allowbbt else true).
Proof.
  intros Ht Hb Hi. destruct (block_parts b) as (_ & _ & H3 & H4); [lia |]. pose proof (ge_shift _ _ G). destruct (ge_blocks _ _ G) as (_ & _ & H31).
  set (h := (b * esize + i) / 2 ^ (es - 1)). assert (esize = 2 * 2 ^ (es - 1)) as He by (unfold esize; rewrite <- Z.pow_succ_r by lia; f_equal; lia).
  pose proof (Z.pow_pos_nonneg 2 (es - 1)). assert (h / 2 = b) as Hh.
  { subst h. rewrite Z.div_div by lia. replace (2 ^ (es - 1) * 2) with esize by lia. rewrite Z.div_add_l by lia. rewrite Z.div_small by lia. lia. }
  assert (0 <= h) by (apply Z.div_pos; nia). assert (h < 2 * n) by (Z.to_euclidean_division_equations; lia).
  unfold nand_isbad_bbt. rewrite Z.shiftr_div_pow2 by lia. fold h. rewrite swrap_small by lia.
  assert (Z.shiftr h 3 = b / 4 /\ Z.land h 6 = 2 * Z.of_nat (Z.to_nat (b mod 4))) as [-> ->].
  { rewrite <- H3, <- H4. rewrite !Z.shiftr_div_pow2 by lia. split; [change (2 ^ 3) with 8; Z.to_euclidean_division_equations; lia |].
    change 6 with (Z.shiftl (Z.ones 2) 1). apply Z.bits_inj'. intros j Hj. rewrite !Z.land_spec. destruct (Z.eq_dec j 0) as [-> | Hj0]; [rewrite Z.shiftl_spec_low by lia; by rewrite !andb_false_r |].
    f_equal. replace j with (Z.succ (j - 1)) by lia. rewrite Z.testbit_even_succ by lia. rewrite <- Hh. rewrite <- (Z.div2_div h). by rewrite Z.div2_spec, Z.shiftr_spec by lia. }
  destruct (table_index t b Ht Hb) as (x & Hx & ->). cbn [mbind option_bind]. unfold tcode, code. rewrite Hx. done.
Qed.

Lemma erase_aligned d t b allowbbt : 0 <= b ->
  nand_erase_nand chip d (Some t) (b * esize) allowbbt = bad ← nand_isbad_bbt chip t (b * esize) allowbbt; Some (if (bad : bool) then (d, - EIO) else drv_erase d (b * esize)).
Proof.
  intros Hb. pose proof (ge_shift _ _ G). unfold nand_erase_nand, check_offs_len. rewrite Z.shiftl_1_l. fold esize. pose proof esize_pos.
  assert (forall x, Z.land (x * esize) (esize - 1) = 0) as Hz.
  { intros x. replace (esize - 1) with (Z.ones es) by (unfold esize; rewrite Z.ones_equiv; lia). rewrite Z.land_ones by lia. fold esize. apply Z.mod_mul. lia. }
  rewrite Hz. rewrite <- (Z.mul_1_l esize) at 1. rewrite Hz. done.
Qed.

(** ** Searching *)

(** The block of a table with this pattern: it, its version and its bytes. *)
Record holds (d : D) (b : Z) (pat : list Z) (v : Z) (t : list Z) : Prop := {
  ho_pattern : pattern_at d b = pat;
  ho_version : version_at d b = v;
  ho_table : (byte d <$> seqZ (b * esize) tsize) = (enc_byte <$> t);
  ho_readable : forall p, b * ppb <= p -> p * writesize chip < b * esize + tsize -> damaged d p = false }.

Lemma first_page b : 0 <= b -> b * ppb <= b * ppb < (b + 1) * ppb.
Proof. pose proof ppb_pos. lia. Qed.

Lemma same_page_marks d d' b : same_page d d' (b * ppb) -> pattern_at d' b = pattern_at d b /\ version_at d' b = version_at d b.
Proof. intros (_ & Hs & _). unfold pattern_at, version_at. by rewrite Hs. Qed.

Lemma same_block_marks d d' b : same_block d d' b -> 0 <= b -> pattern_at d' b = pattern_at d b /\ version_at d' b = version_at d b.
Proof. intros Hs Hb. apply same_page_marks, Hs. by apply first_page. Qed.

(** The table is in pages that are the same. *)
Lemma same_pages_hold d d' b pat v t : 0 <= b -> (forall p, b * ppb <= p -> p * writesize chip < b * esize + tsize -> same_page d d' p) -> holds d b pat v t -> holds d' b pat v t.
Proof.
  intros Hb Hs [H1 H2 H3 H4]. destruct tsize_blocks as (_ & Ht0 & Ht). pose proof ws_pos as Hws. pose proof ppb_pos. pose proof esize_pages as He.
  assert (same_page d d' (b * ppb)) as Hf by (apply Hs; nia). destruct (same_page_marks _ _ _ Hf) as [Hp Hv]. split; [by rewrite Hp | by rewrite Hv | |].
  - rewrite <- H3. apply list_fmap_ext. intros i a Ha. apply lookup_seqZ in Ha. pose proof (Z.div_mod a (writesize chip)). pose proof (Z.mod_pos_bound a (writesize chip)).
    destruct (Hs (a / writesize chip)) as [Hbyte _]; [apply Z.div_le_lower_bound; nia | nia |]. apply Hbyte. nia.
  - intros p Hp1 Hp2. destruct (Hs p Hp1 Hp2) as (_ & _ & ->). by apply H4.
Qed.

Lemma table_pages b p : 0 <= b -> b * ppb <= p -> p * writesize chip < b * esize + tsize -> b * ppb <= p < (b + 1) * ppb.
Proof. intros Hb H1 H2. destruct tsize_blocks as (_ & _ & Ht). pose proof esize_pages. pose proof ws_pos. nia. Qed.

Lemma same_block_holds d d' b pat v t : same_block d d' b -> 0 <= b -> holds d b pat v t -> holds d' b pat v t.
Proof. intros Hs Hb. apply same_pages_hold; [done |]. intros p H1 H2. apply Hs. by apply table_pages. Qed.

Definition default_descr (td : nand_bbt_descr) (pat : list Z) : Prop :=
  exists page v, td = set_page page (set_version v (if decide (pat = bbt_pattern) then bbt_main_descr else bbt_mirror_descr)) /\ (pat = bbt_pattern \/ pat = mirror_pattern).

Lemma default_fields td pat : default_descr td pat ->
  bd_options td = table_options /\ bd_offs td = 8 /\ bd_veroffs td = 12 /\ bd_len td = 4 /\ bd_maxblocks td = 4 /\ bd_reserved td = 0 /\ pattern td = pat.
Proof. intros (page & v & -> & [-> | ->]); repeat split. Qed.

Lemma scan_first_page d buf b td pat : default_descr td pat -> 0 <= b < n -> zlen buf = buffer_length chip ->
  exists res buf', scan_read chip d buf (b * esize) (writesize chip) td = Some (res, buf') /\ zlen buf' = buffer_length chip
    /\ check_pattern buf' (writesize chip + oobsize chip) (writesize chip) td = Some (bool_decide (pattern_at d b = pat))
    /\ get buf' (bbt_get_ver_offs chip td) = Some (version_at d b).
Proof.
  intros Hd Hb Hbuf. destruct (default_fields td pat Hd) as (Ho & Hoffs & Hver & Hlen & _ & _ & Hpat). pose proof ws_pos as Hws. pose proof (ge_oob _ _ G) as Hoob.
  assert (writesize chip + oobsize chip <= buffer_length chip) as Hbl.
  { unfold buffer_length. pose proof (ge_shift _ _ G). rewrite Z.shiftl_1_l, Z.shiftr_div_pow2 by lia. fold esize. rewrite esize_pages, (ge_page _ _ G) at 1. pose proof (Z.pow_pos_nonneg 2 ps).
    rewrite <- (ge_page _ _ G) at 2. rewrite esize_pages, (ge_page _ _ G), Z.div_mul by lia. pose proof ppb_pos. nia. }
  destruct (fl_read_oob L d b Hb) as (res & data & Hread & Hres & Hdl).
  assert (length (spare d (b * ppb)) = Z.to_nat (oobsize chip)) as Hsl by (apply (fl_spare L d); pose proof ppb_pos; nia). set (oob := spare d (b * ppb)) in *.
  exists res, (data ++ oob ++ drop (Z.to_nat (writesize chip + oobsize chip)) buf).
  unfold scan_read, opt. rewrite Ho. change (flag table_options NAND_BBT_NO_OOB) with false. cbv iota. split; [| split; [| split]].
  - unfold scan_read_oob. cbn [scan_read_oob_loop]. rewrite (proj2 (Z.eqb_neq (writesize chip) 0)) by lia. rewrite Z.min_id, Hread.
    rewrite <- (take_drop (Z.to_nat (writesize chip)) buf) at 1. rewrite put_front by (rewrite length_take; lia). cbn [mbind option_bind].
    rewrite <- (take_drop (Z.to_nat (oobsize chip)) (drop _ buf)). rewrite drop_drop. rewrite Z.add_0_l.
    rewrite (put_app data _ _ oob) by (rewrite ?length_take, ?length_drop; lia). cbn [mbind option_bind].
    assert (negb (res =? 0) && negb (mtd_is_bitflip_or_eccerr res) = false /\ (if negb (res =? 0) && (mtd_is_eccerr res || (0 =? 0)) then res else 0) = res) as [-> ->] by (by destruct Hres as [-> | ->]).
    rewrite Z.sub_diag. change (u32 0) with 0.
    replace (Z.to_nat (writesize chip) + Z.to_nat (oobsize chip))%nat with (Z.to_nat (writesize chip + oobsize chip)) by lia. by destruct (length buf).
  - rewrite !length_app, length_drop. lia.
  - unfold check_pattern, opt. rewrite Ho. change (flag table_options NAND_BBT_NO_OOB) with false. change (flag table_options NAND_BBT_SCANEMPTY) with false. cbv iota. cbn [mbind option_bind].
    change (negb (all_ff [])) with false. cbv iota. rewrite Hoffs, Hlen.
    assert (oob = take 8 oob ++ take 4 (drop 8 oob) ++ drop 12 oob) as E. { rewrite <- (take_drop 8 oob) at 1. f_equal. rewrite <- (take_drop 4 (drop 8 oob)) at 1. by rewrite drop_drop. }
    rewrite E at 1. rewrite <- !app_assoc. rewrite (app_assoc data). rewrite slice_app by (rewrite ?length_app, ?length_take, ?length_drop; lia). cbn [mbind option_bind].
    rewrite Hpat. change (take 4 (drop 8 oob)) with (pattern_at d b). by destruct (bool_decide _).
  - unfold bbt_get_ver_offs, opt. rewrite Ho. change (flag table_options NAND_BBT_NO_OOB) with false. cbv iota. rewrite Hver. unfold get. rewrite (proj2 (Z.leb_le _ _)) by lia.
    rewrite lookup_app_r by lia. rewrite lookup_app_l by lia. replace (Z.to_nat (12 + writesize chip) - length data)%nat with 12%nat by lia.
    unfold version_at. fold oob. destruct (lookup_lt_is_Some_2 oob 12) as [v Hv]; [lia |]. by rewrite Hv.
Qed.

(** The first block with the pattern, downwards from [act]. *)
Fixpoint first_match (d : D) (pat : list Z) (m : nat) (act : Z) : option Z :=
  match m with O => None | S m => if decide (pattern_at d act = pat) then Some act else first_match d pat m (act - 1) end.

Definition found_at (d : D) (td : nand_bbt_descr) (r : option Z) : nand_bbt_descr :=
  match r with Some b => set_version (version_at d b) (set_page (b * ppb) td) | None => td end.

Lemma search_loop_spec d td pat m : default_descr td pat -> forall act buf, Z.of_nat m <= act + 1 -> act < n -> zlen buf = buffer_length chip ->
  exists buf', search_loop chip m d td act (-1) buf = Some (found_at d td (first_match d pat m act), buf') /\ zlen buf' = buffer_length chip.
Proof.
  intros Hd. destruct (default_fields td pat Hd) as (Ho & _). induction m as [| m IH]; intros act buf Hact Hn Hbuf; [by exists buf |]. cbn [search_loop first_match].
  destruct (block_address act) as (-> & -> & _); [lia |]. destruct (scan_first_page d buf act td pat Hd) as (res & buf' & -> & Hl & Hc & Hv); [lia | done |].
  cbn [mbind option_bind]. rewrite Hc. cbn [mbind option_bind]. destruct (decide (pattern_at d act = pat)) as [E | E].
  - rewrite bool_decide_eq_true_2 by done. unfold opt. cbn [set_page bd_options]. rewrite Ho. change (flag table_options NAND_BBT_VERSION) with true. cbv iota.
    change (bbt_get_ver_offs chip (set_page _ td)) with (bbt_get_ver_offs chip td). rewrite Hv. by exists buf'.
  - rewrite bool_decide_eq_false_2 by done. replace (act + -1) with (act - 1) by lia. apply IH; [lia | lia | done].
Qed.

Definition reset (td : nand_bbt_descr) : nand_bbt_descr := set_page (-1) (set_version 0 td).

Lemma default_set td pat p v : default_descr td pat -> default_descr (set_page p (set_version v td)) pat.
Proof. intros (page & v' & -> & Hp). exists p, v. split; [| done]. by destruct (decide _). Qed.

Lemma search_bbt_spec d td pat buf : default_descr td pat -> zlen buf = buffer_length chip ->
  exists buf', search_bbt chip d td buf = Some (found_at d (reset td) (first_match d pat 4 (n - 1)), buf') /\ zlen buf' = buffer_length chip.
Proof.
  intros Hd Hbuf. destruct (default_fields td pat Hd) as (Ho & _ & _ & _ & Hmb & _). destruct (ge_blocks _ _ G) as (_ & Hn4 & H31).
  unfold search_bbt, opt. rewrite Ho. change (flag table_options NAND_BBT_LASTBLOCK) with true. change (flag table_options NAND_BBT_PERCHIP) with true. cbv iota beta.
  rewrite <- (Z.add_0_r es), size_shift, Z.div_1_r by lia. rewrite swrap_small by lia. rewrite numblocks_n, Z.land_diag, Hmb. change (Z.to_nat 4) with 4%nat.
  apply search_loop_spec; [by apply default_set | lia | lia | done].
Qed.

(** ** Reading *)

Lemma buffer_room : esize + oobsize chip <= buffer_length chip.
Proof.
  unfold buffer_length. pose proof (ge_shift _ _ G). rewrite Z.shiftl_1_l, Z.shiftr_div_pow2 by lia. fold esize. rewrite esize_pages, (ge_page _ _ G), Z.div_mul by (apply Z.pow_nonzero; lia).
  pose proof ppb_pos. pose proof (ge_oob _ _ G). nia.
Qed.

Lemma read_table d td pat b v t buf : default_descr td pat -> bd_page td = b * ppb -> 0 <= b < n -> holds d b pat v t -> zlen t = tsize -> is_bytes t ->
  zlen buf = buffer_length chip ->
  exists buf', read_abs_bbt chip d td 0 (replicate (Z.to_nat tsize) 0) buf = Some (0, clean <$> t, buf') /\ zlen buf' = buffer_length chip.
Proof.
  intros Hd Hpage Hb [_ _ Ht Hrd] Hl Hby Hbuf. destruct (default_fields td pat Hd) as (Ho & _ & _ & _ & _ & Hres & _). destruct tsize_blocks as (Hn & Ht0 & Hte).
  destruct (ge_size _ _ G) as [Hsize _]. fold esize in Hsize. pose proof buffer_room. pose proof (ge_oob _ _ G). pose proof (ge_small _ _ G) as Hsm. fold esize in Hsm.
  unfold read_abs_bbt, opt. rewrite Ho. change (flag table_options NAND_BBT_PERCHIP) with true. change (negb ((0 =? -1) || (0 =? 0))) with false. cbn [andb].
  unfold read_bbt, bits_of, add_marker_len, opt. rewrite numblocks_n, Ho, Hpage. change (flag table_options NAND_BBT_NO_OOB) with false. cbn [negb].
  change (Z.land table_options NAND_BBT_NRBITS_MSK) with 2. replace (Z.shiftr (n * 2) 3) with tsize by (rewrite Z.shiftr_div_pow2 by lia; change (2 ^ 3) with 8; Z.to_euclidean_division_equations; lia).
  destruct (block_address b) as (_ & _ & ->); [lia |]. cbn [read_bbt_loop]. rewrite (proj2 (Z.eqb_neq tsize 0)) by lia.
  pose proof (ge_shift _ _ G). rewrite Z.shiftl_1_l. fold esize. rewrite Z.min_l, Z.sub_0_r, (wrap_small 32 tsize), Z.add_0_r by lia.
  assert (mtd_read chip d (b * esize) tsize = (0, byte d <$> seqZ (b * esize) tsize)) as ->.
  { unfold mtd_read. rewrite (proj2 (Z.ltb_ge _ 0)), (proj2 (Z.ltb_ge (mtd_size chip) _)), (proj2 (Z.ltb_ge (mtd_size chip - _) _)), (proj2 (Z.eqb_neq tsize 0)) by nia. pose proof ws_pos. apply (fl_read L); [nia | nia | nia |].
    intros p Hp1 Hp2. apply Hrd; [| done]. rewrite esize_pages in Hp1. nia. }
  rewrite Ht. assert (length (enc_byte <$> t) = Z.to_nat tsize) as Hel by (rewrite length_fmap; lia).
  rewrite <- (take_drop (Z.to_nat tsize) buf). rewrite put_front by (rewrite Hel, length_take; lia). cbn [mbind option_bind].
  change (0 <? 0) with false. cbn [andb]. rewrite slice_front by lia. cbn [mbind option_bind].
  unfold bits_of. rewrite Ho, Hres. change (Z.land table_options NAND_BBT_NRBITS_MSK) with 2.
  pose proof (read_bytes_spec (enc_byte <$> t) [] [] 0 eq_refl) as Hr. cbn [app] in Hr. rewrite !app_nil_r, Hel in Hr. change (8 * 0) with 0 in Hr. rewrite Hr. cbn [mbind option_bind].
  rewrite Z.sub_diag. change (u32 0) with 0. assert (dec_byte <$> (enc_byte <$> t) = clean <$> t) as ->.
  { rewrite <- list_fmap_compose. apply Forall_fmap_ext_1. eapply Forall_impl; [exact Hby |]. intros x Hx. by apply dec_enc. }
  eexists. split; [by destruct (S (Z.to_nat tsize)) |]. rewrite length_app, Hel, length_drop. lia.
Qed.

(** The error of the error correction leaves the table in memory as it is. *)
Lemma read_damaged d td pat b t buf : default_descr td pat -> bd_page td = b * ppb -> 0 <= b < n -> damaged d (b * ppb) = true -> zlen buf = buffer_length chip ->
  exists buf', read_abs_bbt chip d td 0 t buf = Some (- EBADMSG, t, buf') /\ zlen buf' = buffer_length chip.
Proof.
  intros Hd Hpage Hb Hdam Hbuf. destruct (default_fields td pat Hd) as (Ho & _ & _ & _ & _ & Hres & _). destruct tsize_blocks as (Hn & Ht0 & Hte).
  destruct (ge_size _ _ G) as [Hsize _]. fold esize in Hsize. pose proof buffer_room. pose proof (ge_oob _ _ G). pose proof (ge_small _ _ G) as Hsm. fold esize in Hsm.
  unfold read_abs_bbt, opt. rewrite Ho. change (flag table_options NAND_BBT_PERCHIP) with true. change (negb ((0 =? -1) || (0 =? 0))) with false. cbn [andb].
  unfold read_bbt, bits_of, add_marker_len, opt. rewrite numblocks_n, Ho, Hpage. change (flag table_options NAND_BBT_NO_OOB) with false. cbn [negb].
  change (Z.land table_options NAND_BBT_NRBITS_MSK) with 2. replace (Z.shiftr (n * 2) 3) with tsize by (rewrite Z.shiftr_div_pow2 by lia; change (2 ^ 3) with 8; Z.to_euclidean_division_equations; lia).
  destruct (block_address b) as (_ & _ & ->); [lia |]. cbn [read_bbt_loop]. rewrite (proj2 (Z.eqb_neq tsize 0)) by lia.
  pose proof (ge_shift _ _ G). rewrite Z.shiftl_1_l. fold esize. rewrite Z.min_l, Z.sub_0_r, (wrap_small 32 tsize), Z.add_0_r by lia. pose proof ws_pos. pose proof esize_pages as Hep.
  destruct (fl_read_damaged L d (b * esize) tsize (b * ppb)) as (bytes & Hbytes & Hbl); [nia | lia | nia | rewrite Hep; nia | rewrite Hep; nia | done |].
  assert (mtd_read chip d (b * esize) tsize = (- EBADMSG, bytes)) as ->.
  { unfold mtd_read. by rewrite (proj2 (Z.ltb_ge _ 0)), (proj2 (Z.ltb_ge (mtd_size chip) _)), (proj2 (Z.ltb_ge (mtd_size chip - _) _)), (proj2 (Z.eqb_neq tsize 0)) by nia. }
  rewrite <- (take_drop (length bytes) buf). rewrite put_front by (rewrite length_take; lia). cbn [mbind option_bind].
  change ((- EBADMSG <? 0) && negb (mtd_is_bitflip (- EBADMSG))) with true. cbv iota. eexists. split; [done |]. rewrite length_app, length_drop. lia.
Qed.

(** ** Writing *)

Lemma erased_pattern d b : erased_page d (b * ppb) -> pattern_at d b = replicate 4 255.
Proof. intros (_ & He & _). pose proof (ge_oob _ _ G). unfold pattern_at. rewrite He. by rewrite drop_replicate, take_replicate, Nat.min_l by lia. Qed.

(** The length of the table in whole pages. *)
Definition psize : Z := align tsize (writesize chip).

Lemma psize_spec : psize mod writesize chip = 0 /\ tsize <= psize <= esize.
Proof.
  destruct tsize_blocks as (_ & Ht0 & Hte). pose proof ws_pos as Hws. pose proof esize_pages as He. pose proof (ge_shift _ _ G). unfold psize, align.
  assert (Z.land (tsize + writesize chip - 1) (Z.lnot (writesize chip - 1)) = (tsize + writesize chip - 1) / writesize chip * writesize chip) as ->.
  { rewrite (ge_page _ _ G). rewrite <- Z.ldiff_land. replace (2 ^ ps - 1) with (Z.ones ps) by (rewrite Z.ones_equiv; lia). rewrite Z.ldiff_ones_r by lia.
    by rewrite Z.shiftl_mul_pow2, Z.shiftr_div_pow2 by lia. }
  split; [by rewrite Z.mod_mul by lia |]. pose proof (Z.div_mod (tsize + writesize chip - 1) (writesize chip)). pose proof (Z.mod_pos_bound (tsize + writesize chip - 1) (writesize chip)).
  split; [lia |]. rewrite He in *. assert ((tsize + writesize chip - 1) / writesize chip < ppb + 1) by (apply Z.div_lt_upper_bound; nia). nia.
Qed.

Lemma psize_page : tsize <= writesize chip -> psize = writesize chip.
Proof.
  intros Hs. destruct tsize_blocks as (_ & Ht0 & _). pose proof ws_pos. pose proof (ge_shift _ _ G). unfold psize, align.
  rewrite (ge_page _ _ G) in *. rewrite <- Z.ldiff_land. replace (2 ^ ps - 1) with (Z.ones ps) by (rewrite Z.ones_equiv; lia). rewrite Z.ldiff_ones_r by lia.
  rewrite Z.shiftl_mul_pow2, Z.shiftr_div_pow2 by lia. replace ((tsize + 2 ^ ps - 1) / 2 ^ ps) with 1; [lia |].
  replace (tsize + 2 ^ ps - 1) with (tsize - 1 + 1 * 2 ^ ps) by lia. rewrite Z.div_add, Z.div_small by lia. done.
Qed.

(** The spare bytes of the first page of a table. *)
Definition marks (pat : list Z) (v : Z) : list Z := replicate 8 255 ++ pat ++ [v] ++ replicate (Z.to_nat (oobsize chip - 13)) 255.

Lemma marks_ok pat v : length pat = 4%nat -> zlen (marks pat v) = oobsize chip /\ take 4 (drop 8 (marks pat v)) = pat /\ marks pat v !! 12%nat = Some v.
Proof.
  intros Hp. pose proof (ge_oob _ _ G). unfold marks. rewrite !length_app, !length_replicate. split; [cbn [length]; lia |].
  rewrite drop_app_length' by done. rewrite take_app_length' by done. split; [done |]. rewrite lookup_app_r by (rewrite length_replicate; lia). rewrite lookup_app_r by (rewrite length_replicate; lia).
  by rewrite length_replicate, Hp.
Qed.

Lemma marks_bytes pat v : is_byte v -> pat = bbt_pattern \/ pat = mirror_pattern -> is_bytes (marks pat v).
Proof.
  intros Hv Hp. unfold marks. repeat (apply Forall_app_2); try (apply Forall_replicate; by vm_compute); [| by constructor].
  destruct Hp as [-> | ->]; repeat constructor; by vm_compute.
Qed.

(** What is written for the table. *)
Definition table_data (t : list Z) : list Z := (enc_byte <$> t) ++ replicate (Z.to_nat (psize - tsize)) 255.

Lemma prepare_default d buf td pat b : default_descr td pat -> 0 <= b -> zlen buf = buffer_length chip ->
  exists rest, prepare chip d buf td (b * ppb) 2 = Some (inr (b * esize, psize, replicate (Z.to_nat psize) 255 ++ replicate 8 255 ++ pat ++ 255 :: replicate (Z.to_nat (oobsize chip - 13)) 255 ++ rest, 0, psize)).
Proof.
  intros Hd Hb Hbuf. destruct (default_fields td pat Hd) as (Ho & Hoffs & _ & Hlen & _ & _ & Hpat). destruct psize_spec as (Hpm & Hpt & Hpe). pose proof (ge_oob _ _ G) as Hoob. pose proof ws_pos as Hws.
  destruct tsize_blocks as (Hn & Ht0 & Hte). pose proof (ge_shift _ _ G). assert (length pat = 4%nat) as Hp4 by (destruct Hd as (? & ? & _ & [-> | ->]); done).
  unfold prepare, opt. rewrite Ho. change (flag table_options NAND_BBT_SAVECONTENT) with false. change (flag table_options NAND_BBT_NO_OOB) with false. cbv iota zeta.
  destruct (block_address b Hb) as (_ & _ & ->). rewrite numblocks_n. replace (Z.shiftr n 2) with tsize by (by rewrite Z.shiftr_div_pow2 by lia). fold psize.
  assert (exists q, psize = q * writesize chip /\ 1 <= q <= ppb) as (q & Hq & Hq1).
  { exists (psize / writesize chip). pose proof (Z.div_mod psize (writesize chip)). rewrite esize_pages in Hpe. nia. }
  assert (Z.shiftr psize ps = q) as -> by (rewrite Z.shiftr_div_pow2, <- (ge_page _ _ G), Hq by lia; apply Z.div_mul; lia).
  assert (psize + q * oobsize chip <= zlen buf) as Hfit.
  { rewrite Hbuf. unfold buffer_length. rewrite Z.shiftl_1_l, (Z.shiftr_div_pow2 (2 ^ es)) by lia. fold esize. rewrite esize_pages. rewrite <- (ge_page _ _ G), Z.div_mul by lia. nia. }
  set (M := psize + q * oobsize chip) in *. unfold fill. rewrite (proj2 (Z.leb_le 0 M)) by nia. 
  assert (put buf 0 (replicate (Z.to_nat M) 255) = Some (replicate (Z.to_nat M) 255 ++ drop (Z.to_nat M) buf)) as ->.
  { rewrite <- (take_drop (Z.to_nat M) buf) at 1. apply put_front. rewrite length_replicate, length_take. lia. }
  cbn [mbind option_bind]. rewrite Hoffs, Hpat.
  replace (Z.to_nat M) with (Z.to_nat psize + (8 + (4 + (1 + (Z.to_nat (oobsize chip - 13) + Z.to_nat ((q - 1) * oobsize chip))))))%nat by (subst M; nia).
  rewrite !replicate_add. rewrite <- !app_assoc. rewrite (app_assoc (replicate (Z.to_nat psize) 255)). rewrite put_app by (rewrite ?length_app, ?length_replicate; lia).
  cbn [mbind option_bind]. rewrite <- app_assoc. by eexists.
Qed.

Lemma write_holds d b data pat v t : data = table_data t -> zlen t = tsize -> 0 <= b -> length pat = 4%nat -> written d b (psize / writesize chip) data (marks pat v) -> holds d b pat v t.
Proof.
  intros -> Hl Hb Hp (Hw & Hs & Hr). destruct (marks_ok pat v Hp) as (_ & H1 & H2). destruct psize_spec as (Hpm & Hpt & _). destruct tsize_blocks as (_ & Ht0 & _). pose proof ws_pos as Hws.
  pose proof (Z.div_mod psize (writesize chip)) as Hdm. set (k := psize / writesize chip) in *. assert (0 < k) as Hk by nia. specialize (Hs Hk). pose proof esize_pages. split.
  - unfold pattern_at. by rewrite Hs.
  - unfold version_at. by rewrite Hs, H2.
  - apply list_eq. intros i. destruct (decide (i < length t)%nat) as [Hi | Hi].
    + rewrite list_lookup_fmap, lookup_seqZ_lt by lia. cbn [fmap option_fmap option_map]. specialize (Hw (Z.of_nat i)). rewrite Nat2Z.id in Hw. rewrite <- Hw by nia.
      unfold table_data. by rewrite lookup_app_l by (rewrite length_fmap; lia).
    + rewrite !lookup_ge_None_2; [done | |]; rewrite length_fmap, ?length_seqZ; lia.
  - intros p Hp1 Hp2. apply Hr. nia.
Qed.

Lemma others_trans d1 d2 d3 b : others_same d1 d2 b -> others_same d2 d3 b -> others_same d1 d3 b.
Proof.
  intros H12 H23 b' Hb Hne p Hp. destruct (H12 b' Hb Hne p Hp) as (A1 & A2 & A3). destruct (H23 b' Hb Hne p Hp) as (B1 & B2 & B3).
  split_and!; [intros; rewrite B1, A1 | rewrite B2, A2 | rewrite B3, A3]; done.
Qed.
Lemma same_page_refl d p : same_page d d p.
Proof. done. Qed.
Lemma same_block_refl d b : same_block d d b.
Proof. intros p _. apply same_page_refl. Qed.

Lemma table_data_bytes t : is_bytes t -> is_bytes (table_data t).
Proof.
  intros Ht. apply Forall_app_2; [| apply Forall_replicate; by vm_compute]. apply Forall_fmap. eapply Forall_impl; [exact Ht |]. intros x Hx. by apply dec_enc.
Qed.

(** The first page of a block after erasing or writing it failed. *)
Definition spoiled (d d' : D) (p : Z) (oob : list Z) : Prop :=
  same_page d d' p \/ erased_page d' p \/ damaged d' p = true /\ (raised (spare d p) (spare d' p) \/ raised oob (spare d' p)).

(** The block after writing the table was tried: for a table of one page it is
    enough to know the first one. *)
Definition tried (d d' : D) (b : Z) (pat : list Z) (v : Z) (t : list Z) (res : Z) : Prop :=
  others_same d d' b /\ (holds d' b pat v t \/ res < 0 /\ (psize = writesize chip -> spoiled d d' (b * ppb) (marks pat v))).

Lemma half_written_first d' b data oob : 0 <= b -> zlen data = writesize chip -> half_written d' b data oob ->
  erased_page d' (b * ppb) \/ damaged d' (b * ppb) = true /\ raised oob (spare d' (b * ppb)).
Proof.
  intros Hb Hl (k & Hk & _ & Hp & _). pose proof ws_pos. rewrite Hl, Z.div_same in Hk by lia. assert (k = 0) as -> by lia. rewrite Z.add_0_r, decide_True in Hp by done.
  exact Hp.
Qed.

Lemma write_bbt_spec d t buf td md pat b : default_descr td pat -> 0 <= b < n -> zlen t = tsize -> is_bytes t -> zlen buf = buffer_length chip -> is_byte (bd_version td) ->
  place chip t td md = Some (Some (b * ppb)) ->
  exists res d' td', write_bbt chip d t buf td md 0 = Some (res, d', td') /\ tried d d' b pat (bd_version td) t res /\ (res < 0 \/ res = 0 /\ td' = set_page (b * ppb) td) /\ (td' = td \/ td' = set_page (b * ppb) td).
Proof.
  intros Hd Hb Hl Hby Hbuf Hv Hplace. destruct (default_fields td pat Hd) as (Ho & Hoffs & Hver & Hlen & _ & Hres & Hpat). destruct tsize_blocks as (Hn & Ht0 & _). destruct psize_spec as (Hpm & Hpt & Hpe).
  pose proof (ge_oob _ _ G) as Hoob. assert (length pat = 4%nat) as Hp4 by (destruct Hd as (? & ? & _ & [-> | ->]); done).
  unfold write_bbt, opt. rewrite Ho. change (flag table_options NAND_BBT_PERCHIP) with true. change (true && negb (0 =? -1) && negb (0 =? 0)) with false. cbv iota. rewrite Hplace. cbn [mbind option_bind].
  unfold bits_of. rewrite Ho, Hres. change (masks (Z.land table_options NAND_BBT_NRBITS_MSK) (if u8 0 =? 0 then 255 else u8 0)) with (Some (2, 6, clears)). cbv iota beta.
  destruct (prepare_default d buf td pat b Hd ltac:(lia) Hbuf) as (rest & ->). cbn [mbind option_bind].
  change (flag table_options NAND_BBT_VERSION) with true. change (flag table_options NAND_BBT_NO_OOB) with false. cbv iota. rewrite Hver.
  rewrite (app_assoc (replicate 8 255)), (app_assoc (replicate (Z.to_nat psize) 255)). rewrite set_app by (rewrite !length_app, !length_replicate; lia). cbn [mbind option_bind]. rewrite <- !app_assoc.
  rewrite numblocks_n. replace (Z.to_nat ((n + 3) / 4)) with (length t) by (rewrite Hn; Z.to_euclidean_division_equations; lia).
  replace (Z.to_nat psize) with (length t + Z.to_nat (psize - tsize))%nat by lia. rewrite replicate_add, <- app_assoc.
  pose proof (write_table_spec t [] [] (replicate (Z.to_nat (psize - tsize)) 255 ++ replicate 8 255 ++ pat ++ bd_version td :: replicate (Z.to_nat (oobsize chip - 13)) 255 ++ rest) eq_refl) as Hw.
  cbn [app length] in Hw. change (4 * Z.of_nat 0) with 0 in Hw. rewrite Hw. cbn [mbind option_bind]. clear Hw. rewrite erase_aligned by lia. pose proof (isbad_spec t b 0 true Hl Hb ltac:(pose proof esize_pos; lia)) as Hbad. rewrite Z.add_0_r in Hbad. rewrite Hbad. clear Hbad.
  cbn [mbind option_bind]. set (bad := if tcode t b =? 0 then false else _). destruct bad.
  { exists (- EIO), d, td. change (- EIO <? 0) with true. cbv iota. split; [done |]. split; [| split; [by left | by left]]. split; [by intros ? ? ?; apply same_block_refl |]. right. split; [done |]. intros _. left. apply same_page_refl. }
  destruct (fl_erase L d b Hb) as (d1 & res & -> & Ho1 & Hcase). cbn [mbind option_bind]. destruct (Z.ltb_spec res 0) as [Hneg | Hpos].
  { exists res, d1, td. split; [done |]. split; [| split; [left; lia | by left]]. split; [done |]. right. split; [done |]. intros _.
    pose proof (first_page b ltac:(lia)) as Hf. destruct Hcase as [He | [_ Hcase]]; [right; left; by apply He |]. destruct (Hcase _ Hf) as [? | [? | [? ?]]]; [by left | by right; left | right; right; split; [done | by left]]. }
  destruct Hcase as [He | [Hneg _]]; [| lia].
  change ((enc_byte <$> t) ++ replicate (Z.to_nat (psize - tsize)) 255 ++ ?r) with (app (enc_byte <$> t) (replicate (Z.to_nat (psize - tsize)) 255 ++ r)).
  rewrite (app_assoc (enc_byte <$> t)). fold (table_data t). assert (zlen (table_data t) = psize) as Hdl by (unfold table_data; rewrite length_app, length_fmap, length_replicate; lia).
  rewrite slice_front by lia. cbn [mbind option_bind].
  assert (replicate 8 255 ++ pat ++ bd_version td :: replicate (Z.to_nat (oobsize chip - 13)) 255 ++ rest = marks pat (bd_version td) ++ rest) as -> by (unfold marks; by rewrite <- !app_assoc).
  destruct (marks_ok pat (bd_version td) Hp4) as (Hml & _). rewrite slice_app by lia. cbn [mbind option_bind].
  destruct (fl_write L d1 b (table_data t) (marks pat (bd_version td)) Hb He) as (d2 & res2 & -> & Ho2 & Hcase); [by apply table_data_bytes | lia | by rewrite Hdl | done | apply marks_bytes; [done | by destruct Hd as (? & ? & _ & ?)] |].
  assert (others_same d d2 b) as Ho12 by (by eapply others_trans). rewrite Hdl in Hcase. destruct Hcase as [Hwr | [Hneg Hno]].
  - assert (holds d2 b pat (bd_version td) t) as Hh by (eapply write_holds; try done; lia). destruct (Z.ltb_spec res2 0).
    + exists res2, d2, td. split; [done |]. split; [| split; [left; lia | by left]]. split; [done | by left].
    + exists 0, d2, (set_page (b * ppb) td). split; [done |]. split; [| split; [by right | by right]]. split; [done | by left].
  - rewrite (proj2 (Z.ltb_lt res2 0)) by done. exists res2, d2, td. split; [done |]. split; [| split; [left; lia | by left]]. split; [done |]. right. split; [done |]. intros Hone.
destruct (half_written_first d2 b (table_data t) (marks pat (bd_version td))) as [? | [? ?]]; [lia | by rewrite Hdl | done | by right; left | right; right; split; [done | by right]].
Qed.

(** ** The pages of the tables *)

Definition page_ok (td : nand_bbt_descr) : Prop := bd_page td = -1 \/ exists b, 0 <= b < n /\ bd_page td = b * ppb.

Lemma find_place_spec t md m : zlen t = tsize -> forall block, Z.of_nat m <= block + 1 -> block < n ->
  exists r, find_place chip m t md block (-1) = Some r
    /\ (r = None \/ exists b, block - Z.of_nat m < b <= block /\ r = Some (b * ppb) /\ match md with Some md => bd_page md <> b * ppb | None => True end).
Proof.
  intros Ht. induction m as [| m IH]; intros block Hm Hb; [exists None; split; [done | by left] |]. cbn [find_place]. rewrite code_of_spec by (done || lia). cbn [mbind option_bind].
  destruct (IH (block + -1)) as (r & Hr & Hor'); [lia | lia |].
  assert (r = None \/ exists b, block - Z.of_nat (S m) < b <= block /\ r = Some (b * ppb) /\ match md with Some md => bd_page md <> b * ppb | None => True end) as Hor.
  { destruct Hor' as [-> | (b & Hb' & Hr')]; [by left |]. right. exists b. split; [lia | done]. }
  destruct (_ || _); [by exists r |]. destruct (block_address block) as (_ & -> & _); [lia |].
  assert (match md with Some md => bd_page md <> block * ppb | None => True end -> exists r, Some (Some (block * ppb)) = Some r
    /\ (r = None \/ exists b, block - Z.of_nat (S m) < b <= block /\ r = Some (b * ppb) /\ match md with Some md => bd_page md <> b * ppb | None => True end)) as Hhere.
  { intros Hmd. eexists. split; [done |]. right. exists block. split; [lia | done]. }
  destruct md as [md |]; [| by apply Hhere]. destruct (Z.eqb_spec (bd_page md) (block * ppb)) as [E | E]; cbn [negb]; [by exists r | by apply Hhere].
Qed.

Lemma place_spec t td md pat : default_descr td pat -> page_ok td -> zlen t = tsize ->
  exists r, place chip t td md = Some r /\ (r = None \/ exists b, 0 <= b < n /\ r = Some (b * ppb)).
Proof.
  intros Hd Hp Ht. destruct (default_fields td pat Hd) as (Ho & _ & _ & _ & Hmb & _). unfold place. destruct Hp as [-> | (b & Hb & ->)].
  - change (negb (-1 =? -1)) with false. unfold opt. rewrite Ho, Hmb, numblocks_n. change (flag table_options NAND_BBT_LASTBLOCK) with true. cbv iota beta.
    destruct (ge_blocks _ _ G). destruct (find_place_spec t md 4 Ht (n - 1)) as (r & Hr & Hor); [lia | lia |]. exists r. split; [done |].
    destruct Hor as [-> | (b & Hb & -> & _)]; [by left |]. right. exists b. split; [lia | done].
  - pose proof ppb_pos. rewrite (proj2 (Z.eqb_neq _ _)) by nia. cbn [negb]. eexists. split; [done |]. right. by exists b.
Qed.

Lemma default_page td pat p : default_descr td pat -> default_descr (set_page p td) pat.
Proof. intros (page & v & -> & Hp). exists p, v. split; [by destruct (decide _) | done]. Qed.
Lemma default_version td pat v : default_descr td pat -> default_descr (set_version v td) pat.
Proof. intros (page & v' & -> & Hp). exists page, v. split; [by destruct (decide _) | done]. Qed.

Lemma write_bbt_total d t buf td md pat : default_descr td pat -> page_ok td -> zlen t = tsize -> is_bytes t -> zlen buf = buffer_length chip -> is_byte (bd_version td) ->
  exists res d' td', write_bbt chip d t buf td md 0 = Some (res, d', td') /\ default_descr td' pat /\ page_ok td' /\ bd_version td' = bd_version td.
Proof.
  intros Hd Hp Ht Hby Hbuf Hv. destruct (place_spec t td md pat Hd Hp Ht) as (r & Hr & [-> | (b & Hb & ->)]).
  - destruct (default_fields td pat Hd) as (Ho & _). exists (- ENOSPC), d, td. unfold write_bbt, opt. rewrite Ho, Hr. by cbn [mbind option_bind].
  - destruct (write_bbt_spec d t buf td md pat b Hd Hb Ht Hby Hbuf Hv Hr) as (res & d' & td' & Hw & _ & _ & Htd). exists res, d', td'. split; [done |].
    destruct Htd as [-> | ->]; [done |]. split; [by apply default_page |]. split; [right; by exists b | done].
Qed.

(** ** Reserving the last blocks *)

(** The tables that occur in memory: the last four blocks are reserved, and no
    others. *)
Definition proper (t : list Z) : Prop :=
  exists pre x, t = pre ++ [x] /\ zlen t = tsize /\ is_bytes t /\ (clean <$> pre) = pre /\ Z.lor x 0xAA = x.

Lemma reserve_steps x : is_byte x -> u8 (Z.lor (u8 (Z.lor (u8 (Z.lor (u8 (Z.lor x 2)) 8)) 32)) 128) = Z.lor x 0xAA.
Proof. intros Hx. apply Z.eqb_eq. apply (for_bytes (fun x => u8 (Z.lor (u8 (Z.lor (u8 (Z.lor (u8 (Z.lor x 2)) 8)) 32)) 128) =? Z.lor x 0xAA)); [vm_compute; reflexivity | done]. Qed.

Lemma reserve_last pre x upd : zlen pre = tsize - 1 -> is_byte x -> exists upd', reserve 4 (8 * (tsize - 1)) (pre ++ [x]) upd = Some (pre ++ [Z.lor x 0xAA], upd').
Proof.
  intros Hp Hx. destruct tsize_blocks as (_ & Ht & _). rewrite <- (reserve_steps x Hx).
  assert (forall j m y u, (j < 4)%nat -> reserve (S m) (8 * (tsize - 1) + 2 * Z.of_nat j) (pre ++ [y]) u =
    reserve m (8 * (tsize - 1) + 2 * Z.of_nat (S j)) (pre ++ [u8 (Z.lor y (Z.shiftl 2 (2 * Z.of_nat j)))]) (u || negb (y =? u8 (Z.lor y (Z.shiftl 2 (2 * Z.of_nat j)))))) as Hstep.
  { intros j m y u Hj. cbn [reserve]. destruct (four_times (tsize - 1) j) as (_ & _ & -> & ->); [lia | done |]. rewrite get_app by lia. cbn [mbind option_bind].
    rewrite set_app by lia. cbn [mbind option_bind]. f_equal. lia. }
  pose proof (Hstep 0%nat 3%nat x upd ltac:(lia)) as H0'. change (2 * Z.of_nat 0) with 0 in H0'. rewrite Z.add_0_r in H0'. rewrite H0'. rewrite !Hstep by lia. by eexists.
Qed.

Lemma mark_bbt_region_spec s td pat buf pre x : default_descr td pat -> bbt s = Some (pre ++ [x]) -> zlen pre = tsize - 1 -> is_byte x ->
  mark_bbt_region chip s td buf = Some (set_bbt (pre ++ [Z.lor x 0xAA]) s).
Proof.
  intros Hd Hs Hp Hx. destruct (default_fields td pat Hd) as (Ho & _ & _ & _ & Hmb & Hres & _). unfold mark_bbt_region, opt. rewrite Hs, Ho, Hmb, Hres, numblocks_n. cbn [mbind option_bind].
  change (flag table_options NAND_BBT_ABSPAGE || negb (flag table_options NAND_BBT_WRITE)) with false. change (flag table_options NAND_BBT_LASTBLOCK) with true. cbv iota zeta.
  destruct tsize_blocks as (Hn & _). replace (Z.shiftl (n - 4) 1) with (8 * (tsize - 1)) by (rewrite Z.shiftl_mul_pow2 by lia; lia). change (Z.to_nat 4) with 4%nat.
  destruct (reserve_last pre x false Hp Hx) as (upd & ->). cbn [mbind option_bind]. change (negb (0 =? 0)) with false. by rewrite andb_false_r.
Qed.

(** ** Which table is read *)

(** What is found of a table: nothing, a block that cannot be read, or the table. *)
Inductive found_table := absent | unreadable (v : Z) | table (v : Z) (t : list Z).

(** The table of a pattern: it is in the block [b], or nowhere. *)
Definition table_state (d : D) (pat : list Z) (b : Z) (r : found_table) : Prop :=
  n - 4 <= b < n /\ (forall b', n - 4 <= b' < n -> b' <> b -> pattern_at d b' <> pat)
  /\ match r with
     | table v t => holds d b pat v t /\ proper t
     | unreadable v => pattern_at d b = pat /\ version_at d b = v /\ damaged d (b * ppb) = true
     | absent => pattern_at d b <> pat
     end.

Lemma first_match_only d pat b (m : nat) : forall act, (forall b', act - Z.of_nat m < b' <= act -> b' <> b -> pattern_at d b' <> pat) ->
  act - Z.of_nat m < b <= act -> pattern_at d b = pat -> first_match d pat m act = Some b.
Proof.
  induction m as [| m IH]; intros act Hno Hb Hp; [lia |]. cbn [first_match]. destruct (decide (pattern_at d act = pat)) as [E | E].
  - destruct (Z.eq_dec act b) as [-> | Hne]; [done |]. exfalso. apply (Hno act); [lia | done | done].
  - apply IH; [intros b' Hb'; apply Hno; lia | | done]. destruct (Z.eq_dec act b) as [-> | Hne]; [done | lia].
Qed.

Lemma first_match_none d pat (m : nat) : forall act, (forall b', act - Z.of_nat m < b' <= act -> pattern_at d b' <> pat) -> first_match d pat m act = None.
Proof.
  induction m as [| m IH]; intros act Hno; [done |]. cbn [first_match]. rewrite decide_False by (apply Hno; lia). apply IH. intros b' Hb'. apply Hno. lia.
Qed.

Lemma table_state_found d pat b r : table_state d pat b r -> first_match d pat 4 (n - 1) = match r with absent => None | _ => Some b end.
Proof.
  intros (Hb & Hno & Hr). destruct r as [| v | v t].
  - apply first_match_none. intros b' Hb'. destruct (Z.eq_dec b' b) as [-> | Hne]; [done | apply Hno; lia].
  - apply first_match_only; [intros b' Hb'; apply Hno; lia | lia | apply Hr].
  - apply first_match_only; [intros b' Hb'; apply Hno; lia | lia | apply Hr].
Qed.

(** The descriptor after the search. *)
Definition searched (td : nand_bbt_descr) (b : Z) (r : found_table) : nand_bbt_descr :=
  match r with table v _ | unreadable v => set_version v (set_page (b * ppb) (reset td)) | absent => reset td end.

Lemma search_state d td pat b r buf : default_descr td pat -> table_state d pat b r -> zlen buf = buffer_length chip ->
  exists buf', search_bbt chip d td buf = Some (searched td b r, buf') /\ zlen buf' = buffer_length chip.
Proof.
  intros Hd Hs Hbuf. destruct (search_bbt_spec d td pat buf Hd Hbuf) as (buf' & -> & Hl). exists buf'. split; [| done]. rewrite (table_state_found d pat b r Hs).
  destruct Hs as (_ & _ & Hr). destruct r as [| v | v t]; [done | |]; [destruct Hr as (_ & <- & _) | destruct Hr as [[_ <- _ _] _]]; done.
Qed.

Lemma version_byte d b : 0 <= b < n -> is_byte (version_at d b).
Proof.
  intros Hb. unfold version_at. pose proof ppb_pos. destruct (fl_spare L d (b * ppb)) as [_ Hby]; [nia |].
  destruct (spare d (b * ppb) !! 12%nat) as [x |] eqn:Hx; [by apply (proj1 (Forall_lookup _ _) Hby _ _ Hx) | by vm_compute].
Qed.

Lemma searched_ok td pat d b r : default_descr td pat -> table_state d pat b r -> default_descr (searched td b r) pat /\ page_ok (searched td b r) /\ is_byte (bd_version (searched td b r)).
Proof.
  intros Hd (Hb & _ & Hr). assert (0 <= b < n) as Hbn by (destruct (ge_blocks _ _ G); lia). pose proof (version_byte d b Hbn) as Hv.
  assert (forall v, version_at d b = v -> let td' := set_version v (set_page (b * ppb) (reset td)) in default_descr td' pat /\ page_ok td' /\ is_byte (bd_version td')) as Hat.
  { intros v <-. split; [apply default_version, default_page, default_set, Hd |]. split; [right; by exists b | done]. }
  destruct r as [| v | v t]; cbn [searched]; [| apply Hat, Hr | apply Hat, Hr].
  split; [apply default_set, Hd |]. split; [by left | by vm_compute].
Qed.

(** The table that is read, from what is found of both. *)
Definition chosen_table (r1 r2 : found_table) : option (list Z) :=
  match r1, r2 with
  | table v1 t1, table v2 t2 => Some (if (v1 =? v2) || (0 <? s8 (v1 - v2)) then t1 else t2)
  | table _ t, _ | _, table _ t => Some t
  | _, _ => None
  end.

Lemma chosen_state d b1 b2 r1 r2 t : chosen_table r1 r2 = Some t -> table_state d bbt_pattern b1 r1 -> table_state d mirror_pattern b2 r2 -> proper t.
Proof.
  intros Hc (_ & _ & H1) (_ & _ & H2). destruct r1 as [| v1 | v1 t1], r2 as [| v2 | v2 t2]; cbn [chosen_table] in Hc; try done; injection Hc as <-; try apply H1; try apply H2.
  destruct (_ || _); [apply H1 | apply H2].
Qed.

Lemma read_chosen d td pat b v t buf : default_descr td pat -> table_state d pat b (table v t) -> zlen buf = buffer_length chip ->
  exists buf', read_abs_bbt chip d (searched td b (table v t)) 0 (replicate (Z.to_nat tsize) 0) buf = Some (0, clean <$> t, buf') /\ zlen buf' = buffer_length chip.
Proof.
  intros Hd Hs Hbuf. destruct (searched_ok td pat d b _ Hd Hs) as (Hd' & _). destruct Hs as (Hb & _ & Hh & pre & x & _ & Hl & Hby & _). destruct (ge_blocks _ _ G).
  apply (read_table _ _ pat b v); try done. lia.
Qed.

Lemma read_unreadable d td pat b v t buf : default_descr td pat -> table_state d pat b (unreadable v) -> zlen buf = buffer_length chip ->
  exists buf', read_abs_bbt chip d (searched td b (unreadable v)) 0 t buf = Some (- EBADMSG, t, buf') /\ zlen buf' = buffer_length chip.
Proof.
  intros Hd Hs Hbuf. destruct (searched_ok td pat d b _ Hd Hs) as (Hd' & _). destruct Hs as (Hb & _ & _ & _ & Hdam). destruct (ge_blocks _ _ G).
  apply (read_damaged _ _ pat b); try done. lia.
Qed.

Lemma clean_bytes t : is_bytes t -> is_bytes (clean <$> t).
Proof. intros Ht. apply Forall_fmap. eapply Forall_impl; [exact Ht |]. intros x. apply clean_byte. Qed.

(** The decision for two tables. *)
Lemma decide_pages td md : opt td NAND_BBT_VERSION = true -> bd_page td <> -1 \/ bd_page md <> -1 -> exists wo rd, decide_tables td (Some md) = (false, wo, rd)
  /\ rd = (if bd_page td =? -1 then from_md else if bd_page md =? -1 then from_td else if (bd_version td =? bd_version md) || (0 <? s8 (bd_version td - bd_version md)) then from_td else from_md)
  /\ (bd_page td <> -1 -> bd_page md <> -1 -> bd_version td = bd_version md -> wo = 0).
Proof.
  intros Hv Hp. unfold decide_tables. rewrite Hv. destruct (Z.eqb_spec (bd_page td) (-1)) as [E1 | E1], (Z.eqb_spec (bd_page md) (-1)) as [E2 | E2]; cbn [andb].
  - tauto.
  - eexists _, _. split; [done |]. split; [done | tauto].
  - eexists _, _. split; [done |]. split; [done | tauto].
  - destruct (Z.eqb_spec (bd_version td) (bd_version md)); cbn [orb negb]; [by eexists _, _ |]. destruct (0 <? _); (eexists _, _; split; [done |]; split; [done | tauto]).
Qed.

(** A round that reads a table: it is in memory then, and the other one may be
    written. *)
Definition round_result (t : list Z) (d : D) (td md : nand_bbt_descr) (r : option (Z * state (D := D))) : Prop :=
  exists res s td' md', r = Some (res, s) /\ bbt s = Some (clean <$> t) /\ bbt_td s = Some td' /\ bbt_md s = Some md' /\ default_descr td' bbt_pattern /\ default_descr md' mirror_pattern
    /\ (bd_page td <> -1 -> bd_page md <> -1 -> bd_version td = bd_version md ->
        res = 0 /\ dev s = d /\ bd_page td' = bd_page td /\ bd_page md' = bd_page md /\ bd_version td' = bd_version td /\ bd_version md' = bd_version td).

Lemma round_reads fuel d bd td md t buf : default_descr td bbt_pattern -> default_descr md mirror_pattern -> page_ok td -> page_ok md -> is_byte (bd_version td) -> is_byte (bd_version md) ->
  bd_page td <> -1 \/ bd_page md <> -1 -> zlen t = tsize -> is_bytes t ->
  (exists buf', read_abs_bbt chip d (match (decide_tables td (Some md)).2 with from_md => md | _ => td end) 0 (replicate (Z.to_nat tsize) 0) buf = Some (0, clean <$> t, buf')
     /\ zlen buf' = buffer_length chip) ->
  round_result t d td md (check_create_loop chip (S fuel) d bd td (Some md) (replicate (Z.to_nat tsize) 0) buf).
Proof.
  intros Hd1 Hd2 Hp1 Hp2 Hv1 Hv2 Hpg Htl Htb (buf' & Hread & Hbuf'). destruct (default_fields _ _ Hd1) as (Ho1 & _).
  destruct (decide_pages td md) as (wo & rd & Hdec & Hrd & Hwo); [unfold opt; by rewrite Ho1 | done |]. rewrite Hdec in Hread. cbn [snd] in Hread. cbn [check_create_loop]. rewrite Hdec. unfold opt. rewrite Ho1.
  change (flag table_options NAND_BBT_PERCHIP) with true. cbn [andb]. cbn [mbind option_bind].
  assert (rd = from_td \/ rd = from_md) as Hrd' by (rewrite Hrd; repeat case_match; auto).
  assert (read_first chip d rd td (Some md) 0 (replicate (Z.to_nat tsize) 0) buf = Some (0, clean <$> t, buf')) as -> by (by destruct Hrd' as [-> | ->]).
  cbn [mbind option_bind]. change (mtd_is_eccerr 0) with false. cbv iota.
  assert (read_second chip d rd (Some md) 0 (clean <$> t) buf' = Some (0, clean <$> t, buf')) as -> by (by destruct Hrd' as [-> | ->]).
  cbn [mbind option_bind]. change (mtd_is_eccerr 0) with false. change (mtd_is_bitflip 0 || mtd_is_bitflip 0) with false. cbv iota zeta.
  set (v := Z.max _ _). assert (is_byte v) as Hv by (subst v; unfold is_byte in *; lia).
  assert (zlen (clean <$> t) = tsize) as Hcl by (by rewrite length_fmap). pose proof (clean_bytes t Htb) as Hcb.
  destruct (decide (bd_page td <> -1 /\ bd_page md <> -1 /\ bd_version td = bd_version md)) as [(E1 & E2 & E3) | Hnot].
  { rewrite (Hwo E1 E2 E3). change (negb (Z.land 0 1 =? 0)) with false. cbn [andb mbind option_bind]. change (0 <? 0) with false. change (negb (Z.land 0 2 =? 0)) with false. cbn [andb].
    eexists _, _, _, _. split; [done |]. split; [done |]. split; [done |]. split; [done |]. split; [by apply default_version |]. split; [by apply default_version |].
    intros _ _ _. subst v. rewrite <- E3, Z.max_id. done. }
  match goal with |- context [if ?c then write_bbt ?ch ?dd ?tt ?bb ?x ?y ?z else ?e] => set (w1 := if c then write_bbt ch dd tt bb x y z else e) end.
  assert (exists res d1 td1, w1 = Some (res, d1, td1) /\ default_descr td1 bbt_pattern) as (res & d1 & td1 & -> & Hd1'').
  { subst w1. destruct (_ && _); [| eexists _, _, _; split; [done |]; by apply default_version].
    destruct (write_bbt_total d (clean <$> t) buf' (set_version v td) (Some (set_version v md)) bbt_pattern) as (res & d1 & td1 & Hw & Hdw & _);
      [by apply default_version | done | done | done | done | done |]. rewrite Hw. by exists res, d1, td1. }
  cbn [mbind option_bind]. assert (default_descr (set_version v md) mirror_pattern) as Hdm by (by apply default_version).
  destruct (res <? 0); [eexists _, _, _, _; split; [done |]; repeat (split; [done |]); tauto |]. destruct (_ && _); [| eexists _, _, _, _; split; [done |]; repeat (split; [done |]); tauto].
  destruct (write_bbt_total d1 (clean <$> t) buf' (set_version v md) (Some td1) mirror_pattern) as (res2 & d2 & md2 & -> & Hdm2 & _); [done | done | done | done | done | done |].
  cbn [mbind option_bind]. eexists _, _, _, _. split; [done |]. repeat (split; [done |]). tauto.
Qed.

(** A round that fails to read a table: the next one goes on without it. *)
Lemma round_fails fuel d bd td md buf : default_descr td bbt_pattern -> bd_page td <> -1 -> bd_page md <> -1 ->
  let rd := (decide_tables td (Some md)).2 in
  (exists buf', read_abs_bbt chip d (match rd with from_md => md | _ => td end) 0 (replicate (Z.to_nat tsize) 0) buf = Some (- EBADMSG, replicate (Z.to_nat tsize) 0, buf')
     /\ zlen buf' = buffer_length chip) ->
  exists buf', zlen buf' = buffer_length chip /\ check_create_loop chip (S fuel) d bd td (Some md) (replicate (Z.to_nat tsize) 0) buf =
    check_create_loop chip fuel d bd (match rd with from_md => td | _ => invalidate td end) (Some (match rd with from_md => invalidate md | _ => md end)) (replicate (Z.to_nat tsize) 0) buf'.
Proof.
  intros Hd1 Hp1 Hp2 rd (buf' & Hread & Hbuf'). exists buf'. split; [done |]. destruct (default_fields _ _ Hd1) as (Ho1 & _).
  destruct (decide_pages td md) as (wo & rd' & Hdec & Hrd & _); [unfold opt; by rewrite Ho1 | by left |]. subst rd. cbn [check_create_loop]. rewrite Hdec in Hread |- *. cbn [snd] in Hread |- *. unfold opt. rewrite Ho1.
  change (flag table_options NAND_BBT_PERCHIP) with true. cbn [andb]. cbn [mbind option_bind].
  assert (rd' = from_td \/ rd' = from_md) as Hrd' by (rewrite Hrd; repeat case_match; auto).
  assert (read_first chip d rd' td (Some md) 0 (replicate (Z.to_nat tsize) 0) buf = Some (- EBADMSG, replicate (Z.to_nat tsize) 0, buf')) as -> by (by destruct Hrd' as [-> | ->]).
  cbn [mbind option_bind]. change (mtd_is_eccerr (- EBADMSG)) with true. cbv iota. by destruct Hrd' as [-> | ->].
Qed.

Lemma check_create_spec d bd td md b1 b2 r1 r2 t buf : default_descr td bbt_pattern -> default_descr md mirror_pattern ->
  table_state d bbt_pattern b1 r1 -> table_state d mirror_pattern b2 r2 -> chosen_table r1 r2 = Some t -> zlen buf = buffer_length chip ->
  exists res s td' md', check_create chip d bd (searched td b1 r1) (Some (searched md b2 r2)) (replicate (Z.to_nat tsize) 0) buf = Some (res, s)
    /\ bbt s = Some (clean <$> t) /\ bbt_td s = Some td' /\ bbt_md s = Some md' /\ default_descr td' bbt_pattern /\ default_descr md' mirror_pattern
    /\ (r1 = r2 -> forall v, r1 = table v t -> res = 0 /\ dev s = d /\ bd_page td' = b1 * ppb /\ bd_page md' = b2 * ppb /\ bd_version td' = v /\ bd_version md' = v).
Proof.
  intros Hd1 Hd2 Hs1 Hs2 Hc Hbuf. destruct (searched_ok td _ d b1 r1 Hd1 Hs1) as (Hd1' & Hp1 & Hv1). destruct (searched_ok md _ d b2 r2 Hd2 Hs2) as (Hd2' & Hp2 & Hv2).
  pose proof (chosen_state d b1 b2 r1 r2 t Hc Hs1 Hs2) as (pre & x & _ & Htl & Htb & _). destruct (default_fields _ _ Hd1') as (Ho1 & _). destruct (ge_blocks _ _ G) as (_ & Hn4 & _). pose proof ppb_pos as Hppb.
  assert (forall td0 md0, opt td0 NAND_BBT_VERSION = true -> bd_page td0 <> -1 \/ bd_page md0 <> -1 -> (decide_tables td0 (Some md0)).2 = if bd_page td0 =? -1 then from_md else if bd_page md0 =? -1 then from_td else
    if (bd_version td0 =? bd_version md0) || (0 <? s8 (bd_version td0 - bd_version md0)) then from_td else from_md) as Hdec.
  { intros td0 md0 Hv Hp. destruct (decide_pages td0 md0 Hv Hp) as (wo & rd & -> & -> & _). done. }
  assert (Hver : opt (searched td b1 r1) NAND_BBT_VERSION = true) by (unfold opt; by rewrite Ho1).
  set (td1 := searched td b1 r1) in *. set (md1 := searched md b2 r2) in *.
  assert (Hmain : forall fuel td0 md0 buf0, default_descr td0 bbt_pattern -> default_descr md0 mirror_pattern -> page_ok td0 -> page_ok md0 -> is_byte (bd_version td0) -> is_byte (bd_version md0) ->
    bd_page td0 <> -1 \/ bd_page md0 <> -1 -> (exists buf', read_abs_bbt chip d (match (decide_tables td0 (Some md0)).2 with from_md => md0 | _ => td0 end) 0 (replicate (Z.to_nat tsize) 0) buf0
      = Some (0, clean <$> t, buf') /\ zlen buf' = buffer_length chip) ->
    (r1 = r2 -> td0 = td1 /\ md0 = md1) -> exists res s td' md', check_create_loop chip (S fuel) d bd td0 (Some md0) (replicate (Z.to_nat tsize) 0) buf0 = Some (res, s)
      /\ bbt s = Some (clean <$> t) /\ bbt_td s = Some td' /\ bbt_md s = Some md' /\ default_descr td' bbt_pattern /\ default_descr md' mirror_pattern
      /\ (r1 = r2 -> forall v, r1 = table v t -> res = 0 /\ dev s = d /\ bd_page td' = b1 * ppb /\ bd_page md' = b2 * ppb /\ bd_version td' = v /\ bd_version md' = v)).
  { intros fuel td0 md0 buf0 H1 H2 H3 H4 H5 H6 H7 Hread H8. destruct (round_reads fuel d bd td0 md0 t buf0) as (res & s & td' & md' & Hr & A1 & A2 & A3 & A4 & A5 & Hsame); try done.
    exists res, s, td', md'. repeat (split; [done |]). intros E v Ev. destruct (H8 E) as [-> ->]. subst td1 md1. rewrite <- E, Ev in Hsame. apply Hsame; cbn; destruct Hs1, Hs2; [nia | nia | done]. }
  assert (0 <= b1 /\ 0 <= b2) as [Hb1 Hb2] by (destruct Hs1, Hs2; lia). assert (forall b, 0 <= b -> b * ppb <> -1) as Hpage by (intros b Hb; nia).
  assert (Hinv : forall td pat, default_descr td pat -> default_descr (invalidate td) pat /\ page_ok (invalidate td) /\ is_byte (bd_version (invalidate td))).
  { intros td0 pat Hd0. split; [by apply default_set |]. split; [by left | by vm_compute]. }
  unfold check_create. destruct r1 as [| v1 | v1 t1], r2 as [| v2 | v2 t2]; cbn [chosen_table] in Hc; try done; cbn [searched] in td1, md1.
  - injection Hc as ->. apply (Hmain 2%nat); try done; [right; by apply Hpage |]. rewrite Hdec by (done || (right; by apply Hpage)). cbn [Z.eqb]. by apply (read_chosen d md mirror_pattern b2 v2 t buf).
  - injection Hc as ->. destruct (decide_pages td1 md1 Hver (or_introl (Hpage _ Hb1))) as (wo & rd & Hdt & Hrd & _). subst td1 md1. cbn [bd_page bd_version set_version set_page] in Hrd. rewrite !(proj2 (Z.eqb_neq _ _)) in Hrd by (by apply Hpage).
    set (td1 := set_version v1 _) in *. set (md1 := set_version v2 _) in *. destruct (_ || _).
    + destruct (round_fails 2 d bd td1 md1 buf Hd1' (Hpage _ Hb1) (Hpage _ Hb2)) as (buf' & Hbuf' & ->); [rewrite Hdt, Hrd; by apply (read_unreadable d td bbt_pattern b1 v1) |].
      rewrite Hdt, Hrd. cbn [snd]. destruct (Hinv td1 _ Hd1') as (I1 & I2 & I3). apply (Hmain 1%nat); try done; [right; by apply Hpage |].
      rewrite Hdec by (exact Hver || (right; by apply Hpage)). cbn [invalidate set_page bd_page Z.eqb]. by apply (read_chosen d md mirror_pattern b2 v2 t buf').
    + apply (Hmain 2%nat); try done; [by right; apply Hpage |]. rewrite Hdt, Hrd. by apply (read_chosen d md mirror_pattern b2 v2 t buf).
  - injection Hc as ->. apply (Hmain 2%nat); try done; [left; by apply Hpage |]. rewrite Hdec by (done || (left; by apply Hpage)). cbn [bd_page set_version set_page]. rewrite (proj2 (Z.eqb_neq _ _)) by (by apply Hpage).
    cbn [reset set_page bd_page Z.eqb]. by apply (read_chosen d td bbt_pattern b1 v1 t buf).
  - injection Hc as ->. destruct (decide_pages td1 md1 Hver (or_introl (Hpage _ Hb1))) as (wo & rd & Hdt & Hrd & _). subst td1 md1. cbn [bd_page bd_version set_version set_page] in Hrd. rewrite !(proj2 (Z.eqb_neq _ _)) in Hrd by (by apply Hpage).
    set (td1 := set_version v1 _) in *. set (md1 := set_version v2 _) in *. destruct (_ || _).
    + apply (Hmain 2%nat); try done; [by right; apply Hpage |]. rewrite Hdt, Hrd. by apply (read_chosen d td bbt_pattern b1 v1 t buf).
    + destruct (round_fails 2 d bd td1 md1 buf Hd1' (Hpage _ Hb1) (Hpage _ Hb2)) as (buf' & Hbuf' & ->); [rewrite Hdt, Hrd; by apply (read_unreadable d md mirror_pattern b2 v2) |].
      rewrite Hdt, Hrd. cbn [snd]. destruct (Hinv md1 _ Hd2') as (I1 & I2 & I3). apply (Hmain 1%nat); try done; [left; by apply Hpage |].
      rewrite Hdec by (exact Hver || (left; by apply Hpage)). cbn [bd_page]. rewrite (proj2 (Z.eqb_neq _ _)) by (by apply Hpage). cbn [invalidate set_page bd_page Z.eqb]. by apply (read_chosen d td bbt_pattern b1 v1 t buf').
  - apply (Hmain 2%nat); try done; [by right; apply Hpage |]. rewrite Hdec by (done || (left; by apply Hpage)). subst td1 md1. cbn [bd_page bd_version set_version set_page]. rewrite !(proj2 (Z.eqb_neq _ _)) by (by apply Hpage).
    destruct (_ || _); injection Hc as ->; [by apply (read_chosen d td bbt_pattern b1 v1 t buf) | by apply (read_chosen d md mirror_pattern b2 v2 t buf)].
Qed.

Lemma bug_on_default td pat : default_descr td pat -> bug_on chip td = false.
Proof.
  intros Hd. destruct (default_fields td pat Hd) as (Ho & _). unfold bug_on, bits_of, opt. rewrite Ho, (ge_options _ _ G).
  change (flag table_options NAND_BBT_NO_OOB) with false. change (Z.land table_options NAND_BBT_NRBITS_MSK =? 0) with false. cbn [andb orb]. destruct (ge_size _ _ G) as [_ ->].
  destruct (flag table_options NAND_BBT_PERCHIP); apply Z.ltb_ge; change (Z.land table_options NAND_BBT_NRBITS_MSK) with 2;
    rewrite <- (Z.add_0_r es) at 1; rewrite size_shift, Z.div_1_r by lia; destruct tsize_blocks as (Hn & Ht & Hte); pose proof (ge_shift _ _ G); pose proof (ge_small _ _ G) as Hsm;
    rewrite (wrap_small 32 n) by (destruct (ge_blocks _ _ G); lia); rewrite Z.shiftl_1_l, Z.shiftr_div_pow2 by lia; fold esize in Hsm |- *; change (2 ^ 3) with 8;
    rewrite wrap_small by (Z.to_euclidean_division_equations; lia); Z.to_euclidean_division_equations; lia.
Qed.

(** The chip in use: the table in memory, the table [t0] of version [v] in the
    block [b1] and its mirror in [b2]. *)
Record in_use (s : state) (b1 b2 v : Z) (t0 t : list Z) : Prop := {
  iu_bbt : bbt s = Some t;
  iu_td : exists td, bbt_td s = Some td /\ default_descr td bbt_pattern /\ bd_page td = b1 * ppb /\ bd_version td = v;
  iu_md : exists md, bbt_md s = Some md /\ default_descr md mirror_pattern /\ bd_page md = b2 * ppb /\ bd_version md = v;
  iu_blocks : b1 <> b2;
  iu_version : is_byte v;
  iu_main : table_state (dev s) bbt_pattern b1 (table v t0);
  iu_mirror : table_state (dev s) mirror_pattern b2 (table v t0) }.

(** At the start the table is found again. *)
Lemma restart d td md b1 b2 r1 r2 t bd buf databuf : default_descr td bbt_pattern -> default_descr md mirror_pattern ->
  table_state d bbt_pattern b1 r1 -> table_state d mirror_pattern b2 r2 -> chosen_table r1 r2 = Some t -> zlen buf = buffer_length chip ->
  exists res s, nand_scan_bbt chip (State None (Some td) (Some md) d) bd buf databuf = Some (res, s) /\ bbt s = Some t
    /\ (b1 <> b2 -> forall v, r1 = table v t -> r2 = table v t -> res = 0 /\ in_use s b1 b2 v t t).
Proof.
  intros Hd1 Hd2 Hs1 Hs2 Hc Hbuf. destruct (default_fields _ _ Hd1) as (Ho1 & _). pose proof (chosen_state d b1 b2 r1 r2 t Hc Hs1 Hs2) as Hpr.
  unfold nand_scan_bbt. cbn [bbt_td bbt_md dev]. rewrite size_shift by lia. change (n / 2 ^ 2) with tsize.
  unfold verify_bbt_descr. rewrite (bug_on_default td _ Hd1), (bug_on_default md _ Hd2). cbn [mbind option_bind]. unfold opt. rewrite Ho1.
  change (flag table_options NAND_BBT_ABSPAGE) with false. cbv iota. unfold search_read_bbts. destruct (search_state d td _ b1 r1 buf Hd1 Hs1 Hbuf) as (buf1 & -> & Hbuf1). cbn [mbind option_bind].
  destruct (search_state d md _ b2 r2 buf1 Hd2 Hs2 Hbuf1) as (buf2 & -> & Hbuf2). cbn [mbind option_bind].
  destruct (check_create_spec d bd td md b1 b2 r1 r2 t buf2 Hd1 Hd2 Hs1 Hs2 Hc Hbuf2) as (res & s & td' & md' & -> & Hb & Ht & Hm & Hdt & Hdm & Hsame). cbn [mbind option_bind]. rewrite Ht. cbn [mbind option_bind].
  destruct Hpr as (pre & x & -> & Hl & Hby & Hpre & Hx). apply Forall_app in Hby as [Hby1 Hby2]. apply Forall_inv in Hby2. rewrite length_app in Hl. cbn [length] in Hl.
  rewrite fmap_app, Hpre in Hb. cbn [fmap list_fmap] in Hb.
  rewrite (mark_bbt_region_spec s td' _ buf2 pre (clean x)) by (done || lia || by apply clean_byte). rewrite clean_reserved by done. cbn [mbind option_bind].
  change (bbt_md (set_bbt _ s)) with (bbt_md s). rewrite Hm. rewrite (mark_bbt_region_spec _ md' _ buf2 pre x) by (done || lia). cbn [mbind option_bind].
  rewrite Hx. eexists _, _. split; [done |]. split; [done |]. intros Hne v Hr1 Hr2. destruct (Hsame ltac:(congruence) v Hr1) as (-> & Hdev & Hp1 & Hp2 & Hv1 & Hv2). split; [done |].
  destruct (searched_ok td _ d b1 r1 Hd1 Hs1) as (_ & _ & Hvb). rewrite Hr1 in Hvb, Hs1. rewrite Hr2 in Hs2.
  split; cbn [set_bbt bbt bbt_td bbt_md dev]; rewrite ?Hdev; try done; [by exists td' | by exists md'].
Qed.

(** ** Updating *)

Lemma pattern_ne : bbt_pattern <> mirror_pattern.
Proof. vm_compute. discriminate. Qed.

Lemma raised_pattern l l' pat pat2 : raised l l' -> take 4 (drop 8 l) = pat -> pat <> pat2 -> pat = bbt_pattern \/ pat = mirror_pattern -> pat2 = bbt_pattern \/ pat2 = mirror_pattern ->
  take 4 (drop 8 l') <> pat2.
Proof.
  intros Hr <- Hne Hp Hp2 E. assert (forall l0 : list Z, take 4 (drop 8 l0) !! 0%nat = l0 !! 8%nat) as Hat by (intros l0; by rewrite lookup_take_lt, lookup_drop by lia).
  pose proof (Hat l) as H1. pose proof (Hat l') as H2. rewrite E in H2.
  destruct Hp as [Hp | Hp], Hp2 as [-> | ->]; try (by destruct Hne); rewrite Hp in H1; pose proof (Hr 8%nat _ _ (eq_sym H1) (eq_sym H2)) as Hl; vm_compute in Hl; discriminate.
Qed.

(** What trying to write a table does to it, and to the other one. *)
Lemma tried_same d d' pat b v t res r : tried d d' b pat v t res -> (res < 0 -> psize = writesize chip) -> proper t -> table_state d pat b r -> pat = bbt_pattern \/ pat = mirror_pattern ->
  exists r', table_state d' pat b r' /\ (r' = table v t \/ res < 0 /\ (r' = r \/ r' = absent \/ exists v', r' = unreadable v')).
Proof.
  intros [Ho Hcase] Hone Hpr (Hb & Hno & Hr) Hpat. destruct (ge_blocks _ _ G) as (_ & Hn4 & _).
  assert (forall b', n - 4 <= b' < n -> b' <> b -> pattern_at d' b' <> pat) as Hno'.
  { intros b' Hb' Hne. destruct (same_block_marks d d' b') as [-> _]; [apply Ho; lia | lia | by apply Hno]. }
  destruct Hcase as [Hh | (Hneg & Hsp)].
  - exists (table v t). split; [split; [done |]; split; [done |]; by split | by left].
  - specialize (Hsp (Hone Hneg)). destruct Hsp as [Hsame | [He | [Hdam _]]].
    + exists r. split; [| by right; split; [| left]]. split; [done |]. split; [done |]. destruct (same_page_marks d d' b Hsame) as [Hp Hv]. destruct r as [| v0 | v0 t0].
      * by rewrite Hp.
      * rewrite Hp, Hv. destruct Hsame as (_ & _ & ->). done.
      * destruct Hr as [Hr Hp0]. split; [| done]. eapply same_pages_hold; [lia | | exact Hr]. intros p Hp1 Hp2. destruct psize_spec as (_ & Hps & _). specialize (Hone Hneg).
        pose proof ws_pos. rewrite esize_pages in Hp2. assert (p = b * ppb) as -> by nia. done.
    + exists absent. split; [| by right; split; [| right; left]]. split; [done |]. split; [done |]. rewrite (erased_pattern d' b He). by destruct Hpat as [-> | ->].
    + destruct (decide (pattern_at d' b = pat)) as [E | E].
      * exists (unreadable (version_at d' b)). split; [split; [done |]; by split |]. right. split; [done |]. right. right. by eexists.
      * exists absent. split; [split; [done |]; by split |]. by right; split; [| right; left].
Qed.

Lemma tried_other d d' pat b v t res pat2 b2 r2 : tried d d' b pat v t res -> (res < 0 -> psize = writesize chip /\ pattern_at d b = pat) -> pat <> pat2 ->
  pat = bbt_pattern \/ pat = mirror_pattern -> pat2 = bbt_pattern \/ pat2 = mirror_pattern -> 0 <= b < n -> b2 <> b -> table_state d pat2 b2 r2 -> table_state d' pat2 b2 r2.
Proof.
  intros [Ho Hcase] Hone Hne Hpat Hpat2 Hb Hbb (Hb2 & Hno & Hr). destruct (ge_blocks _ _ G) as (_ & Hn4 & _). pose proof ppb_pos.
  assert (same_block d d' b2) as Hs2 by (apply Ho; [lia | done]). destruct (same_block_marks d d' b2 Hs2) as [Hp Hv]; [lia |].
  split; [done |]. split.
  - intros b' Hb' Hne'. destruct (Z.eq_dec b' b) as [-> | Hbb'].
    + destruct Hcase as [[-> _ _ _] | (Hneg & Hsp)]; [done |]. destruct (Hone Hneg) as [Hps Hpb]. destruct (Hsp Hps) as [Hsame | [He | [_ Hrs]]].
      * destruct (same_page_marks d d' b Hsame) as [-> _]. by apply Hno.
      * rewrite (erased_pattern d' b He). by destruct Hpat2 as [-> | ->].
      * assert (length pat = 4%nat) as Hp4 by (by destruct Hpat as [-> | ->]). destruct (marks_ok pat v Hp4) as (_ & Hm & _).
        destruct Hrs as [Hrs | Hrs]; by eapply (raised_pattern _ _ pat).
    + destruct (same_block_marks d d' b') as [-> _]; [apply Ho; lia | lia | by apply Hno].
  - destruct r2 as [| v2 | v2 t2]; [by rewrite Hp | |].
    + rewrite Hp, Hv. destruct (Hs2 (b2 * ppb)) as (_ & _ & ->); [by apply first_page; lia | done].
    + destruct Hr as [Hr Hp2]. split; [| done]. eapply same_block_holds; [exact Hs2 | lia | done].
Qed.

Lemma newer v : is_byte v -> u8 (v + 1) <> v /\ 0 < s8 (u8 (v + 1) - v) /\ is_byte (u8 (v + 1)).
Proof.
  intros Hv. assert ((negb (u8 (v + 1) =? v) && (0 <? s8 (u8 (v + 1) - v)) && (0 <=? u8 (v + 1)) && (u8 (v + 1) <? 256)) = true) as H1.
  { apply (for_bytes (fun v => negb (u8 (v + 1) =? v) && (0 <? s8 (u8 (v + 1) - v)) && (0 <=? u8 (v + 1)) && (u8 (v + 1) <? 256))); [vm_compute; reflexivity | done]. }
  unfold is_byte. lia.
Qed.

(** Updating both tables.  If they fit into a page, the next start finds the old or
    the new table, whatever happens. *)
Lemma update_states s b1 b2 v t0 t offs buf : in_use s b1 b2 v t0 t -> proper t -> 0 <= offs < mtd_size chip -> zlen buf = buffer_length chip ->
  exists res s', nand_update_bbt chip s offs buf = Some (res, s') /\ bbt s' = Some t
    /\ (psize = writesize chip -> exists r1 r2 tr, table_state (dev s') bbt_pattern b1 r1 /\ table_state (dev s') mirror_pattern b2 r2
        /\ chosen_table r1 r2 = Some tr /\ (tr = t \/ res < 0 /\ tr = t0))
    /\ (0 <= res -> in_use s' b1 b2 (u8 (v + 1)) t t).
Proof.
  intros [Hb (td & Htd & Hd1 & Hpg1 & Hv1) (md & Hmd & Hd2 & Hpg2 & Hv2) Hne Hv Hs1 Hs2] Hpr Hoffs Hbuf. destruct (newer v Hv) as (Hnv & Hs8 & Hnb). destruct (ge_blocks _ _ G) as (_ & Hn4 & _).
  pose proof Hpr as (_ & _ & _ & Htl & Htb & _). destruct (default_fields _ _ Hd1) as (Ho1 & _). destruct (default_fields _ _ Hd2) as (Ho2 & _). pose proof ppb_pos.
  unfold nand_update_bbt. rewrite Hb, Htd, Hmd. cbn [fmap option_fmap option_map]. unfold opt. cbn [set_version bd_options]. rewrite Ho1. change (flag table_options NAND_BBT_PERCHIP) with true.
  change (flag table_options NAND_BBT_WRITE) with true. cbv iota. assert (Z.shiftr offs (chip_shift chip) = 0) as ->.
  { destruct (ge_chip _ _ G). rewrite Z.shiftr_div_pow2 by lia. apply Z.div_small. lia. }
  change (negb (s32 0 =? 0)) with false. cbv iota. rewrite Hv1, Hv2. set (v' := u8 (v + 1)) in *.
  change (Descr (bd_options td) (bd_page td) (bd_offs td) (bd_veroffs td) v' (bd_len td) (bd_maxblocks td) (bd_reserved td) (bd_pattern td)) with (set_version v' td).
  change (Descr (bd_options md) (bd_page md) (bd_offs md) (bd_veroffs md) v' (bd_len md) (bd_maxblocks md) (bd_reserved md) (bd_pattern md)) with (set_version v' md).
  assert (forall td' md' b, bd_page td' = b * ppb -> 0 <= b -> place chip t td' md' = Some (Some (b * ppb))) as Hplace.
  { intros td' md' b Hp Hb0. unfold place. rewrite Hp. by rewrite (proj2 (Z.eqb_neq _ _)) by nia. }
  pose proof (proj1 Hs1) as Hb1. pose proof (proj1 Hs2) as Hb2.
  destruct (write_bbt_spec (dev s) t buf (set_version v' td) (Some (set_version v' md)) bbt_pattern b1) as (res & d1 & td' & -> & Htry & Hres & Htd');
    [by apply default_version | lia | done | done | done | done | apply Hplace; [done | lia] |].
  change (bd_version (set_version v' td)) with v' in Htry. cbn [mbind option_bind].
  assert (pattern_at (dev s) b1 = bbt_pattern) as Hpb1 by (by destruct Hs1 as (_ & _ & [[] _])).
  destruct (Z.ltb_spec res 0) as [Hneg | Hpos].
  { eexists _, _. split; [done |]. split; [done |]. split; [| lia]. intros Hone. cbn [dev].
    destruct (tried_same _ _ _ _ _ _ _ _ Htry (fun _ => Hone) Hpr Hs1 (or_introl eq_refl)) as (r1 & Hs1' & Hr1).
    pose proof (tried_other _ _ _ _ _ _ _ _ _ _ Htry (fun _ => conj Hone Hpb1) pattern_ne (or_introl eq_refl) (or_intror eq_refl) ltac:(lia) (not_eq_sym Hne) Hs2) as Hs2'.
    exists r1, (table v t0). destruct Hr1 as [-> | (_ & [-> | [-> | [v0 ->]]])]; cbn [chosen_table]; eexists; (split; [exact Hs1' |]; split; [exact Hs2' |]; split; [reflexivity |]).
    - left. by rewrite (proj2 (Z.ltb_lt _ _)), orb_true_r by done.
    - right. split; [done |]. by rewrite Z.eqb_refl.
    - by right.
    - by right. }
  assert (res < 0 -> psize = writesize chip) as Hno by lia. assert (res < 0 -> psize = writesize chip /\ pattern_at (dev s) b1 = bbt_pattern) as Hno2 by lia.
  destruct (tried_same _ _ _ _ _ _ _ _ Htry Hno Hpr Hs1 (or_introl eq_refl)) as (r1 & Hs1' & Hr1).
  pose proof (tried_other _ _ _ _ _ _ _ _ _ _ Htry Hno2 pattern_ne (or_introl eq_refl) (or_intror eq_refl) ltac:(lia) (not_eq_sym Hne) Hs2) as Hs2'.
  destruct Hr1 as [-> | (Hneg & _)]; [| lia]. cbn [set_version bd_options]. rewrite Ho2. change (flag table_options NAND_BBT_WRITE) with true. cbv iota.
  change (Descr (bd_options md) (bd_page md) (bd_offs md) (bd_veroffs md) v' (bd_len md) (bd_maxblocks md) (bd_reserved md) (bd_pattern md)) with (set_version v' md).
  destruct (write_bbt_spec d1 t buf (set_version v' md) (Some td') mirror_pattern b2) as (res2 & d2 & md' & -> & Htry2 & Hres2 & Hmd');
    [by apply default_version | lia | done | done | done | done | apply Hplace; [done | lia] |].
  change (bd_version (set_version v' md)) with v' in Htry2. cbn [mbind option_bind].
  assert (pattern_at d1 b2 = mirror_pattern) as Hpb2 by (by destruct Hs2' as (_ & _ & [[] _])).
  eexists _, _. split; [done |]. split; [done |]. cbn [dev].
  assert ((res2 < 0 -> psize = writesize chip) -> exists r2, table_state d2 bbt_pattern b1 (table v' t) /\ table_state d2 mirror_pattern b2 r2
    /\ (r2 = table v' t \/ res2 < 0 /\ (r2 = table v t0 \/ r2 = absent \/ exists v', r2 = unreadable v'))) as Hafter.
  { intros Hone. destruct (tried_same _ _ _ _ _ _ _ _ Htry2 Hone Hpr Hs2' (or_intror eq_refl)) as (r2 & Hs2'' & Hr2). exists r2.
    split; [| done]. exact (tried_other _ _ _ _ _ _ _ _ _ _ Htry2 (fun Hn => conj (Hone Hn) Hpb2) (not_eq_sym pattern_ne) (or_intror eq_refl) (or_introl eq_refl) ltac:(lia) Hne Hs1'). }
  split.
  - intros Hone. destruct (Hafter (fun _ => Hone)) as (r2 & Hs1'' & Hs2'' & Hr2). exists (table v' t), r2, t. split; [done |]. split; [done |]. split; [| by left].
    destruct Hr2 as [-> | (_ & [-> | [-> | [v0 ->]]])]; cbn [chosen_table]; [by rewrite Z.eqb_refl | by rewrite (proj2 (Z.ltb_lt _ _)), orb_true_r by done | done | done].
  - intros Hok. destruct Hafter as (r2 & Hs1'' & Hs2'' & Hr2); [lia |]. destruct Hr2 as [-> | (Hneg & _)]; [| lia]. split; cbn [bbt bbt_td bbt_md dev]; try done.
    + exists td'. split; [done |]. split; [| by destruct Htd' as [-> | ->]]. destruct Htd' as [-> | ->]; [by apply default_version | by apply default_page, default_version].
    + exists md'. split; [done |]. split; [| by destruct Hmd' as [-> | ->]]. destruct Hmd' as [-> | ->]; [by apply default_version | by apply default_page, default_version].
Qed.
End Flash.
