(* ===== verification/BbtMark.v ===== *)
(** * Marking a block bad (drivers/mtd/nand/nand_base.c)

    A block that was marked bad is bad in memory, and after the next start too; if
    an error is reported the table is the old or the new one. *)

From S2P Require Import Prelude NandBbt BbtFacts BbtSurvive.

(** ** Marking in the table *)

Definition mark_byte (x : Z) (j : nat) : Z := u8 (Z.lor x (Z.shiftl 1 (2 * Z.of_nat j))).

Lemma mark_byte_spec x j : is_byte x -> (j < 4)%nat -> code x j = 0 ->
  is_byte (mark_byte x j) /\ code (mark_byte x j) j = 1 /\ (forall k, (k < 4)%nat -> k <> j -> code (mark_byte x j) k = code x k)
  /\ (clean x = x -> clean (mark_byte x j) = mark_byte x j).
Proof.
  intros Hx Hj Hc. set (y := mark_byte x j).
  assert (forallb (fun j => negb (code x j =? 0) || ((0 <=? mark_byte x j) && (mark_byte x j <? 256) && (code (mark_byte x j) j =? 1)
    && forallb (fun k => (k =? j)%nat || (code (mark_byte x j) k =? code x k)) (seq 0 4) && (negb (clean x =? x) || (clean (mark_byte x j) =? mark_byte x j)))) (seq 0 4) = true) as H.
  { apply (for_bytes (fun x => forallb (fun j => negb (code x j =? 0) || ((0 <=? mark_byte x j) && (mark_byte x j <? 256) && (code (mark_byte x j) j =? 1)
    && forallb (fun k => (k =? j)%nat || (code (mark_byte x j) k =? code x k)) (seq 0 4) && (negb (clean x =? x) || (clean (mark_byte x j) =? mark_byte x j)))) (seq 0 4))); [vm_compute; reflexivity | done]. }
  rewrite forallb_forall in H. specialize (H j (proj2 (in_seq 4 0 j) ltac:(lia))). fold y in H. rewrite Hc, Z.eqb_refl in H. cbn [negb orb] in H.
  apply andb_prop in H as [H H4]. apply andb_prop in H as [H H3]. rewrite forallb_forall in H3. unfold is_byte. split; [lia |]. split; [lia |]. split; [| lia].
  intros k Hk Hkj. specialize (H3 k (proj2 (in_seq 4 0 k) ltac:(lia))). rewrite (proj2 (Nat.eqb_neq k j) Hkj) in H3. by apply Z.eqb_eq.
Qed.

Lemma set_insert l i x v : 0 <= i -> l !! Z.to_nat i = Some x -> set l i v = Some (<[Z.to_nat i := v]> l).
Proof.
  intros Hi Hx. rewrite <- (take_drop_middle _ _ _ Hx) at 1. pose proof (lookup_lt_Some _ _ _ Hx). rewrite set_app by (rewrite length_take; lia).
  by rewrite insert_take_drop by done.
Qed.

Section Mark.
Context {D : Type} `{NandDriver D, FlashView D} (chip : nand_chip) (n : Z).
Context (G : geometry_ok chip n) (L : flash_laws chip n).

Notation esize := (esize chip).
Notation tsize := (tsize n).
Notation proper := (proper n).

(** The table with the block [b] marked. *)
Definition marked (t : list Z) (b : Z) : list Z := <[Z.to_nat (b / 4) := mark_byte (default 0 (t !! Z.to_nat (b / 4))) (Z.to_nat (b mod 4))]> t.

Lemma or_at_marked t b : zlen t = tsize -> 0 <= b < n -> or_at t (Z.shiftr b 2) (Z.shiftl 1 (Z.shiftl (Z.land b 3) 1)) = Some (marked t b).
Proof.
  intros Ht Hb. destruct (block_parts b) as (-> & H2 & _); [lia |]. rewrite (Z.shiftl_mul_pow2 _ 1) by lia. change (2 ^ 1) with 2. rewrite (Z.mul_comm _ 2), H2.
  destruct (table_index chip n G t b Ht Hb) as (x & Hx & Hg). unfold or_at, marked. rewrite Hg, Hx. cbn [mbind option_bind default]. erewrite set_insert; [done | | exact Hx].
  apply Z.div_pos; lia.
Qed.

Lemma marked_code t b b' : is_bytes t -> zlen t = tsize -> 0 <= b < n -> 0 <= b' < n -> tcode t b = 0 ->
  tcode (marked t b) b' = if b' =? b then 1 else tcode t b'.
Proof.
  intros Hby Ht Hb Hb' Hc. destruct (table_index chip n G t b Ht Hb) as (x & Hx & _). pose proof (Z.mod_pos_bound b 4) as Hm. pose proof (Z.mod_pos_bound b' 4) as Hm'.
  assert (is_byte x) as Hxb by (by apply (proj1 (Forall_lookup _ _) Hby _ _ Hx)). unfold tcode in *. rewrite Hx in Hc. cbn [default] in Hc.
  destruct (mark_byte_spec x (Z.to_nat (b mod 4)) Hxb ltac:(lia) Hc) as (_ & Hj & Hk & _). unfold marked. rewrite Hx. cbn [default].
  pose proof (lookup_lt_Some _ _ _ Hx). destruct (Z.eq_dec (b' / 4) (b / 4)) as [E | E].
  - rewrite E, list_lookup_insert_eq by done. rewrite Hx. cbn [default]. destruct (Z.eqb_spec b' b) as [-> | Hne]; [done |]. apply Hk; [lia |].
    pose proof (Z.div_mod b 4). pose proof (Z.div_mod b' 4). lia.
  - rewrite (proj2 (Z.eqb_neq b' b)) by congruence. rewrite list_lookup_insert_ne; [done |]. assert (0 <= b / 4 /\ 0 <= b' / 4) by (split; apply Z.div_pos; lia). lia.
Qed.

Lemma marked_proper t b : proper t -> 0 <= b < n - 4 -> tcode t b = 0 -> proper (marked t b).
Proof.
  intros (pre & x & -> & Hl & Hby & Hpre & Hx) Hb Hc. destruct (tsize_blocks chip n G) as (Hn & _). rewrite length_app in Hl. cbn [length] in Hl.
  assert (0 <= b / 4 < zlen pre) as Hi by (Z.to_euclidean_division_equations; lia). destruct (lookup_lt_is_Some_2 pre (Z.to_nat (b / 4))) as [y Hy]; [lia |].
  pose proof (Z.mod_pos_bound b 4) as Hm. apply Forall_app in Hby as [Hby1 Hby2]. assert (is_byte y) as Hyb by (by apply (proj1 (Forall_lookup _ _) Hby1 _ _ Hy)).
  unfold marked, tcode in *. rewrite lookup_app_l in Hc |- * by lia. rewrite Hy in Hc |- *. cbn [default] in Hc |- *. rewrite insert_app_l by lia.
  destruct (mark_byte_spec y (Z.to_nat (b mod 4)) Hyb ltac:(lia) Hc) as (Hb1 & _ & _ & Hcl). eexists _, x. split; [done |]. rewrite length_app, length_insert. split; [cbn [length]; lia |].
  split; [apply Forall_app; split; [by apply Forall_insert | done] |]. split; [| done]. rewrite list_fmap_insert, Hpre. change (id y) with y. rewrite Hcl; [done |].
  assert (clean <$> pre !! Z.to_nat (b / 4) = Some y) as E by (rewrite <- list_lookup_fmap, Hpre; done). rewrite Hy in E. by injection E.
Qed.

(** ** The other blocks *)

Lemma table_state_other d d' pat b r c : others_same chip n d d' c -> 0 <= c < n - 4 -> table_state chip n d pat b r -> table_state chip n d' pat b r.
Proof.
  intros Ho Hc (Hb & Hno & Hr). destruct (ge_blocks _ _ G) as (_ & Hn4 & _). assert (forall b', n - 4 <= b' < n -> same_block chip d d' b') as Hs by (intros b' Hb'; apply Ho; lia).
  split; [done |]. split.
  - intros b' Hb' Hne. destruct (same_block_marks chip n G d d' b' (Hs b' Hb')) as [-> _]; [lia | by apply Hno].
  - destruct (same_block_marks chip n G d d' b (Hs b Hb)) as [Hp Hv]; [lia |]. destruct r as [| v | v t]; [by rewrite Hp | |].
    + rewrite Hp, Hv. destruct (Hs b Hb (b * ppb chip)) as (_ & _ & ->); [by apply (first_page chip n G); lia | done].
    + destruct Hr as [Hr Hpr]. split; [| done]. eapply same_block_holds; [done | by apply Hs | lia | done].
Qed.

Lemma others_refl d b : others_same chip n d d b.
Proof. intros b' _ _. apply same_block_refl. Qed.

Hypothesis Hpages : flag (bbt_options chip) NAND_BBT_SCANLASTPAGE && flag (bbt_options chip) NAND_BBT_SCAN2NDPAGE = false.
Hypothesis Herase : erasesize chip = esize.

Lemma markers_other d b pos marker : 0 <= b < n -> let ofs := if flag (bbt_options chip) NAND_BBT_SCANLASTPAGE then b * esize + (erasesize chip - writesize chip) else b * esize in
  others_same chip n d (write_markers chip (if flag (bbt_options chip) NAND_BBT_SCAN2NDPAGE then 2 else 1) d ofs pos marker 0).1 b.
Proof.
  intros Hb ofs. pose proof (ws_pos chip n G) as Hws. pose proof (esize_pages chip n G) as He. pose proof (ge_shift _ _ G).
  assert (2 <= ppb chip) by (unfold ppb; replace (bbt_erase_shift chip - page_shift chip) with (Z.succ (bbt_erase_shift chip - page_shift chip - 1)) by lia;
    rewrite Z.pow_succ_r by lia; pose proof (Z.pow_pos_nonneg 2 (bbt_erase_shift chip - page_shift chip - 1)); lia).
  subst ofs. destruct (flag _ NAND_BBT_SCANLASTPAGE); cbn [andb] in Hpages; [rewrite Hpages |].
  - cbn [write_markers]. rewrite Herase. pose proof (fl_marker _ _ L d b pos marker (esize - writesize chip) Hb ltac:(nia)) as Hm. by destruct (drv_write_marker d _ pos marker).
  - pose proof (fl_marker _ _ L d b pos marker 0 Hb ltac:(nia)) as Hm. rewrite Z.add_0_r in Hm. destruct (flag _ NAND_BBT_SCAN2NDPAGE); cbn [write_markers];
      destruct (drv_write_marker d _ pos marker) as [d1 r1]; [| done]. pose proof (fl_marker _ _ L d1 b pos marker (writesize chip) Hb ltac:(nia)) as Hm2.
    destruct (drv_write_marker d1 _ pos marker) as [d2 r2]. by eapply others_trans.
Qed.

Lemma erase_other d t b : 0 <= b < n -> zlen t = tsize -> exists d' r, nand_erase_nand chip d (Some t) (b * esize) false = Some (d', r) /\ others_same chip n d d' b.
Proof.
  intros Hb Ht. rewrite (erase_aligned chip n G) by lia. pose proof (isbad_spec chip n G t b 0 false Ht Hb ltac:(pose proof (esize_pos chip n G); lia)) as Hbad.
  rewrite Z.add_0_r in Hbad. rewrite Hbad. cbn [mbind option_bind]. destruct (if tcode t b =? 0 then false else _); [eexists _, _; split; [done |]; apply others_refl |].
  destruct (fl_erase _ _ L d b Hb) as (d' & r & -> & Ho & _). by eexists _, _.
Qed.

(** ** Marking *)

Lemma in_use_fields s b1 b2 v t0 t : in_use chip n s b1 b2 v t0 t -> bbt s = Some t.
Proof. by intros [Hb _ _ _ _ _ _]. Qed.

(** Marking a good block: the table in memory has the mark, and the one that is
    found later is this one, or the old one if there was an error. *)
Lemma markbad_states s b1 b2 v t0 t b buf : in_use chip n s b1 b2 v t0 t -> proper t -> 0 <= b < n - 4 -> tcode t b = 0 -> zlen buf = buffer_length chip ->
  flag (bbt_options chip) NAND_BBT_USE_FLASH = true ->
  exists res s', nand_block_markbad chip s (b * esize) buf = Some (res, s') /\ bbt s' = Some (marked t b)
    /\ (psize chip n = writesize chip -> exists r1 r2 tr, table_state chip n (dev s') bbt_pattern b1 r1 /\ table_state chip n (dev s') mirror_pattern b2 r2
        /\ chosen_table r1 r2 = Some tr /\ (tr = marked t b \/ res <> 0 /\ tr = t0))
    /\ (res = 0 -> in_use chip n s' b1 b2 (u8 (v + 1)) (marked t b) (marked t b)).
Proof.
  intros Hu Hpr Hb Hc Hbuf Hflash. pose proof Hpr as (_ & _ & _ & Htl & Htb & _). pose proof (esize_pos chip n G) as He. destruct (ge_blocks _ _ G) as (_ & Hn4 & H31).
  assert (0 <= b < n) as Hbn by lia. pose proof (isbad_spec chip n G t b 0 false Htl Hbn ltac:(lia)) as Hbad. rewrite Z.add_0_r, Hc in Hbad. change (if 0 =? 0 then false else _) with false in Hbad.
  unfold nand_block_markbad, nand_block_checkbad. rewrite (in_use_fields _ _ _ _ _ _ Hu), Hbad. cbn [mbind option_bind]. change (negb (0 =? 0)) with false. cbv iota.
  unfold nand_default_block_markbad. rewrite (in_use_fields _ _ _ _ _ _ Hu), Hflash.
  set (w := negb (flag (bbt_options chip) NAND_BBT_NO_OOB_BBM)). set (step1 := if w then nand_erase_nand chip (dev s) (Some t) (b * esize) false else Some (dev s, 0)).
  assert (exists d1 r1, step1 = Some (d1, r1) /\ others_same chip n (dev s) d1 b) as (d1 & r1 & -> & Ho1).
  { subst step1. destruct w; [by apply erase_other | eexists _, _; split; [done |]; apply others_refl]. }
  cbn [mbind option_bind]. replace (s32 (Z.shiftr (b * esize) (bbt_erase_shift chip))) with b.
  2: { pose proof (ge_shift _ _ G). rewrite Z.shiftr_div_pow2 by lia. fold esize. unfold BbtSurvive.esize. rewrite Z.div_mul by (unfold BbtSurvive.esize in He; lia). by rewrite swrap_small by lia. }
  rewrite or_at_marked by done. cbn [mbind option_bind].
  set (markers := if w then _ else _). assert (others_same chip n d1 markers.1 b) as Ho2.
  { subst markers. destruct w; [by apply markers_other | apply others_refl]. }
  destruct markers as [d2 ret]. cbn [fst] in Ho2. pose proof (others_trans chip n _ _ _ _ Ho1 Ho2) as Ho.
  destruct Hu as [Hbbt Htd Hmd Hne Hv Hs1 Hs2]. set (s2 := State (Some (marked t b)) (bbt_td s) (bbt_md s) d2).
  assert (in_use chip n s2 b1 b2 v t0 (marked t b)) as Hu2.
  { split; try done; by eapply table_state_other. }
  destruct (update_states chip n G L s2 b1 b2 v t0 (marked t b) (b * esize) buf Hu2) as (res & s3 & -> & Hb3 & Hfound & Hnew); [by apply marked_proper | | done |].
  { destruct (ge_size _ _ G) as [-> _]. fold esize. nia. }
  cbn [mbind option_bind]. eexists _, s3. split; [done |]. split; [done |]. split.
  - intros Hone. destruct (Hfound Hone) as (r1' & r2' & tr & Hs1' & Hs2' & Htr & Hor). exists r1', r2', tr. split; [done |]. split; [done |]. split; [done |].
    destruct Hor as [-> | (Hneg & ->)]; [by left |]. right. split; [| done]. destruct (Z.eqb_spec ret 0); [lia | done].
  - destruct (Z.eqb_spec ret 0) as [-> | Hr]; [| done]. intros ->. by apply Hnew.
Qed.

(** ** The next start *)

Lemma default_main : default_descr bbt_main_descr bbt_pattern.
Proof. exists 0, 0. split; [done | by left]. Qed.
Lemma default_mirror : default_descr bbt_mirror_descr mirror_pattern.
Proof. exists 0, 0. split; [done | by right]. Qed.

Lemma start_default d buf databuf : flag (bbt_options chip) NAND_BBT_USE_FLASH = true ->
  nand_default_bbt chip (State None None None d) buf databuf =
  nand_scan_bbt chip (State None (Some bbt_main_descr) (Some bbt_mirror_descr) d) (nand_create_badblock_pattern chip) buf databuf.
Proof. intros Hf. unfold nand_default_bbt. by rewrite Hf, (ge_options _ _ G). Qed.

Lemma start_found d b1 b2 r1 r2 t buf databuf : flag (bbt_options chip) NAND_BBT_USE_FLASH = true ->
  table_state chip n d bbt_pattern b1 r1 -> table_state chip n d mirror_pattern b2 r2 -> chosen_table r1 r2 = Some t -> zlen buf = buffer_length chip ->
  exists res s, nand_default_bbt chip (State None None None d) buf databuf = Some (res, s) /\ bbt s = Some t
    /\ (b1 <> b2 -> forall v, r1 = table v t -> r2 = table v t -> res = 0 /\ in_use chip n s b1 b2 v t t).
Proof. intros Hf Hs1 Hs2 Hc Hbuf. rewrite start_default by done. by apply (restart chip n G L); [apply default_main | apply default_mirror | | | |]. Qed.

Lemma proper_code t b : proper t -> 0 <= b < n - 4 -> tcode t b <> 2.
Proof.
  intros (pre & x & -> & Hl & Hby & Hpre & _) Hb. destruct (tsize_blocks chip n G) as (Hn & _). rewrite length_app in Hl. cbn [length] in Hl. apply Forall_app in Hby as [Hby _].
  destruct (lookup_lt_is_Some_2 pre (Z.to_nat (b / 4))) as [y Hy]; [Z.to_euclidean_division_equations; lia |]. unfold tcode. rewrite lookup_app_l by (by eapply lookup_lt_Some). rewrite Hy. change (default 0 (Some y)) with y.
  assert (clean <$> pre !! Z.to_nat (b / 4) = Some y) as E by (rewrite <- list_lookup_fmap, Hpre; done). rewrite Hy in E. injection E as E.
  pose proof (proj1 (Forall_lookup _ _) Hby _ _ Hy) as Hyb. pose proof (Z.mod_pos_bound b 4).
  assert (negb (clean y =? y) || forallb (fun j => negb (code y j =? 2)) (seq 0 4) = true) as Hq.
  { apply (for_bytes (fun y => negb (clean y =? y) || forallb (fun j => negb (code y j =? 2)) (seq 0 4))); [vm_compute; reflexivity | done]. }
  rewrite E, Z.eqb_refl in Hq. cbn [negb orb] in Hq. rewrite forallb_forall in Hq. specialize (Hq (Z.to_nat (b mod 4)) (proj2 (in_seq 4 0 (Z.to_nat (b mod 4))) ltac:(lia))).
  by apply negb_true_iff, Z.eqb_neq in Hq.
Qed.

(** Whether a block is bad, from its code. *)
Definition is_bad (t : list Z) (b : Z) (allowbbt : bool) : bool :=
  if tcode t b =? 0 then false else if tcode t b =? 1 then true else if tcode t b =? 2 then negb allowbbt else true.

Lemma bad_code t b allowbbt : tcode t b <> 0 -> tcode t b <> 2 -> is_bad t b allowbbt = true.
Proof. intros H1 H2. unfold is_bad. rewrite (proj2 (Z.eqb_neq _ _) H1), (proj2 (Z.eqb_neq _ _) H2). by destruct (tcode t b =? 1). Qed.

Lemma isbad_block t b allowbbt : zlen t = tsize -> 0 <= b < n -> nand_isbad_bbt chip t (b * esize) allowbbt = Some (is_bad t b allowbbt).
Proof. intros Ht Hb. pose proof (isbad_spec chip n G t b 0 allowbbt Ht Hb ltac:(pose proof (esize_pos chip n G); lia)) as Hi. by rewrite Z.add_0_r in Hi. Qed.

Lemma marked_bad t b b' allowbbt : is_bytes t -> zlen t = tsize -> 0 <= b < n -> 0 <= b' < n -> tcode t b = 0 ->
  is_bad (marked t b) b' allowbbt = if b' =? b then true else is_bad t b' allowbbt.
Proof. intros Hby Ht Hb Hb' Hc. unfold is_bad. rewrite marked_code by done. by destruct (b' =? b). Qed.

Hypothesis Hflash : flag (bbt_options chip) NAND_BBT_USE_FLASH = true.

Lemma markbad_bad s b1 b2 v t b buf : in_use chip n s b1 b2 v t t -> proper t -> 0 <= b < n - 4 -> tcode t b <> 0 -> nand_block_markbad chip s (b * esize) buf = Some (0, s).
Proof.
  intros Hu Hpr Hb Hc. pose proof (proper_code t b Hpr Hb) as Hc2. pose proof Hpr as (_ & _ & _ & Htl & _). unfold nand_block_markbad, nand_block_checkbad. rewrite (in_use_fields _ _ _ _ _ _ Hu).
  rewrite isbad_block by (done || lia). cbn [mbind option_bind]. by rewrite (bad_code t b false Hc Hc2).
Qed.

(** Marking any block that is not reserved. *)
Lemma markbad_any s b1 b2 v t b buf : in_use chip n s b1 b2 v t t -> proper t -> 0 <= b < n - 4 -> zlen buf = buffer_length chip ->
  exists res s' t', nand_block_markbad chip s (b * esize) buf = Some (res, s') /\ bbt s' = Some t' /\ proper t'
    /\ (forall b' allowbbt, 0 <= b' < n -> is_bad t' b' allowbbt = if b' =? b then true else is_bad t b' allowbbt)
    /\ (psize chip n = writesize chip -> exists r1 r2 tr, table_state chip n (dev s') bbt_pattern b1 r1 /\ table_state chip n (dev s') mirror_pattern b2 r2
        /\ chosen_table r1 r2 = Some tr /\ (tr = t' \/ res <> 0 /\ tr = t))
    /\ (res = 0 -> exists v', in_use chip n s' b1 b2 v' t' t').
Proof.
  intros Hu Hpr Hb Hbuf. pose proof Hpr as (_ & _ & _ & Htl & Htb & _). destruct (Z.eq_dec (tcode t b) 0) as [Hc | Hc].
  - destruct (markbad_states s b1 b2 v t t b buf Hu Hpr Hb Hc Hbuf Hflash) as (res & s' & Hm & Hb' & Hfound & Hin). exists res, s', (marked t b).
    split; [done |]. split; [done |]. split; [by apply marked_proper |]. split; [intros b' al Hb''; apply marked_bad; done || lia |]. split; [done |]. intros Hr. by eexists; apply Hin.
  - exists 0, s, t. split; [by eapply markbad_bad |]. split; [by eapply in_use_fields |]. split; [done |]. split; [| split].
    + intros b' al _. destruct (Z.eqb_spec b' b) as [-> | _]; [| done]. apply bad_code; [done | by apply proper_code].
    + intros _. exists (table v t), (table v t), t. pose proof Hu as [_ _ _ _ _ Hs1 Hs2]. split; [done |]. split; [done |]. split; [cbn [chosen_table]; by rewrite Z.eqb_refl | by left].
    + intros _. by exists v.
Qed.

(** C8: marking a block bad, on a chip whose table fits into one page.  In memory
    the block is bad after it, and of no other block the state changes.  At the next
    start the table is found with this mark; only if an error was reported it may be
    the table before, never anything else.  Erasing and writing may fail or be
    interrupted at any time, and may leave pages that cannot be read, with the marks
    of a table or without.  For larger tables this does not hold: see
    [BbtFlash.large_table_cut]. *)
Theorem nand_block_markbad_survives s b1 b2 v t b buf : in_use chip n s b1 b2 v t t -> proper t -> n / 4 <= writesize chip -> 0 <= b < n - 4 -> zlen buf = buffer_length chip ->
  exists res s' t', nand_block_markbad chip s (b * esize) buf = Some (res, s') /\ bbt s' = Some t'
    /\ (forall b' allowbbt, 0 <= b' < n -> nand_isbad_bbt chip t' (b' * esize) allowbbt = if b' =? b then Some true else nand_isbad_bbt chip t (b' * esize) allowbbt)
    /\ forall buf2 databuf, zlen buf2 = buffer_length chip ->
       exists r s2, nand_default_bbt chip (State None None None (dev s')) buf2 databuf = Some (r, s2) /\ (bbt s2 = Some t' \/ res <> 0 /\ bbt s2 = Some t).
Proof.
  intros Hu Hpr Hsmall Hb Hbuf. destruct (markbad_any s b1 b2 v t b buf Hu Hpr Hb Hbuf) as (res & s' & t' & Hm & Hb' & Hpr' & Hbad & Hfound & _).
  exists res, s', t'. split; [done |]. split; [done |]. split.
  - intros b' al Hb''. pose proof Hpr as (_ & _ & _ & Htl & _). pose proof Hpr' as (_ & _ & _ & Htl' & _). rewrite !isbad_block by done. rewrite Hbad by done. by destruct (b' =? b).
  - intros buf2 databuf Hbuf2. destruct Hfound as (r1 & r2 & tr & Hst1 & Hst2 & Hch & Hor); [by apply (psize_page chip n G) |].
    destruct (start_found (dev s') b1 b2 r1 r2 tr buf2 databuf Hflash Hst1 Hst2 Hch Hbuf2) as (r & s2 & -> & Hb2 & _). exists r, s2. split; [done |].
    rewrite Hb2. destruct Hor as [-> | (Hr & ->)]; [by left | by right].
Qed.

(** ** Marks and starts, one after the other *)

Inductive used : state (D := D) -> state (D := D) -> Prop :=
  | used_mark s b buf s' : 0 <= b < n - 4 -> zlen buf = buffer_length chip -> nand_block_markbad chip s (b * esize) buf = Some (0, s') -> used s s'
  | used_start s buf databuf r s' : zlen buf = buffer_length chip -> nand_default_bbt chip (State None None None (dev s)) buf databuf = Some (r, s') -> used s s'.

(** The table in memory is the one on the flash. *)
Definition known (s : state (D := D)) (t : list Z) : Prop := exists b1 b2 v, in_use chip n s b1 b2 v t t /\ proper t.

Lemma used_known s s' t : used s s' -> known s t -> exists t', known s' t' /\ forall b allowbbt, 0 <= b < n -> is_bad t b allowbbt = true -> is_bad t' b allowbbt = true.
Proof.
  intros Hst (b1 & b2 & v & Hu & Hpr). destruct Hst as [s b buf s' Hb Hbuf Hm | s buf databuf r s' Hbuf Hs].
  - destruct (markbad_any s b1 b2 v t b buf Hu Hpr Hb Hbuf) as (res & s1 & t' & Hm' & _ & Hpr' & Hbad & _ & Hin). rewrite Hm in Hm'. injection Hm' as <- <-.
    destruct (Hin eq_refl) as [v' Hu']. exists t'. split; [by exists b1, b2, v' |]. intros b' al Hb' Ht. rewrite Hbad by done. by destruct (b' =? b).
  - pose proof Hu as [_ _ _ Hne _ Hs1 Hs2]. destruct (start_found (dev s) b1 b2 _ _ t buf databuf Hflash Hs1 Hs2) as (r' & s2 & Hs' & _ & Hin); [cbn [chosen_table]; by rewrite Z.eqb_refl | done |].
    rewrite Hs in Hs'. injection Hs' as <- <-. destruct (Hin Hne v eq_refl eq_refl) as [_ Hu']. exists t. split; [by exists b1, b2, v | done].
Qed.

(** C14: bad blocks are never forgotten: after any marks that succeed and any
    restarts, in any order, the table in memory is the one on the flash, and every
    block that was bad is bad. *)
Theorem bad_blocks_stay_bad s s' t : rtc used s s' -> known s t ->
  exists t', known s' t' /\ forall b allowbbt, 0 <= b < n -> nand_isbad_bbt chip t (b * esize) allowbbt = Some true -> nand_isbad_bbt chip t' (b * esize) allowbbt = Some true.
Proof.
  intros Hr. revert t. induction Hr as [s | s s1 s' Hst Hr IH]; intros t Hk; [by exists t |]. destruct (used_known s s1 t Hst Hk) as (t1 & Hk1 & Hbad1). destruct (IH t1 Hk1) as (t' & Hk' & H').
  exists t'. split; [done |]. intros b al Hb Ht. apply H'; [done |]. destruct Hk as (_ & _ & _ & _ & _ & _ & _ & Htl & _), Hk1 as (_ & _ & _ & _ & _ & _ & _ & Htl1 & _).
  rewrite isbad_block in Ht |- * by done. injection Ht as Ht. by rewrite Hbad1.
Qed.
End Mark.
