(* ===== verification/BbtBoot.v ===== *)
(** * The first start (drivers/mtd/nand/nand_bbt.c)

    On a flash without a table the marks of the factory are collected, and the table
    and its mirror are written. *)

From S2P Require Import Prelude NandBbt BbtFacts BbtSurvive BbtMark.

Lemma flag_bit x k : 0 <= k -> flag x (2 ^ k) = Z.testbit x k.
Proof.
  intros Hk. unfold flag. destruct (Z.testbit x k) eqn:E.
  - rewrite (proj2 (Z.eqb_neq _ _)); [done |]. intros H0. assert (Z.testbit (Z.land x (2 ^ k)) k = false) as H1 by (by rewrite H0, Z.bits_0).
    rewrite Z.land_spec, E, Z.pow2_bits_true in H1 by lia. done.
  - assert (Z.land x (2 ^ k) = 0) as ->; [| done]. apply Z.bits_inj'. intros j Hj. rewrite Z.land_spec, Z.bits_0. destruct (Z.eq_dec j k) as [-> | Hne]; [by rewrite E |].
    by rewrite Z.pow2_bits_false, andb_false_r by lia.
Qed.

(** ** Marking a code as bad *)

Definition bad_byte (x : Z) (j : nat) : Z := u8 (Z.lor x (Z.shiftl 3 (2 * Z.of_nat j))).

Lemma bad_byte_spec x j : is_byte x -> (j < 4)%nat -> is_byte (bad_byte x j) /\ code (bad_byte x j) j = 3 /\ (forall k, (k < 4)%nat -> k <> j -> code (bad_byte x j) k = code x k).
Proof.
  intros Hx Hj.
  assert (forallb (fun j => (0 <=? bad_byte x j) && (bad_byte x j <? 256) && (code (bad_byte x j) j =? 3) && forallb (fun k => (k =? j)%nat || (code (bad_byte x j) k =? code x k)) (seq 0 4)) (seq 0 4) = true) as Hq.
  { apply (for_bytes (fun x => forallb (fun j => (0 <=? bad_byte x j) && (bad_byte x j <? 256) && (code (bad_byte x j) j =? 3) && forallb (fun k => (k =? j)%nat || (code (bad_byte x j) k =? code x k)) (seq 0 4)) (seq 0 4))); [vm_compute; reflexivity | done]. }
  rewrite forallb_forall in Hq. specialize (Hq j (proj2 (in_seq 4 0 j) ltac:(lia))). apply andb_prop in Hq as [Hq H3]. rewrite forallb_forall in H3. unfold is_byte. split; [lia |]. split; [lia |].
  intros k Hk Hkj. specialize (H3 k (proj2 (in_seq 4 0 k) ltac:(lia))). rewrite (proj2 (Nat.eqb_neq k j) Hkj) in H3. by apply Z.eqb_eq.
Qed.

(** Bytes with the codes 0 and 3 only: nothing is lost on the flash, and reserved
    blocks look the same there. *)
Lemma plain_byte x : is_byte x -> (forall k, (k < 4)%nat -> code x k = 0 \/ code x k = 3) -> clean x = x /\ enc_byte (Z.lor x 0xAA) = enc_byte x /\ is_byte (Z.lor x 0xAA).
Proof.
  intros Hx Hc.
  assert (negb (forallb (fun k => (code x k =? 0) || (code x k =? 3)) (seq 0 4)) || ((clean x =? x) && (enc_byte (Z.lor x 0xAA) =? enc_byte x) && (0 <=? Z.lor x 0xAA) && (Z.lor x 0xAA <? 256)) = true) as Hq.
  { apply (for_bytes (fun x => negb (forallb (fun k => (code x k =? 0) || (code x k =? 3)) (seq 0 4)) || ((clean x =? x) && (enc_byte (Z.lor x 0xAA) =? enc_byte x) && (0 <=? Z.lor x 0xAA) && (Z.lor x 0xAA <? 256)))); [vm_compute; reflexivity | done]. }
  assert (forallb (fun k => (code x k =? 0) || (code x k =? 3)) (seq 0 4) = true) as E.
  { apply forallb_forall. intros k Hk. apply in_seq in Hk. destruct (Hc k) as [-> | ->]; [lia | done | done]. }
  rewrite E in Hq. cbn [negb orb] in Hq. unfold is_byte. lia.
Qed.

Lemma code_zero j : code 0 j = 0.
Proof. unfold code. by rewrite Z.shiftr_0_l. Qed.

Lemma forallb_same {A} (f g : A -> bool) l : (forall x, f x = g x) -> forallb f l = forallb g l.
Proof. intros Hfg. induction l as [| x l IH]; [done |]. cbn [forallb]. by rewrite Hfg, IH. Qed.
Lemma forallb_seq_shift (f : nat -> bool) m : forall i, forallb f (seq (S i) m) = forallb (fun k => f (S k)) (seq i m).
Proof. induction m as [| m IH]; intros i; [done |]. cbn [seq forallb]. by rewrite IH. Qed.

Section Boot.
Context {D : Type} `{NandDriver D, FlashView D} (chip : nand_chip) (n : Z).
Context (G : geometry_ok chip n) (L : flash_laws chip n).

Notation esize := (esize chip).
Notation ppb := (ppb chip).
Notation tsize := (tsize n).

(** The pages with the marks of a block. *)
Definition bd : nand_bbt_descr := nand_create_badblock_pattern chip.
Definition np : nat := if flag (bbt_options chip) NAND_BBT_SCAN2NDPAGE then 2 else 1.
Definition mark_len : Z := if buswidth_16 chip then 2 else 1.
Definition first_page : Z := if flag (bbt_options chip) NAND_BBT_SCANLASTPAGE then ppb - Z.of_nat np else 0.

(** No page of the block is marked. *)
Definition page_good (d : D) (p : Z) : bool := bool_decide (slice (spare d p) (badblockpos chip) mark_len = Some (replicate (Z.to_nat mark_len) 255)).
Definition unmarked (d : D) (b : Z) : bool := forallb (fun k => page_good d (b * ppb + first_page + Z.of_nat k)) (seq 0 np).

(** The marks are among the spare bytes, not all pages have them, and they can be
    read. *)
Record marks_ok : Prop := {
  mk_pos : 0 <= badblockpos chip /\ badblockpos chip + mark_len <= oobsize chip;
  mk_all : flag (bbt_options chip) NAND_BBT_SCANALLPAGES = false;
  mk_empty : flag (bbt_options chip) NAND_BBT_CREATE_EMPTY = false;
  mk_erasesize : erasesize chip = esize;
  mk_read : forall d p, 0 <= p < n * ppb -> drv_read_oob d (p * writesize chip) 0 (oobsize chip) = (0, [], spare d p) }.
Context (M : marks_ok).

Lemma bd_flag k : 0 <= k -> k <> 18 -> k <> 31 -> opt bd (2 ^ k) = flag (bbt_options chip) (2 ^ k).
Proof.
  intros Hk H1 H2. unfold opt. rewrite !flag_bit by done. cbn [bd nand_create_badblock_pattern bd_options]. rewrite Z.lor_spec, Z.land_spec, Z.lnot_spec by done.
  change 0x80000000 with (2 ^ 31). change NAND_BBT_NO_OOB with (2 ^ 18). rewrite !Z.pow2_bits_false by done. cbn [negb]. by rewrite andb_true_r, orb_false_r.
Qed.

Lemma bd_no_oob : opt bd NAND_BBT_NO_OOB = false.
Proof.
  unfold opt. change NAND_BBT_NO_OOB with (2 ^ 18). rewrite flag_bit by done. cbn [bd nand_create_badblock_pattern bd_options]. rewrite Z.lor_spec, Z.land_spec, Z.lnot_spec by done.
  change NAND_BBT_NO_OOB with (2 ^ 18). rewrite Z.pow2_bits_true by done. change 0x80000000 with (2 ^ 31). by rewrite Z.pow2_bits_false, andb_false_r by done.
Qed.

Lemma two_pages : 2 <= ppb.
Proof.
  pose proof (ge_shift _ _ G). unfold BbtSurvive.ppb. replace (bbt_erase_shift chip - page_shift chip) with (Z.succ (bbt_erase_shift chip - page_shift chip - 1)) by lia.
  rewrite Z.pow_succ_r by lia. pose proof (Z.pow_pos_nonneg 2 (bbt_erase_shift chip - page_shift chip - 1)). lia.
Qed.

Lemma np_range : (1 <= np <= 2)%nat /\ 0 <= first_page /\ first_page + Z.of_nat np <= ppb.
Proof. pose proof two_pages. unfold first_page, np. destruct (flag _ NAND_BBT_SCAN2NDPAGE), (flag _ NAND_BBT_SCANLASTPAGE); lia. Qed.

Lemma numpages_np : numpages chip bd = Z.of_nat np.
Proof.
  unfold numpages. change NAND_BBT_SCANALLPAGES with (2 ^ 11). change NAND_BBT_SCAN2NDPAGE with (2 ^ 15). rewrite !bd_flag by done. change (2 ^ 11) with NAND_BBT_SCANALLPAGES.
  rewrite (mk_all M). change (2 ^ 15) with NAND_BBT_SCAN2NDPAGE. unfold np. by destruct (flag _ NAND_BBT_SCAN2NDPAGE).
Qed.

Lemma scan_block_fast_spec d : forall m p buf, 0 <= p -> p + Z.of_nat m <= n * ppb -> oobsize chip <= zlen buf ->
  exists buf', scan_block_fast chip m d bd (p * writesize chip) buf = Some (if forallb (fun k => page_good d (p + Z.of_nat k)) (seq 0 m) then 0 else 1, buf') /\ zlen buf' = zlen buf.
Proof.
  induction m as [| m IH]; intros p buf Hp Hm Hbuf; [by exists buf |]. cbn [scan_block_fast]. rewrite (mk_read M) by lia. destruct (fl_spare _ _ L d p) as [Hsl _]; [lia |].
  pose proof (ge_oob _ _ G). destruct (mk_pos M) as [Hpos1 Hpos2]. set (oob := spare d p) in *. cbv beta iota.
  assert (put buf 0 oob = Some (oob ++ drop (Z.to_nat (oobsize chip)) buf)) as -> by (rewrite <- (take_drop (Z.to_nat (oobsize chip)) buf) at 1; apply put_front; rewrite length_take; lia). cbn [mbind option_bind]. change (negb (0 =? 0)) with false. cbn [andb].
  set (buf1 := oob ++ drop _ buf). assert (zlen buf1 = zlen buf) as Hl1 by (subst buf1; rewrite length_app, length_drop; lia).
  assert (check_short_pattern buf1 bd = Some (page_good d p)) as ->.
  { unfold check_short_pattern, page_good. change (bd_offs bd) with (badblockpos chip). change (bd_len bd) with mark_len. fold oob.
    assert (slice buf1 (badblockpos chip) mark_len = slice oob (badblockpos chip) mark_len /\ exists r, slice oob (badblockpos chip) mark_len = Some r) as [-> (r & ->)].
    { assert (0 <= mark_len) by (unfold mark_len; destruct (buswidth_16 chip); lia). unfold slice. rewrite (proj2 (Z.leb_le 0 _)), (proj2 (Z.leb_le 0 _)), !(proj2 (Z.leb_le _ _)) by lia. cbn [andb].
      split; [| by eexists]. f_equal. subst buf1. rewrite drop_app_le by lia. rewrite take_app_le by (rewrite length_drop; lia). done. }
    cbn [mbind option_bind]. f_equal. apply bool_decide_ext. unfold pattern. change (bd_len bd) with mark_len. change (bd_pattern bd) with scan_ff_pattern.
    assert (take (Z.to_nat mark_len) scan_ff_pattern = replicate (Z.to_nat mark_len) 255) as -> by (unfold mark_len; by destruct (buswidth_16 chip)). split; [by intros -> | by intros [= ->]]. }
  cbn [mbind option_bind seq forallb]. rewrite Z.add_0_r. destruct (page_good d p); [| by exists buf1]. cbn [andb].
  destruct (IH (p + 1) buf1) as (buf' & Hs & Hl); [lia | lia | lia |]. exists buf'. split; [| lia]. replace (p * writesize chip + writesize chip) with ((p + 1) * writesize chip) by lia. rewrite Hs.
  rewrite forallb_seq_shift. erewrite (forallb_same (fun k => page_good d (p + 1 + Z.of_nat k))); [done |]. intros k. cbv beta. f_equal. lia.
Qed.

Lemma or_at_bad t b : is_bytes t -> zlen t = tsize -> 0 <= b < n -> exists t', or_at t (Z.shiftr (2 * b) 3) (Z.shiftl 3 (Z.land (2 * b) 6)) = Some t' /\ is_bytes t' /\ zlen t' = tsize
  /\ forall b', 0 <= b' < n -> tcode t' b' = if b' =? b then 3 else tcode t b'.
Proof.
  intros Hby Ht Hb. destruct (block_parts b) as (_ & _ & -> & ->); [lia |]. destruct (table_index chip n G t b Ht Hb) as (x & Hx & Hg). pose proof (Z.mod_pos_bound b 4) as Hm.
  pose proof (proj1 (Forall_lookup _ _) Hby _ _ Hx) as Hxb. destruct (bad_byte_spec x (Z.to_nat (b mod 4)) Hxb ltac:(lia)) as (Hyb & Hj & Hk). assert (0 <= b / 4) by (apply Z.div_pos; lia).
  exists (<[Z.to_nat (b / 4) := bad_byte x (Z.to_nat (b mod 4))]> t). split; [| split; [by apply Forall_insert | split; [by rewrite length_insert |]]].
  - unfold or_at. rewrite Hg. cbn [mbind option_bind]. by erewrite set_insert; [| | exact Hx].
  - intros b' Hb'. pose proof (Z.mod_pos_bound b' 4). pose proof (lookup_lt_Some _ _ _ Hx). assert (0 <= b' / 4) by (apply Z.div_pos; lia). unfold tcode. destruct (Z.eq_dec (b' / 4) (b / 4)) as [E | E].
    + rewrite E, list_lookup_insert_eq by done. rewrite Hx. destruct (Z.eqb_spec b' b) as [-> | Hne]; [done |].
      apply Hk; [lia |]. pose proof (Z.div_mod b 4). pose proof (Z.div_mod b' 4). lia.
    + rewrite (proj2 (Z.eqb_neq b' b)) by congruence. rewrite list_lookup_insert_ne; [done | lia].
Qed.

(** ** Creating the table *)

Lemma create_loop_spec d rl sl : forall m b t buf, 0 <= b -> b + Z.of_nat m <= n -> is_bytes t -> zlen t = tsize -> oobsize chip <= zlen buf ->
  exists t' buf', create_loop chip m d bd rl sl (2 * b) ((b * ppb + first_page) * writesize chip) t buf = Some (0, t', buf') /\ zlen buf' = zlen buf
    /\ is_bytes t' /\ zlen t' = tsize
    /\ forall b', 0 <= b' < n -> tcode t' b' = if (b <=? b') && (b' <? b + Z.of_nat m) && negb (unmarked d b') then 3 else tcode t b'.
Proof.
  induction m as [| m IH]; intros b t buf Hb Hm Hby Ht Hbuf.
  { exists t, buf. split; [done |]. split; [done |]. split; [done |]. split; [done |]. intros b' _. destruct (Z.leb_spec b b'), (Z.ltb_spec b' (b + Z.of_nat 0)); cbn [andb]; lia || done. }
  cbn [create_loop]. rewrite bd_no_oob, numpages_np, Nat2Z.id. change NAND_BBT_SCANALLPAGES with (2 ^ 11). rewrite bd_flag by done. change (2 ^ 11) with NAND_BBT_SCANALLPAGES. rewrite (mk_all M).
  destruct np_range as (_ & Hf1 & Hf2). pose proof two_pages. destruct (scan_block_fast_spec d np (b * ppb + first_page) buf) as (buf1 & -> & Hl1); [nia | nia | done |]. fold (unmarked d b).
  cbn [mbind option_bind].
  assert (exists t1, (if negb ((if unmarked d b then 0 else 1) =? 0) then or_at t (Z.shiftr (2 * b) 3) (Z.shiftl 3 (Z.land (2 * b) 6)) else Some t) = Some t1 /\ is_bytes t1 /\ zlen t1 = tsize
    /\ forall b', 0 <= b' < n -> tcode t1 b' = if (b' =? b) && negb (unmarked d b) then 3 else tcode t b') as (t1 & Hor & Hby1 & Ht1 & Hc1).
  { destruct (unmarked d b); cbn [negb Z.eqb].
    - exists t. split; [done |]. split; [done |]. split; [done |]. intros b' _. by rewrite andb_false_r.
    - destruct (or_at_bad t b Hby Ht) as (t1 & Ho & Hby1 & Ht1 & Hc1); [lia |]. exists t1. split; [done |]. split; [done |]. split; [done |]. intros b' Hb'. rewrite andb_true_r. by apply Hc1. }
  assert (((if unmarked d b then 0 else 1) <? 0) = false) as -> by (by destruct (unmarked d b)). rewrite Hor. cbn [mbind option_bind].
  destruct (IH (b + 1) t1 buf1) as (t' & buf' & Hs & Hl' & Hby' & Ht' & Hc'); [lia | lia | done | done | lia |]. exists t', buf'.
  replace (2 * b + 2) with (2 * (b + 1)) by lia. rewrite Z.shiftl_1_l. change (2 ^ bbt_erase_shift chip) with esize. rewrite (esize_pages chip n G).
  replace ((b * ppb + first_page) * writesize chip + ppb * writesize chip) with (((b + 1) * ppb + first_page) * writesize chip) by lia. rewrite Hs. split; [done |]. split; [lia |]. split; [done |]. split; [done |].
  intros b' Hb'. rewrite Hc', Hc1 by done. destruct (Z.eqb_spec b' b) as [-> | Hne].
  - rewrite (proj2 (Z.leb_gt (b + 1) b)), Z.leb_refl by lia. cbn [andb]. rewrite (proj2 (Z.ltb_lt b _)) by lia. done.
  - cbn [andb]. replace (b + 1 <=? b') with (b <=? b') by lia. by replace (b + 1 + Z.of_nat m) with (b + Z.of_nat (S m)) by lia.
Qed.

(** The table of the marks. *)
Definition marks_table (d : D) (t : list Z) : Prop := is_bytes t /\ zlen t = tsize /\ forall b, 0 <= b < n -> tcode t b = if unmarked d b then 0 else 3.

Lemma create_bbt_spec d buf : oobsize chip <= zlen buf ->
  exists t buf', create_bbt chip d bd 0 (replicate (Z.to_nat tsize) 0) buf = Some (0, t, buf') /\ zlen buf' = zlen buf /\ marks_table d t.
Proof.
  intros Hbuf. destruct (tsize_blocks chip n G) as (Hn & Ht0 & _). pose proof (ge_shift _ _ G). destruct (ge_blocks _ _ G) as (_ & Hn4 & H31). destruct np_range as (Hnp & Hf1 & Hf2). pose proof (ws_pos chip n G).
  unfold create_bbt. destruct (if negb (opt bd NAND_BBT_SCANEMPTY) then _ else _) as [sl rl]. change (negb (0 =? -1) && (1 <=? 0)) with false. change (0 =? -1) with false. cbv iota.
  destruct (ge_size _ _ G) as [Hsz Hcs]. assert (s32 (Z.shiftr (chipsize chip) (bbt_erase_shift chip - 1)) = 2 * n) as ->.
  { rewrite Hcs, Hsz, Z.shiftr_div_pow2 by lia. replace (bbt_erase_shift chip) with (Z.succ (bbt_erase_shift chip - 1)) at 1 by lia. rewrite Z.pow_succ_r by lia.
    rewrite Z.mul_assoc, Z.div_mul by (apply Z.pow_nonzero; lia). rewrite swrap_small; lia. }
  replace (Z.to_nat ((2 * n + 1) / 2)) with (Z.to_nat n) by (Z.to_euclidean_division_equations; lia). rewrite numpages_np.
  assert ((if flag (bbt_options chip) NAND_BBT_SCANLASTPAGE then u32 (erasesize chip - writesize chip * Z.of_nat np) else 0) = (0 * ppb + first_page) * writesize chip) as ->.
  { unfold first_page in *. destruct (flag _ NAND_BBT_SCANLASTPAGE); [| lia]. rewrite (mk_erasesize M), (esize_pages chip n G). pose proof (ge_small _ _ G) as Hsm. change (2 ^ bbt_erase_shift chip) with esize in Hsm.
    rewrite (esize_pages chip n G) in Hsm. rewrite wrap_small; [lia | nia]. }
  pose proof (create_loop_spec d rl sl (Z.to_nat n) 0 (replicate (Z.to_nat tsize) 0) buf) as Hcl. change (2 * 0) with 0 in Hcl. destruct Hcl as (t & buf' & -> & Hl & Hby & Ht & Hc);
    [lia | lia | by apply Forall_replicate; vm_compute | rewrite length_replicate; lia | done |]. exists t, buf'. split; [done |]. split; [done |]. split; [done |]. split; [done |].
  intros b Hb. rewrite Hc by done. rewrite (proj2 (Z.leb_le 0 b)), (proj2 (Z.ltb_lt b _)) by lia. cbn [andb].
  assert (tcode (replicate (Z.to_nat tsize) 0) b = 0) as ->; [| by destruct (unmarked d b)]. unfold tcode. rewrite lookup_replicate_2; [apply code_zero |].
  assert (0 <= b / 4 < tsize) by (Z.to_euclidean_division_equations; lia). lia.
Qed.

(** ** Writing it *)

(** The table with the last four blocks reserved; on the flash it is the same. *)
Definition reserved (t : list Z) : list Z := <[(length t - 1)%nat := Z.lor (default 0 (last t)) 0xAA]> t.

Lemma marks_split d t : marks_table d t -> exists pre x, t = pre ++ [x] /\ reserved t = pre ++ [Z.lor x 0xAA] /\ zlen pre = tsize - 1 /\ is_bytes t /\ is_byte x
  /\ (clean <$> t) = t /\ (enc_byte <$> reserved t) = (enc_byte <$> t) /\ proper n (reserved t).
Proof.
  intros (Hby & Ht & Hc). destruct (tsize_blocks chip n G) as (Hn & Ht0 & _). destruct t as [| x pre _] using rev_ind; [cbn [length] in Ht; lia |]. exists pre, x. split; [done |].
  assert (forall i y, (pre ++ [x]) !! i = Some y -> forall k, (k < 4)%nat -> code y k = 0 \/ code y k = 3) as Hplain.
  { intros i y Hy k Hk. pose proof (lookup_lt_Some _ _ _ Hy) as Hi. specialize (Hc (4 * Z.of_nat i + Z.of_nat k) ltac:(lia)). unfold tcode in Hc.
    replace ((4 * Z.of_nat i + Z.of_nat k) / 4) with (Z.of_nat i) in Hc by (Z.to_euclidean_division_equations; lia).
    replace ((4 * Z.of_nat i + Z.of_nat k) mod 4) with (Z.of_nat k) in Hc by (Z.to_euclidean_division_equations; lia). rewrite !Nat2Z.id, Hy in Hc. change (default 0 (Some y)) with y in Hc.
    destruct (unmarked _ _); [by left | by right]. }
  assert (forall y, y ∈ pre ++ [x] -> clean y = y /\ enc_byte (Z.lor y 0xAA) = enc_byte y /\ is_byte (Z.lor y 0xAA)) as Hall.
  { intros y Hy. apply list_elem_of_lookup in Hy as [i Hy]. apply plain_byte; [by apply (proj1 (Forall_lookup _ _) Hby _ _ Hy) | by eapply Hplain]. }
  assert ((clean <$> pre) = pre) as Hpre. { rewrite <- (list_fmap_id pre) at 2. apply list_fmap_ext. intros i y Hy. apply Hall. apply elem_of_app. left. by apply list_elem_of_lookup_2 with i. }
  destruct (Hall x) as (Hx1 & Hx2 & Hx3); [apply elem_of_app; right; by apply list_elem_of_singleton |]. rewrite length_app in Ht. cbn [length] in Ht. apply Forall_app in Hby as Hby'. destruct Hby' as [Hby1 Hby2]. apply Forall_inv in Hby2.
  assert (reserved (pre ++ [x]) = pre ++ [Z.lor x 0xAA]) as Hres.
  { unfold reserved. rewrite last_snoc, length_app. cbn [length]. change (default 0 (Some x)) with x. rewrite insert_app_r_alt by lia. by replace (length pre + 1 - 1 - length pre)%nat with 0%nat by lia. }
  rewrite Hres. split; [done |]. split; [lia |]. split; [done |]. split; [done |]. split; [rewrite fmap_app, Hpre; cbn [fmap list_fmap]; by rewrite Hx1 |]. split; [rewrite !fmap_app; cbn [fmap list_fmap]; by rewrite Hx2 |].
  exists pre, (Z.lor x 0xAA). split; [done |]. rewrite length_app. cbn [length]. split; [lia |]. split; [apply Forall_app; split; [done | by constructor] |]. split; [done |].
  by rewrite <- Z.lor_assoc, Z.lor_diag.
Qed.

Lemma reserved_codes d t : marks_table d t ->
  (forall b, 0 <= b < n - 4 -> tcode (reserved t) b = if unmarked d b then 0 else 3) /\ (forall b, n - 4 <= b < n -> tcode (reserved t) b = if unmarked d b then 2 else 3).
Proof.
  intros Ht. destruct (marks_split d t Ht) as (pre & x & Et & Er & Hl & _ & Hx & _). destruct Ht as (_ & _ & Hc). rewrite Er. rewrite Et in Hc. destruct (tsize_blocks chip n G) as (Hn & Ht0 & _). split; intros b Hb.
  - rewrite <- Hc by lia. unfold tcode. rewrite !lookup_app_l by (Z.to_euclidean_division_equations; lia). done.
  - specialize (Hc b ltac:(lia)). unfold tcode in *. replace (Z.to_nat (b / 4)) with (length pre) in * by (Z.to_euclidean_division_equations; lia). rewrite list_lookup_middle in Hc |- * by done.
    change (default 0 (Some ?y)) with y in *. pose proof (Z.mod_pos_bound b 4).
    assert (forall k, (k < 4)%nat -> (code x k = 0 -> code (Z.lor x 0xAA) k = 2) /\ (code x k = 3 -> code (Z.lor x 0xAA) k = 3)) as Hk.
    { intros k Hk. assert (forallb (fun k => (negb (code x k =? 0) || (code (Z.lor x 0xAA) k =? 2)) && (negb (code x k =? 3) || (code (Z.lor x 0xAA) k =? 3))) (seq 0 4) = true) as Hq.
      { apply (for_bytes (fun x => forallb (fun k => (negb (code x k =? 0) || (code (Z.lor x 0xAA) k =? 2)) && (negb (code x k =? 3) || (code (Z.lor x 0xAA) k =? 3))) (seq 0 4))); [vm_compute; reflexivity | done]. }
      rewrite forallb_forall in Hq. specialize (Hq k (proj2 (in_seq 4 0 k) ltac:(lia))). lia. }
    destruct (Hk (Z.to_nat (b mod 4))) as [H0' H3']; [lia |]. destruct (unmarked d b); [by apply H0' | by apply H3'].
Qed.

Lemma tried_reserved d d' b pat v t t' res : (enc_byte <$> t') = (enc_byte <$> t) -> tried chip n d d' b pat v t res -> tried chip n d d' b pat v t' res.
Proof. intros He [Ho [[H1 H2 H3 H4] | Hr]]; (split; [done |]); [left; split; try done; by rewrite He | by right]. Qed.

Lemma place_new t td md pat : default_descr td pat -> bd_page td = -1 -> zlen t = tsize ->
  exists r, place chip t td md = Some r /\ (r = None \/ exists b, n - 4 <= b < n /\ r = Some (b * ppb) /\ match md with Some md => bd_page md <> b * ppb | None => True end).
Proof.
  intros Hd Hp Ht. destruct (default_fields td pat Hd) as (Ho & _ & _ & _ & Hmb & _). unfold place. rewrite Hp. change (negb (-1 =? -1)) with false. unfold opt. rewrite Ho, Hmb, (numblocks_n chip n G).
  change (flag table_options NAND_BBT_LASTBLOCK) with true. cbv iota beta. destruct (ge_blocks _ _ G). destruct (find_place_spec chip n G t md 4 Ht (n - 1)) as (r & Hr & Hor); [lia | lia |]. exists r. split; [done |].
  destruct Hor as [-> | (b & Hb & -> & Hmd)]; [by left |]. right. exists b. split; [lia | done].
Qed.

Definition none_there (d : D) (pat : list Z) : Prop := forall b, n - 4 <= b < n -> pattern_at chip d b <> pat.

Lemma none_state d pat b : none_there d pat -> n - 4 <= b < n -> table_state chip n d pat b absent.
Proof. intros Hno Hb. split; [done |]. split; [intros b' Hb' _; by apply Hno | by apply Hno]. Qed.

(** The first table of a pattern is written, or there is an error. *)
Lemma write_new d d0 t buf td md pat : default_descr td pat -> bd_page td = -1 -> bd_version td = 1 -> marks_table d0 t -> zlen buf = buffer_length chip -> none_there d pat ->
  exists res d' td', write_bbt chip d t buf td md 0 = Some (res, d', td') /\ default_descr td' pat
    /\ (res < 0 \/ exists b, res = 0 /\ n - 4 <= b < n /\ td' = set_page (b * ppb) td /\ tried chip n d d' b pat 1 (reserved t) 0 /\ match md with Some md => bd_page md <> b * ppb | None => True end).
Proof.
  intros Hd Hp Hv Ht Hbuf Hno. destruct (marks_split d0 t Ht) as (pre & x & _ & _ & _ & Hby & _ & _ & He & _). pose proof Ht as (_ & Htl & _). destruct (ge_blocks _ _ G) as (_ & Hn4 & _).
  destruct (place_new t td md pat Hd Hp Htl) as (r & Hr & [-> | (b & Hb & -> & Hmd)]).
  - destruct (default_fields td pat Hd) as (Ho & _). exists (- ENOSPC), d, td. unfold write_bbt, opt. rewrite Ho, Hr. cbn [mbind option_bind]. split; [done |]. split; [done | by left].
  - destruct (write_bbt_spec chip n G L d t buf td md pat b Hd ltac:(lia) Htl Hby Hbuf) as (res & d' & td' & Hw & Htry & Hres & Htd); [rewrite Hv; by vm_compute | done |].
    rewrite Hv in Htry. exists res, d', td'. split; [done |]. split; [destruct Htd as [-> | ->]; [done | by apply default_page] |].
    destruct Hres as [Hneg | [-> ->]]; [by left |]. right. exists b. split; [done |]. split; [done |]. split; [done |]. split; [by eapply tried_reserved | done].
Qed.

(** ** The first start *)

Lemma create_new d td md buf : default_descr td bbt_pattern -> default_descr md mirror_pattern -> none_there d bbt_pattern -> none_there d mirror_pattern -> zlen buf = buffer_length chip ->
  exists res s t td' md', check_create chip d bd (reset td) (Some (reset md)) (replicate (Z.to_nat tsize) 0) buf = Some (res, s) /\ marks_table d t
    /\ bbt s = Some t /\ bbt_td s = Some td' /\ bbt_md s = Some md' /\ default_descr td' bbt_pattern /\ default_descr md' mirror_pattern
    /\ (res = 0 -> exists b1 b2, b1 <> b2 /\ bd_page td' = b1 * ppb /\ bd_page md' = b2 * ppb /\ bd_version td' = 1 /\ bd_version md' = 1
        /\ table_state chip n (dev s) bbt_pattern b1 (table 1 (reserved t)) /\ table_state chip n (dev s) mirror_pattern b2 (table 1 (reserved t))).
Proof.
  intros Hd1 Hd2 Hno1 Hno2 Hbuf. destruct (default_fields _ _ Hd1) as (Ho1 & _). destruct (default_fields _ _ Hd2) as (Ho2 & _). pose proof (ppb_pos chip n G).
  pose proof (buffer_room chip n G) as Hroom. pose proof (esize_pos chip n G). destruct (create_bbt_spec d buf) as (t & buf' & Hcr & Hbuf' & Ht); [lia |]. rewrite Hbuf in Hbuf'.
  unfold check_create. cbn [check_create_loop]. unfold decide_tables. cbn [reset set_page bd_page]. change ((-1 =? -1) && (-1 =? -1)) with true. cbv iota. unfold opt.
  cbn [reset set_page set_version bd_options]. rewrite Ho1. change (true && negb (flag table_options NAND_BBT_CREATE)) with false. cbv iota. change (flag table_options NAND_BBT_PERCHIP) with true. cbv iota.
  rewrite (mk_empty M). cbn [negb andb]. rewrite Hcr. cbn [mbind option_bind fmap option_fmap option_map read_first read_second]. change (mtd_is_eccerr 0) with false. cbv iota. cbn [mbind option_bind].
  change (mtd_is_eccerr 0) with false. change (mtd_is_bitflip 0 || mtd_is_bitflip 0) with false. cbv iota zeta.
  change (Z.max (bd_version (set_version 1 (reset td))) (bd_version (set_version 1 (reset md)))) with 1.
  set (td0 := set_version 1 (set_version 1 (reset td))). set (md0 := set_version 1 (set_version 1 (reset md))). change (bd_options td0) with (bd_options td). change (bd_options md0) with (bd_options md). rewrite Ho1, Ho2.
  change (negb (Z.land 3 1 =? 0) && flag table_options NAND_BBT_WRITE) with true. change (negb (Z.land 3 2 =? 0) && flag table_options NAND_BBT_WRITE) with true. cbv iota.
  assert (default_descr td0 bbt_pattern) as Hd10 by (by apply default_version, default_version, default_set).
  assert (default_descr md0 mirror_pattern) as Hd20 by (by apply default_version, default_version, default_set).
  destruct (write_new d d t buf' td0 (Some md0) bbt_pattern Hd10 eq_refl eq_refl Ht Hbuf' Hno1) as (res & d1 & td1 & -> & Hd1' & Hor). cbn [mbind option_bind].
  destruct (Z.ltb_spec res 0) as [Hneg | Hpos]; [eexists res, _, t, td1, md0; split; [done |]; do 6 (split; [done |]); lia |].
  destruct Hor as [Hneg | (b1 & -> & Hb1 & -> & Htry1 & _)]; [lia |]. destruct (marks_split d t Ht) as (pre & x & _ & _ & _ & _ & _ & _ & _ & Hpr).
  destruct (ge_blocks _ _ G) as (_ & Hn4 & _).
  assert (none_there d1 mirror_pattern) as Hno2'.
  { intros b Hb. destruct (Z.eq_dec b b1) as [-> | Hne].
    - destruct Htry1 as [_ [[Hp _ _ _] | (Hneg & _)]]; [rewrite Hp; apply pattern_ne | lia].
    - destruct Htry1 as [Ho _]. destruct (same_block_marks chip n G d d1 b) as [-> _]; [apply Ho; lia | lia | by apply Hno2]. }
  destruct (write_new d1 d t buf' md0 (Some (set_page (b1 * ppb) td0)) mirror_pattern Hd20 eq_refl eq_refl Ht Hbuf' Hno2') as (res2 & d2 & md2 & -> & Hd2' & Hor2). cbn [mbind option_bind].
  eexists _, _, t, (set_page (b1 * ppb) td0), md2. split; [done |]. do 6 (split; [done |]).
  destruct (Z.ltb_spec res2 0) as [Hneg | Hpos2]; [lia |]. intros _. destruct Hor2 as [Hneg | (b2 & -> & Hb2 & -> & Htry2 & Hne)]; [lia |].
  assert (b2 <> b1) as Hbb by (intros ->; by apply Hne). exists b1, b2. split; [by apply not_eq_sym |]. do 4 (split; [done |]).
  assert (forall P, 0 < 0 -> P) as Hno0 by lia.
  destruct (tried_same chip n G d d1 bbt_pattern b1 1 (reserved t) 0 absent Htry1 (Hno0 _) Hpr (none_state _ _ _ Hno1 Hb1) (or_introl eq_refl)) as (r1 & Hs1 & [-> | (? & _)]); [| lia].
  destruct (tried_same chip n G d1 d2 mirror_pattern b2 1 (reserved t) 0 absent Htry2 (Hno0 _) Hpr (none_state _ _ _ Hno2' Hb2) (or_intror eq_refl)) as (r2 & Hs2 & [-> | (? & _)]); [| lia].
  split; [| done]. eapply (tried_other chip n G d1 d2 mirror_pattern b2); [exact Htry2 | apply Hno0 | apply not_eq_sym, pattern_ne | by right | by left | lia | by apply not_eq_sym | exact Hs1].
Qed.

(** C13: the first start on a flash without a table.  A block that is not reserved is
    bad after it exactly if one of the pages that may carry it has the mark of the
    factory; the four last ones are reserved, so that they are bad for everyone but
    the tables.  If no error is reported, the table in memory is the one on the
    flash, and its mirror too. *)
Theorem first_start d buf databuf : flag (bbt_options chip) NAND_BBT_USE_FLASH = true -> none_there d bbt_pattern -> none_there d mirror_pattern -> zlen buf = buffer_length chip ->
  exists res s t, nand_default_bbt chip (State None None None d) buf databuf = Some (res, s) /\ bbt s = Some t
    /\ (forall b allowbbt, 0 <= b < n - 4 -> nand_isbad_bbt chip t (b * esize) allowbbt = Some (negb (unmarked d b)))
    /\ (forall b, n - 4 <= b < n -> nand_isbad_bbt chip t (b * esize) false = Some true /\ nand_isbad_bbt chip t (b * esize) true = Some (negb (unmarked d b)))
    /\ (res = 0 -> known chip n s t).
Proof.
  intros Hf Hno1 Hno2 Hbuf. rewrite (start_default chip n G) by done. pose proof default_main as Hd1. pose proof default_mirror as Hd2. destruct (default_fields _ _ Hd1) as (Ho1 & _). destruct (ge_blocks _ _ G) as (_ & Hn4 & _).
  unfold nand_scan_bbt. cbn [bbt_td bbt_md dev]. rewrite (size_shift chip n G) by lia. change (n / 2 ^ 2) with tsize.
  unfold verify_bbt_descr. rewrite (bug_on_default chip n G _ _ Hd1), (bug_on_default chip n G _ _ Hd2). cbn [mbind option_bind].
  change (opt bbt_main_descr NAND_BBT_ABSPAGE) with false. cbv iota. unfold search_read_bbts.
  assert (forall td pat buf, default_descr td pat -> none_there d pat -> zlen buf = buffer_length chip -> exists buf', search_bbt chip d td buf = Some (reset td, buf') /\ zlen buf' = buffer_length chip) as Hsearch.
  { intros td pat buf0 Hd Hno Hb0. apply (search_state chip n G L d td pat (n - 1) absent buf0 Hd); [apply none_state; [done | lia] | done]. }
  destruct (Hsearch _ _ buf Hd1 Hno1 Hbuf) as (buf1 & -> & Hbuf1). cbn [mbind option_bind]. destruct (Hsearch _ _ buf1 Hd2 Hno2 Hbuf1) as (buf2 & -> & Hbuf2). cbn [mbind option_bind].
  fold bd. destruct (create_new d _ _ buf2 Hd1 Hd2 Hno1 Hno2 Hbuf2) as (res & s & t & td' & md' & -> & Ht & Hb & Htd & Hmd & Hdt & Hdm & Hok). cbn [mbind option_bind]. rewrite Htd. cbn [mbind option_bind].
  destruct (marks_split d t Ht) as (pre & x & Et & Er & Hl & Hby & Hx & _ & _ & Hpr). rewrite Et in Hb.
  rewrite (mark_bbt_region_spec chip n G s td' _ buf2 pre x) by done. cbn [mbind option_bind]. change (bbt_md (set_bbt _ s)) with (bbt_md s). rewrite Hmd.
  pose proof Hpr as (pre' & x' & Er' & _ & Hby' & _ & Hx'). rewrite Er in Er'. apply app_inj_tail in Er' as [<- <-]. rewrite Er in Hby'. apply Forall_app in Hby' as [_ Hxb']. apply Forall_inv in Hxb'.
  rewrite (mark_bbt_region_spec chip n G _ md' _ buf2 pre (Z.lor x 0xAA)) by done. cbn [mbind option_bind]. rewrite Hx', <- Er. eexists res, _, (reserved t). split; [done |]. split; [done |].
  pose proof Hpr as (_ & _ & _ & Hrl & _). pose proof (reserved_codes d t Ht) as [Hc1 Hc2]. split; [| split].
  - intros b al Hb'. rewrite (isbad_block chip n G) by (done || lia). unfold is_bad. rewrite Hc1 by done. by destruct (unmarked d b).
  - intros b Hb'. rewrite !(isbad_block chip n G) by (done || lia). unfold is_bad. rewrite Hc2 by done. by destruct (unmarked d b).
  - intros Hr. destruct (Hok Hr) as (b1 & b2 & Hne & Hp1 & Hp2 & Hv1 & Hv2 & Hs1 & Hs2). exists b1, b2, 1. split; [| done]. split; cbn [set_bbt bbt bbt_td bbt_md dev]; try done; [by exists td' | by exists md'].
Qed.
End Boot.
