(* ===== verification/BbtFlash.v ===== *)
(** * A flash for the bad block table

    A chip of eight blocks of two pages, which fails after a number of operations:
    it obeys the laws, and the theorems apply to it.  The last section shows what
    the code does not handle. *)

From S2P Require Import Prelude NandBbt BbtFacts BbtSurvive BbtMark BbtBoot.

(** ** The flash *)

(** The bytes, the spare bytes of the pages, the pages that cannot be read, and
    the time that is left before the supply fails: erasing a block, writing a page
    or a mark takes two steps, and is interrupted when there is one left. *)
Record sim := Sim { s_byte : Z -> Z; s_spare : Z -> list Z; s_bad : Z -> bool; s_left : Z }.

Definition chip8 : nand_chip := Geometry 256 256 4 5 8 32 16 16 0 false NAND_BBT_USE_FLASH.
Definition blank_page : list Z := replicate 16 255.
Definition pad (l : list Z) : list Z := take 16 ((u8 <$> l) ++ blank_page).

#[export] Instance sim_view : FlashView sim := { byte := fun d a => u8 (s_byte d a); spare := fun d p => pad (s_spare d p); damaged := s_bad }.

Definition sim_erase (d : sim) (addr : Z) : sim * Z :=
  if s_left d <=? 0 then (d, - EIO)
  else if s_left d =? 1 then (Sim (s_byte d) (s_spare d) (fun p => if p / 2 =? addr / 32 then true else s_bad d p) 0, - EIO)
  else (Sim (fun a => if a / 32 =? addr / 32 then 255 else s_byte d a) (fun p => if p / 2 =? addr / 32 then [] else s_spare d p)
          (fun p => if p / 2 =? addr / 32 then false else s_bad d p) (s_left d - 2), 0).

Definition program (d : sim) (p : Z) (data : list Z) (oob : option (list Z)) (bad : bool) (left : Z) : sim :=
  Sim (fun a => if a / 16 =? p then default 0 (data !! Z.to_nat (a - p * 16)) else s_byte d a)
      (fun q => if q =? p then default (s_spare d q) oob else s_spare d q) (fun q => if q =? p then bad else s_bad d q) left.
Fixpoint sim_pages (k : nat) (d : sim) (p : Z) (data : list Z) (oob : option (list Z)) : sim * Z :=
  match k with
  | O => (d, 0)
  | S k =>
      if s_left d <=? 0 then (d, - EIO)
      else if s_left d =? 1 then (program d p data oob true 0, - EIO)
      else sim_pages k (program d p data oob false (s_left d - 2)) (p + 1) (drop 16 data) None
  end.
Definition sim_marker (d : sim) (to pos : Z) (marker : list Z) : sim * Z :=
  if s_left d <=? 0 then (d, - EIO)
  else (Sim (s_byte d) (fun p => if p =? to / 16 then take (Z.to_nat pos) (pad (s_spare d p)) ++ marker else s_spare d p) (s_bad d) (s_left d - 2), 0).

#[export] Instance sim_driver : NandDriver sim := {
  drv_read d from len := (if existsb (s_bad d) (seqZ (from / 16) ((from + len - 1) / 16 - from / 16 + 1)) then - EBADMSG else 0, byte d <$> seqZ from len);
  drv_read_oob d from len ooblen := (if (0 <? len) && s_bad d (from / 16) then - EBADMSG else 0, byte d <$> seqZ from len, take (Z.to_nat ooblen) (spare d (from / 16)));
  drv_write_oob d to data oob := sim_pages (length data / 16) d (to / 16) data oob;
  drv_erase := sim_erase;
  drv_write_marker := sim_marker;
  drv_block_bad d ofs := if decide (head (spare d (ofs / 16)) = Some 255) then 0 else 1 }.

Lemma chip8_ok : geometry_ok chip8 8.
Proof. split; vm_compute; try (split; [done |]); try done; split; done. Qed.

Lemma pad_spec l : length (pad l) = 16%nat /\ is_bytes (pad l).
Proof.
  split; [unfold pad; rewrite length_take, length_app; change (length blank_page) with 16%nat; lia |]. apply Forall_take, Forall_app_2; [| by apply Forall_replicate; vm_compute].
  apply Forall_fmap, Forall_forall. intros x _. apply u8_byte.
Qed.

Lemma pad_id l : zlen l = 16 -> is_bytes l -> pad l = l.
Proof.
  intros Hl Hb. unfold pad. rewrite take_app_length' by (rewrite length_fmap; lia). rewrite <- (list_fmap_id l) at 2. apply Forall_fmap_ext_1. eapply Forall_impl; [exact Hb |].
  intros x Hx. by apply wrap_small.
Qed.

Lemma raised_refl l : raised l l.
Proof. intros i x y -> [= ->]. apply Z.land_diag. Qed.

(** *** Pages of 16 bytes, two of them in a block *)

Lemma program_other d p data oob bad left q : q <> p -> same_page chip8 d (program d p data oob bad left) q.
Proof.
  intros Hq. unfold same_page, program. cbn [byte spare damaged sim_view s_byte s_spare s_bad]. change (writesize chip8) with 16. rewrite (proj2 (Z.eqb_neq q p)) by done.
  split_and!; [| done | done]. intros a Ha. by rewrite (proj2 (Z.eqb_neq (a / 16) p)) by (Z.to_euclidean_division_equations; lia).
Qed.

Lemma program_has d p data oob bad left i : is_bytes data -> 16 <= zlen data -> 0 <= i < 16 -> data !! Z.to_nat i = Some (byte (program d p data oob bad left) (p * 16 + i)).
Proof.
  intros Hb Hl Hi. cbn [byte sim_view program s_byte]. rewrite (proj2 (Z.eqb_eq ((p * 16 + i) / 16) p)) by (Z.to_euclidean_division_equations; lia). replace (p * 16 + i - p * 16) with i by lia.
  destruct (lookup_lt_is_Some_2 data (Z.to_nat i)) as [x Hx]; [lia |]. rewrite Hx. cbn [default]. f_equal. symmetry. apply wrap_small. by apply (proj1 (Forall_lookup _ _) Hb _ _ Hx).
Qed.

Lemma program_page d p data oob bad left : spare (program d p data (Some oob) bad left) p = pad oob /\ damaged (program d p data (Some oob) bad left) p = bad.
Proof. cbn [spare damaged sim_view program s_spare s_bad]. by rewrite Z.eqb_refl. Qed.

Lemma same_page_trans (d d1 d2 : sim) p : same_page chip8 d d1 p -> same_page chip8 d1 d2 p -> same_page chip8 d d2 p.
Proof. intros (A1 & A2 & A3) (B1 & B2 & B3). split_and!; [intros a Ha; by rewrite B1, A1 | by rewrite B2 | by rewrite B3]. Qed.

Lemma same_erased d d' p : same_page chip8 d d' p -> erased_page chip8 d p -> erased_page chip8 d' p.
Proof. intros (S1 & S2 & S3) (E1 & E2 & E3). split_and!; [intros a Ha; by rewrite S1, E1 | by rewrite S2 | by rewrite S3]. Qed.

(** The pages of a block, one after the other. *)
Lemma sim_write_law d b data oob : 0 <= b < 8 -> erased chip8 d b -> is_bytes data -> 0 < zlen data <= 32 -> zlen data mod 16 = 0 -> zlen oob = 16 -> is_bytes oob ->
  exists d' res, sim_pages (length data / 16) d (b * 2) data (Some oob) = (d', res) /\ others_same chip8 8 d d' b
  /\ (written chip8 d' b (zlen data / 16) data oob \/ res < 0 /\ half_written chip8 d' b data oob).
Proof.
  intros Hb He Hby Hlen Hmod Hol Hoby. assert (erased_page chip8 d (b * 2) /\ erased_page chip8 d (b * 2 + 1)) as [He0 He1] by (split; apply He; change (ppb chip8) with 2; lia).
  assert (forall d', (forall q, q <> b * 2 -> q <> b * 2 + 1 -> same_page chip8 d d' q) -> others_same chip8 8 d d' b) as Hoth.
  { intros d' Hq b' Hb' Hne p Hp. change (ppb chip8) with 2 in Hp. apply Hq; lia. }
  assert (forall d', same_page chip8 d d' (b * 2 + 1) -> zlen data / 16 > 0 -> (erased_page chip8 d' (b * 2) \/ damaged d' (b * 2) = true /\ raised oob (spare d' (b * 2))) -> half_written chip8 d' b data oob) as Hfirst.
  { intros d' Hs Hk Hp. exists 0. change (writesize chip8) with 16. split; [lia |]. change (ppb chip8) with 2. rewrite Z.add_0_r, decide_True by done. split; [split_and!; lia |]. split; [exact Hp |].
    intros p Hp'. assert (p = b * 2 + 1) as -> by lia. by eapply same_erased. }
  assert (forall d', (forall i, 0 <= i < 16 -> data !! Z.to_nat i = Some (byte d' (b * 2 * 16 + i))) -> spare d' (b * 2) = oob -> damaged d' (b * 2) = false -> written chip8 d' b 1 data oob) as Hone.
  { intros d' Hi Hs Hd. unfold written. change (writesize chip8) with 16. change (esize chip8) with 32. change (ppb chip8) with 2. split_and!; [| done |].
    - intros i Hi'. rewrite Hi by lia. do 2 f_equal. lia.
    - intros p Hp. by assert (p = b * 2) as -> by lia. }
  assert (1 <= zlen data / 16) as Hk1 by (Z.to_euclidean_division_equations; lia). assert (16 <= zlen data) as Hl16 by (Z.to_euclidean_division_equations; lia).
  destruct (length data / 16)%nat as [| k] eqn:Hk; [exfalso; apply Nat.div_small_iff in Hk; lia |]. cbn [sim_pages].
  destruct (Z.leb_spec (s_left d) 0).
  { eexists _, _. split; [done |]. split; [by apply Hoth |]. right. split; [done |]. apply Hfirst; [done | lia | by left]. }
  destruct (Z.eqb_spec (s_left d) 1).
  { eexists _, _. split; [done |]. split; [apply Hoth; intros q Hq _; by apply program_other |]. right. split; [done |]. apply Hfirst; [apply program_other; lia | lia |]. right.
    destruct (program_page d (b * 2) data oob true 0) as [-> ->]. split; [done |]. rewrite pad_id by done. apply raised_refl. }
  set (d1 := program d (b * 2) data (Some oob) false (s_left d - 2)). destruct (program_page d (b * 2) data oob false (s_left d - 2)) as [Hs1 Hd1]. fold d1 in Hs1, Hd1. rewrite pad_id in Hs1 by done.
  assert (written chip8 d1 b 1 data oob) as Hw1 by (apply Hone; [intros i Hi; by apply program_has | done | done]).
  assert (forall q, q <> b * 2 -> same_page chip8 d d1 q) as Ho1 by (intros q Hq; by apply program_other).
  assert (k = O /\ zlen data / 16 = 1 \/ k = 1%nat /\ zlen data / 16 = 2 /\ zlen data = 32) as [[-> Hz] | (-> & Hz & Hz32)].
  { assert (zlen data = 16 \/ zlen data = 32) as [E | E] by (Z.to_euclidean_division_equations; lia).
    - left. rewrite E. assert (length data = 16)%nat as E' by lia. rewrite E' in Hk. cbn in Hk. split; [lia | done].
    - right. rewrite E. assert (length data = 32)%nat as E' by lia. rewrite E' in Hk. cbn in Hk. split; [lia | done]. }
  { cbn [sim_pages]. eexists _, _. split; [done |]. split; [apply Hoth; intros q Hq _; by apply Ho1 |]. left. by rewrite Hz. }
  assert (erased_page chip8 d1 (b * 2 + 1)) as He1' by (eapply same_erased; [apply Ho1; lia | done]).
  assert (forall d', written chip8 d' b 1 data oob -> (erased_page chip8 d' (b * 2 + 1) \/ damaged d' (b * 2 + 1) = true) -> half_written chip8 d' b data oob) as Hsecond.
  { intros d' Hw Hp. exists 1. change (writesize chip8) with 16. rewrite Hz. split; [lia |]. split; [done |]. change (ppb chip8) with 2. rewrite decide_False by done. split; [| intros p Hp'; lia].
    destruct Hp as [Hp | Hp]; [by left | right]. split; [done |]. by intros i x y Hi. }
  cbn [sim_pages]. destruct (Z.leb_spec (s_left d1) 0).
  { eexists _, _. split; [done |]. split; [apply Hoth; intros q Hq _; by apply Ho1 |]. right. split; [done |]. by apply Hsecond; [| left]. }
  assert (forall d2, same_page chip8 d1 d2 (b * 2) -> written chip8 d2 b 1 data oob) as Hkeep.
  { intros d2 (S1 & S2 & S3). destruct Hw1 as (W1 & W2 & W3). change (writesize chip8) with 16 in *. apply Hone; [| rewrite S2; by apply W2 | rewrite S3; apply W3; change (ppb chip8) with 2; lia].
    intros i Hi. rewrite S1 by lia. rewrite W1 by lia. change (esize chip8) with 32. do 2 f_equal. lia. }
  destruct (Z.eqb_spec (s_left d1) 1).
  { eexists _, _. split; [done |]. split; [apply Hoth; intros q Hq Hq2; eapply same_page_trans; [by apply Ho1 | by apply program_other] |].
    right. split; [done |]. apply Hsecond; [apply Hkeep, program_other; lia | right]. cbn [damaged sim_view program s_bad]. by rewrite Z.eqb_refl. }
  set (d2 := program d1 (b * 2 + 1) (drop 16 data) None false (s_left d1 - 2)). eexists _, _. split; [done |].
  split; [apply Hoth; intros q Hq Hq2; eapply same_page_trans; [by apply Ho1 | by apply program_other] |].
  left. rewrite Hz. destruct (Hkeep d2) as (W1 & W2 & W3); [apply program_other; lia |]. change (writesize chip8) with 16 in *. change (ppb chip8) with 2 in *. change (esize chip8) with 32 in *. split_and!; change (writesize chip8) with 16; change (ppb chip8) with 2; change (esize chip8) with 32.
  - intros i Hi. destruct (decide (i < 16)); [by apply W1; lia |].
    pose proof (program_has d1 (b * 2 + 1) (drop 16 data) None false (s_left d1 - 2) (i - 16)) as Hp. fold d2 in Hp. rewrite lookup_drop in Hp. replace (16 + Z.to_nat (i - 16))%nat with (Z.to_nat i) in Hp by lia.
    rewrite Hp; [do 2 f_equal; lia | by apply Forall_drop | rewrite length_drop; lia | lia].
  - intros _. apply W2. lia.
  - intros p Hp. destruct (Z.eq_dec p (b * 2)) as [-> | Hne]; [apply W3; lia |]. assert (p = b * 2 + 1) as -> by lia. cbn [damaged sim_view]. unfold d2, program. cbn [s_bad]. by rewrite Z.eqb_refl.
Qed.

Lemma pages_in from len p : 0 < len -> p ∈ seqZ (from / 16) ((from + len - 1) / 16 - from / 16 + 1) <-> from < (p + 1) * 16 /\ p * 16 < from + len.
Proof. intros Hl. rewrite elem_of_seqZ. Z.to_euclidean_division_equations. lia. Qed.

Lemma sim_laws : flash_laws chip8 8.
Proof.
  split; change (esize chip8) with 32; change (ppb chip8) with 2; change (oobsize chip8) with 16; change (writesize chip8) with 16.
  - intros d p _. apply pad_spec.
  - intros d from len _ Hl _ Hd. cbn [drv_read sim_driver]. assert (existsb (s_bad d) (seqZ (from / 16) ((from + len - 1) / 16 - from / 16 + 1)) = false) as ->; [| done].
    apply not_true_iff_false. rewrite existsb_exists. intros (p & Hp & Hb). apply list_elem_of_In, pages_in in Hp; [| done]. destruct Hp as [H1 H2]. specialize (Hd p H1 H2). cbn [damaged sim_view] in Hd. congruence.
  - intros d from len p _ Hl _ H1 H2 Hd. cbn [drv_read sim_driver]. assert (existsb (s_bad d) (seqZ (from / 16) ((from + len - 1) / 16 - from / 16 + 1)) = true) as ->.
    { apply existsb_exists. exists p. split; [apply list_elem_of_In; by apply pages_in | exact Hd]. }
    eexists. split; [done |]. rewrite length_fmap, length_seqZ. lia.
  - intros d b Hb. cbn [drv_read_oob sim_driver]. replace (b * 32 / 16) with (b * 2) by (Z.to_euclidean_division_equations; lia). eexists _, _. split; [f_equal; apply take_ge; change (spare d ?p) with (pad (s_spare d p)); by rewrite (proj1 (pad_spec _)) |].
    split; [destruct ((0 <? 16) && _); auto |]. rewrite length_fmap, length_seqZ. lia.
  - intros d b Hb. cbn [drv_erase sim_driver]. unfold sim_erase. rewrite Z.div_mul by done. destruct (Z.leb_spec (s_left d) 0); [| destruct (Z.eqb_spec (s_left d) 1)]; (eexists _, _; split; [done |]).
    + split; [by intros b' _ _; apply same_block_refl |]. right. split; [done |]. intros p _. left. apply same_page_refl.
    + split.
      * intros b' Hb' Hne p Hp. change (ppb chip8) with 2 in Hp. split; [done |]. split; [done |]. cbn [damaged sim_view s_bad]. by rewrite (proj2 (Z.eqb_neq (p / 2) _)) by (Z.to_euclidean_division_equations; lia).
      * right. split; [done |]. intros p Hp. change (ppb chip8) with 2 in Hp. right. right. cbn [damaged sim_view s_bad spare s_spare]. rewrite (proj2 (Z.eqb_eq (p / 2) _)) by (Z.to_euclidean_division_equations; lia). split; [done | apply raised_refl].
    + split.
      * intros b' Hb' Hne p Hp. change (ppb chip8) with 2 in Hp. unfold same_page. change (writesize chip8) with 16. cbn [damaged sim_view s_bad spare s_spare byte s_byte]. rewrite (proj2 (Z.eqb_neq (p / 2) _)) by (Z.to_euclidean_division_equations; lia).
        split_and!; [| done | done]. intros a Ha. by rewrite (proj2 (Z.eqb_neq (a / 32) _)) by (Z.to_euclidean_division_equations; lia).
      * left. intros p Hp. change (ppb chip8) with 2 in Hp. unfold erased_page. change (writesize chip8) with 16. cbn [damaged sim_view s_bad spare s_spare byte s_byte]. rewrite (proj2 (Z.eqb_eq (p / 2) _)) by (Z.to_euclidean_division_equations; lia).
        split_and!; [| done | done]. intros a Ha. by rewrite (proj2 (Z.eqb_eq (a / 32) _)) by (Z.to_euclidean_division_equations; lia).
  - intros d b data oob Hb He Hby Hlen Hmod Hl Ho. cbn [drv_write_oob sim_driver]. replace (b * 32 / 16) with (b * 2) by (Z.to_euclidean_division_equations; lia). by apply sim_write_law.
  - intros d b pos marker i Hb Hi. cbn [drv_write_marker sim_driver]. unfold sim_marker. destruct (s_left d <=? 0); [by intros b' _ _; apply same_block_refl |]. cbn [fst].
    intros b' Hb' Hne p Hp. change (ppb chip8) with 2 in Hp. split; [done |]. cbn [spare damaged sim_view s_spare s_bad]. by rewrite (proj2 (Z.eqb_neq p _)) by (Z.to_euclidean_division_equations; lia).
Qed.

Lemma sim_marks : marks_ok chip8 8.
Proof.
  split; [by vm_compute | done | done | done |]. intros d p Hp. change (writesize chip8) with 16. change (oobsize chip8) with 16. cbn [drv_read_oob sim_driver]. rewrite Z.div_mul by done.
  change (0 <? 0) with false. cbn [andb]. do 2 f_equal. apply take_ge. change (spare d ?p) with (pad (s_spare d p)). by rewrite (proj1 (pad_spec _)).
Qed.

(** ** The theorems on this chip *)

Definition buf8 : list Z := replicate 64 7.
Definition blank8 : sim := Sim (fun _ => 255) (fun p => if p =? 4 then 0 :: replicate 15 255 else []) (fun _ => false) 200.   (* block 2 has a mark *)
Definition boot8 (d : sim) : Z * state := default (-1, State None None None d) (nand_default_bbt chip8 (State None None None d) buf8 buf8).
(** After the first start, with [left] steps to come. *)
Definition steps (left : Z) (d : sim) : sim := Sim (s_byte d) (s_spare d) (s_bad d) left.
Definition started (left : Z) : state := let s := (boot8 blank8).2 in State (bbt s) (bbt_td s) (bbt_md s) (steps left (dev s)).
Definition table8 : list Z := [48; 170].

Lemma first_start_witness : zlen buf8 = buffer_length chip8 /\ exists res s t, nand_default_bbt chip8 (State None None None blank8) buf8 buf8 = Some (res, s) /\ bbt s = Some t
  /\ nand_isbad_bbt chip8 t (2 * esize chip8) false = Some true /\ nand_isbad_bbt chip8 t (3 * esize chip8) false = Some false.
Proof.
  split; [reflexivity |]. destruct (first_start chip8 8 chip8_ok sim_laws sim_marks blank8 buf8 buf8) as (res & s & t & Hs & Ht & Hbad & _).
  - reflexivity.
  - intros b Hb. assert (b = 4 \/ b = 5 \/ b = 6 \/ b = 7) as [-> | [-> | [-> | ->]]] by lia; vm_compute; discriminate.
  - intros b Hb. assert (b = 4 \/ b = 5 \/ b = 6 \/ b = 7) as [-> | [-> | [-> | ->]]] by lia; vm_compute; discriminate.
  - reflexivity.
  - exists res, s, t. split; [exact Hs |]. split; [exact Ht |]. split; rewrite Hbad by lia; vm_compute; reflexivity.
Defined.

Lemma started_readable left b q : q = b * 2 -> s_bad (dev (started left)) q = false ->
  forall p, b * ppb chip8 <= p -> p * writesize chip8 < b * esize chip8 + tsize 8 -> damaged (dev (started left)) p = false.
Proof. change (ppb chip8) with 2. change (writesize chip8) with 16. change (esize chip8) with 32. change (tsize 8) with 2. intros -> Hb p H1 H2. by assert (p = b * 2) as -> by lia. Qed.

Lemma started_in_use left : in_use chip8 8 (started left) 7 6 1 table8 table8.
Proof.
  split; [vm_compute; reflexivity | | | done | by vm_compute | |].
  - eexists. split; [vm_compute; reflexivity |]. split; [| by vm_compute]. exists 14, 1. split; [by vm_compute | by left].
  - eexists. split; [vm_compute; reflexivity |]. split; [| by vm_compute]. exists 12, 1. split; [by vm_compute | by right].
  - split; [lia |]. split; [| split; [split; [vm_compute; reflexivity .. | by apply (started_readable left 7 14)] |]].
    + intros b Hb Hne. assert (b = 4 \/ b = 5 \/ b = 6) as [-> | [-> | ->]] by lia; vm_compute; discriminate.
    + exists [48], 170. repeat split; try (by vm_compute). by repeat constructor.
  - split; [lia |]. split; [| split; [split; [vm_compute; reflexivity .. | by apply (started_readable left 6 12)] |]].
    + intros b Hb Hne. assert (b = 4 \/ b = 5 \/ b = 7) as [-> | [-> | ->]] by lia; vm_compute; discriminate.
    + exists [48], 170. repeat split; try (by vm_compute). by repeat constructor.
Qed.

Lemma proper8 : proper 8 table8.
Proof. exists [48], 170. repeat split; try (by vm_compute). by repeat constructor. Qed.

(** The supply fails while the first table is written. *)
Lemma nand_block_markbad_survives_witness : zlen buf8 = buffer_length chip8 /\ exists res s' t', nand_block_markbad chip8 (started 7) (1 * esize chip8) buf8 = Some (res, s') /\ bbt s' = Some t'
  /\ nand_isbad_bbt chip8 t' (1 * esize chip8) false = Some true
  /\ exists r s2, nand_default_bbt chip8 (State None None None (dev s')) buf8 buf8 = Some (r, s2) /\ (bbt s2 = Some t' \/ res <> 0 /\ bbt s2 = Some table8).
Proof.
  split; [reflexivity |].
  destruct (nand_block_markbad_survives chip8 8 chip8_ok sim_laws eq_refl eq_refl eq_refl (started 7) 7 6 1 table8 1 buf8 (started_in_use 7) proper8 ltac:(by vm_compute) ltac:(lia) eq_refl) as (res & s' & t' & Hm & Hb & Hbad & Hboot).
  destruct (Hboot buf8 buf8 eq_refl) as (r & s2 & Hs2 & Hor). exists res, s', t'. split; [exact Hm |]. split; [exact Hb |]. split; [rewrite Hbad by lia; reflexivity |]. exists r, s2. split; [exact Hs2 | exact Hor].
Defined.

(** A block is marked, and the chip is started again. *)
Lemma bad_blocks_stay_bad_witness : exists s', rtc (used chip8 8) (started 100) s' /\ exists t', known chip8 8 s' t' /\ nand_isbad_bbt chip8 t' (2 * esize chip8) false = Some true.
Proof.
  destruct (nand_block_markbad chip8 (started 100) (1 * esize chip8) buf8) as [[r1 s1] |] eqn:E1; [| exfalso; vm_compute in E1; discriminate].
  assert (r1 = 0) as -> by (assert (fst <$> nand_block_markbad chip8 (started 100) (1 * esize chip8) buf8 = Some 0) as E by (vm_compute; reflexivity); rewrite E1 in E; by injection E).
  destruct (nand_default_bbt chip8 (State None None None (dev s1)) buf8 buf8) as [[r2 s2] |] eqn:E2.
  2: { exfalso. assert ((x ← nand_block_markbad chip8 (started 100) (1 * esize chip8) buf8; fst <$> nand_default_bbt chip8 (State None None None (dev x.2)) buf8 buf8) = Some 0) as E by (vm_compute; reflexivity).
       rewrite E1 in E. cbn [mbind option_bind snd] in E. rewrite E2 in E. discriminate. }
  assert (rtc (used chip8 8) (started 100) s2) as Hr.
  { apply (rtc_l _ _ s1); [eapply used_mark; [| | exact E1]; [lia | reflexivity] |]. apply rtc_once. eapply used_start; [| exact E2]. reflexivity. }
  exists s2. split; [exact Hr |]. destruct (bad_blocks_stay_bad chip8 8 chip8_ok sim_laws eq_refl eq_refl eq_refl (started 100) s2 table8 Hr) as (t' & Hk & Hbad).
  - exists 7, 6, 1. split; [apply started_in_use | apply proper8].
  - exists t'. split; [exact Hk |]. apply Hbad; [lia | reflexivity].
Defined.

(** However many steps are left before the supply fails, the next start finds the
    old or the new table. *)
Example interrupted_marks : forallb (fun left =>
  match nand_block_markbad chip8 (started (Z.of_nat left)) (1 * esize chip8) buf8 with
  | Some (res, s) => match bbt (boot8 (steps 200 (dev s))).2 with
      | Some t => bool_decide (t = [52; 170]) || bool_decide (t = table8) && negb (res =? 0)
      | None => false end
  | None => false end) (seq 0 16) = true.
Proof. vm_compute. reflexivity. Qed.

(** ** What is not handled *)

Lemma zeros_good chip k offs allowbbt : 0 <= s32 (Z.shiftr offs (bbt_erase_shift chip - 1)) < 8 * Z.of_nat k -> nand_isbad_bbt chip (replicate k 0) offs allowbbt = Some false.
Proof.
  intros Hk. unfold nand_isbad_bbt. set (h := s32 _) in *. rewrite Z.shiftr_div_pow2 by lia. change (2 ^ 3) with 8. unfold get. rewrite (proj2 (Z.leb_le _ _)) by (apply Z.div_pos; lia).
  rewrite lookup_replicate_2 by (Z.to_euclidean_division_equations; lia). cbn [mbind option_bind]. by rewrite Z.shiftr_0_l.
Qed.

(** C39: the tables are there, of the same version, but their data cannot be read,
    not because of the error correction.  No error is reported: the table in memory
    stays the empty one, for which every block is good. *)
Theorem table_read_error_ignored {D} `{NandDriver D} (chip : nand_chip) (d : D) bd td md k buf :
  (forall from len, drv_read d from len = (- EIO, [])) ->
  decide_tables td md = (false, 0, from_td) -> opt td NAND_BBT_NO_OOB = false -> 0 <= bbt_erase_shift chip < 32 ->
  0 < Z.shiftr (numblocks chip td * bits_of td) 3 -> 
  exists s, check_create chip d bd td md (replicate k 0) buf = Some (0, s) /\ bbt s = Some (replicate k 0) /\ dev s = d
    /\ forall offs allowbbt, 0 <= s32 (Z.shiftr offs (bbt_erase_shift chip - 1)) < 8 * Z.of_nat k -> nand_isbad_bbt chip (replicate k 0) offs allowbbt = Some false.
Proof.
  intros Hr Hd Ho Hes Htot. unfold check_create. cbn [check_create_loop]. rewrite Hd. cbn [andb negb]. cbn [mbind option_bind].
  set (chipsel := if opt td NAND_BBT_PERCHIP then 0 else -1).
  assert (exists res, read_first chip d from_td td md chipsel (replicate k 0) buf = Some (res, replicate k 0, buf) /\ (res = - EIO \/ res = - EINVAL)) as (res & -> & Hres).
  { assert (read_first chip d from_td td md chipsel (replicate k 0) buf = read_abs_bbt chip d td chipsel (replicate k 0) buf) as -> by (by destruct md).
    unfold read_abs_bbt. assert (opt td NAND_BBT_PERCHIP && negb ((chipsel =? -1) || (chipsel =? 0)) = false) as -> by (subst chipsel; by destruct (opt td NAND_BBT_PERCHIP)).
    unfold read_bbt. set (tot := Z.shiftr _ 3) in *. cbn [read_bbt_loop]. rewrite (proj2 (Z.eqb_neq tot 0)) by lia. unfold add_marker_len. rewrite Ho. cbn [negb].
    rewrite Z.sub_0_r, Z.shiftl_1_l. pose proof (Z.pow_pos_nonneg 2 (bbt_erase_shift chip)). assert (2 ^ bbt_erase_shift chip < 2 ^ 32) by (apply Z.pow_lt_mono_r; lia). rewrite wrap_small by lia.
    assert (forall from, exists r, mtd_read chip d from (Z.min tot (2 ^ bbt_erase_shift chip)) = (r, []) /\ (r = - EIO \/ r = - EINVAL)) as Hm.
    { intros from. unfold mtd_read. rewrite (proj2 (Z.eqb_neq _ 0)) by lia. rewrite Hr. destruct (_ || _); [exists (- EINVAL) | exists (- EIO)]; (split; [done |]); [by right | by left]. }
    destruct (Hm (Z.shiftl (bd_page td) (page_shift chip) + 0)) as (r & -> & Hr'). exists r. split; [| done].
    assert (put buf 0 [] = Some buf) as -> by (unfold put; cbn [length]; rewrite Z.leb_refl, (proj2 (Z.leb_le (0 + Z.of_nat 0) _)) by lia; done). cbn [mbind option_bind].
    by destruct Hr' as [-> | ->]. }
  cbn [mbind option_bind]. assert (mtd_is_eccerr res = false /\ mtd_is_bitflip res = false) as [-> ->] by (by destruct Hres as [-> | ->]).
  cbn [read_second mbind option_bind]. change (mtd_is_eccerr 0) with false. change (mtd_is_bitflip 0) with false. cbn [orb].
  destruct md as [md |]; cbn [mbind option_bind]; change (negb (Z.land 0 1 =? 0)) with false; change (negb (Z.land 0 2 =? 0)) with false; cbn [andb mbind option_bind]; change (0 <? 0) with false; cbv iota;
    (eexists; split; [done |]; split; [done |]; split; [done |]; intros; by apply zeros_good).
Qed.

(** A chip whose data cannot be read. *)
Record broken := Broken { whole : sim }.
#[export] Instance broken_driver : NandDriver broken := {
  drv_read _ _ _ := (- EIO, []);
  drv_read_oob d from len ooblen := drv_read_oob (whole d) from len ooblen;
  drv_write_oob d to data oob := let '(d', r) := drv_write_oob (whole d) to data oob in (Broken d', r);
  drv_erase d addr := let '(d', r) := drv_erase (whole d) addr in (Broken d', r);
  drv_write_marker d to pos marker := let '(d', r) := drv_write_marker (whole d) to pos marker in (Broken d', r);
  drv_block_bad d ofs := drv_block_bad (whole d) ofs }.

Lemma table_read_error_ignored_witness : exists s, check_create chip8 (Broken (dev (started 100))) (bd chip8) (set_page 14 (set_version 1 bbt_main_descr)) (Some (set_page 12 (set_version 1 bbt_mirror_descr))) (replicate 2 0) buf8 = Some (0, s)
  /\ bbt s = Some (replicate 2 0) /\ nand_isbad_bbt chip8 (replicate 2 0) (2 * 32) false = Some false.
Proof.
  destruct (table_read_error_ignored chip8 (Broken (dev (started 100))) (bd chip8) (set_page 14 (set_version 1 bbt_main_descr)) (Some (set_page 12 (set_version 1 bbt_mirror_descr))) 2 buf8) as (s & Hs & Hb & _ & Hg).
  - intros from len. reflexivity.
  - reflexivity.
  - reflexivity.
  - vm_compute. split; [discriminate | reflexivity].
  - vm_compute. reflexivity.
  - exists s. split; [exact Hs |]. split; [exact Hb |]. apply Hg. vm_compute. split; [discriminate | reflexivity].
Defined.

(** The whole start on such a chip: block 2 was bad. *)
Example broken_start : match nand_default_bbt chip8 (State None None None (Broken (dev (started 100)))) buf8 buf8 with
  Some (res, s) => (res, bbt s) | None => (-1, None) end = (0, Some [0; 170]).
Proof. vm_compute. reflexivity. Qed.

(** The tables when the version wrapped and the mirror was not written: 0 and 255.
    The mirror is written again, with the version 255, so at every start it is
    erased and written: four steps. *)
Definition wrapped : sim := Sim (s_byte (dev (started 100))) (fun p => if p =? 14 then <[12%nat := 0]> (pad (s_spare (dev (started 100)) 14)) else if p =? 12 then <[12%nat := 255]> (pad (s_spare (dev (started 100)) 12)) else s_spare (dev (started 100)) p) (fun _ => false) 200.
Lemma wrapped_mirror_rewritten : let d := wrapped in let '(r1, s1) := boot8 d in let '(r2, s2) := boot8 (dev s1) in
  (r1, r2) = (0, 0) /\ (version_at chip8 d 7, version_at chip8 d 6) = (0, 255) /\ (version_at chip8 (dev s2) 7, version_at chip8 (dev s2) 6) = (0, 255)
  /\ (s_left (dev s1), s_left (dev s2)) = (196, 192).
Proof. vm_compute. repeat split; reflexivity. Qed.

(** A chip of 128 blocks: the table has 32 bytes, in two pages of 16.  The table of
    the first start knows that block 100 is bad.  While block 1 is marked the supply
    fails between the pages of the table: the next start finds the first page with
    the marks and the new version, and the second page is erased, so block 100 is
    good, and the table is copied over its mirror. *)
Definition chip128 : nand_chip := Geometry 4096 4096 4 5 12 32 16 16 0 false NAND_BBT_USE_FLASH.
Definition blank128 : sim := Sim (fun _ => 255) (fun p => if p =? 200 then 0 :: replicate 15 255 else []) (fun _ => false) 1000.
Definition boot128 (d : sim) : Z * state := default (-1, State None None None d) (nand_default_bbt chip128 (State None None None d) buf8 buf8).
Definition bad128 (s : state (D := sim)) (b : Z) : option bool := t ← bbt s; nand_isbad_bbt chip128 t (b * 32) false.

Lemma large_table_cut : let '(r0, s0) := boot128 blank128 in
  match nand_block_markbad chip128 (State (bbt s0) (bbt_td s0) (bbt_md s0) (steps 8 (dev s0))) (1 * 32) buf8 with
  | Some (r1, s1) => let '(r2, s2) := boot128 (steps 1000 (dev s1)) in let '(r3, s3) := boot128 (dev s2) in
      (r0, r1, r2, r3) = (0, - EIO, 0, 0)
      /\ (bad128 s0 100, bad128 s1 100, bad128 s2 100, bad128 s3 100) = (Some true, Some true, Some false, Some false)
      /\ (version_at chip128 (dev s2) 127, version_at chip128 (dev s2) 126) = (2, 2)
  | None => False
  end.
Proof. vm_compute. repeat split; reflexivity. Qed.
